(* ===== verification/_CoqProject ===== *)
-Q . S2P
Prelude.v
CStr.v
Double.v
DoubleFacts.v
Json.v
JsonFacts.v
MergePatch.v
StatusHub.v
StatusHubFacts.v
StatusHttp.v
StatusServer.v
StatusServerFacts.v
Numerics.v
Deathmatch.v
MatchRules.v
MatchRulesFacts.v
VoteLogic.v
PauseState.v
Stats.v
StatsFacts.v
DamageLedger.v
StatsJson.v
MatchEnd.v
RoundRestore.v
Retention.v
Ruleset.v
RulesetFacts.v
SlotRegistry.v
RegistryFacts.v
HeaderFacts.v
RosterNames.v
Coach.v
LoadOrder.v
FleetJson.v
Spool.v
SpoolFacts.v
SpoolReopen.v
FleetProto.v
FleetProtoFacts.v
FleetCmds.v
FleetClient.v
FleetClientFacts.v
MiniJson.v
Broadcast.v
TvRules.v
TvRulesFacts.v
Path.v
EngineSurface.v
EngineSurfaceFacts.v
PluginNeeds.v
AdminCall.v
ChatForward.v
MatchConfig.v
MatchConfigFacts.v
Scenario.v
Midas.v
MapNames.v
KnifeTracker.v
CvarSnapshot.v
Modes.v
ModesLive.v
ModesEnd.v
ModesTick.v
ModesJson.v
ModesRun.v
ModesGoLive.v
ModesSeries.v
ModesFacts.v
ReloadState.v
ScrimFlow.v
ScrimFacts.v
Whitelist.v
MapVote.v
Simulation.v
Movement.v
Essentials.v
FleetState.v
FleetStateFacts.v
FleetBridge.v
FleetBridgeFacts.v
