(* ===== verification/Prelude.v ===== *)
(** * Ready Up: a verification of the match server plugin's core logic

    Ready Up is a native CS2 server plugin: a shim library ([core/]) that the engine loads, a plugin
    host with plugins behind it ([plugins/match], [plugins/fleet] and others), and shared libraries
    ([libs/readyup]).  The code keeps most of its decisions in pure files beside thin glue to the
    engine.  This development models those files as executable functions and proves what they promise
    to the glue that calls them.

    ** The parts and how they interact

    - Players and log lines.  The engine hands every log line to [HandleLogLine]
      (core/src/readyup/client_command_hook.cpp), which keeps the player registry (slot_registry.cpp)
      and routes chat commands.  [SlotRegistry.v] has the registry, the SteamID parsers and
      the handler; the registry's state is the record [Registry] (three [gmap]s and the set of
      departed players), the handler's the record [Host], and what leaves it is a list of [Effect]s.
    - Load order.  [LoadOrder.v] has the gameinfo.gi check and the claim of the process by one shim
      copy (load_order.cpp, load_order_check.cpp).
    - The match.  A match starts from a config text: [MatchConfig.v] (match_config_parser.cpp) reads it with
      [MiniJson.v] (libs/readyup/minijson.cpp) and, for the ruleset, with [Json.v].  [MatchRules.v]
      (match_rules.cpp: rules and their resolution, ready and go-live gates, playout, team names, the
      forfeit timer in [Module Forfeit]), [VoteLogic.v] (vote_logic.cpp, modules [Gg] and [Stop]),
      [PauseState.v] (pause_state.cpp), [Ruleset.v] (ruleset.cpp: presets, overrides, effective rules and
      the console commands they become), [Coach.v] (coach_rules.cpp), [Simulation.v] (simulation_rules.cpp:
      bots that play a roster), [RosterNames.v] (roster_names_rules.cpp), [AdminCall.v]
      (admin_call_logic.cpp) and [ChatForward.v] (chat_forward.cpp).
    - The match modes.  [plugins/match/readyup/modes.cpp] is the state machine that takes the server from a loaded
      match through warmup, knife round and live play to the next map.  Its globals are the record [State] of
      [Modes.v], with the clock, the players and the other components' answers in the record [Env] and everything it
      does to the world (console commands, chat, webhooks, timers) a list of [Eff]s; an operation is a computation
      of the monad [M].  [ModesLive.v] has going live, the knife round and match cvars, [ModesEnd.v] map and series
      end, [ModesTick.v] the modes' setters, the team lock and [Tick], [ModesJson.v] and [ReloadState.v] what a
      plugin reload saves (modes.cpp and reload_state.cpp).  [ModesRun.v] makes it a transition system: [Op] has a
      constructor per way into the file and [run] runs a history from [BootWorld].  The modes call the map names
      ([MapNames.v], map_names.cpp), the knife round's scores ([KnifeTracker.v], knife_tracker.cpp), the rules, and
      the cvars to put back after the match ([CvarSnapshot.v], cvar_snapshot.cpp and cvar_snapshot_glue.cpp, whose
      engine queries are answered later).  [ScrimFlow.v] (scrim_flow.cpp) makes matches of the players on an idle server and drives
      the modes through their operations; [ScrimFacts.v] has the two as one transition system.
    - GOTV.  [Broadcast.v] (libs/readyup/broadcast_profile.cpp: what a match wants of the broadcast) and [TvRules.v]
      (plugins/tv/tv_rules.cpp: which cvars to write, which to give back, and whose match is on the air).
    - The engine surface.  [EngineSurface.v] (engine_surface_core.cpp: finding functions and vtables in the
      engine's memory and checking them; signature_scan.cpp, the older scanner of the hooks),
      [PluginNeeds.v] (plugin_needs.cpp: what a plugin says it needs of it) and [Path.v] (path.cpp).
    - What a match leaves behind.  [Stats.v] (match_stats.cpp: the accumulator fed by engine events and
      [RewindTo]), [StatsJson.v] (its JSON output), [DamageLedger.v] (damage_ledger.cpp), [MatchEnd.v]
      (match_end_logic.cpp and the two deadlines of match_end.cpp), [RoundRestore.v]
      (round_restore_rules.cpp: backup files, the progress record, the recovery plan), [Retention.v]
      (retention_rules.cpp: which of those files a sweep deletes).
    - The status endpoint.  [Json.v] (the JSON value of libs/readyup/status_snapshot.cpp), [MergePatch.v]
      (RFC 7386) and [StatusHub.v] (the hub that turns submitted states into an event stream with a
      bounded ring).  [StatusHttp.v] (core/src/readyup/status_http.cpp: the request parser, the responses and the rate
      limit) and [StatusServer.v] (status_server.cpp, [Module Srv]: the record [Server] with its connections; [pass] is
      one round of the event loop, with what the sockets answer as arguments) serve it.
    - The fleet link.  [FleetJson.v] (plugins/fleet/fleet_json.cpp), [FleetProto.v] (fleet_proto.cpp: the
      envelope, the inbound stream, backoff, close codes, redaction, URL rules), [Spool.v]
      (fleet_spool.cpp: the outbound stream on a disk that can fail, and its reopening) and
      [FleetCmds.v] (fleet_cmds.cpp: the commands the platform sends) and
      [FleetClient.v] (fleet_client.cpp: how a session of the link uses them, [Module Link]; the record
      [Client] holds the spool, the tracker and the queues shared with the game thread, and [link_op] are
      the steps the two threads interleave).
    - The platform's match.  [FleetState.v] (plugins/match/readyup/fleet_state.cpp, [Module Fs]) has the state stream with
      its revisions, the fence that refuses messages of old assignments, the check of an assignment and its translation
      to the match config of [MatchConfig.v], roster updates, the resume of a failed server's match, and SHA-256 and
      base64.  [FleetBridge.v] (fleet_bridge.cpp, [Module Fb]) is the state machine that uses them: its globals are the
      record [Link], a message ([OnMessage]), the tick ([Tick]), a log line or a reload is a computation of the monad [M]
      that reads the rest of the plugin from the record [Env] and leaves a list of [Eff]s; the loaded match is the
      context of [MatchConfig.v].
    - Other plugins.  [Whitelist.v] (whitelist_rules.cpp), [MapVote.v] (mapvote_rules.cpp), [Deathmatch.v]
      (dm_rules.cpp, [Module Dm]), [Midas.v] (midas_rules.cpp, [Module Mi]), [Movement.v] (movement_rules.cpp,
      [Module Mv]), [Essentials.v] (essentials_rules.cpp, [Module Ess]: admins, console commands, default maps and map
      names) and [Scenario.v] (plugins/practice/scenario.cpp, [Module Scn]: recorded rounds that bots replay).  They use
      [Numerics.v] for what they read as numbers.

    Ruleset overrides and the progress record are read with the JSON parser of [Json.v]; the effective
    rules are published through the status hub, and [RulesetFacts.v] shows that they meet the hub's
    condition on states.  A sanitized roster name has the shape [HeaderFacts.v] needs of a name in a log
    line.  The grammar [json_value] is one definition over a string and a number parser, with the two
    readers that share it as instances.  What an override text may hold is proved in [RulesetFacts.v] and used for the
    commands the modes send ([match_commands_safe]); a broadcast profile is checked against the cvars of the match
    config by the same key for both ([assign_no_conflict]).

    ** Modelling

    [std::string] is Rocq's [string] of bytes.  [CStr.v] models the C library functions the sources use
    on it ([strtoll], [strtoull], [to_string], [find], trimming).  [double] is the IEEE 754 binary64 of
    the Standard Library's [SpecFloat] ([Double.v] and [DoubleFacts.v], with [strtod] and [%.10g]); a cast of a double to an
    integer type is [option] where it can be out of range.  [int], [int64_t] and [uint64_t] are [Z]; where
    the code converts or wraps ([to_int32], [wrap64], [to_uint32], [strtoull]) the reduction is written
    out, and theorems about values that must fit carry [int32_ok] and the like.  [map], [unordered_map]
    and [set] are stdpp's [gmap] and [gset]; JSON objects keep their order and are association lists.
    Every class is a record with one function per method; a component that takes its lock for a whole
    method is a sequence of atomic steps.  A record field is updated by [r <| f := v |>] ([Eta] and [Setter] below).  Clocks, random ids, the outcome of disk calls and the
    engine's answers are arguments.  A failing function returns [option] or a result type with the error
    text.

    Fuel.  The parsers' loops and the string scanners run on fuel bounded by the length of the text, the
    nesting by the code's own limit; [Parse_total] and [fleet_Parse_total] show that they never run out.
    minijson has no nesting limit and gets twice the length of the text plus two ([minijson_reads]).
    [to_string] has one step per bit.  The spool's drop loops have one step per record
    ([drop_loop_done]), the lines of its log one per byte.  [sanitize_loop] and [redact_loop] have one
    step per byte and every step consumes one.  Everything else is structural.

    ** What the theorems show

    - Status JSON ([JsonFacts.v], [MergePatch.v], [StatusHubFacts.v]): [Parse_Dump_roundtrip]
      on the values the server builds, [Parse_total], [MergeDiff_correct] (a diff applied to the old state
      gives the new one), [FramesAfter_exact] (a resumed stream gets exactly what it missed),
      [stream_replay] (a client that replays the patches has the server's state).
    - The status server ([StatusHttp.v], [StatusServerFacts.v]), over every sequence of passes, publications and socket
      answers: [limits_hold] (streams and connections are counted and bounded), [stream_text] (what a stream was sent),
      [unauthorized_learns_nothing] (who is neither a trusted loopback peer nor presents the token gets no byte that depends on the
      state), [start_needs_token],
      [parse_render].
    - The fleet link ([FleetJson.v], [SpoolFacts.v], [SpoolReopen.v], [FleetProtoFacts.v],
      [FleetClientFacts.v]): [json_interop] (the two JSON readers and writers agree), [spool_numbering],
      [critical_kept], [log_complete], [reopen_resumes] (a restart at any point loses no message the spool can store: payloads of up to
      63 levels whose value survives printing),
      [rx_exactly_once] (messages from the platform are handled once and in order, and acknowledged only
      when done), [sent_once_in_order] (a session sends every spooled message, once and in order, and
      nothing the platform says it has), [ack_remembered] (what is acknowledged is on disk), over every
      interleaving of the two threads, [envelope_roundtrip] (any payload text is received as the object it is on its own: the
      frame lemmas at the end of [FleetJson.v]), [backoff_formula], [redact_hides] (the log does not depend on secrets where
      they are recognised), [upgrade_same_host]; of
      the commands ([FleetCmds.v]): [plugins_set_sound], [say_lines].
    - The platform's match ([FleetStateFacts.v], [FleetBridgeFacts.v]): [fence_refuses] (a retired assignment does not come
      back while at most 63 other matches were retired since), [roster_update] (where every player is after an update), [assigned_cvars_safe], [live_stream_replays] and
      [events_replay] (the patches sent rebuild the server's state), [redelivery_harmless] (in every reachable state, reloads of the
      plugin included, a message that took effect changes nothing when it comes again), [commands_fenced] (which command may act,
      down to the text of a console command), [link_reload] and [fence_reload]
      (what a plugin reload keeps), [backup_travels] (a forwarded backup is what a resume accepts), [base64_roundtrip].
    - Match config ([MiniJson.v], [MatchConfigFacts.v]): [minijson_reads], [config_context_ok] (what a
      loaded match can rely on, and which ruleset it plays), [config_wrapper].
    - Rules ([MatchRulesFacts.v], [RulesetFacts.v]): [ResolveRules_final], [go_live_gate],
      [playout_decides], [SanitizeTeamName_safe], [forfeit_sound] and [forfeit_live], [overrides_checked],
      [rule_precedence], [rule_commands_safe] (no override injects a console command),
      [effective_rules_streamable].
    - The match modes ([ModesGoLive.v], [ModesSeries.v], [ModesFacts.v], [ReloadState.v],
      [MapNames.v], [CvarSnapshot.v], [ScrimFacts.v]): over every history of operations, [go_live_permitted] (a map that
      is on was started by an operation that may, and has not stopped since; what ends it needs a new permission) and
      [series_tally] (the maps won are the score last set and the results sent since, each map once); [map_verdict] (the case analysis of map ends is one rule),
      [knife_choice_honoured], [team_lock_agrees] (the lock never moves a player where it would refuse them),
      [match_commands_safe] (no match config injects a console command), [modes_reload] and [context_reload] (what
      a plugin reload keeps), [load_command_safe], [workshop_recognised], [cvars_restored] (what a series
      end puts back, over every history of questions and late answers), [scrim_start_earned] (a scrim's match is of exactly the players who
      held the sides) and [loaded_match_kept] (what its end rests on, over every history of the modes and the flow: [held_since]).
    - GOTV ([Broadcast.v], [TvRulesFacts.v]): [profile_roundtrip], [assign_no_conflict],
      [gotv_restored] (no cvar is changed without a way back), [tracker_sound], [match_profile_roundtrip],
      [applier_roundtrip], [patch_keys].
    - The engine surface ([EngineSurfaceFacts.v], [PluginNeeds.v]): [resolve_sound] (an address is used only
      when it is the one place that matches, anchors included), [vtable_sound], [scanners_agree], [needs_verdict].
    - Votes, pauses and people ([VoteLogic.v], [PauseState.v], [Coach.v], [Simulation.v], [RosterNames.v],
      [AdminCall.v]): [GgVotesNeeded_ceiling], [gg_passed], [stop_passed], [pause_reload],
      [unpause_agreed], [coach_policy], [assignment_sound], [sanitize_clean], [own_name_returns],
      [clean_normal_form].
    - Statistics ([StatsFacts.v], [DamageLedger.v]): [rewind_score] and [rewind_totals] (a
      rewind takes off exactly what the dropped rounds added), [ledger_adds_up].
    - Map end, recovery and files ([MatchEnd.v], [RoundRestore.v], [Retention.v]):
      [series_over_decided], [map_end_order], [backup_name_parsed], [SortBackups_spec],
      [recovery_plan_sound], [progress_roundtrip], [sweep_protects].
    - Players and chat ([RegistryFacts.v], [HeaderFacts.v], [ChatForward.v]): [registry_invariant] over every
      input, [no_ghost] after a disconnect, [header_read] and [name_chooses_identity] (what a header
      yields), [chat_forges_nothing], [reconcile_agrees], [chat_sender_true] (nobody can speak for
      someone else in forwarded chat).
    - Load order ([LoadOrder.v]): [one_shim_per_process], [load_order_verdict].
    - Other plugins ([Whitelist.v], [MapVote.v], [Deathmatch.v], [Midas.v], [Movement.v], [Essentials.v],
      [Scenario.v]): [whitelist_roundtrip], [ballot_sound], [winner_fair], [winner_leads] (who wins a deathmatch, and when nobody
      does), [edit_distance_minimal],
      [records_keep_best], [finish_true], [records_reload], [courses_agree], [rcon_safe], [admins_kept],
      [default_maps_reload], [FindPlayer_exact], [map_resolved].

    Theorems [map_end_order], [header_read], [name_chooses_identity] and [context_reload], and the examples
    [recovery_gate_skipped] and [password_asked], state behaviour that the code hardly intends; so do
    [handover_forgotten], [restore_outlives_match], [retired_again_forgotten], [leave_counts_twice], [resume_zero],
    [late_account_lost], [deepest_payload_lost], [deepest_frame_refused] and [redact_leaks].

    ** Not modelled

    The engine, its interfaces and the hooks into it; sockets, threads, files beyond the spool's two
    texts; the glue that schedules the pure logic ([match_end.cpp] and the like; of [modes.cpp] only what it
    prints is left out; of [fleet_bridge.cpp] the check for a new version of the game, the listing of the backup
    directories on a worker thread and the hooks that stream a demo are left out too); libcurl,
    enrollment and the reconnect loop of the fleet client; the input side of the statistics ([MapStatsFromJson]); cryptography in the
    license check; the rule files of the remaining plugins.  This file holds the shared notations, tactics, integer ranges and list lemmas. *)

From Stdlib Require Export ZArith Ascii Lia.
From Stdlib Require String.
From stdpp Require Export sorting.
From stdpp Require Export base tactics option numbers gmap strings.
From stdpp Require Export list list_relations.
Export String.StringSyntax.

#[global] Open Scope string_scope.
#[global] Open Scope Z_scope.
#[global] Open Scope list_scope.

(** ** Notations of the development *)

Declare Scope cxx_scope.
Delimit Scope cxx_scope with cxx.
#[global] Open Scope cxx_scope.

(** Byte-string concatenation, [operator+] of [std::string]. *)
Notation "a +s+ b" := (String.append a b) (at level 60, right associativity) : cxx_scope.

#[global] Arguments String.append : simpl nomatch.

(** String equality, [operator==] of [std::string]. *)
Notation "a =s b" := (String.eqb a b) (at level 70, no associativity) : cxx_scope.

(** ** Record updates

    [r <| field := v |>], for the records with many fields that an operation changes in part.  A record names its
    constructor once, in its [Eta] instance; the setter of a field is derived from it. *)

Class Eta (T : Type) := eta : T -> T.
Class Setter {T A : Type} (p : T -> A) := set : (A -> A) -> T -> T.
#[global] Arguments set {T A} p {_} _ _ : simpl nomatch.
Ltac derive_setter :=
  match goal with
  | |- @Setter ?T _ ?p =>
      let i := constr:(_ : Eta T) in
      let e := eval red in i in
      let f := fresh in
      let r := fresh in
      unfold Setter; intros f r;
      let b := eval cbv beta in (e r) in
      let b := eval pattern (p r) in b in
      match b with ?g _ => let t := eval cbv beta in (g (f (p r))) in exact t end
  end.
#[export] Hint Extern 1 (Setter _) => derive_setter : typeclass_instances.
Notation "r <| p := v |>" := (set p (fun _ => v) r) (at level 12, left associativity, p at level 0) : cxx_scope.

(** ** Proof automation *)

Create HintDb cxx.

(** Splits every boolean comparison and conditional in sight, then closes the arithmetic. *)
Ltac split_bools :=
  repeat match goal with
    | H : (_ && _)%bool = true |- _ => apply andb_prop in H; destruct H
    | H : (_ || _)%bool = false |- _ => apply orb_false_elim in H; destruct H
    | H : negb _ = true |- _ => apply negb_true_iff in H
    | H : negb _ = false |- _ => apply negb_false_iff in H
    | H : (_ =? _) = true |- _ => apply Z.eqb_eq in H
    | H : (_ =? _) = false |- _ => apply Z.eqb_neq in H
    | H : (_ <? _) = true |- _ => apply Z.ltb_lt in H
    | H : (_ <? _) = false |- _ => apply Z.ltb_ge in H
    | H : (_ <=? _) = true |- _ => apply Z.leb_le in H
    | H : (_ <=? _) = false |- _ => apply Z.leb_gt in H
    | H : (_ =s _) = true |- _ => apply String.eqb_eq in H
    | H : (_ =s _) = false |- _ => apply String.eqb_neq in H
    end.

(** One case split on a conditional of the goal or of a hypothesis, remembering the test. *)
Ltac case_if :=
  match goal with
  | |- context [if ?b then _ else _] => lazymatch type of b with bool => destruct b eqn:? end
  | H : context [if ?b then _ else _] |- _ => lazymatch type of b with bool => destruct b eqn:? end
  end.

(** Decides a goal that only needs case splits on conditionals and linear arithmetic. *)
Ltac crush_ifs := repeat (case_if; split_bools; simplify_eq/=; try lia); try lia; auto.

(** Destructs the scrutinee of a [match] in the goal. *)
Ltac case_scrut :=
  match goal with
  | |- context [match ?x with _ => _ end] => destruct x eqn:?
  end.

(** ** Integers *)

(** [std::clamp]. *)
Definition clamp (v lo hi : Z) : Z := if v <? lo then lo else if hi <? v then hi else v.

(** The ranges of the machine integers the sources use. *)
Definition int32_ok (z : Z) : Prop := -2147483648 <= z <= 2147483647.
Definition int64_ok (z : Z) : Prop := -9223372036854775808 <= z <= 9223372036854775807.
Definition uint64_ok (z : Z) : Prop := 0 <= z <= 18446744073709551615.

#[export] Instance int32_ok_dec z : Decision (int32_ok z).
Proof. unfold int32_ok. apply _. Defined.
#[export] Instance int64_ok_dec z : Decision (int64_ok z).
Proof. unfold int64_ok. apply _. Defined.

Lemma clamp_bounds v lo hi : lo <= hi -> lo <= clamp v lo hi <= hi.
Proof. unfold clamp. intros. crush_ifs. Qed.

Lemma clamp_id v lo hi : lo <= v <= hi -> clamp v lo hi = v.
Proof. unfold clamp. intros. crush_ifs. Qed.

#[export] Hint Resolve clamp_bounds : cxx.

(** ** Lists *)

(** Sum of an integer measure over a list. *)
Definition sumZ {A} (f : A -> Z) (l : list A) : Z := foldr (fun x acc => f x + acc) 0 l.

Lemma sumZ_app {A} (f : A -> Z) l k : sumZ f (l ++ k) = sumZ f l + sumZ f k.
Proof. unfold sumZ. induction l as [|x l IH]; cbn in *; lia. Qed.

Lemma sumZ_cons {A} (f : A -> Z) x l : sumZ f (x :: l) = f x + sumZ f l.
Proof. reflexivity. Qed.

Lemma sumZ_nonneg {A} (f : A -> Z) l : (forall x, x ∈ l -> 0 <= f x) -> 0 <= sumZ f l.
Proof.
  induction l as [|x l IH]; intros H; cbn; [lia|].
  pose proof (H x ltac:(set_solver)). specialize (IH ltac:(set_solver)). unfold sumZ in IH. lia.
Qed.

(** The length of a list as a machine-size integer ([vector::size]). *)
Definition zlen {A} (l : list A) : Z := Z.of_nat (length l).

Lemma zlen_app {A} (l k : list A) : zlen (l ++ k) = zlen l + zlen k.
Proof. unfold zlen. rewrite length_app. lia. Qed.

Lemma zlen_nil {A} : zlen (@nil A) = 0.
Proof. reflexivity. Qed.

Lemma zlen_cons {A} (x : A) l : zlen (x :: l) = 1 + zlen l.
Proof. unfold zlen. cbn. lia. Qed.

Lemma zlen_nonneg {A} (l : list A) : 0 <= zlen l.
Proof. unfold zlen. lia. Qed.

#[export] Hint Resolve zlen_nonneg : cxx.

#[global] Arguments sumZ {_} _ _ : simpl never.
#[global] Arguments zlen {_} _ : simpl never.

(** ** Maps and sets read back entry by entry *)

Lemma foldl_insert `{Countable K} {A} (m : gmap K A) (l : list (K * A)) :
  l ≡ₚ map_to_list m -> foldl (fun m kv => <[kv.1 := kv.2]> m) ∅ l = m.
Proof.
  intros Hl. assert (forall l acc, foldl (fun (m : gmap K A) kv => <[kv.1 := kv.2]> m) acc l = foldr (fun kv m => <[kv.1 := kv.2]> m) acc (rev l)) as ->.
  { clear. induction l as [|x l IH]; intros acc; cbn; [done|]. by rewrite IH, foldr_app. }
  change (list_to_map (rev l) = m). rewrite <- (list_to_map_to_list m). apply list_to_map_proper.
  - apply NoDup_fmap_fst.
    + intros x y1 y2 H1 H2. apply list_elem_of_In, in_rev, list_elem_of_In in H1, H2. rewrite Hl in H1, H2. apply elem_of_map_to_list in H1, H2. congruence.
    + rewrite <- Permutation_rev, Hl. apply NoDup_map_to_list.
  - by rewrite <- Permutation_rev.
Qed.

Lemma foldl_singleton `{Countable K} {A} (f : A -> K) (l : list A) (s : gset K) :
  foldl (fun acc x => {[ f x ]} ∪ acc) s l = list_to_set (f <$> l) ∪ s.
Proof. revert s. induction l as [|x l IH]; intros s; cbn; [set_solver|]. rewrite IH. set_solver. Qed.
