(* ===== verification/CStr.v ===== *)
(** * Byte strings and C number conversions

    [std::string] is a byte sequence: the model is Rocq's [string], whose characters are the 256
    byte values.  This file models the parts of the C and C++ standard library the sources use on
    strings in the C locale: [isdigit], [isspace], [tolower], [to_string], [strtol]-style integer
    parsing with its end pointer and range error, [find], [find_first_not_of] and trimming. *)

From S2P Require Import Prelude.

(** ** Characters *)

Definition code (c : ascii) : Z := Z.of_N (N_of_ascii c).
Definition chr (z : Z) : ascii := ascii_of_N (Z.to_N z).

Definition dquote : ascii := "034"%char.
Definition backslash : ascii := "092"%char.
Definition newline : ascii := "010"%char.
Definition creturn : ascii := "013"%char.
Definition tab : ascii := "009"%char.
Definition nul : ascii := "000"%char.

Definition str1 (c : ascii) : string := String c EmptyString.

Definition isdigit (c : ascii) : bool := (48 <=? code c) && (code c <=? 57).
Definition islower (c : ascii) : bool := (97 <=? code c) && (code c <=? 122).
Definition isupper (c : ascii) : bool := (65 <=? code c) && (code c <=? 90).
Definition isalnum (c : ascii) : bool := isdigit c || islower c || isupper c.
Definition isspace (c : ascii) : bool := (code c =? 32) || ((9 <=? code c) && (code c <=? 13)).
Definition tolower (c : ascii) : ascii := if isupper c then chr (code c + 32) else c.
Definition toupper (c : ascii) : ascii := if islower c then chr (code c - 32) else c.
Definition digit_val (c : ascii) : Z := code c - 48.
Definition digit_chr (d : Z) : ascii := chr (48 + d).

Lemma code_bounds c : 0 <= code c < 256.
Proof. unfold code. pose proof (N_ascii_bounded c). lia. Qed.

Lemma code_chr z : 0 <= z < 256 -> code (chr z) = z.
Proof. intros. unfold code, chr. rewrite N_ascii_embedding; lia. Qed.

Lemma chr_code c : chr (code c) = c.
Proof. unfold code, chr. rewrite N2Z.id. apply ascii_N_embedding. Qed.

Lemma code_inj c d : code c = code d -> c = d.
Proof. intros H. rewrite <- (chr_code c), H. apply chr_code. Qed.

Lemma ascii_eqb_code c d : Ascii.eqb c d = (code c =? code d).
Proof.
  destruct (Ascii.eqb_spec c d) as [->|n]; [by rewrite Z.eqb_refl|].
  symmetry. apply Z.eqb_neq. intros E. apply n. by apply code_inj.
Qed.

(** Evaluates the codes of the character constants in the goal. *)
Ltac code_consts :=
  repeat match goal with
    | |- context [code ?k] =>
        is_closed_char k; let v := eval vm_compute in (code k) in change (code k) with v
    end
with is_closed_char k :=
  lazymatch k with
  | Ascii _ _ _ _ _ _ _ _ => idtac
  | _ => let v := eval hnf in k in lazymatch v with Ascii _ _ _ _ _ _ _ _ => idtac end
  end.

(** ** Strings *)

Fixpoint smap (f : ascii -> ascii) (s : string) : string :=
  match s with EmptyString => EmptyString | String c r => String (f c) (smap f r) end.

Fixpoint sfilter (f : ascii -> bool) (s : string) : string :=
  match s with
  | EmptyString => EmptyString
  | String c r => if f c then String c (sfilter f r) else sfilter f r
  end.

Fixpoint sforall (f : ascii -> bool) (s : string) : bool :=
  match s with EmptyString => true | String c r => f c && sforall f r end.

Definition sempty (s : string) : bool := match s with EmptyString => true | _ => false end.

(** [size()]. *)
Definition slen (s : string) : Z := Z.of_nat (String.length s).

(** [substr(from)] and [substr(from, n)] for [from <= size()]. *)
Fixpoint sdrop (n : nat) (s : string) : string :=
  match n, s with
  | O, _ => s
  | S n, String _ r => sdrop n r
  | S _, EmptyString => EmptyString
  end.
Fixpoint stake (n : nat) (s : string) : string :=
  match n, s with
  | S n, String c r => String c (stake n r)
  | _, _ => EmptyString
  end.

(** [rfind(p, 0) == 0]. *)
Fixpoint starts_with (p s : string) : bool :=
  match p, s with
  | EmptyString, _ => true
  | String c p, String d s => Ascii.eqb c d && starts_with p s
  | _, EmptyString => false
  end.

(** [find(p)]: the offset of the first occurrence. *)
Fixpoint find (p s : string) : option nat :=
  if starts_with p s then Some O
  else match s with EmptyString => None | String _ r => S <$> find p r end.

(** [find(p) != npos]. *)
Definition contains (p s : string) : bool :=
  match find p s with Some _ => true | None => false end.

(** [s.substr(s.find_first_not_of(set))], [npos] read as the empty string. *)
Fixpoint drop_while (f : ascii -> bool) (s : string) : string :=
  match s with
  | EmptyString => EmptyString
  | String c r => if f c then drop_while f r else s
  end.

(** Drops the trailing characters satisfying [f] ([find_last_not_of]). *)
Fixpoint drop_while_end (f : ascii -> bool) (s : string) : string :=
  match s with
  | EmptyString => EmptyString
  | String c r =>
      match drop_while_end f r with
      | EmptyString => if f c then EmptyString else str1 c
      | r' => String c r'
      end
  end.

Definition strip (f : ascii -> bool) (s : string) : string := drop_while_end f (drop_while f s).

(** The longest prefix whose characters satisfy [f], and the rest. *)
Fixpoint span (f : ascii -> bool) (s : string) : string * string :=
  match s with
  | EmptyString => (EmptyString, EmptyString)
  | String c r => if f c then let '(a, b) := span f r in (String c a, b) else (EmptyString, s)
  end.

(** The text up to the first NUL, as the C functions see it. *)
Definition c_text (s : string) : string := (span (fun c => negb (Ascii.eqb c nul)) s).1.

Definition lower (s : string) : string := smap tolower s.

(** [operator<=] of [std::string], the order of [std::map] and [std::sort]. *)
Definition str_le (a b : string) : Prop := String.leb a b = true.
#[export] Instance str_le_dec : RelDecision str_le.
Proof. intros a b. unfold str_le. apply _. Defined.

(** Text with double quotes: every backtick of the literal stands for the byte 34. *)
Definition qs (s : string) : string :=
  smap (fun c => if Ascii.eqb c "`"%char then dquote else c) s.

(** ** [std::to_string] *)

Fixpoint dec_aux (fuel : nat) (n : Z) (acc : string) : string :=
  match fuel with
  | O => acc
  | S f =>
      let acc' := String (digit_chr (n mod 10)) acc in
      if n / 10 =? 0 then acc' else dec_aux f (n / 10) acc'
  end.

Definition dec_nonneg (n : Z) : string := dec_aux (S (Z.to_nat (Z.log2 n))) n EmptyString.

Definition to_string (n : Z) : string :=
  if n <? 0 then String "-"%char (dec_nonneg (- n)) else dec_nonneg n.

(** ** Integer parsing *)

(** The number a run of digits denotes, on top of the accumulator. *)
Fixpoint digits_val (s : string) (acc : Z) : Z :=
  match s with
  | EmptyString => acc
  | String c r => digits_val r (10 * acc + digit_val c)
  end.

(** [strtol] / [strtoll] / [strtoull] in base 10: leading white space, one sign, then digits.  The
    result is the exact value and the rest after the last digit; [None] when no digit was read (the
    end pointer is then the start of the text). *)
Definition scan_int (s : string) : option (Z * string) :=
  let s := drop_while isspace s in
  let '(neg, s) :=
    match s with
    | String c r =>
        if Ascii.eqb c "-"%char then (true, r)
        else if Ascii.eqb c "+"%char then (false, r) else (false, s)
    | _ => (false, s)
    end in
  let '(ds, rest) := span isdigit s in
  if sempty ds then None
  else Some ((if neg then - digits_val ds 0 else digits_val ds 0), rest).

(** [strtoll] to the end of the text, without a range error. *)
Definition strtoll_exact (s : string) : option Z :=
  match scan_int s with
  | Some (v, EmptyString) => if bool_decide (int64_ok v) then Some v else None
  | _ => None
  end.

(** [atoi] on a text whose value fits an [int]. *)
Definition atoi (s : string) : Z := match scan_int s with Some (v, _) => v | None => 0 end.

(** [strtoull(s, nullptr, 10)]: 0 when nothing converts, the maximum on overflow, and a minus sign negates
    modulo 2^64. *)
Definition strtoull (s : string) : Z :=
  match scan_int s with
  | Some (v, _) => if 18446744073709551615 <? Z.abs v then 18446744073709551615 else v mod 18446744073709551616
  | None => 0
  end.

(** [static_cast<int>] of a [long long]: modulo 2^32. *)
Definition to_int32 (v : Z) : Z := (v + 2147483648) mod 4294967296 - 2147483648.

(** [atoi] on any text: [strtol] saturates, the conversion to [int] is modulo 2^32. *)
Definition c_atoi (s : string) : Z :=
  to_int32 (clamp (match scan_int s with Some (v, _) => v | None => 0 end)
                  (-9223372036854775808) 9223372036854775807).

(** ** Facts *)

Lemma to_int32_id v : int32_ok v -> to_int32 v = v.
Proof. unfold int32_ok, to_int32. intros. rewrite Z.mod_small by lia. lia. Qed.

Lemma app_nil_s s : (s +s+ EmptyString) = s.
Proof. induction s as [|c s IH]; cbn; congruence. Qed.

Lemma app_assoc_s a b c : ((a +s+ b) +s+ c) = (a +s+ (b +s+ c)).
Proof. induction a as [|x a IH]; cbn; congruence. Qed.

Lemma app_cons_s x a b : (String x a +s+ b) = String x (a +s+ b).
Proof. reflexivity. Qed.

Lemma length_app_s a b : String.length (a +s+ b) = (String.length a + String.length b)%nat.
Proof. induction a as [|x a IH]; cbn; congruence. Qed.

Lemma sforall_app f a b : sforall f (a +s+ b) = sforall f a && sforall f b.
Proof. induction a as [|x a IH]; cbn; [done|]. rewrite IH. by destruct (f x). Qed.

Lemma starts_with_refl s r : starts_with s (s +s+ r) = true.
Proof. induction s as [|c s IH]; cbn; [done|]. by rewrite Ascii.eqb_refl. Qed.

Lemma starts_with_app p s : starts_with p s = true -> exists r, s = (p +s+ r).
Proof.
  revert s. induction p as [|c p IH]; intros s H; [by eexists|].
  destruct s as [|d s]; cbn in H; [done|]. apply andb_prop in H as [->%Ascii.eqb_eq H].
  destruct (IH _ H) as [r ->]. by exists r.
Qed.

Lemma sdrop_app a b : sdrop (String.length a) (a +s+ b) = b.
Proof. induction a; cbn; auto. Qed.

Lemma stake_app a b : stake (String.length a) (a +s+ b) = a.
Proof. induction a; cbn; congruence. Qed.

Lemma sdrop_length n s : String.length (sdrop n s) = (String.length s - n)%nat.
Proof. revert s. induction n as [|n IH]; intros [|c s]; cbn; auto. Qed.

(** A run of [f]-characters followed by anything that stops the run. *)
Definition stops (f : ascii -> bool) (s : string) : Prop :=
  match s with EmptyString => True | String c _ => f c = false end.

Lemma span_app f a b : sforall f a = true -> stops f b -> span f (a +s+ b) = (a, b).
Proof.
  induction a as [|c a IH]; cbn; intros Ha Hb.
  - destruct b as [|d b]; cbn in *; [done|]. by rewrite Hb.
  - apply andb_prop in Ha as [Hc Ha]. by rewrite Hc, IH.
Qed.

Lemma span_spec f s : let '(a, b) := span f s in s = (a +s+ b) /\ sforall f a = true /\ stops f b.
Proof.
  induction s as [|c s IH]; cbn; [done|].
  destruct (f c) eqn:E; [|cbn; by rewrite E].
  destruct (span f s) as [a b]. destruct IH as (-> & Ha & Hb). cbn. by rewrite E.
Qed.

Lemma drop_while_length f s : (String.length (drop_while f s) <= String.length s)%nat.
Proof. induction s as [|c s IH]; cbn; [done|]. destruct (f c); cbn; lia. Qed.

Lemma drop_while_stops f s : stops f (drop_while f s).
Proof. induction s as [|c s IH]; cbn; [done|]. destruct (f c) eqn:E; [done|]. cbn. by rewrite E. Qed.

Lemma drop_while_id f s : stops f s -> drop_while f s = s.
Proof. destruct s as [|c s]; cbn; [done|]. by intros ->. Qed.

Lemma sforall_impl (f g : ascii -> bool) s :
  (forall c, f c = true -> g c = true) -> sforall f s = true -> sforall g s = true.
Proof. intros H. induction s as [|c s IH]; cbn; [done|]. intros [? ?]%andb_prop. by rewrite H, IH. Qed.

(** *** Printing and scanning decimal numbers *)

Lemma digit_chr_digit d : 0 <= d < 10 -> isdigit (digit_chr d) = true.
Proof. intros. unfold isdigit, digit_chr. rewrite code_chr by lia. by rewrite !Zle_imp_le_bool by lia. Qed.

Lemma digit_val_chr d : 0 <= d < 10 -> digit_val (digit_chr d) = d.
Proof. intros. unfold digit_val, digit_chr. rewrite code_chr by lia. lia. Qed.

Lemma digits_val_app a b v : digits_val (a +s+ b) v = digits_val b (digits_val a v).
Proof. revert v. induction a as [|c a IH]; intros v; cbn; auto. Qed.

(** [dec_aux] prepends the digits of [n]: what it prepends is a non-empty run of digits of value
    [n], provided the fuel covers the number of digits. *)
Lemma dec_aux_spec fuel n acc :
  0 <= n < 10 ^ Z.of_nat fuel -> (fuel <> 0)%nat ->
  exists ds, dec_aux fuel n acc = (ds +s+ acc) /\ sforall isdigit ds = true /\ sempty ds = false /\
             digits_val ds 0 = n.
Proof.
  revert n acc. induction fuel as [|fuel IH]; intros n acc Hn Hf; [done|]. cbn [dec_aux].
  pose proof (Z.mod_pos_bound n 10 ltac:(lia)) as Hmod.
  pose proof (Z.div_mod n 10 ltac:(lia)) as Hdm.
  destruct (Z.eqb_spec (n / 10) 0) as [Hz|Hz].
  - exists (str1 (digit_chr (n mod 10))). cbn. rewrite digit_chr_digit, digit_val_chr by lia.
    repeat split; lia.
  - assert (0 <= n / 10 < 10 ^ Z.of_nat fuel) as Hq.
    { split; [apply Z.div_pos; lia|]. apply Z.div_lt_upper_bound; [lia|].
      rewrite Nat2Z.inj_succ, Z.pow_succ_r in Hn by lia. lia. }
    assert (fuel <> 0)%nat as Hf' by (intros ->; cbn in Hq; lia).
    destruct (IH _ (String (digit_chr (n mod 10)) acc) Hq Hf') as (ds & -> & Hd & He & Hv).
    exists (ds +s+ str1 (digit_chr (n mod 10))). repeat split.
    + by rewrite app_assoc_s.
    + rewrite sforall_app, Hd. cbn. by rewrite digit_chr_digit by lia.
    + by destruct ds.
    + rewrite digits_val_app, Hv. cbn. rewrite digit_val_chr by lia. lia.
Qed.

Lemma dec_aux_length k fuel n acc : (k <> 0)%nat -> 0 <= n < 10 ^ Z.of_nat k ->
  (String.length (dec_aux fuel n acc) <= String.length acc + k)%nat.
Proof.
  revert k n acc. induction fuel as [|fuel IH]; intros k n acc Hk Hn; cbn [dec_aux]; [lia|].
  destruct (Z.eqb_spec (n / 10) 0) as [Hz|Hz]; [cbn; lia|]. destruct k as [|k]; [done|].
  rewrite Nat2Z.inj_succ, Z.pow_succ_r in Hn by lia.
  assert (0 <= n / 10 < 10 ^ Z.of_nat k) as Hq by (split; [apply Z.div_pos; lia|apply Z.div_lt_upper_bound; lia]).
  assert (k <> 0)%nat as Hk' by (intros ->; cbn in Hq; lia).
  specialize (IH k _ (String (digit_chr (n mod 10)) acc) Hk' Hq). cbn [String.length] in IH. lia.
Qed.

Lemma dec_nonneg_spec n :
  0 <= n -> sforall isdigit (dec_nonneg n) = true /\ sempty (dec_nonneg n) = false /\
            digits_val (dec_nonneg n) 0 = n.
Proof.
  intros Hn. unfold dec_nonneg.
  destruct (dec_aux_spec (S (Z.to_nat (Z.log2 n))) n EmptyString) as (ds & -> & ? & ? & ?); [|done|].
  - split; [done|]. rewrite Nat2Z.inj_succ, Z2Nat.id by apply Z.log2_nonneg.
    destruct (Z.eq_dec n 0) as [->|]; [done|].
    eapply Z.lt_le_trans; [apply (Z.log2_spec n); lia|].
    apply Z.pow_le_mono_l. pose proof (Z.log2_nonneg n). lia.
  - rewrite app_nil_s. done.
Qed.

Lemma isdigit_not_sign c : isdigit c = true -> Ascii.eqb c "-"%char = false /\ Ascii.eqb c "+"%char = false /\ isspace c = false.
Proof.
  unfold isdigit, isspace. rewrite !ascii_eqb_code. code_consts.
  intros H. split_bools. repeat split; apply not_true_iff_false; intros E; split_bools; try lia.
Qed.

(** Scanning back a printed number, whatever follows it. *)
Lemma scan_int_to_string n rest : stops isdigit rest -> scan_int (to_string n +s+ rest) = Some (n, rest).
Proof.
  intros Hr. unfold to_string, scan_int.
  destruct (Z.ltb_spec n 0) as [Hn|Hn].
  - destruct (dec_nonneg_spec (- n)) as (Hd & He & Hv); [lia|].
    rewrite app_cons_s. cbn [drop_while]. change (isspace "-") with false. cbn [Ascii.eqb Bool.eqb].
    rewrite span_app by done. rewrite He, Hv. do 2 f_equal. lia.
  - destruct (dec_nonneg_spec n) as (Hd & He & Hv); [lia|].
    destruct (dec_nonneg n) as [|c ds] eqn:E; [done|]. cbn [sforall] in Hd.
    apply andb_prop in Hd as [Hc Hd]. destruct (isdigit_not_sign c Hc) as (H1 & H2 & H3).
    rewrite app_cons_s. cbn [drop_while]. rewrite H3, H1, H2.
    rewrite <- app_cons_s. rewrite span_app; [|cbn; by rewrite Hc, Hd|done].
    cbn [sempty]. by rewrite Hv.
Qed.

Lemma strtoll_exact_to_string n : int64_ok n -> strtoll_exact (to_string n) = Some n.
Proof.
  intros Hn. unfold strtoll_exact. rewrite <- (app_nil_s (to_string n)), scan_int_to_string by done.
  by rewrite bool_decide_true.
Qed.

(** A printed number starts with a digit or a minus sign and has only such characters. *)
Lemma to_string_chars n :
  exists c s, to_string n = String c s /\ (isdigit c = true \/ c = "-"%char) /\ sforall isdigit s = true.
Proof.
  unfold to_string. destruct (Z.ltb_spec n 0).
  - destruct (dec_nonneg_spec (- n)) as (? & ? & ?); [lia|]. eauto 10.
  - destruct (dec_nonneg_spec n) as (Hd & ? & ?); [lia|]. destruct (dec_nonneg n) as [|c s]; [done|].
    cbn in Hd. apply andb_prop in Hd as [? ?]. eauto 10.
Qed.

Lemma to_string_inj a b : to_string a = to_string b -> a = b.
Proof.
  intros E. pose proof (scan_int_to_string a EmptyString I) as Ha.
  rewrite E, (scan_int_to_string b EmptyString I) in Ha. congruence.
Qed.

Lemma strtoull_to_string n : uint64_ok n -> strtoull (to_string n) = n.
Proof.
  unfold uint64_ok, strtoull. intros Hn. rewrite <- (app_nil_s (to_string n)), scan_int_to_string by exact I.
  destruct (Z.ltb_spec 18446744073709551615 (Z.abs n)); [lia|]. apply Z.mod_small. lia.
Qed.

(** *** Prefixes *)

Lemma starts_with_app_same a b c : starts_with (a +s+ b) (a +s+ c) = starts_with b c.
Proof. induction a as [|x a IH]; cbn; [done|]. by rewrite Ascii.eqb_refl. Qed.

(** Two digit runs, each followed by a character that is no digit, match only when equal. *)
Lemma starts_with_digits a b x y c d :
  sforall isdigit a = true -> sforall isdigit b = true -> isdigit x = false -> isdigit y = false ->
  starts_with (a +s+ String x c) (b +s+ String y d) = true -> a = b.
Proof.
  revert b. induction a as [|u a IH]; intros [|v b] Ha Hb Hx Hy H; cbn in *; try done.
  - apply andb_prop in H as [->%Ascii.eqb_eq _]. apply andb_prop in Hb as [Hb _]. congruence.
  - apply andb_prop in H as [->%Ascii.eqb_eq _]. apply andb_prop in Ha as [Ha _]. congruence.
  - apply andb_prop in H as [->%Ascii.eqb_eq H], Ha as [_ Ha], Hb as [_ Hb]. f_equal. by apply (IH b).
Qed.

Lemma to_string_digits n : 0 <= n -> sforall isdigit (to_string n) = true /\ sempty (to_string n) = false /\ digits_val (to_string n) 0 = n.
Proof. intros Hn. unfold to_string. destruct (Z.ltb_spec n 0); [lia|]. by apply dec_nonneg_spec. Qed.

Lemma find_skip p s x : find p (String x s) = if starts_with p (String x s) then Some O else S <$> find p s.
Proof. reflexivity. Qed.

(** Searching past a prefix none of whose characters can start the pattern. *)
Lemma find_after c p a b :
  sforall (fun d => negb (Ascii.eqb c d)) a = true ->
  find (String c p) (a +s+ b) = (fun i => (String.length a + i)%nat) <$> find (String c p) b.
Proof.
  induction a as [|x a IH]; cbn [String.append String.length]; intros H.
  - by destruct (find (String c p) b).
  - cbn in H. apply andb_prop in H as [Hx Ha]. apply negb_true_iff in Hx. rewrite find_skip. cbn [starts_with]. rewrite Hx. cbn.
    rewrite IH by done. by destruct (find (String c p) b).
Qed.

Lemma strip_none f s : sforall (fun c => negb (f c)) s = true -> strip f s = s.
Proof.
  intros Hs. unfold strip. rewrite drop_while_id by (destruct s; [done|]; cbn in Hs; apply andb_prop in Hs as [Hc _]; by apply negb_true_iff).
  induction s as [|c s IH]; [done|]. cbn in Hs |- *. apply andb_prop in Hs as [Hc Hs]. apply negb_true_iff in Hc.
  rewrite IH, Hc by done. by destruct s.
Qed.

Lemma stake_length_app a b n : n = String.length a -> stake n (a +s+ b) = a.
Proof. intros ->. apply stake_app. Qed.
Lemma sdrop_length_app a b n : n = String.length a -> sdrop n (a +s+ b) = b.
Proof. intros ->. apply sdrop_app. Qed.
