(* ===== verification/Double.v ===== *)
(** * IEEE 754 binary64

    The sources keep times, ratios and JSON numbers as [double].  The model is the Standard
    Library's [SpecFloat] at precision 53 and exponent bound 1024, so additions, comparisons and
    conversions round exactly as the hardware does.  [strtod] and the [%.<p>g] conversions of
    [printf] are modelled on exact rationals and rounded once. *)

From Stdlib Require Export Floats.SpecFloat.
From S2P Require Import Prelude CStr.

Abbreviation double := spec_float.

(** ** Arithmetic and comparison *)

Definition dadd : double -> double -> double := SFadd 53 1024.
Definition dsub : double -> double -> double := SFsub 53 1024.
Definition dmul : double -> double -> double := SFmul 53 1024.
Definition ddiv : double -> double -> double := SFdiv 53 1024.
Definition deqb : double -> double -> bool := SFeqb.
Definition dltb : double -> double -> bool := SFltb.
Definition dleb : double -> double -> bool := SFleb.

Notation "a <d b" := (dltb a b) (at level 70, no associativity) : cxx_scope.
Notation "a <=d b" := (dleb a b) (at level 70, no associativity) : cxx_scope.
Notation "a =d b" := (deqb a b) (at level 70, no associativity) : cxx_scope.

Definition dnan (x : double) : bool := match x with S754_nan => true | _ => false end.
Definition isfinite (x : double) : bool :=
  match x with S754_zero _ | S754_finite _ _ _ => true | _ => false end.

(** An integer as a double ([static_cast<double>]). *)
Definition of_int (z : Z) : double := binary_normalize 53 1024 z 0 false.

(** The double nearest to [num / den], [den > 0]: what a decimal literal denotes. *)
Definition dratio (num den : Z) : double :=
  match num with
  | Z0 => S754_zero false
  | Zpos n => let '(q, e, l) := SFdiv_core_binary 53 1024 (Zpos n) 0 den 0 in binary_round_aux 53 1024 false q e l
  | Zneg n => let '(q, e, l) := SFdiv_core_binary 53 1024 (Zpos n) 0 den 0 in binary_round_aux 53 1024 true q e l
  end.

(** The exact value of a finite double as [num / 2^k] with [k >= 0]. *)
Definition exact (x : double) : option (Z * Z) :=
  match x with
  | S754_zero _ => Some (0, 0)
  | S754_finite s m e =>
      let v := if s then Zneg m else Zpos m in
      Some (if 0 <=? e then (Z.shiftl v e, 0) else (v, - e))
  | _ => None
  end.

(** [std::floor], [std::ceil] and truncation as exact integers; [None] on infinities and NaN. *)
Definition dfloor (x : double) : option Z := (fun '(n, k) => n / 2 ^ k) <$> exact x.
Definition dceil (x : double) : option Z := (fun '(n, k) => - ((- n) / 2 ^ k)) <$> exact x.
Definition dtrunc (x : double) : option Z := (fun '(n, k) => Z.quot n (2 ^ k)) <$> exact x.

(** [std::lround]: halves away from zero. *)
Definition dround (x : double) : option Z :=
  (fun '(n, k) => let a := (2 * Z.abs n + 2 ^ k) / (2 * 2 ^ k) in if n <? 0 then - a else a) <$> exact x.

(** [std::floor(x) == x]: true on infinities, false on NaN. *)
Definition integral (x : double) : bool :=
  match exact x with
  | Some (n, k) => n mod 2 ^ k =? 0
  | None => negb (dnan x)
  end.

(** ** [strtod] *)

(** [m * 10^e] rounded once; far exponents overflow or vanish before the power is formed. *)
Definition dec_double (neg : bool) (m : Z) (ndigits : Z) (e : Z) : double :=
  if m =? 0 then S754_zero neg
  else if 400 <? e + ndigits then S754_infinity neg
  else if e + ndigits <? -400 then S754_zero neg
  else
    let v := if 0 <=? e then dratio (m * 10 ^ e) 1 else dratio m (10 ^ (- e)) in
    if neg then SFopp v else v.

Definition hex_val (c : ascii) : option Z :=
  if isdigit c then Some (code c - 48)
  else if (97 <=? code c) && (code c <=? 102) then Some (code c - 87)
  else if (65 <=? code c) && (code c <=? 70) then Some (code c - 55)
  else None.
Definition ishex (c : ascii) : bool := match hex_val c with Some _ => true | None => false end.
Fixpoint hex_digits_val (s : string) (acc : Z) : Z :=
  match s with
  | EmptyString => acc
  | String c r => hex_digits_val r (16 * acc + default 0 (hex_val c))
  end.

(** An exponent part: marker, optional sign, digits; absent when no digit follows. *)
Definition scan_exp (is_marker : ascii -> bool) (s : string) : Z * string :=
  match s with
  | String c r =>
      if is_marker c then
        let '(neg, r') :=
          match r with
          | String d r' => if Ascii.eqb d "-"%char then (true, r') else if Ascii.eqb d "+"%char then (false, r') else (false, r)
          | EmptyString => (false, r)
          end in
        let '(ds, rest) := span isdigit r' in
        if sempty ds then (0, s) else ((if neg then - digits_val ds 0 else digits_val ds 0), rest)
      else (0, s)
  | EmptyString => (0, s)
  end.

(** The digits of a number around its optional point. *)
Definition scan_point (is_d : ascii -> bool) (s : string) : string * string * string :=
  let '(ip, s1) := span is_d s in
  match s1 with
  | String c r => if Ascii.eqb c "."%char then let '(fp, s2) := span is_d r in (ip, fp, s2) else (ip, EmptyString, s1)
  | EmptyString => (ip, EmptyString, s1)
  end.

Definition is_e (c : ascii) : bool := Ascii.eqb (tolower c) "e"%char.
Definition is_p (c : ascii) : bool := Ascii.eqb (tolower c) "p"%char.
Definition is_x (c : ascii) : bool := Ascii.eqb (tolower c) "x"%char.

Definition scan_decimal (neg : bool) (s : string) : option (double * string) :=
  let '(ip, fp, s2) := scan_point isdigit s in
  if sempty ip && sempty fp then None
  else
    let '(e, rest) := scan_exp is_e s2 in
    Some (dec_double neg (digits_val (ip +s+ fp) 0) (slen ip + slen fp) (e - slen fp), rest).

Definition scan_hex (neg : bool) (s : string) : option (double * string) :=
  let '(ip, fp, s2) := scan_point ishex s in
  if sempty ip && sempty fp then None
  else
    let '(e, rest) := scan_exp is_p s2 in
    let m := hex_digits_val (ip +s+ fp) 0 in
    let e := Z.max (-5000) (Z.min 5000 e) - 4 * slen fp in
    Some (binary_normalize 53 1024 (if neg then - m else m) e neg, rest).

Definition is_nchar (c : ascii) : bool := isdigit c || islower (tolower c) || Ascii.eqb c "_"%char.

(** [strtod] in the C locale: the value and the text after it; [None] when nothing converts. *)
Definition scan_double (s : string) : option (double * string) :=
  let s := drop_while isspace s in
  let '(neg, s) :=
    match s with
    | String c r => if Ascii.eqb c "-"%char then (true, r) else if Ascii.eqb c "+"%char then (false, r) else (false, s)
    | _ => (false, s)
    end in
  let l := lower s in
  if starts_with "infinity" l then Some (S754_infinity neg, sdrop 8 s)
  else if starts_with "inf" l then Some (S754_infinity neg, sdrop 3 s)
  else if starts_with "nan" l then
    Some (S754_nan,
      match sdrop 3 s with
      | String c r =>
          if Ascii.eqb c "("%char then
            match span is_nchar r with
            | (_, String d r') => if Ascii.eqb d ")"%char then r' else sdrop 3 s
            | _ => sdrop 3 s
            end
          else sdrop 3 s
      | EmptyString => EmptyString
      end)
  else
    match s with
    | String z (String x r) =>
        if Ascii.eqb z "0"%char && is_x x then
          match scan_hex neg r with
          | Some res => Some res
          | None => scan_decimal neg s
          end
        else scan_decimal neg s
    | _ => scan_decimal neg s
    end.

(** ** [printf "%.<p>g"] *)

(** [n / d] rounded to the nearest integer, halves to even; [n >= 0], [d > 0]. *)
Definition div_nearest_even (n d : Z) : Z :=
  let q := n / d in
  let r := n mod d in
  match Z.compare (2 * r) d with
  | Lt => q
  | Gt => q + 1
  | Eq => if Z.even q then q else q + 1
  end.

(** [n / d * 10^k] as a fraction. *)
Definition scale10 (n d k : Z) : Z * Z := if 0 <=? k then (n * 10 ^ k, d) else (n, d * 10 ^ (- k)).

(** The decimal exponent of [n / d > 0]: raises an underestimate [x]. *)
Fixpoint log10_up (fuel : nat) (n d x : Z) : Z :=
  match fuel with
  | O => x
  | S f => let '(n', d') := scale10 n d (- (x + 1)) in if d' <=? n' then log10_up f n d (x + 1) else x
  end.
Definition log10 (n d : Z) : Z :=
  log10_up 8 n d ((Z.log2 n - Z.log2 d - 1) * 30103 / 100000 - 1).

Definition is_zero_chr (c : ascii) : bool := Ascii.eqb c "0"%char.

(** The fraction digits without trailing zeros, with the point when any remain. *)
Definition frac_part (fp : string) : string :=
  let t := drop_while_end is_zero_chr fp in if sempty t then EmptyString else String "."%char t.

Fixpoint zeros (n : nat) : string := match n with O => EmptyString | S n => String "0"%char (zeros n) end.

(** [p] significant digits. *)
Definition fmt_g (p : Z) (v : double) : string :=
  match v with
  | S754_nan => "nan"
  | S754_infinity s => if s then "-inf" else "inf"
  | S754_zero s => if s then "-0" else "0"
  | S754_finite s m e =>
      let '(n, d) := if 0 <=? e then (Z.shiftl (Zpos m) e, 1) else (Zpos m, 2 ^ (- e)) in
      let x0 := log10 n d in
      let '(n1, d1) := scale10 n d (p - 1 - x0) in
      let r := div_nearest_even n1 d1 in
      let '(r, x) := if 10 ^ p <=? r then (r / 10, x0 + 1) else (r, x0) in
      let ds := dec_nonneg r in
      let body :=
        if (-5 <? x) && (x <? p) then
          if 0 <=? x then
            stake (Z.to_nat (x + 1)) ds +s+ frac_part (sdrop (Z.to_nat (x + 1)) ds)
          else "0" +s+ frac_part (zeros (Z.to_nat (- x - 1)) +s+ ds)
        else
          stake 1 ds +s+ frac_part (sdrop 1 ds) +s+
          (if x <? 0 then "e-" else "e+") +s+
          (let a := dec_nonneg (Z.abs x) in if slen a <? 2 then "0" +s+ a else a) in
      if s then "-" +s+ body else body
  end.

Definition fmt_10g : double -> string := fmt_g 10.

(** [%0nd] of a number that is not negative. *)
Definition pad0 (n : nat) (v : Z) : string :=
  let s := to_string v in zeros (n - String.length s) +s+ s.

(** [printf "%.<p>f"], [p > 0], of a finite double: the exact value rounded, halves to even. *)
Definition fmt_f (p : nat) (v : double) : string :=
  match exact v with
  | Some (n, k) =>
      let u := 10 ^ Z.of_nat p in
      let scaled := div_nearest_even (Z.abs n * u) (2 ^ k) in
      let neg := match v with S754_zero s | S754_finite s _ _ => s | _ => false end in
      (if neg then "-" else EmptyString) +s+ to_string (scaled / u) +s+ "." +s+ pad0 p (scaled mod u)
  | None => EmptyString
  end.

(** ** Checks against known conversions *)

Example fmt_tenth : fmt_10g (dratio 1 10) = "0.1".
Proof. vm_compute. reflexivity. Qed.
Example fmt_third : fmt_10g (dratio 1 3) = "0.3333333333".
Proof. vm_compute. reflexivity. Qed.
Example fmt_big : fmt_10g (dratio (10 ^ 21) 1) = "1e+21".
Proof. vm_compute. reflexivity. Qed.
Example fmt_small : fmt_10g (dratio (-123456) (10 ^ 11)) = "-1.23456e-06".
Proof. vm_compute. reflexivity. Qed.
Example fmt_int : fmt_10g (of_int 9999999999) = "9999999999".
Proof. vm_compute. reflexivity. Qed.
Example fmt_carry : fmt_10g (dratio 99999999999 10) = "1e+10".
Proof. vm_compute. reflexivity. Qed.
Example fmt_17 : fmt_g 17 (dratio 1 10) = "0.10000000000000001".
Proof. vm_compute. reflexivity. Qed.
Example scan_1e9 : scan_double " -1.5e2x" = Some (of_int (-150), "x").
Proof. vm_compute. reflexivity. Qed.
Example scan_hexf : scan_double "0x1.8p1" = Some (of_int 3, EmptyString).
Proof. vm_compute. reflexivity. Qed.
Example scan_infinity : scan_double "inf" = Some (S754_infinity false, EmptyString).
Proof. vm_compute. reflexivity. Qed.

(** ** Facts *)

Lemma deqb_refl x : dnan x = false -> (x =d x) = true.
Proof.
  destruct x as [s|s| |s m e]; try done; try by destruct s.
  intros _. unfold deqb, SFeqb. cbn. rewrite Z.compare_refl.
  change (Pos.compare_cont Eq m m) with (Pos.compare m m). rewrite Pos.compare_refl. by destruct s.
Qed.

Lemma dltb_irrefl x : (x <d x) = false.
Proof.
  destruct x as [s|s| |s m e]; try done; try by destruct s.
  unfold dltb, SFltb. cbn. rewrite Z.compare_refl.
  change (Pos.compare_cont Eq m m) with (Pos.compare m m). rewrite Pos.compare_refl. by destruct s.
Qed.

(** For two numbers, [<=] is the negation of [>]. *)
Lemma dleb_negb_dltb x y : dnan x = false -> dnan y = false -> (x <=d y) = negb (y <d x).
Proof.
  destruct x as [s|s| |s m e], y as [t|t| |t m' e']; try done; try (by destruct s); try (by destruct t);
    try (by destruct s, t).
  intros _ _. unfold dleb, dltb, SFleb, SFltb. cbn.
  change (Pos.compare_cont Eq) with Pos.compare.
  rewrite (Z.compare_antisym e e'), (Pos.compare_antisym m m').
  by destruct s, t, (e ?= e'), (Pos.compare m m').
Qed.
