(* ===== verification/DoubleFacts.v ===== *)
(** * Integers as doubles

    Integers below 2^53 are doubles exactly: converting, printing and reading one back, and cutting the
    result off to an integer, lose nothing. *)

From S2P Require Import Prelude CStr Double.

Lemma digits2_log2 p : Zpos (digits2_pos p) = Z.log2 (Zpos p) + 1.
Proof.
  induction p as [p IH|p IH|]; cbn [digits2_pos].
  - rewrite Pos2Z.inj_succ, IH. change (Z.pos p~1) with (2 * Z.pos p + 1). rewrite Z.log2_succ_double by lia. lia.
  - rewrite Pos2Z.inj_succ, IH. change (Z.pos p~0) with (2 * Z.pos p). rewrite Z.log2_double by lia. lia.
  - done.
Qed.

Lemma digits2_shift p q k : 0 <= k -> Zpos q = Zpos p * 2 ^ k -> Zpos (digits2_pos q) = Zpos (digits2_pos p) + k.
Proof. intros Hk E. rewrite !digits2_log2, E, Z.log2_mul_pow2 by lia. lia. Qed.

(** A mantissa of 53 bits is kept; one of 54 bits that is even is halved. *)
Lemma round_53 sx p e : Zpos (digits2_pos p) = 53 -> -1074 <= e <= 971 -> binary_round_aux 53 1024 sx (Zpos p) e loc_Exact = S754_finite sx p e.
Proof.
  intros Hd He. unfold binary_round_aux, shr_fexp. cbn [Zdigits2]. rewrite Hd. unfold fexp, emin.
  replace (Z.max (53 + e - 53) (3 - 1024 - 53) - e) with 0 by lia. cbn [shr shr_record_of_loc shr_m loc_of_shr_record round_nearest_even Zdigits2].
  rewrite Hd. replace (Z.max (53 + e - 53) (3 - 1024 - 53) - e) with 0 by lia. cbn [shr shr_m].
  by replace (e <=? 1024 - 53) with true by (symmetry; apply Z.leb_le; lia).
Qed.

Lemma round_54 sx p e : Zpos (digits2_pos p) = 53 -> -1074 <= e < 971 -> binary_round_aux 53 1024 sx (Zpos p~0) e loc_Exact = S754_finite sx p (e + 1).
Proof.
  intros Hd He. assert (Zpos (digits2_pos p~0) = 54) as Hd2 by (cbn; lia).
  unfold binary_round_aux, shr_fexp. cbn [Zdigits2]. rewrite Hd2. unfold fexp, emin.
  replace (Z.max (54 + e - 53) (3 - 1024 - 53) - e) with 1 by lia.
  cbn [shr shr_record_of_loc iter_pos shr_1 orb shr_m loc_of_shr_record round_nearest_even Zdigits2].
  rewrite Hd. replace (Z.max (53 + (e + 1) - 53) (3 - 1024 - 53) - (e + 1)) with 0 by lia. cbn [shr shr_m].
  by replace (e + 1 <=? 1024 - 53) with true by (symmetry; apply Z.leb_le; lia).
Qed.

(** The mantissa of an integer below 2^53, scaled to 53 bits. *)
Lemma mantissa p : Zpos p < 2 ^ 53 -> exists q, let k := 53 - Zpos (digits2_pos p) in
  0 <= k < 53 /\ Zpos q = Zpos p * 2 ^ k /\ Zpos (digits2_pos q) = 53.
Proof.
  intros Hp. pose proof (digits2_log2 p) as Hd. assert (Z.log2 (Zpos p) < 53) as Hl by (apply Z.log2_lt_pow2; lia).
  pose proof (Z.log2_nonneg (Zpos p)). set (k := 53 - Zpos (digits2_pos p)).
  assert (0 < Zpos p * 2 ^ k) as Hpos by (apply Z.mul_pos_pos; [lia|apply Z.pow_pos_nonneg; lia]).
  destruct (Zpos p * 2 ^ k) as [|q|q] eqn:E; [lia| |lia]. exists q. split_and!; [lia|lia|done|].
  rewrite (digits2_shift p q k) by (try done; lia). lia.
Qed.

Definition int_mantissa (p q : positive) (k : Z) : Prop := 0 <= k < 53 /\ Zpos q = Zpos p * 2 ^ k.

Lemma of_int_pos p : Zpos p < 2 ^ 53 -> exists q k, int_mantissa p q k /\ of_int (Zpos p) = S754_finite false q (- k) /\
  of_int (Zneg p) = S754_finite true q (- k) /\ dratio (Zpos p) 1 = S754_finite false q (- k).
Proof.
  intros Hp. destruct (mantissa p Hp) as (q & Hk & Hq & Hd). set (k := 53 - Zpos (digits2_pos p)) in *. exists q, k. split; [done|].
  assert (forall sx, binary_round 53 1024 sx p 0 = S754_finite sx q (- k)) as Hround.
  { intros sx. unfold binary_round, shl_align. unfold fexp, emin. replace (Z.max (Z.pos (digits2_pos p) + 0 - 53) (3 - 1024 - 53) - 0) with (- k) by lia.
    replace (Z.max (Z.pos (digits2_pos p) + 0 - 53) (3 - 1024 - 53)) with (- k) by lia.
    destruct k as [|k'|k'] eqn:Ek; [|change (- Z.pos k') with (Z.neg k')|lia].
    - change (- 0) with 0. replace q with p by (apply Pos2Z.inj; lia). apply round_53; lia.
    - rewrite <- (round_53 sx q (Zneg k')) by lia. do 2 f_equal. assert (forall n x, Z.pos (Pos.iter xO x n) = Z.pos x * 2 ^ Z.pos n) as Hiter.
      { intros n x. revert n. apply Pos.peano_ind; [cbn; lia|]. intros n IH. rewrite Pos.iter_succ, Pos2Z.inj_succ, Z.pow_succ_r by lia.
        change (Z.pos (Pos.iter xO x n)~0) with (2 * Z.pos (Pos.iter xO x n)). lia. }
      apply Pos2Z.inj. by rewrite Hiter. }
  split_and!; [apply Hround|apply Hround|].
  unfold dratio, SFdiv_core_binary. cbn [Zdigits2 digits2_pos]. unfold fexp, emin.
  replace (Z.min (Z.max (Z.pos (digits2_pos p) + 0 - (1 + 0) - 53) (3 - 1024 - 53)) (0 - 0)) with (- (k + 1)) by lia.
  replace (0 - 0 - - (k + 1)) with (k + 1) by lia. assert (exists n, k + 1 = Zpos n) as [n Hn] by (destruct (k + 1) eqn:?; eauto; lia).
  rewrite Hn. rewrite Z.shiftl_mul_pow2 by lia. replace (Z.pos p * 2 ^ Z.pos n) with (Z.pos q~0)
    by (rewrite <- Hn, Z.pow_add_r, Z.mul_assoc, <- Hq by lia; lia).
  pose proof (Z.div_eucl_eq (Z.pos q~0) 1 ltac:(lia)) as Hde. pose proof (Z.mod_1_r (Z.pos q~0)) as Hm. unfold Z.modulo in Hm.
  destruct (Z.div_eucl (Z.pos q~0) 1) as [q' r]. subst r. replace q' with (Z.pos q~0) by lia.
  change (new_location 1 0) with loc_Exact. rewrite <- Hn, round_54 by lia. f_equal. lia.
Qed.

Lemma exact_scaled (p q : positive) k s : int_mantissa p q k ->
  dtrunc (S754_finite s q (- k)) = Some (if s then Zneg p else Zpos p).
Proof.
  intros [Hk Hq]. unfold dtrunc, exact. assert (forall x, Z.quot (x * 2 ^ k) (2 ^ k) = x) as Hquot.
  { intros x. apply Z.quot_mul. pose proof (Z.pow_pos_nonneg 2 k). lia. }
  destruct (Z.leb_spec 0 (- k)) as [H0|H0]; cbn.
  - replace k with 0 in * by lia. assert (q = p) as -> by (apply Pos2Z.inj; lia). destruct s; cbn; by rewrite Z.quot_1_r.
  - rewrite Z.opp_involutive. f_equal. destruct s; [change (Zneg q) with (- Zpos q); change (Zneg p) with (- Zpos p)|]; rewrite Hq, <- ?Z.mul_opp_l; apply Hquot.
Qed.

(** Cutting off what was an integer. *)
Lemma dtrunc_of_int z : - 2 ^ 53 < z < 2 ^ 53 -> dtrunc (of_int z) = Some z.
Proof.
  intros Hz. destruct z as [|p|p]; [done| |]; destruct (of_int_pos p ltac:(lia)) as (q & k & Hm & E1 & E2 & _).
  - rewrite E1. by apply (exact_scaled p q k false).
  - rewrite E2. by apply (exact_scaled p q k true).
Qed.

Lemma dratio_of_int z : 0 <= z < 2 ^ 53 -> dratio z 1 = of_int z.
Proof. intros Hz. destruct z as [|p|p]; [done| |lia]. destruct (of_int_pos p ltac:(lia)) as (q & k & _ & E1 & _ & E3). congruence. Qed.

Lemma of_int_opp z : 0 < z < 2 ^ 53 -> SFopp (of_int z) = of_int (- z).
Proof. intros Hz. destruct z as [|p|p]; [lia| |lia]. destruct (of_int_pos p ltac:(lia)) as (q & k & _ & E1 & E2 & _). change (- Z.pos p) with (Z.neg p). by rewrite E1, E2. Qed.

Lemma of_int_finite z : - 2 ^ 53 < z < 2 ^ 53 -> isfinite (of_int z) = true.
Proof. intros Hz. destruct z as [|p|p]; [done| |]; destruct (of_int_pos p ltac:(lia)) as (q & k & _ & E1 & E2 & _); rewrite ?E1, ?E2; done. Qed.

(** The digits of such an integer denote it. *)
Lemma dec_double_int neg m nd : 0 <= m < 2 ^ 53 -> 0 <= nd <= 400 ->
  dec_double neg m nd 0 = if m =? 0 then S754_zero neg else of_int (if neg then - m else m).
Proof.
  intros Hm Hn. unfold dec_double. destruct (Z.eqb_spec m 0) as [|Hne]; [done|].
  replace (400 <? 0 + nd) with false by (symmetry; apply Z.ltb_ge; lia). replace (0 + nd <? -400) with false by (symmetry; apply Z.ltb_ge; lia).
  cbn [Z.leb Z.compare]. rewrite Z.pow_0_r, Z.mul_1_r, dratio_of_int by lia. destruct neg; [|done]. apply of_int_opp. lia.
Qed.

