(* ===== verification/Json.v ===== *)
(** * The JSON value of the status endpoint

    [readyup::status::Json] (src/libs/readyup/status_snapshot.h and .cpp): the value type with
    insertion-ordered objects, member access, the serializer, the parser and equality.  Positions in
    the text are the remaining suffix; an error keeps its message and the suffix it was raised at,
    which determines the offset the source reports. *)

From S2P Require Import Prelude CStr Double.

(** ** Values *)

Inductive Json : Type :=
| JNull
| JBool (b : bool)
| JInt (i : Z)
| JDouble (d : double)
| JString (s : string)
| JObject (obj : list (string * Json))
| JArray (arr : list Json).

Definition IsNull (j : Json) : bool := match j with JNull => true | _ => false end.
Definition IsObject (j : Json) : bool := match j with JObject _ => true | _ => false end.

Definition Members (j : Json) : list (string * Json) := match j with JObject o => o | _ => [] end.
Definition Items (j : Json) : list Json := match j with JArray a => a | _ => [] end.

(** The integer field of the value: Booleans share it, other types leave it 0. *)
Definition int_field (j : Json) : Z :=
  match j with JBool b => if b then 1 else 0 | JInt i => i | _ => 0 end.

Definition AsBool (j : Json) : bool := negb (int_field j =? 0).
(** [None]: a double without a [long long] value (the cast is undefined). *)
Definition AsInt (j : Json) : option Z :=
  match j with
  | JDouble d => match dtrunc d with Some z => if bool_decide (int64_ok z) then Some z else None | None => None end
  | _ => Some (int_field j)
  end.
Definition AsDouble (j : Json) : double := match j with JDouble d => d | _ => of_int (int_field j) end.
Definition AsString (j : Json) : string := match j with JString s => s | _ => EmptyString end.

(** [Find]: the first member with the key. *)
Fixpoint find_member (k : string) (o : list (string * Json)) : option Json :=
  match o with
  | [] => None
  | (k', v) :: o => if k' =s k then Some v else find_member k o
  end.
Definition Find (j : Json) (k : string) : option Json := find_member k (Members j).

(** [j[key] = v]: a non-object becomes an empty object, an existing key keeps its place, a
    new key goes last. *)
Fixpoint set_member (k : string) (v : Json) (o : list (string * Json)) : list (string * Json) :=
  match o with
  | [] => [(k, v)]
  | (k', v') :: o => if k' =s k then (k', v) :: o else (k', v') :: set_member k v o
  end.
Definition SetKey (j : Json) (k : string) (v : Json) : Json := JObject (set_member k v (Members j)).

(** [Push]: a non-array becomes an empty array. *)
Definition Push (j : Json) (v : Json) : Json := JArray (Items j ++ [v]).

(** ** Serializer *)

Definition hex_digit (n : Z) : ascii := if n <? 10 then chr (48 + n) else chr (87 + n).

(** [snprintf "\\u%04x"] of a byte. *)
Definition u_escape (c : Z) : string :=
  String backslash ("u00" +s+ String (hex_digit (c / 16)) (str1 (hex_digit (c mod 16)))).

Definition escape_char (c : ascii) : string :=
  let n := code c in
  if n =? 34 then String backslash (str1 dquote)
  else if n =? 92 then String backslash (str1 backslash)
  else if n =? 10 then String backslash "n"
  else if n =? 13 then String backslash "r"
  else if n =? 9 then String backslash "t"
  else if n =? 8 then String backslash "b"
  else if n =? 12 then String backslash "f"
  else if (n <? 32) || (n =? 127) then u_escape n
  else str1 c.

Fixpoint escape_body (s : string) : string :=
  match s with EmptyString => EmptyString | String c r => escape_char c +s+ escape_body r end.

(** [JsonEscapeTo]. *)
Definition JsonEscape (s : string) : string := String dquote (escape_body s +s+ str1 dquote).

(** The object and array branches of [DumpTo], over the serializer of the members. *)
Definition dump_members (dump : Json -> string) : bool -> list (string * Json) -> string :=
  fix go (first : bool) (o : list (string * Json)) : string :=
    match o with
    | [] => "}"
    | (k, v) :: o =>
        (if first then EmptyString else ",") +s+ JsonEscape k +s+ String ":"%char (dump v +s+ go false o)
    end.
Definition dump_items (dump : Json -> string) : bool -> list Json -> string :=
  fix go (first : bool) (a : list Json) : string :=
    match a with
    | [] => "]"
    | v :: a => (if first then EmptyString else ",") +s+ dump v +s+ go false a
    end.

(** [Dump] / [DumpTo]. *)
Fixpoint Dump (j : Json) : string :=
  match j with
  | JNull => "null"
  | JBool b => if b then "true" else "false"
  | JInt i => to_string i
  | JDouble d => if isfinite d then fmt_10g d else "null"
  | JString s => JsonEscape s
  | JObject obj => String "{"%char (dump_members Dump true obj)
  | JArray arr => String "["%char (dump_items Dump true arr)
  end.

(** ** Equality *)

Definition items_eqb (eqb : Json -> Json -> bool) : list Json -> list Json -> bool :=
  fix go (x y : list Json) : bool :=
    match x, y with
    | [], [] => true
    | u :: x, v :: y => eqb u v && go x y
    | _, _ => false
    end.
Definition members_eqb (eqb : Json -> Json -> bool) (y : list (string * Json)) : list (string * Json) -> bool :=
  fix go (x : list (string * Json)) : bool :=
    match x with
    | [] => true
    | (k, v) :: x => match find_member k y with Some w => eqb v w && go x | None => false end
    end.

(** [operator==]: object key order does not matter. *)
Fixpoint json_eqb (a b : Json) {struct a} : bool :=
  match a, b with
  | JNull, JNull => true
  | JBool x, JBool y => Bool.eqb x y
  | JInt x, JInt y => x =? y
  | JDouble x, JDouble y => x =d y
  | JString x, JString y => x =s y
  | JArray x, JArray y => items_eqb json_eqb x y
  | JObject x, JObject y => (length x =? length y)%nat && members_eqb json_eqb y x
  | _, _ => false
  end.

(** ** Parser *)

(** A parser step: the message and the suffix it failed at, or the value and the rest. *)
Inductive pres (A : Type) : Type :=
| PErr (msg : string) (at_ : string)
| PFuel
| POk (v : A) (rest : string).
Arguments PErr {A} _ _.
Arguments PFuel {A}.
Arguments POk {A} _ _.

Definition pbind {A B} (r : pres A) (f : A -> string -> pres B) : pres B :=
  match r with PErr m s => PErr m s | PFuel => PFuel | POk v s => f v s end.
Notation "'let?' ( x , s ) := r 'in' k" := (pbind r (fun x s => k))
  (at level 10, x name, s name, r at level 100, k at level 200) : cxx_scope.

Definition is_ws (c : ascii) : bool :=
  Ascii.eqb c " "%char || Ascii.eqb c tab || Ascii.eqb c newline || Ascii.eqb c creturn.
Definition Ws (s : string) : string := drop_while is_ws s.

Definition Lit (lit s : string) : pres unit :=
  if starts_with lit s then POk tt (sdrop (String.length lit) s) else PErr "bad literal" s.

(** UTF-8 of a code point. *)
Definition Utf8 (cp : Z) : string :=
  let b z := str1 (chr (z mod 256)) in
  if cp <? 128 then b cp
  else if cp <? 2048 then b (Z.lor 192 (Z.shiftr cp 6)) +s+ b (Z.lor 128 (Z.land cp 63))
  else if cp <? 65536 then
    b (Z.lor 224 (Z.shiftr cp 12)) +s+ b (Z.lor 128 (Z.land (Z.shiftr cp 6) 63)) +s+ b (Z.lor 128 (Z.land cp 63))
  else
    b (Z.lor 240 (Z.shiftr cp 18)) +s+ b (Z.lor 128 (Z.land (Z.shiftr cp 12) 63)) +s+
    b (Z.lor 128 (Z.land (Z.shiftr cp 6) 63)) +s+ b (Z.lor 128 (Z.land cp 63)).

Fixpoint hex_run (k : nat) (s : string) (v : Z) : pres Z :=
  match k with
  | O => POk v s
  | S k =>
      match s with
      | EmptyString => PErr "bad \u escape" s
      | String c r =>
          match hex_val c with
          | Some d => hex_run k r (Z.lor (Z.shiftl v 4) d)
          | None => PErr "bad \u escape" r
          end
      end
  end.
Definition Hex4 (s : string) : pres Z :=
  if (String.length s <? 4)%nat then PErr "short \u escape" s else hex_run 4 s 0.

(** The [\u] escape after its letter: one unit, or a surrogate pair. *)
Definition unicode_escape (s : string) : pres string :=
  let? (cp, s1) := Hex4 s in
  if (55296 <=? cp) && (cp <? 56320) && (6 <=? String.length s1)%nat &&
     starts_with (String backslash "u") s1
  then
    let? (lo, s2) := Hex4 (sdrop 2 s1) in
    POk (Utf8 (if (56320 <=? lo) && (lo <? 57344) then 65536 + Z.shiftl (cp - 55296) 10 + (lo - 56320) else cp)) s2
  else POk (Utf8 cp) s1.

(** The single-letter escapes. *)
Definition short_escape (e : ascii) : option ascii :=
  let n := code e in
  if n =? 34 then Some dquote
  else if n =? 92 then Some backslash
  else if n =? 47 then Some "/"%char
  else if n =? 98 then Some "008"%char
  else if n =? 102 then Some "012"%char
  else if n =? 110 then Some newline
  else if n =? 114 then Some creturn
  else if n =? 116 then Some tab
  else None.

(** The loop of [Str] after the opening quote; [acc] is the string read so far. *)
Fixpoint str_loop (fuel : nat) (s : string) (acc : string) : pres string :=
  match fuel with
  | O => PFuel
  | S fuel =>
      match s with
      | EmptyString => PErr "unterminated string" s
      | String c r =>
          if Ascii.eqb c dquote then POk acc r
          else if code c <? 32 then PErr "control character in string" r
          else if negb (Ascii.eqb c backslash) then str_loop fuel r (acc +s+ str1 c)
          else
            match r with
            | EmptyString => PErr "unterminated string" r
            | String e r2 =>
                if Ascii.eqb e "u"%char then
                  let? (u, r3) := unicode_escape r2 in str_loop fuel r3 (acc +s+ u)
                else
                  match short_escape e with
                  | Some x => str_loop fuel r2 (acc +s+ str1 x)
                  | None => PErr "bad escape" r2
                  end
            end
      end
  end.

Definition Str (s : string) : pres string :=
  match s with
  | String c r => if Ascii.eqb c dquote then str_loop (S (String.length r)) r EmptyString else PErr "expected string" s
  | EmptyString => PErr "expected string" s
  end.

Definition is_num_char (c : ascii) : bool :=
  isdigit c || Ascii.eqb c "."%char || Ascii.eqb c "e"%char || Ascii.eqb c "E"%char ||
  Ascii.eqb c "+"%char || Ascii.eqb c "-"%char.
Definition is_frac_char (c : ascii) : bool :=
  Ascii.eqb c "."%char || Ascii.eqb c "e"%char || Ascii.eqb c "E"%char.

(** [Num]: the longest run of number characters, as an integer when it is one that fits. *)
Definition Num (s : string) : pres Json :=
  let '(t, rest) := span is_num_char s in
  if sempty t || (t =s "-") then PErr "bad number" rest
  else
    let as_double :=
      match scan_double t with
      | Some (d, EmptyString) => POk (JDouble d) rest
      | _ => PErr "bad number" rest
      end in
    if sforall (fun c => negb (is_frac_char c)) t
    then match strtoll_exact t with Some v => POk (JInt v) rest | None => as_double end
    else as_double.

(** The separator after a member or an element: [Some true] continues, [Some false] ends. *)
Definition separator (close : ascii) (s : string) : option (bool * string) :=
  match s with
  | String c r =>
      if Ascii.eqb c ","%char then Some (true, r) else if Ascii.eqb c close then Some (false, r) else None
  | EmptyString => None
  end.

Definition starts_char (c : ascii) (s : string) : option string :=
  match s with String d r => if Ascii.eqb d c then Some r else None | EmptyString => None end.

(** *** The grammar of values

    Objects, arrays and literals, over a parser of strings and a parser of numbers. *)

(** The member loop of [Value] after the opening brace, over the parsers of keys and values. *)
Fixpoint members_loop (str : string -> pres string) (value : string -> pres Json) (fuel : nat) (s : string)
    (acc : list (string * Json)) : pres Json :=
  match fuel with
  | O => PFuel
  | S fuel =>
      let? (key, s1) := str (Ws s) in
      match starts_char ":"%char (Ws s1) with
      | None => PErr "expected ':'" (Ws s1)
      | Some s2 =>
          let? (v, s3) := value s2 in
          let acc := set_member key v acc in
          match separator "}"%char (Ws s3) with
          | Some (true, s4) => members_loop str value fuel s4 acc
          | Some (false, s4) => POk (JObject acc) s4
          | None => PErr "expected ',' or '}'" (Ws s3)
          end
      end
  end.

(** The element loop of [Value] after the opening bracket. *)
Fixpoint items_loop (value : string -> pres Json) (fuel : nat) (s : string) (acc : list Json) : pres Json :=
  match fuel with
  | O => PFuel
  | S fuel =>
      let? (v, s1) := value s in
      let acc := acc ++ [v] in
      match separator "]"%char (Ws s1) with
      | Some (true, s2) => items_loop value fuel s2 acc
      | Some (false, s2) => POk (JArray acc) s2
      | None => PErr "expected ',' or ']'" (Ws s1)
      end
  end.

(** [d] counts the nesting levels left: [Value(out, depth)] is at [65 - depth]. *)
Fixpoint json_value (str : string -> pres string) (num : string -> pres Json) (d : nat) (s0 : string) {struct d} : pres Json :=
  match d with
  | O => PErr "nesting too deep" s0
  | S d =>
      let s := Ws s0 in
      match s with
      | EmptyString => PErr "unexpected end" s
      | String c r =>
          if Ascii.eqb c "{"%char then
            match starts_char "}"%char (Ws r) with
            | Some r' => POk (JObject []) r'
            | None => members_loop str (json_value str num d) (S (String.length r)) (Ws r) []
            end
          else if Ascii.eqb c "["%char then
            match starts_char "]"%char (Ws r) with
            | Some r' => POk (JArray []) r'
            | None => items_loop (json_value str num d) (S (String.length r)) (Ws r) []
            end
          else if Ascii.eqb c dquote then let? (t, s1) := str s in POk (JString t) s1
          else if Ascii.eqb c "t"%char then let? (_, s1) := Lit "true" s in POk (JBool true) s1
          else if Ascii.eqb c "f"%char then let? (_, s1) := Lit "false" s in POk (JBool false) s1
          else if Ascii.eqb c "n"%char then let? (_, s1) := Lit "null" s in POk JNull s1
          else num s
      end
  end.

Definition Value : nat -> string -> pres Json := json_value Str Num.

(** What [Parse] reports: the value, or the error text of [Fail]. *)
Definition fail_text (msg : string) (text at_ : string) : string :=
  msg +s+ " at offset " +s+ to_string (slen text - slen at_).

Inductive parse_result : Type :=
| Parsed (v : Json)
| ParseError (err : string)
| ParseFuel.

Definition Parse (text : string) : parse_result :=
  match Value 65 text with
  | POk v rest =>
      if sempty (Ws rest) then Parsed v else ParseError (fail_text "trailing characters" text (Ws rest))
  | PErr m at_ => ParseError (fail_text m text at_)
  | PFuel => ParseFuel
  end.

Example parse_sample :
  Parse (qs " {`a`: [1, -2.5, true], `b`:{`c`:null}, `a`: `x\u00e9\n` } ") =
  Parsed (JObject [("a", JString (String "x" (String "195" (String "169" (String "010" EmptyString)))));
                   ("b", JObject [("c", JNull)])]).
Proof. vm_compute. reflexivity. Qed.
Example parse_error_sample : Parse (qs "[1, 2") = ParseError "expected ',' or ']' at offset 5".
Proof. vm_compute. reflexivity. Qed.
