(* ===== verification/JsonFacts.v ===== *)
(** * The JSON parser and serializer: termination and round trip *)

From S2P Require Import Prelude CStr Double Json.

(** ** Induction over values *)

Section json_induction.
Variable P : Json -> Prop.
Hypothesis Hnull : P JNull.
Hypothesis Hbool : forall b, P (JBool b).
Hypothesis Hint : forall i, P (JInt i).
Hypothesis Hdouble : forall d, P (JDouble d).
Hypothesis Hstring : forall s, P (JString s).
Hypothesis Hobject : forall o, Forall (fun kv => P kv.2) o -> P (JObject o).
Hypothesis Harray : forall a, Forall P a -> P (JArray a).

(** Structural induction through the nested lists of members and elements. *)
Fixpoint json_nested_ind (j : Json) : P j :=
  match j with
  | JNull => Hnull
  | JBool b => Hbool b
  | JInt i => Hint i
  | JDouble d => Hdouble d
  | JString s => Hstring s
  | JObject o =>
      Hobject o ((fix go (o : list (string * Json)) : Forall (fun kv => P kv.2) o :=
        match o with [] => Forall_nil_2 _ | kv :: o => Forall_cons_2 _ _ _ (json_nested_ind kv.2) (go o) end) o)
  | JArray a =>
      Harray a ((fix go (a : list Json) : Forall P a :=
        match a with [] => Forall_nil_2 _ | v :: a => Forall_cons_2 _ _ _ (json_nested_ind v) (go a) end) a)
  end.
End json_induction.

(** ** What the serializer can write back *)

Definition keys (o : list (string * Json)) : list string := o.*1.

Definition all_members (f : Json -> bool) : list (string * Json) -> bool :=
  fix go (o : list (string * Json)) : bool := match o with [] => true | kv :: o => f kv.2 && go o end.
Definition all_items (f : Json -> bool) : list Json -> bool :=
  fix go (a : list Json) : bool := match a with [] => true | v :: a => f v && go a end.

(** No doubles ([%.10g] rounds them), integers in the range of [long long], distinct keys. *)
Fixpoint plain (j : Json) : bool :=
  match j with
  | JDouble _ => false
  | JInt i => bool_decide (int64_ok i)
  | JObject o => bool_decide (NoDup (keys o)) && all_members plain o
  | JArray a => all_items plain a
  | _ => true
  end.

Definition max_members (f : Json -> nat) : list (string * Json) -> nat :=
  fix go (o : list (string * Json)) : nat := match o with [] => 0%nat | kv :: o => Nat.max (f kv.2) (go o) end.
Definition max_items (f : Json -> nat) : list Json -> nat :=
  fix go (a : list Json) : nat := match a with [] => 0%nat | v :: a => Nat.max (f v) (go a) end.

(** Nesting depth, scalars at 0. *)
Fixpoint depth (j : Json) : nat :=
  match j with
  | JObject o => S (max_members depth o)
  | JArray a => S (max_items depth a)
  | _ => 0%nat
  end.

Lemma all_members_forall f o : all_members f o = true <-> Forall (fun kv => f kv.2 = true) o.
Proof. induction o as [|kv o IH]; cbn; [done|]. by rewrite andb_true_iff, IH, Forall_cons. Qed.
Lemma all_items_forall f a : all_items f a = true <-> Forall (fun v => f v = true) a.
Proof. induction a as [|v a IH]; cbn; [done|]. by rewrite andb_true_iff, IH, Forall_cons. Qed.

(** ** Strings *)

(** One iteration of [Str] undoes [escape_char]. *)
Lemma str_loop_escape f c r acc : str_loop (S f) (escape_char c +s+ r) acc = str_loop f r (acc +s+ str1 c).
Proof. destruct c as [[] [] [] [] [] [] [] []]; reflexivity. Qed.

Lemma escape_char_length c : (1 <= String.length (escape_char c))%nat.
Proof. destruct c as [[] [] [] [] [] [] [] []]; vm_compute; lia. Qed.

Lemma str_loop_body f s r acc :
  (String.length (escape_body s) < f)%nat ->
  str_loop f (escape_body s +s+ String dquote r) acc = POk (acc +s+ s) r.
Proof.
  revert f acc. induction s as [|c s IH]; intros f acc Hf; cbn [escape_body] in *.
  - destruct f as [|f]; [cbn in Hf; lia|]. cbn. by rewrite app_nil_s.
  - rewrite length_app_s in Hf. pose proof (escape_char_length c).
    destruct f as [|f]; [lia|]. rewrite app_assoc_s, str_loop_escape, IH by lia.
    by rewrite app_assoc_s.
Qed.

Lemma Str_escape s r : Str (JsonEscape s +s+ r) = POk s r.
Proof.
  unfold JsonEscape, Str. rewrite app_cons_s, app_assoc_s. cbn [str1 String.append Ascii.eqb dquote Bool.eqb].
  apply (str_loop_body _ s r EmptyString). rewrite length_app_s. lia.
Qed.

(** ** Numbers *)

Lemma isdigit_num c : isdigit c = true -> is_num_char c = true.
Proof. unfold is_num_char. by intros ->. Qed.

Lemma isdigit_not_frac c : isdigit c = true -> negb (is_frac_char c) = true.
Proof.
  unfold isdigit, is_frac_char. rewrite !ascii_eqb_code. code_consts. lia.
Qed.

Lemma Num_to_string i rest : int64_ok i -> stops is_num_char rest -> Num (to_string i +s+ rest) = POk (JInt i) rest.
Proof.
  intros Hi Hr. unfold Num. pose proof (to_string_chars i) as (c & s & E & Hc & Hs).
  assert (sforall is_num_char (to_string i) = true) as Hall.
  { rewrite E. cbn. rewrite (sforall_impl _ _ _ isdigit_num Hs).
    destruct Hc as [Hc| ->]; [by rewrite isdigit_num|done]. }
  assert (sforall (fun c => negb (is_frac_char c)) (to_string i) = true) as Hfrac.
  { rewrite E. cbn. rewrite (sforall_impl _ _ _ isdigit_not_frac Hs).
    destruct Hc as [Hc| ->]; [by rewrite isdigit_not_frac|done]. }
  rewrite span_app, Hfrac, strtoll_exact_to_string by done.
  destruct (sempty (to_string i) || (to_string i =s "-")) eqn:Hbad; [|done].
  exfalso. pose proof (strtoll_exact_to_string i Hi) as Hst.
  apply orb_prop in Hbad as [Hb|Hb]; [by rewrite E in Hb|].
  apply String.eqb_eq in Hb. by rewrite Hb in Hst.
Qed.

(** ** Members and elements *)

Lemma set_member_fresh k v o : k ∉ keys o -> set_member k v o = o ++ [(k, v)].
Proof.
  induction o as [|[k' v'] o IH]; cbn; [done|]. intros Hk.
  destruct (String.eqb_spec k' k) as [->|]; [set_solver|]. rewrite IH; set_solver.
Qed.

Lemma dump_members_more dump kv o : dump_members dump false (kv :: o) = String ","%char (dump_members dump true (kv :: o)).
Proof. by destruct kv. Qed.
Lemma dump_items_more dump v a : dump_items dump false (v :: a) = String ","%char (dump_items dump true (v :: a)).
Proof. done. Qed.

Lemma dump_members_length dump b o : (length o <= String.length (dump_members dump b o))%nat.
Proof.
  revert b. induction o as [|[k v] o IH]; intros b; cbn [dump_members length]; [lia|].
  rewrite !length_app_s. cbn [String.length]. rewrite length_app_s. specialize (IH false).
  change (dump_members dump false o) with (dump_members dump false o) in IH. lia.
Qed.

Lemma Ws_not_ws s : stops is_ws s -> Ws s = s.
Proof. apply drop_while_id. Qed.

(** The text after a member parses as a separator. *)
Lemma stops_member_end dump o rest : stops is_num_char (dump_members dump false o +s+ rest).
Proof. destruct o as [|[k v] o]; done. Qed.
Lemma stops_item_end dump a rest : stops is_num_char (dump_items dump false a +s+ rest).
Proof. destruct a; done. Qed.

Lemma dump_members_first dump k v o rest :
  (dump_members dump true ((k, v) :: o) +s+ rest) =
  (JsonEscape k +s+ String ":"%char (dump v +s+ dump_members dump false o +s+ rest)).
Proof. cbn [dump_members String.append]. by rewrite app_assoc_s, app_cons_s, app_assoc_s. Qed.

Lemma dump_items_first dump v a rest :
  (dump_items dump true (v :: a) +s+ rest) = (dump v +s+ dump_items dump false a +s+ rest).
Proof. cbn [dump_items String.append]. by rewrite app_assoc_s. Qed.

(** *** Reading back, for any parser of the grammar

    The string parser undoes the escaping and the number parser reads back integers. *)

Section grammar.
Context (str : string -> pres string) (num : string -> pres Json).
Hypothesis str_escape : forall s r, str (JsonEscape s +s+ r) = POk s r.
Hypothesis num_to_string : forall i rest, int64_ok i -> stops is_num_char rest -> num (to_string i +s+ rest) = POk (JInt i) rest.

Section loops.
(** The parser of one nesting level down reads back every value of a list. *)
Variable d : nat.

Definition reads (v : Json) : Prop :=
  forall rest, stops is_num_char rest -> json_value str num d (Dump v +s+ rest) = POk v rest.

Lemma NoDup_keys_fresh acc k v o : NoDup (keys (acc ++ (k, v) :: o)) -> k ∉ keys acc.
Proof.
  unfold keys. rewrite fmap_app. cbn. intros (_ & Hd & _)%NoDup_app Hin. apply (Hd _ Hin). set_solver.
Qed.

Lemma members_loop_dump fuel k v o acc rest :
  Forall (fun kv => reads kv.2) ((k, v) :: o) -> NoDup (keys (acc ++ (k, v) :: o)) ->
  (length o < fuel)%nat ->
  members_loop str (json_value str num d) fuel (dump_members Dump true ((k, v) :: o) +s+ rest) acc =
  POk (JObject (acc ++ (k, v) :: o)) rest.
Proof.
  revert k v acc fuel. induction o as [|[k' v'] o IH]; intros k v acc fuel [Hv Hr]%Forall_cons Hnd Hf;
    (destruct fuel as [|fuel]; [cbn in Hf; lia|]); cbn in Hv; cbn [members_loop];
    rewrite dump_members_first, Ws_not_ws, str_escape by done; cbn [pbind];
    rewrite Ws_not_ws by done; cbn [starts_char Ascii.eqb Bool.eqb];
    rewrite Hv by apply stops_member_end; cbn [pbind];
    rewrite (set_member_fresh k v acc) by eauto using NoDup_keys_fresh.
  - done.
  - rewrite dump_members_more, app_cons_s, Ws_not_ws by done. cbn [separator Ascii.eqb Bool.eqb].
    rewrite IH; [by rewrite <- app_assoc | done | by rewrite <- app_assoc | cbn in Hf; lia].
Qed.

Lemma items_loop_dump fuel v a acc rest :
  Forall reads (v :: a) -> (length a < fuel)%nat ->
  items_loop (json_value str num d) fuel (dump_items Dump true (v :: a) +s+ rest) acc = POk (JArray (acc ++ v :: a)) rest.
Proof.
  revert v acc fuel. induction a as [|v' a IH]; intros v acc fuel [Hv Hr]%Forall_cons Hf;
    (destruct fuel as [|fuel]; [cbn in Hf; lia|]); cbn [items_loop];
    rewrite dump_items_first, Hv by apply stops_item_end; cbn [pbind].
  - done.
  - rewrite dump_items_more, app_cons_s, Ws_not_ws by done. cbn [separator Ascii.eqb Bool.eqb].
    rewrite IH; [by rewrite <- app_assoc | done | cbn in Hf; lia].
Qed.
End loops.

Lemma dump_items_length dump a : (length a < String.length (dump_items dump false a))%nat.
Proof.
  induction a as [|v a IH]; cbn [dump_items length]; [cbn; lia|].
  rewrite !length_app_s. cbn [String.length]. cbn [dump_items] in IH. lia.
Qed.

(** A serialized value starts with a character that is neither blank nor a closing bracket. *)
Lemma Dump_head j : plain j = true -> exists c s, Dump j = String c s /\ is_ws c = false /\ Ascii.eqb c "]"%char = false.
Proof.
  destruct j as [|[]|i|d|s|o|a]; cbn; intros Hp; try done; try by eauto 10.
  destruct (to_string_chars i) as (c & s & -> & Hc & _). exists c, s. split; [done|].
  destruct Hc as [Hc| ->]; [|done]. unfold isdigit in Hc. unfold is_ws.
  rewrite !ascii_eqb_code. code_consts. lia.
Qed.

(** Where [Value] dispatches on the first character of a number. *)
Lemma Value_num d c s :
  isdigit c = true \/ c = "-"%char -> json_value str num (S d) (String c s) = num (String c s).
Proof.
  intros Hc.
  assert (is_ws c = false /\ Ascii.eqb c "{"%char = false /\ Ascii.eqb c "["%char = false /\
          Ascii.eqb c dquote = false /\ Ascii.eqb c "t"%char = false /\ Ascii.eqb c "f"%char = false /\
          Ascii.eqb c "n"%char = false) as (Hw & H1 & H2 & H3 & H4 & H5 & H6).
  { destruct Hc as [Hc| ->]; [|done]. unfold isdigit in Hc. unfold is_ws. rewrite !ascii_eqb_code. code_consts. lia. }
  cbn [json_value]. rewrite Ws_not_ws by done. by rewrite H1, H2, H3, H4, H5, H6.
Qed.

Lemma max_members_le f o n : (max_members f o <= n)%nat -> Forall (fun kv => (f kv.2 <= n)%nat) o.
Proof. induction o as [|kv o IH]; cbn; constructor; [lia|]. apply IH. lia. Qed.
Lemma max_items_le f a n : (max_items f a <= n)%nat -> Forall (fun v => (f v <= n)%nat) a.
Proof. induction a as [|v a IH]; cbn; constructor; [lia|]. apply IH. lia. Qed.

(** Reading back one value, whatever follows it. *)
Lemma json_value_Dump j : forall d rest,
  plain j = true -> (depth j <= d)%nat -> stops is_num_char rest ->
  json_value str num (S d) (Dump j +s+ rest) = POk j rest.
Proof.
  induction j as [|b|i|x|s|o IH|a IH] using json_nested_ind; intros d rest Hp Hd Hrest.
  - done.
  - by destruct b.
  - cbn in Hp. apply bool_decide_eq_true in Hp.
    destruct (to_string_chars i) as (c & s & E & Hc & _). cbn [Dump].
    rewrite <- (num_to_string i rest Hp Hrest). rewrite E, app_cons_s. by apply Value_num.
  - done.
  - cbn [json_value Dump]. rewrite Ws_not_ws by done. unfold JsonEscape at 1. rewrite app_cons_s.
    cbn [Ascii.eqb Bool.eqb dquote]. by rewrite str_escape.
  - cbn in Hp. apply andb_prop in Hp as [Hnd Hp]. apply bool_decide_eq_true in Hnd.
    apply all_members_forall in Hp. destruct d as [|d]; [cbn in Hd; lia|]. cbn [depth] in Hd.
    assert (Forall (fun kv => reads (S d) kv.2) o) as Hr.
    { apply le_S_n, max_members_le in Hd. rewrite !Forall_forall in *.
      intros kv Hkv r Hr. by apply IH; auto. }
    destruct o as [|[k v] o]; [done|].
    remember (S d) as d' eqn:E. cbn [Dump json_value]. rewrite app_cons_s, Ws_not_ws by done.
    cbn [Ascii.eqb Bool.eqb]. rewrite (Ws_not_ws (_ +s+ _)) by done.
    change (starts_char "}" _) with (@None string).
    rewrite members_loop_dump; [done|done|done|]. rewrite length_app_s.
    pose proof (dump_members_length Dump true ((k, v) :: o)) as Hl. cbn [length] in Hl. lia.
  - cbn in Hp. apply all_items_forall in Hp. destruct d as [|d]; [cbn in Hd; lia|]. cbn [depth] in Hd.
    assert (Forall (reads (S d)) a) as Hr.
    { apply le_S_n, max_items_le in Hd. rewrite !Forall_forall in *. intros v Hv r Hr. by apply IH; auto. }
    destruct a as [|v a]; [done|].
    destruct (Dump_head v) as (c & s & E & Hw & Hc); [by apply Forall_cons in Hp as [? _]|].
    remember (S d) as d' eqn:E'. cbn [Dump json_value]. rewrite app_cons_s, Ws_not_ws by done.
    cbn [Ascii.eqb Bool.eqb].
    assert (Ws (dump_items Dump true (v :: a) +s+ rest) = (dump_items Dump true (v :: a) +s+ rest)) as ->
      by (apply Ws_not_ws; rewrite dump_items_first, E; done).
    assert (starts_char "]" (dump_items Dump true (v :: a) +s+ rest) = None) as ->
      by (rewrite dump_items_first, E; cbn; by rewrite Hc).
    rewrite items_loop_dump; [done|done|].
    rewrite dump_items_first, !length_app_s. pose proof (dump_items_length Dump a). lia.
Qed.
End grammar.

Lemma Value_Dump j d rest :
  plain j = true -> (depth j <= d)%nat -> stops is_num_char rest -> Value (S d) (Dump j +s+ rest) = POk j rest.
Proof. apply json_value_Dump; [apply Str_escape|apply Num_to_string]. Qed.

(** ** The parser always answers *)

(** A step never runs out of fuel and leaves at most [n] characters. *)
Definition within {A} (n : nat) (r : pres A) : Prop :=
  match r with PFuel => False | POk _ rest => (String.length rest <= n)%nat | PErr _ _ => True end.

Lemma within_bind {A B} n m (r : pres A) (f : A -> string -> pres B) :
  within n r -> (forall v s, (String.length s <= n)%nat -> within m (f v s)) -> within m (pbind r f).
Proof. destruct r; cbn; auto. Qed.

Lemma within_mono {A} n m (r : pres A) : within n r -> (n <= m)%nat -> within m r.
Proof. destruct r; cbn; auto. lia. Qed.

Lemma hex_run_within k s v : within (String.length s) (hex_run k s v).
Proof.
  revert s v. induction k as [|k IH]; intros s v; cbn; [lia|].
  destruct s as [|c s]; [done|]. destruct (hex_val c); [|done].
  eapply within_mono; [apply IH|cbn; lia].
Qed.

Lemma Hex4_within s : within (String.length s) (Hex4 s).
Proof. unfold Hex4. destruct (_ <? 4)%nat; [done|]. apply hex_run_within. Qed.

Lemma unicode_escape_within s : within (String.length s) (unicode_escape s).
Proof.
  unfold unicode_escape. eapply within_bind; [apply Hex4_within|]. intros cp s1 H1.
  case_if; [|done]. eapply within_bind; [apply Hex4_within|]. intros lo s2.
  rewrite sdrop_length. cbn [within]. lia.
Qed.

Lemma str_loop_within fuel s acc : (String.length s < fuel)%nat -> within (String.length s - 1) (str_loop fuel s acc).
Proof.
  revert s acc. induction fuel as [|fuel IH]; intros s acc Hf; [lia|].
  destruct s as [|c s]; cbn [str_loop]; [done|]. cbn [String.length] in *.
  case_if; [cbn; lia|]. case_if; [done|]. case_if; [eapply within_mono; [apply IH; lia|lia]|].
  destruct s as [|e s]; [done|]. cbn [String.length] in *. case_if.
  - eapply within_bind; [apply unicode_escape_within|]. intros u s' Hs'.
    eapply within_mono; [apply IH; lia|lia].
  - destruct (short_escape e); [|done]. eapply within_mono; [apply IH; lia|lia].
Qed.

Lemma Str_within s : within (String.length s - 1) (Str s).
Proof.
  destruct s as [|c s]; cbn [Str]; [done|]. case_if; [|done].
  eapply within_mono; [apply str_loop_within; lia|cbn; lia].
Qed.

Lemma span_length f s : (String.length (span f s).2 <= String.length s)%nat /\
  (sempty (span f s).1 = false -> (String.length (span f s).2 < String.length s)%nat).
Proof.
  pose proof (span_spec f s) as H. destruct (span f s) as [a b]. destruct H as (-> & _). cbn.
  rewrite length_app_s. destruct a; cbn; [split; [lia|done]|lia].
Qed.

Lemma Num_within s : within (String.length s - 1) (Num s).
Proof.
  unfold Num. pose proof (span_length is_num_char s) as [_ Hl]. destruct (span is_num_char s) as [t rest].
  cbn in Hl. destruct (sempty t) eqn:E; [done|]. specialize (Hl eq_refl). cbn [orb].
  case_if; [done|].
  assert (within (String.length s - 1) (match scan_double t with Some (d, EmptyString) => POk (JDouble d) rest | _ => PErr "bad number" rest end))
    by (destruct (scan_double t) as [[? []]|]; cbn; auto; lia).
  case_if; [|done]. destruct (strtoll_exact t); [cbn; lia|done].
Qed.

Lemma Lit_within l s : (1 <= String.length l)%nat -> within (String.length s - 1) (Lit l s).
Proof. intros. unfold Lit. case_if; [|done]. cbn [within]. rewrite sdrop_length. lia. Qed.

Lemma Ws_length s : (String.length (Ws s) <= String.length s)%nat.
Proof. apply drop_while_length. Qed.

Lemma starts_char_length c s r : starts_char c s = Some r -> (String.length r < String.length s)%nat.
Proof. destruct s; cbn; [done|]. case_if; intros; simplify_eq; lia. Qed.
Lemma separator_length c s b r : separator c s = Some (b, r) -> (String.length r < String.length s)%nat.
Proof. destruct s; cbn; [done|]. repeat case_if; intros; simplify_eq; lia. Qed.

Section grammar_within.
Context (str : string -> pres string) (num : string -> pres Json).
Hypothesis str_within : forall s, within (String.length s - 1) (str s).
Hypothesis num_within : forall s, within (String.length s - 1) (num s).

Section loops_within.
Variable value : string -> pres Json.
Hypothesis value_within : forall s, within (String.length s - 1) (value s).

Lemma members_loop_within fuel s acc :
  (String.length s < fuel)%nat -> within (String.length s - 1) (members_loop str value fuel s acc).
Proof.
  revert s acc. induction fuel as [|fuel IH]; intros s acc Hf; [lia|]. cbn [members_loop].
  pose proof (Ws_length s). eapply within_bind; [apply str_within|]. intros key s1 H1.
  pose proof (Ws_length s1). destruct (starts_char ":"%char (Ws s1)) as [s2|] eqn:E2; [|done].
  apply starts_char_length in E2. eapply within_bind; [apply value_within|]. intros v s3 H3.
  pose proof (Ws_length s3). destruct (separator "}"%char (Ws s3)) as [[[] s4]|] eqn:E4; [| |done];
    apply separator_length in E4; [|cbn; lia].
  eapply within_mono; [apply IH; lia|lia].
Qed.

Lemma items_loop_within fuel s acc :
  (String.length s < fuel)%nat -> within (String.length s - 1) (items_loop value fuel s acc).
Proof.
  revert s acc. induction fuel as [|fuel IH]; intros s acc Hf; [lia|]. cbn [items_loop].
  eapply within_bind; [apply value_within|]. intros v s1 H1.
  pose proof (Ws_length s1). destruct (separator "]"%char (Ws s1)) as [[[] s2]|] eqn:E2; [| |done];
    apply separator_length in E2; [|cbn; lia].
  eapply within_mono; [apply IH; lia|lia].
Qed.
End loops_within.

Lemma json_value_within d : forall s, within (String.length s - 1) (json_value str num d s).
Proof.
  induction d as [|d IH]; intros s; cbn [json_value]; [done|]. pose proof (Ws_length s) as Hw.
  destruct (Ws s) as [|c r]; [done|]. cbn [String.length] in Hw. pose proof (Ws_length r).
  repeat case_if.
  - destruct (starts_char _ _) eqn:E; [apply starts_char_length in E; cbn; lia|].
    eapply within_mono; [apply members_loop_within; [done|lia]|lia].
  - destruct (starts_char _ _) eqn:E; [apply starts_char_length in E; cbn; lia|].
    eapply within_mono; [apply items_loop_within; [done|lia]|lia].
  - eapply within_bind; [apply str_within|]. cbn. lia.
  - eapply within_bind; [apply Lit_within; cbn; lia|]. cbn. lia.
  - eapply within_bind; [apply Lit_within; cbn; lia|]. cbn. lia.
  - eapply within_bind; [apply Lit_within; cbn; lia|]. cbn. lia.
  - eapply within_mono; [apply num_within|cbn; lia].
Qed.
End grammar_within.

Lemma Value_within d s : within (String.length s - 1) (Value d s).
Proof. apply json_value_within; [apply Str_within|apply Num_within]. Qed.

Lemma Parse_Dump j : plain j = true -> (depth j <= 64)%nat -> Parse (Dump j) = Parsed j.
Proof.
  intros Hp Hd. unfold Parse. rewrite <- (app_nil_s (Dump j)) at 1.
  by rewrite (Value_Dump j 64 EmptyString Hp Hd I).
Qed.

(** ** Line breaks *)

Lemma plain_object o : plain (JObject o) = true <-> NoDup (keys o) /\ Forall (fun kv => plain kv.2 = true) o.
Proof. cbn. by rewrite andb_true_iff, bool_decide_eq_true, all_members_forall. Qed.

Definition no_nl (s : string) : bool := sforall (fun c => negb (Ascii.eqb c newline) && negb (Ascii.eqb c creturn)) s.

Lemma no_nl_app a b : no_nl (a +s+ b) = no_nl a && no_nl b.
Proof. apply sforall_app. Qed.

(** A serialized value without doubles has no line break. *)
Lemma escape_char_no_nl c : no_nl (escape_char c) = true.
Proof. destruct c as [[] [] [] [] [] [] [] []]; reflexivity. Qed.
Lemma JsonEscape_no_nl s : no_nl (JsonEscape s) = true.
Proof.
  unfold JsonEscape. change (String dquote (escape_body s +s+ str1 dquote)) with (str1 dquote +s+ escape_body s +s+ str1 dquote).
  rewrite !no_nl_app. cbn. rewrite andb_true_r. induction s as [|c s IH]; cbn [escape_body]; [done|].
  by rewrite no_nl_app, escape_char_no_nl.
Qed.

Lemma isdigit_no_nl c : isdigit c = true -> negb (Ascii.eqb c newline) && negb (Ascii.eqb c creturn) = true.
Proof. unfold isdigit. rewrite !ascii_eqb_code. code_consts. lia. Qed.
Lemma to_string_no_nl n : no_nl (to_string n) = true /\ sempty (to_string n) = false.
Proof.
  destruct (to_string_chars n) as (c & s & -> & Hc & Hs). split; [|done]. unfold no_nl. cbn [sforall].
  rewrite (sforall_impl _ _ _ isdigit_no_nl Hs). destruct Hc as [Hc| ->]; [|done]. by rewrite isdigit_no_nl.
Qed.

Lemma no_nl_cons c s : no_nl (String c s) = no_nl (str1 c) && no_nl s.
Proof. apply (no_nl_app (str1 c) s). Qed.

Lemma Dump_no_nl j : plain j = true -> no_nl (Dump j) = true.
Proof.
  induction j as [|[]|i|x|s|o IH|a IH] using json_nested_ind; intros Hp; try done.
  - apply to_string_no_nl.
  - apply JsonEscape_no_nl.
  - apply plain_object in Hp as [_ Hp]. cbn [Dump]. rewrite no_nl_cons.
    enough (forall b, no_nl (dump_members Dump b o) = true) as -> by done.
    induction o as [|[k v] o IHo]; intros b; [done|]. apply Forall_cons in IH as [IHv IH], Hp as [Hv Hp].
    cbn [dump_members]. rewrite !no_nl_app, no_nl_cons, no_nl_app, JsonEscape_no_nl. cbn [snd] in IHv, Hv. rewrite IHv by done.
    rewrite (IHo IH Hp false). by destruct b.
  - cbn in Hp. apply all_items_forall in Hp. cbn [Dump]. rewrite no_nl_cons.
    enough (forall b, no_nl (dump_items Dump b a) = true) as -> by done.
    induction a as [|v a IHa]; intros b; [done|]. apply Forall_cons in IH as [IHv IH], Hp as [Hv Hp].
    cbn [dump_items]. rewrite !no_nl_app, IHv by done. rewrite (IHa IH Hp false). by destruct b.
Qed.

(** ** The theorems *)

(** Claim C19.  Round trip of the status endpoint's JSON: parsing the text [Dump] writes gives the
    value back, for every value without doubles whose integers fit [long long], whose objects have
    distinct keys and whose nesting stays within the parser's limit of 64.  Strings are arbitrary
    byte sequences (quotes, backslashes, control bytes and invalid UTF-8 included). *)
Theorem Parse_Dump_roundtrip (j : Json) :
  plain j = true -> (depth j <= 64)%nat -> Parse (Dump j) = Parsed j.
Proof. apply Parse_Dump. Qed.

Definition sample_status : Json :=
  JObject [("rev", JInt 7); (qs "te`am", JArray [JNull; JBool true; JString (String "010" (String "200" "\n"))]);
           ("state", JObject [("score", JInt (-3)); (EmptyString, JArray [])])].

Lemma Parse_Dump_roundtrip_witness :
  plain sample_status = true /\ (depth sample_status <= 64)%nat /\ Parse (Dump sample_status) = Parsed sample_status.
Proof.
  split; [vm_compute; reflexivity|]. split; [cbn; lia|].
  apply (Parse_Dump_roundtrip sample_status); [vm_compute; reflexivity|cbn; lia].
Defined.

(** The parser terminates with an answer on every byte sequence: the loops over the
    characters of a string, the members of an object and the elements of an array all advance, so
    the fuel of the model (the length of the text) is never exhausted, and a value or an error text
    is always reported. *)
Theorem Parse_total (text : string) :
  (exists v, Parse text = Parsed v) \/ (exists err, Parse text = ParseError err).
Proof.
  unfold Parse. pose proof (Value_within 65 text) as H. destruct (Value 65 text); [eauto|done|].
  case_if; eauto.
Qed.
