(* ===== verification/MergePatch.v ===== *)
(** * RFC 7386 merge patches

    [MergeDiff] and [MergePatchApply] of src/libs/readyup/status_snapshot.cpp: the status stream
    sends the difference of two states as a merge patch, and a consumer applies it.  The loops over
    the members are instances of [update_all], which writes [obj[key] = value] member by member. *)

From S2P Require Import Prelude CStr Double Json JsonFacts.

(** ** Model *)

(** A loop [for (kv : l) ... p[kv.first] = w]: [g] computes what is written for a member, if anything. *)
Definition update_all (g : string -> Json -> option Json) :
    list (string * Json) -> list (string * Json) -> list (string * Json) :=
  fix go (l acc : list (string * Json)) : list (string * Json) :=
    match l with
    | [] => acc
    | (k, v) :: l => go l (match g k v with Some w => set_member k w acc | None => acc end)
    end.

(** [Find] followed by a use of the member found. *)
Definition with_member {B} (k : string) (f : Json -> B) : list (string * Json) -> option B :=
  fix go (o : list (string * Json)) : option B :=
    match o with
    | [] => None
    | (k', v) :: o => if k' =s k then Some (f v) else go o
    end.

(** [MergeDiff]: [None] is the result [false], [Some p] is [true] with the patch. *)
Fixpoint MergeDiff (from to : Json) {struct to} : option Json :=
  if json_eqb from to then None
  else
    match from, to with
    | JObject fm, JObject tm =>
        let p1 := update_all (fun k _ => match find_member k tm with Some _ => None | None => Some JNull end) fm [] in
        let p2 :=
          update_all
            (fun k v =>
               match find_member k fm with
               | None => Some v
               | Some old => if IsNull v then (if IsNull old then None else Some JNull) else MergeDiff old v
               end) tm p1 in
        match p2 with [] => None | _ => Some (JObject p2) end
    | _, _ => Some to
    end.

Fixpoint MergePatchApply (target patch : Json) {struct patch} : Json :=
  match patch with
  | JObject pm =>
      let tm := Members target in
      let out1 :=
        update_all
          (fun k v =>
             match with_member k (fun p => if IsNull p then None else Some (MergePatchApply v p)) pm with
             | None => Some v
             | Some r => r
             end) tm [] in
      JObject
        (update_all
           (fun k v =>
              match find_member k tm with
              | Some _ => None
              | None => if IsNull v then None else Some (MergePatchApply JNull v)
              end)
           pm out1)
  | _ => patch
  end.

(** ** Members as a finite map *)

Lemma find_set_member k k' v o : find_member k (set_member k' v o) = if k' =s k then Some v else find_member k o.
Proof.
  induction o as [|[k2 v2] o IH]; cbn; [done|].
  destruct (String.eqb_spec k2 k') as [->|Hn]; cbn.
  - by destruct (String.eqb_spec k' k).
  - rewrite IH. destruct (String.eqb_spec k2 k) as [->|]; [|done].
    destruct (String.eqb_spec k' k); [congruence|done].
Qed.

Lemma keys_set_member k v o : forall x, x ∈ keys (set_member k v o) <-> x = k \/ x ∈ keys o.
Proof.
  induction o as [|[k2 v2] o IH]; intros x; cbn; [set_solver|].
  destruct (String.eqb_spec k2 k) as [->|Hn]; cbn; rewrite ?list.elem_of_cons; [naive_solver|].
  fold (keys (set_member k v o)) (keys o). rewrite IH. naive_solver.
Qed.

Lemma NoDup_set_member k v o : NoDup (keys o) -> NoDup (keys (set_member k v o)).
Proof.
  induction o as [|[k2 v2] o IH]; cbn; intros Hnd; [by apply NoDup_singleton|].
  destruct (String.eqb_spec k2 k) as [->|Hn]; [done|]. cbn.
  apply NoDup_cons in Hnd as [Hk Hnd]. apply NoDup_cons. split; [|by apply IH].
  fold (keys (set_member k v o)). rewrite keys_set_member. fold (keys o) in Hk. naive_solver.
Qed.

Lemma find_member_None k o : find_member k o = None <-> k ∉ keys o.
Proof.
  induction o as [|[k2 v2] o IH]; cbn; [set_solver|].
  destruct (String.eqb_spec k2 k) as [->|Hn]; [set_solver|]. rewrite IH. fold (keys o). set_solver.
Qed.

Lemma find_member_is_Some k o : is_Some (find_member k o) <-> k ∈ keys o.
Proof.
  pose proof (find_member_None k o) as H. destruct (find_member k o).
  - split; [|done]. intros _. destruct (decide (k ∈ keys o)); [done|naive_solver].
  - split; [by intros [? ?]|]. intros. naive_solver.
Qed.

Lemma find_member_elem k v o : NoDup (keys o) -> (k, v) ∈ o <-> find_member k o = Some v.
Proof.
  induction o as [|[k2 v2] o IH]; cbn; intros Hnd; [set_solver|].
  apply NoDup_cons in Hnd as [Hk Hnd]. rewrite list.elem_of_cons.
  destruct (String.eqb_spec k2 k) as [->|Hn].
  - split; [|intros [= ->]; by left]. intros [[= ->]|Hin]; [done|].
    exfalso. apply Hk. fold (keys o). apply list_elem_of_fmap. by exists (k, v).
  - rewrite IH by done. naive_solver.
Qed.

Lemma find_member_Forall (P : Json -> Prop) o k v : Forall (fun kv => P kv.2) o -> find_member k o = Some v -> P v.
Proof.
  induction o as [|[k2 v2] o IH]; cbn; [done|]. intros [Hv Ho]%Forall_cons.
  case_if; [|by apply IH]. by intros [= ->].
Qed.

Lemma with_member_find {B} k (f : Json -> B) o : with_member k f o = f <$> find_member k o.
Proof. induction o as [|[k2 v2] o IH]; cbn; [done|]. by case_if. Qed.

(** What a loop of member updates leaves under each key. *)
Lemma find_update_all g l acc k :
  NoDup (keys l) ->
  find_member k (update_all g l acc) =
  match find_member k l with
  | Some v => match g k v with Some w => Some w | None => find_member k acc end
  | None => find_member k acc
  end.
Proof.
  revert acc. induction l as [|[k2 v2] l IH]; intros acc Hnd; cbn; [done|].
  apply NoDup_cons in Hnd as [Hk Hnd]. fold (keys l) in Hk. rewrite IH by done.
  destruct (String.eqb_spec k2 k) as [->|Hn].
  - assert (find_member k l = None) as -> by by apply find_member_None.
    destruct (g k v2); [|done]. by rewrite find_set_member, String.eqb_refl.
  - destruct (g k2 v2); [|done]. rewrite find_set_member.
    destruct (String.eqb_spec k2 k); [congruence|done].
Qed.

Lemma NoDup_update_all g l acc : NoDup (keys acc) -> NoDup (keys (update_all g l acc)).
Proof.
  revert acc. induction l as [|[k v] l IH]; intros acc Hnd; cbn; [done|]. apply IH.
  destruct (g k v); [by apply NoDup_set_member|done].
Qed.

(** ** Equality of objects, member by member *)

Lemma members_eqb_spec y x :
  members_eqb json_eqb y x = true <->
  Forall (fun kv => exists w, find_member kv.1 y = Some w /\ json_eqb kv.2 w = true) x.
Proof.
  induction x as [|[k v] x IH]; cbn; [done|]. rewrite Forall_cons, <- IH. cbn.
  destruct (find_member k y) as [w|]; [|naive_solver].
  rewrite andb_true_iff. naive_solver.
Qed.

(** Two objects with distinct keys are equal when every key holds equal values. *)
Definition agree (x y : list (string * Json)) : Prop :=
  forall k, match find_member k x, find_member k y with
            | Some v, Some w => json_eqb v w = true
            | None, None => True
            | _, _ => False
            end.

Lemma keys_length x y : NoDup (keys x) -> NoDup (keys y) -> (forall k, k ∈ keys x <-> k ∈ keys y) -> length x = length y.
Proof.
  intros Hx Hy H. rewrite <- (length_fmap fst x), <- (length_fmap fst y).
  apply Permutation_length, NoDup_Permutation; auto.
Qed.

Lemma json_eqb_object x y :
  NoDup (keys x) -> NoDup (keys y) -> agree x y -> json_eqb (JObject x) (JObject y) = true.
Proof.
  intros Hx Hy Ha. cbn. apply andb_true_iff. split.
  - apply Nat.eqb_eq, keys_length; [done..|]. intros k. specialize (Ha k).
    rewrite <- !find_member_is_Some.
    destruct (find_member k x), (find_member k y); naive_solver.
  - apply members_eqb_spec, Forall_forall. intros [k v] Hin. cbn.
    specialize (Ha k). rewrite (proj1 (find_member_elem k v x Hx) Hin) in Ha.
    destruct (find_member k y) as [w|]; [by exists w|done].
Qed.

(** ** The values the stream can carry *)

(** Distinct keys everywhere, no NaN, and no null member of an object (a merge patch cannot set a
    member to null). Nulls inside arrays are fine: arrays are replaced whole. *)
Fixpoint uniq (j : Json) : bool :=
  match j with
  | JObject o => bool_decide (NoDup (keys o)) && all_members uniq o
  | JArray a => all_items uniq a
  | _ => true
  end.
Fixpoint nan_free (j : Json) : bool :=
  match j with
  | JDouble d => negb (dnan d)
  | JObject o => all_members nan_free o
  | JArray a => all_items nan_free a
  | _ => true
  end.
Fixpoint null_free (j : Json) : bool :=
  match j with
  | JObject o => all_members (fun v => negb (IsNull v) && null_free v) o
  | _ => true
  end.
Definition sendable (j : Json) : bool := uniq j && nan_free j && null_free j.

Lemma null_free_members o :
  null_free (JObject o) = true <-> Forall (fun kv => IsNull kv.2 = false /\ null_free kv.2 = true) o.
Proof.
  cbn. rewrite all_members_forall. apply Forall_proper; [|done]. intros [k v]. cbn.
  rewrite andb_true_iff, negb_true_iff. done.
Qed.

(** What a member of a sendable object has to be. *)
Definition member_ok (v : Json) : Prop := IsNull v = false /\ sendable v = true.

(** A sendable object is a list of sendable non-null members under distinct keys. *)
Lemma sendable_object o :
  sendable (JObject o) = true <->
  NoDup (keys o) /\ Forall (fun kv => member_ok kv.2) o.
Proof.
  unfold member_ok, sendable. rewrite !andb_true_iff, null_free_members. cbn.
  rewrite andb_true_iff, bool_decide_eq_true, !all_members_forall.
  rewrite !Forall_forall. setoid_rewrite andb_true_iff. setoid_rewrite andb_true_iff. naive_solver.
Qed.

Lemma items_eqb_refl a : Forall (fun v => json_eqb v v = true) a -> items_eqb json_eqb a a = true.
Proof. induction 1 as [|v a Hv Ha IH]; cbn; [done|]. by rewrite Hv. Qed.

Lemma agree_refl o : NoDup (keys o) -> Forall (fun kv => json_eqb kv.2 kv.2 = true) o -> agree o o.
Proof.
  intros Hnd Ho k. destruct (find_member k o) as [v|] eqn:E; [|done].
  by apply (find_member_Forall (fun v => json_eqb v v = true) o k v).
Qed.

Lemma json_eqb_refl j : uniq j = true -> nan_free j = true -> json_eqb j j = true.
Proof.
  induction j as [|b|i|x|s|o IH|a IH] using json_nested_ind; cbn; intros Hu Hn; try done.
  - by destruct b.
  - apply Z.eqb_refl.
  - apply deqb_refl. by destruct (dnan x).
  - apply String.eqb_refl.
  - apply andb_prop in Hu as [Hnd Hu]. apply bool_decide_eq_true in Hnd.
    apply all_members_forall in Hu, Hn. apply json_eqb_object; [done..|]. apply agree_refl; [done|].
    rewrite !Forall_forall in *. naive_solver.
  - apply all_items_forall in Hu, Hn. apply items_eqb_refl. rewrite !Forall_forall in *. naive_solver.
Qed.

Lemma sendable_refl j : sendable j = true -> json_eqb j j = true.
Proof. unfold sendable. intros H. split_bools. by apply json_eqb_refl. Qed.

(** ** Correctness of the patch *)

(** What a patch leaves under a key. *)
Lemma MergePatchApply_find target pm k :
  NoDup (keys (Members target)) -> NoDup (keys pm) ->
  find_member k (Members (MergePatchApply target (JObject pm))) =
  match find_member k (Members target), find_member k pm with
  | Some v, None => Some v
  | Some v, Some p => if IsNull p then None else Some (MergePatchApply v p)
  | None, Some p => if IsNull p then None else Some (MergePatchApply JNull p)
  | None, None => None
  end.
Proof.
  intros Ht Hp. cbn [MergePatchApply Members]. rewrite !find_update_all by done.
  destruct (find_member k (Members target)) as [v|]; cbn; rewrite ?with_member_find;
    destruct (find_member k pm) as [p|]; cbn; try done; by destruct (IsNull p).
Qed.

Lemma MergePatchApply_NoDup target pm : NoDup (keys (Members (MergePatchApply target (JObject pm)))).
Proof. cbn [MergePatchApply Members]. by apply NoDup_update_all, NoDup_update_all, NoDup_nil_2. Qed.

(** A sendable value applied to a target that is no object replaces it. *)
Lemma MergePatchApply_fresh v : forall t,
  sendable v = true -> IsObject t = false -> json_eqb (MergePatchApply t v) v = true.
Proof.
  induction v as [|b|i|x|s|o IH|a IH] using json_nested_ind; intros t Hs Ht;
    try (by apply (sendable_refl _ Hs)).
  assert (Members t = []) as Em by by destruct t.
  pose proof Hs as [Hnd Ho]%sendable_object.
  change (MergePatchApply t (JObject o)) with (JObject (Members (MergePatchApply t (JObject o)))).
  apply json_eqb_object; [apply MergePatchApply_NoDup|done|].
  intros k. rewrite MergePatchApply_find by (rewrite ?Em; first [apply NoDup_nil_2|done]). rewrite Em. cbn [find_member].
  destruct (find_member k o) as [v|] eqn:E; [|done].
  pose proof (find_member_Forall _ _ _ _ Ho E) as [-> Hv].
  apply (find_member_Forall (fun v => forall t, sendable v = true -> IsObject t = false -> json_eqb (MergePatchApply t v) v = true) _ _ _ IH E); done.
Qed.

Lemma MergeDiff_nonobject from to :
  IsObject from && IsObject to = false -> MergeDiff from to = if json_eqb from to then None else Some to.
Proof. destruct to; cbn; try done; destruct from; done. Qed.

(** The patch between two objects: its members, key by key. *)
Definition diff_members (fm tm : list (string * Json)) : list (string * Json) :=
  update_all
    (fun k v =>
       match find_member k fm with
       | None => Some v
       | Some old => if IsNull v then (if IsNull old then None else Some JNull) else MergeDiff old v
       end) tm
    (update_all (fun k _ => match find_member k tm with Some _ => None | None => Some JNull end) fm []).

Lemma MergeDiff_object fm tm :
  MergeDiff (JObject fm) (JObject tm) =
  if json_eqb (JObject fm) (JObject tm) then None
  else match diff_members fm tm with [] => None | _ => Some (JObject (diff_members fm tm)) end.
Proof. reflexivity. Qed.

Lemma diff_members_find fm tm k :
  NoDup (keys fm) -> NoDup (keys tm) -> Forall (fun kv => member_ok kv.2) tm ->
  find_member k (diff_members fm tm) =
  match find_member k fm, find_member k tm with
  | Some old, Some v => MergeDiff old v
  | Some _, None => Some JNull
  | None, o => o
  end.
Proof.
  intros Hf Ht Hs. unfold diff_members. rewrite !find_update_all by done. cbn [find_member].
  destruct (find_member k tm) as [v|] eqn:E; destruct (find_member k fm) as [old|]; try done.
  pose proof (find_member_Forall _ _ _ _ Hs E) as [-> _]. by destruct (MergeDiff old v).
Qed.

Lemma find_all_None o : (forall k, find_member k o = None) -> o = [].
Proof. destruct o as [|[k v] o]; [done|]. intros H. specialize (H k). cbn in H. by rewrite String.eqb_refl in H. Qed.

(** A patch is never null: a null member of a patch only ever deletes. *)
Lemma MergeDiff_not_null from v p : IsNull v = false -> MergeDiff from v = Some p -> IsNull p = false.
Proof.
  intros Hv. destruct (IsObject from && IsObject v) eqn:E.
  - destruct from, v; try done. rewrite MergeDiff_object. case_if; [done|].
    destruct (diff_members _ _); [done|]. by intros [= <-].
  - rewrite MergeDiff_nonobject by done. case_if; [done|]. by intros [= <-].
Qed.

(** The result of the diff, as a statement about both of its outcomes. *)
Definition patch_ok (from to : Json) : Prop :=
  match MergeDiff from to with
  | None => json_eqb from to = true
  | Some p => json_eqb (MergePatchApply from p) to = true
  end.

Lemma patch_ok_object fm tm :
  NoDup (keys fm) -> sendable (JObject tm) = true ->
  (forall k old v, find_member k fm = Some old -> find_member k tm = Some v -> patch_ok old v) ->
  patch_ok (JObject fm) (JObject tm).
Proof.
  intros Hf Hs IH. pose proof Hs as [Ht Hm]%sendable_object. unfold patch_ok. rewrite MergeDiff_object.
  case_if; [done|]. pose proof (diff_members_find fm tm) as Hd.
  destruct (diff_members fm tm) as [|kv p] eqn:Ep.
  - (* an empty patch: the members agree *)
    exfalso. assert (json_eqb (JObject fm) (JObject tm) = true); [|congruence].
    apply json_eqb_object; [done..|]. intros k. specialize (Hd k Hf Ht Hm). cbn in Hd.
    destruct (find_member k fm) as [old|] eqn:E1, (find_member k tm) as [v|] eqn:E2; try done.
    specialize (IH k old v E1 E2). unfold patch_ok in IH. by rewrite <- Hd in IH.
  - rewrite <- Ep in *. clear Ep kv p.
    change (MergePatchApply ?a (JObject ?b)) with (JObject (Members (MergePatchApply a (JObject b)))).
    apply json_eqb_object; [apply MergePatchApply_NoDup|done|]. intros k.
    rewrite MergePatchApply_find
      by (cbn; first [done | by apply NoDup_update_all, NoDup_update_all, NoDup_nil_2]).
    rewrite Hd by done. cbn [Members].
    destruct (find_member k fm) as [old|] eqn:E1, (find_member k tm) as [v|] eqn:E2; try done.
    + pose proof (find_member_Forall _ _ _ _ Hm E2) as [Hv _]. specialize (IH k old v E1 E2). unfold patch_ok in IH.
      destruct (MergeDiff old v) as [p|] eqn:Em; [|done]. by rewrite (MergeDiff_not_null _ _ _ Hv Em).
    + pose proof (find_member_Forall _ _ _ _ Hm E2) as [-> Hv]. by apply MergePatchApply_fresh.
Qed.

Lemma patch_ok_all to : forall from, uniq from = true -> sendable to = true -> patch_ok from to.
Proof.
  induction to as [|b|i|x|s|tm IH|a IH] using json_nested_ind; intros from Hf Hs;
    try (unfold patch_ok; rewrite MergeDiff_nonobject by (by rewrite andb_false_r); case_if; [done|];
         by apply (sendable_refl _ Hs)).
  destruct (IsObject from) eqn:Eo.
  - destruct from as [| | | | |fm|]; try done. cbn in Hf. apply andb_prop in Hf as [Hnd Hu].
    apply bool_decide_eq_true in Hnd. apply all_members_forall in Hu.
    apply patch_ok_object; [done..|]. intros k old v E1 E2.
    pose proof Hs as [_ Hm]%sendable_object. pose proof (find_member_Forall _ _ _ _ Hm E2) as [_ Hv].
    refine (find_member_Forall (fun v => forall from, uniq from = true -> sendable v = true -> patch_ok from v) _ _ _ IH E2 _ _ Hv).
    by apply (find_member_Forall (fun v => uniq v = true) _ _ _ Hu E1).
  - unfold patch_ok. rewrite MergeDiff_nonobject by (by rewrite Eo). case_if; [done|].
    by apply MergePatchApply_fresh.
Qed.

(** Claim C18.  The status stream's merge patches are correct: when the new state has distinct keys,
    no NaN and no null members, applying the patch [MergeDiff] computes to the old state gives the
    new state, and when [MergeDiff] reports no difference the two states are already equal (up to
    the order of object members, as [operator==] compares them). *)
Theorem MergeDiff_correct (from to : Json) :
  uniq from = true -> sendable to = true ->
  match MergeDiff from to with
  | None => json_eqb from to = true
  | Some p => json_eqb (MergePatchApply from p) to = true
  end.
Proof. intros. by apply patch_ok_all. Qed.

Definition diff_from : Json :=
  JObject [("a", JInt 1); ("gone", JNull); ("o", JObject [("x", JArray [JNull]); ("y", JBool true)])].
Definition diff_to : Json :=
  JObject [("o", JObject [("y", JBool false); ("x", JArray [JNull]); ("z", JObject [])]); ("a", JInt 1)].

Lemma MergeDiff_correct_witness :
  MergeDiff diff_from diff_to = Some (JObject [("gone", JNull); ("o", JObject [("y", JBool false); ("z", JObject [])])]) /\
  match MergeDiff diff_from diff_to with
  | None => json_eqb diff_from diff_to = true
  | Some p => json_eqb (MergePatchApply diff_from p) diff_to = true
  end.
Proof.
  split; [vm_compute; reflexivity|].
  apply (MergeDiff_correct diff_from diff_to); vm_compute; reflexivity.
Defined.

(** * [operator==] of JSON values as an equivalence, and patches as morphisms for it *)

(** ** Transitivity *)

Lemma deqb_trans x y z : (x =d y) = true -> (y =d z) = true -> (x =d z) = true.
Proof.
  unfold deqb, SFeqb.
  destruct x as [s|s| |s m e], y as [t|t| |t m' e'], z as [u|u| |u m'' e'']; cbn; try done;
    try (by destruct s, t, u); try (by destruct s, t); try (by destruct t, u); try (by destruct s).
  change (Pos.compare_cont Eq) with Pos.compare.
  destruct s, t, u; try done;
    destruct (Z.compare_spec e e'); try done; destruct (Z.compare_spec e' e''); try done; subst;
    rewrite Z.compare_refl;
    destruct (Pos.compare_spec m m'); try done; destruct (Pos.compare_spec m' m''); try done; subst;
    by rewrite Pos.compare_refl.
Qed.

Lemma json_eqb_agree x y :
  NoDup (keys x) -> NoDup (keys y) -> json_eqb (JObject x) (JObject y) = true -> agree x y.
Proof.
  intros Hx Hy H. cbn in H. apply andb_prop in H as [Hl Hm]. apply Nat.eqb_eq in Hl.
  apply members_eqb_spec in Hm. rewrite Forall_forall in Hm.
  assert (forall k v, find_member k x = Some v -> exists w, find_member k y = Some w /\ json_eqb v w = true) as Hxy.
  { intros k v E. apply find_member_elem in E; [|done]. by apply (Hm (k, v)). }
  assert (keys x ≡ₚ keys y) as Hp.
  { apply submseteq_length_Permutation; [|unfold keys; rewrite !length_fmap; lia].
    apply NoDup_submseteq; [done|]. intros k. rewrite <- !find_member_is_Some. intros [v Hv].
    destruct (Hxy _ _ Hv) as (w & -> & _). by eexists. }
  intros k. destruct (find_member k x) as [v|] eqn:E.
  - destruct (Hxy _ _ E) as (w & -> & Hw). done.
  - destruct (find_member k y) as [w|] eqn:E2; [|done].
    apply find_member_None in E. apply E. rewrite Hp. apply find_member_is_Some. by eexists.
Qed.

Lemma uniq_object o : uniq (JObject o) = true <-> NoDup (keys o) /\ Forall (fun kv => uniq kv.2 = true) o.
Proof. cbn. by rewrite andb_true_iff, bool_decide_eq_true, all_members_forall. Qed.

Lemma find_uniq o k v : uniq (JObject o) = true -> find_member k o = Some v -> uniq v = true.
Proof. intros [_ Ho]%uniq_object. by apply (find_member_Forall (fun v => uniq v = true)). Qed.

Lemma items_eqb_trans a : forall b c,
  Forall (fun v => forall w u, uniq v = true -> uniq w = true -> uniq u = true ->
                     json_eqb v w = true -> json_eqb w u = true -> json_eqb v u = true) a ->
  all_items uniq a = true -> all_items uniq b = true -> all_items uniq c = true ->
  items_eqb json_eqb a b = true -> items_eqb json_eqb b c = true -> items_eqb json_eqb a c = true.
Proof.
  induction a as [|v a IH]; intros [|w b] [|u c] H; cbn; try done. intros.
  apply Forall_cons in H as [Hv Ha]. split_bools. apply andb_true_iff. split; [by apply (Hv w u)|by apply (IH b c)].
Qed.

Lemma json_eqb_trans a : forall b c,
  uniq a = true -> uniq b = true -> uniq c = true ->
  json_eqb a b = true -> json_eqb b c = true -> json_eqb a c = true.
Proof.
  induction a as [|x|i|x|s|o IH|a IH] using json_nested_ind; intros b c Ha Hb Hc H1 H2;
    destruct b; try done; destruct c; try done; cbn in H1, H2 |- *.
  - by destruct x, b, b0.
  - split_bools. subst. apply Z.eqb_refl.
  - by eapply deqb_trans.
  - split_bools. subst. apply String.eqb_refl.
  - apply uniq_object in Ha as Ha', Hb as Hb', Hc as Hc'. destruct Ha' as [Na _], Hb' as [Nb _], Hc' as [Nc _].
    apply json_eqb_agree in H1; [|done..]. apply json_eqb_agree in H2; [|done..].
    apply json_eqb_object; [done..|]. intros k. specialize (H1 k). specialize (H2 k).
    destruct (find_member k o) as [v|] eqn:E1, (find_member k obj) as [w|] eqn:E2, (find_member k obj0) as [u|] eqn:E3; try done.
    pose proof (find_member_Forall (fun a => forall b c, uniq a = true -> uniq b = true -> uniq c = true ->
      json_eqb a b = true -> json_eqb b c = true -> json_eqb a c = true) _ _ _ IH E1) as Hv.
    apply (Hv w u); [exact (find_uniq _ _ _ Ha E1)|exact (find_uniq _ _ _ Hb E2)|exact (find_uniq _ _ _ Hc E3)|done|done].
  - by apply (items_eqb_trans a arr arr0).
Qed.

(** ** Patches respect equality *)

Lemma Members_uniq j : uniq j = true -> NoDup (keys (Members j)).
Proof. destruct j; cbn; intros H; try apply NoDup_nil_2. split_bools. by apply bool_decide_eq_true in H. Qed.

Lemma json_eqb_Members_agree a b :
  uniq a = true -> uniq b = true -> json_eqb a b = true -> agree (Members a) (Members b).
Proof.
  intros Ha Hb H. destruct a, b; try done. apply json_eqb_agree; [by apply uniq_object..|done].
Qed.

Lemma MergePatchApply_proper p : forall a b,
  uniq p = true -> nan_free p = true -> uniq a = true -> uniq b = true -> json_eqb a b = true ->
  json_eqb (MergePatchApply a p) (MergePatchApply b p) = true.
Proof.
  induction p as [|x|i|x|s|pm IH|l IH] using json_nested_ind; intros a b Hp Hn Ha Hb H;
    try (by apply json_eqb_refl).
  pose proof Hp as [Np Up]%uniq_object.
  change (MergePatchApply ?t (JObject pm)) with (JObject (Members (MergePatchApply t (JObject pm)))).
  apply json_eqb_object; [apply MergePatchApply_NoDup..|]. intros k.
  rewrite !MergePatchApply_find by auto using Members_uniq.
  pose proof (json_eqb_Members_agree a b Ha Hb H k) as Hk.
  destruct (find_member k (Members a)) as [v|] eqn:E1, (find_member k (Members b)) as [w|] eqn:E2; try done;
    destruct (find_member k pm) as [q|] eqn:E3; try done; destruct (IsNull q); try done.
  all: cbn in Hn; apply all_members_forall in Hn.
  all: pose proof (find_member_Forall (fun v => nan_free v = true) _ _ _ Hn E3).
  all: pose proof (find_member_Forall (fun v => uniq v = true) _ _ _ Up E3).
  all: apply (find_member_Forall (fun p => forall a b, uniq p = true -> nan_free p = true -> uniq a = true ->
         uniq b = true -> json_eqb a b = true -> json_eqb (MergePatchApply a p) (MergePatchApply b p) = true) _ _ _ IH E3);
         try done.
  all: first [destruct a; try done; exact (find_uniq _ _ _ Ha E1) | destruct b; try done; exact (find_uniq _ _ _ Hb E2)].
Qed.

(** Key by key, so that every result has distinct keys too. *)
Lemma uniq_MergePatchApply p : forall t, uniq p = true -> uniq t = true -> uniq (MergePatchApply t p) = true.
Proof.
  induction p as [|x|i|x|s|pm IH|l IH] using json_nested_ind; intros t Hp Ht; try done.
  pose proof Hp as [Np Up]%uniq_object. pose proof (Members_uniq t Ht) as Nt.
  change (MergePatchApply ?t (JObject pm)) with (JObject (Members (MergePatchApply t (JObject pm)))).
  apply uniq_object. split; [apply MergePatchApply_NoDup|].
  apply Forall_forall. intros [k v] Hin. apply find_member_elem in Hin; [|apply MergePatchApply_NoDup].
  rewrite MergePatchApply_find in Hin by done. cbn.
  pose proof (fun q => find_member_Forall (fun p => forall t, uniq p = true -> uniq t = true -> uniq (MergePatchApply t p) = true) pm k q IH) as IHq.
  pose proof (fun q => find_member_Forall (fun v => uniq v = true) pm k q Up) as Uq.
  destruct (find_member k (Members t)) as [w|] eqn:E1, (find_member k pm) as [q|] eqn:E2; try done;
    try (destruct (IsNull q); [done|]); simplify_eq; try (apply IHq; auto); destruct t; try done; eauto using find_uniq.
Qed.

(** ** The patch carries nothing new *)

Lemma update_all_Forall (P : Json -> Prop) g l acc :
  Forall (fun kv => P kv.2) acc -> (forall k v w, (k, v) ∈ l -> g k v = Some w -> P w) ->
  Forall (fun kv => P kv.2) (update_all g l acc).
Proof.
  assert (forall k w o, P w -> Forall (fun kv => P kv.2) o -> Forall (fun kv => P kv.2) (set_member k w o)) as Hset.
  { intros k w o Hw. induction 1 as [|[k2 v2] o Hv Ho IH]; cbn; [by repeat constructor|].
    case_if; by constructor. }
  revert acc. induction l as [|[k v] l IH]; intros acc Ha Hg; cbn; [done|]. apply IH.
  - destruct (g k v) eqn:E; [|done]. apply Hset; [|done]. eapply Hg; [|done]. set_solver.
  - intros. eapply Hg; [|done]. set_solver.
Qed.

Section diff_closed.
(** A property of values that null has and that an object has when its keys are distinct and its
    members have it. *)
Variable P : Json -> Prop.
Hypothesis P_null : P JNull.
Hypothesis P_object : forall o, NoDup (keys o) -> Forall (fun kv => P kv.2) o -> P (JObject o).
Hypothesis P_members : forall o, P (JObject o) -> NoDup (keys o) /\ Forall (fun kv => P kv.2) o.

Lemma MergeDiff_closed to : forall from p, P to -> MergeDiff from to = Some p -> P p.
Proof.
  induction to as [|x|i|x|s|tm IH|l IH] using json_nested_ind; intros from p Ht E;
    try (rewrite MergeDiff_nonobject in E by (by rewrite andb_false_r); case_if; [done|]; by simplify_eq).
  destruct (IsObject from) eqn:Eo; [|rewrite MergeDiff_nonobject in E by (by rewrite Eo); case_if; [done|]; by simplify_eq].
  destruct from as [| | | | |fm|]; try done. rewrite MergeDiff_object in E. case_if; [done|].
  destruct (P_members _ Ht) as [Nt Pt].
  assert (P (JObject (diff_members fm tm))) as HP; [|destruct (diff_members fm tm); by simplify_eq].
  apply P_object; [by apply NoDup_update_all, NoDup_update_all, NoDup_nil_2|].
  unfold diff_members. apply update_all_Forall.
  - apply update_all_Forall; [constructor|]. intros k v w _ Hg. destruct (find_member k tm); by simplify_eq.
  - intros k v w Hin Hg. rewrite Forall_forall in Pt, IH. specialize (Pt _ Hin). specialize (IH _ Hin). cbn in *.
    destruct (find_member k fm) as [old|]; [|by simplify_eq].
    destruct (IsNull v); [destruct (IsNull old); by simplify_eq|by eapply IH].
Qed.
End diff_closed.

Lemma MergeDiff_plain from to p : plain to = true -> MergeDiff from to = Some p -> plain p = true.
Proof.
  apply (MergeDiff_closed (fun j => plain j = true)); [done| |]; intros o; rewrite plain_object; [by split|done].
Qed.

Lemma max_members_spec o n : (max_members depth o <= n)%nat <-> Forall (fun kv => (depth kv.2 <= n)%nat) o.
Proof.
  split; [apply max_members_le|]. induction 1; cbn; lia.
Qed.

Lemma MergeDiff_depth to : forall from p, plain to = true -> MergeDiff from to = Some p -> (depth p <= depth to)%nat.
Proof.
  induction to as [|x|i|x|s|tm IH|l IH] using json_nested_ind; intros from p Hp E;
    try (rewrite MergeDiff_nonobject in E by (by rewrite andb_false_r); case_if; [done|]; by simplify_eq).
  destruct (IsObject from) eqn:Eo; [|rewrite MergeDiff_nonobject in E by (by rewrite Eo); case_if; [done|]; by simplify_eq].
  destruct from as [| | | | |fm|]; try done. rewrite MergeDiff_object in E. case_if; [done|].
  pose proof Hp as [Nt Pt]%plain_object.
  assert (p = JObject (diff_members fm tm)) as -> by (destruct (diff_members fm tm); by simplify_eq).
  cbn [depth]. apply le_n_S, max_members_spec. unfold diff_members.
  apply (update_all_Forall (fun j => (depth j <= max_members depth tm)%nat)).
  - apply (update_all_Forall (fun j => (depth j <= max_members depth tm)%nat)); [constructor|].
    intros k v w _ Hg. destruct (find_member k tm); simplify_eq. cbn. lia.
  - intros k v w Hin Hg. pose proof (proj1 (max_members_spec tm _) (le_n _)) as Hm.
    rewrite Forall_forall in Hm, IH, Pt. specialize (Hm _ Hin). specialize (IH _ Hin). specialize (Pt _ Hin). cbn in *.
    destruct (find_member k fm) as [old|]; [|by simplify_eq].
    destruct (IsNull v); [destruct (IsNull old); simplify_eq; cbn; lia|]. specialize (IH _ _ Pt Hg). lia.
Qed.

Lemma plain_uniq j : plain j = true -> uniq j = true /\ nan_free j = true.
Proof.
  induction j as [|x|i|x|s|o IH|l IH] using json_nested_ind; cbn; try done; intros H.
  - apply andb_prop in H as [Hn H]. rewrite Hn. apply all_members_forall in H. rewrite Forall_forall in *.
    split; [apply andb_true_iff; split; [done|]|]; apply all_members_forall, Forall_forall; naive_solver.
  - apply all_items_forall in H. rewrite Forall_forall in *.
    split; apply all_items_forall, Forall_forall; naive_solver.
Qed.
