(* ===== verification/StatusHub.v ===== *)
(** * The status hub

    [readyup::status::Hub] (src/libs/readyup/status_snapshot.h and .cpp): the game thread submits
    inputs, the HTTP thread picks up the latest one, diffs it against the previous one, numbers the
    state revisions and appends stream events to a bounded ring.  The mutex makes [Submit] and the
    pick-up in [Process] atomic, so an execution is a sequence of these operations in any order.
    Counters are exact integers (a [uint64_t] does not wrap in the lifetime of a server). *)

From S2P Require Import Prelude CStr Double Json JsonFacts MergePatch.

(** ** Server-sent events *)

(** The text cut at every newline. *)
Fixpoint split_nl (s : string) : list string :=
  match s with
  | EmptyString => [EmptyString]
  | String c r =>
      if Ascii.eqb c newline then EmptyString :: split_nl r
      else match split_nl r with [] => [str1 c] | l :: ls => String c l :: ls end
  end.

(** [if (!line.empty() && line.back() == '\r') line.pop_back()]. *)
Fixpoint pop_cr (s : string) : string :=
  match s with
  | EmptyString => EmptyString
  | String c EmptyString => if Ascii.eqb c creturn then EmptyString else s
  | String c r => String c (pop_cr r)
  end.

Definition concat_s (l : list string) : string := foldr String.append EmptyString l.

Definition nl : string := str1 newline.

Definition SseFrame (event id data : string) : string :=
  (if sempty event then EmptyString else "event: " +s+ event +s+ nl) +s+
  (if sempty id then EmptyString else "id: " +s+ id +s+ nl) +s+
  concat_s (map (fun line => "data: " +s+ pop_cr line +s+ nl) (split_nl data)) +s+ nl.

(** [SseComment]. *)
Definition SseComment (text : string) : string := ": " +s+ text +s+ nl +s+ nl.

(** ** State *)

Record StatusInputs := {
  hostname : string;
  server_id : string;
  game_port : Z;
  versions : Json;
  selftest : Json;
  platform : Json;
  summary : Json;
  state : Json;
  update_safe : bool;
  healthy : bool;
  unhealthy_reason : string;
  selftest_report : string;
  gauges : list (string * double);
}.

Record StreamEvent := { seq : Z; ev_rev : Z; frame : string }.

Record Hub := {
  pending : option StatusInputs;
  submissions : Z;
  cap : Z;
  cur : option StatusInputs;
  rev : Z;
  lastSeq : Z;
  oldestDroppedSeq : Z;
  events : list StreamEvent;
  versionsJ : string;
  selftestJ : string;
  platformJ : string;
  summaryJ : string;
  stateJ : string;
}.

Definition NewHub (patchRing : Z) : Hub := {|
  pending := None; submissions := 0; cap := if patchRing =? 0 then 1 else patchRing;
  cur := None; rev := 0; lastSeq := 0; oldestDroppedSeq := 0; events := [];
  versionsJ := EmptyString; selftestJ := EmptyString; platformJ := EmptyString;
  summaryJ := EmptyString; stateJ := EmptyString |}.

Definition set_ring (h : Hub) (last dropped : Z) (evs : list StreamEvent) : Hub := {|
  pending := pending h; submissions := submissions h; cap := cap h; cur := cur h; rev := rev h;
  lastSeq := last; oldestDroppedSeq := dropped; events := evs;
  versionsJ := versionsJ h; selftestJ := selftestJ h; platformJ := platformJ h;
  summaryJ := summaryJ h; stateJ := stateJ h |}.

Definition set_pending (h : Hub) (p : option StatusInputs) (n : Z) : Hub := {|
  pending := p; submissions := n; cap := cap h; cur := cur h; rev := rev h;
  lastSeq := lastSeq h; oldestDroppedSeq := oldestDroppedSeq h; events := events h;
  versionsJ := versionsJ h; selftestJ := selftestJ h; platformJ := platformJ h;
  summaryJ := summaryJ h; stateJ := stateJ h |}.

Definition set_rev (h : Hub) (r : Z) : Hub := {|
  pending := pending h; submissions := submissions h; cap := cap h; cur := cur h; rev := r;
  lastSeq := lastSeq h; oldestDroppedSeq := oldestDroppedSeq h; events := events h;
  versionsJ := versionsJ h; selftestJ := selftestJ h; platformJ := platformJ h;
  summaryJ := summaryJ h; stateJ := stateJ h |}.

(** The last lines of [Process]: the input becomes current, with its serialized pieces. *)
Definition set_cur (h : Hub) (i : StatusInputs) : Hub := {|
  pending := pending h; submissions := submissions h; cap := cap h; cur := Some i; rev := rev h;
  lastSeq := lastSeq h; oldestDroppedSeq := oldestDroppedSeq h; events := events h;
  versionsJ := Dump (versions i); selftestJ := Dump (selftest i); platformJ := Dump (platform i);
  summaryJ := Dump (summary i); stateJ := Dump (state i) |}.

(** ** Operations *)

Definition Submit (h : Hub) (i : option StatusInputs) : Hub := set_pending h i (submissions h + 1).

Definition is_patch (e : StreamEvent) : bool := negb (ev_rev e =? 0).
Definition patches (evs : list StreamEvent) : Z := sumZ (fun e => if is_patch e then 1 else 0) evs.

(** The loop of [Append] that drops the oldest events: the events left and the last seq dropped. *)
Fixpoint trim_ring (cap : Z) (evs : list StreamEvent) (dropped : Z) : list StreamEvent * Z :=
  match evs with
  | [] => ([], dropped)
  | e :: rest =>
      if (cap <? patches evs) || (cap * 2 <? zlen evs) then trim_ring cap rest (seq e) else (evs, dropped)
  end.

Definition Append (h : Hub) (r : Z) (f : string) : Hub :=
  let s := lastSeq h + 1 in
  let '(evs, dropped) :=
    trim_ring (cap h) (events h ++ [{| seq := s; ev_rev := r; frame := f |}]) (oldestDroppedSeq h) in
  set_ring h s dropped evs.

(** [add] of [Process]: one more member of the status object being written. *)
Definition add (data key json : string) : string :=
  data +s+ (if sempty data then "{" else ",") +s+ str1 dquote +s+ key +s+ qs "`:" +s+ json.

Definition json_bool (b : bool) : string := if b then "true" else "false".

(** The data of a patch event. *)
Definition patch_data (r : Z) (p : Json) : string :=
  qs "{`rev`:" +s+ to_string r +s+ qs ",`patch`:" +s+ Dump p +s+ "}".

(** The state part of [Process]: a changed state with a difference is a new revision. *)
Definition process_state (h : Hub) (c i : StatusInputs) : Hub * bool :=
  if Dump (state i) =s stateJ h then (h, false)
  else
    match MergeDiff (state c) (state i) with
    | None => (h, false)
    | Some p =>
        let r := rev h + 1 in
        (Append (set_rev h r) r (SseFrame "patch" (to_string r) (patch_data r p)), true)
    end.

(** The other changed pieces, as one status object without its closing brace. *)
Definition status_data (h : Hub) (c i : StatusInputs) : string :=
  let d := EmptyString in
  let d := if Dump (platform i) =s platformJ h then d else add d "platform" (Dump (platform i)) in
  let d := if Bool.eqb (update_safe i) (update_safe c) then d else add d "update_safe" (json_bool (update_safe i)) in
  let d := if Dump (summary i) =s summaryJ h then d else add d "summary" (Dump (summary i)) in
  let d := if Dump (versions i) =s versionsJ h then d else add d "versions" (Dump (versions i)) in
  let d := if Dump (selftest i) =s selftestJ h then d else add d "selftest" (Dump (selftest i)) in
  if Bool.eqb (healthy i) (healthy c) then d else add d "healthy" (json_bool (healthy i)).

Definition process_status (h : Hub) (c i : StatusInputs) : Hub * bool :=
  let d := status_data h c i in
  if sempty d then (h, false) else (Append h 0 (SseFrame "status" EmptyString (d +s+ "}")), true).

(** [Process]: the new hub and whether stream events were appended (or it was the first input). *)
Definition Process (h : Hub) : Hub * bool :=
  match pending h with
  | None => (h, false)
  | Some i =>
      let h := set_pending h None (submissions h) in
      match cur h with
      | None => (set_cur (set_rev h 1) i, true)
      | Some c =>
          let '(h1, a1) := process_state h c i in
          let '(h2, a2) := process_status h1 c i in
          (set_cur h2 i, a1 || a2)
      end
  end.

Definition StatusBody (h : Hub) (uptimeS nowMs : Z) : string :=
  match cur h with
  | None => qs "{`error`:`starting`}"
  | Some c =>
      "{" +s+
      (if sempty (server_id c) then EmptyString else qs "`server_id`:" +s+ JsonEscape (server_id c) +s+ ",") +s+
      qs "`hostname`:" +s+ JsonEscape (hostname c) +s+
      qs ",`game_port`:" +s+ to_string (game_port c) +s+
      qs ",`uptime_s`:" +s+ to_string uptimeS +s+
      qs ",`generated_at`:" +s+ to_string nowMs +s+
      qs ",`rev`:" +s+ to_string (rev h) +s+
      qs ",`versions`:" +s+ versionsJ h +s+
      qs ",`selftest`:" +s+ selftestJ h +s+
      qs ",`platform`:" +s+ platformJ h +s+
      qs ",`update_safe`:" +s+ json_bool (update_safe c) +s+
      qs ",`summary`:" +s+ summaryJ h +s+
      qs ",`state`:" +s+ stateJ h +s+ "}"
  end.

Definition SnapshotFrame (h : Hub) : string :=
  match cur h with
  | None => SseFrame "snapshot" EmptyString "{}"
  | Some c =>
      SseFrame "snapshot" (to_string (rev h))
        (qs "{`rev`:" +s+ to_string (rev h) +s+
         qs ",`summary`:" +s+ summaryJ h +s+
         qs ",`platform`:" +s+ platformJ h +s+
         qs ",`update_safe`:" +s+ json_bool (update_safe c) +s+
         qs ",`versions`:" +s+ versionsJ h +s+
         qs ",`selftest`:" +s+ selftestJ h +s+
         qs ",`state`:" +s+ stateJ h +s+ "}")
  end.

(** [FramesAfter]: the frames to send, or [None] when the ring no longer holds them (a fresh
    snapshot is needed). *)
Definition FramesAfter (h : Hub) (afterSeq : Z) : option string :=
  if lastSeq h <=? afterSeq then Some EmptyString
  else if afterSeq <? oldestDroppedSeq h then None
  else Some (concat_s (map frame (filter (fun e => afterSeq < seq e) (events h)))).

(** [SeqForRev]: the seq of the event with this rev, if it is still in the ring. *)
Definition SeqForRev (h : Hub) (r : Z) : option Z :=
  seq <$> head (filter (fun e => ev_rev e = r) (events h)).
