(* ===== verification/StatusHubFacts.v ===== *)
(** * The status hub: ring invariant, resuming a stream, replaying a stream *)

From S2P Require Import Prelude CStr Double Json JsonFacts MergePatch StatusHub.

(** ** Executions

    The ghost [log] is every event ever appended, oldest first; the ring keeps a suffix of it. *)

(** The event [process_state] appends, if any. *)
Definition state_event (h : Hub) (c i : StatusInputs) : option StreamEvent :=
  if Dump (state i) =s stateJ h then None
  else
    match MergeDiff (state c) (state i) with
    | None => None
    | Some p =>
        let r := rev h + 1 in
        Some {| seq := lastSeq h + 1; ev_rev := r; frame := SseFrame "patch" (to_string r) (patch_data r p) |}
    end.

(** The event [process_status] appends, if any. *)
Definition status_event (h : Hub) (c i : StatusInputs) : option StreamEvent :=
  let d := status_data h c i in
  if sempty d then None
  else Some {| seq := lastSeq h + 1; ev_rev := 0; frame := SseFrame "status" EmptyString (d +s+ "}") |}.

(** [Append] of an event already numbered. *)
Definition push_event (h : Hub) (e : StreamEvent) : Hub :=
  let '(evs, dropped) := trim_ring (cap h) (events h ++ [e]) (oldestDroppedSeq h) in
  set_ring h (seq e) dropped evs.

Definition opt_list {A} (o : option A) : list A := match o with Some x => [x] | None => [] end.

(** The hub between the two halves of [Process]. *)
Definition after_state (h : Hub) (c i : StatusInputs) : Hub :=
  match state_event h c i with Some e => push_event (set_rev h (ev_rev e)) e | None => h end.
Definition after_status (h : Hub) (c i : StatusInputs) : Hub :=
  match status_event h c i with Some e => push_event h e | None => h end.

Lemma process_state_eq h c i : (process_state h c i).1 = after_state h c i.
Proof.
  unfold process_state, after_state, state_event. case_if; [done|]. by destruct (MergeDiff _ _).
Qed.
Lemma process_status_eq h c i : (process_status h c i).1 = after_status h c i.
Proof. unfold process_status, after_status, status_event. by case_if. Qed.

(** The events one [Process] appends. *)
Definition emitted (h : Hub) : list StreamEvent :=
  match pending h, cur h with
  | Some i, Some c =>
      let h0 := set_pending h None (submissions h) in
      opt_list (state_event h0 c i) ++ opt_list (status_event (after_state h0 c i) c i)
  | _, _ => []
  end.

(** [run h0 log0 h log]: the operations lead from one hub and log to another, in any order of
    submissions and [Process] calls; every submitted input satisfies [ok]. *)
Inductive run (ok : StatusInputs -> Prop) (h0 : Hub) (log0 : list StreamEvent) : Hub -> list StreamEvent -> Prop :=
| run_here : run ok h0 log0 h0 log0
| run_submit h log i :
    run ok h0 log0 h log -> (forall x, i = Some x -> ok x) -> run ok h0 log0 (Submit h i) log
| run_process h log :
    run ok h0 log0 h log -> run ok h0 log0 (Process h).1 (log ++ emitted h).

Definition reach (ok : StatusInputs -> Prop) (ring : Z) : Hub -> list StreamEvent -> Prop := run ok (NewHub ring) [].

(** ** The ring *)

(** Consecutive numbers from [d + 1]. *)
Definition numbered (d : Z) (evs : list StreamEvent) : Prop :=
  forall j e, evs !! j = Some e -> seq e = d + Z.of_nat j + 1.

Lemma numbered_cons d e evs : numbered d (e :: evs) <-> seq e = d + 1 /\ numbered (d + 1) evs.
Proof.
  split.
  - intros H. split; [specialize (H 0%nat e eq_refl); lia|]. intros j x Hj. specialize (H (S j) x Hj). lia.
  - intros [H1 H2] [|j] x Hj; cbn in Hj; simplify_eq; [lia|]. specialize (H2 j x Hj). lia.
Qed.

Lemma numbered_app d a b : numbered d (a ++ b) <-> numbered d a /\ numbered (d + zlen a) b.
Proof.
  revert d. induction a as [|e a IH]; intros d; cbn [app].
  - replace (d + zlen (@nil StreamEvent)) with d by (unfold zlen; cbn; lia). split; [|by intros [_ H]].
    intros H. split; [by intros j x Hj|done].
  - rewrite !numbered_cons, IH, zlen_cons. replace (d + 1 + zlen a) with (d + (1 + zlen a)) by lia. tauto.
Qed.

Lemma patches_bounds evs : 0 <= patches evs <= zlen evs.
Proof.
  induction evs as [|e evs IH]; [unfold patches, zlen, sumZ; cbn; lia|]. unfold patches in *. rewrite sumZ_cons, zlen_cons.
  destruct (is_patch e); lia.
Qed.

(** The ring holds at most [cap] patches and [2 * cap] events, and is at one of the limits as soon
    as something has been dropped. *)
Definition ring_ok (cap dropped : Z) (evs : list StreamEvent) : Prop :=
  patches evs <= cap /\ zlen evs <= cap * 2 /\ (0 < dropped -> cap <= zlen evs).

Lemma trim_ring_spec c evs d :
  1 <= c -> numbered d evs -> 0 <= d -> patches evs <= c + 1 -> zlen evs <= c * 2 + 1 ->
  (0 < d -> c <= zlen evs) ->
  exists k, trim_ring c evs d = (drop k evs, d + Z.of_nat k) /\ (k <= length evs)%nat /\
            ring_ok c (d + Z.of_nat k) (drop k evs).
Proof.
  intros Hc. revert d. induction evs as [|e evs IH]; intros d Hn Hd Hp Hl Hdrop.
  - exists 0%nat. unfold ring_ok, patches, zlen, sumZ in *. cbn in *. repeat split; try lia. f_equal; lia.
  - cbn [trim_ring]. destruct ((c <? patches (e :: evs)) || (c * 2 <? zlen (e :: evs))) eqn:E.
    + apply numbered_cons in Hn as [He Hn]. rewrite He.
      assert (c <= zlen evs).
      { pose proof (patches_bounds evs). unfold patches in *. rewrite zlen_cons, sumZ_cons in *.
        destruct (is_patch e); lia. }
      destruct (IH (d + 1)) as (k & Ht & Hk & Hr).
      * done.
      * lia.
      * unfold patches in *. rewrite sumZ_cons in Hp. destruct (is_patch e); lia.
      * rewrite zlen_cons in Hl. lia.
      * done.
      * exists (S k). cbn [drop length]. replace (d + Z.of_nat (S k)) with (d + 1 + Z.of_nat k) by lia.
        repeat split; [done|lia|apply Hr..].
    + exists 0%nat. cbn [drop]. replace (d + Z.of_nat 0) with d by lia.
      apply orb_false_elim in E as [E1 E2]. split_bools. repeat split; [lia|lia|lia|done].
Qed.

(** ** The invariant *)

Record hub_inv (ring : Z) (h : Hub) (log : list StreamEvent) : Prop := {
  inv_cap : 1 <= cap h;
  inv_numbered : numbered 0 log;
  inv_last : lastSeq h = zlen log;
  inv_dropped : 0 <= oldestDroppedSeq h <= zlen log;
  inv_events : events h = drop (Z.to_nat (oldestDroppedSeq h)) log;
  inv_ring : ring_ok (cap h) (oldestDroppedSeq h) (events h);
  inv_state : forall c, cur h = Some c -> stateJ h = Dump (state c);
}.

(** A field update that touches neither the ring nor the current input keeps the invariant. *)
Lemma hub_inv_ext ring h h' log :
  hub_inv ring h log -> cap h' = cap h -> lastSeq h' = lastSeq h -> oldestDroppedSeq h' = oldestDroppedSeq h ->
  events h' = events h -> (forall c, cur h' = Some c -> stateJ h' = Dump (state c)) -> hub_inv ring h' log.
Proof. intros [] E1 E2 E3 E4 E5. split; rewrite ?E1, ?E2, ?E3, ?E4; auto. Qed.

Lemma push_event_fields h e :
  cap (push_event h e) = cap h /\ rev (push_event h e) = rev h /\ cur (push_event h e) = cur h /\
  stateJ (push_event h e) = stateJ h /\ lastSeq (push_event h e) = seq e /\ pending (push_event h e) = pending h.
Proof. unfold push_event. by destruct (trim_ring _ _ _). Qed.

Lemma hub_inv_push ring h log e :
  hub_inv ring h log -> seq e = lastSeq h + 1 -> hub_inv ring (push_event h e) (log ++ [e]).
Proof.
  intros [Hc Hn Hl Hd He [Hp [Hz Hk]] Hs] Hseq.
  assert (numbered (oldestDroppedSeq h) (events h ++ [e])) as Hnum.
  { rewrite He. rewrite <- (take_drop (Z.to_nat (oldestDroppedSeq h)) log), numbered_app in Hn. destruct Hn as [_ Hn].
    assert (zlen (take (Z.to_nat (oldestDroppedSeq h)) log) = oldestDroppedSeq h) as Et
      by (unfold zlen in *; rewrite length_take; lia).
    rewrite Et in Hn. apply numbered_app. split; [by replace (0 + oldestDroppedSeq h) with (oldestDroppedSeq h) in Hn by lia|].
    intros [|j] x Hj; [|done]. cbn in Hj. simplify_eq. unfold zlen in *. rewrite length_drop. lia. }
  destruct (trim_ring_spec (cap h) _ _ Hc Hnum) as (k & Ht & Hkl & Hr); [lia| | | |].
  { unfold patches in *. rewrite sumZ_app. unfold sumZ at 2. cbn. destruct (is_patch e); lia. }
  { unfold zlen in *; rewrite length_app; cbn [length]; lia. }
  { intros. specialize (Hk ltac:(lia)). unfold zlen in *; rewrite length_app; cbn [length]; lia. }
  assert (drop (Z.to_nat (oldestDroppedSeq h)) (log ++ [e]) = events h ++ [e]) as Hdrop.
  { rewrite drop_app_le by (unfold zlen in *; lia). by rewrite <- He. }
  unfold push_event. rewrite Ht. rewrite length_app in Hkl. cbn in Hkl.
  assert (length (events h) = (length log - Z.to_nat (oldestDroppedSeq h))%nat) as Hlen by (rewrite He; apply length_drop).
  split; cbn.
  - done.
  - apply numbered_app. split; [done|]. intros [|j] x Hj; [|done]. cbn in Hj. simplify_eq. lia.
  - unfold zlen in *; rewrite length_app; cbn [length]; lia.
  - unfold zlen in *; rewrite length_app; cbn [length]; lia.
  - rewrite Z2Nat.inj_add, Nat2Z.id by lia. by rewrite <- drop_drop, Hdrop.
  - done.
  - intros c Hcur. by apply Hs.
Qed.

Lemma hub_inv_state ring h log c i :
  hub_inv ring h log -> hub_inv ring (after_state h c i) (log ++ opt_list (state_event h c i)).
Proof.
  intros Hi. unfold after_state. destruct (state_event h c i) as [e|] eqn:E; cbn; [|by rewrite app_nil_r].
  apply hub_inv_push.
  - eapply hub_inv_ext; [done..|]. apply Hi.
  - unfold state_event in E. case_if; [done|]. destruct (MergeDiff _ _); by simplify_eq.
Qed.

Lemma hub_inv_status ring h log c i :
  hub_inv ring h log -> hub_inv ring (after_status h c i) (log ++ opt_list (status_event h c i)).
Proof.
  intros Hi. unfold after_status. destruct (status_event h c i) as [e|] eqn:E; cbn; [|by rewrite app_nil_r].
  apply hub_inv_push; [done|]. unfold status_event in E. case_if; by simplify_eq.
Qed.

(** [Process] as the composition of its halves. *)
Lemma Process_eq h :
  (Process h).1 =
  match pending h with
  | None => h
  | Some i =>
      let h0 := set_pending h None (submissions h) in
      match cur h with
      | None => set_cur (set_rev h0 1) i
      | Some c => set_cur (after_status (after_state h0 c i) c i) i
      end
  end.
Proof.
  unfold Process. destruct (pending h) as [i|]; [|done]. cbn [cur set_pending]. destruct (cur h) as [c|]; [|done].
  rewrite <- process_state_eq. destruct (process_state _ c i) as [h1 a1]. cbn.
  rewrite <- process_status_eq. by destruct (process_status _ c i) as [h2 a2].
Qed.

Lemma hub_inv_process ring h log : hub_inv ring h log -> hub_inv ring (Process h).1 (log ++ emitted h).
Proof.
  intros Hi. rewrite Process_eq. unfold emitted. destruct (pending h) as [i|]; [|by rewrite app_nil_r].
  destruct (cur h) as [c|] eqn:Ec; cbn [cur set_pending].
  - assert (hub_inv ring (set_pending h None (submissions h)) log) as H0 by (eapply hub_inv_ext; [done..|apply Hi]).
    pose proof (hub_inv_status _ _ _ c i (hub_inv_state _ _ _ c i H0)) as H2. rewrite <- app_assoc in H2.
    eapply hub_inv_ext; [exact H2|done..|]. cbn. by intros c' [= <-].
  - rewrite app_nil_r. eapply hub_inv_ext; [done..|]. cbn. by intros c' [= <-].
Qed.

Lemma reach_inv ok ring h log : 0 <= ring -> reach ok ring h log -> hub_inv ring h log.
Proof.
  intros Hring. induction 1 as [|h log i H IH _|h log H IH].
  - split; cbn; unfold ring_ok, patches, zlen, sumZ; cbn; try done; try lia; destruct (Z.eqb_spec ring 0); lia.
  - eapply hub_inv_ext; [done..|]. apply IH.
  - by apply hub_inv_process.
Qed.

(** ** Resuming a stream *)

Lemma numbered_filter_all d evs a : numbered d evs -> a <= d -> filter (fun e => a < seq e) evs = evs.
Proof.
  revert d. induction evs as [|x evs IH]; intros d Hn Hlt; [done|].
  apply numbered_cons in Hn as [Hx Hn]. rewrite filter_cons, Hx, decide_True by lia.
  f_equal. apply (IH (d + 1)); [done|lia].
Qed.

Lemma numbered_filter d evs a :
  numbered d evs -> d <= a -> filter (fun e => a < seq e) evs = drop (Z.to_nat (a - d)) evs.
Proof.
  revert d. induction evs as [|e evs IH]; intros d Hn Ha; [by rewrite drop_nil|].
  destruct (decide (a = d)) as [->|Hne].
  - replace (Z.to_nat (d - d)) with 0%nat by lia. by apply (numbered_filter_all d).
  - apply numbered_cons in Hn as [He Hn]. rewrite filter_cons, He, decide_False by lia.
    rewrite (IH (d + 1)) by (done || lia). by replace (Z.to_nat (a - d)) with (S (Z.to_nat (a - (d + 1)))) by lia.
Qed.

Lemma numbered_drop d evs n : numbered d evs -> (n <= length evs)%nat -> numbered (d + Z.of_nat n) (drop n evs).
Proof.
  intros Hn Hl j e Hj. rewrite lookup_drop in Hj. specialize (Hn _ _ Hj). lia.
Qed.

Lemma frames_after_log ring h log afterSeq : hub_inv ring h log -> 0 <= afterSeq ->
  match FramesAfter h afterSeq with
  | Some out => out = concat_s (map frame (drop (Z.to_nat afterSeq) log))
  | None => cap h < zlen log - afterSeq
  end.
Proof.
  intros [Hc Hn Hl Hd He [_ [_ Hfull]] _] Ha. unfold FramesAfter. rewrite Hl.
  destruct (Z.leb_spec (zlen log) afterSeq).
  - rewrite drop_ge by (unfold zlen in *; lia). done.
  - destruct (Z.ltb_spec afterSeq (oldestDroppedSeq h)).
    + specialize (Hfull ltac:(lia)). rewrite He in Hfull. unfold zlen in *. rewrite length_drop in Hfull. lia.
    + do 2 f_equal. apply (numbered_drop 0 _ (Z.to_nat (oldestDroppedSeq h))) in Hn; [|unfold zlen in *; lia].
      rewrite Z2Nat.id in Hn by lia. rewrite He, (numbered_filter (oldestDroppedSeq h)) by (done || lia).
      rewrite drop_drop. f_equal. lia.
Qed.

(** Claim C17.  Resuming a stream loses and repeats nothing: whatever interleaving of submissions
    and [Process] calls led to the hub, [FramesAfter] with a client's last seq returns exactly the
    frames appended after it, in order; it asks for a fresh snapshot only when more than [cap]
    events have been appended since. *)
Theorem FramesAfter_exact (ok : StatusInputs -> Prop) (ring : Z) (h : Hub) (log : list StreamEvent) (afterSeq : Z) :
  0 <= ring -> reach ok ring h log -> 0 <= afterSeq ->
  match FramesAfter h afterSeq with
  | Some out => out = concat_s (map frame (drop (Z.to_nat afterSeq) log))
  | None => cap h < zlen log - afterSeq
  end.
Proof. intros Hring Hr Ha. apply (frames_after_log ring); [by apply (reach_inv ok)|done]. Qed.

(** Two inputs with different scores, and the hub that processed both. *)
Definition input_with (score : Z) : StatusInputs := {|
  hostname := "cs"; server_id := EmptyString; game_port := 27015;
  versions := JObject []; selftest := JNull; platform := JObject []; summary := JObject [];
  state := JObject [("mode", JString "match_live"); ("score", JObject [("team1", JInt score)])];
  update_safe := true; healthy := true; unhealthy_reason := EmptyString; selftest_report := EmptyString; gauges := [] |}.
Definition hub_one : Hub := (Process (Submit (NewHub 4) (Some (input_with 0)))).1.
Definition hub_two : Hub := (Process (Submit hub_one (Some (input_with 1)))).1.
Definition log_two : list StreamEvent := ([] ++ emitted (Submit (NewHub 4) (Some (input_with 0)))) ++ emitted (Submit hub_one (Some (input_with 1))).

Lemma FramesAfter_exact_witness :
  FramesAfter hub_two 0 = Some (SseFrame "patch" "2" (qs "{`rev`:2,`patch`:{`score`:{`team1`:1}}}")) /\
  match FramesAfter hub_two 0 with
  | Some out => out = concat_s (map frame (drop (Z.to_nat 0) log_two))
  | None => cap hub_two < zlen log_two - 0
  end.
Proof.
  split; [vm_compute; reflexivity|].
  apply (FramesAfter_exact (fun _ => True) 4 hub_two log_two 0); [lia| |lia].
  unfold hub_two, log_two. apply run_process, run_submit; [|done].
  unfold hub_one. apply run_process, run_submit; [|done]. apply run_here.
Defined.

(** ** Replaying a stream

    A consumer reads the data lines of a frame, parses them as JSON and applies the patch. *)

Definition data_line (l : string) : option string := if starts_with "data: " l then Some (sdrop 6 l) else None.

(** The data of a frame: its data lines, joined by newlines. *)
Fixpoint join_data (ls : list string) : option string :=
  match ls with
  | [] => None
  | l :: ls =>
      match data_line l, join_data ls with
      | Some d, Some ds => Some (d +s+ nl +s+ ds)
      | Some d, None => Some d
      | None, r => r
      end
  end.
Definition sse_data (f : string) : option string := join_data (split_nl f).

Definition consume (c : Json) (e : StreamEvent) : Json :=
  if is_patch e then
    match Parse <$> sse_data (frame e) with
    | Some (Parsed j) => match Find j "patch" with Some p => MergePatchApply c p | None => c end
    | _ => c
    end
  else c.

(** *** Frames of one line *)

Lemma split_nl_line s : no_nl s = true -> split_nl s = [s].
Proof.
  unfold no_nl. induction s as [|c s IH]; cbn; [done|]. intros H. split_bools.
  destruct (Ascii.eqb c newline); [done|]. by rewrite IH.
Qed.

Lemma split_nl_app s r : no_nl s = true -> split_nl (s +s+ nl +s+ r) = s :: split_nl r.
Proof.
  unfold no_nl. induction s as [|c s IH]; cbn; [done|]. intros H. split_bools.
  destruct (Ascii.eqb c newline); [done|]. cbn in IH. by rewrite IH.
Qed.

Lemma pop_cr_line s : no_nl s = true -> pop_cr s = s.
Proof.
  unfold no_nl. induction s as [|c s IH]; cbn; [done|]. intros H. split_bools.
  destruct s as [|d s]; [by destruct (Ascii.eqb c creturn)|]. by rewrite IH.
Qed.

Lemma sse_data_frame ev id data :
  sempty ev = false -> sempty id = false -> no_nl ev = true -> no_nl id = true -> no_nl data = true ->
  sse_data (SseFrame ev id data) = Some data.
Proof.
  intros He Hi Ne Ni Nd. unfold sse_data, SseFrame. rewrite He, Hi, (split_nl_line data) by done.
  cbn [map concat_s foldr]. rewrite pop_cr_line, app_nil_s, !app_assoc_s by done.
  rewrite <- (app_assoc_s "event: "), split_nl_app by (by rewrite no_nl_app, Ne).
  rewrite <- (app_assoc_s "id: "), split_nl_app by (by rewrite no_nl_app, Ni).
  rewrite <- (app_assoc_s "data: "), split_nl_app by (by rewrite no_nl_app, Nd).
  reflexivity.
Qed.

(** *** One patch event *)

Lemma patch_data_Dump r p : patch_data r p = Dump (JObject [("rev", JInt r); ("patch", p)]).
Proof. unfold patch_data. cbn. by rewrite !app_assoc_s. Qed.

Lemma consume_patch c s r p :
  0 < r -> int64_ok r -> plain p = true -> (depth p <= 63)%nat ->
  consume c {| seq := s; ev_rev := r; frame := SseFrame "patch" (to_string r) (patch_data r p) |} = MergePatchApply c p.
Proof.
  intros Hr Hi Hp Hd. unfold consume, is_patch. cbn [ev_rev frame]. destruct (Z.eqb_spec r 0); [lia|]. cbn [negb].
  assert (plain (JObject [("rev", JInt r); ("patch", p)]) = true) as Hpo.
  { apply plain_object. split; [apply (bool_decide_unpack _); vm_compute; exact I|].
    repeat (apply Forall_cons_2; [cbn; first [done | by apply bool_decide_eq_true]|]). by apply Forall_nil_2. }
  destruct (to_string_no_nl r) as [H1 H2].
  rewrite sse_data_frame; [|done..|rewrite patch_data_Dump; by apply Dump_no_nl]. cbn [fmap option_fmap option_map].
  rewrite patch_data_Dump.
  assert (Parse (Dump (JObject [("rev", JInt r); ("patch", p)])) = Parsed (JObject [("rev", JInt r); ("patch", p)])) as ->; [|done].
  unfold Parse. rewrite <- (app_nil_s (Dump _)) at 1.
  rewrite (Value_Dump _ 64 EmptyString Hpo); [done| |done]. cbn. lia.
Qed.

(** *** The whole stream *)

(** What the match plugin submits: a state without doubles, without null members, nested at most 63
    deep. *)
Definition streamable (i : StatusInputs) : Prop :=
  plain (state i) = true /\ null_free (state i) = true /\ (depth (state i) <= 63)%nat.

Lemma streamable_sendable i : streamable i -> uniq (state i) = true /\ sendable (state i) = true.
Proof. intros (Hp & Hn & _). unfold sendable. destruct (plain_uniq _ Hp) as [-> ->]. done. Qed.

Record live_inv (h : Hub) : Prop := {
  live_pending : forall i, pending h = Some i -> streamable i;
  live_cur : forall c, cur h = Some c -> streamable c /\ stateJ h = Dump (state c);
  live_rev : 0 <= rev h;
}.

Lemma after_state_fields h c i :
  pending (after_state h c i) = pending h /\ cur (after_state h c i) = cur h /\
  rev h <= rev (after_state h c i).
Proof.
  unfold after_state. destruct (state_event h c i) as [e|] eqn:E; [|repeat split; lia].
  destruct (push_event_fields (set_rev h (ev_rev e)) e) as (_ & -> & -> & _ & _ & ->). repeat split.
  unfold state_event in E. case_if; [done|]. destruct (MergeDiff _ _); simplify_eq; cbn. lia.
Qed.
Lemma after_status_fields h c i :
  pending (after_status h c i) = pending h /\ cur (after_status h c i) = cur h /\ rev (after_status h c i) = rev h.
Proof.
  unfold after_status. destruct (status_event h c i) as [e|]; [|done].
  by destruct (push_event_fields h e) as (_ & -> & -> & _ & _ & ->).
Qed.

Lemma live_inv_Process h : live_inv h -> live_inv (Process h).1.
Proof.
  intros [Hp Hc Hr]. rewrite Process_eq. destruct (pending h) as [i|] eqn:Ei; [|split; auto; by rewrite Ei].
  specialize (Hp i eq_refl). destruct (cur h) as [c|]; split; cbn; try (by intros ? [= <-]); try lia.
  - destruct (after_status_fields (after_state (set_pending h None (submissions h)) c i) c i) as (-> & _ & _).
    by destruct (after_state_fields (set_pending h None (submissions h)) c i) as (-> & _ & _).
  - destruct (after_status_fields (after_state (set_pending h None (submissions h)) c i) c i) as (_ & _ & ->).
    destruct (after_state_fields (set_pending h None (submissions h)) c i) as (_ & _ & Hle). cbn in Hle. lia.
Qed.

Lemma live_inv_run h0 log0 h log : live_inv h0 -> run streamable h0 log0 h log -> live_inv h.
Proof.
  intros H0. induction 1 as [|h log i H IH Hi|h log H IH]; [done| |by apply live_inv_Process].
  destruct IH. split; auto.
Qed.

Lemma live_inv_new ring : live_inv (NewHub ring).
Proof. by split. Qed.

(** The consumer holds the state of the current input, up to the order of object members. *)
Definition in_sync (v : Json) (h : Hub) : Prop :=
  exists c, cur h = Some c /\ uniq v = true /\ json_eqb v (state c) = true.

Lemma Dump_inj a b : plain a = true -> plain b = true -> (depth a <= 63)%nat -> (depth b <= 63)%nat -> Dump a = Dump b -> a = b.
Proof.
  intros Ha Hb Da Db E.
  pose proof (Value_Dump a 63 EmptyString Ha Da I) as H1. pose proof (Value_Dump b 63 EmptyString Hb Db I) as H2.
  rewrite E in H1. congruence.
Qed.

(** The consumer follows the state half of [Process]. *)
Lemma consume_state h c i v :
  streamable c -> streamable i -> stateJ h = Dump (state c) -> 0 <= rev h -> rev h + 1 <= 9223372036854775807 ->
  uniq v = true -> json_eqb v (state c) = true ->
  let v' := foldl consume v (opt_list (state_event h c i)) in uniq v' = true /\ json_eqb v' (state i) = true.
Proof.
  intros Hc Hi Hj Hr Hb Hu Hv. unfold state_event. rewrite Hj.
  destruct Hc as (Pc & Nc & Dc), Hi as (Pi & Ni & Di). cbn zeta.
  destruct (plain_uniq _ Pc) as [Uc _], (plain_uniq _ Pi) as [Ui Fi].
  assert (sendable (state i) = true) as Si by (unfold sendable; by rewrite Ui, Fi, Ni).
  destruct (String.eqb_spec (Dump (state i)) (Dump (state c))) as [E|_].
  { apply Dump_inj in E; [|done..]. by rewrite E. }
  pose proof (MergeDiff_plain (state c) (state i)) as Hplain. pose proof (MergeDiff_depth (state i) (state c)) as Hdep.
  pose proof (patch_ok_all (state i) (state c) Uc Si) as Hok. unfold patch_ok in Hok.
  destruct (MergeDiff (state c) (state i)) as [p|] eqn:Em; cbn [opt_list foldl].
  - specialize (Hplain p Pi eq_refl). specialize (Hdep p Pi eq_refl). destruct (plain_uniq _ Hplain) as [Up Fp].
    rewrite consume_patch; [|lia|unfold int64_ok; lia|done|lia].
    split; [by apply uniq_MergePatchApply|].
    apply (json_eqb_trans _ (MergePatchApply (state c) p)); [by apply uniq_MergePatchApply|by apply uniq_MergePatchApply|done| |done].
    by apply MergePatchApply_proper.
  - split; [done|]. by apply (json_eqb_trans v (state c) (state i)).
Qed.

Lemma consume_status h c i v : foldl consume v (opt_list (status_event h c i)) = v.
Proof. unfold status_event. case_if; done. Qed.

Lemma in_sync_Process h v :
  live_inv h -> in_sync v h -> rev (Process h).1 <= 9223372036854775807 ->
  in_sync (foldl consume v (emitted h)) (Process h).1.
Proof.
  intros Hl (c & Ec & Hu & Hv) Hb. unfold emitted. rewrite Process_eq in *. rewrite Ec in *.
  destruct (pending h) as [i|] eqn:Ei; [|by exists c]. exists i. cbn. split; [done|].
  rewrite foldl_app, consume_status. destruct Hl as [Hp Hc Hr]. destruct (Hc c Ec) as [Sc Hj].
  set (h0 := set_pending h None (submissions h)) in *.
  destruct (state_event h0 c i) as [e|] eqn:Es.
  - rewrite <- Es. apply consume_state; try done; [by apply (Hp _ Ei)|].
    cbn in Hb. destruct (after_status_fields (after_state h0 c i) c i) as (_ & _ & E). rewrite E in Hb.
    unfold after_state in Hb. rewrite Es in Hb. destruct (push_event_fields (set_rev h0 (ev_rev e)) e) as (_ & E' & _).
    rewrite E' in Hb. cbn in Hb. unfold state_event in Es. case_if; [done|]. destruct (MergeDiff _ _); simplify_eq. exact Hb.
  - cbn. destruct (consume_state (set_rev h0 0) c i v Sc (Hp _ Ei) Hj) as [H1 H2]; cbn; try lia; try done.
    unfold state_event in *. cbn in *. case_if; [done|]. destruct (MergeDiff _ _); done.
Qed.

(** [Process] never moves the revision back once an input is current. *)
Lemma Process_rev h c : cur h = Some c -> rev h <= rev (Process h).1 /\ is_Some (cur (Process h).1).
Proof.
  intros Ec. rewrite Process_eq, Ec. destruct (pending h) as [i|]; [|rewrite Ec; split; [lia|by eexists]]. cbn.
  split; [|by eexists].
  destruct (after_status_fields (after_state (set_pending h None (submissions h)) c i) c i) as (_ & _ & ->).
  by destruct (after_state_fields (set_pending h None (submissions h)) c i) as (_ & _ & Hle).
Qed.

Lemma in_sync_run h1 log1 h2 log2 v :
  live_inv h1 -> in_sync v h1 -> run streamable h1 log1 h2 log2 ->
  (rev h2 <= 9223372036854775807 -> exists suffix, log2 = log1 ++ suffix /\ in_sync (foldl consume v suffix) h2) /\
  is_Some (cur h2).
Proof.
  intros Hl Hv Hr. induction Hr as [|h log i Hr [IH Hs] Hi|h log Hr [IH Hs]].
  - split; [|destruct Hv as (c & -> & _); by eexists]. intros _. exists []. by rewrite app_nil_r.
  - split; [|done]. intros Hb. destruct (IH Hb) as (suf & -> & Hsync). by exists suf.
  - destruct Hs as [c Hc]. destruct (Process_rev h c Hc) as [Hle Hs]. split; [|done].
    intros Hb. destruct (IH ltac:(lia)) as (suf & -> & Hsync).
    exists (suf ++ emitted h). rewrite app_assoc, foldl_app. split; [done|].
    apply in_sync_Process; [by eapply live_inv_run|done|done].
Qed.

(** Claim C14.  A stream consumer never drifts: a client that takes the current state as its
    snapshot and then, for every frame the hub appends from there on, reads the data lines, parses
    them and applies the patch, holds the hub's current state after any further interleaving of
    submissions and [Process] calls (equality as [operator==], states without doubles and null
    members, revisions within [long long]). *)
Theorem stream_replay (ring : Z) (h1 h2 : Hub) (log1 log2 : list StreamEvent) (c1 : StatusInputs) :
  reach streamable ring h1 log1 -> cur h1 = Some c1 -> run streamable h1 log1 h2 log2 ->
  rev h2 <= 9223372036854775807 ->
  exists c2 suffix, cur h2 = Some c2 /\ log2 = log1 ++ suffix /\
    json_eqb (foldl consume (state c1) suffix) (state c2) = true.
Proof.
  intros H1 Ec H2 Hb. pose proof (live_inv_run _ _ _ _ (live_inv_new ring) H1) as Hl.
  assert (in_sync (state c1) h1) as Hs.
  { exists c1. destruct (live_cur _ Hl c1 Ec) as [(Hp & _ & _) _]. destruct (plain_uniq _ Hp).
    repeat split; [done..|]. by apply json_eqb_refl. }
  destruct (in_sync_run _ _ _ _ _ Hl Hs H2) as [Hrun _]. destruct (Hrun Hb) as (suf & -> & c2 & Ec2 & _ & He).
  by exists c2, suf.
Qed.

Lemma stream_replay_witness :
  exists c2 suffix, cur hub_two = Some c2 /\
    ([] ++ emitted (Submit (NewHub 4) (Some (input_with 0)))) ++ emitted (Submit hub_one (Some (input_with 1))) =
    ([] ++ emitted (Submit (NewHub 4) (Some (input_with 0)))) ++ suffix /\
    json_eqb (foldl consume (state (input_with 0)) suffix) (state c2) = true.
Proof.
  assert (forall n, int64_ok n -> streamable (input_with n)) as Hok.
  { intros n Hn. unfold streamable. split; [|split; [reflexivity|cbn; lia]].
    apply plain_object. split; [apply (bool_decide_unpack _); vm_compute; exact I|].
    repeat (apply Forall_cons_2 || apply Forall_nil_2); [done|]. apply plain_object.
    split; [apply (bool_decide_unpack _); vm_compute; exact I|].
    repeat (apply Forall_cons_2 || apply Forall_nil_2). cbn. by apply bool_decide_eq_true. }
  apply (stream_replay 4 hub_one hub_two _ _ (input_with 0)).
  - unfold hub_one. apply run_process, run_submit; [apply run_here|]. intros x [= <-]. apply Hok. done.
  - vm_compute. reflexivity.
  - unfold hub_two. apply run_process, run_submit; [apply run_here|]. intros x [= <-]. apply Hok. done.
  - vm_compute. discriminate.
Defined.
