(* ===== verification/StatusHttp.v ===== *)
(** * HTTP requests of the status endpoint

    [src/core/src/readyup/status_http.h] and [.cpp]: the request-head parser, the response builder, the access token
    and the per-address token bucket of the local status endpoint.  The socket loop that uses them is in
    [StatusServer].  Sizes are exact integers (a buffer never reaches 2^64 bytes). *)

From S2P Require Import Prelude CStr Double StatusHub.

(** ** Requests *)

Record HttpRequest := {
  method : string;
  target : string;
  path : string;
  query : string;
  version : string;
  headers : list (string * string);
  headerBytes : Z;
}.

Inductive ParseStatus := Incomplete | Ok | Bad | TooLarge.
#[export] Instance ParseStatus_eq_dec : EqDecision ParseStatus.
Proof. solve_decision. Defined.

Definition is_ows (c : ascii) : bool := Ascii.eqb c " "%char || Ascii.eqb c tab.
Definition is_ows_end (c : ascii) : bool := is_ows c || Ascii.eqb c creturn.

(** [TrimOws]. *)
Definition TrimOws (s : string) : string := drop_while_end is_ows_end (drop_while is_ows s).

(** [IsTchar]. *)
Definition IsTchar (c : ascii) : bool := isalnum c || contains (str1 c) "!#$%&'*+-.^_`|~".

Definition HexVal (c : ascii) : Z :=
  if isdigit c then code c - 48
  else if (97 <=? code c) && (code c <=? 102) then code c - 97 + 10
  else if (65 <=? code c) && (code c <=? 70) then code c - 65 + 10
  else -1.

(** [HttpRequest::Header] and [HasHeader]: the first header with the name. *)
Definition find_header (hs : list (string * string)) (lowerName : string) : option string :=
  snd <$> head (filter (fun h => h.1 = lowerName) hs).
Definition Header (r : HttpRequest) (lowerName : string) : string := default EmptyString (find_header (headers r) lowerName).
Definition HasHeader (r : HttpRequest) (lowerName : string) : bool :=
  match find_header (headers r) lowerName with Some _ => true | None => false end.

(** [PercentDecode]: an escape is decoded when both digits are there and are hexadecimal. *)
Fixpoint PercentDecode (s : string) (plusIsSpace : bool) : string :=
  match s with
  | EmptyString => EmptyString
  | String c r =>
      let plain := String (if plusIsSpace && Ascii.eqb c "+"%char then " "%char else c) (PercentDecode r plusIsSpace) in
      match r with
      | String h (String l r') =>
          if Ascii.eqb c "%"%char && (0 <=? HexVal h) && (0 <=? HexVal l)
          then String (chr (HexVal h * 16 + HexVal l)) (PercentDecode r' plusIsSpace)
          else plain
      | _ => plain
      end
  end.

(** The text cut at every [c]; the last part may be empty. *)
Fixpoint split_char (c : ascii) (s : string) : list string :=
  match s with
  | EmptyString => [EmptyString]
  | String d r =>
      if Ascii.eqb d c then EmptyString :: split_char c r
      else match split_char c r with [] => [str1 d] | l :: ls => String d l :: ls end
  end.

(** The name of one [name=value] part of a query string, and its value. *)
Definition part_key (part : string) : string :=
  PercentDecode (match find "=" part with Some eq => stake eq part | None => part end) true.
Definition part_value (part : string) : string :=
  match find "=" part with Some eq => PercentDecode (sdrop (S eq) part) true | None => EmptyString end.

(** [HttpRequest::QueryParam]: the value of the first part with the name, if there is one. *)
Definition QueryParam (r : HttpRequest) (name : string) : option string :=
  part_value <$> head (filter (fun part => part_key part = name) (split_char "&" (query r))).

(** ** The head parser *)

Definition crlf2 : string := String creturn (String newline (String creturn (str1 newline))).
Definition lf2 : string := String newline (str1 newline).

(** The offset of the end of the head and the length of the separator: CRLFCRLF or LFLF, whichever comes first. *)
Definition head_end (buf : string) : option (nat * nat) :=
  match find crlf2 buf, find lf2 buf with
  | Some crlf, None => Some (crlf, 4%nat)
  | Some crlf, Some lflf => if (crlf <? lflf)%nat then Some (crlf, 4%nat) else Some (lflf, 2%nat)
  | None, Some lflf => Some (lflf, 2%nat)
  | None, None => None
  end.

(** The request line: exactly two spaces, none of the three parts before them empty. *)
Definition request_line (rl : string) : option (string * string * string) :=
  match find " " rl with
  | None | Some O => None
  | Some sp1 =>
      let rest := sdrop (S sp1) rl in
      match find " " rest with
      | None | Some O => None
      | Some sp2 =>
          let v := sdrop (S sp2) rest in
          if contains " " v then None else Some (stake sp1 rl, stake sp2 rest, v)
      end
  end.

Definition target_char (c : ascii) : bool := negb ((code c <=? 32) || (code c =? 127)).

(** The path of an absolute-form target. *)
Definition origin_form (target : string) : string :=
  if starts_with "http://" target || starts_with "https://" target then
    let rest := match find "//" target with Some p => sdrop (p + 2) target | None => EmptyString end in
    match find "/" rest with None => "/" | Some slash => sdrop slash rest end
  else target.

(** [target.substr(0, min(q, hash))]. *)
Definition raw_path (t : string) : string :=
  match find "?" t, find "#" t with
  | None, None => t
  | Some q, None => stake q t
  | None, Some h => stake h t
  | Some q, Some h => stake (Nat.min q h) t
  end.

(** The query: the count [hash - q - 1] wraps below zero when the fragment comes first. *)
Definition raw_query (t : string) : string :=
  match find "?" t with
  | None => EmptyString
  | Some q =>
      let rest := sdrop (S q) t in
      match find "#" t with
      | None => rest
      | Some h => if (h <? q)%nat then rest else stake (h - q - 1) rest
      end
  end.

Definition is_slash (c : ascii) : bool := Ascii.eqb c "/"%char.

(** [while (path.size() > 1 && path.back() == '/') path.pop_back()]. *)
Definition strip_slashes (p : string) : string :=
  match p with EmptyString => EmptyString | String c r => String c (drop_while_end is_slash r) end.

(** The header lines: the headers read, or the status the parser stops with. *)
Fixpoint parse_headers (lines : list string) (acc : list (string * string)) : ParseStatus + list (string * string) :=
  match lines with
  | [] => inr acc
  | EmptyString :: ls => parse_headers ls acc
  | (String c0 _ as l) :: ls =>
      if is_ows c0 then inl Bad
      else
        match find ":" l with
        | None | Some O => inl Bad
        | Some colon =>
            let name := stake colon l in
            if negb (sforall IsTchar name) then inl Bad
            else if 100 <=? zlen acc then inl TooLarge
            else parse_headers ls (acc ++ [(lower name, TrimOws (sdrop (S colon) l))])
        end
  end.

(** The checks after the headers: no body, and a host for HTTP/1.1. *)
Definition body_ok (r : HttpRequest) : bool :=
  negb (HasHeader r "transfer-encoding") &&
  (negb (HasHeader r "content-length") ||
   let cl := Header r "content-length" in
   negb (sempty cl) && sforall isdigit cl && (strtoull cl =? 0)) &&
  (negb (version r =s "HTTP/1.1") || HasHeader r "host").

Definition skip_empty (lines : list string) : list string :=
  (fix go ls := match ls with EmptyString :: r => go r | _ => ls end) lines.

(** The part of [ParseRequest] after the end of the head was found. *)
Definition parse_head (head : string) (bytes : Z) : ParseStatus * option HttpRequest :=
  match skip_empty (map pop_cr (split_nl head)) with
  | [] => (Bad, None)
  | rl :: ls =>
      match request_line rl with
      | None => (Bad, None)
      | Some (m, tgt, v) =>
          if negb (sforall IsTchar m) then (Bad, None)
          else if negb ((v =s "HTTP/1.1") || (v =s "HTTP/1.0")) then (Bad, None)
          else if negb (sforall target_char tgt) then (Bad, None)
          else
            let t := origin_form tgt in
            if negb (starts_with "/" t || (t =s "*")) then (Bad, None)
            else
              match parse_headers ls [] with
              | inl st => (st, None)
              | inr hs =>
                  let r := {| method := m; target := tgt; path := strip_slashes (PercentDecode (raw_path t) false);
                              query := raw_query t; version := v; headers := hs; headerBytes := bytes |} in
                  if body_ok r then (Ok, Some r) else (Bad, None)
              end
      end
  end.

(** [ParseRequest]: the status, and the request that an [Ok] stores. *)
Definition ParseRequest (buf : string) (maxBytes : Z) : ParseStatus * option HttpRequest :=
  match head_end buf with
  | None => (if maxBytes <=? slen buf then TooLarge else Incomplete, None)
  | Some (e, sepLen) =>
      let bytes := Z.of_nat (e + sepLen) in
      if maxBytes <? bytes then (TooLarge, None) else parse_head (stake e buf) bytes
  end.

(** ** Responses *)

Definition HttpStatusText (code : Z) : string :=
  if code =? 200 then "OK" else if code =? 202 then "Accepted" else if code =? 204 then "No Content"
  else if code =? 400 then "Bad Request" else if code =? 401 then "Unauthorized" else if code =? 403 then "Forbidden"
  else if code =? 404 then "Not Found" else if code =? 405 then "Method Not Allowed"
  else if code =? 408 then "Request Timeout" else if code =? 429 then "Too Many Requests"
  else if code =? 431 then "Request Header Fields Too Large" else if code =? 500 then "Internal Server Error"
  else if code =? 503 then "Service Unavailable" else "Unknown".

Definition crlf : string := String creturn (str1 newline).

Definition header_line (h : string * string) : string := h.1 +s+ ": " +s+ h.2 +s+ crlf.

Definition BuildResponse (code : Z) (contentType body : string) (headOnly : bool) (extraHeaders : list (string * string)) : string :=
  "HTTP/1.1 " +s+ to_string code +s+ " " +s+ HttpStatusText code +s+ crlf +s+
  (if sempty contentType then EmptyString else "Content-Type: " +s+ contentType +s+ crlf) +s+
  "Content-Length: " +s+ to_string (slen body) +s+ crlf +s+
  "Cache-Control: no-store" +s+ crlf +s+ "X-Content-Type-Options: nosniff" +s+ crlf +s+ "Connection: close" +s+ crlf +s+
  concat_s (map header_line extraHeaders) +s+ crlf +s+
  (if headOnly then EmptyString else body).

Definition BuildSseHead : string :=
  "HTTP/1.1 200 OK" +s+ crlf +s+ "Content-Type: text/event-stream; charset=utf-8" +s+ crlf +s+
  "Cache-Control: no-store" +s+ crlf +s+ "X-Accel-Buffering: no" +s+ crlf +s+
  "X-Content-Type-Options: nosniff" +s+ crlf +s+ "Connection: close" +s+ crlf +s+ crlf.

(** ** The access token *)

Definition ExtractToken (req : HttpRequest) : string :=
  let auth := Header req "authorization" in
  if (7 <? slen auth) && (lower (stake 7 auth) =s "bearer ") then TrimOws (sdrop 7 auth)
  else
    let x := Header req "x-readyup-token" in
    if sempty x then default EmptyString (QueryParam req "token") else x.

(** [i < a.size() ? a[i] : 0]. *)
Definition byte_or_0 (a : string) (i : nat) : Z := match String.get i a with Some c => code c | None => 0 end.

(** [TokenEquals]: the accumulated difference of all the bytes, without an early exit. *)
Definition token_diff (a b : string) : Z :=
  foldl (fun diff i => Z.lor diff (Z.lxor (byte_or_0 a i) (byte_or_0 b i)))
    (if slen a =? slen b then 0 else 1) (List.seq 0 (Nat.max (String.length a) (String.length b))).
Definition TokenEquals (a b : string) : bool := (token_diff a b =? 0) && negb (sempty a).

(** ** The game port *)

(** The arguments of a NUL-separated command line; nothing follows the last NUL. *)
Definition cmdline_args (s : string) : list string :=
  let parts := split_char nul s in
  match last parts with Some EmptyString => removelast parts | _ => parts end.

Fixpoint last_port (args : list string) (port : Z) : Z :=
  match args with
  | a :: ((b :: _) as rest) =>
      let v := match scan_int b with Some (v, _) => v | None => 0 end in
      last_port rest
        (if ((a =s "-port") || (a =s "+hostport")) && ((0 <? v) && (v <? 65536)) then v else port)
  | _ => port
  end.

Definition GamePortFromCmdline (nulSeparated : string) : Z :=
  let port := last_port (cmdline_args nulSeparated) 0 in
  if port =? 0 then 27015 else port.

(** ** The rate limiter *)

Record Bucket := { tokens : double; last_refill : double }.

Record RateLimiter := { rate_ : double; burst_ : double; maxKeys_ : Z; buckets_ : gmap string Bucket }.

Definition d0 : double := S754_zero false.
Definition d1 : double := of_int 1.

Definition NewLimiter (rate burst : double) (maxKeys : Z) : RateLimiter := {|
  rate_ := if d0 <d rate then rate else d1; burst_ := if d1 <=d burst then burst else d1;
  maxKeys_ := if maxKeys =? 0 then 1 else maxKeys; buckets_ := ∅ |}.

(** [Prune]: forget the addresses idle long enough to be full again. *)
Definition keep_bucket (fullAfter nowSec : double) (kv : string * Bucket) : Prop :=
  (fullAfter <=d dsub nowSec (last_refill kv.2)) = false.
#[export] Instance keep_bucket_dec f n kv : Decision (keep_bucket f n kv).
Proof. unfold keep_bucket. apply _. Defined.

Definition set_buckets (l : RateLimiter) (m : gmap string Bucket) : RateLimiter := {|
  rate_ := rate_ l; burst_ := burst_ l; maxKeys_ := maxKeys_ l; buckets_ := m |}.

Definition Prune (l : RateLimiter) (nowSec : double) : RateLimiter :=
  set_buckets l (filter (keep_bucket (ddiv (burst_ l) (rate_ l)) nowSec) (buckets_ l)).

(** [std::min] of two doubles. *)
Definition dmin (a b : double) : double := if b <d a then b else a.

(** The bucket after the refill of [Allow], and after one token was taken from it. *)
Definition refill (l : RateLimiter) (nowSec : double) (b : Bucket) : Bucket :=
  if last_refill b <d nowSec
  then {| tokens := dmin (burst_ l) (dadd (tokens b) (dmul (dsub nowSec (last_refill b)) (rate_ l))); last_refill := nowSec |}
  else b.

Definition take_token (l : RateLimiter) (key : string) (nowSec : double) (b : Bucket) : RateLimiter * bool :=
  let b := refill l nowSec b in
  if tokens b <d d1 then (set_buckets l (<[key := b]> (buckets_ l)), false)
  else (set_buckets l (<[key := {| tokens := dsub (tokens b) d1; last_refill := last_refill b |}]> (buckets_ l)), true).

(** [RateLimiter::Allow]. *)
Definition Allow (l : RateLimiter) (key : string) (nowSec : double) : RateLimiter * bool :=
  match buckets_ l !! key with
  | Some b => take_token l key nowSec b
  | None =>
      let l := if maxKeys_ l <=? Z.of_nat (size (buckets_ l)) then Prune l nowSec else l in
      if maxKeys_ l <=? Z.of_nat (size (buckets_ l)) then (l, false)
      else take_token l key nowSec {| tokens := burst_ l; last_refill := nowSec |}
  end.

(** ** Parsing does not depend on how the bytes arrive *)

Lemma starts_with_app_r p s r : starts_with p s = true -> starts_with p (s +s+ r) = true.
Proof.
  revert s. induction p as [|c p IH]; intros [|d s] H; try done. cbn in H |- *.
  apply andb_prop in H as [-> H]. by rewrite IH.
Qed.

Lemma starts_with_long p s r : (String.length p <= String.length s)%nat -> starts_with p (s +s+ r) = starts_with p s.
Proof.
  revert s. induction p as [|c p IH]; intros s H; [done|]. destruct s as [|d s]; [cbn in H; lia|].
  cbn in *. rewrite IH by lia. done.
Qed.

Lemma find_unfold p s :
  find p s = if starts_with p s then Some O else match s with EmptyString => None | String _ r => S <$> find p r end.
Proof. by destruct s. Qed.

Lemma find_bound p s i : find p s = Some i -> (i + String.length p <= String.length s)%nat.
Proof.
  revert i. induction s as [|c s IH]; intros i; rewrite find_unfold; destruct (starts_with p _) eqn:E.
  - intros [= <-]. destruct (starts_with_app _ _ E) as [r Hr]. rewrite Hr, length_app_s. lia.
  - done.
  - intros [= <-]. destruct (starts_with_app _ _ E) as [r Hr]. rewrite Hr, length_app_s. lia.
  - destruct (find p s) as [j|] eqn:F; intros [= <-]. specialize (IH _ eq_refl). cbn. lia.
Qed.

Lemma find_app_some p s r i : find p s = Some i -> find p (s +s+ r) = Some i.
Proof.
  revert i. induction s as [|c s IH]; intros i; rewrite find_unfold; destruct (starts_with p _) eqn:E; try done.
  - intros [= <-]. by rewrite find_unfold, starts_with_app_r.
  - intros [= <-]. by rewrite find_unfold, starts_with_app_r.
  - destruct (find p s) as [j|] eqn:F; intros [= <-]. specialize (IH _ eq_refl). rewrite app_cons_s, find_unfold, <- app_cons_s.
    rewrite starts_with_long, E, IH; [done|]. apply find_bound in F. cbn. lia.
Qed.

(** An occurrence in a longer text that is not in the text itself reaches into the new part. *)
Lemma find_app_new p s r i : find p s = None -> find p (s +s+ r) = Some i -> (String.length s < i + String.length p)%nat.
Proof.
  revert i. induction s as [|c s IH]; intros i; rewrite find_unfold; destruct (starts_with p _) eqn:E; try done.
  - intros _ _. destruct p; [done|cbn; lia].
  - destruct (find p s) eqn:F; [done|]. intros _. rewrite app_cons_s, find_unfold, <- app_cons_s.
    destruct (starts_with p (String c s +s+ r)) eqn:E'.
    + intros [= <-]. destruct (decide (String.length p <= String.length (String c s)))%nat; [|lia].
      rewrite starts_with_long in E' by done. congruence.
    + destruct (find p (s +s+ r)) eqn:G; intros [= <-]. specialize (IH _ eq_refl eq_refl). cbn. lia.
Qed.

Lemma find_starts p s i : find p s = Some i -> starts_with p (sdrop i s) = true.
Proof.
  revert i. induction s as [|c s IH]; intros i; rewrite find_unfold; destruct (starts_with p _) eqn:E; try done.
  - by intros [= <-].
  - by intros [= <-].
  - destruct (find p s) as [j|] eqn:F; intros [= <-]. by apply IH.
Qed.

Lemma get_sdrop i s k : String.get k (sdrop i s) = String.get (i + k) s.
Proof. revert s. induction i as [|i IH]; intros [|c s]; cbn; auto. Qed.

Lemma starts_with_get p s k c : starts_with p s = true -> String.get k p = Some c -> String.get k s = Some c.
Proof.
  revert s k. induction p as [|d p IH]; intros [|e s] [|k] H Hk; cbn in *; try done.
  - apply andb_prop in H as [->%Ascii.eqb_eq _]. done.
  - apply andb_prop in H as [_ H]. eauto.
Qed.

(** The byte at an offset inside an occurrence. *)
Lemma find_get p s i k c : find p s = Some i -> String.get k p = Some c -> String.get (i + k) s = Some c.
Proof. intros H Hk. apply find_starts in H. rewrite <- get_sdrop. eauto using starts_with_get. Qed.

Lemma head_end_app buf more e : head_end buf = Some e -> head_end (buf +s+ more) = Some e.
Proof.
  unfold head_end. intros H.
  destruct (find crlf2 buf) as [c|] eqn:C; destruct (find lf2 buf) as [l|] eqn:L; try done.
  - by rewrite (find_app_some _ _ more _ C), (find_app_some _ _ more _ L).
  - rewrite (find_app_some _ _ more _ C). destruct (find lf2 (buf +s+ more)) as [l|] eqn:L'; [|done].
    pose proof (find_app_new _ _ _ _ L L'). apply find_bound in C. change (String.length crlf2) with 4%nat in *.
    change (String.length lf2) with 2%nat in *. destruct (Nat.ltb_spec c l); [done|lia].
  - rewrite (find_app_some _ _ more _ L). destruct (find crlf2 (buf +s+ more)) as [c|] eqn:C'; [|done].
    pose proof (find_app_new _ _ _ _ C C') as Hn. pose proof (find_bound _ _ _ L) as Hl.
    change (String.length crlf2) with 4%nat in *. change (String.length lf2) with 2%nat in *.
    destruct (Nat.ltb_spec c l) as [Hlt|]; [|done].
    (* the CR in the middle of the separator would be the second LF *)
    pose proof (find_get _ _ _ 2 creturn C' eq_refl) as G1.
    pose proof (find_get _ _ _ 1 newline (find_app_some _ _ more _ L) eq_refl) as G2.
    replace (l + 1)%nat with (c + 2)%nat in G2 by lia. rewrite G1 in G2. discriminate G2.
Qed.

Lemma stake_app_le n a b : (n <= String.length a)%nat -> stake n (a +s+ b) = stake n a.
Proof. revert n. induction a as [|c a IH]; intros [|n] H; cbn in *; try done; [lia|]. rewrite IH; [done|lia]. Qed.

Lemma head_end_bound buf e n : head_end buf = Some (e, n) -> (e + n <= String.length buf)%nat.
Proof.
  unfold head_end. destruct (find crlf2 buf) as [c|] eqn:C; destruct (find lf2 buf) as [l|] eqn:L; try done.
  all: try (apply find_bound in C); try (apply find_bound in L).
  all: change (String.length crlf2) with 4%nat in *; change (String.length lf2) with 2%nat in *.
  1: destruct (c <? l)%nat. all: intros [= <- <-]; lia.
Qed.

Lemma head_end_new buf more e n : head_end buf = None -> head_end (buf +s+ more) = Some (e, n) -> (String.length buf < e + n)%nat.
Proof.
  unfold head_end. destruct (find crlf2 buf) eqn:C; destruct (find lf2 buf) eqn:L; try done.
  1: by destruct (_ <? _)%nat. intros _.
  destruct (find crlf2 (buf +s+ more)) as [c|] eqn:C'; destruct (find lf2 (buf +s+ more)) as [l|] eqn:L'; try done.
  all: try (pose proof (find_app_new _ _ _ _ C C')); try (pose proof (find_app_new _ _ _ _ L L')).
  all: change (String.length crlf2) with 4%nat in *; change (String.length lf2) with 2%nat in *.
  1: destruct (c <? l)%nat. all: intros [= <- <-]; lia.
Qed.

(** Bytes that arrive after a complete request (or after one the parser has already refused) never change what was parsed: reading the socket in other pieces gives the same request or the same error. *)
Theorem parse_stable buf more maxBytes :
  (ParseRequest buf maxBytes).1 <> Incomplete -> ParseRequest (buf +s+ more) maxBytes = ParseRequest buf maxBytes.
Proof.
  unfold ParseRequest. destruct (head_end buf) as [[e n]|] eqn:E.
  - intros _. rewrite (head_end_app _ more _ E). apply head_end_bound in E. by rewrite stake_app_le by lia.
  - destruct (Z.leb_spec maxBytes (slen buf)) as [Hm|Hm]; [|done]. intros _.
    destruct (head_end (buf +s+ more)) as [[e n]|] eqn:E'.
    + apply head_end_new in E'; [|done]. unfold slen in Hm. destruct (Z.ltb_spec maxBytes (Z.of_nat (e + n))); [done|lia].
    + unfold slen in *. rewrite length_app_s. destruct (Z.leb_spec maxBytes (Z.of_nat (String.length buf + String.length more))); [done|lia].
Qed.

(** ** The token check *)

Lemma lor_fold_0 (f : nat -> Z) l d : foldl (fun d i => Z.lor d (f i)) d l = 0 <-> d = 0 /\ Forall (fun i => f i = 0) l.
Proof.
  revert d. induction l as [|i l IH]; intros d; cbn; [rewrite Forall_nil; tauto|].
  rewrite IH, Forall_cons, Z.lor_eq_0_iff. tauto.
Qed.

Lemma bytes_ext a b : String.length a = String.length b ->
  (forall i, (i < String.length a)%nat -> byte_or_0 a i = byte_or_0 b i) -> a = b.
Proof.
  revert b. induction a as [|c a IH]; intros [|d b] Hl H; try done. cbn in Hl. f_equal.
  - apply code_inj, (H O). cbn. lia.
  - apply IH; [lia|]. intros i Hi. apply (H (S i)). cbn. lia.
Qed.

(** The constant-time comparison accepts exactly the configured token, and never an empty one: a server without a token authorizes nobody by it. *)
Theorem TokenEquals_spec a b : TokenEquals a b = true <-> a = b /\ a <> EmptyString.
Proof.
  unfold TokenEquals, token_diff. rewrite andb_true_iff, Z.eqb_eq, lor_fold_0, Forall_forall. split.
  - intros [[Hl Hb] He]. split; [|by destruct a].
    assert (String.length a = String.length b) as Hab by (destruct (Z.eqb_spec (slen a) (slen b)); unfold slen in *; [lia|done]).
    apply bytes_ext; [done|]. intros i Hi. apply Z.lxor_eq_0_iff, Hb, elem_of_seq. lia.
  - intros [<- He]. rewrite Z.eqb_refl. repeat split; [|by destruct a]. intros i _. apply Z.lxor_nilpotent.
Qed.

(** ** The rate limiter's table *)

Lemma Prune_size l now : (size (buckets_ (Prune l now)) <= size (buckets_ l))%nat.
Proof. cbn. apply map_size_filter. Qed.

Lemma take_token_size l key now b n :
  Z.of_nat (size (buckets_ l)) <= n -> key ∈ dom (buckets_ l) \/ Z.of_nat (size (buckets_ l)) < n ->
  Z.of_nat (size (buckets_ (take_token l key now b).1)) <= n.
Proof.
  intros Hn Hk. unfold take_token. set (b' := refill l now b).
  assert (forall v, Z.of_nat (size (<[key := v]> (buckets_ l))) <= n) as Hi; [|by destruct (tokens b' <d d1); apply Hi].
  intros v. rewrite map_size_insert. destruct (buckets_ l !! key) eqn:E; [done|].
  destruct Hk as [Hk|Hk]; [|lia]. apply elem_of_dom in Hk as [? Hk]. congruence.
Qed.

Lemma Allow_maxKeys l key now : maxKeys_ (Allow l key now).1 = maxKeys_ l.
Proof.
  unfold Allow, take_token. destruct (buckets_ l !! key); [by case_if|].
  destruct (maxKeys_ l <=? _); cbn [maxKeys_ Prune set_buckets]; repeat case_if; done.
Qed.

Lemma Allow_size l key now :
  Z.of_nat (size (buckets_ l)) <= maxKeys_ l -> Z.of_nat (size (buckets_ (Allow l key now).1)) <= maxKeys_ l.
Proof.
  intros H. unfold Allow. destruct (buckets_ l !! key) as [b|] eqn:E.
  - apply take_token_size; [done|]. left. apply elem_of_dom. eauto.
  - set (l' := if maxKeys_ l <=? _ then _ else _).
    assert (maxKeys_ l' = maxKeys_ l) as Hm by (unfold l'; by case_if).
    assert (Z.of_nat (size (buckets_ l')) <= maxKeys_ l) as Hl by (unfold l'; case_if; [pose proof (Prune_size l now); lia|done]).
    rewrite Hm. destruct (Z.leb_spec (maxKeys_ l) (Z.of_nat (size (buckets_ l')))); cbn [fst]; [done|].
    apply take_token_size; [done|]. by right.
Qed.

(** Whatever keys the requests come from and whenever they come, the rate limiter holds at most [maxKeys] buckets (one when the limit is below one), so addresses cannot fill the memory. *)
Theorem limiter_bounded rate burst maxKeys (reqs : list (string * double)) :
  0 <= maxKeys ->
  Z.of_nat (size (buckets_ (foldl (fun l r => (Allow l r.1 r.2).1) (NewLimiter rate burst maxKeys) reqs))) <= Z.max 1 maxKeys.
Proof.
  intros Hk.
  assert (forall l, maxKeys_ l <= Z.max 1 maxKeys -> Z.of_nat (size (buckets_ l)) <= maxKeys_ l ->
    Z.of_nat (size (buckets_ (foldl (fun l r => (Allow l r.1 r.2).1) l reqs))) <= Z.max 1 maxKeys) as H.
  { induction reqs as [|[k t] reqs IH]; intros l Hm Hs; cbn; [lia|].
    apply IH; rewrite Allow_maxKeys; [done|]. by apply Allow_size. }
  apply H; cbn; [case_if; split_bools; lia|]. rewrite map_size_empty. case_if; split_bools; lia.
Qed.

Lemma limiter_bounded_witness :
  let l := foldl (fun l (r : string * double) => (Allow l r.1 r.2).1) (NewLimiter d1 d1 2) [("a", d0); ("b", d0); ("c", d0); ("a", d0)] in
  map_to_list (buckets_ l) ≡ₚ [("a", {| tokens := d0; last_refill := d0 |}); ("b", {| tokens := d0; last_refill := d0 |})] /\
  Z.of_nat (size (buckets_ l)) <= Z.max 1 2.
Proof. split; [vm_compute; reflexivity|]. apply (limiter_bounded d1 d1 2 [("a", d0); ("b", d0); ("c", d0); ("a", d0)]). lia. Defined.

Lemma parse_stable_witness :
  let buf := "GET /health HTTP/1.0" +s+ crlf2 in
  fst <$> [ParseRequest buf 8192; ParseRequest (buf +s+ "trailing") 8192] = [Ok; Ok] /\
  ParseRequest (buf +s+ "trailing") 8192 = ParseRequest buf 8192.
Proof. split; [vm_compute; reflexivity|]. apply parse_stable. vm_compute. discriminate. Defined.

(** ** A request a client writes is the request the server reads

    [render] is what a client sends for a request; the requests it covers have the shape RFC 9112 gives them. *)

Definition line_char (c : ascii) : bool := negb (Ascii.eqb creturn c) && negb (Ascii.eqb newline c).

Definition header_text (h : string * string) : string := h.1 +s+ ": " +s+ h.2.

Definition full_target (p q : string) : string := p +s+ (if sempty q then EmptyString else "?" +s+ q).

Definition start_line (r : HttpRequest) : string := method r +s+ " " +s+ target r +s+ " " +s+ version r.

Definition render (r : HttpRequest) : string :=
  start_line r +s+ concat_s (map (fun h => crlf +s+ header_text h) (headers r)) +s+ crlf2.

Definition path_char (c : ascii) : bool :=
  target_char c && negb (Ascii.eqb "?"%char c) && negb (Ascii.eqb "#"%char c) && negb (Ascii.eqb "%"%char c).
Definition query_char (c : ascii) : bool := target_char c && negb (Ascii.eqb "#"%char c).

Definition header_ok (h : string * string) : Prop :=
  sempty h.1 = false /\ sforall IsTchar h.1 = true /\ lower h.1 = h.1 /\ sforall line_char h.2 = true /\ TrimOws h.2 = h.2.

Record request_ok (r : HttpRequest) : Prop := {
  ok_method : sempty (method r) = false /\ sforall IsTchar (method r) = true;
  ok_version : version r = "HTTP/1.1" \/ version r = "HTTP/1.0";
  ok_path : starts_with "/" (path r) = true /\ sforall path_char (path r) = true /\ strip_slashes (path r) = path r;
  ok_query : sforall query_char (query r) = true;
  ok_target : target r = full_target (path r) (query r);
  ok_headers : Forall header_ok (headers r) /\ zlen (headers r) <= 100;
  ok_body : body_ok r = true;
  ok_bytes : headerBytes r = slen (render r);
}.

(** *** Lines *)

Lemma split_nl_request l rest : sforall line_char l = true -> split_nl (l +s+ crlf +s+ rest) = (l +s+ str1 creturn) :: split_nl rest.
Proof.
  induction l as [|c l IH]; intros H; [done|]. cbn in H. apply andb_prop in H as [Hc Hl].
  unfold line_char in Hc. apply andb_prop in Hc as [_ Hn]. apply negb_true_iff in Hn.
  rewrite app_cons_s. cbn [split_nl]. rewrite Ascii.eqb_sym, Hn, IH by done. done.
Qed.

Lemma split_nl_last l : sforall line_char l = true -> split_nl l = [l].
Proof.
  induction l as [|c l IH]; intros H; [done|]. cbn in H. apply andb_prop in H as [Hc Hl].
  unfold line_char in Hc. apply andb_prop in Hc as [_ Hn]. apply negb_true_iff in Hn.
  cbn [split_nl]. rewrite Ascii.eqb_sym, Hn, IH by done. done.
Qed.

Lemma pop_cr_request l : pop_cr (l +s+ str1 creturn) = l.
Proof. induction l as [|c l IH]; [done|]. cbn. rewrite IH. by destruct l. Qed.

Lemma pop_cr_id l : sforall line_char l = true -> pop_cr l = l.
Proof.
  induction l as [|c l IH]; intros H; [done|]. cbn in H. apply andb_prop in H as [Hc Hl].
  unfold line_char in Hc. apply andb_prop in Hc as [Hn _]. apply negb_true_iff in Hn.
  cbn [pop_cr]. rewrite Ascii.eqb_sym, Hn, IH by done. by destruct l.
Qed.

Definition lines_text (l : string) (ls : list string) : string := l +s+ concat_s (map (fun x => crlf +s+ x) ls).

Lemma lines_split l ls : Forall (fun x => sforall line_char x = true) (l :: ls) ->
  map pop_cr (split_nl (lines_text l ls)) = l :: ls.
Proof.
  unfold lines_text. revert l. induction ls as [|x ls IH]; intros l [Hl Hls]%Forall_cons; cbn [map concat_s foldr].
  - rewrite app_nil_s, split_nl_last by done. cbn. by rewrite pop_cr_id.
  - rewrite app_assoc_s, split_nl_request by done. cbn [map]. rewrite pop_cr_request. f_equal. by apply IH.
Qed.

Lemma line_no_cr l : sforall line_char l = true -> sforall (fun d => negb (Ascii.eqb creturn d)) l = true.
Proof. apply sforall_impl. unfold line_char. intros c H. by apply andb_prop in H as [? _]. Qed.
Lemma line_no_nl l : sforall line_char l = true -> sforall (fun d => negb (Ascii.eqb newline d)) l = true.
Proof. apply sforall_impl. unfold line_char. intros c H. by apply andb_prop in H as [_ ?]. Qed.

Lemma crlf2_past l s : sforall line_char l = true -> find crlf2 (l +s+ s) = (fun i => (String.length l + i)%nat) <$> find crlf2 s.
Proof. intros. by apply find_after, line_no_cr. Qed.
Lemma lf2_past l s : sforall line_char l = true -> find lf2 (l +s+ s) = (fun i => (String.length l + i)%nat) <$> find lf2 s.
Proof. intros. by apply find_after, line_no_nl. Qed.

Definition text_line (x : string) : Prop := sforall line_char x = true /\ sempty x = false.

(** After a line break, a non-empty line stands between it and the next one. *)
Lemma crlf2_past_break x rest : text_line x ->
  find crlf2 (crlf +s+ x +s+ rest) = (fun i => (2 + i)%nat) <$> find crlf2 (x +s+ rest).
Proof.
  intros [Hx Hn]. destruct x as [|c x]; [done|]. pose proof Hx as Hc. cbn in Hc. apply andb_prop in Hc as [Hc _].
  unfold line_char in Hc. apply andb_prop in Hc as [Hc _]. apply negb_true_iff in Hc. unfold crlf.
  change (String creturn (str1 newline) +s+ String c x +s+ rest) with (String creturn (String newline (String c (x +s+ rest)))).
  rewrite find_unfold. unfold crlf2. cbn [starts_with]. rewrite Hc, !Ascii.eqb_refl. cbn [andb].
  rewrite find_unfold. cbn [starts_with]. change (Ascii.eqb creturn newline) with false. cbn [andb].
  rewrite app_cons_s. by destruct (find _ (String c (x +s+ rest))).
Qed.

Lemma lf2_past_break x rest : text_line x ->
  find lf2 (crlf +s+ x +s+ rest) = (fun i => (2 + i)%nat) <$> find lf2 (x +s+ rest).
Proof.
  intros [Hx Hn]. destruct x as [|c x]; [done|]. pose proof Hx as Hc. cbn in Hc. apply andb_prop in Hc as [Hc _].
  unfold line_char in Hc. apply andb_prop in Hc as [_ Hc]. apply negb_true_iff in Hc. unfold crlf.
  change (String creturn (str1 newline) +s+ String c x +s+ rest) with (String creturn (String newline (String c (x +s+ rest)))).
  rewrite find_unfold. unfold lf2. cbn [starts_with str1]. change (Ascii.eqb newline creturn) with false. cbn [andb].
  rewrite find_unfold. cbn [starts_with str1]. rewrite Hc, !Ascii.eqb_refl. cbn [andb].
  rewrite app_cons_s. by destruct (find _ (String c (x +s+ rest))).
Qed.

Lemma lines_crlf2 l ls : text_line l -> Forall text_line ls ->
  find crlf2 (lines_text l ls +s+ crlf2) = Some (String.length (lines_text l ls)) /\ find lf2 (lines_text l ls +s+ crlf2) = None.
Proof.
  unfold lines_text. revert l. induction ls as [|x ls IH]; intros l Hl; cbn [map concat_s foldr].
  - intros _. rewrite !app_nil_s. destruct Hl as [Hl _]. rewrite crlf2_past, lf2_past by done.
    split; [|reflexivity]. cbn. f_equal. lia.
  - intros [Hx Hls]%Forall_cons. destruct (IH x Hx Hls) as [I1 I2]. destruct Hl as [Hl _].
    rewrite !app_assoc_s, crlf2_past, lf2_past by done. rewrite app_assoc_s in I1, I2.
    fold (concat_s (map (fun x => crlf +s+ x) ls)) in *.
    rewrite crlf2_past_break, lf2_past_break, I1, I2 by done. split; [|reflexivity]. cbn. f_equal.
    rewrite !length_app_s. cbn. rewrite length_app_s. lia.
Qed.

Lemma lines_head_end l ls : text_line l -> Forall text_line ls ->
  head_end (lines_text l ls +s+ crlf2) = Some (String.length (lines_text l ls), 4%nat).
Proof. intros Hl Hls. unfold head_end. by destruct (lines_crlf2 l ls Hl Hls) as [-> ->]. Qed.

(** *** The parts of the head *)

Definition not_c (c d : ascii) : bool := negb (Ascii.eqb c d).

Lemma class_avoids (f : ascii -> bool) c s : f c = false -> sforall f s = true -> sforall (not_c c) s = true.
Proof. intros Hc. apply sforall_impl. intros d Hd. unfold not_c. destruct (Ascii.eqb_spec c d) as [->|]; [by rewrite Hc in Hd|done]. Qed.

Lemma find_at c a b : sforall (not_c c) a = true -> find (str1 c) (a +s+ String c b) = Some (String.length a).
Proof.
  intros H. unfold str1. rewrite find_after by done. rewrite find_unfold. cbn [starts_with]. rewrite Ascii.eqb_refl. cbn. f_equal. lia.
Qed.

Lemma find_absent c a : sforall (not_c c) a = true -> find (str1 c) a = None.
Proof. intros H. unfold str1. rewrite <- (app_nil_s a), find_after by done. reflexivity. Qed.

Lemma sforall_and (f g : ascii -> bool) s : sforall f s = true -> sforall g s = true -> sforall (fun c => f c && g c) s = true.
Proof. induction s as [|c s IH]; [done|]. cbn. intros [-> ?]%andb_prop [-> ?]%andb_prop. by apply IH. Qed.

Lemma class_line (f : ascii -> bool) s : f creturn = false -> f newline = false -> sforall f s = true -> sforall line_char s = true.
Proof. intros Hr Hn H. apply sforall_and; by apply (class_avoids f). Qed.

Lemma tchar_line s : sforall IsTchar s = true -> sforall line_char s = true.
Proof. by apply class_line. Qed.
Lemma path_target s : sforall path_char s = true -> sforall target_char s = true.
Proof. apply sforall_impl. unfold path_char. intros c H. by split_bools. Qed.
Lemma query_target s : sforall query_char s = true -> sforall target_char s = true.
Proof. apply sforall_impl. unfold query_char. intros c H. by split_bools. Qed.

Lemma full_target_chars p q : sforall path_char p = true -> sforall query_char q = true -> sforall target_char (full_target p q) = true.
Proof.
  intros Hp Hq. unfold full_target. rewrite sforall_app, path_target by done. destruct (sempty q); [done|].
  cbn [String.append sforall]. by rewrite query_target.
Qed.

Lemma request_line_start r : request_ok r -> request_line (start_line r) = Some (method r, target r, version r).
Proof.
  intros [[Hm1 Hm2] Hv (Hp1 & Hp2 & _) Hq Ht _ _ _]. unfold request_line, start_line.
  assert (sforall (not_c " ") (method r) = true) as Hm by (by apply (class_avoids IsTchar)).
  assert (sforall (not_c " ") (target r) = true) as Htg by (rewrite Ht; apply (class_avoids target_char); [done|by apply full_target_chars]).
  change (method r +s+ " " +s+ target r +s+ " " +s+ version r) with (method r +s+ String " " (target r +s+ String " " (version r))).
  change " " with (str1 " "). rewrite find_at by done. destruct (String.length (method r)) as [|n] eqn:En; [by destruct (method r)|].
  rewrite <- En. replace (S (String.length (method r))) with (String.length (method r +s+ str1 " ")) by (rewrite length_app_s; cbn; lia).
  change (String " " (target r +s+ String " " (version r))) with (str1 " " +s+ target r +s+ String " " (version r)).
  rewrite <- app_assoc_s, sdrop_app, find_at by done.
  destruct (String.length (target r)) as [|k] eqn:Ek.
  { exfalso. destruct (target r) eqn:E; [|done]. unfold full_target in Ht. by destruct (path r). }
  rewrite <- Ek. replace (S (String.length (target r))) with (String.length (target r +s+ str1 " ")) by (rewrite length_app_s; cbn; lia).
  change (String " " (version r)) with (str1 " " +s+ version r). rewrite <- app_assoc_s, sdrop_app.
  assert (contains (str1 " ") (version r) = false) as -> by (by destruct Hv as [-> | ->]).
  rewrite !app_assoc_s, !stake_app. done.
Qed.

Lemma TrimOws_space v : TrimOws (String " " v) = TrimOws v.
Proof. reflexivity. Qed.

Lemma parse_headers_ok hs acc : Forall header_ok hs -> zlen acc + zlen hs <= 100 ->
  parse_headers (map header_text hs) acc = inr (acc ++ hs).
Proof.
  revert acc. induction hs as [|[k v] hs IH]; intros acc; cbn [map]; [by rewrite app_nil_r|].
  intros [(H1 & H2 & H3 & H4 & H5) Hs]%Forall_cons Hl. cbn [fst snd] in *. rewrite zlen_cons in Hl. pose proof (zlen_nonneg hs).
  assert (sforall (not_c ":") k = true) as Hk by (by apply (class_avoids IsTchar)).
  assert (find ":" (header_text (k, v)) = Some (String.length k)) as Hf by (apply (find_at ":"); done).
  unfold header_text in *. cbn [fst snd] in *. destruct k as [|c0 k]; [done|].
  rewrite app_cons_s in *. cbn [parse_headers]. rewrite Hf.
  assert (is_ows c0 = false) as ->.
  { cbn in H2. apply andb_prop in H2 as [H2 _]. unfold is_ows. apply orb_false_iff.
    split; apply Ascii.eqb_neq; intros ->; discriminate H2. }
  cbn [String.length]. change (S (String.length k)) with (String.length (String c0 k)).
  rewrite <- app_cons_s, stake_app, H2. cbn [negb].
  destruct (Z.leb_spec 100 (zlen acc)); [lia|]. rewrite H3.
  replace (S (String.length (String c0 k))) with (String.length (String c0 k +s+ ":")) by (rewrite length_app_s; cbn; lia).
  change (": " +s+ v) with (":" +s+ String " " v). rewrite <- app_assoc_s, sdrop_app, TrimOws_space, H5.
  rewrite IH; [by rewrite <- app_assoc|done|]. rewrite zlen_app, zlen_cons, zlen_nil. lia.
Qed.

Lemma PercentDecode_id s : sforall (not_c "%") s = true -> PercentDecode s false = s.
Proof.
  induction s as [|c s IH]; [done|]. cbn [sforall]. intros [Hc Hs]%andb_prop. unfold not_c in Hc. apply negb_true_iff in Hc.
  cbn [PercentDecode andb]. rewrite Ascii.eqb_sym in Hc. rewrite IH, Hc by done. cbn [andb]. by destruct s as [|? [|? ?]].
Qed.

Lemma origin_slash t : starts_with "/" t = true -> origin_form t = t.
Proof. unfold origin_form. destruct t as [|c t]; [done|]. cbn [starts_with]. intros [E _]%andb_prop. apply Ascii.eqb_eq in E as <-. reflexivity. Qed.

Lemma raw_parts p q : sforall path_char p = true -> sforall query_char q = true ->
  raw_path (full_target p q) = p /\ raw_query (full_target p q) = q.
Proof.
  intros Hp Hq. unfold raw_path, raw_query.
  assert (sforall (not_c "?") p = true) as Hp1 by (by apply (class_avoids path_char)).
  assert (sforall (not_c "#") p = true) as Hp2 by (by apply (class_avoids path_char)).
  assert (sforall (not_c "#") (full_target p q) = true) as Hh.
  { unfold full_target. rewrite sforall_app, Hp2. destruct (sempty q); [done|]. cbn. by apply (class_avoids query_char). }
  assert (find "#" (full_target p q) = None) as -> by exact (find_absent "#" _ Hh). unfold full_target. destruct q as [|c q]; cbn [sempty].
  - rewrite app_nil_s. assert (find "?" p = None) as -> by exact (find_absent "?" _ Hp1). done.
  - assert (find "?" (p +s+ "?" +s+ String c q) = Some (String.length p)) as -> by exact (find_at "?" p (String c q) Hp1). rewrite stake_app. split; [done|].
    replace (S (String.length p)) with (String.length (p +s+ "?")) by (rewrite length_app_s; cbn; lia).
    rewrite <- app_assoc_s. apply sdrop_app.
Qed.

Lemma render_lines r : render r = lines_text (start_line r) (map header_text (headers r)) +s+ crlf2.
Proof. unfold render, lines_text. by rewrite map_map, app_assoc_s. Qed.

Lemma start_text r : request_ok r -> text_line (start_line r).
Proof.
  intros [[Hm1 Hm2] Hv (_ & Hp2 & _) Hq Ht _ _ _]. unfold start_line, text_line. split; [|by destruct (method r)].
  rewrite !sforall_app, (tchar_line _ Hm2). rewrite (class_line target_char (target r)); [|done|done|rewrite Ht; by apply full_target_chars].
  by destruct Hv as [-> | ->].
Qed.

Lemma header_text_line h : header_ok h -> text_line (header_text h).
Proof.
  intros (H1 & H2 & H3 & H4 & _). unfold header_text, text_line. rewrite !sforall_app, (tchar_line _ H2), H4. split; [done|]. by destruct (h.1).
Qed.

(** A well-formed request written in the HTTP/1.1 form and followed by anything is read back as that request: method, path, query, token, resume point, and whether the connection stays open. *)
Theorem parse_render r more maxBytes :
  request_ok r -> slen (render r) <= maxBytes -> ParseRequest (render r +s+ more) maxBytes = (Ok, Some r).
Proof.
  intros Hr Hb. pose proof (start_text r Hr) as Hs.
  assert (Forall text_line (map header_text (headers r))) as Hh.
  { apply Forall_map. destruct Hr as [_ _ _ _ _ [Hh _] _ _]. eapply Forall_impl; [exact Hh|]. apply header_text_line. }
  unfold ParseRequest. rewrite (head_end_app (render r) more (String.length (lines_text (start_line r) (map header_text (headers r))), 4%nat))
    by (rewrite render_lines; by apply lines_head_end).
  assert (Z.of_nat (String.length (lines_text (start_line r) (map header_text (headers r))) + 4) = slen (render r)) as ->
    by (rewrite render_lines; unfold slen; rewrite length_app_s; reflexivity).
  destruct (Z.ltb_spec maxBytes (slen (render r))); [lia|].
  rewrite render_lines at 1. rewrite app_assoc_s, stake_app. unfold parse_head.
  rewrite lines_split by (constructor; [apply Hs|eapply Forall_impl; [exact Hh|]; by intros x [? _]]).
  assert (skip_empty (start_line r :: map header_text (headers r)) = start_line r :: map header_text (headers r)) as ->
    by (destruct Hs as [_ Hs]; by destruct (start_line r)).
  rewrite request_line_start by done. destruct Hr as [[Hm1 Hm2] Hv (Hp1 & Hp2 & Hp3) Hq Ht [Hhs Hlen] Hbody Hbytes].
  rewrite Hm2. replace ((version r =s "HTTP/1.1") || (version r =s "HTTP/1.0")) with true by (by destruct Hv as [-> | ->]).
  assert (sforall target_char (target r) = true) as -> by (rewrite Ht; by apply full_target_chars). cbn [negb].
  assert (starts_with "/" (target r) = true) as Hsl by (rewrite Ht; unfold full_target; by apply starts_with_app_r).
  rewrite (origin_slash _ Hsl), Hsl. cbn [orb negb]. rewrite parse_headers_ok by (done || cbn; lia). cbn [app].
  rewrite Ht. destruct (raw_parts _ _ Hp2 Hq) as [-> ->]. rewrite <- Ht.
  rewrite PercentDecode_id by (by apply (class_avoids path_char)). rewrite Hp3, <- Hbytes.
  by destruct r as [m t p q v hs n]; cbn [method target path query version headers headerBytes] in *; rewrite Hbody.
Qed.

Definition sample_request : HttpRequest := {|
  method := "GET"; target := "/stream?token=abc"; path := "/stream"; query := "token=abc"; version := "HTTP/1.1";
  headers := [("host", "cs:27016"); ("last-event-id", "7")]; headerBytes := 68 |}.

Lemma parse_render_witness : ParseRequest (render sample_request +s+ "GET") 8192 = (Ok, Some sample_request).
Proof.
  apply (parse_render sample_request "GET" 8192); [|vm_compute; discriminate].
  split; try (vm_compute; auto; fail). split; [|vm_compute; discriminate].
  repeat constructor; vm_compute; reflexivity.
Defined.
