(* ===== verification/StatusServer.v ===== *)
(** * The status HTTP server

    [src/core/src/readyup/status_server.h] and [.cpp]: one thread with one [poll] loop that serves the routes of the
    status endpoint and feeds the event streams from the hub.  The operating system is an input of the model: each pass
    of the loop is given what [poll], [recv], [send] and [accept] return ([PollIO]), and the readings of the two clocks
    are functions of the number of readings taken so far ([clock], [unix]).  The game thread's [Submit] and [SetToken]
    happen between passes.  [sent] of a connection is the history of the bytes [send] took. *)

From S2P Require Import Prelude CStr Double Json StatusHub StatusHttp.

Module Srv.

Record ServerConfig := {
  bind_addr : string;
  token : string;
  metrics : bool;
  trustLoopback : bool;
  maxConnections : Z;
  maxStreams : Z;
  maxHeaderBytes : Z;
  readTimeoutMs : Z;
  writeTimeoutMs : Z;
  streamMaxBuffered : Z;
  keepaliveMs : Z;
  ratePerSec : double;
  rateBurst : double;
  selftestTriggerMinIntervalMs : Z;
  requestSelftest : bool;
}.
#[export] Instance eta_ServerConfig : Eta ServerConfig := fun c =>
  Build_ServerConfig (bind_addr c) (token c) (metrics c) (trustLoopback c) (maxConnections c) (maxStreams c) (maxHeaderBytes c)
    (readTimeoutMs c) (writeTimeoutMs c) (streamMaxBuffered c) (keepaliveMs c) (ratePerSec c) (rateBurst c)
    (selftestTriggerMinIntervalMs c) (requestSelftest c).

(** [IsLoopbackAddress]. *)
Definition IsLoopbackAddress (ip : string) : bool :=
  (ip =s "::1") || starts_with "127." ip || starts_with "::ffff:127." ip.

Inductive St := Reading | Writing | Streaming.
#[export] Instance St_eq_dec : EqDecision St.
Proof. solve_decision. Defined.

Record Conn := {
  fd : Z;
  ip : string;
  loopback : bool;
  st : St;
  inb : string;
  out : string;
  outOff : nat;
  deadline : double;
  lastKeepalive : double;
  cseq : Z;
  dead : bool;
  sent : string;
}.
#[export] Instance eta_Conn : Eta Conn := fun c =>
  Build_Conn (fd c) (ip c) (loopback c) (st c) (inb c) (out c) (outOff c) (deadline c) (lastKeepalive c) (cseq c) (dead c) (sent c).

(** [Impl], the counters, the hub, the number of clock readings taken, the self-test triggers and the log. *)
Record Server := {
  cfg : ServerConfig;
  hub : Hub;
  conns : list Conn;
  limiter : RateLimiter;
  byCode : list (Z * Z);
  startedAt : double;
  lastSelftestTrigger : double;
  streams : Z;
  requests : Z;
  rateLimited : Z;
  unauthorized : Z;
  rejectedConnections : Z;
  streamsDropped : Z;
  streamsActive : Z;
  connectionsActive : Z;
  ticks : nat;
  selftests : Z;
  logs : list string;
}.
#[export] Instance eta_Server : Eta Server := fun s =>
  Build_Server (cfg s) (hub s) (conns s) (limiter s) (byCode s) (startedAt s) (lastSelftestTrigger s) (streams s) (requests s)
    (rateLimited s) (unauthorized s) (rejectedConnections s) (streamsDropped s) (streamsActive s) (connectionsActive s)
    (ticks s) (selftests s) (logs s).

(** [StatusServer]'s constructor, with [startedAt] from the first reading of [Start]. *)
Definition NewServer (c : ServerConfig) (h : Hub) (start : double) : Server := {|
  cfg := c; hub := h; conns := []; limiter := NewLimiter (ratePerSec c) (rateBurst c) 1024; byCode := [];
  startedAt := start; lastSelftestTrigger := of_int (- 10 ^ 18); streams := 0; requests := 0; rateLimited := 0;
  unauthorized := 0; rejectedConnections := 0; streamsDropped := 0; streamsActive := 0; connectionsActive := 0;
  ticks := 0; selftests := 0; logs := [] |}.

(** [SetToken], from any thread. *)
Definition SetToken (s : Server) (t : string) : Server := s <| cfg := cfg s <| token := t |> |>.

(** [Start] up to the thread: the peer address the bind address resolves to, and whether [socket], [bind], [listen] and
    [pipe] succeed.  [None] is success. *)
Definition Start (c : ServerConfig) (port : Z) (resolved : option string) (socket_ok bind_ok listen_ok pipe_ok : bool) : option string :=
  match resolved with
  | None => Some (qs "bad bind address `" +s+ bind_addr c +s+ qs "` (numeric IPv4/IPv6 only)")
  | Some peer =>
      if negb (IsLoopbackAddress peer) && (slen (token c) <? 16)
      then Some ("refusing to listen on non-loopback " +s+ bind_addr c +s+ " without a status_http_token (>= 16 chars)")
      else if negb socket_ok then Some "socket: "
      else if negb bind_ok then Some ("bind " +s+ bind_addr c +s+ ":" +s+ to_string port +s+ ": ")
      else if negb listen_ok then Some "listen: "
      else if negb pipe_ok then Some "pipe: "
      else None
  end.

(** [im.byCode[code]++] of a [std::map], kept in the order of the codes. *)
Fixpoint bump (code : Z) (m : list (Z * Z)) : list (Z * Z) :=
  match m with
  | [] => [(code, 1)]
  | (k, n) :: m' =>
      if code =? k then (k, n + 1) :: m'
      else if code <? k then (code, 1) :: m
      else (k, n) :: bump code m'
  end.

Definition count (s : Server) (code : Z) : Server :=
  s <| requests := requests s + 1 |> <| byCode := bump code (byCode s) |>.

Definition jsonErr (msg : string) : string := qs "{`error`:" +s+ JsonEscape msg +s+ "}" +s+ nl.

(** [NumAt]: one number of the summary or self-test JSON; a double without a [long long] value has none. *)
Fixpoint json_at (j : Json) (path : list string) : option Json :=
  match path with [] => Some j | k :: ks => match Find j k with Some v => json_at v ks | None => None end end.
Definition NumAt (root : Json) (path : list string) : option double :=
  match json_at root path with
  | Some (JInt i) => Some (of_int i)
  | Some (JDouble d) => of_int <$> AsInt (JDouble d)
  | Some (JBool b) => Some (of_int (if b then 1 else 0))
  | _ => None
  end.

Definition FmtNum (v : double) : string := fmt_10g v.

(** One metric with its help and type lines. *)
Definition gauge (name help : string) (v : double) (type : string) : string :=
  "# HELP " +s+ name +s+ " " +s+ help +s+ nl +s+ "# TYPE " +s+ name +s+ " " +s+ type +s+ nl +s+ name +s+ " " +s+ FmtNum v +s+ nl.

Definition num_gauge (root : Json) (path : list string) (name help : string) : string :=
  match NumAt root path with Some v => gauge name help v "gauge" | None => EmptyString end.

Definition flag_gauge (b : bool) : double := of_int (if b then 1 else 0).

Definition score_metrics (i : StatusInputs) : string :=
  match NumAt (summary i) ["score"; "team1"], NumAt (summary i) ["score"; "team2"] with
  | Some s1, Some s2 =>
      "# HELP readyup_score Map score." +s+ nl +s+ "# TYPE readyup_score gauge" +s+ nl +s+
      qs "readyup_score{team=`team1`} " +s+ FmtNum s1 +s+ nl +s+ qs "readyup_score{team=`team2`} " +s+ FmtNum s2 +s+ nl
  | _, _ => EmptyString
  end.

Definition mode_metrics (i : StatusInputs) : string :=
  match Find (summary i) "mode" with
  | Some (JString m) =>
      "# HELP readyup_mode Current Ready Up mode." +s+ nl +s+ "# TYPE readyup_mode gauge" +s+ nl +s+
      concat_s (map (fun k => qs "readyup_mode{mode=`" +s+ k +s+ qs "`} " +s+ (if m =s k then "1" else "0") +s+ nl)
        ["idle"; "scrim"; "match"; "practice"; "external"])
  | _ => EmptyString
  end.

Definition platform_online (i : StatusInputs) : bool :=
  match Find (platform i) "state" with Some (JString v) => v =s "online" | _ => false end.

(** The metrics of the current status inputs. *)
Definition input_metrics (i : StatusInputs) : string :=
  gauge "readyup_update_safe" "1 when a game/plugin update or restart would not interrupt a match." (flag_gauge (update_safe i)) "gauge" +s+
  gauge "readyup_healthy" "0 when the engine surface is disabled or the last selftest failed." (flag_gauge (healthy i)) "gauge" +s+
  num_gauge (selftest i) ["pass"] "readyup_selftest_pass" "Last selftest passed." +s+
  num_gauge (selftest i) ["passed"] "readyup_selftest_passed" "Checks passed in the last selftest." +s+
  num_gauge (selftest i) ["total"] "readyup_selftest_total" "Checks in the last selftest." +s+
  num_gauge (summary i) ["players"; "connected"] "readyup_players_connected" "Connected humans." +s+
  num_gauge (summary i) ["players"; "expected"] "readyup_players_expected" "Roster size of the loaded match." +s+
  num_gauge (summary i) ["round"] "readyup_round" "Current round number." +s+
  num_gauge (summary i) ["map_number"] "readyup_map_number" "Current map of the series (1-based)." +s+
  score_metrics i +s+
  gauge "readyup_platform_online" "1 while the fleet connection is online." (flag_gauge (platform_online i)) "gauge" +s+
  mode_metrics i +s+
  concat_s (map (fun kv => gauge ("readyup_" +s+ kv.1) kv.1 kv.2 "gauge") (gauges i)).

Section Loop.
Context (clock : nat -> double) (unix : nat -> Z).

(** [NowSec]: the next reading of the clock. *)
Definition NowSec (s : Server) : double * Server := (clock (ticks s), s <| ticks := S (ticks s) |>).

Definition metricsBody (s : Server) : string * Server :=
  let '(now, s) := NowSec s in
  (gauge "readyup_up" "Ready Up status endpoint is serving." d1 "gauge" +s+
   gauge "readyup_status_uptime_seconds" "Seconds since the status endpoint started." (dsub now (startedAt s)) "gauge" +s+
   gauge "readyup_status_rev" "Current MatchState revision." (of_int (rev (hub s))) "gauge" +s+
   match cur (hub s) with Some i => input_metrics i | None => EmptyString end +s+
   "# HELP readyup_http_requests_total HTTP requests by status code." +s+ nl +s+ "# TYPE readyup_http_requests_total counter" +s+ nl +s+
   concat_s (map (fun kv => qs "readyup_http_requests_total{code=`" +s+ to_string kv.1 +s+ qs "`} " +s+ to_string kv.2 +s+ nl) (byCode s)) +s+
   gauge "readyup_http_rate_limited_total" "Requests refused with 429." (of_int (rateLimited s)) "counter" +s+
   gauge "readyup_http_connections_rejected_total" "Connections refused at the connection cap." (of_int (rejectedConnections s)) "counter" +s+
   gauge "readyup_http_streams" "Open /stream clients." (of_int (streams s)) "gauge" +s+
   gauge "readyup_http_streams_dropped_total" "Streams dropped for not keeping up." (of_int (streamsDropped s)) "counter", s).

(** ** One request *)

Definition write_deadline (s : Server) (now : double) : double := dadd now (ddiv (of_int (writeTimeoutMs (cfg s))) (of_int 1000)).

Definition respond (s : Server) (c : Conn) (code : Z) (ctype body : string) (head : bool) (extra : list (string * string)) : Server * Conn :=
  let '(now, s) := NowSec (count s code) in
  (s, c <| out := BuildResponse code ctype body head extra |> <| outOff := 0%nat |> <| st := Writing |> <| deadline := write_deadline s now |>).

Definition ctJson : string := "application/json".
Definition ctText : string := "text/plain; charset=utf-8".

Definition health_body (ok : bool) (uptime : Z) (reason : string) : string :=
  qs "{`ok`:" +s+ json_bool ok +s+ qs ",`uptime_s`:" +s+ to_string uptime +s+
  (if ok then EmptyString else qs ",`reason`:" +s+ JsonEscape reason) +s+ "}" +s+ nl.

(** The two facts of the hub [/health] reports. *)
Definition health (h : Hub) : bool * string :=
  match cur h with Some i => (healthy i, unhealthy_reason i) | None => (false, "starting") end.

(** The check of the token, for peers that need one. *)
Definition authorized (s : Server) (c : Conn) (req : HttpRequest) : bool :=
  (trustLoopback (cfg s) && loopback c) ||
  (negb (sempty (token (cfg s))) && TokenEquals (ExtractToken req) (token (cfg s))).

Definition handle_selftest (s : Server) (c : Conn) (req : HttpRequest) (head : bool) : Server * Conn :=
  if match QueryParam req "run" with Some run => negb (run =s "0") && negb head | None => false end then
    if negb (requestSelftest (cfg s)) then respond s c 403 ctJson (jsonErr "selftest trigger disabled") false []
    else
      let '(now, s) := NowSec s in
      if dmul (dsub now (lastSelftestTrigger s)) (of_int 1000) <d of_int (selftestTriggerMinIntervalMs (cfg s)) then
        respond s c 429 ctJson (jsonErr "selftest was triggered recently") false
          [("Retry-After", to_string (Z.quot (selftestTriggerMinIntervalMs (cfg s)) 1000))]
      else
        respond (s <| lastSelftestTrigger := now |> <| selftests := selftests s + 1 |>) c 202 ctJson
          (qs "{`queued`:true,`note`:`runs on the next server frame; GET /selftest for the report`}" +s+ nl) false []
  else
    match cur (hub s) with
    | Some i => if sempty (selftest_report i) then respond s c 200 ctText ("selftest: not run yet" +s+ nl) head []
                else respond s c 200 ctText (selftest_report i +s+ nl) head []
    | None => respond s c 200 ctText ("selftest: not run yet" +s+ nl) head []
    end.

(** [Last-Event-ID], from the header or the query. *)
Definition last_event_id (req : HttpRequest) : string :=
  let lastId := Header req "last-event-id" in
  if sempty lastId then default EmptyString (QueryParam req "last_event_id") else lastId.

(** The frames a resumed stream starts with, when the ring still holds them. *)
Definition resume_frames (h : Hub) (lastId : string) : option string :=
  if negb (sempty lastId) && sforall isdigit lastId && (slen lastId <? 20) then
    match SeqForRev h (strtoull lastId) with Some n => FramesAfter h n | None => None end
  else None.

Definition stream_head : string := BuildSseHead +s+ "retry: 3000" +s+ nl +s+ nl.

Definition handle_stream (s : Server) (c : Conn) (req : HttpRequest) (head : bool) : Server * Conn :=
  if head then
    let '(now, s) := NowSec (count s 200) in
    (s, c <| out := BuildSseHead |> <| outOff := 0%nat |> <| st := Writing |> <| deadline := write_deadline s now |>)
  else if maxStreams (cfg s) <=? streams s then
    respond s c 503 ctJson (jsonErr "too many streams") false [("Retry-After", "5")]
  else
    let s := count s 200 in
    let s := s <| streams := streams s + 1 |> <| streamsActive := streams s + 1 |> in
    let '(now, s) := NowSec s in
    let c := c <| st := Streaming |> <| outOff := 0%nat |> <| lastKeepalive := now |> in
    (s, match resume_frames (hub s) (last_event_id req) with
        | Some frames => c <| out := stream_head +s+ frames |> <| cseq := lastSeq (hub s) |>
        | None => c <| out := stream_head +s+ SnapshotFrame (hub s) |> <| cseq := lastSeq (hub s) |>
        end).

Definition known_path (p : string) : bool := (p =s "/status") || (p =s "/stream") || (p =s "/metrics") || (p =s "/selftest").

(** The routes behind the token. *)
Definition handle_private (s : Server) (c : Conn) (req : HttpRequest) (head : bool) (uptime : Z) : Server * Conn :=
  if path req =s "/status" then respond s c 200 ctJson (StatusBody (hub s) uptime (unix (ticks s)) +s+ nl) head []
  else if path req =s "/metrics" then
    if negb (metrics (cfg s)) then respond s c 404 ctJson (jsonErr "metrics disabled (status_http_metrics 1)") head []
    else
      let '(body, s) := metricsBody s in
      respond s c 200 "text/plain; version=0.0.4; charset=utf-8" body head []
  else if path req =s "/selftest" then handle_selftest s c req head
  else handle_stream s c req head.

(** [handle]: one request of a connection. *)
Definition handle (s : Server) (c : Conn) (req : HttpRequest) : Server * Conn :=
  let head := method req =s "HEAD" in
  if negb (method req =s "GET") && negb head then
    respond s c 405 ctJson (jsonErr "only GET and HEAD") false [("Allow", "GET, HEAD")]
  else
    let '(now, s) := NowSec s in
    let '(l, allowed) := Allow (limiter s) (ip c) now in
    let s := s <| limiter := l |> in
    if negb allowed then
      respond (s <| rateLimited := rateLimited s + 1 |>) c 429 ctJson (jsonErr "rate limited") head [("Retry-After", "1")]
    else
      let '(now, s) := NowSec s in
      let uptime := default 0 (dtrunc (dsub now (startedAt s))) in
      if path req =s "/health" then
        let '(ok, reason) := health (hub s) in
        respond s c (if ok then 200 else 503) ctJson (health_body ok uptime reason) head []
      else if path req =s "/" then
        respond s c 200 ctJson (qs "{`endpoints`:[`/health`,`/status`,`/stream`,`/metrics`,`/selftest`]}" +s+ nl) head []
      else if negb (known_path (path req)) then respond s c 404 ctJson (jsonErr "not found") head []
      else if negb (authorized s c req) then
        respond (s <| unauthorized := unauthorized s + 1 |>) c 401 ctJson (jsonErr "token required") head
          [("WWW-Authenticate", qs "Bearer realm=`readyup-status`")]
      else handle_private s c req head uptime.

(** ** Connections *)

Definition closeConn (s : Server) (c : Conn) : Server * Conn :=
  let s := if bool_decide (st c = Streaming)
           then s <| streams := streams s - 1 |> <| streamsActive := Z.max 0 (streams s - 1) |> else s in
  (s, c <| fd := -1 |> <| dead := true |>).

(** What [send] returns: a number of bytes (at least one and at most those offered), [EAGAIN], [EINTR], or a failure. *)
Inductive SendRes := Took (n : nat) | SendAgain | SendIntr | SendFailed.

Definition unsent (c : Conn) : nat := (String.length (out c) - outOff c)%nat.

(** The [send] loop of [flush]; when the script of results ends, the socket takes no more for now. *)
Fixpoint send_loop (c : Conn) (sends : list SendRes) : Conn * bool :=
  if (outOff c <? String.length (out c))%nat then
    match sends with
    | Took n :: r =>
        let k := Nat.min (Nat.max 1 n) (unsent c) in
        send_loop (c <| outOff := (outOff c + k)%nat |> <| sent := sent c +s+ stake k (sdrop (outOff c) (out c)) |>) r
    | SendIntr :: r => send_loop c r
    | SendFailed :: _ => (c, false)
    | SendAgain :: _ | [] => (c, true)
    end
  else (c, true).

(** [flush]: false on a hard error. *)
Definition flush (c : Conn) (sends : list SendRes) : Conn * bool :=
  let '(c, ok) := send_loop c sends in
  if negb ok then (c, false)
  else if (String.length (out c) <=? outOff c)%nat then (c <| out := EmptyString |> <| outOff := 0%nat |>, true)
  else if 65536 <? Z.of_nat (outOff c) then (c <| out := sdrop (outOff c) (out c) |> <| outOff := 0%nat |>, true)
  else (c, true).

(** ** One pass of the loop *)

(** A body run on each connection in turn. *)
Fixpoint each (f : Server -> Conn -> Server * Conn) (s : Server) (cs : list Conn) : Server * list Conn :=
  match cs with
  | [] => (s, [])
  | c :: cs => let '(s, c) := f s c in let '(s, cs) := each f s cs in (s, c :: cs)
  end.

Definition for_conns (f : Server -> Conn -> Server * Conn) (s : Server) : Server :=
  let '(s', cs) := each f s (conns s) in s' <| conns := cs |>.

(** 1) New events for one stream, its keepalive, and the cap on what it may leave unread. *)
Definition stream_frames (h : Hub) (changed : bool) (c : Conn) : Conn :=
  if changed && (cseq c <? lastSeq h) then
    c <| out := out c +s+ match FramesAfter h (cseq c) with Some frames => frames | None => SnapshotFrame h end |>
      <| cseq := lastSeq h |>
  else c.

Definition keepalive (s : Server) (now : double) (c : Conn) : Conn :=
  if of_int (keepaliveMs (cfg s)) <=d dmul (dsub now (lastKeepalive c)) (of_int 1000)
  then c <| out := out c +s+ SseComment "keepalive" |> <| lastKeepalive := now |> else c.

Definition stream_step (changed : bool) (now : double) (s : Server) (c : Conn) : Server * Conn :=
  if dead c || negb (bool_decide (st c = Streaming)) then (s, c)
  else
    let c := keepalive s now (stream_frames (hub s) changed c) in
    if streamMaxBuffered (cfg s) <? Z.of_nat (unsent c) then
      closeConn (s <| streamsDropped := streamsDropped s + 1 |>
                   <| logs := logs s ++ ["status: dropping a /stream client from " +s+ ip c +s+ " (write buffer over limit)"] |>) c
    else (s, c).

(** 2) Timeouts. *)
Definition timeout_step (now : double) (s : Server) (c : Conn) : Server * Conn :=
  if dead c then (s, c)
  else if negb (bool_decide (st c = Streaming)) && (deadline c <d now) then closeConn s c
  else (s, c).

(** What [recv] returns: bytes, the end of the stream, nothing for now ([EAGAIN], [EWOULDBLOCK] or [EINTR]), or an error. *)
Inductive RecvRes := Got (b : string) | RecvEof | RecvAgain | RecvFailed.

(** The readiness [poll] reports for a connection, and what its socket does. *)
Record ConnIO := { re_err : bool; re_in : bool; re_out : bool; recvs : list RecvRes; sends : list SendRes; late_sends : list SendRes }.
Definition no_io : ConnIO := {| re_err := false; re_in := false; re_out := false; recvs := []; sends := []; late_sends := [] |}.

(** The [recv] loop: the input read, and whether it ended at the end of the stream or at an error. *)
Fixpoint recv_loop (limit : Z) (reading : bool) (inb : string) (recvs : list RecvRes) : string * bool * bool :=
  match recvs with
  | Got b :: r =>
      if reading then
        let inb := inb +s+ b in
        if limit <? slen inb then (inb, false, false) else recv_loop limit reading inb r
      else recv_loop limit reading inb r
  | RecvEof :: _ => (inb, true, false)
  | RecvFailed :: _ => (inb, false, true)
  | RecvAgain :: _ | [] => (inb, false, false)
  end.

(** The request of a connection that is still reading. *)
Definition serve (s : Server) (c : Conn) : Server * Conn :=
  if bool_decide (st c = Reading) then
    let '(s, c) :=
      match ParseRequest (inb c) (maxHeaderBytes (cfg s)) with
      | (Ok, Some req) => handle s c req
      | (Bad, _) => respond s c 400 ctJson (jsonErr "bad request") false []
      | (TooLarge, _) => respond s c 431 ctJson (jsonErr "request headers too large") false []
      | _ => (s, c)
      end in
    (s, if bool_decide (st c = Reading) then c else c <| inb := EmptyString |>)
  else (s, c).

(** The input side of one connection. *)
Definition input_step (io : ConnIO) (s : Server) (c : Conn) : Server * Conn :=
  let '(buf, eof, failed) := recv_loop (maxHeaderBytes (cfg s) + 4096) (bool_decide (st c = Reading)) (inb c) (recvs io) in
  let c := c <| inb := buf |> in
  if failed then closeConn s c
  else
    let '(s, c) := serve s c in
    if eof && negb (bool_decide (st c = Writing)) then closeConn s c else (s, c).

(** The output side: flush, and close a plain response once all of it was taken. *)
Definition output_step (io : ConnIO) (s : Server) (c : Conn) : Server * Conn :=
  if dead c then (s, c)
  else
    let '(c, ok) := if (outOff c <? String.length (out c))%nat then flush c (sends io) else (c, true) in
    if negb ok then closeConn s c
    else if bool_decide (st c = Writing) && sempty (out c) then closeConn s c
    else (s, c).

Definition conn_step (io : ConnIO) (s : Server) (c : Conn) : Server * Conn :=
  if dead c || negb (re_err io || re_in io || re_out io) then (s, c)
  else if re_err io then closeConn s c
  else
    let '(s, c) := if re_in io then input_step io s c else (s, c) in
    output_step io s c.

(** The connections and what their sockets do, in order. *)
Fixpoint each_io (f : ConnIO -> Server -> Conn -> Server * Conn) (ios : list ConnIO) (s : Server) (cs : list Conn) : Server * list Conn :=
  match cs with
  | [] => (s, [])
  | c :: cs =>
      let '(s, c) := f (default no_io (head ios)) s c in
      let '(s, cs) := each_io f (tail ios) s cs in
      (s, c :: cs)
  end.

Definition for_conns_io (f : ConnIO -> Server -> Conn -> Server * Conn) (ios : list ConnIO) (s : Server) : Server :=
  let '(s', cs) := each_io f ios s (conns s) in s' <| conns := cs |>.

(** Streams with frames left are flushed even if [poll] reported nothing for them. *)
Definition late_step (io : ConnIO) (s : Server) (c : Conn) : Server * Conn :=
  if dead c || negb (bool_decide (st c = Streaming)) || (String.length (out c) <=? outOff c)%nat then (s, c)
  else let '(c, ok) := flush c (late_sends io) in if ok then (s, c) else closeConn s c.

Definition peer_ip (a : string) : string := if starts_with "::ffff:" a && contains "." a then sdrop 7 a else a.

Definition live (cs : list Conn) : Z := sumZ (fun c => if dead c then 0 else 1) cs.

(** One accepted socket: refused over the connection cap, else a new connection. *)
Definition accept_one (s : Server) (peer : Z * string) : Server :=
  if maxConnections (cfg s) <=? live (conns s) then s <| rejectedConnections := rejectedConnections s + 1 |>
  else
    let '(now, s) := NowSec s in
    let a := peer_ip peer.2 in
    s <| conns := conns s ++ [{|
      fd := peer.1; ip := a; loopback := IsLoopbackAddress a; st := Reading; inb := EmptyString; out := EmptyString; outOff := 0;
      deadline := dadd now (ddiv (of_int (readTimeoutMs (cfg s))) (of_int 1000));
      lastKeepalive := d0; cseq := 0; dead := false; sent := EmptyString |}] |>.

(** The outcome of one [poll]. *)
Inductive PollIO :=
| PollFailed (intr : bool)
| PollReady (ios : list ConnIO) (peers : list (Z * string)).

(** The first half of a pass: the hub, the streams, the timeouts, and the dead connections erased. *)
Definition before_poll (s : Server) : Server :=
  let '(h, changed) := Process (hub s) in
  let '(now, s) := NowSec (s <| hub := h |>) in
  let s := for_conns (stream_step changed now) s in
  let s := for_conns (timeout_step now) s in
  let cs := filter (fun c => dead c = false) (conns s) in
  s <| conns := cs |> <| connectionsActive := zlen cs |>.

(** The second half: the sockets [poll] reported, the streams left, the new connections. *)
Definition after_poll (s : Server) (ios : list ConnIO) (peers : list (Z * string)) : Server :=
  let s := for_conns_io conn_step ios s in
  let s := for_conns_io late_step ios s in
  foldl accept_one s (take 64 peers).

(** One pass of the loop, and whether it goes on. *)
Definition pass (s : Server) (io : PollIO) : Server * bool :=
  let s := before_poll s in
  match io with
  | PollFailed true => (s, true)
  | PollFailed false => (s <| logs := logs s ++ ["status: poll failed: "] |>, false)
  | PollReady ios peers => (after_poll s ios peers, true)
  end.

(** The end of [Run]: every connection still in the vector is closed. *)
Definition leave (s : Server) : Server :=
  let '(s', _) := each closeConn s (conns s) in s' <| conns := [] |>.

End Loop.

(** What happens to the server: the game thread's calls and the passes of the loop. *)
Inductive Op := GameSubmit (i : option StatusInputs) | GameSetToken (t : string) | LoopPass (io : PollIO).

Definition do_op (clock : nat -> double) (unix : nat -> Z) (s : Server) (o : Op) : Server :=
  match o with
  | GameSubmit i => s <| hub := Submit (hub s) i |>
  | GameSetToken t => SetToken s t
  | LoopPass io => (pass clock unix s io).1
  end.

Definition run_ops (clock : nat -> double) (unix : nat -> Z) (s : Server) (os : list Op) : Server := foldl (do_op clock unix) s os.

End Srv.
