(* ===== verification/StatusServerFacts.v ===== *)
(** * The status HTTP server: who may read what, the connection limits, the text of a stream *)

From S2P Require Import Prelude CStr Double Json MergePatch StatusHub StatusHubFacts StatusHttp StatusServer.

Module SrvFacts.
Import Srv.

Section Facts.
Context (clock : nat -> double) (unix : nat -> Z).

Local Abbreviation handle := (handle clock unix).
Local Abbreviation respond := (respond clock).

(** ** What a request without the token learns *)

(** A server with another hub. *)
Definition with_hub (s : Server) (h : Hub) : Server := s <| hub := h |>.
Definition rehub (h : Hub) (r : Server * Conn) : Server * Conn := (with_hub r.1 h, r.2).

Lemma respond_hub s h c code ct b hd ex : respond (with_hub s h) c code ct b hd ex = rehub h (respond s c code ct b hd ex).
Proof. reflexivity. Qed.

Lemma authorized_ext s s' c req : cfg s' = cfg s -> authorized s' c req = authorized s c req.
Proof. unfold authorized. by intros ->. Qed.

Lemma stake_sdrop k s : (stake k s +s+ sdrop k s) = s.
Proof. revert s. induction k as [|k IH]; intros [|c s]; cbn; try done. by rewrite IH. Qed.

(** Who may read: a peer on the loopback while those are trusted, which is the default, and whoever presents the configured token. *)
Definition local_peer (ip : string) : Prop := ip = "::1" \/ exists r, ip = ("127." +s+ r) \/ ip = ("::ffff:127." +s+ r).
Definition bearer (req : HttpRequest) (rest : string) : Prop :=
  rest <> EmptyString /\ exists scheme, Header req "authorization" = (scheme +s+ rest) /\ lower scheme = "bearer ".
(** The token of a request: behind the [Bearer] scheme, or else in the header of its own, or else in the query. *)
Inductive presents (req : HttpRequest) : string -> Prop :=
  | by_bearer rest : bearer req rest -> presents req (TrimOws rest)
  | by_header t : (forall rest, ~ bearer req rest) -> Header req "x-readyup-token" = t -> t <> EmptyString -> presents req t
  | by_query t : (forall rest, ~ bearer req rest) -> Header req "x-readyup-token" = EmptyString -> QueryParam req "token" = Some t -> presents req t.
Definition may_read (c : ServerConfig) (ip : string) (req : HttpRequest) : Prop :=
  (trustLoopback c = true /\ local_peer ip) \/ (token c <> EmptyString /\ presents req (token c)).

Lemma loopback_local ip : IsLoopbackAddress ip = true <-> local_peer ip.
Proof.
  unfold IsLoopbackAddress, local_peer. rewrite !orb_true_iff, String.eqb_eq. split.
  - intros [[->|H%starts_with_app]|H%starts_with_app]; [by left|destruct H as [r ->]; right; exists r; by left|destruct H as [r ->]; right; exists r; by right].
  - intros [->|[r [-> | ->]]]; [auto|left; right; apply starts_with_refl|right; apply starts_with_refl].
Qed.

Lemma lower_length t : String.length (lower t) = String.length t.
Proof. unfold lower. induction t as [|c t IH]; cbn; [done|]. by rewrite IH. Qed.
Lemma bearer_spec req : let auth := Header req "authorization" in
  if (7 <? slen auth) && (lower (stake 7 auth) =s "bearer ") then bearer req (sdrop 7 auth) else forall rest, ~ bearer req rest.
Proof.
  intros auth. destruct (_ && _) eqn:E.
  - apply andb_prop in E as [Hl Hs%String.eqb_eq]. apply Z.ltb_lt in Hl. split.
    + intros He. assert (String.length (sdrop 7 auth) = 0%nat) as H0 by (by rewrite He). rewrite sdrop_length in H0. unfold slen in Hl. lia.
    + exists (stake 7 auth). split; [|done]. symmetry. apply stake_sdrop.
  - intros rest [Hne (scheme & Ha & Hs)]. assert (String.length scheme = 7%nat) as Hlen by (by rewrite <- lower_length, Hs).
    fold auth in Ha. rewrite Ha in E. rewrite stake_length_app, Hs in E by done. cbn in E. rewrite andb_true_r in E. apply Z.ltb_ge in E.
    unfold slen in E. rewrite length_app_s, Hlen in E. destruct rest; [done|cbn in E; lia].
Qed.
Lemma ExtractToken_presents req t : t <> EmptyString -> ExtractToken req = t <-> presents req t.
Proof.
  intros Hne. unfold ExtractToken. pose proof (bearer_spec req) as Hb. cbv zeta in Hb |- *. set (auth := Header req "authorization") in *.
  destruct ((7 <? slen auth) && (lower (stake 7 auth) =s "bearer ")).
  - split; [intros <-; by constructor|]. intros [rest Hr|? Hn|? Hn]; [|by destruct (Hn _ Hb)..].
    destruct Hr as [_ (scheme & Ha & Hs)]. fold auth in Ha. f_equal. rewrite Ha. apply sdrop_length_app. by rewrite <- lower_length, Hs.
  - destruct (sempty (Header req "x-readyup-token")) eqn:Ex.
    + assert (Header req "x-readyup-token" = EmptyString) as Hx by (by destruct (Header req "x-readyup-token")). split.
      * destruct (QueryParam req "token") as [q|] eqn:Eq; cbn; intros <-; [by apply by_query|done].
      * intros [rest Hr|? _ Hh Hn|? _ _ ->]; [by destruct (Hb _ Hr)|congruence|done].
    + split; [intros Hh; by apply by_header|]. intros [rest Hr|? _ Hh|? _ Hh _]; [by destruct (Hb _ Hr)|done|by rewrite Hh in Ex].
Qed.
Lemma authorized_spec s c req : loopback c = IsLoopbackAddress (ip c) -> authorized s c req = true <-> may_read (cfg s) (ip c) req.
Proof.
  intros Hl. unfold authorized, may_read. rewrite orb_true_iff, !andb_true_iff, negb_true_iff, Hl, loopback_local, TokenEquals_spec.
  assert (sempty (token (cfg s)) = false <-> token (cfg s) <> EmptyString) as -> by (by destruct (token (cfg s))).
  destruct (decide (token (cfg s) = EmptyString)) as [E|E]; [tauto|]. pose proof (ExtractToken_presents req _ E) as Hp.
  assert (ExtractToken req = token (cfg s) -> ExtractToken req <> EmptyString) by congruence. tauto.
Qed.

(** Claim C38.  The status server answers only who may read: a peer on the loopback (the flag that [accept] sets), which needs no token while the server trusts those (its default), and a request that presents the configured token, behind the [Bearer] scheme, or else in its own header, or else in the query.  For every other request the answer, and everything the server does with it, does not depend on the published state or on the event log: on any two hubs with the same liveness numbers the bytes sent, the connection and the counters are the same. *)
Theorem unauthorized_learns_nothing s h c req : loopback c = IsLoopbackAddress (ip c) ->
  (authorized s c req = true <-> may_read (cfg s) (ip c) req) /\
  (~ may_read (cfg s) (ip c) req -> health h = health (hub s) -> handle (with_hub s h) c req = rehub h (handle s c req)).
Proof.
  intros Hl. split; [by apply authorized_spec|]. intros Hnot Hh.
  assert (authorized s c req = false) as Ha by (apply not_true_iff_false; by rewrite authorized_spec). clear Hnot. unfold Srv.handle.
  destruct (negb (method req =s "GET") && negb (method req =s "HEAD")); [apply respond_hub|].
  cbn [NowSec with_hub set ticks limiter]. unfold NowSec. cbn.
  destruct (Allow (limiter s) (ip c) (clock (ticks s))) as [l allowed].
  destruct allowed; cbn [negb]; [|reflexivity]. cbn.
  destruct (path req =s "/health"); [rewrite Hh; destruct (health (hub s)) as [[] reason]; reflexivity|].
  destruct (path req =s "/"); [reflexivity|].
  destruct (known_path (path req)); cbn [negb]; [|reflexivity].
  assert (forall s', cfg s' = cfg s -> authorized s' c req = false) as Hn by (intros s' E; by rewrite (authorized_ext s)).
  rewrite !Hn by reflexivity. reflexivity.
Qed.

(** The server starts only on an address it could resolve, and on one that is not a loopback address only with a token of at least 16 characters. *)
Theorem start_needs_token c port resolved sock bnd lst pip :
  Start c port resolved sock bnd lst pip = None ->
  exists peer, resolved = Some peer /\ (IsLoopbackAddress peer = true \/ 16 <= slen (token c)).
Proof.
  unfold Start. destruct resolved as [peer|]; [|done]. intros H. exists peer. split; [done|].
  destruct (IsLoopbackAddress peer); [by left|]. right. cbn [negb andb] in H. by destruct (Z.ltb_spec (slen (token c)) 16).
Qed.

(** ** Streams and connections are counted *)

(** 1 for an open stream. *)
Definition open_stream (c : Conn) : Z := if negb (dead c) && bool_decide (st c = Streaming) then 1 else 0.

(** A step on one connection that keeps the books: the configuration and the hub stay, the stream counter moves with
    the connection and stays within the limit, a dead connection stays dead, and only a [closing] step ends one. *)
Definition keeps_books (closing : bool) (s : Server) (c : Conn) (r : Server * Conn) : Prop :=
  cfg r.1 = cfg s /\ hub r.1 = hub s /\ conns r.1 = conns s /\
  streams r.1 - open_stream r.2 = streams s - open_stream c /\
  streams r.1 <= Z.max (streams s) (maxStreams (cfg s)) /\
  (dead c = true -> dead r.2 = true) /\ (closing = false -> dead r.2 = dead c).

Lemma books_refl b s c : keeps_books b s c (s, c).
Proof. repeat split; cbn; auto; lia. Qed.

Lemma books_trans b s c s1 c1 r : keeps_books b s c (s1, c1) -> keeps_books b s1 c1 r -> keeps_books b s c r.
Proof.
  intros (A1 & A2 & A3 & A4 & A5 & A6 & A7) (B1 & B2 & B3 & B4 & B5 & B6 & B7). cbn [fst snd] in *.
  repeat split; try congruence; [rewrite A1 in B5; lia|auto|intros Hb; rewrite B7, A7; done].
Qed.

Lemma books_weaken s c r : keeps_books false s c r -> keeps_books true s c r.
Proof. unfold keeps_books. intuition discriminate. Qed.

(** A change of the server or of the connection that the books do not see. *)
Lemma books_frame b s c s' c' :
  cfg s' = cfg s -> hub s' = hub s -> conns s' = conns s -> streams s' = streams s ->
  dead c' = dead c -> open_stream c' = open_stream c -> keeps_books b s c (s', c').
Proof. intros. repeat split; cbn; try done; lia || congruence. Qed.

Lemma books_close s c : dead c = false -> keeps_books true s c (closeConn s c).
Proof.
  intros Hd. unfold closeConn, keeps_books, open_stream. cbn. rewrite Hd. cbn [negb andb].
  destruct (bool_decide (st c = Streaming)); cbn; repeat split; auto; lia || done.
Qed.

Lemma books_respond b s c code ct bd hd ex : st c = Reading -> keeps_books b s c (respond s c code ct bd hd ex).
Proof.
  intros Hr. apply books_frame; try done. unfold open_stream. cbn. rewrite Hr. by destruct (dead c).
Qed.

(** [respond] of a server that differs in fields the books do not see. *)
Lemma books_respond' b s s0 c code ct bd hd ex :
  st c = Reading -> cfg s0 = cfg s -> hub s0 = hub s -> conns s0 = conns s -> streams s0 = streams s ->
  keeps_books b s c (respond s0 c code ct bd hd ex).
Proof.
  intros Hr E1 E2 E3 E4. apply (books_trans _ _ _ s0 c); [by apply books_frame|by apply books_respond].
Qed.

Lemma books_selftest b s c req hd : st c = Reading -> keeps_books b s c (handle_selftest clock s c req hd).
Proof.
  intros Hr. unfold handle_selftest, NowSec.
  repeat first [apply books_respond'; done | case_if | case_scrut].
Qed.

Lemma books_stream b s c req hd : st c = Reading -> dead c = false -> keeps_books b s c (handle_stream clock s c req hd).
Proof.
  intros Hr Hd. unfold handle_stream, NowSec. destruct hd.
  { apply books_frame; try done. unfold open_stream. cbn. by rewrite Hr, Hd. }
  destruct (Z.leb_spec (maxStreams (cfg s)) (streams s)) as [Hm|Hm]; [by apply books_respond|].
  destruct (resume_frames _ _); repeat split; auto; unfold open_stream; cbn; rewrite ?Hd, ?Hr; cbn; rewrite ?bool_decide_true, ?bool_decide_false by done; lia.
Qed.

Lemma books_handle b s c req : st c = Reading -> dead c = false -> keeps_books b s c (handle s c req).
Proof.
  intros Hr Hd. unfold Srv.handle, handle_private, NowSec, metricsBody.
  destruct (negb (method req =s "GET") && negb (method req =s "HEAD")); [by apply books_respond|].
  destruct (Allow _ _ _) as [l allowed]. destruct allowed; cbn [negb]; [|by apply books_respond'].
  destruct (health _) as [ok reason].
  repeat first [apply books_respond'; done
    | match goal with |- keeps_books _ s c (if ?x then _ else _) => destruct x end].
  - eapply books_trans; [|by apply books_selftest]. by apply books_frame.
  - eapply books_trans; [|by apply books_stream]. by apply books_frame.
Qed.

Lemma send_loop_same c sends : let '(c', _) := send_loop c sends in dead c' = dead c /\ st c' = st c.
Proof.
  revert c. induction sends as [|[n| | |] r IH]; intros c; cbn [send_loop]; destruct (_ <? _)%nat; try done.
  - specialize (IH (c <| outOff := (outOff c + Nat.min (Nat.max 1 n) (unsent c))%nat |>
      <| sent := sent c +s+ stake (Nat.min (Nat.max 1 n) (unsent c)) (sdrop (outOff c) (out c)) |>)).
    by destruct (send_loop _ r).
  - apply IH.
Qed.

Lemma flush_same c sends : dead (flush c sends).1 = dead c /\ st (flush c sends).1 = st c.
Proof.
  unfold flush. pose proof (send_loop_same c sends) as H. destruct (send_loop c sends) as [c' ok].
  destruct ok; cbn [negb]; [|done]. by repeat case_if.
Qed.

Lemma open_stream_ext c c' : dead c' = dead c -> st c' = st c -> open_stream c' = open_stream c.
Proof. unfold open_stream. by intros -> ->. Qed.

Lemma books_conn b s c c' : dead c' = dead c -> st c' = st c -> keeps_books b s c (s, c').
Proof. intros. apply books_frame; try done. by apply open_stream_ext. Qed.

Lemma books_output io s c : keeps_books true s c (output_step io s c).
Proof.
  unfold output_step. destruct (dead c) eqn:Hd; [apply books_refl|].
  assert (forall c', dead c' = false -> st c' = st c ->
    keeps_books true s c' (if bool_decide (st c' = Writing) && sempty (out c') then closeConn s c' else (s, c'))) as Hk.
  { intros c' Hc _. case_if; [by apply books_close|apply books_refl]. }
  destruct (outOff c <? String.length (out c))%nat; [|by apply Hk].
  destruct (flush_same c (sends io)) as [H1 H2]. destruct (flush c (sends io)) as [c' ok]. cbn in *.
  apply (books_trans _ _ _ s c'); [by apply books_conn|]. destruct ok; cbn [negb]; [apply Hk; congruence|apply books_close; congruence].
Qed.

Lemma books_serve b s c : dead c = false -> keeps_books b s c (serve clock unix s c).
Proof.
  intros Hd. unfold serve. case_bool_decide as Hr; [|apply books_refl].
  assert (forall r, keeps_books b s c r -> keeps_books b s c (let '(s0, c0) := r in (s0, if bool_decide (st c0 = Reading) then c0 else c0 <| inb := EmptyString |>))) as Hk.
  { intros [s0 c0] H. eapply books_trans; [exact H|]. case_bool_decide; [apply books_refl|by apply books_conn]. }
  apply Hk. destruct (ParseRequest _ _) as [[] [req|]]; try apply books_refl; try (by apply books_respond). by apply books_handle.
Qed.

Lemma books_input io s c : dead c = false -> keeps_books true s c (input_step clock unix io s c).
Proof.
  intros Hd. unfold input_step. destruct (recv_loop _ _ _ _) as [[buf eof] failed].
  apply (books_trans _ _ _ s (c <| inb := buf |>)); [by apply books_conn|].
  destruct failed; [by apply books_close|].
  match goal with |- context [serve clock unix s ?x] => pose proof (books_serve false s x Hd) as Hs; destruct (serve clock unix s x) as [s1 c1] end.
  eapply books_trans; [exact (books_weaken _ _ _ Hs)|].
  destruct (eof && negb (bool_decide (st c1 = Writing))); [|apply books_refl]. apply books_close.
  destruct Hs as (_ & _ & _ & _ & _ & _ & Hs). cbn in Hs. by rewrite Hs.
Qed.

Lemma books_conn_step io s c : keeps_books true s c (conn_step clock unix io s c).
Proof.
  unfold conn_step. destruct (dead c) eqn:Hd; cbn [orb]; [apply books_refl|].
  destruct (negb _); [apply books_refl|]. destruct (re_err io); [by apply books_close|].
  destruct (re_in io); [|apply books_output]. pose proof (books_input io s c Hd) as Hs.
  destruct (input_step clock unix io s c) as [s1 c1]. eapply books_trans; [exact Hs|apply books_output].
Qed.

Lemma books_late io s c : keeps_books true s c (late_step io s c).
Proof.
  unfold late_step. destruct (dead c) eqn:Hd; cbn [orb]; [apply books_refl|]. destruct (_ || _); [apply books_refl|].
  destruct (flush_same c (late_sends io)) as [H1 H2]. destruct (flush c (late_sends io)) as [c' ok]. cbn in *.
  eapply books_trans; [by apply (books_conn _ _ _ c')|]. destruct ok; [apply books_refl|apply books_close; congruence].
Qed.

Lemma stream_frames_same h changed c : dead (stream_frames h changed c) = dead c /\ st (stream_frames h changed c) = st c.
Proof. unfold stream_frames. by case_if. Qed.
Lemma keepalive_same s now c : dead (keepalive s now c) = dead c /\ st (keepalive s now c) = st c.
Proof. unfold keepalive. by case_if. Qed.

Lemma books_stream_step changed now s c : keeps_books true s c (stream_step changed now s c).
Proof.
  unfold stream_step. destruct (dead c) eqn:Hd; cbn [orb]; [apply books_refl|]. destruct (negb _); [apply books_refl|].
  destruct (stream_frames_same (hub s) changed c) as [A1 A2]. set (c1 := stream_frames (hub s) changed c) in *.
  destruct (keepalive_same s now c1) as [B1 B2]. set (c2 := keepalive s now c1) in *.
  eapply books_trans; [apply (books_conn _ _ _ c2); congruence|]. case_if; [|apply books_refl].
  eapply books_trans; [|apply books_close; congruence]. by apply books_frame.
Qed.

Lemma books_timeout now s c : keeps_books true s c (timeout_step now s c).
Proof.
  unfold timeout_step. destruct (dead c) eqn:Hd; [apply books_refl|]. case_if; [by apply books_close|apply books_refl].
Qed.

(** *** A pass over all the connections *)

(** The books of the server and a list of connections, before and after. *)
Definition keeps_all (s : Server) (cs : list Conn) (r : Server * list Conn) : Prop :=
  cfg r.1 = cfg s /\ hub r.1 = hub s /\ conns r.1 = conns s /\
  streams r.1 - sumZ open_stream r.2 = streams s - sumZ open_stream cs /\
  streams r.1 <= Z.max (streams s) (maxStreams (cfg s)) /\ live r.2 <= live cs.

Lemma keeps_all_nil s : keeps_all s [] (s, []).
Proof. repeat split; cbn; auto; lia. Qed.

Lemma keeps_all_cons s c s1 c1 cs r :
  keeps_books true s c (s1, c1) -> keeps_all s1 cs r -> keeps_all s (c :: cs) (r.1, c1 :: r.2).
Proof.
  intros (A1 & A2 & A3 & A4 & A5 & A6 & _) (B1 & B2 & B3 & B4 & B5 & B6). cbn [fst snd] in *. unfold keeps_all, live in *. cbn [fst snd].
  rewrite !sumZ_cons. repeat split; try congruence; [lia|rewrite A1 in B5; lia|].
  assert ((if dead c1 then 0 else 1) <= (if dead c then 0 else 1)) by (destruct (dead c); [rewrite A6 by done; lia|by destruct (dead c1)]). lia.
Qed.

Lemma each_books f s cs : (forall s c, keeps_books true s c (f s c)) -> keeps_all s cs (each f s cs).
Proof.
  intros Hf. revert s. induction cs as [|c cs IH]; intros s; cbn [each]; [apply keeps_all_nil|].
  specialize (Hf s c). destruct (f s c) as [s1 c1]. specialize (IH s1). pose proof (keeps_all_cons _ _ _ _ _ _ Hf IH) as H.
  by destruct (each f s1 cs).
Qed.

Lemma each_io_books f ios s cs : (forall io s c, keeps_books true s c (f io s c)) -> keeps_all s cs (each_io f ios s cs).
Proof.
  intros Hf. revert s ios. induction cs as [|c cs IH]; intros s ios; cbn [each_io]; [apply keeps_all_nil|].
  specialize (Hf (default no_io (head ios)) s c). destruct (f _ s c) as [s1 c1]. specialize (IH s1 (tail ios)).
  pose proof (keeps_all_cons _ _ _ _ _ _ Hf IH) as H. by destruct (each_io f (tail ios) s1 cs).
Qed.

Record limits_ok (s : Server) : Prop := {
  lim_count : streams s = sumZ open_stream (conns s);
  lim_streams : streams s <= Z.max 0 (maxStreams (cfg s));
  lim_conns : live (conns s) <= Z.max 0 (maxConnections (cfg s));
}.

Lemma limits_all s r : limits_ok s -> keeps_all s (conns s) r -> limits_ok (r.1 <| conns := r.2 |>).
Proof.
  intros [L1 L2 L3] (A1 & _ & _ & A4 & A5 & A6). destruct r as [s1 cs1]. cbn [fst snd] in *.
  split; cbn; rewrite ?A1; lia.
Qed.

Lemma limits_for_conns f s : (forall s c, keeps_books true s c (f s c)) -> limits_ok s -> limits_ok (for_conns f s).
Proof.
  intros Hf Hs. unfold for_conns. pose proof (limits_all _ _ Hs (each_books f s (conns s) Hf)) as H.
  by destruct (each f s (conns s)).
Qed.
Lemma limits_for_conns_io f ios s : (forall io s c, keeps_books true s c (f io s c)) -> limits_ok s -> limits_ok (for_conns_io f ios s).
Proof.
  intros Hf Hs. unfold for_conns_io. pose proof (limits_all _ _ Hs (each_io_books f ios s (conns s) Hf)) as H.
  by destruct (each_io f ios s (conns s)).
Qed.

Lemma filter_dead cs :
  sumZ open_stream (filter (fun c => dead c = false) cs) = sumZ open_stream cs /\ live (filter (fun c => dead c = false) cs) = live cs.
Proof.
  unfold live. induction cs as [|c cs [IH1 IH2]]; [done|]. rewrite filter_cons. unfold open_stream in *.
  case_decide as Hd; rewrite ?sumZ_cons, ?IH1, ?IH2; [done|]. by destruct (dead c).
Qed.

(** The dead connections erased. *)
Lemma limits_sweep s n : limits_ok s -> limits_ok (s <| conns := filter (fun c => dead c = false) (conns s) |> <| connectionsActive := n |>).
Proof.
  intros [L1 L2 L3]. destruct (filter_dead (conns s)) as [F1 F2]. split; cbn; rewrite ?F1, ?F2; done.
Qed.

Lemma limits_before_poll s : limits_ok s -> limits_ok (before_poll clock s).
Proof.
  intros Hs. unfold before_poll, NowSec. destruct (Process (hub s)) as [h changed].
  apply limits_sweep, limits_for_conns; [apply books_timeout|]. apply limits_for_conns; [apply books_stream_step|].
  destruct Hs. by split.
Qed.

Lemma limits_accept s peer : limits_ok s -> limits_ok (accept_one clock s peer).
Proof.
  intros [L1 L2 L3]. unfold accept_one, NowSec. destruct (Z.leb_spec (maxConnections (cfg s)) (live (conns s))); [by split|].
  split; cbn.
  - rewrite sumZ_app, L1. exact (eq_sym (Z.add_0_r _)).
  - done.
  - unfold live in *. rewrite sumZ_app, sumZ_cons. cbn. change (sumZ _ []) with 0. lia.
Qed.

Lemma limits_pass s io : limits_ok s -> limits_ok (pass clock unix s io).1.
Proof.
  intros Hs. apply limits_before_poll in Hs. unfold pass. destruct io as [[]|ios peers]; cbn [fst]; [done|destruct Hs; by split|].
  unfold after_poll. apply (limits_for_conns_io (conn_step clock unix) ios), (limits_for_conns_io late_step ios) in Hs; [|apply books_late|apply books_conn_step].
  revert Hs. generalize (for_conns_io late_step ios (for_conns_io (conn_step clock unix) ios (before_poll clock s))).
  induction (take 64 peers) as [|p ps IH]; intros s0 H0; cbn; [done|]. by apply IH, limits_accept.
Qed.

Lemma limits_ops s os : limits_ok s -> limits_ok (run_ops clock unix s os).
Proof.
  revert s. induction os as [|o os IH]; intros s Hs; cbn; [done|]. apply IH.
  destruct o as [i|t|io]; cbn; [destruct Hs; by split..|by apply limits_pass].
Qed.

(** Claim C39.  After any sequence of accepts, reads, writes, polls, publications and ticks the stream counter is the number of open stream connections, and neither the streams nor the connections exceed their configured limits. *)
Theorem limits_hold c h start os :
  let s := run_ops clock unix (NewServer c h start) os in
  streams s = sumZ open_stream (conns s) /\ streams s <= Z.max 0 (maxStreams (cfg s)) /\
  live (conns s) <= Z.max 0 (maxConnections (cfg s)).
Proof.
  cbn zeta. assert (limits_ok (NewServer c h start)) as H0 by (split; cbn; unfold live; change (sumZ _ []) with 0; lia).
  by destruct (limits_ops _ os H0).
Qed.

(** ** The text of a stream

    [reached ring h log]: the hub after some submissions and passes, and every event it ever appended. *)

Definition reached (ring : Z) : Hub -> list StreamEvent -> Prop := reach (fun _ => True) ring.

(** The bytes of a stream that has been given every event of [log]: the head, a snapshot or the frames after the event
    the client resumed from, then all the frames appended since, with keepalives, and a snapshot in place of frames only
    when more of them were appended since the last pass than the ring holds. *)
Inductive feed (ring : Z) : list StreamEvent -> string -> Prop :=
| feed_snapshot h log : reached ring h log -> feed ring log (stream_head +s+ SnapshotFrame h)
| feed_resume log e : e ∈ log -> feed ring log (stream_head +s+ concat_s (map frame (drop (Z.to_nat (seq e)) log)))
| feed_frames log k t : feed ring log t -> feed ring (log ++ k) (t +s+ concat_s (map frame k))
| feed_resync h log k t :
    feed ring log t -> reached ring h (log ++ k) -> cap h < zlen k -> feed ring (log ++ k) (t +s+ SnapshotFrame h)
| feed_keepalive log t : feed ring log t -> feed ring log (t +s+ SseComment "keepalive").

(** What a connection was sent and is still to be sent. *)
Definition stream_bytes (c : Conn) : string := sent c +s+ sdrop (outOff c) (out c).

Definition conn_ok (ring : Z) (log : list StreamEvent) (c : Conn) : Prop :=
  dead c = false ->
  match st c with
  | Reading => sent c = EmptyString /\ out c = EmptyString /\ outOff c = 0%nat
  | Writing => True
  | Streaming => (outOff c <= String.length (out c))%nat /\ cseq c = zlen log /\ feed ring log (stream_bytes c)
  end.

Section Feed.
Context (ring : Z) (Hring : 0 <= ring).

Lemma sdrop_sdrop i k s : sdrop (i + k) s = sdrop k (sdrop i s).
Proof. revert s. induction i as [|i IH]; intros [|c s]; cbn; try done. by destruct k. Qed.
Lemma sdrop_app_le n a b : (n <= String.length a)%nat -> sdrop n (a +s+ b) = (sdrop n a +s+ b).
Proof. revert a. induction n as [|n IH]; intros [|c a] H; cbn in *; try done; [lia|]. apply IH. lia. Qed.
Lemma sdrop_all s : sdrop (String.length s) s = EmptyString.
Proof. induction s as [|c s IH]; done. Qed.

Lemma send_loop_bytes sends c :
  (outOff c <= String.length (out c))%nat ->
  let c' := (send_loop c sends).1 in
  stream_bytes c' = stream_bytes c /\ (outOff c' <= String.length (out c'))%nat /\ cseq c' = cseq c /\ st c' = st c /\ dead c' = dead c.
Proof.
  revert c. induction sends as [|[n| | |] r IH]; intros c Hc; cbn [send_loop]; destruct (Nat.ltb_spec (outOff c) (String.length (out c))); try done.
  - set (k := Nat.min (Nat.max 1 n) (unsent c)). assert (k <= unsent c)%nat as Hk by (unfold k; lia). unfold unsent in Hk.
    match goal with |- context [send_loop ?x r] => destruct (IH x) as (A1 & A2 & A3 & A4 & A5); [cbn; lia|] end.
    rewrite A1, A3, A4, A5. repeat split; try done. unfold stream_bytes. cbn. by rewrite app_assoc_s, sdrop_sdrop, stake_sdrop.
  - by apply IH.
Qed.

Lemma flush_bytes sends c :
  (outOff c <= String.length (out c))%nat ->
  let c' := (flush c sends).1 in
  stream_bytes c' = stream_bytes c /\ (outOff c' <= String.length (out c'))%nat /\ cseq c' = cseq c.
Proof.
  intros Hc. unfold flush. destruct (send_loop_bytes sends c Hc) as (A1 & A2 & A3 & _). destruct (send_loop c sends) as [c' ok]. cbn [fst] in *.
  destruct ok; cbn [negb]; [|done]. destruct (Nat.leb_spec (String.length (out c')) (outOff c')) as [Hl|Hl].
  - cbn. repeat split; try done. rewrite <- A1. unfold stream_bytes. cbn.
    replace (outOff c') with (String.length (out c')) by lia. by rewrite sdrop_all.
  - destruct (65536 <? Z.of_nat (outOff c')); cbn; [|done]. split; [by rewrite <- A1|]. split; [lia|done].
Qed.

Lemma feed_ext log k : feed ring log k -> forall k', k = k' -> feed ring log k'.
Proof. by intros ? ? <-. Qed.

(** A dead connection, or one whose bytes and place are unchanged. *)
Lemma conn_ok_dead log c : dead c = true -> conn_ok ring log c.
Proof. intros H ?. congruence. Qed.
Lemma conn_ok_flush log c sends : conn_ok ring log c -> st c <> Reading -> conn_ok ring log (flush c sends).1.
Proof.
  intros Hc Hr Hd. destruct (flush_same c sends) as [H1 H2]. rewrite H2. rewrite H1 in Hd. specialize (Hc Hd).
  destruct (st c) eqn:E; [done|done|]. destruct Hc as (Ho & Hs & Hf). destruct (flush_bytes sends c Ho) as (A1 & A2 & A3).
  by rewrite A3, A1.
Qed.

Lemma conn_ok_respond log s c code ct bd hd ex : conn_ok ring log (respond s c code ct bd hd ex).2.
Proof. by intros _. Qed.

Lemma resume_frames_log h log id frames :
  hub_inv ring h log -> resume_frames h id = Some frames ->
  exists e, e ∈ log /\ frames = concat_s (map frame (drop (Z.to_nat (seq e)) log)).
Proof.
  intros Hi. unfold resume_frames. case_if; [|done]. unfold SeqForRev.
  destruct (head (filter _ (events h))) as [e|] eqn:E; cbn; [|done]. intros Hf.
  assert (e ∈ events h) as He.
  { destruct (filter _ (events h)) as [|x l] eqn:F; [done|]. cbn in E. simplify_eq.
    assert (e ∈ filter (fun e => ev_rev e = strtoull id) (events h)) as Hx by (rewrite F; left). by apply list_elem_of_filter in Hx as [_ ?]. }
  rewrite (inv_events _ _ _ Hi) in He. apply list_elem_of_lookup in He as [j Hj]. rewrite lookup_drop in Hj.
  pose proof (inv_numbered _ _ _ Hi _ _ Hj) as Hs. exists e. split; [by eapply list_elem_of_lookup_2|].
  pose proof (frames_after_log _ _ _ (seq e) Hi ltac:(lia)) as Hl. by rewrite Hf in Hl.
Qed.

Lemma conn_ok_stream log s c req hd :
  reached ring (hub s) log -> conn_ok ring log c -> st c = Reading -> dead c = false ->
  conn_ok ring log (handle_stream clock s c req hd).2.
Proof.
  intros Hr Hc Hst Hd. specialize (Hc Hd). rewrite Hst in Hc. destruct Hc as (Hsent & _ & _). unfold handle_stream, NowSec. destruct hd; [done|].
  destruct (_ <=? _); [apply conn_ok_respond|]. pose proof (reach_inv _ _ _ _ Hring Hr) as Hi.
  cbn. destruct (resume_frames (hub s) (last_event_id req)) as [frames|] eqn:E; intros _; cbn.
  - apply (resume_frames_log _ _ _ _ Hi) in E as (e & He & ->). split; [lia|]. split; [apply Hi|].
    unfold stream_bytes. cbn. rewrite Hsent. by apply (feed_resume ring log e).
  - split; [lia|]. split; [apply Hi|]. unfold stream_bytes. cbn. rewrite Hsent. by apply (feed_snapshot ring (hub s)).
Qed.

Lemma conn_ok_handle log s c req :
  reached ring (hub s) log -> conn_ok ring log c -> st c = Reading -> dead c = false -> conn_ok ring log (handle s c req).2.
Proof.
  intros Hr Hc Hst Hd. unfold Srv.handle, handle_private, handle_selftest, NowSec, metricsBody.
  destruct (negb (method req =s "GET") && negb (method req =s "HEAD")); [apply conn_ok_respond|].
  destruct (Allow _ _ _) as [l allowed]. destruct allowed; cbn [negb]; [|apply conn_ok_respond]. destruct (health _) as [ok reason].
  repeat first [apply conn_ok_respond
    | match goal with
      | |- conn_ok _ _ (if ?x then _ else _).2 => destruct x
      | |- conn_ok _ _ (match ?x with Some _ => _ | None => _ end).2 => destruct x
      end].
  by apply conn_ok_stream.
Qed.

Lemma conn_ok_close log s c : conn_ok ring log (closeConn s c).2.
Proof. by apply conn_ok_dead. Qed.

Lemma conn_ok_inb log c b : conn_ok ring log c -> conn_ok ring log (c <| inb := b |>).
Proof. done. Qed.

Lemma conn_ok_serve log s c :
  reached ring (hub s) log -> conn_ok ring log c -> dead c = false -> conn_ok ring log (serve clock unix s c).2.
Proof.
  intros Hr Hc Hd. unfold serve. case_bool_decide as Hst; [|done].
  assert (forall r : Server * Conn, conn_ok ring log r.2 ->
    conn_ok ring log (let '(s0, c0) := r in (s0, if bool_decide (st c0 = Reading) then c0 else c0 <| inb := EmptyString |>)).2) as Hk.
  { intros [s0 c0] H. cbn. case_bool_decide; done. }
  apply Hk. destruct (ParseRequest _ _) as [[] [req|]]; try done; try apply conn_ok_respond. by apply conn_ok_handle.
Qed.

Lemma conn_ok_input log io s c :
  reached ring (hub s) log -> conn_ok ring log c -> dead c = false -> conn_ok ring log (input_step clock unix io s c).2.
Proof.
  intros Hr Hc Hd. unfold input_step. destruct (recv_loop _ _ _ _) as [[buf eof] failed]. destruct failed; [apply conn_ok_close|].
  match goal with |- context [serve clock unix s ?x] => pose proof (conn_ok_serve log s x Hr Hc Hd) as Hs; destruct (serve clock unix s x) as [s1 c1] end.
  case_if; [apply conn_ok_close|done].
Qed.

(** A reading connection has nothing to flush. *)
Lemma conn_ok_reading log c : conn_ok ring log c -> dead c = false -> (outOff c < String.length (out c))%nat -> st c <> Reading.
Proof. intros Hc Hd Hl Hst. specialize (Hc Hd). rewrite Hst in Hc. destruct Hc as (_ & Ho & _). rewrite Ho in Hl. cbn in Hl. lia. Qed.

Lemma conn_ok_output log io s c : conn_ok ring log c -> conn_ok ring log (output_step io s c).2.
Proof.
  intros Hc. unfold output_step. destruct (dead c) eqn:Hd; [done|].
  destruct (Nat.ltb_spec (outOff c) (String.length (out c))) as [Hl|Hl].
  - pose proof (conn_ok_flush log c (sends io) Hc (conn_ok_reading _ _ Hc Hd Hl)) as Hf.
    destruct (flush c (sends io)) as [c' ok]. destruct ok; cbn [negb]; [|apply conn_ok_close]. case_if; [apply conn_ok_close|done].
  - cbn [negb]. case_if; [apply conn_ok_close|done].
Qed.

Lemma conn_ok_step log io s c : reached ring (hub s) log -> conn_ok ring log c -> conn_ok ring log (conn_step clock unix io s c).2.
Proof.
  intros Hr Hc. unfold conn_step. destruct (dead c) eqn:Hd; cbn [orb]; [done|]. destruct (negb _); [done|].
  destruct (re_err io); [apply conn_ok_close|]. destruct (re_in io); [|by apply conn_ok_output].
  pose proof (conn_ok_input log io s c Hr Hc Hd) as Hi. destruct (input_step clock unix io s c) as [s1 c1]. by apply conn_ok_output.
Qed.

Lemma conn_ok_late log io s c : conn_ok ring log c -> conn_ok ring log (late_step io s c).2.
Proof.
  intros Hc. unfold late_step. destruct (dead c) eqn:Hd; cbn [orb]; [done|]. case_if; [done|].
  assert (st c <> Reading) as Hs by (intros E; rewrite E in *; done).
  pose proof (conn_ok_flush log c (late_sends io) Hc Hs) as Hf. destruct (flush c (late_sends io)) as [c' ok].
  destruct ok; [done|apply conn_ok_close].
Qed.

Lemma conn_ok_timeout log now s c : conn_ok ring log c -> conn_ok ring log (timeout_step now s c).2.
Proof. intros Hc. unfold timeout_step. case_if; [done|]. case_if; [apply conn_ok_close|done]. Qed.

(** The pick-up of new inputs: no event is appended unless [Process] says so. *)
Lemma Process_unchanged h : (Process h).2 = false -> emitted h = [].
Proof.
  unfold Process, emitted. destruct (pending h) as [i|]; [|done]. cbn [cur set_pending]. destruct (cur h) as [c|]; [|done].
  rewrite <- process_state_eq. set (h0 := set_pending h None (submissions h)).
  assert (forall h1, (process_status h1 c i).2 = false -> status_event h1 c i = None) as H2.
  { intros h1. unfold process_status, status_event. by destruct (sempty _). }
  assert ((process_state h0 c i).2 = false -> state_event h0 c i = None) as H1.
  { unfold process_state, state_event. case_if; [done|]. by destruct (MergeDiff _ _). }
  destruct (process_state h0 c i) as [h1 a1]. cbn in H1. destruct (process_status h1 c i) as [h2 a2] eqn:E.
  cbn. intros [H3 H4]%orb_false_elim. specialize (H2 h1). rewrite E in H2. cbn in H2. by rewrite H1, H2.
Qed.

(** The frames a stream is given after the events [k] were appended. *)
Lemma stream_frames_ok log k h changed c :
  reached ring h (log ++ k) -> (changed = false -> k = []) -> st c = Streaming -> dead c = false ->
  conn_ok ring log c -> conn_ok ring (log ++ k) (stream_frames h changed c).
Proof.
  intros Hr Hk Hst Hd Hc _. specialize (Hc Hd). rewrite Hst in Hc. destruct Hc as (Ho & Hs & Hf).
  pose proof (reach_inv _ _ _ _ Hring Hr) as Hi. pose proof (inv_last _ _ _ Hi) as Hl. rewrite zlen_app in Hl.
  pose proof (zlen_nonneg log). unfold stream_frames. rewrite Hs, Hl.
  destruct (changed && (zlen log <? zlen log + zlen k)) eqn:E.
  - cbn. rewrite Hst, length_app_s, zlen_app. split; [lia|]. split; [done|]. unfold stream_bytes. cbn. rewrite sdrop_app_le, <- app_assoc_s by done.
    pose proof (frames_after_log _ _ _ (zlen log) Hi ltac:(lia)) as Hfr. replace (Z.to_nat (zlen log)) with (length log) in Hfr by (unfold zlen; lia).
    destruct (FramesAfter h (zlen log)) as [fr|].
    + rewrite drop_app_length in Hfr. subst fr. by apply feed_frames.
    + apply feed_resync; [done|done|]. rewrite zlen_app in Hfr. lia.
  - assert (k = []) as ->.
    { destruct changed; [|by apply Hk]. cbn in E. destruct k; [done|]. rewrite zlen_cons in E. pose proof (zlen_nonneg k).
      destruct (Z.ltb_spec (zlen log) (zlen log + (1 + zlen k))); [done|lia]. }
    rewrite app_nil_r. rewrite Hst. done.
Qed.

Lemma keepalive_ok log s now c : conn_ok ring log c -> st c = Streaming -> conn_ok ring log (keepalive s now c).
Proof.
  intros Hc Hst. unfold keepalive. case_if; [|done]. intros Hd. cbn in Hd |- *. specialize (Hc Hd). rewrite Hst in *.
  destruct Hc as (Ho & Hs & Hf). rewrite length_app_s. split; [lia|]. split; [done|]. unfold stream_bytes. cbn.
  rewrite sdrop_app_le, <- app_assoc_s by done. by apply feed_keepalive.
Qed.

Lemma conn_ok_stream_step log k changed now s c :
  reached ring (hub s) (log ++ k) -> (changed = false -> k = []) -> conn_ok ring log c ->
  conn_ok ring (log ++ k) (stream_step changed now s c).2.
Proof.
  intros Hr Hk Hc. unfold stream_step. destruct (dead c) eqn:Hd; cbn [orb]; [by apply conn_ok_dead|].
  destruct (bool_decide_reflect (st c = Streaming)) as [Hst|Hst]; cbn [negb].
  - destruct (stream_frames_same (hub s) changed c) as [_ A]. case_if; [apply conn_ok_close|]. cbn.
    apply keepalive_ok; [by apply stream_frames_ok|congruence].
  - intros _. specialize (Hc Hd). cbn. by destruct (st c).
Qed.

(** *** All the connections *)

Lemma each_feed log log' f s cs :
  (forall s c, keeps_books true s c (f s c)) ->
  (forall s c, reached ring (hub s) log' -> conn_ok ring log c -> conn_ok ring log' (f s c).2) ->
  reached ring (hub s) log' -> Forall (conn_ok ring log) cs -> Forall (conn_ok ring log') (each f s cs).2.
Proof.
  intros Hb Hf. revert s. induction cs as [|c cs IH]; intros s Hr Hcs; cbn [each]; [constructor|].
  apply Forall_cons in Hcs as [Hc Hcs]. specialize (Hb s c) as Hbc. specialize (Hf s c Hr Hc). destruct (f s c) as [s1 c1].
  destruct Hbc as (_ & Hh & _). cbn in Hh, Hf. specialize (IH s1 ltac:(by rewrite Hh) Hcs). destruct (each f s1 cs). by constructor.
Qed.

Lemma each_io_feed log f ios s cs :
  (forall io s c, keeps_books true s c (f io s c)) ->
  (forall io s c, reached ring (hub s) log -> conn_ok ring log c -> conn_ok ring log (f io s c).2) ->
  reached ring (hub s) log -> Forall (conn_ok ring log) cs -> Forall (conn_ok ring log) (each_io f ios s cs).2.
Proof.
  intros Hb Hf. revert s ios. induction cs as [|c cs IH]; intros s ios Hr Hcs; cbn [each_io]; [constructor|].
  apply Forall_cons in Hcs as [Hc Hcs]. specialize (Hb (default no_io (head ios)) s c) as Hbc.
  specialize (Hf (default no_io (head ios)) s c Hr Hc). destruct (f _ s c) as [s1 c1].
  destruct Hbc as (_ & Hh & _). cbn in Hh, Hf. specialize (IH s1 (tail ios) ltac:(by rewrite Hh) Hcs).
  destruct (each_io f (tail ios) s1 cs). by constructor.
Qed.

(** The hub's events and every stream's text agree. *)
Definition feeds_ok (s : Server) (log : list StreamEvent) : Prop := reached ring (hub s) log /\ Forall (conn_ok ring log) (conns s).

Lemma feeds_for_conns log log' f s :
  (forall s c, keeps_books true s c (f s c)) ->
  (forall s c, reached ring (hub s) log' -> conn_ok ring log c -> conn_ok ring log' (f s c).2) ->
  reached ring (hub s) log' -> Forall (conn_ok ring log) (conns s) -> feeds_ok (for_conns f s) log'.
Proof.
  intros Hb Hf Hr Hcs. unfold for_conns. pose proof (each_feed log log' f s (conns s) Hb Hf Hr Hcs) as H.
  destruct (each_books f s (conns s) Hb) as (_ & Hh & _). destruct (each f s (conns s)) as [s1 cs1]. split; cbn in *; [by rewrite Hh|done].
Qed.

Lemma feeds_for_conns_io log f ios s :
  (forall io s c, keeps_books true s c (f io s c)) ->
  (forall io s c, reached ring (hub s) log -> conn_ok ring log c -> conn_ok ring log (f io s c).2) ->
  feeds_ok s log -> feeds_ok (for_conns_io f ios s) log.
Proof.
  intros Hb Hf [Hr Hcs]. unfold for_conns_io. pose proof (each_io_feed log f ios s (conns s) Hb Hf Hr Hcs) as H.
  destruct (each_io_books f ios s (conns s) Hb) as (_ & Hh & _). destruct (each_io f ios s (conns s)) as [s1 cs1].
  split; cbn in *; [by rewrite Hh|done].
Qed.

Lemma feeds_accept log s peer : feeds_ok s log -> feeds_ok (accept_one clock s peer) log.
Proof.
  intros [Hr Hcs]. unfold accept_one, NowSec. case_if; [by split|]. split; [done|]. cbn. apply Forall_app. split; [done|].
  constructor; [by intros _|constructor].
Qed.

Lemma feeds_before_poll log s : feeds_ok s log -> feeds_ok (before_poll clock s) (log ++ emitted (hub s)).
Proof.
  intros [Hr Hcs]. pose proof (Process_unchanged (hub s)) as Hk. pose proof (run_process _ _ _ _ _ Hr) as Hr'.
  unfold before_poll, NowSec. destruct (Process (hub s)) as [h changed]. cbn in Hk, Hr'.
  set (f1 := stream_step changed _). set (f2 := timeout_step _). set (s0 := set ticks _ _).
  assert (feeds_ok (for_conns f1 s0) (log ++ emitted (hub s))) as [A1 A2].
  { apply (feeds_for_conns log); [apply books_stream_step| |done|done]. intros s1 c1 H1 H2. by apply conn_ok_stream_step. }
  assert (feeds_ok (for_conns f2 (for_conns f1 s0)) (log ++ emitted (hub s))) as [B1 B2].
  { apply (feeds_for_conns (log ++ emitted (hub s))); [apply books_timeout| |done|done]. intros. by apply conn_ok_timeout. }
  split; cbn; [done|]. rewrite Forall_forall in B2 |- *. intros x [_ Hx]%list_elem_of_filter. by apply B2.
Qed.

Lemma feeds_pass log s io : feeds_ok s log -> feeds_ok (pass clock unix s io).1 (log ++ emitted (hub s)).
Proof.
  intros Hs. apply feeds_before_poll in Hs. unfold pass. set (log' := log ++ emitted (hub s)) in *. revert Hs.
  generalize (before_poll clock s). intros s1 Hs.
  destruct io as [[]|ios peers]; cbn [fst]; [done|done|]. unfold after_poll.
  assert (feeds_ok (for_conns_io late_step ios (for_conns_io (conn_step clock unix) ios s1)) log') as H2.
  { apply feeds_for_conns_io; [apply books_late|intros; by apply conn_ok_late|].
    apply feeds_for_conns_io; [apply books_conn_step|intros; by apply conn_ok_step|done]. }
  revert H2. generalize (for_conns_io late_step ios (for_conns_io (conn_step clock unix) ios s1)).
  induction (take 64 peers) as [|p ps IH]; intros s0 H0; cbn; [done|]. by apply IH, feeds_accept.
Qed.

Lemma feeds_ops log s os : feeds_ok s log -> exists log', feeds_ok (run_ops clock unix s os) log'.
Proof.
  revert log s. induction os as [|o os IH]; intros log s Hs; cbn; [by exists log|].
  destruct o as [i|t|io]; cbn.
  - apply (IH log). destruct Hs as [Hr Hcs]. split; [|done]. by apply run_submit.
  - apply (IH log). destruct Hs as [Hr Hcs]. by split.
  - eapply IH, feeds_pass, Hs.
Qed.

End Feed.
(** Every live stream connection has been sent, after its head, exactly the text of a valid resume of the hub's log: a snapshot or the events behind the client's last id, then every later event once and in order, with keep-alive comments between them; its cursor is the end of the log. *)
Theorem stream_text ring c start os : 0 <= ring ->
  let s := run_ops clock unix (NewServer c (NewHub ring) start) os in
  exists log, reached ring (hub s) log /\
    forall k, k ∈ conns s -> dead k = false -> st k = Streaming -> cseq k = zlen log /\ feed ring log (stream_bytes k).
Proof.
  intros Hring. cbn zeta. assert (feeds_ok ring (NewServer c (NewHub ring) start) []) as H0 by (split; [apply run_here|constructor]).
  destruct (feeds_ops ring Hring [] _ os H0) as (log & Hr & Hcs). exists log. split; [done|]. intros k Hk Hd Hst.
  rewrite Forall_forall in Hcs. specialize (Hcs k Hk Hd). rewrite Hst in Hcs. tauto.
Qed.

End Facts.
(** ** A server with one stream *)

Definition sample_config : ServerConfig := {|
  bind_addr := "0.0.0.0"; token := "0123456789abcdef"; metrics := true; trustLoopback := true; maxConnections := 16;
  maxStreams := 8; maxHeaderBytes := 8192; readTimeoutMs := 5000; writeTimeoutMs := 10000; streamMaxBuffered := 262144;
  keepaliveMs := 15000; ratePerSec := of_int 5; rateBurst := of_int 20; selftestTriggerMinIntervalMs := 30000; requestSelftest := true |}.

(** Both clocks stand still. *)
Definition still (n : nat) : double := d0.
Definition epoch (n : nat) : Z := 1700000000000.

Definition get (path : string) : string := "GET " +s+ path +s+ " HTTP/1.0" +s+ crlf2.
Definition receives (b : string) (n : nat) : ConnIO := {| re_err := false; re_in := true; re_out := false; recvs := [Got b]; sends := [Took n]; late_sends := [] |}.
Definition hangs_up : ConnIO := {| re_err := false; re_in := true; re_out := false; recvs := [RecvEof]; sends := []; late_sends := [] |}.

(** A local client opens a stream, the score changes, and the client reads 100 bytes. *)
Definition stream_ops : list Op :=
  [GameSubmit (Some (input_with 0)); LoopPass (PollReady [] [(7, "127.0.0.1")]); LoopPass (PollReady [receives (get "/stream") 100] []);
   GameSubmit (Some (input_with 1)); LoopPass (PollReady [receives EmptyString 1000] [])].
Definition stream_server : Server := run_ops still epoch (NewServer sample_config (NewHub 4) d0) stream_ops.

Lemma stream_text_witness :
  (exists k, conns stream_server = [k] /\ dead k = false /\ st k = Streaming /\
             sent k = stream_head +s+ SnapshotFrame hub_one +s+ SseFrame "patch" "2" (qs "{`rev`:2,`patch`:{`score`:{`team1`:1}}}")) /\
  exists log, reached 4 (hub stream_server) log /\
    forall k, k ∈ conns stream_server -> dead k = false -> st k = Streaming -> cseq k = zlen log /\ feed 4 log (stream_bytes k).
Proof.
  split; [eexists; split; [vm_compute; reflexivity|]; vm_compute; auto|].
  apply (stream_text still epoch 4 sample_config d0 stream_ops). lia.
Defined.

(** The client hangs up in the last pass before the loop ends. *)
Definition closing_server : Server := run_ops still epoch stream_server [LoopPass (PollReady [hangs_up] [])].

(** The connections that died in the last pass are still in the vector when [Run] closes them all: their streams are
    subtracted a second time. *)
Lemma leave_counts_twice : streams closing_server = 0 /\ streams (leave closing_server) = -1.
Proof. split; vm_compute; reflexivity. Qed.

(** A request from another host without the token. *)
Definition outside : Conn := {|
  fd := 9; ip := "203.0.113.5"; loopback := false; st := Reading; inb := EmptyString; out := EmptyString; outOff := 0;
  deadline := d0; lastKeepalive := d0; cseq := 0; dead := false; sent := EmptyString |}.
Definition status_request : HttpRequest := {|
  method := "GET"; target := "/status"; path := "/status"; query := EmptyString; version := "HTTP/1.1"; headers := [("host", "cs")]; headerBytes := 0 |}.

Lemma unauthorized_learns_nothing_witness :
  StatusBody (hub stream_server) 0 0 <> StatusBody hub_one 0 0 /\ ~ may_read (cfg stream_server) (Srv.ip outside) status_request /\
  handle still epoch (with_hub stream_server hub_one) outside status_request =
  rehub hub_one (handle still epoch stream_server outside status_request).
Proof.
  split; [vm_compute; discriminate|].
  destruct (unauthorized_learns_nothing still epoch stream_server hub_one outside status_request) as [Hiff Hsame]; [reflexivity|].
  assert (~ may_read (cfg stream_server) (Srv.ip outside) status_request) as Hn by (intros H; apply Hiff in H; vm_compute in H; discriminate).
  split; [exact Hn|]. apply Hsame; [exact Hn|vm_compute; reflexivity].
Defined.
(** The same request with the token, and from the loopback. *)
Example who_may_read :
  let with_token := {| method := "GET"; target := "/status"; path := "/status"; query := EmptyString; version := "HTTP/1.1";
                       headers := [("authorization", "BEARER 0123456789abcdef ")]; headerBytes := 0 |} in
  (authorized stream_server outside with_token, authorized stream_server outside status_request,
   authorized stream_server (outside <| Srv.ip := "127.0.0.1" |> <| loopback := true |>) status_request) = (true, false, true).
Proof. vm_compute. reflexivity. Qed.

Lemma start_needs_token_witness :
  Start sample_config 8080 (Some "0.0.0.0") true true true true = None /\
  exists peer, Some "0.0.0.0" = Some peer /\ (IsLoopbackAddress peer = true \/ 16 <= slen (token sample_config)).
Proof. split; [reflexivity|]. apply (start_needs_token sample_config 8080 _ true true true true). reflexivity. Defined.

(** A stream may be resumed after a [status] event, which carries no revision: [Last-Event-ID: 0] names the first one
    in the ring. *)
Definition hub_status : Hub := (Process (Submit hub_two (Some ((fun i => {|
  hostname := hostname i; server_id := server_id i; game_port := game_port i; versions := versions i; selftest := selftest i;
  platform := platform i; summary := summary i; state := state i; update_safe := false; healthy := healthy i;
  unhealthy_reason := EmptyString; selftest_report := EmptyString; gauges := [] |}) (input_with 1))))).1.

Lemma resume_zero : resume_frames hub_status "0" = Some EmptyString /\ resume_frames hub_status "9" = None.
Proof. split; vm_compute; reflexivity. Qed.

End SrvFacts.
