(* ===== verification/Numerics.v ===== *)
(** * Single precision, stable sorting, the order of doubles

    A [float] as binary32; [std::stable_sort] as an insertion sort that keeps equal elements in order, sorted for
    every comparison that is an
    order on the elements at hand; and the comparison of doubles as a lexicographic order of integers, which makes
    orders that rank by times and ratios linear arithmetic. *)

From S2P Require Import Prelude CStr Double.

(** ** Single precision *)

Definition f32 (x : double) : double :=
  match x with S754_finite s m e => binary_normalize 24 128 (if s then Zneg m else Zpos m) e s | _ => x end.
Definition fadd : double -> double -> double := SFadd 24 128.
Definition fsub : double -> double -> double := SFsub 24 128.
Definition fmul : double -> double -> double := SFmul 24 128.
Definition f32_int (z : Z) : double := f32 (of_int z).

(** [std::stable_sort]. *)
Fixpoint insert_stable {A} (lt : A -> A -> bool) (x : A) (l : list A) : list A :=
  match l with
  | [] => [x]
  | y :: l' => if lt y x then y :: insert_stable lt x l' else x :: l
  end.
Definition stable_sort {A} (lt : A -> A -> bool) (l : list A) : list A := foldr (insert_stable lt) [] l.

(** ** A stable sort is sorted *)

Section StableSort.
Context {A : Type} (lt : A -> A -> bool).

Lemma insert_stable_perm x l : insert_stable lt x l ≡ₚ x :: l.
Proof. induction l as [|y l IH]; cbn; [done|]. case_if; [|done]. rewrite IH. constructor. Qed.

Lemma stable_sort_perm l : stable_sort lt l ≡ₚ l.
Proof. unfold stable_sort. induction l as [|x l IH]; cbn; [done|]. by rewrite insert_stable_perm, IH. Qed.

(** Nothing stands before something smaller; the order need only be one on the elements there are. *)
Definition in_order (x y : A) : Prop := lt y x = false.
Context (P : A -> Prop) (lt_asym : forall x y, P x -> P y -> lt x y = true -> lt y x = false)
  (lt_trans : forall x y z, P x -> P y -> P z -> lt y x = false -> lt z y = false -> lt z x = false).

Lemma insert_stable_sorted x l : P x -> Forall P l -> StronglySorted in_order l -> StronglySorted in_order (insert_stable lt x l).
Proof.
  unfold in_order. intros Hx. induction l as [|y l IH]; intros Hl Hs; cbn; [repeat constructor|].
  apply Forall_cons in Hl as [Py Pl]. inversion Hs as [|? ? Hs' Hy]; subst. destruct (lt y x) eqn:E.
  - constructor; [by apply IH|]. rewrite insert_stable_perm. constructor; [by apply lt_asym|done].
  - constructor; [done|]. constructor; [done|]. rewrite Forall_forall in *. intros z Hz. apply (lt_trans x y z); auto.
Qed.

Lemma stable_sort_sorted l : Forall P l -> StronglySorted in_order (stable_sort lt l).
Proof.
  induction l as [|x l IH]; intros Hl; cbn; [constructor|]. apply Forall_cons in Hl as [Px Pl].
  apply insert_stable_sorted; [done| |by apply IH]. change (Forall P (stable_sort lt l)). by rewrite stable_sort_perm.
Qed.

End StableSort.

(** *** Stability

    The elements that compare equal to [x] keep their order. *)
Lemma stable_sort_filter {A} (lt : A -> A -> bool) (Q : A -> Prop) `{forall y, Decision (Q y)} l :
  (forall x y, Q x -> Q y -> lt y x = false) -> filter Q (stable_sort lt l) = filter Q l.
Proof.
  intros HQ. unfold stable_sort. induction l as [|x l IH]; cbn [foldr]; [done|].
  set (s := foldr _ _ l) in *. clearbody s.
  assert (filter Q (insert_stable lt x s) = filter Q (x :: s)) as ->.
  { clear IH. induction s as [|y s IHs]; cbn [insert_stable]; [done|]. destruct (lt y x) eqn:E; [|done].
    rewrite (filter_cons Q y (insert_stable lt x s)), IHs, !filter_cons.
    destruct (decide (Q y)) as [Hy|Hy]; [|done]. destruct (decide (Q x)) as [Hx|Hx]; [|done]. rewrite (HQ x y Hx Hy) in E. done. }
  by rewrite !filter_cons, IH.
Qed.

(** A double that is a number, as a triple that is ordered lexicographically. *)
Definition dkey (x : double) : Z * Z * Z :=
  match x with
  | S754_infinity true => (-2, 0, 0)
  | S754_finite true m e => (-1, - e, Zneg m)
  | S754_zero _ | S754_nan => (0, 0, 0)
  | S754_finite false m e => (1, e, Zpos m)
  | S754_infinity false => (2, 0, 0)
  end.
Definition lex_lt (a b : Z * Z * Z) : Prop :=
  a.1.1 < b.1.1 \/ (a.1.1 = b.1.1 /\ (a.1.2 < b.1.2 \/ (a.1.2 = b.1.2 /\ a.2 < b.2))).

Lemma dltb_key x y : dnan x = false -> dnan y = false -> (x <d y) = true <-> lex_lt (dkey x) (dkey y).
Proof.
  intros Hx Hy. unfold lex_lt, dltb, SFltb, SFcompare. destruct x as [sx|sx| |sx mx ex], y as [sy|sy| |sy my ey]; try done;
    destruct sx, sy; cbn; try (split; [done|lia]); try (split; [intros _; lia|done]).
  all: destruct (Z.compare_spec ex ey); cbn; try (split; [done|lia]); try (split; [intros _; lia|done]).
  all: fold (Pos.compare mx my); destruct (Pos.compare_spec mx my); cbn; try (split; [done|lia]); try (split; [intros _; lia|done]).
Qed.

Lemma deqb_key x y : dnan x = false -> dnan y = false -> (x =d y) = true <-> dkey x = dkey y.
Proof.
  intros Hx Hy. unfold deqb, SFeqb, SFcompare. destruct x as [sx|sx| |sx mx ex], y as [sy|sy| |sy my ey]; try done;
    destruct sx, sy; cbn; try (split; [done|intros E; inversion E]); try done.
  all: destruct (Z.compare_spec ex ey); cbn; try (split; [done|intros E; inversion E; lia]).
  all: fold (Pos.compare mx my); destruct (Pos.compare_spec mx my); cbn; subst; try (split; [done|intros E; inversion E; lia]); done.
Qed.

Definition same_key (a b : Z * Z * Z) : Prop := a.1.1 = b.1.1 /\ a.1.2 = b.1.2 /\ a.2 = b.2.

Lemma same_key_eq a b : a = b <-> same_key a b.
Proof. unfold same_key. destruct a as [[a1 a2] a3], b as [[b1 b2] b3]; cbn. split; [by intros [= -> -> ->]|by intros (-> & -> & ->)]. Qed.

