(* ===== verification/Deathmatch.v ===== *)
(** * Deathmatch: settings, commands, scores, the end of a game, the panel

    [src/plugins/deathmatch/dm_rules.h] and [.cpp], the rules of the deathmatch plugin without the engine.  The translation
    function [Tr] and the configuration lookup are parameters, as in the source. *)

From S2P Require Import Prelude CStr Double Numerics.

Module Dm.

Inductive Mode := Off | Ffa | Tdm.
#[export] Instance Mode_eq_dec : EqDecision Mode.
Proof. solve_decision. Defined.
Definition is_tdm (m : Mode) : bool := bool_decide (m = Tdm).

Definition trim_char (c : ascii) : bool :=
  Ascii.eqb c " "%char || Ascii.eqb c tab || Ascii.eqb c creturn || Ascii.eqb c newline || Ascii.eqb c dquote.
Definition Trim : string -> string := strip trim_char.

Definition ParseInt (v : string) (lo hi : Z) : option Z :=
  match scan_int (Trim v) with
  | Some (n, EmptyString) => if (n <? lo) || (hi <? n) then None else Some n
  | _ => None
  end.

Definition one_of (t : string) (l : list string) : bool := existsb (fun x => t =s x) l.
Definition ParseBoolValue (v : string) : option bool :=
  let t := lower (Trim v) in
  if one_of t ["1"; "true"; "yes"; "on"] then Some true
  else if one_of t ["0"; "false"; "no"; "off"] then Some false
  else None.

Definition ModeName (m : Mode) : string := match m with Ffa => "ffa" | Tdm => "tdm" | Off => "off" end.
Definition ModeKey (m : Mode) : string := if is_tdm m then "mode.tdm" else "mode.ffa".
Definition ParseMode (s : string) : option Mode :=
  let l := lower s in
  if (l =s "ffa") || (l =s "dm") then Some Ffa else if l =s "tdm" then Some Tdm else None.

(** ** Settings *)

Record Settings := {
  killLimitFfa : Z;
  killLimitTdm : Z;
  timeLimitMinutes : Z;
  spawnProtectionSeconds : Z;
  headshotOnly : bool;
  hud : bool;
  hudIntervalMs : Z;
  endDelaySeconds : Z;
  restartReloadsMap : bool;
  weaponRounds : list string;
  weaponRoundEveryMinutes : Z;
  weaponRoundSeconds : Z;
  weaponRoundRestrictBuy : bool;
  restoreGameType : Z;
  restoreGameMode : Z;
}.

(** [weapon_[a-z0-9_]+]. *)
Definition weapon_char (c : ascii) : bool := islower c || isdigit c || Ascii.eqb c "_"%char.
Definition ValidWeapon (w : string) : bool := (7 <? slen w) && (slen w <=? 40) && starts_with "weapon_" w && sforall weapon_char w.

Section Load.
Context (get : string -> option string).

Definition warning (key v : string) : string := key +s+ "=" +s+ stake 40 v +s+ " is not valid; using the default".

(** [num] and [flag]: the value of a key, or its default with a warning when the value is not valid. *)
Definition num (key : string) (lo hi dflt : Z) (w : list string) : Z * list string :=
  match get key with
  | Some v => match ParseInt v lo hi with Some n => (n, w) | None => (dflt, w ++ [warning key v]) end
  | None => (dflt, w)
  end.
Definition flag (key : string) (dflt : bool) (w : list string) : bool * list string :=
  match get key with
  | Some v => match ParseBoolValue v with Some b => (b, w) | None => (dflt, w ++ [warning key v]) end
  | None => (dflt, w)
  end.

Definition load_restart (w : list string) : bool * list string :=
  match get "restart" with
  | Some v =>
      let r := lower (Trim v) in
      if r =s "reload" then (true, w)
      else if (r =s "restartgame") || sempty r then (false, w)
      else (false, w ++ [warning "restart" v])
  | None => (false, w)
  end.

(** The items between the commas ([getline]). *)
Fixpoint items_of (s : string) : list string :=
  match s with
  | EmptyString => [EmptyString]
  | String c r =>
      if Ascii.eqb c ","%char then EmptyString :: items_of r
      else match items_of r with [] => [str1 c] | l :: ls => String c l :: ls end
  end.

Definition weapon_item (acc : list string * list string) (item : string) : list string * list string :=
  let w := lower (Trim item) in
  if sempty w then acc
  else
    let w := if starts_with "weapon_" w then w else "weapon_" +s+ w in
    if ValidWeapon w then (acc.1 ++ [w], acc.2) else (acc.1, acc.2 ++ [warning "weapon_rounds" item]).

Definition load_weapons (w : list string) : list string * list string :=
  match get "weapon_rounds" with Some v => foldl weapon_item ([], w) (items_of v) | None => ([], w) end.

(** [LoadSettings]: the settings and the warnings, in the order of the keys. *)
Definition LoadSettings : Settings * list string :=
  let '(kf, w) := num "kill_limit_ffa" 0 10000 30 [] in
  let '(kt, w) := num "kill_limit_tdm" 0 100000 100 w in
  let '(tl, w) := num "time_limit_minutes" 0 600 10 w in
  let '(sp, w) := num "spawn_protection_seconds" 0 30 2 w in
  let '(ho, w) := flag "headshot_only" false w in
  let '(hu, w) := flag "hud" true w in
  let '(hi, w) := num "hud_interval_ms" 0 10000 1000 w in
  let '(ed, w) := num "end_delay_seconds" 3 120 10 w in
  let '(we, w) := num "weapon_round_every_minutes" 0 600 0 w in
  let '(ws, w) := num "weapon_round_seconds" 5 36000 60 w in
  let '(wb, w) := flag "weapon_round_restrict_buy" false w in
  let '(gt, w) := num "restore_game_type" 0 6 0 w in
  let '(gm, w) := num "restore_game_mode" 0 6 1 w in
  let '(rr, w) := load_restart w in
  let '(wr, w) := load_weapons w in
  ({| killLimitFfa := kf; killLimitTdm := kt; timeLimitMinutes := tl; spawnProtectionSeconds := sp; headshotOnly := ho;
      hud := hu; hudIntervalMs := hi; endDelaySeconds := ed; restartReloadsMap := rr; weaponRounds := wr;
      weaponRoundEveryMinutes := we; weaponRoundSeconds := ws; weaponRoundRestrictBuy := wb; restoreGameType := gt;
      restoreGameMode := gm |}, w).

End Load.

Definition KillLimit (s : Settings) (m : Mode) : Z :=
  match m with Tdm => killLimitTdm s | Ffa => killLimitFfa s | Off => 0 end.

(** ** Commands *)

Definition GameModeCommands : list string := ["game_type 1"; "game_mode 2"].

Definition IsPistol (w : string) : bool :=
  one_of w ["weapon_deagle"; "weapon_revolver"; "weapon_glock"; "weapon_hkp2000"; "weapon_usp_silencer"; "weapon_p250";
            "weapon_fiveseven"; "weapon_tec9"; "weapon_cz75a"; "weapon_elite"].

Definition no_primary : list string := [qs "mp_ct_default_primary ``"; qs "mp_t_default_primary ``"].
Definition default_pistols : list string := ["mp_ct_default_secondary weapon_hkp2000"; "mp_t_default_secondary weapon_glock"].

Definition WeaponRoundCommands (weapon : string) (restrictBuy : bool) : list string :=
  if sempty weapon || negb (ValidWeapon weapon) then no_primary ++ default_pistols ++ ["mp_buy_allow_guns 255"]
  else
    (if IsPistol weapon
     then no_primary ++ ["mp_ct_default_secondary " +s+ weapon; "mp_t_default_secondary " +s+ weapon]
     else ["mp_ct_default_primary " +s+ weapon; "mp_t_default_primary " +s+ weapon] ++ default_pistols) ++
    [if restrictBuy then "mp_buy_allow_guns 0" else "mp_buy_allow_guns 255"].

Definition bit (b : bool) : string := if b then "1" else "0".

Definition ModeCommands (m : Mode) (s : Settings) : list string :=
  ["mp_teammates_are_enemies " +s+ bit (negb (is_tdm m)); "mp_dm_teammode " +s+ bit (is_tdm m);
   "mp_respawn_immunitytime " +s+ to_string (spawnProtectionSeconds s); "mp_damage_headshot_only " +s+ bit (headshotOnly s);
   "mp_ignore_round_win_conditions 1"; "mp_roundtime 60"; "mp_timelimit 0"; "mp_maxrounds 0"; "mp_warmup_end"] ++
  WeaponRoundCommands EmptyString false.

Definition LeaveCommands (s : Settings) (withGameMode : bool) : list string :=
  ["mp_teammates_are_enemies 0"; "mp_dm_teammode 0"; "mp_damage_headshot_only 0"; "mp_ignore_round_win_conditions 0"] ++
  WeaponRoundCommands EmptyString false ++
  (if withGameMode then ["game_type " +s+ to_string (restoreGameType s); "game_mode " +s+ to_string (restoreGameMode s)] else []).

Definition weapon_labels : list (string * string) :=
  [("weapon_deagle", "Desert Eagle"); ("weapon_awp", "AWP"); ("weapon_ssg08", "SSG 08"); ("weapon_ak47", "AK-47");
   ("weapon_m4a1", "M4A4"); ("weapon_m4a1_silencer", "M4A1-S"); ("weapon_usp_silencer", "USP-S"); ("weapon_glock", "Glock-18");
   ("weapon_p250", "P250"); ("weapon_revolver", "R8 Revolver"); ("weapon_nova", "Nova"); ("weapon_mp9", "MP9");
   ("weapon_scar20", "SCAR-20"); ("weapon_g3sg1", "G3SG1"); ("weapon_negev", "Negev")].
Definition WeaponLabel (weapon : string) : string :=
  match head (filter (fun p => p.1 = weapon) weapon_labels) with
  | Some p => p.2
  | None => if starts_with "weapon_" weapon then sdrop 7 weapon else weapon
  end.

(** ** Weapon rounds *)

Record WeaponRound := { index : Z; weapon : string; secondsLeft : Z }.
Definition no_round : WeaponRound := {| index := -1; weapon := EmptyString; secondsLeft := 0 |}.

Definition period_seconds (s : Settings) : double := dmul (of_int (weaponRoundEveryMinutes s)) (of_int 60).

Definition WeaponRoundAt (s : Settings) (elapsed : double) : WeaponRound :=
  if (weaponRoundEveryMinutes s <=? 0) || bool_decide (weaponRounds s = []) || (elapsed <d of_int 0) then no_round
  else
    let period := period_seconds s in
    let secs := of_int (weaponRoundSeconds s) in
    let length := if period <d secs then period else secs in
    let k := default 0 (dfloor (ddiv elapsed period)) in
    if k <? 1 then no_round
    else
      let into := dsub elapsed (dmul (of_int k) period) in
      if length <=d into then no_round
      else
        let i := (k - 1) mod zlen (weaponRounds s) in
        {| index := i; weapon := nth (Z.to_nat i) (weaponRounds s) EmptyString;
           secondsLeft := default 0 (dceil (dsub length into)) |}.

(** ** Scores *)

Record PlayerScore := {
  id : Z;
  name : string;
  team : Z;
  kills : Z;
  deaths : Z;
  headshots : Z;
  reachedAt : double;
}.
#[export] Instance eta_PlayerScore : Eta PlayerScore := fun p =>
  Build_PlayerScore (id p) (name p) (team p) (kills p) (deaths p) (headshots p) (reachedAt p).

Definition kBotIdBase : Z := 0xB0B0000000000000.
Definition BotId (userid : Z) : Z := Z.lor kBotIdBase ((if userid <? 0 then 0 else userid) mod 2 ^ 32).

(** The players in the order they were first seen, and [teamKills_] of the two sides. *)
Record Scoreboard := { players_ : list PlayerScore; kills_t : Z; kills_ct : Z }.

Definition Reset : Scoreboard := {| players_ := []; kills_t := 0; kills_ct := 0 |}.

Definition new_player (i : Z) : PlayerScore :=
  {| id := i; name := EmptyString; team := 0; kills := 0; deaths := 0; headshots := 0; reachedAt := of_int 0 |}.

(** A change of the player [Get] returns: the first with the id, or a new one at the end. *)
Fixpoint with_player (i : Z) (f : PlayerScore -> PlayerScore) (ps : list PlayerScore) : list PlayerScore :=
  match ps with
  | [] => [f (new_player i)]
  | p :: ps => if id p =? i then f p :: ps else p :: with_player i f ps
  end.

Definition Find (b : Scoreboard) (i : Z) : option PlayerScore := head (filter (fun p => id p = i) (players_ b)).

Definition side (t : Z) : bool := (t =? 2) || (t =? 3).
Definition join_team (t : Z) (p : PlayerScore) : PlayerScore := if side t then p <| team := t |> else p.

Definition set_players (b : Scoreboard) (ps : list PlayerScore) : Scoreboard := {| players_ := ps; kills_t := kills_t b; kills_ct := kills_ct b |}.

Definition SeePlayer (b : Scoreboard) (i : Z) (nm : string) (t : Z) : Scoreboard :=
  if i =? 0 then b
  else set_players b (with_player i (fun p => join_team t (if sempty nm then p else p <| name := nm |>)) (players_ b)).

Definition note_death (victimTeam : Z) (p : PlayerScore) : PlayerScore := join_team victimTeam (p <| deaths := deaths p + 1 |>).
Definition note_kill (attackerTeam : Z) (headshot : bool) (now : double) (p : PlayerScore) : PlayerScore :=
  let p := join_team attackerTeam p in
  p <| kills := kills p + 1 |> <| headshots := headshots p + (if headshot then 1 else 0) |> <| reachedAt := now |>.

(** The kills that count: another player's, and in TDM a player of the other side. *)
Definition counts (m : Mode) (attacker attackerTeam victim victimTeam : Z) : bool :=
  negb ((attacker =? 0) || (attacker =? victim)) &&
  negb (is_tdm m && negb (side attackerTeam)) && negb (is_tdm m && (attackerTeam =? victimTeam)).

Definition OnKill (b : Scoreboard) (m : Mode) (attacker attackerTeam victim victimTeam : Z) (headshot : bool) (now : double) : Scoreboard * bool :=
  if bool_decide (m = Off) || (victim =? 0) then (b, false)
  else
    let b := set_players b (with_player victim (note_death victimTeam) (players_ b)) in
    if negb (counts m attacker attackerTeam victim victimTeam) then (b, false)
    else
      ({| players_ := with_player attacker (note_kill attackerTeam headshot now) (players_ b);
          kills_t := kills_t b + (if is_tdm m && (attackerTeam =? 2) then 1 else 0);
          kills_ct := kills_ct b + (if is_tdm m && (attackerTeam =? 3) then 1 else 0) |}, true).

(** The order of [Ranked]. *)
Definition ranks_before (x y : PlayerScore) : bool :=
  if negb (kills x =? kills y) then kills y <? kills x
  else if negb (deaths x =? deaths y) then deaths x <? deaths y
  else if (0 <? kills x) && negb (reachedAt x =d reachedAt y) then reachedAt x <d reachedAt y
  else String.ltb (name x) (name y).

Definition Ranked (b : Scoreboard) : list PlayerScore := stable_sort ranks_before (players_ b).

(** 1-based; 0 when the player is not on the board. *)
Definition RankOf (b : Scoreboard) (i : Z) : Z :=
  match list_find (fun p => id p = i) (Ranked b) with Some (n, _) => Z.of_nat n + 1 | None => 0 end.

Definition TeamKills (b : Scoreboard) (t : Z) : Z := if t =? 2 then kills_t b else if t =? 3 then kills_ct b else 0.

(** ** The stash of a plugin reload *)

Definition stash_char (c : ascii) : ascii := if Ascii.eqb c tab || Ascii.eqb c newline then " "%char else c.

Fixpoint tabbed (fields : list string) : string :=
  match fields with [] => EmptyString | [f] => f | f :: fs => f +s+ String tab (tabbed fs) end.

(** What [snprintf] leaves in the 160-byte buffer: everything of the line but the name. *)
Definition player_fields (p : PlayerScore) : string :=
  stake 159 (tabbed ["P"; to_string (id p); to_string (team p); to_string (kills p); to_string (deaths p);
                     to_string (headshots p); fmt_f 3 (reachedAt p); EmptyString]).
Definition player_text (p : PlayerScore) : string := player_fields p +s+ smap stash_char (name p).

Definition Serialize (b : Scoreboard) : string :=
  tabbed ["T"; to_string (kills_t b); to_string (kills_ct b)] +s+ str1 newline +s+
  foldr (fun p acc => player_text p +s+ str1 newline +s+ acc) EmptyString (players_ b).

(** The text cut at every [c]. *)
Fixpoint cut_at (c : ascii) (s : string) : list string :=
  match s with
  | EmptyString => [EmptyString]
  | String d r =>
      if Ascii.eqb d c then EmptyString :: cut_at c r
      else match cut_at c r with [] => [str1 d] | l :: ls => String d l :: ls end
  end.

Definition atof (s : string) : double := match scan_double s with Some (v, _) => v | None => of_int 0 end.

Definition read_line (b : Scoreboard) (line : string) : option Scoreboard :=
  if sempty line then Some b
  else
    match cut_at tab line with
    | [k; t; ct] => if k =s "T" then Some {| players_ := players_ b; kills_t := c_atoi t; kills_ct := c_atoi ct |} else None
    | [k; f1; f2; f3; f4; f5; f6; f7] =>
        if k =s "P" then
          if strtoull f1 =? 0 then None
          else Some (set_players b (players_ b ++ [{| id := strtoull f1; name := f7; team := c_atoi f2; kills := c_atoi f3;
                                                      deaths := c_atoi f4; headshots := c_atoi f5; reachedAt := atof f6 |}]))
        else None
    | _ => None
    end.

Fixpoint read_lines (b : Scoreboard) (lines : list string) : option Scoreboard :=
  match lines with [] => Some b | l :: ls => match read_line b l with Some b => read_lines b ls | None => None end end.

(** [Deserialize]: the new board; [None] leaves the old one. *)
Definition Deserialize (text : string) : option Scoreboard := read_lines Reset (cut_at newline text).

(** ** The end of a game *)

Record Outcome := {
  over : bool;
  draw : bool;
  reason : string;
  winnerName : string;
  winnerId : Z;
  winnerTeam : Z;
  winnerKills : Z;
  runnerUpKills : Z;
}.
Definition not_over : Outcome :=
  {| over := false; draw := false; reason := EmptyString; winnerName := EmptyString; winnerId := 0; winnerTeam := 0; winnerKills := 0; runnerUpKills := 0 |}.

Definition why (limitHit : bool) : string := if limitHit then "kill_limit" else "time_limit".
Definition time_up (s : Settings) (elapsed : double) : bool :=
  (0 <? timeLimitMinutes s) && (dmul (of_int (timeLimitMinutes s)) (of_int 60) <=d elapsed).

Definition end_tdm (b : Scoreboard) (limit : Z) (timeUp : bool) : Outcome :=
  let ct := TeamKills b 3 in
  let t := TeamKills b 2 in
  let limitHit := (0 <? limit) && ((limit <=? ct) || (limit <=? t)) in
  if negb limitHit && negb timeUp then not_over
  else if ct =? t then
    {| over := true; draw := true; reason := why limitHit; winnerName := EmptyString; winnerId := 0; winnerTeam := 0;
       winnerKills := Z.max ct t; runnerUpKills := Z.min ct t |}
  else
    {| over := true; draw := false; reason := why limitHit; winnerName := if t <? ct then "Counter-Terrorists" else "Terrorists";
       winnerId := 0; winnerTeam := if t <? ct then 3 else 2; winnerKills := Z.max ct t; runnerUpKills := Z.min ct t |}.

Definition or_mark (n : string) : string := if sempty n then "?" else n.

Definition end_ffa (b : Scoreboard) (limit : Z) (timeUp : bool) : Outcome :=
  let r := Ranked b in
  let top := match r with p :: _ => kills p | [] => 0 end in
  let second := match r with _ :: p :: _ => kills p | _ => 0 end in
  let limitHit := (0 <? limit) && negb (bool_decide (r = [])) && (limit <=? top) in
  if negb limitHit && negb timeUp then not_over
  else
    let o := {| over := true; draw := true; reason := why limitHit; winnerName := EmptyString; winnerId := 0; winnerTeam := 0;
                winnerKills := top; runnerUpKills := second |} in
    match r with
    | p :: rest =>
        if (kills p =? 0) || (negb limitHit && negb (bool_decide (rest = [])) && (second =? kills p)) then o
        else {| over := true; draw := false; reason := why limitHit; winnerName := or_mark (name p); winnerId := id p;
                winnerTeam := team p; winnerKills := top; runnerUpKills := second |}
    | [] => o
    end.

Definition CheckEnd (m : Mode) (b : Scoreboard) (s : Settings) (elapsed : double) : Outcome :=
  match m with
  | Off => not_over
  | Tdm => end_tdm b (KillLimit s m) (time_up s elapsed)
  | Ffa => end_ffa b (KillLimit s m) (time_up s elapsed)
  end.

(** ** The panel *)

Definition is_control (c : ascii) : bool := (code c <? 32) || (code c =? 127).
Definition is_continuation (c : ascii) : bool := Z.land (code c) 0xC0 =? 0x80.

Definition entity (c : ascii) : string :=
  if Ascii.eqb c "&"%char then "&#38;"
  else if Ascii.eqb c "<"%char then "&#60;"
  else if Ascii.eqb c ">"%char then "&#62;"
  else if Ascii.eqb c dquote then "&#34;"
  else if Ascii.eqb c "'"%char then "&#39;"
  else str1 c.

(** [HtmlEscape], with the number of characters that may still start. *)
Fixpoint HtmlEscape (s : string) (room : nat) : string :=
  match s with
  | EmptyString => EmptyString
  | String c r =>
      if is_control c then HtmlEscape r room
      else if is_continuation c then entity c +s+ HtmlEscape r room
      else match room with O => "..." | S room => entity c +s+ HtmlEscape r room end
  end.

Definition FormatClock (seconds : Z) : string :=
  let s := Z.max 0 seconds in to_string (s / 60) +s+ ":" +s+ pad0 2 (s mod 60).

Definition TeamColor (t : Z) : string := if t =? 3 then "#5EA8FF" else if t =? 2 then "#FF9D3B" else "#E4E4E7".

Definition dot : string := " &#183; ".
Definition font (cls color : string) : string := "<font class='" +s+ cls +s+ "' color='" +s+ color +s+ "'>".
Definition sm : string := "fontSize-sm".

Definition Row (rank : Z) (p : PlayerScore) (m : Mode) (self : bool) : string :=
  font sm (if self then "#A3E635" else if is_tdm m then TeamColor (team p) else "#E4E4E7") +s+
  to_string rank +s+ ". " +s+ HtmlEscape (or_mark (name p)) 16 +s+ dot +s+ to_string (kills p) +s+ "</font><br>".

Section Panel.
Context (tr : string -> list (string * string) -> string).

(** The rows of the top five. *)
Fixpoint rows (m : Mode) (viewer : Z) (i : Z) (r : list PlayerScore) : string :=
  match r with
  | [] => EmptyString
  | p :: r => (if i <? 5 then Row (i + 1) p m (id p =? viewer) else EmptyString) +s+ rows m viewer (i + 1) r
  end.

(** The last index with the viewer's id, plus one. *)
Fixpoint self_rank (viewer : Z) (i : Z) (r : list PlayerScore) (found : Z) : Z :=
  match r with [] => found | p :: r => self_rank viewer (i + 1) r (if id p =? viewer then i + 1 else found) end.

Definition team_line (b : Scoreboard) : string :=
  font sm "#5EA8FF" +s+ "CT " +s+ to_string (TeamKills b 3) +s+ "</font>" +s+ font sm "#A1A1AA" +s+ " : </font>" +s+
  font sm "#FF9D3B" +s+ to_string (TeamKills b 2) +s+ " T</font><br>".

Definition LeaderboardHtml (m : Mode) (b : Scoreboard) (viewer killLimit secondsLeft : Z) (weaponRound : string) : string :=
  let r := Ranked b in
  let selfRank := self_rank viewer 0 r 0 in
  font sm "#FACC15" +s+ (if is_tdm m then "TDM" else "FFA") +s+ "</font>" +s+ font sm "#A1A1AA" +s+
  (if 0 <? killLimit then dot +s+ HtmlEscape (tr "hud.first_to" [("count", to_string killLimit)]) 40 else EmptyString) +s+
  (if 0 <=? secondsLeft then dot +s+ FormatClock secondsLeft else EmptyString) +s+ "</font><br>" +s+
  (if sempty weaponRound then EmptyString
   else font sm "#F472B6" +s+ HtmlEscape (tr "hud.weapon_round" [("weapon", WeaponLabel weaponRound)]) 40 +s+ "</font><br>") +s+
  (if is_tdm m then team_line b else EmptyString) +s+
  rows m viewer 0 r +s+
  (if bool_decide (r = []) then font sm "#A1A1AA" +s+ HtmlEscape (tr "hud.no_kills" []) 40 +s+ "</font><br>" else EmptyString) +s+
  (if 5 <? selfRank then
     font sm "#A3E635" +s+ HtmlEscape (tr "hud.you" [("rank", to_string selfRank)]) 40 +s+ dot +s+
     to_string (match r !! Z.to_nat (selfRank - 1) with Some me => kills me | None => 0 end) +s+ "</font>"
   else EmptyString).

Definition WinnerName (m : Mode) (o : Outcome) : string :=
  if is_tdm m then tr (if winnerTeam o =? 3 then "team.ct" else "team.t") [] else winnerName o.

Definition why_key (o : Outcome) : string := if reason o =s "kill_limit" then "win.why_kill" else "win.why_time".

Definition WinnerHtml (m : Mode) (o : Outcome) (nextGameInSeconds : Z) : string :=
  font "fontSize-l" "#FACC15" +s+
  (if draw o then HtmlEscape (tr "win.html_draw" []) 40
   else if is_tdm m then
     tr "win.html_team" [("team", "<font color='" +s+ TeamColor (winnerTeam o) +s+ "'>" +s+ HtmlEscape (WinnerName m o) 24 +s+ "</font>")]
   else tr "win.html_player" [("name", HtmlEscape (winnerName o) 24)]) +s+
  "</font><br>" +s+ font "fontSize-m" "#E4E4E7" +s+
  (if is_tdm m then to_string (winnerKills o) +s+ " : " +s+ to_string (runnerUpKills o)
   else HtmlEscape (tr "win.html_kills" [("kills", to_string (winnerKills o))]) 40) +s+
  dot +s+ HtmlEscape (tr (why_key o) []) 40 +s+ "</font><br>" +s+ font sm "#A1A1AA" +s+
  HtmlEscape (tr "win.html_next" [("seconds", to_string (Z.max 0 nextGameInSeconds))]) 60 +s+ "</font>".

Definition WinnerChat (m : Mode) (o : Outcome) : string :=
  let a := [("why", tr (why_key o) []); ("a", to_string (winnerKills o)); ("b", to_string (runnerUpKills o));
            ("kills", to_string (winnerKills o)); ("name", WinnerName m o)] in
  if draw o then tr (if is_tdm m then "win.draw_tdm" else "win.draw_ffa") a
  else tr (if is_tdm m then "win.tdm" else "win.ffa") a.

End Panel.

(** ** Maps *)

(** A workshop link becomes the digits after its [id=]. *)
Definition MapArgToEntry (arg : string) : string :=
  let l := lower arg in
  if negb (contains "steamcommunity.com/" l) then arg
  else
    match (match find "?id=" l with Some p => Some p | None => find "&id=" l end) with
    | None => arg
    | Some p =>
        let '(ds, _) := span isdigit (sdrop (p + 4) l) in
        if sempty ds then arg else stake (String.length ds) (sdrop (p + 4) arg)
    end.

Record MapChoice := { entry : string; source : string }.

Definition ResolveMap (arg defaultEntry reloadEntry : string) : MapChoice :=
  if negb (sempty arg) then {| entry := MapArgToEntry arg; source := "argument" |}
  else if negb (sempty defaultEntry) then {| entry := defaultEntry; source := "default" |}
  else {| entry := reloadEntry; source := "current" |}.

(** ** The order of the board *)

Definition timed (p : PlayerScore) : Prop := dnan (reachedAt p) = false.

Lemma ltb_cons c a d b :
  String.ltb (String c a) (String d b) = (code c <? code d) || ((code c =? code d) && String.ltb a b).
Proof.
  unfold String.ltb. cbn [String.compare]. unfold Ascii.compare, code.
  destruct (N.compare_spec (N_of_ascii c) (N_of_ascii d)) as [E|E|E].
  - rewrite E, Z.ltb_irrefl, Z.eqb_refl. done.
  - destruct (Z.ltb_spec (Z.of_N (N_of_ascii c)) (Z.of_N (N_of_ascii d))); [done|lia].
  - destruct (Z.ltb_spec (Z.of_N (N_of_ascii c)) (Z.of_N (N_of_ascii d))), (Z.eqb_spec (Z.of_N (N_of_ascii c)) (Z.of_N (N_of_ascii d))); try lia; done.
Qed.

Lemma ltb_trans_neg a b c : String.ltb b a = false -> String.ltb c b = false -> String.ltb c a = false.
Proof.
  revert b c. induction a as [|x a IH]; intros [|y b] [|z c]; try done.
  rewrite !ltb_cons. intros H1 H2. apply orb_false_elim in H1 as [A1 A2], H2 as [B1 B2]. split_bools. apply orb_false_intro; [lia|].
  destruct (Z.eqb_spec (code z) (code x)) as [E|]; [|done]. cbn [andb].
  rewrite (proj2 (Z.eqb_eq (code y) (code x)) ltac:(lia)) in A2. rewrite (proj2 (Z.eqb_eq (code z) (code y)) ltac:(lia)) in B2.
  cbn in A2, B2. by apply (IH b).
Qed.

Lemma ltb_asym a b : String.ltb a b = true -> String.ltb b a = false.
Proof.
  revert b. induction a as [|x a IH]; intros [|y b]; try done. rewrite !ltb_cons. intros H. apply orb_true_iff in H.
  apply orb_false_intro; [destruct H as [H|H]; split_bools; lia|].
  destruct (Z.eqb_spec (code y) (code x)) as [E|]; [|done]. cbn [andb]. apply IH. destruct H as [H|H]; split_bools; [lia|done].
Qed.

(** The comparison of two names as a number, so that the order is linear arithmetic. *)
Definition zb (b : bool) : Z := if b then 1 else 0.

Lemma names_asym a b : zb (String.ltb a b) + zb (String.ltb b a) <= 1.
Proof. destruct (String.ltb a b) eqn:E; [rewrite (ltb_asym _ _ E); done|by destruct (String.ltb b a)]. Qed.
Lemma names_trans a b c : zb (String.ltb c a) <= zb (String.ltb b a) + zb (String.ltb c b).
Proof.
  destruct (String.ltb b a) eqn:E1; [unfold zb; repeat case_if; lia|]. destruct (String.ltb c b) eqn:E2; [unfold zb; repeat case_if; lia|].
  by rewrite (ltb_trans_neg _ _ _ E1 E2).
Qed.

(** [ranks_before] as a lexicographic comparison. *)
Lemma ranks_before_spec x y : timed x -> timed y ->
  ranks_before x y = true <->
  kills y < kills x \/
  (kills x = kills y /\
    (deaths x < deaths y \/
     (deaths x = deaths y /\
       ((0 < kills x /\ lex_lt (dkey (reachedAt x)) (dkey (reachedAt y))) \/
        ((kills x <= 0 \/ same_key (dkey (reachedAt x)) (dkey (reachedAt y))) /\ 0 < zb (String.ltb (name x) (name y))))))).
Proof.
  intros Hx Hy. unfold ranks_before. pose proof (dltb_key _ _ Hx Hy) as HL. pose proof (deqb_key _ _ Hx Hy) as HE.
  rewrite same_key_eq in HE. unfold lex_lt, same_key in *.
  destruct (Z.eqb_spec (kills x) (kills y)) as [Ek|Ek]; cbn [negb]; [|rewrite Z.ltb_lt; lia].
  destruct (Z.eqb_spec (deaths x) (deaths y)) as [Ed|Ed]; cbn [negb]; [|rewrite Z.ltb_lt; lia].
  assert (String.ltb (name x) (name y) = true <-> 0 < zb (String.ltb (name x) (name y))) as Hn by (destruct (String.ltb _ _); cbn; split; (done || lia)).
  destruct (Z.ltb_spec 0 (kills x)) as [Hk|Hk]; cbn [andb]; [|rewrite Hn; lia].
  destruct (reachedAt x =d reachedAt y); cbn [negb]; [pose proof (proj1 HE eq_refl); rewrite Hn; lia|].
  assert (~ same_key (dkey (reachedAt x)) (dkey (reachedAt y))) as Hne by (intros F; apply HE in F; discriminate).
  unfold same_key in Hne. rewrite HL. lia.
Qed.

(** The order among players whose times are numbers. *)
Lemma ranks_asym x y : timed x -> timed y -> ranks_before x y = true -> ranks_before y x = false.
Proof.
  intros Hx Hy. rewrite ranks_before_spec by done. intros H. apply not_true_is_false. rewrite ranks_before_spec by done.
  pose proof (names_asym (name x) (name y)). unfold lex_lt, same_key in *. lia.
Qed.

Lemma ranks_trans x y z : timed x -> timed y -> timed z ->
  ranks_before y x = false -> ranks_before z y = false -> ranks_before z x = false.
Proof.
  intros Hx Hy Hz. rewrite <- !not_true_iff_false, !ranks_before_spec by done.
  pose proof (names_trans (name x) (name y) (name z)). unfold lex_lt, same_key in *. lia.
Qed.

Definition timed_board (b : Scoreboard) : Prop := Forall timed (players_ b).

(** The ranking of a deathmatch board lists every player once, and nobody stands before a player who ranks higher (kills, then fewer deaths, then the earlier last kill). *)
Theorem ranked_sorted b : timed_board b ->
  Ranked b ≡ₚ players_ b /\ StronglySorted (in_order ranks_before) (Ranked b).
Proof.
  intros Hb. split; [apply stable_sort_perm|].
  apply (stable_sort_sorted ranks_before timed); [by apply ranks_asym|by apply ranks_trans|done].
Qed.

Lemma ranked_facts b : timed_board b ->
  Ranked b ≡ₚ players_ b /\ StronglySorted (fun x y => kills y <= kills x /\ ranks_before y x = false) (Ranked b).
Proof.
  intros Hb. split; [apply stable_sort_perm|].
  assert (StronglySorted (in_order ranks_before) (Ranked b)) as Hs
    by (apply (stable_sort_sorted ranks_before timed); [by apply ranks_asym|by apply ranks_trans|done]).
  assert (Forall timed (Ranked b)) as Ht by (unfold Ranked; by rewrite stable_sort_perm).
  induction Hs as [|x l Hs IH Hx]; [constructor|]. apply Forall_cons in Ht as [Tx Tl]. constructor; [by apply IH|].
  rewrite Forall_forall in *. intros y Hy. specialize (Hx y Hy). unfold in_order in Hx. split; [|done]. apply not_true_iff_false in Hx.
  rewrite ranks_before_spec in Hx by auto. lia.
Qed.

(** ** Who wins *)

(** A game is over when the time is up, or when a limit of kills is set and a team or a player has reached it. *)
Definition ended (m : Mode) (b : Scoreboard) (limit : Z) (timeUp : bool) : Prop :=
  match m with
  | Off => False
  | Tdm => timeUp = true \/ (0 < limit /\ (limit <= TeamKills b 2 \/ limit <= TeamKills b 3))
  | Ffa => timeUp = true \/ (0 < limit /\ exists p, p ∈ players_ b /\ limit <= kills p)
  end.
(** The reason of an outcome: the limit that the best has reached, or else the time. *)
Definition because (limit : Z) (timeUp : bool) (o : Outcome) : Prop :=
  (reason o = "kill_limit" /\ 0 < limit <= winnerKills o) \/ (reason o = "time_limit" /\ timeUp = true /\ (0 < limit -> winnerKills o < limit)).

(** The winner of an outcome: the team with more kills; the player who leads the ranking, whom nobody has more kills than, and, when the time is
    up, whom nobody has as many kills as. *)
Definition wins (m : Mode) (b : Scoreboard) (o : Outcome) : Prop :=
  match m with
  | Off => False
  | Tdm =>
      (winnerTeam o = 2 \/ winnerTeam o = 3) /\ winnerKills o = TeamKills b (winnerTeam o) /\
      runnerUpKills o = TeamKills b (5 - winnerTeam o) /\ runnerUpKills o < winnerKills o
  | Ffa =>
      exists p others, players_ b ≡ₚ p :: others /\ id p = winnerId o /\ or_mark (name p) = winnerName o /\ kills p = winnerKills o /\ kills p <> 0 /\
        (forall q, q ∈ others -> kills q <= kills p /\ ranks_before q p = false) /\
        (reason o = "time_limit" -> forall q, q ∈ others -> kills q < kills p)
  end.

(** No winner: the teams are level; the best player has no kill, or, when the time is up, shares the lead with another. *)
Definition level (m : Mode) (b : Scoreboard) (o : Outcome) : Prop :=
  match m with
  | Off => False
  | Tdm => TeamKills b 2 = TeamKills b 3
  | Ffa =>
      (forall q, q ∈ players_ b -> kills q <= winnerKills o) /\
      (winnerKills o = 0 \/ (reason o = "time_limit" /\ exists p q others, players_ b ≡ₚ p :: q :: others /\ kills p = winnerKills o /\ kills q = winnerKills o))
  end.

Lemma tdm_hit limit a c : (0 <? limit) && ((limit <=? c) || (limit <=? a)) = true <-> 0 < limit /\ (limit <= a \/ limit <= c).
Proof. rewrite andb_true_iff, orb_true_iff, Z.ltb_lt, !Z.leb_le. tauto. Qed.
Lemma end_tdm_spec b limit t : let o := end_tdm b limit t in
  (over o = true <-> ended Tdm b limit t) /\ (over o = true -> because limit t o /\ if draw o then level Tdm b o else wins Tdm b o).
Proof.
  cbn zeta. unfold end_tdm, ended, because. change (TeamKills b 3) with (kills_ct b). change (TeamKills b 2) with (kills_t b).
  pose proof (tdm_hit limit (kills_t b) (kills_ct b)) as Hhit. destruct (_ && _) eqn:Eh.
  - assert (0 < limit /\ (limit <= kills_t b \/ limit <= kills_ct b)) as Hlim by (by apply Hhit). cbn [negb andb].
    destruct (Z.eqb_spec (kills_ct b) (kills_t b)) as [E|E]; cbn -[Z.max Z.min TeamKills].
    + split; [tauto|]. intros _. split; [left; split; [done|lia]|by symmetry].
    + split; [tauto|]. intros _. split; [left; split; [done|lia]|]. destruct (Z.ltb_spec (kills_t b) (kills_ct b)); cbn; change (5 - 3) with 2; change (5 - 2) with 3; unfold TeamKills; cbn; split_and!; auto; lia.
  - assert (~ (0 < limit /\ (limit <= kills_t b \/ limit <= kills_ct b))) as Hlim by (rewrite <- Hhit; done). cbn [negb andb].
    destruct t; cbn [negb]; [|cbn; split; [naive_solver|done]].
    assert (0 < limit -> Z.max (kills_ct b) (kills_t b) < limit) by lia.
    destruct (Z.eqb_spec (kills_ct b) (kills_t b)) as [E|E]; cbn -[Z.max Z.min TeamKills].
    + split; [tauto|]. intros _. split; [by right|by symmetry].
    + split; [tauto|]. intros _. split; [by right|]. destruct (Z.ltb_spec (kills_t b) (kills_ct b)); cbn; change (5 - 3) with 2; change (5 - 2) with 3; unfold TeamKills; cbn; split_and!; auto; lia.
Qed.

(** The head of the ranking, if there is one. *)
Lemma ranked_head b : timed_board b ->
  match Ranked b with
  | [] => players_ b = []
  | p :: rest => players_ b ≡ₚ p :: rest /\ (forall q, q ∈ rest -> kills q <= kills p /\ ranks_before q p = false) /\
      (forall q, q ∈ rest -> kills q <= match rest with r :: _ => kills r | [] => 0 end)
  end.
Proof.
  intros Hb. destruct (ranked_facts b Hb) as [Hp Hs]. destruct (Ranked b) as [|p rest]; [by apply Permutation_nil|]. split; [done|].
  inversion Hs as [|? ? Hs' Hle]; subst. rewrite Forall_forall in Hle. split; [done|]. intros q Hq. inversion Hs' as [|r l Hs2 Hr]; subst; [by apply not_elem_of_nil in Hq|].
  rewrite Forall_forall in Hr. apply elem_of_cons in Hq as [->|Hq]; [lia|by apply Hr].
Qed.

Lemma end_ffa_spec b limit t : timed_board b -> let o := end_ffa b limit t in
  (over o = true <-> ended Ffa b limit t) /\ (over o = true -> because limit t o /\ if draw o then level Ffa b o else wins Ffa b o).
Proof.
  intros Hb. cbn zeta. unfold end_ffa, ended, because. pose proof (ranked_head b Hb) as Hh. destruct (Ranked b) as [|p rest].
  { assert (~ exists p, p ∈ players_ b /\ limit <= kills p) as Hno by (rewrite Hh; intros (p & Hp & _); by apply not_elem_of_nil in Hp).
    change (bool_decide ([] = [])) with true. cbn [negb]. rewrite andb_false_r. destruct t; cbn; [|split; [naive_solver|done]].
    split; [naive_solver|]. intros _. split; [by right|]. rewrite Hh. split; [intros q Hq; by apply not_elem_of_nil in Hq|by left]. }
  destruct Hh as (Hperm & Htop & Hsec). cbn [bool_decide negb]. rewrite andb_true_r. set (second := match rest with q :: _ => kills q | [] => 0 end) in *.
  assert (forall q, q ∈ players_ b -> kills q <= kills p) as Hall by (intros q; rewrite Hperm; intros [->|Hq]%elem_of_cons; [lia|by apply Htop]).
  assert ((0 <? limit) && (limit <=? kills p) = true <-> 0 < limit /\ exists q, q ∈ players_ b /\ limit <= kills q) as Hhit.
  { rewrite andb_true_iff, Z.ltb_lt, Z.leb_le. split; intros [H0 H]; (split; [done|]); [exists p; split; [rewrite Hperm; by left|done]|].
    destruct H as (q & Hq & Hl). specialize (Hall q Hq). lia. }
  assert (0 < kills p -> kills p <> 0) as Hpos by lia.
  destruct ((0 <? limit) && (limit <=? kills p)) eqn:Eh; cbn [negb andb].
  - assert (0 < limit <= kills p) as Hlim by (apply andb_prop in Eh as [? ?]; lia). rewrite orb_false_r. destruct (Z.eqb_spec (kills p) 0) as [E|E]; [lia|].
    cbn. split; [split; [intros _; right; by apply Hhit|done]|]. intros _. split; [by left|]. exists p, rest. split_and!; done.
  - assert (0 < limit -> kills p < limit) as Hlim by (intros H; destruct (Z.lt_ge_cases (kills p) limit); [done|]; exfalso; apply not_true_iff_false in Eh; apply Eh; lia).
    destruct t; cbn [negb andb]; [|split; [split; [done|intros [|H%Hhit]; done]|done]].
    destruct (Z.eqb_spec (kills p) 0) as [E|E]; cbn [orb].
    { cbn. split; [split; [by left|done]|]. intros _. split; [by right|]. split; [done|by left]. }
    destruct rest as [|r rest]; cbn [bool_decide negb andb].
    { cbn. split; [split; [by left|done]|]. intros _. split; [by right|]. exists p, []. split_and!; try done. intros _ q Hq. by apply not_elem_of_nil in Hq. }
    change second with (kills r) in *. destruct (Z.eqb_spec (kills r) (kills p)) as [Er|Er]; cbn.
    + split; [split; [by left|done]|]. intros _. split; [by right|]. split; [done|]. right. split; [done|]. by exists p, r, rest.
    + split; [split; [by left|done]|]. intros _. split; [by right|]. exists p, (r :: rest). split_and!; try done. intros _ q Hq. specialize (Hsec q Hq).
      destruct (Htop r) as [? _]; [by left|]. lia.
Qed.

(** Claim C40.  A deathmatch is over exactly when the time is up or a limit of kills is set and reached, and the reason it gives is the limit when the best has reached it and the time otherwise.  In a team deathmatch the winning team has strictly more kills than the other, and a draw means that they are level.  In a free-for-all the winner has a kill, nobody has more, and nobody ranks before them; when it is the time that ended the game nobody has as many either, while at the limit of kills players may be level and the ranking decides; a draw means that nobody has a kill, or that the time is up and two players share the lead. *)
Theorem winner_leads m b s elapsed : timed_board b -> let o := CheckEnd m b s elapsed in
  (over o = true <-> ended m b (KillLimit s m) (time_up s elapsed)) /\
  (over o = true -> because (KillLimit s m) (time_up s elapsed) o /\ if draw o then level m b o else wins m b o).
Proof.
  intros Hb. cbn zeta. unfold CheckEnd. destruct m; [done| |apply end_tdm_spec]. by apply end_ffa_spec.
Qed.

(** ** Every kill is counted once *)

Inductive Op := See (i : Z) (nm : string) (t : Z) | Kill (attacker attackerTeam victim victimTeam : Z) (headshot : bool) (now : double).

Definition do_op (m : Mode) (b : Scoreboard) (o : Op) : Scoreboard :=
  match o with See i nm t => SeePlayer b i nm t | Kill a at_ v vt hs now => (OnKill b m a at_ v vt hs now).1 end.

(** The kills an event adds to the scores, and the deaths. *)
Definition op_kill (m : Mode) (o : Op) : Z :=
  match o with
  | Kill a at_ v vt _ _ => if negb (bool_decide (m = Off) || (v =? 0)) && counts m a at_ v vt then 1 else 0
  | See _ _ _ => 0
  end.
Definition op_death (m : Mode) (o : Op) : Z :=
  match o with Kill _ _ v _ _ _ => if negb (bool_decide (m = Off) || (v =? 0)) then 1 else 0 | See _ _ _ => 0 end.

Lemma with_player_sum (g : PlayerScore -> Z) i f ps d :
  g (new_player i) = 0 -> (forall p, g (f p) = g p + d) -> sumZ g (with_player i f ps) = sumZ g ps + d.
Proof.
  intros H0 Hf. induction ps as [|p ps IH]; cbn [with_player]; [rewrite sumZ_cons, Hf, H0; change (sumZ g []) with 0; lia|].
  destruct (id p =? i); rewrite !sumZ_cons, ?Hf, ?IH; lia.
Qed.

Lemma with_player_ids i f ps : (forall p, id (f p) = id p) ->
  id <$> with_player i f ps = (id <$> ps) ++ (if bool_decide (i ∈ id <$> ps) then [] else [i]).
Proof.
  intros Hf. induction ps as [|p ps IH]; cbn [with_player]; [cbn; by rewrite Hf|].
  destruct (Z.eqb_spec (id p) i) as [E|E]; cbn.
  - rewrite Hf, bool_decide_true by (rewrite <- E; left). by rewrite app_nil_r.
  - rewrite IH. cbn. f_equal. f_equal. apply (f_equal (fun b : bool => if b then [] else [i])). apply bool_decide_ext. rewrite elem_of_cons. naive_solver.
Qed.

Lemma with_player_all (P : PlayerScore -> Prop) i f ps :
  Forall P ps -> P (f (new_player i)) -> (forall p, P p -> P (f p)) -> Forall P (with_player i f ps).
Proof.
  intros Hps H0 Hf. induction Hps as [|p ps Hp Hps IH]; cbn; [by constructor|]. case_if; constructor; auto.
Qed.

Lemma join_team_same t p : id (join_team t p) = id p /\ kills (join_team t p) = kills p /\ deaths (join_team t p) = deaths p /\ headshots (join_team t p) = headshots p.
Proof. unfold join_team. by case_if. Qed.

Lemma see_same t nm p : let p' := join_team t (if sempty nm then p else p <| name := nm |>) in
  id p' = id p /\ kills p' = kills p /\ deaths p' = deaths p /\ headshots p' = headshots p.
Proof. cbn zeta. destruct (join_team_same t (if sempty nm then p else p <| name := nm |>)) as (-> & -> & -> & ->). by case_if. Qed.

Record board_ok (m : Mode) (b : Scoreboard) (nk nd : Z) : Prop := {
  bd_kills : sumZ kills (players_ b) = nk;
  bd_deaths : sumZ deaths (players_ b) = nd;
  bd_teams : kills_t b + kills_ct b = if is_tdm m then nk else 0;
  bd_ids : NoDup (id <$> players_ b) /\ Forall (fun p => id p <> 0) (players_ b);
  bd_shots : Forall (fun p => 0 <= headshots p <= kills p) (players_ b);
}.

Lemma with_player_ok i f ps : i <> 0 -> (forall p, id (f p) = id p) ->
  NoDup (id <$> ps) /\ Forall (fun p => id p <> 0) ps ->
  NoDup (id <$> with_player i f ps) /\ Forall (fun p => id p <> 0) (with_player i f ps).
Proof.
  intros Hi Hf [Hn Hz]. rewrite with_player_ids by done. split.
  - case_bool_decide; [by rewrite app_nil_r|]. apply NoDup_app. split; [done|]. split; [|apply NoDup_singleton].
    intros x Hx E%list_elem_of_singleton. subst. done.
  - apply with_player_all; [done|by rewrite Hf|]. intros p. by rewrite Hf.
Qed.

Lemma note_death_same vt p : id (note_death vt p) = id p /\ kills (note_death vt p) = kills p /\ deaths (note_death vt p) = deaths p + 1 /\ headshots (note_death vt p) = headshots p.
Proof. unfold note_death. destruct (join_team_same vt (p <| deaths := deaths p + 1 |>)) as (-> & -> & -> & ->). done. Qed.
Lemma note_kill_same t hs now p : id (note_kill t hs now p) = id p /\ kills (note_kill t hs now p) = kills p + 1 /\
  deaths (note_kill t hs now p) = deaths p /\ headshots (note_kill t hs now p) = headshots p + (if hs then 1 else 0).
Proof. unfold note_kill. destruct (join_team_same t p) as (E1 & E2 & E3 & E4). cbn. by rewrite E1, E2, E3, E4. Qed.

Lemma board_step m b nk nd o : board_ok m b nk nd -> board_ok m (do_op m b o) (nk + op_kill m o) (nd + op_death m o).
Proof.
  intros [Hk Hd Ht Hi Hs]. destruct o as [i nm t|a at_ v vt hs now]; cbn [do_op op_kill op_death].
  - unfold SeePlayer. destruct (Z.eqb_spec i 0) as [->|Hi0]; [by split; rewrite ?Z.add_0_r|].
    split; cbn [players_ kills_t kills_ct set_players]; rewrite ?Z.add_0_r; [| |done| |].
    + rewrite (with_player_sum kills i _ _ 0) by (done || intros; rewrite (proj1 (proj2 (see_same _ _ _))); lia). lia.
    + rewrite (with_player_sum deaths i _ _ 0) by (done || intros; rewrite (proj1 (proj2 (proj2 (see_same _ _ _)))); lia). lia.
    + apply with_player_ok; [done|intros; apply see_same|done].
    + apply with_player_all; [done| |]; intros; destruct (see_same t nm (new_player i)) as (_ & -> & _ & ->) || destruct (see_same t nm p) as (_ & -> & _ & ->); cbn; auto; lia.
  - unfold OnKill. destruct (bool_decide (m = Off) || (v =? 0)) eqn:Eo; cbn [negb andb fst]; [by split; rewrite ?Z.add_0_r|].
    apply orb_false_elim in Eo as [_ Ev]. split_bools.
    set (b1 := set_players b (with_player v (note_death vt) (players_ b))).
    assert (board_ok m b1 nk (nd + 1)) as [Hk1 Hd1 Ht1 Hi1 Hs1].
    { split; cbn [b1 players_ kills_t kills_ct set_players].
      - rewrite (with_player_sum kills v _ _ 0) by (done || intros; rewrite (proj1 (proj2 (note_death_same _ _))); lia). lia.
      - rewrite (with_player_sum deaths v _ _ 1) by (done || intros; rewrite (proj1 (proj2 (proj2 (note_death_same _ _)))); lia). lia.
      - done.
      - apply with_player_ok; [done|intros; apply note_death_same|done].
      - apply with_player_all; [done| |]; intros; destruct (note_death_same vt (new_player v)) as (_ & -> & _ & ->) || destruct (note_death_same vt p) as (_ & -> & _ & ->); cbn; auto; lia. }
    destruct (counts m a at_ v vt) eqn:Ec; cbn [negb andb fst]; [|rewrite Z.add_0_r; by split].
    assert (a <> 0) as Ha by (intros ->; done).
    split; cbn [players_ kills_t kills_ct].
    + rewrite (with_player_sum kills a _ _ 1) by (done || intros; apply note_kill_same). lia.
    + rewrite (with_player_sum deaths a _ _ 0) by (done || intros; rewrite (proj1 (proj2 (proj2 (note_kill_same _ _ _ _)))); lia). lia.
    + cbn [b1 kills_t kills_ct set_players] in *. destruct (is_tdm m) eqn:Em; [|cbn [andb]; lia]. cbn [andb].
      unfold counts in Ec. rewrite Em in Ec. cbn [andb negb] in Ec. unfold side in Ec.
      destruct (Z.eqb_spec at_ 2), (Z.eqb_spec at_ 3); subst; cbn in Ec |- *; rewrite ?andb_false_r in Ec; try lia; try done.
    + apply with_player_ok; [done|intros; apply note_kill_same|done].
    + apply with_player_all; [done| |]; intros; destruct (note_kill_same at_ hs now (new_player a)) as (_ & -> & _ & ->) || destruct (note_kill_same at_ hs now p) as (_ & -> & _ & ->); cbn; destruct hs; lia.
Qed.

(** After any sequence of joins, leaves and kills the board's kills and deaths are those the operations counted, the team scores of a team deathmatch are its kills, no player has two rows and no player more headshots than kills. *)
Theorem kills_counted m ops : let b := foldl (do_op m) Reset ops in
  sumZ kills (players_ b) = sumZ (op_kill m) ops /\ sumZ deaths (players_ b) = sumZ (op_death m) ops /\
  kills_t b + kills_ct b = (if is_tdm m then sumZ (op_kill m) ops else 0) /\
  NoDup (id <$> players_ b) /\ Forall (fun p => 0 <= headshots p <= kills p) (players_ b).
Proof.
  cbn zeta. assert (forall b nk nd, board_ok m b nk nd -> board_ok m (foldl (do_op m) b ops) (nk + sumZ (op_kill m) ops) (nd + sumZ (op_death m) ops)) as H.
  { induction ops as [|o ops IH]; intros b nk nd Hb; cbn [foldl]; [change (sumZ _ []) with 0; by rewrite !Z.add_0_r|].
    rewrite !sumZ_cons, !Z.add_assoc. by apply IH, board_step. }
  assert (board_ok m Reset 0 0) as H0 by (split; cbn; [done|done|by destruct (is_tdm m)|split; constructor|constructor]).
  destruct (H _ _ _ H0) as [H1 H2 H3 [H4 _] H5]. auto.
Qed.

(** ** Nothing unsafe reaches the server console *)

Definition console_char (c : ascii) : bool := negb (Ascii.eqb c ";"%char || Ascii.eqb c newline || Ascii.eqb c creturn).

Lemma ValidWeapon_console w : ValidWeapon w = true -> sforall console_char w = true.
Proof.
  unfold ValidWeapon. intros H. apply andb_prop in H as [_ H]. revert H. apply sforall_impl. intros c. unfold weapon_char, console_char, islower, isdigit. rewrite !ascii_eqb_code.
  code_consts. lia.
Qed.

Lemma to_string_console n : sforall console_char (to_string n) = true.
Proof.
  assert (forall k, 0 <= k -> sforall console_char (to_string k) = true) as Hp.
  { intros k Hk. destruct (to_string_digits k Hk) as [Hd _]. revert Hd. apply sforall_impl. intros c. unfold isdigit, console_char. rewrite !ascii_eqb_code. code_consts. lia. }
  destruct (Z.ltb_spec n 0); [|by apply Hp]. specialize (Hp (- n) ltac:(lia)). unfold to_string in *.
  destruct (Z.ltb_spec n 0), (Z.ltb_spec (- n) 0); try lia. cbn [sforall]. by rewrite Hp.
Qed.

Lemma weapon_round_console w r : Forall (fun c => sforall console_char c = true) (WeaponRoundCommands w r).
Proof.
  unfold WeaponRoundCommands. destruct (sempty w || negb (ValidWeapon w)) eqn:E; [repeat constructor|].
  apply orb_false_elim in E as [_ E]. apply negb_false_iff, ValidWeapon_console in E.
  destruct (IsPistol w), r; cbn [app no_primary default_pistols]; repeat constructor; rewrite ?sforall_app, ?E; reflexivity.
Qed.

(** No console command the deathmatch plugin sends holds a semicolon or a line break, so each text is run as one command. *)
Theorem commands_safe m s withGameMode w restrictBuy :
  Forall (fun c => sforall console_char c = true)
    (ModeCommands m s ++ LeaveCommands s withGameMode ++ WeaponRoundCommands w restrictBuy ++ GameModeCommands).
Proof.
  unfold ModeCommands, LeaveCommands. pose proof (weapon_round_console EmptyString false) as H0. pose proof (weapon_round_console w restrictBuy) as H1.
  assert (forall n, sforall console_char (to_string n) = true) as Hn by apply to_string_console.
  assert (forall b, sforall console_char (bit b) = true) as Hb by (by intros []).
  rewrite !Forall_app. repeat split; try assumption; try (by destruct withGameMode; repeat constructor; rewrite sforall_app, Hn).
  all: repeat constructor; try (rewrite sforall_app, ?Hn, ?Hb; reflexivity).
Qed.

(** ** Settings are in range whatever the configuration says *)

Record settings_ok (s : Settings) : Prop := {
  so_ffa : 0 <= killLimitFfa s <= 10000;
  so_tdm : 0 <= killLimitTdm s <= 100000;
  so_time : 0 <= timeLimitMinutes s <= 600;
  so_spawn : 0 <= spawnProtectionSeconds s <= 30;
  so_hud : 0 <= hudIntervalMs s <= 10000;
  so_end : 3 <= endDelaySeconds s <= 120;
  so_every : 0 <= weaponRoundEveryMinutes s <= 600;
  so_secs : 5 <= weaponRoundSeconds s <= 36000;
  so_type : 0 <= restoreGameType s <= 6;
  so_gmode : 0 <= restoreGameMode s <= 6;
  so_weapons : Forall (fun w => ValidWeapon w = true) (weaponRounds s);
}.

Lemma num_range get key lo hi d w : lo <= d <= hi -> lo <= (num get key lo hi d w).1 <= hi.
Proof.
  intros Hd. unfold num. destruct (get key); [|done]. unfold ParseInt. destruct (scan_int _) as [[n []]|]; try done.
  destruct ((n <? lo) || (hi <? n)) eqn:E; [done|]. apply orb_false_elim in E as [E1 E2]. split_bools. cbn. lia.
Qed.

Lemma weapon_items_ok items acc : Forall (fun w => ValidWeapon w = true) acc.1 -> Forall (fun w => ValidWeapon w = true) (foldl weapon_item acc items).1.
Proof.
  revert acc. induction items as [|i items IH]; intros acc Ha; cbn [foldl]; [done|]. apply IH. unfold weapon_item.
  destruct (sempty _); [done|]. set (w := if starts_with _ _ then _ else _). destruct (ValidWeapon w) eqn:E; [|done]. cbn. apply Forall_app. by repeat constructor.
Qed.

(** Whatever the configuration answers for the keys, the settings the deathmatch plugin runs with are within their limits. *)
Theorem settings_in_range get : settings_ok (LoadSettings get).1.
Proof.
  unfold LoadSettings.
  repeat match goal with
  | |- context [let '(_, _) := num get ?k ?lo ?hi ?d ?w in _] =>
      let H := fresh in pose proof (num_range get k lo hi d w ltac:(lia)) as H; destruct (num get k lo hi d w) eqn:?; cbn [fst] in H
  | |- context [let '(_, _) := flag get ?k ?d ?w in _] => destruct (flag get k d w) eqn:?
  | |- context [let '(_, _) := load_restart get ?w in _] => destruct (load_restart get w) eqn:?
  end.
  unfold load_weapons. destruct (get "weapon_rounds") as [v|].
  - match goal with |- context [foldl weapon_item ?a ?i] => pose proof (weapon_items_ok i a ltac:(constructor)) as Hw; destruct (foldl weapon_item a i) eqn:? end. by split.
  - by split.
Qed.

(** ** Player names cannot write markup *)

Definition text_char (c : ascii) : bool :=
  negb (Ascii.eqb c "<"%char || Ascii.eqb c ">"%char || Ascii.eqb c dquote || Ascii.eqb c "'"%char || is_control c).

Lemma entity_text c : is_control c = false -> sforall text_char (entity c) = true.
Proof.
  intros Hc. unfold entity. destruct (Ascii.eqb c "&"%char); [done|].
  destruct (Ascii.eqb c "<"%char) eqn:E1; [done|]. destruct (Ascii.eqb c ">"%char) eqn:E2; [done|].
  destruct (Ascii.eqb c dquote) eqn:E3; [done|]. destruct (Ascii.eqb c "'"%char) eqn:E4; [done|].
  cbn [str1 sforall]. unfold text_char. by rewrite E1, E2, E3, E4, Hc.
Qed.

(** A player's name put into the centre-screen HTML holds no character that opens a tag or an attribute, whatever room is left for it. *)
Theorem HtmlEscape_text s room : sforall text_char (HtmlEscape s room) = true.
Proof.
  revert room. induction s as [|c s IH]; intros room; cbn [HtmlEscape]; [done|]. destruct (is_control c) eqn:Ec; [apply IH|].
  destruct (is_continuation c); [rewrite sforall_app, IH, entity_text by done; done|].
  destruct room as [|room]; [done|]. rewrite sforall_app, IH, entity_text by done. done.
Qed.

(** ** The stash of a reload *)

Definition free_of (c : ascii) (s : string) : Prop := sforall (fun d => negb (Ascii.eqb d c)) s = true.

Lemma cut_at_app c a b : free_of c a -> cut_at c (a +s+ String c b) = a :: cut_at c b.
Proof.
  unfold free_of. induction a as [|d a IH]; intros H; cbn [String.append cut_at]; [by rewrite Ascii.eqb_refl|].
  cbn in H. apply andb_prop in H as [Hd Ha]. apply negb_true_iff in Hd. by rewrite Hd, IH.
Qed.
Lemma cut_at_free c a : free_of c a -> cut_at c a = [a].
Proof.
  unfold free_of. induction a as [|d a IH]; intros H; cbn [cut_at]; [done|]. cbn in H. apply andb_prop in H as [Hd Ha].
  apply negb_true_iff in Hd. by rewrite Hd, IH.
Qed.

Lemma cut_tabbed fs : Forall (free_of tab) fs -> fs <> [] -> cut_at tab (tabbed fs) = fs.
Proof.
  intros Hf Hn. induction Hf as [|f fs Hf Hfs IH]; [done|]. destruct fs as [|g fs]; [by apply cut_at_free|].
  change (tabbed (f :: g :: fs)) with (f +s+ String tab (tabbed (g :: fs))). by rewrite cut_at_app, IH.
Qed.

Lemma tabbed_app fs n : tabbed (fs ++ [EmptyString]) +s+ n = tabbed (fs ++ [n]).
Proof.
  induction fs as [|f fs IH]; [done|]. destruct (fs ++ [EmptyString]) as [|g gs] eqn:E; [by destruct fs|].
  destruct (fs ++ [n]) as [|g' gs'] eqn:E'; [by destruct fs|]. cbn [app]. rewrite E, E'.
  change (tabbed (f :: g :: gs)) with (f +s+ String tab (tabbed (g :: gs))). rewrite app_assoc_s, app_cons_s, IH. done.
Qed.

Lemma stash_char_free c s : c = tab \/ c = newline -> free_of c (smap stash_char s).
Proof.
  intros Hc. unfold free_of. induction s as [|d s IH]; [done|]. cbn [smap sforall]. rewrite IH, andb_true_r. unfold stash_char.
  destruct (Ascii.eqb_spec d tab) as [->|Ht]; [by destruct Hc as [-> | ->]|]. destruct (Ascii.eqb_spec d newline) as [->|Hn]; cbn [orb]; [by destruct Hc as [-> | ->]|].
  apply negb_true_iff, Ascii.eqb_neq. by destruct Hc as [-> | ->].
Qed.

(** Digits, the minus sign and the point. *)
Definition number_char (c : ascii) : bool := isdigit c || Ascii.eqb c "-"%char || Ascii.eqb c "."%char.

Lemma number_free c s : number_char c = false -> sforall number_char s = true -> free_of c s.
Proof. intros Hc. apply sforall_impl. intros d Hd. destruct (Ascii.eqb_spec d c) as [->|]; [by rewrite Hc in Hd|done]. Qed.

Lemma digits_number s : sforall isdigit s = true -> sforall number_char s = true.
Proof. apply sforall_impl. unfold number_char. by intros c ->. Qed.

Lemma to_string_number n : sforall number_char (to_string n) = true.
Proof.
  destruct (Z.ltb_spec n 0) as [H|H]; [|by apply digits_number, to_string_digits].
  unfold to_string. destruct (Z.ltb_spec n 0); [|lia]. cbn [sforall]. by rewrite digits_number by (apply dec_nonneg_spec; lia).
Qed.

Lemma zeros_digits n : sforall isdigit (zeros n) = true.
Proof. by induction n. Qed.

Lemma fmt_f_number p v : sforall number_char (fmt_f p v) = true.
Proof.
  unfold fmt_f. destruct (exact v) as [[n k]|]; [|done]. unfold pad0. rewrite !sforall_app, !to_string_number, (digits_number _ (zeros_digits _)).
  by destruct (match v with S754_zero s | S754_finite s _ _ => s | _ => false end).
Qed.

(** A player as the stash holds them: no tab or newline in the name, the time to the millisecond. *)
Definition stashed (p : PlayerScore) : PlayerScore :=
  p <| name := smap stash_char (name p) |> <| reachedAt := atof (fmt_f 3 (reachedAt p)) |>.

Definition number_fields (p : PlayerScore) : list string :=
  ["P"; to_string (id p); to_string (team p); to_string (kills p); to_string (deaths p); to_string (headshots p); fmt_f 3 (reachedAt p)].

Record stashable (p : PlayerScore) : Prop := {
  sp_id : uint64_ok (id p) /\ id p <> 0;
  sp_ints : int32_ok (team p) /\ int32_ok (kills p) /\ int32_ok (deaths p) /\ int32_ok (headshots p);
  sp_fits : (String.length (tabbed (number_fields p ++ [EmptyString])) <= 159)%nat;
}.

Lemma player_text_fields p : stashable p -> player_text p = tabbed (number_fields p ++ [smap stash_char (name p)]).
Proof.
  intros [_ _ Hf]. unfold player_text, player_fields. rewrite <- tabbed_app. f_equal.
  change (stake 159 (tabbed (number_fields p ++ [EmptyString])) = tabbed (number_fields p ++ [EmptyString])).
  set (t := tabbed _) in *. clearbody t. revert Hf. generalize 159%nat. induction t as [|c t IH]; intros [|n] H; cbn in *; try done; [lia|]. f_equal. apply IH. lia.
Qed.

Lemma fields_free p c : c = tab \/ c = newline -> Forall (free_of c) (number_fields p ++ [smap stash_char (name p)]).
Proof.
  intros Hc. assert (number_char c = false) as Hn by (by destruct Hc as [-> | ->]).
  assert (free_of c "P") as HP by (by destruct Hc as [-> | ->]).
  repeat constructor; try done; try (by apply (number_free c), to_string_number); [by apply number_free, fmt_f_number|by apply stash_char_free].
Qed.

Lemma tabbed_free c fs : Ascii.eqb tab c = false -> Forall (free_of c) fs -> free_of c (tabbed fs).
Proof.
  intros Hc Hf. induction Hf as [|f fs Hf Hfs IH]; [done|]. destruct fs as [|g fs]; [done|].
  change (tabbed (f :: g :: fs)) with (f +s+ String tab (tabbed (g :: fs))). unfold free_of in *. rewrite sforall_app, Hf.
  cbn [sforall]. by rewrite Hc, IH.
Qed.

Lemma c_atoi_string n : int32_ok n -> c_atoi (to_string n) = n.
Proof.
  intros Hn. unfold c_atoi. rewrite <- (app_nil_s (to_string n)), scan_int_to_string by done. unfold int32_ok in Hn.
  rewrite clamp_id by lia. by apply to_int32_id.
Qed.

Lemma read_player b p : stashable p -> read_line b (player_text p) = Some (set_players b (players_ b ++ [stashed p])).
Proof.
  intros Hp. rewrite player_text_fields by done. unfold read_line. destruct Hp as [[H1 H2] (H3 & H4 & H5 & H6) _].
  rewrite cut_tabbed by (done || apply fields_free; by left). cbn [number_fields app].
  rewrite strtoull_to_string by done. destruct (Z.eqb_spec (id p) 0); [done|]. rewrite !c_atoi_string by done. reflexivity.
Qed.

Lemma read_players ps b : Forall stashable ps ->
  read_lines b (cut_at newline (foldr (fun p acc => player_text p +s+ str1 newline +s+ acc) EmptyString ps)) =
  Some (set_players b (players_ b ++ map stashed ps)).
Proof.
  intros Hps. revert b. induction Hps as [|p ps Hp Hps IH]; intros b; cbn [foldr map].
  - cbn. rewrite app_nil_r. by destruct b.
  - change (str1 newline +s+ ?x) with (String newline x). rewrite cut_at_app.
    + cbn [read_lines]. rewrite read_player by done. rewrite IH. cbn. by rewrite <- app_assoc.
    + rewrite player_text_fields by done. apply tabbed_free; [done|]. apply fields_free. by right.
Qed.

(** A board written for a plugin reload and read back has the same team scores and, row by row, the players as the format keeps them. *)
Theorem board_reload b : Forall stashable (players_ b) -> int32_ok (kills_t b) -> int32_ok (kills_ct b) ->
  Deserialize (Serialize b) = Some {| players_ := map stashed (players_ b); kills_t := kills_t b; kills_ct := kills_ct b |}.
Proof.
  intros Hp Ht Hct. unfold Deserialize, Serialize. set (rest := foldr _ _ _).
  assert (forall c, number_char c = false -> c <> "T"%char -> Forall (free_of c) ["T"; to_string (kills_t b); to_string (kills_ct b)]) as Hf.
  { intros c Hc HT. repeat constructor; try (by apply (number_free c), to_string_number). unfold free_of. cbn [sforall].
    apply Ascii.eqb_neq in HT. rewrite Ascii.eqb_sym in HT. by rewrite HT. }
  change (str1 newline +s+ rest) with (String newline rest).
  rewrite cut_at_app by (apply tabbed_free; [done|by apply Hf]). cbn [read_lines].
  assert (read_line Reset (tabbed ["T"; to_string (kills_t b); to_string (kills_ct b)]) = Some {| players_ := []; kills_t := kills_t b; kills_ct := kills_ct b |}) as ->.
  { unfold read_line. rewrite cut_tabbed by (done || by apply Hf). cbn. rewrite !c_atoi_string by done. done. }
  unfold rest. by rewrite read_players.
Qed.

(** ** A game *)

Definition sample_board : Scoreboard := foldl (do_op Tdm) Reset
  [See 11 "ace" 3; Kill 11 3 12 2 true (of_int 5); Kill 12 2 12 2 false (of_int 6); Kill 11 3 13 3 false (of_int 7); Kill 13 3 12 2 false (of_int 8)].

Lemma board_reload_witness :
  map kills (players_ sample_board) = [1; 0; 1] /\
  Deserialize (Serialize sample_board) =
    Some {| players_ := map stashed (players_ sample_board); kills_t := kills_t sample_board; kills_ct := kills_ct sample_board |}.
Proof.
  split; [vm_compute; reflexivity|]. apply board_reload; [|by vm_compute|by vm_compute].
  repeat constructor; try (by vm_compute); vm_compute; lia.
Defined.

Lemma ranked_sorted_witness :
  map id (Ranked sample_board) = [11; 13; 12] /\
  Ranked sample_board ≡ₚ players_ sample_board /\ StronglySorted (in_order ranks_before) (Ranked sample_board).
Proof. split; [vm_compute; reflexivity|]. apply ranked_sorted. by repeat constructor. Defined.

Definition quick : Settings := (LoadSettings (fun k => if k =s "kill_limit_tdm" then Some "2" else None)).1.

Lemma winner_leads_witness :
  winnerTeam (CheckEnd Tdm sample_board quick (of_int 9)) = 3 /\ over (CheckEnd Tdm sample_board quick (of_int 9)) = true /\
  ended Tdm sample_board 2 false /\
  because 2 false (CheckEnd Tdm sample_board quick (of_int 9)) /\ wins Tdm sample_board (CheckEnd Tdm sample_board quick (of_int 9)).
Proof.
  split; [vm_compute; reflexivity|]. split; [vm_compute; reflexivity|].
  destruct (winner_leads Tdm sample_board quick (of_int 9)) as [Hover Hwho]; [by repeat constructor|].
  split; [apply Hover; vm_compute; reflexivity|]. apply Hwho. vm_compute. reflexivity.
Defined.

End Dm.
