(* ===== verification/MatchRules.v ===== *)
(** * Match rules

    The pure decisions of a match, [plugins/match/readyup/match_rules.cpp]: where a rule value comes
    from, technical pauses, the automatic 5v5 pause and the engine pause watchdog, the ready-up gate,
    bot fill, resume, playout, team names and the forfeit countdown.  Counts of players, rounds and
    seconds are [int]s far from their bounds and are modelled as [Z]; times are binary64. *)

From S2P Require Import Prelude CStr Double.

(** ** Rule sources *)

Record MatchRules := {
  tech_pauses_per_team : Z; tech_pause_max_seconds : Z; disconnect_pause_max_seconds : Z;
  both_teams_unpause : Z; allow_force_ready : Z; team_ready : Z; min_players_to_ready : Z;
  min_spectators_to_ready : Z; forfeit_after_seconds : Z; gg_enabled : Z; gg_threshold_pct : Z;
  gg_min_score_diff : Z; stop_command_available : Z; stop_command_no_damage : Z;
  stop_vote_seconds : Z; pause_after_restore : Z }.

Definition UnsetRules : MatchRules := {|
  tech_pauses_per_team := -1; tech_pause_max_seconds := -1; disconnect_pause_max_seconds := -1;
  both_teams_unpause := -1; allow_force_ready := -1; team_ready := -1; min_players_to_ready := -1;
  min_spectators_to_ready := -1; forfeit_after_seconds := -1; gg_enabled := -1; gg_threshold_pct := -1;
  gg_min_score_diff := -1; stop_command_available := -1; stop_command_no_damage := -1;
  stop_vote_seconds := -1; pause_after_restore := -1 |}.

Definition BuiltinDefaultRules : MatchRules := {|
  tech_pauses_per_team := 3; tech_pause_max_seconds := 300; disconnect_pause_max_seconds := 300;
  both_teams_unpause := 1; allow_force_ready := 1; team_ready := 0; min_players_to_ready := 0;
  min_spectators_to_ready := 0; forfeit_after_seconds := 240; gg_enabled := 0; gg_threshold_pct := 80;
  gg_min_score_diff := 8; stop_command_available := 0; stop_command_no_damage := 0;
  stop_vote_seconds := 30; pause_after_restore := 1 |}.

Definition pick (a b c : Z) : Z := if 0 <=? a then a else if 0 <=? b then b else c.
Definition flag (v : Z) : Z := if v =? 0 then 0 else 1.

Definition ResolveRules (m base : MatchRules) : MatchRules :=
  let d := BuiltinDefaultRules in
  let p (f : MatchRules -> Z) := pick (f m) (f base) (f d) in {|
    tech_pauses_per_team := p tech_pauses_per_team;
    tech_pause_max_seconds := p tech_pause_max_seconds;
    disconnect_pause_max_seconds := p disconnect_pause_max_seconds;
    both_teams_unpause := flag (p both_teams_unpause);
    allow_force_ready := flag (p allow_force_ready);
    team_ready := flag (p team_ready);
    min_players_to_ready := p min_players_to_ready;
    min_spectators_to_ready := p min_spectators_to_ready;
    forfeit_after_seconds := p forfeit_after_seconds;
    gg_enabled := flag (p gg_enabled);
    gg_threshold_pct := clamp (p gg_threshold_pct) 1 100;
    gg_min_score_diff := p gg_min_score_diff;
    stop_command_available := flag (p stop_command_available);
    stop_command_no_damage := flag (p stop_command_no_damage);
    stop_vote_seconds := clamp (p stop_vote_seconds) 5 300;
    pause_after_restore := flag (p pause_after_restore) |}.

(** [gg_threshold] as text: a fraction or a percent. *)
Definition GgThresholdPctFromText (text : string) : Z :=
  if sempty text then -1
  else match scan_double text with
       | None => -1
       | Some (v, _) =>
           if negb (isfinite v) || (v <=d of_int 0) then -1
           else
             let pct := if v <=d of_int 1 then dmul v (of_int 100) else v in
             if of_int 100 <d pct then -1 else Z.max 1 (default 0 (dround pct))
       end.

(** ** Chat lines *)

(** [text::Msg]: a locale key and its arguments. *)
Record Msg := { msg_key : string; msg_args : list (string * string) }.

Definition upper_first (s : string) : string :=
  match s with EmptyString => EmptyString | String c r => String (toupper c) r end.

Definition GoLiveRulesLines (mapNumber numMaps : Z) (map : string) (maxRounds : Z) (overtime : bool)
    (overtimeHalfRounds maxOvertimes : Z) (damageTiebreak : bool) : list Msg :=
  let n := to_string in
  let name := upper_first (if starts_with "de_" map || starts_with "cs_" map then sdrop 3 map else map) in
  let first := if 1 <? numMaps then "golive.map_of" else "golive.one_map" in
  let head := {| msg_key := first +s+ (if sempty name then "_noname" else EmptyString);
                 msg_args := [("map_number", n mapNumber); ("num_maps", n numMaps);
                              ("to_win", n (Z.quot numMaps 2 + 1)); ("map", name)] |} in
  if maxRounds <=? 0 then [head]
  else
    let half := Z.quot maxRounds 2 in
    let rounds := {| msg_key := "golive.rounds"; msg_args := [("rounds", n maxRounds); ("to_win", n (half + 1))] |} in
    let sides := {| msg_key := "golive.sides_switch"; msg_args := [("half", n half)] |} in
    let tie :=
      if overtime && (0 <? overtimeHalfRounds) then
        {| msg_key := if maxOvertimes <=? 0 then "golive.tie_overtime"
                      else if damageTiebreak then "golive.tie_overtime_damage" else "golive.tie_overtime_draw";
           msg_args := [("half", n half); ("ot_rounds", n (overtimeHalfRounds * 2));
                        ("ot_to_win", n (overtimeHalfRounds + 1)); ("max_ot", n maxOvertimes)] |}
      else {| msg_key := if damageTiebreak then "golive.tie_damage" else "golive.tie_draw"; msg_args := [("half", n half)] |} in
    [head; rounds; sides; tie].

Definition PlayerLeftChatLine (name team : string) (autoPause : bool) (maxSeconds : Z) : Msg :=
  let args := [("name", name); ("team", team); ("minutes", to_string (Z.max 1 (Z.quot maxSeconds 60)))] in
  if negb autoPause then {| msg_key := "player.left_goes_on"; msg_args := args |}
  else {| msg_key := if 0 <? maxSeconds then "player.left_pauses_max" else "player.left_pauses"; msg_args := args |}.

(** ** Pauses *)

Definition TechPauseAllowed (used limit : Z) : bool := (limit <=? 0) || (used <? limit).
Definition TechPausesLeft (used limit : Z) : Z := if limit <=? 0 then -1 else Z.max 0 (limit - used).
Definition TechPauseSecondsLeft (elapsedSeconds maxSeconds : Z) : Z :=
  if maxSeconds <=? 0 then -1 else Z.max 0 (maxSeconds - Z.max 0 elapsedSeconds).

Definition UnpauseSatisfied (team1Confirmed team2Confirmed bothRequired : bool) (pauserTeam : Z) : bool :=
  if bothRequired then team1Confirmed && team2Confirmed
  else if pauserTeam =? 1 then team1Confirmed
  else if pauserTeam =? 2 then team2Confirmed
  else team1Confirmed || team2Confirmed.

Definition kFullTeamPlayers : Z := 5.

Definition Auto5v5ShortSide (ctPlayers tPlayers : Z) : Z :=
  if (kFullTeamPlayers <=? ctPlayers) && (kFullTeamPlayers <=? tPlayers) then 0
  else if ctPlayers <=? tPlayers then 3 else 2.

Definition Auto5v5PauseExpected (ruleOn liveMap alreadyPaused : bool) (ct t : Z) : bool :=
  if negb ruleOn || negb liveMap || alreadyPaused then false else negb (Auto5v5ShortSide ct t =? 0).

Inductive Auto5v5Check := CheckDone | CheckWait | CheckMark.

Definition Auto5v5Decide (ruleOn liveMap alreadyPaused : bool) (enginePaused ct t : Z) : Auto5v5Check :=
  if negb ruleOn || negb liveMap || alreadyPaused then CheckDone
  else if enginePaused =? 1 then if Auto5v5ShortSide ct t =? 0 then CheckDone else CheckMark
  else if enginePaused =? 0 then CheckWait
  else if Auto5v5ShortSide ct t =? 0 then CheckDone else CheckMark.

Definition kAuto5v5FullHoldSeconds : double := of_int 5.

Definition Auto5v5UnpauseReason (ct t : Z) (fullForSeconds pausedSeconds : double) (maxSeconds : Z) : string :=
  if (Auto5v5ShortSide ct t =? 0) && (kAuto5v5FullHoldSeconds <=d fullForSeconds) then "full"
  else if (0 <? maxSeconds) && (of_int maxSeconds <=d pausedSeconds) then "timeout"
  else EmptyString.

Inductive EnginePauseAction := PauseNone | PauseClear | MarkAuto5v5 | MarkEngine.

Definition kEnginePauseMarkHoldSeconds : double := of_int 3.

Definition DecideEnginePause (enginePaused : Z) (readyUpPause playing goLiveWindow autoRuleOn : bool)
    (ct t fullTeam : Z) (unmarkedForSeconds : double) : EnginePauseAction :=
  if negb (enginePaused =? 1) || readyUpPause || negb playing then PauseNone
  else
    let full := if 0 <? fullTeam then fullTeam else kFullTeamPlayers in
    let shortSide := (ct <? full) || (t <? full) in
    let mark := if shortSide && autoRuleOn then MarkAuto5v5 else MarkEngine in
    if goLiveWindow then if shortSide then mark else PauseClear
    else if kEnginePauseMarkHoldSeconds <=d unmarkedForSeconds then mark else PauseNone.

(** ** Ready-up *)

Definition FullTeamSize (rosterSize playersPerTeam : Z) : Z :=
  if rosterSize <=? 0 then 0
  else Z.min rosterSize (if 0 <? playersPerTeam then playersPerTeam else kFullTeamPlayers).

Definition ForceReadyRequired (rosterSize minPlayers playersPerTeam : Z) : Z :=
  if rosterSize <=? 0 then 0
  else if minPlayers <=? 0 then FullTeamSize rosterSize playersPerTeam
  else Z.min minPlayers rosterSize.

Definition ForceReadyAllowed (connected rosterSize minPlayers playersPerTeam : Z) : bool :=
  if rosterSize <=? 0 then false
  else ForceReadyRequired rosterSize minPlayers playersPerTeam <=? connected.

Inductive TeamReadyAction := ReadySingle | ReadyTeam | ReadyNotEnough.

Definition DecideTeamReady (teamReadyRule ready : bool) (connected rosterSize minPlayers playersPerTeam : Z) : TeamReadyAction :=
  if negb teamReadyRule then ReadySingle
  else if negb ready then ReadyTeam
  else if ForceReadyAllowed connected rosterSize minPlayers playersPerTeam then ReadyTeam else ReadyNotEnough.

Definition TeamReadyNeeded (rosterSize connected minPlayers playersPerTeam : Z) : Z :=
  if rosterSize <=? 0 then 0
  else
    let full := FullTeamSize rosterSize playersPerTeam in
    Z.max (ForceReadyRequired rosterSize minPlayers playersPerTeam) (Z.min (Z.max 0 connected) full).

Definition TeamReadyToGoLive (rosterSize connected ready minPlayers playersPerTeam : Z) : bool :=
  if rosterSize <=? 0 then true
  else TeamReadyNeeded rosterSize connected minPlayers playersPerTeam <=? ready.

Record ReadyTally := { tally_ready : Z; tally_total : Z }.

Definition TeamReadyTally (rosterSize ready playersPerTeam : Z) : ReadyTally :=
  let total := FullTeamSize rosterSize playersPerTeam in
  {| tally_ready := Z.min (Z.max 0 ready) total; tally_total := total |}.

Record TeamHudState := { hud_here : Z; hud_total : Z; hud_allHere : bool; hud_ready : bool }.

Definition TeamHudStatus (rosterSize connected readyConnected playersPerTeam : Z) : TeamHudState :=
  let total := FullTeamSize rosterSize playersPerTeam in
  let here := Z.min (Z.max 0 connected) total in
  {| hud_here := here; hud_total := total; hud_allHere := (0 <? total) && (total <=? here);
     hud_ready := (0 <? total) && (total <=? Z.min (Z.max 0 readyConnected) total) |}.

Definition BotFillTeamReady (connected readyConnected : Z) : bool := Z.max 0 connected <=? Z.max 0 readyConnected.

Definition BotFillReadyTally (connected readyConnected : Z) : ReadyTally :=
  let total := Z.max 0 connected in
  {| tally_ready := Z.min (Z.max 0 readyConnected) total; tally_total := total |}.

Definition kBotFillEmptyGraceSeconds : double := of_int 60.
Definition BotFillEmptyMayGoLive (secondsEmpty : double) : bool := kBotFillEmptyGraceSeconds <=d secondsEmpty.

Definition ResumeMayGoLive (rosterTotal presentTotal : Z) : bool := (0 <? presentTotal) && (rosterTotal <=? presentTotal).

Record ResumeHeadcount := { needed : Z; back : Z }.

(** The loop over the two teams, unrolled. *)
Definition ResumeCount (roster present : Z * Z) (playersPerTeam : Z) : ResumeHeadcount :=
  let step (c : ResumeHeadcount) (r p : Z) :=
    let full := FullTeamSize r playersPerTeam in
    {| needed := needed c + full; back := back c + Z.min (Z.max 0 p) full |} in
  step (step {| needed := 0; back := 0 |} roster.1 present.1) roster.2 present.2.

Definition SpectatorsReadyToGoLive (required readySpectators : Z) : bool := (required <=? 0) || (required <=? readySpectators).
Definition SpecCommandAllowed (onLoadedMatchRoster : bool) : bool := negb onLoadedMatchRoster.

(** ** Playout *)

Definition PlayoutRoundsLeft (maxRounds : Z) (overtimeEnabled : bool) (overtimeSegments maxOvertimes team1Score team2Score : Z) : bool :=
  let maxRounds := Z.max 1 maxRounds in
  let sum := Z.max 0 team1Score + Z.max 0 team2Score in
  if sum <? maxRounds then true
  else if (sum =? maxRounds) || negb overtimeEnabled then false
  else
    let block := 2 * Z.max 1 overtimeSegments in
    let past := sum - maxRounds in
    if (0 <=? maxOvertimes) && (maxOvertimes * block <=? past) then false
    else negb (Z.rem past block =? 0).

(** ** Team names *)

(** The bytes dropped from a team name. *)
Definition name_dropped (c : ascii) : bool :=
  (code c <? 32) || Ascii.eqb c dquote || Ascii.eqb c ";"%char || Ascii.eqb c backslash || (code c =? 127).
Definition is_blank (c : ascii) : bool := Ascii.eqb c " "%char.
(** [(c & 0xC0) == 0x80]: a UTF-8 continuation byte. *)
Definition utf8_cont (c : ascii) : bool := Z.land (code c) 192 =? 128.

(** The cut position: back to a byte that starts a character. *)
Fixpoint utf8_cut (cut : nat) (s : string) : nat :=
  match cut with
  | O => O
  | S k => match String.get cut s with
           | Some c => if utf8_cont c then utf8_cut k s else cut
           | None => cut
           end
  end.

Definition SanitizeTeamName (input : string) : string :=
  let s := strip is_blank (sfilter (fun c => negb (name_dropped c)) input) in
  if 32 <? slen s then stake (utf8_cut 32 s) s else s.

(** ** The forfeit countdown *)

Module Forfeit.

Inductive Action := ANone | Started | Cancelled | Expired.
(** [secondsLeft] is [None] where the conversion to [int] is undefined (a clock that is not finite). *)
Record Result := { action : Action; absentTeam : Z; secondsLeft : option Z }.
Record Timer := { absent_ : Z; deadline_ : double; fired_ : bool }.

Definition Reset : Timer := {| absent_ := 0; deadline_ := of_int 0; fired_ := false |}.

(** [1e-9]. *)
Definition nano : double := dratio 1 1000000000.

Definition SecondsLeft (t : Timer) (now : double) : option Z :=
  if absent_ t =? 0 then Some 0 else Z.max 0 <$> dceil (dsub (dsub (deadline_ t) now) nano).

Definition Running (t : Timer) : bool := negb (absent_ t =? 0) && negb (fired_ t).

(** The team that is alone in being absent. *)
Definition absent_now (active : bool) (limitSeconds : Z) (team1Present team2Present : bool) : Z :=
  if active && (0 <? limitSeconds) && negb (eqb team1Present team2Present) then if team1Present then 2 else 1 else 0.

Definition Update (t : Timer) (now : double) (active : bool) (limitSeconds : Z) (team1Present team2Present : bool) : Timer * Result :=
  let absent := absent_now active limitSeconds team1Present team2Present in
  if absent =? 0 then
    (Reset, {| action := if negb (absent_ t =? 0) && negb (fired_ t) then Cancelled else ANone;
               absentTeam := if negb (absent_ t =? 0) then absent_ t else 0; secondsLeft := Some 0 |})
  else if fired_ t then (t, {| action := ANone; absentTeam := absent_ t; secondsLeft := Some 0 |})
  else
    let started := negb (absent_ t =? absent) in
    let t := if started then {| absent_ := absent; deadline_ := dadd now (of_int limitSeconds); fired_ := false |} else t in
    if deadline_ t <=d now then
      ({| absent_ := absent_ t; deadline_ := deadline_ t; fired_ := true |},
       {| action := Expired; absentTeam := absent_ t; secondsLeft := Some 0 |})
    else (t, {| action := if started then Started else ANone; absentTeam := absent_ t; secondsLeft := SecondsLeft t now |}).

End Forfeit.
