(* ===== verification/MatchRulesFacts.v ===== *)
(** * Theorems about the match rules

    The resolved rules are total and stable, the go-live gate is the documented one, a forfeit is
    declared exactly when one team stayed away for the whole countdown, playout always reaches a
    decision, and a sanitised team name cannot break out of a console command. *)

From S2P Require Import Prelude CStr Double MatchRules.

(** ** Rule resolution *)

Lemma flag_range v : 0 <= flag v <= 1.
Proof. unfold flag. crush_ifs. Qed.
Lemma flag_flag v : flag (flag v) = flag v.
Proof. unfold flag. crush_ifs. Qed.
Lemma flag_pick v b c : flag (pick (flag v) b c) = flag v.
Proof. unfold pick, flag. crush_ifs. Qed.
Lemma pick_nonneg a b c : 0 <= c -> 0 <= pick a b c.
Proof. unfold pick. intros. crush_ifs. Qed.
Lemma pick_id a b c : 0 <= a -> pick a b c = a.
Proof. unfold pick. intros. crush_ifs. Qed.
Lemma clamp_pick a b c lo hi : 0 <= lo <= hi -> clamp (pick (clamp a lo hi) b c) lo hi = clamp a lo hi.
Proof. intros. pose proof (clamp_bounds a lo hi). rewrite pick_id, clamp_id; lia. Qed.

#[local] Hint Resolve flag_range pick_nonneg : cxx.

(** What every consumer of the resolved rules relies on. *)
Definition rules_in_range (r : MatchRules) : Prop :=
  Forall (fun v => 0 <= v)
    [tech_pauses_per_team r; tech_pause_max_seconds r; disconnect_pause_max_seconds r; min_players_to_ready r;
     min_spectators_to_ready r; forfeit_after_seconds r; gg_min_score_diff r] /\
  Forall (fun v => 0 <= v <= 1)
    [both_teams_unpause r; allow_force_ready r; team_ready r; gg_enabled r; stop_command_available r;
     stop_command_no_damage r; pause_after_restore r] /\
  1 <= gg_threshold_pct r <= 100 /\ 5 <= stop_vote_seconds r <= 300.

(** Whatever the match config and the server config leave unset, the resolved rules have
    no unset value: counts are non-negative, switches are 0 or 1, the surrender threshold is a
    percentage and the stop vote lasts 5 to 300 seconds; and they are final, resolving them again
    over any other base changes nothing. *)
Theorem ResolveRules_final (m base base' : MatchRules) :
  rules_in_range (ResolveRules m base) /\ ResolveRules (ResolveRules m base) base' = ResolveRules m base.
Proof.
  split.
  - unfold rules_in_range, ResolveRules. cbn -[pick flag clamp]. repeat split;
      repeat (apply Forall_cons_2 || apply Forall_nil_2); try apply clamp_bounds; try apply flag_range; auto with cxx lia;
      apply pick_nonneg; lia.
  - unfold ResolveRules. cbn -[pick flag clamp]. rewrite !flag_pick, !clamp_pick by lia.
    by rewrite !(pick_id (pick _ _ _)) by (apply pick_nonneg; lia).
Qed.

(** ** The ready-up gate *)

Lemma FullTeamSize_pos r p : 0 < r -> 0 < FullTeamSize r p <= r.
Proof. unfold FullTeamSize, kFullTeamPlayers. intros. crush_ifs. Qed.

(** A rostered team may go live exactly when its ready players reach the minimum of
    [.forceready] and nobody needed is missing: every connected player is ready, or a full team is.
    A connected substitute beyond the full team therefore never holds the match up. *)
Theorem go_live_gate (rosterSize connected ready minPlayers playersPerTeam : Z) :
  0 < rosterSize -> 0 <= ready ->
  TeamReadyToGoLive rosterSize connected ready minPlayers playersPerTeam = true <->
  ForceReadyRequired rosterSize minPlayers playersPerTeam <= ready /\
  (connected <= ready \/ FullTeamSize rosterSize playersPerTeam <= ready).
Proof.
  intros Hr Hn. pose proof (FullTeamSize_pos rosterSize playersPerTeam Hr).
  unfold TeamReadyToGoLive, TeamReadyNeeded. destruct (Z.leb_spec rosterSize 0); [lia|].
  rewrite Z.leb_le. lia.
Qed.

Lemma go_live_gate_witness :
  TeamReadyToGoLive 7 6 5 0 0 = true <->
  ForceReadyRequired 7 0 0 <= 5 /\ (6 <= 5 \/ FullTeamSize 7 0 <= 5).
Proof. apply (go_live_gate 7 6 5 0 0); lia. Defined.

(** ** Playout *)

(** Playout always comes to a decision, and only where it may: from any score, within at
    most a regulation's or an overtime block's worth of further rounds the map may be decided, and
    never before the regulation rounds are played nor, while overtimes remain, inside a block. *)
Theorem playout_decides (maxRounds : Z) (ot : bool) (segments maxOvertimes s1 s2 : Z) :
  0 <= s1 -> 0 <= s2 ->
  let regulation := Z.max 1 maxRounds in
  let block := 2 * Z.max 1 segments in
  (exists n, 0 <= n <= Z.max regulation block /\
     PlayoutRoundsLeft maxRounds ot segments maxOvertimes (s1 + n) s2 = false) /\
  (PlayoutRoundsLeft maxRounds ot segments maxOvertimes s1 s2 = false ->
   regulation <= s1 + s2 /\
   (ot = true -> (maxOvertimes < 0 \/ s1 + s2 - regulation < maxOvertimes * block) ->
    (s1 + s2 - regulation) mod block = 0)).
Proof.
  intros H1 H2 regulation block. unfold PlayoutRoundsLeft. fold regulation block.
  split.
  - destruct (Z.le_gt_cases regulation (s1 + s2)) as [Hle|Hgt].
    + pose proof (Z.mod_pos_bound (- (s1 + s2 - regulation)) block ltac:(lia)) as Hb.
      exists ((- (s1 + s2 - regulation)) mod block). split; [lia|].
      replace (Z.max 0 (s1 + (- (s1 + s2 - regulation)) mod block) + Z.max 0 s2)
        with (s1 + s2 + (- (s1 + s2 - regulation)) mod block) by lia.
      set (n := (- (s1 + s2 - regulation)) mod block) in *.
      assert (Z.rem (s1 + s2 + n - regulation) block = 0) as E.
      { rewrite Z.rem_mod_nonneg by lia. replace (s1 + s2 + n - regulation) with ((s1 + s2 - regulation) + n) by lia.
        unfold n. rewrite Z.add_mod_idemp_r by lia. by rewrite Z.add_opp_diag_r. }
      rewrite E. repeat case_if; split_bools; try done; lia.
    + exists (regulation - (s1 + s2)). split; [lia|].
      replace (Z.max 0 (s1 + (regulation - (s1 + s2))) + Z.max 0 s2) with regulation by lia.
      by rewrite Z.ltb_irrefl, Z.eqb_refl.
  - rewrite !Z.max_r by lia. intros H. repeat (case_if; split_bools; try discriminate); (split; [lia|]); intros -> Hc.
    + apply orb_prop in Heqb0 as [E%Z.eqb_eq|E]; [|done]. by rewrite E, Z.sub_diag, Z.mod_0_l by lia.
    + lia.
    + rewrite Z.rem_mod_nonneg in H by lia. done.
Qed.

Lemma playout_decides_witness :
  (exists n, 0 <= n <= Z.max (Z.max 1 24) (2 * Z.max 1 3) /\ PlayoutRoundsLeft 24 true 3 (-1) (13 + n) 8 = false) /\
  (PlayoutRoundsLeft 24 true 3 (-1) 13 8 = false ->
   Z.max 1 24 <= 13 + 8 /\
   (true = true -> (-1 < 0 \/ 13 + 8 - Z.max 1 24 < -1 * (2 * Z.max 1 3)) ->
    (13 + 8 - Z.max 1 24) mod (2 * Z.max 1 3) = 0)).
Proof. apply (playout_decides 24 true 3 (-1) 13 8); lia. Defined.

(** ** Team names *)

Lemma sforall_sfilter f s : sforall f (sfilter f s) = true.
Proof. induction s as [|c s IH]; cbn; [done|]. destruct (f c) eqn:E; cbn; [by rewrite E|done]. Qed.
Lemma sforall_drop_while f g s : sforall f s = true -> sforall f (drop_while g s) = true.
Proof. induction s as [|c s IH]; cbn; [done|]. intros [Hc Hs]%andb_prop. destruct (g c); cbn; [by apply IH|by rewrite Hc, Hs]. Qed.
Lemma sforall_drop_while_end f g s : sforall f s = true -> sforall f (drop_while_end g s) = true.
Proof.
  induction s as [|c s IH]; cbn; [done|]. intros [Hc Hs]%andb_prop. specialize (IH Hs).
  destruct (drop_while_end g s); cbn in *; [destruct (g c); cbn; by rewrite ?Hc|by rewrite Hc, IH].
Qed.
Lemma sforall_strip f g s : sforall f s = true -> sforall f (strip g s) = true.
Proof. intros. by apply sforall_drop_while_end, sforall_drop_while. Qed.
Lemma sforall_stake f n s : sforall f s = true -> sforall f (stake n s) = true.
Proof. revert s. induction n as [|n IH]; intros [|c s]; cbn; try done. intros [Hc Hs]%andb_prop. by rewrite Hc, IH. Qed.
Lemma stake_length n s : (String.length (stake n s) <= n)%nat.
Proof. revert s. induction n as [|n IH]; intros [|c s]; cbn; try lia. specialize (IH s). lia. Qed.
Lemma utf8_cut_le k s : (utf8_cut k s <= k)%nat.
Proof. induction k as [|k IH]; cbn [utf8_cut]; [done|]. destruct (String.get (S k) s) as [c|]; [destruct (utf8_cont c)|]; lia. Qed.

Lemma utf8_cut_boundary k s : utf8_cut k s <> 0%nat -> forall c, String.get (utf8_cut k s) s = Some c -> utf8_cont c = false.
Proof.
  induction k as [|k IH]; [done|]. intros H c. cbn [utf8_cut] in *.
  destruct (String.get (S k) s) as [d|] eqn:E; [|by rewrite E].
  destruct (utf8_cont d) eqn:Ed; [by apply IH|]. rewrite E. by intros [= <-].
Qed.

(** A clean name: nothing to drop and no blank at either end. *)
Definition clean_name (s : string) : bool :=
  sforall (fun c => negb (name_dropped c)) s && (strip is_blank s =s s) && (slen s <=? 32).

Lemma sfilter_id f s : sforall f s = true -> sfilter f s = s.
Proof. induction s as [|c s IH]; cbn; [done|]. intros [-> Hs]%andb_prop. by rewrite IH. Qed.

(** A sanitised team name is safe inside a quoted console argument: it has no control
    byte, quote, semicolon or backslash and at most 32 bytes; a cut never falls inside a UTF-8
    character (a kept prefix is followed by a byte that starts one); and a name that is already
    clean passes unchanged. *)
Theorem SanitizeTeamName_safe (input : string) :
  sforall (fun c => negb (name_dropped c)) (SanitizeTeamName input) = true /\
  slen (SanitizeTeamName input) <= 32 /\
  (let s := strip is_blank (sfilter (fun c => negb (name_dropped c)) input) in
   exists k, SanitizeTeamName input = stake k s /\
     forall c, k <> 0%nat -> String.get k s = Some c -> utf8_cont c = false) /\
  (clean_name input = true -> SanitizeTeamName input = input).
Proof.
  unfold SanitizeTeamName. set (s := strip is_blank _).
  assert (sforall (fun c => negb (name_dropped c)) s = true) as Hs by apply sforall_strip, sforall_sfilter.
  split; [|split; [|split]].
  - case_if; [by apply sforall_stake|done].
  - destruct (Z.ltb_spec 32 (slen s)); [|done]. pose proof (stake_length (utf8_cut 32 s) s). pose proof (utf8_cut_le 32 s).
    unfold slen. lia.
  - destruct (Z.ltb_spec 32 (slen s)).
    + exists (utf8_cut 32 s). split; [done|]. intros c Hk. by apply utf8_cut_boundary.
    + exists (String.length s). split.
      * symmetry. rewrite <- (app_nil_s s) at 2. apply stake_app.
      * intros c _ Hc. exfalso. clear -Hc. revert Hc. induction s as [|x s IH]; cbn; [done|]. exact IH.
  - unfold clean_name. intros H. split_bools. unfold s. rewrite sfilter_id by done. rewrite H1.
    destruct (Z.ltb_spec 32 (slen input)); [lia|done].
Qed.

Lemma SanitizeTeamName_safe_witness : SanitizeTeamName "Team Spirit" = "Team Spirit".
Proof. apply (SanitizeTeamName_safe "Team Spirit"). vm_compute. reflexivity. Defined.

(** ** The forfeit countdown *)

Module ForfeitFacts.
Import Forfeit.

(** One tick's arguments of [Update]. *)
Record Tick := { now : double; active : bool; limit : Z; p1 : bool; p2 : bool }.

Definition absent_at (k : Tick) : Z := absent_now (active k) (limit k) (p1 k) (p2 k).
Definition step (t : Timer) (k : Tick) : Timer * Result := Update t (now k) (active k) (limit k) (p1 k) (p2 k).
Definition after (t : Timer) (ks : list Tick) : Timer := foldl (fun t k => (step t k).1) t ks.
(** The deadline a countdown started at tick [k] runs to. *)
Definition due (k : Tick) : double := dadd (now k) (of_int (limit k)).

(** The countdown of [a] that [t] is in started at [j] and has run through [mid] without expiring. *)
Definition counting (t : Timer) (j : Tick) (mid : list Tick) : Prop :=
  fired_ t = false /\ deadline_ t = due j /\ absent_ t <> 0 /\
  Forall (fun k => absent_at k = absent_ t) (j :: mid) /\ Forall (fun k => (due j <=d now k) = false) (j :: mid).

Lemma absent_at_team k : absent_at k = 0 \/ absent_at k = 1 \/ absent_at k = 2.
Proof. unfold absent_at, absent_now. crush_ifs. Qed.

(** A countdown that is due or not, one tick at a time. *)
Lemma step_start t k :
  fired_ t = false -> absent_ t <> absent_at k -> absent_at k <> 0 ->
  step t k =
    (if due k <=d now k
     then ({| absent_ := absent_at k; deadline_ := due k; fired_ := true |}, {| action := Expired; absentTeam := absent_at k; secondsLeft := Some 0 |})
     else let t' := {| absent_ := absent_at k; deadline_ := due k; fired_ := false |} in
          (t', {| action := Started; absentTeam := absent_at k; secondsLeft := SecondsLeft t' (now k) |})).
Proof.
  intros Hf Ha H0. unfold step, Update. fold (absent_at k). rewrite Hf.
  destruct (Z.eqb_spec (absent_at k) 0); [done|]. destruct (Z.eqb_spec (absent_ t) (absent_at k)); done.
Qed.

Lemma step_continue t k :
  fired_ t = false -> absent_ t = absent_at k -> absent_at k <> 0 ->
  step t k =
    (if deadline_ t <=d now k
     then ({| absent_ := absent_ t; deadline_ := deadline_ t; fired_ := true |}, {| action := Expired; absentTeam := absent_ t; secondsLeft := Some 0 |})
     else (t, {| action := ANone; absentTeam := absent_ t; secondsLeft := SecondsLeft t (now k) |})).
Proof.
  intros Hf Ha H0. unfold step, Update. fold (absent_at k). rewrite Hf.
  destruct (Z.eqb_spec (absent_at k) 0); [done|]. destruct (Z.eqb_spec (absent_ t) (absent_at k)); done.
Qed.

Lemma step_none t k : absent_at k = 0 -> (step t k).1 = Reset /\ action (step t k).2 <> Expired.
Proof. intros H. unfold step, Update. fold (absent_at k). rewrite H. cbn. split; [done|]. by case_if. Qed.

Lemma step_fired t k : fired_ t = true -> absent_at k <> 0 -> (step t k).1 = t /\ action (step t k).2 = ANone.
Proof. intros Hf H. unfold step, Update. fold (absent_at k). rewrite Hf. by destruct (Z.eqb_spec (absent_at k) 0). Qed.

Definition timer_inv (t : Timer) (hist : list Tick) : Prop :=
  (absent_ t = 0 -> fired_ t = false) /\
  (fired_ t = false -> absent_ t <> 0 -> exists pre j mid, hist = pre ++ j :: mid /\ counting t j mid).

Lemma timer_inv_step t hist k : timer_inv t hist -> timer_inv (step t k).1 (hist ++ [k]).
Proof.
  intros [H0 Hc]. destruct (Z.eq_dec (absent_at k) 0) as [E|E].
  { rewrite (proj1 (step_none t k E)). by split. }
  destruct (fired_ t) eqn:Ef.
  { destruct (step_fired t k Ef E) as [-> _]. split; [intros E0; by rewrite H0 in Ef|intros E0; by rewrite E0 in Ef]. }
  destruct (Z.eq_dec (absent_ t) (absent_at k)) as [Ea|Ea].
  - rewrite step_continue by done. destruct (deadline_ t <=d now k) eqn:Ed; cbn; [split; [cbn; intros; congruence|done]|].
    split; [intros; congruence|]. intros _ _. destruct (Hc eq_refl) as (pre & j & mid & -> & _ & Hd & Hn & Hall & Hnot); [congruence|].
    exists pre, j, (mid ++ [k]). rewrite <- app_assoc. unfold counting. split_and!; [done..| |].
    + rewrite app_comm_cons. apply Forall_app. split; [done|]. by apply list.Forall_singleton.
    + rewrite app_comm_cons. apply Forall_app. split; [done|]. apply list.Forall_singleton. by rewrite <- Hd.
  - rewrite step_start by done. destruct (due k <=d now k) eqn:Ed; cbn; [split; [cbn; intros; congruence|done]|].
    split; [done|]. intros _ _. exists hist, k, []. unfold counting. split_and!; cbn; try done; by apply list.Forall_singleton.
Qed.

Lemma timer_inv_after hist : timer_inv (after Reset hist) hist.
Proof.
  induction hist as [|k hist IH] using rev_ind; [by split|]. unfold after. rewrite foldl_app. by apply timer_inv_step.
Qed.

(** No early or wrong forfeit: when a tick reports [Expired] for a team, that team alone
    was absent on every tick since some earlier tick [j], the clock has reached [j]'s time plus
    [j]'s limit, and no tick in between had reached it. *)
Theorem forfeit_sound (hist : list Tick) (k : Tick) :
  action (step (after Reset hist) k).2 = Expired ->
  exists pre j mid,
    hist ++ [k] = pre ++ j :: mid /\
    Forall (fun x => absent_at x = absentTeam (step (after Reset hist) k).2) (j :: mid) /\
    (absent_at k = 1 \/ absent_at k = 2) /\
    (due j <=d now k) = true /\ Forall (fun x => (due j <=d now x) = false) (removelast (j :: mid)).
Proof.
  intros H. destruct (timer_inv_after hist) as [H0 Hc]. set (t := after Reset hist) in *.
  destruct (Z.eq_dec (absent_at k) 0) as [E|E]; [by destruct (step_none t k E)|].
  assert (absent_at k = 1 \/ absent_at k = 2) as Hk by (destruct (absent_at_team k) as [|[|]]; tauto).
  destruct (fired_ t) eqn:Ef. { destruct (step_fired t k Ef E) as [_ E']. congruence. }
  destruct (Z.eq_dec (absent_ t) (absent_at k)) as [Ea|Ea].
  - rewrite step_continue in * by done. destruct (deadline_ t <=d now k) eqn:Ed; [|done]. cbn [fst snd absentTeam action].
    destruct (Hc eq_refl) as (pre & j & mid & -> & _ & Hd & Hn & Hall & Hnot); [congruence|].
    exists pre, j, (mid ++ [k]). rewrite <- app_assoc, app_comm_cons, removelast_last.
    split_and!; [done| |done|congruence|done].
    + apply Forall_app. split; [done|]. by apply list.Forall_singleton.
  - rewrite step_start in * by done. destruct (due k <=d now k) eqn:Ed; [|done]. cbn [fst snd absentTeam action removelast].
    exists hist, k, []. split_and!; [done|by apply list.Forall_singleton|done|done|by apply Forall_nil_2].
Qed.

(** Claim C34.  An overdue absence is always called: if a running timer is not counting for a team
    and that team alone is absent on every tick of a stretch starting at [j], then as soon as a tick
    of the stretch reaches [j]'s time plus [j]'s limit, some tick of it has reported [Expired] for
    that team. *)
Theorem forfeit_live (hist : list Tick) (j : Tick) (mid : list Tick) (k : Tick) :
  let t := after Reset hist in
  fired_ t = false -> absent_ t <> absent_at j -> absent_at j <> 0 ->
  Forall (fun x => absent_at x = absent_at j) (j :: mid) -> k ∈ j :: mid -> (due j <=d now k) = true ->
  exists front x back, j :: mid = front ++ x :: back /\
    action (step (after t front) x).2 = Expired /\ absentTeam (step (after t front) x).2 = absent_at j.
Proof.
  intros t Hf Ha H0 Hall Hk Hdue.
  assert (forall l t, fired_ t = false -> deadline_ t = due j -> absent_ t = absent_at j ->
    Forall (fun x => absent_at x = absent_at j) l -> k ∈ l ->
    exists front x back, l = front ++ x :: back /\
      action (step (after t front) x).2 = Expired /\ absentTeam (step (after t front) x).2 = absent_at j) as Hrun.
  { clear t Hf Ha Hall Hk. induction l as [|x l IH]; intros t Hf Hd Ha Hall Hk; [set_solver|].
    apply Forall_cons in Hall as [Hx Hl]. pose proof (step_continue t x Hf ltac:(congruence) ltac:(congruence)) as Es.
    rewrite Hd in Es. destruct (due j <=d now x) eqn:Ed.
    { exists [], x, l. unfold after; cbn. rewrite Es. by rewrite Ha. }
    destruct (IH (step t x).1) as (front & y & back & -> & Hy & Hy'); [by rewrite Es..|done|apply elem_of_cons in Hk as [->|?]; [congruence|done]|].
    exists (x :: front), y, back. done. }
  apply Forall_cons in Hall as [_ Hl]. pose proof (step_start t j Hf Ha H0) as Es.
  destruct (due j <=d now j) eqn:Ed.
  { exists [], j, mid. unfold after; cbn. by rewrite Es. }
  destruct (Hrun mid (step t j).1) as (front & y & back & -> & Hy & Hy'); [by rewrite Es..|done|apply elem_of_cons in Hk as [->|?]; [congruence|done]|].
  by exists (j :: front), y, back.
Qed.

(** A countdown of 240 seconds, checked at 0, 100 and 240. *)
Definition tick (s : Z) : Tick := {| now := of_int s; active := true; limit := 240; p1 := true; p2 := false |}.

Lemma forfeit_sound_witness :
  exists pre j mid,
    [tick 0; tick 100] ++ [tick 240] = pre ++ j :: mid /\
    Forall (fun x => absent_at x = absentTeam (step (after Reset [tick 0; tick 100]) (tick 240)).2) (j :: mid) /\
    (absent_at (tick 240) = 1 \/ absent_at (tick 240) = 2) /\
    (due j <=d now (tick 240)) = true /\ Forall (fun x => (due j <=d now x) = false) (removelast (j :: mid)).
Proof. apply (forfeit_sound [tick 0; tick 100] (tick 240)). vm_compute. reflexivity. Defined.

Lemma forfeit_live_witness :
  exists front x back, [tick 0; tick 100; tick 240] = front ++ x :: back /\
    action (step (after (after Reset []) front) x).2 = Expired /\
    absentTeam (step (after (after Reset []) front) x).2 = absent_at (tick 0).
Proof.
  apply (forfeit_live [] (tick 0) [tick 100; tick 240] (tick 240)); [reflexivity| | | |set_solver|vm_compute; reflexivity].
  - vm_compute. discriminate.
  - vm_compute. discriminate.
  - repeat (apply Forall_cons_2; [vm_compute; reflexivity|]). apply Forall_nil_2.
Defined.

End ForfeitFacts.
