(* ===== verification/VoteLogic.v ===== *)
(** * Surrender and stop votes

    [plugins/match/readyup/vote_logic.cpp]: the [.gg] surrender vote of one team and the [.stop]
    vote by which both teams restore the round.  The voters are a set of player ids; times are
    binary64.  The theorems read a vote's outcome off the sequence of calls that led to it. *)

From S2P Require Import Prelude CStr Double.

Module Gg.

Definition GgVotesNeeded (eligible thresholdPct : Z) : Z :=
  if eligible <=? 0 then 0
  else
    let pct := clamp thresholdPct 1 100 in
    let need := Z.quot (eligible * pct + 99) 100 in
    clamp need 1 eligible.

Definition GgScoreAllowed (teamScore otherScore minScoreDiff : Z) : bool :=
  (minScoreDiff <=? 0) || (minScoreDiff <=? otherScore - teamScore).

Inductive Result := Counted | AlreadyVoted | Passed.

Record GgVote := { voters_ : gset Z; deadline_ : double }.

Definition Reset : GgVote := {| voters_ := ∅; deadline_ := of_int 0 |}.
Definition Running (v : GgVote) : bool := negb (bool_decide (voters_ v = ∅)).
Definition Count (v : GgVote) : Z := Z.of_nat (size (voters_ v)).
Definition Voted (v : GgVote) (voter : Z) : bool := bool_decide (voter ∈ voters_ v).

Definition Expire (v : GgVote) (now : double) : GgVote * bool :=
  if bool_decide (voters_ v = ∅) || (now <d deadline_ v) then (v, false) else (Reset, true).

Definition Add (v : GgVote) (voter : Z) (now : double) (eligible thresholdPct : Z) (windowSeconds : double) : GgVote * Result :=
  let v := (Expire v now).1 in
  let deadline := if bool_decide (voters_ v = ∅) then dadd now windowSeconds else deadline_ v in
  if bool_decide (voter ∈ voters_ v) then ({| voters_ := voters_ v; deadline_ := deadline |}, AlreadyVoted)
  else
    let v := {| voters_ := {[voter]} ∪ voters_ v; deadline_ := deadline |} in
    let need := GgVotesNeeded eligible thresholdPct in
    if (0 <? need) && (need <=? Count v) then (Reset, Passed) else (v, Counted).

End Gg.

Module Stop.

Inductive Result := Waiting | AlreadyRequested | Passed.

(** [at_[1]], [at_[2]] and the window of the pending request. *)
Record StopVote := { at1 : double; at2 : double; window_ : double }.

Definition NewStopVote : StopVote := {| at1 := of_int 0; at2 := of_int 0; window_ := of_int 0 |}.

Definition at_ (v : StopVote) (team : Z) : double := if team =? 1 then at1 v else at2 v.
Definition set_at (v : StopVote) (team : Z) (x : double) : StopVote :=
  if team =? 1 then {| at1 := x; at2 := at2 v; window_ := window_ v |} else {| at1 := at1 v; at2 := x; window_ := window_ v |}.
Definition asked (v : StopVote) (team : Z) : bool := of_int 0 <d at_ v team.

Definition Reset (v : StopVote) : StopVote := {| at1 := of_int 0; at2 := of_int 0; window_ := window_ v |}.

Definition overdue (v : StopVote) (team : Z) (now : double) : bool := asked v team && (window_ v <=d dsub now (at_ v team)).

(** The new state and the team whose request timed out. *)
Definition Expire (v : StopVote) (now : double) : StopVote * option Z :=
  if overdue v 1 now then (set_at v 1 (of_int 0), Some 1)
  else if overdue v 2 now then (set_at v 2 (of_int 0), Some 2)
  else (v, None).

Definition nano : double := dratio 1 1000000000.

(** The stored time of a request made at [now]: positive. *)
Definition stamp (now : double) : double := if of_int 0 <d now then now else nano.

Definition Request (v : StopVote) (team : Z) (now windowSeconds : double) : StopVote * Result :=
  if negb (team =? 1) && negb (team =? 2) then (v, Waiting)
  else
    let v := (Expire v now).1 in
    let other := if team =? 1 then 2 else 1 in
    if asked v other then (Reset v, Passed)
    else if asked v team then (v, AlreadyRequested)
    else
      let v := set_at v team (stamp now) in
      ({| at1 := at1 v; at2 := at2 v; window_ := windowSeconds |}, Waiting).

Definition Pending (v : StopVote) : Z := if asked v 1 then 1 else if asked v 2 then 2 else 0.
Definition Deadline (v : StopVote) : double :=
  let t := Pending v in if t =? 0 then of_int 0 else dadd (at_ v t) (window_ v).

End Stop.

(** ** The surrender vote *)

Module GgFacts.
Import Gg.

(** The number of votes a surrender needs is the ceiling of the team's share: it is the
    least count that reaches the percentage, at least one and at most the whole team, and a vote by
    the whole team always suffices. *)
Theorem GgVotesNeeded_ceiling (eligible thresholdPct : Z) :
  0 < eligible -> 1 <= thresholdPct <= 100 ->
  let n := GgVotesNeeded eligible thresholdPct in
  1 <= n <= eligible /\ eligible * thresholdPct <= n * 100 /\
  (forall m, eligible * thresholdPct <= m * 100 -> n <= m).
Proof.
  intros He Ht n. subst n. unfold GgVotesNeeded. destruct (Z.leb_spec eligible 0); [lia|].
  rewrite (clamp_id thresholdPct) by lia. rewrite Z.quot_div_nonneg by nia.
  assert (eligible * thresholdPct <= 100 * eligible) by nia. assert (1 <= eligible * thresholdPct) by nia.
  pose proof (Z.div_mod (eligible * thresholdPct + 99) 100 ltac:(lia)).
  pose proof (Z.mod_pos_bound (eligible * thresholdPct + 99) 100 ltac:(lia)).
  rewrite clamp_id by lia. repeat split; [lia..|]. intros m Hm. lia.
Qed.

Lemma GgVotesNeeded_ceiling_witness :
  let n := GgVotesNeeded 5 80 in
  1 <= n <= 5 /\ 5 * 80 <= n * 100 /\ (forall m, 5 * 80 <= m * 100 -> n <= m).
Proof. apply (GgVotesNeeded_ceiling 5 80); lia. Defined.

(** The calls a vote receives. *)
Inductive Call :=
  | CAdd (voter : Z) (now : double) (eligible thresholdPct : Z) (windowSeconds : double)
  | CExpire (now : double)
  | CReset.

Definition exec (v : GgVote) (c : Call) : GgVote :=
  match c with
  | CAdd u now e p w => (Add v u now e p w).1
  | CExpire now => (Expire v now).1
  | CReset => Reset
  end.
Definition after (cs : list Call) : GgVote := foldl exec Reset cs.

Definition voter_of (c : Call) : gset Z := match c with CAdd u _ _ _ _ => {[u]} | _ => ∅ end.
Definition voters (cs : list Call) : gset Z := ⋃ (voter_of <$> cs).
Definition before (d : double) (c : Call) : Prop :=
  match c with CAdd _ now _ _ _ | CExpire now => (now <d d) = true | CReset => False end.

(** The running vote is the stretch of calls since its first vote, all before its deadline. *)
Definition vote_inv (v : GgVote) (cs : list Call) : Prop :=
  voters_ v <> ∅ ->
  exists pre u now e p w mid,
    cs = pre ++ CAdd u now e p w :: mid /\ deadline_ v = dadd now w /\
    Forall (before (dadd now w)) mid /\ voters_ v = voters (CAdd u now e p w :: mid).

Lemma voters_app a b : voters (a ++ b) = voters a ∪ voters b.
Proof. unfold voters. by rewrite fmap_app, union_list_app_L. Qed.
Lemma voters_one c : voters [c] = voter_of c.
Proof. unfold voters. cbn. set_solver. Qed.

Lemma vote_inv_extend v cs c :
  vote_inv v cs -> (forall d, voters_ v <> ∅ -> deadline_ v = d -> before d c) -> voter_of c = ∅ -> vote_inv v (cs ++ [c]).
Proof.
  intros Hi Hb Hc Hne. destruct (Hi Hne) as (pre & u & now & e & p & w & mid & -> & Hd & Hm & Hv).
  exists pre, u, now, e, p, w, (mid ++ [c]). rewrite <- app_assoc. split_and!; [done|done| |].
  - apply Forall_app. split; [done|]. apply list.Forall_singleton. by apply Hb.
  - rewrite app_comm_cons, voters_app, voters_one, Hc, Hv. set_solver.
Qed.

Lemma vote_inv_empty v cs : voters_ v = ∅ -> vote_inv v cs.
Proof. intros H Hne. done. Qed.

Lemma Expire_cases v now :
  (Expire v now = (v, false) /\ (voters_ v <> ∅ -> (now <d deadline_ v) = true)) \/ Expire v now = (Reset, true).
Proof.
  unfold Expire. destruct (decide (voters_ v = ∅)) as [E|E].
  - rewrite bool_decide_true by done. by left.
  - rewrite bool_decide_false by done. cbn. destruct (now <d deadline_ v) eqn:E'; [by left|by right].
Qed.

(** What an [Add] counts, whatever its outcome: the ballot with the new voter in it. *)
Lemma Add_ballot v cs u now e p w :
  vote_inv v cs ->
  exists pre u' now' e' p' w' mid,
    cs ++ [CAdd u now e p w] = pre ++ CAdd u' now' e' p' w' :: mid /\
    (if bool_decide (voters_ (Expire v now).1 = ∅) then dadd now w else deadline_ (Expire v now).1) = dadd now' w' /\
    Forall (before (dadd now' w')) mid /\
    {[u]} ∪ voters_ (Expire v now).1 = voters (CAdd u' now' e' p' w' :: mid).
Proof.
  intros Hi. assert (voters_ (Expire v now).1 = ∅ -> exists pre u' now' e' p' w' mid,
    cs ++ [CAdd u now e p w] = pre ++ CAdd u' now' e' p' w' :: mid /\ dadd now w = dadd now' w' /\
    Forall (before (dadd now' w')) mid /\ {[u]} ∪ voters_ (Expire v now).1 = voters (CAdd u' now' e' p' w' :: mid)) as Hfresh.
  { intros E. exists cs, u, now, e, p, w, []. split_and!; [done..|]. rewrite E, voters_one. cbn. set_solver. }
  destruct (decide (voters_ (Expire v now).1 = ∅)) as [E|E]; [rewrite bool_decide_true by done; auto|].
  rewrite bool_decide_false by done.
  destruct (Expire_cases v now) as [[Ee Hb]|Ee]; rewrite Ee in *; cbn [fst] in *; [|by destruct E].
  destruct (Hi E) as (pre & u' & now' & e' & p' & w' & mid & -> & Hd & Hm & Hv).
  exists pre, u', now', e', p', w', (mid ++ [CAdd u now e p w]). rewrite <- app_assoc. split_and!; [done|done| |].
  - apply Forall_app. split; [done|]. apply list.Forall_singleton. cbn. rewrite <- Hd. by apply Hb.
  - rewrite app_comm_cons, voters_app, voters_one, Hv. cbn. set_solver.
Qed.

Lemma vote_inv_exec v cs c : vote_inv v cs -> vote_inv (exec v c) (cs ++ [c]).
Proof.
  intros Hi. destruct c as [u now e p w|now|]; cbn [exec].
  - destruct (Add_ballot v cs u now e p w Hi) as (pre & u' & now' & e' & p' & w' & mid & Hcs & Hd & Hm & Hv).
    unfold Add. set (x := (Expire v now).1) in *. destruct (decide (u ∈ voters_ x)) as [Hu|Hu].
    + rewrite (bool_decide_true (u ∈ _)) by done. intros _. exists pre, u', now', e', p', w', mid.
      cbn [fst voters_ deadline_]. split_and!; [done..|]. rewrite <- Hv. set_solver.
    + rewrite (bool_decide_false (u ∈ _)) by done. case_if; cbn; [by apply vote_inv_empty|].
      intros _. by exists pre, u', now', e', p', w', mid.
  - destruct (Expire_cases v now) as [[E Hb]|E]; rewrite E; cbn [fst]; [|by apply vote_inv_empty].
    apply vote_inv_extend; [done| |done]. intros d Hne <-. by apply Hb.
  - by apply vote_inv_empty.
Qed.

Lemma vote_inv_after cs : vote_inv (after cs) cs.
Proof.
  induction cs as [|c cs IH] using rev_ind; [by apply vote_inv_empty|].
  unfold after. rewrite foldl_app. by apply vote_inv_exec.
Qed.

(** A surrender passes only on a real majority: when [Add] reports [Passed], the calls
    end in a stretch that opens with one vote, contains no reset, has every later call before the
    opening vote's time plus its window, and in which at least the needed number of distinct players
    voted, the last one included; the vote is then closed. *)
Theorem gg_passed (cs : list Call) (u : Z) (now : double) (e p : Z) (w : double) :
  (Add (after cs) u now e p w).2 = Passed ->
  exists pre u' now' e' p' w' mid,
    cs ++ [CAdd u now e p w] = pre ++ CAdd u' now' e' p' w' :: mid /\
    Forall (before (dadd now' w')) mid /\
    0 < GgVotesNeeded e p <= Z.of_nat (size (voters (CAdd u' now' e' p' w' :: mid))) /\
    u ∈ voters (CAdd u' now' e' p' w' :: mid) /\
    (Add (after cs) u now e p w).1 = Reset.
Proof.
  intros H.
  destruct (Add_ballot _ _ u now e p w (vote_inv_after cs)) as (pre & u' & now' & e' & p' & w' & mid & Hcs & Hd & Hm & Hv).
  exists pre, u', now', e', p', w', mid. rewrite <- Hv. unfold Add in *. set (x := (Expire (after cs) now).1) in *.
  destruct (bool_decide (u ∈ voters_ x)); [done|].
  unfold Count in *. cbn [voters_] in *. case_if; [|done]. split_bools. split_and!; [done..|set_solver|done].
Qed.

Definition three : list Call :=
  [CAdd 1 (of_int 10) 3 80 (of_int 60); CAdd 2 (of_int 20) 3 80 (of_int 60)].

Lemma gg_passed_witness :
  exists pre u' now' e' p' w' mid,
    three ++ [CAdd 3 (of_int 30) 3 80 (of_int 60)] = pre ++ CAdd u' now' e' p' w' :: mid /\
    Forall (before (dadd now' w')) mid /\
    0 < GgVotesNeeded 3 80 <= Z.of_nat (size (voters (CAdd u' now' e' p' w' :: mid))) /\
    3 ∈ voters (CAdd u' now' e' p' w' :: mid) /\
    (Add (after three) 3 (of_int 30) 3 80 (of_int 60)).1 = Reset.
Proof. apply (gg_passed three 3 (of_int 30) 3 80 (of_int 60)). vm_compute. reflexivity. Defined.

End GgFacts.

(** ** The stop vote *)

Module StopFacts.
Import Stop.

Inductive Call :=
  | CRequest (team : Z) (now windowSeconds : double)
  | CExpire (now : double)
  | CReset.

Definition exec (v : StopVote) (c : Call) : StopVote :=
  match c with
  | CRequest t now w => (Request v t now w).1
  | CExpire now => (Expire v now).1
  | CReset => Reset v
  end.
Definition after (cs : list Call) : StopVote := foldl exec NewStopVote cs.

(** At most one team is waiting, and its stored time and window are those of a request it made,
    after which nothing was asked by the other team. *)
Definition pending_from (v : StopVote) (team : Z) (cs : list Call) : Prop :=
  exists pre now mid, cs = pre ++ CRequest team now (window_ v) :: mid /\ at_ v team = stamp now.

Definition stop_inv (v : StopVote) (cs : list Call) : Prop :=
  (asked v 1 = true -> asked v 2 = false /\ pending_from v 1 cs) /\
  (asked v 2 = true -> asked v 1 = false /\ pending_from v 2 cs).

Lemma pending_from_app v t cs c : pending_from v t cs -> pending_from v t (cs ++ [c]).
Proof. intros (pre & now & mid & -> & H). exists pre, now, (mid ++ [c]). by rewrite <- app_assoc. Qed.

Lemma stop_inv_app v cs c : stop_inv v cs -> stop_inv v (cs ++ [c]).
Proof. intros [H1 H2]. split; intros H; [destruct (H1 H)|destruct (H2 H)]; auto using pending_from_app. Qed.

Lemma asked_zero v t : at_ v t = of_int 0 -> asked v t = false.
Proof. unfold asked. intros ->. apply dltb_irrefl. Qed.

Lemma stop_inv_idle v cs : asked v 1 = false -> asked v 2 = false -> stop_inv v cs.
Proof. intros H1 H2. split; congruence. Qed.

Lemma stop_inv_Expire v cs now : stop_inv v cs -> stop_inv (Expire v now).1 cs.
Proof.
  intros [H1 H2]. unfold Expire, overdue.
  destruct (asked v 1) eqn:E1; cbn [andb].
  { destruct (H1 eq_refl) as [E2 _]. rewrite E2. cbn [andb]. case_if; cbn [fst].
    - apply stop_inv_idle; [by apply asked_zero|done].
    - split; [intros _; by apply H1|intros E; by rewrite E in E2]. }
  destruct (asked v 2) eqn:E2; cbn [andb]; [|by apply stop_inv_idle].
  case_if; cbn [fst].
  - apply stop_inv_idle; [done|by apply asked_zero].
  - split; [intros E; by rewrite E in E1|intros _; rewrite E1; by apply H2].
Qed.

Lemma stop_inv_exec v cs c : stop_inv v cs -> stop_inv (exec v c) (cs ++ [c]).
Proof.
  intros Hi. destruct c as [t now w|now|]; cbn [exec].
  - unfold Request. case_if; [by apply stop_inv_app|].
    pose proof (stop_inv_Expire v cs now Hi) as Hx. set (x := (Expire v now).1) in *.
    destruct (asked x (if t =? 1 then 2 else 1)) eqn:Eo; [by apply stop_inv_idle; apply asked_zero|].
    destruct (asked x t) eqn:Et; [by apply stop_inv_app|]. unfold set_at.
    destruct (Z.eqb_spec t 1) as [->|]; [|assert (t = 2) as -> by (destruct (Z.eqb_spec t 2); [done|]; by cbn in Heqb)]; split; cbn; intros Ha;
      try (unfold asked in *; cbn in *; congruence);
      (split; [done|]; exists cs, now, []; done).
  - by apply stop_inv_app, stop_inv_Expire.
  - by apply stop_inv_idle; apply asked_zero.
Qed.

Lemma stop_inv_after cs : stop_inv (after cs) cs.
Proof.
  induction cs as [|c cs IH] using rev_ind; [by apply stop_inv_idle|].
  unfold after. rewrite foldl_app. by apply stop_inv_exec.
Qed.

(** A stop vote needs both teams, in time: when a request by a team reports [Passed],
    the other team made a request earlier whose stored time is still inside the window that request
    opened, and nothing stays pending; and at no point are both teams waiting. *)
Theorem stop_passed (cs : list Call) (t : Z) (now w : double) :
  (Request (after cs) t now w).2 = Passed ->
  exists o pre now' w' mid,
    ((t = 1 /\ o = 2) \/ (t = 2 /\ o = 1)) /\
    cs = pre ++ CRequest o now' w' :: mid /\ (w' <=d dsub now (stamp now')) = false /\
    Pending (Request (after cs) t now w).1 = 0.
Proof.
  intros H. unfold Request in *. destruct (negb (t =? 1) && negb (t =? 2)) eqn:Et; [done|].
  pose proof (stop_inv_Expire _ _ now (stop_inv_after cs)) as [H1 H2].
  set (x := (Expire (after cs) now).1) in *. set (o := if t =? 1 then 2 else 1) in *.
  destruct (asked x o) eqn:Eo; [|by destruct (asked x t)]. cbn [fst snd] in *.
  assert ((t = 1 /\ o = 2) \/ (t = 2 /\ o = 1)) as Ho.
  { subst o. destruct (Z.eqb_spec t 1); [by left|]. destruct (Z.eqb_spec t 2); [by right|done]. }
  assert (pending_from x o cs) as (pre & now' & mid & Hcs & Hat) by (destruct Ho as [[_ ->]|[_ ->]]; tauto).
  exists o, pre, now', (window_ x), mid. split_and!; [done|done| |done]. rewrite <- Hat.
  assert (overdue x o now = false) as Hov; [|unfold overdue in Hov; by rewrite Eo in Hov].
  subst x. unfold Expire in *. destruct (overdue (after cs) 1 now) eqn:E1; [|destruct (overdue (after cs) 2 now) eqn:E2].
  - cbn [fst] in *. destruct Ho as [[_ ->]|[_ ->]]; [|exfalso; by rewrite asked_zero in Eo].
    unfold overdue in E1. apply andb_prop in E1 as [E1 _]. destruct (stop_inv_after cs) as [Hs _].
    destruct (Hs E1) as [E2 _]. change (asked (after cs) 2 = true) in Eo. congruence.
  - cbn [fst] in *. destruct Ho as [[_ ->]|[_ ->]]; [exfalso; by rewrite asked_zero in Eo|done].
  - destruct Ho as [[_ ->]|[_ ->]]; done.
Qed.

Lemma stop_passed_witness :
  exists o pre now' w' mid,
    ((2 = 1 /\ o = 2) \/ (2 = 2 /\ o = 1)) /\
    [CRequest 1 (of_int 5) (of_int 30)] = pre ++ CRequest o now' w' :: mid /\
    (w' <=d dsub (of_int 20) (stamp now')) = false /\
    Pending (Request (after [CRequest 1 (of_int 5) (of_int 30)]) 2 (of_int 20) (of_int 30)).1 = 0.
Proof. apply (stop_passed [CRequest 1 (of_int 5) (of_int 30)] 2 (of_int 20) (of_int 30)). vm_compute. reflexivity. Defined.

End StopFacts.
