(* ===== verification/PauseState.v ===== *)
(** * The pause state

    [plugins/match/readyup/pause_state.cpp]: the module-level variables behind its mutex as one
    record, one definition per exported function.  [ticks] is the steady clock in nanoseconds.  Every
    function holds the mutex for its whole body, so an interleaving of callers is a sequence of these
    operations. *)

From S2P Require Import Prelude CStr MatchRules.

Inductive WebhookTeam := Unknown | Team1 | Team2.

#[export] Instance WebhookTeam_eq_dec : EqDecision WebhookTeam.
Proof. solve_decision. Defined.

Record PauseSnapshot := {
  paused : bool; team1_ready_to_unpause : bool; team2_ready_to_unpause : bool;
  type_ : string; by_ : string; team : WebhookTeam }.

(** [g_used]: uses per team (tactical, technical). *)
Record Usage := { used1_tac : Z; used1_tech : Z; used2_tac : Z; used2_tech : Z }.

Record PauseState := {
  g_paused : bool; g_t1 : bool; g_t2 : bool; g_type : string; g_by : string; g_team : WebhookTeam;
  g_pauseStart : Z; g_used : Usage }.

Definition InitialPauseState : PauseState := {|
  g_paused := false; g_t1 := false; g_t2 := false; g_type := EmptyString; g_by := EmptyString; g_team := Unknown;
  g_pauseStart := 0; g_used := {| used1_tac := 0; used1_tech := 0; used2_tac := 0; used2_tech := 0 |} |}.

Definition SnapshotLocked (s : PauseState) : PauseSnapshot := {|
  paused := g_paused s; team1_ready_to_unpause := g_t1 s; team2_ready_to_unpause := g_t2 s;
  type_ := if g_paused s then g_type s else EmptyString; by_ := if g_paused s then g_by s else EmptyString;
  team := if g_paused s then g_team s else Unknown |}.

Definition PauseStateOnPaused (s : PauseState) (now : Z) (type by' : string) (t : WebhookTeam) : PauseState := {|
  g_paused := true; g_t1 := false; g_t2 := false; g_type := if sempty type then "tactical" else type; g_by := by';
  g_team := t; g_pauseStart := now; g_used := g_used s |}.

Definition PauseStateOnUnpaused (s : PauseState) : PauseState := {|
  g_paused := false; g_t1 := false; g_t2 := false; g_type := g_type s; g_by := g_by s; g_team := g_team s;
  g_pauseStart := 0; g_used := g_used s |}.

Definition PauseStateRequestUnpause (s : PauseState) (t : WebhookTeam) : PauseState * PauseSnapshot :=
  let s := {| g_paused := g_paused s; g_t1 := if decide (t = Team1) then true else g_t1 s;
              g_t2 := if decide (t = Team2) then true else g_t2 s; g_type := g_type s; g_by := g_by s; g_team := g_team s;
              g_pauseStart := g_pauseStart s; g_used := g_used s |} in
  (s, SnapshotLocked s).

Definition PauseStateGet (s : PauseState) : PauseSnapshot := SnapshotLocked s.

Definition PauseStateSave (s : PauseState) : PauseSnapshot * Z := (SnapshotLocked s, g_pauseStart s).

Definition PauseStateRestore (s : PauseState) (snap : PauseSnapshot) (startTicks : Z) : PauseState := {|
  g_paused := paused snap; g_t1 := team1_ready_to_unpause snap; g_t2 := team2_ready_to_unpause snap; g_type := type_ snap;
  g_by := by_ snap; g_team := team snap; g_pauseStart := startTicks; g_used := g_used s |}.

Definition UsedIndex (t : WebhookTeam) : Z := match t with Team1 => 0 | Team2 => 1 | Unknown => -1 end.
Definition TypeIndex (type : string) : Z := if type =s "tactical" then 0 else if type =s "technical" then 1 else -1.

Definition usage_get (u : Usage) (t k : Z) : Z :=
  if t =? 0 then if k =? 0 then used1_tac u else used1_tech u else if k =? 0 then used2_tac u else used2_tech u.
Definition usage_bump (u : Usage) (t k : Z) : Usage :=
  let at_ t' k' v := if (t =? t') && (k =? k') then v + 1 else v in
  {| used1_tac := at_ 0 0 (used1_tac u); used1_tech := at_ 0 1 (used1_tech u);
     used2_tac := at_ 1 0 (used2_tac u); used2_tech := at_ 1 1 (used2_tech u) |}.

Definition set_used (s : PauseState) (u : Usage) : PauseState := {|
  g_paused := g_paused s; g_t1 := g_t1 s; g_t2 := g_t2 s; g_type := g_type s; g_by := g_by s; g_team := g_team s;
  g_pauseStart := g_pauseStart s; g_used := u |}.

Definition PauseStateCountUse (s : PauseState) (t : WebhookTeam) (type : string) : PauseState :=
  if (UsedIndex t <? 0) || (TypeIndex type <? 0) then s else set_used s (usage_bump (g_used s) (UsedIndex t) (TypeIndex type)).

Definition PauseStateUsed (s : PauseState) (t : WebhookTeam) (type : string) : Z :=
  if (UsedIndex t <? 0) || (TypeIndex type <? 0) then 0 else usage_get (g_used s) (UsedIndex t) (TypeIndex type).

Definition PauseStateResetUsage (s : PauseState) : PauseState :=
  set_used s {| used1_tac := 0; used1_tech := 0; used2_tac := 0; used2_tech := 0 |}.

Definition PauseStateUsageSave (s : PauseState) : list Z :=
  [used1_tac (g_used s); used1_tech (g_used s); used2_tac (g_used s); used2_tech (g_used s)].

(** [in] has four elements; a shorter array would be read out of bounds. *)
Definition PauseStateUsageRestore (s : PauseState) (l : list Z) : option PauseState :=
  match l with
  | a :: b :: c :: d :: _ => Some (set_used s {| used1_tac := a; used1_tech := b; used2_tac := c; used2_tech := d |})
  | _ => None
  end.

Definition PauseStatePauseDurationSeconds (s : PauseState) (now : Z) : Z :=
  if negb (g_paused s) then 0
  else if g_pauseStart s =? 0 then 0
  else
    let sec := Z.quot (now - g_pauseStart s) 1000000000 in
    if sec <? 0 then 0 else if 24 * 3600 <? sec then 24 * 3600 else sec.

(** ** Operations as data, to speak of call sequences *)

Inductive Op :=
  | OnPaused (now : Z) (type by' : string) (t : WebhookTeam)
  | OnUnpaused
  | RequestUnpause (t : WebhookTeam)
  | CountUse (t : WebhookTeam) (type : string)
  | ResetUsage.

Definition exec (s : PauseState) (o : Op) : PauseState :=
  match o with
  | OnPaused now type b t => PauseStateOnPaused s now type b t
  | OnUnpaused => PauseStateOnUnpaused s
  | RequestUnpause t => (PauseStateRequestUnpause s t).1
  | CountUse t type => PauseStateCountUse s t type
  | ResetUsage => PauseStateResetUsage s
  end.

Definition exec_all (s : PauseState) (os : list Op) : PauseState := foldl exec s os.

(** ** Observational equality: what the getters can tell apart *)

#[export] Instance pause_equiv : Equiv PauseState := fun a b =>
  g_paused a = g_paused b /\ g_t1 a = g_t1 b /\ g_t2 a = g_t2 b /\ g_pauseStart a = g_pauseStart b /\ g_used a = g_used b /\
  (g_paused a = true -> g_type a = g_type b /\ g_by a = g_by b /\ g_team a = g_team b).

#[export] Instance pause_equiv_equivalence : Equivalence (≡@{PauseState}).
Proof.
  split; unfold equiv, pause_equiv.
  - intros a. tauto.
  - intros a b (-> & -> & -> & -> & -> & H). split_and!; auto. intros Hp. destruct (H Hp) as (-> & -> & ->). auto.
  - intros a b c (E1 & E2 & E3 & E4 & E5 & H) (F1 & F2 & F3 & F4 & F5 & H'). split_and!; try congruence.
    intros Hp. destruct (H Hp) as (-> & -> & ->). apply H'. congruence.
Qed.

#[export] Instance exec_proper : Proper ((≡) ==> (=) ==> (≡)) exec.
Proof.
  intros a b H o ? <-. pose proof H as (H1 & H2 & H3 & H4 & H5 & H6).
  destruct o as [now ty b' t| |t|t ty|]; cbn.
  - unfold equiv, pause_equiv. cbn. by rewrite H5.
  - unfold equiv, pause_equiv. cbn. by rewrite H5.
  - unfold equiv, pause_equiv. cbn. rewrite H2, H3, H4, H5. split_and!; auto.
  - unfold PauseStateCountUse. case_if; [done|]. unfold equiv, pause_equiv. cbn. rewrite H5. split_and!; auto.
  - unfold equiv, pause_equiv. cbn. split_and!; auto.
Qed.

#[export] Instance exec_all_proper : Proper ((≡) ==> (=) ==> (≡)) exec_all.
Proof.
  intros a b H os ? <-. revert a b H. induction os as [|o os IH]; intros a b H; [done|]. cbn. apply IH. by rewrite H.
Qed.

#[export] Instance SnapshotLocked_proper : Proper ((≡) ==> (=)) SnapshotLocked.
Proof.
  intros a b (H1 & H2 & H3 & _ & _ & H6). unfold SnapshotLocked. rewrite <- H1, <- H2, <- H3.
  destruct (g_paused a); [|done]. by destruct (H6 eq_refl) as (-> & -> & ->).
Qed.

#[export] Instance Duration_proper : Proper ((≡) ==> (=) ==> (=)) PauseStatePauseDurationSeconds.
Proof. intros a b (H1 & _ & _ & H4 & _) now ? <-. unfold PauseStatePauseDurationSeconds. by rewrite H1, H4. Qed.

#[export] Instance Used_proper : Proper ((≡) ==> (=) ==> (=) ==> (=)) PauseStateUsed.
Proof. intros a b (_ & _ & _ & _ & H5 & _) t ? <- ty ? <-. unfold PauseStateUsed. by rewrite H5. Qed.

Lemma reload_equiv fresh s s' :
  PauseStateUsageRestore (PauseStateRestore fresh (PauseStateSave s).1 (PauseStateSave s).2) (PauseStateUsageSave s) = Some s' ->
  s' ≡ s.
Proof.
  cbn. intros [= <-]. unfold equiv, pause_equiv. cbn. split_and!; try done; [by destruct (g_used s)|]. by intros ->.
Qed.

(** A plugin reload is invisible: saving the pause state and its usage and restoring
    both into a freshly loaded module succeeds, and from then on every snapshot, pause duration and
    usage counter, after any further sequence of operations, is what the old module would have
    answered. *)
Theorem pause_reload (fresh s : PauseState) :
  exists s', PauseStateUsageRestore (PauseStateRestore fresh (PauseStateSave s).1 (PauseStateSave s).2) (PauseStateUsageSave s) = Some s' /\
    forall os, PauseStateGet (exec_all s' os) = PauseStateGet (exec_all s os) /\
      (forall now, PauseStatePauseDurationSeconds (exec_all s' os) now = PauseStatePauseDurationSeconds (exec_all s os) now) /\
      (forall t ty, PauseStateUsed (exec_all s' os) t ty = PauseStateUsed (exec_all s os) t ty).
Proof.
  eexists. split; [reflexivity|]. intros os.
  assert (forall s', PauseStateUsageRestore (PauseStateRestore fresh (PauseStateSave s).1 (PauseStateSave s).2) (PauseStateUsageSave s) = Some s' ->
    exec_all s' os ≡ exec_all s os) as H by (intros s' E; by rewrite (reload_equiv _ _ _ E)).
  specialize (H _ eq_refl). split_and!; intros; unfold PauseStateGet; by rewrite H.
Qed.

(** ** Who agreed to go on *)

(** The operations since the last change between paused and unpaused. *)
Definition no_pause_change (o : Op) : Prop := match o with OnPaused _ _ _ _ | OnUnpaused => False | _ => True end.

#[export] Instance no_pause_change_dec o : Decision (no_pause_change o).
Proof. destruct o; apply _. Defined.

Definition asked_in (s : PauseState) (mid : list Op) : Prop :=
  (g_t1 s = true <-> RequestUnpause Team1 ∈ mid) /\ (g_t2 s = true <-> RequestUnpause Team2 ∈ mid).

Lemma asked_in_exec s mid o : no_pause_change o -> asked_in s mid -> asked_in (exec s o) (mid ++ [o]).
Proof.
  intros Ho [H1 H2]. unfold asked_in. rewrite !elem_of_app, !list_elem_of_singleton.
  destruct o as [| |[]|t ty|]; try done; cbn; try (unfold PauseStateCountUse; case_if; cbn); rewrite ?H1, ?H2; naive_solver.
Qed.

Lemma pause_inv s0 os :
  g_paused s0 = false -> g_paused (exec_all s0 os) = true ->
  exists pre now type b t mid, os = pre ++ OnPaused now type b t :: mid /\ Forall no_pause_change mid /\
    asked_in (exec_all s0 os) mid /\ g_team (exec_all s0 os) = t.
Proof.
  intros H0. induction os as [|o os IH] using rev_ind; [cbn; congruence|].
  unfold exec_all. rewrite foldl_app. fold (exec_all s0 os). cbn. intros Hp.
  destruct (decide (no_pause_change o)) as [Hn|Hn]; [|destruct o as [now ty b t| | | |]; try done; try (by destruct Hn)].
  - assert (g_paused (exec_all s0 os) = true) as Hp'.
    { destruct o as [| |t|t ty|]; cbn in *; try done. unfold PauseStateCountUse in Hp. by case_if. }
    destruct (IH Hp') as (pre & now & ty & b & t & mid & -> & Hm & Ha & Ht).
    exists pre, now, ty, b, t, (mid ++ [o]). rewrite <- app_assoc. split_and!; [done| | |].
    + apply Forall_app. split; [done|]. by apply list.Forall_singleton.
    + by apply asked_in_exec.
    + destruct o as [| |t'|t' ty'|]; cbn in *; try done. unfold PauseStateCountUse. by case_if.
  - exists os, now, ty, b, t, []. split_and!; [done|by apply Forall_nil_2| |done]. split; cbn; set_solver.
Qed.

(** No one-sided unpause: when both teams must agree, the unpause condition holds on a
    paused snapshot only if, since the pause started and with no other pause or unpause in between,
    both teams asked for it; when the pausing team alone decides, that team asked. *)
Theorem unpause_agreed (os : list Op) (bothRequired : bool) :
  let s := exec_all InitialPauseState os in
  let snap := PauseStateGet s in
  let pauser := match team snap with Team1 => 1 | Team2 => 2 | Unknown => 0 end in
  paused snap = true ->
  UnpauseSatisfied (team1_ready_to_unpause snap) (team2_ready_to_unpause snap) bothRequired pauser = true ->
  exists pre now type b t mid, os = pre ++ OnPaused now type b t :: mid /\ Forall no_pause_change mid /\ team snap = t /\
    (bothRequired = true -> RequestUnpause Team1 ∈ mid /\ RequestUnpause Team2 ∈ mid) /\
    (t <> Unknown -> RequestUnpause t ∈ mid) /\
    (RequestUnpause Team1 ∈ mid \/ RequestUnpause Team2 ∈ mid).
Proof.
  intros s snap pauser Hp. destruct (pause_inv InitialPauseState os eq_refl Hp) as (pre & now & ty & b & t & mid & Hos & Hm & [H1 H2] & Ht).
  fold s in H1, H2, Ht. assert (team snap = t) as Et by (unfold snap; cbn; unfold snap in Hp; cbn in Hp; by rewrite Hp).
  intros Hu. exists pre, now, ty, b, t, mid. split_and!; [done..| | |].
  all: unfold UnpauseSatisfied, pauser in Hu; rewrite Et in Hu; change (team1_ready_to_unpause snap) with (g_t1 s) in Hu;
    change (team2_ready_to_unpause snap) with (g_t2 s) in Hu; rewrite <- H1, <- H2 || idtac.
  all: destruct bothRequired, t; cbn in Hu; split_bools; try apply orb_prop in Hu; naive_solver.
Qed.

Lemma unpause_agreed_witness :
  let os := [OnPaused 7 "technical" "76561198000000001" Team1; RequestUnpause Team2; RequestUnpause Team1] in
  let snap := PauseStateGet (exec_all InitialPauseState os) in
  exists pre now type b t mid, os = pre ++ OnPaused now type b t :: mid /\ Forall no_pause_change mid /\ team snap = t /\
    (true = true -> RequestUnpause Team1 ∈ mid /\ RequestUnpause Team2 ∈ mid) /\
    (t <> Unknown -> RequestUnpause t ∈ mid) /\
    (RequestUnpause Team1 ∈ mid \/ RequestUnpause Team2 ∈ mid).
Proof.
  apply (unpause_agreed [OnPaused 7 "technical" "76561198000000001" Team1; RequestUnpause Team2; RequestUnpause Team1] true);
    vm_compute; reflexivity.
Defined.
