(* ===== verification/Stats.v ===== *)
(** * Match statistics

    [plugins/match/readyup/match_stats.cpp]: the per-player and per-round accumulator fed by the
    engine events, its snapshot and restore, and the rewind that a round restore applies.  The
    counters of [PlayerStats] and [PlayerRound] are indexed by the name of the C++ field; hash maps
    keyed by player id are [gmap]s, and the loops over them visit [map_to_list]. *)

From S2P Require Import Prelude CStr Double.

(** ** Fields *)

(** The integer members of [PlayerStats]. *)
Inductive Stat :=
  | kills | deaths | assists | flash_assists | team_kills | suicides | headshot_kills | knife_kills | damage
  | utility_damage | enemies_flashed | friendlies_flashed | bomb_plants | bomb_defuses | entry_kills_t | entry_kills_ct
  | entry_deaths_t | entry_deaths_ct | trade_kills | traded_deaths | kast_rounds | rounds_played | mvp | score.

(** The integer members of [PlayerRound] that a round adds up, and its flags. *)
Inductive RoundCount := r_kills | r_assists | r_flash_assists | r_damage | r_utility_damage | r_headshot_kills.
Inductive RoundFlag := died | survived | traded | kast | entry_kill | entry_death | r_mvp | clutch_won.

#[export] Instance Stat_eq_dec : EqDecision Stat.
Proof. solve_decision. Defined.
#[export] Instance RoundCount_eq_dec : EqDecision RoundCount.
Proof. solve_decision. Defined.
#[export] Instance RoundFlag_eq_dec : EqDecision RoundFlag.
Proof. solve_decision. Defined.

(** Member assignment. *)
Definition fset {K} `{EqDecision K} {V} (f : K -> V) (k : K) (v : V) : K -> V := fun x => if decide (x = k) then v else f x.

(** [multi_kills] and [clutches_won] are five-element arrays. *)
Record PlayerStats := { stat : Stat -> Z; multi_kills : list Z; clutches_won : list Z }.

Record PlayerRound := {
  pr_id : Z; pr_team : Z; pr_side : Z; count : RoundCount -> Z; flags : RoundFlag -> bool; clutch_vs : Z;
  money_start : Z; money_after_buy : Z; armor : Z; helmet : bool; defuser : bool; loadout : list string }.

Record RoundSummary := {
  round_number : Z; winner_side : Z; winner_team : Z; reason : Z; team1_score : Z; team2_score : Z; team1_was_ct : bool;
  rs_players : list PlayerRound }.

Record PlayerLine := { pl_id : Z; pl_name : string; pl_team : Z; last_side : Z; pl_bot : bool; stats : PlayerStats }.
Record TeamLine := { tl_score : Z; score_ct : Z; score_t : Z }.

Record MapStats := {
  live : bool; team1_is_ct : bool; team1 : TeamLine; team2 : TeamLine; players : list PlayerLine; rounds : list RoundSummary }.

Definition NewStats : PlayerStats := {| stat := fun _ => 0; multi_kills := replicate 5 0; clutches_won := replicate 5 0 |}.
Definition NewRound (id : Z) : PlayerRound := {|
  pr_id := id; pr_team := 0; pr_side := 0; count := fun _ => 0; flags := fun _ => false; clutch_vs := 0;
  money_start := -1; money_after_buy := -1; armor := -1; helmet := false; defuser := false; loadout := [] |}.
Definition NewTeamLine : TeamLine := {| tl_score := 0; score_ct := 0; score_t := 0 |}.

(** ** The accumulator *)

Record Player := { name : string; p_team : Z; lastSide : Z; bot : bool; s : PlayerStats }.
Definition NewPlayer : Player := {| name := EmptyString; p_team := 0; lastSide := 0; bot := false; s := NewStats |}.

Record Round := {
  side : gmap Z Z; dead : gset Z; pr : gmap Z PlayerRound; health : gmap Z Z; deathBy : gmap Z (Z * double);
  entryDone : bool; clutch : gmap Z (Z * Z) }.
Definition EmptyRound : Round := {|
  side := ∅; dead := ∅; pr := ∅; health := ∅; deathBy := ∅; entryDone := false; clutch := ∅ |}.

Record StatsAccumulator := {
  live_ : bool; team1IsCt_ : bool; players_ : gmap Z Player; round_ : Round; t1_ : TeamLine; t2_ : TeamLine;
  rounds_ : list RoundSummary }.

Definition set_players (a : StatsAccumulator) (m : gmap Z Player) : StatsAccumulator := {|
  live_ := live_ a; team1IsCt_ := team1IsCt_ a; players_ := m; round_ := round_ a; t1_ := t1_ a; t2_ := t2_ a; rounds_ := rounds_ a |}.
Definition set_round (a : StatsAccumulator) (r : Round) : StatsAccumulator := {|
  live_ := live_ a; team1IsCt_ := team1IsCt_ a; players_ := players_ a; round_ := r; t1_ := t1_ a; t2_ := t2_ a; rounds_ := rounds_ a |}.

Definition Clear (a : StatsAccumulator) : StatsAccumulator := {|
  live_ := false; team1IsCt_ := team1IsCt_ a; players_ := ∅; round_ := EmptyRound; t1_ := NewTeamLine; t2_ := NewTeamLine; rounds_ := [] |}.
Definition BeginMap (a : StatsAccumulator) (team1IsCt : bool) : StatsAccumulator := {|
  live_ := true; team1IsCt_ := team1IsCt; players_ := ∅; round_ := EmptyRound; t1_ := NewTeamLine; t2_ := NewTeamLine; rounds_ := [] |}.
Definition EndMap (a : StatsAccumulator) : StatsAccumulator := {|
  live_ := false; team1IsCt_ := team1IsCt_ a; players_ := players_ a; round_ := round_ a; t1_ := t1_ a; t2_ := t2_ a; rounds_ := rounds_ a |}.
Definition SetTeam1IsCt (a : StatsAccumulator) (b : bool) : StatsAccumulator := {|
  live_ := live_ a; team1IsCt_ := b; players_ := players_ a; round_ := round_ a; t1_ := t1_ a; t2_ := t2_ a; rounds_ := rounds_ a |}.

Definition SlotForSide (a : StatsAccumulator) (sd : Z) : Z :=
  if sd =? 3 then if team1IsCt_ a then 1 else 2 else if sd =? 2 then if team1IsCt_ a then 2 else 1 else 0.

Definition SideOf (a : StatsAccumulator) (id : Z) : Z :=
  match side (round_ a) !! id with
  | Some x => x
  | None => match players_ a !! id with Some p => lastSide p | None => 0 end
  end.

Definition on_side (sd : Z) : bool := (sd =? 2) || (sd =? 3).

(** [P(id)] and [R(id)] used as places: the entry is created when missing. *)
Definition modP (id : Z) (f : Player -> Player) (a : StatsAccumulator) : StatsAccumulator :=
  set_players a (<[id := f (default NewPlayer (players_ a !! id))]> (players_ a)).

Definition with_pr (r : Round) (m : gmap Z PlayerRound) : Round := {|
  side := side r; dead := dead r; pr := m; health := health r; deathBy := deathBy r; entryDone := entryDone r; clutch := clutch r |}.

Definition R (id : Z) (r : Round) : PlayerRound := default (NewRound id) (pr r !! id).
Definition modR (id : Z) (f : PlayerRound -> PlayerRound) (a : StatsAccumulator) : StatsAccumulator :=
  set_round a (with_pr (round_ a) (<[id := f (R id (round_ a))]> (pr (round_ a)))).

Definition inc (k : Stat) (n : Z) (p : Player) : Player := {|
  name := name p; p_team := p_team p; lastSide := lastSide p; bot := bot p;
  s := {| stat := fset (stat (s p)) k (stat (s p) k + n); multi_kills := multi_kills (s p); clutches_won := clutches_won (s p) |} |}.

Definition set_stats (p : Player) (x : PlayerStats) : Player := {|
  name := name p; p_team := p_team p; lastSide := lastSide p; bot := bot p; s := x |}.

Definition add_count (k : RoundCount) (n : Z) (r : PlayerRound) : PlayerRound := {|
  pr_id := pr_id r; pr_team := pr_team r; pr_side := pr_side r; count := fset (count r) k (count r k + n); flags := flags r;
  clutch_vs := clutch_vs r; money_start := money_start r; money_after_buy := money_after_buy r; armor := armor r;
  helmet := helmet r; defuser := defuser r; loadout := loadout r |}.
Definition set_flag (k : RoundFlag) (b : bool) (r : PlayerRound) : PlayerRound := {|
  pr_id := pr_id r; pr_team := pr_team r; pr_side := pr_side r; count := count r; flags := fset (flags r) k b;
  clutch_vs := clutch_vs r; money_start := money_start r; money_after_buy := money_after_buy r; armor := armor r;
  helmet := helmet r; defuser := defuser r; loadout := loadout r |}.
Definition set_place (team sd : Z) (r : PlayerRound) : PlayerRound := {|
  pr_id := pr_id r; pr_team := team; pr_side := sd; count := count r; flags := flags r;
  clutch_vs := clutch_vs r; money_start := money_start r; money_after_buy := money_after_buy r; armor := armor r;
  helmet := helmet r; defuser := defuser r; loadout := loadout r |}.
Definition set_clutch_vs (n : Z) (r : PlayerRound) : PlayerRound := {|
  pr_id := pr_id r; pr_team := pr_team r; pr_side := pr_side r; count := count r; flags := flags r;
  clutch_vs := n; money_start := money_start r; money_after_buy := money_after_buy r; armor := armor r;
  helmet := helmet r; defuser := defuser r; loadout := loadout r |}.
Definition set_money (m : Z) (r : PlayerRound) : PlayerRound := {|
  pr_id := pr_id r; pr_team := pr_team r; pr_side := pr_side r; count := count r; flags := flags r;
  clutch_vs := clutch_vs r; money_start := m; money_after_buy := money_after_buy r; armor := armor r;
  helmet := helmet r; defuser := defuser r; loadout := loadout r |}.
Definition set_buy (m ar : Z) (h d : bool) (lo : list string) (r : PlayerRound) : PlayerRound := {|
  pr_id := pr_id r; pr_team := pr_team r; pr_side := pr_side r; count := count r; flags := flags r;
  clutch_vs := clutch_vs r; money_start := money_start r; money_after_buy := m; armor := ar; helmet := h; defuser := d; loadout := lo |}.

Definition ObservePlayer (a : StatsAccumulator) (id : Z) (nm : string) (sd teamSlot : Z) (isBot : bool) : StatsAccumulator :=
  if id =? 0 then a
  else
    let p := default NewPlayer (players_ a !! id) in
    let ls := if on_side sd then sd else lastSide p in
    let tm := if (teamSlot =? 1) || (teamSlot =? 2) then teamSlot
              else if p_team p =? 0 then SlotForSide a ls else p_team p in
    let p := {| name := if sempty nm then name p else nm; p_team := tm; lastSide := ls; bot := isBot || bot p; s := s p |} in
    let a := set_players a (<[id := p]> (players_ a)) in
    if live_ a && on_side sd then
      let r := round_ a in
      let a := set_round a {| side := <[id := sd]> (side r); dead := dead r; pr := pr r; health := health r; deathBy := deathBy r;
                              entryDone := entryDone r; clutch := clutch r |} in
      modR id (set_place tm sd) a
    else a.

Definition OnRoundStart (a : StatsAccumulator) : StatsAccumulator := set_round a EmptyRound.

Definition IsUtilityWeapon (w : string) : bool :=
  (w =s "hegrenade") || (w =s "inferno") || (w =s "molotov") || (w =s "incgrenade") || (w =s "weapon_hegrenade") ||
  (w =s "weapon_molotov") || (w =s "weapon_incgrenade").
Definition IsKnifeWeapon (w : string) : bool := contains "knife" w || contains "bayonet" w.
Definition kTradeWindowSeconds : double := of_int 5.

(** [round_.side.emplace], [round_.dead.insert], [round_.entryDone = true], [round_.deathBy[v] = ...]. *)
Definition emplace_side (id sd : Z) (r : Round) : Round := {|
  side := match side r !! id with Some _ => side r | None => <[id := sd]> (side r) end; dead := dead r; pr := pr r;
  health := health r; deathBy := deathBy r; entryDone := entryDone r; clutch := clutch r |}.
Definition insert_dead (id : Z) (r : Round) : Round := {|
  side := side r; dead := {[id]} ∪ dead r; pr := pr r; health := health r; deathBy := deathBy r; entryDone := entryDone r; clutch := clutch r |}.
Definition set_entry (r : Round) : Round := {|
  side := side r; dead := dead r; pr := pr r; health := health r; deathBy := deathBy r; entryDone := true; clutch := clutch r |}.
Definition set_death_by (v : Z) (k : Z) (time : double) (r : Round) : Round := {|
  side := side r; dead := dead r; pr := pr r; health := health r; deathBy := <[v := (k, time)]> (deathBy r); entryDone := entryDone r;
  clutch := clutch r |}.
Definition set_health (v hp : Z) (r : Round) : Round := {|
  side := side r; dead := dead r; pr := pr r; health := <[v := hp]> (health r); deathBy := deathBy r; entryDone := entryDone r;
  clutch := clutch r |}.
Definition set_clutch (sd : Z) (x : Z * Z) (r : Round) : Round := {|
  side := side r; dead := dead r; pr := pr r; health := health r; deathBy := deathBy r; entryDone := entryDone r;
  clutch := <[sd := x]> (clutch r) |}.
Definition on_round (f : Round -> Round) (a : StatsAccumulator) : StatsAccumulator := set_round a (f (round_ a)).

(** The first kill of the round. *)
Definition credit_entry (attacker victim attackerSide victimSide : Z) (a : StatsAccumulator) : StatsAccumulator :=
  if entryDone (round_ a) then a
  else
    let a := modR victim (set_flag entry_death true) (modR attacker (set_flag entry_kill true) (on_round set_entry a)) in
    let a := if attackerSide =? 2 then modP attacker (inc entry_kills_t 1) a
             else if attackerSide =? 3 then modP attacker (inc entry_kills_ct 1) a else a in
    if victimSide =? 2 then modP victim (inc entry_deaths_t 1) a
    else if victimSide =? 3 then modP victim (inc entry_deaths_ct 1) a else a.

(** One entry of [deathBy] in the trade loop; the flag says whether any was traded. *)
Definition credit_trade (attacker victim attackerSide : Z) (time : double)
    (x : StatsAccumulator * bool) (kv : Z * (Z * double)) : StatsAccumulator * bool :=
  let '(a, tr) := x in
  let '(mate, (killer, at_)) := kv in
  if negb (killer =? victim) || (mate =? attacker) then x
  else if kTradeWindowSeconds <d dsub time at_ then x
  else if negb (SideOf a mate =? attackerSide) then x
  else
    let a := modR mate (fun r => r) a in
    if flags (R mate (round_ a)) traded then (a, true)
    else (modP mate (inc traded_deaths 1) (modR mate (fun r => set_flag kast true (set_flag traded true r)) a), true).

Definition credit_kill (attacker victim attackerSide victimSide : Z) (headshot : bool) (weapon : string) (time : double)
    (a : StatsAccumulator) : StatsAccumulator :=
  let a := modP attacker (inc kills 1) a in
  let a := modR attacker (fun r => set_flag kast true (add_count r_kills 1 r)) a in
  let a := if headshot then modR attacker (add_count r_headshot_kills 1) (modP attacker (inc headshot_kills 1) a) else a in
  let a := if IsKnifeWeapon weapon then modP attacker (inc knife_kills 1) a else a in
  let a := credit_entry attacker victim attackerSide victimSide a in
  let '(a, tr) := foldl (credit_trade attacker victim attackerSide time) (a, false) (map_to_list (deathBy (round_ a))) in
  if tr then modP attacker (inc trade_kills 1) a else a.

Definition credit_assist (assister attacker victim victimSide : Z) (assistedFlash : bool) (a : StatsAccumulator) : StatsAccumulator :=
  if negb (assister =? 0) && negb (assister =? attacker) && negb (assister =? victim) then
    let sd := SideOf a assister in
    if (sd =? 0) || negb (sd =? victimSide) then
      if assistedFlash
      then modR assister (fun r => set_flag kast true (add_count r_flash_assists 1 r)) (modP assister (inc flash_assists 1) a)
      else modR assister (fun r => set_flag kast true (add_count r_assists 1 r)) (modP assister (inc assists 1) a)
    else a
  else a.

(** The players of a side still alive (count and the last one visited) and the living enemies. *)
Definition clutch_scan (r : Round) (victimSide : Z) : Z * Z * Z :=
  foldl (fun '(last, alive, enemies) '(id, sd) =>
           if bool_decide (id ∈ dead r) then (last, alive, enemies)
           else if sd =? victimSide then (id, alive + 1, enemies)
           else if on_side sd then (last, alive, enemies + 1) else (last, alive, enemies))
        (0, 0, 0) (map_to_list (side r)).

Definition check_clutch (victimSide : Z) (a : StatsAccumulator) : StatsAccumulator :=
  if on_side victimSide && bool_decide (clutch (round_ a) !! victimSide = None) then
    let '(last, alive, enemies) := clutch_scan (round_ a) victimSide in
    if (alive =? 1) && (1 <=? enemies)
    then modR last (set_clutch_vs (Z.min enemies 5)) (on_round (set_clutch victimSide (last, Z.min enemies 5)) a)
    else a
  else a.

Definition OnPlayerDeath (a : StatsAccumulator) (victim attacker assister : Z) (assistedFlash headshot : bool) (weapon : string)
    (time : double) : StatsAccumulator :=
  if negb (live_ a) || (victim =? 0) then a
  else
    let victimSide := SideOf a victim in
    let a := if on_side victimSide then on_round (emplace_side victim victimSide) a else a in
    let a := modR victim (set_flag died true) (on_round (insert_dead victim) (modP victim (inc deaths 1) a)) in
    let suicide := (attacker =? 0) || (attacker =? victim) in
    let attackerSide := if suicide then 0 else SideOf a attacker in
    let teamKill := negb suicide && negb (attackerSide =? 0) && (attackerSide =? victimSide) in
    let a := if suicide then modP victim (inc suicides 1) a
             else if teamKill then modP attacker (inc team_kills 1) a
             else credit_kill attacker victim attackerSide victimSide headshot weapon time a in
    let a := if suicide then a else on_round (set_death_by victim attacker time) a in
    let a := credit_assist assister attacker victim victimSide assistedFlash a in
    check_clutch victimSide a.

Definition health_before (r : Round) (victim : Z) : Z := Z.max 0 (default 100 (health r !! victim)).

Definition OnPlayerHurt (a : StatsAccumulator) (victim attacker dmgHealth healthAfter : Z) (weapon : string) : StatsAccumulator :=
  if negb (live_ a) || (victim =? 0) then a
  else
    let before := health_before (round_ a) victim in
    let after := clamp healthAfter 0 before in
    let actual := if 0 <? dmgHealth then before - after else 0 in
    let a := on_round (set_health victim after) a in
    if (attacker =? 0) || (attacker =? victim) then a
    else
      let sd := SideOf a attacker in
      if negb (sd =? 0) && (sd =? SideOf a victim) then a
      else
        let a := modR attacker (add_count r_damage actual) (modP attacker (inc damage actual) a) in
        if IsUtilityWeapon weapon
        then modR attacker (add_count r_utility_damage actual) (modP attacker (inc utility_damage actual) a)
        else a.

Definition OnPlayerBlind (a : StatsAccumulator) (victim attacker : Z) (duration : double) : StatsAccumulator :=
  if negb (live_ a) || (victim =? 0) || (attacker =? 0) || (attacker =? victim) || (duration <=d of_int 0) then a
  else
    let sd := SideOf a attacker in
    let a := modP attacker (fun p => p) a in
    modP attacker (inc (if negb (sd =? 0) && (sd =? SideOf a victim) then friendlies_flashed else enemies_flashed) 1) a.

Definition OnBombPlanted (a : StatsAccumulator) (id : Z) : StatsAccumulator :=
  if live_ a && negb (id =? 0) then modP id (inc bomb_plants 1) a else a.
Definition OnBombDefused (a : StatsAccumulator) (id : Z) : StatsAccumulator :=
  if live_ a && negb (id =? 0) then modP id (inc bomb_defuses 1) a else a.
Definition OnRoundMvp (a : StatsAccumulator) (id : Z) : StatsAccumulator :=
  if negb (live_ a) || (id =? 0) then a else modR id (set_flag r_mvp true) (modP id (inc mvp 1) a).
Definition SetScore (a : StatsAccumulator) (id sc : Z) : StatsAccumulator :=
  if negb (id =? 0) && (0 <=? sc)
  then modP id (fun p => set_stats p {| stat := fset (stat (s p)) score sc; multi_kills := multi_kills (s p); clutches_won := clutches_won (s p) |}) a
  else a.
Definition SetMoneyStart (a : StatsAccumulator) (id money : Z) : StatsAccumulator :=
  if negb (live_ a) || (id =? 0) then a else modR id (set_money money) a.
Definition SetLoadout (a : StatsAccumulator) (id moneyAfterBuy ar : Z) (h d : bool) (lo : list string) : StatsAccumulator :=
  if negb (live_ a) || (id =? 0) then a else modR id (set_buy moneyAfterBuy ar h d lo) a.

(** ** Closing a round *)

Definition win_round (t : TeamLine) (winnerSide : Z) : TeamLine := {|
  tl_score := tl_score t + 1; score_ct := if winnerSide =? 3 then score_ct t + 1 else score_ct t;
  score_t := if winnerSide =? 3 then score_t t else score_t t + 1 |}.

Definition set_lines (a : StatsAccumulator) (l1 l2 : TeamLine) : StatsAccumulator := {|
  live_ := live_ a; team1IsCt_ := team1IsCt_ a; players_ := players_ a; round_ := round_ a; t1_ := l1; t2_ := l2; rounds_ := rounds_ a |}.

(** The first loop of [OnRoundEnd], one participant. *)
Definition close_participant (a : StatsAccumulator) (kv : Z * Z) : StatsAccumulator :=
  let '(id, sd) := kv in
  let a := modP id (fun p => p) a in
  let p := default NewPlayer (players_ a !! id) in
  let alive := negb (bool_decide (id ∈ dead (round_ a))) in
  let upd := fun r =>
    let r := set_place (if pr_team r =? 0 then p_team p else pr_team r) sd r in
    let r := set_flag survived alive r in
    if alive then set_flag kast true r else r in
  let a := modR id upd a in
  let a := modP id (inc rounds_played 1) a in
  if flags (R id (round_ a)) kast then modP id (inc kast_rounds 1) a else a.

(** [array[i] += 1]. *)
Definition bump_at (l : list Z) (i : Z) : list Z := alter (fun v => v + 1) (Z.to_nat i) l.

(** The second loop, one player of the round: the player totals and the closed line. *)
Definition close_line (winnerSide : Z) (c : gmap Z (Z * Z)) (x : gmap Z Player * list PlayerRound) (kv : Z * PlayerRound)
    : gmap Z Player * list PlayerRound :=
  let '(ps, out) := x in
  let '(id, r) := kv in
  let p := default NewPlayer (ps !! id) in
  let mk := if 0 <? count r r_kills then bump_at (multi_kills (s p)) (Z.min (count r r_kills) 5 - 1) else multi_kills (s p) in
  let won := (0 <? clutch_vs r) && match c !! winnerSide with Some (who, _) => who =? id | None => false end in
  let cw := if won then bump_at (clutches_won (s p)) (clutch_vs r - 1) else clutches_won (s p) in
  let r := if won then set_flag clutch_won true r else r in
  let p := set_stats p {| stat := stat (s p); multi_kills := mk; clutches_won := cw |} in
  let r := if pr_team r =? 0 then set_place (p_team p) (pr_side r) r else r in
  (<[id := p]> ps, out ++ [r]).

Definition round_le (a b : PlayerRound) : Prop := if decide (pr_team a = pr_team b) then pr_id a <= pr_id b else pr_team a < pr_team b.
#[export] Instance round_le_dec : RelDecision round_le.
Proof. intros a b. unfold round_le. destruct (decide _); apply _. Defined.

Definition OnRoundEnd (a : StatsAccumulator) (winnerSide reason_ : Z) : StatsAccumulator :=
  if negb (live_ a) then a
  else
    let slot := SlotForSide a winnerSide in
    let a := set_lines a (if slot =? 1 then win_round (t1_ a) winnerSide else t1_ a)
                         (if slot =? 2 then win_round (t2_ a) winnerSide else t2_ a) in
    let a := foldl close_participant a (map_to_list (side (round_ a))) in
    let '(ps, lines) := foldl (close_line winnerSide (clutch (round_ a))) (players_ a, []) (map_to_list (pr (round_ a))) in
    let sum := {|
      round_number := zlen (rounds_ a) + 1; winner_side := if on_side winnerSide then winnerSide else 0; winner_team := slot;
      reason := reason_; team1_score := tl_score (t1_ a); team2_score := tl_score (t2_ a); team1_was_ct := team1IsCt_ a;
      rs_players := merge_sort round_le lines |} in
    {| live_ := live_ a; team1IsCt_ := team1IsCt_ a; players_ := ps; round_ := EmptyRound; t1_ := t1_ a; t2_ := t2_ a;
       rounds_ := rounds_ a ++ [sum] |}.

(** ** Snapshot and restore *)

Definition line_le (a b : PlayerLine) : Prop := if decide (pl_team a = pl_team b) then pl_id a <= pl_id b else pl_team a < pl_team b.
#[export] Instance line_le_dec : RelDecision line_le.
Proof. intros a b. unfold line_le. destruct (decide _); apply _. Defined.

Definition line_of (kv : Z * Player) : PlayerLine := {|
  pl_id := kv.1; pl_name := name kv.2; pl_team := p_team kv.2; last_side := lastSide kv.2; pl_bot := bot kv.2; stats := s kv.2 |}.

Definition Snapshot (a : StatsAccumulator) : MapStats := {|
  live := live_ a; team1_is_ct := team1IsCt_ a; team1 := t1_ a; team2 := t2_ a;
  players := merge_sort line_le (line_of <$> map_to_list (players_ a)); rounds := rounds_ a |}.

Definition player_of (l : PlayerLine) : Player := {|
  name := pl_name l; p_team := pl_team l; lastSide := last_side l; bot := pl_bot l; s := stats l |}.

Definition Restore (m : MapStats) : StatsAccumulator := {|
  live_ := live m; team1IsCt_ := team1_is_ct m;
  players_ := foldl (fun ps l => <[pl_id l := player_of l]> ps) ∅ (players m);
  round_ := EmptyRound; t1_ := team1 m; t2_ := team2 m; rounds_ := rounds m |}.

(** ** Rewind *)

(** The lambda [dec] of [RewindTo]. *)
Definition dec (v by_ : Z) : Z := if v - by_ <? 0 then 0 else v - by_.
Definition dec_stat (k : Stat) (n : Z) (x : PlayerStats) : PlayerStats := {|
  stat := fset (stat x) k (dec (stat x k) n); multi_kills := multi_kills x; clutches_won := clutches_won x |}.
Definition dec_if (b : bool) (k : Stat) (x : PlayerStats) : PlayerStats := if b then dec_stat k 1 x else x.
Definition dec_at (l : list Z) (i : Z) : list Z := alter (fun v => dec v 1) (Z.to_nat i) l.

(** One player line of a dropped round taken off the player's totals. *)
Definition take_off (p : PlayerRound) (x : PlayerStats) : PlayerStats :=
  let x := dec_stat kills (count p r_kills) x in
  let x := dec_stat assists (count p r_assists) x in
  let x := dec_stat flash_assists (count p r_flash_assists) x in
  let x := dec_stat damage (count p r_damage) x in
  let x := dec_stat utility_damage (count p r_utility_damage) x in
  let x := dec_stat headshot_kills (count p r_headshot_kills) x in
  let x := dec_if (flags p died) deaths x in
  let x := dec_if (flags p kast) kast_rounds x in
  let x := dec_stat rounds_played 1 x in
  let x := dec_if (flags p r_mvp) mvp x in
  let x := dec_if (flags p entry_kill) (if pr_side p =? 2 then entry_kills_t else entry_kills_ct) x in
  let x := dec_if (flags p entry_death) (if pr_side p =? 2 then entry_deaths_t else entry_deaths_ct) x in
  let x := dec_if (flags p traded) traded_deaths x in
  {| stat := stat x;
     multi_kills := if 0 <? count p r_kills then dec_at (multi_kills x) (Z.min (count p r_kills) 5 - 1) else multi_kills x;
     clutches_won := if flags p clutch_won && (1 <=? clutch_vs p) && (clutch_vs p <=? 5) then dec_at (clutches_won x) (clutch_vs p - 1)
                     else clutches_won x |}.

(** [find_if] on the id, then the update in place. *)
Fixpoint update_line (id : Z) (f : PlayerStats -> PlayerStats) (l : list PlayerLine) : list PlayerLine :=
  match l with
  | [] => []
  | x :: l =>
      if pl_id x =? id
      then {| pl_id := pl_id x; pl_name := pl_name x; pl_team := pl_team x; last_side := last_side x; pl_bot := pl_bot x; stats := f (stats x) |} :: l
      else x :: update_line id f l
  end.

Definition lose_round (t : TeamLine) (winnerCt : bool) : TeamLine := {|
  tl_score := dec (tl_score t) 1; score_ct := if winnerCt then dec (score_ct t) 1 else score_ct t;
  score_t := if winnerCt then score_t t else dec (score_t t) 1 |}.

(** One dropped round: scores and players. *)
Definition drop_round (m : MapStats) (r : RoundSummary) : MapStats := {|
  live := live m; team1_is_ct := team1_is_ct m;
  team1 := if winner_team r =? 1 then lose_round (team1 m) (team1_was_ct r) else team1 m;
  team2 := if winner_team r =? 2 then lose_round (team2 m) (negb (team1_was_ct r)) else team2 m;
  players := foldl (fun ps p => update_line (pr_id p) (take_off p) ps) (players m) (rs_players r);
  rounds := rounds m |}.

(** The loop: kept rounds, the state, whether the side is set, and how many were dropped. *)
Definition rewind_step (fromRound : Z) (x : MapStats * list RoundSummary * bool * Z) (r : RoundSummary)
    : MapStats * list RoundSummary * bool * Z :=
  let '(m, kept, sideSet, dropped) := x in
  if round_number r <? fromRound then (m, kept ++ [r], sideSet, dropped)
  else
    let m := if sideSet then m
             else {| live := live m; team1_is_ct := team1_was_ct r; team1 := team1 m; team2 := team2 m; players := players m; rounds := rounds m |} in
    (drop_round m r, kept, true, dropped + 1).

Definition RewindTo (m : MapStats) (fromRound : Z) : MapStats * Z :=
  if fromRound <? 1 then (m, 0)
  else
    let '(m', kept, _, dropped) := foldl (rewind_step fromRound) (m, [], false, 0) (rounds m) in
    ({| live := live m'; team1_is_ct := team1_is_ct m'; team1 := team1 m'; team2 := team2 m'; players := players m'; rounds := kept |}, dropped).
