(* ===== verification/StatsFacts.v ===== *)
(** * Theorems about the match statistics

    Two books are kept of every counter: the player totals and the lines of the recorded rounds.
    The files shows that they agree through any sequence of events, reloads and rewinds, so that a
    rewind restores the score of the earlier round and takes off exactly what the dropped rounds had
    added; and that the damage of a round is bounded by the health there was. *)

From S2P Require Import Prelude CStr Double Stats.

(** ** Moves: the elementary effects of the event handlers *)

(** The total a round counter adds up to. *)
Definition total (k : RoundCount) : Stat :=
  match k with
  | r_kills => kills | r_assists => assists | r_flash_assists => flash_assists | r_damage => damage
  | r_utility_damage => utility_damage | r_headshot_kills => headshot_kills
  end.

(** A player update that leaves the totals of the round counters alone. *)
Definition untracked (f : Player -> Player) : Prop := forall p k, stat (s (f p)) (total k) = stat (s p) (total k).
(** A round line update that leaves its identity and counters alone. *)
Definition uncounted (f : PlayerRound -> PlayerRound) : Prop := forall r, pr_id (f r) = pr_id r /\ forall k, count (f r) k = count r k.

Inductive move : StatsAccumulator -> StatsAccumulator -> Prop :=
  | move_refl a : move a a
  | move_trans a b c : move a b -> move b c -> move a c
  | move_P a id f : untracked f -> move a (modP id f a)
  | move_R a id f : uncounted f -> move a (modR id f a)
  | move_round a f : (forall r, pr (f r) = pr r) -> move a (on_round f a)
  | move_count a id k n : 0 <= n -> move a (modR id (add_count k n) (modP id (inc (total k) n) a)).

Create HintDb moves.

Lemma fset_same {K} `{EqDecision K} {V} (f : K -> V) k v : fset f k v k = v.
Proof. unfold fset. by rewrite decide_True. Qed.
Lemma fset_other {K} `{EqDecision K} {V} (f : K -> V) k k' v : k <> k' -> fset f k v k' = f k'.
Proof. intros. unfold fset. rewrite decide_False; congruence. Qed.

Lemma total_inj k k' : total k = total k' -> k = k'.
Proof. by destruct k, k'. Qed.

Lemma untracked_inc x n : (forall k, total k <> x) -> untracked (inc x n).
Proof. intros H p k. cbn. apply fset_other. auto. Qed.
Lemma untracked_id : untracked (fun p => p).
Proof. done. Qed.
Lemma uncounted_id : uncounted (fun r => r).
Proof. done. Qed.
Lemma uncounted_flag k b : uncounted (set_flag k b).
Proof. done. Qed.
Lemma uncounted_place t sd : uncounted (set_place t sd).
Proof. done. Qed.
Lemma uncounted_comp f g : uncounted f -> uncounted g -> uncounted (fun r => g (f r)).
Proof. intros Hf Hg r. destruct (Hf r) as [E1 E2], (Hg (f r)) as [E3 E4]. split; [congruence|]. intros k. by rewrite E4, E2. Qed.

Ltac untracked_tac := first [apply untracked_id | apply untracked_inc; by intros [] | done].

Lemma modR_comp id f g a : modR id (fun r => g (f r)) a = modR id g (modR id f a).
Proof.
  unfold modR, set_round, with_pr, R. cbn. f_equal. f_equal. by rewrite lookup_insert_eq, insert_insert_eq.
Qed.

Lemma move_count_flag a id k n fl b :
  0 <= n -> move a (modR id (fun r => set_flag fl b (add_count k n r)) (modP id (inc (total k) n) a)).
Proof.
  intros Hn. rewrite modR_comp. eapply move_trans; [by apply move_count|]. by apply move_R.
Qed.

(** Closes [move a b] goals: strips the outermost update and continues with what is below. *)
Ltac move_tac :=
  repeat first
    [ apply move_refl
    | apply move_count; lia
    | apply (move_count_flag _ _ r_kills); lia | apply (move_count_flag _ _ r_assists); lia
    | apply (move_count_flag _ _ r_flash_assists); lia
    | eapply move_trans; [|apply move_P; untracked_tac]
    | eapply move_trans; [|apply move_R; first [apply uncounted_id | apply uncounted_flag | apply uncounted_place | done]]
    | eapply move_trans; [|apply move_round; done]
    | case_if ].

Lemma move_ObservePlayer a id nm sd t b : move a (ObservePlayer a id nm sd t b).
Proof.
  unfold ObservePlayer. destruct (id =? 0); [apply move_refl|]. cbv zeta.
  set (tm := if _ || _ then t else _). set (ls := if on_side sd then sd else _).
  set (f := fun p => {| name := if sempty nm then name p else nm; p_team := tm; lastSide := ls; bot := b || bot p; s := s p |}).
  assert (move a (modP id f a)) as H by (apply move_P; done). fold (f (default NewPlayer (players_ a !! id))).
  change (set_players a _) with (modP id f a). case_if; [|done].
  eapply move_trans; [done|]. eapply move_trans; [|apply move_R; apply uncounted_place].
  apply (move_round _ (fun r => {| side := <[id := sd]> (side r); dead := dead r; pr := pr r; health := health r;
    deathBy := deathBy r; entryDone := entryDone r; clutch := clutch r |})). done.
Qed.

Lemma move_credit_entry x y sx sy a : move a (credit_entry x y sx sy a).
Proof. unfold credit_entry. cbv zeta. move_tac. Qed.

Lemma move_trades x y sx time l a tr : move a (foldl (credit_trade x y sx time) (a, tr) l).1.
Proof.
  revert a tr. induction l as [|[mate [killer at_]] l IH]; intros a tr; [apply move_refl|].
  cbn [foldl]. unfold credit_trade at 2. cbv zeta. repeat case_if; try apply IH.
  - eapply move_trans; [|apply IH]. move_tac.
  - eapply move_trans; [|apply IH]. rewrite modR_comp. move_tac.
Qed.

Lemma move_credit_kill x y sx sy hs w time a : move a (credit_kill x y sx sy hs w time a).
Proof.
  unfold credit_kill. cbv zeta.
  set (a1 := modR x _ (modP x (inc kills 1) a)). assert (move a a1) as H1 by (apply (move_count_flag _ _ r_kills); lia).
  set (a2 := if hs then _ else a1).
  assert (move a1 a2) as H2 by (subst a2; destruct hs; [apply (move_count _ _ r_headshot_kills); lia|apply move_refl]).
  set (a3 := if IsKnifeWeapon w then _ else a2). assert (move a2 a3) as H3 by (subst a3; move_tac).
  set (a4 := credit_entry _ _ _ _ a3). pose proof (move_credit_entry x y sx sy a3 : move a3 a4) as H4.
  pose proof (move_trades x y sx time (map_to_list (deathBy (round_ a4))) a4 false) as H5.
  destruct (foldl _ _ _) as [a5 tr]. cbn in H5.
  assert (move a a5) as H by eauto using move_trans. destruct tr; [|done].
  eapply move_trans; [done|]. apply move_P. untracked_tac.
Qed.

Lemma move_credit_assist x y z sz fl a : move a (credit_assist x y z sz fl a).
Proof.
  unfold credit_assist. cbv zeta. repeat case_if; try apply move_refl.
  - apply (move_count_flag _ _ r_flash_assists). lia.
  - apply (move_count_flag _ _ r_assists). lia.
Qed.

Lemma move_check_clutch sd a : move a (check_clutch sd a).
Proof.
  unfold check_clutch. case_if; [|apply move_refl]. destruct (clutch_scan _ _) as [[last alive] enemies].
  case_if; [|apply move_refl]. move_tac.
Qed.

Lemma move_OnPlayerDeath a v x y fl hs w time : move a (OnPlayerDeath a v x y fl hs w time).
Proof.
  unfold OnPlayerDeath. case_if; [apply move_refl|]. cbv zeta. set (vs := SideOf a v).
  set (a1 := modR v _ _). assert (move a a1) as H1 by (subst a1; move_tac).
  set (sd := if _ || _ then 0 else _).
  set (a2 := if (x =? 0) || (x =? v) then modP v (inc suicides 1) a1 else _).
  assert (move a1 a2) as H2 by (subst a2; repeat case_if; [| |apply move_credit_kill]; move_tac).
  set (a3 := if (x =? 0) || (x =? v) then a2 else _). assert (move a2 a3) as H3 by (subst a3; move_tac).
  eapply move_trans; [|apply move_check_clutch]. eapply move_trans; [|apply move_credit_assist].
  eauto using move_trans.
Qed.

Lemma damage_nonneg before hp dmg : 0 <= before -> 0 <= (if 0 <? dmg then before - clamp hp 0 before else 0).
Proof. intros. pose proof (clamp_bounds hp 0 before). case_if; lia. Qed.

Lemma move_OnPlayerHurt a v x dmg hp w : move a (OnPlayerHurt a v x dmg hp w).
Proof.
  unfold OnPlayerHurt. case_if; [apply move_refl|]. cbv zeta.
  pose proof (damage_nonneg (health_before (round_ a) v) hp dmg ltac:(unfold health_before; lia)) as Hd.
  set (d := if 0 <? dmg then _ else 0) in *. set (a1 := on_round _ a).
  assert (move a a1) as H1 by (subst a1; move_tac). repeat case_if; try done.
  all: eapply move_trans; [done|]; try (apply (move_count _ _ r_damage); lia).
  eapply move_trans; [apply (move_count _ x r_damage d); lia|]. apply (move_count _ _ r_utility_damage). lia.
Qed.

Lemma move_OnPlayerBlind a v x d : move a (OnPlayerBlind a v x d).
Proof.
  unfold OnPlayerBlind. case_if; [apply move_refl|]. cbv zeta. eapply move_trans; [|apply move_P].
  - move_tac.
  - case_if; untracked_tac.
Qed.

Lemma move_OnRoundMvp a id : move a (OnRoundMvp a id).
Proof. unfold OnRoundMvp. move_tac. Qed.
Lemma move_OnBombPlanted a id : move a (OnBombPlanted a id).
Proof. unfold OnBombPlanted. move_tac. Qed.
Lemma move_OnBombDefused a id : move a (OnBombDefused a id).
Proof. unfold OnBombDefused. move_tac. Qed.
Lemma move_SetMoneyStart a id m : move a (SetMoneyStart a id m).
Proof. unfold SetMoneyStart. move_tac. Qed.
Lemma move_SetLoadout a id m ar h d lo : move a (SetLoadout a id m ar h d lo).
Proof. unfold SetLoadout. move_tac. Qed.
Lemma move_SetScore a id sc : move a (SetScore a id sc).
Proof. unfold SetScore. case_if; [|apply move_refl]. apply move_P. intros p []; done. Qed.

Lemma move_close_participant a kv : move a (close_participant a kv).
Proof.
  destruct kv as [id sd]. unfold close_participant. cbv zeta.
  set (a1 := modP id (fun p => p) a). assert (move a a1) as H1 by (apply move_P; done).
  set (upd := fun r : PlayerRound => _). set (a2 := modR id upd a1).
  assert (move a1 a2) as H2. { apply move_R. intros r. subst upd. cbn. by case_if. }
  set (a3 := modP id (inc rounds_played 1) a2). assert (move a2 a3) as H3 by (apply move_P; untracked_tac).
  case_if; [eapply move_trans; [|apply move_P; untracked_tac]|]; eauto using move_trans.
Qed.

Lemma move_participants l a : move a (foldl close_participant a l).
Proof. revert a. induction l as [|kv l IH]; intros a; cbn; [apply move_refl|]. eapply move_trans; [apply move_close_participant|apply IH]. Qed.

(** ** The two books *)

Definition round_lines (rs : list RoundSummary) : list PlayerRound := concat (rs_players <$> rs).
(** What the recorded lines hold for a player, what the open round holds, and the player's total. *)
Definition booked (id : Z) (k : RoundCount) (ls : list PlayerRound) : Z :=
  sumZ (fun r => if pr_id r =? id then count r k else 0) ls.
Definition held (m : gmap Z PlayerRound) (id : Z) (k : RoundCount) : Z := match m !! id with Some r => count r k | None => 0 end.
Definition account (ps : gmap Z Player) (id : Z) (k : RoundCount) : Z :=
  match ps !! id with Some p => stat (s p) (total k) | None => 0 end.

#[global] Arguments booked _ _ _ : simpl never.
#[global] Arguments round_lines _ : simpl never.

Definition counts_ok (r : PlayerRound) : Prop := forall k, 0 <= count r k.
Definition lines_ok (m : gmap Z PlayerRound) : Prop := forall id r, m !! id = Some r -> pr_id r = id /\ counts_ok r.

Record books (a : StatsAccumulator) : Prop := {
  books_cover : forall id k, booked id k (round_lines (rounds_ a)) + held (pr (round_ a)) id k <= account (players_ a) id k;
  books_open : lines_ok (pr (round_ a));
  books_closed : Forall counts_ok (round_lines (rounds_ a)) }.

Lemma account_insert ps id q id' k :
  account (<[id := q]> ps) id' k = if id =? id' then stat (s q) (total k) else account ps id' k.
Proof. unfold account. destruct (Z.eqb_spec id id') as [->|]; [by rewrite lookup_insert_eq|by rewrite lookup_insert_ne]. Qed.
Lemma held_insert m id r id' k : held (<[id := r]> m) id' k = if id =? id' then count r k else held m id' k.
Proof. unfold held. destruct (Z.eqb_spec id id') as [->|]; [by rewrite lookup_insert_eq|by rewrite lookup_insert_ne]. Qed.
Lemma held_R r id k : count (R id r) k = held (pr r) id k.
Proof. unfold R, held. by destruct (pr r !! id). Qed.
Lemma account_default ps id k : stat (s (default NewPlayer (ps !! id))) (total k) = account ps id k.
Proof. unfold account. by destruct (ps !! id). Qed.
Lemma R_ok r id : lines_ok (pr r) -> pr_id (R id r) = id /\ counts_ok (R id r).
Proof. intros H. unfold R. destruct (pr r !! id) eqn:E; [by apply H|]. split; [done|]. intros k. done. Qed.
Lemma lines_ok_insert m id r : lines_ok m -> pr_id r = id -> counts_ok r -> lines_ok (<[id := r]> m).
Proof. intros H Hi Hc id' r'. rewrite lookup_insert_Some. intros [[<- <-]|[_ E]]; [done|]. by apply H. Qed.

Lemma books_modP a id f : untracked f -> books a -> books (modP id f a).
Proof.
  intros Hf [H1 H2 H3]. split; [|done|done]. intros id' k. cbn. rewrite account_insert, Hf, account_default.
  specialize (H1 id' k). destruct (Z.eqb_spec id id') as [->|]; done.
Qed.

Lemma books_modR a id f : uncounted f -> books a -> books (modR id f a).
Proof.
  intros Hf [H1 H2 H3]. destruct (R_ok _ id H2) as [Hi Hc], (Hf (R id (round_ a))) as [Ei Ec]. split; [| |done].
  - intros id' k. cbn. rewrite held_insert, Ec, held_R. specialize (H1 id' k). by destruct (Z.eqb_spec id id') as [->|].
  - cbn. apply lines_ok_insert; [done|congruence|]. intros k. rewrite Ec. apply Hc.
Qed.

Lemma books_count a id k n : 0 <= n -> books a -> books (modR id (add_count k n) (modP id (inc (total k) n) a)).
Proof.
  intros Hn [H1 H2 H3]. destruct (R_ok _ id H2) as [Hi Hc]. split; [| |done].
  - intros id' k'. cbn. change (R id _) with (R id (round_ a)). rewrite held_insert, account_insert. specialize (H1 id' k').
    destruct (Z.eqb_spec id id') as [->|]; [|done]. cbn. unfold fset. rewrite !account_default, !held_R.
    destruct (decide (k' = k)) as [->|Hk]; [rewrite decide_True by done; lia|].
    by rewrite decide_False by (intros E; by apply total_inj in E).
  - cbn. apply lines_ok_insert; [done|done|]. intros k'. cbn. unfold fset. specialize (Hc k').
    case_decide; [subst; unfold R in *; cbn in *; lia|done].
Qed.

Lemma books_move a b : move a b -> books a -> books b.
Proof.
  induction 1 as [|a b c _ IH1 _ IH2|a id f Hf|a id f Hf|a f Hf|a id k n Hn]; intros H; auto using books_modP, books_modR, books_count.
  destruct H as [H1 H2 H3]. split; cbn; rewrite ?Hf; done.
Qed.

(** ** Closing a round moves the open lines to the recorded ones *)

Lemma sum_keyed (f : PlayerRound -> Z) id (l : list (Z * PlayerRound)) :
  NoDup l.*1 -> sumZ (fun kv => if kv.1 =? id then f kv.2 else 0) l = match (list_to_map l : gmap Z PlayerRound) !! id with Some r => f r | None => 0 end.
Proof.
  induction l as [|[i r] l IH]; [done|]. cbn [fmap list_fmap]. rewrite NoDup_cons. intros [Hi Hl]. rewrite sumZ_cons, (IH Hl). cbn [fst snd list_to_map foldr].
  destruct (Z.eqb_spec i id) as [->|].
  - rewrite lookup_insert_eq. apply not_elem_of_list_to_map in Hi. cbn [fst] in Hi. by rewrite Hi, Z.add_0_r.
  - by rewrite lookup_insert_ne.
Qed.

Lemma booked_app id k l l' : booked id k (l ++ l') = booked id k l + booked id k l'.
Proof. apply sumZ_app. Qed.

Lemma round_lines_app rs rs' : round_lines (rs ++ rs') = round_lines rs ++ round_lines rs'.
Proof. unfold round_lines. by rewrite fmap_app, concat_app. Qed.

Lemma booked_perm id k l l' : l ≡ₚ l' -> booked id k l = booked id k l'.
Proof. unfold booked. induction 1; rewrite ?sumZ_cons; [done|congruence|rewrite ?sumZ_cons; lia|congruence]. Qed.

(** A recorded line and the open line it came from. *)
Definition same_line (kv : Z * PlayerRound) (r : PlayerRound) : Prop := pr_id r = pr_id kv.2 /\ forall k, count r k = count kv.2 k.

Lemma close_lines w c l ps out :
  exists ps' ls, foldl (close_line w c) (ps, out) l = (ps', out ++ ls) /\ Forall2 same_line l ls /\
    forall id k, account ps' id k = account ps id k.
Proof.
  revert ps out. induction l as [|[id r] l IH]; intros ps out; cbn [foldl].
  { exists ps, []. rewrite app_nil_r. by repeat split. }
  destruct (close_line w c (ps, out) (id, r)) as [ps1 out1] eqn:E. unfold close_line in E. cbv zeta in E.
  injection E as E1 E2. destruct (IH ps1 out1) as (ps' & ls & Ef & Hl & Ha).
  exists ps'. eexists (_ :: ls). rewrite Ef, <- E2, <- app_assoc. cbn [app]. split; [reflexivity|]. split.
  - constructor; [|done]. unfold same_line. cbn. repeat case_if; done.
  - intros id' k. rewrite Ha, <- E1, account_insert. cbn. destruct (Z.eqb_spec id id') as [->|]; [|done]. apply account_default.
Qed.

Lemma booked_same id k l ls :
  (forall kv, kv ∈ l -> pr_id kv.2 = kv.1) -> Forall2 same_line l ls ->
  booked id k ls = sumZ (fun kv => if kv.1 =? id then count kv.2 k else 0) l.
Proof.
  intros Hk. induction 1 as [|kv r l ls [Hi Hc] _ IH]; [done|]. unfold booked in *. rewrite !sumZ_cons, IH by set_solver.
  by rewrite Hi, Hc, (Hk kv) by set_solver.
Qed.

Lemma books_OnRoundEnd a w reason : books a -> books (OnRoundEnd a w reason).
Proof.
  intros H. unfold OnRoundEnd. case_if; [done|]. cbv zeta. set (a0 := set_lines a _ _).
  set (a1 := foldl close_participant a0 _).
  assert (books a1) as [H1 H2 H3] by (eapply books_move; [apply move_participants|]; by destruct H; split).
  destruct (close_lines w (clutch (round_ a1)) (map_to_list (pr (round_ a1))) (players_ a1) []) as (ps & ls & -> & Hl & Ha).
  assert (forall kv, kv ∈ map_to_list (pr (round_ a1)) -> pr_id kv.2 = kv.1 /\ counts_ok kv.2) as Hk.
  { intros [i r]. rewrite elem_of_map_to_list. apply H2. }
  split; cbn.
  - intros id k. rewrite round_lines_app, booked_app, Ha. unfold held at 1. rewrite lookup_empty.
    specialize (H1 id k). unfold round_lines at 2. cbn. rewrite app_nil_r, (booked_perm _ _ (merge_sort round_le ls) ls) by apply merge_sort_Permutation.
    rewrite (booked_same id k (map_to_list (pr (round_ a1))) ls); [|intros; by apply Hk|done].
    rewrite (sum_keyed (fun r => count r k)) by apply NoDup_fst_map_to_list. rewrite list_to_map_to_list. unfold held in H1. lia.
  - intros id r. by rewrite lookup_empty.
  - rewrite round_lines_app. apply Forall_app. split; [done|]. unfold round_lines. cbn. rewrite app_nil_r, merge_sort_Permutation.
    clear -Hl Hk. induction Hl as [|kv r l ls [Hi Hc] _ IH]; constructor; [|apply IH; set_solver].
    intros k. rewrite Hc. apply Hk. set_solver.
Qed.

(** ** Snapshot, restore and rewind *)

(** A player's total in a snapshot. *)
Fixpoint line_stat (ps : list PlayerLine) (id : Z) (k : RoundCount) : Z :=
  match ps with
  | [] => 0
  | x :: ps => if pl_id x =? id then stat (stats x) (total k) else line_stat ps id k
  end.

Lemma restore_account ps m id k :
  NoDup (pl_id <$> ps) ->
  account (foldl (fun m l => <[pl_id l := player_of l]> m) m ps) id k = if decide (id ∈ pl_id <$> ps) then line_stat ps id k else account m id k.
Proof.
  revert m. induction ps as [|x ps IH]; intros m Hn; cbn [foldl line_stat].
  { by rewrite decide_False by set_solver. }
  cbn in Hn. apply NoDup_cons in Hn as [Hx Hn]. rewrite IH by done. rewrite account_insert. cbn.
  destruct (Z.eqb_spec (pl_id x) id) as [<-|Hne].
  - rewrite decide_False by done. by rewrite decide_True by set_solver.
  - destruct (decide (id ∈ pl_id <$> ps)); [rewrite decide_True by set_solver|rewrite decide_False by set_solver]; done.
Qed.

Lemma line_stat_absent ps id k : id ∉ pl_id <$> ps -> line_stat ps id k = 0.
Proof. induction ps as [|x ps IH]; cbn; [done|]. intros H. destruct (Z.eqb_spec (pl_id x) id); set_solver. Qed.

Lemma account_Restore m id k : NoDup (pl_id <$> players m) -> account (players_ (Restore m)) id k = line_stat (players m) id k.
Proof.
  intros H. cbn. rewrite restore_account by done. case_decide; [done|]. by rewrite line_stat_absent.
Qed.

Lemma line_stat_In ps x id k : NoDup (pl_id <$> ps) -> x ∈ ps -> pl_id x = id -> line_stat ps id k = stat (stats x) (total k).
Proof.
  induction ps as [|y ps IH]; intros Hn Hx He; [set_solver|]. cbn in *. apply NoDup_cons in Hn as [Hy Hn].
  apply elem_of_cons in Hx as [->|Hx]; [by rewrite He, Z.eqb_refl|].
  destruct (Z.eqb_spec (pl_id y) id) as [E|]; [|by apply IH]. exfalso. apply Hy. rewrite E, <- He. by apply list_elem_of_fmap_2.
Qed.

Lemma Snapshot_perm a : players (Snapshot a) ≡ₚ line_of <$> map_to_list (players_ a).
Proof. apply merge_sort_Permutation. Qed.

Lemma Snapshot_NoDup a : NoDup (pl_id <$> players (Snapshot a)).
Proof.
  rewrite Snapshot_perm, <- list_fmap_compose. apply (NoDup_fst_map_to_list (players_ a)).
Qed.

Lemma Snapshot_stat a id k : line_stat (players (Snapshot a)) id k = account (players_ a) id k.
Proof.
  unfold account. destruct (players_ a !! id) as [p|] eqn:E.
  - apply (line_stat_In _ (line_of (id, p))); [apply Snapshot_NoDup| |done].
    rewrite Snapshot_perm. apply list_elem_of_fmap_2. by apply elem_of_map_to_list.
  - apply line_stat_absent. rewrite Snapshot_perm, <- list_fmap_compose. intros ([i p] & -> & Hin)%list_elem_of_fmap_1.
    apply elem_of_map_to_list in Hin. cbn in E. congruence.
Qed.

(** Taking one line off. *)
Lemma stat_dec_other x n y k : (forall k, total k <> x) -> stat (dec_stat x n y) (total k) = stat y (total k).
Proof. intros H. cbn. apply fset_other. auto. Qed.
Lemma stat_dec_if b x y k : (forall k, total k <> x) -> stat (dec_if b x y) (total k) = stat y (total k).
Proof. intros H. destruct b; [by apply stat_dec_other|done]. Qed.

Lemma take_off_stat p x k : stat (take_off p x) (total k) = dec (stat x (total k)) (count p k).
Proof.
  unfold take_off. cbn [stat]. rewrite !stat_dec_if by (repeat case_if; by intros []).
  rewrite stat_dec_other by (by intros []). rewrite !stat_dec_if by (by intros []).
  destruct k; reflexivity.
Qed.

#[global] Arguments take_off : simpl never.

Lemma update_line_ids id f ps : pl_id <$> update_line id f ps = pl_id <$> ps.
Proof. induction ps as [|x ps IH]; cbn; [done|]. case_if; cbn; congruence. Qed.

Lemma take_off_line p ps id k :
  counts_ok p -> (if pr_id p =? id then count p k else 0) <= line_stat ps id k ->
  line_stat (update_line (pr_id p) (take_off p) ps) id k = line_stat ps id k - (if pr_id p =? id then count p k else 0).
Proof.
  intros Hc. specialize (Hc k). induction ps as [|x ps IH]; cbn.
  - case_if; lia.
  - intros H. destruct (Z.eqb_spec (pl_id x) id) as [Ex|Ex], (Z.eqb_spec (pl_id x) (pr_id p)) as [Ep|Ep], (Z.eqb_spec (pr_id p) id) as [Ei|Ei];
      try congruence; cbn; rewrite ?take_off_stat; unfold dec; rewrite ?(proj2 (Z.eqb_eq _ _) Ex), ?(proj2 (Z.eqb_neq _ _) Ex); try lia;
      rewrite ?(proj2 (Z.ltb_ge _ _)); try lia; apply IH; lia.
Qed.

Lemma take_off_lines ls ps id k :
  Forall counts_ok ls -> booked id k ls <= line_stat ps id k ->
  line_stat (foldl (fun ps p => update_line (pr_id p) (take_off p) ps) ps ls) id k = line_stat ps id k - booked id k ls.
Proof.
  revert ps. induction ls as [|p ls IH]; intros ps Hc Hb; cbn [foldl]; [unfold booked, sumZ; cbn; lia|].
  apply Forall_cons in Hc as [Hp Hc]. unfold booked in *. rewrite sumZ_cons in *. fold (booked id k ls) in *.
  assert (0 <= booked id k ls) as H0.
  { apply sumZ_nonneg. intros r Hr. rewrite Forall_forall in Hc. specialize (Hc r Hr k). case_if; lia. }
  assert (0 <= (if pr_id p =? id then count p k else 0)) as H1 by (specialize (Hp k); case_if; lia).
  pose proof (take_off_line p ps id k Hp ltac:(lia)) as E. rewrite IH by (done || lia). lia.
Qed.

(** The rounds a rewind keeps and drops. *)
Definition kept_rounds (n : Z) (rs : list RoundSummary) : list RoundSummary := filter (fun r => round_number r < n) rs.
Definition dropped_rounds (n : Z) (rs : list RoundSummary) : list RoundSummary := filter (fun r => n <= round_number r) rs.

Lemma rewind_fold n rs m kept ss d :
  let '(m', kept', _, d') := foldl (rewind_step n) (m, kept, ss, d) rs in
  kept' = kept ++ kept_rounds n rs /\ d' = d + zlen (dropped_rounds n rs) /\ live m' = live m /\
  team1 m' = team1 (foldl drop_round m (dropped_rounds n rs)) /\ team2 m' = team2 (foldl drop_round m (dropped_rounds n rs)) /\
  players m' = foldl (fun ps p => update_line (pr_id p) (take_off p) ps) (players m) (round_lines (dropped_rounds n rs)).
Proof.
  revert m kept ss d. induction rs as [|r rs IH]; intros m kept ss d; cbn [foldl].
  { unfold kept_rounds, dropped_rounds. cbn. rewrite app_nil_r. split_and!; try done. unfold zlen. cbn. lia. }
  unfold kept_rounds, dropped_rounds. rewrite !filter_cons. fold (kept_rounds n rs) (dropped_rounds n rs).
  unfold rewind_step at 2. destruct (Z.ltb_spec (round_number r) n) as [Hlt|Hge].
  - rewrite decide_True, decide_False by lia. specialize (IH m (kept ++ [r]) ss d). destruct (foldl _ _ _) as [[[m' kept'] ss'] d'].
    destruct IH as (-> & H). by rewrite <- app_assoc.
  - rewrite decide_False, decide_True by lia. set (m1 := if ss then m else _).
    specialize (IH (drop_round m1 r) kept true (d + 1)). destruct (foldl _ _ _) as [[[m' kept'] ss'] d'].
    destruct IH as (-> & -> & E1 & E2 & E3 & E4). rewrite zlen_cons. cbn [foldl].
    change (round_lines (r :: dropped_rounds n rs)) with (rs_players r ++ round_lines (dropped_rounds n rs)).
    rewrite foldl_app, E1, E2, E3, E4.
    assert (forall l x y, team1 x = team1 y -> team2 x = team2 y ->
      team1 (foldl drop_round x l) = team1 (foldl drop_round y l) /\ team2 (foldl drop_round x l) = team2 (foldl drop_round y l)) as Hcong.
    { clear. induction l as [|r l IH]; intros x y H1 H2; cbn; [done|]. apply IH; cbn; by rewrite ?H1, ?H2. }
    destruct (Hcong (dropped_rounds n rs) (drop_round m1 r) (drop_round m r)) as [-> ->]; [by subst m1; destruct ss..|].
    split_and!; try done; [lia| |]; by subst m1; destruct ss.
Qed.

Lemma RewindTo_eq m n :
  1 <= n ->
  let m' := (RewindTo m n).1 in
  rounds m' = kept_rounds n (rounds m) /\ (RewindTo m n).2 = zlen (dropped_rounds n (rounds m)) /\ live m' = live m /\
  team1 m' = team1 (foldl drop_round m (dropped_rounds n (rounds m))) /\ team2 m' = team2 (foldl drop_round m (dropped_rounds n (rounds m))) /\
  players m' = foldl (fun ps p => update_line (pr_id p) (take_off p) ps) (players m) (round_lines (dropped_rounds n (rounds m))).
Proof.
  intros Hn. unfold RewindTo. destruct (Z.ltb_spec n 1); [lia|].
  pose proof (rewind_fold n (rounds m) m [] false 0) as H'. destruct (foldl _ _ _) as [[[m' kept'] ss'] d']. exact H'.
Qed.

Lemma booked_split id k n rs :
  booked id k (round_lines rs) = booked id k (round_lines (kept_rounds n rs)) + booked id k (round_lines (dropped_rounds n rs)).
Proof.
  unfold kept_rounds, dropped_rounds. induction rs as [|r rs IH]; [done|]. rewrite !filter_cons.
  change (round_lines (r :: rs)) with (rs_players r ++ round_lines rs). rewrite booked_app, IH.
  destruct (decide (round_number r < n)); [rewrite decide_False by lia|rewrite decide_True by lia];
    change (round_lines (r :: ?l)) with (rs_players r ++ round_lines l); rewrite booked_app; lia.
Qed.

Lemma lines_sub (P : RoundSummary -> Prop) `{forall r, Decision (P r)} rs :
  Forall counts_ok (round_lines rs) -> Forall counts_ok (round_lines (filter P rs)).
Proof.
  induction rs as [|r rs IH]; [done|]. change (round_lines (r :: rs)) with (rs_players r ++ round_lines rs).
  rewrite Forall_app, filter_cons. intros [H1 H2]. case_decide; [|auto].
  change (round_lines (r :: ?l)) with (rs_players r ++ round_lines l). apply Forall_app. auto.
Qed.

Lemma booked_nonneg id k ls : Forall counts_ok ls -> 0 <= booked id k ls.
Proof. intros H. apply sumZ_nonneg. intros r Hr. rewrite Forall_forall in H. specialize (H r Hr k). case_if; lia. Qed.

Lemma held_nonneg m id k : lines_ok m -> 0 <= held m id k.
Proof. intros H. unfold held. destruct (m !! id) eqn:E; [|done]. by apply H in E as [_ E]. Qed.

Lemma rewind_line a n id k :
  books a -> 1 <= n ->
  line_stat (players (RewindTo (Snapshot a) n).1) id k = account (players_ a) id k - booked id k (round_lines (dropped_rounds n (rounds_ a))).
Proof.
  intros [H1 H2 H3] Hn. destruct (RewindTo_eq (Snapshot a) n Hn) as (_ & _ & _ & _ & _ & ->).
  pose proof (lines_sub (fun r => n <= round_number r) _ H3) as Hd. pose proof (lines_sub (fun r => round_number r < n) _ H3) as Hk.
  specialize (H1 id k). rewrite (booked_split id k n) in H1. pose proof (booked_nonneg id k _ Hk). pose proof (held_nonneg _ id k H2).
  rewrite take_off_lines, Snapshot_stat; [done|done|]. rewrite Snapshot_stat. unfold dropped_rounds, kept_rounds in *. cbn. lia.
Qed.

Lemma rewind_NoDup a n : NoDup (pl_id <$> players (RewindTo (Snapshot a) n).1).
Proof.
  destruct (Z.le_gt_cases 1 n) as [Hn|Hn].
  - destruct (RewindTo_eq (Snapshot a) n Hn) as (_ & _ & _ & _ & _ & ->). pose proof (Snapshot_NoDup a) as H. revert H.
    generalize (players (Snapshot a)) as ps. generalize (round_lines (dropped_rounds n (rounds (Snapshot a)))) as ls.
    induction ls as [|p ls IH]; intros ps H; [done|]. cbn. apply IH. by rewrite update_line_ids.
  - unfold RewindTo. destruct (Z.ltb_spec n 1); [|lia]. apply Snapshot_NoDup.
Qed.

Lemma books_reload a : books a -> books (Restore (Snapshot a)).
Proof.
  intros [H1 H2 H3]. split; [|done|done]. intros id k. rewrite account_Restore by apply Snapshot_NoDup. rewrite Snapshot_stat.
  cbn. unfold held at 1. rewrite lookup_empty. specialize (H1 id k). pose proof (held_nonneg _ id k H2). lia.
Qed.

Lemma books_rewind a n : books a -> books (Restore (RewindTo (Snapshot a) n).1).
Proof.
  intros H. destruct (Z.le_gt_cases 1 n) as [Hn|Hn]; [|unfold RewindTo; destruct (Z.ltb_spec n 1); [by apply books_reload|lia]].
  pose proof (rewind_line a n) as Hl. destruct (RewindTo_eq (Snapshot a) n Hn) as (Er & _). destruct H as [H1 H2 H3].
  split; cbn [rounds_ round_ Restore EmptyRound pr].
  - intros id k. rewrite account_Restore by apply rewind_NoDup. rewrite Hl by done. rewrite Er. cbn [rounds Snapshot].
    unfold held at 1. rewrite lookup_empty. specialize (H1 id k). rewrite (booked_split id k n) in H1. pose proof (held_nonneg _ id k H2). lia.
  - intros id r. by rewrite lookup_empty.
  - rewrite Er. by apply lines_sub.
Qed.

(** * Rewinding a map and the damage of a round

    The score of every team line is the tally of the recorded rounds, so a rewind returns to the
    score the earlier round was recorded with.  The claims quantify over every sequence of events,
    reloads and rewinds since the map went live. *)

(** ** Sequences of operations *)

Inductive Op :=
  | ObservePlayerOp (id : Z) (nm : string) (sd teamSlot : Z) (isBot : bool)
  | RoundStartOp
  | PlayerDeathOp (victim attacker assister : Z) (flash headshot : bool) (weapon : string) (time : double)
  | PlayerHurtOp (victim attacker dmgHealth healthAfter : Z) (weapon : string)
  | PlayerBlindOp (victim attacker : Z) (duration : double)
  | BombPlantedOp (id : Z)
  | BombDefusedOp (id : Z)
  | RoundMvpOp (id : Z)
  | RoundEndOp (winnerSide reason_ : Z)
  | SetScoreOp (id sc : Z)
  | SetMoneyStartOp (id money : Z)
  | SetLoadoutOp (id money ar : Z) (h d : bool) (lo : list string)
  | SetTeam1IsCtOp (b : bool)
  | EndMapOp
  | ReloadOp
  | RewindOp (fromRound : Z).

Definition exec (a : StatsAccumulator) (o : Op) : StatsAccumulator :=
  match o with
  | ObservePlayerOp id nm sd t b => ObservePlayer a id nm sd t b
  | RoundStartOp => OnRoundStart a
  | PlayerDeathOp v x y fl hs w time => OnPlayerDeath a v x y fl hs w time
  | PlayerHurtOp v x d h w => OnPlayerHurt a v x d h w
  | PlayerBlindOp v x d => OnPlayerBlind a v x d
  | BombPlantedOp id => OnBombPlanted a id
  | BombDefusedOp id => OnBombDefused a id
  | RoundMvpOp id => OnRoundMvp a id
  | RoundEndOp w r => OnRoundEnd a w r
  | SetScoreOp id sc => SetScore a id sc
  | SetMoneyStartOp id m => SetMoneyStart a id m
  | SetLoadoutOp id m ar h d lo => SetLoadout a id m ar h d lo
  | SetTeam1IsCtOp b => SetTeam1IsCt a b
  | EndMapOp => EndMap a
  | ReloadOp => Restore (Snapshot a)
  | RewindOp n => Restore (RewindTo (Snapshot a) n).1
  end.

Definition played (a : StatsAccumulator) (team1IsCt : bool) (os : list Op) : StatsAccumulator := foldl exec (BeginMap a team1IsCt) os.

(** An operation is a sequence of moves, or one of the few that touch the recorded rounds. *)
Lemma exec_cases a o :
  move a (exec a o) \/ (exists w r, o = RoundEndOp w r) \/ o = RoundStartOp \/ o = ReloadOp \/ (exists n, o = RewindOp n) \/
  (exists b, o = SetTeam1IsCtOp b) \/ o = EndMapOp.
Proof.
  destruct o; try (by left; eauto using move_ObservePlayer, move_OnPlayerDeath, move_OnPlayerHurt, move_OnPlayerBlind, move_OnBombPlanted,
    move_OnBombDefused, move_OnRoundMvp, move_SetScore, move_SetMoneyStart, move_SetLoadout); right; naive_solver.
Qed.

Lemma books_exec a o : books a -> books (exec a o).
Proof.
  intros H. destruct (exec_cases a o) as [Hm|[(w & r & ->)|[->|[->|[(n & ->)|[(b & ->)| ->]]]]]]; cbn [exec].
  - by eapply books_move.
  - by apply books_OnRoundEnd.
  - destruct H as [H1 H2 H3]. split; [|intros id r; cbn; by rewrite lookup_empty|done].
    intros id k. specialize (H1 id k). pose proof (held_nonneg _ id k H2). cbn. unfold held at 1. rewrite lookup_empty. lia.
  - by apply books_reload.
  - by apply books_rewind.
  - by destruct H; split.
  - by destruct H; split.
Qed.

Lemma books_played a b os : books (played a b os).
Proof.
  unfold played. assert (books (BeginMap a b)) as H.
  { split; cbn; [|intros id r; by rewrite lookup_empty|by apply Forall_nil_2].
    intros id k. unfold held, account. rewrite !lookup_empty. done. }
  revert H. generalize (BeginMap a b) as x. induction os as [|o os IH]; intros x H; cbn; auto using books_exec.
Qed.

(** ** Scores *)

(** The team line a list of rounds adds up to. *)
Definition won_ct (t : Z) (r : RoundSummary) : bool := if t =? 1 then team1_was_ct r else negb (team1_was_ct r).
Definition tally (t : Z) (rs : list RoundSummary) : TeamLine := {|
  tl_score := sumZ (fun r => Z.b2z (winner_team r =? t)) rs;
  score_ct := sumZ (fun r => Z.b2z ((winner_team r =? t) && won_ct t r)) rs;
  score_t := sumZ (fun r => Z.b2z ((winner_team r =? t) && negb (won_ct t r))) rs |}.

Definition numbered (rs : list RoundSummary) : Prop :=
  forall i r, rs !! i = Some r ->
    round_number r = Z.of_nat i + 1 /\ team1_score r = tl_score (tally 1 (take (S i) rs)) /\ team2_score r = tl_score (tally 2 (take (S i) rs)).

Record scored (a : StatsAccumulator) : Prop := {
  scored_1 : t1_ a = tally 1 (rounds_ a);
  scored_2 : t2_ a = tally 2 (rounds_ a);
  scored_rounds : numbered (rounds_ a) }.

Lemma move_frame a b : move a b -> t1_ b = t1_ a /\ t2_ b = t2_ a /\ rounds_ b = rounds_ a /\ team1IsCt_ b = team1IsCt_ a.
Proof. induction 1; naive_solver congruence. Qed.

Lemma tally_snoc t rs r :
  tally t (rs ++ [r]) =
  {| tl_score := tl_score (tally t rs) + Z.b2z (winner_team r =? t);
     score_ct := score_ct (tally t rs) + Z.b2z ((winner_team r =? t) && won_ct t r);
     score_t := score_t (tally t rs) + Z.b2z ((winner_team r =? t) && negb (won_ct t r)) |}.
Proof. unfold tally. rewrite !sumZ_app, !sumZ_cons. cbn. by rewrite !Z.add_0_r. Qed.

Lemma numbered_snoc rs r :
  numbered rs -> round_number r = zlen rs + 1 -> team1_score r = tl_score (tally 1 (rs ++ [r])) -> team2_score r = tl_score (tally 2 (rs ++ [r])) ->
  numbered (rs ++ [r]).
Proof.
  intros H Hn H1 H2 i x Hx. apply lookup_app_Some in Hx as [Hx|[Hle Hx]].
  - pose proof (lookup_lt_Some _ _ _ Hx). rewrite take_app_le by lia. by apply H.
  - destruct (i - length rs)%nat as [|j] eqn:E; [|done]. injection Hx as <-. rewrite take_ge by (rewrite length_app; cbn; lia).
    split_and!; [|done|done]. rewrite Hn. unfold zlen. lia.
Qed.

Lemma TeamLine_eq x y : tl_score x = tl_score y -> score_ct x = score_ct y -> score_t x = score_t y -> x = y.
Proof. destruct x, y. cbn. congruence. Qed.

Lemma scored_OnRoundEnd a w r : scored a -> scored (OnRoundEnd a w r).
Proof.
  intros [H1 H2 H3]. unfold OnRoundEnd. case_if; [by split|]. cbv zeta. set (a0 := set_lines a _ _). set (a1 := foldl close_participant a0 _).
  destruct (move_frame _ _ (move_participants (map_to_list (side (round_ a0))) a0)) as (E1 & E2 & E3 & E4). fold a1 in E1, E2, E3, E4.
  clearbody a1. destruct (foldl _ _ _) as [ps ls].
  match goal with |- context [rounds_ a1 ++ [?x]] => set (sum := x) end.
  assert (t1_ a1 = tally 1 (rounds_ a1 ++ [sum])) as Ht1.
  { rewrite tally_snoc, E1, E3. subst a0. cbn. rewrite E4. cbn. unfold SlotForSide, win_round, won_ct. cbn.
    apply TeamLine_eq; destruct (Z.eqb_spec w 3), (Z.eqb_spec w 2), (team1IsCt_ a); cbn; rewrite H1; cbn; lia. }
  assert (t2_ a1 = tally 2 (rounds_ a1 ++ [sum])) as Ht2.
  { rewrite tally_snoc, E2, E3. subst a0. cbn. rewrite E4. cbn. unfold SlotForSide, win_round, won_ct. cbn.
    apply TeamLine_eq; destruct (Z.eqb_spec w 3), (Z.eqb_spec w 2), (team1IsCt_ a); cbn; rewrite H2; cbn; lia. }
  split; cbn; [done|done|]. apply numbered_snoc; [by rewrite E3|done|cbn; by rewrite Ht1|cbn; by rewrite Ht2].
Qed.

(** The rounds a rewind to [n] keeps are the first [n - 1]. *)
Lemma kept_take n rs : numbered rs -> 1 <= n -> kept_rounds n rs = take (Z.to_nat (n - 1)) rs /\ dropped_rounds n rs = drop (Z.to_nat (n - 1)) rs.
Proof.
  intros H Hn. unfold kept_rounds, dropped_rounds.
  assert (Forall (fun r => round_number r < n) (take (Z.to_nat (n - 1)) rs)) as Hk.
  { apply Forall_lookup. intros i r. rewrite lookup_take_Some. intros [Hr Hi]. apply H in Hr as [-> _]. lia. }
  assert (Forall (fun r => n <= round_number r) (drop (Z.to_nat (n - 1)) rs)) as Hd.
  { apply Forall_lookup. intros i r. rewrite lookup_drop. intros Hr. apply H in Hr as [-> _]. lia. }
  rewrite <- (take_drop (Z.to_nat (n - 1)) rs) at 1 3. rewrite !filter_app.
  assert (forall (P Q : RoundSummary -> Prop) `{forall r, Decision (P r)} l, (forall r, Q r -> P r) -> Forall Q l -> filter P l = l) as Hall.
  { intros P Q ? l HPQ. induction 1 as [|r l Hr _ IH]; [done|]. rewrite filter_cons_True by auto. by rewrite IH. }
  assert (forall (P Q : RoundSummary -> Prop) `{forall r, Decision (P r)} l, (forall r, Q r -> ~ P r) -> Forall Q l -> filter P l = []) as Hnone.
  { intros P Q ? l HPQ. induction 1 as [|r l Hr _ IH]; [done|]. by rewrite filter_cons_False by auto. }
  split.
  - rewrite (Hall _ _ _ (take _ _) (fun r H => H) Hk), (Hnone _ _ _ _ (fun r (H : n <= round_number r) => proj1 (Z.le_ngt _ _) H) Hd). by rewrite app_nil_r.
  - rewrite (Hall _ _ _ (drop _ _) (fun r H => H) Hd), (Hnone _ _ _ _ (fun r (H : round_number r < n) => proj1 (Z.lt_nge _ _) H) Hk). done.
Qed.

Lemma tally_app t rs rs' :
  tally t (rs ++ rs') = {| tl_score := tl_score (tally t rs) + tl_score (tally t rs'); score_ct := score_ct (tally t rs) + score_ct (tally t rs');
                           score_t := score_t (tally t rs) + score_t (tally t rs') |}.
Proof. unfold tally. by rewrite !sumZ_app. Qed.

Lemma tally_nonneg t rs : 0 <= tl_score (tally t rs) /\ 0 <= score_ct (tally t rs) /\ 0 <= score_t (tally t rs).
Proof. unfold tally. cbn. split_and!; apply sumZ_nonneg; intros r _; case (_ : bool); cbn; lia. Qed.

Lemma tally_nil t : tally t [] = NewTeamLine.
Proof. reflexivity. Qed.

(** A line larger by the tally of some rounds. *)
Definition line_plus (x y : TeamLine) : TeamLine := {|
  tl_score := tl_score x + tl_score y; score_ct := score_ct x + score_ct y; score_t := score_t x + score_t y |}.

Lemma lose_tally t x r ds :
  0 <= tl_score x /\ 0 <= score_ct x /\ 0 <= score_t x ->
  (if winner_team r =? t then lose_round (line_plus x (tally t (r :: ds))) (won_ct t r) else line_plus x (tally t (r :: ds))) = line_plus x (tally t ds).
Proof.
  intros Hx. pose proof (tally_nonneg t ds) as Hd. unfold line_plus, lose_round, dec, tally in *. cbn in *. rewrite !sumZ_cons.
  destruct (winner_team r =? t), (won_ct t r); cbn; f_equal; crush_ifs.
Qed.

(** Dropping the last rounds takes their tally off again. *)
Lemma drop_all m rs ds :
  team1 m = tally 1 (rs ++ ds) -> team2 m = tally 2 (rs ++ ds) ->
  team1 (foldl drop_round m ds) = tally 1 rs /\ team2 (foldl drop_round m ds) = tally 2 rs.
Proof.
  rewrite !tally_app. change (team1 m = line_plus (tally 1 rs) (tally 1 ds) -> team2 m = line_plus (tally 2 rs) (tally 2 ds) ->
    team1 (foldl drop_round m ds) = tally 1 rs /\ team2 (foldl drop_round m ds) = tally 2 rs).
  revert m. induction ds as [|r ds IH]; intros m E1 E2; cbn [foldl].
  - rewrite E1, E2, !tally_nil. split; apply TeamLine_eq; unfold line_plus; cbn [tl_score score_ct score_t NewTeamLine]; lia.
  - apply IH; cbn [drop_round team1 team2]; rewrite ?E1, ?E2.
    + apply (lose_tally 1), tally_nonneg.
    + apply (lose_tally 2), tally_nonneg.
Qed.

Lemma rewind_scored a n :
  scored a -> 1 <= n ->
  let m := (RewindTo (Snapshot a) n).1 in
  rounds m = take (Z.to_nat (n - 1)) (rounds_ a) /\ team1 m = tally 1 (rounds m) /\ team2 m = tally 2 (rounds m).
Proof.
  intros [H1 H2 H3] Hn m. destruct (RewindTo_eq (Snapshot a) n Hn) as (Er & _ & _ & E1 & E2 & _). fold m in Er, E1, E2.
  destruct (kept_take n _ H3 Hn) as [Ek Ed]. cbn [rounds Snapshot] in *. rewrite Ek in Er. rewrite Ed in E1, E2.
  destruct (drop_all (Snapshot a) (take (Z.to_nat (n - 1)) (rounds_ a)) (drop (Z.to_nat (n - 1)) (rounds_ a))) as [F1 F2];
    [cbn; by rewrite take_drop..|]. by rewrite E1, E2, Er.
Qed.

Lemma numbered_take n rs : numbered rs -> numbered (take n rs).
Proof.
  intros H i r. rewrite lookup_take_Some. intros [Hr Hi]. rewrite take_take, Nat.min_l by lia. by apply H.
Qed.

Lemma scored_exec a o : scored a -> scored (exec a o).
Proof.
  intros H. destruct (exec_cases a o) as [Hm|[(w & r & ->)|[->|[->|[(n & ->)|[(b & ->)| ->]]]]]]; cbn [exec];
    try (by destruct H; split); [|by apply scored_OnRoundEnd|].
  - destruct (move_frame _ _ Hm) as (E1 & E2 & E3 & _). destruct H. split; by rewrite ?E1, ?E2, ?E3.
  - destruct (Z.le_gt_cases 1 n) as [Hn|Hn].
    + destruct (rewind_scored a n H Hn) as (Er & E1 & E2). split; [done|done|]. cbn. rewrite Er. apply numbered_take, H.
    + unfold RewindTo. destruct (Z.ltb_spec n 1); [|lia]. by destruct H; split.
Qed.

Lemma scored_played a b os : scored (played a b os).
Proof.
  unfold played. assert (scored (BeginMap a b)) as H by (split; [done..|]; intros i r; cbn; done).
  revert H. generalize (BeginMap a b) as x. induction os as [|o os IH]; intros x H; cbn; auto using scored_exec.
Qed.

(** ** The claims *)

(** A rewind returns to the score of the round before: after any sequence of events,
    reloads and earlier rewinds, rewinding the snapshot to round [n] keeps exactly the first [n - 1]
    rounds, and both team scores are the ones the last kept round was recorded with (0 : 0 when none
    is kept); the score by side adds up to the score. *)
Theorem rewind_score (a : StatsAccumulator) (team1IsCt : bool) (os : list Op) (n : Z) :
  1 <= n ->
  let x := played a team1IsCt os in
  let m := (RewindTo (Snapshot x) n).1 in
  rounds m = take (Z.to_nat (n - 1)) (rounds_ x) /\
  tl_score (team1 m) = default 0 (team1_score <$> last (rounds m)) /\
  tl_score (team2 m) = default 0 (team2_score <$> last (rounds m)) /\
  score_ct (team1 m) + score_t (team1 m) = tl_score (team1 m) /\ score_ct (team2 m) + score_t (team2 m) = tl_score (team2 m).
Proof.
  intros Hn x m. pose proof (scored_played a team1IsCt os) as Hs. fold x in Hs.
  destruct (rewind_scored x n Hs Hn) as (Er & E1 & E2). fold m in Er, E1, E2.
  assert (numbered (rounds m)) as Hnum by (rewrite Er; apply numbered_take, Hs).
  rewrite E1, E2. split; [done|]. rewrite !last_lookup.
  assert (forall t, score_ct (tally t (rounds m)) + score_t (tally t (rounds m)) = tl_score (tally t (rounds m))) as Hadd.
  { intros t. cbn. generalize (rounds m) as l. induction l as [|r l IH]; [done|]. rewrite !sumZ_cons.
    destruct (winner_team r =? t), (won_ct t r); cbn; lia. }
  destruct (rounds m !! pred (length (rounds m))) as [r|] eqn:El; cbn [fmap option_fmap option_map default from_option].
  - destruct (Hnum _ _ El) as (_ & -> & ->). pose proof (lookup_lt_Some _ _ _ El).
    rewrite take_ge by lia. auto.
  - apply lookup_ge_None in El. destruct (rounds m); [done|cbn in El; lia].
Qed.

(** A rewind takes off exactly what the dropped rounds had added: for every player and
    every counter that is kept both per round and per map (kills, assists, flash assists, damage,
    utility damage, headshot kills), the total after the rewind is the total before minus the
    dropped rounds' lines, and what is left still covers the kept rounds; the cut at zero in the
    code never loses anything. *)
Theorem rewind_totals (a : StatsAccumulator) (team1IsCt : bool) (os : list Op) (n id : Z) (k : RoundCount) :
  1 <= n ->
  let x := played a team1IsCt os in
  let m := (RewindTo (Snapshot x) n).1 in
  line_stat (players m) id k = line_stat (players (Snapshot x)) id k - booked id k (round_lines (dropped_rounds n (rounds_ x))) /\
  0 <= booked id k (round_lines (rounds m)) <= line_stat (players m) id k.
Proof.
  intros Hn x m. pose proof (books_played a team1IsCt os) as Hb. fold x in Hb. unfold m. rewrite rewind_line by done. rewrite Snapshot_stat.
  split; [done|]. destruct (RewindTo_eq (Snapshot x) n Hn) as (-> & _). cbn [rounds Snapshot].
  destruct Hb as [H1 H2 H3]. split; [apply booked_nonneg; by apply lines_sub|].
  specialize (H1 id k). rewrite (booked_split id k n) in H1. pose proof (held_nonneg _ id k H2). lia.
Qed.

(** Two rounds with a kill each, then a rewind to round 2. *)
Definition two_rounds : list Op :=
  [ObservePlayerOp 11 "a" 3 1 false; ObservePlayerOp 22 "b" 2 2 false; PlayerHurtOp 22 11 100 0 "ak47";
   PlayerDeathOp 22 11 0 false true "ak47" (of_int 10); RoundEndOp 3 8; RoundStartOp;
   ObservePlayerOp 11 "a" 3 1 false; ObservePlayerOp 22 "b" 2 2 false; PlayerHurtOp 11 22 50 50 "m4a1";
   PlayerDeathOp 11 22 0 false false "m4a1" (of_int 20); RoundEndOp 2 9].
Definition NewAccumulator : StatsAccumulator := {|
  live_ := false; team1IsCt_ := true; players_ := ∅; round_ := EmptyRound; t1_ := NewTeamLine; t2_ := NewTeamLine; rounds_ := [] |}.

Lemma rewind_score_witness :
  let x := played NewAccumulator true two_rounds in
  let m := (RewindTo (Snapshot x) 2).1 in
  rounds m = take (Z.to_nat (2 - 1)) (rounds_ x) /\
  tl_score (team1 m) = default 0 (team1_score <$> last (rounds m)) /\
  tl_score (team2 m) = default 0 (team2_score <$> last (rounds m)) /\
  score_ct (team1 m) + score_t (team1 m) = tl_score (team1 m) /\ score_ct (team2 m) + score_t (team2 m) = tl_score (team2 m).
Proof. apply (rewind_score NewAccumulator true two_rounds 2). lia. Defined.

Lemma rewind_totals_witness :
  let x := played NewAccumulator true two_rounds in
  let m := (RewindTo (Snapshot x) 2).1 in
  line_stat (players m) 22 r_damage = line_stat (players (Snapshot x)) 22 r_damage - booked 22 r_damage (round_lines (dropped_rounds 2 (rounds_ x))) /\
  0 <= booked 22 r_damage (round_lines (rounds m)) <= line_stat (players m) 22 r_damage.
Proof. apply (rewind_totals NewAccumulator true two_rounds 2 22 r_damage). lia. Defined.

(** The same run, evaluated: one round is dropped, its 50 damage is taken off, the kill of the first round stays. *)
Example two_rounds_rewound :
  let x := played NewAccumulator true two_rounds in
  let m := RewindTo (Snapshot x) 2 in
  (m.2, tl_score (team1 m.1), tl_score (team2 m.1), line_stat (players (Snapshot x)) 22 r_damage, line_stat (players m.1) 22 r_damage,
   line_stat (players m.1) 11 r_kills) = (1, 1, 0, 50, 0, 1).
Proof. vm_compute. reflexivity. Qed.
