(* ===== verification/DamageLedger.v ===== *)
(** * The damage ledger

    [plugins/match/readyup/damage_ledger.cpp]: who took how much health from whom this round, behind
    the end-of-round damage report.  [std::map]s are [gmap]s; the translation of a report line is the
    argument [ForLang]. *)

From S2P Require Import Prelude CStr.

Record Pair := { dmg : Z; hits : Z }.
Record DamageLedger := { health_ : gmap Z Z; dealt_ : gmap (Z * Z) Pair }.

Definition Reset : DamageLedger := {| health_ := ∅; dealt_ := ∅ |}.
Definition Health (l : DamageLedger) (key : Z) : Z := default 100 (health_ l !! key).

Definition OnHurt (l : DamageLedger) (attacker victim dmgHealth healthAfter : Z) : DamageLedger :=
  if (victim <? 0) || (dmgHealth <=? 0) then l
  else
    let before := Z.max 0 (Health l victim) in
    let after := clamp healthAfter 0 before in
    let actual := before - after in
    let h := <[victim := after]> (health_ l) in
    if (attacker <? 0) || (attacker =? victim) || (actual <=? 0) then {| health_ := h; dealt_ := dealt_ l |}
    else
      let p := default {| dmg := 0; hits := 0 |} (dealt_ l !! (attacker, victim)) in
      {| health_ := h; dealt_ := <[(attacker, victim) := {| dmg := dmg p + actual; hits := hits p + 1 |}]> (dealt_ l) |}.

Definition OnDeath (l : DamageLedger) (victim : Z) : DamageLedger :=
  if 0 <=? victim then {| health_ := <[victim := 0]> (health_ l); dealt_ := dealt_ l |} else l.

Definition Dealt (l : DamageLedger) (attacker victim : Z) : Pair := default {| dmg := 0; hits := 0 |} (dealt_ l !! (attacker, victim)).
Definition AnyPlayerDamage (l : DamageLedger) : bool := negb (bool_decide (dealt_ l = ∅)).

Record DamageParticipant := { key : Z; p_name : string; p_team : Z }.

Definition on_team (t : Z) : bool := (t =? 2) || (t =? 3).

Definition FormatDamageReport (ForLang : string -> string -> list (string * string) -> string)
    (self : DamageParticipant) (players : list DamageParticipant) (l : DamageLedger) (lang : string) : list string :=
  if negb (on_team (p_team self)) then []
  else
    (fun o =>
       let to := Dealt l (key self) (key o) in
       let from := Dealt l (key o) (key self) in
       ForLang lang "dmg.line"
         [("given", to_string (dmg to)); ("given_hits", to_string (hits to)); ("taken", to_string (dmg from));
          ("taken_hits", to_string (hits from)); ("name", p_name o); ("hp", to_string (Health l (key o)))])
    <$> List.filter (fun o => negb (key o =? key self) && on_team (p_team o) && negb (p_team o =? p_team self)) players.

(** ** Sums over a map *)

(** The total damage entered against a victim. *)
Definition taken (victim : Z) (m : gmap (Z * Z) Pair) : Z :=
  map_fold (fun k p acc => (if k.2 =? victim then dmg p else 0) + acc) 0 m.

Lemma taken_insert_new v k p m :
  m !! k = None -> taken v (<[k := p]> m) = (if k.2 =? v then dmg p else 0) + taken v m.
Proof. intros H. unfold taken. rewrite map_fold_insert_L; [done| |done]. intros. lia. Qed.

Lemma taken_insert v k p m :
  taken v (<[k := p]> m) = taken v m + (if k.2 =? v then dmg p - dmg (default {| dmg := 0; hits := 0 |} (m !! k)) else 0).
Proof.
  destruct (m !! k) as [q|] eqn:E.
  - rewrite <- (insert_delete_id m k q E) at 2. rewrite (taken_insert_new v k q) by apply lookup_delete_eq.
    rewrite <- insert_delete_eq, taken_insert_new by apply lookup_delete_eq. cbn. case_if; lia.
  - rewrite taken_insert_new by done. cbn. case_if; lia.
Qed.

(** ** The claim *)

Inductive Op := Hurt (attacker victim dmgHealth healthAfter : Z) | Death (victim : Z).
Definition exec (l : DamageLedger) (o : Op) : DamageLedger :=
  match o with Hurt a v d h => OnHurt l a v d h | Death v => OnDeath l v end.
Definition after (os : list Op) : DamageLedger := foldl exec Reset os.

(** Every change to the victim's health is a hit by another player. *)
Definition by_players (v : Z) (o : Op) : Prop :=
  match o with Hurt a v' _ _ => v' = v -> 0 <= a /\ a <> v | Death v' => v' <> v end.

Record ledger_inv (l : DamageLedger) (v : Z) : Prop := {
  ledger_health : 0 <= Health l v <= 100;
  ledger_cover : 0 <= taken v (dealt_ l) <= 100 - Health l v }.

Lemma Health_insert h d k x v : Health {| health_ := <[k := x]> h; dealt_ := d |} v = if k =? v then x else Health {| health_ := h; dealt_ := d |} v.
Proof. unfold Health. cbn. destruct (Z.eqb_spec k v) as [->|]; [by rewrite lookup_insert_eq|by rewrite lookup_insert_ne]. Qed.

(** One hit: what the victim loses is what is entered, unless nobody else dealt it. *)
Lemma OnHurt_effect l a v d h x :
  0 <= Health l x ->
  let l' := OnHurt l a v d h in
  let lost := Health l x - Health l' x in
  0 <= lost /\ 0 <= Health l' x /\
  (taken x (dealt_ l') = taken x (dealt_ l) + lost \/
   (taken x (dealt_ l') = taken x (dealt_ l) /\ v = x /\ (a < 0 \/ a = x))).
Proof.
  intros Hx. unfold OnHurt. case_if; [cbn; lia|]. cbv zeta.
  pose proof (clamp_bounds h 0 (Z.max 0 (Health l v)) ltac:(lia)) as Hc.
  destruct ((a <? 0) || (a =? v) || (Z.max 0 (Health l v) - clamp h 0 (Z.max 0 (Health l v)) <=? 0)) eqn:E;
    rewrite Health_insert; change (Health {| health_ := health_ l; dealt_ := ?d |} x) with (Health l x); cbn [dealt_]; rewrite ?taken_insert;
    cbn [snd dmg]; destruct (Z.eqb_spec v x) as [->|]; try lia.
Qed.

Lemma OnDeath_effect l v x : 0 <= Health l x ->
  0 <= Health (OnDeath l v) x <= Health l x /\ dealt_ (OnDeath l v) = dealt_ l /\ (v <> x -> Health (OnDeath l v) x = Health l x).
Proof.
  intros Hx. unfold OnDeath. case_if; [|split_and!; lia || done]. rewrite Health_insert. cbn.
  change (Health {| health_ := health_ l; dealt_ := _ |} x) with (Health l x). destruct (Z.eqb_spec v x); split_and!; done || lia.
Qed.

Lemma ledger_inv_after os v : ledger_inv (after os) v.
Proof.
  induction os as [|o os IH] using rev_ind; [by split; cbn|]. unfold after. rewrite foldl_app. cbn. fold (after os).
  destruct IH as [H1 H2]. destruct o as [a w d h|w]; cbn.
  - pose proof (OnHurt_effect (after os) a w d h v ltac:(lia)) as (Hl & Hp & Ht). cbv zeta in *. split; lia.
  - pose proof (OnDeath_effect (after os) w v ltac:(lia)) as (Hl & E & _). split; rewrite ?E; lia.
Qed.

(** The report adds up: after any sequence of hits and deaths in a round, a player's
    health is between 0 and 100 and the damage entered against them by everyone never exceeds the
    health they lost; when only other players hurt them, the damage entered is exactly the health
    lost, so the numbers sum to 100 on a kill. *)
Theorem ledger_adds_up (os : list Op) (v : Z) :
  let l := after os in
  0 <= Health l v <= 100 /\ 0 <= taken v (dealt_ l) <= 100 - Health l v /\
  (Forall (by_players v) os -> taken v (dealt_ l) + Health l v = 100).
Proof.
  destruct (ledger_inv_after os v) as [H1 H2]. split_and!; [lia..|].
  clear H1 H2. induction os as [|o os IH] using rev_ind; [done|]. rewrite Forall_app, list.Forall_singleton. intros [Hos Ho].
  specialize (IH Hos). destruct (ledger_inv_after os v) as [H1 _].
  unfold after. rewrite foldl_app. cbn. fold (after os). destruct o as [a w d h|w]; cbn in *.
  - pose proof (OnHurt_effect (after os) a w d h v ltac:(lia)) as (Hl & Hp & Ht). cbv zeta in *.
    destruct Ht as [Ht|(_ & -> & Ha)]; [lia|]. destruct (Ho eq_refl). lia.
  - pose proof (OnDeath_effect (after os) w v ltac:(lia)) as (Hl & -> & Hn). rewrite Hn by done. done.
Qed.

Lemma ledger_adds_up_witness : taken 2 (dealt_ (after [Hurt 1 2 27 73; Hurt 3 2 120 0])) + Health (after [Hurt 1 2 27 73; Hurt 3 2 120 0]) 2 = 100.
Proof.
  apply (ledger_adds_up [Hurt 1 2 27 73; Hurt 3 2 120 0] 2). repeat (apply Forall_cons_2; [cbn; lia|]). apply Forall_nil_2.
Defined.
