(* ===== verification/StatsJson.v ===== *)
(** * Serialised statistics

    The writer half of [plugins/match/readyup/match_stats.cpp]: the [Obj] builder, its escaping and
    the three [ToJson] overloads, field by field in the order of the code. *)

From S2P Require Import Prelude CStr Double Json Stats.

(** [stats::JsonEscape]: no surrounding quotes, upper-case hex, nothing above 0x1F escaped but the quote and the backslash. *)
Definition hex_upper (n : Z) : ascii := if n <? 10 then chr (48 + n) else chr (55 + n).
Definition stats_escape_char (c : ascii) : string :=
  if Ascii.eqb c backslash then String backslash (str1 backslash)
  else if Ascii.eqb c dquote then String backslash (str1 dquote)
  else if Ascii.eqb c newline then String backslash "n"
  else if Ascii.eqb c creturn then String backslash "r"
  else if Ascii.eqb c tab then String backslash "t"
  else if code c <? 32 then String backslash ("u00" +s+ str1 (hex_upper (code c / 16)) +s+ str1 (hex_upper (code c mod 16)))
  else str1 c.
Fixpoint stats_JsonEscape (s : string) : string :=
  match s with EmptyString => EmptyString | String c r => stats_escape_char c +s+ stats_JsonEscape r end.

(** [Obj]: the body so far (empty: no field yet). *)
Definition quoted (s : string) : string := str1 dquote +s+ s +s+ str1 dquote.
Definition obj_R (body : string) (k raw : string) : string :=
  body +s+ (if sempty body then EmptyString else ",") +s+ quoted k +s+ ":" +s+ raw.
Definition obj_I (body : string) (k : string) (v : Z) : string := obj_R body k (to_string v).
Definition obj_B (body : string) (k : string) (b : bool) : string := obj_R body k (if b then "true" else "false").
Definition obj_S (body : string) (k v : string) : string := obj_R body k (quoted (stats_JsonEscape v)).
Definition obj_Done (body : string) : string := "{" +s+ body +s+ "}".

(** A JSON array of already written items. *)
Fixpoint join_items (first : bool) (l : list string) : string :=
  match l with
  | [] => EmptyString
  | x :: l => (if first then EmptyString else ",") +s+ x +s+ join_items false l
  end.
Definition json_array (l : list string) : string := "[" +s+ join_items true l +s+ "]".

Definition IntArray (a : list Z) : string := json_array (to_string <$> a).

Definition obj_Econ (body : string) (p : PlayerRound) : string :=
  if (money_start p <? 0) && (money_after_buy p <? 0) then body
  else
    let lo := json_array ((fun x => quoted (stats_JsonEscape x)) <$> loadout p) in
    let b := obj_I body "money_start" (money_start p) in
    let b := obj_I b "money_after_buy" (money_after_buy p) in
    let b := obj_I b "armor" (armor p) in
    let b := obj_B b "helmet" (helmet p) in
    let b := obj_B b "defuser" (defuser p) in
    obj_R b "loadout" lo.

Definition TeamJson (t : TeamLine) : string :=
  obj_Done (obj_I (obj_I (obj_I EmptyString "score" (tl_score t)) "score_ct" (score_ct t)) "score_t" (score_t t)).

(** The fields of [PlayerStats] in the order they are written. *)
Definition stat_fields : list (string * Stat) :=
  [("kills", kills); ("deaths", deaths); ("assists", assists); ("flash_assists", flash_assists); ("team_kills", team_kills);
   ("suicides", suicides); ("headshot_kills", headshot_kills); ("knife_kills", knife_kills); ("damage", damage);
   ("utility_damage", utility_damage); ("enemies_flashed", enemies_flashed); ("friendlies_flashed", friendlies_flashed);
   ("bomb_plants", bomb_plants); ("bomb_defuses", bomb_defuses); ("entry_kills_t", entry_kills_t); ("entry_kills_ct", entry_kills_ct);
   ("entry_deaths_t", entry_deaths_t); ("entry_deaths_ct", entry_deaths_ct); ("trade_kills", trade_kills); ("traded_deaths", traded_deaths);
   ("kast_rounds", kast_rounds); ("rounds_played", rounds_played); ("mvp", mvp); ("score", score)].

Definition PlayerStats_ToJson (x : PlayerStats) : string :=
  let b := foldl (fun b '(n, k) => obj_I b n (stat x k)) EmptyString stat_fields in
  let b := obj_R b "multi_kills" (IntArray (multi_kills x)) in
  obj_Done (obj_R b "clutches_won" (IntArray (clutches_won x))).

Definition PlayerRound_json (p : PlayerRound) : string :=
  let b := obj_S EmptyString "id" (to_string (pr_id p)) in
  let b := obj_I (obj_I b "team" (pr_team p)) "side" (pr_side p) in
  let b := foldl (fun b '(n, k) => obj_I b n (count p k)) b
    [("kills", r_kills); ("assists", r_assists); ("flash_assists", r_flash_assists); ("damage", r_damage);
     ("utility_damage", r_utility_damage); ("headshot_kills", r_headshot_kills)] in
  let b := foldl (fun b '(n, k) => obj_B b n (flags p k)) b
    [("died", died); ("survived", survived); ("traded", traded); ("kast", kast); ("entry_kill", entry_kill);
     ("entry_death", entry_death); ("mvp", r_mvp)] in
  let b := obj_B (obj_I b "clutch_vs" (clutch_vs p)) "clutch_won" (flags p clutch_won) in
  obj_Done (obj_Econ b p).

Definition RoundSummary_ToJson (r : RoundSummary) : string :=
  let b := obj_I EmptyString "round_number" (round_number r) in
  let b := obj_I b "winner_side" (winner_side r) in
  let b := obj_I b "winner_team" (winner_team r) in
  let b := obj_I b "reason" (reason r) in
  let b := obj_I b "team1_score" (team1_score r) in
  let b := obj_I b "team2_score" (team2_score r) in
  let b := obj_B b "team1_was_ct" (team1_was_ct r) in
  obj_Done (obj_R b "players" (json_array (PlayerRound_json <$> rs_players r))).

Definition PlayerLine_json (p : PlayerLine) : string :=
  let b := obj_S EmptyString "id" (to_string (pl_id p)) in
  let b := obj_S b "name" (pl_name p) in
  let b := obj_I b "team" (pl_team p) in
  let b := obj_I b "last_side" (last_side p) in
  let b := obj_B b "bot" (pl_bot p) in
  obj_Done (obj_R b "stats" (PlayerStats_ToJson (stats p))).

Definition MapStats_ToJson (m : MapStats) : string :=
  let b := obj_B EmptyString "live" (live m) in
  let b := obj_B b "team1_is_ct" (team1_is_ct m) in
  let b := obj_R b "team1" (TeamJson (team1 m)) in
  let b := obj_R b "team2" (TeamJson (team2 m)) in
  let b := obj_R b "players" (json_array (PlayerLine_json <$> players m)) in
  obj_Done (obj_R b "rounds" (json_array (RoundSummary_ToJson <$> rounds m))).

(** The empty map, as written. *)
Example empty_map_json :
  MapStats_ToJson {| live := true; team1_is_ct := false; team1 := NewTeamLine; team2 := {| tl_score := 1; score_ct := 0; score_t := 1 |};
                     players := []; rounds := [] |} =
  qs "{`live`:true,`team1_is_ct`:false,`team1`:{`score`:0,`score_ct`:0,`score_t`:0},`team2`:{`score`:1,`score_ct`:0,`score_t`:1},`players`:[],`rounds`:[]}".
Proof. vm_compute. reflexivity. Qed.
