(* ===== verification/MatchEnd.v ===== *)
(** * Map end and series end

    [plugins/match/readyup/match_end_logic.cpp]: the delays of the postgame, when a series is over,
    and the serialised flow event; with the times [match_end.cpp] schedules from the plan. *)

From S2P Require Import Prelude CStr Stats StatsJson.

Definition kFlushMargin : Z := 15.
Definition kTvDelayMargin : Z := 10.
Definition kNoDemoRestartDelay : Z := 10.

Record MapEndPlan := { restartDelay : Z; tvFlushDelay : Z; kickDelay : Z }.

Definition ComputeMapEndPlan (demoRecording hasUploadUrl : bool)
    (tvDelay kickExtraNoDemo kickExtraDemoNoUpload kickExtraDemoUpload : Z) : MapEndPlan :=
  let tvDelay := Z.max 0 tvDelay in
  if negb demoRecording then
    {| restartDelay := kNoDemoRestartDelay; tvFlushDelay := 0; kickDelay := kNoDemoRestartDelay - 1 + Z.max 0 kickExtraNoDemo |}
  else
    let flush := tvDelay + kFlushMargin in
    let restart := if 0 <? tvDelay then flush + kTvDelayMargin else flush in
    {| restartDelay := restart; tvFlushDelay := flush;
       kickDelay := restart - 1 + Z.max 0 (if hasUploadUrl then kickExtraDemoUpload else kickExtraDemoNoUpload) |}.

Definition RemainingMaps (numMaps maplistCount mapNumber : Z) : Z :=
  let total := if 0 <? maplistCount then Z.min numMaps maplistCount else numMaps in
  Z.max 0 (total - mapNumber).

Definition IsSeriesOver (numMaps remainingMaps team1SeriesScore team2SeriesScore : Z) (canClinch : bool) : bool :=
  if remainingMaps <=? 0 then true
  else if negb canClinch then false
  else
    let mapsToWin := Z.quot numMaps 2 + 1 in
    (mapsToWin <=? team1SeriesScore) || (mapsToWin <=? team2SeriesScore).

Inductive MatchFlowEventType := MapResult | SeriesEnd | ServerReset.

Record MatchFlowEvent := {
  type : MatchFlowEventType; matchid : Z; slug : string; scrim : bool; mapNumber : Z; mapName : string; winner : string;
  team1Name : string; team2Name : string; team1Score : Z; team2Score : Z; team1SeriesScore : Z; team2SeriesScore : Z;
  seriesOver : bool; nextMap : string; secondsUntilReset : Z; demoRecorded : bool; demoUploadConfigured : bool;
  ev_stats : MapStats; decidedByDamage : bool; team1Damage : Z; team2Damage : Z }.

Definition MatchFlowEventTypeName (t : MatchFlowEventType) : string :=
  match t with MapResult => "map_result" | SeriesEnd => "series_end" | ServerReset => "server_reset" end.

Definition ToJson (e : MatchFlowEvent) : string :=
  let b := obj_R EmptyString "type" (quoted (MatchFlowEventTypeName (type e))) in
  let b := obj_R b "matchid" (quoted (to_string (matchid e))) in
  let b := obj_S b "slug" (slug e) in
  let b := obj_B b "scrim" (scrim e) in
  let b := obj_S b "winner" (winner e) in
  let b := obj_S b "team1_name" (team1Name e) in
  let b := obj_S b "team2_name" (team2Name e) in
  let b := obj_I b "team1_series_score" (team1SeriesScore e) in
  let b := obj_I b "team2_series_score" (team2SeriesScore e) in
  let b :=
    match type e with
    | MapResult =>
        let b := obj_I b "map_number" (mapNumber e) in
        let b := obj_S b "map_name" (mapName e) in
        let b := obj_I b "team1_score" (team1Score e) in
        let b := obj_I b "team2_score" (team2Score e) in
        let b := obj_B b "series_over" (seriesOver e) in
        let b := obj_S b "next_map" (nextMap e) in
        let b := obj_B b "demo_recorded" (demoRecorded e) in
        let b := obj_B b "demo_upload_configured" (demoUploadConfigured e) in
        let b := obj_R b "stats" (MapStats_ToJson (ev_stats e)) in
        if decidedByDamage e
        then obj_R (obj_R b "decided_by" (quoted "damage")) "damage"
               (obj_Done (obj_I (obj_I EmptyString "team1" (team1Damage e)) "team2" (team2Damage e)))
        else b
    | SeriesEnd => obj_I b "seconds_until_reset" (secondsUntilReset e)
    | ServerReset => b
    end in
  obj_Done b.

(** The delays [MatchEndOnMapComplete] schedules, in half seconds: [tv_stoprecord] half a second
    before the flush, and the change to the next map. *)
Definition stop_record_at (p : MapEndPlan) : Z := Z.max 0 (2 * tvFlushDelay p - 1).
Definition next_map_at (p : MapEndPlan) : Z := 2 * Z.max 1 (restartDelay p - 1).

(** ** Claims *)

(** A series ends when it is decided and not later: it is over exactly when no map is
    left or, with clinching, a team has more than half of the maps; a clinched series is uncatchable
    (even winning every remaining map the other team stays behind), and while a series is not over
    there is a map to play.  Hypotheses: the scores count won maps among those played. *)
Theorem series_over_decided (numMaps maplistCount mapNumber s1 s2 : Z) (canClinch : bool) :
  0 <= numMaps -> 0 <= s1 -> 0 <= s2 -> s1 + s2 <= mapNumber ->
  let left := RemainingMaps numMaps maplistCount mapNumber in
  (IsSeriesOver numMaps left s1 s2 canClinch = true -> 0 < left ->
   canClinch = true /\ (s2 + left < s1 \/ s1 + left < s2)) /\
  (IsSeriesOver numMaps left s1 s2 canClinch = false ->
   0 < left /\ mapNumber < numMaps /\ (canClinch = true -> 2 * s1 <= numMaps /\ 2 * s2 <= numMaps)).
Proof.
  intros Hn H1 H2 Hs left. unfold IsSeriesOver. rewrite Z.quot_div_nonneg by lia.
  pose proof (Z.div_mod numMaps 2 ltac:(lia)). pose proof (Z.mod_pos_bound numMaps 2 ltac:(lia)).
  assert (0 < left -> left <= numMaps - mapNumber) as Hl by (subst left; unfold RemainingMaps; case_if; lia).
  destruct (Z.leb_spec left 0); [split; [lia|done]|]. specialize (Hl ltac:(lia)). destruct canClinch; cbn [negb].
  - split; [intros Ho _|intros Ho].
    + split; [done|]. apply orb_prop in Ho as [Ho|Ho]; apply Z.leb_le in Ho; lia.
    + split_bools. lia.
  - split; [done|]. intros _. split_and!; [lia|lia|done].
Qed.

Lemma series_over_decided_witness :
  let left := RemainingMaps 3 0 2 in
  (IsSeriesOver 3 left 2 0 true = true -> 0 < left -> true = true /\ (0 + left < 2 \/ 2 + left < 0)) /\
  (IsSeriesOver 3 left 2 0 true = false -> 0 < left /\ 2 < 3 /\ (true = true -> 2 * 2 <= 3 /\ 2 * 0 <= 3)).
Proof. apply (series_over_decided 3 0 2 2 0 true); lia. Defined.

(** The order of the postgame of a recorded map: the recording is stopped before the
    next map is loaded exactly when the broadcast has a delay; without one the map change is
    scheduled half a second before [tv_stoprecord].  Kicks never come before the map change time,
    and with a broadcast delay never before the recording is stopped. *)
Theorem map_end_order (upload : bool) (tvDelay k1 k2 k3 : Z) :
  let p := ComputeMapEndPlan true upload tvDelay k1 k2 k3 in
  (stop_record_at p <= next_map_at p <-> 0 < tvDelay) /\
  (tvDelay <= 0 -> stop_record_at p = next_map_at p + 1) /\
  next_map_at p <= 2 * kickDelay p /\ (0 < tvDelay -> stop_record_at p <= 2 * kickDelay p).
Proof.
  unfold ComputeMapEndPlan, stop_record_at, next_map_at, kFlushMargin, kTvDelayMargin. cbn.
  destruct (Z.ltb_spec 0 (Z.max 0 tvDelay)); cbn; lia.
Qed.
