(* ===== verification/RoundRestore.v ===== *)
(** * Round restore and crash recovery

    [plugins/match/readyup/round_restore_rules.cpp]: backup file names, the backup list, what a
    [.restore] may do, the progress record of [state.json] and what a restarted server does with it. *)

From S2P Require Import Prelude CStr Double Json JsonFacts MergePatch Stats MatchEnd.

(** ** Backup files *)

Definition backup_head (matchid : Z) : string := "readyup_backup_" +s+ to_string matchid +s+ "_map".

Definition BackupPrefix (matchid mapNumber : Z) : string := backup_head matchid +s+ to_string (Z.max 1 mapNumber) +s+ "_".

Record BackupInfo := { file : string; map_number : Z; round : Z; mtime : Z; size : Z }.

(** [AllDigits(s, from, to)] on the substring: not empty and only digits. *)
Definition AllDigits (s : string) : bool := negb (sempty s) && sforall isdigit s.

(** The map number and the round of a backup file of [matchid]. *)
Definition ParseBackupFileName (f : string) (matchid : Z) : option (Z * Z) :=
  let head := backup_head matchid in
  if (slen f <=? slen head + 4) || negb (starts_with head f) then None
  else if negb (sdrop (String.length f - 4) f =s ".txt") then None
  else
    let rest := sdrop (String.length head) f in
    match find "_round" rest with
    | None => None
    | Some tag =>
        let mapEnd := match tag with
                      | O => O
                      | S k => if bool_decide (String.get k rest = Some "_"%char) then k else tag
                      end in
        let mapText := stake mapEnd rest in
        if negb (AllDigits mapText) || (3 <? mapEnd)%nat then None
        else
          let roundStart := (tag + 6)%nat in
          let roundEnd := (String.length rest - 4)%nat in
          let roundText := stake (roundEnd - roundStart) (sdrop roundStart rest) in
          if negb (AllDigits roundText) || (3 <? roundEnd - roundStart)%nat then None
          else
            let map := atoi mapText in
            let played := atoi roundText in
            if map <? 1 then None else Some (map, played + 1)
    end.

Definition backup_key (b : BackupInfo) : Z * Z := (map_number b, round b).

(** The loop of [SortBackups]: the newest file per map and round. *)
Definition keep_newest (best : gmap (Z * Z) BackupInfo) (b : BackupInfo) : gmap (Z * Z) BackupInfo :=
  match best !! backup_key b with
  | Some o => if mtime o <? mtime b then <[backup_key b := b]> best else best
  | None => <[backup_key b := b]> best
  end.

(** The order of [std::map]'s keys. *)
Definition key_le (x y : (Z * Z) * BackupInfo) : Prop :=
  if decide (x.1.1 = y.1.1) then x.1.2 <= y.1.2 else x.1.1 < y.1.1.
#[export] Instance key_le_dec : RelDecision key_le.
Proof. intros x y. unfold key_le. destruct (decide _); apply _. Defined.

Definition SortBackups (l : list BackupInfo) : list BackupInfo :=
  snd <$> merge_sort key_le (map_to_list (foldl keep_newest ∅ l)).

Definition LatestForMap (sorted : list BackupInfo) (mapNumber : Z) : option BackupInfo :=
  foldl (fun best b =>
    if (map_number b =? mapNumber) && match best with None => true | Some o => round o <? round b end then Some b else best) None sorted.

Definition BackupListLine (b : BackupInfo) (score1 score2 : Z) : string :=
  "map " +s+ to_string (map_number b) +s+ " round " +s+ to_string (round b) +s+
  (if (0 <=? score1) && (0 <=? score2) then " (" +s+ to_string score1 +s+ "-" +s+ to_string score2 +s+ ")" else EmptyString) +s+
  " " +s+ file b.

Definition ScoreAtRoundStart (m : MapStats) (rnd : Z) : option (Z * Z) :=
  if rnd =? 1 then Some (0, 0)
  else match List.find (fun r => round_number r =? rnd - 1) (rounds m) with
       | Some r => Some (team1_score r, team2_score r)
       | None => None
       end.

(** ** The [.restore] command *)

(** The round, or the usage error. *)
Definition ParseRestoreRound (arg : string) : Z + string :=
  if sempty arg || (3 <? slen arg) || negb (AllDigits arg) || (atoi arg <? 1)
  then inr "usage: .restore <round> (the round to play again, 1 = the first; .ru match backups lists them)"
  else inl (atoi arg).

Record RestoreCheck := { match_loaded : bool; chk_live : bool; chk_rounds_played : Z; chk_round : Z }.

Definition RestoreRefusal (c : RestoreCheck) : string :=
  if negb (match_loaded c) then "no match loaded."
  else if negb (chk_live c) then "a restore needs a live map."
  else if chk_round c <? 1 then "the round must be 1 or more."
  else
    let current := Z.max 0 (chk_rounds_played c) + 1 in
    if current <? chk_round c
    then "round " +s+ to_string (chk_round c) +s+ " has not been played yet (this is round " +s+ to_string current +s+ ")."
    else EmptyString.

Definition BackupFlagHint : string :=
  "CS2 writes round backups only when started with -allow_round_backup_files (csm 1.27.4+ adds it; restart the server)".

Definition ExplainRestoreError (err : string) : string :=
  if negb (starts_with "no backup " err) then err else err +s+ ". " +s+ BackupFlagHint.

(** The NUL-separated arguments, the text after the last NUL included. *)
Fixpoint split_nul (s : string) : list string :=
  match s with
  | EmptyString => [EmptyString]
  | String c r =>
      if Ascii.eqb c nul then EmptyString :: split_nul r
      else match split_nul r with x :: l => String c x :: l | [] => [str1 c] end
  end.
Definition CmdlineHasArg (raw arg : string) : bool := existsb (fun x => x =s arg) (split_nul raw).

Definition PauseAfterRestoreFor (matchValue consoleValue cfgValue : Z) : Z :=
  if 0 <=? matchValue then if matchValue =? 0 then 0 else 1
  else if 0 <=? consoleValue then if consoleValue =? 0 then 0 else 1
  else if 0 <=? cfgValue then if cfgValue =? 0 then 0 else 1
  else 1.

(** ** The progress record *)

Record Totals := { steamid64 : Z; t_name : string; t_team : Z; t_kills : Z; t_deaths : Z; t_assists : Z; t_headshot_kills : Z; t_damage : Z }.
Record MatchEventsState := {
  roundNumber : Z; lastMapNumber : Z; swapCount : Z; lastHalfStartTotal : Z; lastOvertimeNumber : Z; e_players : list Totals }.
Definition NewEvents : MatchEventsState := {|
  roundNumber := 0; lastMapNumber := 0; swapCount := 0; lastHalfStartTotal := -1; lastOvertimeNumber := 0; e_players := [] |}.

Record Progress := {
  p_map_number : Z; phase : string; series_team1 : Z; series_team2 : Z; stats_json : string; have_events : bool; events : MatchEventsState }.

Definition totals_json (t : Totals) : Json :=
  let x := JObject [] in
  let x := SetKey x "id" (JString (to_string (steamid64 t))) in
  let x := SetKey x "name" (JString (t_name t)) in
  let x := SetKey x "team" (JInt (t_team t)) in
  let x := SetKey x "k" (JInt (t_kills t)) in
  let x := SetKey x "d" (JInt (t_deaths t)) in
  let x := SetKey x "a" (JInt (t_assists t)) in
  let x := SetKey x "hs" (JInt (t_headshot_kills t)) in
  SetKey x "dmg" (JInt (t_damage t)).

Definition events_json (s : MatchEventsState) : Json :=
  let e := JObject [] in
  let e := SetKey e "round" (JInt (roundNumber s)) in
  let e := SetKey e "last_map_number" (JInt (lastMapNumber s)) in
  let e := SetKey e "swaps" (JInt (swapCount s)) in
  let e := SetKey e "last_half_start_total" (JInt (lastHalfStartTotal s)) in
  let e := SetKey e "last_overtime" (JInt (lastOvertimeNumber s)) in
  SetKey e "players" (foldl (fun a t => Push a (totals_json t)) (JArray []) (e_players s)).

Definition progress_json (p : Progress) : Json :=
  let j := JObject [] in
  let j := SetKey j "v" (JInt 1) in
  let j := SetKey j "map_number" (JInt (p_map_number p)) in
  let j := SetKey j "phase" (JString (phase p)) in
  let j := SetKey j "series_team1" (JInt (series_team1 p)) in
  let j := SetKey j "series_team2" (JInt (series_team2 p)) in
  let j := if sempty (stats_json p) then j else SetKey j "stats" (JString (stats_json p)) in
  if have_events p then SetKey j "events" (events_json (events p)) else j.

Definition ProgressToJson (p : Progress) : string := Dump (progress_json p).

(** [Int]: [None] where the conversion of a double is undefined. *)
Definition Int (o : Json) (k : string) (def : Z) : option Z :=
  match Find o k with Some v => to_int32 <$> AsInt v | None => Some def end.
Definition Str (o : Json) (k : string) : string := match Find o k with Some v => AsString v | None => EmptyString end.

Definition totals_from (x : Json) : option Totals :=
  t ← Int x "team" 0; kl ← Int x "k" 0; d ← Int x "d" 0; a ← Int x "a" 0; hs ← Int x "hs" 0; dm ← Int x "dmg" 0;
  Some {| steamid64 := strtoull (Str x "id"); t_name := Str x "name"; t_team := t; t_kills := kl; t_deaths := d; t_assists := a;
          t_headshot_kills := hs; t_damage := dm |}.

Definition events_from (e : Json) : option MatchEventsState :=
  r ← Int e "round" 0; lm ← Int e "last_map_number" 0; sw ← Int e "swaps" 0; lh ← Int e "last_half_start_total" (-1);
  lo ← Int e "last_overtime" 0;
  ps ← mapM totals_from (match Find e "players" with Some ps => Items ps | None => [] end);
  Some {| roundNumber := r; lastMapNumber := lm; swapCount := sw; lastHalfStartTotal := lh; lastOvertimeNumber := lo; e_players := ps |}.

Definition valid_phase (s : string) : bool := (s =s "warmup") || (s =s "live") || (s =s "map_over").

(** [Some (Some p)]: read; [Some None]: refused; [None]: an undefined conversion on the way. *)
Definition ProgressFromJson (json : string) : option (option Progress) :=
  if sempty json then Some None
  else match Parse json with
       | Parsed j =>
           if negb (IsObject j) then Some None
           else
             v ← Int j "v" 0;
             if negb (v =? 1) then Some None
             else
               mn ← Int j "map_number" 1;
               if negb (valid_phase (Str j "phase")) then Some None
               else
                 s1 ← Int j "series_team1" 0; s2 ← Int j "series_team2" 0;
                 ev ← (match Find j "events" with
                       | Some e => if IsObject e then Some <$> events_from e else Some None
                       | None => Some None
                       end);
                 Some (Some {| p_map_number := Z.max 1 mn; phase := Str j "phase"; series_team1 := Z.max 0 s1;
                               series_team2 := Z.max 0 s2; stats_json := Str j "stats";
                               have_events := match ev with Some _ => true | None => false end;
                               events := default NewEvents ev |})
       | _ => Some None
       end.

(** ** Recovery *)

Inductive RecoveryKind := KindNone | KindWarmup | KindLive.
Record RecoveryPlan := { kind : RecoveryKind; plan_map : Z; map_entry : string; why : string }.

Definition NoPlan (w : string) : RecoveryPlan := {| kind := KindNone; plan_map := 1; map_entry := EmptyString; why := w |}.

(** The lambda [at]. *)
Definition plan_at (maplist : list string) (total mapNumber : Z) (k : RecoveryKind) (w : string) : RecoveryPlan :=
  if (mapNumber <? 1) || (zlen maplist <? mapNumber) || (Z.max 1 total <? mapNumber)
  then NoPlan ("map " +s+ to_string mapNumber +s+ " is not in the map list")
  else {| kind := k; plan_map := mapNumber; map_entry := default EmptyString (maplist !! Z.to_nat (mapNumber - 1)); why := w |}.

Definition PlanRecovery (p : option Progress) (legacyLiveFlag : bool) (maplist : list string) (numMaps : Z) (clinchSeries : bool) : RecoveryPlan :=
  let total := if 0 <? numMaps then numMaps else zlen maplist in
  match p with
  | None => plan_at maplist total 1 (if legacyLiveFlag then KindLive else KindWarmup) "no progress record"
  | Some p =>
      if phase p =s "map_over" then
        let remaining := RemainingMaps total (zlen maplist) (p_map_number p) in
        if IsSeriesOver total remaining (series_team1 p) (series_team2 p) clinchSeries then NoPlan "the series was over"
        else plan_at maplist total (p_map_number p + 1) KindWarmup ("map " +s+ to_string (p_map_number p) +s+ " was over")
      else if phase p =s "live" then plan_at maplist total (p_map_number p) KindLive "the map was live"
      else plan_at maplist total (p_map_number p) KindWarmup "the map was in warmup"
  end.

(** * Theorems about round restore and crash recovery

    A backup file is recognised for its own match only and read back with its map and round, the
    backup list is sorted and holds the newest file of each round, the progress record survives its
    JSON round trip, and a recovery plan always names a map of the series. *)

(** ** Backup file names *)

Lemma isdigit_not_underscore s : sforall isdigit s = true -> sforall (fun d => negb (Ascii.eqb "_"%char d)) s = true.
Proof.
  apply sforall_impl. intros c. unfold isdigit. rewrite ascii_eqb_code. code_consts. lia.
Qed.

Lemma backup_head_other id id' rest :
  0 <= id -> 0 <= id' -> id <> id' -> starts_with (backup_head id') (backup_head id +s+ rest) = false.
Proof.
  intros H H' Hne. unfold backup_head. rewrite !app_assoc_s, starts_with_app_same.
  apply not_true_is_false. intros E. apply Hne, to_string_inj.
  symmetry. eapply (starts_with_digits _ _ "_"%char "_"%char); [by apply to_string_digits..|done|done|]. exact E.
Qed.

(** Numbers of at most three digits. *)
Lemma to_string_short n : 0 <= n <= 999 -> (String.length (to_string n) <= 3)%nat.
Proof.
  intros Hn. assert (forallb (fun k => String.length (to_string (Z.of_nat k)) <=? 3)%nat (seq 0 1000) = true) as H by (vm_compute; reflexivity).
  rewrite forallb_forall in H. specialize (H (Z.to_nat n)). rewrite Z2Nat.id in H by lia. apply Nat.leb_le, H, in_seq. lia.
Qed.

Lemma atoi_digits s : AllDigits s = true -> atoi s = digits_val s 0.
Proof.
  unfold AllDigits, atoi, scan_int. destruct s as [|c s]; [done|]. cbn [sempty negb andb]. intros H. pose proof H as [Hc _]%andb_prop.
  rewrite drop_while_id by (cbn; unfold isspace; unfold isdigit in Hc; lia).
  destruct (isdigit_not_sign c Hc) as (-> & -> & _). rewrite <- (app_nil_s (String c s)) at 1. rewrite span_app by done. done.
Qed.

Lemma find_round m r : sforall isdigit m = true -> find "_round" (m +s+ "__round" +s+ r) = Some (String.length m + 1)%nat.
Proof. intros H. rewrite find_after by (by apply isdigit_not_underscore). cbn. done. Qed.

Lemma get_app a c b : String.get (String.length a) (a +s+ String c b) = Some c.
Proof. induction a; cbn; auto. Qed.

Lemma parse_own_backup id map ds :
  0 <= id -> 1 <= map <= 999 -> AllDigits ds = true -> slen ds <= 3 ->
  ParseBackupFileName (backup_head id +s+ to_string map +s+ "__round" +s+ ds +s+ ".txt") id = Some (map, digits_val ds 0 + 1).
Proof.
  intros Hid Hm Hd Hl. unfold ParseBackupFileName. set (h := backup_head id).
  destruct (to_string_digits map ltac:(lia)) as (Hmd & Hme & Hmv). pose proof (to_string_short map ltac:(lia)) as Hms.
  assert (AllDigits (to_string map) = true) as Hma by (unfold AllDigits; by rewrite Hmd, Hme).
  set (m := to_string map) in *. unfold slen in *.
  assert (sdrop (String.length (h +s+ m +s+ "__round" +s+ ds +s+ ".txt") - 4) (h +s+ m +s+ "__round" +s+ ds +s+ ".txt") = ".txt") as Etxt.
  { rewrite <- (app_assoc_s "__round"), <- (app_assoc_s m), <- (app_assoc_s h). apply sdrop_length_app. rewrite !length_app_s. cbn. lia. }
  rewrite Etxt, starts_with_refl, sdrop_app. cbn [negb String.eqb Ascii.eqb Bool.eqb].
  replace (Z.of_nat (String.length (h +s+ m +s+ "__round" +s+ ds +s+ ".txt")) <=? Z.of_nat (String.length h) + 4) with false
    by (symmetry; apply Z.leb_gt; rewrite !length_app_s; cbn; lia).
  cbn [orb negb]. rewrite find_round by done. replace (String.length m + 1)%nat with (S (String.length m)) by lia.
  rewrite bool_decide_true by (apply (get_app m "_"%char)). rewrite stake_app, Hma.
  destruct (Nat.ltb_spec 3 (String.length m)); [lia|]. cbn [negb orb].
  replace (S (String.length m) + 6)%nat with (String.length (m +s+ "__round")) by (rewrite length_app_s; cbn; lia).
  rewrite <- (app_assoc_s m "__round"), sdrop_app.
  replace (String.length ((m +s+ "__round") +s+ ds +s+ ".txt") - 4 - String.length (m +s+ "__round"))%nat with (String.length ds)
    by (rewrite !length_app_s; cbn; lia).
  rewrite stake_app, Hd. destruct (Nat.ltb_spec 3 (String.length ds)); [lia|]. cbn [negb orb].
  rewrite !atoi_digits by done. rewrite Hmv. destruct (Z.ltb_spec map 1); [lia|done].
Qed.

(** A backup file written under a match's [BackupPrefix] is found again: the name
    CS2 makes of it by appending [_round], the number of rounds played and [.txt] is recognised
    with its map and with the round it restores (one more than was played), and never by another
    match's id. *)
Theorem backup_name_parsed (id id' map : Z) (ds : string) :
  0 <= id -> 0 <= id' -> 1 <= map <= 999 -> AllDigits ds = true -> slen ds <= 3 ->
  ParseBackupFileName (BackupPrefix id map +s+ "_round" +s+ ds +s+ ".txt") id' =
  if id =? id' then Some (map, digits_val ds 0 + 1) else None.
Proof.
  intros Hid Hid' Hm Hd Hl. unfold BackupPrefix. rewrite Z.max_r by lia. rewrite !app_assoc_s.
  change ("_" +s+ "_round" +s+ ds +s+ ".txt") with ("__round" +s+ ds +s+ ".txt").
  destruct (Z.eqb_spec id id') as [<-|Hne]; [by apply parse_own_backup|].
  unfold ParseBackupFileName. rewrite backup_head_other by done. cbn [negb]. by rewrite orb_true_r.
Qed.

Lemma backup_name_parsed_witness :
  ParseBackupFileName (BackupPrefix 412 1 +s+ "_round" +s+ "04" +s+ ".txt") 412 = if 412 =? 412 then Some (1, digits_val "04" 0 + 1) else None.
Proof. apply (backup_name_parsed 412 412 1 "04"); (lia || vm_compute; done). Defined.

(** ** The backup list *)

(** What [keep_newest] has kept of the files seen so far. *)
Definition newest (l : list BackupInfo) (best : gmap (Z * Z) BackupInfo) : Prop :=
  (forall k b, best !! k = Some b -> backup_key b = k /\ b ∈ l /\ forall o, o ∈ l -> backup_key o = k -> mtime o <= mtime b) /\
  (forall o, o ∈ l -> is_Some (best !! backup_key o)).

Lemma newest_step l best b : newest l best -> newest (l ++ [b]) (keep_newest best b).
Proof.
  intros [H1 H2]. unfold keep_newest. destruct (best !! backup_key b) as [o|] eqn:E; [destruct (Z.ltb_spec (mtime o) (mtime b))|]; split.
  - intros k x. rewrite lookup_insert_Some. intros [[<- <-]|[Hk Hx]].
    + split_and!; [done|set_solver|]. intros y [Hy| ->%list_elem_of_singleton]%elem_of_app Ey; [|lia].
      destruct (H1 _ _ E) as (_ & _ & Hmax). specialize (Hmax y Hy Ey). lia.
    + destruct (H1 _ _ Hx) as (Ek & Hin & Hmax). split_and!; [done|set_solver|].
      intros y [Hy| ->%list_elem_of_singleton]%elem_of_app Ey; [by apply Hmax|congruence].
  - intros y [Hy| ->%list_elem_of_singleton]%elem_of_app; [|rewrite lookup_insert_eq; by eexists].
    destruct (decide (backup_key b = backup_key y)) as [<-|]; [rewrite lookup_insert_eq; by eexists|]. rewrite lookup_insert_ne by done. by apply H2.
  - intros k x Hx. destruct (H1 _ _ Hx) as (Ek & Hin & Hmax). split_and!; [done|set_solver|].
    intros y [Hy| ->%list_elem_of_singleton]%elem_of_app Ey; [by apply Hmax|]. rewrite Ey in E. assert (x = o) as -> by congruence. lia.
  - intros y [Hy| ->%list_elem_of_singleton]%elem_of_app; [by apply H2|rewrite E; by eexists].
  - intros k x. rewrite lookup_insert_Some. intros [[<- <-]|[Hk Hx]].
    + split_and!; [done|set_solver|]. intros y [Hy| ->%list_elem_of_singleton]%elem_of_app Ey; [|lia].
      destruct (H2 y Hy) as [z Hz]. rewrite Ey in Hz. congruence.
    + destruct (H1 _ _ Hx) as (Ek & Hin & Hmax). split_and!; [done|set_solver|].
      intros y [Hy| ->%list_elem_of_singleton]%elem_of_app Ey; [by apply Hmax|congruence].
  - intros y [Hy| ->%list_elem_of_singleton]%elem_of_app; [|rewrite lookup_insert_eq; by eexists].
    destruct (decide (backup_key b = backup_key y)) as [<-|]; [rewrite lookup_insert_eq; by eexists|]. rewrite lookup_insert_ne by done. by apply H2.
Qed.

Lemma newest_all l : newest l (foldl keep_newest ∅ l).
Proof.
  induction l as [|b l IH] using rev_ind; [split; [intros k b H; cbn [foldl] in H; by rewrite lookup_empty in H|set_solver]|].
  rewrite foldl_app. by apply newest_step.
Qed.

#[export] Instance key_le_trans : Transitive key_le.
Proof. intros x y z. unfold key_le. repeat case_decide; lia. Qed.
#[export] Instance key_le_total : Total key_le.
Proof. intros x y. unfold key_le. repeat case_decide; lia. Qed.

(** The order of the listed backups: map, then round, each pair once. *)
Definition backup_lt (a b : BackupInfo) : Prop := map_number a < map_number b \/ (map_number a = map_number b /\ round a < round b).

Lemma sorted_strict (l : list ((Z * Z) * BackupInfo)) :
  NoDup l.*1 -> (forall x, x ∈ l -> backup_key x.2 = x.1) -> StronglySorted key_le l -> StronglySorted backup_lt l.*2.
Proof.
  intros Hn Hk Hs. induction Hs as [|x l Hs IH Hx]; cbn; [constructor|]. cbn in Hn. apply NoDup_cons in Hn as [Hx' Hn].
  constructor; [apply IH; [done|set_solver]|]. rewrite Forall_fmap. rewrite Forall_forall in *. intros y Hy. specialize (Hx y Hy). cbn.
  assert (x.1 <> y.1) as Hne by (intros E; apply Hx'; rewrite E; by apply list_elem_of_fmap_2).
  pose proof (Hk x ltac:(set_solver)) as Ex. pose proof (Hk y ltac:(set_solver)) as Ey. destruct x as [[xm xr] xb], y as [[ym yr] yb].
  unfold backup_key, key_le, backup_lt in *. cbn in *. injection Ex as Ex1 Ex2. injection Ey as Ey1 Ey2. rewrite Ex1, Ex2, Ey1, Ey2.
  destruct (decide (xm = ym)) as [->|]; [|lia]. right. split; [done|]. assert (xr <> yr) by congruence. lia.
Qed.

(** The backup list is what the restore command needs: sorted by map and round with no
    pair twice; every entry is one of the files found, and the newest of its map and round; and no
    round that has a file is missing. *)
Theorem SortBackups_spec (l : list BackupInfo) :
  let out := SortBackups l in
  StronglySorted backup_lt out /\
  (forall b, b ∈ out -> b ∈ l /\ forall o, o ∈ l -> backup_key o = backup_key b -> mtime o <= mtime b) /\
  (forall o, o ∈ l -> exists b, b ∈ out /\ backup_key b = backup_key o).
Proof.
  destruct (newest_all l) as [H1 H2]. unfold SortBackups. set (m := foldl keep_newest ∅ l) in *.
  assert (merge_sort key_le (map_to_list m) ≡ₚ map_to_list m) as Hp by apply merge_sort_Permutation.
  assert (forall x, x ∈ merge_sort key_le (map_to_list m) -> m !! x.1 = Some x.2) as Hin.
  { intros [k b]. rewrite Hp. apply elem_of_map_to_list. }
  split_and!.
  - apply sorted_strict.
    + rewrite Hp. apply NoDup_fst_map_to_list.
    + intros x Hx. by apply (H1 x.1 x.2), Hin.
    + apply StronglySorted_merge_sort; apply _.
  - intros b ([k b'] & -> & Hx)%list_elem_of_fmap_1. destruct (H1 _ _ (Hin _ Hx)) as (<- & ? & ?). done.
  - intros o Ho. destruct (H2 o Ho) as [b Hb]. exists b. split; [|by apply (H1 _ _ Hb)].
    change b with (snd (backup_key o, b)). apply list_elem_of_fmap_2. rewrite Hp. by apply elem_of_map_to_list.
Qed.

(** ** Recovery plans *)

Lemma plan_at_spec maplist total n k w :
  let plan := plan_at maplist total n k w in
  (kind plan <> KindNone -> 1 <= n <= zlen maplist /\ n <= Z.max 1 total) /\
  (1 <= n <= zlen maplist -> n <= Z.max 1 total ->
   kind plan = k /\ plan_map plan = n /\ maplist !! Z.to_nat (plan_map plan - 1) = Some (map_entry plan)).
Proof.
  unfold plan_at. destruct ((n <? 1) || (zlen maplist <? n) || (Z.max 1 total <? n)) eqn:E; cbn.
  - split; [done|]. lia.
  - split; [lia|]. intros Hn Ht. split_and!; [done..|]. unfold zlen in *.
    destruct (lookup_lt_is_Some_2 maplist (Z.to_nat (n - 1))) as [x ->]; [lia|done].
Qed.

(** A restarted server resumes where the match was: a plan that is not [None] names an
    existing entry of the map list within the series; it goes live only for a map that was live (or
    for a legacy record with the live flag), on that very map; a decided map is never replayed, the
    next one is prepared only while the series is not over; and a live map of the series is always
    resumed. *)
Theorem recovery_plan_sound (p : option Progress) (legacy : bool) (maplist : list string) (numMaps : Z) (clinch : bool) :
  let plan := PlanRecovery p legacy maplist numMaps clinch in
  let total := if 0 <? numMaps then numMaps else zlen maplist in
  (kind plan <> KindNone ->
   1 <= plan_map plan <= total /\ maplist !! Z.to_nat (plan_map plan - 1) = Some (map_entry plan) /\
   (kind plan = KindLive -> match p with Some pr => phase pr = "live" /\ plan_map plan = p_map_number pr | None => legacy = true end) /\
   (forall pr, p = Some pr -> phase pr = "map_over" ->
      plan_map plan = p_map_number pr + 1 /\
      IsSeriesOver total (RemainingMaps total (zlen maplist) (p_map_number pr)) (series_team1 pr) (series_team2 pr) clinch = false)) /\
  (forall pr, p = Some pr -> phase pr = "live" -> 1 <= p_map_number pr <= zlen maplist -> p_map_number pr <= total ->
     kind plan = KindLive /\ plan_map plan = p_map_number pr).
Proof.
  set (total := if 0 <? numMaps then numMaps else zlen maplist).
  assert (1 <= zlen maplist -> 1 <= total) as Ht by (subst total; destruct (Z.ltb_spec 0 numMaps); lia).
  unfold PlanRecovery. fold total. destruct p as [pr|].
  2: { split; [|done]. intros Hk. destruct (plan_at_spec maplist total 1 (if legacy then KindLive else KindWarmup) "no progress record") as [H1 H2].
       destruct (H1 Hk) as [Hn Hm]. destruct (H2 Hn Hm) as (-> & -> & E). split_and!; [lia|lia|done|by destruct legacy|done]. }
  destruct (String.eqb_spec (phase pr) "map_over") as [Eo|Eo]; [|destruct (String.eqb_spec (phase pr) "live") as [El|El]].
  - split; [|intros ? [= <-]; congruence]. destruct (IsSeriesOver _ _ _ _ _) eqn:Es; [done|]. intros Hk.
    destruct (plan_at_spec maplist total (p_map_number pr + 1) KindWarmup ("map " +s+ to_string (p_map_number pr) +s+ " was over")) as [H1 H2].
    destruct (H1 Hk) as [Hn Hm]. destruct (H2 Hn Hm) as (-> & -> & E). split_and!; [lia|lia|done|done|]. intros ? [= <-]; done.
  - destruct (plan_at_spec maplist total (p_map_number pr) KindLive "the map was live") as [H1 H2]. split.
    + intros Hk. destruct (H1 Hk) as [Hn Hm]. destruct (H2 Hn Hm) as (-> & -> & E). split_and!; [lia|lia|done|done|]. intros ? [= <-]; congruence.
    + intros ? [= <-] _ Hn Hm. destruct (H2 Hn ltac:(lia)) as (-> & -> & _). done.
  - split; [|intros ? [= <-]; congruence]. intros Hk.
    destruct (plan_at_spec maplist total (p_map_number pr) KindWarmup "the map was in warmup") as [H1 H2].
    destruct (H1 Hk) as [Hn Hm]. destruct (H2 Hn Hm) as (-> & -> & E). split_and!; [lia|lia|done|done|]. intros ? [= <-]; congruence.
Qed.

(** ** The progress record *)

(** What the server keeps: numbers that fit [int], ids that fit 64 bits, one of the three phases. *)
Definition totals_ok (t : Totals) : Prop :=
  uint64_ok (steamid64 t) /\ Forall int32_ok [t_team t; t_kills t; t_deaths t; t_assists t; t_headshot_kills t; t_damage t].
Definition events_ok (e : MatchEventsState) : Prop :=
  Forall int32_ok [roundNumber e; lastMapNumber e; swapCount e; lastHalfStartTotal e; lastOvertimeNumber e] /\ Forall totals_ok (e_players e).
Definition progress_ok (p : Progress) : Prop :=
  1 <= p_map_number p /\ 0 <= series_team1 p /\ 0 <= series_team2 p /\
  Forall int32_ok [p_map_number p; series_team1 p; series_team2 p] /\ valid_phase (phase p) = true /\
  (if have_events p then events_ok (events p) else events p = NewEvents).

Lemma int32_int64 v : int32_ok v -> bool_decide (int64_ok v) = true.
Proof. intros H. apply bool_decide_eq_true. unfold int32_ok, int64_ok in *. lia. Qed.

Lemma totals_roundtrip t : totals_ok t -> totals_from (totals_json t) = Some t /\ plain (totals_json t) = true /\ depth (totals_json t) = 1%nat.
Proof.
  intros [Hid H]. rewrite !Forall_cons in H. destruct H as (H1 & H2 & H3 & H4 & H5 & H6 & _). split_and!; [| |done].
  - unfold totals_from, Int, Str. cbn. rewrite strtoull_to_string, !to_int32_id by done. by destruct t.
  - apply plain_object. cbn. split; [apply (bool_decide_unpack _); vm_compute; exact I|].
    repeat (apply Forall_cons_2; [first [done | by apply int32_int64]|]). apply Forall_nil_2.
Qed.

Lemma push_all l a : foldl (fun a t => Push a (totals_json t)) (JArray a) l = JArray (a ++ (totals_json <$> l)).
Proof. revert a. induction l as [|t l IH]; intros a; cbn [foldl]; [by rewrite app_nil_r|].
  change (Push (JArray a) (totals_json t)) with (JArray (a ++ [totals_json t])). rewrite IH, <- app_assoc. done.
Qed.

Lemma players_roundtrip l :
  Forall totals_ok l ->
  mapM totals_from (totals_json <$> l) = Some l /\ plain (JArray (totals_json <$> l)) = true /\ (depth (JArray (totals_json <$> l)) <= 2)%nat.
Proof.
  induction 1 as [|t l Ht Hl IH]; [split_and!; [done|done|cbn; lia]|]. destruct IH as (E & Hp & Hd), (totals_roundtrip t Ht) as (Et & Pt & Dt).
  split_and!.
  - rewrite fmap_cons. apply mapM_Some in E. apply mapM_Some. by constructor.
  - cbn in *. by rewrite Pt, Hp.
  - cbn in *. lia.
Qed.

Lemma events_roundtrip e : events_ok e -> events_from (events_json e) = Some e /\ plain (events_json e) = true /\ (depth (events_json e) <= 3)%nat.
Proof.
  intros [H Hp]. rewrite !Forall_cons in H. destruct H as (H1 & H2 & H3 & H4 & H5 & _).
  destruct (players_roundtrip _ Hp) as (E & P & D).
  assert (events_json e = JObject [("round", JInt (roundNumber e)); ("last_map_number", JInt (lastMapNumber e)); ("swaps", JInt (swapCount e));
    ("last_half_start_total", JInt (lastHalfStartTotal e)); ("last_overtime", JInt (lastOvertimeNumber e)); ("players", JArray (totals_json <$> e_players e))]) as Ej.
  { unfold events_json. rewrite push_all. reflexivity. }
  rewrite Ej. split_and!.
  - unfold events_from, Int. cbn -[mapM]. rewrite E, !to_int32_id by done. cbn. by destruct e.
  - apply plain_object. split; [apply (bool_decide_unpack _); vm_compute; exact I|].
    repeat (apply Forall_cons_2; [first [done | by apply int32_int64]|]). apply Forall_nil_2.
  - cbn in *. lia.
Qed.

Lemma progress_json_ok p :
  progress_ok p -> plain (progress_json p) = true /\ (depth (progress_json p) <= 4)%nat.
Proof.
  intros (H1 & H2 & H3 & Hi & Hp & He). rewrite !Forall_cons in Hi. destruct Hi as (I1 & I2 & I3 & _).
  assert (have_events p = true -> plain (events_json (events p)) = true /\ (depth (events_json (events p)) <= 3)%nat) as Hev.
  { intros E. rewrite E in He. by destruct (events_roundtrip _ He) as (_ & ? & ?). }
  unfold progress_json.
  destruct (sempty (stats_json p)), (have_events p); try (destruct (Hev eq_refl) as [Pe De]); set (ej := events_json (events p)) in *; clearbody ej;
    (split; [apply plain_object; cbn; split; [apply (bool_decide_unpack _); vm_compute; exact I|];
             repeat (apply Forall_cons_2; [first [done | by apply int32_int64]|]); apply Forall_nil_2
            |cbn in *; lia]).
Qed.

(** The progress record survives a crash: what [ProgressToJson] writes to
    [state.json], [ProgressFromJson] reads back unchanged, for every record the server keeps (map
    number and series score, phase, the statistics text of any content, and the event counters with
    every player's totals). *)
Theorem progress_roundtrip (p : Progress) :
  progress_ok p -> ProgressFromJson (ProgressToJson p) = Some (Some p).
Proof.
  intros Hok. destruct (progress_json_ok p Hok) as [Hplain Hdepth]. unfold ProgressFromJson, ProgressToJson.
  destruct (Dump_head _ Hplain) as (c & s & E & _). rewrite E at 1. cbn [sempty]. rewrite Parse_Dump by (done || lia).
  destruct Hok as (H1 & H2 & H3 & Hi & Hp & He). rewrite !Forall_cons in Hi. destruct Hi as (I1 & I2 & I3 & _).
  destruct p as [mn ph s1 s2 st ev evs]. cbn [p_map_number phase series_team1 series_team2 stats_json have_events events] in *.
  unfold progress_json, Int, Str. cbn [p_map_number phase series_team1 series_team2 stats_json have_events events].
  destruct ev.
  - destruct (events_roundtrip evs He) as (Er & _ & _). assert (IsObject (events_json evs) = true) as Eo by reflexivity.
    set (ej := events_json evs) in *. clearbody ej.
    destruct st as [|c' st]; cbn [sempty]; cbn -[events_from valid_phase]; rewrite Hp, Eo, Er; cbn; rewrite !to_int32_id by done; by rewrite !Z.max_r by lia.
  - subst evs. destruct st as [|c' st]; cbn [sempty]; cbn -[events_from valid_phase]; rewrite Hp; cbn; rewrite !to_int32_id by done; by rewrite !Z.max_r by lia.
Qed.

Definition sample_progress : Progress := {|
  p_map_number := 2; phase := "live"; series_team1 := 1; series_team2 := 0; stats_json := qs "{`live`:true}"; have_events := true;
  events := {| roundNumber := 5; lastMapNumber := 2; swapCount := 0; lastHalfStartTotal := -1; lastOvertimeNumber := 0;
               e_players := [{| steamid64 := 76561198000000001; t_name := qs "a`b"; t_team := 1; t_kills := 3; t_deaths := 1; t_assists := 0;
                                t_headshot_kills := 2; t_damage := 310 |}] |} |}.

Lemma progress_roundtrip_witness : ProgressFromJson (ProgressToJson sample_progress) = Some (Some sample_progress).
Proof.
  apply (progress_roundtrip sample_progress). unfold progress_ok, sample_progress, events_ok, totals_ok, int32_ok, uint64_ok. cbn.
  repeat split; try lia; repeat (apply Forall_cons_2 || apply Forall_nil_2 || split); cbn; lia.
Defined.
