(* ===== verification/Retention.v ===== *)
(** * File retention

    [plugins/match/readyup/retention_rules.{h,cpp}]: which round backups and demos a sweep deletes.  The
    name parser of this component is not the one of round restore ([RoundRestore.ParseBackupFileName]);
    the theorem relates the two: no file a protected match could restore from is ever selected. *)

From S2P Require Import Prelude CStr Double Json JsonFacts Stats MatchEnd RoundRestore.

Module Retention.

Record FileEntry := { name : string; mtime : Z }.

Definition EndsWith (p s : string) : bool :=
  (String.length p <=? String.length s)%nat && (sdrop (String.length s - String.length p) s =s p).

(** The loop of [Digits]: at most [n] more digits, on an [uint64_t]. *)
Fixpoint read_digits (n : nat) (v : Z) (s : string) : Z * string :=
  match n, s with
  | S n, String c r => if isdigit c then read_digits n ((v * 10 + digit_val c) mod 18446744073709551616) r else (v, s)
  | _, _ => (v, s)
  end.

(** The number and the text after it. *)
Definition Digits (s : string) : option (Z * string) :=
  match s with
  | String c _ => if isdigit c then Some (read_digits 20 0 s) else None
  | EmptyString => None
  end.

(** The text after the literal. *)
Definition Literal (lit s : string) : option string :=
  if starts_with lit s then Some (sdrop (String.length lit) s) else None.

Definition IsProtected (id : Z) (ids : list Z) : bool := negb (id =? 0) && bool_decide (id ∈ ids).

Definition ParseRetainedBackupName (f : string) : option Z :=
  if starts_with "readyup_backup_" f || starts_with "readyup_resume_" f then
    '(id, s) ← Digits (sdrop 15 f);
    s ← Literal "_map" s;
    '(_, s) ← Digits s;
    let s := if starts_with "__round" s then sdrop 1 s else s in
    s ← Literal "_round" s;
    '(_, s) ← Digits s;
    s ← Literal ".txt" s;
    if sempty s then Some id else None
  else None.

Definition DemoNameHasMatchId (f : string) (matchid : Z) : bool :=
  if matchid =? 0 then false
  else
    let id := to_string matchid in
    starts_with (id +s+ "_") f || starts_with (id +s+ ".") f || contains ("_" +s+ id +s+ "_") f || EndsWith ("_" +s+ id +s+ ".dem") f.

Definition Expired (now mtime keepHours : Z) : bool :=
  if (keepHours <=? 0) || (now <? mtime) then false else keepHours * 3600 <=? now - mtime.

Definition BackupsToDelete (files : list FileEntry) (now keepHours : Z) (protectedMatchids : list Z) : list string :=
  if keepHours <=? 0 then []
  else
    name <$> List.filter (fun f =>
      match ParseRetainedBackupName (name f) with
      | None => false
      | Some id => if IsProtected id protectedMatchids then false else Expired now (mtime f) keepHours
      end) files.

Definition DemosToDelete (files : list FileEntry) (now keepHours : Z) (protectedMatchids : list Z) (keepNames : list string) : list string :=
  if keepHours <=? 0 then []
  else
    name <$> List.filter (fun f =>
      if (slen (name f) <=? 4) || negb (EndsWith ".dem" (name f)) then false
      else if bool_decide (name f ∈ keepNames) then false
      else if existsb (DemoNameHasMatchId (name f)) protectedMatchids then false
      else Expired now (mtime f) keepHours) files.

Example names :
  ParseRetainedBackupName "readyup_backup_412_map1__round03.txt" = Some 412 /\ ParseRetainedBackupName "readyup_resume_412_map1_round03.txt" = Some 412 /\
  ParseRetainedBackupName "backup_round03.txt" = None /\ DemoNameHasMatchId "2026_412_de_dust2.dem" 412 = true.
Proof. vm_compute. done. Qed.

(** ** The numbers of a name *)

Lemma digits_val_ge ds : sforall isdigit ds = true -> forall v, 0 <= v -> v <= digits_val ds v.
Proof.
  induction ds as [|d ds IH]; intros Hd v Hv; [cbn; lia|]. cbn in Hd |- *. apply andb_prop in Hd as [Hd1 Hd].
  etransitivity; [|apply IH; [done|]]; unfold isdigit, digit_val in *; lia.
Qed.

Lemma read_digits_app ds : forall n v r, sforall isdigit ds = true -> (String.length ds <= n)%nat -> stops isdigit r ->
  0 <= v -> digits_val ds v < 18446744073709551616 -> read_digits n v (ds +s+ r) = (digits_val ds v, r).
Proof.
  induction ds as [|c ds IH]; intros n v r Hd Hn Hr Hv Hu; cbn [digits_val String.append] in *.
  - destruct n, r; cbn in *; try done. by rewrite Hr.
  - cbn [sforall] in Hd. apply andb_prop in Hd as [Hc Hd]. destruct n as [|n]; [cbn in Hn; lia|]. cbn [read_digits]. rewrite Hc.
    assert (0 <= digit_val c) by (unfold isdigit in Hc; unfold digit_val; lia).
    pose proof (digits_val_ge ds Hd (10 * v + digit_val c) ltac:(lia)).
    rewrite Z.mod_small by lia. replace (v * 10 + digit_val c) with (10 * v + digit_val c) by lia. apply IH; cbn in Hn; try done; lia.
Qed.

Lemma Digits_to_string n r : uint64_ok n -> stops isdigit r -> Digits (to_string n +s+ r) = Some (n, r).
Proof.
  intros [H1 H2] Hr. destruct (to_string_digits n H1) as (Hd & He & Hv).
  assert (read_digits 20 0 (to_string n +s+ r) = (n, r)) as E.
  { rewrite read_digits_app; rewrite ?Hv; try done; [|lia]. unfold to_string. destruct (Z.ltb_spec n 0); [lia|].
    unfold dec_nonneg. etransitivity; [apply (dec_aux_length 20); [done|lia]|]. cbn. lia. }
  unfold Digits. destruct (to_string n) as [|c s] eqn:Es; [done|]. cbn [sforall] in Hd. apply andb_prop in Hd as [Hc _].
  rewrite app_cons_s in *. by rewrite Hc, E.
Qed.

(** The two parsers agree on the match of a name. *)
Lemma parsers_agree f m id x : uint64_ok m -> ParseBackupFileName f m = Some x -> ParseRetainedBackupName f = Some id -> id = m.
Proof.
  intros Hm. unfold ParseBackupFileName. destruct (_ || negb (starts_with _ _)) eqn:E; [done|]. intros _.
  apply orb_false_elim in E as [_ E]. apply negb_false_iff in E. apply starts_with_app in E as [r ->].
  unfold backup_head, ParseRetainedBackupName. rewrite !app_assoc_s, starts_with_refl. cbn [orb].
  change 15%nat with (String.length "readyup_backup_"). rewrite sdrop_app, Digits_to_string by done. cbn [mbind option_bind].
  intros (s1 & _ & H)%bind_Some. apply bind_Some in H as ([? s2] & _ & H). apply bind_Some in H as (s3 & _ & H).
  apply bind_Some in H as ([? s4] & _ & H). apply bind_Some in H as (s5 & _ & H). destruct (sempty s5); by simplify_eq.
Qed.

Lemma Expired_age now mt keep : Expired now mt keep = true -> 0 < keep /\ mt <= now /\ keep * 3600 <= now - mt.
Proof. unfold Expired. destruct (_ || _) eqn:E; [done|]. apply orb_false_elim in E. lia. Qed.

(** A sweep is safe for the matches that still matter: every backup file it selects is a backup
    or resume file of the swept directory that has not been written for the whole keep time, it does not
    belong to a protected match, and neither the loaded match nor a match to recover could restore from
    it, that is, round restore's own parser does not recognise it for any protected match. *)
Theorem sweep_protects (files : list FileEntry) (now keep : Z) (prot : list Z) (f : string) :
  f ∈ BackupsToDelete files now keep prot ->
  (exists e id, e ∈ files /\ name e = f /\ ParseRetainedBackupName f = Some id /\ ~ (id <> 0 /\ id ∈ prot) /\ keep * 3600 <= now - mtime e) /\
  forall m, m ∈ prot -> m <> 0 -> uint64_ok m -> ParseBackupFileName f m = None.
Proof.
  unfold BackupsToDelete. case_if; [by intros ?%elem_of_nil|].
  intros (e & -> & He)%list_elem_of_fmap. apply list_elem_of_In, filter_In in He as [He Hf]. apply list_elem_of_In in He.
  destruct (ParseRetainedBackupName (name e)) as [id|] eqn:Ep; [|done]. destruct (IsProtected id prot) eqn:Ei; [done|].
  assert (~ (id <> 0 /\ id ∈ prot)) as Hn.
  { intros [H1 H2]. unfold IsProtected in Ei. rewrite bool_decide_true in Ei by done. apply Z.eqb_neq in H1. by rewrite H1 in Ei. }
  split; [exists e, id; split_and!; try done; by apply Expired_age in Hf as (_ & _ & ?)|].
  intros m Hm H0 Hu. destruct (ParseBackupFileName (name e) m) as [x|] eqn:E; [|done].
  destruct Hn. rewrite (parsers_agree _ _ _ _ Hu E Ep). done.
Qed.

Lemma sweep_protects_witness :
  (exists e id, e ∈ [{| name := "readyup_backup_7_map1__round03.txt"; mtime := 0 |}] /\ name e = "readyup_backup_7_map1__round03.txt" /\
    ParseRetainedBackupName "readyup_backup_7_map1__round03.txt" = Some id /\ ~ (id <> 0 /\ id ∈ [412]) /\ 72 * 3600 <= 1000000 - mtime e) /\
  forall m, m ∈ [412] -> m <> 0 -> uint64_ok m -> ParseBackupFileName "readyup_backup_7_map1__round03.txt" m = None.
Proof. apply (sweep_protects _ 1000000 72 [412]). vm_compute. constructor. Defined.

(** The recording in progress and the demos of protected matches are never selected. *)
Lemma DemosToDelete_spec files now keep prot keepNames f :
  f ∈ DemosToDelete files now keep prot keepNames -> (f ∉ keepNames) /\ forall m, m ∈ prot -> DemoNameHasMatchId f m = false.
Proof.
  unfold DemosToDelete. case_if; [by intros ?%elem_of_nil|].
  intros (e & -> & He)%list_elem_of_fmap. apply list_elem_of_In, filter_In in He as [_ Hf]. destruct (_ || _); [done|].
  case_bool_decide; [done|]. destruct (existsb _ _) eqn:Ex; [done|]. split; [done|]. intros m Hm. apply not_true_is_false. intros Hd.
  apply not_true_iff_false in Ex. apply Ex, existsb_exists. exists m. split; [by apply list_elem_of_In|done].
Qed.

End Retention.
