(* ===== verification/Ruleset.v ===== *)
(** * Rulesets

    [plugins/match/readyup/ruleset.cpp]: the rule table, the presets, the parsing of a match's
    overrides, the effective rules and what is made of them (console commands, the status JSON, the
    report text, the go-live checks).  [RuleMap] is a [gmap]; the loop of [ResolveEffective] over the
    overrides visits its entries. *)

From S2P Require Import Prelude CStr Double Json MatchRules.

(** ** Text helpers *)

Definition trim_char (c : ascii) : bool := Ascii.eqb c " "%char || Ascii.eqb c tab || Ascii.eqb c creturn || Ascii.eqb c newline.
Definition Trim (s : string) : string := strip trim_char s.
Definition IsDigits (s : string) : bool := negb (sempty s) && sforall isdigit s.
Definition safe_char (c : ascii) : bool :=
  negb ((code c <=? 32) || (127 <=? code c) || Ascii.eqb c dquote || Ascii.eqb c ";"%char || Ascii.eqb c backslash).
Definition SafeQuoted (s : string) : bool := sforall safe_char s.
Definition quote (s : string) : string := str1 dquote +s+ s +s+ str1 dquote.

(** ** Values and the table *)

Inductive Kind := KNone | KInt | KBool | KStr.
Inductive RuleValue := RNone | MakeInt (i : Z) | MakeBool (b : bool) | MakeStr (s : string).

#[export] Instance RuleValue_eq_dec : EqDecision RuleValue.
Proof. solve_decision. Defined.

Definition kind_of (v : RuleValue) : Kind := match v with RNone => KNone | MakeInt _ => KInt | MakeBool _ => KBool | MakeStr _ => KStr end.
Definition Set_ (v : RuleValue) : bool := match v with RNone => false | _ => true end.

Definition Text (v : RuleValue) : string :=
  match v with RNone => "(server)" | MakeInt i => to_string i | MakeBool b => if b then "true" else "false" | MakeStr s => quote s end.
Definition ToJson (v : RuleValue) : Json :=
  match v with RNone => JNull | MakeInt i => JInt i | MakeBool b => JBool b | MakeStr s => JString s end.

(** [help] is documentation and is not read by the code. *)
Record RuleInfo := { key : string; kind : Kind; cvar : option string; min : Z; max : Z }.
Definition rule (k : string) (kd : Kind) (cv : option string) (lo hi : Z) : RuleInfo := {| key := k; kind := kd; cvar := cv; min := lo; max := hi |}.

Definition RuleTable : list RuleInfo := [
  rule "freezetime" KInt (Some "mp_freezetime") 0 120;
  rule "tac_timeouts" KInt (Some "mp_team_timeout_max") 0 10;
  rule "tac_timeout_seconds" KInt (Some "mp_team_timeout_time") 1 300;
  rule "tech_pauses_per_team" KInt None 0 20;
  rule "tech_pause_seconds" KInt None 0 3600;
  rule "allow_knife" KBool None 0 1;
  rule "overtime.enabled" KBool (Some "mp_overtime_enable") 0 1;
  rule "overtime.maxrounds" KInt (Some "mp_overtime_maxrounds") 2 30;
  rule "overtime.startmoney" KInt (Some "mp_overtime_startmoney") 0 65535;
  rule "overtime.limit" KInt (Some "mp_overtime_limit") 0 100;
  rule "zeus" KInt (Some "mp_weapons_allow_zeus") (-1) 10;
  rule "spectators_max" KInt (Some "mp_spectators_max") 0 64;
  rule "halftime_pausematch" KBool (Some "mp_halftime_pausematch") 0 1;
  rule "tv_delay" KInt (Some "tv_delay") 0 960;
  rule "tv_broadcast_url" KStr None 0 0;
  rule "camera_man_steamid" KStr None 0 0;
  rule "lan" KBool None 0 1;
  rule "coaches_online" KBool None 0 1;
  rule "default_models" KBool None 0 1;
  rule "cosmetics" KStr None 0 0 ].

Definition FindRule (k : string) : option RuleInfo := List.find (fun r => k =s key r) RuleTable.

Fixpoint join_comma (first : bool) (l : list string) : string :=
  match l with [] => EmptyString | x :: l => (if first then EmptyString else ", ") +s+ x +s+ join_comma false l end.
Definition KnownKeys : string := join_comma true (key <$> RuleTable).

(** ** Presets *)

Inductive Ruleset_ := RDefault | RValve.
#[export] Instance Ruleset_eq_dec : EqDecision Ruleset_.
Proof. solve_decision. Defined.

Definition RulesetName (r : Ruleset_) : string := match r with RValve => "valve" | RDefault => "default" end.
Definition ParseRuleset (s : string) : option Ruleset_ :=
  let v := lower (Trim s) in if v =s "default" then Some RDefault else if v =s "valve" then Some RValve else None.
Definition LiveCfgFor (r : Ruleset_) : string := match r with RValve => "ReadyUp/esports_live.cfg" | RDefault => "ReadyUp/live.cfg" end.

Abbreviation RuleMap := (gmap string RuleValue).

Definition PresetRules (r : Ruleset_) : RuleMap :=
  match r with
  | RValve => list_to_map [
      ("freezetime", MakeInt 20); ("tac_timeouts", MakeInt 3); ("tac_timeout_seconds", MakeInt 31); ("tech_pauses_per_team", MakeInt 1);
      ("tech_pause_seconds", MakeInt 120); ("allow_knife", MakeBool false); ("overtime.enabled", MakeBool true); ("overtime.maxrounds", MakeInt 6);
      ("overtime.startmoney", MakeInt 10000); ("overtime.limit", MakeInt 0); ("zeus", MakeInt 5); ("spectators_max", MakeInt 10);
      ("halftime_pausematch", MakeBool true); ("tv_delay", MakeInt 105); ("tv_broadcast_url", MakeStr EmptyString);
      ("camera_man_steamid", MakeStr EmptyString); ("lan", MakeBool false); ("coaches_online", MakeBool false); ("default_models", MakeBool false);
      ("cosmetics", MakeStr "inventory")]
  | RDefault => list_to_map [
      ("freezetime", MakeInt 18); ("tac_timeouts", MakeInt 3); ("tac_timeout_seconds", MakeInt 30); ("allow_knife", MakeBool true);
      ("overtime.enabled", MakeBool true); ("overtime.maxrounds", MakeInt 6); ("overtime.startmoney", MakeInt 10000); ("overtime.limit", RNone);
      ("zeus", MakeInt 1); ("spectators_max", MakeInt 20); ("halftime_pausematch", MakeBool false); ("tv_delay", RNone);
      ("tv_broadcast_url", MakeStr EmptyString); ("camera_man_steamid", MakeStr EmptyString); ("lan", MakeBool false);
      ("coaches_online", MakeBool true); ("default_models", MakeBool false); ("cosmetics", MakeStr "plugin")]
  end.

(** ** Overrides *)

(** A parsed value or the text of the error. *)
Definition fail {A} (k : string) (w : string) : A + string := inr ("override " +s+ quote k +s+ ": " +s+ w).

(** [1e12]. *)
Definition tera : double := of_int 1000000000000.

Definition leaf_int (info : RuleInfo) (n : Z) : RuleValue + string :=
  if (n <? min info) || (max info <? n)
  then fail (key info) ("must be " +s+ to_string (min info) +s+ ".." +s+ to_string (max info) +s+ " (got " +s+ to_string n +s+ ")")
  else inl (MakeInt n).

Definition leaf_str (k s : string) : RuleValue + string :=
  if k =s "cosmetics" then
    if negb (s =s "inventory") && negb (s =s "plugin") then fail k ("must be " +s+ quote "inventory" +s+ " or " +s+ quote "plugin") else inl (MakeStr s)
  else if k =s "camera_man_steamid" then
    if negb (sempty s) && (negb (IsDigits s) || negb (slen s =? 17)) then fail k ("must be a SteamID64 (17 digits) or " +s+ quote EmptyString)
    else inl (MakeStr s)
  else if k =s "tv_broadcast_url" then
    if negb (sempty s) && negb (starts_with "http://" s) && negb (starts_with "https://" s)
    then fail k ("must start with http:// or https:// (or be " +s+ quote EmptyString +s+ ")")
    else if (256 <? slen s) || negb (SafeQuoted s) then fail k "has characters that cannot go into a cvar (or is too long)"
    else inl (MakeStr s)
  else inl (MakeStr s).

Definition ParseLeaf (info : RuleInfo) (v : Json) : RuleValue + string :=
  match kind info with
  | KInt =>
      match v with
      | JInt n => leaf_int info n
      | JDouble d =>
          if integral d && (SFabs d <d tera) then
            match dtrunc d with Some n => leaf_int info n | None => fail (key info) "must be an integer" end
          else fail (key info) "must be an integer"
      | _ => fail (key info) "must be an integer"
      end
  | KBool =>
      match v with
      | JBool b => inl (MakeBool b)
      | JInt n => if (n =? 0) || (n =? 1) then inl (MakeBool (n =? 1)) else fail (key info) "must be true or false"
      | _ => fail (key info) "must be true or false"
      end
  | KStr => match v with JString s => leaf_str (key info) (Trim s) | _ => fail (key info) "must be a string" end
  | KNone => fail (key info) "unsupported"
  end.

Definition unknown_override {A} (k : string) : A + string := inr ("unknown override " +s+ quote k +s+ " (known: " +s+ KnownKeys +s+ ")").

(** One leaf into the map: [FindRule], [ParseLeaf], [m[full] = v]. *)
Definition parse_entry (full : string) (v : Json) (m : RuleMap) : RuleMap + string :=
  match FindRule full with
  | None => unknown_override full
  | Some info => match ParseLeaf info v with inl x => inl (<[full := x]> m) | inr e => inr e end
  end.

Fixpoint parse_group (group : string) (o : list (string * Json)) (m : RuleMap) : RuleMap + string :=
  match o with
  | [] => inl m
  | (k, v) :: o => match parse_entry (group +s+ "." +s+ k) v m with inl m => parse_group group o m | inr e => inr e end
  end.

Definition is_group (k : string) : bool := existsb (fun r => starts_with (k +s+ ".") (key r)) RuleTable.

Fixpoint parse_members (o : list (string * Json)) (m : RuleMap) : RuleMap + string :=
  match o with
  | [] => inl m
  | (k, v) :: o =>
      match (if IsObject v then if is_group k then parse_group k (Members v) m else unknown_override k else parse_entry k v m) with
      | inl m => parse_members o m
      | inr e => inr e
      end
  end.

Definition ParseOverrides (obj : Json) : RuleMap + string :=
  if negb (IsObject obj) then inr "overrides must be an object" else parse_members (Members obj) ∅.

Definition ParseOverridesText (json : string) : RuleMap + string :=
  if sempty (Trim json) then inl ∅
  else match Parse json with
       | Parsed j => ParseOverrides j
       | ParseError e => inr ("overrides: " +s+ e)
       | ParseFuel => inr EmptyString (* not reached: the parser is total *)
       end.

(** The key before and after the first point. *)
Fixpoint cut_dot (s : string) : string * option string :=
  match s with
  | EmptyString => (EmptyString, None)
  | String c r => if Ascii.eqb c "."%char then (EmptyString, Some r) else let '(a, b) := cut_dot r in (String c a, b)
  end.

(** [j[a][b] = v] on a member that is missing (null) or an object. *)
Definition SetPath (obj : Json) (k : string) (v : Json) : Json :=
  match cut_dot k with
  | (_, None) => SetKey obj k v
  | (a, Some b) => SetKey obj a (SetKey (default JNull (Find obj a)) b v)
  end.

(** The set values of a map in table order. *)
Definition put_rule (m : RuleMap) (j : Json) (r : RuleInfo) : Json :=
  match m !! key r with Some v => if Set_ v then SetPath j (key r) (ToJson v) else j | None => j end.
Definition rules_json (m : RuleMap) : Json := foldl (put_rule m) (JObject []) RuleTable.

Definition OverridesToText (m : RuleMap) : string := if bool_decide (m = ∅) then EmptyString else Dump (rules_json m).

(** ** Resolution *)

Record RulesInput := { in_ruleset : Ruleset_; overrides : RuleMap; in_match : MatchRules; in_cfg : MatchRules; cvars : gmap string string }.

Record EffectiveRuleSet := {
  ruleset : Ruleset_; values : RuleMap; preset : RuleMap; source : gmap string string; match_rules : MatchRules }.

Definition rule_at (m : RuleMap) (k : string) : RuleValue := default RNone (m !! k).

Definition Differs (e : EffectiveRuleSet) : list string :=
  key <$> List.filter (fun r => negb (bool_decide (rule_at (values e) (key r) = rule_at (preset e) (key r)))) RuleTable.
Definition rule_int (m : RuleMap) (k : string) (def : Z) : Z := match m !! k with Some (MakeInt i) => i | _ => def end.
Definition rule_bool (m : RuleMap) (k : string) (def : bool) : bool := match m !! k with Some (MakeBool b) => b | _ => def end.
Definition rule_str (m : RuleMap) (k : string) : string := match m !! k with Some (MakeStr s) => s | _ => EmptyString end.

(** Engine cvar text to the rule's kind; the outer [None]: a number without a [long long] value. [strtod] reads up to the first NUL. *)
Definition FromCvarText (info : RuleInfo) (raw : string) : option (option RuleValue) :=
  let s := lower (Trim raw) in
  if sempty s then Some None
  else match kind info with
       | KBool =>
           if (s =s "1") || (s =s "true") then Some (Some (MakeBool true))
           else if (s =s "0") || (s =s "false") then Some (Some (MakeBool false)) else Some None
       | KInt =>
           match scan_double (c_text s) with
           | Some (d, EmptyString) =>
               if negb (integral d) then Some None
               else match dtrunc d with
                    | Some n => if bool_decide (int64_ok n) then Some (Some (MakeInt n)) else None
                    | None => None
                    end
           | Some _ => Some None
           | None => Some (if sempty (c_text s) then Some (MakeInt 0) else None) (* no number: [end] is the start *)
           end
       | _ => Some None
       end.

Abbreviation Effect := (gmap string RuleValue * gmap string string)%type.

Definition assign (x : Effect) (k : string) (v : RuleValue) (src : string) : Effect := (<[k := v]> x.1, <[k := src]> x.2).

(** The loop over the match cvars. *)
Definition apply_cvar (cv : gmap string string) (x : option Effect) (r : RuleInfo) : option Effect :=
  x ← x;
  match cvar r with
  | None => Some x
  | Some c =>
      match cv !! c with
      | None => Some x
      | Some text =>
          v ← FromCvarText r text;
          Some (match v with Some v => assign x (key r) v "cvars" | None => x end)
      end
  end.

(** The loop over the overrides. *)
Definition apply_override (x : Effect) (kv : string * RuleValue) : Effect :=
  match FindRule kv.1 with Some _ => if Set_ kv.2 then assign x kv.1 kv.2 "override" else x | None => x end.

Definition chain_source (m c : Z) : string := if 0 <=? m then "match" else if 0 <=? c then "cfg" else "preset".

(** The preset values and the legacy pause keys, before cvars and overrides. *)
Definition base_effect (i : RulesInput) (p : RuleMap) : Effect :=
  let src : gmap string string := list_to_map ((fun r => (key r, "preset")) <$> RuleTable) in
  match in_ruleset i with
  | RDefault =>
      (p, <["tech_pause_seconds" := chain_source (tech_pause_max_seconds (in_match i)) (tech_pause_max_seconds (in_cfg i))]>
          (<["tech_pauses_per_team" := chain_source (tech_pauses_per_team (in_match i)) (tech_pauses_per_team (in_cfg i))]> src))
  | RValve =>
      let x := (p, src) in
      let x := if 0 <=? tech_pauses_per_team (in_match i) then assign x "tech_pauses_per_team" (MakeInt (tech_pauses_per_team (in_match i))) "match" else x in
      if 0 <=? tech_pause_max_seconds (in_match i) then assign x "tech_pause_seconds" (MakeInt (tech_pause_max_seconds (in_match i))) "match" else x
  end.

Definition effective_preset (i : RulesInput) : RuleMap :=
  let chain := ResolveRules (in_match i) (in_cfg i) in
  match in_ruleset i with
  | RDefault => <["tech_pause_seconds" := MakeInt (tech_pause_max_seconds chain)]>
                (<["tech_pauses_per_team" := MakeInt (tech_pauses_per_team chain)]> (PresetRules RDefault))
  | RValve => PresetRules RValve
  end.

Definition set_tech (m : MatchRules) (pauses seconds : Z) : MatchRules := {|
  tech_pauses_per_team := pauses; tech_pause_max_seconds := seconds; disconnect_pause_max_seconds := disconnect_pause_max_seconds m;
  both_teams_unpause := both_teams_unpause m; allow_force_ready := allow_force_ready m; team_ready := team_ready m;
  min_players_to_ready := min_players_to_ready m; min_spectators_to_ready := min_spectators_to_ready m;
  forfeit_after_seconds := forfeit_after_seconds m; gg_enabled := gg_enabled m; gg_threshold_pct := gg_threshold_pct m;
  gg_min_score_diff := gg_min_score_diff m; stop_command_available := stop_command_available m;
  stop_command_no_damage := stop_command_no_damage m; stop_vote_seconds := stop_vote_seconds m; pause_after_restore := pause_after_restore m |}.

(** [None]: a cvar text whose number cannot be converted. *)
Definition ResolveEffective (i : RulesInput) : option EffectiveRuleSet :=
  let p := effective_preset i in
  let chain := ResolveRules (in_match i) (in_cfg i) in
  x ← foldl (apply_cvar (cvars i)) (Some (base_effect i p)) RuleTable;
  let '(vs, src) := foldl apply_override x (map_to_list (overrides i)) in
  Some {| ruleset := in_ruleset i; values := vs; preset := p; source := src;
          match_rules := set_tech chain (to_int32 (rule_int vs "tech_pauses_per_team" (tech_pauses_per_team chain)))
                                        (to_int32 (rule_int vs "tech_pause_seconds" (tech_pause_max_seconds chain))) |}.

(** ** Uses of the effective rules *)

Definition CvarValue (v : RuleValue) : string :=
  match v with MakeBool b => if b then "1" else "0" | MakeInt i => to_string i | MakeStr s => s | RNone => EmptyString end.

Definition rule_command (e : EffectiveRuleSet) (r : RuleInfo) : option string :=
  match cvar r with
  | None => None
  | Some c =>
      if bool_decide (source e !! key r = Some "override")
      then match values e !! key r with Some v => if Set_ v then Some (c +s+ " " +s+ CvarValue v) else None | None => None end
      else None
  end.

Definition RuleCommands (e : EffectiveRuleSet) : list string :=
  let url := rule_str (values e) "tv_broadcast_url" in
  let cam := rule_str (values e) "camera_man_steamid" in
  omap (rule_command e) RuleTable ++
  (if negb (sempty url) && SafeQuoted url then ["tv_broadcast_url " +s+ quote url; "tv_broadcast 1"] else []) ++
  (if negb (sempty cam) && IsDigits cam then ["tv_allow_camera_man_steamid " +s+ cam] else []).

Definition EffectiveRulesJson (e : EffectiveRuleSet) : Json :=
  let step := fun '(differs, preset_, source_) k =>
    (Push differs (JString k),
     match preset e !! k with Some v => if Set_ v then SetPath preset_ k (ToJson v) else preset_ | None => preset_ end,
     SetKey source_ k (JString (default "preset" (source e !! k)))) in
  let '(differs, preset_, source_) := foldl step (JArray [], JObject [], JObject []) (Differs e) in
  let j := SetKey (JObject []) "ruleset" (JString (RulesetName (ruleset e))) in
  let j := SetKey j "rules" (rules_json (values e)) in
  let j := SetKey j "differs" differs in
  let j := SetKey j "preset" preset_ in
  SetKey j "source" source_.

(** The wrapped list of rules: finished lines and the current one. *)
Definition text_item (e : EffectiveRuleSet) (differs : list string) (x : list string * string) (r : RuleInfo) : list string * string :=
  let '(out, line) := x in
  let item := key r +s+ "=" +s+ Text (rule_at (values e) (key r)) +s+ (if existsb (fun k => k =s key r) differs then "*" else EmptyString) in
  let '(out, line) := if 110 <? slen line + slen item then (out ++ [line], "rules:") else (out, line) in
  (out, line +s+ " " +s+ item).

Definition text_difference (e : EffectiveRuleSet) (k : string) : string :=
  " " +s+ k +s+ " " +s+ match preset e !! k with Some v => Text v | None => "(server)" end +s+ "->" +s+
  match values e !! k with Some v => Text v | None => "(server)" end +s+ " (" +s+ default "?" (source e !! k) +s+ ");".

Definition EffectiveRulesText (e : EffectiveRuleSet) : list string :=
  let differs := Differs e in
  let head := "rules: ruleset=" +s+ RulesetName (ruleset e) +s+ " cfg=" +s+ LiveCfgFor (ruleset e) +s+ " (* = differs from the preset)" in
  let '(out, line) := foldl (text_item e differs) ([head], "rules:") RuleTable in
  out ++ [line] ++
  match differs with
  | [] => ["rules: no differences from " +s+ RulesetName (ruleset e)]
  | _ => [foldl (fun d k => d +s+ text_difference e k) ("rules: differs from " +s+ RulesetName (ruleset e) +s+ ":") differs]
  end.

(** The error names the first map with a knife round. *)
Fixpoint knife_map (n : Z) (l : list string) : option Z :=
  match l with [] => None | x :: l => if x =s "knife" then Some n else knife_map (n + 1) l end.
Definition CheckMapSides (e : EffectiveRuleSet) (mapSides : list string) : option string :=
  if rule_bool (values e) "allow_knife" true then None
  else match knife_map 1 mapSides with
       | None => None
       | Some n => Some ("ruleset " +s+ RulesetName (ruleset e) +s+ ": map " +s+ to_string n +s+ " has map_sides " +s+ quote "knife" +s+
           ", but knife rounds are off (Valve has no knife round; sides come from the veto: team1_ct / team2_ct). Set " +s+ quote "overrides" +s+
           ": {" +s+ quote "allow_knife" +s+ ": true} to allow it.")
       end.

Definition CoachesAdmitted (e : EffectiveRuleSet) : bool := rule_bool (values e) "lan" false || rule_bool (values e) "coaches_online" true.
Definition InventoryLocked (e : EffectiveRuleSet) : bool := rule_str (values e) "cosmetics" =s "inventory".
Definition PlayerExtrasAllowed (e : EffectiveRuleSet) : bool := negb (bool_decide (ruleset e = RValve)).

(** ** GOTV at go-live *)

Inductive GotvState := GotvUnknown | GotvUp | GotvDown.
Definition GotvStateName (s : GotvState) : string := match s with GotvUp => "up" | GotvDown => "down" | GotvUnknown => "unknown" end.
Definition kGotvGraceSeconds : double := of_int 15.
Definition GotvStateFrom (scanOk hltvSeen : bool) (secondsSinceMapStart : double) : GotvState :=
  if negb scanOk then GotvUnknown
  else if hltvSeen then GotvUp
  else if kGotvGraceSeconds <=d secondsSinceMapStart then GotvDown else GotvUnknown.

Record GoLiveVerdict := { allowed : bool; log : string; chatKey : string }.

Definition GotvGoLiveCheck (r : Ruleset_) (gotv : GotvState) (forced : bool) : GoLiveVerdict :=
  match r, gotv with
  | RDefault, _ | _, GotvUp => {| allowed := true; log := EmptyString; chatKey := EmptyString |}
  | _, GotvUnknown =>
      {| allowed := true; log := "esports: gotv=unknown (GOTV client not readable): going live without the GOTV check"; chatKey := EmptyString |}
  | _, GotvDown =>
      if forced
      then {| allowed := true; log := "esports: gotv=down: going live anyway (forced by an admin); this map has no demo"; chatKey := "gotv.forced" |}
      else {| allowed := false;
              log := "esports: gotv=down: go-live refused (valve ruleset records every map; tv_enable was 0 when the map loaded). tv_enable 1 is set now: reload the map, or force it: ru match start force";
              chatKey := "gotv.refused" |}
  end.

Definition pause_blank (c : ascii) : bool := Ascii.eqb c " "%char || Ascii.eqb c tab || Ascii.eqb c dquote.

Definition AutoPause5v5On (r : Ruleset_) (matchCvar : option string) : bool :=
  match matchCvar with
  | Some v =>
      match drop_while pause_blank v with
      | EmptyString => false
      | String c t => negb (Ascii.eqb c "0"%char) && negb (starts_with "false" (String c t))
      end
  | None => bool_decide (r = RValve)
  end.
