(* ===== verification/RulesetFacts.v ===== *)
(** * Theorems about the rulesets

    Accepted overrides are known rules with values in range, the effective value and its source
    follow the documented precedence, the console commands made of them are single safe commands,
    and the status JSON of the effective rules is fit for the merge-patch stream. *)

From S2P Require Import Prelude CStr Double Json JsonFacts MergePatch MatchRules Ruleset.

(** ** Overrides *)

(** What a value must satisfy to be accepted for a rule. *)
Definition valid_value (r : RuleInfo) (v : RuleValue) : Prop :=
  kind_of v = kind r /\
  match v with
  | RNone => False
  | MakeInt i => min r <= i <= max r
  | MakeBool _ => True
  | MakeStr s =>
      (key r = "cosmetics" -> s = "inventory" \/ s = "plugin") /\
      (key r = "camera_man_steamid" -> s = EmptyString \/ (IsDigits s = true /\ slen s = 17)) /\
      (key r = "tv_broadcast_url" -> SafeQuoted s = true /\ slen s <= 256)
  end.

Definition valid_overrides (m : RuleMap) : Prop := forall k v, m !! k = Some v -> exists r, FindRule k = Some r /\ valid_value r v.

Lemma FindRule_key k r : FindRule k = Some r -> key r = k /\ r ∈ RuleTable.
Proof.
  unfold FindRule. intros H. apply List.find_some in H as [Hin Hk]. apply String.eqb_eq in Hk. split; [done|].
  by apply list_elem_of_In.
Qed.

Lemma leaf_int_valid r n v : kind r = KInt -> leaf_int r n = inl v -> valid_value r v.
Proof. unfold leaf_int. intros Hk. case_if; [done|]. intros [= <-]. split_bools. by split; [|lia]. Qed.

Lemma leaf_str_valid r s v : kind r = KStr -> leaf_str (key r) s = inl v -> valid_value r v.
Proof.
  intros Hk. unfold leaf_str, valid_value.
  destruct (String.eqb_spec (key r) "cosmetics") as [E|E]; [|destruct (String.eqb_spec (key r) "camera_man_steamid") as [E1|E1];
    [|destruct (String.eqb_spec (key r) "tv_broadcast_url") as [E2|E2]]]; rewrite ?E, ?E1, ?E2.
  - destruct (String.eqb_spec s "inventory"), (String.eqb_spec s "plugin"); cbn; try done; intros [= <-]; rewrite Hk; (split; [done|]); split_and!; try done; auto.
  - destruct (sempty s) eqn:Ee; [|destruct (IsDigits s) eqn:Ed; [destruct (Z.eqb_spec (slen s) 17)|]]; cbn; try done; intros [= <-]; rewrite Hk; (split; [done|]); split_and!; try done; intros _;
      [left; by destruct s|by right].
  - repeat case_if; try done. intros [= <-]. rewrite Hk. split_bools. split; [done|]. split_and!; done.
  - intros [= <-]. rewrite Hk. by split_and!.
Qed.

Lemma ParseLeaf_valid r j v : ParseLeaf r j = inl v -> valid_value r v.
Proof.
  unfold ParseLeaf. destruct (kind r) eqn:Hk; [done| | |].
  - destruct j as [| |n|d| | |]; try done; [by apply leaf_int_valid|]. case_if; [|done]. destruct (dtrunc d); [by apply leaf_int_valid|done].
  - unfold valid_value. destruct j as [|b|n| | | |]; try done; [intros [= <-]; by rewrite Hk|]. case_if; [|done]. intros [= <-]. by rewrite Hk.
  - destruct j; try done. by apply leaf_str_valid.
Qed.

Lemma parse_entry_valid k v m m' : valid_overrides m -> parse_entry k v m = inl m' -> valid_overrides m'.
Proof.
  unfold parse_entry. intros Hm. destruct (FindRule k) as [r|] eqn:Er; [|done]. destruct (ParseLeaf r v) as [x|] eqn:El; [|done].
  intros [= <-] k' v'. rewrite lookup_insert_Some. intros [[<- <-]|[_ H]]; [|by apply Hm]. eauto using ParseLeaf_valid.
Qed.

Lemma parse_group_valid g o m m' : valid_overrides m -> parse_group g o m = inl m' -> valid_overrides m'.
Proof.
  revert m. induction o as [|[k v] o IH]; intros m Hm; cbn; [by intros [= <-]|].
  destruct (parse_entry _ _ _) as [m1|] eqn:E; [|done]. apply IH. by eapply parse_entry_valid.
Qed.

Lemma parse_members_valid o m m' : valid_overrides m -> parse_members o m = inl m' -> valid_overrides m'.
Proof.
  revert m. induction o as [|[k v] o IH]; intros m Hm; cbn [parse_members]; [by intros [= <-]|].
  destruct (IsObject v); [destruct (is_group k); [|done]; destruct (parse_group k (Members v) m) as [m1|] eqn:E; [|done]
                         |destruct (parse_entry k v m) as [m1|] eqn:E; [|done]]; apply IH.
  - by eapply parse_group_valid.
  - by eapply parse_entry_valid.
Qed.

Lemma ParseOverrides_valid j m : ParseOverrides j = inl m -> valid_overrides m.
Proof.
  unfold ParseOverrides. case_if; [done|]. apply parse_members_valid. intros k v. by rewrite lookup_empty.
Qed.

(** Claim C33.  A match is not loaded with bad overrides: whatever text is given, if it is accepted
    then every resulting entry is a rule of the table, of the table's type, inside the table's range
    and, for the text rules, of the required form (cosmetics one of two words, the camera man a
    17-digit id or empty, the broadcast URL free of characters that could leave a quoted cvar). *)
Theorem overrides_checked (text : string) (m : RuleMap) :
  ParseOverridesText text = inl m ->
  forall k v, m !! k = Some v -> exists r, FindRule k = Some r /\ r ∈ RuleTable /\ valid_value r v.
Proof.
  unfold ParseOverridesText. case_if.
  - intros [= <-] k v. by rewrite lookup_empty.
  - destruct (Parse text) as [j|e|]; try done. intros H k v Hk. destruct (ParseOverrides_valid j m H k v Hk) as (r & Hr & Hv).
    exists r. split; [done|]. split; [by apply FindRule_key in Hr as [_ ?]|done].
Qed.

Definition sample_overrides : string := qs "{`freezetime`: 15, `overtime`: {`enabled`: false, `maxrounds`: 10}, `cosmetics`: ` plugin `}".
Definition parsed_overrides : RuleMap := match ParseOverridesText sample_overrides with inl m => m | inr _ => ∅ end.

Lemma overrides_checked_witness :
  exists r, FindRule "overtime.maxrounds" = Some r /\ r ∈ RuleTable /\ valid_value r (MakeInt 10).
Proof. apply (overrides_checked sample_overrides parsed_overrides); vm_compute; reflexivity. Defined.

Example overrides_nontrivial : (parsed_overrides !! "overtime.maxrounds", parsed_overrides !! "cosmetics") = (Some (MakeInt 10), Some (MakeStr "plugin")).
Proof. vm_compute. reflexivity. Qed.

(** ** Precedence *)

(** The entry of a rule in an effect: its value and its source. *)
Definition entry (x : Effect) (k : string) : option RuleValue * option string := (x.1 !! k, x.2 !! k).

Lemma entry_assign x k v src k' : entry (assign x k v src) k' = if k =s k' then (Some v, Some src) else entry x k'.
Proof.
  unfold entry, assign. cbn. destruct (String.eqb_spec k k') as [->|]; [by rewrite !lookup_insert_eq|by rewrite !lookup_insert_ne].
Qed.

(** What the cvar loop leaves at a rule. *)
Definition cvar_entry (cv : gmap string string) (r : RuleInfo) (old : option RuleValue * option string) : option RuleValue * option string :=
  match cvar r with
  | Some c => match cv !! c with
              | Some text => match FromCvarText r text with Some (Some v) => (Some v, Some "cvars") | _ => old end
              | None => old
              end
  | None => old
  end.

Lemma apply_cvar_entry cv x r y k :
  apply_cvar cv (Some x) r = Some y -> entry y k = if key r =s k then cvar_entry cv r (entry x k) else entry x k.
Proof.
  unfold apply_cvar, cvar_entry. cbn. destruct (cvar r) as [c|]; [|intros [= <-]; by case_if].
  destruct (cv !! c) as [t|]; [|intros [= <-]; by case_if]. destruct (FromCvarText r t) as [[v|]|]; cbn; intros [= <-]; [|by case_if].
  apply entry_assign.
Qed.

Lemma cvars_fold cv l x y :
  NoDup (key <$> l) -> foldl (apply_cvar cv) (Some x) l = Some y ->
  (forall k, k ∉ key <$> l -> entry y k = entry x k) /\ (forall r, r ∈ l -> entry y (key r) = cvar_entry cv r (entry x (key r))).
Proof.
  revert x. induction l as [|r l IH]; intros x Hn H; cbn [foldl] in H; [injection H as <-; split; [done|set_solver]|].
  cbn in Hn. apply NoDup_cons in Hn as [Hr Hn]. destruct (apply_cvar cv (Some x) r) as [x1|] eqn:E.
  2: { exfalso. revert H. clear. induction l; cbn; [done|exact IHl]. }
  destruct (IH x1 Hn H) as [H1 H2]. split.
  - intros k Hk. rewrite H1 by set_solver. rewrite (apply_cvar_entry _ _ _ _ _ E). destruct (String.eqb_spec (key r) k); [set_solver|done].
  - intros q [->|Hq]%elem_of_cons.
    + rewrite H1 by done. by rewrite (apply_cvar_entry _ _ _ _ _ E), String.eqb_refl.
    + rewrite (H2 q Hq), (apply_cvar_entry _ _ _ _ _ E). destruct (String.eqb_spec (key r) (key q)) as [Ek|]; [|done].
      exfalso. apply Hr. rewrite Ek. by apply list_elem_of_fmap_2.
Qed.

Lemma apply_override_entry x kv k :
  entry (apply_override x kv) k =
  if (kv.1 =s k) && match FindRule kv.1 with Some _ => Set_ kv.2 | None => false end then (Some kv.2, Some "override") else entry x k.
Proof.
  unfold apply_override. destruct (FindRule kv.1); [|by rewrite andb_false_r]. destruct (Set_ kv.2); [|by rewrite andb_false_r].
  rewrite entry_assign. by rewrite andb_true_r.
Qed.

Definition override_entry (m : RuleMap) (k : string) (old : option RuleValue * option string) : option RuleValue * option string :=
  match m !! k with
  | Some v => if match FindRule k with Some _ => Set_ v | None => false end then (Some v, Some "override") else old
  | None => old
  end.

Lemma overrides_fold (l : list (string * RuleValue)) x k :
  NoDup l.*1 -> entry (foldl apply_override x l) k = override_entry (list_to_map l) k (entry x k).
Proof.
  revert x. induction l as [|[k' v] l IH]; intros x Hn; cbn [foldl].
  { unfold override_entry. by rewrite list_to_map_nil, lookup_empty. }
  cbn in Hn. apply NoDup_cons in Hn as [Hk Hn]. rewrite IH by done. rewrite apply_override_entry. cbn [fst snd list_to_map foldr].
  unfold override_entry. cbn. destruct (String.eqb_spec k' k) as [->|Hne].
  - rewrite lookup_insert_eq. apply not_elem_of_list_to_map in Hk. cbn in Hk. rewrite Hk. done.
  - by rewrite lookup_insert_ne.
Qed.

Lemma RuleTable_NoDup : NoDup (key <$> RuleTable).
Proof. apply (bool_decide_unpack _). vm_compute. exact I. Qed.

Lemma effective_entry i e r :
  ResolveEffective i = Some e -> r ∈ RuleTable ->
  (values e !! key r, source e !! key r) =
  override_entry (overrides i) (key r) (cvar_entry (cvars i) r (entry (base_effect i (effective_preset i)) (key r))).
Proof.
  unfold ResolveEffective. intros H Hr. destruct (foldl (apply_cvar (cvars i)) _ RuleTable) as [x|] eqn:Ex; [|done].
  destruct (cvars_fold _ _ _ _ RuleTable_NoDup Ex) as [_ Hx].
  cbn in H. pose proof (overrides_fold (map_to_list (overrides i)) x (key r) (NoDup_fst_map_to_list _)) as Ho.
  destruct (foldl apply_override x _) as [vs src]. injection H as <-. cbn. rewrite list_to_map_to_list in Ho. rewrite <- Hx by done. exact Ho.
Qed.

(** The effective rules follow the documented precedence, for every rule of the table:
    a set override wins and is marked so; otherwise a match cvar that parses wins; otherwise the
    value is the base one (the preset, the pause-rule chain, or under the valve ruleset the match's
    own pause keys).  [base_effect] is what the first part of [ResolveEffective] computes. *)
Theorem rule_precedence (i : RulesInput) (e : EffectiveRuleSet) (r : RuleInfo) :
  ResolveEffective i = Some e -> r ∈ RuleTable ->
  (forall v, overrides i !! key r = Some v -> Set_ v = true -> values e !! key r = Some v /\ source e !! key r = Some "override") /\
  ((forall v, overrides i !! key r = Some v -> Set_ v = false) ->
   (forall c t v, cvar r = Some c -> cvars i !! c = Some t -> FromCvarText r t = Some (Some v) ->
      values e !! key r = Some v /\ source e !! key r = Some "cvars") /\
   ((forall c t, cvar r = Some c -> cvars i !! c = Some t -> FromCvarText r t = Some None) ->
      values e !! key r = (base_effect i (effective_preset i)).1 !! key r /\
      source e !! key r = (base_effect i (effective_preset i)).2 !! key r)).
Proof.
  intros He Hr. pose proof (effective_entry i e r He Hr) as H. unfold override_entry in H.
  assert (exists r', FindRule (key r) = Some r') as [r' Hf].
  { unfold FindRule. destruct (List.find _ RuleTable) as [r'|] eqn:Ef; [by eexists|].
    pose proof (List.find_none _ _ Ef r (proj1 (list_elem_of_In _ _) Hr)) as Hn. cbn beta in Hn. by rewrite String.eqb_refl in Hn. }
  rewrite Hf in H. split.
  - intros v Hv Hs. rewrite Hv, Hs in H. by injection H.
  - intros Hno. assert ((values e !! key r, source e !! key r) = cvar_entry (cvars i) r (entry (base_effect i (effective_preset i)) (key r))) as H'.
    { destruct (overrides i !! key r) as [v|]; [by rewrite (Hno v eq_refl) in H|done]. }
    clear H. unfold cvar_entry in H'. split.
    + intros c t v Hc Ht Hv. rewrite Hc, Ht, Hv in H'. by injection H'.
    + intros Hc. destruct (cvar r) as [c|]; [|by injection H']. destruct (cvars i !! c) as [t|] eqn:Et; [|by injection H'].
      rewrite (Hc c t eq_refl Et) in H'. by injection H'.
Qed.

Definition sample_input : RulesInput := {|
  in_ruleset := RValve; overrides := parsed_overrides; in_match := UnsetRules; in_cfg := UnsetRules;
  cvars := list_to_map [("mp_freezetime", "12"); ("tv_delay", " 90 ")] |}.
Definition sample_effective : EffectiveRuleSet :=
  match ResolveEffective sample_input with
  | Some e => e
  | None => {| ruleset := RDefault; values := ∅; preset := ∅; source := ∅; match_rules := UnsetRules |}
  end.

Lemma rule_precedence_witness :
  let r := rule "tv_delay" KInt (Some "tv_delay") 0 960 in
  let e := sample_effective in
  (forall v, overrides sample_input !! key r = Some v -> Set_ v = true -> values e !! key r = Some v /\ source e !! key r = Some "override") /\
  ((forall v, overrides sample_input !! key r = Some v -> Set_ v = false) ->
   (forall c t v, cvar r = Some c -> cvars sample_input !! c = Some t -> FromCvarText r t = Some (Some v) ->
      values e !! key r = Some v /\ source e !! key r = Some "cvars") /\
   ((forall c t, cvar r = Some c -> cvars sample_input !! c = Some t -> FromCvarText r t = Some None) ->
      values e !! key r = (base_effect sample_input (effective_preset sample_input)).1 !! key r /\
      source e !! key r = (base_effect sample_input (effective_preset sample_input)).2 !! key r)).
Proof.
  apply (rule_precedence sample_input sample_effective); [vm_compute; reflexivity|].
  unfold RuleTable. repeat (apply list_elem_of_here || apply list_elem_of_further).
Defined.

(** [strtod] stops at a NUL: what follows it in a cvar's text is not looked at. *)
Example cvar_text_to_nul :
  let r := rule "freezetime" KInt (Some "mp_freezetime") 0 120 in
  (FromCvarText r ("15" +s+ String nul "x"), FromCvarText r (String nul "x"), FromCvarText r "15x") = (Some (Some (MakeInt 15)), Some (Some (MakeInt 0)), Some None).
Proof. by vm_compute. Qed.

Example precedence_evaluated :
  (values sample_effective !! "freezetime", values sample_effective !! "tv_delay", values sample_effective !! "zeus") =
  (Some (MakeInt 15), Some (MakeInt 90), Some (MakeInt 5)).
Proof. vm_compute. reflexivity. Qed.

(** ** Console commands *)

(** A character that cannot end or split a console command. *)
Definition command_char (c : ascii) : bool := (32 <=? code c) && (code c <? 127) && negb (Ascii.eqb c ";"%char).

Lemma safe_char_command c : safe_char c = true -> command_char c = true.
Proof. unfold safe_char, command_char. intros H. split_bools. destruct (Ascii.eqb c ";"%char); [done|]. rewrite andb_true_r. lia. Qed.

Lemma digit_command c : isdigit c = true -> command_char c = true.
Proof. unfold isdigit, command_char. rewrite ascii_eqb_code. code_consts. lia. Qed.

Lemma to_string_command n : sforall command_char (to_string n) = true.
Proof.
  unfold to_string. destruct (Z.ltb_spec n 0); cbn [sforall].
  - destruct (dec_nonneg_spec (- n) ltac:(lia)) as (Hd & _). rewrite (sforall_impl _ _ _ digit_command Hd). done.
  - destruct (dec_nonneg_spec n ltac:(lia)) as (Hd & _). by apply (sforall_impl _ _ _ digit_command).
Qed.

Lemma override_source i e r :
  ResolveEffective i = Some e -> r ∈ RuleTable -> source e !! key r = Some "override" -> values e !! key r = overrides i !! key r.
Proof.
  intros He Hr Hs. pose proof (effective_entry i e r He Hr) as H. unfold override_entry in H.
  assert ((base_effect i (effective_preset i)).2 !! key r <> Some "override") as Hb.
  { clear -Hr. unfold base_effect. destruct (in_ruleset i); cbn [snd].
    - unfold chain_source. intros E. apply lookup_insert_Some in E as [[_ E]|[_ E]]; [repeat case_if; discriminate|].
      apply lookup_insert_Some in E as [[_ E]|[_ E]]; [repeat case_if; discriminate|].
      apply elem_of_list_to_map_2, list_elem_of_fmap_1 in E as (r' & [= _ E] & _).
    - assert ((list_to_map ((fun r => (key r, "preset")) <$> RuleTable) : gmap string string) !! key r <> Some "override") as Hp.
      { intros E. apply elem_of_list_to_map_2, list_elem_of_fmap_1 in E as (r' & [= _ E] & _). }
      assert (forall x k v, x.2 !! key r <> Some "override" -> (assign x k v "match").2 !! key r <> Some "override") as Ha.
      { intros x k v Hx E. cbn in E. apply lookup_insert_Some in E as [[_ E]|[_ E]]; [discriminate|done]. }
      repeat case_if; repeat apply Ha; exact Hp. }
  assert (forall old, old.2 <> Some "override" -> (cvar_entry (cvars i) r old).2 <> Some "override") as Hc.
  { intros old Ho. unfold cvar_entry. destruct (cvar r); [|done]. destruct (cvars i !! _); [|done]. destruct (FromCvarText r _) as [[]|]; done. }
  specialize (Hc (entry (base_effect i (effective_preset i)) (key r)) Hb). rewrite Hs in H.
  destruct (overrides i !! key r) as [v|]; [case_if; [by injection H|]|]; rewrite <- H in Hc; done.
Qed.

Lemma cvar_kinds : Forall (fun r => match cvar r with Some c => sforall command_char c = true /\ kind r <> KStr | None => True end) RuleTable.
Proof. repeat (apply Forall_cons_2; [vm_compute; try split; done|]). apply Forall_nil_2. Qed.

Lemma rule_command_safe i e r c :
  ResolveEffective i = Some e -> valid_overrides (overrides i) -> r ∈ RuleTable -> rule_command e r = Some c -> sforall command_char c = true.
Proof.
  intros He Hv Hr. unfold rule_command. pose proof (proj1 (Forall_forall _ _) cvar_kinds r Hr) as Hk. cbn beta in Hk.
  destruct (cvar r) as [cv|]; [|done]. destruct Hk as [Hcv Hk]. case_bool_decide as Hs; [|done]. rewrite (override_source i e r He Hr Hs).
  destruct (overrides i !! key r) as [v|] eqn:Eo; [|done]. destruct (Set_ v) eqn:Es; [|done]. intros [= <-].
  destruct (Hv _ _ Eo) as (r' & Hf & Hkind & _). apply FindRule_key in Hf as [Ek Hr'].
  assert (r' = r) as ->.
  { clear -Ek Hr Hr'. pose proof RuleTable_NoDup as Hn. apply list_elem_of_lookup in Hr as [i Hi], Hr' as [j Hj].
    assert (i = j) as <-; [|congruence]. apply (NoDup_lookup _ i j (key r) Hn); rewrite list_lookup_fmap, ?Hi, ?Hj; cbn; congruence. }
  rewrite !sforall_app, Hcv. cbn. destruct v as [|n|b|s]; cbn in *; [done|apply to_string_command|by destruct b|congruence].
Qed.

(** No override can inject a console command: for a match whose overrides were accepted
    by [ParseOverrides], every line [RuleCommands] sends consists of printable ASCII without a
    semicolon or a line break, so each is exactly one console command. *)
Theorem rule_commands_safe (i : RulesInput) (e : EffectiveRuleSet) (obj : Json) (c : string) :
  ParseOverrides obj = inl (overrides i) -> ResolveEffective i = Some e -> c ∈ RuleCommands e -> sforall command_char c = true.
Proof.
  intros Hp He Hc. apply ParseOverrides_valid in Hp. unfold RuleCommands in Hc. apply elem_of_app in Hc as [Hc|Hc].
  { apply list_elem_of_omap in Hc as (r & Hr & Hc). by eapply rule_command_safe. }
  apply elem_of_app in Hc as [Hc|Hc].
  - destruct (negb (sempty _) && SafeQuoted _) eqn:E; [|set_solver]. apply andb_prop in E as [_ E]. unfold SafeQuoted in E.
    apply (sforall_impl _ command_char _ safe_char_command) in E.
    apply elem_of_cons in Hc as [->|Hc%list_elem_of_singleton]; [|by subst].
    unfold quote. rewrite !sforall_app, E. done.
  - destruct (negb (sempty _) && IsDigits _) eqn:E; [|set_solver]. apply andb_prop in E as [_ E]. unfold IsDigits in E. apply andb_prop in E as [_ E].
    apply list_elem_of_singleton in Hc as ->. rewrite sforall_app. by rewrite (sforall_impl _ command_char _ digit_command E).
Qed.

Lemma rule_commands_safe_witness : sforall command_char "mp_overtime_maxrounds 10" = true.
Proof.
  apply (rule_commands_safe sample_input sample_effective
           (match Parse sample_overrides with Parsed j => j | _ => JNull end)); [vm_compute; reflexivity|vm_compute; reflexivity|].
  apply (bool_decide_unpack _). vm_compute. exact I.
Defined.

(** ** The status JSON *)

(** A value the stream carries unchanged, of bounded depth. *)
Definition good (n : nat) (j : Json) : Prop := plain j = true /\ null_free j = true /\ (depth j <= n)%nat.

Definition good_members (n : nat) (o : list (string * Json)) : Prop :=
  NoDup (keys o) /\ Forall (fun kv => IsNull kv.2 = false /\ good n kv.2) o.

Lemma good_object n o : good (S n) (JObject o) <-> good_members n o.
Proof.
  unfold good, good_members. rewrite plain_object, null_free_members. cbn [depth].
  rewrite <- Nat.succ_le_mono, max_members_spec, !Forall_forall. unfold good. naive_solver.
Qed.

Lemma good_Members n j : good (S n) j -> good_members n (Members j).
Proof. destruct j as [| | | | |o|]; cbn [Members]; try (intros _; split; constructor). apply good_object. Qed.

Lemma good_SetKey n j k v : good (S n) j -> good n v -> IsNull v = false -> good (S n) (SetKey j k v).
Proof.
  intros Hj Hv Hn. apply good_object. destruct (good_Members _ _ Hj) as [H1 H2]. split; [by apply NoDup_set_member|].
  clear -H2 Hv Hn. induction H2 as [|[k' v'] o H Ho IH]; cbn; [by apply list.Forall_singleton|]. case_if; by apply Forall_cons_2.
Qed.

Lemma good_Find n j k v : good (S n) j -> Find j k = Some v -> good n v.
Proof.
  intros Hj%good_Members Hf. destruct Hj as [_ Hj]. unfold Find in Hf. clear -Hj Hf.
  induction Hj as [|[k' v'] o [_ H] _ IH]; cbn in *; [done|]. case_if; [by simplify_eq|auto].
Qed.

Lemma good_SetPath j k v : good 2 j -> good 0 v -> IsNull v = false -> good 2 (SetPath j k v).
Proof.
  intros Hj Hv Hn. assert (good 1 v) as Hv1 by (destruct Hv as (? & ? & ?); split_and!; try done; lia).
  unfold SetPath. destruct (cut_dot k) as [a [b|]]; [|by apply good_SetKey].
  apply good_SetKey; [done| |done]. apply good_SetKey; [|done|done].
  destruct (Find j a) eqn:E; [by eapply good_Find|]. split_and!; [done|done|cbn; lia].
Qed.

(** The integers a rule map may hold. *)
Definition ints_ok (m : RuleMap) : Prop := forall k i, m !! k = Some (MakeInt i) -> int64_ok i.

Lemma good_value m k v : ints_ok m -> m !! k = Some v -> Set_ v = true -> good 0 (ToJson v) /\ IsNull (ToJson v) = false.
Proof.
  intros Hm Hk Hs. destruct v as [|i|b|s]; try done. split; [|done]. split_and!; [|done|done]. cbn. apply bool_decide_eq_true. by apply (Hm k).
Qed.

Lemma good_rules_json m : ints_ok m -> good 2 (rules_json m).
Proof.
  intros Hm. unfold rules_json. assert (good 2 (JObject [])) as H by (split_and!; [done|done|cbn; lia]). revert H.
  generalize (JObject []) as j. induction RuleTable as [|r l IH]; intros j Hj; cbn [foldl]; [done|]. apply IH. unfold put_rule.
  destruct (m !! key r) as [v|] eqn:E; [|done]. destruct (Set_ v) eqn:Es; [|done]. destruct (good_value _ _ _ Hm E Es). by apply good_SetPath.
Qed.

Lemma good_Push n l v : good (S n) (JArray l) -> good n v -> good (S n) (Push (JArray l) v).
Proof.
  intros (H1 & _ & H3) (G1 & _ & G3). unfold good. cbn in *. split_and!; [|done|].
  - apply all_items_forall in H1. apply all_items_forall. apply Forall_app. split; [done|]. by apply list.Forall_singleton.
  - apply le_n_S. apply le_S_n in H3. revert H3. clear -G3. induction l as [|x l IH]; cbn; lia.
Qed.

(** Claim C37.  The effective rules in the match state are fit for the live stream: whatever the
    inputs, the JSON has distinct keys, no null member, no double and small nesting, which is what
    the merge-patch stream needs of the state it carries ([stream_replay]). *)
Theorem effective_rules_streamable (e : EffectiveRuleSet) :
  ints_ok (values e) -> ints_ok (preset e) ->
  plain (EffectiveRulesJson e) = true /\ null_free (EffectiveRulesJson e) = true /\ (depth (EffectiveRulesJson e) <= 3)%nat.
Proof.
  intros Hv Hp. unfold EffectiveRulesJson.
  assert (forall l x, good 1 (JArray x.1.1) /\ good 2 x.1.2 /\ good 1 x.2 ->
    let y := foldl (fun '(differs, preset_, source_) k =>
      (Push differs (JString k), match preset e !! k with Some v => if Set_ v then SetPath preset_ k (ToJson v) else preset_ | None => preset_ end,
       SetKey source_ k (JString (default "preset" (source e !! k))))) (JArray x.1.1, x.1.2, x.2) l in
    good 1 y.1.1 /\ good 2 y.1.2 /\ good 1 y.2 /\ IsNull y.1.1 = false /\ (IsNull x.1.2 = false -> IsNull y.1.2 = false) /\ (IsNull x.2 = false -> IsNull y.2 = false)) as Hfold.
  { induction l as [|k l IH]; intros [[d p] s] (H1 & H2 & H3); cbn [foldl]; [by cbn in *|]. cbn [fst snd] in *.
    set (p' := match preset e !! k with Some v => _ | None => p end).
    assert (good 2 p' /\ (IsNull p = false -> IsNull p' = false)) as [Hp' Hnp].
    { subst p'. destruct (preset e !! k) as [v|] eqn:E; [|done]. destruct (Set_ v) eqn:Es; [|done]. destruct (good_value _ _ _ Hp E Es).
      split; [by apply good_SetPath|]. intros _. unfold SetPath. by destruct (cut_dot k) as [a [b|]]. }
    specialize (IH (d ++ [JString k], p', SetKey s k (JString (default "preset" (source e !! k))))).
    destruct IH as (I1 & I2 & I3 & I4 & I5 & I6); [|split_and!; try done; auto].
    split_and!; [by apply (good_Push 0 d)|done|apply good_SetKey; done]. }
  specialize (Hfold (Differs e) ([], JObject [], JObject [])). cbn [fst snd] in Hfold.
  destruct (foldl _ _ _) as [[d p] s]. cbn [fst snd] in Hfold.
  destruct Hfold as (H1 & H2 & H3 & N1 & N2 & N3); [split_and!; split_and!; (done || cbn; lia)|].
  specialize (N2 eq_refl). specialize (N3 eq_refl).
  assert (forall n m j, (n <= m)%nat -> good n j -> good m j) as Hmono by (intros n m j ? (? & ? & ?); split_and!; try done; lia).
  assert (good 3 (SetKey (SetKey (SetKey (SetKey (SetKey (JObject []) "ruleset" (JString (RulesetName (ruleset e)))) "rules" (rules_json (values e))) "differs" d) "preset" p) "source" s)) as Hgood.
  { repeat apply good_SetKey; try done; try (apply (Hmono 1%nat); [lia|done]).
    - split_and!; [done|done|cbn; lia].
    - by apply good_rules_json.
    - unfold rules_json. assert (IsNull (JObject []) = false) as Hn by done. revert Hn. generalize (JObject []) as j.
      induction RuleTable as [|r l IH]; intros j Hj; [done|]. cbn [foldl]. apply IH. unfold put_rule.
      destruct (values e !! key r) as [v|]; [|done]. destruct (Set_ v); [|done]. unfold SetPath. by destruct (cut_dot (key r)) as [a [b|]]. }
  exact Hgood.
Qed.

Lemma effective_rules_streamable_witness :
  plain (EffectiveRulesJson sample_effective) = true /\ null_free (EffectiveRulesJson sample_effective) = true /\
  (depth (EffectiveRulesJson sample_effective) <= 3)%nat.
Proof.
  assert (forall m : RuleMap, map_Forall (fun _ v => match v with MakeInt i => int64_ok i | _ => True end) m -> ints_ok m) as H.
  { intros m Hm k i Hk. by apply (Hm k) in Hk. }
  apply (effective_rules_streamable sample_effective); apply H; apply map_Forall_to_list;
    match goal with |- Forall _ ?l => let l' := eval vm_compute in l in change l with l' end;
    repeat (apply Forall_cons_2; [cbn; unfold int64_ok; (lia || done)|]); apply Forall_nil_2.
Defined.
