(* ===== verification/SlotRegistry.v ===== *)
(** * The registry of connected players

    [core/src/readyup/slot_registry.{h,cpp}] and [libs/readyup/steamid.cpp].  The three tables
    (slot identities, bots, humans) and the set of departed players are one record here; each table
    is guarded by its own mutex in the code and every operation takes the lock it needs for its
    whole body, so an operation is one atomic step.  The steady clock is read by the operations: its
    reading is their argument [now] (ticks). *)

From S2P Require Import Prelude CStr.

(** ** SteamIDs *)

Definition kSteamBase : Z := 76561197960265728.
Definition wrap64 (v : Z) : Z := v mod 18446744073709551616.

(** Splits at the first occurrence of a character: [substr(0, p)] and [substr(p + 1)] for
    [p = find(c)]. *)
Fixpoint cut (c : ascii) (s : string) : option (string * string) :=
  match s with
  | EmptyString => None
  | String d r => if Ascii.eqb d c then Some (EmptyString, r) else (fun '(a, b) => (String d a, b)) <$> cut c r
  end.

Definition Steam2ToSteam64 (s : string) : Z :=
  if negb (starts_with "STEAM_" s) then 0
  else
    match cut ":"%char s with
    | None => 0
    | Some (_, r) =>
        match cut ":"%char r with
        | None => 0
        | Some (yStr, zStr) => wrap64 (kSteamBase + strtoull zStr * 2 + strtoull yStr)
        end
    end.

(** [s.front() == '[' && s.back() == ']'] strips both ends. *)
Definition unbracket (s : string) : string :=
  match s with
  | String c r =>
      if Ascii.eqb c "["%char && Ascii.eqb (default nul (String.get (String.length r) s)) "]"%char
      then stake (String.length r - 1) r else s
  | EmptyString => s
  end.

Definition Steam3ToSteam64 (steam3 : string) : Z :=
  let s := unbracket steam3 in
  if negb (starts_with "U:" s) then 0
  else
    match cut ":"%char (sdrop 2 s) with
    | None => 0
    | Some (universeStr, accountStr) =>
        if negb (universeStr =s "1") then 0
        else if sempty accountStr then 0
        else wrap64 (kSteamBase + strtoull accountStr)
    end.

Definition ParseSteamId64Loose (s : string) : Z :=
  if sempty s then 0
  else if sforall isdigit s then strtoull s
  else if starts_with "STEAM_" s then Steam2ToSteam64 s
  else if starts_with "[U:" s || starts_with "U:" s then Steam3ToSteam64 s
  else 0.

(** ** The tables *)

Record SlotIdentity := { si_slot : Z; si_steamid64 : Z; si_name : string }.

Record BotIdentity := { bot_userid : Z; pseudo_id : Z; bot_name : string; bot_team : Z }.
Definition NewBot : BotIdentity := {| bot_userid := -1; pseudo_id := 0; bot_name := EmptyString; bot_team := 0 |}.

Inductive TeamSource := TsNone | TsLog | TsEvent.
#[export] Instance TeamSource_eq_dec : EqDecision TeamSource.
Proof. solve_decision. Defined.

Definition TeamSourceName (s : TeamSource) : string :=
  match s with TsNone => "none" | TsLog => "log" | TsEvent => "event" end.

Record HumanIdentity := {
  userid : Z; slot : Z; steamid64 : Z; name : string; team : Z; teamSource : TeamSource; teamAt : Z }.
Definition NewHuman : HumanIdentity :=
  {| userid := -1; slot := -1; steamid64 := 0; name := EmptyString; team := 0; teamSource := TsNone; teamAt := 0 |}.

Record Registry := {
  g_slotToId : gmap Z SlotIdentity;
  g_bots : gmap Z BotIdentity;
  g_humans : gmap Z HumanIdentity;
  g_departed : gset Z }.

Definition EmptyRegistry : Registry := {| g_slotToId := ∅; g_bots := ∅; g_humans := ∅; g_departed := ∅ |}.

Definition with_slots (f : gmap Z SlotIdentity -> gmap Z SlotIdentity) (g : Registry) : Registry :=
  {| g_slotToId := f (g_slotToId g); g_bots := g_bots g; g_humans := g_humans g; g_departed := g_departed g |}.
Definition with_bots (f : gmap Z BotIdentity -> gmap Z BotIdentity) (g : Registry) : Registry :=
  {| g_slotToId := g_slotToId g; g_bots := f (g_bots g); g_humans := g_humans g; g_departed := g_departed g |}.
Definition with_humans (f : gmap Z HumanIdentity -> gmap Z HumanIdentity) (g : Registry) : Registry :=
  {| g_slotToId := g_slotToId g; g_bots := g_bots g; g_humans := f (g_humans g); g_departed := g_departed g |}.
Definition with_departed (f : gset Z -> gset Z) (g : Registry) : Registry :=
  {| g_slotToId := g_slotToId g; g_bots := g_bots g; g_humans := g_humans g; g_departed := f (g_departed g) |}.

(** ** Slot identities *)

Definition ObserveSlotIdentity (sl sid : Z) (nm : string) (g : Registry) : Registry :=
  if (sl <? 0) || (sid =? 0) || sempty nm then g
  else with_slots <[sl := {| si_slot := sl; si_steamid64 := sid; si_name := nm |}]> g.

Definition GetSlotIdentity (sl : Z) (g : Registry) : option SlotIdentity := g_slotToId g !! sl.

Definition ListSlotIdentities (g : Registry) : list SlotIdentity := (map_to_list (g_slotToId g)).*2.

Definition ForgetSlotIdentitiesForSteam (sid : Z) (g : Registry) : Registry :=
  if sid =? 0 then g else with_slots (filter (fun kv => si_steamid64 kv.2 <> sid)) g.

(** ** Bots *)

Definition kDevBotIdBase : Z := 0xB0B0000000000000.

(** [static_cast<uint64_t>(static_cast<uint32_t>(userid))]. *)
Definition to_uint32 (v : Z) : Z := v mod 4294967296.

Definition DevBotIdForUserid (uid : Z) : Z := Z.lor kDevBotIdBase (to_uint32 uid).
Definition IsDevBotId (id : Z) : bool := Z.land id 0xFFFF000000000000 =? kDevBotIdBase.

Definition ObserveBot (uid : Z) (nm : string) (tm : Z) (g : Registry) : Registry :=
  if uid <? 0 then g
  else
    let b := default NewBot (g_bots g !! uid) in
    with_bots <[uid := {| bot_userid := uid; pseudo_id := DevBotIdForUserid uid;
                          bot_name := if sempty nm then bot_name b else nm;
                          bot_team := if 0 <=? tm then tm else bot_team b |}]> g.

Definition ForgetBot (uid : Z) (g : Registry) : Registry := with_bots (delete uid) g.
Definition ClearBots (g : Registry) : Registry := with_bots (fun _ => ∅) g.
Definition ListBots (g : Registry) : list BotIdentity := (map_to_list (g_bots g)).*2.

(** ** Humans *)

Definition ApplyTeamLocked (h : HumanIdentity) (tm : Z) (src : TeamSource) (at_ : Z) : HumanIdentity :=
  if tm <? 0 then h
  else if negb (bool_decide (teamSource h = TsNone)) && (at_ <? teamAt h) then h
  else {| userid := userid h; slot := slot h; steamid64 := steamid64 h; name := name h;
          team := tm; teamSource := src; teamAt := at_ |}.

(** The entries of other players that hold the same userid are erased. *)
Definition drop_userid (uid sid : Z) (m : gmap Z HumanIdentity) : gmap Z HumanIdentity :=
  filter (fun kv => kv.1 = sid \/ userid kv.2 <> uid) m.

Definition ObserveHuman (now uid sid : Z) (nm : string) (tm : Z) (g : Registry) : Registry :=
  if sid =? 0 then g
  else
    with_humans
      (fun m =>
         let m := if 0 <=? uid then drop_userid uid sid m else m in
         let h := default NewHuman (m !! sid) in
         let h := {| userid := if 0 <=? uid then uid else userid h; slot := slot h; steamid64 := sid;
                     name := if sempty nm then name h else nm;
                     team := team h; teamSource := teamSource h; teamAt := teamAt h |} in
         <[sid := ApplyTeamLocked h tm TsLog now]> m) g.

Definition set_slot (h : HumanIdentity) (sl : Z) : HumanIdentity :=
  {| userid := userid h; slot := sl; steamid64 := steamid64 h; name := name h;
     team := team h; teamSource := teamSource h; teamAt := teamAt h |}.

Definition ObserveHumanTeamFromEvent (now sid sl tm : Z) (g : Registry) : Registry * bool :=
  if sid =? 0 then (g, false)
  else
    match g_humans g !! sid with
    | None => (g, false)
    | Some h =>
        let h := if 0 <=? sl then set_slot h sl else h in
        (with_humans <[sid := ApplyTeamLocked h tm TsEvent now]> g, true)
    end.

Definition ObserveHumanSlot (sid sl : Z) (g : Registry) : Registry :=
  if (sid =? 0) || (sl <? 0) then g
  else
    match g_humans g !! sid with
    | None => g
    | Some h => with_humans <[sid := set_slot h sl]> g
    end.

Definition ForgetHuman (sid : Z) (g : Registry) : Registry :=
  let g := with_humans (delete sid) g in
  if sid =? 0 then g else with_departed (fun d => {[sid]} ∪ d) g.

Definition AcceptHumanLogLine (sid : Z) (leaving connectLine : bool) (g : Registry) : Registry * bool :=
  if leaving then (g, true)
  else if negb (bool_decide (sid ∈ g_departed g)) then (g, true)
  else if negb connectLine then (g, false)
  else (with_departed (fun d => d ∖ {[sid]}) g, true).

Definition reset_team (now : Z) (h : HumanIdentity) : HumanIdentity :=
  {| userid := userid h; slot := slot h; steamid64 := steamid64 h; name := name h;
     team := 0; teamSource := TsNone; teamAt := now |}.

Definition ResetHumanTeams (now : Z) (g : Registry) : Registry := with_humans (fmap (reset_team now)) g.

(** One entry of the snapshot taken under the lock: the engine is asked outside it, and each write
    reads the clock again ([clock i] is the reading of the i-th write). *)
Definition reconcile_one (engineTeam : Z -> Z) (clock : nat -> Z)
    (acc : Registry * Z * nat) (seen : Z * (Z * Z)) : Registry * Z * nat :=
  let '(g, changed, i) := acc in
  let '(sid, (sl, tm)) := seen in
  let t := engineTeam sl in
  if (t <? 0) || (3 <? t) || (t =? tm) then (g, changed, i)
  else
    let '(g, ok) := ObserveHumanTeamFromEvent (clock i) sid sl t g in
    (g, if ok then changed + 1 else changed, S i).

Definition seen_humans (g : Registry) : list (Z * (Z * Z)) :=
  omap (fun kv => if 0 <=? slot kv.2 then Some (kv.1, (slot kv.2, team kv.2)) else None) (map_to_list (g_humans g)).

(** [None] is a null [engineTeam]. *)
Definition ReconcileHumanTeams (engineTeam : option (Z -> Z)) (clock : nat -> Z) (g : Registry) : Registry * Z :=
  match engineTeam with
  | None => (g, 0)
  | Some f => let '(g, changed, _) := foldl (reconcile_one f clock) (g, 0, O) (seen_humans g) in (g, changed)
  end.

Definition ListHumans (g : Registry) : list HumanIdentity := (map_to_list (g_humans g)).*2.

(** * The server log listener

    [HandleLogLine] of [core/src/readyup/client_command_hook.cpp] with the header parsers beside it,
    and the slot teams of [game_events.cpp].  A log line updates the player registry, may post a
    plugin lifecycle event and may route a chat command; what leaves the component is a list of
    [Effect]s in call order.  The lifecycle parser behind [ObserveLifecycleLogLine], the plugin host
    and the command router are other components: calling one of them is an effect here. *)

Definition kLogPrefix : string := "[ReadyUp]".

(** ** Header parsing *)

(** The text between the first two double quotes. *)
Definition ExtractQuoted (s : string) : option string :=
  match cut dquote s with
  | None => None
  | Some (_, r) => fst <$> cut dquote r
  end.

(** The next [<...>] group: what is inside it and what follows it. *)
Definition group (s : string) : option (string * string) :=
  match cut "<"%char s with
  | None => None
  | Some (_, r) => cut ">"%char r
  end.

Record Header := { h_name : string; h_slot : Z; h_steamid64 : Z }.

(** Without a closing [>] the searches for the second group start over at the first [<] and fail at
    the same place, so nothing more is read. *)
Definition ParseHeader (header : string) : Header :=
  match cut "<"%char header with
  | None => {| h_name := header; h_slot := -1; h_steamid64 := 0 |}
  | Some (nm, r) =>
      match cut ">"%char r with
      | None => {| h_name := nm; h_slot := -1; h_steamid64 := 0 |}
      | Some (slotStr, r) =>
          {| h_name := nm; h_slot := c_atoi slotStr;
             h_steamid64 := match group r with None => 0 | Some (steam, _) => ParseSteamId64Loose steam end |}
      end
  end.

Definition TeamFromLogName (t : string) : Z :=
  if t =s "CT" then 3
  else if t =s "TERRORIST" then 2
  else if t =s "Spectator" then 1
  else if t =s "Unassigned" then 0
  else -1.

(** The loop over the groups 0 to 3; [skip] groups are still to be passed over. *)
Fixpoint team_group (skip : nat) (s : string) : Z :=
  match group s with
  | None => -1
  | Some (g, r) => match skip with O => TeamFromLogName g | S k => team_group k r end
  end.
Definition TeamFromHeader (header : string) : Z := team_group 3 header.

Definition IdGroupFromHeader (header : string) : string :=
  match group header with
  | None => EmptyString
  | Some (_, r) => match group r with None => EmptyString | Some (g, _) => g end
  end.

Definition TeamFromSwitchLine (line : string) : Z :=
  match find "switched from team <" line with
  | None => -1
  | Some sw =>
      match find " to <" (sdrop sw line) with
      | None => -1
      | Some to => match cut ">"%char (sdrop (sw + to + 5) line) with None => -1 | Some (t, _) => TeamFromLogName t end
      end
  end.

Definition IsConnectLine (line : string) : bool :=
  contains (qs "` connected, address `") line || contains (qs "` entered the game") line.

Definition is_chat (line : string) : bool :=
  contains (qs "` say `") line || contains (qs "` say_team `") line.

Definition is_map_load (line : string) : bool :=
  contains (qs "Loading map `") line || contains (qs "Started map `") line.

(** ** The handler *)

Inductive EventType := RU_EVENT_PLAYER_CONNECT | RU_EVENT_PLAYER_DISCONNECT | RU_EVENT_PLAYER_TEAM.

Record LifecycleEvent := {
  e_type : EventType; e_slot : Z; e_steamid64 : Z; e_name : string; e_team : Z; e_old_team : Z }.

Inductive Effect :=
  | ObserveLifecycleLogLine (line : string)
  | PostEvent (e : LifecycleEvent)
  | RouteChatCommand (sid : Z) (nm msg : string).

Record Host := { reg : Registry; g_logTeamBySlot : gmap Z Z }.
Definition NewHost : Host := {| reg := EmptyRegistry; g_logTeamBySlot := ∅ |}.

Definition with_reg (f : Registry -> Registry) (w : Host) : Host :=
  {| reg := f (reg w); g_logTeamBySlot := g_logTeamBySlot w |}.

Definition ObserveSlotTeamFromLog (sl tm : Z) (w : Host) : Host :=
  if sl <? 0 then w else {| reg := reg w; g_logTeamBySlot := <[sl := tm]> (g_logTeamBySlot w) |}.

(** Only a playing side (2 = T, 3 = CT) is an answer. *)
Definition LogTeamForSlot (sl : Z) (w : Host) : option Z :=
  match g_logTeamBySlot w !! sl with
  | Some t => if (t =? 2) || (t =? 3) then Some t else None
  | None => None
  end.

Definition has_disconnected (line : string) : bool := contains (qs "` disconnected (reason") line.

(** The team a line tells: a switch line's target, else the header's. *)
Definition line_team (chat : bool) (line header : string) : Z :=
  let switched := if chat then -1 else TeamFromSwitchLine line in
  if 0 <=? switched then switched else TeamFromHeader header.

(** The lifecycle event of a player line, when engine events do not drive the lifecycle. *)
Definition lifecycle_of (line header : string) (h : Header) : option LifecycleEvent :=
  let ev t tm old :=
    {| e_type := t; e_slot := h_slot h; e_steamid64 := h_steamid64 h; e_name := h_name h; e_team := tm; e_old_team := old |} in
  let switched := TeamFromSwitchLine line in
  if has_disconnected line then Some (ev RU_EVENT_PLAYER_DISCONNECT 0 0)
  else if 0 <=? switched then Some (ev RU_EVENT_PLAYER_TEAM switched (Z.max 0 (TeamFromHeader header)))
  else if contains (qs "` entered the game") line then Some (ev RU_EVENT_PLAYER_CONNECT 0 0)
  else None.

(** The branch for [Name<userid><BOT><TEAM>]. *)
Definition bot_line (chat : bool) (line header : string) (h : Header) (w : Host) : Host :=
  if contains (qs "` disconnected") line then with_reg (ForgetBot (h_slot h)) w
  else with_reg (ObserveBot (h_slot h) (h_name h) (line_team chat line header)) w.

Definition leaving_line (chat : bool) (line : string) : bool := negb chat && has_disconnected line.

(** The branch for a player's header; [false]: the line was refused and handling stops. *)
Definition player_line (now : Z) (listener chat : bool) (line header : string) (h : Header) (w : Host)
    : Host * list Effect * bool :=
  let sid := h_steamid64 h in
  let leaving := leaving_line chat line in
  let '(g, ok) := AcceptHumanLogLine sid leaving (negb chat && IsConnectLine line) (reg w) in
  let w := with_reg (fun _ => g) w in
  if negb ok then (w, [], false)
  else
    let w := with_reg (ObserveSlotIdentity (h_slot h) sid (h_name h)) w in
    let tm := line_team chat line header in
    let w := if 0 <=? tm then ObserveSlotTeamFromLog (h_slot h) tm w else w in
    let effs :=
      if negb chat && negb listener
      then match lifecycle_of line header h with Some e => [PostEvent e] | None => [] end else [] in
    let w :=
      if leaving
      then ObserveSlotTeamFromLog (h_slot h) 0
             (with_reg (fun g => ForgetSlotIdentitiesForSteam sid (ForgetHuman sid g)) w)
      else with_reg (ObserveHuman now (h_slot h) sid (h_name h) tm) w in
    (w, effs, true).

(** The message of a [say] / [say_team] line. *)
Definition chat_message (line : string) : option string :=
  let from :=
    match find (qs " say_team `") line with
    | Some p => Some (p + 11)%nat
    | None => match find (qs " say `") line with Some p => Some (p + 6)%nat | None => None end
    end in
  match from with
  | None => None
  | Some n => fst <$> cut dquote (sdrop n line)
  end.

Definition is_command (msg : string) : bool :=
  match msg with String c (String _ _) => Ascii.eqb c "."%char | _ => false end.

Definition route (line header : string) (h : Header) : list Effect :=
  match chat_message line with
  | None => []
  | Some msg =>
      if is_command msg && (h_steamid64 h =? 0) && negb (header =s "Console<0><Console><Console>") then []
      else if is_command msg then [RouteChatCommand (h_steamid64 h) (h_name h) msg]
      else []
  end.

Definition is_bot_header (header : string) (h : Header) : bool :=
  (h_steamid64 h =? 0) && (0 <=? h_slot h) && (IdGroupFromHeader header =s "BOT").

Definition is_player_header (header : string) (h : Header) : bool :=
  contains "<" header && negb (h_steamid64 h =? 0).

(** [now1] and [now2] are the clock readings of the map-load reset and of the player observation;
    [listener] is [GameEventsListenerInstalled()]. *)
Definition HandleLogLine (now1 now2 : Z) (listener : bool) (line : string) (w : Host) : Host * list Effect :=
  if sempty line || contains kLogPrefix line then (w, [])
  else
    let chat := is_chat line in
    let w := if negb chat && is_map_load line then with_reg (fun g => ResetHumanTeams now1 (ClearBots g)) w else w in
    let effs := [ObserveLifecycleLogLine line] in
    match ExtractQuoted line with
    | None => (w, effs)
    | Some header =>
        let h := ParseHeader header in
        if is_bot_header header h then (bot_line chat line header h w, effs)
        else if is_player_header header h
        then
          let '(w, effs', go) := player_line now2 listener chat line header h w in
          (w, if go then effs ++ effs' ++ route line header h else effs ++ effs')
        else (w, effs ++ route line header h)
    end.

(** ** Runs

    What reaches the registry from outside: log lines, the engine's team and slot events, the bot
    events, and the reconciliation of the teams. *)
Inductive Input :=
  | InLine (now1 now2 : Z) (listener : bool) (line : string)
  | InTeam (now sid sl tm : Z)
  | InSlot (sid sl : Z)
  | InBot (uid : Z) (nm : string) (tm : Z)
  | InBotGone (uid : Z)
  | InReconcile (engineTeam : Z -> Z) (clock : nat -> Z).

Definition feed (w : Host) (i : Input) : Host :=
  match i with
  | InLine t1 t2 l line => (HandleLogLine t1 t2 l line w).1
  | InTeam now sid sl tm => with_reg (fun g => (ObserveHumanTeamFromEvent now sid sl tm g).1) w
  | InSlot sid sl => with_reg (ObserveHumanSlot sid sl) w
  | InBot uid nm tm => with_reg (ObserveBot uid nm tm) w
  | InBotGone uid => with_reg (ForgetBot uid) w
  | InReconcile f clock => with_reg (fun g => (ReconcileHumanTeams (Some f) clock g).1) w
  end.

Definition run (w : Host) (l : list Input) : Host := foldl feed w l.
