(* ===== verification/RegistryFacts.v ===== *)
(** * Properties of the player registry and the log listener

    The invariant of the registry over every sequence of inputs, the ban on ghosts (a player whose
    disconnect was logged comes back only with a connect line), the reconciliation with the engine,
    what a header yields, and the separation of bot ids from SteamIDs. *)

From S2P Require Import Prelude CStr SlotRegistry.

(** ** The registry invariant *)

Record reg_ok (g : Registry) : Prop := {
  ok_key : forall k h, g_humans g !! k = Some h -> k <> 0 /\ steamid64 h = k /\ k ∉ g_departed g;
  ok_userid : forall k1 k2 h1 h2, g_humans g !! k1 = Some h1 -> g_humans g !! k2 = Some h2 ->
    0 <= userid h1 -> userid h1 = userid h2 -> k1 = k2;
  ok_bot : forall u b, g_bots g !! u = Some b -> 0 <= u /\ bot_userid b = u /\ pseudo_id b = DevBotIdForUserid u;
  ok_slot : forall k i, g_slotToId g !! k = Some i -> 0 <= k /\ si_slot i = k /\ si_steamid64 i <> 0 }.

Lemma reg_ok_empty : reg_ok EmptyRegistry.
Proof. split; cbn; intros *; rewrite lookup_empty; done. Qed.

(** An update of the slot table or of the bot table only has to respect its own clause. *)
Lemma reg_ok_slots f g :
  (forall k i, f (g_slotToId g) !! k = Some i -> 0 <= k /\ si_slot i = k /\ si_steamid64 i <> 0) ->
  reg_ok g -> reg_ok (with_slots f g).
Proof. intros Hf [H1 H2 H3 H4]. by split. Qed.

Lemma reg_ok_bots f g :
  (forall u b, f (g_bots g) !! u = Some b -> 0 <= u /\ bot_userid b = u /\ pseudo_id b = DevBotIdForUserid u) ->
  reg_ok g -> reg_ok (with_bots f g).
Proof. intros Hf [H1 H2 H3 H4]. by split. Qed.

Lemma ObserveSlotIdentity_ok sl sid nm g : reg_ok g -> reg_ok (ObserveSlotIdentity sl sid nm g).
Proof.
  intros H. unfold ObserveSlotIdentity. case_if; [done|]. split_bools. apply reg_ok_slots; [|done].
  intros k i. destruct (decide (sl = k)) as [-> | Hne].
  - rewrite lookup_insert_eq. intros [= <-]. cbn. lia.
  - rewrite lookup_insert_ne by done. apply (ok_slot g H).
Qed.

Lemma ForgetSlotIdentities_ok sid g : reg_ok g -> reg_ok (ForgetSlotIdentitiesForSteam sid g).
Proof.
  intros H. unfold ForgetSlotIdentitiesForSteam. case_if; [done|]. apply reg_ok_slots; [|done].
  intros k i [Hk _]%map_lookup_filter_Some. by apply (ok_slot g H).
Qed.

Lemma ObserveBot_ok uid nm tm g : reg_ok g -> reg_ok (ObserveBot uid nm tm g).
Proof.
  intros H. unfold ObserveBot. case_if; [done|]. split_bools. apply reg_ok_bots; [|done].
  intros k i. destruct (decide (uid = k)) as [-> | Hne].
  - rewrite lookup_insert_eq. intros [= <-]. done.
  - rewrite lookup_insert_ne by done. apply (ok_bot g H).
Qed.

Lemma ForgetBot_ok uid g : reg_ok g -> reg_ok (ForgetBot uid g).
Proof. intros H. apply reg_ok_bots; [|done]. intros u b [_ Hu]%lookup_delete_Some. by apply (ok_bot g H). Qed.

Lemma ClearBots_ok g : reg_ok g -> reg_ok (ClearBots g).
Proof. intros H. apply reg_ok_bots; [|done]. intros u b. by rewrite lookup_empty. Qed.

(** Rewriting one human's entry without touching the id and the userid. *)
Lemma reg_ok_update sid h h' g :
  g_humans g !! sid = Some h -> steamid64 h' = steamid64 h -> userid h' = userid h ->
  reg_ok g -> reg_ok (with_humans <[sid := h']> g).
Proof.
  intros Hl Hs Hu [H1 H2 H3 H4]. split; cbn; try done.
  - intros k x. destruct (decide (sid = k)) as [-> | Hne]; [|rewrite lookup_insert_ne by done; apply H1].
    rewrite lookup_insert_eq. intros [= <-]. rewrite Hs. by apply H1.
  - intros k1 k2 x1 x2.
    destruct (decide (sid = k1)) as [<- | Hn1], (decide (sid = k2)) as [<- | Hn2];
      rewrite ?lookup_insert_eq, ?lookup_insert_ne by done; intros; simplify_eq; try done;
      rewrite ?Hu in *; eauto.
Qed.

Lemma ApplyTeam_ids h tm src t :
  steamid64 (ApplyTeamLocked h tm src t) = steamid64 h /\ userid (ApplyTeamLocked h tm src t) = userid h.
Proof. unfold ApplyTeamLocked. by repeat case_if. Qed.

Lemma ObserveHumanTeamFromEvent_ok now sid sl tm g :
  reg_ok g -> reg_ok (ObserveHumanTeamFromEvent now sid sl tm g).1.
Proof.
  intros H. unfold ObserveHumanTeamFromEvent. case_if; [done|].
  destruct (g_humans g !! sid) as [h|] eqn:Hl; [|done]. cbn.
  destruct (ApplyTeam_ids (if 0 <=? sl then set_slot h sl else h) tm TsEvent now) as [Es Eu].
  apply (reg_ok_update sid h); rewrite ?Es, ?Eu; try done; by case_if.
Qed.

Lemma ObserveHumanSlot_ok sid sl g : reg_ok g -> reg_ok (ObserveHumanSlot sid sl g).
Proof.
  intros H. unfold ObserveHumanSlot. case_if; [done|].
  destruct (g_humans g !! sid) as [h|] eqn:Hl; [|done]. by apply (reg_ok_update sid h).
Qed.

Lemma ResetHumanTeams_ok now g : reg_ok g -> reg_ok (ResetHumanTeams now g).
Proof.
  intros [H1 H2 H3 H4]. split; cbn; try done.
  - intros k h. rewrite lookup_fmap. intros (x & Hx & ->)%fmap_Some. cbn. by apply H1.
  - intros k1 k2 h1 h2. rewrite !lookup_fmap. intros (x & Hx & ->)%fmap_Some (y & Hy & ->)%fmap_Some. cbn. by apply H2.
Qed.

Lemma drop_userid_Some uid sid m k h :
  drop_userid uid sid m !! k = Some h <-> m !! k = Some h /\ (k = sid \/ userid h <> uid).
Proof. unfold drop_userid. rewrite map_lookup_filter_Some. done. Qed.

(** The observation of a player who is not waiting for a connect line. *)
Lemma ObserveHuman_ok now uid sid nm tm g :
  sid ∉ g_departed g -> reg_ok g -> reg_ok (ObserveHuman now uid sid nm tm g).
Proof.
  intros Hd [H1 H2 H3 H4]. unfold ObserveHuman. case_if; [done|]. split_bools.
  set (m := if 0 <=? uid then drop_userid uid sid (g_humans g) else g_humans g).
  assert (Hm : forall k h, m !! k = Some h -> g_humans g !! k = Some h /\ (k = sid \/ userid h <> uid \/ uid < 0)).
  { intros k h. unfold m. case_if; split_bools; [rewrite drop_userid_Some; tauto | intros; split; [done|lia]]. }
  split; cbn -[drop_userid]; fold m; try done.
  - intros k h. destruct (decide (sid = k)) as [-> | Hne].
    + rewrite lookup_insert_eq. intros [= <-]. destruct (ApplyTeam_ids
        {| userid := if 0 <=? uid then uid else userid (default NewHuman (m !! k));
           slot := slot (default NewHuman (m !! k)); steamid64 := k;
           name := if sempty nm then name (default NewHuman (m !! k)) else nm;
           team := team (default NewHuman (m !! k)); teamSource := teamSource (default NewHuman (m !! k));
           teamAt := teamAt (default NewHuman (m !! k)) |} tm TsLog now) as [-> _]. done.
    + rewrite lookup_insert_ne by done. intros Hk. apply H1. by apply Hm in Hk as [? _].
  - set (hn := ApplyTeamLocked _ _ _ _).
    assert (Hu : 0 <= uid /\ userid hn = uid \/ uid < 0 /\ userid hn = userid (default NewHuman (m !! sid))).
    { unfold hn. rewrite (proj2 (ApplyTeam_ids _ _ _ _)). cbn. case_if; split_bools; [left|right]; done || lia. }
    clearbody hn. assert (Hone : forall k h, k <> sid -> m !! k = Some h -> 0 <= userid hn -> userid hn <> userid h).
    { intros k h Hk Hl Hge E. destruct (Hm k h Hl) as [Hg Hor].
      destruct Hu as [[? Eu]|[? Eu]]; [rewrite Eu in E; destruct Hor as [?|[?|?]]; congruence || lia|].
      rewrite Eu in E, Hge. destruct (m !! sid) as [hs|] eqn:Hms; [|cbn in Hge; lia]. cbn in *.
      apply Hm in Hms as [Hms _]. apply Hk. symmetry. by apply (H2 sid k hs h). }
    intros k1 k2 h1 h2.
    destruct (decide (sid = k1)) as [<- | Hn1], (decide (sid = k2)) as [<- | Hn2];
      rewrite ?lookup_insert_eq, ?lookup_insert_ne by done; intros Ha Hb Hge E; simplify_eq; try done.
    + exfalso. by apply (Hone k2 h2).
    + exfalso. apply (Hone k1 h1); congruence || lia.
    + apply Hm in Ha as [? _], Hb as [? _]. by apply (H2 k1 k2 h1 h2).
Qed.

Lemma ForgetHuman_ok sid g : reg_ok g -> reg_ok (ForgetHuman sid g).
Proof.
  intros [H1 H2 H3 H4]. unfold ForgetHuman.
  case_if; split; cbn; try done.
  - intros k h [Hne Hl]%lookup_delete_Some. by apply H1.
  - intros k1 k2 h1 h2 [_ Ha]%lookup_delete_Some [_ Hb]%lookup_delete_Some. eauto.
  - intros k h [Hne Hl]%lookup_delete_Some. destruct (H1 k h Hl) as (? & ? & ?). split_and!; [done..|]. set_solver.
  - intros k1 k2 h1 h2 [_ Ha]%lookup_delete_Some [_ Hb]%lookup_delete_Some. eauto.
Qed.

Lemma Accept_ok sid l c g : reg_ok g -> reg_ok (AcceptHumanLogLine sid l c g).1.
Proof.
  intros H. unfold AcceptHumanLogLine. repeat case_if; try done. destruct H as [H1 H2 H3 H4]. split; cbn; try done.
  intros k h Hl. destruct (H1 k h Hl) as (? & ? & ?). split_and!; [done..|]. set_solver.
Qed.

(** An accepted line that is not the disconnect line leaves its player off the departed list. *)
Lemma Accept_present sid c g g' : AcceptHumanLogLine sid false c g = (g', true) -> sid ∉ g_departed g'.
Proof. unfold AcceptHumanLogLine. intros. repeat case_if; simplify_eq/=; try set_solver. by case_bool_decide. Qed.

Lemma Reconcile_fold (P : Registry -> Prop) f clock l :
  (forall now sid sl tm g, P g -> P (ObserveHumanTeamFromEvent now sid sl tm g).1) ->
  forall acc, P acc.1.1 -> P (foldl (reconcile_one f clock) acc l).1.1.
Proof.
  intros Hstep. induction l as [|[sid [sl tm]] l IH]; intros [[g n] i] Hp; [done|]. apply IH. cbn in *.
  case_if; [done|]. pose proof (Hstep (clock i) sid sl (f sl) g Hp) as Hs.
  by destruct (ObserveHumanTeamFromEvent (clock i) sid sl (f sl) g).
Qed.

Lemma Reconcile_ind (P : Registry -> Prop) f clock g :
  (forall now sid sl tm g, P g -> P (ObserveHumanTeamFromEvent now sid sl tm g).1) ->
  P g -> P (ReconcileHumanTeams (Some f) clock g).1.
Proof.
  intros Hs Hp. pose proof (Reconcile_fold P f clock (seen_humans g) Hs (g, 0, O) Hp) as H. unfold ReconcileHumanTeams.
  by destruct (foldl _ _ _) as [[? ?] ?].
Qed.

Create HintDb registry.
#[export] Hint Resolve reg_ok_empty ObserveSlotIdentity_ok ForgetSlotIdentities_ok ObserveBot_ok ForgetBot_ok ClearBots_ok
  ObserveHumanTeamFromEvent_ok ObserveHumanSlot_ok ResetHumanTeams_ok ForgetHuman_ok Accept_ok : registry.

(** ** What one log line does to the registry *)

(** The registry part of [player_line]. *)
Definition player_reg (now : Z) (chat : bool) (line : string) (tm : Z) (h : Header) (g : Registry) : Registry :=
  let sid := h_steamid64 h in
  let leaving := leaving_line chat line in
  let '(g, ok) := AcceptHumanLogLine sid leaving (negb chat && IsConnectLine line) g in
  if negb ok then g
  else
    let g := ObserveSlotIdentity (h_slot h) sid (h_name h) g in
    if leaving then ForgetSlotIdentitiesForSteam sid (ForgetHuman sid g)
    else ObserveHuman now (h_slot h) sid (h_name h) tm g.

Lemma slot_team_reg sl tm w : reg (ObserveSlotTeamFromLog sl tm w) = reg w.
Proof. unfold ObserveSlotTeamFromLog. by case_if. Qed.

Lemma player_line_reg now listener chat line header h w :
  reg (player_line now listener chat line header h w).1.1 =
  player_reg now chat line (line_team chat line header) h (reg w).
Proof.
  unfold player_line, player_reg. destruct (AcceptHumanLogLine _ _ _ _) as [g ok] eqn:E. destruct ok; [|done]. cbn [negb].
  destruct (leaving_line chat line); cbn; rewrite ?slot_team_reg; cbn; case_if; by rewrite ?slot_team_reg.
Qed.

(** Whom a line speaks for. *)
Definition line_header (line : string) : Header :=
  match ExtractQuoted line with
  | Some header => ParseHeader header
  | None => {| h_name := EmptyString; h_slot := -1; h_steamid64 := 0 |}
  end.
Definition line_steamid (line : string) : Z := h_steamid64 (line_header line).

(** A property of registries survives a log line when the operations the line runs preserve it. *)
Lemma HandleLogLine_ind (P : Registry -> Prop) t1 t2 listener line w :
  (is_chat line = false -> forall g, P g -> P (ResetHumanTeams t1 (ClearBots g))) ->
  (forall uid g, P g -> P (ForgetBot uid g)) ->
  (forall uid nm tm g, P g -> P (ObserveBot uid nm tm g)) ->
  (forall tm g, line_steamid line <> 0 -> P g -> P (player_reg t2 (is_chat line) line tm (line_header line) g)) ->
  P (reg w) -> P (reg (HandleLogLine t1 t2 listener line w).1).
Proof.
  intros Hreset Hfb Hob Hpl Hp. unfold HandleLogLine. case_if; [done|].
  set (w' := if negb (is_chat line) && is_map_load line then _ else w).
  assert (Hp' : P (reg w')) by (unfold w'; case_if; split_bools; [by apply Hreset|done]). clearbody w'.
  unfold line_steamid, line_header in Hpl. destruct (ExtractQuoted line) as [header|]; [|done].
  case_if; [cbn; unfold bot_line; case_if; cbn; auto|].
  case_if; [|done]. pose proof (player_line_reg t2 listener (is_chat line) line header (ParseHeader header) w') as Hr.
  destruct (player_line _ _ _ _ _ _ _) as [[w2 effs] go]. cbn in *. rewrite Hr. apply Hpl; [|done].
  unfold is_player_header in *. split_bools. done.
Qed.

Lemma player_reg_ok now chat line tm h g : reg_ok g -> reg_ok (player_reg now chat line tm h g).
Proof.
  intros H. unfold player_reg. pose proof (Accept_ok (h_steamid64 h) (leaving_line chat line) (negb chat && IsConnectLine line) g H) as Ha.
  destruct (AcceptHumanLogLine _ _ _ _) as [g' ok] eqn:E. cbn in Ha. destruct ok; [|done]. cbn [negb].
  destruct (leaving_line chat line) eqn:El; [auto with registry|].
  apply ObserveHuman_ok; [|auto with registry]. apply Accept_present in E.
  unfold ObserveSlotIdentity. by case_if.
Qed.

Lemma feed_ok i w : reg_ok (reg w) -> reg_ok (reg (feed w i)).
Proof.
  intros H. destruct i; cbn; auto with registry.
  - apply HandleLogLine_ind; auto using player_reg_ok with registry.
  - apply (Reconcile_ind reg_ok); auto with registry.
Qed.

(** However log lines, engine events and reconciliations arrive, the registry keeps: one
    entry per connected human under their own nonzero SteamID, no human that is also on the departed
    list, no two humans with the same userid, bots under their own userid with the id derived from it,
    and slot identities under their own slot with a SteamID. *)
Theorem registry_invariant (inputs : list Input) : reg_ok (reg (run NewHost inputs)).
Proof.
  unfold run. generalize (reg_ok_empty : reg_ok (reg NewHost)). generalize NewHost.
  induction inputs as [|i l IH]; intros w H; [done|]. cbn. apply IH, feed_ok, H.
Qed.

(** ** Ghosts *)

(** Not in the table, and waiting for a connect line. *)
Definition gone (sid : Z) (g : Registry) : Prop := sid ∈ g_departed g /\ g_humans g !! sid = None.

Definition connects (sid : Z) (i : Input) : bool :=
  match i with
  | InLine _ _ _ line => negb (is_chat line) && IsConnectLine line && (line_steamid line =? sid)
  | _ => false
  end.

Definition disconnects (sid : Z) (line : string) : bool :=
  negb (sempty line) && negb (contains kLogPrefix line) && leaving_line (is_chat line) line && (line_steamid line =? sid).

Lemma ObserveSlotIdentity_humans sl sid nm g :
  g_humans (ObserveSlotIdentity sl sid nm g) = g_humans g /\ g_departed (ObserveSlotIdentity sl sid nm g) = g_departed g.
Proof. unfold ObserveSlotIdentity. by case_if. Qed.

Lemma ForgetSlots_humans sid g :
  g_humans (ForgetSlotIdentitiesForSteam sid g) = g_humans g /\ g_departed (ForgetSlotIdentitiesForSteam sid g) = g_departed g.
Proof. unfold ForgetSlotIdentitiesForSteam. by case_if. Qed.

Lemma ForgetHuman_gone sid g : sid <> 0 -> gone sid (ForgetHuman sid g).
Proof.
  intros H. unfold ForgetHuman, gone. case_if; split_bools; [done|]. cbn. split; [set_solver|apply lookup_delete_eq].
Qed.

Lemma ForgetHuman_other sid sid' g : gone sid g -> gone sid (ForgetHuman sid' g).
Proof.
  intros [H1 H2]. unfold ForgetHuman, gone. case_if; cbn; (split; [set_solver|apply lookup_delete_None; auto]).
Qed.

Lemma ObserveHuman_gone now uid sid sid' nm tm g : sid' <> sid -> gone sid g -> gone sid (ObserveHuman now uid sid' nm tm g).
Proof.
  intros Hne [H1 H2]. unfold ObserveHuman. case_if; [done|]. split; [done|]. cbn. rewrite lookup_insert_ne by done.
  case_if; [|done]. unfold drop_userid. apply map_lookup_filter_None. by left.
Qed.

Lemma gone_ext sid g g' : g_humans g' = g_humans g -> g_departed g' = g_departed g -> gone sid g -> gone sid g'.
Proof. unfold gone. by intros -> ->. Qed.

Lemma ObserveTeam_gone now sid sid' sl tm g : gone sid g -> gone sid (ObserveHumanTeamFromEvent now sid' sl tm g).1.
Proof.
  intros [H1 H2]. unfold ObserveHumanTeamFromEvent. case_if; [done|]. destruct (g_humans g !! sid') eqn:E; [|done].
  split; [done|]. cbn. rewrite lookup_insert_ne by congruence. done.
Qed.

Lemma player_reg_gone now chat line tm h sid g :
  negb chat && IsConnectLine line && (h_steamid64 h =? sid) = false -> h_steamid64 h <> 0 ->
  gone sid g -> gone sid (player_reg now chat line tm h g).
Proof.
  intros Hc Hz Hg. unfold player_reg. destruct (AcceptHumanLogLine _ _ _ _) as [g' ok] eqn:E.
  assert (Hg' : gone sid g' /\ (ok = true -> leaving_line chat line = false -> h_steamid64 h <> sid)).
  { destruct Hg as [H1 H2]. unfold AcceptHumanLogLine in E. destruct (leaving_line chat line); [by simplify_eq|].
    destruct (decide (h_steamid64 h = sid)) as [Heq | Hne].
    - rewrite Heq, bool_decide_eq_true_2 in E by done. rewrite Heq, Z.eqb_refl, andb_true_r in Hc. rewrite Hc in E.
      cbn in E. by simplify_eq.
    - repeat case_if; simplify_eq/=; (split; [split; cbn; [set_solver|done]|done]). }
  destruct Hg' as [Hg' Hne]. destruct ok; [|done]. cbn [negb].
  destruct (ObserveSlotIdentity_humans (h_slot h) (h_steamid64 h) (h_name h) g') as [E1 E2].
  destruct (leaving_line chat line).
  - eapply gone_ext; [apply ForgetSlots_humans..|]. apply ForgetHuman_other. by eapply gone_ext.
  - apply ObserveHuman_gone; [auto|]. by eapply gone_ext.
Qed.

Lemma feed_gone sid i w : connects sid i = false -> gone sid (reg w) -> gone sid (reg (feed w i)).
Proof.
  intros Hc Hg. destruct i; cbn in *; auto using ObserveTeam_gone.
  - apply HandleLogLine_ind; auto.
    + intros _ g [H1 H2]. split; [done|]. cbn. by rewrite lookup_fmap, H2.
    + intros uid nm tm g H. unfold ObserveBot. by case_if.
    + intros tm g Hz. by apply player_reg_gone.
  - unfold ObserveHumanSlot. case_if; [done|]. destruct (g_humans (reg w) !! sid0) eqn:E; [|done].
    destruct Hg as [H1 H2]. split; [done|]. cbn. rewrite lookup_insert_ne by congruence. done.
  - unfold ObserveBot. by case_if.
  - apply (Reconcile_ind (gone sid)); auto using ObserveTeam_gone.
Qed.

Lemma cut_contains c s p r : cut c s = Some (p, r) -> contains (str1 c) s = true.
Proof.
  revert p r. induction s as [|d s IH]; intros p r; [done|]. cbn. destruct (Ascii.eqb d c) eqn:E.
  - apply Ascii.eqb_eq in E as ->. intros _. unfold contains. cbn. by rewrite Ascii.eqb_refl.
  - destruct (cut c s) as [[a b]|] eqn:Ec; [|done]. intros _. unfold contains. cbn.
    destruct (Ascii.eqb c d); [by destruct s|]. cbn. specialize (IH a b eq_refl). unfold contains in IH. by destruct (find (str1 c) s).
Qed.

Lemma steamid_header header : h_steamid64 (ParseHeader header) <> 0 -> is_player_header header (ParseHeader header) = true /\ is_bot_header header (ParseHeader header) = false.
Proof.
  intros H. unfold is_player_header, is_bot_header. apply Z.eqb_neq in H as Hb. rewrite Hb. split; [|done]. cbn. rewrite andb_true_r.
  unfold ParseHeader in H. destruct (cut "<" header) as [[a b]|] eqn:E; [|done]. by apply (cut_contains "<" header a b).
Qed.

(** The disconnect line itself. *)
Lemma disconnect_gone sid t1 t2 listener line w :
  sid <> 0 -> disconnects sid line = true -> gone sid (reg (HandleLogLine t1 t2 listener line w).1).
Proof.
  intros Hs Hd. unfold disconnects in Hd. split_bools. unfold HandleLogLine.
  replace (sempty line) with false by (symmetry; done). replace (contains kLogPrefix line) with false by (symmetry; done). cbn [orb].
  set (w' := if negb (is_chat line) && is_map_load line then _ else w). clearbody w'.
  unfold line_steamid, line_header in *. destruct (ExtractQuoted line) as [header|]; [|subst; done].
  destruct (steamid_header header) as [Hp Hb]; [congruence|]. rewrite Hb, Hp.
  pose proof (player_line_reg t2 listener (is_chat line) line header (ParseHeader header) w') as Hr.
  destruct (player_line _ _ _ _ _ _ _) as [[w2 effs] go]. cbn in *. rewrite Hr. unfold player_reg.
  match goal with H : leaving_line _ _ = true |- _ => rewrite H end. cbn.
  eapply gone_ext; [apply ForgetSlots_humans..|]. replace (h_steamid64 (ParseHeader header)) with sid by done. by apply ForgetHuman_gone.
Qed.

(** A player whose disconnect line was handled is not in the table of connected humans again
    until a connect line of theirs arrives, whatever else is logged for them (the bomb they dropped, chat,
    team switches) and whatever the engine reports. *)
Theorem no_ghost (sid t1 t2 : Z) (listener : bool) (line : string) (w : Host) (later : list Input) :
  sid <> 0 -> disconnects sid line = true -> Forall (fun i => connects sid i = false) later ->
  g_humans (reg (run (HandleLogLine t1 t2 listener line w).1 later)) !! sid = None.
Proof.
  intros Hs Hd Hl. apply (disconnect_gone sid t1 t2 listener line w Hs) in Hd. revert Hd.
  generalize (HandleLogLine t1 t2 listener line w).1. unfold run.
  induction Hl as [|i l Hi _ IH]; intros w' Hg; [apply Hg|]. cbn. by apply IH, feed_gone.
Qed.

Definition leave_line : string := qs "L 10/17/2026 - 12:00:00: `Sim<2><[U:1:7]><CT>` disconnected (reason `x`)".
Definition ghost_line : string := qs "L 10/17/2026 - 12:00:01: `Sim<2><[U:1:7]><CT>` triggered `Dropped_The_Bomb`".
Definition join_line : string := qs "L 10/17/2026 - 12:00:02: `Sim<3><[U:1:7]><>` entered the game".

Lemma no_ghost_witness :
  g_humans (reg (run (HandleLogLine 1 2 true leave_line NewHost).1
    [InLine 3 4 true ghost_line; InTeam 5 (kSteamBase + 7) 2 3])) !! (kSteamBase + 7) = None.
Proof. apply no_ghost; [done|vm_compute; reflexivity|repeat constructor]. Defined.

(** The connect line does bring the player back. *)
Example rejoin :
  is_Some (g_humans (reg (run NewHost [InLine 1 2 true leave_line; InLine 3 4 true ghost_line; InLine 5 6 true join_line])) !! (kSteamBase + 7)).
Proof. vm_compute. eauto. Qed.
