(* ===== verification/HeaderFacts.v ===== *)
(** * What the log listener reads from a line

    The header parsers on the documented header shape, the limits of a chat line's influence on the
    registry, the reconciliation of the team table with the engine, and the separation of the
    synthetic bot ids from SteamIDs. *)

From S2P Require Import Prelude CStr SlotRegistry RegistryFacts.

(** ** Cutting *)

Definition not_char (c d : ascii) : bool := negb (Ascii.eqb d c).

Lemma cut_app c p r : sforall (not_char c) p = true -> cut c (p +s+ String c r) = Some (p, r).
Proof.
  induction p as [|d p IH]; cbn; [by rewrite Ascii.eqb_refl|]. unfold not_char at 1. intros H.
  apply andb_prop in H as [Hd Hp]. apply negb_true_iff in Hd. rewrite Hd. by rewrite IH.
Qed.

Lemma cut_none c p : sforall (not_char c) p = true -> cut c p = None.
Proof.
  induction p as [|d p IH]; cbn; [done|]. unfold not_char at 1. intros H.
  apply andb_prop in H as [Hd Hp]. apply negb_true_iff in Hd. rewrite Hd. by rewrite IH.
Qed.

Lemma to_string_not_char c n : 0 <= n -> isdigit c = false -> sforall (not_char c) (to_string n) = true.
Proof.
  intros Hn Hc. destruct (to_string_digits n Hn) as (Hd & _). eapply sforall_impl; [|exact Hd].
  intros d Hdig. unfold not_char. apply negb_true_iff, Ascii.eqb_neq. congruence.
Qed.

(** ** The documented header: [name<userid><[U:1:account]><team>] *)

Definition steam3 (account : Z) : string := "[U:1:" +s+ to_string account +s+ "]".

Definition header_of (nm : string) (uid account : Z) (tm : string) : string :=
  nm +s+ String "<" (to_string uid +s+ String ">" (String "<" (steam3 account +s+ String ">" (String "<" (tm +s+ String ">" EmptyString))))).

Definition plain_name (nm : string) : bool := sforall (not_char "<") nm.

Lemma unbracket_app s : unbracket (String "[" (s +s+ "]")) = s.
Proof.
  unfold unbracket. assert (Hg : String.get (String.length (s +s+ "]")) (String "[" (s +s+ "]")) = Some "]"%char).
  { rewrite length_app_s. cbn. rewrite Nat.add_1_r. cbn. induction s as [|c s IH]; [done|]. cbn. exact IH. }
  rewrite Hg. cbn. rewrite length_app_s. cbn. rewrite Nat.add_sub. apply stake_app.
Qed.

Lemma steam3_parse account : 0 <= account < 4294967296 -> ParseSteamId64Loose (steam3 account) = kSteamBase + account.
Proof.
  intros Ha. unfold ParseSteamId64Loose, steam3.
  assert (E : ("[U:1:" +s+ to_string account +s+ "]") = String "[" (("U:1:" +s+ to_string account) +s+ "]")) by (by rewrite app_assoc_s).
  cbn [sempty sforall String.append isdigit]. cbn -[to_string Steam3ToSteam64 String.append].
  change (String "[" _) with ("[U:1:" +s+ to_string account +s+ "]"). rewrite E.
  unfold Steam3ToSteam64. rewrite unbracket_app. cbn -[to_string strtoull wrap64].
  destruct (to_string_digits account ltac:(lia)) as (_ & -> & _).
  rewrite strtoull_to_string by (unfold uint64_ok; lia). unfold wrap64, kSteamBase. apply Z.mod_small. lia.
Qed.

Lemma steam3_not_char c account :
  0 <= account -> isdigit c = false -> sforall (not_char c) "[U:1:]" = true -> sforall (not_char c) (steam3 account) = true.
Proof.
  intros Ha Hc H. unfold steam3. rewrite !sforall_app, (to_string_not_char c account Ha Hc).
  revert H. cbn. rewrite !andb_true_r. unfold not_char. intros H. split_bools.
  repeat match goal with H : Ascii.eqb _ c = false |- _ => rewrite H; clear H end. done.
Qed.

Lemma c_atoi_to_string n : int32_ok n -> c_atoi (to_string n) = n.
Proof.
  intros Hn. unfold c_atoi. rewrite <- (app_nil_s (to_string n)), scan_int_to_string by done. unfold int32_ok in Hn.
  rewrite clamp_id by lia. by apply to_int32_id.
Qed.

Lemma group_app p r rest : sforall (not_char "<") p = true -> sforall (not_char ">") r = true ->
  group (p +s+ String "<" (r +s+ String ">" rest)) = Some (r, rest).
Proof. intros Hp Hr. unfold group. rewrite cut_app by done. by rewrite cut_app. Qed.

Lemma group_next r rest : sforall (not_char ">") r = true -> group (String "<" (r +s+ String ">" rest)) = Some (r, rest).
Proof. intros Hr. by apply (group_app EmptyString). Qed.

(** On the documented header [name<userid><[U:1:account]><team>] (a name without an opening angle
    bracket) the listener reads the name, the userid and the SteamID64 of the account.  It never reads the
    team: [TeamFromHeader] asks for a fourth group and the team is the third, so the answer is -1 whatever
    the team is. *)
Theorem header_read (nm : string) (uid account : Z) (tm : string) :
  plain_name nm = true -> 0 <= uid <= 2147483647 -> 0 <= account < 4294967296 ->
  sforall (not_char ">") tm = true ->
  ParseHeader (header_of nm uid account tm) = {| h_name := nm; h_slot := uid; h_steamid64 := kSteamBase + account |} /\
  TeamFromHeader (header_of nm uid account tm) = -1.
Proof.
  intros Hn Hu Ha Ht. unfold header_of.
  pose proof (to_string_not_char ">" uid ltac:(lia) eq_refl) as Hud.
  pose proof (steam3_not_char ">" account ltac:(lia) eq_refl eq_refl) as Hsd.
  split.
  - unfold ParseHeader. rewrite cut_app by done. rewrite cut_app by done. rewrite group_next by done.
    rewrite c_atoi_to_string by (unfold int32_ok; lia). by rewrite steam3_parse.
  - unfold TeamFromHeader. cbn [team_group]. rewrite group_app by done. cbn [team_group]. rewrite group_next by done.
    cbn [team_group]. rewrite group_next by done. done.
Qed.

Lemma header_read_witness :
  ParseHeader (header_of "Sim" 2 7 "CT") = {| h_name := "Sim"; h_slot := 2; h_steamid64 := kSteamBase + 7 |} /\
  TeamFromHeader (header_of "Sim" 2 7 "CT") = -1.
Proof. apply header_read; [reflexivity|lia|lia|reflexivity]. Defined.

(** The groups are read from the left, so a name decides them: a player whose name is
    [x<userid><[U:1:account]>] speaks with the userid and the SteamID written in the name, whatever the
    server appends to it. *)
Theorem name_chooses_identity (x : string) (uid account : Z) (own : string) :
  plain_name x = true -> 0 <= uid <= 2147483647 -> 0 <= account < 4294967296 ->
  ParseHeader ((x +s+ String "<" (to_string uid +s+ String ">" (String "<" (steam3 account +s+ ">")))) +s+ own) =
    {| h_name := x; h_slot := uid; h_steamid64 := kSteamBase + account |}.
Proof.
  intros Hn Hu Ha. rewrite app_assoc_s, app_cons_s, app_assoc_s, !app_cons_s, app_assoc_s, app_cons_s.
  unfold ParseHeader. rewrite cut_app by done. rewrite cut_app by (by apply to_string_not_char; [lia|]).
  rewrite group_next by (by apply steam3_not_char; [lia|..]).
  rewrite c_atoi_to_string by (unfold int32_ok; lia). by rewrite steam3_parse.
Qed.

Lemma name_chooses_identity_witness :
  ParseHeader (("m" +s+ String "<" (to_string 2 +s+ String ">" (String "<" (steam3 7 +s+ ">")))) +s+ "<9><[U:1:99]><CT>") =
    {| h_name := "m"; h_slot := 2; h_steamid64 := kSteamBase + 7 |}.
Proof. apply name_chooses_identity; [reflexivity|lia|lia]. Defined.

(** The consequence for chat commands: account 99 runs a command as account 7. *)
Example forged_command :
  (HandleLogLine 1 2 true (qs "L 10/17/2026 - 12:00:00: `m<2><[U:1:7]><9><[U:1:99]><CT>` say `.ru`") NewHost).2 =
    [ObserveLifecycleLogLine (qs "L 10/17/2026 - 12:00:00: `m<2><[U:1:7]><9><[U:1:99]><CT>` say `.ru`");
     RouteChatCommand (kSteamBase + 7) "m" ".ru"].
Proof. vm_compute. reflexivity. Qed.

(** ** Chat *)

(** What a chat line leaves alone: the departed list, and the entry of every human who is not the speaker
    and does not hold the speaker's userid. *)
Definition chat_keeps (speaker uid : Z) (g g' : Registry) : Prop :=
  g_departed g' = g_departed g /\
  forall k h, g_humans g !! k = Some h -> k <> speaker -> uid < 0 \/ userid h <> uid -> g_humans g' !! k = Some h.

Lemma ObserveHuman_keeps now uid sid nm tm g : chat_keeps sid uid g (ObserveHuman now uid sid nm tm g).
Proof.
  unfold ObserveHuman. case_if; [done|]. split; [done|]. cbn. intros k h Hl Hk Hu. rewrite lookup_insert_ne by done.
  case_if; [|done]. split_bools. apply drop_userid_Some. split; [done|]. right. lia.
Qed.

Lemma player_reg_keeps now line tm h g : chat_keeps (h_steamid64 h) (h_slot h) g (player_reg now true line tm h g).
Proof.
  unfold player_reg, AcceptHumanLogLine. cbn. case_bool_decide; cbn; [done|].
  destruct (ObserveSlotIdentity_humans (h_slot h) (h_steamid64 h) (h_name h) g) as [E1 E2].
  destruct (ObserveHuman_keeps now (h_slot h) (h_steamid64 h) (h_name h) tm (ObserveSlotIdentity (h_slot h) (h_steamid64 h) (h_name h) g)) as [H1 H2].
  split; [congruence|]. rewrite E1 in H2. exact H2.
Qed.

(** A chat line cannot forge a log event: whatever its text, it neither marks anyone as departed
    nor lifts the mark, resets no team, and leaves every other player's entry as it was (only an entry that
    holds the speaker's own userid gives way to the speaker). *)
Theorem chat_forges_nothing (t1 t2 : Z) (listener : bool) (line : string) (w : Host) :
  is_chat line = true ->
  chat_keeps (line_steamid line) (h_slot (line_header line)) (reg w) (reg (HandleLogLine t1 t2 listener line w).1).
Proof.
  intros Hc. apply HandleLogLine_ind; rewrite ?Hc; try done.
  - intros uid nm tm g H. unfold ObserveBot. by case_if.
  - intros tm g _ [H1 H2]. destruct (player_reg_keeps t2 line tm (line_header line) g) as [H3 H4].
    split; [congruence|]. intros k h Hl Hk Hu. apply H4; [|done..]. by apply H2.
Qed.

Definition forged_chat : string :=
  qs "L 10/17/2026 - 12:00:00: `mal<9><[U:1:99]><CT>` say `x` disconnected (reason `y`) Loading map `de_dust2`".

Lemma chat_forges_nothing_witness :
  chat_keeps (line_steamid forged_chat) (h_slot (line_header forged_chat)) EmptyRegistry
    (reg (HandleLogLine 1 2 true forged_chat NewHost).1).
Proof. apply (chat_forges_nothing 1 2 true forged_chat NewHost). reflexivity. Defined.

(** ** Reconciliation with the engine *)

(** What the engine says of a human, when it says something usable. *)
Definition engine_says (f : Z -> Z) (sl tm : Z) : Z := if (f sl <? 0) || (3 <? f sl) then tm else f sl.
Definition stale (f : Z -> Z) (x : Z * (Z * Z)) : bool := negb (engine_says f x.2.1 x.2.2 =? x.2.2).

(** Every later clock reading is at or after the last team observation. *)
Definition fresh (clock : nat -> Z) (h : HumanIdentity) : Prop := teamSource h = TsNone \/ forall i, teamAt h <= clock i.

Lemma ApplyTeam_fresh clock i h tm src :
  0 <= tm -> fresh clock h ->
  team (ApplyTeamLocked h tm src (clock i)) = tm /\ slot (ApplyTeamLocked h tm src (clock i)) = slot h.
Proof.
  intros Ht Hf. unfold ApplyTeamLocked. case_if; split_bools; [lia|]. case_if; [|done]. split_bools. exfalso.
  destruct Hf as [Hf|Hf]; [|specialize (Hf i); lia]. by rewrite bool_decide_eq_true_2 in *.
Qed.

(** The loop over a snapshot whose entries are still in the table. *)
Lemma reconcile_fold f clock l : forall g n i,
  NoDup l.*1 ->
  (forall sid sl tm, (sid, (sl, tm)) ∈ l -> sid <> 0 /\ 0 <= sl /\
     exists h, g_humans g !! sid = Some h /\ slot h = sl /\ team h = tm /\ fresh clock h) ->
  let '(g', n', _) := foldl (reconcile_one f clock) (g, n, i) l in
  n' = n + zlen (filter (fun x => stale f x = true) l) /\
  (forall k, k ∉ l.*1 -> g_humans g' !! k = g_humans g !! k) /\
  (forall sid sl tm, (sid, (sl, tm)) ∈ l ->
     exists h', g_humans g' !! sid = Some h' /\ slot h' = sl /\ team h' = engine_says f sl tm).
Proof.
  induction l as [|[sid [sl tm]] l IH]; intros g n i Hnd Hin.
  { cbn. rewrite zlen_nil. split_and!; [lia|done|set_solver]. }
  cbn [fmap list_fmap fst] in Hnd. apply NoDup_cons in Hnd as [Hni Hnd].
  destruct (Hin sid sl tm ltac:(left)) as (Hz & Hsl & h & Hl & Es & Et & Hf).
  assert (Hstep : exists g1 n1 i1 h1, reconcile_one f clock (g, n, i) (sid, (sl, tm)) = (g1, n1, i1) /\
    n1 = n + (if stale f (sid, (sl, tm)) then 1 else 0) /\ g_humans g1 = <[sid := h1]> (g_humans g) /\
    slot h1 = sl /\ team h1 = engine_says f sl tm).
  { unfold reconcile_one, stale, engine_says. cbn [fst snd]. destruct ((f sl <? 0) || (3 <? f sl)) eqn:Eb; cbn [orb].
    - exists g, n, i, h. rewrite Z.eqb_refl, insert_id by done. split_and!; try done. cbn. lia.
    - destruct (f sl =? tm) eqn:Ee; cbn [negb].
      + exists g, n, i, h. rewrite insert_id by done. split_bools. split_and!; try done; lia.
      + split_bools. unfold ObserveHumanTeamFromEvent. replace (sid =? 0) with false by (symmetry; by apply Z.eqb_neq).
        rewrite Hl. replace (0 <=? sl) with true by (symmetry; by apply Z.leb_le).
        destruct (ApplyTeam_fresh clock i (set_slot h sl) (f sl) TsEvent) as [E1 E2]; [lia|done|].
        eexists _, _, _, _. split; [reflexivity|]. split_and!; try done; lia. }
  destruct Hstep as (g1 & n1 & i1 & h1 & E1 & En & Em & Es1 & Et1). cbn [foldl]. rewrite E1.
  specialize (IH g1 n1 i1 Hnd). destruct (foldl (reconcile_one f clock) (g1, n1, i1) l) as [[g' n'] i'].
  destruct IH as (H1 & H2 & H3).
  { intros s2 sl2 tm2 H2. rewrite Em. assert (s2 <> sid) as Hne.
    { intros ->. apply Hni, list_elem_of_fmap. by exists (sid, (sl2, tm2)). }
    rewrite lookup_insert_ne by done. by apply Hin; right. }
  split_and!.
  - rewrite H1, En, filter_cons. destruct (stale f (sid, (sl, tm))).
    + rewrite decide_True by done. rewrite zlen_cons. lia.
    + rewrite decide_False by done. lia.
  - intros k Hk. cbn in Hk. apply not_elem_of_cons in Hk as [Hne Hk]. rewrite H2, Em by done. by rewrite lookup_insert_ne.
  - intros s2 sl2 tm2 [Heq|H]%elem_of_cons; [|by apply H3]. injection Heq as -> -> ->.
    exists h1. rewrite H2, Em by done. by rewrite lookup_insert_eq.
Qed.

Lemma seen_humans_in g sid sl tm :
  (sid, (sl, tm)) ∈ seen_humans g <-> exists h, g_humans g !! sid = Some h /\ 0 <= slot h /\ slot h = sl /\ team h = tm.
Proof.
  unfold seen_humans. rewrite list_elem_of_omap. split.
  - intros ([k h] & Hin & E). cbn in E. case_if; [|done]. split_bools. injection E as -> <- <-.
    apply elem_of_map_to_list in Hin. eauto.
  - intros (h & Hl & Hs & <- & <-). exists (sid, h). split; [by apply elem_of_map_to_list|]. cbn.
    by replace (0 <=? slot h) with true by (symmetry; by apply Z.leb_le).
Qed.

Lemma omap_keys_NoDup {K A B} (F : K * A -> option (K * B)) (l : list (K * A)) :
  (forall x y, F x = Some y -> y.1 = x.1) -> NoDup l.*1 -> NoDup (omap F l).*1.
Proof.
  intros HF. induction l as [|x l IH]; [done|]. cbn [fmap list_fmap]. intros [Hn Hd]%NoDup_cons. cbn.
  destruct (F x) as [y|] eqn:E; [|by apply IH]. cbn. apply NoDup_cons. split; [|by apply IH].
  rewrite (HF _ _ E). intros (z & Ez & Hz)%list_elem_of_fmap. apply list_elem_of_omap in Hz as (x' & Hx' & E').
  apply Hn, list_elem_of_fmap. exists x'. split; [|done]. rewrite Ez. by apply HF.
Qed.

Lemma seen_humans_NoDup g : NoDup (seen_humans g).*1.
Proof.
  unfold seen_humans. apply omap_keys_NoDup; [|apply NoDup_fst_map_to_list].
  intros [k h] y E. cbn in E. case_if; [|done]. by injection E as <-.
Qed.

(** After the reconciliation the table agrees with the engine: every human with an engine slot
    has the team the engine gives for that slot when that is a team (0 to 3) and keeps theirs otherwise,
    humans without an engine slot are untouched, and the result counts the entries that were off.  The
    clock is steady: no write is older than an observation already in the table. *)
Theorem reconcile_agrees (f : Z -> Z) (clock : nat -> Z) (g : Registry) :
  reg_ok g -> (forall k h, g_humans g !! k = Some h -> fresh clock h) ->
  let '(g', n) := ReconcileHumanTeams (Some f) clock g in
  n = zlen (filter (fun x => stale f x = true) (seen_humans g)) /\
  (forall k h, g_humans g !! k = Some h -> 0 <= slot h ->
     exists h', g_humans g' !! k = Some h' /\ slot h' = slot h /\ team h' = engine_says f (slot h) (team h)) /\
  (forall k, (forall h, g_humans g !! k = Some h -> slot h < 0) -> g_humans g' !! k = g_humans g !! k).
Proof.
  intros Hok Hf. unfold ReconcileHumanTeams.
  pose proof (reconcile_fold f clock (seen_humans g) g 0 O (seen_humans_NoDup g)) as H.
  destruct (foldl _ _ _) as [[g' n] i]. destruct H as (H1 & H2 & H3).
  { intros sid sl tm (h & Hl & Hs & <- & <-)%seen_humans_in. destruct (ok_key g Hok sid h Hl) as (? & _).
    split_and!; [done..|]. exists h. eauto. }
  split_and!; [lia| |].
  - intros k h Hl Hs. apply H3. apply seen_humans_in. eauto.
  - intros k Hk. apply H2. intros ([k' [sl tm]] & -> & Hin)%list_elem_of_fmap.
    apply seen_humans_in in Hin as (h & Hl & Hs & _). specialize (Hk h Hl). lia.
Qed.

(** One player on slot 4 whose team was reset by a map load; the engine has them on the CT side. *)
Definition after_map_load : Registry :=
  ResetHumanTeams 9 (ObserveHumanSlot 7 4 (ObserveHuman 5 2 7 "Sim" 3 EmptyRegistry)).

Lemma reconcile_agrees_witness :
  (ReconcileHumanTeams (Some (fun _ => 3)) (fun i => 10 + Z.of_nat i) after_map_load).2 = 1 /\
  exists h', g_humans (ReconcileHumanTeams (Some (fun _ => 3)) (fun i => 10 + Z.of_nat i) after_map_load).1 !! 7 = Some h' /\
    slot h' = 4 /\ team h' = 3.
Proof.
  pose proof (reconcile_agrees (fun _ => 3) (fun i => 10 + Z.of_nat i) after_map_load) as H.
  destruct (ReconcileHumanTeams (Some (fun _ => 3)) (fun i => 10 + Z.of_nat i) after_map_load) as [g' n].
  destruct H as (H1 & H2 & _).
  - apply ResetHumanTeams_ok, ObserveHumanSlot_ok, ObserveHuman_ok; [set_solver|apply reg_ok_empty].
  - intros k h Hl. left. cbn in Hl. rewrite lookup_fmap in Hl. apply fmap_Some in Hl as (x & _ & ->). reflexivity.
  - split; [exact H1|]. exact (H2 7 {| userid := 2; slot := 4; steamid64 := 7; name := "Sim"; team := 0; teamSource := TsNone; teamAt := 9 |}
      ltac:(vm_compute; reflexivity) ltac:(cbn; lia)).
Defined.

(** ** Bot ids *)

Lemma land_top id : 0 <= id -> Z.land id 0xFFFF000000000000 = Z.shiftl (Z.land (Z.shiftr id 48) 65535) 48.
Proof.
  intros Hi. change 0xFFFF000000000000 with (Z.shiftl (Z.ones 16) 48). change 65535 with (Z.ones 16).
  apply Z.bits_inj'. intros n Hn. rewrite Z.land_spec. destruct (Z.lt_ge_cases n 48) as [Hlt|Hge].
  - rewrite !Z.shiftl_spec_low by done. by rewrite andb_false_r.
  - rewrite !Z.shiftl_spec by lia. rewrite Z.land_spec, Z.shiftr_spec by lia. by replace (n - 48 + 48) with n by lia.
Qed.

Lemma IsDevBotId_iff id : uint64_ok id -> IsDevBotId id = true <-> id / 2 ^ 48 = 45232.
Proof.
  unfold uint64_ok, IsDevBotId. intros Hi. rewrite land_top by lia. rewrite Z.shiftr_div_pow2 by lia.
  change 65535 with (Z.ones 16). rewrite Z.land_ones, Z.mod_small by first [lia | split; [apply Z.div_pos; lia|apply Z.div_lt_upper_bound; lia]].
  rewrite Z.shiftl_mul_pow2 by lia. rewrite Z.eqb_eq. unfold kDevBotIdBase. change (0xB0B0000000000000) with (45232 * 2 ^ 48).
  split; intros H; [|by rewrite H]. apply Z.mul_cancel_r in H; [done|lia].
Qed.

Lemma DevBotId_value uid : DevBotIdForUserid uid = kDevBotIdBase + to_uint32 uid.
Proof.
  unfold DevBotIdForUserid. assert (0 <= to_uint32 uid < 2 ^ 32) as Hu by (apply Z.mod_pos_bound; lia).
  rewrite Z.add_nocarry_lxor, Z.lxor_lor; try done; change kDevBotIdBase with (Z.shiftl 45232 48);
    apply Z.bits_inj'; intros n Hn; rewrite Z.land_spec, Z.bits_0;
    (destruct (Z.lt_ge_cases n 48); [by rewrite Z.shiftl_spec_low|]);
    (rewrite (Z.bits_above_log2 (to_uint32 uid)); [by rewrite andb_false_r|lia|]);
    (destruct (decide (to_uint32 uid = 0)) as [-> | Hne]; [cbn; lia|]); apply Z.log2_lt_pow2; try lia;
    apply Z.lt_le_trans with (2 ^ 32); try lia; apply Z.pow_le_mono_r; lia.
Qed.

(** A bot's synthetic id is recognised as one, differs from every other bot's, and is never the SteamID64
    of an individual account. *)
Lemma dev_bot_ids_apart uid :
  int32_ok uid ->
  IsDevBotId (DevBotIdForUserid uid) = true /\
  (forall uid', int32_ok uid' -> DevBotIdForUserid uid' = DevBotIdForUserid uid -> uid' = uid) /\
  (forall account, 0 <= account < 4294967296 -> IsDevBotId (kSteamBase + account) = false).
Proof.
  unfold int32_ok. intros Hu. assert (forall u, 0 <= to_uint32 u < 4294967296) as Hr by (intros; apply Z.mod_pos_bound; lia).
  split_and!.
  - apply IsDevBotId_iff; rewrite DevBotId_value; specialize (Hr uid); unfold uint64_ok, kDevBotIdBase; [lia|].
    change (0xB0B0000000000000) with (45232 * 2 ^ 48). rewrite Z.div_add_l, Z.div_small by lia. lia.
  - intros u' Hu'. rewrite !DevBotId_value. unfold to_uint32. intros E.
    assert (u' mod 4294967296 = uid mod 4294967296) as Em by lia.
    pose proof (Z.div_mod u' 4294967296). pose proof (Z.div_mod uid 4294967296). lia.
  - intros a Ha. apply not_true_is_false. intros H. apply IsDevBotId_iff in H; [|unfold uint64_ok, kSteamBase; lia].
    unfold kSteamBase in H. assert ((76561197960265728 + a) / 2 ^ 48 <= 300); [|lia]. apply Z.lt_succ_r, Z.div_lt_upper_bound; lia.
Qed.
