(* ===== verification/RosterNames.v ===== *)
(** * Roster display names

    [plugins/match/readyup/roster_names_rules.{h,cpp}]: the in-game name of a roster player.  Theorems: a
    sanitized name is short, valid UTF-8 and harmless in server log lines, and sanitizing is idempotent;
    a player's own name comes back when the roster name no longer applies. *)

From S2P Require Import Prelude CStr SlotRegistry RegistryFacts HeaderFacts.

Module RosterNames.

Definition kMaxNameBytes : nat := 127.

(** ** UTF-8 *)

(** [b(k)]. *)
Definition byte_at (s : string) (k : nat) : Z := match String.get k s with Some c => code c | None => 0 end.

(** The length of a sequence that starts with the byte, and the bounds of its second byte. *)
Definition lead (c : Z) : option (nat * Z * Z) :=
  if (0xC2 <=? c) && (c <=? 0xDF) then Some (2%nat, 0x80, 0xBF)
  else if c =? 0xE0 then Some (3%nat, 0xA0, 0xBF)
  else if c =? 0xED then Some (3%nat, 0x80, 0x9F)
  else if (0xE1 <=? c) && (c <=? 0xEF) then Some (3%nat, 0x80, 0xBF)
  else if c =? 0xF0 then Some (4%nat, 0x90, 0xBF)
  else if (0xF1 <=? c) && (c <=? 0xF3) then Some (4%nat, 0x80, 0xBF)
  else if c =? 0xF4 then Some (4%nat, 0x80, 0x8F)
  else None.

(** At the start of the text, which is not empty. *)
Definition Utf8Len (s : string) : nat :=
  let c := byte_at s 0 in
  if c <? 0x80 then 1
  else
    match lead c with
    | None => O
    | Some (n, lo, hi) =>
        if (String.length s <? n)%nat then O
        else if (byte_at s 1 <? lo) || (hi <? byte_at s 1) then O
        else if existsb (fun k => (byte_at s k <? 0x80) || (0xBF <? byte_at s k)) (seq 2 (n - 2)) then O
        else n
    end.

(** ** Sanitizing *)

Definition is_blank (c : ascii) : bool := Ascii.eqb c " " || Ascii.eqb c tab || Ascii.eqb c newline || Ascii.eqb c creturn.
Definition is_dropped (c : ascii) : bool :=
  (code c <? 0x20) || (code c =? 0x7F) || Ascii.eqb c dquote || Ascii.eqb c "<" || Ascii.eqb c ">".

(** [pendingSpace] and the piece. *)
Definition piece (pendingSpace : bool) (t : string) : string := if pendingSpace then String " " t else t.

(** The loop of [Sanitize] on the rest of the text; [break] returns [out]. *)
Fixpoint sanitize_loop (fuel : nat) (maxBytes : nat) (out : string) (pendingSpace : bool) (s : string) : string :=
  match fuel, s with
  | S fuel, String c r =>
      match Utf8Len s with
      | O => sanitize_loop fuel maxBytes out pendingSpace r
      | 1%nat =>
          if is_blank c then sanitize_loop fuel maxBytes out (negb (sempty out)) r
          else if is_dropped c then sanitize_loop fuel maxBytes out pendingSpace r
          else
            let need := ((if pendingSpace then 1 else 0) + 1)%nat in
            if (maxBytes <? String.length out + need)%nat then out
            else sanitize_loop fuel maxBytes (out +s+ piece pendingSpace (str1 c)) false r
      | n =>
          let need := ((if pendingSpace then 1 else 0) + n)%nat in
          if (maxBytes <? String.length out + need)%nat then out
          else sanitize_loop fuel maxBytes (out +s+ piece pendingSpace (stake n s)) false (sdrop n s)
      end
  | _, _ => out
  end.

(** One turn per byte is enough: every turn consumes one. *)
Definition Sanitize (maxBytes : nat) (s : string) : string := sanitize_loop (String.length s) maxBytes EmptyString false s.

(** ** The name a player should have *)

Definition Enabled (matchRule : Z) (serverSetting matchHasNames : bool) : bool :=
  if negb matchHasNames then false else if 0 <=? matchRule then negb (matchRule =? 0) else serverSetting.

Definition DesiredName (steamid64 : Z) (names : gmap Z string) : option string :=
  if steamid64 =? 0 then None
  else
    it ← names !! steamid64;
    let s := Sanitize kMaxNameBytes it in
    if sempty s then None else Some s.

Inductive Action := ActNone | ActWrite | ActRestore.

Record PlayerState := { written : string; original : string }.

(** The action, [*st] and [*out] for [Write] and [Restore]. *)
Definition Decide (current : string) (desired : option string) (st : PlayerState) : Action * PlayerState * string :=
  match desired with
  | Some d =>
      if current =s d then (ActNone, {| written := d; original := original st |}, EmptyString)
      else
        let orig := if negb (current =s written st) && negb (sempty current) then current else original st in
        (ActWrite, {| written := d; original := orig |}, d)
  | None =>
      if sempty (written st) then (ActNone, st, EmptyString)
      else
        let ours := current =s written st in
        let st' := {| written := EmptyString; original := original st |} in
        if negb ours || sempty (original st) || (original st =s current) then (ActNone, st', EmptyString)
        else (ActRestore, st', original st)
  end.

Example sanitize_runs :
  Sanitize kMaxNameBytes (qs "  a<b>  `c`	 é  ") = "ab c é" /\ Sanitize 3 "ab é" = "ab" /\ Sanitize 127 (str1 (chr 0xC3)) = EmptyString.
Proof. vm_compute. done. Qed.

(** ** Sequences are read from their own bytes *)

Lemma lead_len c n lo hi : lead c = Some (n, lo, hi) -> (2 <= n <= 4)%nat /\ 0x80 <= lo /\ hi <= 0xBF.
Proof. unfold lead. repeat case_if; intros; simplify_eq; lia. Qed.

Lemma Utf8Len_cases s : Utf8Len s = O \/ (1 <= Utf8Len s <= 4)%nat.
Proof. unfold Utf8Len. case_if; [lia|]. destruct (lead _) as [[[n lo] hi]|] eqn:E; [|lia]. apply lead_len in E. repeat case_if; lia. Qed.

Lemma Utf8Len_le s : s <> EmptyString -> (Utf8Len s <= String.length s)%nat.
Proof.
  intros Hs. unfold Utf8Len. case_if; [destruct s; cbn; [done|lia]|]. destruct (lead _) as [[[n lo] hi]|]; [|lia].
  destruct (Nat.ltb_spec (String.length s) n); [lia|]. repeat case_if; lia.
Qed.

Lemma get_stake n : forall s k, (k < n)%nat -> String.get k (stake n s) = String.get k s.
Proof. induction n as [|n IH]; intros [|c s] [|k] H; cbn; try done; [lia..|]. apply IH. lia. Qed.

Lemma stake_full n : forall s, (n <= String.length s)%nat -> String.length (stake n s) = n.
Proof. induction n as [|n IH]; intros [|c s] H; cbn in *; try lia. rewrite IH; lia. Qed.

Lemma stake_stake n : forall s, stake n (stake n s) = stake n s.
Proof. induction n as [|n IH]; intros [|c s]; cbn; try done. by rewrite IH. Qed.

(** The length depends on the bytes of the sequence only. *)
Lemma Utf8Len_local s s' n :
  Utf8Len s = n -> n <> O -> s <> EmptyString -> (n <= String.length s')%nat -> stake n s' = stake n s -> Utf8Len s' = n.
Proof.
  intros Hn H0 Hs Hl Ht.
  assert (forall k, (k < n)%nat -> byte_at s' k = byte_at s k) as Hb.
  { intros k Hk. unfold byte_at. by rewrite <- (get_stake n s'), <- (get_stake n s), Ht. }
  revert Hn. unfold Utf8Len. rewrite (Hb O) by lia. case_if; [done|]. destruct (lead _) as [[[m lo] hi]|] eqn:E; [|by intros ?; subst].
  apply lead_len in E as [Hm _]. destruct (Nat.ltb_spec (String.length s) m); [by intros ?; subst|].
  destruct (_ || _) eqn:E1; [by intros ?; subst|]. destruct (existsb _ _) eqn:E2; [by intros ?; subst|]. intros ->.
  destruct (Nat.ltb_spec (String.length s') n); [lia|]. rewrite (Hb 1%nat) by lia. rewrite E1.
  replace (existsb _ _) with false; [done|]. rewrite <- E2. symmetry. clear E2.
  assert (forall l, (forall k, k ∈ l -> (k < n)%nat) ->
    existsb (fun k => (byte_at s' k <? 128) || (191 <? byte_at s' k)) l = existsb (fun k => (byte_at s k <? 128) || (191 <? byte_at s k)) l) as Hx.
  { induction l as [|k l IH]; intros Hk; cbn; [done|]. rewrite (Hb k) by (apply Hk; left). by rewrite IH by (intros; apply Hk; by right). }
  apply Hx. intros k Hk%elem_of_seq. lia.
Qed.

(** ** Sanitized names as sequences of characters *)

(** One printable character that may stay, as its bytes. *)
Definition tok (t : string) : bool :=
  negb (sempty t) && (Utf8Len t =? String.length t)%nat && match t with String c EmptyString => negb (is_blank c) && negb (is_dropped c) | _ => true end.

(** Characters, each with the single space before it or not. *)
Definition render (ts : list (bool * string)) : string := foldr (fun p acc => piece p.1 p.2 +s+ acc) EmptyString ts.
Definition starts_plain (ts : list (bool * string)) : bool := match ts with (true, _) :: _ => false | _ => true end.
Definition toks (ts : list (bool * string)) : bool := forallb (fun p => tok p.2) ts.

Lemma render_app a b : render (a ++ b) = render a +s+ render b.
Proof. unfold render. induction a as [|p a IH]; cbn; [done|]. by rewrite IH, app_assoc_s. Qed.

Lemma render_empty ts : toks ts = true -> render ts = EmptyString -> ts = [].
Proof. destruct ts as [|[[] t] ts]; [done|done|]. cbn. destruct t; [done|]. done. Qed.

Lemma piece_length b t : String.length (piece b t) = ((if b then 1 else 0) + String.length t)%nat.
Proof. by destruct b. Qed.

(** The loop keeps the shape, and the limit. *)
Lemma loop_renders maxBytes : forall fuel s out pend ts,
  out = render ts -> toks ts = true -> starts_plain ts = true -> (pend = true -> ts <> []) -> (String.length out <= maxBytes)%nat ->
  exists ts', sanitize_loop fuel maxBytes out pend s = render ts' /\ toks ts' = true /\ starts_plain ts' = true /\ (String.length (render ts') <= maxBytes)%nat.
Proof.
  assert (forall ts pend t, toks ts = true -> starts_plain ts = true -> (pend = true -> ts <> []) -> tok t = true ->
    toks (ts ++ [(pend, t)]) = true /\ starts_plain (ts ++ [(pend, t)]) = true /\ ts ++ [(pend, t)] <> []) as Hsnoc.
  { intros ts pend t H1 H2 H3 Ht. split_and!; [|destruct ts as [|[]]; [destruct pend; [by destruct H3|done]|done]|by destruct ts].
    unfold toks in *. rewrite forallb_app, H1. cbn. by rewrite Ht. }
  induction fuel as [|fuel IH]; intros s out pend ts Ho Ht Hp Hpend Hl; [subst; eauto|]. destruct s as [|c r]; [subst; eauto|].
  cbn [sanitize_loop]. remember (String c r) as s eqn:Es.
  destruct (Utf8Len s) as [|[|n]] eqn:En; [by eapply IH| |].
  - destruct (is_blank c) eqn:Eb; [eapply IH; [done..| |done]; intros Hne ->; by subst|]. destruct (is_dropped c) eqn:Ed; [by eapply IH|].
    destruct (Nat.ltb_spec maxBytes (String.length out + ((if pend then 1 else 0) + 1))); [subst; eauto|].
    assert (tok (str1 c) = true) as Hc.
    { unfold tok, str1. rewrite Eb, Ed. cbn [sempty negb andb]. rewrite andb_true_r. apply Nat.eqb_eq.
      apply (Utf8Len_local s); [done|done|by subst|cbn; lia|by subst]. }
    destruct (Hsnoc ts pend (str1 c) Ht Hp Hpend Hc) as (H1 & H2 & H3).
    eapply (IH r _ false (ts ++ [(pend, str1 c)])); [|done..|rewrite length_app_s, piece_length; cbn; lia].
    subst. rewrite render_app. cbn. by rewrite app_nil_s.
  - pose proof (Utf8Len_le s ltac:(by subst)) as Hle. rewrite En in Hle.
    destruct (Nat.ltb_spec maxBytes (String.length out + ((if pend then 1 else 0) + S (S n)))); [subst; eauto|].
    pose proof (stake_full (S (S n)) s Hle) as Hlen.
    assert (tok (stake (S (S n)) s) = true) as Hc.
    { unfold tok. assert (stake (S (S n)) s <> EmptyString) as Hne by (intros E; by rewrite E in Hlen).
      rewrite (Utf8Len_local s _ (S (S n)) En), Hlen, Nat.eqb_refl.
      - destruct (stake _ s) as [|x [|y t]] eqn:E; [done| |done]. by cbn in Hlen.
      - done.
      - by subst.
      - lia.
      - apply stake_stake. }
    destruct (Hsnoc ts pend _ Ht Hp Hpend Hc) as (H1 & H2 & H3).
    eapply (IH _ _ false (ts ++ [(pend, stake (S (S n)) s)])); [|done..|rewrite length_app_s, piece_length; lia].
    subst. rewrite render_app. cbn. by rewrite app_nil_s.
Qed.

(** One turn of the loop on a character that may stay. *)
Lemma loop_tok maxBytes fuel out pend t r :
  tok t = true -> (String.length (out +s+ piece pend t) <= maxBytes)%nat ->
  sanitize_loop (S fuel) maxBytes out pend (t +s+ r) = sanitize_loop fuel maxBytes (out +s+ piece pend t) false r.
Proof.
  intros Ht Hl. rewrite length_app_s, piece_length in Hl. unfold tok in Ht. destruct t as [|c t']; [done|].
  cbn [sempty negb andb] in Ht. apply andb_prop in Ht as [Ht Hc]. apply Nat.eqb_eq in Ht. remember (String c t') as t eqn:Et.
  assert (Utf8Len (t +s+ r) = String.length t) as Hu.
  { apply (Utf8Len_local t); [done|by subst|by subst|rewrite length_app_s; lia|]. rewrite stake_app. rewrite <- (app_nil_s t) at 3. by rewrite stake_app. }
  assert (t +s+ r = String c (t' +s+ r)) as Etr by by subst. rewrite Etr at 1. cbn [sanitize_loop]. rewrite <- Etr, Hu.
  destruct (String.length t) as [|[|n]] eqn:En; [by subst| |].
  - assert (t' = EmptyString) as -> by (subst t; cbn in En; by destruct t'). subst t. apply andb_prop in Hc as [Hb Hd].
    apply negb_true_iff in Hb, Hd. rewrite Hb, Hd. destruct (Nat.ltb_spec maxBytes (String.length out + ((if pend then 1 else 0) + 1))); [lia|]. done.
  - destruct (Nat.ltb_spec maxBytes (String.length out + ((if pend then 1 else 0) + S (S n)))); [lia|]. rewrite <- En. by rewrite stake_app, sdrop_app.
Qed.

(** A rendered name passes through unchanged. *)
Lemma loop_fixed maxBytes ts : forall fuel out,
  toks ts = true -> (out = EmptyString -> starts_plain ts = true) -> (String.length (out +s+ render ts) <= maxBytes)%nat ->
  (String.length (render ts) <= fuel)%nat -> sanitize_loop fuel maxBytes out false (render ts) = out +s+ render ts.
Proof.
  induction ts as [|[b t] ts IH]; intros fuel out Ht Hp Hl Hf; [destruct fuel; cbn; by rewrite app_nil_s|].
  apply andb_prop in Ht as [Ht1 Ht]. cbn [snd] in Ht1. assert (1 <= String.length t)%nat as Ht2 by (destruct t; [done|cbn; lia]).
  change (render ((b, t) :: ts)) with (piece b t +s+ render ts) in *. rewrite <- app_assoc_s in *.
  assert (String.length (out +s+ piece b t) <= maxBytes)%nat as Hl' by (rewrite length_app_s in Hl; lia).
  assert (out +s+ piece b t = EmptyString -> starts_plain ts = true) as Hp'.
  { intros E. assert (String.length (out +s+ piece b t) = O) as E' by by rewrite E. rewrite length_app_s, piece_length in E'. lia. }
  rewrite length_app_s, piece_length in Hf. destruct b.
  - cbn [piece]. rewrite app_cons_s. destruct fuel as [|[|fuel]]; [lia..|].
    assert (forall u, sanitize_loop (S (S fuel)) maxBytes out false (String " " u) = sanitize_loop (S fuel) maxBytes out (negb (sempty out)) u) as -> by done.
    destruct (sempty out) eqn:Eo; [by destruct out; [specialize (Hp eq_refl)|]|]. cbn [negb].
    rewrite loop_tok by done. apply IH; try done; lia.
  - cbn [piece]. destruct fuel as [|fuel]; [lia|]. rewrite (loop_tok _ _ _ false) by done. apply IH; try done. lia.
Qed.

Definition kept (c : ascii) : bool := negb (is_dropped c).

Lemma sforall_bytes f s : (forall k c, String.get k s = Some c -> f c = true) -> sforall f s = true.
Proof.
  induction s as [|c s IH]; intros H; cbn; [done|]. rewrite (H O c) by done. cbn. apply IH. intros k d Hk. by apply (H (S k) d).
Qed.

Lemma get_length s : forall k c, String.get k s = Some c -> (k < String.length s)%nat.
Proof. induction s as [|d s IH]; intros [|k] c; cbn; try done; [lia|]. intros H%IH. lia. Qed.

(** The bytes of a longer sequence are not ASCII. *)
Lemma high_bytes t k : Utf8Len t = String.length t -> (2 <= String.length t)%nat -> (k < String.length t)%nat -> 0x80 <= byte_at t k.
Proof.
  intros Hu H2 Hk. revert Hu. unfold Utf8Len. destruct (Z.ltb_spec (byte_at t 0) 0x80) as [Ha|Ha]; [lia|].
  destruct (lead _) as [[[n lo] hi]|] eqn:E; [|lia]. apply lead_len in E as (_ & Hlo & _). case_if; [lia|]. destruct (_ || _) eqn:E1; [lia|].
  destruct (existsb _ _) eqn:E2; [lia|]. intros Hn. destruct k as [|[|k]]; [done|lia|].
  apply not_true_iff_false in E2. destruct (Z.lt_ge_cases (byte_at t (S (S k))) 0x80) as [Hlt|]; [|done]. destruct E2. apply existsb_exists.
  exists (S (S k)). split; [apply in_seq; lia|]. apply orb_true_iff. left. lia.
Qed.

Lemma tok_kept t : tok t = true -> sforall kept t = true.
Proof.
  intros Ht. unfold tok in Ht. apply andb_prop in Ht as [Ht Hc]. apply andb_prop in Ht as [_ Ht]. apply Nat.eqb_eq in Ht.
  destruct t as [|c [|d t]]; [done|cbn; unfold kept; by apply andb_prop in Hc as [_ ->]|]. clear Hc. remember (String c (String d t)) as u eqn:Eu.
  apply sforall_bytes. intros k x Hx. pose proof (high_bytes u k Ht ltac:(subst; cbn; lia) (get_length _ _ _ Hx)) as Hb. unfold byte_at in Hb. rewrite Hx in Hb.
  unfold kept, is_dropped. rewrite !ascii_eqb_code. code_consts. lia.
Qed.

Lemma render_kept ts : toks ts = true -> sforall kept (render ts) = true.
Proof.
  induction ts as [|[b t] ts IH]; [done|]. intros [Ht Hts]%andb_prop. change (render ((b, t) :: ts)) with (piece b t +s+ render ts).
  rewrite sforall_app, IH by done. rewrite andb_true_r. destruct b; cbn [piece sforall]; rewrite tok_kept by done; done.
Qed.

(** A name made safe for the controller: it has at most the given number of bytes, none of its
    bytes is a control byte, DEL, a double quote or an angle bracket (so a log line that quotes the player
    still splits at the right places), and it is stable: sanitizing it again changes nothing, so a written
    name is recognised on the next check. *)
Theorem sanitize_clean (maxBytes : nat) (s : string) :
  let n := Sanitize maxBytes s in
  (String.length n <= maxBytes)%nat /\ sforall kept n = true /\ plain_name n = true /\ Sanitize maxBytes n = n.
Proof.
  cbn zeta. destruct (loop_renders maxBytes (String.length s) s EmptyString false []) as (ts & E & Ht & Hp & Hl); [done..|cbn; lia|].
  unfold Sanitize at 1 2 3 5 6. rewrite E. pose proof (render_kept ts Ht) as Hk. split_and!; [done|done| |].
  - revert Hk. apply sforall_impl. intros c. unfold kept, is_dropped, not_char. destruct (Ascii.eqb c "<"); [|done]. by rewrite orb_true_r.
  - unfold Sanitize. by rewrite loop_fixed.
Qed.

(** ** The own name comes back *)

(** What happens to a connected player: the engine sets the controller's name (a Steam name), or a check
    runs with the roster name that applies now. *)
Inductive event := Engine (nm : string) | Tick (desired : option string).

(** The controller's name, the player's own name and the memory between checks. *)
Record world := { shown : string; own : string; st : PlayerState }.

Definition happen (w : world) (e : event) : world :=
  match e with
  | Engine nm => {| shown := nm; own := nm; st := st w |}
  | Tick d =>
      let '(a, st', out) := Decide (shown w) d (st w) in
      {| shown := match a with ActNone => shown w | _ => out end; own := own w; st := st' |}
  end.

Definition connected (nm : string) : world := {| shown := nm; own := nm; st := {| written := EmptyString; original := EmptyString |} |}.

(** Own names are not empty, roster names are not empty and no roster name is an own name. *)
Definition apart (owns desired : list string) : Prop :=
  (forall x, x ∈ owns -> x <> EmptyString /\ (x ∉ desired)) /\ EmptyString ∉ desired.

Definition own_names (es : list event) : list string := omap (fun e => match e with Engine x => Some x | _ => None end) es.
Definition roster_given (es : list event) : list string := omap (fun e => match e with Tick d => d | _ => None end) es.

Definition good (owns desired : list string) (w : world) : Prop :=
  own w ∈ owns /\
  ((shown w = own w /\ (written (st w) = EmptyString \/ written (st w) ∈ desired)) \/
   (shown w = written (st w) /\ written (st w) ∈ desired /\ original (st w) = own w)).

Lemma happen_good owns desired w e :
  apart owns desired -> good owns desired w ->
  (forall x, e = Engine x -> x ∈ owns) -> (forall d, e = Tick (Some d) -> d ∈ desired) -> good owns desired (happen w e).
Proof.
  intros [Ha Hd] [Hown Hw] He1 He2. destruct w as [sh ow [wr og]]; cbn in *. destruct (Ha _ Hown) as [Hne Hnd].
  destruct e as [x|[d|]]; cbn.
  - split; [by apply He1|]. left. cbn. split; [done|]. destruct Hw as [[_ ?]|(_ & ? & _)]; tauto.
  - specialize (He2 d eq_refl). destruct (String.eqb_spec sh d) as [->|Hsd]; cbn.
    + split; [done|]. right. cbn. destruct Hw as [[-> _]|(-> & _ & ->)]; done.
    + split; [done|]. right. cbn. split_and!; [done|done|]. destruct Hw as [[-> Hwr]|(-> & _ & ->)].
      * destruct (String.eqb_spec ow wr) as [->|_]; [destruct Hwr as [->|]; done|]. by destruct ow.
      * by rewrite String.eqb_refl.
  - destruct wr as [|c wr]; cbn [sempty]; cbn; [split; [done|]; left; cbn; destruct Hw as [[-> _]|(_ & ? & _)]; auto; done|].
    destruct Hw as [[-> Hwr]|(-> & Hwr & ->)].
    + destruct (String.eqb_spec ow (String c wr)) as [->|_]; [destruct Hwr; done|]. cbn. split; [done|]. left. cbn. auto.
    + rewrite String.eqb_refl. cbn [negb orb]. destruct ow as [|o ow]; [done|]. cbn [sempty orb].
      destruct (String.eqb_spec (String o ow) (String c wr)) as [E|_]; [by rewrite E in Hnd|]. cbn. split; [done|]. left. cbn. auto.
Qed.

Lemma run_good owns desired es : forall w,
  apart owns desired -> good owns desired w -> own_names es ⊆ owns -> roster_given es ⊆ desired -> good owns desired (foldl happen w es).
Proof.
  induction es as [|e es IH]; intros w Ha Hg H1 H2; [done|]. cbn [foldl]. apply IH; [done| | |].
  - apply happen_good; [done..| |]; intros x ->; [apply H1|apply H2]; cbn; set_solver.
  - intros x Hx. apply H1. destruct e; cbn; [by right|done].
  - intros x Hx. apply H2. destruct e as [|[]]; cbn; try done. by right.
Qed.

Lemma own_tick w d : own (happen w (Tick d)) = own w.
Proof. unfold happen. by destruct (Decide (shown w) d (st w)) as [[a s] o]. Qed.

Lemma last_own w es : own (foldl happen w es) = List.last (own_names es) (own w).
Proof.
  revert w. induction es as [|e es IH]; intros w; [done|]. cbn [foldl]. rewrite IH. destruct e as [x|d]; [|by rewrite own_tick].
  cbn. fold (own_names es). destruct (own_names es) as [|y ys]; [done|]. clear. revert y. induction ys as [|z ys IH]; intros y; [done|]. apply IH.
Qed.

(** A player's own name is never lost: whatever checks run and whatever names the engine sets
    meanwhile, as soon as a check finds no roster name for the player (the match ended, the feature is
    off) the controller shows the player's own, latest name again.  It holds when no roster name equals
    an own name of the player. *)
Theorem own_name_returns (nm : string) (es : list event) :
  apart (nm :: own_names es) (roster_given es) ->
  let w := foldl happen (connected nm) (es ++ [Tick None]) in
  shown w = own w /\ own w = List.last (own_names es) nm.
Proof.
  intros Ha. cbn zeta. rewrite foldl_app. set (w := foldl happen (connected nm) es).
  assert (good (nm :: own_names es) (roster_given es) w) as Hg.
  { apply run_good; [done| |set_solver|done]. split; [left|]. left. auto. }
  cbn [foldl]. split; [|rewrite own_tick; apply last_own].
  destruct (happen_good _ _ w (Tick None) Ha Hg) as [_ Hw]; [done..|]. destruct Hw as [[? _]|(Hs & Hin & _)]; [done|].
  exfalso. assert (written (st (happen w (Tick None))) = EmptyString) as Ew.
  { unfold happen, Decide. destruct (written (st w)) as [|c wr] eqn:E; cbn [sempty]; [done|]. by destruct (_ || _). }
  rewrite Ew in Hin. by apply Ha in Hin.
Qed.

Lemma own_name_returns_witness :
  let w := foldl happen (connected "kim") ([Tick (Some "Kim (A)"); Engine "kim2"; Tick (Some "Kim (A)"); Tick (Some "Kim (B)")] ++ [Tick None]) in
  shown w = own w /\ own w = List.last ["kim2"] "kim".
Proof.
  apply (own_name_returns "kim" [Tick (Some "Kim (A)"); Engine "kim2"; Tick (Some "Kim (A)"); Tick (Some "Kim (B)")]).
  split; cbn; [intros x Hx; split; [intros ->|intros Hy]|intros Hy]; set_solver.
Defined.

(** The condition is needed: a player whose Steam name is the roster name of one match and who gets
    another roster name before a check without one keeps the second roster name. *)
Example own_name_lost :
  let w := foldl happen (connected "kim") [Tick (Some "kim"); Tick (Some "Kim (B)"); Tick None] in shown w = "Kim (B)" /\ own w = "kim".
Proof. done. Qed.

End RosterNames.
