(* ===== verification/Coach.v ===== *)
(** * Coaches

    [plugins/match/readyup/coach_rules.{h,cpp}]: who may coach which team, the side a coach watches and the
    player an admin names.  Theorems: the decision implements the stated policy, the side follows the
    players, and a resolved player is connected. *)

From S2P Require Import Prelude CStr SlotRegistry MatchRules.

Module Coach.

Definition kDefaultCoachesPerTeam : Z := 2.

Inductive CoachArg := ArgNone | ArgCt | ArgT | ArgTeam1 | ArgTeam2 | ArgInvalid.

Definition ParseCoachArg (arg : string) : CoachArg :=
  let a := lower arg in
  if sempty a then ArgNone
  else if a =s "ct" then ArgCt
  else if a =s "t" then ArgT
  else if a =s "team1" then ArgTeam1
  else if a =s "team2" then ArgTeam2
  else ArgInvalid.

Record CoachRequest := {
  coaching_possible : bool;
  scrim : bool;
  admitted : bool;
  by_admin : bool;
  roster_team : Z;
  listed : bool;
  listed_team : Z;
  current_team : Z;
  arg : CoachArg;
  team1_is_ct : bool;
  coaches_team1 : Z;
  coaches_team2 : Z;
  per_team_limit : Z;
}.

Record CoachDecision := { ok : bool; team : Z; already : bool; reason : Msg }.

Definition CoachTeamLabel (tm : Z) (team1Name team2Name : string) : string :=
  if tm =? 1 then if sempty team1Name then "team1" else team1Name
  else if tm =? 2 then if sempty team2Name then "team2" else team2Name
  else "no team".

Definition refuse (k : string) (a : list (string * string)) : CoachDecision :=
  {| ok := false; team := 0; already := false; reason := {| msg_key := k; msg_args := a |} |}.
Definition accept (tm : Z) (alr : bool) : CoachDecision :=
  {| ok := true; team := tm; already := alr; reason := {| msg_key := EmptyString; msg_args := [] |} |}.

(** The team the request is about, 0 for none. *)
Definition target (r : CoachRequest) : Z :=
  match arg r with
  | ArgCt => if team1_is_ct r then 1 else 2
  | ArgT => if team1_is_ct r then 2 else 1
  | ArgTeam1 => 1
  | ArgTeam2 => 2
  | ArgNone => if listed r && ((listed_team r =? 1) || (listed_team r =? 2)) then listed_team r else 0
  | ArgInvalid => 0
  end.

Definition DecideCoach (r : CoachRequest) (team1Name team2Name : string) : CoachDecision :=
  let label tm := CoachTeamLabel tm team1Name team2Name in
  if negb (coaching_possible r) then refuse "coach.no_match" []
  else if negb (admitted r) then refuse "coach.not_admitted" []
  else if (roster_team r =? 1) || (roster_team r =? 2) then
    refuse (if by_admin r then "coach.on_roster_they" else "coach.on_roster_you") [("team", label (roster_team r))]
  else if target r =? 0 then refuse (if by_admin r then "coach.usage_admin" else "coach.usage") []
  else
    let listedForTarget := listed r && ((listed_team r =? 0) || (listed_team r =? target r)) in
    if listed r && negb (listed_team r =? 0) && negb (listed_team r =? target r) && negb (by_admin r) then
      refuse "coach.listed_as" [("team", label (listed_team r))]
    else if negb (listed r) && negb (scrim r) && negb (by_admin r) then refuse "coach.config_only" []
    else if current_team r =? target r then accept (target r) true
    else
      let n := if target r =? 1 then coaches_team1 r else coaches_team2 r in
      if negb listedForTarget && (0 <? per_team_limit r) && (per_team_limit r <=? n) then
        refuse "coach.team_full" [("team", label (target r)); ("count", to_string n)]
      else accept (target r) false.

(** ** Sides *)

Record SideTally := { team1_ct : Z; team1_t : Z; team2_ct : Z; team2_t : Z }.

Definition Team1IsCtFromTally (t : SideTally) (fallbackTeam1IsCt : bool) : bool :=
  if negb (team1_ct t =? team1_t t) then team1_t t <? team1_ct t
  else if negb (team2_ct t =? team2_t t) then team2_ct t <? team2_t t
  else fallbackTeam1IsCt.

Definition decided (t : SideTally) : bool := negb (team1_ct t =? team1_t t) || negb (team2_ct t =? team2_t t).

Definition CoachingSide (tm : Z) (t : SideTally) (current : Z) (fallbackTeam1IsCt : bool) : Z :=
  if negb (tm =? 1) && negb (tm =? 2) then 0
  else if negb (decided t) && ((current =? 2) || (current =? 3)) then current
  else
    let team1Ct := Team1IsCtFromTally t fallbackTeam1IsCt in
    let ct := if tm =? 1 then team1Ct else negb team1Ct in
    if ct then 3 else 2.

(** ** The player an admin names *)

Record CoachCandidate := { steamid64 : Z; userid : Z; name : string }.

(** [strtol] of the whole text after the number sign; a text that is not a number, to its end, is none.  A value out
    of the range of [long] is clamped by the source and left as it is here: neither is the number of a player. *)
Definition userid_arg (a : string) : option Z :=
  match a with
  | String "#" (String _ _ as r) => match scan_int r with Some (v, EmptyString) => Some v | _ => None end
  | _ => None
  end.

Definition first_id (f : CoachCandidate -> bool) (players : list CoachCandidate) : option Z := steamid64 <$> List.find f players.

(** The player, or the reason. *)
Definition ResolveCoachPlayer (a : string) (players : list CoachCandidate) : string + Z :=
  if sempty a then inl "no player given"
  else
    match userid_arg a with
    | Some id =>
        match first_id (fun p => (userid p =? id) && negb (steamid64 p =? 0)) players with
        | Some sid => inr sid
        | None => inl ("no connected player with userid " +s+ a)
        end
    | None =>
        let sid := ParseSteamId64Loose a in
        if 76561197960265728 <=? sid then
          if existsb (fun p => steamid64 p =? sid) players then inr sid
          else inl ("SteamID " +s+ to_string sid +s+ " is not connected")
        else
          let want := lower a in
          match first_id (fun p => negb (steamid64 p =? 0) && (lower (name p) =s want)) players with
          | Some sid => inr sid
          | None =>
              match List.filter (fun p => negb (steamid64 p =? 0) && contains want (lower (name p))) players with
              | [p] => inr (steamid64 p)
              | [] => inl (qs "no connected player matches `" +s+ stake 32 a +s+ str1 dquote)
              | l => inl (to_string (zlen l) +s+ qs " players match `" +s+ stake 32 a +s+ qs "`; use the SteamID or #userid")
              end
          end
    end.

Definition people : list CoachCandidate :=
  [{| steamid64 := 76561197960265729; userid := 4; name := "Anna" |}; {| steamid64 := 76561197960265730; userid := 5; name := "Hannah" |}].
Example resolve_runs :
  ResolveCoachPlayer "#5" people = inr 76561197960265730 /\ ResolveCoachPlayer "anna" people = inr 76561197960265729 /\
  ResolveCoachPlayer "[U:1:2]" people = inr 76561197960265730 /\ ResolveCoachPlayer "ann" people = inl (qs "2 players match `ann`; use the SteamID or #userid") /\
  ResolveCoachPlayer "hann" people = inr 76561197960265730.
Proof. vm_compute. done. Qed.

(** ** The policy *)

(** Who may coach [tm], as the header states it. *)
Record may_coach (r : CoachRequest) (tm : Z) : Prop := {
  mc_match : coaching_possible r = true /\ admitted r = true;
  mc_not_player : roster_team r <> 1 /\ roster_team r <> 2;
  mc_named : match arg r with
             | ArgCt => tm = if team1_is_ct r then 1 else 2
             | ArgT => tm = if team1_is_ct r then 2 else 1
             | ArgTeam1 => tm = 1
             | ArgTeam2 => tm = 2
             | ArgNone => listed r = true /\ tm = listed_team r /\ (tm = 1 \/ tm = 2)
             | ArgInvalid => False
             end;
  mc_own_team : listed r = true -> by_admin r = false -> listed_team r = 0 \/ listed_team r = tm;
  mc_listed : by_admin r = false -> scrim r = false -> listed r = true;
  mc_room : current_team r <> tm -> ~ (listed r = true /\ (listed_team r = 0 \/ listed_team r = tm)) -> 0 < per_team_limit r ->
            (if tm =? 1 then coaches_team1 r else coaches_team2 r) < per_team_limit r;
}.

Lemma target_named r tm :
  (target r = tm /\ tm <> 0) <->
  match arg r with
  | ArgCt => tm = if team1_is_ct r then 1 else 2
  | ArgT => tm = if team1_is_ct r then 2 else 1
  | ArgTeam1 => tm = 1
  | ArgTeam2 => tm = 2
  | ArgNone => listed r = true /\ tm = listed_team r /\ (tm = 1 \/ tm = 2)
  | ArgInvalid => False
  end.
Proof.
  unfold target. destruct (arg r); try (destruct (team1_is_ct r); lia); try lia. destruct (listed r); cbn; [|split; [lia|by intros []]].
  destruct (Z.eqb_spec (listed_team r) 1), (Z.eqb_spec (listed_team r) 2); cbn; split; intros H; split_and?; try lia; try done; destruct H as (? & ? & ?); lia.
Qed.

(** [DecideCoach] is the coaching policy: it accepts a team exactly when a match or scrim is on
    and the ruleset admits coaches, the player is on no roster, the request names that team (or the player
    is listed with it), an admin asks or the player is listed for the team or a scrim is open, and an
    unlisted coach finds room under the limit; and it says when the player already coaches the team. *)
Theorem coach_policy (r : CoachRequest) (n1 n2 : string) (tm : Z) :
  let d := DecideCoach r n1 n2 in
  (ok d = true /\ team d = tm) <-> may_coach r tm.
Proof.
  cbn zeta. unfold DecideCoach. split.
  - destruct (coaching_possible r) eqn:E1; [|by intros [? _]]. destruct (admitted r) eqn:E2; [|by intros [? _]]. cbn [negb].
    destruct (_ || (roster_team r =? 2)) eqn:E3; [by intros [? _]|]. destruct (Z.eqb_spec (target r) 0) as [?|E4]; [by intros [? _]|].
    destruct (listed r && _ && _ && negb (by_admin r)) eqn:E5; [by intros [? _]|]. destruct (negb (listed r) && _ && _) eqn:E6; [by intros [? _]|]. intros H.
    assert (target r = tm /\ tm <> 0) as Ht.
    { revert H. destruct (current_team r =? target r); [by intros [_ <-]|]. destruct (_ && (per_team_limit r <=? _)); [intros [? _]; discriminate|by intros [_ <-]]. }
    pose proof (proj1 (target_named r tm) Ht) as Hn. destruct Ht as [Et Ht]. rewrite Et in *. clear Et. split; [done|lia|done|..].
    + destruct (listed r), (by_admin r); cbn in *; try done. lia.
    + destruct (listed r), (by_admin r), (scrim r); done.
    + intros Hc Hl Hp. revert H. destruct (Z.eqb_spec (current_team r) tm); [done|].
      destruct (listed r && ((listed_team r =? 0) || (listed_team r =? tm))) eqn:El.
      { exfalso. apply Hl. apply andb_prop in El as [-> El]. split; [done|]. lia. }
      cbn [negb andb]. destruct (Z.ltb_spec 0 (per_team_limit r)); [|lia]. cbn [andb].
      destruct (Z.leb_spec (per_team_limit r) (if tm =? 1 then coaches_team1 r else coaches_team2 r)); [by intros [? _]|done].
  - intros [[H1 H2] [H3 H4] H5 H6 H7 H8]. apply target_named in H5 as [-> H0]. rewrite H1, H2. cbn [negb].
    destruct (Z.eqb_spec (roster_team r) 1); [done|]. destruct (Z.eqb_spec (roster_team r) 2); [done|]. cbn [orb].
    destruct (Z.eqb_spec tm 0); [done|].
    assert (listed r && negb (listed_team r =? 0) && negb (listed_team r =? tm) && negb (by_admin r) = false) as ->.
    { destruct (listed r), (by_admin r); cbn; rewrite ?andb_false_r; try done. specialize (H6 eq_refl eq_refl). lia. }
    assert (negb (listed r) && negb (scrim r) && negb (by_admin r) = false) as ->.
    { destruct (by_admin r), (scrim r); rewrite ?andb_false_r; try done. by rewrite H7. }
    destruct (Z.eqb_spec (current_team r) tm); [done|]. specialize (H8 ltac:(done)).
    destruct (negb _ && _ && _) eqn:E; [|done]. exfalso. apply andb_prop in E as [E E3]. apply andb_prop in E as [E1 E2].
    apply Z.ltb_lt in E2. apply Z.leb_le in E3. specialize (H8 ltac:(intros [Hl Hc]; rewrite Hl in E1; cbn in E1; lia) E2). lia.
Qed.

(** The coaches of the two teams watch opposite sides, whenever the players decide or nothing was set. *)
Lemma sides_opposite t cur1 cur2 fb :
  decided t = true \/ (cur1 = 0 /\ cur2 = 0) -> CoachingSide 1 t cur1 fb + CoachingSide 2 t cur2 fb = 5.
Proof.
  intros [Hd|[-> ->]]; unfold CoachingSide; rewrite ?Hd; cbn; rewrite ?andb_false_r; cbn; by destruct (Team1IsCtFromTally t fb).
Qed.

(** Nobody who is not connected is ever resolved. *)
Lemma first_id_in f players sid : first_id f players = Some sid -> exists p, p ∈ players /\ f p = true /\ steamid64 p = sid.
Proof. unfold first_id. intros (p & [H1 H2]%find_some & ->)%fmap_Some. exists p. split_and!; [by apply list_elem_of_In|done|done]. Qed.

Lemma resolve_connected a players sid :
  ResolveCoachPlayer a players = inr sid -> sid <> 0 /\ exists p, p ∈ players /\ steamid64 p = sid.
Proof.
  unfold ResolveCoachPlayer. case_if; [done|]. destruct (userid_arg a) as [id|].
  { destruct (first_id _ _) as [s|] eqn:E; [|done]. intros [= ->]. apply first_id_in in E as (p & Hp & Hf & <-). split; [lia|eauto]. }
  destruct (Z.leb_spec 76561197960265728 (ParseSteamId64Loose a)).
  { destruct (existsb _ _) eqn:E; [|done]. intros [= <-]. split; [lia|]. apply existsb_exists in E as (p & Hp & He). exists p. split; [by apply list_elem_of_In|lia]. }
  destruct (first_id _ _) as [s|] eqn:E.
  { intros [= ->]. apply first_id_in in E as (p & Hp & Hf & <-). split; [|eauto]. apply andb_prop in Hf. lia. }
  destruct (List.filter _ _) as [|p [|]] eqn:Ef; [done| |done]. intros [= <-].
  assert (In p (List.filter (fun p => negb (steamid64 p =? 0) && contains (lower a) (lower (name p))) players)) as Hp by (rewrite Ef; by left).
  apply filter_In in Hp as [Hp Hf]. split; [apply andb_prop in Hf; lia|]. exists p. split; [by apply list_elem_of_In|done].
Qed.

End Coach.
