(* ===== verification/LoadOrder.v ===== *)
(** * Load order next to Metamod

    [core/src/readyup/load_order.cpp]: the parser of the [SearchPaths] block of [gameinfo.gi], the
    verdict on the order of its [Game] lines, and the check that one shim copy runs per process. *)

From S2P Require Import Prelude CStr SlotRegistry.

Record GameSearchPaths := { readyup : Z; metamod : Z; csgo : Z; readyup_count : Z }.
Definition NoPaths : GameSearchPaths := {| readyup := -1; metamod := -1; csgo := -1; readyup_count := 0 |}.

Definition Trim (s : string) : string := strip isspace s.

(** The [>>] reads: maximal runs of non-blank characters. *)
Fixpoint tokens_loop (fuel : nat) (s : string) : list string :=
  match fuel with
  | O => []
  | S fuel =>
      let '(tok, rest) := span (fun c => negb (isspace c)) (drop_while isspace s) in
      if sempty tok then [] else tok :: tokens_loop fuel rest
  end.
Definition Tokens (line : string) : list string := tokens_loop (S (String.length line)) line.

Fixpoint last_char (s : string) : option ascii :=
  match s with EmptyString => None | String c EmptyString => Some c | String _ r => last_char r end.

Definition Unquote (s : string) : string :=
  match s with
  | String c (String _ _ as r) =>
      if Ascii.eqb c dquote && bool_decide (last_char r = Some dquote) then stake (String.length r - 1) r else s
  | _ => s
  end.

(** The successive [getline]s: a last line without a newline counts, an empty rest does not. *)
Fixpoint lines_loop (fuel : nat) (s : string) : list string :=
  match fuel with
  | O => []
  | S fuel =>
      if sempty s then []
      else match cut newline s with None => [s] | Some (l, r) => l :: lines_loop fuel r end
  end.
Definition getlines (s : string) : list string := lines_loop (S (String.length s)) s.

Definition strip_comment (line : string) : string :=
  match find "//" line with None => line | Some n => stake n line end.

Definition first_char_is (c : ascii) (s : string) : bool :=
  match s with String d _ => Ascii.eqb d c | EmptyString => false end.

Record ParseState := { out : GameSearchPaths; sawHeader : bool; depth : Z; gameIndex : Z }.
Definition ParseStart : ParseState := {| out := NoPaths; sawHeader := false; depth := 0; gameIndex := 0 |}.

(** A [Game] line's value at index [i]. *)
Definition see_game (val : string) (i : Z) (o : GameSearchPaths) : GameSearchPaths :=
  if val =s "csgo/readyup"
  then {| readyup := if readyup o <? 0 then i else readyup o; metamod := metamod o; csgo := csgo o; readyup_count := readyup_count o + 1 |}
  else if val =s "csgo/addons/metamod"
  then {| readyup := readyup o; metamod := if metamod o <? 0 then i else metamod o; csgo := csgo o; readyup_count := readyup_count o |}
  else if val =s "csgo"
  then {| readyup := readyup o; metamod := metamod o; csgo := if csgo o <? 0 then i else csgo o; readyup_count := readyup_count o |}
  else o.

Definition is_game_key (k : string) : bool := (k =s "Game") || (k =s "game") || (k =s "GAME").

(** One iteration; [true] is the [break] at the end of the first block. *)
Definition parse_line (st : ParseState) (raw : string) : ParseState * bool :=
  let line := Trim (strip_comment raw) in
  if sempty line then (st, false)
  else if depth st =? 0
  then
    if negb (sawHeader st)
    then ({| out := out st; sawHeader := Unquote line =s "SearchPaths"; depth := 0; gameIndex := gameIndex st |}, false)
    else if first_char_is "{" line then ({| out := out st; sawHeader := true; depth := 1; gameIndex := gameIndex st |}, false)
    else ({| out := out st; sawHeader := false; depth := 0; gameIndex := gameIndex st |}, false)
  else if first_char_is "{" line
  then ({| out := out st; sawHeader := sawHeader st; depth := depth st + 1; gameIndex := gameIndex st |}, false)
  else if first_char_is "}" line
  then ({| out := out st; sawHeader := sawHeader st; depth := depth st - 1; gameIndex := gameIndex st |}, depth st - 1 =? 0)
  else if negb (depth st =? 1) then (st, false)
  else
    match Tokens line with
    | k :: v :: _ =>
        if is_game_key (Unquote k)
        then ({| out := see_game (Unquote v) (gameIndex st) (out st); sawHeader := sawHeader st; depth := depth st;
                 gameIndex := gameIndex st + 1 |}, false)
        else (st, false)
    | _ => (st, false)
    end.

Fixpoint parse_lines (st : ParseState) (ls : list string) : GameSearchPaths :=
  match ls with
  | [] => out st
  | l :: ls => let '(st, stop) := parse_line st l in if stop then out st else parse_lines st ls
  end.

Definition ParseGameSearchPaths (text : string) : GameSearchPaths := parse_lines ParseStart (getlines text).

Definition DescribeLoadOrderProblem (p : GameSearchPaths) : string :=
  if readyup p <? 0 then EmptyString
  else if 1 <? readyup_count p
  then "csgo/readyup is listed " +s+ to_string (readyup_count p) +s+ " times in gameinfo.gi; keep exactly one line"
  else
    let metamodActive := (0 <=? metamod p) && ((csgo p <? 0) || (metamod p <? csgo p)) in
    if metamodActive && (readyup p <? metamod p)
    then "Metamod (Game csgo/addons/metamod) is listed BELOW csgo/readyup in gameinfo.gi: the engine " +s+
         "loads Ready Up first, so Metamod and everything it loads (CounterStrikeSharp, Metamod " +s+
         "plugins) never start. Put Ready Up's line directly below Metamod's"
    else EmptyString.

(** The verdict and the path of the other copy.  [strtol] saturates a number out of range. *)
Definition ShimInstanceMayRun (marker : string) (pid : Z) (ourPath : string) : bool * option string :=
  if sempty marker then (true, None)
  else
    match scan_int marker with
    | None => (true, None)
    | Some (v, rest) =>
        if negb (clamp v (-9223372036854775808) 9223372036854775807 =? pid) then (true, None)
        else
          let path := match rest with String c r => if Ascii.eqb c " "%char then r else EmptyString | _ => EmptyString end in
          if path =s ourPath then (true, None) else (false, Some path)
    end.

(** [env] is the value of [READYUP_SHIM_INSTANCE] ([getenv]; unset reads as empty), which a successful claim
    overwrites. *)
Definition ClaimShimInstance (env : string) (pid : Z) (ours : string) : string * bool * option string :=
  let '(ok, other) := ShimInstanceMayRun env pid ours in
  if negb ok then (env, false, other)
  else (to_string pid +s+ String " " ours, true, None).

(** The copies of the shim a process loads, in order; the result lists which of them may run. *)
Fixpoint claims (env : string) (pid : Z) (paths : list string) : list bool :=
  match paths with
  | [] => []
  | p :: ps => let '(env, ok, _) := ClaimShimInstance env pid p in ok :: claims env pid ps
  end.

(** ** One shim per process *)

(** A marker that does not belong to process [pid]. *)
Definition foreign_marker (pid : Z) (env : string) : bool :=
  sempty env || match scan_int env with
                | None => true
                | Some (v, _) => negb (clamp v (-9223372036854775808) 9223372036854775807 =? pid)
                end.

Lemma MayRun_foreign env pid ours : foreign_marker pid env = true -> ShimInstanceMayRun env pid ours = (true, None).
Proof.
  unfold foreign_marker, ShimInstanceMayRun. destruct (sempty env); [done|]. cbn.
  destruct (scan_int env) as [[v rest]|]; [|done]. by intros ->.
Qed.

Lemma MayRun_own pid mine ours :
  int64_ok pid ->
  ShimInstanceMayRun (to_string pid +s+ String " " mine) pid ours = if mine =s ours then (true, None) else (false, Some mine).
Proof.
  intros Hp. unfold ShimInstanceMayRun. destruct (to_string_chars pid) as (c & s & E & _).
  assert (sempty (to_string pid +s+ String " " mine) = false) as -> by (by rewrite E).
  rewrite scan_int_to_string by done. unfold int64_ok in Hp. rewrite clamp_id, Z.eqb_refl by lia. done.
Qed.

Lemma claims_own pid mine paths :
  int64_ok pid -> claims (to_string pid +s+ String " " mine) pid paths = map (fun p => mine =s p) paths.
Proof.
  intros Hp. induction paths as [|p ps IH]; [done|]. cbn [claims map]. unfold ClaimShimInstance.
  rewrite MayRun_own by done. destruct (mine =s p) eqn:E; cbn [negb]; [|by rewrite IH].
  apply String.eqb_eq in E as <-. by rewrite IH.
Qed.

(** In a process whose marker is unset or was left by another process, the first shim copy that
    asks may run, and of the later ones exactly those at the same path. *)
Theorem one_shim_per_process (env : string) (pid : Z) (first : string) (later : list string) :
  int64_ok pid -> foreign_marker pid env = true ->
  claims env pid (first :: later) = true :: map (fun p => first =s p) later.
Proof.
  intros Hp Hf. cbn [claims]. unfold ClaimShimInstance. rewrite MayRun_foreign by done. cbn [negb]. by rewrite claims_own.
Qed.

Lemma one_shim_per_process_witness :
  claims "41 /a/libserver.so" 42 ["/a/libserver.so"; "/b/libserver.so"; "/a/libserver.so"] = [true; false; true].
Proof. apply (one_shim_per_process "41 /a/libserver.so" 42 "/a/libserver.so" ["/b/libserver.so"; "/a/libserver.so"]); [split; lia|reflexivity]. Defined.

(** ** The parser on a search-path block *)

(** The index of the first occurrence from [i] on, -1 when absent. *)
Fixpoint index_from (i : Z) (x : string) (l : list string) : Z :=
  match l with [] => -1 | y :: l => if y =s x then i else index_from (i + 1) x l end.

Definition paths_of (vals : list string) : GameSearchPaths :=
  {| readyup := index_from 0 "csgo/readyup" vals; metamod := index_from 0 "csgo/addons/metamod" vals;
     csgo := index_from 0 "csgo" vals; readyup_count := zlen (filter (fun v => (v =s "csgo/readyup") = true) vals) |}.

(** A value that is one token: not empty, no blanks, no quotes, no comment. *)
Definition plain_value (v : string) : bool :=
  negb (sempty v) && sforall (fun c => negb (isspace c) && negb (Ascii.eqb c dquote)) v && negb (contains "//" v).

Definition game_line (v : string) : string := "      Game  " +s+ v.
Definition head_line : string := "    SearchPaths".
Definition open_line : string := "    {".
Definition end_line : string := "    }".

Definition join_lines (ls : list string) : string := foldr (fun l acc => l +s+ String newline acc) EmptyString ls.

(** A [gameinfo.gi] whose search paths are [vals], with any text behind the block. *)
Definition gameinfo (vals : list string) (behind : string) : string :=
  join_lines (head_line :: open_line :: map game_line vals ++ [end_line]) +s+ behind.

Definition one_line (l : string) : bool := sforall (fun c => negb (Ascii.eqb c newline)) l.

Lemma cut_newline l r : one_line l = true -> cut newline (l +s+ String newline r) = Some (l, r).
Proof.
  induction l as [|d l IH]; [done|]. unfold one_line. cbn -[newline]. intros H. apply andb_prop in H as [Hd Hl].
  apply negb_true_iff in Hd. rewrite Hd. by rewrite IH.
Qed.

Lemma lines_join ls behind : forall fuel,
  Forall (fun l => one_line l = true) ls -> (length ls <= fuel)%nat ->
  lines_loop fuel (join_lines ls +s+ behind) = ls ++ lines_loop (fuel - length ls) behind.
Proof.
  induction ls as [|l ls IH]; intros fuel Hl Hf; [cbn; by rewrite Nat.sub_0_r|].
  apply list.Forall_cons in Hl as [H1 Hl]. destruct fuel as [|fuel]; [cbn in Hf; lia|].
  cbn [join_lines foldr lines_loop]. fold (join_lines ls). rewrite app_assoc_s, app_cons_s.
  replace (sempty (l +s+ _)) with false by (by destruct l). rewrite cut_newline by done. cbn [app length Nat.sub].
  rewrite IH by (done || cbn in Hf; lia). done.
Qed.

Lemma join_lines_length ls : (length ls <= String.length (join_lines ls))%nat.
Proof. induction ls as [|l ls IH]; cbn; [lia|]. rewrite length_app_s. cbn. unfold join_lines in IH. lia. Qed.

Lemma getlines_join ls behind :
  Forall (fun l => one_line l = true) ls -> exists rest, getlines (join_lines ls +s+ behind) = ls ++ rest.
Proof.
  intros H. eexists. unfold getlines. apply lines_join; [done|]. rewrite length_app_s. pose proof (join_lines_length ls). lia.
Qed.

(** *** One [Game] line *)

Lemma find_none_cons p c s : starts_with p (String c s) = false -> find p s = None -> find p (String c s) = None.
Proof. intros H1 H2. cbn [find]. by rewrite H1, H2. Qed.

Lemma drop_while_end_id f a v :
  sempty v = false -> sforall (fun c => negb (f c)) v = true -> drop_while_end f (a +s+ v) = (a +s+ v).
Proof.
  intros He Hv. assert (Hb : drop_while_end f v = v).
  { clear a. induction v as [|c v IH]; [done|]. cbn in Hv. apply andb_prop in Hv as [Hc Hv]. apply negb_true_iff in Hc.
    cbn. destruct v as [|d v]; [cbn; by rewrite Hc|]. by rewrite IH. }
  induction a as [|c a IH]; [done|]. cbn. rewrite IH. destruct (a +s+ v) eqn:E; [|done].
  by destruct a, v.
Qed.

Lemma Unquote_plain v : sforall (fun c => negb (Ascii.eqb c dquote)) v = true -> Unquote v = v.
Proof.
  destruct v as [|c [|d v]]; [done..|]. cbn -[dquote]. intros H. apply andb_prop in H as [Hc _]. apply negb_true_iff in Hc.
  unfold Unquote. by rewrite Hc.
Qed.

Lemma tokens_step fuel tok rest s :
  sempty tok = false -> span (fun c => negb (isspace c)) (drop_while isspace s) = (tok, rest) ->
  tokens_loop (S fuel) s = tok :: tokens_loop fuel rest.
Proof. intros He E. cbn [tokens_loop]. by rewrite E, He. Qed.

Section game_line.
Context (v : string).
Hypothesis Hv : plain_value v = true.

Lemma plain_parts :
  sempty v = false /\ sforall (fun c => negb (isspace c)) v = true /\
  sforall (fun c => negb (Ascii.eqb c dquote)) v = true /\ find "//" v = None.
Proof.
  unfold plain_value, contains in Hv. split_bools. split_and!; try done.
  - eapply sforall_impl; [|done]. cbn. intros c E. by apply andb_prop in E as [? _].
  - eapply sforall_impl; [|done]. cbn. intros c E. by apply andb_prop in E as [_ ?].
  - by destruct (find "//" v).
Qed.

Lemma game_line_trim : Trim (strip_comment (game_line v)) = ("Game  " +s+ v).
Proof.
  destruct plain_parts as (He & Hs & _ & Hf). unfold strip_comment, game_line.
  assert (find "//" ("      Game  " +s+ v) = None) as -> by (cbn [String.append]; repeat apply find_none_cons; done).
  unfold Trim, strip. cbn [String.append drop_while isspace]. cbn -[drop_while_end String.append].
  change (String "G" _) with ("Game  " +s+ v). by apply drop_while_end_id.
Qed.

Lemma game_line_tokens : Tokens ("Game  " +s+ v) = ["Game"; v].
Proof.
  destruct plain_parts as (He & Hs & _ & _). unfold Tokens. rewrite length_app_s. cbn [String.length Nat.add].
  rewrite (tokens_step _ "Game" (String " " (String " " v))) by done.
  rewrite (tokens_step _ v EmptyString); [done|done|].
  assert (drop_while isspace (String " " (String " " v)) = v) as ->.
  { cbn. apply drop_while_id. destruct v as [|c r]; [done|]. cbn in Hs |- *. apply andb_prop in Hs as [Hc _]. by apply negb_true_iff in Hc. }
  rewrite <- (app_nil_s v) at 1. by rewrite span_app.
Qed.

Lemma game_line_parse o i :
  parse_line {| out := o; sawHeader := true; depth := 1; gameIndex := i |} (game_line v) =
    ({| out := see_game v i o; sawHeader := true; depth := 1; gameIndex := i + 1 |}, false).
Proof.
  unfold parse_line. rewrite game_line_trim. cbn -[Tokens String.append Unquote].
  cbn [String.append first_char_is]. cbn -[Tokens Unquote].
  change (String "G" _) with ("Game  " +s+ v). rewrite game_line_tokens. rewrite (Unquote_plain v) by apply plain_parts. done.
Qed.

End game_line.

(** *** The block *)

(** The first index so far, when the rest is seen from index [i] on. *)
Definition first_of (seen i : Z) (x : string) (vals : list string) : Z := if seen <? 0 then index_from i x vals else seen.

Lemma see_game_first i x vals v seen :
  0 <= i -> first_of (if v =s x then (if seen <? 0 then i else seen) else seen) (i + 1) x vals = first_of seen i x (v :: vals).
Proof. intros Hi. unfold first_of. cbn. crush_ifs. Qed.

Definition started (o : GameSearchPaths) : Prop := -1 <= readyup o /\ -1 <= metamod o /\ -1 <= csgo o.

Lemma see_game_fields v i o :
  readyup (see_game v i o) = (if v =s "csgo/readyup" then (if readyup o <? 0 then i else readyup o) else readyup o) /\
  metamod (see_game v i o) = (if v =s "csgo/addons/metamod" then (if metamod o <? 0 then i else metamod o) else metamod o) /\
  csgo (see_game v i o) = (if v =s "csgo" then (if csgo o <? 0 then i else csgo o) else csgo o) /\
  readyup_count (see_game v i o) = readyup_count o + (if v =s "csgo/readyup" then 1 else 0).
Proof.
  unfold see_game. destruct (v =s "csgo/readyup") eqn:E1; [apply String.eqb_eq in E1 as ->; done|].
  destruct (v =s "csgo/addons/metamod") eqn:E2; [apply String.eqb_eq in E2 as ->; cbn; split_and!; try done; lia|].
  destruct (v =s "csgo") eqn:E3; cbn; split_and!; try done; lia.
Qed.

Lemma parse_vals vals : forall o i rest,
  Forall (fun v => plain_value v = true) vals -> 0 <= i -> started o ->
  parse_lines {| out := o; sawHeader := true; depth := 1; gameIndex := i |} (map game_line vals ++ end_line :: rest) =
    {| readyup := first_of (readyup o) i "csgo/readyup" vals; metamod := first_of (metamod o) i "csgo/addons/metamod" vals;
       csgo := first_of (csgo o) i "csgo" vals;
       readyup_count := readyup_count o + zlen (filter (fun v => (v =s "csgo/readyup") = true) vals) |}.
Proof.
  induction vals as [|v vals IH]; intros o i rest Hv Hi (S1 & S2 & S3).
  - assert (forall x, -1 <= x -> first_of x i EmptyString [] = x) as Hx by (intros x Hx; unfold first_of; cbn; crush_ifs).
    unfold first_of in *. cbn in *. rewrite !Hx, zlen_nil, Z.add_0_r by done. by destruct o.
  - apply list.Forall_cons in Hv as [H1 Hv]. cbn [map app parse_lines]. rewrite game_line_parse by done.
    destruct (see_game_fields v i o) as (E1 & E2 & E3 & E4).
    rewrite IH; [|done|lia|unfold started; rewrite E1, E2, E3; crush_ifs].
    rewrite E1, E2, E3, E4, !see_game_first by done. f_equal. rewrite filter_cons.
    destruct (v =s "csgo/readyup"); [rewrite decide_True by done; rewrite zlen_cons|rewrite decide_False by done]; lia.
Qed.

Lemma plain_one_line v : plain_value v = true -> one_line v = true.
Proof.
  intros H. destruct (plain_parts v H) as (_ & Hs & _). eapply sforall_impl; [|exact Hs]. intros c Hc.
  apply negb_true_iff in Hc. apply negb_true_iff, Ascii.eqb_neq. intros ->. discriminate.
Qed.

Lemma gameinfo_parse vals behind :
  Forall (fun v => plain_value v = true) vals -> ParseGameSearchPaths (gameinfo vals behind) = paths_of vals.
Proof.
  intros Hv. unfold ParseGameSearchPaths, gameinfo.
  destruct (getlines_join (head_line :: open_line :: map game_line vals ++ [end_line]) behind) as [rest ->].
  { repeat (apply list.Forall_cons; split; [done|]). apply Forall_app. split; [|by repeat constructor].
    rewrite list.Forall_forall. intros l Hl. apply list_elem_of_In, in_map_iff in Hl as (v & <- & Hin). apply list_elem_of_In in Hin.
    unfold game_line, one_line. rewrite sforall_app. cbn [sforall]. rewrite list.Forall_forall in Hv. exact (plain_one_line v (Hv v Hin)). }
  cbn [app parse_lines]. rewrite <- app_assoc. cbn [app].
  pose proof (parse_vals vals NoPaths 0 rest Hv ltac:(lia) ltac:(unfold started; cbn; lia)) as H.
  cbn -[parse_lines map] in *. exact H.
Qed.

(** Metamod is in front of Valve's [csgo] entry (or there is none), so the engine would load it. *)
Definition metamod_active (vals : list string) : Prop :=
  "csgo/addons/metamod" ∈ vals /\
  ("csgo" ∉ vals \/ index_from 0 "csgo/addons/metamod" vals < index_from 0 "csgo" vals).

Lemma index_from_in i x vals : 0 <= i -> (index_from i x vals < 0 <-> x ∉ vals) /\ (x ∈ vals -> i <= index_from i x vals).
Proof.
  revert i. induction vals as [|v vals IH]; intros i Hi; cbn; [split; [split; [intros _; apply not_elem_of_nil|lia]|intros H; by apply elem_of_nil in H]|].
  destruct (v =s x) eqn:E.
  - apply String.eqb_eq in E as ->. split; [|lia]. split; [lia|]. intros H. exfalso. apply H. left.
  - apply String.eqb_neq in E. destruct (IH (i + 1) ltac:(lia)) as [H1 H2]. rewrite H1. rewrite not_elem_of_cons, elem_of_cons. split.
    + split; [intros; split; [congruence|done]|tauto].
    + intros [?|?]; [congruence|]. specialize (H2 H). lia.
Qed.

(** For every list of search paths written as a [gameinfo.gi] block, the check is silent exactly
    when Ready Up is not listed, or is listed once and is not in front of a Metamod entry the engine would
    load. *)
Theorem load_order_verdict (vals : list string) (behind : string) :
  Forall (fun v => plain_value v = true) vals ->
  DescribeLoadOrderProblem (ParseGameSearchPaths (gameinfo vals behind)) = EmptyString <->
  "csgo/readyup" ∉ vals \/
  (zlen (filter (fun v => (v =s "csgo/readyup") = true) vals) <= 1 /\
   ~ (metamod_active vals /\ index_from 0 "csgo/readyup" vals < index_from 0 "csgo/addons/metamod" vals)).
Proof.
  intros Hv. rewrite gameinfo_parse by done. unfold DescribeLoadOrderProblem, paths_of, metamod_active. cbn [readyup metamod csgo readyup_count].
  destruct (index_from_in 0 "csgo/readyup" vals ltac:(lia)) as [R1 R2].
  destruct (index_from_in 0 "csgo/addons/metamod" vals ltac:(lia)) as [M1 M2].
  destruct (index_from_in 0 "csgo" vals ltac:(lia)) as [C1 C2].
  set (r := index_from 0 "csgo/readyup" vals) in *. set (m := index_from 0 "csgo/addons/metamod" vals) in *.
  set (c := index_from 0 "csgo" vals) in *. set (n := zlen _).
  destruct (r <? 0) eqn:Er; split_bools; [split; [intros _; left; tauto|done]|].
  assert ("csgo/readyup" ∈ vals) as Hin by (destruct (decide ("csgo/readyup" ∈ vals)) as [|Hno]; [done|apply R1 in Hno; lia]).
  destruct (1 <? n) eqn:En; split_bools; [split; [done|intros [?|[? _]]; [done|lia]]|].
  destruct (((0 <=? m) && ((c <? 0) || (m <? c))) && (r <? m)) eqn:E.
  - split; [done|]. intros [?|[_ Hn]]; [done|]. exfalso. apply Hn. split_bools.
    assert ("csgo/addons/metamod" ∈ vals) by (destruct (decide ("csgo/addons/metamod" ∈ vals)) as [|Hno]; [done|apply M1 in Hno; lia]).
    split; [|done]. split; [done|].
    match goal with H : (_ || _) = true |- _ => apply orb_prop in H as [H|H] end; split_bools; [left; tauto|right; done].
  - split; [|done]. intros _. right. split; [done|]. intros [[Hm Hc] Hlt]. specialize (M2 Hm).
    assert (((0 <=? m) && ((c <? 0) || (m <? c))) && (r <? m) = true); [|congruence].
    rewrite !andb_true_iff, orb_true_iff, Z.leb_le, !Z.ltb_lt. split_and!; [lia| |lia]. destruct Hc as [Hc|Hc]; [left; tauto|by right].
Qed.

Lemma load_order_verdict_witness :
  DescribeLoadOrderProblem (ParseGameSearchPaths (gameinfo ["csgo/addons/metamod"; "csgo/readyup"; "csgo"] EmptyString)) = EmptyString.
Proof.
  apply (load_order_verdict ["csgo/addons/metamod"; "csgo/readyup"; "csgo"] EmptyString); [repeat constructor|].
  right. split; [vm_compute; congruence|]. intros [_ H]. vm_compute in H. congruence.
Defined.

Example metamod_below :
  sempty (DescribeLoadOrderProblem (ParseGameSearchPaths (gameinfo ["csgo/readyup"; "csgo/addons/metamod"; "csgo"] EmptyString))) = false.
Proof. vm_compute. reflexivity. Qed.
