(* ===== verification/FleetJson.v ===== *)
(** * The JSON of the fleet link

    [fleet::json] (src/plugins/fleet/fleet_json.h and .cpp): the value, the strict parser that decodes
    surrogate pairs and keeps integers exact, and the compact writer.  The value has the same
    alternatives as [readyup::status::Json] and the same insertion-ordered objects, so the type [Json]
    and the member operations are shared; the parser is the grammar of [Json.v] over its own string and
    number parsers.  Behind the definitions: the agreement with the other implementation, totality, and how a text
    is read inside a larger one ([fleet_Val_framed], [fleet_Parse_last]), which is how frames and spool lines hold payloads. *)

From S2P Require Import Prelude CStr Double Json JsonFacts.

(** ** Accessors *)

(** [Get]: null on anything but an object. *)
Definition Get (v : Json) (key : string) : option Json := match v with JObject o => find_member key o | _ => None end.

Definition IsObj (v : Json) : bool := match v with JObject _ => true | _ => false end.
Definition IsStr (v : Json) : bool := match v with JString _ => true | _ => false end.

(** [AsInt(def)]; [None] is the undefined cast of a double without an [int64_t] value. *)
Definition AsIntOr (def : Z) (v : Json) : option Z :=
  match v with
  | JInt i => Some i
  | JDouble d =>
      match dtrunc d with
      | Some z => if bool_decide (int64_ok z) then Some z else None
      | None => Some def
      end
  | _ => Some def
  end.
Definition AsStrOr (def : string) (v : Json) : string := match v with JString s => s | _ => def end.
Definition AsBoolOr (def : bool) (v : Json) : bool := match v with JBool b => b | _ => def end.

(** ** Writer *)

(** [AppendQuoted]. *)
Definition fleet_escape_char (c : ascii) : string :=
  let back x := String backslash (str1 x) in
  if Ascii.eqb c dquote then back dquote
  else if Ascii.eqb c backslash then back backslash
  else if Ascii.eqb c newline then back "n"%char
  else if Ascii.eqb c creturn then back "r"%char
  else if Ascii.eqb c tab then back "t"%char
  else if Ascii.eqb c "008"%char then back "b"%char
  else if Ascii.eqb c "012"%char then back "f"%char
  else if (code c <? 32) || (code c =? 127) then u_escape (code c)
  else str1 c.
Fixpoint fleet_escape (s : string) : string :=
  match s with EmptyString => EmptyString | String c r => fleet_escape_char c +s+ fleet_escape r end.
Definition AppendQuoted (s : string) : string := String dquote (fleet_escape s +s+ str1 dquote).

Definition fleet_members (dump : Json -> string) : bool -> list (string * Json) -> string :=
  fix go (first : bool) (o : list (string * Json)) : string :=
    match o with
    | [] => "}"
    | (k, v) :: o =>
        (if first then EmptyString else ",") +s+ AppendQuoted k +s+ String ":"%char (dump v +s+ go false o)
    end.

(** [DumpTo] / [Dump]. *)
Fixpoint fleet_Dump (v : Json) : string :=
  match v with
  | JNull => "null"
  | JBool b => if b then "true" else "false"
  | JInt i => to_string i
  | JDouble d => if isfinite d then fmt_g 17 d else "null"
  | JString s => AppendQuoted s
  | JObject o => String "{"%char (fleet_members fleet_Dump true o)
  | JArray a => String "["%char (dump_items fleet_Dump true a)
  end.

(** ** Parser *)

(** The [\u] escape after its letter.  A lone surrogate is replaced by U+FFFD; a high one followed by
    another unit that is not a low one yields U+FFFD and that unit. *)
Definition fleet_unicode (s : string) : pres string :=
  let? (cp, s1) := Hex4 s in
  if (55296 <=? cp) && (cp <=? 56319)
  then
    if starts_with (String backslash "u") s1
    then
      let? (lo, s2) := Hex4 (sdrop 2 s1) in
      if (56320 <=? lo) && (lo <=? 57343)
      then POk (Utf8 (65536 + Z.shiftl (cp - 55296) 10 + (lo - 56320))) s2
      else POk (Utf8 65533 +s+ Utf8 lo) s2
    else POk (Utf8 65533) s1
  else if (56320 <=? cp) && (cp <=? 57343) then POk (Utf8 65533) s1
  else POk (Utf8 cp) s1.

(** The loop of [Str] after the opening quote. *)
Fixpoint fleet_str_loop (fuel : nat) (s : string) (acc : string) : pres string :=
  match fuel with
  | O => PFuel
  | S fuel =>
      match s with
      | EmptyString => PErr "unterminated string" s
      | String c r =>
          if Ascii.eqb c dquote then POk acc r
          else if code c <? 32 then PErr "control character in string" r
          else if negb (Ascii.eqb c backslash) then fleet_str_loop fuel r (acc +s+ str1 c)
          else
            match r with
            | EmptyString => PErr "unterminated string" r
            | String e r2 =>
                if Ascii.eqb e "u"%char then
                  let? (u, r3) := fleet_unicode r2 in fleet_str_loop fuel r3 (acc +s+ u)
                else
                  match short_escape e with
                  | Some x => fleet_str_loop fuel r2 (acc +s+ str1 x)
                  | None => PErr "bad escape" r2
                  end
            end
      end
  end.

Definition fleet_Str (s : string) : pres string :=
  match s with
  | String c r => if Ascii.eqb c dquote then fleet_str_loop (S (String.length r)) r EmptyString else PErr "expected string" s
  | EmptyString => PErr "expected string" s
  end.

(** The fraction and the exponent of a number: whether there was one. *)
Definition num_frac (s : string) : pres bool :=
  match starts_char "."%char s with
  | None => POk false s
  | Some r => let '(f, r) := span isdigit r in if sempty f then PErr "bad number" r else POk true r
  end.
Definition num_exp (s : string) : pres bool :=
  match s with
  | String c r =>
      if Ascii.eqb c "e"%char || Ascii.eqb c "E"%char then
        let r := match r with String x r' => if Ascii.eqb x "+"%char || Ascii.eqb x "-"%char then r' else r | _ => r end in
        let '(e, r) := span isdigit r in
        if sempty e then PErr "bad number" r else POk true r
      else POk false s
  | EmptyString => POk false s
  end.

Definition fleet_Num (s : string) : pres Json :=
  let s1 := match starts_char "-"%char s with Some r => r | None => s end in
  let '(ds, s2) := span isdigit s1 in
  if sempty ds then PErr "bad number" s2
  else
    let? (f, s3) := num_frac s2 in
    let? (e, s4) := num_exp s3 in
    let tmp := stake (String.length s - String.length s4) s in
    let as_double := match scan_double tmp with Some (d, EmptyString) => POk (JDouble d) s4 | _ => PErr "bad number" s4 end in
    if f || e then as_double
    else match strtoll_exact tmp with Some v => POk (JInt v) s4 | None => as_double end.

Definition fleet_Val : nat -> string -> pres Json := json_value fleet_Str fleet_Num.

(** [Parse] with its depth limit ([maxDepth] is 64 unless the caller says otherwise). *)
Definition fleet_ParseDepth (maxDepth : nat) (text : string) : parse_result :=
  match fleet_Val (S maxDepth) text with
  | POk v rest => if sempty (Ws rest) then Parsed v else ParseError (fail_text "trailing data" text (Ws rest))
  | PErr m at_ => ParseError (fail_text m text at_)
  | PFuel => ParseFuel
  end.
Definition fleet_Parse : string -> parse_result := fleet_ParseDepth 64.

Example fleet_parse_sample :
  fleet_Parse (qs "{`a`:`\ud83d\ude00\ud800x`,`n`:-12e1,`i`:9223372036854775807}") =
  Parsed (JObject [("a", JString (Utf8 128512 +s+ Utf8 65533 +s+ "x")); ("n", JDouble (of_int (-120))); ("i", JInt 9223372036854775807)]).
Proof. vm_compute. reflexivity. Qed.
Example fleet_parse_strict : fleet_Parse "+1" = ParseError "bad number at offset 0".
Proof. vm_compute. reflexivity. Qed.

(** * The two JSON implementations agree

    The fleet link's parser and writer against the status endpoint's: same bytes for every value
    without doubles, and each parser reads what either writer wrote. *)

(** ** Writer *)

Lemma fleet_escape_char_eq c : fleet_escape_char c = escape_char c.
Proof. destruct c as [[] [] [] [] [] [] [] []]; reflexivity. Qed.

Lemma fleet_escape_eq s : fleet_escape s = escape_body s.
Proof. induction s as [|c s IH]; [done|]. cbn [fleet_escape escape_body]. by rewrite fleet_escape_char_eq, IH. Qed.

Lemma AppendQuoted_eq s : AppendQuoted s = JsonEscape s.
Proof. unfold AppendQuoted, JsonEscape. by rewrite fleet_escape_eq. Qed.

(** No doubles, which the two writers print with different precisions. *)
Fixpoint double_free (j : Json) : bool :=
  match j with
  | JDouble _ => false
  | JObject o => all_members double_free o
  | JArray a => all_items double_free a
  | _ => true
  end.

Lemma plain_double_free j : plain j = true -> double_free j = true.
Proof.
  induction j as [|b|i|x|s|o IH|a IH] using json_nested_ind; cbn; try done.
  - intros [_ Hp]%andb_prop. rewrite all_members_forall in *. rewrite Forall_forall in *. auto.
  - rewrite !all_items_forall, !Forall_forall in *. auto.
Qed.

Lemma fleet_members_eq o b :
  Forall (fun kv => fleet_Dump kv.2 = Dump kv.2) o -> fleet_members fleet_Dump b o = dump_members Dump b o.
Proof.
  intros Ho. revert b. induction Ho as [|[k v] o Hv _ IH]; intros b; [done|]. cbn in Hv.
  cbn [fleet_members dump_members]. by rewrite AppendQuoted_eq, Hv, IH.
Qed.

Lemma fleet_items_eq a b :
  Forall (fun v => fleet_Dump v = Dump v) a -> dump_items fleet_Dump b a = dump_items Dump b a.
Proof. intros Ha. revert b. induction Ha as [|v a Hv _ IH]; intros b; [done|]. cbn [dump_items]. by rewrite Hv, IH. Qed.

Lemma fleet_Dump_eq j : double_free j = true -> fleet_Dump j = Dump j.
Proof.
  induction j as [|b|i|x|s|o IH|a IH] using json_nested_ind; cbn [double_free]; intros Hd; try done.
  - apply AppendQuoted_eq.
  - cbn [fleet_Dump Dump]. rewrite fleet_members_eq; [done|]. rewrite all_members_forall in Hd. rewrite Forall_forall in *. auto.
  - cbn [fleet_Dump Dump]. rewrite fleet_items_eq; [done|]. rewrite all_items_forall in Hd. rewrite Forall_forall in *. auto.
Qed.

(** ** Parser *)

Lemma fleet_str_loop_escape f c r acc : fleet_str_loop (S f) (escape_char c +s+ r) acc = fleet_str_loop f r (acc +s+ str1 c).
Proof. destruct c as [[] [] [] [] [] [] [] []]; reflexivity. Qed.

Lemma fleet_str_loop_body f s r acc :
  (String.length (escape_body s) < f)%nat ->
  fleet_str_loop f (escape_body s +s+ String dquote r) acc = POk (acc +s+ s) r.
Proof.
  revert f acc. induction s as [|c s IH]; intros f acc Hf; cbn [escape_body] in *.
  - destruct f as [|f]; [cbn in Hf; lia|]. cbn. by rewrite app_nil_s.
  - rewrite length_app_s in Hf. pose proof (escape_char_length c).
    destruct f as [|f]; [lia|]. rewrite app_assoc_s, fleet_str_loop_escape, IH by lia.
    by rewrite app_assoc_s.
Qed.

Lemma fleet_Str_escape s r : fleet_Str (JsonEscape s +s+ r) = POk s r.
Proof.
  unfold JsonEscape, fleet_Str. rewrite app_cons_s, app_assoc_s. cbn [str1 String.append Ascii.eqb dquote Bool.eqb].
  apply (fleet_str_loop_body _ s r EmptyString). rewrite length_app_s. lia.
Qed.

Lemma stops_weaken (f g : ascii -> bool) s : (forall c, g c = true -> f c = true) -> stops f s -> stops g s.
Proof. intros H. destruct s as [|c s]; cbn; [done|]. intros Hf. destruct (g c) eqn:E; [|done]. by rewrite (H c E) in Hf. Qed.

(** The digits of a printed integer, after its sign. *)
Lemma to_string_split i : exists ds, sforall isdigit ds = true /\ sempty ds = false /\
  (to_string i = ds \/ to_string i = String "-" ds).
Proof.
  unfold to_string. destruct (i <? 0) eqn:E; split_bools.
  - destruct (dec_nonneg_spec (- i) ltac:(lia)) as (H1 & H2 & _). eauto.
  - destruct (dec_nonneg_spec i ltac:(lia)) as (H1 & H2 & _). eauto.
Qed.

Lemma fleet_Num_to_string i rest :
  int64_ok i -> stops is_num_char rest -> fleet_Num (to_string i +s+ rest) = POk (JInt i) rest.
Proof.
  intros Hi Hr. destruct (to_string_split i) as (ds & Hd & He & Hs).
  assert (Hdig : stops isdigit rest) by (eapply stops_weaken; [apply isdigit_num|done]).
  assert (Hf : num_frac rest = POk false rest /\ num_exp rest = POk false rest).
  { unfold num_frac, num_exp. destruct rest as [|c r]; [done|]. cbn in Hr. unfold is_num_char in Hr.
    apply orb_false_elim in Hr as [Hr _]. apply orb_false_elim in Hr as [Hr _]. apply orb_false_elim in Hr as [Hr HE].
    apply orb_false_elim in Hr as [Hr He']. apply orb_false_elim in Hr as [_ Hp]. cbn [starts_char]. by rewrite Hp, He', HE. }
  assert (Hsp : (let s1 := match starts_char "-" (to_string i +s+ rest) with Some r => r | None => to_string i +s+ rest end in span isdigit s1) = (ds, rest)).
  { destruct Hs as [-> | ->].
    - destruct ds as [|c r]; [done|]. cbn in Hd. apply andb_prop in Hd as [Hc Hd]. cbn [starts_char String.append].
      destruct (isdigit_not_sign c Hc) as (-> & _). change (String c (r +s+ rest)) with (String c r +s+ rest). cbn zeta.
      rewrite span_app; [done| |done]. cbn. by rewrite Hc.
    - cbn [starts_char String.append]. cbn zeta. rewrite Ascii.eqb_refl. by rewrite span_app. }
  unfold fleet_Num. cbn zeta in Hsp |- *. rewrite Hsp, He. destruct Hf as [-> Hexp]. cbn [pbind]. rewrite Hexp. cbn [pbind orb].
  rewrite length_app_s, Nat.add_sub, stake_app, strtoll_exact_to_string by done. done.
Qed.

Lemma fleet_Val_Dump j d rest :
  plain j = true -> (depth j <= d)%nat -> stops is_num_char rest -> fleet_Val (S d) (Dump j +s+ rest) = POk j rest.
Proof. apply json_value_Dump; [apply fleet_Str_escape|apply fleet_Num_to_string]. Qed.

Lemma fleet_Parse_Dump j : plain j = true -> (depth j <= 64)%nat -> fleet_Parse (fleet_Dump j) = Parsed j.
Proof.
  intros Hp Hd. rewrite (fleet_Dump_eq j (plain_double_free j Hp)). unfold fleet_Parse, fleet_ParseDepth.
  rewrite <- (app_nil_s (Dump j)) at 1. by rewrite (fleet_Val_Dump j 64 EmptyString Hp Hd I).
Qed.

(** ** The parser always answers *)

Lemma fleet_unicode_within s : within (String.length s) (fleet_unicode s).
Proof.
  unfold fleet_unicode. eapply within_bind; [apply Hex4_within|]. intros cp s1 H1.
  case_if; [|case_if; done]. case_if; [|done].
  eapply within_bind; [apply Hex4_within|]. intros lo s2. rewrite sdrop_length. case_if; cbn [within]; lia.
Qed.

Lemma fleet_str_loop_within fuel s acc : (String.length s < fuel)%nat -> within (String.length s - 1) (fleet_str_loop fuel s acc).
Proof.
  revert s acc. induction fuel as [|fuel IH]; intros s acc Hf; [lia|].
  destruct s as [|c s]; cbn [fleet_str_loop]; [done|]. cbn [String.length] in *.
  case_if; [cbn; lia|]. case_if; [done|]. case_if; [eapply within_mono; [apply IH; lia|lia]|].
  destruct s as [|e s]; [done|]. cbn [String.length] in *. case_if.
  - eapply within_bind; [apply fleet_unicode_within|]. intros u s' Hs'.
    eapply within_mono; [apply IH; lia|lia].
  - destruct (short_escape e); [|done]. eapply within_mono; [apply IH; lia|lia].
Qed.

Lemma fleet_Str_within s : within (String.length s - 1) (fleet_Str s).
Proof.
  destruct s as [|c s]; cbn [fleet_Str]; [done|]. case_if; [|done].
  eapply within_mono; [apply fleet_str_loop_within; lia|cbn; lia].
Qed.

Lemma num_frac_within s : within (String.length s) (num_frac s).
Proof.
  unfold num_frac. destruct (starts_char _ _) as [r|] eqn:E; [|cbn; lia]. apply starts_char_length in E.
  pose proof (span_length isdigit r) as [Hl _]. destruct (span isdigit r) as [f r']. case_if; cbn in *; [done|lia].
Qed.

Lemma num_exp_within s : within (String.length s) (num_exp s).
Proof.
  unfold num_exp. destruct s as [|c r]; [cbn; lia|]. case_if; [|cbn; lia].
  set (r' := match r with String x r' => _ | _ => _ end).
  assert (String.length r' <= String.length r)%nat by (unfold r'; destruct r; [cbn; lia|]; case_if; cbn; lia). clearbody r'.
  pose proof (span_length isdigit r') as [Hl _]. destruct (span isdigit r') as [e r'']. case_if; cbn in *; [done|lia].
Qed.

Lemma fleet_Num_within s : within (String.length s - 1) (fleet_Num s).
Proof.
  unfold fleet_Num. set (s1 := match starts_char "-" s with Some r => r | None => s end).
  assert (String.length s1 <= String.length s)%nat
    by (unfold s1; destruct (starts_char "-" s) eqn:E; [apply starts_char_length in E|]; lia).
  clearbody s1. cbn zeta. pose proof (span_length isdigit s1) as [_ Hl]. destruct (span isdigit s1) as [ds s2]. cbn in Hl.
  destruct (sempty ds); [done|]. specialize (Hl eq_refl).
  eapply within_bind; [apply num_frac_within|]. intros f s3 H3. eapply within_bind; [apply num_exp_within|]. intros e s4 H4.
  assert (within (String.length s - 1) (match scan_double (stake (String.length s - String.length s4) s) with
    Some (d, EmptyString) => POk (JDouble d) s4 | _ => PErr "bad number" s4 end))
    by (destruct (scan_double _) as [[? []]|]; cbn; auto; lia).
  case_if; [done|]. destruct (strtoll_exact _); [cbn; lia|done].
Qed.

Lemma fleet_Val_within d s : within (String.length s - 1) (fleet_Val d s).
Proof. apply json_value_within; [apply fleet_Str_within|apply fleet_Num_within]. Qed.

Lemma fleet_Parse_total text :
  (exists v, fleet_Parse text = Parsed v) \/ (exists err, fleet_Parse text = ParseError err).
Proof.
  unfold fleet_Parse, fleet_ParseDepth.
  pose proof (fleet_Val_within 65 text) as H. destruct (fleet_Val 65 text); [eauto|done|]. case_if; eauto.
Qed.

(** The JSON the plugins hand to each other means the same on both sides: for every value without
    doubles whose integers fit 64 bits, with distinct keys and at most 64 levels, the status endpoint's writer
    and the fleet link's writer produce the same bytes, and each of the two parsers reads that value back.
    Both parsers answer on every text. *)
Theorem json_interop (j : Json) :
  plain j = true -> (depth j <= 64)%nat ->
  fleet_Dump j = Dump j /\ fleet_Parse (Dump j) = Parsed j /\ Parse (fleet_Dump j) = Parsed j /\
  (forall text, (exists v, fleet_Parse text = Parsed v) \/ (exists err, fleet_Parse text = ParseError err)).
Proof.
  intros Hp Hd. pose proof (fleet_Dump_eq j (plain_double_free j Hp)) as E. split_and!; [done| | |apply fleet_Parse_total].
  - rewrite <- E. by apply fleet_Parse_Dump.
  - rewrite E. by apply Parse_Dump.
Qed.

Lemma json_interop_witness :
  fleet_Dump sample_status = Dump sample_status /\ fleet_Parse (Dump sample_status) = Parsed sample_status /\
  Parse (fleet_Dump sample_status) = Parsed sample_status /\
  (forall text, (exists v, fleet_Parse text = Parsed v) \/ (exists err, fleet_Parse text = ParseError err)).
Proof. apply json_interop; [vm_compute; reflexivity|cbn; lia]. Defined.

(** ** A value inside a larger text

    What the parser reads from a text, it reads from the text followed by a closing brace, and it leaves
    the same part of it. *)

Section framed.
Variable t : string.

Definition braced (s : string) : string := s +s+ String "}"%char t.

(** The answer [r'] on the longer text. *)
Definition framed {A} (r r' : pres A) : Prop := match r with POk v s => r' = POk v (braced s) | _ => True end.

Lemma framed_bind {A B} (r r' : pres A) (f f' : A -> string -> pres B) :
  framed r r' -> (forall v s, framed (f v s) (f' v (braced s))) -> framed (pbind r f) (pbind r' f').
Proof. destruct r; cbn; auto. intros ->. cbn. auto. Qed.

Lemma Ws_braced s : Ws (braced s) = braced (Ws s).
Proof. unfold Ws, braced. induction s as [|c s IH]; [done|]. cbn. case_if; [done|]. done. Qed.

Lemma digits_braced s : span isdigit (braced s) = ((span isdigit s).1, braced (span isdigit s).2).
Proof.
  unfold braced. induction s as [|c s IH]; [done|]. cbn [String.append span]. rewrite IH.
  destruct (span isdigit s). by case_if.
Qed.

Lemma starts_with_braced lit s : starts_with lit s = true -> starts_with lit (braced s) = true.
Proof.
  intros [r ->]%starts_with_app. unfold braced. rewrite app_assoc_s. apply starts_with_refl.
Qed.

Lemma sdrop_braced n s : (n <= String.length s)%nat -> sdrop n (braced s) = braced (sdrop n s).
Proof. revert s. induction n as [|n IH]; intros s Hn; [done|]. destruct s as [|c s]; cbn in *; [lia|]. apply IH. lia. Qed.

Lemma stake_braced n s : (n <= String.length s)%nat -> stake n (braced s) = stake n s.
Proof. revert s. induction n as [|n IH]; intros s Hn; [done|]. destruct s as [|c s]; cbn in *; [lia|]. f_equal. apply IH. lia. Qed.

Lemma braced_length s : String.length (braced s) = (String.length s + S (String.length t))%nat.
Proof. unfold braced. by rewrite length_app_s. Qed.

Lemma Lit_framed lit s : framed (Lit lit s) (Lit lit (braced s)).
Proof.
  unfold Lit. destruct (starts_with lit s) eqn:E; [|done]. rewrite starts_with_braced by done. cbn.
  apply starts_with_app in E as [r ->]. by rewrite sdrop_braced by (rewrite length_app_s; lia).
Qed.

(** *** Strings *)

Lemma hex_run_framed k s v : framed (hex_run k s v) (hex_run k (braced s) v).
Proof. revert s v. induction k as [|k IH]; intros s v; [done|]. destruct s as [|c s]; [done|]. cbn. destruct (hex_val c); [apply IH|done]. Qed.

Lemma Hex4_framed s : framed (Hex4 s) (Hex4 (braced s)).
Proof.
  unfold Hex4. destruct (Nat.ltb_spec (String.length s) 4); [done|]. rewrite braced_length.
  destruct (Nat.ltb_spec (String.length s + S (String.length t)) 4); [lia|]. apply hex_run_framed.
Qed.

Lemma unicode_mark_braced s : starts_with (String backslash "u") (braced s) = starts_with (String backslash "u") s.
Proof. destruct s as [|c [|c' s]]; [done| |done]. cbn. by rewrite andb_false_r. Qed.

Lemma fleet_unicode_framed s : framed (fleet_unicode s) (fleet_unicode (braced s)).
Proof.
  unfold fleet_unicode. apply framed_bind; [apply Hex4_framed|]. intros cp s1. rewrite unicode_mark_braced.
  case_if; [|by case_if]. destruct (starts_with _ s1) eqn:E; [|done]. apply starts_with_app in E as [r ->].
  rewrite sdrop_braced by (cbn; lia). apply framed_bind; [apply Hex4_framed|]. intros lo s2. by case_if.
Qed.

Lemma fleet_str_loop_framed fuel : forall fuel' s acc, (fuel <= fuel')%nat ->
  framed (fleet_str_loop fuel s acc) (fleet_str_loop fuel' (braced s) acc).
Proof.
  induction fuel as [|fuel IH]; intros fuel' s acc Hf; [done|]. destruct fuel' as [|fuel']; [lia|]. apply le_S_n in Hf.
  destruct s as [|c s]; [done|]. cbn [fleet_str_loop]. change (braced (String c s)) with (String c (braced s)). cbn [fleet_str_loop].
  case_if; [done|]. case_if; [done|]. case_if; [by apply IH|].
  destruct s as [|e s]; [done|]. change (braced (String e s)) with (String e (braced s)). cbn [fleet_str_loop]. case_if.
  - apply framed_bind; [apply fleet_unicode_framed|]. intros u r. by apply IH.
  - destruct (short_escape e); [by apply IH|done].
Qed.

Lemma fleet_Str_framed s : framed (fleet_Str s) (fleet_Str (braced s)).
Proof.
  destruct s as [|c s]; [done|]. change (braced (String c s)) with (String c (braced s)). cbn [fleet_Str]. case_if; [|done].
  apply fleet_str_loop_framed. rewrite braced_length. lia.
Qed.

(** *** Numbers *)

Lemma num_frac_framed s : framed (num_frac s) (num_frac (braced s)).
Proof.
  unfold num_frac. destruct s as [|c s]; [done|]. change (braced (String c s)) with (String c (braced s)). cbn [starts_char].
  case_if; [|done]. rewrite digits_braced. destruct (span isdigit s) as [f r]. cbn. by case_if.
Qed.

Lemma num_exp_framed s : framed (num_exp s) (num_exp (braced s)).
Proof.
  unfold num_exp. destruct s as [|c s]; [done|]. change (braced (String c s)) with (String c (braced s)). cbn iota beta.
  case_if; [|done]. destruct s as [|x s]; [done|]. change (braced (String x s)) with (String x (braced s)). cbn iota beta. case_if.
  - rewrite digits_braced. destruct (span isdigit s) as [e r]. cbn. by case_if.
  - change (String x (braced s)) with (braced (String x s)). rewrite digits_braced. destruct (span isdigit (String x s)) as [e r]. cbn [fst snd]. by case_if.
Qed.

Lemma fleet_Num_framed s : framed (fleet_Num s) (fleet_Num (braced s)).
Proof.
  destruct s as [|c s]; [done|]. unfold fleet_Num. set (w := String c s).
  replace (match starts_char "-" (braced w) with Some r => r | None => braced w end)
    with (braced (match starts_char "-" w with Some r => r | None => w end)) by (cbn; by case_if).
  assert (String.length (match starts_char "-" w with Some r => r | None => w end) <= String.length w)%nat as H1
    by (cbn; case_if; cbn; lia).
  set (s1 := match starts_char "-" w with Some r => r | None => w end) in *. clearbody s1 w. cbn zeta. rewrite digits_braced.
  pose proof (span_length isdigit s1) as [H2 _]. destruct (span isdigit s1) as [ds s2]. cbn [fst snd] in *. destruct (sempty ds); [done|].
  pose proof (num_frac_framed s2) as F3. pose proof (num_frac_within s2) as W3. destruct (num_frac s2) as [| |f s3]; [done..|].
  cbn in F3, W3. rewrite F3. cbn [pbind]. pose proof (num_exp_framed s3) as F4. pose proof (num_exp_within s3) as W4.
  destruct (num_exp s3) as [| |e s4]; [done..|]. cbn in F4, W4. rewrite F4. cbn [pbind].
  replace (String.length (braced w) - String.length (braced s4))%nat with (String.length w - String.length s4)%nat by (rewrite !braced_length; lia).
  rewrite stake_braced by lia. case_if.
  - by destruct (scan_double _) as [[? []]|].
  - destruct (strtoll_exact _); [done|]. by destruct (scan_double _) as [[? []]|].
Qed.

(** *** Values *)

Lemma members_framed (value : string -> pres Json) : (forall s, framed (value s) (value (braced s))) ->
  forall fuel fuel' s acc, (fuel <= fuel')%nat -> framed (members_loop fleet_Str value fuel s acc) (members_loop fleet_Str value fuel' (braced s) acc).
Proof.
  intros Hv. induction fuel as [|fuel IH]; intros fuel' s acc Hf; [done|]. destruct fuel' as [|fuel']; [lia|]. apply le_S_n in Hf.
  cbn [members_loop]. rewrite Ws_braced. apply framed_bind; [apply fleet_Str_framed|]. intros key s1. rewrite Ws_braced.
  destruct (Ws s1) as [|c r]; [done|]. change (braced (String c r)) with (String c (braced r)). cbn [starts_char]. case_if; [|done].
  apply framed_bind; [apply Hv|]. intros v s3. rewrite Ws_braced.
  destruct (Ws s3) as [|x r3]; [done|]. change (braced (String x r3)) with (String x (braced r3)). cbn [separator].
  case_if; [by apply IH|]. by case_if.
Qed.

Lemma items_framed (value : string -> pres Json) : (forall s, framed (value s) (value (braced s))) ->
  forall fuel fuel' s acc, (fuel <= fuel')%nat -> framed (items_loop value fuel s acc) (items_loop value fuel' (braced s) acc).
Proof.
  intros Hv. induction fuel as [|fuel IH]; intros fuel' s acc Hf; [done|]. destruct fuel' as [|fuel']; [lia|]. apply le_S_n in Hf.
  cbn [items_loop]. apply framed_bind; [apply Hv|]. intros v s1. rewrite Ws_braced.
  destruct (Ws s1) as [|x r]; [done|]. change (braced (String x r)) with (String x (braced r)). cbn [separator].
  case_if; [by apply IH|]. by case_if.
Qed.

Lemma fleet_Val_framed d : forall s, framed (fleet_Val d s) (fleet_Val d (braced s)).
Proof.
  unfold fleet_Val. induction d as [|d IH]; intros s; [done|]. cbn [json_value]. rewrite Ws_braced.
  destruct (Ws s) as [|c r]; [done|]. change (braced (String c r)) with (String c (braced r)). cbn iota beta. rewrite Ws_braced.
  assert (String.length r <= String.length (braced r))%nat by (rewrite braced_length; lia).
  case_if; [|case_if; [|case_if; [|case_if; [|case_if; [|case_if]]]]].
  - destruct (Ws r) as [|x r'] eqn:E; [done|]. change (braced (String x r')) with (String x (braced r')). cbn [starts_char]. case_if; [done|].
    change (String x (braced r')) with (braced (String x r')). apply members_framed; [done|lia].
  - destruct (Ws r) as [|x r'] eqn:E; [by destruct d|]. change (braced (String x r')) with (String x (braced r')). cbn [starts_char]. case_if; [done|].
    change (String x (braced r')) with (braced (String x r')). apply items_framed; [done|lia].
  - change (String c (braced r)) with (braced (String c r)). apply framed_bind; [apply fleet_Str_framed|done].
  - change (String c (braced r)) with (braced (String c r)). apply framed_bind; [apply Lit_framed|done].
  - change (String c (braced r)) with (braced (String c r)). apply framed_bind; [apply Lit_framed|done].
  - change (String c (braced r)) with (braced (String c r)). apply framed_bind; [apply Lit_framed|done].
  - apply fleet_Num_framed.
Qed.
End framed.

(** *** An object whose last member is a text *)

(** The members before it, as a writer leaves them. *)
Fixpoint members_before (o : list (string * Json)) : string :=
  match o with
  | [] => EmptyString
  | (k, v) :: o => JsonEscape k +s+ String ":"%char (Dump v +s+ String ","%char (members_before o))
  end.

Lemma members_loop_before d o : forall acc fuel s,
  Forall (fun kv => reads fleet_Str fleet_Num d kv.2) o -> NoDup (keys (acc ++ o)) -> (length o <= fuel)%nat ->
  members_loop fleet_Str (fleet_Val d) fuel (members_before o +s+ s) acc =
  members_loop fleet_Str (fleet_Val d) (fuel - length o) s (acc ++ o).
Proof.
  induction o as [|[k v] o IH]; intros acc fuel s Ho Hnd Hf; [by rewrite app_nil_r, Nat.sub_0_r|].
  apply list.Forall_cons in Ho as [Hv Ho]. cbn [snd] in Hv. destruct fuel as [|fuel]; [cbn in Hf; lia|]. cbn [length] in *. rewrite Nat.sub_succ.
  cbn [members_before]. rewrite !app_assoc_s, app_cons_s, app_assoc_s, app_cons_s. cbn [members_loop].
  rewrite Ws_not_ws, fleet_Str_escape by done. cbn [pbind]. rewrite Ws_not_ws by done. cbn [starts_char Ascii.eqb Bool.eqb].
  unfold fleet_Val at 1. rewrite Hv by done. cbn [pbind]. rewrite Ws_not_ws by done. cbn [separator Ascii.eqb Bool.eqb].
  rewrite (set_member_fresh k v acc) by exact (NoDup_keys_fresh _ _ fleet_Str_escape fleet_Num_to_string _ _ _ _ Hnd). replace (acc ++ (k, v) :: o) with ((acc ++ [(k, v)]) ++ o) in Hnd |- * by (by rewrite <- app_assoc).
  by rewrite IH by (done || lia).
Qed.

Lemma members_before_length o : (length o <= String.length (members_before o))%nat.
Proof.
  induction o as [|[k v] o IH]; cbn [members_before length]; [done|]. rewrite length_app_s. cbn [String.length].
  rewrite length_app_s. cbn [String.length]. lia.
Qed.

(** The object is read with the value that the text has on its own, one level down. *)
Lemma fleet_Val_last d o k p pl rest t :
  plain (JObject o) = true -> (depth (JObject o) <= S d)%nat -> k ∉ keys o ->
  fleet_Val (S d) p = POk pl rest -> Ws rest = EmptyString ->
  fleet_Val (S (S d)) (String "{" (members_before o +s+ JsonEscape k +s+ String ":"%char (braced t p))) = POk (JObject (o ++ [(k, pl)])) t.
Proof.
  intros Hp Hd Hk Hv Hr. apply plain_object in Hp as [Hnd Hp]. pose proof (fleet_Val_framed t (S d) p) as Hf. rewrite Hv in Hf. cbn [framed] in Hf.
  cbn [depth] in Hd. apply le_S_n, max_members_le in Hd.
  assert (Forall (fun kv => reads fleet_Str fleet_Num (S d) kv.2) o) as Ho.
  { rewrite Forall_forall in *. intros kv Hkv r Hrs. apply fleet_Val_Dump; auto. }
  set (body := members_before o +s+ _). unfold fleet_Val. remember (S d) as d' eqn:E. cbn [json_value]. fold (fleet_Val d').
  rewrite Ws_not_ws by done. cbn [Ascii.eqb Bool.eqb].
  assert (Ws body = body /\ starts_char "}" body = None) as [-> ->] by (unfold body; destruct o as [|[k' v'] o]; done).
  unfold body at 2. rewrite members_loop_before; [|done|done|].
  - cbn [app]. match goal with |- members_loop _ _ ?n _ _ = _ => destruct n as [|fuel] eqn:Ef end.
    { unfold body in Ef. rewrite length_app_s in Ef. pose proof (members_before_length o). lia. }
    cbn [members_loop]. rewrite Ws_not_ws, fleet_Str_escape by done. cbn [pbind]. rewrite Ws_not_ws by done. cbn [starts_char Ascii.eqb Bool.eqb].
    subst d'. rewrite Hf. cbn [pbind]. rewrite Ws_braced, Hr. cbn [separator braced String.append Ascii.eqb Bool.eqb]. by rewrite set_member_fresh.
  - unfold body. rewrite length_app_s. pose proof (members_before_length o). lia.
Qed.

(** What a text reads as on its own: a reader of [d] levels leaves nothing but blanks. *)
Lemma fleet_ParseDepth_spec d p v :
  fleet_ParseDepth d p = Parsed v <-> exists rest, fleet_Val (S d) p = POk v rest /\ Ws rest = EmptyString.
Proof.
  unfold fleet_ParseDepth. split.
  - destruct (fleet_Val (S d) p) as [| |w rest]; try done. destruct (Ws rest) eqn:E; [|done]. intros [= <-]. eauto.
  - by intros (rest & -> & ->).
Qed.

Lemma fleet_Parse_last o k p pl :
  plain (JObject o) = true -> (depth (JObject o) <= 64)%nat -> k ∉ keys o -> fleet_ParseDepth 63 p = Parsed pl ->
  fleet_Parse (String "{" (members_before o +s+ JsonEscape k +s+ String ":"%char (p +s+ "}"))) = Parsed (JObject (o ++ [(k, pl)])).
Proof.
  intros Hp Hd Hk (rest & Hv & Hr)%fleet_ParseDepth_spec. apply fleet_ParseDepth_spec. exists EmptyString. split; [|done].
  by apply (fleet_Val_last 63 o k p pl rest EmptyString).
Qed.

Lemma fleet_ParseDepth_Dump n j : plain j = true -> (depth j <= n)%nat -> fleet_ParseDepth n (fleet_Dump j) = Parsed j.
Proof.
  intros Hp Hd. apply fleet_ParseDepth_spec. exists EmptyString. split; [|done].
  rewrite (fleet_Dump_eq j (plain_double_free j Hp)), <- (app_nil_s (Dump j)). by apply fleet_Val_Dump.
Qed.

(** ** No line breaks *)

Lemma no_nl_stake n s : no_nl s = true -> no_nl (stake n s) = true.
Proof.
  unfold no_nl. revert s. induction n as [|n IH]; intros s H; [done|]. destruct s as [|c s]; [done|].
  cbn [stake sforall] in *. apply andb_prop in H as [-> H]. by apply IH.
Qed.

Lemma no_nl_sdrop n s : no_nl s = true -> no_nl (sdrop n s) = true.
Proof.
  unfold no_nl. revert s. induction n as [|n IH]; intros s H; [done|]. destruct s as [|c s]; [done|].
  cbn [sdrop sforall] in *. apply andb_prop in H as [_ H]. by apply IH.
Qed.

Lemma no_nl_drop_end f s : no_nl s = true -> no_nl (drop_while_end f s) = true.
Proof.
  unfold no_nl. induction s as [|c s IH]; [done|]. cbn [drop_while_end sforall]. intros [Hc Hs]%andb_prop. specialize (IH Hs).
  destruct (drop_while_end f s); [case_if; [done|]; cbn; by rewrite Hc|]. cbn [sforall] in *. by rewrite Hc, IH.
Qed.

Lemma no_nl_frac s : no_nl s = true -> no_nl (frac_part s) = true.
Proof. intros H. unfold frac_part. case_if; [done|]. rewrite no_nl_cons. by rewrite no_nl_drop_end. Qed.

Lemma dec_nonneg_no_nl n : no_nl (dec_nonneg n) = true.
Proof.
  unfold dec_nonneg, no_nl. generalize (S (Z.to_nat (Z.log2 n))) as fuel. intros fuel.
  assert (no_nl EmptyString = true) as H by done. revert n H. generalize EmptyString as acc. unfold no_nl.
  induction fuel as [|fuel IH]; intros acc n H; [done|]. cbn [dec_aux].
  assert (sforall (fun c => negb (Ascii.eqb c newline) && negb (Ascii.eqb c creturn)) (String (digit_chr (n mod 10)) acc) = true) as H'.
  { cbn [sforall]. rewrite isdigit_no_nl; [done|]. apply digit_chr_digit. pose proof (Z.mod_pos_bound n 10). lia. }
  case_if; [done|]. by apply IH.
Qed.

Lemma zeros_no_nl n : no_nl (zeros n) = true.
Proof. induction n as [|n IH]; [done|]. cbn [zeros]. by rewrite no_nl_cons, IH. Qed.

Lemma fmt_g_no_nl p d : no_nl (fmt_g p d) = true.
Proof.
  destruct d as [[]|[]| |s m e]; try done. cbn [fmt_g].
  repeat match goal with |- context [let '(_, _) := ?x in _] => destruct x end.
  match goal with |- no_nl (if s then _ +s+ ?b else ?b) = true => enough (no_nl b = true) as H by (destruct s; [by rewrite no_nl_app, H|done]) end.
  repeat first [apply dec_nonneg_no_nl | apply zeros_no_nl | apply no_nl_stake | apply no_nl_frac | apply no_nl_sdrop | reflexivity
    | rewrite no_nl_app; apply andb_true_intro; split | match goal with |- no_nl (if ?c then _ else _) = true => destruct c end].
Qed.

(** The writer never breaks a line. *)
Lemma fleet_Dump_no_nl j : no_nl (fleet_Dump j) = true.
Proof.
  induction j as [|[]|i|x|s|o IH|a IH] using json_nested_ind; try done.
  - apply to_string_no_nl.
  - cbn [fleet_Dump]. case_if; [apply fmt_g_no_nl|done].
  - cbn [fleet_Dump]. rewrite AppendQuoted_eq. apply JsonEscape_no_nl.
  - cbn [fleet_Dump]. rewrite no_nl_cons. enough (forall b, no_nl (fleet_members fleet_Dump b o) = true) as -> by done.
    induction IH as [|[k v] o IHv _ IHo]; intros b; [done|]. cbn [snd] in IHv.
    cbn [fleet_members]. rewrite AppendQuoted_eq, !no_nl_app, no_nl_cons, no_nl_app, JsonEscape_no_nl, IHv, (IHo false). by destruct b.
  - cbn [fleet_Dump]. rewrite no_nl_cons. enough (forall b, no_nl (dump_items fleet_Dump b a) = true) as -> by done.
    induction IH as [|v a IHv _ IHa]; intros b; [done|]. cbn [dump_items]. rewrite !no_nl_app, IHv, (IHa false). by destruct b.
Qed.
