(* ===== verification/Spool.v ===== *)
(** * The outbound spool of the fleet link

    [plugins/fleet/fleet_spool.{h,cpp}]: the server's reliable stream, kept in memory and on disk
    until the platform acknowledges it.  The disk is two texts ([stream.log], [meta.json]) and an
    oracle that answers every call that may fail, in call order; [WriteFileAtomic] replaces a whole
    file or leaves it as it was.  The component is owned by one thread.  Sequence numbers and byte
    counts are unbounded here: 2^63 messages are out of reach. *)

From S2P Require Import Prelude CStr Double Json FleetJson.

(** ** Records *)

Record SpoolRecord := {
  seq : Z; type : string; id : string; ref : string; ts : Z; epoch : Z; critical : bool; payload : string }.

Definition Bytes (r : SpoolRecord) : Z := slen (payload r) + slen (type r) + slen (id r) + slen (ref r) + 96.

Definition IsCriticalType (t : string) : bool :=
  (t =s "event.round_end") || (t =s "event.backup") || (t =s "event.map_result") || (t =s "event.series_end") ||
  (t =s "event.demo") || (t =s "cmd.result") || (t =s "skins.stattrak") || (t =s "auth.rotated") ||
  (t =s "event.rounds_voided") || (t =s "event.match_restored") || (t =s "event.forfeit").

Definition RecordLine (r : SpoolRecord) : string :=
  qs "{`seq`:" +s+ to_string (seq r) +s+ qs ",`type`:" +s+ AppendQuoted (type r) +s+
  qs ",`id`:" +s+ AppendQuoted (id r) +s+
  (if sempty (ref r) then EmptyString else qs ",`ref`:" +s+ AppendQuoted (ref r)) +s+
  qs ",`ts`:" +s+ to_string (ts r) +s+ qs ",`epoch`:" +s+ to_string (epoch r) +s+
  (if critical r then qs ",`crit`:true" else qs ",`crit`:false") +s+
  qs ",`payload`:" +s+ payload r +s+ "}" +s+ str1 newline.

Definition log_of (l : list SpoolRecord) : string := foldr (fun r acc => RecordLine r +s+ acc) EmptyString l.

(** ** State *)

(** A missing [stream.log] reads like an empty one; [meta_text] is [None] while [meta.json] is missing.
    [io k] is the outcome of the k-th call that can fail: [None] is success, [Some n] a failure (after
    [n] bytes, for [fwrite]). *)
Record Disk := { log_text : string; meta_text : option string; io : nat -> option nat; calls : nat }.

Record Limits := { maxMsgs : Z; maxBytes : Z }.

Record Spool := {
  dir_ : string; limits_ : Limits; log_open : bool; logBytes_ : Z;
  recs_ : list SpoolRecord; bytes_ : Z; dropped_ : Z;
  streamId_ : string; nextSeq_ : Z; ackedSeq_ : Z; rxSeq_ : Z;
  gap_ : bool; metaDirty_ : bool; lastFlushMs_ : Z; disk : Disk }.

Definition set_log (op : bool) (n : Z) (d : Disk) (s : Spool) : Spool :=
  {| dir_ := dir_ s; limits_ := limits_ s; log_open := op; logBytes_ := n; recs_ := recs_ s; bytes_ := bytes_ s;
     dropped_ := dropped_ s; streamId_ := streamId_ s; nextSeq_ := nextSeq_ s; ackedSeq_ := ackedSeq_ s; rxSeq_ := rxSeq_ s;
     gap_ := gap_ s; metaDirty_ := metaDirty_ s; lastFlushMs_ := lastFlushMs_ s; disk := d |}.
Definition set_recs (l : list SpoolRecord) (b : Z) (s : Spool) : Spool :=
  {| dir_ := dir_ s; limits_ := limits_ s; log_open := log_open s; logBytes_ := logBytes_ s; recs_ := l; bytes_ := b;
     dropped_ := dropped_ s; streamId_ := streamId_ s; nextSeq_ := nextSeq_ s; ackedSeq_ := ackedSeq_ s; rxSeq_ := rxSeq_ s;
     gap_ := gap_ s; metaDirty_ := metaDirty_ s; lastFlushMs_ := lastFlushMs_ s; disk := disk s |}.
(** [++dropped_; gap_ = true; metaDirty_ = true]. *)
Definition flag_drop (s : Spool) : Spool :=
  {| dir_ := dir_ s; limits_ := limits_ s; log_open := log_open s; logBytes_ := logBytes_ s; recs_ := recs_ s; bytes_ := bytes_ s;
     dropped_ := dropped_ s + 1; streamId_ := streamId_ s; nextSeq_ := nextSeq_ s; ackedSeq_ := ackedSeq_ s; rxSeq_ := rxSeq_ s;
     gap_ := true; metaDirty_ := true; lastFlushMs_ := lastFlushMs_ s; disk := disk s |}.
Definition set_stream (sid : string) (next acked rx : Z) (g dirty : bool) (s : Spool) : Spool :=
  {| dir_ := dir_ s; limits_ := limits_ s; log_open := log_open s; logBytes_ := logBytes_ s; recs_ := recs_ s; bytes_ := bytes_ s;
     dropped_ := dropped_ s; streamId_ := sid; nextSeq_ := next; ackedSeq_ := acked; rxSeq_ := rx;
     gap_ := g; metaDirty_ := dirty; lastFlushMs_ := lastFlushMs_ s; disk := disk s |}.
Definition set_flushed (dirty : bool) (ms : Z) (d : Disk) (s : Spool) : Spool :=
  {| dir_ := dir_ s; limits_ := limits_ s; log_open := log_open s; logBytes_ := logBytes_ s; recs_ := recs_ s; bytes_ := bytes_ s;
     dropped_ := dropped_ s; streamId_ := streamId_ s; nextSeq_ := nextSeq_ s; ackedSeq_ := ackedSeq_ s; rxSeq_ := rxSeq_ s;
     gap_ := gap_ s; metaDirty_ := dirty; lastFlushMs_ := ms; disk := d |}.

Definition lastSeq (s : Spool) : Z := nextSeq_ s - 1.

(** ** Disk calls *)

Definition ask (d : Disk) : Disk * option nat :=
  ({| log_text := log_text d; meta_text := meta_text d; io := io d; calls := S (calls d) |}, io d (calls d)).
Definition put_log (t : string) (d : Disk) : Disk :=
  {| log_text := t; meta_text := meta_text d; io := io d; calls := calls d |}.
Definition put_meta (t : string) (d : Disk) : Disk :=
  {| log_text := log_text d; meta_text := Some t; io := io d; calls := calls d |}.

(** The two failing calls are [WriteFileAtomic] and [fopen]. *)
Definition Rewrite (s : Spool) : Spool * bool :=
  let data := log_of (recs_ s) in
  let '(d, e) := ask (disk s) in
  match e with
  | Some _ => (set_log false (logBytes_ s) d s, false)
  | None =>
      let '(d, e) := ask (put_log data d) in
      let opened := match e with None => true | Some _ => false end in
      (set_log opened (slen data) d s, opened)
  end.

(** A failed [fwrite] leaves the bytes it wrote. *)
Definition AppendLine (r : SpoolRecord) (s : Spool) : Spool * bool :=
  if negb (log_open s) then (s, false)
  else
    let line := RecordLine r in
    let '(d, e) := ask (disk s) in
    match e with
    | Some n => (set_log true (logBytes_ s) (put_log (log_text d +s+ stake n line) d) s, false)
    | None => (set_log true (logBytes_ s + slen line) (put_log (log_text d +s+ line) d) s, true)
    end.

Definition meta_json (s : Spool) : Json :=
  JObject [("stream_id", JString (streamId_ s)); ("next_seq", JInt (nextSeq_ s)); ("acked_seq", JInt (ackedSeq_ s));
           ("rx_seq", JInt (rxSeq_ s)); ("gap", JBool (gap_ s))].
Definition meta_line (s : Spool) : string := fleet_Dump (meta_json s) +s+ str1 newline.

Definition FlushMeta (s : Spool) : Spool * bool :=
  if sempty (dir_ s) then (s, false)
  else
    let '(d, e) := ask (disk s) in
    match e with
    | Some _ => (set_flushed (metaDirty_ s) (lastFlushMs_ s) d s, false)
    | None => (set_flushed false (lastFlushMs_ s) (put_meta (meta_line s) d) s, true)
    end.

Definition MaybeFlush (nowMs : Z) (s : Spool) : Spool :=
  if negb (metaDirty_ s) || (nowMs - lastFlushMs_ s <? 1000) then s
  else (FlushMeta (set_flushed (metaDirty_ s) nowMs (disk s) s)).1.

Definition Close (s : Spool) : Spool :=
  if log_open s
  then
    let s := if metaDirty_ s then (FlushMeta s).1 else s in
    set_log false (logBytes_ s) (disk s) s
  else s.

(** ** Dropping *)

(** The oldest record that is not critical, and the others. *)
Fixpoint take_compactable (l : list SpoolRecord) : option (SpoolRecord * list SpoolRecord) :=
  match l with
  | [] => None
  | r :: l => if negb (critical r) then Some (r, l) else (fun '(x, l) => (x, r :: l)) <$> take_compactable l
  end.

Definition DropOneCompactable (s : Spool) : option Spool :=
  match take_compactable (recs_ s) with
  | None => None
  | Some (r, l) => Some (flag_drop (set_recs l (bytes_ s - Bytes r) s))
  end.

(** [while (cond && DropOneCompactable()) any = true]; every round removes a record, so the number of
    records is enough fuel. *)
Fixpoint drop_loop (fuel : nat) (cond : Spool -> bool) (s : Spool) (any : bool) : Spool * bool :=
  match fuel with
  | O => (s, any)
  | S fuel =>
      if cond s then
        match DropOneCompactable s with
        | None => (s, any)
        | Some s => drop_loop fuel cond s true
        end
      else (s, any)
  end.

Definition over (add : Z) (f : double) (s : Spool) : bool :=
  (dmul (of_int (maxMsgs (limits_ s))) f <d of_int (zlen (recs_ s) + 1)) ||
  (dmul (of_int (maxBytes (limits_ s))) f <d of_int (bytes_ s + add)).

(** The 90% mark down to which a first drop goes on. *)
Definition crowded (s : Spool) : bool :=
  (dmul (of_int (maxMsgs (limits_ s))) (dratio 9 10) <d of_int (zlen (recs_ s))) ||
  (dmul (of_int (maxBytes (limits_ s))) (dratio 9 10) <d of_int (bytes_ s)).

Definition make_room (add : Z) (s : Spool) : Spool * bool :=
  let '(s, any) := drop_loop (length (recs_ s)) (over add (of_int 1)) s false in
  if any then ((drop_loop (length (recs_ s)) crowded s true).1, true) else (s, false).

(** ** Operations *)

Definition new_record (ty i rf : string) (t ep : Z) (payloadJson : string) : SpoolRecord :=
  {| seq := 0; type := ty; id := i; ref := rf; ts := t; epoch := ep; critical := IsCriticalType ty;
     payload := if sempty payloadJson then "{}" else payloadJson |}.

Definition with_seq (n : Z) (r : SpoolRecord) : SpoolRecord :=
  {| seq := n; type := type r; id := id r; ref := ref r; ts := ts r; epoch := epoch r; critical := critical r; payload := payload r |}.

(** The returned sequence number, 0 when the message was refused. *)
Definition Append (ty i rf : string) (t ep : Z) (payloadJson : string) (s : Spool) : Spool * Z :=
  let r := new_record ty i rf t ep payloadJson in
  let add := Bytes r in
  let '(s, droppedAny) := make_room add s in
  if over add (of_int 1) s && (negb (critical r) || over add (of_int 2) s)
  then
    let s := flag_drop s in
    (if droppedAny then (Rewrite s).1 else s, 0)
  else
    let r := with_seq (nextSeq_ s) r in
    let s := set_stream (streamId_ s) (nextSeq_ s + 1) (ackedSeq_ s) (rxSeq_ s) (gap_ s) true s in
    let s := set_recs (recs_ s ++ [r]) (bytes_ s + add) s in
    if droppedAny then ((Rewrite s).1, seq r)
    else let '(s, ok) := AppendLine r s in (if ok then s else (Rewrite s).1, seq r).

(** The pops at the front of the queue. *)
Fixpoint pop_acked (acked : Z) (l : list SpoolRecord) (b : Z) : list SpoolRecord * Z :=
  match l with
  | [] => ([], b)
  | r :: l' => if seq r <=? acked then pop_acked acked l' (b - Bytes r) else (l, b)
  end.

Definition AckUpTo (q : Z) (s : Spool) : Spool :=
  if q <=? ackedSeq_ s then s
  else
    let acked := Z.min q (lastSeq s) in
    let s := set_stream (streamId_ s) (nextSeq_ s) acked (rxSeq_ s) (gap_ s) true s in
    let '(l, b) := pop_acked acked (recs_ s) (bytes_ s) in
    let s := set_recs l b s in
    if (match l with [] => true | _ => false end && (65536 <? logBytes_ s)) ||
       ((1048576 <? logBytes_ s) && (2 * bytes_ s + 1048576 <? logBytes_ s))
    then (Rewrite (FlushMeta s).1).1 else s.

Fixpoint renumber (n : Z) (l : list SpoolRecord) : list SpoolRecord :=
  match l with [] => [] | r :: l => with_seq n r :: renumber (n + 1) l end.

(** [fresh] is the new stream id ([NewUlid]). *)
Definition RotateIfGap (fresh : string) (s : Spool) : Spool * bool :=
  if negb (gap_ s) then (s, false)
  else
    let s := set_recs (renumber 1 (recs_ s)) (bytes_ s) s in
    let s := set_stream fresh (zlen (recs_ s) + 1) 0 (rxSeq_ s) false true s in
    ((Rewrite (FlushMeta s).1).1, true).

Definition SetRxSeq (q : Z) (s : Spool) : Spool :=
  if q =? rxSeq_ s then s
  else set_stream (streamId_ s) (nextSeq_ s) (ackedSeq_ s) q (gap_ s) true s.

(** ** Opening *)

(** [ReadFile] refuses a file larger than its limit. *)
Definition read_limited (limit : Z) (t : string) : option string := if limit <? slen t then None else Some t.

(** [v.Get(key) ? v.Get(key)->AsInt(def) : def]. *)
Definition get_int (v : Json) (key : string) (def : Z) : option Z :=
  match Get v key with Some x => AsIntOr def x | None => Some def end.
Definition get_str (v : Json) (key : string) : string := match Get v key with Some x => AsStrOr EmptyString x | None => EmptyString end.
Definition get_bool (v : Json) (key : string) : bool := match Get v key with Some x => AsBoolOr false x | None => false end.

(** [None] is an undefined conversion of a number; the result is whether there is a usable meta file. *)
Definition LoadMeta (s : Spool) : option (Spool * bool) :=
  match (meta_text (disk s)) ≫= read_limited 65536 with
  | None => Some (s, false)
  | Some text =>
      match fleet_Parse text with
      | Parsed v =>
          if IsObj v && match Get v "stream_id" with Some x => IsStr x | None => false end
          then
            next ← get_int v "next_seq" 1;
            acked ← get_int v "acked_seq" 0;
            rx ← get_int v "rx_seq" 0;
            let s := set_stream (get_str v "stream_id") (Z.max 1 next) (Z.max 0 acked) (Z.max 0 rx) (get_bool v "gap") (metaDirty_ s) s in
            Some (s, negb (sempty (streamId_ s)))
          else Some (s, false)
      | _ => Some (s, false)
      end
  end.

(** A line of the log after [prev]: an unreadable one counts as bad. *)
Inductive log_line := LineBad | LineRecord (r : SpoolRecord).

Definition load_line (prev : Z) (line : string) : option log_line :=
  match fleet_Parse line with
  | Parsed v =>
      if negb (IsObj v) then Some LineBad
      else
        sq ← get_int v "seq" 0;
        t ← get_int v "ts" 0;
        ep ← get_int v "epoch" 0;
        let ty := get_str v "type" in
        Some (match Get v "payload" with
              | Some p =>
                  if (sq <=? prev) || sempty ty || negb (IsObj p) then LineBad
                  else LineRecord {| seq := sq; type := ty; id := get_str v "id"; ref := get_str v "ref"; ts := t; epoch := ep;
                                     critical := get_bool v "crit"; payload := fleet_Dump p |}
              | None => LineBad
              end)
  | _ => Some LineBad
  end.

(** The loop over the lines: the records read, their bytes, and whether a line was bad. *)
Fixpoint load_lines (prev : Z) (ls : list string) (recs : list SpoolRecord) (b : Z) (bad : bool) : option (list SpoolRecord * Z * bool) :=
  match ls with
  | [] => Some (recs, b, bad)
  | l :: ls =>
      if sempty l then load_lines prev ls recs b bad
      else
        x ← load_line prev l;
        match x with
        | LineBad => load_lines prev ls recs b true
        | LineRecord r => load_lines (seq r) ls (recs ++ [r]) (b + Bytes r) bad
        end
  end.

(** The lines of a text; the part after the last newline is one when it is not empty. *)
Fixpoint split_lines (fuel : nat) (t : string) : list string :=
  match fuel with
  | O => []
  | S fuel =>
      if sempty t then []
      else
        let '(l, r) := span (fun c => negb (Ascii.eqb c newline)) t in
        l :: match r with EmptyString => [] | String _ r => split_lines fuel r end
  end.
Definition lines_of (t : string) : list string := split_lines (S (String.length t)) t.

Definition LoadLog (s : Spool) : option Spool :=
  match read_limited 1073741824 (log_text (disk s)) with
  | None => Some s
  | Some text =>
      '(recs, b, bad) ← load_lines 0 (lines_of text) (recs_ s) (bytes_ s) false;
      let s := set_recs recs b s in
      Some (if bad : bool then set_stream (streamId_ s) (nextSeq_ s) (ackedSeq_ s) (rxSeq_ s) true (metaDirty_ s) s else s)
  end.

Definition set_target (dir : string) (lim : Limits) (s : Spool) : Spool :=
  {| dir_ := dir; limits_ := lim; log_open := log_open s; logBytes_ := logBytes_ s; recs_ := []; bytes_ := 0;
     dropped_ := dropped_ s; streamId_ := streamId_ s; nextSeq_ := nextSeq_ s; ackedSeq_ := ackedSeq_ s; rxSeq_ := rxSeq_ s;
     gap_ := gap_ s; metaDirty_ := metaDirty_ s; lastFlushMs_ := lastFlushMs_ s; disk := disk s |}.

(** Without a usable meta file the log's messages belong to no known stream. *)
Definition adopt_log (fresh : string) (s : Spool) : Spool :=
  set_stream fresh (match last (recs_ s) with Some r => seq r + 1 | None => 1 end) 0 0
    (match recs_ s with [] => false | _ => true end) (metaDirty_ s) s.

(** [Open]; [mkdir] is the result of [MakeDirs] and [fresh] a new stream id.  The human-readable note is
    left out.  [None]: an undefined conversion while loading. *)
Definition Open (mkdir : bool) (fresh dir : string) (lim : Limits) (s : Spool) : option (Spool * bool) :=
  let s := set_target dir lim (Close s) in
  if negb mkdir then Some (s, false)
  else
    '(s, haveMeta) ← LoadMeta s;
    s ← LoadLog s;
    let s := if haveMeta : bool then s else adopt_log fresh s in
    let '(l, b) := pop_acked (ackedSeq_ s) (recs_ s) (bytes_ s) in
    let s := set_recs l b s in
    let next := match last l with Some r => if nextSeq_ s <=? seq r then seq r + 1 else nextSeq_ s | None => nextSeq_ s end in
    let s := set_stream (streamId_ s) next (ackedSeq_ s) (rxSeq_ s) (gap_ s) (metaDirty_ s) s in
    let '(s, ok) := Rewrite s in
    if negb ok then Some (s, false)
    else
      let s := set_stream (streamId_ s) (nextSeq_ s) (ackedSeq_ s) (rxSeq_ s) (gap_ s) true s in
      Some (FlushMeta s).

(** ** Runs of the network thread *)

Inductive SpoolOp :=
  | OpAppend (ty i rf : string) (t ep : Z) (payloadJson : string)
  | OpAck (q : Z)
  | OpRotate (fresh : string)
  | OpRx (q : Z)
  | OpFlush (nowMs : Z).

Definition spool_step (s : Spool) (o : SpoolOp) : Spool :=
  match o with
  | OpAppend ty i rf t ep p => (Append ty i rf t ep p s).1
  | OpAck q => AckUpTo q s
  | OpRotate f => (RotateIfGap f s).1
  | OpRx q => SetRxSeq q s
  | OpFlush now => MaybeFlush now s
  end.

#[global] Arguments Rewrite _ : simpl never.
#[global] Arguments AppendLine _ _ : simpl never.
#[global] Arguments FlushMeta _ : simpl never.
#[global] Arguments RecordLine _ : simpl never.
