(* ===== verification/SpoolFacts.v ===== *)
(** * Theorems about the outbound spool

    The numbering of the stream, the fate of critical messages and the contents of the log file, over
    every sequence of operations. *)

From S2P Require Import Prelude CStr Double Json JsonFacts FleetJson Spool.

(** ** Invariant *)

(** Strictly increasing sequence numbers between [a] and [b] (both excluded). *)
Fixpoint increasing (a : Z) (l : list SpoolRecord) (b : Z) : Prop :=
  match l with [] => a < b | r :: l => a < seq r /\ increasing (seq r) l b end.

(** Exactly the numbers from [a] up to [b] (excluded). *)
Fixpoint contiguous (a : Z) (l : list SpoolRecord) (b : Z) : Prop :=
  match l with [] => a = b | r :: l => seq r = a /\ contiguous (a + 1) l b end.

Record spool_ok (s : Spool) : Prop := {
  ok_bytes : bytes_ s = sumZ Bytes (recs_ s);
  ok_acked : 0 <= ackedSeq_ s;
  ok_incr : increasing (ackedSeq_ s) (recs_ s) (nextSeq_ s);
  ok_contig : gap_ s = false -> contiguous (ackedSeq_ s + 1) (recs_ s) (nextSeq_ s) }.

(** What the disk calls leave alone. *)
Record same_core (s s' : Spool) : Prop := {
  sc_recs : recs_ s' = recs_ s; sc_bytes : bytes_ s' = bytes_ s; sc_next : nextSeq_ s' = nextSeq_ s;
  sc_acked : ackedSeq_ s' = ackedSeq_ s; sc_gap : gap_ s' = gap_ s; sc_limits : limits_ s' = limits_ s;
  sc_dir : dir_ s' = dir_ s }.

#[export] Instance same_core_refl : Reflexive same_core.
Proof. intros s. by split. Qed.
#[export] Instance same_core_trans : Transitive same_core.
Proof. intros a b c [] []. split; congruence. Qed.

Lemma Rewrite_core s : same_core s (Rewrite s).1.
Proof. unfold Rewrite. cbn. destruct (io (disk s) (calls (disk s))); [by split|]. by split. Qed.

Lemma AppendLine_core r s : same_core s (AppendLine r s).1.
Proof. unfold AppendLine. destruct (log_open s); cbn; [|done]. destruct (io (disk s) (calls (disk s))); by split. Qed.

Lemma FlushMeta_core s : same_core s (FlushMeta s).1.
Proof. unfold FlushMeta. destruct (sempty (dir_ s)); [done|]. cbn. destruct (io (disk s) (calls (disk s))); by split. Qed.

Lemma MaybeFlush_core now s : same_core s (MaybeFlush now s).
Proof.
  unfold MaybeFlush. case_if; [done|]. etransitivity; [|apply FlushMeta_core]. by split.
Qed.

Lemma spool_ok_core s s' : same_core s s' -> spool_ok s -> spool_ok s'.
Proof. intros [E1 E2 E3 E4 E5 _ _] [H1 H2 H3 H4]. split; rewrite ?E1, ?E2, ?E3, ?E4, ?E5; done. Qed.

(** ** Numbering lemmas *)

Lemma increasing_lt a l b : increasing a l b -> a < b.
Proof. revert a. induction l as [|r l IH]; cbn; [done|]. intros a [H1 H2]. specialize (IH _ H2). lia. Qed.

Lemma increasing_weaken a a' l b : a <= a' -> increasing a' l b -> increasing a l b.
Proof. destruct l; cbn; intros H1 H2; [lia|]. destruct H2 as [H2 H3]. split; [lia|done]. Qed.

Lemma increasing_snoc a l b r : increasing a l b -> seq r = b -> increasing a (l ++ [r]) (b + 1).
Proof. revert a. induction l as [|x l IH]; cbn; intros a H E; [lia|]. destruct H. split; [done|]. by apply IH. Qed.

Lemma increasing_remove a pre r post b : increasing a (pre ++ r :: post) b -> increasing a (pre ++ post) b.
Proof.
  revert a. induction pre as [|x pre IH]; cbn; intros a.
  - intros [H1 H2]. by apply (increasing_weaken a (seq r)); [lia|].
  - intros [H1 H2]. split; [done|]. by apply IH.
Qed.

Lemma contiguous_snoc a l b r : contiguous a l b -> seq r = b -> contiguous a (l ++ [r]) (b + 1).
Proof. revert a. induction l as [|x l IH]; cbn; intros a H E; [split; lia|]. destruct H. split; [done|]. by apply IH. Qed.

Lemma renumber_contiguous n l : contiguous n (renumber n l) (n + zlen l).
Proof.
  revert n. induction l as [|r l IH]; intros n; cbn; [rewrite zlen_nil; lia|]. split; [done|].
  rewrite zlen_cons. replace (n + (1 + zlen l)) with (n + 1 + zlen l) by lia. apply IH.
Qed.

Lemma contiguous_increasing a l b : contiguous a l b -> increasing (a - 1) l b.
Proof.
  revert a. induction l as [|r l IH]; cbn; intros a H; [lia|]. destruct H as [E H]. split; [lia|].
  specialize (IH _ H). by replace (seq r) with (a + 1 - 1) by lia.
Qed.

Lemma renumber_bytes n l : sumZ Bytes (renumber n l) = sumZ Bytes l /\ zlen (renumber n l) = zlen l.
Proof.
  revert n. induction l as [|r l IH]; intros n; cbn; [done|]. rewrite !sumZ_cons, !zlen_cons.
  destruct (IH (n + 1)) as [-> ->]. done.
Qed.

(** The records an acknowledgement removes. *)
Fixpoint popped (q : Z) (l : list SpoolRecord) : list SpoolRecord :=
  match l with [] => [] | r :: l => if seq r <=? q then r :: popped q l else [] end.

Lemma pop_acked_split q l : forall b, l = popped q l ++ (pop_acked q l b).1 /\ (pop_acked q l b).2 = b - sumZ Bytes (popped q l) /\
  Forall (fun r => seq r <= q) (popped q l).
Proof.
  induction l as [|r l IH]; intros b; cbn; [split_and!; [done|unfold sumZ; cbn; lia|constructor]|].
  destruct (Z.leb_spec (seq r) q) as [Hle|Hgt]; cbn; [|split_and!; [done|unfold sumZ; cbn; lia|constructor]].
  destruct (IH (b - Bytes r)) as (E1 & E2 & E3). rewrite E2, sumZ_cons. split_and!; [by rewrite <- E1|lia|by constructor].
Qed.

Lemma pop_increasing a q l next : forall b, a <= q < next -> increasing a l next -> increasing q (pop_acked q l b).1 next.
Proof.
  revert a. induction l as [|r l IH]; cbn; intros a b Hq H; [lia|]. destruct H.
  destruct (Z.leb_spec (seq r) q); [apply (IH (seq r)); [lia|done]|]. cbn. split; [lia|done].
Qed.

Lemma pop_contiguous a q l next : forall b, a <= q < next -> contiguous (a + 1) l next -> contiguous (q + 1) (pop_acked q l b).1 next.
Proof.
  revert a. induction l as [|r l IH]; cbn; intros a b Hq H; [lia|]. destruct H as [E H].
  destruct (Z.leb_spec (seq r) q); [apply (IH (a + 1)); [lia|done]|]. cbn.
  assert (a = q) as -> by lia. by split.
Qed.

(** ** Dropping *)

Lemma take_compactable_Some l r l' : take_compactable l = Some (r, l') ->
  exists pre post, l = pre ++ r :: post /\ l' = pre ++ post /\ critical r = false /\ Forall (fun x => critical x = true) pre.
Proof.
  revert l'. induction l as [|x l IH]; cbn; intros l' H; [done|]. destruct (critical x) eqn:Ec; cbn in H.
  - destruct (take_compactable l) as [[y k]|] eqn:E; [|done]. cbn in H. simplify_eq.
    destruct (IH k eq_refl) as (pre & post & -> & -> & Hc & Hp). exists (x :: pre), post. split_and!; [done..|]. by constructor.
  - simplify_eq. exists [], l'. split_and!; [done..|constructor].
Qed.

Lemma take_compactable_None l : take_compactable l = None <-> Forall (fun x => critical x = true) l.
Proof.
  induction l as [|x l IH]; cbn; [split; [constructor|done]|]. destruct (critical x) eqn:Ec; cbn.
  - rewrite list.Forall_cons, <- IH. destruct (take_compactable l) as [[? ?]|]; cbn; intuition congruence.
  - split; [done|]. rewrite list.Forall_cons. intuition congruence.
Qed.

Lemma DropOne_length s s' : DropOneCompactable s = Some s' -> length (recs_ s) = S (length (recs_ s')).
Proof.
  unfold DropOneCompactable. destruct (take_compactable (recs_ s)) as [[r l]|] eqn:E; [|done]. intros [= <-].
  apply take_compactable_Some in E as (pre & post & -> & -> & _). cbn. rewrite !length_app. cbn. lia.
Qed.

Lemma drop_loop_ind (P : Spool -> Prop) cond : (forall s s', P s -> DropOneCompactable s = Some s' -> P s') ->
  forall fuel s any, P s -> P (drop_loop fuel cond s any).1.
Proof.
  intros Hstep. induction fuel as [|fuel IH]; intros s any Hp; [done|]. cbn. case_if; [|done].
  destruct (DropOneCompactable s) as [s'|] eqn:E; [|done]. eauto.
Qed.

(** The loop ends because its condition does or because nothing is left to drop, never for lack of fuel. *)
Lemma drop_loop_done cond fuel : forall s any, (length (recs_ s) <= fuel)%nat ->
  let s' := (drop_loop fuel cond s any).1 in cond s' = false \/ Forall (fun x => critical x = true) (recs_ s').
Proof.
  induction fuel as [|fuel IH]; intros s any Hf; cbn.
  - right. destruct (recs_ s); [constructor|cbn in Hf; lia].
  - destruct (cond s) eqn:Ec; [|by left]. destruct (DropOneCompactable s) as [s'|] eqn:E.
    + apply IH. apply DropOne_length in E. lia.
    + right. unfold DropOneCompactable in E. destruct (take_compactable (recs_ s)) as [[? ?]|] eqn:Et; [done|].
      by apply take_compactable_None.
Qed.

Lemma drop_loop_false cond fuel s s' : drop_loop fuel cond s false = (s', false) -> s' = s.
Proof.
  destruct fuel as [|fuel]; cbn; [congruence|]. case_if; [|congruence]. destruct (DropOneCompactable s) as [s1|]; [|congruence].
  intros H. exfalso. revert s1 H. induction fuel as [|fuel IH]; intros s1; cbn; [congruence|]. case_if; [|congruence].
  destruct (DropOneCompactable s1); [apply IH|congruence].
Qed.

Lemma make_room_ind (P : Spool -> Prop) add s :
  (forall s s', P s -> DropOneCompactable s = Some s' -> P s') -> P s -> P (make_room add s).1.
Proof.
  intros Hs Hp. unfold make_room. pose proof (drop_loop_ind P (over add (of_int 1)) Hs (length (recs_ s)) s false Hp) as H1.
  destruct (drop_loop _ _ s false) as [s1 any]. destruct any; [|done]. cbn. by apply drop_loop_ind.
Qed.

Lemma make_room_false add s s' : make_room add s = (s', false) -> s' = s.
Proof.
  unfold make_room. destruct (drop_loop _ _ s false) as [s1 any] eqn:E. destruct any; [congruence|]. intros [= <-].
  by apply drop_loop_false in E.
Qed.

(** What a drop changes. *)
Lemma DropOne_ok s s' : spool_ok s -> DropOneCompactable s = Some s' -> spool_ok s'.
Proof.
  intros [H1 H2 H3 H4]. unfold DropOneCompactable. destruct (take_compactable (recs_ s)) as [[r l]|] eqn:E; [|done].
  intros [= <-]. apply take_compactable_Some in E as (pre & post & E & -> & _). split; cbn; [|done| |done].
  - rewrite H1, E, !sumZ_app, sumZ_cons. lia.
  - rewrite E in H3. by apply increasing_remove in H3.
Qed.

(** ** Every operation keeps the invariant *)

Lemma flag_drop_ok s : spool_ok s -> spool_ok (flag_drop s).
Proof. intros [H1 H2 H3 H4]. by split. Qed.

Lemma Append_ok ty i rf t ep p s : spool_ok s -> spool_ok (Append ty i rf t ep p s).1.
Proof.
  intros Hok. unfold Append. pose proof (make_room_ind spool_ok (Bytes (new_record ty i rf t ep p)) s DropOne_ok Hok) as Hr.
  destruct (make_room _ s) as [s1 any]. cbn in Hr. case_if.
  - apply flag_drop_ok in Hr. cbn [fst]. destruct any; [|done]. by eapply spool_ok_core; [apply Rewrite_core|].
  - set (r := with_seq _ _). set (s2 := set_recs _ _ _).
    assert (Hs2 : spool_ok s2).
    { destruct Hr as [H1 H2 H3 H4]. split; cbn; [|done| |].
      - rewrite H1, sumZ_app. change (sumZ Bytes [r]) with (Bytes (new_record ty i rf t ep p) + 0). lia.
      - by apply increasing_snoc.
      - intros Hg. by apply contiguous_snoc; [apply H4|]. }
    cbn [fst]. destruct any; [by eapply spool_ok_core; [apply Rewrite_core|]|].
    pose proof (AppendLine_core r s2) as Ha. destruct (AppendLine r s2) as [s3 ok]. cbn in *.
    destruct ok; [by eapply spool_ok_core|]. eapply spool_ok_core; [|exact Hs2]. etransitivity; [exact Ha|apply Rewrite_core].
Qed.

Lemma AckUpTo_ok q s : spool_ok s -> spool_ok (AckUpTo q s).
Proof.
  intros [H1 H2 H3 H4]. unfold AckUpTo. case_if; [done|]. split_bools.
  pose proof (increasing_lt _ _ _ H3) as Hlt. set (a := Z.min q (lastSeq s)).
  assert (ackedSeq_ s <= a < nextSeq_ s) as Ha by (unfold a, lastSeq; lia). cbn -[pop_acked].
  destruct (pop_acked_split a (recs_ s) (bytes_ s)) as (E1 & E2 & _).
  pose proof (pop_increasing _ a _ _ (bytes_ s) Ha H3) as Hi.
  assert (gap_ s = false -> contiguous (a + 1) (pop_acked a (recs_ s) (bytes_ s)).1 (nextSeq_ s)) as Hc
    by (intros Hg; apply (pop_contiguous (ackedSeq_ s)); auto).
  destruct (pop_acked a (recs_ s) (bytes_ s)) as [l b]. cbn in *.
  match goal with |- spool_ok (if _ then _ else ?s2) => assert (Hs2 : spool_ok s2) end.
  { split; cbn; [|lia|done|done]. rewrite E2, H1. rewrite E1 at 1. rewrite sumZ_app. lia. }
  case_if; [|done]. eapply spool_ok_core; [|exact Hs2]. etransitivity; [apply FlushMeta_core|apply Rewrite_core].
Qed.

Lemma RotateIfGap_ok f s : spool_ok s -> spool_ok (RotateIfGap f s).1.
Proof.
  intros Hok. unfold RotateIfGap. destruct (gap_ s); cbn [negb fst]; [|done]. destruct Hok as [H1 H2 H3 H4].
  eapply spool_ok_core; [etransitivity; [apply FlushMeta_core|apply Rewrite_core]|].
  destruct (renumber_bytes 1 (recs_ s)) as [E1 E2]. pose proof (renumber_contiguous 1 (recs_ s)) as Hc.
  replace (1 + zlen (recs_ s)) with (zlen (renumber 1 (recs_ s)) + 1) in Hc by lia.
  split; cbn; [by rewrite E1|lia| |done]. by apply (contiguous_increasing 1).
Qed.

Lemma spool_step_ok s o : spool_ok s -> spool_ok (spool_step s o).
Proof.
  intros Hok. destruct o; cbn; auto using Append_ok, AckUpTo_ok, RotateIfGap_ok.
  - unfold SetRxSeq. case_if; [done|]. destruct Hok as [H1 H2 H3 H4]. by split.
  - eapply spool_ok_core; [apply MaybeFlush_core|done].
Qed.

Definition spool_run (s : Spool) (os : list SpoolOp) : Spool := foldl spool_step s os.

Lemma spool_run_ok s os : spool_ok s -> spool_ok (spool_run s os).
Proof. unfold spool_run. revert s. induction os as [|o os IH]; intros s Hok; [done|]. cbn. by apply IH, spool_step_ok. Qed.

(** A spool just opened on an empty directory. *)
Definition fresh_spool (lim : Limits) (sid dir : string) (d : Disk) : Spool :=
  {| dir_ := dir; limits_ := lim; log_open := true; logBytes_ := 0; recs_ := []; bytes_ := 0; dropped_ := 0;
     streamId_ := sid; nextSeq_ := 1; ackedSeq_ := 0; rxSeq_ := 0; gap_ := false; metaDirty_ := true;
     lastFlushMs_ := 0; disk := d |}.

Lemma fresh_spool_ok lim sid dir d : spool_ok (fresh_spool lim sid dir d).
Proof. by split. Qed.

(** The stream's numbering over every sequence of operations, whatever disk calls fail: the byte
    count is the sum of the stored records' sizes, the stored sequence numbers increase strictly between the
    acknowledged and the next one, and unless a gap is flagged they are exactly all the numbers in between:
    no message is missing without the flag that makes the next connect start a new stream. *)
Theorem spool_numbering (lim : Limits) (sid dir : string) (d : Disk) (os : list SpoolOp) :
  spool_ok (spool_run (fresh_spool lim sid dir d) os).
Proof. apply spool_run_ok, fresh_spool_ok. Qed.

(** ** Critical messages *)

(** A message is a record without its number (a rotation renumbers). *)
Definition message (r : SpoolRecord) : SpoolRecord := with_seq 0 r.
Definition critical_msgs (l : list SpoolRecord) : list SpoolRecord := message <$> filter (fun r => critical r = true) l.

#[global] Arguments critical_msgs _ : simpl never.

(** The critical message an operation takes in, and those it gives up for acknowledged. *)
Definition accepted (s : Spool) (o : SpoolOp) : list SpoolRecord :=
  match o with
  | OpAppend ty i rf t ep p =>
      if IsCriticalType ty && negb ((Append ty i rf t ep p s).2 =? 0) then [new_record ty i rf t ep p] else []
  | _ => []
  end.
Definition acknowledged (s : Spool) (o : SpoolOp) : list SpoolRecord :=
  match o with
  | OpAck q => if q <=? ackedSeq_ s then [] else critical_msgs (popped (Z.min q (lastSeq s)) (recs_ s))
  | _ => []
  end.

Fixpoint accepted_run (s : Spool) (os : list SpoolOp) : list SpoolRecord :=
  match os with [] => [] | o :: os => accepted s o ++ accepted_run (spool_step s o) os end.
Fixpoint acknowledged_run (s : Spool) (os : list SpoolOp) : list SpoolRecord :=
  match os with [] => [] | o :: os => acknowledged s o ++ acknowledged_run (spool_step s o) os end.

Lemma critical_msgs_app l k : critical_msgs (l ++ k) = critical_msgs l ++ critical_msgs k.
Proof. unfold critical_msgs. by rewrite filter_app, fmap_app. Qed.

Lemma critical_msgs_cons r l : critical_msgs (r :: l) = (if critical r then [message r] else []) ++ critical_msgs l.
Proof.
  unfold critical_msgs. rewrite filter_cons. destruct (critical r); [by rewrite decide_True|by rewrite decide_False].
Qed.

Lemma renumber_critical n l : critical_msgs (renumber n l) = critical_msgs l.
Proof. revert n. induction l as [|r l IH]; intros n; [done|]. cbn [renumber]. rewrite !critical_msgs_cons, IH. done. Qed.

Lemma DropOne_critical s0 s s' :
  critical_msgs (recs_ s) = critical_msgs (recs_ s0) /\ nextSeq_ s = nextSeq_ s0 ->
  DropOneCompactable s = Some s' -> critical_msgs (recs_ s') = critical_msgs (recs_ s0) /\ nextSeq_ s' = nextSeq_ s0.
Proof.
  unfold DropOneCompactable. intros [H Hn]. destruct (take_compactable (recs_ s)) as [[r l]|] eqn:E; [|done]. intros [= <-].
  apply take_compactable_Some in E as (pre & post & E & -> & Hc & _). split; [|done]. cbn. rewrite <- H, E, !critical_msgs_app, critical_msgs_cons, Hc. done.
Qed.

Lemma Append_critical ty i rf t ep p s :
  spool_ok s -> critical_msgs (recs_ s) ++ accepted s (OpAppend ty i rf t ep p) = critical_msgs (recs_ (Append ty i rf t ep p s).1).
Proof.
  intros Hok. cbn [accepted]. unfold Append.
  pose proof (make_room_ind _ (Bytes (new_record ty i rf t ep p)) s (DropOne_critical s) (conj eq_refl eq_refl)) as [Hm Hn].
  destruct (make_room _ s) as [s1 any]. cbn [fst] in Hm, Hn. pose proof (increasing_lt _ _ _ (ok_incr s Hok)) as Hlt.
  pose proof (ok_acked s Hok) as Ha. match goal with |- context [over ?a ?b ?c && ?d] => destruct (over a b c && d) end.
  - cbn [snd fst]. rewrite Z.eqb_refl, andb_false_r, app_nil_r. rewrite <- Hm. destruct any; [|done]. by rewrite (sc_recs _ _ (Rewrite_core _)).
  - set (r := with_seq _ _). set (s2 := set_recs _ _ _).
    assert (critical_msgs (recs_ s) ++ (if IsCriticalType ty && negb (seq r =? 0) then [new_record ty i rf t ep p] else []) = critical_msgs (recs_ s2)) as Hg.
    { cbn. rewrite critical_msgs_app, Hm, critical_msgs_cons. f_equal. cbn.
      replace (nextSeq_ s1 =? 0) with false by (symmetry; apply Z.eqb_neq; lia). rewrite andb_true_r. by destruct (IsCriticalType ty). }
    destruct any; cbn [fst snd]; [by rewrite (sc_recs _ _ (Rewrite_core _))|].
    pose proof (AppendLine_core r s2) as Hr. destruct (AppendLine r s2) as [s3 ok]. cbn [fst snd] in *.
    rewrite Hg, <- (sc_recs _ _ Hr). destruct ok; [done|]. by rewrite (sc_recs _ _ (Rewrite_core _)).
Qed.

Lemma step_critical s o :
  spool_ok s -> critical_msgs (recs_ s) ++ accepted s o = acknowledged s o ++ critical_msgs (recs_ (spool_step s o)).
Proof.
  intros Hok. destruct o as [ty i rf t ep p|q|f|q|now]; cbn [spool_step acknowledged]; [by apply Append_critical|..]; cbn [accepted]; rewrite app_nil_r.
  - unfold AckUpTo. case_if; [done|]. cbn -[pop_acked].
    destruct (pop_acked_split (Z.min q (lastSeq s)) (recs_ s) (bytes_ s)) as (E & _).
    destruct (pop_acked _ _ _) as [l b]. cbn in E. rewrite E at 1. rewrite critical_msgs_app. f_equal.
    case_if; [|done]. by rewrite (sc_recs _ _ (Rewrite_core _)), (sc_recs _ _ (FlushMeta_core _)).
  - unfold RotateIfGap. case_if; [done|]. cbn [fst]. rewrite (sc_recs _ _ (Rewrite_core _)), (sc_recs _ _ (FlushMeta_core _)).
    cbn. by rewrite renumber_critical.
  - unfold SetRxSeq. by case_if.
  - by rewrite (sc_recs _ _ (MaybeFlush_core now s)).
Qed.

(** A critical message leaves the spool only by acknowledgement: over every sequence of operations
    the critical messages held at the start followed by those accepted since are, in order, the ones removed
    by acknowledgements followed by the ones still held.  Drops, refusals, rotations and failing disk calls
    lose none, and at any point a critical message is refused only when, after every drop, it would push the
    spool beyond twice a limit. *)
Theorem critical_kept (s : Spool) (os : list SpoolOp) :
  spool_ok s ->
  critical_msgs (recs_ s) ++ accepted_run s os = acknowledged_run s os ++ critical_msgs (recs_ (spool_run s os)) /\
  (forall ty i rf t ep p, IsCriticalType ty = true -> (Append ty i rf t ep p (spool_run s os)).2 = 0 ->
     let add := Bytes (new_record ty i rf t ep p) in over add (of_int 2) (make_room add (spool_run s os)).1 = true).
Proof.
  intros Hok. split.
  - unfold spool_run. revert s Hok. induction os as [|o os IH]; intros s Hok; cbn [accepted_run acknowledged_run foldl]; [by rewrite app_nil_r|].
    rewrite app_assoc, step_critical, <- !app_assoc by done. f_equal. by apply IH, spool_step_ok.
  - intros ty i rf t ep p Hc. pose proof (spool_run_ok s os Hok) as [_ Ha Hi _]. apply increasing_lt in Hi. unfold Append.
    pose proof (make_room_ind _ (Bytes (new_record ty i rf t ep p)) (spool_run s os) (DropOne_critical (spool_run s os)) (conj eq_refl eq_refl)) as [_ Hn].
    destruct (make_room _ (spool_run s os)) as [s1 any]. cbn [fst] in *. case_if.
    + intros _. cbn. split_bools. cbn in *. rewrite Hc in *. cbn in *. done.
    + intros E. exfalso. destruct any; [cbn in E; lia|]. destruct (AppendLine _ _) as [s3 ok]. cbn in E. lia.
Qed.

(** Limits of three messages: two notices and two results, one notice dropped for the second result. *)
Definition tiny_disk : Disk := {| log_text := EmptyString; meta_text := None; io := fun _ => None; calls := O |}.
Definition tiny_spool : Spool := fresh_spool {| maxMsgs := 3; maxBytes := 100000 |} "S" "/spool" tiny_disk.
Definition notice (i : string) : SpoolOp := OpAppend "event.chat" i EmptyString 1 1 EmptyString.
Definition result (i : string) : SpoolOp := OpAppend "event.map_result" i EmptyString 1 1 EmptyString.

Lemma critical_kept_witness :
  critical_msgs (recs_ tiny_spool) ++ accepted_run tiny_spool [notice "a"; result "b"; notice "c"; result "d"; OpAck 2] =
  acknowledged_run tiny_spool [notice "a"; result "b"; notice "c"; result "d"; OpAck 2] ++
    critical_msgs (recs_ (spool_run tiny_spool [notice "a"; result "b"; notice "c"; result "d"; OpAck 2])).
Proof. apply (critical_kept tiny_spool), fresh_spool_ok. Defined.

Example tiny_run :
  id <$> recs_ (spool_run tiny_spool [notice "a"; result "b"; notice "c"; result "d"; OpAck 2]) = ["c"; "d"].
Proof. vm_compute. reflexivity. Qed.

(** ** The log file *)

(** The log holds leftovers that are already acknowledged, then every unacknowledged record. *)
Record log_ok (s : Spool) : Prop := {
  lo_open : log_open s = true;
  lo_io : forall k, io (disk s) k = None;
  lo_text : exists old, log_text (disk s) = log_of (old ++ recs_ s) /\ Forall (fun r => seq r <= ackedSeq_ s) old }.

Lemma log_of_app a b : log_of (a ++ b) = (log_of a +s+ log_of b).
Proof. induction a as [|r a IH]; [done|]. change (RecordLine r +s+ log_of (a ++ b) = ((RecordLine r +s+ log_of a) +s+ log_of b)). by rewrite IH, app_assoc_s. Qed.

Lemma Rewrite_log s : (forall k, io (disk s) k = None) -> log_ok (Rewrite s).1.
Proof.
  intros H. unfold Rewrite. cbn. rewrite (H (calls (disk s))). cbn. rewrite H.
  split; cbn; [done..|]. exists []. split; [done|constructor].
Qed.

Lemma FlushMeta_disk s : io (disk (FlushMeta s).1) = io (disk s) /\ log_text (disk (FlushMeta s).1) = log_text (disk s) /\
  log_open (FlushMeta s).1 = log_open s.
Proof. unfold FlushMeta. case_if; [done|]. cbn. by destruct (io (disk s) (calls (disk s))). Qed.

Lemma make_room_disk add s : disk (make_room add s).1 = disk s /\ log_open (make_room add s).1 = log_open s /\
  ackedSeq_ (make_room add s).1 = ackedSeq_ s.
Proof.
  apply (make_room_ind (fun s' => disk s' = disk s /\ log_open s' = log_open s /\ ackedSeq_ s' = ackedSeq_ s)); [|done].
  intros s1 s2 H. unfold DropOneCompactable. destruct (take_compactable _) as [[? ?]|]; [|done]. by intros [= <-].
Qed.

Lemma Append_log ty i rf t ep p s : log_ok s -> log_ok (Append ty i rf t ep p s).1.
Proof.
  intros [Ho Hio Ht]. unfold Append.
  destruct (make_room_disk (Bytes (new_record ty i rf t ep p)) s) as (Ed & El & Ea).
  destruct (make_room _ s) as [s1 any] eqn:E. cbn [fst] in *. destruct any.
  - case_if; cbn [fst]; apply Rewrite_log; cbn; by rewrite Ed.
  - apply make_room_false in E as ->. case_if; [by split|]. set (r := with_seq _ _). set (s2 := set_recs _ _ _).
    unfold AppendLine. replace (log_open s2) with true by (symmetry; exact Ho). cbn [negb]. cbn -[RecordLine String.append].
    rewrite (Hio (calls (disk s))). cbn -[RecordLine String.append]. split; cbn -[RecordLine String.append]; [done..|].
    destruct Ht as (old & Et & Hold). exists old. split; [|done]. rewrite Et, !log_of_app, app_assoc_s. f_equal.
    cbn -[RecordLine String.append]. by rewrite app_nil_s.
Qed.

Lemma AckUpTo_log q s : spool_ok s -> log_ok s -> log_ok (AckUpTo q s).
Proof.
  intros Hok Hl. unfold AckUpTo. case_if; [done|]. split_bools. destruct Hl as [Ho Hio (old & Et & Hold)].
  pose proof (increasing_lt _ _ _ (ok_incr s Hok)) as Hlt. set (a := Z.min q (lastSeq s)).
  assert (ackedSeq_ s <= a) as Ha by (unfold a, lastSeq; lia). cbn -[pop_acked].
  destruct (pop_acked_split a (recs_ s) (bytes_ s)) as (E1 & _ & Ep).
  destruct (pop_acked a (recs_ s) (bytes_ s)) as [l b]. cbn in E1. case_if.
  - apply Rewrite_log. by rewrite (proj1 (FlushMeta_disk _)).
  - split; cbn; [done..|]. exists (old ++ popped a (recs_ s)). rewrite <- app_assoc, <- E1. split; [done|].
    apply Forall_app. split; [|done]. eapply Forall_impl; [exact Hold|]. cbn. lia.
Qed.

Lemma spool_step_log s o : spool_ok s -> log_ok s -> log_ok (spool_step s o).
Proof.
  intros Hok Hl. destruct o as [ty i rf t ep p|q|f|q|now]; cbn [spool_step]; auto using Append_log, AckUpTo_log.
  - unfold RotateIfGap. case_if; [done|]. cbn [fst]. apply Rewrite_log. rewrite (proj1 (FlushMeta_disk _)). apply Hl.
  - unfold SetRxSeq. case_if; [done|]. destruct Hl. by split.
  - unfold MaybeFlush. case_if; [done|]. set (s1 := set_flushed _ _ _ _).
    destruct (FlushMeta_disk s1) as (E1 & E2 & E3), (FlushMeta_core s1) as [C1 _ _ C4 _ _ _], Hl as [H1 H2 H3].
    split; [by rewrite E3|by rewrite E1|]. by rewrite E2, C1, C4.
Qed.

(** Nothing unacknowledged is only in memory: as long as the disk calls succeed, after every
    operation the log file is the lines of some records that are already acknowledged followed by the lines of
    exactly the records in memory, in order, so a restart finds every message the platform has not confirmed. *)
Theorem log_complete (lim : Limits) (sid dir : string) (d : Disk) (os : list SpoolOp) :
  log_text d = EmptyString -> (forall k, io d k = None) ->
  let s := spool_run (fresh_spool lim sid dir d) os in
  exists old, log_text (disk s) = log_of (old ++ recs_ s) /\ Forall (fun r => seq r <= ackedSeq_ s) old.
Proof.
  intros Ht Hio. cut (log_ok (spool_run (fresh_spool lim sid dir d) os)); [by intros []|].
  assert (log_ok (fresh_spool lim sid dir d)) as Hl.
  { split; cbn; [done..|]. exists []. split; [done|constructor]. }
  pose proof (fresh_spool_ok lim sid dir d) as Hok. revert Hl Hok. generalize (fresh_spool lim sid dir d). unfold spool_run.
  induction os as [|o os IH]; intros s Hl Hok; [done|]. cbn. apply IH; [by apply spool_step_log|by apply spool_step_ok].
Qed.

Lemma log_complete_witness :
  let s := spool_run tiny_spool [notice "a"; result "b"; OpAck 1] in
  exists old, log_text (disk s) = log_of (old ++ recs_ s) /\ Forall (fun r => seq r <= ackedSeq_ s) old.
Proof. apply (log_complete {| maxMsgs := 3; maxBytes := 100000 |} "S" "/spool" tiny_disk); reflexivity. Defined.

(** The flag that marks a hole reaches the disk later than the hole: after a drop the log no longer has
    message 1 while [meta.json] still says that nothing is missing. *)
Example gap_flag_late :
  let s := spool_run tiny_spool [OpFlush 5000; notice "a"; result "b"; notice "c"; result "d"] in
  log_text (disk s) = log_of (recs_ s) /\ (seq <$> recs_ s) = [2; 3; 4] /\ gap_ s = true /\
  (contains (qs "`gap`:false") <$> meta_text (disk s)) = Some true.
Proof. vm_compute. done. Qed.
