(* ===== verification/SpoolReopen.v ===== *)
(** * Restarting the spool

    What [Spool::Open] finds on a disk that a spool left behind, at whatever point between two
    operations the process stopped. *)

From S2P Require Import Prelude CStr Double Json JsonFacts FleetJson Spool SpoolFacts.

(** ** Records as JSON *)

(** What the spool is handed: a message type, times of 64 bits, and a payload on one line, which the parser reads
    as an object nested at most 63 levels, one less than the line of the record may have, and which still reads
    as that object after the fleet's writer printed it. *)
Record canonical (r : SpoolRecord) (o : list (string * Json)) : Prop := {
  can_type : sempty (type r) = false;
  can_ts : int64_ok (ts r);
  can_epoch : int64_ok (epoch r);
  can_line : no_nl (payload r) = true;
  can_payload : fleet_ParseDepth 63 (payload r) = Parsed (JObject o);
  can_print : fleet_ParseDepth 63 (fleet_Dump (JObject o)) = Parsed (JObject o) }.

Definition with_text (p : string) (r : SpoolRecord) : SpoolRecord :=
  {| seq := seq r; type := type r; id := id r; ref := ref r; ts := ts r; epoch := epoch r; critical := critical r; payload := p |}.

(** The record with its payload as the writer prints it, which is how a record comes back from the disk. *)
Definition reprint (r : SpoolRecord) : SpoolRecord :=
  match fleet_ParseDepth 63 (payload r) with Parsed v => with_text (fleet_Dump v) r | _ => r end.

(** Everything but the spelling of the payload is the same. *)
Record same_message (r r' : SpoolRecord) : Prop := {
  sm_head : with_text EmptyString r' = with_text EmptyString r;
  sm_value : fleet_ParseDepth 63 (payload r') = fleet_ParseDepth 63 (payload r);
  sm_printed : (exists v, payload r = fleet_Dump v /\ fleet_ParseDepth 63 (payload r) = Parsed v) -> r' = r }.

Lemma reprint_same r o : canonical r o -> same_message r (reprint r).
Proof.
  intros [_ _ _ _ Hp Hq]. unfold reprint. rewrite Hp. split; [done|by rewrite Hp|]. intros (v & E & Hv). rewrite Hp in Hv.
  injection Hv as <-. rewrite <- E. by destruct r.
Qed.

Lemma reprint_canonical r o : canonical r o -> canonical (reprint r) o.
Proof. intros [H1 H2 H3 _ Hp Hq]. unfold reprint. rewrite Hp. split; try done. apply fleet_Dump_no_nl. Qed.

(** A payload without fractional numbers, with distinct keys and 64-bit integers, as either writer prints it. *)
Lemma plain_canonical r o : sempty (type r) = false -> int64_ok (ts r) -> int64_ok (epoch r) ->
  payload r = Dump (JObject o) -> plain (JObject o) = true -> (depth (JObject o) <= 63)%nat -> canonical r o /\ reprint r = r.
Proof.
  intros H1 H2 H3 Hp Hpl Hd. assert (Dump (JObject o) = fleet_Dump (JObject o)) as E by (symmetry; apply fleet_Dump_eq, plain_double_free, Hpl).
  assert (canonical r o) as Hc by (split; rewrite ?Hp, ?E; auto using fleet_Dump_no_nl, fleet_ParseDepth_Dump).
  split; [done|]. apply (sm_printed _ _ (reprint_same r o Hc)). exists (JObject o). rewrite Hp, E. auto using fleet_ParseDepth_Dump.
Qed.

Lemma reprint_seq r : seq (reprint r) = seq r.
Proof. unfold reprint. by destruct (fleet_ParseDepth _ _). Qed.

(** The members before the payload, and the line without its end. *)
Definition record_head (r : SpoolRecord) : list (string * Json) :=
  [("seq", JInt (seq r)); ("type", JString (type r)); ("id", JString (id r))] ++
  (if sempty (ref r) then [] else [("ref", JString (ref r))]) ++
  [("ts", JInt (ts r)); ("epoch", JInt (epoch r)); ("crit", JBool (critical r))].
Definition body (r : SpoolRecord) : string :=
  String "{" (members_before (record_head r) +s+ JsonEscape "payload" +s+ String ":"%char (payload r +s+ "}")).

Lemma RecordLine_body r : RecordLine r = (body r +s+ str1 newline).
Proof.
  unfold RecordLine, body, record_head. rewrite !AppendQuoted_eq.
  destruct (sempty (ref r)), (critical r); cbn [Dump members_before app];
    repeat (rewrite ?app_assoc_s, ?app_cons_s); reflexivity.
Qed.

Lemma record_head_ok r o : canonical r o -> int64_ok (seq r) ->
  plain (JObject (record_head r)) = true /\ (depth (JObject (record_head r)) <= 64)%nat /\ "payload" ∉ keys (record_head r).
Proof.
  intros [_ H1 H2 _ _ _] Hs. unfold record_head.
  destruct (sempty (ref r)); cbn [app]; (split; [|split; [cbn; lia|apply (bool_decide_unpack _); vm_compute; exact I]]);
    apply plain_object; (split; [apply (bool_decide_unpack _); vm_compute; exact I|]);
    repeat (apply Forall_cons_2; [cbn [snd]; first [done | by apply bool_decide_eq_true]|]); by apply Forall_nil_2.
Qed.

(** Loading the line of a record gives the record, its payload printed again. *)
Lemma load_line_record prev r o :
  canonical r o -> int64_ok (seq r) -> prev < seq r -> load_line prev (body r) = Some (LineRecord (reprint r)).
Proof.
  intros Hc Hs Hlt. destruct (record_head_ok r o Hc Hs) as (H1 & H2 & H3). destruct Hc as [Ht _ _ _ Hp _].
  unfold load_line, body. rewrite (fleet_Parse_last _ _ _ _ H1 H2 H3 Hp). unfold reprint. rewrite Hp. clear H1 H2 H3.
  unfold record_head, get_int, get_str, get_bool, Get, IsObj. destruct (sempty (ref r)) eqn:Er; cbn -[fleet_Dump];
    replace (seq r <=? prev) with false by (symmetry; apply Z.leb_gt; lia); rewrite Ht; cbn -[fleet_Dump].
  - destruct r as [? ? ? rf ? ? ? ?]. cbn in *. by destruct rf.
  - by destruct r.
Qed.

(** ** The lines of the log *)

Lemma body_line r o : canonical r o -> int64_ok (seq r) ->
  sforall (fun c => negb (Ascii.eqb c newline)) (body r) = true /\ sempty (body r) = false.
Proof.
  intros Hc Hs. split; [|done]. destruct (record_head_ok r o Hc Hs) as (Hp & _).
  assert (no_nl (body r) = true) as H.
  { unfold body. rewrite no_nl_cons, !no_nl_app, no_nl_cons, no_nl_app, (can_line _ _ Hc).
    enough (no_nl (members_before (record_head r)) = true) as -> by done. apply plain_object in Hp as [_ Hp].
    induction Hp as [|[k v] l Hv _ IH]; [done|]. cbn [members_before snd] in *.
    by rewrite no_nl_app, no_nl_cons, no_nl_app, no_nl_cons, JsonEscape_no_nl, Dump_no_nl, IH. }
  eapply sforall_impl; [|exact H]. cbn. intros c [? _]%andb_prop. done.
Qed.

Definition storable (r : SpoolRecord) : Prop := (exists o, canonical r o) /\ int64_ok (seq r).

Lemma lines_step fuel l r :
  sforall (fun c => negb (Ascii.eqb c newline)) l = true -> sempty l = false ->
  split_lines (S fuel) (l +s+ str1 newline +s+ r) = l :: split_lines fuel r.
Proof.
  intros Hl He. cbn [split_lines]. replace (sempty (l +s+ str1 newline +s+ r)) with false by (by destruct l).
  rewrite span_app by done. done.
Qed.

Lemma split_lines_log l : forall fuel, Forall storable l -> (length l < fuel)%nat -> split_lines fuel (log_of l) = map body l.
Proof.
  induction l as [|r l IH]; intros fuel Hl Hf; (destruct fuel as [|fuel]; [cbn in Hf; lia|]); [done|].
  apply list.Forall_cons in Hl as [[[o Hc] Hs] Hl]. destruct (body_line r o Hc Hs) as (Hn & He).
  cbn [log_of foldr map]. fold (log_of l). rewrite RecordLine_body, app_assoc_s, lines_step by done. f_equal. apply IH; [done|]. cbn in Hf. lia.
Qed.

Lemma log_of_length l : Forall storable l -> (length l <= String.length (log_of l))%nat.
Proof.
  induction 1 as [|r l [[o Hc] Hs] _ IH]; [cbn; lia|]. cbn [log_of foldr length]. fold (log_of l). rewrite RecordLine_body, !length_app_s. cbn. lia.
Qed.

Lemma lines_of_log l : Forall storable l -> lines_of (log_of l) = map body l.
Proof. intros H. apply split_lines_log; [done|]. pose proof (log_of_length l H). lia. Qed.

Lemma load_lines_log l : forall prev recs b bad next, Forall storable l -> increasing prev l next ->
  load_lines prev (map body l) recs b bad = Some (recs ++ map reprint l, b + sumZ Bytes (map reprint l), bad).
Proof.
  induction l as [|r l IH]; intros prev recs b bad next Hl Hi.
  - cbn. rewrite app_nil_r. unfold sumZ. cbn. by rewrite Z.add_0_r.
  - apply list.Forall_cons in Hl as [[[o Hc] Hs] Hl]. destruct Hi as [Hlt Hi].
    destruct (body_line r o Hc Hs) as (_ & He). cbn [map load_lines]. rewrite He, (load_line_record _ r o) by done.
    cbn [mbind option_bind]. rewrite (IH _ _ _ _ next) by (done || by rewrite reprint_seq). rewrite <- app_assoc, sumZ_cons. cbn. do 3 f_equal. lia.
Qed.

(** ** The meta file *)

Definition meta_doc (sid : string) (next acked rx : Z) (g : bool) : Json :=
  JObject [("stream_id", JString sid); ("next_seq", JInt next); ("acked_seq", JInt acked); ("rx_seq", JInt rx); ("gap", JBool g)].
Definition meta_file (sid : string) (next acked rx : Z) (g : bool) : string := fleet_Dump (meta_doc sid next acked rx g) +s+ str1 newline.

Lemma LoadMeta_file s sid next acked rx g :
  meta_text (disk s) = Some (meta_file sid next acked rx g) -> slen (meta_file sid next acked rx g) <= 65536 ->
  int64_ok next -> int64_ok acked -> int64_ok rx -> sempty sid = false ->
  LoadMeta s = Some (set_stream sid (Z.max 1 next) (Z.max 0 acked) (Z.max 0 rx) g (metaDirty_ s) s, true).
Proof.
  intros Hm Hl Hn Ha Hr Hs. unfold LoadMeta. rewrite Hm. cbn [mbind option_bind]. unfold read_limited.
  replace (65536 <? slen (meta_file sid next acked rx g)) with false by (symmetry; apply Z.ltb_ge; lia).
  assert (Hp : plain (meta_doc sid next acked rx g) = true).
  { apply plain_object. split; [apply (bool_decide_unpack _); vm_compute; exact I|].
    repeat (apply Forall_cons_2; [cbn [snd]; first [done | by apply bool_decide_eq_true]|]); by apply Forall_nil_2. }
  assert (fleet_Parse (meta_file sid next acked rx g) = Parsed (meta_doc sid next acked rx g)) as ->.
  { unfold meta_file. rewrite (fleet_Dump_eq _ (plain_double_free _ Hp)). unfold fleet_Parse, fleet_ParseDepth.
    rewrite (fleet_Val_Dump _ 64 (str1 newline) Hp); [done|cbn; lia|done]. }
  cbn. by rewrite Hs.
Qed.

(** ** What is on disk between two operations *)

Definition can (r : SpoolRecord) : Prop := exists o, canonical r o.

(** The log is leftovers that the meta file counts as acknowledged ([o1]), leftovers acknowledged since
    ([o2]), and the records in memory; from the meta file's mark on nothing is missing. *)
Record on_disk (s : Spool) : Prop := {
  od_parts : exists o1 o2 mnext macked mrx,
    log_text (disk s) = log_of (o1 ++ o2 ++ recs_ s) /\
    meta_text (disk s) = Some (meta_file (streamId_ s) mnext macked mrx false) /\
    Forall (fun r => seq r <= macked) o1 /\ Forall (fun r => seq r <= ackedSeq_ s) o2 /\
    increasing 0 (o1 ++ o2 ++ recs_ s) (nextSeq_ s) /\ contiguous (macked + 1) (o2 ++ recs_ s) (nextSeq_ s) /\
    0 <= macked <= ackedSeq_ s /\ 1 <= mnext <= nextSeq_ s /\ int64_ok mrx /\ Forall can (o1 ++ o2) /\
    (o2 ++ recs_ s = [] -> mnext = nextSeq_ s) }.

Record durable (s : Spool) : Prop := {
  du_ok : spool_ok s;
  du_open : log_open s = true;
  du_io : forall k, io (disk s) k = None;
  du_dir : sempty (dir_ s) = false;
  du_sid : sempty (streamId_ s) = false;
  du_rx : int64_ok (rxSeq_ s);
  du_can : Forall can (recs_ s);
  du_disk : gap_ s = false -> on_disk s }.

(** Both files freshly written. *)
Lemma on_disk_settled s :
  spool_ok s -> gap_ s = false -> int64_ok (rxSeq_ s) ->
  log_text (disk s) = log_of (recs_ s) -> meta_text (disk s) = Some (meta_line s) -> on_disk s.
Proof.
  intros [H1 H2 H3 H4] Hg Hr Hl Hm. split. exists [], [], (nextSeq_ s), (ackedSeq_ s), (rxSeq_ s).
  pose proof (increasing_lt _ _ _ H3). rewrite Hm. unfold meta_line, meta_json. rewrite Hg. cbn [app].
  split_and!; try done; try lia; try constructor; auto.
  apply (increasing_weaken 0 (ackedSeq_ s)); [lia|done].
Qed.

(** A successful flush and a successful rewrite. *)
Lemma FlushMeta_ok s : sempty (dir_ s) = false -> (forall k, io (disk s) k = None) ->
  (FlushMeta s).1 = set_flushed false (lastFlushMs_ s) (put_meta (meta_line s) (ask (disk s)).1) s.
Proof. intros Hd Hio. unfold FlushMeta. rewrite Hd. cbn. by rewrite (Hio (calls (disk s))). Qed.

Lemma Rewrite_ok s : (forall k, io (disk s) k = None) ->
  Rewrite s = (set_log true (slen (log_of (recs_ s))) (ask (put_log (log_of (recs_ s)) (ask (disk s)).1)).1 s, true).
Proof. intros Hio. unfold Rewrite. cbn. rewrite (Hio (calls (disk s))). cbn. by rewrite Hio. Qed.

Lemma settle s :
  spool_ok s -> (forall k, io (disk s) k = None) -> sempty (dir_ s) = false -> sempty (streamId_ s) = false ->
  int64_ok (rxSeq_ s) -> Forall can (recs_ s) -> durable (Rewrite (FlushMeta s).1).1.
Proof.
  intros Hok Hio Hd Hs Hr Hc. rewrite FlushMeta_ok, Rewrite_ok by done. destruct Hok as [H1 H2 H3 H4].
  split; cbn; try done. intros Hg. apply on_disk_settled; cbn; try done.
Qed.

(** A rewrite after a drop: the gap is flagged, so the files are not relied on. *)
Lemma gap_durable s : spool_ok s -> (forall k, io (disk s) k = None) -> log_open s = true -> sempty (dir_ s) = false ->
  sempty (streamId_ s) = false -> int64_ok (rxSeq_ s) -> Forall can (recs_ s) -> gap_ s = true -> durable s.
Proof. intros. split; try done. congruence. Qed.

(** ** Every operation keeps the disk readable *)

Lemma can_with_seq n r : can r -> can (with_seq n r).
Proof. intros [o []]. exists o. by split. Qed.

Lemma renumber_can n l : Forall can l -> Forall can (renumber n l).
Proof. intros H. revert n. induction H; intros n; cbn; constructor; auto using can_with_seq. Qed.

(** What the network thread asks for. *)
Definition op_can (o : SpoolOp) : Prop :=
  match o with
  | OpAppend ty i rf t ep p => can (new_record ty i rf t ep p)
  | OpRotate f => sempty f = false
  | OpRx q => int64_ok q
  | OpAck _ | OpFlush _ => True
  end.

(** A drop flags the gap and removes records only. *)
Record dropped (s s' : Spool) : Prop := {
  dr_sid : streamId_ s' = streamId_ s; dr_rx : rxSeq_ s' = rxSeq_ s; dr_dir : dir_ s' = dir_ s; dr_disk : disk s' = disk s;
  dr_open : log_open s' = log_open s; dr_recs : forall P : SpoolRecord -> Prop, Forall P (recs_ s) -> Forall P (recs_ s') }.

Lemma DropOne_dropped s s' : DropOneCompactable s = Some s' -> dropped s s' /\ gap_ s' = true.
Proof.
  unfold DropOneCompactable. destruct (take_compactable (recs_ s)) as [[r l]|] eqn:E; [|done]. intros [= <-].
  apply take_compactable_Some in E as (pre & post & E & -> & _). split; [|done]. split; cbn; try done.
  intros P. rewrite E, !Forall_app, list.Forall_cons. tauto.
Qed.

Lemma make_room_dropped add s : dropped s (make_room add s).1.
Proof.
  apply make_room_ind; [|by split]. intros s1 s2 [] H. destruct (DropOne_dropped _ _ H) as [[] _].
  split; try congruence. auto.
Qed.

Lemma drop_loop_gap cond fuel s : gap_ s = true -> gap_ (drop_loop fuel cond s true).1 = true.
Proof. apply (drop_loop_ind (fun s => gap_ s = true)). intros s1 s2 _ H. by apply DropOne_dropped in H as [_ ?]. Qed.

Lemma make_room_true add s : (make_room add s).2 = true -> gap_ (make_room add s).1 = true.
Proof.
  unfold make_room. remember (length (recs_ s)) as fuel eqn:Ef. clear Ef.
  enough (forall any, (any = true -> gap_ s = true) ->
    (drop_loop fuel (over add (of_int 1)) s any).2 = true -> gap_ (drop_loop fuel (over add (of_int 1)) s any).1 = true) as H.
  { specialize (H false). destruct (drop_loop _ _ s false) as [s1 []]; cbn; [|done]. intros _. apply drop_loop_gap, H; done. }
  revert s. induction fuel as [|fuel IH]; intros s any Hg; cbn; [done|]. case_if; [|done].
  destruct (DropOneCompactable s) as [s'|] eqn:E; [|done]. apply IH. intros _. by apply DropOne_dropped in E as [_ ?].
Qed.

(** A rewrite while the gap is flagged, and an append whose line reaches the log. *)
Lemma Rewrite_durable s : durable s -> gap_ s = true -> durable (Rewrite s).1.
Proof. intros [[H1 H2 H3 H4] ? ? ? ? ? ? ?] Hg. rewrite Rewrite_ok by done. split; cbn; try done. congruence. Qed.

Lemma Append_durable ty i rf t ep p s : durable s -> can (new_record ty i rf t ep p) -> durable (Append ty i rf t ep p s).1.
Proof.
  intros Hd Hc. pose proof (Append_ok ty i rf t ep p s (du_ok s Hd)) as Hok. revert Hok.
  destruct Hd as [Hs Ho Hio Hdir Hsid Hrx Hcan Hdisk]. unfold Append. set (r := new_record ty i rf t ep p) in *.
  pose proof (make_room_dropped (Bytes r) s) as [D1 D2 D3 D4 D5 D6]. pose proof (make_room_true (Bytes r) s) as Hg.
  specialize (D6 _ Hcan). destruct (make_room (Bytes r) s) as [s1 any] eqn:E. cbn [fst snd] in *. destruct any.
  - specialize (Hg eq_refl). case_if; cbn [fst]; rewrite Rewrite_ok by (cbn; by rewrite D4); intros Hok;
      (apply gap_durable; [exact Hok|cbn; rewrite ?D1, ?D2, ?D3, ?D4; try done..]).
    apply Forall_app. split; [done|]. constructor; [|constructor]. by apply can_with_seq.
  - apply make_room_false in E as ->. clear D1 D2 D3 D4 D5 D6 Hg. case_if; cbn [fst].
    + intros Hok. by apply gap_durable.
    + set (r' := with_seq _ _). set (s2 := set_recs _ _ _). unfold AppendLine.
      replace (log_open s2) with true by (symmetry; exact Ho). cbn -[RecordLine String.append recs_].
      rewrite (Hio (calls (disk s))). cbn -[RecordLine String.append]. intros Hok.
      assert (can r') as Hc' by by apply can_with_seq.
      split; cbn -[RecordLine String.append]; try done; [apply Forall_app; split; [done|by constructor]|].
      intros Hg. destruct (Hdisk Hg) as [(o1 & o2 & mnext & macked & mrx & E1 & E2 & E3 & E4 & E5 & E6 & E7 & E8 & E9 & E10 & E11)].
      split. exists o1, o2, mnext, macked, mrx. cbn -[RecordLine String.append log_of]. split_and!; try done; try lia.
      * rewrite E1, !log_of_app, !app_assoc_s. do 3 f_equal. cbn -[RecordLine String.append]. by rewrite app_nil_s.
      * rewrite !app_assoc. rewrite app_assoc in E5. by apply increasing_snoc.
      * rewrite app_assoc. by apply contiguous_snoc.
      * rewrite app_assoc. by destruct (o2 ++ recs_ s).
Qed.

Lemma AckUpTo_durable q s : durable s -> durable (AckUpTo q s).
Proof.
  intros Hd. pose proof (AckUpTo_ok q s (du_ok s Hd)) as Hok. revert Hok. unfold AckUpTo. case_if; [done|]. split_bools.
  destruct Hd as [Hs Ho Hio Hdir Hsid Hrx Hcan Hdisk]. pose proof (increasing_lt _ _ _ (ok_incr s Hs)) as Hlt.
  set (a := Z.min q (lastSeq s)). assert (ackedSeq_ s <= a) as Ha by (unfold a, lastSeq; lia). cbn -[pop_acked].
  destruct (pop_acked_split a (recs_ s) (bytes_ s)) as (E1 & _ & Ep).
  destruct (pop_acked a (recs_ s) (bytes_ s)) as [l b]. cbn in E1.
  assert (Forall can (popped a (recs_ s)) /\ Forall can l) as [Hc1 Hc2] by (rewrite E1 in Hcan; by apply Forall_app in Hcan).
  match goal with |- spool_ok (if ?c then _ else ?s2) -> _ => set (s' := s2); destruct c end.
  - intros Hok. apply settle; try done. rewrite FlushMeta_ok, Rewrite_ok in Hok by done. destruct Hok as [K1 K2 K3 K4]. by split.
  - intros Hok. split; try done. intros Hg.
    destruct (Hdisk Hg) as [(o1 & o2 & mnext & macked & mrx & F1 & F2 & F3 & F4 & F5 & F6 & F7 & F8 & F9 & F10 & F11)].
    split. exists o1, (o2 ++ popped a (recs_ s)), mnext, macked, mrx. cbn. rewrite <- !app_assoc, <- E1.
    split_and!; try done; try lia; rewrite ?app_assoc; apply Forall_app; (split; [|done]); [|done].
    eapply Forall_impl; [exact F4|]. cbn. lia.
Qed.

Lemma MaybeFlush_durable now s : durable s -> durable (MaybeFlush now s).
Proof.
  intros [Hs Ho Hio Hdir Hsid Hrx Hcan Hdisk]. pose proof (spool_ok_core _ _ (MaybeFlush_core now s) Hs) as Hok. revert Hok.
  unfold MaybeFlush. case_if; [done|]. rewrite FlushMeta_ok by done. intros Hok. split; cbn; try done. intros Hg.
  destruct (Hdisk Hg) as [(o1 & o2 & mnext & macked & mrx & F1 & F2 & F3 & F4 & F5 & F6 & F7 & F8 & F9 & F10 & F11)].
  split. exists (o1 ++ o2), [], (nextSeq_ s), (ackedSeq_ s), (rxSeq_ s). unfold meta_line, meta_json. cbn. rewrite Hg, app_nil_r.
  pose proof (ok_acked s Hs). pose proof (increasing_lt _ _ _ (ok_incr s Hs)).
  rewrite <- app_assoc. split_and!; try done; try lia; [|by apply (ok_contig s Hs)].
  apply Forall_app. split; [|done]. eapply Forall_impl; [exact F3|]. cbn. lia.
Qed.

Lemma spool_step_durable s o : durable s -> op_can o -> durable (spool_step s o).
Proof.
  intros Hd Hc. destruct o as [ty i rf t ep p|q|f|q|now]; cbn [spool_step op_can] in *;
    auto using Append_durable, AckUpTo_durable, MaybeFlush_durable.
  - unfold RotateIfGap. case_if; [done|]. cbn [fst]. pose proof (RotateIfGap_ok f s (du_ok s Hd)) as Hok.
    unfold RotateIfGap in Hok. replace (negb (gap_ s)) with false in Hok by (symmetry; by destruct (gap_ s)). cbn [fst] in Hok.
    destruct Hd as [Hs Ho Hio Hdir Hsid Hrx Hcan Hdisk]. apply settle; try done; [|by apply renumber_can].
    rewrite FlushMeta_ok, Rewrite_ok in Hok by done. destruct Hok as [K1 K2 K3 K4]. by split.
  - unfold SetRxSeq. case_if; [done|]. destruct Hd as [Hs Ho Hio Hdir Hsid Hrx Hcan Hdisk].
    split; cbn; try done; [by destruct Hs|]. intros Hg. destruct (Hdisk Hg). by split.
Qed.

(** ** Opening again *)

(** A default-constructed spool in a new process. *)
Definition blank (d : Disk) : Spool :=
  {| dir_ := EmptyString; limits_ := {| maxMsgs := 0; maxBytes := 0 |}; log_open := false; logBytes_ := 0; recs_ := []; bytes_ := 0;
     dropped_ := 0; streamId_ := EmptyString; nextSeq_ := 1; ackedSeq_ := 0; rxSeq_ := 0; gap_ := false; metaDirty_ := false;
     lastFlushMs_ := 0; disk := d |}.

(** The sizes [Open] accepts. *)
Definition fits (s : Spool) : Prop :=
  int64_ok (nextSeq_ s) /\ slen (log_text (disk s)) <= 1073741824 /\
  match meta_text (disk s) with Some t => slen t <= 65536 | None => True end.

Lemma pop_prefix a l k : forall b, Forall (fun r => seq r <= a) l -> pop_acked a (l ++ k) b = pop_acked a k (b - sumZ Bytes l).
Proof.
  induction l as [|r l IH]; intros b H; [cbn; f_equal; unfold sumZ; cbn; lia|]. apply list.Forall_cons in H as [H1 H2].
  cbn. replace (seq r <=? a) with true by (symmetry; apply Z.leb_le; lia). rewrite IH, sumZ_cons by done. f_equal. lia.
Qed.

Lemma pop_none a l n b : contiguous (a + 1) l n -> pop_acked a l b = (l, b).
Proof. destruct l as [|r l]; [done|]. cbn. intros [E _]. by replace (seq r <=? a) with false by (symmetry; apply Z.leb_gt; lia). Qed.

Lemma contiguous_last l r : forall a n, contiguous a l n -> last l = Some r -> seq r + 1 = n.
Proof.
  induction l as [|x l IH]; intros a n H E; [done|]. destruct H as [H1 H2], l as [|y l]; cbn in *; [simplify_eq; lia|].
  by apply (IH (a + 1)).
Qed.

Lemma increasing_below l n : int64_ok n -> forall a, 0 <= a -> increasing a l n -> Forall (fun r => int64_ok (seq r)) l.
Proof.
  intros Hn. induction l as [|r l IH]; intros a Ha H; [constructor|]. destruct H as [H1 H2]. pose proof (increasing_lt _ _ _ H2).
  constructor; [unfold int64_ok in *; lia|]. apply (IH (seq r)); [lia|done].
Qed.

(** Reprinting leaves the numbering alone. *)
Lemma contiguous_reprint l : forall a n, contiguous a (map reprint l) n <-> contiguous a l n.
Proof. induction l as [|r l IH]; intros a n; [done|]. cbn. by rewrite reprint_seq, IH. Qed.

Lemma Forall_reprint (P : Z -> Prop) l : Forall (fun r => P (seq r)) (map reprint l) <-> Forall (fun r => P (seq r)) l.
Proof. induction l as [|r l IH]; [done|]. cbn. by rewrite !list.Forall_cons, reprint_seq, IH. Qed.

Lemma can_reprint l : Forall can l -> Forall can (map reprint l).
Proof. induction 1 as [|r l [o Hc] _ IH]; constructor; [exists o; by apply reprint_canonical|done]. Qed.

(** The state after loading and before the files are written again: the meta file's mark, and from it on
    everything of the old process. *)
Lemma Open_loads fresh lim s : durable s -> gap_ s = false -> fits s ->
  exists o2 macked mrx, let l := map reprint (o2 ++ recs_ s) in
    Open true fresh (dir_ s) lim (blank (disk s)) =
      Some (FlushMeta (set_stream (streamId_ s) (nextSeq_ s) macked (Z.max 0 mrx) false true
        (Rewrite (set_stream (streamId_ s) (nextSeq_ s) macked (Z.max 0 mrx) false false
           (set_recs l (sumZ Bytes l) (set_target (dir_ s) lim (blank (disk s)))))).1)) /\
    Forall (fun r => seq r <= ackedSeq_ s) o2 /\ contiguous (macked + 1) l (nextSeq_ s) /\ 0 <= macked /\ int64_ok mrx /\ Forall can o2.
Proof.
  intros [Hs Ho Hio Hdir Hsid Hrx Hcan Hdisk] Hg (Hn & Hl & Hm).
  destruct (Hdisk Hg) as [(o1 & o2 & mnext & macked & mrx & F1 & F2 & F3 & F4 & F5 & F6 & F7 & F8 & F9 & F10 & F11)].
  exists o2, macked, mrx. split; [|apply Forall_app in F10 as [_ ?]; split_and!; try done; [by apply contiguous_reprint|lia..]].
  pose proof (increasing_below _ _ Hn 0 ltac:(lia) F5) as Hseq. pose proof (contiguous_increasing _ _ _ F6) as Hlt.
  apply increasing_lt in Hlt.
  assert (Forall storable (o1 ++ o2 ++ recs_ s)) as Hst.
  { apply Forall_and. split; [|done]. rewrite app_assoc, Forall_app. done. }
  unfold Open. cbn [Close blank log_open negb]. unfold Close. cbn [log_open].
  rewrite F2 in Hm. rewrite (LoadMeta_file _ (streamId_ s) mnext macked mrx false)
    by (first [exact F2 | done | unfold int64_ok in *; lia]).
  cbn [mbind option_bind]. unfold LoadLog, read_limited. cbn [disk set_stream set_target blank].
  replace (1073741824 <? slen (log_text (disk s))) with false by (symmetry; apply Z.ltb_ge; done).
  rewrite F1, lines_of_log, (load_lines_log _ 0 _ _ _ (nextSeq_ s)) by done. cbn [mbind option_bind].
  cbn [recs_ bytes_ ackedSeq_ set_stream set_target set_recs blank app streamId_ nextSeq_ rxSeq_ gap_ metaDirty_].
  replace (Z.max 0 macked) with macked by lia.
  assert (contiguous (macked + 1) (map reprint (o2 ++ recs_ s)) (nextSeq_ s)) as F6' by by apply contiguous_reprint.
  rewrite (List.map_app reprint o1), pop_prefix, (pop_none _ _ _ _ F6') by by apply (Forall_reprint (fun q => q <= macked)).
  cbn [recs_ bytes_ set_recs nextSeq_ set_stream].
  replace (Z.max 1 mnext) with mnext by lia. rewrite sumZ_app.
  match goal with |- context [0 + (?x + ?y) - ?x] => replace (0 + (x + y) - x) with y by lia end.
  match goal with |- context [set_stream _ ?n _ _ _ _ (set_recs _ _ _)] => assert (n = nextSeq_ s) as -> end.
  { destruct (last (map reprint (o2 ++ recs_ s))) as [r|] eqn:E; [|apply last_None, List.map_eq_nil in E; auto].
    apply (contiguous_last _ _ _ _ F6') in E. case_if; split_bools; lia. }
  rewrite !Rewrite_ok by done. reflexivity.
Qed.

Lemma FlushMeta_result s : sempty (dir_ s) = false -> (forall k, io (disk s) k = None) -> (FlushMeta s).2 = true.
Proof. intros Hd Hio. unfold FlushMeta. rewrite Hd. cbn. by rewrite (Hio (calls (disk s))). Qed.

(** What a restart promises. *)
Record resumed (s s' : Spool) : Prop := {
  re_sid : streamId_ s' = streamId_ s;
  re_next : nextSeq_ s' = nextSeq_ s;
  re_gap : gap_ s' = false;
  re_recs : exists replay, recs_ s' = map reprint (replay ++ recs_ s) /\ Forall (fun r => seq r <= ackedSeq_ s) replay;
  re_same : Forall (fun r => same_message r (reprint r)) (recs_ s) }.

Lemma Open_resumes fresh lim s : durable s -> gap_ s = false -> fits s ->
  exists s', Open true fresh (dir_ s) lim (blank (disk s)) = Some (s', true) /\ resumed s s' /\ durable s'.
Proof.
  intros Hd Hg Hf. destruct (Open_loads fresh lim s Hd Hg Hf) as (o2 & macked & mrx & E & H1 & H2 & H3 & H4 & H5).
  destruct Hd as [Hs Ho Hio Hdir Hsid Hrx Hcan Hdisk]. rewrite E. rewrite Rewrite_ok by done. cbn [fst].
  match goal with |- context [FlushMeta ?x] => set (s1 := x) end.
  exists (FlushMeta s1).1. pose proof (FlushMeta_result s1 Hdir Hio) as Hr. split; [destruct (FlushMeta s1); cbn in *; congruence|].
  rewrite FlushMeta_ok by done. split; [split; cbn; try done; [by exists o2|]; eapply Forall_impl; [exact Hcan|]; intros r [o ?]; by apply (reprint_same r o)|].
  assert (spool_ok s1) as Hok.
  { split; cbn; [done|done| |done]. pose proof (contiguous_increasing _ _ _ H2) as Hi.
    by replace (macked + 1 - 1) with macked in Hi by lia. }
  destruct Hok as [K1 K2 K3 K4]. split; cbn; try done; [unfold int64_ok in *; lia|by apply can_reprint, Forall_app|].
  intros _. apply on_disk_settled; cbn; try done. unfold int64_ok in *; lia.
Qed.

(** Opening an empty directory. *)
Lemma Open_empty fresh dir lim d :
  log_text d = EmptyString -> meta_text d = None -> (forall k, io d k = None) -> sempty fresh = false -> sempty dir = false ->
  exists s, Open true fresh dir lim (blank d) = Some (s, true) /\ durable s /\ recs_ s = [] /\ gap_ s = false.
Proof.
  intros Hl Hm Hio Hf Hd. unfold Open, Close. cbn [blank log_open negb]. unfold LoadMeta. cbn. rewrite Hm. cbn.
  unfold LoadLog. cbn. rewrite Hl. change (read_limited 1073741824 EmptyString) with (Some EmptyString). cbn -[Rewrite FlushMeta]. rewrite Rewrite_ok by done. cbn [negb].
  match goal with |- context [FlushMeta ?x] => set (s1 := x) end.
  exists (FlushMeta s1).1. pose proof (FlushMeta_result s1 Hd Hio) as Hr. split; [destruct (FlushMeta s1); cbn in *; congruence|].
  rewrite FlushMeta_ok by done. split; [|done]. split; cbn; try done. intros _. by apply on_disk_settled.
Qed.

(** ** Lives of a spool directory *)

(** A server's history: it opens an empty directory, works, and may stop between any two operations and
    start again from what is on disk. *)
Inductive lives (dir : string) : Spool -> Prop :=
  | life_begins fresh lim d s b : log_text d = EmptyString -> meta_text d = None -> (forall k, io d k = None) ->
      sempty fresh = false -> sempty dir = false -> Open true fresh dir lim (blank d) = Some (s, b) -> lives dir s
  | life_works s o : lives dir s -> op_can o -> lives dir (spool_step s o)
  | life_restarts s fresh lim s' b : lives dir s -> gap_ s = false -> fits s ->
      Open true fresh dir lim (blank (disk s)) = Some (s', b) -> lives dir s'.

Lemma FlushMeta_dir s : dir_ (FlushMeta s).1 = dir_ s.
Proof. apply FlushMeta_core. Qed.

Lemma spool_step_dir s o : dir_ (spool_step s o) = dir_ s.
Proof.
  destruct o as [ty i rf t ep p|q|f|q|now]; cbn [spool_step].
  - unfold Append. pose proof (make_room_dropped (Bytes (new_record ty i rf t ep p)) s) as [_ _ D3 _ _ _].
    destruct (make_room _ s) as [s1 any]. cbn in D3. case_if; cbn [fst].
    + destruct any; [|done]. by rewrite (sc_dir _ _ (Rewrite_core _)).
    + destruct any; cbn [fst]; [by rewrite (sc_dir _ _ (Rewrite_core _))|].
      match goal with |- context [AppendLine ?r ?x] => pose proof (sc_dir _ _ (AppendLine_core r x)) as E; destruct (AppendLine r x) as [s3 ok] end.
      cbn in *. destruct ok; [congruence|]. rewrite (sc_dir _ _ (Rewrite_core _)). congruence.
  - unfold AckUpTo. case_if; [done|]. cbn -[pop_acked]. destruct (pop_acked _ _ _) as [l b]. case_if; [|done].
    by rewrite (sc_dir _ _ (Rewrite_core _)), FlushMeta_dir.
  - unfold RotateIfGap. case_if; [done|]. cbn [fst]. by rewrite (sc_dir _ _ (Rewrite_core _)), FlushMeta_dir.
  - unfold SetRxSeq. by case_if.
  - apply MaybeFlush_core.
Qed.

Lemma Open_dir fresh dir lim s s' b : Open true fresh dir lim s = Some (s', b) -> dir_ s' = dir.
Proof.
  unfold Open. cbn [negb]. set (s0 := set_target dir lim (Close s)). assert (dir_ s0 = dir) as E0 by done.
  assert (forall x y, LoadMeta s0 = Some (x, y) -> dir_ x = dir) as H1.
  { intros x y. unfold LoadMeta. destruct (_ ≫= read_limited _); [|congruence]. destruct (fleet_Parse _); try congruence.
    case_if; [|congruence]. repeat destruct (get_int _ _ _); cbn; try done. by intros [= <- _]. }
  destruct (LoadMeta s0) as [[x y]|]; [|done]. specialize (H1 x y eq_refl). cbn.
  assert (forall z, LoadLog x = Some z -> dir_ z = dir) as H2.
  { intros z. unfold LoadLog. destruct (read_limited _ _); [|congruence]. destruct (load_lines _ _ _ _ _) as [[[? ?] bad]|]; [|done].
    cbn. intros [= <-]. by destruct bad. }
  destruct (LoadLog x) as [z|]; [|done]. specialize (H2 z eq_refl). cbn. set (w := if y then z else adopt_log fresh z).
  assert (dir_ w = dir) as H3 by (unfold w; by destruct y). destruct (pop_acked _ _ _) as [l k].
  match goal with |- context [Rewrite ?v] => pose proof (sc_dir _ _ (Rewrite_core v)) as E; destruct (Rewrite v) as [v1 ok] end.
  cbn in E. destruct ok; cbn; [|intros [= <- _]; congruence]. intros [= Hf].
  assert (s' = (FlushMeta (set_stream (streamId_ v1) (nextSeq_ v1) (ackedSeq_ v1) (rxSeq_ v1) (gap_ v1) true v1)).1) as -> by by rewrite Hf.
  rewrite FlushMeta_dir. cbn. congruence.
Qed.

Lemma lives_durable dir s : lives dir s -> durable s /\ dir_ s = dir.
Proof.
  induction 1 as [fresh lim d s b H1 H2 H3 H4 H5 E|s o _ [IH1 IH2] Hc|s fresh lim s' b _ [IH1 IH2] Hg Hf E].
  - destruct (Open_empty fresh dir lim d H1 H2 H3 H4 H5) as (s1 & E1 & Hd & _). split; [|by eapply Open_dir]. congruence.
  - split; [by apply spool_step_durable|]. by rewrite spool_step_dir.
  - subst dir. destruct (Open_resumes fresh lim s IH1 Hg Hf) as (s1 & E1 & _ & Hd). split; [|by eapply Open_dir]. congruence.
Qed.

(** Claim C1.  Restarting loses nothing the spool can store: over every history of a spool directory whose disk calls
    succeed (open it empty, append, acknowledge, rotate, record the received number, flush, stop between any two
    operations and start again, any number of times), as long as no gap is flagged and the files are within the sizes
    [Open] reads, opening the directory in a new process succeeds and resumes the same stream: same stream id, same
    next sequence number, no gap, and the records are exactly the old process's unacknowledged ones after, at most,
    some already acknowledged ones, each the same message: its payload is the writer's print of the value it
    had, so at most the spelling differs, and not even that when the link's own writer had printed it.

    The messages of such a history ([op_can]) have a non-empty type, times of 64 bits and, as a payload, a JSON object
    on one line (the link replaces line breaks before it stores a message) that is nested at most 63 levels and that
    the fleet's writer prints without changing its value, as it does with every object of distinct
    keys, 64-bit integers and no fractional numbers; the received number has 64 bits, and the stream id of a rotation is not empty.  A payload of 64 levels, which the link accepts, is
    lost by a restart, with the gap flagged ([deepest_payload_lost]). *)
Theorem reopen_resumes (dir fresh : string) (lim : Limits) (s : Spool) :
  lives dir s -> gap_ s = false -> fits s ->
  exists s', Open true fresh dir lim (blank (disk s)) = Some (s', true) /\ resumed s s' /\ lives dir s'.
Proof.
  intros Hl Hg Hf. destruct (lives_durable dir s Hl) as [Hd <-].
  destruct (Open_resumes fresh lim s Hd Hg Hf) as (s' & E & Hr & _). exists s'. split_and!; [done..|].
  by eapply life_restarts.
Qed.

Definition booted : Spool := match Open true "S" "/spool" (limits_ tiny_spool) (blank tiny_disk) with Some (s, _) => s | None => blank tiny_disk end.

(** A payload with blanks and a fractional number, which comes back printed without blanks. *)
Definition spaced : SpoolOp := OpAppend "event.chat" "c" EmptyString 1 1 (qs "{ `x`: 1.5, `y`: {} }").

Lemma reopen_resumes_witness :
  let s := spool_run booted [notice "a"; spaced; OpAck 1; OpFlush 5000; OpRx 7] in
  exists s', Open true "T" "/spool" (limits_ tiny_spool) (blank (disk s)) = Some (s', true) /\ resumed s s' /\ lives "/spool" s'.
Proof.
  assert (Ha : op_can (notice "a")) by (exists []; split; unfold int64_ok; (split; cbn; lia) || (vm_compute; reflexivity)).
  assert (Hc : op_can spaced) by (eexists; split; unfold int64_ok; (split; cbn; lia) || (vm_compute; reflexivity)).
  apply (reopen_resumes "/spool" "T" (limits_ tiny_spool)).
  - assert (lives "/spool" booted) as H0.
    { apply (life_begins "/spool" "S" (limits_ tiny_spool) tiny_disk booted true); [reflexivity..|vm_compute; reflexivity]. }
    pose proof (life_works _ _ _ (life_works _ _ _ H0 Ha) Hc) as H2.
    pose proof (life_works _ _ (OpFlush 5000) (life_works _ _ (OpAck 1) H2 I) I) as H3.
    refine (life_works _ _ (OpRx 7) H3 _). unfold op_can, int64_ok. lia.
  - vm_compute. reflexivity.
  - split_and!; [unfold int64_ok; vm_compute; split; congruence|vm_compute; congruence|vm_compute; congruence].
Defined.

Example reopen_reprints :
  match Open true "T" "/spool" (limits_ tiny_spool) (blank (disk (spool_run booted [spaced]))) with
  | Some (s', true) => payload <$> recs_ s' = [qs "{`x`:1.5,`y`:{}}"] | _ => False end.
Proof. vm_compute. done. Qed.

(** The records after a restart at that point, and after one that lost the last meta flush: the message
    acknowledged since is sent again. *)
Example reopen_run :
  let ids o := match o with Some (s', true) => Some (id <$> recs_ s', nextSeq_ s') | _ => None end in
  let reopen os := Open true "T" "/spool" (limits_ tiny_spool) (blank (disk (spool_run booted os))) in
  ids (reopen [notice "a"; result "b"; OpAck 1; OpFlush 5000]) = Some (["b"], 3) /\
  ids (reopen [notice "a"; result "b"; OpAck 1]) = Some (["a"; "b"], 3).
Proof. vm_compute. done. Qed.

(** A payload nested as deep as the parser accepts is stored one level deeper: the line of its record can
    not be read back, and a restart drops the message and flags a gap. *)
Definition nested : nat -> Json := fix go n := match n with O => JObject [] | S n => JObject [("a", go n)] end.

Example deepest_payload_lost :
  let p := Dump (nested 64) in
  match fleet_Parse p with Parsed v => IsObj v | _ => false end = true /\
  (let s := spool_run booted [OpAppend "event.map_result" "a" EmptyString 1 1 p] in
   zlen (recs_ s) = 1 /\ gap_ s = false /\
   match Open true "T" "/spool" (limits_ tiny_spool) (blank (disk s)) with
   | Some (s', true) => (zlen (recs_ s'), gap_ s') = (0, true) | _ => False end).
Proof. vm_compute. done. Qed.

(** The hole of a drop survives a crash before the next flush without its flag: message 1 is gone,
    and the restarted spool resumes the stream at 2 as if nothing were missing. *)
Example hole_without_flag :
  let s := spool_run booted [notice "a"; notice "b"; notice "c"; OpFlush 5000; notice "d"] in
  (seq <$> recs_ s) = [2; 3; 4] /\ gap_ s = true /\
  match Open true "T" "/spool" (limits_ tiny_spool) (blank (disk s)) with
  | Some (s', true) => (seq <$> recs_ s', nextSeq_ s', gap_ s') = ([2; 3; 4], 5, false) | _ => False end.
Proof. vm_compute. done. Qed.
