(* ===== verification/FleetProto.v ===== *)
(** * The fleet protocol's building blocks

    [plugins/fleet/fleet_proto.{h,cpp}]: message types, the envelope, ULIDs, the reconnect backoff, the
    close-code policy, redaction of secrets, the inbound stream and the URL and address rules.  The
    kernel's random bytes and [inet_pton] are arguments. *)

From S2P Require Import Prelude CStr Double Json FleetJson.

Module Proto.

Definition kProtocolVersion : Z := 1.
Definition kMaxFrameBytes : Z := 1048576.
Definition kDedupeWindow : Z := 10000.

(** ** Identifiers *)

Definition hex_digit (d : Z) : ascii := if d <? 10 then chr (48 + d) else chr (87 + d).
Fixpoint RandomHex (raw : list Z) : string :=
  match raw with
  | [] => EmptyString
  | c :: raw => String (hex_digit (Z.shiftr c 4)) (String (hex_digit (Z.land c 15)) (RandomHex raw))
  end.

Definition kCrockford : string := "0123456789ABCDEFGHJKMNPQRSTVWXYZ".

(** The 48-bit time, big-endian. *)
Definition time_bytes (ms : Z) : list Z :=
  let t := Z.land (if ms <? 0 then 0 else ms) 0xFFFFFFFFFFFF in
  (fun i => Z.land (Z.shiftr t (8 * (5 - i))) 255) <$> [0; 1; 2; 3; 4; 5].

(** One bit of the 128-bit number; the two before it are zero. *)
Definition ulid_bit (b : list Z) (bit : Z) : Z :=
  if bit <? 0 then 0 else Z.land (Z.shiftr (nth (Z.to_nat (bit / 8)) b 0) (7 - bit mod 8)) 1.
Definition ulid_val (b : list Z) (c : Z) : Z :=
  foldl (fun v k => Z.lor (Z.shiftl v 1) (ulid_bit b (c * 5 - 2 + k))) 0 [0; 1; 2; 3; 4].
Definition crockford (v : Z) : ascii := match String.get (Z.to_nat v) kCrockford with Some c => c | None => "0"%char end.

(** [NewUlid] with the ten random bytes. *)
Definition NewUlid (rnd : list Z) (ms : Z) : string :=
  let b := time_bytes ms ++ rnd in
  foldr (fun c acc => String (crockford (ulid_val b (Z.of_nat c))) acc) EmptyString (seq 0 26).

Definition is_crockford (c : ascii) : bool := contains (str1 c) kCrockford.
Definition IsUlid (s : string) : bool :=
  (slen s =? 26) && sforall is_crockford s && match s with String c _ => code c <=? 55 | EmptyString => true end.

(** ** Message types *)

Definition IsEphemeralType (t : string) : bool :=
  (t =s "ping") || (t =s "pong") || (t =s "ack") || (t =s "hello") || (t =s "welcome") || (t =s "error") ||
  (t =s "state.request") || (t =s "state.snapshot").

(** The loop of [IsValidType]: [segStart] and the rest. *)
Fixpoint type_chars (segStart : bool) (t : string) : bool :=
  match t with
  | EmptyString => negb segStart
  | String c t =>
      if Ascii.eqb c "." then if segStart then false else type_chars true t
      else
        let rest := isdigit c || Ascii.eqb c "_" in
        if negb (islower c || (negb segStart && rest)) then false else type_chars false t
  end.
Definition IsValidType (t : string) : bool := if sempty t || (64 <? slen t) then false else type_chars true t.

(** ** The envelope *)

Record Envelope := {
  v : Z; type : string; id : string; seq_ : Z; ack : Z; ts : Z; ref : string; epoch : Z; payload : Json }.

Definition AppendHead (e : Envelope) : string :=
  qs "{`v`:" +s+ to_string (v e) +s+ qs ",`type`:" +s+ AppendQuoted (type e) +s+ qs ",`id`:" +s+ AppendQuoted (id e) +s+
  (if 0 <? seq_ e then qs ",`seq`:" +s+ to_string (seq_ e) else EmptyString) +s+
  (if 0 <=? ack e then qs ",`ack`:" +s+ to_string (ack e) else EmptyString) +s+
  qs ",`ts`:" +s+ to_string (ts e) +s+ qs ",`ref`:" +s+ (if sempty (ref e) then "null" else AppendQuoted (ref e)) +s+
  (if 0 <? epoch e then qs ",`epoch`:" +s+ to_string (epoch e) else EmptyString) +s+ qs ",`payload`:".

Definition Encode (e : Envelope) : string := AppendHead e +s+ fleet_Dump (if IsObj (payload e) then payload e else JObject []) +s+ "}".
Definition EncodeRaw (e : Envelope) (payloadJson : string) : string :=
  AppendHead e +s+ (if sempty payloadJson then "{}" else payloadJson) +s+ "}".

(** [*err], [*out], or the undefined cast of a fractional number without an integer value. *)
Inductive decoded := DecErr (why : string) | DecOk (e : Envelope) | DecUndefined.

Definition not_null (x : option Json) : option Json := match x with Some JNull => None | x => x end.

(** A member that must be an integer of at least [lo] when it is there and not null. *)
Definition opt_int (lo def : Z) (x : option Json) : option Z :=
  match not_null x with None => Some def | Some (JInt i) => if i <? lo then None else Some i | Some _ => None end.
Definition opt_str (x : option Json) : string := match x with Some (JString s) => s | _ => EmptyString end.
Definition int_or_0 (x : option Json) : option Z := match x with Some j => AsIntOr 0 j | None => Some 0 end.

Definition Decode (text : string) : decoded :=
  if kMaxFrameBytes <? slen text then DecErr "frame too large"
  else
    match fleet_Parse text with
    | Parsed (JObject _ as w) =>
        match Get w "v" with
        | Some (JInt ver) =>
            let ty := opt_str (Get w "type") in
            if negb (IsValidType ty) then DecErr "missing or invalid type"
            else
              match opt_int 1 0 (Get w "seq") with
              | None => DecErr "invalid seq"
              | Some sq =>
                  match opt_int 0 (-1) (Get w "ack") with
                  | None => DecErr "invalid ack"
                  | Some ak =>
                      match int_or_0 (Get w "ts"), int_or_0 (not_null (Get w "epoch")) with
                      | Some t, Some ep =>
                          match Get w "payload" with
                          | None => DecErr "missing payload"
                          | Some p =>
                              if negb (IsObj p) then DecErr "payload is not an object"
                              else DecOk {| v := to_int32 ver; type := ty; id := opt_str (Get w "id"); seq_ := sq; ack := ak; ts := t;
                                            ref := opt_str (Get w "ref"); epoch := ep; payload := p |}
                          end
                      | _, _ => DecUndefined
                      end
                  end
              end
        | _ => DecErr "missing v"
        end
    | Parsed _ => DecErr "envelope is not an object"
    | ParseError perr => DecErr ("invalid JSON: " +s+ perr)
    | ParseFuel => DecUndefined
    end.

(** ** Backoff *)

Record BackoffPolicy := { baseMs : Z; capMs : Z; resetAfterMs : Z }.
Definition DefaultPolicy : BackoffPolicy := {| baseMs := 1000; capMs := 30000; resetAfterMs := 60000 |}.

Record Backoff := { p_ : BackoffPolicy; attempt_ : nat }.

(** The loop of [Ceiling]. *)
Fixpoint doubled (n : nat) (cap x : Z) : Z := match n with O => x | S n => if x <? cap then doubled n cap (x * 2) else x end.
Definition Ceiling (b : Backoff) (capOverride baseOverride : Z) : Z :=
  let base := if 0 <? baseOverride then baseOverride else baseMs (p_ b) in
  let cap := if 0 <? capOverride then capOverride else capMs (p_ b) in
  Z.min (doubled (attempt_ b) cap base) cap.

(** [draw c] is what the distribution over 0..c answers. *)
Definition Next (draw : Z -> Z) (b : Backoff) (capOverride baseOverride : Z) : Backoff * Z :=
  let ceil := Ceiling b capOverride baseOverride in
  ({| p_ := p_ b; attempt_ := if (attempt_ b <? 62)%nat then S (attempt_ b) else attempt_ b |}, if ceil <=? 0 then 0 else draw ceil).
Definition ResetBackoff (b : Backoff) : Backoff := {| p_ := p_ b; attempt_ := 0 |}.
Definition OnSessionEnded (durationMs : Z) (b : Backoff) : Backoff := if resetAfterMs (p_ b) <=? durationMs then ResetBackoff b else b.

(** ** Redaction *)

Definition tokenChar (c : ascii) : bool :=
  isalnum c || Ascii.eqb c "_" || Ascii.eqb c "-" || Ascii.eqb c "=" || Ascii.eqb c "+" || Ascii.eqb c "/".
Definition prefixes : list string := ["rus_"; "rfk_"; "rhs_"; "rst_"; "RUE-"; "Bearer "].

Definition is_bearer (p : string) : bool := match p with String c _ => Ascii.eqb c "B" | _ => false end.
(** [boundary], with the byte before. *)
Definition boundary (prev : option ascii) : bool := match prev with None => true | Some c => negb (isalnum c || Ascii.eqb c "_") end.

Definition secret_at (prev : option ascii) (s : string) : option string :=
  List.find (fun p => starts_with p s && (is_bearer p || boundary prev)) prefixes.

Fixpoint last_char (d : option ascii) (s : string) : option ascii := match s with EmptyString => d | String c s => last_char (Some c) s end.

(** The loop of [Redact]; every turn consumes a byte. *)
Fixpoint redact_loop (fuel : nat) (prev : option ascii) (s : string) : string :=
  match fuel, s with
  | S fuel, String c r =>
      match secret_at prev s with
      | Some p =>
          let '(tok, rest) := span tokenChar (sdrop (String.length p) s) in
          p +s+ "***" +s+ redact_loop fuel (last_char prev (p +s+ tok)) rest
      | None => String c (redact_loop fuel (Some c) r)
      end
  | _, _ => EmptyString
  end.
Definition Redact (s : string) : string := redact_loop (String.length s) None s.

(** ** Close codes *)

Record CloseAction := {
  fixedDelayMs : Z; act_capMs : Z; act_baseMs : Z; rejected : bool; versionUnsupported : bool; what : string }.
Definition NewAction (w : string) : CloseAction :=
  {| fixedDelayMs := -1; act_capMs := 0; act_baseMs := 0; rejected := false; versionUnsupported := false; what := w |}.
Definition with_delay (d : Z) (a : CloseAction) : CloseAction :=
  {| fixedDelayMs := d; act_capMs := act_capMs a; act_baseMs := act_baseMs a; rejected := rejected a; versionUnsupported := versionUnsupported a; what := what a |}.
Definition with_base (d : Z) (a : CloseAction) : CloseAction :=
  {| fixedDelayMs := fixedDelayMs a; act_capMs := act_capMs a; act_baseMs := d; rejected := rejected a; versionUnsupported := versionUnsupported a; what := what a |}.
(** The ten-minute cap, for rejected credentials or an unsupported version. *)
Definition with_cap (rej : bool) (a : CloseAction) : CloseAction :=
  {| fixedDelayMs := fixedDelayMs a; act_capMs := 600000; act_baseMs := act_baseMs a; rejected := rej; versionUnsupported := negb rej; what := what a |}.
Definition more_what (w : string) (a : CloseAction) : CloseAction :=
  {| fixedDelayMs := fixedDelayMs a; act_capMs := act_capMs a; act_baseMs := act_baseMs a; rejected := rejected a; versionUnsupported := versionUnsupported a; what := what a +s+ w |}.

(** The digits of [ParseRetryAfterMs], while the value is below a day. *)
Fixpoint retry_digits (val : Z) (any : bool) (s : string) : Z :=
  match s with
  | String c r => if isdigit c && (val <? 86400000) then retry_digits (val * 10 + digit_val c) true r else if any then val else -1
  | EmptyString => if any then val else -1
  end.
Definition ParseRetryAfterMs (reason : string) : Z :=
  let s := match find "retry_after_ms" reason with None => reason | Some k => sdrop (k + 14) reason end in
  retry_digits 0 false (drop_while (fun c => negb (isdigit c)) s).

Definition ClassifyClose (c : Z) (reason : string) : CloseAction :=
  let a :=
    if c =? 1000 then NewAction "closed normally"
    else if c =? 1001 then NewAction "platform going away"
    else if c =? 4400 then NewAction "protocol error"
    else if (c =? 4401) || (c =? 4403) then
      with_cap true (NewAction (if c =? 4401 then "credentials rejected (4401)" else "credentials revoked (4403)"))
    else if c =? 4409 then with_delay 30000 (NewAction "replaced by a newer session (4409)")
    else if c =? 4426 then with_cap false (NewAction "protocol version unsupported (4426): update Ready Up")
    else if c =? 4429 then
      let ms := ParseRetryAfterMs reason in with_delay (if 0 <=? ms then ms else 30000) (NewAction "rate limited (4429)")
    else if c =? 4503 then with_base 2000 (NewAction "platform draining (4503)")
    else NewAction ("closed with code " +s+ to_string c) in
  if negb (sempty reason) && negb (c =? 4429) then more_what (": " +s+ Redact (stake 120 reason)) a else a.

Definition ClassifyHttpStatus (status retryAfterMs : Z) : CloseAction :=
  let a := NewAction ("HTTP " +s+ to_string status) in
  if (status =? 401) || (status =? 403) then more_what " (credentials rejected)" (with_cap true a)
  else if status =? 426 then more_what " (protocol version unsupported)" (with_cap false a)
  else if status =? 429 then more_what " (rate limited)" (with_delay (if 0 <? retryAfterMs then retryAfterMs else 30000) a)
  else if status =? 503 then with_base 2000 a
  else a.

(** ** The inbound stream *)

Inductive Verdict := Accept | Duplicate | OutOfOrder.

(** [pending_] is a [std::map]: its entries in the order of the keys. *)
Record RxTracker := {
  received_ : Z; processed_ : Z; lastAckSent_ : Z; firstUnackedAtMs_ : Z;
  pending_ : list (Z * bool); idOrder_ : list string; ids_ : gset string }.
Definition NewRx : RxTracker :=
  {| received_ := 0; processed_ := 0; lastAckSent_ := -1; firstUnackedAtMs_ := -1; pending_ := []; idOrder_ := []; ids_ := ∅ |}.

(** [pending_[k] = x]. *)
Fixpoint map_put (k : Z) (x : bool) (l : list (Z * bool)) : list (Z * bool) :=
  match l with
  | [] => [(k, x)]
  | (k', x') :: l' => if k <? k' then (k, x) :: l else if k =? k' then (k, x) :: l' else (k', x') :: map_put k x l'
  end.

Definition ResetRx (processedSeq : Z) (t : RxTracker) : RxTracker :=
  {| received_ := Z.max 0 processedSeq; processed_ := Z.max 0 processedSeq; lastAckSent_ := -1; firstUnackedAtMs_ := -1;
     pending_ := []; idOrder_ := idOrder_ t; ids_ := ids_ t |}.

Definition set_ids (order : list string) (s : gset string) (t : RxTracker) : RxTracker :=
  {| received_ := received_ t; processed_ := processed_ t; lastAckSent_ := lastAckSent_ t; firstUnackedAtMs_ := firstUnackedAtMs_ t;
     pending_ := pending_ t; idOrder_ := order; ids_ := s |}.

Definition RememberId (x : string) (t : RxTracker) : RxTracker :=
  if sempty x || bool_decide (x ∈ ids_ t) then t
  else
    let s := {[x]} ∪ ids_ t in
    let order := idOrder_ t ++ [x] in
    if kDedupeWindow <? zlen order
    then match order with o :: order' => set_ids order' (s ∖ {[o]}) t | [] => set_ids order s t end
    else set_ids order s t.

Definition OnReliable (sq : Z) (x : string) (t : RxTracker) : RxTracker * Verdict :=
  if sq <=? received_ t then (t, Duplicate)
  else if negb (sempty x) && bool_decide (x ∈ ids_ t) then (t, Duplicate)
  else if negb (sq =? received_ t + 1) then (t, OutOfOrder)
  else
    (RememberId x {| received_ := sq; processed_ := processed_ t; lastAckSent_ := lastAckSent_ t; firstUnackedAtMs_ := firstUnackedAtMs_ t;
                     pending_ := map_put sq false (pending_ t); idOrder_ := idOrder_ t; ids_ := ids_ t |}, Accept).

Definition OnEphemeralId (x : string) (t : RxTracker) : RxTracker * bool :=
  if sempty x then (t, true) else if bool_decide (x ∈ ids_ t) then (t, false) else (RememberId x t, true).

(** The loop of [MarkDone] over the done prefix. *)
Fixpoint done_prefix (processed : Z) (l : list (Z * bool)) : Z * list (Z * bool) :=
  match l with
  | (k, true) :: l' => if k =? processed + 1 then done_prefix k l' else (processed, l)
  | _ => (processed, l)
  end.

Definition MarkDone (sq nowMs : Z) (t : RxTracker) : RxTracker * bool :=
  if negb (existsb (fun p => p.1 =? sq) (pending_ t)) then (t, false)
  else
    let '(processed, pending) := done_prefix (processed_ t) (map_put sq true (pending_ t)) in
    let moved := negb (processed =? processed_ t) in
    ({| received_ := received_ t; processed_ := processed; lastAckSent_ := lastAckSent_ t;
        firstUnackedAtMs_ := if moved && (firstUnackedAtMs_ t <? 0) then nowMs else firstUnackedAtMs_ t;
        pending_ := pending; idOrder_ := idOrder_ t; ids_ := ids_ t |}, moved).

Definition AckDue (nowMs : Z) (t : RxTracker) : bool :=
  if (processed_ t <=? lastAckSent_ t) || (processed_ t =? 0) then false
  else if 32 <=? processed_ t - Z.max (lastAckSent_ t) 0 then true
  else (0 <=? firstUnackedAtMs_ t) && (1000 <=? nowMs - firstUnackedAtMs_ t).

Definition NextAckDueMs (t : RxTracker) : Z :=
  if (processed_ t <=? lastAckSent_ t) || (processed_ t =? 0) || (firstUnackedAtMs_ t <? 0) then -1 else firstUnackedAtMs_ t + 1000.

Definition OnAckSent (ackedSeq : Z) (t : RxTracker) : RxTracker :=
  let last := Z.max (lastAckSent_ t) ackedSeq in
  {| received_ := received_ t; processed_ := processed_ t; lastAckSent_ := last;
     firstUnackedAtMs_ := if processed_ t <=? last then -1 else firstUnackedAtMs_ t;
     pending_ := pending_ t; idOrder_ := idOrder_ t; ids_ := ids_ t |}.

(** ** URLs *)

Definition JoinUrl (base path : string) (ws : bool) : string :=
  let b := drop_while_end (fun c => Ascii.eqb c "/") base in
  let b := if ws then if starts_with "https://" b then "wss://" +s+ sdrop 8 b
                      else if starts_with "http://" b then "ws://" +s+ sdrop 7 b else b
           else b in
  b +s+ path.

Definition SchemeOf (url : string) : string := match find "://" url with None => EmptyString | Some p => lower (stake p url) end.

Definition url_delim (c : ascii) : bool := Ascii.eqb c "/" || Ascii.eqb c "?" || Ascii.eqb c "#".

(** The text after the last [c]. *)
Fixpoint after_last (c : ascii) (s : string) : option string :=
  match s with
  | EmptyString => None
  | String d r => match after_last c r with Some t => Some t | None => if Ascii.eqb d c then Some r else None end
  end.

Definition AuthorityOf (url : string) : string :=
  match find "://" url with
  | None => EmptyString
  | Some p =>
      let auth := (span (fun c => negb (url_delim c)) (sdrop (p + 3) url)).1 in
      match after_last "@" auth with Some t => t | None => auth end
  end.

Definition bracketed (s : string) : bool := match s with String c _ => Ascii.eqb c "[" | _ => false end.

(** [HostOf] repeats the code of [AuthorityOf] and takes the host of the result. *)
Definition HostOf (url : string) : string :=
  let auth := AuthorityOf url in
  if bracketed auth then match find "]" auth with None => EmptyString | Some rb => stake (rb - 1) (sdrop 1 auth) end
  else lower (match find ":" auth with Some colon => stake colon auth | None => auth end).

Definition PortOf (url : string) : string :=
  let auth := AuthorityOf url in
  match (if bracketed auth then find "]" auth else Some O) with
  | None => EmptyString
  | Some from => match find ":" (sdrop from auth) with None => EmptyString | Some colon => sdrop (colon + 1) (sdrop from auth) end
  end.

Definition has_suffix (p s : string) : bool := (String.length p <=? String.length s)%nat && (sdrop (String.length s - String.length p) s =s p).

Section inet.
(** [inet_pton] for IPv4 (the address in host order) and IPv6 (its 16 bytes). *)
Variable inet4 : string -> option Z.
Variable inet6 : string -> option (list Z).

Definition IsPrivateHostUrl (url : string) : bool :=
  let h := HostOf url in
  if (h =s "localhost") || ((10 <? slen h) && has_suffix ".localhost" h) then true
  else
    match inet4 h with
    | Some ip =>
        (Z.shiftr ip 24 =? 127) || (Z.shiftr ip 24 =? 10) || (Z.shiftr ip 20 =? 0xAC1) || (Z.shiftr ip 16 =? 0xC0A8) || (Z.shiftr ip 16 =? 0xA9FE)
    | None =>
        match inet6 h with
        | Some b =>
            bool_decide (b = repeat 0 15 ++ [1]) || (Z.land (nth 0 b 0) 0xFE =? 0xFC) ||
            ((nth 0 b 0 =? 0xFE) && (Z.land (nth 1 b 0) 0xC0 =? 0x80))
        | None => false
        end
    end.
End inet.

(** The reason, empty when the URL is allowed. *)
Definition CheckUrlAllowed (url : string) (insecure : bool) : string :=
  let s := SchemeOf url in
  if (s =s "https") || (s =s "wss") then EmptyString
  else if (s =s "http") || (s =s "ws") then
    if negb insecure then
      "plain " +s+ s +s+ ":// is refused: use " +s+ (if s =s "http" then "https" else "wss") +s+
      "://, or opt in with `insecure = 1` in fleet.cfg or `ru fleet enroll <url> <code> --insecure` " +s+
      "(the token then travels unencrypted)"
    else EmptyString
  else "unsupported URL scheme (want https:// or wss://)".

Definition UpgradeSameHostWs (base wsUrl : string) : string :=
  if negb (SchemeOf base =s "https") || negb (SchemeOf wsUrl =s "ws") then EmptyString
  else
    let host := HostOf base in
    if sempty host || negb (host =s HostOf wsUrl) then EmptyString
    else
      let bp := PortOf base in
      let wp := PortOf wsUrl in
      if negb (sempty wp || (wp =s "80") || (wp =s bp) || ((wp =s "443") && sempty bp)) then EmptyString
      else
        let tail := match find "://" wsUrl with
                    | Some p => (span (fun c => negb (url_delim c)) (sdrop (p + 3) wsUrl)).2
                    | None => EmptyString
                    end in
        "wss://" +s+ AuthorityOf base +s+ tail.

(** ** The selftest payload *)

Definition high (c : ascii) : bool := negb (Z.land (code c) 0x80 =? 0).
Definition continuation (c : ascii) : bool := Z.land (code c) 0xC0 =? 0x80.
(** [if (!s.empty() && f(s.back())) s.pop_back()]. *)
Fixpoint pop_if (f : ascii -> bool) (s : string) : string :=
  match s with
  | EmptyString => EmptyString
  | String c EmptyString => if f c then EmptyString else s
  | String c r => String c (pop_if f r)
  end.
Definition cut512 (s : string) : string := if 512 <? slen s then pop_if high (drop_while_end continuation (stake 512 s)) else s.

Definition IsNum (j : Json) : bool := match j with JInt _ | JDouble _ => true | _ => false end.

(** [None] is an undefined cast. *)
Definition SelftestPayload (coreJson : string) : option string :=
  match (if sempty coreJson then ParseError EmptyString else fleet_Parse coreJson) with
  | Parsed (JObject _ as w) =>
      match Get w "pass", Get w "passed", Get w "total" with
      | Some (JBool pass), Some passed, Some total =>
          if negb (IsNum passed && IsNum total) then Some EmptyString
          else
            np ← AsIntOr 0 passed;
            nt ← AsIntOr 0 total;
            let failures := match Get w "failures" with
                            | Some (JArray a) => firstn 256 (omap (fun e => match e with JString s => Some (JString (cut512 s)) | _ => None end) a)
                            | _ => []
                            end in
            Some (fleet_Dump (JObject [("pass", JBool pass); ("passed", JInt (Z.max 0 np)); ("total", JInt (Z.max 0 nt)); ("failures", JArray failures)]))
      | _, _, _ => Some EmptyString
      end
  | _ => Some EmptyString
  end.

(** ** The address players connect to *)

Definition junk (c : ascii) : bool :=
  Ascii.eqb c " " || Ascii.eqb c tab || Ascii.eqb c creturn || Ascii.eqb c newline || Ascii.eqb c dquote || Ascii.eqb c "'".
Definition addr_char (c : ascii) : bool :=
  isalnum c || Ascii.eqb c "." || Ascii.eqb c "-" || Ascii.eqb c ":" || Ascii.eqb c "[" || Ascii.eqb c "]".
Definition v6_char (c : ascii) : bool :=
  isdigit c || ((97 <=? code c) && (code c <=? 102)) || ((65 <=? code c) && (code c <=? 70)) || Ascii.eqb c ":" || Ascii.eqb c ".".
Fixpoint count_char (c : ascii) (s : string) : nat :=
  match s with EmptyString => 0 | String d s => (if Ascii.eqb d c then 1 else 0) + count_char c s end.

(** The host, the port text and whether the host is an IPv6 address. *)
Definition split_addr (s : string) : option (string * string * bool) :=
  if bracketed s then
    match find "]" s with
    | None => None
    | Some close =>
        let rest := sdrop (close + 1) s in
        let host := stake (close - 1) (sdrop 1 s) in
        match rest with
        | EmptyString => Some (host, EmptyString, true)
        | String c port => if Ascii.eqb c ":" then Some (host, port, true) else None
        end
    end
  else if contains "[" s || contains "]" s then None
  else
    match count_char ":" s, find ":" s with
    | 1%nat, Some c => Some (stake c s, sdrop (c + 1) s, false)
    | O, _ => Some (s, EmptyString, false)
    | _, _ => Some (s, EmptyString, true)
    end.

Definition NormalizePublicAddr (raw : string) (gamePort : Z) : string :=
  let s := strip junk raw in
  if sempty s || (253 <? slen s) || negb (sforall addr_char s) then EmptyString
  else
    match split_addr s with
    | None => EmptyString
    | Some (host, port, v6) =>
        if sempty host then EmptyString
        else if v6 && negb (sforall v6_char host) then EmptyString
        else if negb v6 && contains ":" host then EmptyString
        else if (host =s "0.0.0.0") || (host =s "::") || (host =s "0") then EmptyString
        else
          let given := negb (sempty port) || bool_decide (last_char None s = Some ":"%char) in
          if given && (sempty port || (5 <? slen port) || negb (sforall isdigit port)) then EmptyString
          else
            let p := if given then digits_val port 0 else gamePort in
            if (p <? 1) || (65535 <? p) then EmptyString
            else (if v6 then "[" +s+ host +s+ "]" else host) +s+ ":" +s+ to_string p
    end.

Definition is_loopback (a : string) : bool := starts_with "127." a || starts_with "localhost:" a || starts_with "[::1]:" a.

Definition PickPublicAddr (configured : string) (detected : list string) (gamePort : Z) : string :=
  let c := NormalizePublicAddr configured gamePort in
  if negb (sempty c) then c
  else
    match List.find (fun a => negb (sempty a) && negb (is_loopback a)) ((fun d => NormalizePublicAddr d gamePort) <$> detected) with
    | Some a => a
    | None => EmptyString
    end.

Definition sample_env : Envelope :=
  {| v := 1; type := "event.round_end"; id := "01HX"; seq_ := 7; ack := 3; ts := 1700000000000; ref := EmptyString; epoch := 2;
     payload := JObject [("round", JInt 4)] |}.
Example proto_runs :
  Decode (Encode sample_env) = DecOk sample_env /\ IsUlid (NewUlid [1; 2; 3; 4; 5; 6; 7; 8; 9; 10] 1700000000000) = true /\
  Redact "token=rus_abc123 x Bearer zzz." = "token=rus_*** x Bearer ***." /\
  UpgradeSameHostWs "https://t.example.com" "ws://t.example.com/api/ws" = "wss://t.example.com/api/ws" /\
  NormalizePublicAddr " [2001:db8::1]:27015 " 27016 = "[2001:db8::1]:27015" /\ NormalizePublicAddr "2001:db8::1" 27016 = "[2001:db8::1]:27016".
Proof. vm_compute. done. Qed.

End Proto.
