(* ===== verification/FleetProtoFacts.v ===== *)
(** * Theorems about the fleet protocol

    Envelopes survive their encoding, the backoff is the documented formula, identifiers are well formed,
    secrets do not reach the log where they are recognised, and a token is not sent to another host. *)

From S2P Require Import Prelude CStr Double Json JsonFacts FleetJson FleetProto.

Import Proto.

(** ** Envelopes *)

(** The fields the link fills in: a number that is absent in its normal form, the others in their width. *)
Record head_ok (e : Envelope) : Prop := {
  ho_v : int32_ok (v e);
  ho_type : IsValidType (type e) = true;
  ho_seq : 0 <= seq_ e /\ int64_ok (seq_ e);
  ho_ack : -1 <= ack e /\ int64_ok (ack e);
  ho_ts : int64_ok (ts e);
  ho_epoch : 0 <= epoch e /\ int64_ok (epoch e) }.

(** A text, standing alone, as the payload: an object, one level less deep than the parser goes. *)
Definition payload_reads (p : string) (o : list (string * Json)) : Prop :=
  fleet_ParseDepth 63 (if sempty p then "{}" else p) = Parsed (JObject o).

Definition with_payload (o : list (string * Json)) (e : Envelope) : Envelope :=
  {| v := v e; type := type e; id := id e; seq_ := seq_ e; ack := ack e; ts := ts e; ref := ref e; epoch := epoch e; payload := JObject o |}.

(** A payload without fractional numbers, nested at most 63 levels, reads back from its print. *)
Lemma plain_payload_reads o : plain (JObject o) = true -> (depth (JObject o) <= 63)%nat -> payload_reads (fleet_Dump (JObject o)) o.
Proof. intros Hp Hd. unfold payload_reads. change (sempty (fleet_Dump (JObject o))) with false. by apply fleet_ParseDepth_Dump. Qed.

(** The members before the payload. *)
Definition head_members (e : Envelope) : list (string * Json) :=
  [("v", JInt (v e)); ("type", JString (type e)); ("id", JString (id e))] ++
  (if 0 <? seq_ e then [("seq", JInt (seq_ e))] else []) ++ (if 0 <=? ack e then [("ack", JInt (ack e))] else []) ++
  [("ts", JInt (ts e)); ("ref", if sempty (ref e) then JNull else JString (ref e))] ++
  (if 0 <? epoch e then [("epoch", JInt (epoch e))] else []).

Lemma EncodeRaw_text e p :
  EncodeRaw e p = String "{" (members_before (head_members e) +s+ JsonEscape "payload" +s+ String ":"%char ((if sempty p then "{}" else p) +s+ "}")).
Proof.
  unfold EncodeRaw, AppendHead, head_members. rewrite !AppendQuoted_eq. set (pt := if sempty p then "{}" else p). clearbody pt.
  destruct (0 <? seq_ e), (0 <=? ack e), (0 <? epoch e), (sempty (ref e)); cbn [Dump members_before app];
    repeat (rewrite ?app_assoc_s, ?app_cons_s); reflexivity.
Qed.

Lemma head_members_ok e : head_ok e ->
  plain (JObject (head_members e)) = true /\ (depth (JObject (head_members e)) <= 64)%nat /\ "payload" ∉ keys (head_members e).
Proof.
  intros [H1 _ [_ H2] [_ H3] H4 [_ H5]]. assert (int64_ok (v e)) by (unfold int32_ok, int64_ok in *; lia). unfold head_members.
  destruct (0 <? seq_ e), (0 <=? ack e), (0 <? epoch e), (sempty (ref e)); cbn [app]; (split; [|split; [cbn; lia|apply (bool_decide_unpack _); vm_compute; exact I]]);
    apply plain_object; (split; [apply (bool_decide_unpack _); vm_compute; exact I|]);
    repeat (apply Forall_cons_2; [cbn [snd]; first [done | by apply bool_decide_eq_true]|]); by apply Forall_nil_2.
Qed.

Lemma EncodeRaw_decodes e p o : head_ok e -> payload_reads p o -> slen (EncodeRaw e p) <= kMaxFrameBytes ->
  Decode (EncodeRaw e p) = DecOk (with_payload o e).
Proof.
  intros He Hp Hl. destruct (head_members_ok e He) as (H1 & H2 & H3). unfold Decode. destruct (Z.ltb_spec kMaxFrameBytes (slen (EncodeRaw e p))); [lia|].
  rewrite EncodeRaw_text, (fleet_Parse_last _ _ _ _ H1 H2 H3 Hp). clear Hl H1 H2 H3 H Hp p. destruct He as [H1 Ht [H2 _] [H3 _] _ [H4 _]].
  unfold head_members, with_payload, Get. destruct e as [ev ty i sq ak t rf ep pl]. cbn [v type id seq_ ack ts ref epoch payload] in *.
  destruct (Z.ltb_spec 0 sq), (Z.leb_spec 0 ak), (Z.ltb_spec 0 ep), rf as [|rc rf]; cbn -[IsValidType to_int32]; rewrite ?Ht; cbn -[IsValidType to_int32];
    repeat (match goal with |- context [?x <? ?y] => destruct (Z.ltb_spec x y); [lia|] end; cbn -[IsValidType to_int32]);
    rewrite (to_int32_id _ H1); cbn; do 2 f_equal; lia.
Qed.

(** Claim C25.  What one side sends the other receives: a frame of at most one MiB decodes to the envelope it was
    made of, with type, id, sequence number, acknowledgement, time, reference and epoch, present or absent (the
    type valid, the numbers in their width), and with the payload that the payload's text is on its own.  The link
    sends texts ([EncodeRaw]): any JSON text that the parser reads as an object within 63 levels is received as
    that object, fractional numbers and repeated keys included.  A payload tree ([Encode]) is received unchanged
    when its print reads back as the tree, within the same 63 levels, as every tree of distinct keys, 64-bit integers
    and no fractional numbers does.  A payload of 64 levels, which [Client::Send] accepts, is refused: the frame
    is one level deeper ([deepest_frame_refused]). *)
Theorem envelope_roundtrip (e : Envelope) :
  head_ok e ->
  (forall p o, payload_reads p o -> slen (EncodeRaw e p) <= kMaxFrameBytes -> Decode (EncodeRaw e p) = DecOk (with_payload o e)) /\
  (forall o, payload e = JObject o -> payload_reads (fleet_Dump (payload e)) o \/ (plain (payload e) = true /\ (depth (payload e) <= 63)%nat) ->
     slen (Encode e) <= kMaxFrameBytes -> Decode (Encode e) = DecOk e).
Proof.
  intros He. split; [intros; by apply EncodeRaw_decodes|]. intros o Ho Hr Hl.
  assert (payload_reads (fleet_Dump (JObject o)) o) as Hp by (rewrite Ho in Hr; destruct Hr as [?|[? ?]]; [done|by apply plain_payload_reads]).
  assert (Encode e = EncodeRaw e (fleet_Dump (JObject o))) as E by (unfold Encode, EncodeRaw; by rewrite Ho).
  rewrite E in Hl |- *. rewrite (EncodeRaw_decodes e _ o He Hp Hl). destruct e. cbn in *. by rewrite Ho.
Qed.

(** The health that a ping carries, with a fractional number. *)
Definition ping_health : string := qs "{`players`:3,`tick_ms_p99`:15.630000000000001}".
Definition health_members : list (string * Json) := [("players", JInt 3); ("tick_ms_p99", JDouble (dratio 1563 100))].

Lemma sample_head_ok : head_ok sample_env.
Proof. split; cbn; unfold int32_ok, int64_ok; (split_and?; lia) || reflexivity. Qed.

Lemma envelope_roundtrip_witness :
  Decode (EncodeRaw sample_env ping_health) = DecOk (with_payload health_members sample_env) /\ Decode (Encode sample_env) = DecOk sample_env.
Proof.
  destruct (envelope_roundtrip sample_env sample_head_ok) as [H1 H2]. split.
  - apply H1; [vm_compute; reflexivity|vm_compute; discriminate].
  - eapply H2; [reflexivity|left; vm_compute; reflexivity|vm_compute; discriminate].
Defined.

Definition nested : nat -> string := fix go n := match n with O => "{}" | S n => qs "{`a`:" +s+ go n +s+ "}" end.

Example deepest_frame_refused :
  match fleet_Parse (nested 64) with Parsed (JObject _) => True | _ => False end /\
  match Decode (EncodeRaw sample_env (nested 63)), Decode (EncodeRaw sample_env (nested 64)) with DecOk _, DecErr _ => True | _, _ => False end.
Proof. vm_compute. done. Qed.

(** ** Backoff *)

Lemma doubled_spec n cap : forall x, 0 < x -> Z.min (doubled n cap x) cap = Z.min (x * 2 ^ Z.of_nat n) cap.
Proof.
  induction n as [|n IH]; intros x Hx; [cbn; f_equal; lia|]. cbn [doubled]. rewrite Nat2Z.inj_succ, Z.pow_succ_r by lia.
  assert (0 < 2 ^ Z.of_nat n) by lia. destruct (Z.ltb_spec x cap); [rewrite IH by lia; f_equal; lia|]. nia.
Qed.

(** Claim C36.  The reconnect delay is the documented one: the ceiling is the base doubled once per failed attempt
    and cut at the cap, a delay lies between 0 and the ceiling whatever the random source answers in its
    range, a further attempt never lowers the ceiling, and a session that lasted long enough starts over
    at the base. *)
Theorem backoff_formula (b : Backoff) (draw : Z -> Z) (capO baseO dur : Z) :
  let base := if 0 <? baseO then baseO else baseMs (p_ b) in
  let cap := if 0 <? capO then capO else capMs (p_ b) in
  let '(b', delay) := Next draw b capO baseO in
  0 < base -> (forall c, 0 < c -> 0 <= draw c <= c) ->
  Ceiling b capO baseO = Z.min (base * 2 ^ Z.of_nat (attempt_ b)) cap /\ 0 <= delay <= Z.max 0 cap /\ delay <= Z.max 0 (Ceiling b capO baseO) /\
  Ceiling b capO baseO <= Ceiling b' capO baseO /\
  (resetAfterMs (p_ b) <= dur -> Ceiling (OnSessionEnded dur b) capO baseO = Z.min base cap).
Proof.
  cbn zeta. unfold Next. intros Hb Hd.
  assert (forall x, p_ x = p_ b -> Ceiling x capO baseO =
    Z.min ((if 0 <? baseO then baseO else baseMs (p_ b)) * 2 ^ Z.of_nat (attempt_ x)) (if 0 <? capO then capO else capMs (p_ b))) as Hc.
  { intros x Hx. unfold Ceiling. rewrite Hx. by apply doubled_spec. }
  set (base := if 0 <? baseO then baseO else baseMs (p_ b)) in *. set (cap := if 0 <? capO then capO else capMs (p_ b)) in *.
  assert (Ceiling b capO baseO <= cap) as Hcap by (rewrite (Hc b eq_refl); lia). split_and!.
  - by apply Hc.
  - destruct (Z.leb_spec (Ceiling b capO baseO) 0); [lia|]. by apply Hd.
  - destruct (Z.leb_spec (Ceiling b capO baseO) 0); [lia|]. specialize (Hd (Ceiling b capO baseO)). lia.
  - destruct (Z.leb_spec (Ceiling b capO baseO) 0); [lia|]. specialize (Hd (Ceiling b capO baseO)). lia.
  - rewrite (Hc b eq_refl), Hc by done. cbn [attempt_]. apply Z.min_le_compat_r. apply Z.mul_le_mono_nonneg_l; [lia|].
    apply Z.pow_le_mono_r; [lia|]. destruct (_ <? 62)%nat; lia.
  - intros Hr. unfold OnSessionEnded. destruct (Z.leb_spec (resetAfterMs (p_ b)) dur); [|lia]. rewrite Hc by done. cbn [attempt_ ResetBackoff]. f_equal. lia.
Qed.

Lemma backoff_formula_witness :
  Ceiling {| p_ := DefaultPolicy; attempt_ := 3 |} 0 0 = Z.min (1000 * 2 ^ 3) 30000 /\ 0 <= 8000 <= 30000 /\ 8000 <= Z.max 0 8000 /\ 8000 <= 16000 /\
  (60000 <= 60000 -> Ceiling (OnSessionEnded 60000 {| p_ := DefaultPolicy; attempt_ := 3 |}) 0 0 = Z.min 1000 30000).
Proof. apply (backoff_formula {| p_ := DefaultPolicy; attempt_ := 3 |} (fun c => c) 0 0 60000); [done|intros; lia]. Defined.

(** ** Identifiers *)

Lemma land1 x : 0 <= Z.land x 1 <= 1.
Proof. change (Z.land x 1) with (Z.land x (Z.ones 1)). rewrite Z.land_ones by lia. pose proof (Z.mod_pos_bound x (2 ^ 1)). lia. Qed.

Lemma ulid_bit_range b i : 0 <= ulid_bit b i <= 1.
Proof. unfold ulid_bit. case_if; [lia|]. apply land1. Qed.

Lemma lor_bit x b : 0 <= b <= 1 -> Z.lor (Z.shiftl x 1) b = 2 * x + b.
Proof.
  intros Hb. rewrite Z.shiftl_mul_pow2 by lia. change (2 ^ 1) with 2. assert (b = 0 \/ b = 1) as [Hz|Hz] by lia; subst b; [rewrite Z.lor_0_r; lia|].
  assert (Z.land (x * 2) 1 = 0) as Hl.
  { change 1 with (Z.ones 1). rewrite Z.land_ones by lia. change (2 ^ 1) with 2. apply Z.mod_mul. lia. }
  pose proof (Z.add_lor_land (x * 2) 1). lia.
Qed.

Lemma ulid_val_range b c : 0 <= ulid_val b c <= 31 /\ (c = 0 -> ulid_val b c <= 7).
Proof.
  unfold ulid_val. cbn [foldl]. rewrite !lor_bit by apply ulid_bit_range.
  pose proof (ulid_bit_range b (c * 5 - 2 + 0)). pose proof (ulid_bit_range b (c * 5 - 2 + 1)). pose proof (ulid_bit_range b (c * 5 - 2 + 2)).
  pose proof (ulid_bit_range b (c * 5 - 2 + 3)). pose proof (ulid_bit_range b (c * 5 - 2 + 4)). split; [lia|]. intros ->.
  change (ulid_bit b (0 * 5 - 2 + 0)) with 0. change (ulid_bit b (0 * 5 - 2 + 1)) with 0. lia.
Qed.

Lemma crockford_ok x : 0 <= x <= 31 -> is_crockford (crockford x) = true /\ (x <= 7 -> code (crockford x) <= 55).
Proof.
  intros Hx. assert (forallb (fun k => is_crockford (crockford (Z.of_nat k)) && ((8 <=? Z.of_nat k) || (code (crockford (Z.of_nat k)) <=? 55))) (List.seq 0 32) = true) as H by (vm_compute; reflexivity).
  rewrite forallb_forall in H. specialize (H (Z.to_nat x) ltac:(apply in_seq; lia)). rewrite Z2Nat.id in H by lia. apply andb_prop in H as [-> H]. split; [done|lia].
Qed.

(** Every identifier the link makes is a ULID, whatever the random bytes. *)
Lemma NewUlid_ok rnd ms : IsUlid (NewUlid rnd ms) = true.
Proof.
  unfold NewUlid. set (b := time_bytes ms ++ rnd).
  assert (forall n k, let s := foldr (fun c acc => String (crockford (ulid_val b (Z.of_nat c))) acc) EmptyString (List.seq k n) in
    String.length s = n /\ sforall is_crockford s = true) as H.
  { induction n as [|n IH]; intros k; [done|]. cbn zeta. cbn [List.seq foldr String.length sforall]. destruct (IH (S k)) as [-> ->]. split; [done|]. rewrite andb_true_r. apply crockford_ok, ulid_val_range. }
  unfold IsUlid, slen. destruct (H 26%nat O) as [-> ->]. cbn [List.seq foldr andb Z.eqb]. cbn. apply Z.leb_le.
  apply crockford_ok; [apply ulid_val_range|]. by apply ulid_val_range.
Qed.

(** ** Redaction *)

Lemma starts_with_split p : forall a y,
  starts_with p (a +s+ y) = if (String.length p <=? String.length a)%nat then starts_with p a else starts_with a p && starts_with (sdrop (String.length a) p) y.
Proof.
  induction p as [|c p IH]; intros a y; [done|]. destruct a as [|d a]; [done|]. cbn [String.append starts_with String.length sdrop].
  change (S (String.length p) <=? S (String.length a))%nat with (String.length p <=? String.length a)%nat. rewrite IH.
  rewrite (ascii_eqb_code d c), (ascii_eqb_code c d), (Z.eqb_sym (code d)). destruct (_ <=? _)%nat; [done|]. by rewrite andb_assoc.
Qed.

(** No prefix can start inside other text and end in a following prefix. *)
Lemma prefix_apart p q a x : p ∈ prefixes -> q ∈ prefixes -> a <> EmptyString -> starts_with p (a +s+ q +s+ x) = starts_with p a.
Proof.
  intros Hp Hq Ha. rewrite starts_with_split. destruct (Nat.leb_spec (String.length p) (String.length a)) as [|Hlt]; [done|].
  assert (starts_with p a = false) as ->.
  { apply not_true_is_false. intros [r ->]%starts_with_app. rewrite length_app_s in Hlt. lia. }
  apply andb_false_iff. right. destruct (String.length a) as [|k] eqn:Ek; [by destruct a|]. clear Ek Ha.
  unfold prefixes in *. repeat (apply elem_of_cons in Hp as [->|Hp]; [|]); [..|by apply elem_of_nil in Hp];
    (repeat (apply elem_of_cons in Hq as [->|Hq]; [|]); [..|by apply elem_of_nil in Hq]);
    cbn in Hlt; do 6 (destruct k as [|k]; [first [lia|reflexivity]|]); lia.
Qed.

Lemma secret_at_inner prev a q x : q ∈ prefixes -> a <> EmptyString -> secret_at prev (a +s+ q +s+ x) = secret_at prev a.
Proof.
  intros Hq Ha. unfold secret_at. assert (forall l, (forall p, p ∈ l -> p ∈ prefixes) ->
    List.find (fun p => starts_with p (a +s+ q +s+ x) && (is_bearer p || boundary prev)) l = List.find (fun p => starts_with p a && (is_bearer p || boundary prev)) l) as H.
  { induction l as [|p l IH]; intros Hl; [done|]. cbn [List.find]. rewrite prefix_apart by (try done; apply Hl; left). rewrite IH by (intros; apply Hl; by right). done. }
  by apply H.
Qed.

Lemma secret_at_here prev q x : q ∈ prefixes -> is_bearer q || boundary prev = true -> secret_at prev (q +s+ x) = Some q.
Proof.
  intros Hq Hb. unfold secret_at, prefixes in *. repeat (apply elem_of_cons in Hq as [->|Hq]; [|]); [..|by apply elem_of_nil in Hq]; cbn in *; first [done|by rewrite Hb].
Qed.

(** The prefixes start with token characters. *)
Lemma secret_at_stops prev r : stops tokenChar r -> secret_at prev r = None.
Proof.
  destruct r as [|c r]; [by destruct prev|]. cbn [stops]. intros Hc. unfold secret_at, prefixes. cbn [List.find starts_with].
  assert (forall d, tokenChar d = true -> Ascii.eqb d c = false) as H by (intros d Hd; apply Ascii.eqb_neq; intros ->; by rewrite Hd in Hc).
  by rewrite !H by reflexivity.
Qed.

Lemma secret_at_len prev s p : secret_at prev s = Some p -> exists r, s = p +s+ r /\ p ∈ prefixes /\ (1 <= String.length p)%nat.
Proof.
  unfold secret_at. intros [H1 H2]%find_some. apply andb_prop in H2 as [[r ->]%starts_with_app _]. apply list_elem_of_In in H1. exists r. split_and!; [done|done|].
  unfold prefixes in H1. repeat (apply elem_of_cons in H1 as [->|H1]; [cbn; lia|]). by apply elem_of_nil in H1.
Qed.

Lemma span_len f s : (String.length (span f s).2 <= String.length s)%nat.
Proof. induction s as [|c s IH]; cbn; [lia|]. destruct (f c); [|cbn; lia]. destruct (span f s) as [a b]. cbn in *. lia. Qed.

Lemma redact_fuel : forall n s f g prev, (String.length s <= n)%nat -> (String.length s <= f)%nat -> (String.length s <= g)%nat ->
  redact_loop f prev s = redact_loop g prev s.
Proof.
  induction n as [|n IH]; intros s f g prev Hn Hf Hg; [destruct s; [by destruct f, g|cbn in Hn; lia]|].
  destruct s as [|c r]; [by destruct f, g|]. destruct f as [|f]; [cbn in Hf; lia|]. destruct g as [|g]; [cbn in Hg; lia|].
  cbn [redact_loop]. cbn [String.length] in *. destruct (secret_at prev (String c r)) as [p|] eqn:E; [|f_equal; apply IH; lia].
  apply secret_at_len in E as (r' & E & _ & Hp). pose proof (span_len tokenChar (sdrop (String.length p) (String c r))) as Hs.
  rewrite sdrop_length in Hs. cbn [String.length] in Hs. destruct (span tokenChar _) as [tok rest]. cbn [snd] in Hs. do 2 f_equal. apply IH; lia.
Qed.

Lemma redact_prev f prev prev' r : stops tokenChar r -> redact_loop f prev r = redact_loop f prev' r.
Proof. intros Hr. destruct f, r as [|c r]; try done. cbn [redact_loop]. by rewrite !(secret_at_stops _ _ Hr). Qed.

Lemma last_char_app prev a b : last_char prev (a +s+ b) = last_char (last_char prev a) b.
Proof. revert prev. induction a as [|c a IH]; intros prev; cbn; auto. Qed.

(** Where a secret is recognised: a token at the start or after a byte that is not part of a word; the value of an authorization
    header anywhere but directly behind another secret, that is behind a prefix with nothing but token characters after it. *)
Definition exposed (q : string) (prev : option ascii) (a : string) : Prop :=
  if is_bearer q then forall b p u, p ∈ prefixes -> sforall tokenChar u = true -> a <> b +s+ p +s+ u
  else boundary (last_char prev a) = true.

Lemma exposed_here q prev : exposed q prev EmptyString -> is_bearer q || boundary prev = true.
Proof. unfold exposed. by destruct (is_bearer q). Qed.

Lemma exposed_tail q prev a b : exposed q prev (a +s+ b) -> exposed q (last_char prev a) b.
Proof.
  unfold exposed. rewrite last_char_app. destruct (is_bearer q); [|done]. intros H d p u Hp Hu ->. apply (H (a +s+ d) p u Hp Hu). by rewrite app_assoc_s.
Qed.

Lemma prefix_tokens q : q ∈ prefixes -> is_bearer q = false -> sforall tokenChar q = true.
Proof. unfold prefixes. intros Hq. repeat (apply elem_of_cons in Hq as [->|Hq]; [done|]). by apply elem_of_nil in Hq. Qed.

(** A swallowed run that reaches the secret swallows it as well. *)
Lemma run_reaches q p u : p ∈ prefixes -> sforall tokenChar u = true -> forall prev, exposed q prev (p +s+ u) -> is_bearer q = false.
Proof. intros Hp Hu prev. unfold exposed. destruct (is_bearer q); [|done]. intros H. by destruct (H EmptyString p u Hp Hu). Qed.

Section secret.
Context (q t1 t2 r : string) (Hq : q ∈ prefixes) (H1 : sforall tokenChar t1 = true) (H2 : sforall tokenChar t2 = true) (Hr : stops tokenChar r).

Lemma redact_same : forall n a prev f g,
  (String.length a <= n)%nat -> exposed q prev a ->
  (String.length (a +s+ q +s+ t1 +s+ r) <= f)%nat -> (String.length (a +s+ q +s+ t2 +s+ r) <= g)%nat ->
  redact_loop f prev (a +s+ q +s+ t1 +s+ r) = redact_loop g prev (a +s+ q +s+ t2 +s+ r).
Proof.
  assert (q <> EmptyString) as Hq0 by (intros ->; unfold prefixes in Hq; set_solver).
  assert (forall f g prev prev', (String.length r <= f)%nat -> (String.length r <= g)%nat -> redact_loop f prev r = redact_loop g prev' r) as Hend.
  { intros f g prev prev' Hf Hg. rewrite (redact_prev f prev prev' r Hr). by apply (redact_fuel (String.length r)). }
  induction n as [|n IH]; intros a prev f g Hn Ha Hf Hg.
  - assert (a = EmptyString) as -> by (destruct a; [done|cbn in Hn; lia]). cbn [String.append] in *. rewrite length_app_s in Hf, Hg. rewrite length_app_s in Hf, Hg.
    destruct q as [|c q'] eqn:Eq; [done|]. rewrite <- Eq in *. destruct f as [|f]; [subst q; cbn in Hf; lia|]. destruct g as [|g]; [subst q; cbn in Hg; lia|].
    assert (forall u fu, redact_loop (S fu) prev (q +s+ u) = match secret_at prev (q +s+ u) with
      | Some p => let '(tok, rest) := span tokenChar (sdrop (String.length p) (q +s+ u)) in p +s+ "***" +s+ redact_loop fu (last_char prev (p +s+ tok)) rest
      | None => String c (redact_loop fu (Some c) (q' +s+ u)) end) as Hstep by (intros; rewrite Eq; reflexivity).
    rewrite !Hstep, !secret_at_here by (try done; by apply exposed_here). rewrite !sdrop_app, !span_app by done. do 2 f_equal.
    assert (1 <= String.length q)%nat by (rewrite Eq; cbn; lia). apply Hend; lia.
  - destruct a as [|c a]; [apply (IH EmptyString); [cbn; lia|done..]|]. destruct f as [|f]; [cbn in Hf; lia|]. destruct g as [|g]; [cbn in Hg; lia|].
    assert (forall u fu, redact_loop (S fu) prev (String c a +s+ u) = match secret_at prev (String c a +s+ u) with
      | Some p => let '(tok, rest) := span tokenChar (sdrop (String.length p) (String c a +s+ u)) in p +s+ "***" +s+ redact_loop fu (last_char prev (p +s+ tok)) rest
      | None => String c (redact_loop fu (Some c) (a +s+ u)) end) as Hstep by done.
    rewrite !Hstep, !secret_at_inner by done. clear Hstep. cbn [String.append String.length] in Hf, Hg, Hn.
    destruct (secret_at prev (String c a)) as [p|] eqn:E; [|f_equal; apply IH; [lia| |lia|lia]; by apply (exposed_tail q prev (str1 c))].
    apply secret_at_len in E as (b & E & Hp & Hp1). 
    assert (S (String.length a) = String.length p + String.length b)%nat as Hlen
      by (change (S (String.length a)) with (String.length (String c a)); rewrite E; apply length_app_s).
    rewrite E in Ha |- *. rewrite !app_assoc_s, !sdrop_app. clear E.
    pose proof (span_spec tokenChar b) as Hb. destruct (span tokenChar b) as [u b'] eqn:Es. destruct Hb as (-> & Hu & Hs).
    rewrite ?length_app_s in *.
    destruct b' as [|d b'].
    + rewrite !app_nil_s in *. assert (sforall tokenChar q = true) as Hqt by (eapply prefix_tokens; [done|]; eapply run_reaches; [exact Hp|exact Hu|exact Ha]).
      assert (forall t, sforall tokenChar t = true -> span tokenChar (u +s+ q +s+ t +s+ r) = (u +s+ q +s+ t, r)) as Hsp.
      { intros t Ht. rewrite <- (app_assoc_s q), <- (app_assoc_s u). rewrite span_app; [done| |done]. by rewrite !sforall_app, Hu, Hqt, Ht. }
      rewrite !Hsp by done. do 2 f_equal. apply Hend; rewrite ?length_app_s in *; lia.
    + assert (forall t, span tokenChar ((u +s+ String d b') +s+ q +s+ t +s+ r) = (u, String d b' +s+ q +s+ t +s+ r)) as Hsp by (intros t; rewrite app_assoc_s; by apply span_app).
      rewrite !Hsp. do 2 f_equal. rewrite ?length_app_s in *. apply IH; rewrite ?length_app_s; try lia. rewrite <- app_assoc_s in Ha. by apply exposed_tail in Ha.
Qed.
End secret.

(** Claim C26.  Secrets do not reach the log where [Redact] recognises them ([exposed]): a text that contains an enrollment code, a key or a
    session token at its start or behind a byte that is no letter, digit or underscore, or the value of an authorization
    header anywhere but directly behind another secret, is redacted to a text that does not depend on it; replacing the token by any other
    one gives the same log line, whatever other secrets stand before and after it.  Elsewhere it is not hidden ([redact_leaks]). *)
Theorem redact_hides (q a t1 t2 r : string) :
  q ∈ prefixes -> exposed q None a -> sforall tokenChar t1 = true -> sforall tokenChar t2 = true -> stops tokenChar r ->
  Redact (a +s+ q +s+ t1 +s+ r) = Redact (a +s+ q +s+ t2 +s+ r).
Proof. intros Hq Ha H1 H2 Hr. unfold Redact. by apply (redact_same q t1 t2 r Hq H1 H2 Hr (String.length a)). Qed.

Lemma redact_hides_witness : Redact ("enroll code=" +s+ "RUE-" +s+ "AB12" +s+ " failed") = Redact ("enroll code=" +s+ "RUE-" +s+ "ZZ" +s+ " failed").
Proof. apply (redact_hides "RUE-" "enroll code=" "AB12" "ZZ" " failed"); [unfold prefixes; set_solver|done..]. Defined.

(** A token inside a word, and what follows [Bearer ] behind another secret. *)
Example redact_leaks :
  Redact "arus_abc" = "arus_abc" /\ Redact "Bearer Bearer secret" = "Bearer *** secret" /\ Redact "rus_abcBearer secret" = "rus_*** secret" /\
  Redact "xBearer secret rus_1,rfk_2" = "xBearer *** rus_***,rfk_***".
Proof. vm_compute. auto. Qed.

(** ** The enrollment answer *)

Lemma after_last_none c s t : after_last c s = Some t -> after_last c t = None.
Proof.
  induction s as [|d s IH]; [done|]. cbn. destruct (after_last c s) as [x|] eqn:E; [intros [= <-]; by apply IH|]. destruct (Ascii.eqb d c); [|done]. by intros [= <-].
Qed.

Lemma after_last_forall f c s t : sforall f s = true -> after_last c s = Some t -> sforall f t = true.
Proof.
  induction s as [|d s IH]; [done|]. cbn. intros [_ Hs]%andb_prop. destruct (after_last c s) as [x|]; [intros [= <-]; by apply IH|]. destruct (Ascii.eqb d c); [|done]. by intros [= <-].
Qed.

Definition no_delim (c : ascii) : bool := negb (url_delim c).

Lemma AuthorityOf_plain url : sforall no_delim (AuthorityOf url) = true /\ after_last "@" (AuthorityOf url) = None.
Proof.
  unfold AuthorityOf. destruct (find "://" url) as [p|]; [|done]. pose proof (span_spec no_delim (sdrop (p + 3) url)) as H. unfold no_delim in *.
  destruct (span _ _) as [auth tl]. destruct H as (_ & Ha & _). cbn [fst]. destruct (after_last "@" auth) as [t|] eqn:E; [|done].
  split; [by eapply after_last_forall|by eapply after_last_none].
Qed.

Lemma AuthorityOf_wss a tl : sforall no_delim a = true -> after_last "@" a = None -> stops no_delim tl -> AuthorityOf ("wss://" +s+ a +s+ tl) = a.
Proof. intros Ha Hn Ht. unfold AuthorityOf. cbn -[span after_last]. fold (String.append a tl). rewrite (span_app no_delim) by done. cbn [fst]. by rewrite Hn. Qed.

Lemma UpgradeSameHostWs_shape base ws : UpgradeSameHostWs base ws <> EmptyString ->
  HostOf base <> EmptyString /\ HostOf base = HostOf ws /\ exists tl, stops no_delim tl /\ UpgradeSameHostWs base ws = "wss://" +s+ AuthorityOf base +s+ tl.
Proof.
  unfold UpgradeSameHostWs. case_if; [done|]. destruct (sempty (HostOf base)) eqn:Eh; [done|]. destruct (String.eqb_spec (HostOf base) (HostOf ws)) as [Ee|]; [|done].
  cbn [orb negb]. case_if; [done|]. intros _. split_and!; [by intros H; rewrite H in Eh|done|]. eexists. split; [|reflexivity].
  destruct (find "://" ws) as [p|]; [|done]. pose proof (span_spec no_delim (sdrop (p + 3) ws)) as Hs. unfold no_delim in *. destruct (span _ _) as [x tl]. apply Hs.
Qed.

(** The credentials go to no other host: when the address a platform answered at enrollment is
    replaced (a TLS proxy in front of it), the result is a [wss] URL, allowed without any opt-in, with
    exactly the host and port the enrollment went to, and that host is the one the platform named. *)
Theorem upgrade_same_host (base ws : string) :
  let u := UpgradeSameHostWs base ws in
  u <> EmptyString ->
  SchemeOf u = "wss" /\ CheckUrlAllowed u false = EmptyString /\ HostOf u = HostOf base /\ HostOf u = HostOf ws /\ PortOf u = PortOf base /\ HostOf u <> EmptyString.
Proof.
  cbn zeta. intros (Hh & He & tl & Ht & ->)%UpgradeSameHostWs_shape. destruct (AuthorityOf_plain base) as [H1 H2].
  pose proof (AuthorityOf_wss _ tl H1 H2 Ht) as E.
  assert (HostOf ("wss://" +s+ AuthorityOf base +s+ tl) = HostOf base) as Eh by (unfold HostOf; by rewrite E).
  split_and!; [done|done|done|by rewrite Eh|unfold PortOf; by rewrite E|by rewrite Eh].
Qed.

Lemma upgrade_same_host_witness :
  let u := UpgradeSameHostWs "https://T.example.com:8443/x" "ws://t.example.com:80/api/ws?s=1" in
  SchemeOf u = "wss" /\ CheckUrlAllowed u false = EmptyString /\ HostOf u = HostOf "https://T.example.com:8443/x" /\
  HostOf u = HostOf "ws://t.example.com:80/api/ws?s=1" /\ PortOf u = PortOf "https://T.example.com:8443/x" /\ HostOf u <> EmptyString.
Proof. apply (upgrade_same_host "https://T.example.com:8443/x" "ws://t.example.com:80/api/ws?s=1"). vm_compute. discriminate. Defined.

(** * The inbound stream delivers exactly once and in order

    Theorems about [RxTracker] of [FleetProto.v], over every interleaving of arrivals (repeated, reordered or
    missing messages included), finished handlers and acknowledgements. *)

Import Proto.

(** ** Ranges of sequence numbers *)

Fixpoint upto (a : Z) (k : nat) : list Z := match k with O => [] | S k => a :: upto (a + 1) k end.

Lemma elem_of_upto k : forall a x, x ∈ upto a k <-> a <= x < a + Z.of_nat k.
Proof. induction k as [|k IH]; intros a x; cbn; [rewrite elem_of_nil; lia|]. rewrite elem_of_cons, IH. lia. Qed.

Lemma upto_snoc k : forall a, upto a (S k) = upto a k ++ [a + Z.of_nat k].
Proof.
  induction k as [|k IH]; intros a; [cbn; f_equal; lia|]. change (upto a (S (S k))) with (a :: upto (a + 1) (S k)).
  rewrite IH. cbn [upto app]. do 3 f_equal. lia.
Qed.

(** [pending_]: the numbers after [processed], each with its flag. *)
Definition flags (f : Z -> bool) (l : list Z) : list (Z * bool) := (fun n => (n, f n)) <$> l.

Lemma flags_app f a b : flags f (a ++ b) = flags f a ++ flags f b.
Proof. apply fmap_app. Qed.

Lemma flags_ext f g l : (forall n, n ∈ l -> f n = g n) -> flags f l = flags g l.
Proof. intros H. unfold flags. apply list_fmap_ext. intros i x Hx. rewrite H; [done|]. by eapply list_elem_of_lookup_2. Qed.

Lemma map_put_new f x k : forall a, map_put (a + Z.of_nat k) x (flags f (upto a k)) = flags f (upto a k) ++ [(a + Z.of_nat k, x)].
Proof.
  induction k as [|k IH]; intros a; [done|]. cbn [upto flags fmap list_fmap map_put app].
  destruct (Z.ltb_spec (a + Z.of_nat (S k)) a); [lia|]. destruct (Z.eqb_spec (a + Z.of_nat (S k)) a); [lia|]. f_equal.
  replace (a + Z.of_nat (S k)) with (a + 1 + Z.of_nat k) by lia. apply IH.
Qed.

Lemma map_put_flag f sq k : forall a, a <= sq < a + Z.of_nat k ->
  map_put sq true (flags f (upto a k)) = flags (fun n => f n || (n =? sq)) (upto a k).
Proof.
  induction k as [|k IH]; intros a H; [lia|]. cbn [upto flags fmap list_fmap map_put].
  destruct (Z.ltb_spec sq a); [lia|]. destruct (Z.eqb_spec sq a) as [->|Hne].
  - rewrite Z.eqb_refl, orb_true_r. f_equal. apply flags_ext. intros n Hn%elem_of_upto. destruct (Z.eqb_spec n a); [lia|]. by rewrite orb_false_r.
  - destruct (Z.eqb_spec a sq); [lia|]. rewrite orb_false_r. f_equal. apply IH. lia.
Qed.

Lemma pending_has f sq k : forall a, existsb (fun p : Z * bool => p.1 =? sq) (flags f (upto a k)) = bool_decide (a <= sq < a + Z.of_nat k).
Proof.
  induction k as [|k IH]; intros a; cbn [upto flags fmap list_fmap existsb fst]; [symmetry; apply bool_decide_eq_false; lia|].
  fold (flags f (upto (a + 1) k)). rewrite (IH (a + 1)). destruct (Z.eqb_spec a sq); cbn [orb]; [symmetry; apply bool_decide_eq_true; lia|]. apply bool_decide_ext. lia.
Qed.

(** The done prefix is the longest one. *)
Lemma done_prefix_spec f k : forall p, exists j, (j <= k)%nat /\
  done_prefix p (flags f (upto (p + 1) k)) = (p + Z.of_nat j, flags f (upto (p + Z.of_nat j + 1) (k - j))) /\
  (forall n, p < n <= p + Z.of_nat j -> f n = true) /\ ((j < k)%nat -> f (p + Z.of_nat j + 1) = false).
Proof.
  induction k as [|k IH]; intros p; cbn [upto flags fmap list_fmap done_prefix].
  { exists O. split_and!; [lia|by rewrite Z.add_0_r|lia|lia]. }
  destruct (f (p + 1)) eqn:Ef.
  - rewrite Z.eqb_refl. destruct (IH (p + 1)) as (j & Hj & E & H1 & H2). exists (S j). fold (flags f (upto (p + 1 + 1) k)). rewrite E.
    replace (p + Z.of_nat (S j)) with (p + 1 + Z.of_nat j) by lia. split_and!; [lia|done| |intros; apply H2; lia].
    intros n Hn. destruct (Z.eq_dec n (p + 1)) as [->|]; [done|]. apply H1. lia.
  - exists O. replace (p + Z.of_nat 0) with p by lia. split_and!; [lia| |lia|done]. cbn [upto]. unfold flags. cbn [fmap list_fmap Nat.sub upto]. by rewrite Ef.
Qed.

(** ** Operations on the tracker *)

Inductive rx_op :=
  | Arrive (sq : Z) (x : string)
  | Ephemeral (x : string)
  | Finish (sq nowMs : Z)
  | AckOut (ackedSeq : Z).

(** The tracker, the messages handed to the game in order, and those whose handler has finished. *)
Record rx_run := { rx : RxTracker; handed : list Z; finished : list Z }.

Definition rx_step (w : rx_run) (o : rx_op) : rx_run :=
  match o with
  | Arrive sq x =>
      let '(t, verdict) := OnReliable sq x (rx w) in
      {| rx := t; handed := match verdict with Accept => handed w ++ [sq] | _ => handed w end; finished := finished w |}
  | Ephemeral x => {| rx := (OnEphemeralId x (rx w)).1; handed := handed w; finished := finished w |}
  | Finish sq now =>
      {| rx := (MarkDone sq now (rx w)).1; handed := handed w; finished := if bool_decide (sq ∈ handed w) then sq :: finished w else finished w |}
  | AckOut a => {| rx := OnAckSent a (rx w); handed := handed w; finished := finished w |}
  end.

Definition start (p : Z) (t : RxTracker) : rx_run := {| rx := ResetRx p t; handed := []; finished := [] |}.

(** The remembered ids. *)
Definition ids_ok (t : RxTracker) : Prop :=
  NoDup (idOrder_ t) /\ ids_ t = list_to_set (idOrder_ t) /\ zlen (idOrder_ t) <= kDedupeWindow /\ EmptyString ∉ idOrder_ t.

Record rx_ok (p : Z) (w : rx_run) : Prop := {
  ok_order : p <= processed_ (rx w) <= received_ (rx w);
  ok_handed : handed w = upto (p + 1) (Z.to_nat (received_ (rx w) - p));
  ok_pending : pending_ (rx w) =
    flags (fun n => bool_decide (n ∈ finished w)) (upto (processed_ (rx w) + 1) (Z.to_nat (received_ (rx w) - processed_ (rx w))));
  ok_done : forall n, p < n <= processed_ (rx w) -> n ∈ finished w;
  ok_next : (processed_ (rx w) + 1) ∉ finished w;
  ok_sub : forall n, n ∈ finished w -> n ∈ handed w }.

Lemma rx_ok_ext p t t' h f :
  received_ t = received_ t' -> processed_ t = processed_ t' -> pending_ t = pending_ t' ->
  rx_ok p {| rx := t; handed := h; finished := f |} -> rx_ok p {| rx := t'; handed := h; finished := f |}.
Proof. intros E1 E2 E3 [H1 H2 H3 H4 H5 H6]. cbn in *. rewrite E1, E2, E3 in *. by split. Qed.

Lemma RememberId_same x t :
  received_ (RememberId x t) = received_ t /\ processed_ (RememberId x t) = processed_ t /\ pending_ (RememberId x t) = pending_ t.
Proof. unfold RememberId. destruct (_ || _); [done|]. destruct (_ <? _); [|done]. by destruct (idOrder_ t ++ [x]). Qed.

Lemma RememberId_ids x t : ids_ok t -> ids_ok (RememberId x t).
Proof.
  intros (H1 & H2 & H3 & H4). unfold RememberId. destruct (sempty x) eqn:Ex; [done|]. case_bool_decide as Hin; [done|]. cbn [orb].
  rewrite H2, elem_of_list_to_set in Hin. assert (x <> EmptyString) as Hx by (by intros ->).
  assert (NoDup (idOrder_ t ++ [x])) as Hn by (apply NoDup_app; split_and!; [done|set_solver|apply NoDup_singleton]).
  assert (EmptyString ∉ idOrder_ t ++ [x]) as He by set_solver.
  assert ({[x]} ∪ ids_ t = list_to_set (idOrder_ t ++ [x])) as Hs by (rewrite H2, list_to_set_app_L; set_solver). rewrite Hs. clear Hs.
  destruct (Z.ltb_spec kDedupeWindow (zlen (idOrder_ t ++ [x]))) as [Hl|Hl]; [|by split_and!; cbn].
  rewrite zlen_app in Hl. unfold zlen at 2 in Hl. cbn [length] in Hl.
  destruct (idOrder_ t ++ [x]) as [|o order] eqn:E; [by destruct (idOrder_ t)|]. apply NoDup_cons in Hn as [Ho Hn].
  assert (zlen (o :: order) = zlen (idOrder_ t) + 1) as Hz by (rewrite <- E, zlen_app; done). rewrite zlen_cons in Hz.
  split_and!; cbn; [done|set_solver|lia|set_solver].
Qed.

Lemma arrive_ok p w sq x : rx_ok p w -> rx_ok p (rx_step w (Arrive sq x)).
Proof.
  intros H. destruct w as [t h f]. cbn [rx_step rx handed finished]. unfold OnReliable.
  case_if; [done|]. case_if; [done|]. destruct (Z.eqb_spec sq (received_ t + 1)) as [->|]; [|done]. cbn [negb].
  destruct H as [H1 H2 H3 H4 H5 H6]. cbn [rx handed finished] in *.
  eapply rx_ok_ext; [symmetry; apply RememberId_same|symmetry; apply RememberId_same|symmetry; apply RememberId_same|].
  assert (received_ t + 1 ∉ f) as Hnf by (intros Hn%H6; rewrite H2 in Hn; apply elem_of_upto in Hn; lia).
  split; cbn.
  - lia.
  - rewrite H2. replace (Z.to_nat (received_ t + 1 - p)) with (S (Z.to_nat (received_ t - p))) by lia. rewrite upto_snoc. f_equal. f_equal. lia.
  - rewrite H3. replace (Z.to_nat (received_ t + 1 - processed_ t)) with (S (Z.to_nat (received_ t - processed_ t))) by lia.
    replace (received_ t + 1) with (processed_ t + 1 + Z.of_nat (Z.to_nat (received_ t - processed_ t))) at 1 by lia.
    rewrite map_put_new, upto_snoc, flags_app. f_equal. cbn. do 2 f_equal. symmetry. apply bool_decide_eq_false.
    by replace (processed_ t + 1 + Z.of_nat (Z.to_nat (received_ t - processed_ t))) with (received_ t + 1) by lia.
  - done.
  - done.
  - intros n Hn%H6. apply elem_of_app. by left.
Qed.

Lemma finish_ok p w sq now : rx_ok p w -> rx_ok p (rx_step w (Finish sq now)).
Proof.
  intros H. destruct w as [t h f]. cbn [rx_step rx handed finished]. unfold MarkDone. destruct H as [H1 H2 H3 H4 H5 H6]. cbn [rx handed finished] in *.
  rewrite H3, pending_has. set (k := Z.to_nat (received_ t - processed_ t)). case_bool_decide as Hin; cbn [negb fst].
  - rewrite bool_decide_true by (rewrite H2; apply elem_of_upto; lia). rewrite map_put_flag by done.
    assert (flags (fun n => bool_decide (n ∈ f) || (n =? sq)) (upto (processed_ t + 1) k) = flags (fun n => bool_decide (n ∈ sq :: f)) (upto (processed_ t + 1) k)) as ->.
    { apply flags_ext. intros n _. destruct (Z.eqb_spec n sq) as [->|]; [rewrite orb_true_r; symmetry; apply bool_decide_eq_true; left|].
      rewrite orb_false_r. apply bool_decide_ext. set_solver. }
    destruct (done_prefix_spec (fun n => bool_decide (n ∈ sq :: f)) k (processed_ t)) as (j & Hj & -> & Hd & Hn).
    split; cbn; [lia|done| | | |].
    + f_equal. f_equal. lia.
    + intros n Hp. destruct (Z.le_gt_cases n (processed_ t)); [right; apply H4; lia|]. specialize (Hd n ltac:(lia)). by apply bool_decide_eq_true in Hd.
    + intros He. destruct (Nat.lt_ge_cases j k) as [Hjk|Hjk]; [specialize (Hn Hjk); apply bool_decide_eq_false in Hn; done|].
      apply elem_of_cons in He as [He|He]; [lia|]. apply H6 in He. rewrite H2 in He. apply elem_of_upto in He. lia.
    + intros n [->|Hn']%elem_of_cons; [|auto]. rewrite H2. apply elem_of_upto. lia.
  - case_bool_decide as Hh; [|by split]. rewrite H2 in Hh. apply elem_of_upto in Hh. assert (sq ∈ f) as Hf by (apply H4; lia).
    split; cbn; [done|done| |intros; right; auto|set_solver|set_solver].
    rewrite H3. apply flags_ext. intros n _. apply bool_decide_ext. set_solver.
Qed.

Lemma step_ok p w o : rx_ok p w -> rx_ok p (rx_step w o).
Proof.
  intros H. destruct o as [sq x|x|sq now|a]; [by apply arrive_ok| |by apply finish_ok|].
  - destruct w as [t h f]. cbn. unfold OnEphemeralId. case_if; [done|]. case_if; [done|]. cbn. revert H. apply rx_ok_ext; symmetry; apply RememberId_same.
  - destruct w as [t h f]. by apply (rx_ok_ext p t).
Qed.

Lemma step_ids w o : ids_ok (rx w) -> ids_ok (rx (rx_step w o)).
Proof.
  intros H. destruct o as [sq x|x|sq now|a]; cbn [rx_step].
  - unfold OnReliable. repeat (case_if; [done|]). cbn. apply RememberId_ids. by destruct H as (? & ? & ? & ?).
  - cbn. unfold OnEphemeralId. repeat (case_if; [done|]). cbn. by apply RememberId_ids.
  - cbn. unfold MarkDone. case_if; [done|]. destruct (done_prefix _ _) as [? ?]. by destruct H as (? & ? & ? & ?).
  - by destruct H as (? & ? & ? & ?).
Qed.

Lemma run_ok p ops : forall w, rx_ok p w -> ids_ok (rx w) -> rx_ok p (foldl rx_step w ops) /\ ids_ok (rx (foldl rx_step w ops)).
Proof. induction ops as [|o ops IH]; intros w H1 H2; [done|]. cbn [foldl]. apply IH; [by apply step_ok|by apply step_ids]. Qed.

(** Claim C2.  The platform's messages reach the game exactly once and in order: after a restart at sequence
    number [p], whatever arrives (duplicates, gaps, reordered or replayed messages) and whenever handlers
    finish, the messages handed over are [p + 1], [p + 2], ... up to the last received without a hole; and
    the number the server acknowledges is the largest one up to which every handler has finished, so an
    unfinished message is never acknowledged.  The remembered ids stay distinct and within the window. *)
Theorem rx_exactly_once (p : Z) (t : RxTracker) (ops : list rx_op) :
  0 <= p -> ids_ok t ->
  let w := foldl rx_step (start p t) ops in
  handed w = upto (p + 1) (Z.to_nat (received_ (rx w) - p)) /\ p <= processed_ (rx w) <= received_ (rx w) /\
  (forall n, p < n <= processed_ (rx w) -> n ∈ finished w) /\ ((processed_ (rx w) + 1) ∉ finished w) /\ ids_ok (rx w).
Proof.
  intros Hp Ht. cbn zeta. destruct (run_ok p ops (start p t)) as [[H1 H2 H3 H4 H5 H6] Hi]; [|exact Ht|tauto].
  split; cbn; rewrite ?Z.max_r by lia; rewrite ?Z.sub_diag; try done; try lia; try (intros; lia); set_solver.
Qed.

Lemma rx_exactly_once_witness :
  let w := foldl rx_step (start 4 NewRx) [Arrive 5 "a"; Arrive 7 "c"; Arrive 5 "a"; Arrive 6 "b"; Arrive 7 "c"; Finish 6 10; Finish 5 20] in
  handed w = upto (4 + 1) (Z.to_nat (received_ (rx w) - 4)) /\ 4 <= processed_ (rx w) <= received_ (rx w) /\
  (forall n, 4 < n <= processed_ (rx w) -> n ∈ finished w) /\ ((processed_ (rx w) + 1) ∉ finished w) /\ ids_ok (rx w).
Proof. apply (rx_exactly_once 4 NewRx); [lia|]. split_and!; [constructor|done|vm_compute; done|set_solver]. Defined.

Example rx_run_sample :
  let w := foldl rx_step (start 4 NewRx) [Arrive 5 "a"; Arrive 7 "c"; Arrive 5 "a"; Arrive 6 "b"; Arrive 7 "c"; Finish 6 10; Finish 5 20] in
  handed w = [5; 6; 7] /\ processed_ (rx w) = 6.
Proof. done. Qed.

(** ** Acknowledgements go out in time *)

(** Progress not yet acknowledged has a time stamp, so one second after it an acknowledgement is due. *)
Lemma ack_due_after_done sq now t :
  0 <= now -> lastAckSent_ t <= processed_ t -> (firstUnackedAtMs_ t <= now) ->
  (MarkDone sq now t).2 = true -> 0 <= processed_ t -> processed_ t < processed_ (MarkDone sq now t).1 ->
  AckDue (now + 1000) (MarkDone sq now t).1 = true.
Proof.
  intros Hn Hl Hf. unfold MarkDone. case_if; [done|]. destruct (done_prefix _ _) as [q l]. cbn. intros Hm H0 Hq. rewrite Hm. cbn [andb].
  unfold AckDue. cbn. destruct (Z.leb_spec q (lastAckSent_ t)); [lia|]. destruct (Z.eqb_spec q 0); [lia|]. cbn [orb]. case_if; [done|].
  destruct (Z.ltb_spec (firstUnackedAtMs_ t) 0); lia.
Qed.
