(* ===== verification/FleetCmds.v ===== *)
(** * The commands the fleet plugin runs itself

    [plugins/fleet/fleet_cmds.{h,cpp}]: parsing of the arguments of [plugins.set], [whitelist.set],
    [practice.set] and [say], and the payload of [cmd.result].  Error texts that name a value are kept, as the
    platform shows them. *)

From S2P Require Import Prelude CStr Double Json FleetJson.

Module Cmds.

Definition name_char (c : ascii) : bool := islower c || isdigit c || Ascii.eqb c "_" || Ascii.eqb c "-".
Definition ValidPluginName (n : string) : bool := negb (sempty n) && (slen n <=? 32) && sforall name_char n.

Definition OwnedByFleet (name : string) : bool :=
  (name =s "plugins.set") || (name =s "whitelist.set") || (name =s "practice.set") || (name =s "say") || (name =s "tv.set").

(** ** plugins.set *)

Definition bad_name (key : string) : string := key +s+ ": not a plugin name (want [a-z0-9_-], 1..32)".

Fixpoint read_names (key : string) (l : list Json) : string + list string :=
  match l with
  | [] => inr []
  | JString s :: l =>
      if negb (ValidPluginName s) then inl (bad_name key)
      else match read_names key l with inl e => inl e | inr r => inr (s :: r) end
  | _ :: _ => inl (bad_name key)
  end.
Definition name_list (args : Json) (key : string) : string + list string :=
  match Get args key with
  | None | Some JNull => inr []
  | Some (JArray l) => if 16 <? zlen l then inl (key +s+ ": at most 16 plugins") else read_names key l
  | Some _ => inl (key +s+ " must be an array of plugin names")
  end.

Fixpoint refused_name (on off : list string) : option string :=
  match off with
  | [] => None
  | n :: off =>
      if n =s "fleet" then Some "cannot disable fleet over the fleet link (the link runs in it)"
      else if bool_decide (n ∈ on) then Some (n +s+ " is in both enable and disable")
      else refused_name on off
  end.

(** The error, or what to enable and what to disable. *)
Definition ParsePluginsSet (args : Json) : string + list string * list string :=
  match name_list args "enable" with
  | inl e => inl e
  | inr on =>
      match name_list args "disable" with
      | inl e => inl e
      | inr off =>
          if bool_decide (on = []) && bool_decide (off = []) then inl "nothing to enable or disable"
          else match refused_name on off with Some e => inl e | None => inr (on, off) end
      end
  end.

(** ** whitelist.set *)

Definition steamid_text (s : string) : bool := (slen s =? 17) && starts_with "7656119" s && sforall isdigit s.

Fixpoint read_steamids (l : list Json) : string + list Z :=
  match l with
  | [] => inr []
  | v :: l =>
      let s := match v with JString s => s | _ => EmptyString end in
      if negb (steamid_text s) then inl (qs "steamids: `" +s+ stake 32 s +s+ qs "` is not a SteamID64 string")
      else match read_steamids l with inl e => inl e | inr r => inr (strtoull s :: r) end
  end.

Definition ParseWhitelistSet (args : Json) : string + bool * list Z :=
  match Get args "enabled" with
  | Some (JBool b) =>
      match Get args "steamids" with
      | None | Some JNull => inr (b, [])
      | Some (JArray l) =>
          if 1000 <? zlen l then inl "steamids: at most 1000"
          else match read_steamids l with inl e => inl e | inr ids => inr (b, ids) end
      | Some _ => inl "steamids must be an array of SteamID64 strings"
      end
  | _ => inl "enabled (boolean) is required"
  end.

(** ** practice.set *)

Record PracticeSet := { p_on : option bool; p_always : option bool; p_homeMap : option string; p_homeCvars : option (list string) }.

Fixpoint read_cvars (l : list Json) : string + list string :=
  match l with
  | [] => inr []
  | v :: l =>
      match v with
      | JString s =>
          if 96 <? slen s then inl (qs "home_cvars: each a `sv_/mp_<name> <number>` string")
          else match read_cvars l with inl e => inl e | inr r => inr (s :: r) end
      | _ => inl (qs "home_cvars: each a `sv_/mp_<name> <number>` string")
      end
  end.
Definition home_cvars (args : Json) : string + option (list string) :=
  match Get args "home_cvars" with
  | None | Some JNull => inr None
  | Some (JArray l) =>
      if 24 <? zlen l then inl "home_cvars: at most 24"
      else match read_cvars l with inl e => inl e | inr r => inr (Some r) end
  | Some _ => inl "home_cvars must be an array of strings"
  end.
Definition map_char (c : ascii) : bool := negb ((code c <=? 32) || (code c =? 127) || Ascii.eqb c dquote || Ascii.eqb c ";").
Definition home_map (args : Json) : string + option string :=
  match Get args "home_map" with
  | None | Some JNull => inr None
  | Some (JString s) =>
      if 200 <? slen s then inl "home_map: at most 200 characters"
      else if negb (sforall map_char s) then inl "home_map: not a map name, workshop id or link"
      else inr (Some s)
  | Some _ => inl "home_map must be a string"
  end.
Definition opt_bool (args : Json) (key : string) : string + option bool :=
  match Get args key with
  | None | Some JNull => inr None
  | Some (JBool b) => inr (Some b)
  | Some _ => inl (key +s+ " must be a boolean")
  end.

Definition ParsePracticeSet (args : Json) : string + PracticeSet :=
  match home_cvars args with
  | inl e => inl e
  | inr cvars =>
      match home_map args with
      | inl e => inl e
      | inr home =>
          match opt_bool args "on" with
          | inl e => inl e
          | inr o =>
              match opt_bool args "always" with
              | inl e => inl e
              | inr a =>
                  match o, a, home, cvars with
                  | None, None, None, None => inl "on, always (boolean), home_map or home_cvars is required"
                  | _, _, _, _ => inr {| p_on := o; p_always := a; p_homeMap := home; p_homeCvars := cvars |}
                  end
              end
          end
      end
  end.

(** ** say *)

Definition kSayLineBytes : nat := 190.
Definition kSayMaxLines : nat := 3.

Definition html_char (c : ascii) : string :=
  if Ascii.eqb c "<" then "&lt;" else if Ascii.eqb c ">" then "&gt;" else if Ascii.eqb c "&" then "&amp;"
  else if Ascii.eqb c dquote then "&quot;" else str1 c.
Fixpoint SayCenterHtml (text : string) : string :=
  match text with EmptyString => EmptyString | String c r => html_char c +s+ SayCenterHtml r end.

Definition SayCenterSeconds (asked : Z) : Z := if asked <=? 0 then 0 else if 15 <? asked then 15 else asked.

Definition continuation (c : ascii) : bool := Z.land (code c) 192 =? 128.
(** [s[cut]] is a continuation byte. *)
Definition continues_at (s : string) (cut : nat) : bool := match sdrop cut s with String c _ => continuation c | EmptyString => false end.
Fixpoint cut_back (s : string) (cut : nat) : nat :=
  match cut with S k => if continues_at s cut then cut_back s k else cut | O => O end.
Definition Utf8Cut (s : string) (maxBytes : nat) : nat :=
  if (String.length s <=? maxBytes)%nat then String.length s else cut_back s maxBytes.

Definition printable (c : ascii) : bool := negb ((code c <? 32) || (code c =? 127)).
Definition SanitizeSay (text : string) (maxBytes : nat) : string :=
  let s := sfilter printable text in stake (Utf8Cut s maxBytes) s.

Definition is_blank (c : ascii) : bool := Ascii.eqb c " ".
Definition trim : string -> string := strip is_blank.

(** [s.rfind(' ', pos)]. *)
Fixpoint rfind_space (s : string) (pos : nat) : option nat :=
  match sdrop pos s with
  | String c _ => if is_blank c then Some pos else match pos with S k => rfind_space s k | O => None end
  | EmptyString => match pos with S k => rfind_space s k | O => None end
  end.

(** Where the next line ends. *)
Definition line_cut (rest : string) : nat :=
  let cut := Utf8Cut rest kSayLineBytes in
  if (cut <? String.length rest)%nat
  then match rfind_space rest cut with Some sp => if (kSayLineBytes / 2 <=? sp)%nat then sp else cut | None => cut end
  else cut.

(** The loop; [None] when the fuel runs out. *)
Fixpoint split_loop (fuel : nat) (rest : string) (out : list string) : option (list string) :=
  match fuel with
  | O => None
  | S fuel =>
      if negb (sempty rest) && (length out <? kSayMaxLines)%nat
      then
        let cut := line_cut rest in
        let line := trim (stake cut rest) in
        split_loop fuel (trim (sdrop cut rest)) (if sempty line then out else out ++ [line])
      else Some out
  end.
Definition SplitSay (text : string) : option (list string) :=
  let rest := trim (SanitizeSay text (kSayLineBytes * kSayMaxLines)) in
  split_loop (S (String.length rest)) rest [].

Definition AdminSayLine (from text : string) : string :=
  let color (n : Z) := str1 (chr n) in
  let line := " " +s+ color 7 +s+ "[ADMIN]" +s+ color 1 +s+ " " in
  let line := if sempty from then line else line +s+ color 16 +s+ from +s+ color 1 +s+ ": " in
  line +s+ text.

Definition SayTeam (team : string) : Z :=
  if sempty team then 0 else if team =s "team1" then 1 else if team =s "team2" then 2 else -1.

(** ** Results *)

Record Result := { status : string; r_code : string; r_message : string }.
Definition Ok : Result := {| status := "ok"; r_code := EmptyString; r_message := EmptyString |}.
Definition Rejected (c m : string) : Result := {| status := "rejected"; r_code := c; r_message := m |}.
Definition Failed (c m : string) : Result := {| status := "failed"; r_code := c; r_message := m |}.
Definition ResultPayload (r : Result) (auditId : string) : string :=
  fleet_Dump (JObject (
    [("status", JString (status r))] ++
    (if sempty (r_code r) then []
     else [("error", JObject [("code", JString (r_code r)); ("message", JString (if sempty (r_message r) then r_code r else r_message r))])]) ++
    (if sempty auditId then [] else [("audit_id", JString auditId)]))).

End Cmds.

(** * Theorems about the fleet commands *)

Import Cmds.

(** ** plugins.set *)

Lemma read_names_valid key l : forall r, read_names key l = inr r -> Forall (fun n => ValidPluginName n = true) r /\ length r = length l.
Proof.
  induction l as [|v l IH]; intros r; cbn; [by intros [= <-]|]. destruct v; try done. destruct (ValidPluginName s) eqn:E; [|done]. cbn [negb].
  destruct (read_names key l) as [|r']; [done|]. intros [= <-]. destruct (IH r' eq_refl) as [H1 H2]. cbn. by rewrite H2; repeat constructor.
Qed.

Lemma name_list_valid args key r : name_list args key = inr r -> Forall (fun n => ValidPluginName n = true) r /\ zlen r <= 16.
Proof.
  unfold name_list. destruct (Get args key) as [[| | | | | |l]|]; try done; try (intros [= <-]; done).
  destruct (Z.ltb_spec 16 (zlen l)) as [|Hl]; [done|]. intros H%read_names_valid. unfold zlen in *. destruct H as [H ->]. done.
Qed.

Lemma refused_name_none on off : refused_name on off = None -> ("fleet" ∉ off) /\ forall n, n ∈ off -> n ∉ on.
Proof.
  induction off as [|n off IH]; cbn; [split; [apply not_elem_of_nil|by intros n ?%elem_of_nil]|]. destruct (n =s "fleet") eqn:E; [done|].
  apply String.eqb_neq in E. case_bool_decide as Hn; [done|]. intros [H1 H2]%IH. split; [apply not_elem_of_cons; by split|].
  intros x [->|Hx]%elem_of_cons; [done|by apply H2].
Qed.

(** What [plugins.set] accepts: plugin names only, at most 16 in each list, something to do, no plugin in
    both lists, and never the fleet plugin itself among those to disable. *)
Theorem plugins_set_sound (args : Json) (on off : list string) :
  ParsePluginsSet args = inr (on, off) ->
  Forall (fun n => ValidPluginName n = true) (on ++ off) /\ zlen on <= 16 /\ zlen off <= 16 /\ on ++ off <> [] /\
  ("fleet" ∉ off) /\ forall n, n ∈ off -> n ∉ on.
Proof.
  unfold ParsePluginsSet. destruct (name_list args "enable") as [|on'] eqn:E1; [done|]. destruct (name_list args "disable") as [|off'] eqn:E2; [done|].
  apply name_list_valid in E1 as [H1 H2], E2 as [H3 H4]. destruct (bool_decide (on' = []) && bool_decide (off' = [])) eqn:E; [done|].
  destruct (refused_name on' off') eqn:Er; [done|]. intros [= -> ->]. apply refused_name_none in Er as [H5 H6].
  split_and!; try done; [by apply Forall_app|]. intros [-> ->]%app_eq_nil. done.
Qed.

Lemma plugins_set_sound_witness :
  let on := ["match"] in let off := ["practice"] in
  Forall (fun n => ValidPluginName n = true) (on ++ off) /\ zlen on <= 16 /\ zlen off <= 16 /\ on ++ off <> [] /\
  ("fleet" ∉ off) /\ forall n, n ∈ off -> n ∉ on.
Proof. apply (plugins_set_sound (JObject [("enable", JArray [JString "match"]); ("disable", JArray [JString "practice"])])). reflexivity. Defined.

(** ** whitelist.set *)

Lemma read_steamids_valid l : forall r, read_steamids l = inr r -> exists ss, r = strtoull <$> ss /\ Forall (fun s => steamid_text s = true) ss /\ length ss = length l.
Proof.
  induction l as [|v l IH]; intros r; cbn; [intros [= <-]; by exists []|]. set (s := match v with JString s => s | _ => EmptyString end).
  destruct (steamid_text s) eqn:E; [|done]. cbn [negb]. destruct (read_steamids l) as [|r']; [done|]. intros [= <-].
  destruct (IH r' eq_refl) as (ss & -> & H1 & H2). exists (s :: ss). split_and!; [done|by constructor|cbn; by rewrite H2].
Qed.

(** ** The center panel *)

Definition no_markup (c : ascii) : bool := negb (Ascii.eqb c "<") && negb (Ascii.eqb c ">") && negb (Ascii.eqb c dquote).

Lemma html_char_spec c : sforall no_markup (html_char c) = true /\ exists d r, html_char c = String d r /\ (r = EmptyString -> d = c /\ d <> "&"%char) /\ (r <> EmptyString -> d = "&"%char).
Proof. destruct c as [[] [] [] [] [] [] [] []]; (split; [reflexivity|]); eexists _, _; (split; [reflexivity|]); split; try (intros; split; done); try done. Qed.

Lemma html_char_inj c d a b : html_char c +s+ a = html_char d +s+ b -> c = d /\ a = b.
Proof.
  unfold html_char. repeat case_match; cbn; intros Heq;
    repeat match goal with E : Ascii.eqb _ _ = true |- _ => apply Ascii.eqb_eq in E; subst end; try (injection Heq; intros; subst; by split); try discriminate;
    injection Heq; intros; subst; try discriminate; by split.
Qed.

(** A line shown on the center panel carries no markup, and reads as the text that was sent. *)
Theorem center_html_inert (text : string) :
  sforall no_markup (SayCenterHtml text) = true /\ forall other, SayCenterHtml other = SayCenterHtml text -> other = text.
Proof.
  split; [induction text as [|c r IH]; cbn; [done|]; by rewrite sforall_app, (proj1 (html_char_spec c)), IH|].
  induction text as [|c r IH]; intros [|d o]; cbn; [done| | |].
  - destruct (html_char_spec d) as (_ & x & y & -> & _). done.
  - destruct (html_char_spec c) as (_ & x & y & -> & _). done.
  - intros [-> H]%html_char_inj. f_equal. by apply IH.
Qed.

(** ** say *)

Definition non_blank (c : ascii) : bool := negb (is_blank c).
Definition ink (s : string) : string := sfilter non_blank s.

Lemma sfilter_app f a b : sfilter f (a +s+ b) = sfilter f a +s+ sfilter f b.
Proof. induction a as [|c a IH]; cbn; [done|]. destruct (f c); cbn; by rewrite IH. Qed.
Lemma sfilter_forall f s : sforall f (sfilter f s) = true.
Proof. induction s as [|c s IH]; cbn; [done|]. destruct (f c) eqn:E; cbn; [by rewrite E|done]. Qed.
Lemma split_at n s : s = stake n s +s+ sdrop n s.
Proof. revert s. induction n as [|n IH]; intros [|c s]; cbn; try done. by rewrite <- IH. Qed.
Lemma stake_len n s : (String.length (stake n s) <= n)%nat.
Proof. revert s. induction n as [|n IH]; intros [|c s]; cbn; try lia. specialize (IH s). lia. Qed.

Lemma drop_end_split f s : exists r, s = drop_while_end f s +s+ r /\ sforall f r = true.
Proof.
  induction s as [|c s (r & E & Hr)]; cbn; [by exists EmptyString|]. destruct (drop_while_end f s) as [|d t] eqn:Ed.
  - destruct (f c) eqn:Ec; [exists (String c s); cbn; rewrite Ec; split; [done|by rewrite E]|exists r; split; [by rewrite E at 1|done]].
  - exists r. split; [by rewrite E at 1|done].
Qed.
Lemma drop_while_split f s : exists r, s = r +s+ drop_while f s /\ sforall f r = true.
Proof.
  induction s as [|c s (r & E & Hr)]; cbn; [by exists EmptyString|]. destruct (f c) eqn:Ec; [|by exists EmptyString].
  exists (String c r). cbn. rewrite Ec. split; [by rewrite E at 1|done].
Qed.

(** A trimmed text is the text between two blank parts. *)
Lemma trim_split s : exists a b, s = a +s+ trim s +s+ b /\ sforall is_blank a = true /\ sforall is_blank b = true.
Proof.
  destruct (drop_while_split is_blank s) as (a & E1 & Ha), (drop_end_split is_blank (drop_while is_blank s)) as (b & E2 & Hb).
  exists a, b. split; [|done]. unfold trim, strip. by rewrite <- E2.
Qed.

Lemma ink_blank s : sforall is_blank s = true -> ink s = EmptyString.
Proof. unfold ink, non_blank. induction s as [|c s IH]; cbn; [done|]. destruct (is_blank c); [apply IH|done]. Qed.
Lemma ink_trim s : ink (trim s) = ink s.
Proof.
  destruct (trim_split s) as (a & b & E & Ha & Hb). rewrite E at 2. unfold ink. rewrite !sfilter_app. fold (ink a) (ink b) (ink (trim s)).
  by rewrite (ink_blank a Ha), (ink_blank b Hb), app_nil_s.
Qed.
Lemma trim_forall f s : sforall f s = true -> sforall f (trim s) = true.
Proof. destruct (trim_split s) as (a & b & E & _). rewrite E at 1. rewrite !sforall_app. by intros [_ [H _]%andb_prop]%andb_prop. Qed.
Lemma trim_len s : (String.length (trim s) <= String.length s)%nat.
Proof. destruct (trim_split s) as (a & b & E & _). rewrite E at 2. rewrite !length_app_s. lia. Qed.

Lemma drop_end_idem f s : drop_while_end f (drop_while_end f s) = drop_while_end f s.
Proof.
  induction s as [|c s IH]; cbn; [done|]. destruct (drop_while_end f s) as [|d t] eqn:E.
  - destruct (f c) eqn:Ec; cbn; [done|]. by rewrite Ec.
  - cbn [drop_while_end] in *. by rewrite IH.
Qed.
Lemma drop_end_stops f s : stops f s -> stops f (drop_while_end f s).
Proof. destruct s as [|c s]; cbn; [done|]. intros Hc. destruct (drop_while_end f s); cbn; [by rewrite Hc|done]. Qed.
Lemma trim_idem s : trim (trim s) = trim s.
Proof. unfold trim, strip. rewrite drop_while_id, drop_end_idem; [done|]. apply drop_end_stops, drop_while_stops. Qed.

Lemma cut_back_le s n : (cut_back s n <= n)%nat.
Proof. induction n as [|n IH]; cbn; [lia|]. destruct (continues_at s (S n)); lia. Qed.
Lemma Utf8Cut_le s n : (Utf8Cut s n <= n /\ Utf8Cut s n <= String.length s)%nat.
Proof. unfold Utf8Cut. destruct (Nat.leb_spec (String.length s) n); [lia|]. pose proof (cut_back_le s n). lia. Qed.
Lemma rfind_space_le s n k : rfind_space s n = Some k -> (k <= n)%nat.
Proof.
  revert k. induction n as [|n IH]; intros k; cbn [rfind_space]; destruct (sdrop _ s); try done; try (case_if; [by intros [= <-]|]); try done;
    intros H%IH; lia.
Qed.
Lemma line_cut_le s : (line_cut s <= 190 /\ line_cut s <= String.length s)%nat.
Proof.
  unfold line_cut. destruct (Utf8Cut_le s kSayLineBytes) as [H1 H2]. unfold kSayLineBytes in *. destruct (Utf8Cut s 190 <? String.length s)%nat; [|lia].
  destruct (rfind_space s (Utf8Cut s 190)) as [k|] eqn:E; [|lia]. apply rfind_space_le in E. case_if; lia.
Qed.

Definition cat (ls : list string) : string := foldr String.append EmptyString ls.

(** A chat line as it may go out. *)
Record say_line (l : string) : Prop := {
  sl_some : l <> EmptyString; sl_short : slen l <= 190; sl_clean : sforall printable l = true; sl_trimmed : trim l = l }.

Lemma split_loop_spec fuel : forall rest out ls, sforall printable rest = true -> (length out <= 3)%nat ->
  split_loop fuel rest out = Some ls -> exists new r, ls = out ++ new /\ (length ls <= 3)%nat /\ Forall say_line new /\
    ink rest = ink (cat new) +s+ r /\ ((length ls < 3)%nat -> r = EmptyString).
Proof.
  induction fuel as [|fuel IH]; intros rest out ls Hp Ho; cbn [split_loop]; [done|].
  destruct (negb (sempty rest) && (length out <? kSayMaxLines)%nat) eqn:Ec.
  2:{ intros [= <-]. exists [], (ink rest). rewrite app_nil_r. split_and!; [done|done|done|done|]. intros Hl. apply andb_false_iff in Ec as [Ec|Ec].
      - by destruct rest.
      - unfold kSayMaxLines in Ec. apply Nat.ltb_ge in Ec. lia. }
  apply andb_prop in Ec as [_ Ec%Nat.ltb_lt]. unfold kSayMaxLines in Ec. cbv zeta.
  rewrite (split_at (line_cut rest) rest), sforall_app in Hp. apply andb_prop in Hp as [Hp1 Hp2].
  set (line := trim (stake (line_cut rest) rest)). intros H.
  assert (ink rest = ink line +s+ ink (trim (sdrop (line_cut rest) rest))) as Ei.
  { unfold line. rewrite !ink_trim. unfold ink. by rewrite <- sfilter_app, <- split_at. }
  assert (sempty line = false -> say_line line) as Hline.
  { intros Hne. split; [by destruct line| |by apply trim_forall|apply trim_idem]. unfold line, slen.
    pose proof (trim_len (stake (line_cut rest) rest)). pose proof (stake_len (line_cut rest) rest). destruct (line_cut_le rest). lia. }
  apply IH in H as (new & r & -> & Hl & Hn & Er & Hr); [|by apply trim_forall|case_if; [done|]; rewrite length_app; cbn; lia].
  rewrite Er in Ei. destruct (sempty line) eqn:Es.
  - exists new, r. split_and!; try done. rewrite Ei. by destruct line.
  - exists (line :: new), r. rewrite <- app_assoc in Hl, Hr |- *. split_and!; [done|done|constructor; [by apply Hline|done]| |done].
    rewrite Ei. cbn. unfold ink. by rewrite sfilter_app, app_assoc_s.
Qed.

(** What a [say] becomes: at most three lines of at most 190 bytes, none empty, without control characters
    and blanks at the ends; together they have the text's characters in order, all of them unless there
    was too much. *)
Theorem say_lines (text : string) (ls : list string) :
  SplitSay text = Some ls ->
  (length ls <= 3)%nat /\ Forall say_line ls /\
  exists r, ink (sfilter printable text) = ink (cat ls) +s+ r /\ ((length ls < 3)%nat -> slen (sfilter printable text) <= 570 -> r = EmptyString).
Proof.
  unfold SplitSay. set (s := SanitizeSay text (kSayLineBytes * kSayMaxLines)). intros H.
  assert (exists t, sfilter printable text = s +s+ t /\ (slen (sfilter printable text) <= 570 -> t = EmptyString)) as (t & Et & Ht).
  { unfold s, SanitizeSay. set (c := Utf8Cut _ _). exists (sdrop c (sfilter printable text)). split; [apply split_at|]. intros Hs.
    unfold c, Utf8Cut. unfold slen in Hs. change (kSayLineBytes * kSayMaxLines)%nat with 570%nat. rewrite (proj2 (Nat.leb_le _ _)) by lia.
    clear. induction (sfilter printable text) as [|c s IH]; [done|exact IH]. }
  apply split_loop_spec in H as (new & r & -> & H1 & H2 & H3 & H4); cbn [length app] in *; [|apply trim_forall|lia].
  - split_and!; [done|done|]. exists (r +s+ ink t). rewrite Et. unfold ink at 1. rewrite sfilter_app. fold (ink s) (ink t). rewrite ink_trim in H3.
    rewrite H3, app_assoc_s. split; [done|]. intros Hl Hs. rewrite H4 by done. rewrite Ht; [done|]. by rewrite Et.
  - pose proof (sfilter_forall printable text) as Hf. rewrite Et, sforall_app in Hf. by destruct (andb_prop _ _ Hf).
Qed.

(** *** Termination *)

(** Fewer than 190 continuation bytes in a row: valid UTF-8 has at most three. *)
Definition no_run (s : string) : Prop :=
  forall a b c, s = a +s+ b +s+ c -> sforall continuation b = true -> (String.length b < 190)%nat.

Lemma no_run_part a s b : no_run (a +s+ s +s+ b) -> no_run s.
Proof. intros H x y z E Hy. apply (H (a +s+ x) y (z +s+ b)); [|done]. rewrite E. by rewrite !app_assoc_s. Qed.

Lemma no_run_trim s : no_run s -> no_run (trim s).
Proof. destruct (trim_split s) as (a & b & E & _). rewrite E at 1. apply no_run_part. Qed.
Lemma no_run_drop n s : no_run s -> no_run (sdrop n s).
Proof. intros H. apply (no_run_part (stake n s) _ EmptyString). by rewrite app_nil_s, <- split_at. Qed.

Lemma cut_back_zero s n : cut_back s n = O -> forall k, (1 <= k <= n)%nat -> continues_at s k = true.
Proof.
  induction n as [|n IH]; cbn [cut_back]; [lia|]. destruct (continues_at s (S n)) eqn:E; [|done]. intros H k Hk.
  destruct (Nat.eq_dec k (S n)) as [->|]; [done|]. apply IH; [done|lia].
Qed.

Lemma run_of s n : (forall k, (k < n)%nat -> continues_at s k = true) -> sforall continuation (stake n s) = true /\ String.length (stake n s) = n.
Proof.
  revert s. induction n as [|n IH]; intros s H; [by destruct s|]. pose proof (H O ltac:(lia)) as H0. unfold continues_at in H0. destruct s as [|c s]; [done|]. cbn in H0.
  destruct (IH s) as [H1 H2]; [intros k Hk; apply (H (S k)); lia|]. cbn. by rewrite H0, H1, H2.
Qed.

Lemma line_cut_pos s : s <> EmptyString -> no_run s -> (1 <= line_cut s)%nat.
Proof.
  intros Hs Hn. assert (1 <= Utf8Cut s 190)%nat as Hu.
  { unfold Utf8Cut. destruct (Nat.leb_spec (String.length s) 190); [destruct s; [done|cbn; lia]|].
    destruct (cut_back s 190) as [|k] eqn:E; [|lia]. destruct s as [|c s]; [done|].
    destruct (run_of s 190) as [H1 H2]; [intros k Hk; apply (cut_back_zero _ _ E (S k)); lia|].
    specialize (Hn (str1 c) (stake 190 s) (sdrop 190 s)). rewrite <- split_at in Hn. specialize (Hn eq_refl H1). lia. }
  unfold line_cut, kSayLineBytes. destruct (_ <? _)%nat; [|done]. destruct (rfind_space s _) as [sp|]; [|done].
  destruct (Nat.leb_spec (190 / 2) sp) as [H|]; [|done]. change (190 / 2)%nat with 95%nat in H. lia.
Qed.

Lemma split_loop_done fuel : forall rest out, no_run rest -> (String.length rest < fuel)%nat -> exists ls, split_loop fuel rest out = Some ls.
Proof.
  induction fuel as [|fuel IH]; intros rest out Hn Hf; [lia|]. cbn [split_loop]. destruct (sempty rest) eqn:E; cbn [negb andb]; [by eexists|].
  case_if; [|by eexists]. cbv zeta. apply IH; [by apply no_run_trim, no_run_drop|].
  pose proof (trim_len (sdrop (line_cut rest) rest)) as Ht. rewrite sdrop_length in Ht. pose proof (line_cut_pos rest ltac:(by destruct rest) Hn).
  assert (0 < String.length rest)%nat by (destruct rest; [done|cbn; lia]). lia.
Qed.

(** The loop ends on every text without a run of 190 continuation bytes, so on every text in UTF-8. *)
Theorem say_ends (text : string) : no_run (sfilter printable text) -> exists ls, SplitSay text = Some ls.
Proof.
  intros H. apply split_loop_done; [|lia]. apply no_run_trim. apply (no_run_part EmptyString _ (sdrop (Utf8Cut (sfilter printable text) 570) (sfilter printable text))).
  cbn [String.append]. unfold SanitizeSay. change (kSayLineBytes * kSayMaxLines)%nat with 570%nat. by rewrite <- split_at.
Qed.

Lemma say_ends_witness : exists ls, SplitSay "gg wp" = Some ls.
Proof.
  apply (say_ends "gg wp"). intros a b c E _. assert (String.length (a +s+ b +s+ c) = 5%nat) as H by (by rewrite <- E). rewrite !length_app_s in H. lia.
Defined.

Lemma say_lines_witness :
  let ls := ["gg wp"; "x"] in let text := "gg wp" +s+ String.concat EmptyString (repeat " " 300) +s+ "x" in
  (length ls <= 3)%nat /\ Forall say_line ls /\
  exists r, ink (sfilter printable text) = ink (cat ls) +s+ r /\ ((length ls < 3)%nat -> slen (sfilter printable text) <= 570 -> r = EmptyString).
Proof. apply (say_lines ("gg wp" +s+ String.concat EmptyString (repeat " " 300) +s+ "x") ["gg wp"; "x"]). vm_compute. reflexivity. Defined.

(** 191 continuation bytes, which the JSON reader lets through: the loop never ends. *)
Definition stray_bytes : string := String.concat EmptyString (repeat (str1 (chr 128)) 191).
Example say_stuck (fuel : nat) : split_loop fuel stray_bytes [] = None.
Proof.
  assert (line_cut stray_bytes = O) as E by (vm_compute; reflexivity).
  induction fuel as [|fuel IH]; [done|]. cbn [split_loop]. change (negb (sempty stray_bytes) && (length (@nil string) <? kSayMaxLines)%nat) with true. cbv zeta iota.
  rewrite E. change (trim (sdrop 0 stray_bytes)) with (trim stray_bytes). replace (trim stray_bytes) with stray_bytes by (vm_compute; reflexivity). exact IH.
Qed.
Example stray_bytes_read : fleet_Parse (qs "{`text`:`" +s+ stray_bytes +s+ qs "`}") = Parsed (JObject [("text", JString stray_bytes)]) /\ trim (SanitizeSay stray_bytes 570) = stray_bytes.
Proof. vm_compute. done. Qed.
