(* ===== verification/FleetClient.v ===== *)
(** * The fleet client's message handling

    [plugins/fleet/fleet_client.{h,cpp}]: what the network thread does with the outbound spool, the inbound
    tracker and the queues it shares with the game thread.  A frame that is sent is recorded in [frames]
    with the meta file that was on disk at that moment; [ok_send] answers the k-th call of [SendFrame].
    Every operation reads the clock once ([now]); [supply] are the new ULIDs.  Queue operations take the
    lock, so they are single steps.  Logging, the status counters and the wake-up pipe are left out, and so
    are libcurl, enrollment and the loop that reconnects. *)

From S2P Require Import Prelude CStr Double Json FleetJson Spool FleetProto.
Import Proto.

Module Link.

Inductive LinkState := Standalone | Unenrolled | Enrolling | Connecting | Online | Offline | Rejected.
#[export] Instance LinkState_eq_dec : EqDecision LinkState.
Proof. solve_decision. Defined.

Definition LinkStateName (s : LinkState) : string :=
  match s with
  | Standalone => "standalone" | Unenrolled => "unenrolled" | Enrolling => "enrolling" | Connecting => "connecting"
  | Online => "online" | Offline => "offline" | Rejected => "rejected"
  end.

Record Out := { o_type : string; o_payload : string; o_ref : string; o_epoch : Z; o_reliable : bool; o_afterSeq : Z }.
Record Inbound := { in_env : Envelope; in_payloadJson : string; in_reliable : bool; in_local : bool }.

(** ** State *)

Record Frame := { f_env : Envelope; f_payload : string; f_meta : option string }.
Record Net := { ok_send : nat -> bool; sends : nat; frames : list Frame }.

(** The members of [Session] the handling uses. *)
Record Session := { lastSentSeq : Z; persistedRx : Z; ackNow : bool; broken : bool; intervalMs : Z; timeoutMs : Z }.
Definition NewSession : Session :=
  {| lastSentSeq := 0; persistedRx := -1; ackNow := false; broken := false; intervalMs := 10000; timeoutMs := 30000 |}.

(** What the game thread shares, guarded by [mu_]. *)
Record Shared := {
  outbox : list Out; bulk : list Out; bulkBytes : Z; inbox : list Inbound; processed : list Z;
  handled : gset string; handledAll : bool; state : LinkState; token : string }.

Record Config := { outboxMax : Z; bulkMaxBytes : Z; stallMs : Z }.

Record Client := {
  cfg : Config; spool : Spool; rx : RxTracker; ses : Session; sh : Shared; net : Net; supply : nat -> string; used : nat }.

Definition set_spool (s : Spool) (c : Client) : Client :=
  {| cfg := cfg c; spool := s; rx := rx c; ses := ses c; sh := sh c; net := net c; supply := supply c; used := used c |}.
Definition set_rx (t : RxTracker) (c : Client) : Client :=
  {| cfg := cfg c; spool := spool c; rx := t; ses := ses c; sh := sh c; net := net c; supply := supply c; used := used c |}.
Definition set_ses (s : Session) (c : Client) : Client :=
  {| cfg := cfg c; spool := spool c; rx := rx c; ses := s; sh := sh c; net := net c; supply := supply c; used := used c |}.
Definition set_sh (s : Shared) (c : Client) : Client :=
  {| cfg := cfg c; spool := spool c; rx := rx c; ses := ses c; sh := s; net := net c; supply := supply c; used := used c |}.
Definition set_net (n : Net) (c : Client) : Client :=
  {| cfg := cfg c; spool := spool c; rx := rx c; ses := ses c; sh := sh c; net := n; supply := supply c; used := used c |}.

Definition ses_sent (n : Z) (s : Session) : Session :=
  {| lastSentSeq := n; persistedRx := persistedRx s; ackNow := ackNow s; broken := broken s; intervalMs := intervalMs s; timeoutMs := timeoutMs s |}.
Definition ses_persisted (n : Z) (s : Session) : Session :=
  {| lastSentSeq := lastSentSeq s; persistedRx := n; ackNow := ackNow s; broken := broken s; intervalMs := intervalMs s; timeoutMs := timeoutMs s |}.
Definition ses_ack (b : bool) (s : Session) : Session :=
  {| lastSentSeq := lastSentSeq s; persistedRx := persistedRx s; ackNow := b; broken := broken s; intervalMs := intervalMs s; timeoutMs := timeoutMs s |}.
Definition ses_broken (s : Session) : Session :=
  {| lastSentSeq := lastSentSeq s; persistedRx := persistedRx s; ackNow := ackNow s; broken := true; intervalMs := intervalMs s; timeoutMs := timeoutMs s |}.
Definition ses_heartbeat (i t : Z) (s : Session) : Session :=
  {| lastSentSeq := lastSentSeq s; persistedRx := persistedRx s; ackNow := ackNow s; broken := broken s; intervalMs := i; timeoutMs := t |}.

Definition sh_outbox (l : list Out) (s : Shared) : Shared :=
  {| outbox := l; bulk := bulk s; bulkBytes := bulkBytes s; inbox := inbox s; processed := processed s;
     handled := handled s; handledAll := handledAll s; state := state s; token := token s |}.
Definition sh_bulk (l : list Out) (n : Z) (s : Shared) : Shared :=
  {| outbox := outbox s; bulk := l; bulkBytes := n; inbox := inbox s; processed := processed s;
     handled := handled s; handledAll := handledAll s; state := state s; token := token s |}.
Definition sh_inbox (l : list Inbound) (s : Shared) : Shared :=
  {| outbox := outbox s; bulk := bulk s; bulkBytes := bulkBytes s; inbox := l; processed := processed s;
     handled := handled s; handledAll := handledAll s; state := state s; token := token s |}.
Definition sh_processed (l : list Z) (s : Shared) : Shared :=
  {| outbox := outbox s; bulk := bulk s; bulkBytes := bulkBytes s; inbox := inbox s; processed := l;
     handled := handled s; handledAll := handledAll s; state := state s; token := token s |}.
Definition sh_handled (h : gset string) (all : bool) (s : Shared) : Shared :=
  {| outbox := outbox s; bulk := bulk s; bulkBytes := bulkBytes s; inbox := inbox s; processed := processed s;
     handled := h; handledAll := all; state := state s; token := token s |}.
Definition sh_state (st : LinkState) (s : Shared) : Shared :=
  {| outbox := outbox s; bulk := bulk s; bulkBytes := bulkBytes s; inbox := inbox s; processed := processed s;
     handled := handled s; handledAll := handledAll s; state := st; token := token s |}.
Definition sh_token (tk : string) (s : Shared) : Shared :=
  {| outbox := outbox s; bulk := bulk s; bulkBytes := bulkBytes s; inbox := inbox s; processed := processed s;
     handled := handled s; handledAll := handledAll s; state := state s; token := tk |}.

(** [NewUlid(NowMs())]. *)
Definition fresh (c : Client) : Client * string :=
  ({| cfg := cfg c; spool := spool c; rx := rx c; ses := ses c; sh := sh c; net := net c; supply := supply c; used := S (used c) |}, supply c (used c)).

(** ** The game thread's side *)

Definition local_type (t : string) : bool := starts_with "local." t.
Definition sendable_type (t : string) : bool := IsValidType t && negb (IsEphemeralType t) && negb (local_type t).
Definition spaces (s : string) : string := smap (fun ch => if Ascii.eqb ch newline || Ascii.eqb ch creturn then " "%char else ch) s.

(** The error, [None] when the message was queued. *)
Definition Send (ty payloadJson : string) (ep : Z) (reliable : bool) (rf : string) (c : Client) : Client * option string :=
  if negb (sendable_type ty) then (c, Some (qs "invalid or reserved message type `" +s+ ty +s+ str1 dquote))
  else
    let pl := if sempty payloadJson then "{}" else payloadJson in
    if kMaxFrameBytes - 1024 <? slen pl then (c, Some "payload too large")
    else
      match fleet_Parse pl with
      | Parsed (JObject _) =>
          if outboxMax (cfg c) <=? zlen (outbox (sh c)) then (c, Some "outbox full")
          else
            let o := {| o_type := ty; o_payload := spaces pl; o_ref := rf; o_epoch := ep; o_reliable := reliable; o_afterSeq := 0 |} in
            (set_sh (sh_outbox (outbox (sh c) ++ [o]) (sh c)) c, None)
      | ParseError perr => (c, Some ("payload is not a JSON object: " +s+ perr))
      | _ => (c, Some "payload is not a JSON object: ")
      end.

Definition SendBulk (ty payloadJson : string) (ep : Z) (c : Client) : Client * option string :=
  if negb (sendable_type ty) then (c, Some "invalid type")
  else if sempty payloadJson || (kMaxFrameBytes - 1024 <? slen payloadJson) then (c, Some "payload size")
  else if negb (bool_decide (state (sh c) = Online)) then (c, Some "not online")
  else if match bulk (sh c) with [] => false | _ => bulkMaxBytes (cfg c) <? bulkBytes (sh c) + slen payloadJson end then (c, Some "bulk lane full")
  else
    let o := {| o_type := ty; o_payload := payloadJson; o_ref := EmptyString; o_epoch := ep; o_reliable := false; o_afterSeq := 0 |} in
    (set_sh (sh_bulk (bulk (sh c) ++ [o]) (bulkBytes (sh c) + slen payloadJson) (sh c)) c, None).

Definition MarkProcessed (sq : Z) (c : Client) : Client := set_sh (sh_processed (processed (sh c) ++ [sq]) (sh c)) c.
Definition TakeInbound (c : Client) : Client * list Inbound := (set_sh (sh_inbox [] (sh c)) c, inbox (sh c)).
Definition SetHandledTypes (types : gset string) (wildcard : bool) (c : Client) : Client := set_sh (sh_handled types wildcard (sh c)) c.

Definition GameStalled (nowMono lastFrameMono players : Z) (c : Client) : bool :=
  if stallMs (cfg c) <=? 0 then false else (0 <? lastFrameMono) && (stallMs (cfg c) <? nowMono - lastFrameMono) && (0 <? players).

(** ** Sending *)

Definition with_ack (a : Z) (e : Envelope) : Envelope :=
  {| v := v e; type := type e; id := id e; seq_ := seq_ e; ack := a; ts := ts e; ref := ref e; epoch := epoch e; payload := payload e |}.
Definition with_id (i : string) (t : Z) (e : Envelope) : Envelope :=
  {| v := v e; type := type e; id := i; seq_ := seq_ e; ack := ack e; ts := t; ref := ref e; epoch := epoch e; payload := payload e |}.
Definition new_env (ty i rf : string) (sq t ep : Z) : Envelope :=
  {| v := kProtocolVersion; type := ty; id := i; seq_ := sq; ack := -1; ts := t; ref := rf; epoch := ep; payload := JObject [] |}.

(** The processed number is on disk before it goes out. *)
Definition persist_rx (c : Client) : Client :=
  let a := processed_ (rx c) in
  if a =? persistedRx (ses c) then c
  else set_ses (ses_persisted a (ses c)) (set_spool (FlushMeta (SetRxSeq a (spool c))).1 c).

(** [SendFrame] of [EncodeRaw(e, payload)]. *)
Definition SendFrame (e : Envelope) (pl : string) (c : Client) : Client * bool :=
  let n := net c in
  let ok := ok_send n (sends n) in
  let f := {| f_env := e; f_payload := pl; f_meta := meta_text (disk (spool c)) |} in
  (set_net {| ok_send := ok_send n; sends := S (sends n); frames := if ok then frames n ++ [f] else frames n |} c, ok).

Definition sendEnv (now : Z) (e : Envelope) (pl : string) (c : Client) : Client * bool :=
  let '(c, i) := if sempty (id e) then fresh c else (c, id e) in
  let e := with_id i (if ts e =? 0 then now else ts e) e in
  let c := persist_rx c in
  let a := processed_ (rx c) in
  let '(c, ok) := SendFrame (with_ack a e) pl c in
  if ok then (set_rx (OnAckSent a (rx c)) c, true) else (set_ses (ses_broken (ses c)) c, false).

Definition sendRecord (now : Z) (r : SpoolRecord) (c : Client) : Client :=
  let '(c, ok) := sendEnv now (new_env (Spool.type r) (Spool.id r) (Spool.ref r) (Spool.seq r) (Spool.ts r) (Spool.epoch r)) (Spool.payload r) c in
  if ok then set_ses (ses_sent (Spool.seq r) (ses c)) c else c.

Definition sendEphemeral (now : Z) (ty pl rf : string) (ep : Z) (c : Client) : Client :=
  (sendEnv now (new_env ty EmptyString rf 0 0 ep) pl c).1.
Definition sendEph (now : Z) (o : Out) (c : Client) : Client := sendEphemeral now (o_type o) (o_payload o) (o_ref o) (o_epoch o) c.

(** The records not yet sent in this session, until the link breaks. *)
Fixpoint send_records (now : Z) (l : list SpoolRecord) (c : Client) : Client :=
  match l with
  | [] => c
  | r :: l =>
      if Spool.seq r <=? lastSentSeq (ses c) then send_records now l c
      else let c := sendRecord now r c in if broken (ses c) then c else send_records now l c
  end.

(** [DrainOutbox]: reliable messages to the spool, the others, marked with the last number before them. *)
Definition drain_one (now : Z) (acc : Client * list Out) (o : Out) : Client * list Out :=
  let '(c, eph) := acc in
  if o_reliable o then
    let '(c, i) := fresh c in
    (set_spool (Spool.Append (o_type o) i (o_ref o) now (o_epoch o) (o_payload o) (spool c)).1 c, eph)
  else
    (c, eph ++ [{| o_type := o_type o; o_payload := o_payload o; o_ref := o_ref o; o_epoch := o_epoch o; o_reliable := false;
                   o_afterSeq := lastSeq (spool c) |}]).
Definition DrainOutbox (now : Z) (c : Client) : Client * list Out :=
  let q := outbox (sh c) in
  foldl (drain_one now) (set_sh (sh_outbox [] (sh c)) c, []) q.

(** The ephemeral messages queued before record [sq]. *)
Fixpoint send_before (now sq : Z) (eph : list Out) (c : Client) : Client * list Out :=
  match eph with
  | o :: eph' => if (o_afterSeq o <? sq) && negb (broken (ses c)) then send_before now sq eph' (sendEph now o c) else (c, eph)
  | [] => (c, [])
  end.
Fixpoint send_rest (now : Z) (eph : list Out) (c : Client) : Client :=
  match eph with o :: eph => if broken (ses c) then c else send_rest now eph (sendEph now o c) | [] => c end.
Fixpoint send_pass (now : Z) (l : list SpoolRecord) (eph : list Out) (c : Client) : Client :=
  match l with
  | [] => send_rest now eph c
  | r :: l =>
      if Spool.seq r <=? lastSentSeq (ses c) then send_pass now l eph c
      else
        let '(c, eph) := send_before now (Spool.seq r) eph c in
        if broken (ses c) then c
        else let c := sendRecord now r c in if broken (ses c) then c else send_pass now l eph c
  end.

(** One pass of the normal lane. *)
Definition outbound (now : Z) (c : Client) : Client :=
  let '(c, eph) := DrainOutbox now c in send_pass now (recs_ (spool c)) eph c.

(** One message of the bulk lane, when the normal lane is empty. *)
Definition outbound_bulk (now : Z) (c : Client) : Client :=
  match bulk (sh c), outbox (sh c) with
  | b :: l, [] =>
      let n := bulkBytes (sh c) in
      let c := set_sh (sh_bulk l (n - Z.min n (slen (o_payload b))) (sh c)) c in
      if broken (ses c) then c else sendEph now b c
  | _, _ => c
  end.

(** The finished handlers, and a standalone acknowledgement. *)
Definition acknowledge (now : Z) (c : Client) : Client :=
  let c' := set_sh (sh_processed [] (sh c)) (set_rx (foldl (fun t sq => (MarkDone sq now t).1) (rx c) (processed (sh c))) c) in
  if negb (broken (ses c')) && (ackNow (ses c') || AckDue now (rx c'))
  then sendEphemeral now "ack" "{}" EmptyString 0 (set_ses (ses_ack false (ses c')) c') else c'.

(** ** Hello and snapshot *)

Record HelloInfo := {
  coreVersion : string; pluginApi : string; plugins : list (string * string); cs2Build : Z; cs2Patch : string;
  hostname : string; gamePort : Z; tvPort : Z; steamToken : bool; publicAddr : string; capabilities : list string; bootId : string;
  stateJson : string; availability : string; adminsRev : Z; pluginsDisabled : list (string * string);
  selftestJson : string; tvJson : string }.

(** [Value::Set] on an object. *)
Definition SetJ (k : string) (x : Json) (o : list (string * Json)) : list (string * Json) := set_member k x o.
Definition set_if (b : bool) (k : string) (x : Json) (o : list (string * Json)) : list (string * Json) := if b then SetJ k x o else o.
(** A member read from a JSON text, when it is an object. *)
Definition set_object (k text : string) (o : list (string * Json)) : list (string * Json) :=
  if sempty text then o else match fleet_Parse text with Parsed (JObject _ as x) => SetJ k x o | _ => o end.
Definition parsed_or_null (text : string) : Json := match fleet_Parse text with Parsed x => x | _ => JNull end.
Definition str_object (l : list (string * string)) : Json := JObject (foldl (fun o kv => SetJ kv.1 (JString kv.2) o) [] l).
Definition str_array (l : list string) : Json := JArray (JString <$> l).

(** [state] of [ReadPluginsState]: the installed and the disabled plugins, [None] when there are none to read. *)
Definition BuildHello (serverId installId : string) (h : HelloInfo) (pluginsState : option (list string * list string)) (c : Client) : string :=
  let versions := JObject [("core", JString (coreVersion h)); ("plugin_api", JString (pluginApi h)); ("plugins", str_object (plugins h));
                           ("cs2_build", JInt (cs2Build h)); ("cs2_patch", JString (cs2Patch h))] in
  let host := [("hostname", JString (hostname h)); ("game_port", JInt (gamePort h))] in
  let host := set_if (0 <? tvPort h) "tv_port" (JInt (tvPort h)) host in
  let host := set_if (negb (sempty (publicAddr h))) "public_addr" (JString (publicAddr h)) host in
  let host := SetJ "steam_token" (JBool (steamToken h)) host in
  let stream := JObject [("id", JString (streamId_ (spool c))); ("last_tx_seq", JInt (lastSeq (spool c))); ("last_rx_seq", JInt (processed_ (rx c)))] in
  let p := [("server_id", JString serverId); ("install_id", JString installId); ("tenant_id", JString "default");
            ("protocol", JObject [("min", JInt kProtocolVersion); ("max", JInt kProtocolVersion)]); ("versions", versions);
            ("capabilities", str_array (capabilities h)); ("host", JObject host); ("boot_id", JString (bootId h)); ("stream", stream);
            ("state", parsed_or_null (stateJson h)); ("availability", JString (availability h))] in
  let p := set_if (0 <=? adminsRev h) "admins_rev" (JInt (adminsRev h)) p in
  let p := set_if (negb (bool_decide (pluginsDisabled h = []))) "plugins_disabled"
             (JArray ((fun d => JObject [("name", JString d.1); ("reason", JString d.2)]) <$> pluginsDisabled h)) p in
  let p := match pluginsState with
           | Some (inst, dis) => SetJ "plugins_state" (JObject [("installed", str_array inst); ("disabled", str_array dis)]) p
           | None => p
           end in
  fleet_Dump (JObject (set_object "tv" (tvJson h) (set_object "selftest" (selftestJson h) p))).

(** Extra members never override the ones there. *)
Definition add_extra (extraJson : string) (p : list (string * Json)) : list (string * Json) :=
  if sempty extraJson then p
  else match fleet_Parse extraJson with
       | Parsed (JObject o) => foldl (fun p kv => match find_member kv.1 p with Some _ => p | None => SetJ kv.1 kv.2 p end) p o
       | _ => p
       end.

Definition int_member (key : string) (x : Json) : option Z := match Get x key with Some j => AsIntOr 0 j | None => Some 0 end.

(** The payload and the epoch; [None] is an undefined cast. *)
Definition BuildSnapshot (reason extraJson : string) (h : HelloInfo) : option (string * Z) :=
  let st := parsed_or_null (stateJson h) in
  configRev ← int_member "config_rev" st;
  ep ← int_member "epoch" st;
  let p := [("reason", JString reason); ("state", st); ("availability", JString (availability h)); ("config_rev", JInt configRev);
            ("admins_rev", JInt (if 0 <? adminsRev h then adminsRev h else 0))] in
  Some (fleet_Dump (JObject (add_extra extraJson (set_object "tv" (tvJson h) p))), ep).

Definition SendSnapshot (reason extraJson : string) (h : HelloInfo) (c : Client) : option (Client * bool) :=
  '(pl, ep) ← BuildSnapshot reason extraJson h;
  '(pl, ep) ← if kMaxFrameBytes - 1024 <? slen pl then BuildSnapshot reason EmptyString h else Some (pl, ep);
  if negb (bool_decide (state (sh c) = Online)) || (outboxMax (cfg c) <=? zlen (outbox (sh c))) then Some (c, false)
  else
    let o := {| o_type := "state.snapshot"; o_payload := pl; o_ref := EmptyString; o_epoch := if 0 <? ep then ep else 0; o_reliable := false; o_afterSeq := 0 |} in
    Some (set_sh (sh_outbox (outbox (sh c) ++ [o]) (sh c)) c, true).

(** ** The link state *)

Definition PushLocal (now : Z) (ty pl : string) (c : Client) : Client :=
  if negb (handledAll (sh c)) && negb (bool_decide (ty ∈ handled (sh c))) then c
  else
    let m := {| in_env := new_env ty EmptyString EmptyString 0 now 0; in_payloadJson := pl; in_reliable := false; in_local := true |} in
    set_sh (sh_inbox (inbox (sh c) ++ [m]) (sh c)) c.

(** A change to or from the online state is told to the game thread. *)
Definition SetLinkState (now : Z) (s : LinkState) (c : Client) : Client :=
  let prev := state (sh c) in
  if bool_decide (prev = s) then c
  else
    let c := set_sh (sh_state s (sh c)) c in
    if bool_decide (s = Online) || bool_decide (prev = Online) || bool_decide (s = Rejected)
    then PushLocal now "local.connection" (fleet_Dump (JObject [("state", JString (LinkStateName s)); ("since", JInt now)])) c else c.

(** ** A session *)

(** Up to the hello; the result is whether the stream was rotated. *)
Definition begin_session (now : Z) (newStream serverId installId : string) (h : HelloInfo) (ps : option (list string * list string)) (c : Client) : Client * bool :=
  let c := set_ses NewSession c in
  let '(s, rotated) := RotateIfGap newStream (spool c) in
  let c := set_spool s c in
  (sendEphemeral now "hello" (BuildHello serverId installId h ps c) EmptyString 0 c, rotated).

Definition heartbeat_int (key : string) (def : Z) (x : Json) : option Z := match Get x key with Some j => AsIntOr def j | None => Some def end.

(** The welcome: the heartbeat, what the platform has, the replay and, after a reset, the snapshot. *)
Definition welcomed (now : Z) (w : Envelope) (rotated : bool) (h : HelloInfo) (c : Client) : option Client :=
  c ← match Get (payload w) "heartbeat" with
      | Some (JObject _ as hb) =>
          i ← heartbeat_int "interval_ms" 10000 hb;
          t ← heartbeat_int "timeout_ms" 30000 hb;
          Some (set_ses (ses_heartbeat (clamp i 1000 120000) (clamp t 3000 600000) (ses c)) c)
      | _ => Some c
      end;
  '(resume, prx) ← match Get (payload w) "resume" with
      | Some (JObject _ as r) =>
          n ← heartbeat_int "platform_last_rx_seq" 0 r;
          Some (match Get r "result" with Some j => AsStrOr "resumed" j | None => "resumed" end, n)
      | _ => Some ("resumed", 0)
      end;
  let prx := if 0 <? ack w then Z.max prx (ack w) else prx in
  let c := set_spool (AckUpTo prx (spool c)) c in
  let c := SetLinkState now Online c in
  let c := set_ses (ses_sent (ackedSeq_ (spool c)) (ses c)) c in
  let c := send_records now (recs_ (spool c)) c in
  if negb (broken (ses c)) && ((resume =s "reset") || rotated) then
    '(snap, ep) ← BuildSnapshot "reset" EmptyString h;
    Some (sendEphemeral now "state.snapshot" snap EmptyString (if 0 <? ep then ep else 0) c)
  else Some c.

(** ** A frame from the platform *)

Definition pong_payload (p : Json) : string := fleet_Dump (JObject (match Get p "t" with Some t => [("t", t)] | None => [] end)).
Definition unknown_payload (ty : string) : string :=
  fleet_Dump (JObject [("code", JString "unknown_type"); ("message", JString ("no handler for " +s+ ty +s+ " on this server")); ("type", JString ty)]).

Definition push_inbox (e : Envelope) (reliable : bool) (c : Client) : Client :=
  set_sh (sh_inbox (inbox (sh c) ++ [{| in_env := e; in_payloadJson := fleet_Dump (payload e); in_reliable := reliable; in_local := false |}]) (sh c)) c.

(** [auth.rotate]; [saved] is the result of [SaveCredentials]. *)
Definition rotate_token (now : Z) (saved : bool) (e : Envelope) (c : Client) : Client :=
  let tk := match Get (payload e) "token" with Some j => AsStrOr EmptyString j | None => EmptyString end in
  if sempty tk then c
  else
    let c := set_sh (sh_token tk (sh c)) c in
    if saved then let '(c, i) := fresh c in set_spool (Spool.Append "auth.rotated" i (id e) now 0 "{}" (spool c)).1 c else c.

(** A reliable message that was accepted. *)
Definition accepted (now : Z) (saved isHandled : bool) (e : Envelope) (c : Client) : Client :=
  if type e =s "auth.rotate" then
    let c := rotate_token now saved e c in set_rx (MarkDone (seq_ e) now (rx c)).1 c
  else if negb isHandled then
    sendEphemeral now "error" (unknown_payload (type e)) (id e) 0 (set_rx (MarkDone (seq_ e) now (rx c)).1 c)
  else push_inbox e true c.

Definition HandleInbound (now : Z) (saved : bool) (h : HelloInfo) (text : string) (c : Client) : option Client :=
  match Decode text with
  | DecUndefined => None
  | DecErr _ => Some c
  | DecOk e =>
      if negb (v e =? kProtocolVersion) then Some c
      else
        let c := if 0 <? ack e then set_spool (AckUpTo (ack e) (spool c)) c else c in
        if type e =s "ping" then Some (sendEphemeral now "pong" (pong_payload (payload e)) (id e) 0 c)
        else if type e =s "pong" then
          (match Get (payload e) "t" with Some t => if IsNum t then _ ← AsIntOr 0 t; Some c else Some c | None => Some c end)
        else if (type e =s "ack") || (type e =s "welcome") || (type e =s "error") then Some c
        else
          let isHandled := handledAll (sh c) || bool_decide (type e ∈ handled (sh c)) in
          if seq_ e =? 0 then
            let '(t, new) := OnEphemeralId (id e) (rx c) in
            let c := set_rx t c in
            if negb new then Some c
            else if type e =s "state.request" then
              '(text, ep) ← BuildSnapshot "request" EmptyString h;
              Some (sendEphemeral now "state.snapshot" (fleet_Dump (parsed_or_null text)) (id e) (if 0 <? ep then ep else 0) c)
            else if negb isHandled then Some c
            else Some (push_inbox e false c)
          else
            let '(t, verdict) := OnReliable (seq_ e) (id e) (rx c) in
            let c := set_rx t c in
            match verdict with
            | Duplicate => Some (set_ses (ses_ack true (ses c)) c)
            | OutOfOrder => Some c
            | Accept => Some (accepted now saved isHandled e c)
            end
  end.

(** ** Steps of the two threads *)

(** The game thread's calls ([G]) and the parts of the network loop's body ([N]); a ping's payload is an
    argument.  The loop stops when the link breaks, so it takes fewer steps than these. *)
Inductive link_op :=
  | GSend (ty payloadJson : string) (ep : Z) (reliable : bool) (rf : string)
  | GSendBulk (ty payloadJson : string) (ep : Z)
  | GSnapshot (reason extraJson : string) (h : HelloInfo)
  | GProcessed (sq : Z)
  | GTake
  | GHandled (types : gset string) (wildcard : bool)
  | NOutbound (now : Z)
  | NBulk (now : Z)
  | NAcknowledge (now : Z)
  | NPing (now : Z) (pl : string)
  | NFlush (now : Z)
  | NFrame (now : Z) (saved : bool) (h : HelloInfo) (text : string).

(** [None] is an undefined conversion. *)
Definition link_step (o : link_op) (c : Client) : option Client :=
  match o with
  | GSend ty pl ep reliable rf => Some (Send ty pl ep reliable rf c).1
  | GSendBulk ty pl ep => Some (SendBulk ty pl ep c).1
  | GSnapshot reason extra h => fst <$> SendSnapshot reason extra h c
  | GProcessed sq => Some (MarkProcessed sq c)
  | GTake => Some (TakeInbound c).1
  | GHandled types wildcard => Some (SetHandledTypes types wildcard c)
  | NOutbound now => Some (outbound now c)
  | NBulk now => Some (outbound_bulk now c)
  | NAcknowledge now => Some (acknowledge now c)
  | NPing now pl => Some (sendEphemeral now "ping" pl EmptyString 0 c)
  | NFlush now => Some (set_spool (MaybeFlush now (spool c)) c)
  | NFrame now saved h text => HandleInbound now saved h text c
  end.

Fixpoint link_run (ops : list link_op) (c : Client) : option Client :=
  match ops with [] => Some c | o :: ops => c ← link_step o c; link_run ops c end.

End Link.
