(* ===== verification/FleetClientFacts.v ===== *)
(** * Theorems about the fleet client

    Over every interleaving of the game thread's calls, frames from the platform and passes of the network
    loop: an acknowledgement that goes out is on disk, and a session sends every spooled message once and
    in order.  The operations are shown to be sequences of a few primitive changes, and the invariants to
    hold over those. *)

From stdpp Require Import relations.
From S2P Require Import Prelude CStr Double Json JsonFacts FleetJson Spool SpoolFacts SpoolReopen FleetProto FleetClient.
Import Proto Link.

(** ** What the spool's operations may change *)

Definition meta_of (rxq : Z) (m : option string) : Prop := exists sid n a g, m = Some (meta_file sid n a rxq g).

Record moves (s s' : Spool) : Prop := {
  mv_dir : dir_ s' = dir_ s;
  mv_io : io (disk s') = io (disk s);
  mv_rx : rxSeq_ s' = rxSeq_ s;
  mv_meta : meta_text (disk s') = meta_text (disk s) \/ meta_of (rxSeq_ s) (meta_text (disk s'));
  mv_next : nextSeq_ s <= nextSeq_ s';
  mv_recs : forall r, r ∈ recs_ s' -> r ∈ recs_ s \/ nextSeq_ s <= Spool.seq r }.

#[export] Instance moves_refl : Reflexive moves.
Proof. intros s. split; auto; lia. Qed.
#[export] Instance moves_trans : Transitive moves.
Proof.
  intros a b c [A1 A2 A3 A4 A5 A6] [B1 B2 B3 B4 B5 B6]. split; try congruence; try lia.
  - rewrite A3 in B4. destruct B4 as [B4|]; [|by right]. rewrite B4. done.
  - intros r [Hr|Hr]%B6; [by apply A6|]. right. lia.
Qed.

Lemma Rewrite_moves s : moves s (Rewrite s).1.
Proof. unfold Rewrite. cbn. destruct (io (disk s) (calls (disk s))); cbn; split; cbn; auto; lia. Qed.

Lemma AppendLine_moves r s : moves s (AppendLine r s).1.
Proof. unfold AppendLine. destruct (log_open s); cbn; [|done]. destruct (io (disk s) (calls (disk s))); split; cbn; auto; lia. Qed.

Lemma FlushMeta_moves s : moves s (FlushMeta s).1.
Proof.
  unfold FlushMeta. destruct (sempty (dir_ s)); [done|]. cbn. destruct (io (disk s) (calls (disk s))); split; cbn; auto; try lia.
  right. unfold meta_line, meta_json. by eexists _, _, _, _.
Qed.

Lemma MaybeFlush_moves now s : moves s (MaybeFlush now s).
Proof. unfold MaybeFlush. case_if; [done|]. etransitivity; [|apply FlushMeta_moves]. split; cbn; auto; lia. Qed.

Lemma DropOne_moves s0 s s' : moves s0 s -> DropOneCompactable s = Some s' -> moves s0 s'.
Proof.
  intros H. unfold DropOneCompactable. destruct (take_compactable (recs_ s)) as [[r l]|] eqn:E; [|done]. intros [= <-].
  etransitivity; [exact H|]. apply take_compactable_Some in E as (pre & post & E & -> & _). split; cbn; auto; try lia.
  intros x Hx. left. rewrite E. set_solver.
Qed.

Lemma Append_moves ty i rf t ep p s : moves s (Append ty i rf t ep p s).1.
Proof.
  unfold Append. pose proof (make_room_ind (moves s) (Bytes (new_record ty i rf t ep p)) s (DropOne_moves s) (moves_refl s)) as Hr.
  destruct (make_room _ s) as [s1 any]. cbn in Hr. case_if; cbn [fst].
  - etransitivity; [exact Hr|]. destruct any; [etransitivity; [|apply Rewrite_moves]|]; split; cbn; auto; lia.
  - set (r := with_seq _ _). set (s2 := set_recs _ _ _).
    assert (moves s s2) as H2.
    { etransitivity; [exact Hr|]. split; cbn; auto; try lia. intros x [?| ->%list_elem_of_singleton]%elem_of_app; [by left|]. right. cbn. lia. }
    destruct any; [etransitivity; [exact H2|apply Rewrite_moves]|]. pose proof (AppendLine_moves r s2) as Ha. destruct (AppendLine r s2) as [s3 ok]. cbn in *.
    etransitivity; [exact H2|]. etransitivity; [exact Ha|]. destruct ok; [done|apply Rewrite_moves].
Qed.

Lemma AckUpTo_moves q s : moves s (AckUpTo q s).
Proof.
  unfold AckUpTo. case_if; [done|]. cbn -[pop_acked]. destruct (pop_acked_split (Z.min q (lastSeq s)) (recs_ s) (bytes_ s)) as (E1 & _).
  destruct (pop_acked _ _ _) as [l b]. cbn in E1. match goal with |- moves s (if _ then _ else ?s2) => assert (moves s s2) as H2 end.
  { split; cbn; auto; try lia. intros r Hr. left. rewrite E1. set_solver. }
  case_if; [|done]. etransitivity; [exact H2|]. etransitivity; [apply FlushMeta_moves|apply Rewrite_moves].
Qed.

(** ** Primitive changes of the client *)

(** Sending a frame touches the spool's meta file, the tracker's ack state, the session and the network only. *)
Inductive prim : Client -> Client -> Prop :=
  | p_shared c s : prim c (set_sh s c)
  | p_rx c t : processed_ (rx c) <= processed_ t -> prim c (set_rx t c)
  | p_spool c s : moves (spool c) s -> (spool_ok (spool c) -> spool_ok s) -> prim c (set_spool s c)
  | p_ack c b : prim c (set_ses (ses_ack b (ses c)) c)
  | p_fresh c : prim c (fresh c).1
  | p_send c now e pl : seq_ e = 0 -> prim c (sendEnv now e pl c).1
  | p_record c now r :
      r ∈ recs_ (spool c) -> lastSentSeq (ses c) < Spool.seq r ->
      (forall x, x ∈ recs_ (spool c) -> Spool.seq x < Spool.seq r -> Spool.seq x <= lastSentSeq (ses c)) -> prim c (sendRecord now r c).

Lemma prim_one c c' : prim c c' -> rtc prim c c'.
Proof. apply rtc_once. Qed.
Create HintDb link.
#[export] Hint Resolve prim_one p_shared p_ack p_fresh : link.

Lemma eph_prims now ty pl rf ep c : rtc prim c (sendEphemeral now ty pl rf ep c).
Proof. apply rtc_once. unfold sendEphemeral. by apply p_send. Qed.

Lemma send_keeps now e pl c : recs_ (spool (sendEnv now e pl c).1) = recs_ (spool c) /\ lastSentSeq (ses (sendEnv now e pl c).1) = lastSentSeq (ses c).
Proof.
  assert (forall x, recs_ (spool (persist_rx x)) = recs_ (spool x) /\ lastSentSeq (ses (persist_rx x)) = lastSentSeq (ses x)) as Hp.
  { intros x. unfold persist_rx. case_if; [done|]. cbn. split; [|done]. rewrite (sc_recs _ _ (FlushMeta_core _)). unfold SetRxSeq. by case_if. }
  unfold sendEnv, SendFrame. destruct (sempty (id e)); cbn -[persist_rx]; destruct (ok_send _ _); cbn -[persist_rx];
    match goal with |- recs_ (spool (persist_rx ?x)) = _ /\ _ => exact (Hp x) end.
Qed.

Lemma eph_keeps now ty pl rf ep c :
  recs_ (spool (sendEphemeral now ty pl rf ep c)) = recs_ (spool c) /\ lastSentSeq (ses (sendEphemeral now ty pl rf ep c)) = lastSentSeq (ses c).
Proof. apply send_keeps. Qed.

Lemma record_keeps now r c : recs_ (spool (sendRecord now r c)) = recs_ (spool c) /\
  (broken (ses (sendRecord now r c)) = false -> lastSentSeq (ses (sendRecord now r c)) = Spool.seq r) /\
  (lastSentSeq (ses (sendRecord now r c)) = lastSentSeq (ses c) \/ lastSentSeq (ses (sendRecord now r c)) = Spool.seq r).
Proof.
  unfold sendRecord. match goal with |- context [sendEnv now ?e ?p c] => pose proof (send_keeps now e p c) as [H1 H2]; destruct (sendEnv now e p c) as [c' ok] eqn:E end.
  cbn in H1, H2. destruct ok; cbn; [auto|]. split_and!; [done| |auto]. intros Hb. exfalso. revert E Hb. unfold sendEnv, SendFrame.
  destruct (if sempty _ then _ else _) as [c1 i]. cbn. destruct (ok_send _ _); cbn; intros [= <-]; done.
Qed.

(** ** Operations as sequences of primitive changes *)

Lemma increasing_after a l b x : increasing a l b -> x ∈ l -> a < Spool.seq x.
Proof.
  revert a. induction l as [|r l IH]; intros a; [by intros _ ?%elem_of_nil|]. intros [H1 H2] [->|Hx]%elem_of_cons; [done|].
  specialize (IH _ H2 Hx). lia.
Qed.

Lemma increasing_before a pre r l b x : increasing a (pre ++ r :: l) b -> x ∈ pre ++ r :: l -> Spool.seq x < Spool.seq r -> x ∈ pre.
Proof.
  revert a. induction pre as [|y pre IH]; intros a Hi Hx Hlt; cbn in *.
  - destruct Hi as [_ Hi]. apply elem_of_cons in Hx as [->|Hx]; [lia|]. pose proof (increasing_after _ _ _ _ Hi Hx). lia.
  - destruct Hi as [_ Hi]. apply elem_of_cons in Hx as [->|Hx]; [by left|]. right. by eapply IH.
Qed.

(** A part of the records has been sent, the rest is to come. *)
Definition halfway (pre l : list SpoolRecord) (c : Client) : Prop :=
  recs_ (spool c) = pre ++ l /\ (exists a b, increasing a (pre ++ l) b) /\ forall x, x ∈ pre -> Spool.seq x <= lastSentSeq (ses c).

Lemma halfway_ext pre l c c' :
  recs_ (spool c') = recs_ (spool c) -> lastSentSeq (ses c') = lastSentSeq (ses c) -> halfway pre l c -> halfway pre l c'.
Proof. intros E1 E2 (H1 & H2 & H3). split_and!; [congruence|done|by rewrite E2]. Qed.

Lemma halfway_skip pre r l c : halfway pre (r :: l) c -> Spool.seq r <= lastSentSeq (ses c) -> halfway (pre ++ [r]) l c.
Proof.
  intros (H1 & H2 & H3) Hr. unfold halfway. rewrite <- app_assoc. split_and!; [done|done|]. intros x [?| ->%list_elem_of_singleton]%elem_of_app; auto.
Qed.

Lemma halfway_send now pre r l c : halfway pre (r :: l) c -> lastSentSeq (ses c) < Spool.seq r ->
  prim c (sendRecord now r c) /\ (broken (ses (sendRecord now r c)) = false -> halfway (pre ++ [r]) l (sendRecord now r c)).
Proof.
  intros (H1 & [a [b H2]] & H3) Hr. destruct (record_keeps now r c) as (E1 & E2 & E3). split.
  - apply p_record; [rewrite H1; set_solver|done|]. intros x Hx Hlt. apply H3. rewrite H1 in Hx. by eapply increasing_before.
  - intros Hb. specialize (E2 Hb). unfold halfway. rewrite <- app_assoc, E1. split_and!; [done|eauto|]. rewrite E2.
    intros x [Hx| ->%list_elem_of_singleton]%elem_of_app; [|lia]. specialize (H3 x Hx). lia.
Qed.

Lemma before_prims now sq eph : forall c, rtc prim c (send_before now sq eph c).1 /\
  recs_ (spool (send_before now sq eph c).1) = recs_ (spool c) /\ lastSentSeq (ses (send_before now sq eph c).1) = lastSentSeq (ses c).
Proof.
  induction eph as [|o eph IH]; intros c; cbn; [split_and!; [apply rtc_refl|done|done]|]. case_if; [|split_and!; [apply rtc_refl|done|done]].
  destruct (IH (sendEph now o c)) as (H1 & H2 & H3). unfold sendEph in *. destruct (eph_keeps now (o_type o) (o_payload o) (o_ref o) (o_epoch o) c) as [E1 E2].
  split_and!; [etransitivity; [apply eph_prims|exact H1]|congruence|congruence].
Qed.

Lemma rest_prims now eph : forall c, rtc prim c (send_rest now eph c) /\
  recs_ (spool (send_rest now eph c)) = recs_ (spool c) /\ lastSentSeq (ses (send_rest now eph c)) = lastSentSeq (ses c).
Proof.
  induction eph as [|o eph IH]; intros c; cbn; [split_and!; [apply rtc_refl|done|done]|]. case_if; [split_and!; [apply rtc_refl|done|done]|].
  destruct (IH (sendEph now o c)) as (H1 & H2 & H3). unfold sendEph in *. destruct (eph_keeps now (o_type o) (o_payload o) (o_ref o) (o_epoch o) c) as [E1 E2].
  split_and!; [etransitivity; [apply eph_prims|exact H1]|congruence|congruence].
Qed.

(** A pass sends what is left, unless the link breaks. *)
Lemma pass_prims now l : forall pre eph c, halfway pre l c ->
  rtc prim c (send_pass now l eph c) /\ recs_ (spool (send_pass now l eph c)) = pre ++ l /\
  (broken (ses (send_pass now l eph c)) = false -> forall x, x ∈ pre ++ l -> Spool.seq x <= lastSentSeq (ses (send_pass now l eph c))).
Proof.
  induction l as [|r l IH]; intros pre eph c Hh; cbn [send_pass].
  - destruct (rest_prims now eph c) as (H1 & H2 & H3). destruct Hh as (E & _ & Hp). rewrite app_nil_r in *. split_and!; [done|congruence|]. intros _ x Hx. rewrite H3. auto.
  - destruct (Z.leb_spec (Spool.seq r) (lastSentSeq (ses c))) as [Hle|Hlt].
    { replace (pre ++ r :: l) with ((pre ++ [r]) ++ l) by by rewrite <- app_assoc. by apply IH, halfway_skip. }
    destruct (before_prims now (Spool.seq r) eph c) as (H1 & H2 & H3). destruct (send_before now (Spool.seq r) eph c) as [c1 eph1]. cbn in H1, H2, H3.
    assert (halfway pre (r :: l) c1) as Hh1 by (by eapply halfway_ext). destruct (broken (ses c1)) eqn:Eb.
    { destruct Hh1 as (E & _). split_and!; [done|done|congruence]. }
    rewrite <- H3 in Hlt. destruct (halfway_send now pre r l c1 Hh1 Hlt) as [Hs Hn].
    assert (rtc prim c (sendRecord now r c1)) as Hc by (etransitivity; [exact H1|by apply rtc_once]).
    destruct (broken (ses (sendRecord now r c1))) eqn:Eb2.
    { destruct (record_keeps now r c1) as (E1 & _). destruct Hh1 as (E & _). split_and!; [done|congruence|congruence]. }
    replace (pre ++ r :: l) with ((pre ++ [r]) ++ l) by by rewrite <- app_assoc.
    destruct (IH (pre ++ [r]) eph1 _ (Hn eq_refl)) as (G1 & G2 & G3). split_and!; [etransitivity; [exact Hc|exact G1]|done|done].
Qed.

Lemma records_prims now l : forall pre c, halfway pre l c -> rtc prim c (send_records now l c).
Proof.
  induction l as [|r l IH]; intros pre c Hh; cbn [send_records]; [apply rtc_refl|].
  destruct (Z.leb_spec (Spool.seq r) (lastSentSeq (ses c))) as [Hle|Hlt]; [by apply (IH (pre ++ [r])), halfway_skip|].
  destruct (halfway_send now pre r l c Hh Hlt) as [Hs Hn]. destruct (broken (ses (sendRecord now r c))) eqn:Eb; [by apply rtc_once|].
  etransitivity; [by apply rtc_once|]. by apply (IH (pre ++ [r])), Hn.
Qed.

Lemma append_prim ty i rf t ep p c : prim c (set_spool (Append ty i rf t ep p (spool c)).1 c).
Proof. apply p_spool; [apply Append_moves|apply Append_ok]. Qed.
Lemma acked_prim q c : prim c (set_spool (AckUpTo q (spool c)) c).
Proof. apply p_spool; [apply AckUpTo_moves|apply AckUpTo_ok]. Qed.

Lemma drain_prims now q : forall c eph, rtc prim c (foldl (drain_one now) (c, eph) q).1.
Proof.
  induction q as [|o q IH]; intros c eph; cbn [foldl]; [apply rtc_refl|]. unfold drain_one at 2. destruct (o_reliable o); [|apply IH].
  unfold fresh. etransitivity; [apply rtc_once, (p_fresh c)|]. etransitivity; [apply rtc_once; apply append_prim|]. apply IH.
Qed.

Lemma prims_spool_ok c c' : rtc prim c c' -> spool_ok (spool c) -> spool_ok (spool c').
Proof.
  induction 1 as [|c c1 c2 Hp _ IH]; [done|]. intros H. apply IH. clear IH.
  assert (forall now e pl x, spool_ok (spool x) -> spool_ok (spool (sendEnv now e pl x).1)) as Hsend.
  { intros now e pl x Hx. unfold sendEnv. destruct (if sempty _ then _ else _) as [x1 i] eqn:E1.
    assert (spool x1 = spool x) as Ex by (destruct (sempty (id e)); by inversion E1).
    assert (spool_ok (spool (persist_rx x1))) as Hpx.
    { unfold persist_rx. case_if; [by rewrite Ex|]. cbn. eapply spool_ok_core; [apply FlushMeta_core|]. unfold SetRxSeq. rewrite Ex. case_if; [done|].
      eapply spool_ok_core; [|exact Hx]. by split. }
    unfold SendFrame. destruct (ok_send _ _); exact Hpx. }
  inversion Hp; subst; try done; [by auto|by apply Hsend|].
  unfold sendRecord. match goal with |- context [sendEnv now ?e ?p c] => pose proof (Hsend now e p c H) as H'; destruct (sendEnv now e p c) as [c' ok] end.
  by destruct ok.
Qed.

Lemma outbound_prims now c : spool_ok (spool c) -> rtc prim c (outbound now c) /\
  (broken (ses (outbound now c)) = false -> forall x, x ∈ recs_ (spool (outbound now c)) -> Spool.seq x <= lastSentSeq (ses (outbound now c))).
Proof.
  intros Hok. unfold outbound, DrainOutbox. pose proof (drain_prims now (outbox (sh c)) (set_sh (sh_outbox [] (sh c)) c) []) as Hd.
  destruct (foldl _ _ _) as [c1 eph]. cbn in Hd. assert (rtc prim c c1) as Hc by (etransitivity; [apply rtc_once, p_shared|exact Hd]).
  pose proof (prims_spool_ok _ _ Hc Hok) as Hok1. destruct (pass_prims now (recs_ (spool c1)) [] eph c1) as (H1 & H2 & H3).
  { split_and!; [done|eexists _, _; apply Hok1|by intros x ?%elem_of_nil]. }
  split; [etransitivity; [exact Hc|exact H1]|]. rewrite H2. done.
Qed.

Lemma done_prefix_ge l : forall p, p <= (done_prefix p l).1.
Proof.
  induction l as [|[k []] l IH]; intros p; cbn; try lia. case_match eqn:E; cbn; [|lia]. apply Z.eqb_eq in E. specialize (IH k). lia.
Qed.

Lemma MarkDone_ge sq now t : processed_ t <= processed_ (MarkDone sq now t).1.
Proof.
  unfold MarkDone. case_if; [cbn; lia|]. pose proof (done_prefix_ge (map_put sq true (pending_ t)) (processed_ t)) as H.
  by destruct (done_prefix _ _).
Qed.

Lemma finished_ge now l : forall t, processed_ t <= processed_ (foldl (fun t sq => (MarkDone sq now t).1) t l).
Proof. induction l as [|sq l IH]; intros t; cbn [foldl]; [lia|]. specialize (IH (MarkDone sq now t).1). pose proof (MarkDone_ge sq now t). lia. Qed.

Lemma done_prim sq now c : prim c (set_rx (MarkDone sq now (rx c)).1 c).
Proof. apply p_rx, MarkDone_ge. Qed.

Lemma remembered_id x t : processed_ (RememberId x t) = processed_ t.
Proof. unfold RememberId. repeat case_match; done. Qed.

Lemma rtc_snoc_prim c c1 c2 : rtc prim c c1 -> prim c1 c2 -> rtc prim c c2.
Proof. intros H1 H2. eapply rtc_r; eassumption. Qed.

Lemma bulk_prims now c : rtc prim c (outbound_bulk now c).
Proof.
  unfold outbound_bulk. destruct (bulk (sh c)) as [|b l]; [apply rtc_refl|]. destruct (outbox (sh c)); [|apply rtc_refl].
  cbv zeta. case_if; [apply rtc_once, p_shared|]. etransitivity; [apply rtc_once, p_shared|apply eph_prims].
Qed.

Lemma acknowledge_prims now c : rtc prim c (acknowledge now c).
Proof.
  unfold acknowledge. cbv zeta. set (c' := set_sh _ _).
  assert (rtc prim c c') as H.
  { eapply rtc_snoc_prim; [apply rtc_once, (p_rx c (foldl (fun t sq => (MarkDone sq now t).1) (rx c) (processed (sh c)))), finished_ge|].
    apply (p_shared (set_rx _ c)). }
  case_if; [|done]. etransitivity; [exact H|]. etransitivity; [apply rtc_once, p_ack|apply eph_prims].
Qed.

Lemma rotate_prims now saved e c : rtc prim c (rotate_token now saved e c).
Proof.
  unfold rotate_token. case_if; [apply rtc_refl|]. cbv zeta. destruct saved; [|apply rtc_once, p_shared].
  etransitivity; [apply rtc_once, p_shared|]. etransitivity; [apply rtc_once, p_fresh|]. apply rtc_once, append_prim.
Qed.

Lemma accepted_prims now saved isHandled e c : rtc prim c (accepted now saved isHandled e c).
Proof.
  unfold accepted. case_if; [eapply rtc_snoc_prim; [apply rotate_prims|apply done_prim]|].
  case_if; [|apply rtc_once, p_shared]. etransitivity; [apply rtc_once, done_prim|apply eph_prims].
Qed.

Lemma inbound_prims now saved h text c c' : HandleInbound now saved h text c = Some c' -> rtc prim c c'.
Proof.
  unfold HandleInbound. destruct (Decode text) as [err|e|]; [intros [= <-]; apply rtc_refl| |done]. case_if; [intros [= <-]; apply rtc_refl|]. cbv zeta.
  set (c0 := if 0 <? ack e then _ else c). assert (rtc prim c c0) as H0 by (unfold c0; case_if; [apply rtc_once, acked_prim|apply rtc_refl]).
  clearbody c0. intros H. etransitivity; [exact H0|]. clear H0. revert H.
  case_if; [intros [= <-]; apply eph_prims|]. case_if.
  { destruct (Get (payload e) "t") as [t|]; [|intros [= <-]; apply rtc_refl]. case_if; [|intros [= <-]; apply rtc_refl]. by destruct (AsIntOr 0 t) as [z|]; [intros [= <-]|]. }
  case_if; [intros [= <-]; apply rtc_refl|]. case_if.
  - destruct (OnEphemeralId (id e) (rx c0)) as [t new] eqn:Et.
    assert (prim c0 (set_rx t c0)) as Hx.
    { apply p_rx. revert Et. unfold OnEphemeralId. repeat case_if; intros [= <- _]; rewrite ?remembered_id; done. }
    intros H. etransitivity; [apply rtc_once, Hx|]. clear Hx. revert H. case_if; [intros [= <-]; apply rtc_refl|]. case_if.
    { destruct (BuildSnapshot _ _ _) as [[tx ep]|]; [|done]. cbn [mbind option_bind]. intros [= <-]. apply eph_prims. }
    case_if; intros [= <-]; [apply rtc_refl|apply rtc_once, p_shared].
  - destruct (OnReliable (seq_ e) (id e) (rx c0)) as [t verdict] eqn:Et.
    assert (prim c0 (set_rx t c0)) as Hx.
    { apply p_rx. revert Et. unfold OnReliable. repeat case_if; intros [= <- _]; rewrite ?remembered_id; done. }
    intros H. etransitivity; [apply rtc_once, Hx|]. clear Hx. revert H. destruct verdict; intros [= <-]; [apply accepted_prims | apply rtc_once, (p_ack (set_rx t c0)) | apply rtc_refl].
Qed.

Lemma maybe_flush_ok now s : spool_ok s -> spool_ok (MaybeFlush now s).
Proof.
  intros H. unfold MaybeFlush. case_if; [done|]. eapply spool_ok_core; [apply FlushMeta_core|]. eapply spool_ok_core; [|exact H]. by split.
Qed.

Lemma queued_prims c c' : (exists s, c' = set_sh s c) \/ c' = c -> rtc prim c c'.
Proof. intros [[s ->]| ->]; [apply rtc_once, p_shared|apply rtc_refl]. Qed.

Lemma step_prims o c c' : spool_ok (spool c) -> link_step o c = Some c' -> rtc prim c c'.
Proof.
  intros Hok. destruct o; cbn [link_step]; try (intros [= <-]).
  - apply queued_prims. unfold Send. case_if; [by right|]. cbv zeta. case_if; [by right|]. destruct (fleet_Parse _) as [[]| |]; try by right.
    case_if; [by right|left; by eexists].
  - apply queued_prims. unfold SendBulk. repeat (case_if; [by right|]). left. by eexists.
  - unfold SendSnapshot. generalize (BuildSnapshot reason extraJson h) (BuildSnapshot reason EmptyString h). intros b1 b2.
    destruct b1 as [[pl ep]|]; [|discriminate]. cbn [mbind option_bind].
    destruct (if _ <? _ then _ else _) as [[pl' ep']|]; [|discriminate]. cbn [mbind option_bind].
    case_if; intros [= <-]; apply queued_prims; [by right|left; by eexists].
  - apply rtc_once, p_shared.
  - apply rtc_once, p_shared.
  - apply rtc_once, p_shared.
  - by apply outbound_prims.
  - apply bulk_prims.
  - apply acknowledge_prims.
  - apply eph_prims.
  - apply rtc_once, p_spool; [apply MaybeFlush_moves|apply maybe_flush_ok].
  - apply inbound_prims.
Qed.

Lemma run_prims ops : forall c c', spool_ok (spool c) -> link_run ops c = Some c' -> rtc prim c c'.
Proof.
  induction ops as [|o ops IH]; intros c c' Hok; cbn [link_run]; [by intros [= ->]|]. destruct (link_step o c) as [c1|] eqn:E; [|done].
  cbn [mbind option_bind]. pose proof (step_prims _ _ _ Hok E) as H1. intros H2. etransitivity; [exact H1|].
  eapply IH; [by eapply prims_spool_ok|exact H2].
Qed.

(** ** Acknowledgements are on disk *)

Definition remembered (f : Frame) : Prop := meta_of (ack (f_env f)) (f_meta f).

(** The disk never fails, and the number last written is the one in the meta file. *)
Record durable_link (c : Client) : Prop := {
  du_dir : sempty (dir_ (spool c)) = false;
  du_io : forall k, io (disk (spool c)) k = None;
  du_processed : 0 <= processed_ (rx c);
  du_mark : persistedRx (ses c) = -1 \/ (rxSeq_ (spool c) = persistedRx (ses c) /\ meta_of (persistedRx (ses c)) (meta_text (disk (spool c))));
  du_frames : Forall remembered (frames (net c)) }.

Lemma persist_durable c : durable_link c -> durable_link (persist_rx c) /\ meta_of (processed_ (rx c)) (meta_text (disk (spool (persist_rx c)))).
Proof.
  intros [H1 H2 H3 H4 H5]. unfold persist_rx. destruct (Z.eqb_spec (processed_ (rx c)) (persistedRx (ses c))) as [E|E].
  - split; [by split|]. destruct H4 as [H4|[_ H4]]; [lia|by rewrite E].
  - set (s := SetRxSeq _ _).
    assert (dir_ s = dir_ (spool c) /\ disk s = disk (spool c) /\ rxSeq_ s = processed_ (rx c)) as (E1 & E2 & E3).
    { unfold s, SetRxSeq. by destruct (Z.eqb_spec (processed_ (rx c)) (rxSeq_ (spool c))). }
    assert (meta_of (processed_ (rx c)) (meta_text (disk (FlushMeta s).1)) /\ rxSeq_ (FlushMeta s).1 = processed_ (rx c)) as [Hm Hr].
    { unfold FlushMeta. rewrite E1, H1. cbn. rewrite E2, H2. cbn. split; [|done]. unfold meta_line, meta_json. rewrite E3. by eexists _, _, _, _. }
    destruct (FlushMeta_moves s) as [M1 M2 _ _ _ _]. split; [|done]. split; cbn; [by rewrite M1, E1|by rewrite M2, E2|done|by right|done].
Qed.

Lemma send_durable now e pl c : durable_link c -> durable_link (sendEnv now e pl c).1.
Proof.
  intros H. unfold sendEnv. destruct (if sempty _ then _ else _) as [c1 i] eqn:E1.
  assert (durable_link c1) as Hc by (destruct (sempty (id e)); injection E1 as <- _; [|done]; by destruct H).
  apply persist_durable in Hc as [[H1 H2 H3 H4 H5] Hm]. replace (rx c1) with (rx (persist_rx c1)) in Hm by (unfold persist_rx; by case_if).
  unfold SendFrame. destruct (ok_send _ _); cbn; split; cbn; try done. apply Forall_app. split; [done|]. by apply Forall_singleton.
Qed.

Lemma prim_durable c c' : prim c c' -> durable_link c -> durable_link c'.
Proof.
  intros Hp Hd. pose proof Hd as [H1 H2 H3 H4 H5].
  destruct Hp as [| |c s [M1 M2 M3 M4 _ _]| | |c now e pl|c now r]; [by split|by split; cbn; auto; lia| |by split|by split|by apply send_durable|].
  - split; cbn; [by rewrite M1|by rewrite M2|done| |done]. destruct H4 as [H4|[E Hm]]; [by left|]. right. rewrite M3. split; [done|].
    rewrite E in M4. destruct M4 as [->|M4]; done.
  - unfold sendRecord. match goal with |- context [sendEnv now ?e ?p c] => pose proof (send_durable now e p c Hd) as H'; destruct (sendEnv now e p c) as [c' ok] end.
    destruct ok; [|done]. by destruct H'.
Qed.

Lemma prims_durable c c' : rtc prim c c' -> durable_link c -> durable_link c'.
Proof. induction 1; eauto using prim_durable. Qed.

(** ** A session's beginning *)

Lemma RotateIfGap_disk fresh s : dir_ (RotateIfGap fresh s).1 = dir_ s /\ io (disk (RotateIfGap fresh s).1) = io (disk s).
Proof.
  unfold RotateIfGap. case_if; [done|]. cbn [fst]. match goal with |- context [FlushMeta ?x] => set (s1 := x) end.
  destruct (Rewrite_moves (FlushMeta s1).1) as [E1 E2 _ _ _ _], (FlushMeta_moves s1) as [E3 E4 _ _ _ _]. by rewrite E1, E2, E3, E4.
Qed.

Lemma begin_durable now ns sid iid h ps c :
  sempty (dir_ (spool c)) = false -> (forall k, io (disk (spool c)) k = None) -> 0 <= processed_ (rx c) -> Forall remembered (frames (net c)) ->
  durable_link (begin_session now ns sid iid h ps c).1.
Proof.
  intros H1 H2 H3 H4. unfold begin_session. destruct (RotateIfGap_disk ns (spool c)) as [E1 E2]. cbn [spool set_ses].
  destruct (RotateIfGap ns (spool c)) as [s rotated]. cbn in E1, E2. cbn [fst]. apply send_durable. split; cbn; [by rewrite E1|by rewrite E2|done|by left|done].
Qed.

Lemma set_state_shared now s c : exists st, SetLinkState now s c = set_sh st c.
Proof.
  assert (forall ty pl x, exists st, PushLocal now ty pl x = set_sh st x) as Hp.
  { intros ty pl x. unfold PushLocal. case_if; [exists (sh x); by destruct x|by eexists]. }
  unfold SetLinkState. case_if; [exists (sh c); by destruct c|]. cbv zeta. case_if; [|by eexists].
  match goal with |- context [PushLocal now ?t ?p ?x] => destruct (Hp t p x) as [st ->] end. by exists st.
Qed.

(** What a welcome says the platform has: the number its envelope acknowledges, and [resume.platform_last_rx_seq]. *)
Inductive welcome_acks (w : Envelope) : Z -> Prop :=
  | acks_envelope : welcome_acks w (ack w)
  | acks_resume r j q : Get (payload w) "resume" = Some (JObject r) -> Get (JObject r) "platform_last_rx_seq" = Some j -> AsIntOr 0 j = Some q -> welcome_acks w q.

(** The state from which a session sends: nothing but what the platform already has counts as sent. *)
Lemma welcomed_start now w rotated h c c' : spool_ok (spool c) -> welcomed now w rotated h c = Some c' ->
  exists prx st ss, let c0 := set_ses ss (set_sh st (set_spool (AckUpTo prx (spool c)) c)) in
    (forall q, welcome_acks w q -> 0 < q -> q <= prx) /\ lastSentSeq ss = ackedSeq_ (spool c0) /\ persistedRx ss = persistedRx (ses c) /\ rtc prim c0 c'.
Proof.
  intros Hok. unfold welcomed. intros (c1 & H1 & H)%bind_Some.
  assert (exists ss, c1 = set_ses ss c /\ persistedRx ss = persistedRx (ses c)) as (ss & -> & Hss).
  { assert (c = set_ses (ses c) c) as Ec by by destruct c.
    destruct (Get (payload w) "heartbeat") as [[]|]; try (injection H1 as <-; by eexists).
    apply bind_Some in H1 as (i & _ & H1). apply bind_Some in H1 as (t & _ & [= <-]). by eexists. }
  apply bind_Some in H as ([resume prx] & Hres & H). cbv zeta in H. revert H. set (p := if 0 <? ack w then _ else prx).
  assert (forall q, welcome_acks w q -> 0 < q -> q <= p) as Hack.
  { intros q [|r j q' Er Ej Eq] Hq; unfold p; [case_if; split_bools; lia|]. rewrite Er in Hres. unfold heartbeat_int in Hres. rewrite Ej, Eq in Hres. cbn in Hres.
    injection Hres as _ <-. case_if; lia. }
  clear Hres. clearbody p.
  match goal with |- context [SetLinkState now Online ?x] => destruct (set_state_shared now Online x) as [st ->] end.
  set (c0 := set_ses (ses_sent _ _) _). intros H. exists p, (sh c0), (ses c0). cbv zeta. split_and!; [done|done|done|].
  change (rtc prim c0 c'). assert (rtc prim c0 (send_records now (recs_ (spool c0)) c0)) as Hs.
  { apply (records_prims now _ []). split_and!; [done|eexists _, _; apply (ok_incr _ (AckUpTo_ok p _ Hok))|by intros x ?%elem_of_nil]. }
  etransitivity; [exact Hs|]. clear Hs. revert H. generalize (send_records now (recs_ (spool c0)) c0). intros c2.
  case_if; [|by intros [= ->]]. intros ([snap ep] & _ & [= <-])%bind_Some. apply eph_prims.
Qed.

Lemma welcomed_durable now w rotated h c c' : spool_ok (spool c) -> welcomed now w rotated h c = Some c' -> durable_link c -> durable_link c'.
Proof.
  intros Hok Hw Hd. destruct (welcomed_start _ _ _ _ _ _ Hok Hw) as (p & st & ss & _ & _ & Hp & Hr). eapply prims_durable; [exact Hr|].
  pose proof (prim_durable _ _ (acked_prim p c) Hd) as [H1 H2 H3 H4 H5]. split; cbn in *; rewrite ?Hp; done.
Qed.

Lemma begin_ok now ns sid iid h ps c : spool_ok (spool c) -> spool_ok (spool (begin_session now ns sid iid h ps c).1).
Proof.
  intros H. unfold begin_session. pose proof (RotateIfGap_ok ns (spool c) H) as Hr. cbn [spool set_ses].
  destruct (RotateIfGap ns (spool c)) as [s rotated]. cbn [fst] in *. eapply prims_spool_ok; [apply eph_prims|exact Hr].
Qed.

(** The number a frame acknowledges is in the meta file when it goes out, through the session's start and any
    interleaving of the two threads, when no disk call fails. *)
Theorem ack_remembered (c c0 c1 c2 : Client) (rotated : bool) (now now' : Z) (ns sid iid : string) (h : HelloInfo) (ps : option (list string * list string))
    (w : Envelope) (ops : list link_op) :
  spool_ok (spool c) -> sempty (dir_ (spool c)) = false -> (forall k, io (disk (spool c)) k = None) -> 0 <= processed_ (rx c) ->
  frames (net c) = [] ->
  begin_session now ns sid iid h ps c = (c0, rotated) -> welcomed now' w rotated h c0 = Some c1 -> link_run ops c1 = Some c2 ->
  forall f, f ∈ frames (net c2) -> exists stream next acked g, f_meta f = Some (meta_file stream next acked (ack (f_env f)) g).
Proof.
  intros Hok Hdir Hio Hp Hf Ebegin. pose proof (begin_durable now ns sid iid h ps c Hdir Hio Hp ltac:(by rewrite Hf)) as Hb.
  pose proof (begin_ok now ns sid iid h ps c Hok) as Ho. rewrite Ebegin in *. cbn [fst] in *. intros Hw Hr f.
  assert (spool_ok (spool c1)) as Ho1.
  { destruct (welcomed_start _ _ _ _ _ _ Ho Hw) as (p & st & ss & _ & _ & _ & Hc). eapply prims_spool_ok; [exact Hc|]. cbn. by apply AckUpTo_ok. }
  pose proof (prims_durable _ _ (run_prims _ _ _ Ho1 Hr) (welcomed_durable _ _ _ _ _ _ Ho Hw Hb)) as Hd.
  pose proof (du_frames _ Hd) as Hall. rewrite Forall_forall in Hall. exact (Hall f).
Qed.

(** ** Spooled messages go out once and in order *)

Definition reliable_seqs (fs : list Frame) : list Z := filter (fun q => 0 < q) ((fun f => seq_ (f_env f)) <$> fs).

(** The frame that carries a record. *)
Definition carries (r : SpoolRecord) (f : Frame) : Prop :=
  seq_ (f_env f) = Spool.seq r /\ type (f_env f) = Spool.type r /\ f_payload f = Spool.payload r /\ epoch (f_env f) = Spool.epoch r.

Record in_order (base : Z) (fs0 : list Frame) (c : Client) (fs : list Frame) : Prop := {
  io_ok : spool_ok (spool c);
  io_frames : frames (net c) = fs0 ++ fs;
  io_sorted : StronglySorted Z.lt (reliable_seqs fs);
  io_range : Forall (fun q => base < q <= lastSentSeq (ses c)) (reliable_seqs fs);
  io_base : base <= lastSentSeq (ses c);
  io_next : lastSentSeq (ses c) < nextSeq_ (spool c);
  io_sent : forall r, r ∈ recs_ (spool c) -> Spool.seq r <= lastSentSeq (ses c) -> Exists (carries r) fs }.

Lemma send_frames now e pl c : exists fs, frames (net (sendEnv now e pl c).1) = frames (net c) ++ fs /\
  nextSeq_ (spool (sendEnv now e pl c).1) = nextSeq_ (spool c) /\
  if (sendEnv now e pl c).2 then exists f a i t, fs = [f] /\ f_payload f = pl /\ f_env f = with_ack a (with_id i t e) else fs = [].
Proof.
  assert (forall x, nextSeq_ (spool (persist_rx x)) = nextSeq_ (spool x) /\ frames (net (persist_rx x)) = frames (net x)) as Hp.
  { intros x. unfold persist_rx. case_if; [done|]. cbn. split; [|done]. rewrite (sc_next _ _ (FlushMeta_core _)). unfold SetRxSeq. by case_if. }
  unfold sendEnv, SendFrame. destruct (if sempty _ then _ else _) as [c1 i] eqn:E1.
  assert (spool c1 = spool c /\ net c1 = net c) as [Es En] by (destruct (sempty (id e)); by inversion E1).
  destruct (Hp c1) as [H1 H2]. rewrite Es in H1. rewrite En in H2.
  destruct (ok_send _ _); cbn -[persist_rx]; rewrite H1, H2; [|by exists []; rewrite app_nil_r].
  eexists. split_and!; [done|done|]. by eexists _, _, _, _.
Qed.

Lemma reliable_snoc fs f : reliable_seqs (fs ++ [f]) = reliable_seqs fs ++ if decide (0 < seq_ (f_env f)) then [seq_ (f_env f)] else [].
Proof. unfold reliable_seqs. by rewrite fmap_app, filter_app. Qed.

Lemma sorted_snoc l x : StronglySorted Z.lt l -> Forall (fun y => y < x) l -> StronglySorted Z.lt (l ++ [x]).
Proof.
  induction 1 as [|y l H1 IH H2]; intros Hf; cbn; [by repeat constructor|]. apply Forall_cons in Hf as [Hy Hf]. constructor; [by apply IH|].
  apply Forall_app. split; [done|]. by apply Forall_singleton.
Qed.

Lemma increasing_upto a l b x : increasing a l b -> x ∈ l -> a < Spool.seq x < b.
Proof.
  revert a. induction l as [|r l IH]; intros a; [by intros _ ?%elem_of_nil|]. intros [H1 H2] [->|Hx]%elem_of_cons.
  - pose proof (increasing_lt _ _ _ H2). lia.
  - specialize (IH _ H2 Hx). lia.
Qed.

Lemma increasing_inj a l b x y : increasing a l b -> x ∈ l -> y ∈ l -> Spool.seq x = Spool.seq y -> x = y.
Proof.
  revert a. induction l as [|r l IH]; intros a; [by intros _ ?%elem_of_nil|]. intros [H1 H2] [->|Hx]%elem_of_cons [->|Hy]%elem_of_cons E; [done| | |by eapply IH].
  - pose proof (increasing_after _ _ _ _ H2 Hy). lia.
  - pose proof (increasing_after _ _ _ _ H2 Hx). lia.
Qed.

(** A message without a number leaves the order alone. *)
Lemma send_in_order base fs0 now e pl c fs : seq_ e = 0 -> in_order base fs0 c fs -> exists fs', in_order base fs0 (sendEnv now e pl c).1 fs'.
Proof.
  intros He [H1 H2 H3 H4 H5 H6 H7]. pose proof (prims_spool_ok c _ (rtc_once _ _ (p_send c now e pl He)) H1) as Hok.
  destruct (send_keeps now e pl c) as [E1 E2]. destruct (send_frames now e pl c) as (l & E3 & E4 & Hl).
  destruct (sendEnv now e pl c) as [c' ok]. cbn [fst snd] in *.
  exists (fs ++ l). assert (reliable_seqs (fs ++ l) = reliable_seqs fs) as Er.
  { destruct ok; [|by rewrite Hl, app_nil_r]. destruct Hl as (f & a & i & t & -> & _ & Ef). rewrite reliable_snoc, Ef. cbn. rewrite He. by rewrite app_nil_r. }
  split; rewrite ?Er, ?E1, ?E2, ?E4; try done; [by rewrite E3, H2, app_assoc|]. intros r Hr Hle. apply Exists_app. left. by apply H7.
Qed.

Lemma record_in_order base fs0 now r c fs :
  r ∈ recs_ (spool c) -> lastSentSeq (ses c) < Spool.seq r ->
  (forall x, x ∈ recs_ (spool c) -> Spool.seq x < Spool.seq r -> Spool.seq x <= lastSentSeq (ses c)) ->
  in_order base fs0 c fs -> exists fs', in_order base fs0 (sendRecord now r c) fs'.
Proof.
  intros Hr Hlt Hall [H1 H2 H3 H4 H5 H6 H7]. pose proof (prims_spool_ok c _ (rtc_once _ _ (p_record c now r Hr Hlt Hall)) H1) as Hok. revert Hok.
  unfold sendRecord. set (e := new_env _ _ _ _ _ _). destruct (send_keeps now e (Spool.payload r) c) as [E1 E2].
  destruct (send_frames now e (Spool.payload r) c) as (l & E3 & E4 & Hl). destruct (sendEnv now e _ c) as [c' ok]. cbn [fst snd] in *. intros Hok.
  destruct ok; [|subst l; exists fs; split; rewrite ?E1, ?E2, ?E4; try done; by rewrite E3, app_nil_r].
  destruct Hl as (f & a & i & t & -> & Hpl & Ef). pose proof (increasing_upto _ _ _ _ (ok_incr _ H1) Hr) as Hrange. pose proof (ok_acked _ H1).
  assert (carries r f) as Hf by (unfold carries; by rewrite Ef, Hpl).
  assert (reliable_seqs (fs ++ [f]) = reliable_seqs fs ++ [Spool.seq r]) as Er.
  { rewrite reliable_snoc, (proj1 Hf). destruct (decide _); [done|lia]. }
  exists (fs ++ [f]). split; rewrite ?Er; cbn; rewrite ?E1, ?E4; try done; try lia.
  - by rewrite E3, H2, app_assoc.
  - apply sorted_snoc; [done|]. eapply Forall_impl; [exact H4|]. cbn. lia.
  - apply Forall_app. split; [eapply Forall_impl; [exact H4|]; cbn; lia|]. apply Forall_singleton. lia.
  - intros x Hx Hle. apply Exists_app. destruct (Z.eq_dec (Spool.seq x) (Spool.seq r)) as [E|E].
    + right. apply Exists_cons. left. by rewrite (increasing_inj _ _ _ _ _ (ok_incr _ H1) Hx Hr E).
    + left. apply H7; [done|]. apply Hall; [done|lia].
Qed.

Lemma prim_in_order base fs0 c c' fs : prim c c' -> in_order base fs0 c fs -> exists fs', in_order base fs0 c' fs'.
Proof.
  intros Hp Hi. pose proof Hi as [H1 H2 H3 H4 H5 H6 H7].
  destruct Hp as [| |c s [_ _ _ _ M5 M6] Hok| | |c now e pl He|c now r]; try (exists fs; by split); [|by eapply send_in_order|by eapply record_in_order].
  exists fs. split; cbn; try done; [by apply Hok|lia|]. intros r [Hr|Hr]%M6; [by apply H7|lia].
Qed.

Lemma prims_in_order base fs0 c c' : rtc prim c c' -> forall fs, in_order base fs0 c fs -> exists fs', in_order base fs0 c' fs'.
Proof. induction 1 as [|c c1 c2 Hp _ IH]; [eauto|]. intros fs Hi. destruct (prim_in_order _ _ _ _ _ Hp Hi) as [fs1 H1]. by eapply IH. Qed.

Lemma AckUpTo_acked q s : Z.min q (lastSeq s) <= ackedSeq_ (AckUpTo q s).
Proof.
  unfold AckUpTo. case_if; split_bools; [lia|]. cbn -[pop_acked]. destruct (pop_acked _ _ _) as [l b].
  case_if; rewrite ?(sc_acked _ _ (Rewrite_core _)), ?(sc_acked _ _ (FlushMeta_core _)); cbn; lia.
Qed.

Lemma welcomed_in_order now w rotated h c c1 : spool_ok (spool c) -> welcomed now w rotated h c = Some c1 ->
  exists base fs, (forall q, welcome_acks w q -> Z.min q (lastSeq (spool c)) <= base) /\ in_order base (frames (net c)) c1 fs.
Proof.
  intros Hok Hw. destruct (welcomed_start _ _ _ _ _ _ Hok Hw) as (p & st & ss & Hp & Hs & _ & Hr). revert Hs Hr. set (c0 := set_ses _ _). intros Hs Hr.
  pose proof (AckUpTo_ok p _ Hok) as Hok'. pose proof (AckUpTo_acked p (spool c)) as Ha. pose proof (ok_acked _ Hok').
  destruct (prims_in_order (ackedSeq_ (spool c0)) (frames (net c)) _ _ Hr []) as [fs Hi].
  - pose proof (ok_incr _ Hok') as Hincr. split; cbn; try rewrite Hs; try done; [by rewrite app_nil_r|apply SSorted_nil|by apply increasing_lt in Hincr|].
    intros r Hr' Hle. pose proof (increasing_upto _ _ _ _ Hincr Hr'). cbn in Hle. lia.
  - exists (ackedSeq_ (spool c0)), fs. split; [|done]. cbn. intros q Hq. specialize (Hp q Hq). lia.
Qed.

(** Claim C3.  What a session sends reliably: each number once, in increasing order, nothing the welcome says the platform has, by the
    number its envelope acknowledges or by its [resume.platform_last_rx_seq] (of the numbers given out so far: a number above them acknowledges no more than
    those); after a pass of the loop every spooled message has gone out, unless the link broke. *)
Theorem sent_once_in_order (c c1 c2 : Client) (now now' : Z) (w : Envelope) (rotated : bool) (h : HelloInfo) (ops : list link_op) :
  spool_ok (spool c) -> welcomed now w rotated h c = Some c1 -> link_run ops c1 = Some c2 ->
  let c3 := outbound now' c2 in
  exists fs, frames (net c3) = frames (net c) ++ fs /\ StronglySorted Z.lt (reliable_seqs fs) /\
    Forall (fun q => forall p, welcome_acks w p -> Z.min p (lastSeq (spool c)) < q) (reliable_seqs fs) /\
    (broken (ses c3) = false -> forall r, r ∈ recs_ (spool c3) -> exists f, f ∈ fs /\ carries r f).
Proof.
  intros Hok Hw Hr c3. destruct (welcomed_in_order _ _ _ _ _ _ Hok Hw) as (base & fs1 & Hb & H1).
  destruct (prims_in_order _ _ _ _ (run_prims _ _ _ (io_ok _ _ _ _ H1) Hr) _ H1) as [fs2 H2].
  destruct (outbound_prims now' c2 (io_ok _ _ _ _ H2)) as [H3 Hall].
  destruct (prims_in_order _ _ _ _ H3 _ H2) as [fs3 H4]. exists fs3. split_and!; [apply H4|apply H4| |].
  - eapply Forall_impl; [apply (io_range _ _ _ _ H4)|]. cbn. intros q Hq p Hp. specialize (Hb p Hp). lia.
  - intros Hnb r Hin. apply Exists_exists, (io_sent _ _ _ _ H4); [done|by apply Hall].
Qed.

(** ** A session *)

Definition sample_spool : Spool :=
  (Spool.Append "match.event" "01A" EmptyString 5 0 "{}"
    {| dir_ := "data"; limits_ := {| maxMsgs := 100; maxBytes := 100000 |}; log_open := true; logBytes_ := 0; recs_ := []; bytes_ := 0;
       dropped_ := 0; streamId_ := "S"; nextSeq_ := 1; ackedSeq_ := 0; rxSeq_ := 0; gap_ := false; metaDirty_ := false; lastFlushMs_ := 0;
       disk := {| log_text := EmptyString; meta_text := None; io := fun _ => None; calls := 0 |} |}).1.
Definition sample_hello : HelloInfo :=
  {| coreVersion := "1"; pluginApi := "1"; plugins := []; cs2Build := 1; cs2Patch := "1"; hostname := "srv"; gamePort := 27015; tvPort := 0;
     steamToken := false; publicAddr := EmptyString; capabilities := []; bootId := "b"; stateJson := "{}"; availability := "open"; adminsRev := -1;
     pluginsDisabled := []; selftestJson := EmptyString; tvJson := EmptyString |}.
Definition sample_client : Client :=
  {| cfg := {| outboxMax := 10; bulkMaxBytes := 1000; stallMs := 0 |}; spool := sample_spool; rx := NewRx; ses := NewSession;
     sh := {| outbox := []; bulk := []; bulkBytes := 0; inbox := []; processed := []; handled := ∅; handledAll := true; state := Connecting; token := EmptyString |};
     net := {| ok_send := fun _ => true; sends := 0; frames := [] |}; supply := fun _ => "01X"; used := 0 |}.
Definition sample_welcome : Envelope :=
  {| v := 1; type := "welcome"; id := "w"; seq_ := 0; ack := 0; ts := 1; ref := EmptyString; epoch := 0; payload := JObject [] |}.
(** The platform sends message 1, the game handles it and queues an event. *)
Definition sample_ops : list link_op :=
  [NFrame 20 true sample_hello (EncodeRaw {| v := 1; type := "match.start"; id := "m"; seq_ := 1; ack := 1; ts := 1; ref := EmptyString; epoch := 0; payload := JObject [] |} "{}");
   GTake; GProcessed 1; GSend "match.event" "{}" 0 true EmptyString; NAcknowledge 30].

Definition frame_summary (f : Frame) : string * Z * Z := (type (f_env f), seq_ (f_env f), ack (f_env f)).
Definition sample_end : option Client :=
  let '(c0, rotated) := begin_session 10 "N" "sid" "iid" sample_hello None sample_client in
  c1 ← welcomed 11 sample_welcome rotated sample_hello c0;
  c2 ← link_run sample_ops c1;
  Some (outbound 40 c2).

Example session_sample : (fmap frame_summary ∘ frames ∘ net) <$> sample_end = Some [("hello", 0, 0); ("match.event", 1, 0); ("match.event", 2, 1)].
Proof. vm_compute. done. Qed.

Definition sample_hi : Client * bool := begin_session 10 "N" "sid" "iid" sample_hello None sample_client.
Definition sample_online : Client := default sample_client (welcomed 11 sample_welcome sample_hi.2 sample_hello sample_hi.1).
Definition sample_done : Client := default sample_client (link_run sample_ops sample_online).

Lemma sample_spool_ok : spool_ok sample_spool.
Proof. apply Append_ok. by split. Qed.

Lemma ack_remembered_witness :
  length (frames (net sample_done)) = 2%nat /\
  forall f, f ∈ frames (net sample_done) -> exists stream next acked g, f_meta f = Some (meta_file stream next acked (ack (f_env f)) g).
Proof.
  split; [vm_compute; done|].
  apply (ack_remembered sample_client sample_hi.1 sample_online sample_done sample_hi.2 10 11 "N" "sid" "iid" sample_hello None sample_welcome sample_ops);
    [apply sample_spool_ok|reflexivity|intros k; reflexivity|vm_compute; discriminate|reflexivity|vm_compute; reflexivity..].
Defined.

(** Two messages are spooled, and the platform's welcome says it has the first. *)
Definition sample_two : Spool := (Spool.Append "match.event" "01B" EmptyString 6 0 "{}" sample_spool).1.
Definition two_hi : Client * bool := begin_session 10 "N" "sid" "iid" sample_hello None (set_spool sample_two sample_client).
Definition resume_welcome : Envelope :=
  {| v := 1; type := "welcome"; id := "w"; seq_ := 0; ack := 0; ts := 1; ref := EmptyString; epoch := 0;
     payload := JObject [("resume", JObject [("platform_last_rx_seq", JInt 1)])] |}.
Definition two_online : Client := default sample_client (welcomed 11 resume_welcome two_hi.2 sample_hello two_hi.1).
Definition two_done : Client := default sample_client (link_run sample_ops two_online).
Lemma sent_once_in_order_witness :
  let c3 := outbound 40 two_done in
  (welcome_acks resume_welcome 1 /\ frame_summary <$> frames (net c3) = [("hello", 0, 0); ("match.event", 2, 0); ("match.event", 3, 1)]) /\
  exists fs, frames (net c3) = frames (net two_hi.1) ++ fs /\ StronglySorted Z.lt (reliable_seqs fs) /\
    Forall (fun q => forall p, welcome_acks resume_welcome p -> Z.min p (lastSeq (spool two_hi.1)) < q) (reliable_seqs fs) /\
    (broken (ses c3) = false -> forall r, r ∈ recs_ (spool c3) -> exists f, f ∈ fs /\ carries r f).
Proof.
  split; [split; [by eapply acks_resume|vm_compute; reflexivity]|].
  apply (sent_once_in_order two_hi.1 two_online two_done 11 40 resume_welcome two_hi.2 sample_hello sample_ops);
    [apply begin_ok, Append_ok, sample_spool_ok|vm_compute; reflexivity..].
Defined.

(** A failed write of the meta file is not noticed: message 1 is acknowledged, and a restart would not
    remember it; the number counts as written, so the next frame does not try again. *)
Definition full_disk (c : Client) : Client :=
  let s := spool c in
  set_spool {| dir_ := dir_ s; limits_ := limits_ s; log_open := log_open s; logBytes_ := logBytes_ s; recs_ := recs_ s; bytes_ := bytes_ s;
               dropped_ := dropped_ s; streamId_ := streamId_ s; nextSeq_ := nextSeq_ s; ackedSeq_ := ackedSeq_ s; rxSeq_ := rxSeq_ s; gap_ := gap_ s;
               metaDirty_ := metaDirty_ s; lastFlushMs_ := lastFlushMs_ s;
               disk := {| log_text := log_text (disk s); meta_text := meta_text (disk s); io := fun _ => Some 0%nat; calls := 0 |} |} c.

Example ack_on_full_disk :
  let c := sendEphemeral 20 "ack" "{}" EmptyString 0 (full_disk (set_rx (ResetRx 1 NewRx) sample_client)) in
  (fun f => (ack (f_env f), f_meta f)) <$> frames (net c) = [(1, None)] /\ persistedRx (ses c) = 1.
Proof. vm_compute. done. Qed.
