(* ===== verification/MiniJson.v ===== *)
(** * The small JSON reader

    [libs/readyup/minijson.{h,cpp}]: the reader of match configs, saved statistics, the whitelist and other
    files.  An object is an association list without duplicate keys: [emplace] keeps the first value of a
    key.  The code's [unordered_map] visits the members in an order of its own; definitions that iterate
    use the order of the text.  There is no limit on the nesting, so fuel is bounded by the text
    ([mini_Parse_total]). *)

From S2P Require Import Prelude CStr Double DoubleFacts Json JsonFacts FleetJson.

(** ** [strtod] and [errno] *)

(** Whether [strtod] reports a range error for [m * 10^e > 0]: the result overflows, or it is tiny (below
    the smallest normal double after rounding to 53 bits) and inexact. *)
Definition tiny_inexact (num den : Z) : bool :=
  (num * 2 ^ 1076 <? (2 ^ 54 - 1) * den) && negb ((num * 2 ^ 1074) mod den =? 0).

Definition dec_range (m ndigits e : Z) : bool :=
  if m =? 0 then false
  else if 400 <? e + ndigits then true
  else if e + ndigits <? -400 then true
  else if 0 <=? e then negb (isfinite (dratio (m * 10 ^ e) 1))
  else negb (isfinite (dratio m (10 ^ (- e)))) || tiny_inexact m (10 ^ (- e)).

(** [errno != 0] after [strtod] of a text with a decimal number at its start, sign removed. *)
Definition decimal_range (s : string) : bool :=
  let '(ip, fp, s2) := scan_point isdigit s in
  let '(e, _) := scan_exp is_e s2 in
  dec_range (digits_val (ip +s+ fp) 0) (slen ip + slen fp) (e - slen fp).

(** The same for [m * 2^e], [m >= 0]. *)
Definition bin_range (m e : Z) : bool :=
  negb (m =? 0) &&
  (negb (isfinite (binary_normalize 53 1024 m e false)) || (if 0 <=? e then false else tiny_inexact m (2 ^ (- e)))).

Definition hex_range (s : string) : bool :=
  let '(ip, fp, s2) := scan_point ishex s in
  let '(e, _) := scan_exp is_p s2 in
  bin_range (hex_digits_val (ip +s+ fp) 0) (Z.max (-5000) (Z.min 5000 e) - 4 * slen fp).

(** [errno == ERANGE] after [strtod] of any text. *)
Definition strtod_range (s : string) : bool :=
  let s := drop_while isspace s in
  let s := match s with String c r => if Ascii.eqb c "-" || Ascii.eqb c "+" then r else s | EmptyString => s end in
  let l := lower s in
  if starts_with "inf" l || starts_with "nan" l then false
  else match s with
       | String z (String x r) =>
           if Ascii.eqb z "0" && is_x x && match scan_hex false r with Some _ => true | None => false end then hex_range r else decimal_range s
       | _ => decimal_range s
       end.

(** [std::stoi], [std::stoull] and [std::stod]; [None] is an exception. *)
Definition stoi (s : string) : option Z :=
  '(v, _) ← scan_int s; if (-2147483648 <=? v) && (v <=? 2147483647) then Some v else None.
Definition stoull (s : string) : option Z :=
  '(v, _) ← scan_int s; if Z.abs v <=? 18446744073709551615 then Some (v mod 18446744073709551616) else None.
Definition stod (s : string) : option double :=
  if strtod_range s then None else fst <$> scan_double s.

(** ** Values *)

Inductive mval :=
  | MNull | MBool (b : bool) | MNumber (num : double) | MString (str : string)
  | MObject (obj : list (string * mval)) | MArray (arr : list mval).

Fixpoint obj_find (key : string) (obj : list (string * mval)) : option mval :=
  match obj with [] => None | (k, v) :: r => if k =s key then Some v else obj_find key r end.

Definition mget (v : mval) (key : string) : option mval := match v with MObject o => obj_find key o | _ => None end.

Definition mIsObject (v : option mval) : bool := match v with Some (MObject _) => true | _ => false end.
Definition mAsString (v : option mval) : option string := match v with Some (MString s) => Some s | _ => None end.

(** [static_cast<int64_t>(v->num)]: the outer [option] is [None] where the conversion is undefined. *)
Definition cast_int64 (d : double) : option Z :=
  z ← dtrunc d; if (-9223372036854775808 <=? z) && (z <=? 9223372036854775807) then Some z else None.
Definition mAsInt (v : option mval) : option (option Z) :=
  match v with Some (MNumber d) => Some <$> cast_int64 d | _ => Some None end.

(** [emplace]: a key that is there already keeps its value. *)
Definition emplace (key : string) (v : mval) (obj : list (string * mval)) : list (string * mval) :=
  match obj_find key obj with Some _ => obj | None => obj ++ [(key, v)] end.

(** ** Parsing *)

Inductive mres (A : Type) := MOk (a : A) (rest : string) | MFail | MFuel.
Arguments MOk {A} _ _.
Arguments MFail {A}.
Arguments MFuel {A}.

Definition skipWs (s : string) : string := drop_while is_ws s.

Definition parseLiteral (lit s : string) : option string := if starts_with lit s then Some (sdrop (String.length lit) s) else None.

(** Four hexadecimal digits. *)
Fixpoint hex4 (n : nat) (code : Z) (s : string) : option (Z * string) :=
  match n with
  | O => Some (code, s)
  | S n =>
      match s with
      | String h r => v ← hex_val h; hex4 n (Z.lor (Z.shiftl code 4) v) r
      | EmptyString => None
      end
  end.

Definition simple_escape (e : ascii) : option ascii :=
  if Ascii.eqb e dquote then Some dquote else if Ascii.eqb e backslash then Some backslash
  else if Ascii.eqb e "/" then Some "/"%char else if Ascii.eqb e "b" then Some "008"%char
  else if Ascii.eqb e "f" then Some "012"%char else if Ascii.eqb e "n" then Some newline
  else if Ascii.eqb e "r" then Some creturn else if Ascii.eqb e "t" then Some tab else None.

(** The characters after the opening quote; every round consumes one. *)
Fixpoint string_loop (fuel : nat) (out : string) (s : string) : mres string :=
  match fuel with
  | O => MFuel
  | S fuel =>
      match s with
      | EmptyString => MFail
      | String c r =>
          if Ascii.eqb c dquote then MOk out r
          else if Ascii.eqb c backslash then
            match r with
            | EmptyString => MFail
            | String e r2 =>
                if Ascii.eqb e "u" then
                  match hex4 4 0 r2 with
                  | Some (code, r3) => string_loop fuel (out +s+ str1 (if code <=? 127 then chr code else "?"%char)) r3
                  | None => MFail
                  end
                else match simple_escape e with Some d => string_loop fuel (out +s+ str1 d) r2 | None => MFail end
            end
          else string_loop fuel (out +s+ str1 c) r
      end
  end.

Definition parseString (s : string) : mres string :=
  match s with
  | String c r => if Ascii.eqb c dquote then string_loop (S (String.length r)) EmptyString r else MFail
  | EmptyString => MFail
  end.

(** The characters of a number: sign, digits, fraction, exponent (both of them may be empty). *)
Definition take_sign (signs : ascii -> bool) (s : string) : string * string :=
  match s with String c r => if signs c then (str1 c, r) else (EmptyString, s) | EmptyString => (EmptyString, s) end.
Definition is_minus (c : ascii) : bool := Ascii.eqb c "-".
Definition is_sign (c : ascii) : bool := Ascii.eqb c "+" || Ascii.eqb c "-".
Definition is_point (c : ascii) : bool := Ascii.eqb c ".".
Definition is_exp (c : ascii) : bool := Ascii.eqb c "e" || Ascii.eqb c "E".

Definition parseNumber (s : string) : mres double :=
  let '(sg, s1) := take_sign is_minus s in
  let '(ip, s2) := span isdigit s1 in
  if sempty ip then MFail
  else
    let '(dot, s3) := take_sign is_point s2 in
    let '(fp, s4) := if sempty dot then (EmptyString, s3) else span isdigit s3 in
    let '(ex, s5) := take_sign is_exp s4 in
    let '(es, s6) := if sempty ex then (EmptyString, s5) else take_sign is_sign s5 in
    let '(ed, s7) := if sempty ex then (EmptyString, s6) else span isdigit s6 in
    let body := ip +s+ dot +s+ fp +s+ ex +s+ es +s+ ed in
    if decimal_range body then MFail
    else match scan_double (sg +s+ body) with Some (d, _) => MOk d s7 | None => MFail end.

(** [parseValue], and the loops of [parseObject] and [parseArray] after a member's separator. *)
Fixpoint parseValue (fuel : nat) (s0 : string) : mres mval :=
  match fuel with
  | O => MFuel
  | S fuel =>
      let s := skipWs s0 in
      match s with
      | EmptyString => MFail
      | String c r =>
          if Ascii.eqb c nul then MFail
          else if Ascii.eqb c dquote then match parseString s with MOk t r => MOk (MString t) r | MFail => MFail | MFuel => MFuel end
          else if Ascii.eqb c "{" then
            match skipWs r with
            | String d r2 => if Ascii.eqb d "}" then MOk (MObject []) r2 else parseMembers fuel [] (String d r2)
            | EmptyString => MFail
            end
          else if Ascii.eqb c "[" then
            match skipWs r with
            | String d r2 => if Ascii.eqb d "]" then MOk (MArray []) r2 else parseItems fuel [] (String d r2)
            | EmptyString => MFail
            end
          else if Ascii.eqb c "t" then match parseLiteral "true" s with Some r => MOk (MBool true) r | None => MFail end
          else if Ascii.eqb c "f" then match parseLiteral "false" s with Some r => MOk (MBool false) r | None => MFail end
          else if Ascii.eqb c "n" then match parseLiteral "null" s with Some r => MOk MNull r | None => MFail end
          else match parseNumber s with MOk d r => MOk (MNumber d) r | MFail => MFail | MFuel => MFuel end
      end
  end
with parseMembers (fuel : nat) (obj : list (string * mval)) (s0 : string) : mres mval :=
  match fuel with
  | O => MFuel
  | S fuel =>
      match parseString (skipWs s0) with
      | MOk key s1 =>
          match skipWs s1 with
          | String c s2 =>
              if negb (Ascii.eqb c ":") then MFail
              else
                match parseValue fuel (skipWs s2) with
                | MOk v s3 =>
                    match skipWs s3 with
                    | String d s4 =>
                        if Ascii.eqb d "}" then MOk (MObject (emplace key v obj)) s4
                        else if Ascii.eqb d "," then parseMembers fuel (emplace key v obj) s4
                        else MFail
                    | EmptyString => MFail
                    end
                | MFail => MFail
                | MFuel => MFuel
                end
          | EmptyString => MFail
          end
      | MFail => MFail
      | MFuel => MFuel
      end
  end
with parseItems (fuel : nat) (arr : list mval) (s0 : string) : mres mval :=
  match fuel with
  | O => MFuel
  | S fuel =>
      match parseValue fuel (skipWs s0) with
      | MOk v s1 =>
          match skipWs s1 with
          | String d s2 =>
              if Ascii.eqb d "]" then MOk (MArray (arr ++ [v])) s2
              else if Ascii.eqb d "," then parseItems fuel (arr ++ [v]) s2
              else MFail
          | EmptyString => MFail
          end
      | MFail => MFail
      | MFuel => MFuel
      end
  end.

(** The error of [Parse] is a message and the offset where the reader stopped; the offset is where the
    deepest function gave up, which is not modelled: callers use it in a log line only. *)
Inductive mini_result := MiniOk (v : mval) | MiniError (msg : string) | MiniFuel.

Definition mini_Parse (json : string) : mini_result :=
  match parseValue (2 * String.length json + 2) json with
  | MOk v r => if sempty (skipWs r) then MiniOk v else MiniError "trailing characters"
  | MFail => MiniError "parse error"
  | MFuel => MiniFuel
  end.

Example mini_sample :
  mini_Parse (qs " {`a`: [1, -2.5e1, true], `b`:{`c`:null}, `a`: 7, `x`:`\u0041\u00e9\n` } ") =
  MiniOk (MObject [("a", MArray [MNumber (of_int 1); MNumber (of_int (-25)); MBool true]); ("b", MObject [("c", MNull)]);
                   ("x", MString (String "A" (String "?" (str1 newline))))]).
Proof. vm_compute. reflexivity. Qed.
Example mini_lenient :
  mini_Parse "[1., 01, 2e]" = MiniOk (MArray [MNumber (of_int 1); MNumber (of_int 1); MNumber (of_int 2)]) /\
  mini_Parse "[1e400]" = MiniError "parse error" /\ mini_Parse "[1]]" = MiniError "trailing characters".
Proof. vm_compute. done. Qed.

(** * Theorems about the small JSON reader

    It answers on every text, and reads back what the status writer prints. *)

(** ** It always answers *)

Definition mwithin {A} (n : nat) (r : mres A) : Prop :=
  match r with MFuel => False | MOk _ rest => (String.length rest <= n)%nat | MFail => True end.

Lemma skipWs_length s : (String.length (skipWs s) <= String.length s)%nat.
Proof. apply drop_while_length. Qed.

Lemma hex4_length n : forall code s v r, hex4 n code s = Some (v, r) -> (String.length r <= String.length s)%nat.
Proof.
  induction n as [|n IH]; intros code s v r; cbn; [by intros [= _ <-]|]. destruct s as [|h s]; [done|].
  destruct (hex_val h); [|done]. cbn. intros H%IH. lia.
Qed.

Lemma string_loop_within fuel : forall out s, (String.length s < fuel)%nat -> mwithin (String.length s - 1) (string_loop fuel out s).
Proof.
  induction fuel as [|fuel IH]; intros out s Hf; [lia|]. destruct s as [|c s]; cbn [string_loop]; [done|]. cbn [String.length] in *.
  assert (forall o t, (String.length t <= String.length s)%nat -> mwithin (S (String.length s) - 1) (string_loop fuel o t)) as Hr.
  { intros o t Ht. specialize (IH o t ltac:(lia)). destruct (string_loop fuel o t); cbn in *; try done. lia. }
  case_if; [cbn; lia|]. case_if; [|by apply Hr]. destruct s as [|e r2]; [done|]. cbn [String.length] in *. case_if.
  - destruct (hex4 4 0 r2) as [[code r3]|] eqn:E; [|done]. apply hex4_length in E. apply Hr. lia.
  - destruct (simple_escape e); [|done]. apply Hr. lia.
Qed.

Lemma parseString_within s : mwithin (String.length s - 1) (parseString s).
Proof.
  destruct s as [|c s]; cbn [parseString]; [done|]. case_if; [|done]. cbn [String.length].
  pose proof (string_loop_within (S (String.length s)) EmptyString s ltac:(lia)) as H. destruct (string_loop _ _ _); cbn in *; try done. lia.
Qed.

Lemma take_sign_length f s : (String.length (take_sign f s).2 <= String.length s)%nat.
Proof. destruct s as [|c s]; cbn; [lia|]. case_if; cbn; lia. Qed.

Lemma parseNumber_within s : mwithin (String.length s - 1) (parseNumber s).
Proof.
  unfold parseNumber. pose proof (take_sign_length is_minus s) as H1. destruct (take_sign is_minus s) as [sg s1]. cbn in H1.
  pose proof (span_length isdigit s1) as [_ H2]. destruct (span isdigit s1) as [ip s2]. cbn in H2.
  destruct (sempty ip); [done|]. specialize (H2 eq_refl).
  pose proof (take_sign_length is_point s2) as H3. destruct (take_sign is_point s2) as [dot s3]. cbn in H3.
  assert (forall f x t, let '(_, r) := if sempty x then (EmptyString, t) else span f t in (String.length r <= String.length t)%nat) as Hs.
  { intros f x t. pose proof (span_length f t) as [H _]. destruct (sempty x); [lia|]. by destruct (span f t). }
  pose proof (Hs isdigit dot s3) as H4. destruct (if sempty dot then _ else _) as [fp s4].
  pose proof (take_sign_length is_exp s4) as H5. destruct (take_sign is_exp s4) as [ex s5]. cbn in H5.
  assert (let '(_, r) := if sempty ex then (EmptyString, s5) else take_sign is_sign s5 in (String.length r <= String.length s5)%nat) as H6.
  { pose proof (take_sign_length is_sign s5) as H. destruct (sempty ex); [lia|]. by destruct (take_sign is_sign s5). }
  destruct (if sempty ex then _ else take_sign _ _) as [es s6]. pose proof (Hs isdigit ex s6) as H7. destruct (if sempty ex then _ else _) as [ed s7].
  case_if; [done|]. destruct (scan_double _) as [[d ?]|]; [|done]. cbn. lia.
Qed.

Lemma parseLiteral_length lit s r : parseLiteral lit s = Some r -> (String.length r <= String.length s - String.length lit)%nat.
Proof. unfold parseLiteral. case_if; [|done]. intros [= <-]. rewrite sdrop_length. lia. Qed.

Lemma parse_within fuel :
  (forall s, (2 * String.length s + 1 <= fuel)%nat -> mwithin (String.length s - 1) (parseValue fuel s)) /\
  (forall obj s, (2 * String.length s + 2 <= fuel)%nat -> mwithin (String.length s - 1) (parseMembers fuel obj s)) /\
  (forall arr s, (2 * String.length s + 2 <= fuel)%nat -> mwithin (String.length s - 1) (parseItems fuel arr s)).
Proof.
  assert (forall A n m (r : mres A), mwithin n r -> (n <= m)%nat -> mwithin m r) as Hmono by (intros A n m []; cbn; auto; lia).
  induction fuel as [|fuel (IHv & IHm & IHi)]; [split_and!; intros; lia|]. split_and!.
  - intros s Hf. cbn [parseValue]. pose proof (skipWs_length s) as Hw. destruct (skipWs s) as [|c r] eqn:Es; [done|]. cbn [String.length] in Hw.
    case_if; [done|]. case_if.
    { pose proof (parseString_within (String c r)) as H. destruct (parseString _); cbn in *; try done. lia. }
    pose proof (skipWs_length r) as Hr. case_if; [|case_if].
    + destruct (skipWs r) as [|d r2]; [done|]. cbn [String.length] in Hr. case_if; [cbn; lia|].
      eapply Hmono; [apply IHm; cbn; lia|cbn; lia].
    + destruct (skipWs r) as [|d r2]; [done|]. cbn [String.length] in Hr. case_if; [cbn; lia|].
      eapply Hmono; [apply IHi; cbn; lia|cbn; lia].
    + assert (forall lit (v : mval), (0 < String.length lit)%nat -> mwithin (String.length s - 1) (match parseLiteral lit (String c r) with Some r => MOk v r | None => MFail end)) as Hlit.
      { intros lit v Hl. destruct (parseLiteral lit (String c r)) eqn:E; [|done]. apply parseLiteral_length in E. cbn in *. lia. }
      case_if; [apply Hlit; cbn; lia|]. case_if; [apply Hlit; cbn; lia|]. case_if; [apply Hlit; cbn; lia|].
      pose proof (parseNumber_within (String c r)) as H. destruct (parseNumber _); cbn in *; try done. lia.
  - intros obj s Hf. cbn [parseMembers]. pose proof (skipWs_length s) as Hw. pose proof (parseString_within (skipWs s)) as Hs.
    destruct (parseString (skipWs s)) as [key s1| |]; cbn in Hs; try done. pose proof (skipWs_length s1) as H1.
    destruct (skipWs s1) as [|c s2]; [done|]. cbn [String.length] in H1. case_if; [done|].
    pose proof (skipWs_length s2) as H2. specialize (IHv (skipWs s2) ltac:(lia)). destruct (parseValue fuel (skipWs s2)) as [v s3| |]; cbn in IHv; try done.
    pose proof (skipWs_length s3) as H3. destruct (skipWs s3) as [|d s4]; [done|]. cbn [String.length] in H3.
    case_if; [cbn; lia|]. case_if; [|done]. eapply Hmono; [apply IHm; lia|lia].
  - intros arr s Hf. cbn [parseItems]. pose proof (skipWs_length s) as Hw. specialize (IHv (skipWs s) ltac:(lia)).
    destruct (parseValue fuel (skipWs s)) as [v s1| |]; cbn in IHv; try done.
    pose proof (skipWs_length s1) as H1. destruct (skipWs s1) as [|d s2]; [done|]. cbn [String.length] in H1.
    case_if; [cbn; lia|]. case_if; [|done]. eapply Hmono; [apply IHi; lia|lia].
Qed.

Lemma mini_Parse_total json : mini_Parse json <> MiniFuel.
Proof.
  unfold mini_Parse. destruct (parse_within (2 * String.length json + 2)) as [H _]. specialize (H json ltac:(lia)).
  destruct (parseValue _ json); cbn in H; [|done..]. by case_if.
Qed.

(** ** It reads what the status writer prints *)

Definition all_vals (f : Json -> mval) : list (string * Json) -> list (string * mval) :=
  fix go (o : list (string * Json)) : list (string * mval) := match o with [] => [] | kv :: o => (kv.1, f kv.2) :: go o end.
Definition all_elems (f : Json -> mval) : list Json -> list mval :=
  fix go (a : list Json) : list mval := match a with [] => [] | v :: a => f v :: go a end.

(** The same value in the reader's representation. *)
Fixpoint mini (j : Json) : mval :=
  match j with
  | JNull => MNull
  | JBool b => MBool b
  | JInt i => MNumber (of_int i)
  | JDouble d => MNumber d
  | JString s => MString s
  | JObject o => MObject (all_vals mini o)
  | JArray a => MArray (all_elems mini a)
  end.

(** Integers that a double holds. *)
Definition int53_ok (i : Z) : Prop := - 2 ^ 53 < i < 2 ^ 53.
#[export] Instance int53_dec i : Decision (int53_ok i).
Proof. unfold int53_ok. apply _. Defined.
Fixpoint small (j : Json) : bool :=
  match j with
  | JInt i => bool_decide (int53_ok i)
  | JObject o => all_members small o
  | JArray a => all_items small a
  | _ => true
  end.

Lemma string_loop_escape f c r out : string_loop (S f) out (escape_char c +s+ r) = string_loop f (out +s+ str1 c) r.
Proof. destruct c as [[] [] [] [] [] [] [] []]; reflexivity. Qed.

Lemma string_loop_body f s r out : (String.length (escape_body s) < f)%nat ->
  string_loop f out (escape_body s +s+ String dquote r) = MOk (out +s+ s) r.
Proof.
  revert f out. induction s as [|c s IH]; intros f out Hf; cbn [escape_body] in *.
  - destruct f as [|f]; [cbn in Hf; lia|]. cbn. by rewrite app_nil_s.
  - rewrite length_app_s in Hf. pose proof (escape_char_length c).
    destruct f as [|f]; [lia|]. rewrite app_assoc_s, string_loop_escape, IH by lia. by rewrite app_assoc_s.
Qed.

Lemma parseString_escape s r : parseString (JsonEscape s +s+ r) = MOk s r.
Proof.
  unfold JsonEscape, parseString. rewrite app_cons_s, app_assoc_s. cbn [str1 String.append Ascii.eqb dquote Bool.eqb].
  apply (string_loop_body _ s r EmptyString). rewrite length_app_s. lia.
Qed.

(** [strtod] on a run of digits with an optional sign. *)
Lemma isdigit_lower c : isdigit c = true -> tolower c = c /\ is_x c = false /\ is_e c = false /\ Ascii.eqb c "i" = false /\ Ascii.eqb c "n" = false.
Proof. destruct c as [[] [] [] [] [] [] [] []]; vm_compute; intros; try discriminate; done. Qed.

Lemma scan_decimal_digits neg ds : sforall isdigit ds = true -> sempty ds = false ->
  scan_decimal neg ds = Some (dec_double neg (digits_val ds 0) (slen ds) 0, EmptyString).
Proof.
  intros Hd He. unfold scan_decimal, scan_point. rewrite <- (app_nil_s ds) at 1. rewrite span_app by done. cbn. rewrite He. cbn.
  rewrite app_nil_s. do 3 f_equal. unfold slen. cbn. lia.
Qed.

Lemma scan_double_digits (neg : bool) ds : sforall isdigit ds = true -> sempty ds = false ->
  scan_double ((if neg then "-" else EmptyString) +s+ ds) = Some (dec_double neg (digits_val ds 0) (slen ds) 0, EmptyString).
Proof.
  intros Hd He. rewrite <- (scan_decimal_digits neg ds Hd He). destruct ds as [|c r]; [done|]. cbn in Hd. apply andb_prop in Hd as [Hc Hd].
  destruct (isdigit_not_sign c Hc) as (Hm & Hp & Hw), (isdigit_lower c Hc) as (Hl & Hx & _ & Hi & Hn).
  assert (match r with String x r' => if Ascii.eqb c "0" && is_x x then match scan_hex neg r' with Some res => Some res | None => scan_decimal neg (String c r) end
    else scan_decimal neg (String c r) | EmptyString => scan_decimal neg (String c r) end = scan_decimal neg (String c r)) as Hgo.
  { destruct r as [|x r]; [done|]. cbn in Hd. apply andb_prop in Hd as [Hx' _]. destruct (isdigit_lower x Hx') as (_ & -> & _). by rewrite andb_false_r. }
  unfold scan_double. destruct neg; cbn [String.append drop_while]; [change (isspace "-") with false; cbn [Ascii.eqb Bool.eqb]|rewrite Hw, Hm, Hp];
    cbn [lower smap starts_with]; rewrite Hl, (Ascii.eqb_sym "i"), (Ascii.eqb_sym "n"), Hi, Hn; exact Hgo.
Qed.

Lemma digits_val_nonneg ds : sforall isdigit ds = true -> forall acc, 0 <= acc -> 0 <= digits_val ds acc.
Proof.
  induction ds as [|c ds IH]; intros Hd acc Ha; [done|]. cbn in Hd |- *. apply andb_prop in Hd as [Hc Hd]. apply IH; [done|].
  unfold isdigit, digit_val in *. split_bools. lia.
Qed.

Lemma digits_val_upper ds : sforall isdigit ds = true -> forall acc, 0 <= acc -> digits_val ds acc < (acc + 1) * 10 ^ slen ds.
Proof.
  induction ds as [|c ds IH]; intros Hd acc Ha; [unfold slen; cbn; lia|]. cbn in Hd |- *. apply andb_prop in Hd as [Hc Hd].
  assert (0 <= digit_val c <= 9) as Hv by (unfold isdigit, digit_val in *; split_bools; lia).
  specialize (IH Hd (10 * acc + digit_val c) ltac:(lia)). replace (slen (String c ds)) with (1 + slen ds) by (unfold slen; cbn [String.length]; lia).
  rewrite Z.pow_add_r by (unfold slen; lia). pose proof (Z.pow_pos_nonneg 10 (slen ds) ltac:(lia) ltac:(unfold slen; lia)). nia.
Qed.

(** An integer prints as a sign and a short run of digits of its magnitude. *)
Lemma to_string_parts i : exists ds, sforall isdigit ds = true /\ sempty ds = false /\ digits_val ds 0 = Z.abs i /\
  to_string i = (if i <? 0 then "-" else EmptyString) +s+ ds /\ (int53_ok i -> slen ds <= 16).
Proof.
  assert (forall n, 0 <= n < 2 ^ 53 -> slen (dec_nonneg n) <= 16) as Hlen.
  { intros n Hn. unfold slen, dec_nonneg. pose proof (dec_aux_length 16 (S (Z.to_nat (Z.log2 n))) n EmptyString ltac:(lia) ltac:(cbn; lia)) as H.
    cbn [String.length] in H. lia. }
  unfold to_string, int53_ok. destruct (Z.ltb_spec i 0).
  - destruct (dec_nonneg_spec (- i) ltac:(lia)) as (H1 & H2 & H3). exists (dec_nonneg (- i)). split_and!; [done|done|lia|done|]. intros. apply Hlen. lia.
  - destruct (dec_nonneg_spec i ltac:(lia)) as (H1 & H2 & H3). exists (dec_nonneg i). split_and!; [done|done|lia|done|]. intros. apply Hlen. lia.
Qed.

Lemma decimal_range_digits ds : sforall isdigit ds = true -> sempty ds = false -> digits_val ds 0 < 2 ^ 53 -> slen ds <= 400 -> decimal_range ds = false.
Proof.
  intros Hd He Hv Hl. pose proof (digits_val_nonneg ds Hd 0 ltac:(lia)) as H0. unfold decimal_range, scan_point.
  rewrite <- (app_nil_s ds) at 1. rewrite span_app by done. cbn. rewrite app_nil_s. unfold dec_range.
  destruct (digits_val ds 0 =? 0) eqn:Ez; [done|]. split_bools. replace (slen EmptyString) with 0 by done. rewrite Z.add_0_r, Z.sub_0_r, Z.add_0_l.
  replace (400 <? slen ds) with false by (symmetry; apply Z.ltb_ge; lia).
  replace (slen ds <? -400) with false by (symmetry; apply Z.ltb_ge; unfold slen; lia). cbn [Z.leb Z.compare].
  rewrite Z.pow_0_r, Z.mul_1_r, dratio_of_int, of_int_finite by lia. done.
Qed.

Lemma num_char_parts c : is_num_char c = false -> isdigit c = false /\ is_point c = false /\ is_exp c = false.
Proof.
  unfold is_num_char, is_point, is_exp. intros H. repeat (apply orb_false_elim in H as [H ?]). split_and!; try done.
  by apply orb_false_intro.
Qed.

Lemma parseNumber_int i rest : int53_ok i -> stops is_num_char rest -> parseNumber (to_string i +s+ rest) = MOk (of_int i) rest.
Proof.
  intros Hi Hr. destruct (to_string_parts i) as (ds & Hd & He & Hv & Et & Hl). specialize (Hl Hi). unfold int53_ok in Hi.
  assert (take_sign is_minus (to_string i +s+ rest) = ((if i <? 0 then "-" else EmptyString), ds +s+ rest)) as E1.
  { rewrite Et. destruct (i <? 0); [done|]. cbn. destruct ds as [|c r]; [done|]. cbn in Hd |- *. apply andb_prop in Hd as [Hc _].
    destruct (isdigit_not_sign c Hc) as (Hm & _). unfold is_minus. by rewrite Hm. }
  assert (stops isdigit rest /\ take_sign is_point rest = (EmptyString, rest) /\ take_sign is_exp rest = (EmptyString, rest)) as (Hs & E2 & E3).
  { destruct rest as [|c r]; [done|]. cbn in Hr |- *. destruct (num_char_parts c Hr) as (-> & -> & ->). done. }
  unfold parseNumber. rewrite E1, span_app, He, E2 by done. cbn [sempty]. rewrite E3. cbn [sempty]. cbn [String.append]. rewrite app_nil_s.
  rewrite decimal_range_digits by (try done; lia). rewrite scan_double_digits by done. rewrite Hv, dec_double_int by (unfold slen in *; lia). f_equal.
  destruct (Z.ltb_spec i 0); destruct (Z.eqb_spec (Z.abs i) 0); try lia; [f_equal; lia| |f_equal; lia]. by replace i with 0 by lia.
Qed.

(** *** Members and elements *)

Definition mreads (v : Json) : Prop := forall fuel rest, stops is_num_char rest ->
  (2 * String.length (Dump v +s+ rest) + 1 <= fuel)%nat -> parseValue fuel (Dump v +s+ rest) = MOk (mini v) rest.

Lemma obj_find_fresh k (o : list (string * mval)) : k ∉ o.*1 -> obj_find k o = None.
Proof.
  induction o as [|[k' v] o IH]; cbn; [done|]. intros Hk. destruct (String.eqb_spec k' k) as [->|]; [set_solver|]. apply IH. set_solver.
Qed.

Lemma all_vals_keys o : (all_vals mini o).*1 = keys o.
Proof. unfold keys. induction o as [|[k v] o IH]; [done|]. cbn. by rewrite IH. Qed.

Lemma skipWs_stops s : stops is_ws s -> skipWs s = s.
Proof. apply drop_while_id. Qed.

Lemma Dump_skip v rest : plain v = true -> skipWs (Dump v +s+ rest) = Dump v +s+ rest.
Proof. intros Hp. apply skipWs_stops. destruct (Dump_head v Hp) as (c & s & E & Hw & _). by rewrite E. Qed.

Lemma Dump_length v : plain v = true -> (1 <= String.length (Dump v))%nat.
Proof. intros Hp. destruct (Dump_head v Hp) as (c & s & -> & _). cbn. lia. Qed.

Lemma parseMembers_Dump o : forall k v acc fuel rest,
  Forall (fun kv => mreads kv.2 /\ plain kv.2 = true) ((k, v) :: o) -> NoDup (acc.*1 ++ keys ((k, v) :: o)) ->
  (2 * String.length (dump_members Dump true ((k, v) :: o) +s+ rest) + 2 <= fuel)%nat ->
  parseMembers fuel acc (dump_members Dump true ((k, v) :: o) +s+ rest) = MOk (MObject (acc ++ all_vals mini ((k, v) :: o))) rest.
Proof.
  induction o as [|[k' v'] o IH]; intros k v acc fuel rest [[Hv Hp] Hr]%list.Forall_cons Hnd Hf; (destruct fuel as [|fuel]; [lia|]);
    rewrite dump_members_first in Hf |- *; cbn [parseMembers]; cbn in Hv, Hp;
    (rewrite skipWs_stops by done); rewrite parseString_escape; (rewrite skipWs_stops by done); cbn [Ascii.eqb Bool.eqb negb];
    rewrite length_app_s in Hf; cbn [String.length] in Hf;
    (assert (k ∉ acc.*1) as Hk by (cbn in Hnd; apply NoDup_app in Hnd as (_ & H & _); intros Hin; apply (H k Hin); left));
    rewrite Dump_skip by done; (rewrite Hv by (first [apply stops_member_end | lia]));
    unfold emplace; rewrite (obj_find_fresh k acc Hk).
  - done.
  - rewrite dump_members_more, app_cons_s, skipWs_stops by done. cbn [Ascii.eqb Bool.eqb].
    rewrite IH; [by rewrite <- app_assoc|done| |].
    + rewrite fmap_app, <- app_assoc. exact Hnd.
    + rewrite dump_members_more in Hf. rewrite length_app_s in Hf. cbn in Hf |- *. lia.
Qed.

Lemma parseItems_Dump a : forall v acc fuel rest,
  Forall (fun v => mreads v /\ plain v = true) (v :: a) -> (2 * String.length (dump_items Dump true (v :: a) +s+ rest) + 2 <= fuel)%nat ->
  parseItems fuel acc (dump_items Dump true (v :: a) +s+ rest) = MOk (MArray (acc ++ all_elems mini (v :: a))) rest.
Proof.
  induction a as [|v' a IH]; intros v acc fuel rest [[Hv Hp] Hr]%list.Forall_cons Hf; (destruct fuel as [|fuel]; [lia|]);
    rewrite dump_items_first in Hf |- *; cbn [parseItems]; (rewrite Dump_skip by done);
    (rewrite Hv by (first [apply stops_item_end | lia])).
  - done.
  - rewrite dump_items_more, app_cons_s, skipWs_stops by done. cbn [Ascii.eqb Bool.eqb].
    rewrite IH; [by rewrite <- app_assoc|done|]. rewrite dump_items_more in Hf. rewrite length_app_s in Hf.
    pose proof (Dump_length v Hp). cbn in Hf |- *. lia.
Qed.

Lemma parseValue_num fuel c s : isdigit c = true \/ c = "-"%char ->
  parseValue (S fuel) (String c s) = match parseNumber (String c s) with MOk d r => MOk (MNumber d) r | MFail => MFail | MFuel => MFuel end.
Proof.
  intros Hc.
  assert (is_ws c = false /\ Ascii.eqb c "{"%char = false /\ Ascii.eqb c "["%char = false /\ Ascii.eqb c nul = false /\
          Ascii.eqb c dquote = false /\ Ascii.eqb c "t"%char = false /\ Ascii.eqb c "f"%char = false /\
          Ascii.eqb c "n"%char = false) as (Hw & H1 & H2 & H0 & H3 & H4 & H5 & H6).
  { destruct Hc as [Hc| ->]; [|done]. unfold isdigit in Hc. unfold is_ws. rewrite !ascii_eqb_code. code_consts. lia. }
  cbn [parseValue]. rewrite skipWs_stops by done. by rewrite H0, H1, H2, H3, H4, H5, H6.
Qed.

Lemma parseValue_Dump j : plain j = true -> small j = true -> mreads j.
Proof.
  induction j as [|b|i|x|s|o IH|a IH] using json_nested_ind; intros Hp Hs fuel rest Hrest Hf;
    (destruct fuel as [|fuel]; [lia|]).
  - done.
  - by destruct b.
  - cbn in Hs. apply bool_decide_eq_true in Hs. destruct (to_string_chars i) as (c & s & E & Hc & _). cbn [Dump].
    pose proof (parseNumber_int i rest Hs Hrest) as Hn. rewrite E, app_cons_s in Hn |- *. by rewrite parseValue_num, Hn.
  - done.
  - cbn [parseValue Dump]. rewrite skipWs_stops by done. unfold JsonEscape at 1. rewrite app_cons_s.
    cbn [Ascii.eqb Bool.eqb dquote nul]. by rewrite parseString_escape.
  - cbn in Hp, Hs. apply andb_prop in Hp as [Hnd Hp]. apply bool_decide_eq_true in Hnd. rewrite all_members_forall in Hp, Hs.
    assert (Forall (fun kv => mreads kv.2 /\ plain kv.2 = true) o) as Hr by (rewrite !Forall_forall in *; auto).
    destruct o as [|[k v] o]; [done|]. cbn [Dump parseValue]. cbn [Dump] in Hf. rewrite app_cons_s in Hf |- *. rewrite skipWs_stops by done. cbn [Ascii.eqb Bool.eqb nul dquote].
    rewrite skipWs_stops by done. pose proof (parseMembers_Dump o k v [] fuel rest Hr Hnd) as Hm. cbn [String.length] in Hf.
    specialize (Hm ltac:(lia)). revert Hm. rewrite dump_members_first. unfold JsonEscape at 1 2. rewrite app_cons_s. done.
  - cbn in Hp, Hs. rewrite all_items_forall in Hp, Hs.
    assert (Forall (fun v => mreads v /\ plain v = true) a) as Hr by (rewrite !Forall_forall in *; auto).
    destruct a as [|v a]; [done|]. destruct (Dump_head v) as (c & s & E & Hw & Hc); [by apply list.Forall_cons in Hp as [? _]|].
    cbn [Dump parseValue]. cbn [Dump] in Hf. rewrite app_cons_s in Hf |- *. rewrite skipWs_stops by done. cbn [Ascii.eqb Bool.eqb nul dquote].
    pose proof (parseItems_Dump a v [] fuel rest Hr) as Hm. cbn [String.length] in Hf. specialize (Hm ltac:(lia)). revert Hm.
    rewrite dump_items_first, E, app_cons_s. rewrite skipWs_stops by done. by rewrite Hc.
Qed.

(** The reader on a whole text of the writer. *)
Lemma mini_Parse_Dump j : plain j = true -> small j = true -> mini_Parse (Dump j) = MiniOk (mini j).
Proof.
  intros Hp Hs. unfold mini_Parse. pose proof (parseValue_Dump j Hp Hs (2 * String.length (Dump j) + 2)%nat EmptyString I) as H.
  rewrite app_nil_s in H. rewrite H by lia. done.
Qed.

(** Claim C35.  The reader terminates with an answer on every text (no nesting limit, so its fuel is bounded by the
    length of the text, which is enough), and it reads every text that the status writer prints for a value
    without doubles, with distinct keys and integers below 2^53, as that value. *)
Theorem minijson_reads (j : Json) :
  (forall text, mini_Parse text <> MiniFuel) /\
  (plain j = true -> small j = true -> mini_Parse (Dump j) = MiniOk (mini j)).
Proof. split; [apply mini_Parse_total|apply mini_Parse_Dump]. Qed.

Lemma minijson_reads_witness : mini_Parse (Dump sample_status) = MiniOk (mini sample_status).
Proof. apply (minijson_reads sample_status); vm_compute; reflexivity. Defined.
