(* ===== verification/Broadcast.v ===== *)
(** * The broadcast profile

    [libs/readyup/broadcast_profile.{h,cpp}]: the GOTV settings of a match or server, how they are read, merged
    and turned into cvars, and the check of a match's config.  [None] of an [option] around a result is an
    undefined conversion of a number; an error is a text. *)

From S2P Require Import Prelude CStr Double DoubleFacts Json JsonFacts MiniJson.

Module Bc.

Inductive Key := Delay | Insecure | MaxClients | TextChat | Voice.
#[export] Instance Key_eq_dec : EqDecision Key.
Proof. solve_decision. Defined.
Definition AllKeys : list Key := [Delay; Insecure; MaxClients; TextChat; Voice].

Definition KeyName (k : Key) : string :=
  match k with
  | Delay => "delay_seconds" | Insecure => "allow_insecure_observers" | MaxClients => "max_clients"
  | TextChat => "relay_text_chat" | Voice => "relay_voice"
  end.

Definition kAliases : list (string * Key) :=
  [("delay_seconds", Delay); ("delay", Delay); ("allow_insecure_observers", Insecure); ("insecure", Insecure); ("max_clients", MaxClients);
   ("maxclients", MaxClients); ("relay_text_chat", TextChat); ("textchat", TextChat); ("relay_voice", Voice); ("voice", Voice)].
Fixpoint alias_of (s : string) (l : list (string * Key)) : option Key :=
  match l with [] => None | (n, k) :: l => if s =s n then Some k else alias_of s l end.
Definition ParseKeyName (raw : string) : option Key := alias_of (lower raw) kAliases.

Definition kMaxDelaySeconds : Z := 960.
Definition kMaxClients : Z := 255.
Definition kValveDelaySeconds : Z := 105.

Record Profile := {
  delay_seconds : option Z; allow_insecure_observers : option bool; max_clients : option Z; relay_text_chat : option bool; relay_voice : option bool }.
Definition NoProfile : Profile :=
  {| delay_seconds := None; allow_insecure_observers := None; max_clients := None; relay_text_chat := None; relay_voice := None |}.
#[export] Instance Profile_eq_dec : EqDecision Profile.
Proof. solve_decision. Defined.

Definition Empty (p : Profile) : bool := bool_decide (p = NoProfile).
Definition IsIntKey (k : Key) : bool := match k with Delay | MaxClients => true | _ => false end.
Definition MaxOf (k : Key) : Z := match k with Delay => kMaxDelaySeconds | _ => kMaxClients end.

(** The members by key; a number key holds a number, the others a switch. *)
Definition put_int (k : Key) (v : option Z) (p : Profile) : Profile :=
  match k with
  | Delay => {| delay_seconds := v; allow_insecure_observers := allow_insecure_observers p; max_clients := max_clients p;
                relay_text_chat := relay_text_chat p; relay_voice := relay_voice p |}
  | MaxClients => {| delay_seconds := delay_seconds p; allow_insecure_observers := allow_insecure_observers p; max_clients := v;
                     relay_text_chat := relay_text_chat p; relay_voice := relay_voice p |}
  | _ => p
  end.
Definition put_bool (k : Key) (v : option bool) (p : Profile) : Profile :=
  match k with
  | Insecure => {| delay_seconds := delay_seconds p; allow_insecure_observers := v; max_clients := max_clients p;
                   relay_text_chat := relay_text_chat p; relay_voice := relay_voice p |}
  | TextChat => {| delay_seconds := delay_seconds p; allow_insecure_observers := allow_insecure_observers p; max_clients := max_clients p;
                   relay_text_chat := v; relay_voice := relay_voice p |}
  | Voice => {| delay_seconds := delay_seconds p; allow_insecure_observers := allow_insecure_observers p; max_clients := max_clients p;
                relay_text_chat := relay_text_chat p; relay_voice := v |}
  | _ => p
  end.
Definition SetInt (k : Key) (v : Z) : Profile -> Profile := put_int k (Some v).
Definition SetBool (k : Key) (v : bool) : Profile -> Profile := put_bool k (Some v).
Definition Clear (k : Key) (p : Profile) : Profile := if IsIntKey k then put_int k None p else put_bool k None p.
Definition is_set {A} (o : option A) : bool := match o with Some _ => true | None => false end.
Definition Has (k : Key) (p : Profile) : bool :=
  match k with
  | Delay => is_set (delay_seconds p) | Insecure => is_set (allow_insecure_observers p) | MaxClients => is_set (max_clients p)
  | TextChat => is_set (relay_text_chat p) | Voice => is_set (relay_voice p)
  end.

(** ** Reading *)

(** The value of a finite double that is its own floor. *)
Definition int_value (d : double) : option Z :=
  '(n, k) ← exact d; if n mod 2 ^ k =? 0 then Some (n / 2 ^ k) else None.

Definition IntIn (v : mval) (max : Z) : option Z :=
  match v with
  | MNumber d => n ← int_value d; if (n <? 0) || (max <? n) then None else Some n
  | _ => None
  end.

(** The text of a cvar value, when it has one. *)
Definition CvarText (v : mval) : option (option string) :=
  match v with
  | MString s => Some (Some s)
  | MBool b => Some (Some (if b then "1" else "0"))
  | MNumber d => match int_value d with Some _ => (fun z => Some (to_string z)) <$> cast_int64 d | None => Some None end
  | _ => Some None
  end.

Definition CvarInt (s : string) : Z :=
  if sempty s then -1
  else
    match scan_double (c_text s) with
    | None => -1
    | Some (d, rest) =>
        if negb (isfinite d) || (d <d S754_zero false) || (of_int 1000000 <d d) then -1
        else if negb (sforall isspace rest) then -1
        else default (-1) (dtrunc d)
    end.

(** The keys in the order of [std::sort]. *)
Definition sorted_names (o : list (string * mval)) : list string := merge_sort str_le (fst <$> o).

Fixpoint read_profile (o : list (string * mval)) (nulls_ok : bool) (names : list string) (p : Profile) (nulls : list Key) : string + Profile * list Key :=
  match names with
  | [] => inr (p, nulls)
  | name :: names =>
      match obj_find name o, ParseKeyName name with
      | Some v, Some k =>
          if negb (name =s KeyName k) then inl (qs "unknown key `" +s+ stake 40 name +s+ str1 dquote)
          else
            match v with
            | MNull => if negb nulls_ok then inl (name +s+ " must not be null") else read_profile o nulls_ok names p (nulls ++ [k])
            | _ =>
                if IsIntKey k
                then match IntIn v (MaxOf k) with
                     | Some n => read_profile o nulls_ok names (SetInt k n p) nulls
                     | None => inl (name +s+ " must be an integer 0.." +s+ to_string (MaxOf k))
                     end
                else match v with
                     | MBool b => read_profile o nulls_ok names (SetBool k b p) nulls
                     | _ => inl (name +s+ " must be a boolean")
                     end
            end
      | _, _ => inl (qs "unknown key `" +s+ stake 40 name +s+ str1 dquote)
      end
  end.
(** The profile and the keys that are null; [nulls_ok]: the caller asks for those. *)
Definition ParseProfile (obj : mval) (nulls_ok : bool) : string + Profile * list Key :=
  match obj with
  | MObject o => read_profile o nulls_ok (sorted_names o) NoProfile []
  | _ => inl "must be an object"
  end.
Definition ParseProfileText (json : string) (nulls_ok : bool) : string + Profile * list Key :=
  match mini_Parse json with
  | MiniOk v => ParseProfile v nulls_ok
  | MiniError msg => inl ("not JSON: " +s+ msg)
  | MiniFuel => inl "not JSON: "
  end.

Definition int_error (k : Key) : string := KeyName k +s+ ": an integer 0.." +s+ to_string (MaxOf k).
Definition SetFromText (k : Key) (raw : string) (p : Profile) : string + Profile :=
  let v := lower raw in
  if (v =s "default") || (v =s "-") then inr (Clear k p)
  else if IsIntKey k then
    if sempty v || (4 <? slen v) then inl (int_error k)
    else if negb (sforall isdigit v) then inl (int_error k)
    else let n := atoi v in if MaxOf k <? n then inl (int_error k) else inr (SetInt k n p)
  else if (v =s "1") || (v =s "on") || (v =s "true") || (v =s "yes") then inr (SetBool k true p)
  else if (v =s "0") || (v =s "off") || (v =s "false") || (v =s "no") then inr (SetBool k false p)
  else inl (KeyName k +s+ ": on or off").

(** ** Writing *)

Definition int_text (o : option Z) : string := match o with Some n => to_string n | None => EmptyString end.
Definition flag_text (b : bool) : string := if b then "1" else "0".
Definition bool_text (o : option bool) : string := match o with Some b => flag_text b | None => EmptyString end.
Definition ValueText (p : Profile) (k : Key) : string :=
  match k with
  | Delay => int_text (delay_seconds p) | MaxClients => int_text (max_clients p) | Insecure => bool_text (allow_insecure_observers p)
  | TextChat => bool_text (relay_text_chat p) | Voice => bool_text (relay_voice p)
  end.

Definition over_opt {A} (base over : option A) : option A := match over with Some _ => over | None => base end.
Definition Overlay (base over : Profile) : Profile :=
  {| delay_seconds := over_opt (delay_seconds base) (delay_seconds over);
     allow_insecure_observers := over_opt (allow_insecure_observers base) (allow_insecure_observers over);
     max_clients := over_opt (max_clients base) (max_clients over); relay_text_chat := over_opt (relay_text_chat base) (relay_text_chat over);
     relay_voice := over_opt (relay_voice base) (relay_voice over) |}.

Definition profile_member (p : Profile) (k : Key) : string :=
  let v := ValueText p k in
  qs "`" +s+ KeyName k +s+ qs "`:" +s+ (if IsIntKey k then v else if v =s "1" then "true" else "false").
Definition comma_list (l : list string) : string := match l with [] => EmptyString | x :: l => foldl (fun acc s => acc +s+ "," +s+ s) x l end.
Definition ProfileJson (p : Profile) : string := "{" +s+ comma_list (profile_member p <$> List.filter (fun k => Has k p) AllKeys) +s+ "}".

(** ** Cvars *)

Definition OwnedCvars : list string := ["tv_delay"; "tv_secure_bypass"; "sv_deltaticks_enforce"; "tv_maxclients"; "tv_relaytextchat"; "tv_relayvoice"].

Definition opt_cvar {A} (o : option A) (f : A -> list (string * string)) : list (string * string) := match o with Some x => f x | None => [] end.
Definition DesiredCvars (eff : Profile) (delayFloor : Z) : list (string * string) :=
  opt_cvar (delay_seconds eff) (fun d => [("tv_delay", to_string (Z.max d (Z.max delayFloor 0)))]) ++
  opt_cvar (allow_insecure_observers eff) (fun b => ("tv_secure_bypass", flag_text b) :: if b : bool then [("sv_deltaticks_enforce", "0")] else []) ++
  opt_cvar (max_clients eff) (fun n => [("tv_maxclients", to_string n)]) ++
  opt_cvar (relay_text_chat eff) (fun b => [("tv_relaytextchat", flag_text b)]) ++
  opt_cvar (relay_voice eff) (fun b => [("tv_relayvoice", flag_text b)]).
Definition effective_delay (eff : Profile) (delayFloor : Z) : Z :=
  match delay_seconds eff with Some d => Z.max d (Z.max delayFloor 0) | None => -1 end.

(** ** A match's config *)

Definition member_object (v : mval) (key : string) : option mval := match mget v key with Some (MObject _ as o) => Some o | _ => None end.

Definition rules_floor (config : mval) : Z :=
  match member_object config "rules" with
  | None => 0
  | Some rules =>
      match (ov ← member_object rules "overrides"; od ← mget ov "tv_delay"; IntIn od kMaxDelaySeconds) with
      | Some n => Z.max 0 n
      | None => match mget rules "ruleset" with Some (MString rs) => if rs =s "valve" then kValveDelaySeconds else 0 | _ => 0 end
      end
  end.
Definition DelayFloor (config : mval) : option Z :=
  let floor := rules_floor config in
  match (cv ← member_object config "cvars"; mget cv "tv_delay") with
  | None => Some (Z.max floor 0)
  | Some d => t ← CvarText d; Some (Z.max (match t with Some t => Z.max floor (Z.min (CvarInt t) kMaxDelaySeconds) | None => floor end) 0)
  end.

Definition ProfileFromAssign (config : mval) : string + Profile :=
  match (rules ← member_object config "rules"; mget rules "broadcast") with
  | None | Some MNull => inr NoProfile
  | Some b => match ParseProfile b false with inl e => inl ("rules.broadcast: " +s+ e) | inr (p, _) => inr p end
  end.

Definition PasswordInAssign (config : mval) : bool :=
  match (cv ← member_object config "cvars"; mget cv "tv_password") with Some (MString s) => negb (sempty s) | _ => false end.

(** The first cvar that the config sets to something else. *)
Fixpoint disagreeing (cv : mval) (l : list (string * string)) : option (option string) :=
  match l with
  | [] => Some None
  | (name, val) :: l =>
      if name =s "tv_delay" then disagreeing cv l
      else
        match mget cv name with
        | None => disagreeing cv l
        | Some v =>
            t ← CvarText v;
            match t with
            | None => disagreeing cv l
            | Some t =>
                if negb (CvarInt t =? CvarInt val)
                then Some (Some ("rules.broadcast and cvars." +s+ name +s+ " disagree (" +s+ val +s+ " vs " +s+ stake 16 t +s+ ")"))
                else disagreeing cv l
            end
        end
  end.
(** The error, if any. *)
Definition ValidateAssignConfig (config : mval) : option (option string) :=
  match ProfileFromAssign config with
  | inl e => Some (Some e)
  | inr p =>
      if Empty p then Some None
      else
        floor ← DelayFloor config;
        if match delay_seconds p with Some d => d <? floor | None => false end
        then Some (Some ("rules.broadcast.delay_seconds " +s+ int_text (delay_seconds p) +s+ " is below the match's own GOTV delay (" +s+ to_string floor +s+ ")"))
        else match member_object config "cvars" with None => Some None | Some cv => disagreeing cv (DesiredCvars p 0) end
  end.
Definition ValidateAssignConfigText (configJson : string) : option (option string) :=
  match mini_Parse configJson with
  | MiniOk (MObject _ as v) => ValidateAssignConfig v
  | _ => Some (Some "config is not a JSON object")
  end.

Fixpoint owned_in (cv : mval) (names : list string) : option (list (string * string)) :=
  match names with
  | [] => Some []
  | name :: names =>
      match mget cv name with
      | None => owned_in cv names
      | Some v =>
          t ← CvarText v;
          r ← owned_in cv names;
          Some (match t with Some t => if 0 <=? CvarInt t then (name, to_string (CvarInt t)) :: r else r | None => r end)
      end
  end.
Definition OwnedCvarsInAssign (config : mval) : option (list (string * string)) :=
  match member_object config "cvars" with None => Some [] | Some cv => owned_in cv OwnedCvars end.

Definition match_cvar (p : Profile) (kv : string * string) : Profile :=
  let n := CvarInt kv.2 in
  if n <? 0 then p
  else if kv.1 =s "tv_secure_bypass" then SetBool Insecure (negb (n =? 0)) p
  else if (kv.1 =s "tv_maxclients") && (n <=? kMaxClients) then SetInt MaxClients n p
  else if kv.1 =s "tv_relaytextchat" then SetBool TextChat (negb (n =? 0)) p
  else if kv.1 =s "tv_relayvoice" then SetBool Voice (negb (n =? 0)) p
  else p.
Definition ProfileFromMatchCvars (matchCvars : list (string * string)) : Profile := foldl match_cvar NoProfile matchCvars.

(** The empty text: none. *)
Definition ConflictWithMatchCvars (eff : Profile) (delayFloor : Z) (matchCvars : list (string * string)) : string :=
  match list_find (fun kv : string * string =>
          negb (kv.1 =s "tv_delay") && existsb (fun m => (m.1 =s kv.1) && negb (CvarInt m.2 =? CvarInt kv.2)) matchCvars = true) (DesiredCvars eff delayFloor) with
  | Some (_, kv) => kv.1
  | None => EmptyString
  end.

End Bc.

(** * Theorems about the broadcast profile

    Its text is read back as the profile, and a match's config that passes the check never fights with the
    profile it carries. *)

Import Bc.

(** ** Ranges *)

Definition opt_in (max : Z) (o : option Z) : Prop := match o with Some n => 0 <= n <= max | None => True end.
Definition profile_ok (p : Profile) : Prop := opt_in kMaxDelaySeconds (delay_seconds p) /\ opt_in kMaxClients (max_clients p).

Lemma int_value_of_int n : int53_ok n -> int_value (of_int n) = Some n.
Proof.
  intros Hn. destruct n as [|p|p]; [done| |]; (destruct (of_int_pos p ltac:(unfold int53_ok in *; lia)) as (q & k & [Hk Hq] & E1 & E2 & _)).
  - rewrite E1. unfold int_value, exact. assert (0 < 2 ^ k) as Hp by (apply Z.pow_pos_nonneg; lia). destruct (Z.leb_spec 0 (- k)); cbn.
    + replace k with 0 in * by lia. cbn. by rewrite Z.mod_1_r, Z.div_1_r, Hq, Z.mul_1_r.
    + rewrite Z.opp_involutive, Hq, Z.mod_mul, Z.div_mul by lia. done.
  - rewrite E2. unfold int_value, exact. assert (0 < 2 ^ k) as Hp by (apply Z.pow_pos_nonneg; lia). destruct (Z.leb_spec 0 (- k)); cbn.
    + replace k with 0 in * by lia. cbn. rewrite Z.mod_1_r, Z.div_1_r. rewrite Z.pow_0_r, Z.mul_1_r in Hq. cbn. injection Hq as ->. done.
    + rewrite Z.opp_involutive. change (Z.neg q) with (- Z.pos q). rewrite Hq, <- Z.mul_opp_l, Z.mod_mul, Z.div_mul by lia. done.
Qed.

Lemma IntIn_of_int n max : 0 <= n <= max -> max < 2 ^ 53 -> IntIn (MNumber (of_int n)) max = Some n.
Proof.
  intros Hn Hm. unfold IntIn. rewrite int_value_of_int by (unfold int53_ok; lia). cbn.
  by rewrite (proj2 (Z.ltb_ge n 0)), (proj2 (Z.ltb_ge max n)) by lia.
Qed.
Lemma IntIn_bounds v max n : IntIn v max = Some n -> 0 <= n <= max.
Proof. unfold IntIn. destruct v; try done. destruct (int_value num) as [m|]; [|done]. cbn. intros H. case_if; simplify_eq. split_bools. lia. Qed.

Lemma read_profile_ok o nulls_ok names : forall p nulls p' nulls', profile_ok p ->
  read_profile o nulls_ok names p nulls = inr (p', nulls') -> profile_ok p'.
Proof.
  induction names as [|name names IH]; intros p nulls p' nulls' Hp; cbn [read_profile]; [by intros [= <- <-]|].
  destruct (obj_find name o) as [v|]; [|done]. destruct (ParseKeyName name) as [k|]; [|done]. case_if; [done|].
  assert (forall n, 0 <= n <= MaxOf k -> profile_ok (SetInt k n p)) as Hi by (destruct Hp, k; done).
  assert (forall b, profile_ok (SetBool k b p)) as Hb by (destruct Hp, k; done).
  pose proof (fun v => IntIn_bounds v (MaxOf k)) as Hin.
  destruct v as [| | | | |]; [case_if; [done|eauto]|..]; (destruct (IsIntKey k); [destruct (IntIn _ _) eqn:En; [|done]|]); eauto; done.
Qed.

Lemma ParseProfile_ok v nulls_ok p nulls : ParseProfile v nulls_ok = inr (p, nulls) -> profile_ok p.
Proof. unfold ParseProfile. destruct v; try done. by apply read_profile_ok. Qed.
Lemma ProfileFromAssign_ok config p : ProfileFromAssign config = inr p -> profile_ok p.
Proof.
  unfold ProfileFromAssign. destruct (_ ≫= _) as [b|]; [|by intros [= <-]].
  destruct b; try (destruct (ParseProfile _ _) as [|[q l]] eqn:E; [done|]; intros [= <-]; by eapply ParseProfile_ok). by intros [= <-].
Qed.

(** ** The text is read back *)

Definition key_value (p : Profile) (k : Key) : option Json :=
  match k with
  | Delay => JInt <$> delay_seconds p | MaxClients => JInt <$> max_clients p
  | Insecure => JBool <$> allow_insecure_observers p | TextChat => JBool <$> relay_text_chat p | Voice => JBool <$> relay_voice p
  end.
Definition profile_json (p : Profile) : Json := JObject (omap (fun k => (fun v => (KeyName k, v)) <$> key_value p k) AllKeys).

(** A list of members between commas is what the status writer prints. *)
Definition member_text (kv : string * Json) : string := JsonEscape kv.1 +s+ ":" +s+ Dump kv.2.
Lemma comma_list_more l acc : foldl (fun acc s => acc +s+ "," +s+ s) acc (member_text <$> l) +s+ "}" = acc +s+ dump_members Dump false l.
Proof.
  revert acc. induction l as [|[k v] l IH]; intros acc; [done|]. cbn [fmap list_fmap foldl dump_members]. rewrite IH. unfold member_text. cbn [fst snd].
  by rewrite !app_assoc_s.
Qed.
Lemma comma_list_members l : "{" +s+ comma_list (member_text <$> l) +s+ "}" = Dump (JObject l).
Proof.
  destruct l as [|[k v] l]; [done|]. cbn [fmap list_fmap comma_list Dump dump_members]. rewrite app_cons_s. cbn [String.append]. f_equal.
  rewrite comma_list_more. unfold member_text. cbn [fst snd]. by rewrite !app_assoc_s.
Qed.

Lemma profile_member_value p k v : key_value p k = Some v -> Has k p = true /\ profile_member p k = member_text (KeyName k, v).
Proof. destruct p as [[d|] [[]|] [m|] [[]|] [[]|]], k; cbn; by intros [= <-]. Qed.
Lemma profile_members_text p l :
  profile_member p <$> List.filter (fun k => Has k p) l = member_text <$> omap (fun k => (fun v => (KeyName k, v)) <$> key_value p k) l.
Proof.
  induction l as [|k l IH]; [done|]. cbn [List.filter omap list_omap]. destruct (key_value p k) as [v|] eqn:E.
  - destruct (profile_member_value p k v E) as [-> Hm]. cbn [fmap list_fmap option_fmap option_map]. by rewrite Hm, IH.
  - assert (Has k p = false) as -> by (destruct p as [[d|] [i|] [m|] [t|] [w|]], k; done). by rewrite IH.
Qed.
Lemma ProfileJson_Dump p : ProfileJson p = Dump (profile_json p).
Proof. unfold ProfileJson, profile_json. by rewrite profile_members_text, comma_list_members. Qed.

Lemma ParseKeyName_KeyName k : ParseKeyName (KeyName k) = Some k.
Proof. by destruct k. Qed.

Lemma read_int k n v o nulls_ok names p nulls : IsIntKey k = true -> obj_find (KeyName k) o = Some v -> IntIn v (MaxOf k) = Some n ->
  read_profile o nulls_ok (KeyName k :: names) p nulls = read_profile o nulls_ok names (SetInt k n p) nulls.
Proof.
  intros Hk Ho Hn. cbn [read_profile]. rewrite Ho, ParseKeyName_KeyName, String.eqb_refl, Hk, Hn. by destruct v.
Qed.
Lemma read_bool k b o nulls_ok names p nulls : IsIntKey k = false -> obj_find (KeyName k) o = Some (MBool b) ->
  read_profile o nulls_ok (KeyName k :: names) p nulls = read_profile o nulls_ok names (SetBool k b p) nulls.
Proof. intros Hk Ho. cbn [read_profile]. by rewrite Ho, ParseKeyName_KeyName, String.eqb_refl, Hk. Qed.

Definition sorted_keys : list Key := [Insecure; Delay; MaxClients; TextChat; Voice].
Lemma sorted_profile_names p : sorted_names (all_vals mini (Members (profile_json p))) = KeyName <$> List.filter (fun k => Has k p) sorted_keys.
Proof.
  unfold sorted_names. rewrite all_vals_keys. destruct p as [[d|] [i|] [m|] [t|] [v|]]; vm_compute; reflexivity.
Qed.

Lemma ParseProfile_json p nulls_ok : profile_ok p -> ParseProfile (mini (profile_json p)) nulls_ok = inr (p, []).
Proof.
  intros [Hd Hm]. change (mini (profile_json p)) with (MObject (all_vals mini (Members (profile_json p)))). cbn [ParseProfile].
  rewrite sorted_profile_names. destruct p as [[d|] [i|] [m|] [t|] [v|]]; cbn [delay_seconds max_clients] in Hd, Hm; cbn [List.filter Has sorted_keys is_set delay_seconds max_clients allow_insecure_observers relay_text_chat relay_voice fmap list_fmap];
    repeat first [rewrite (read_bool Insecure i) by done|rewrite (read_bool TextChat t) by done|rewrite (read_bool Voice v) by done
                 |rewrite (read_int Delay d (MNumber (of_int d))) by (first [done|by apply IntIn_of_int])
                 |rewrite (read_int MaxClients m (MNumber (of_int m))) by (first [done|by apply IntIn_of_int])]; done.
Qed.

Lemma key_value_ok (f : Json -> bool) p k v : profile_ok p -> (forall b, f (JBool b) = true) -> (forall n, 0 <= n <= kMaxDelaySeconds -> f (JInt n) = true) ->
  key_value p k = Some v -> f v = true.
Proof.
  intros [Hd Hm] Hb Hn. destruct p as [[d|] [i|] [m|] [t|] [w|]], k; cbn in *; intros [= <-]; auto; apply Hn; unfold kMaxDelaySeconds, kMaxClients in *; lia.
Qed.
Lemma profile_members_ok (f : Json -> bool) p : profile_ok p -> (forall b, f (JBool b) = true) -> (forall n, 0 <= n <= kMaxDelaySeconds -> f (JInt n) = true) ->
  all_members f (Members (profile_json p)) = true.
Proof.
  intros Hp Hb Hn. rewrite all_members_forall, Forall_forall. intros kv (k & _ & Hk)%list_elem_of_omap.
  destruct (key_value p k) as [v|] eqn:E; [|done]. injection Hk as <-. by eapply key_value_ok.
Qed.
Lemma profile_json_plain p : profile_ok p -> plain (profile_json p) = true /\ small (profile_json p) = true.
Proof.
  intros Hp. split; [apply andb_true_intro; split|].
  - apply bool_decide_eq_true. destruct p as [[d|] [i|] [m|] [t|] [w|]]; apply (bool_decide_eq_true (NoDup _)); vm_compute; reflexivity.
  - apply (profile_members_ok plain); [done..|]. intros n Hn. apply bool_decide_eq_true. unfold int64_ok, kMaxDelaySeconds in *. lia.
  - apply (profile_members_ok small); [done..|]. intros n Hn. apply bool_decide_eq_true. unfold int53_ok, kMaxDelaySeconds in *. lia.
Qed.

Lemma ParseProfileText_json p nulls_ok : profile_ok p -> ParseProfileText (ProfileJson p) nulls_ok = inr (p, []).
Proof.
  intros Hp. destruct (profile_json_plain p Hp) as [H1 H2]. unfold ParseProfileText. rewrite ProfileJson_Dump, mini_Parse_Dump by done.
  by apply ParseProfile_json.
Qed.

(** A profile whose numbers are in range is read back from its text, by a caller that asks for null keys or not. *)
Theorem profile_roundtrip p nulls_ok : profile_ok p -> ParseProfileText (ProfileJson p) nulls_ok = inr (p, []).
Proof. apply ParseProfileText_json. Qed.

Definition some_profile : Profile :=
  {| delay_seconds := Some 105; allow_insecure_observers := Some true; max_clients := Some 10; relay_text_chat := None; relay_voice := Some false |}.
Lemma profile_roundtrip_witness : profile_ok some_profile /\ ParseProfileText (ProfileJson some_profile) false = inr (some_profile, []).
Proof. split; [|apply (profile_roundtrip some_profile false)]; repeat split; vm_compute; discriminate. Defined.

(** ** A checked config does not fight with its profile *)

Lemma CvarInt_small n : 0 <= n <= kMaxDelaySeconds -> CvarInt (to_string n) = n.
Proof.
  intros Hn. assert (Forall (fun i => CvarInt (to_string (Z.of_nat i)) = Z.of_nat i) (seq 0 961)) as H.
  { apply Forall_forall. intros i Hi. assert (forallb (fun i => CvarInt (to_string (Z.of_nat i)) =? Z.of_nat i) (seq 0 961) = true) as E by (vm_compute; reflexivity).
    rewrite forallb_forall in E. apply Z.eqb_eq, E. by apply list_elem_of_In. }
  rewrite Forall_forall in H. specialize (H (Z.to_nat n)). rewrite Z2Nat.id in H by lia. apply H, elem_of_seq. unfold kMaxDelaySeconds in Hn. lia.
Qed.

Lemma CvarInt_flag b : CvarInt (flag_text b) = if b then 1 else 0.
Proof. destruct b; vm_compute; reflexivity. Qed.

(** What the profile asks of a cvar other than the delay is a small number, printed. *)
Lemma DesiredCvars_small p f name val : profile_ok p -> (name, val) ∈ DesiredCvars p f -> name <> "tv_delay" -> exists n, 0 <= n <= kMaxClients /\ val = to_string n.
Proof.
  intros [_ Hm] Hin Hne. assert (forall b, exists n, 0 <= n <= kMaxClients /\ flag_text b = to_string n) as Hb
    by (intros []; [exists 1|exists 0]; (split; [unfold kMaxClients; lia|done])).
  unfold DesiredCvars in Hin. rewrite !elem_of_app in Hin. destruct Hin as [Hin|[Hin|[Hin|[Hin|Hin]]]].
  - destruct (delay_seconds p); cbn in Hin; set_solver.
  - destruct (allow_insecure_observers p) as [[]|]; cbn in Hin; [|apply list_elem_of_singleton in Hin; simplify_eq; apply (Hb false)|set_solver].
    apply elem_of_cons in Hin as [Hin|Hin%list_elem_of_singleton]; simplify_eq; [apply (Hb true)|apply (Hb false)].
  - destruct (max_clients p) as [n|]; cbn in Hin, Hm; [|set_solver]. apply list_elem_of_singleton in Hin. simplify_eq. eauto.
  - destruct (relay_text_chat p); cbn in Hin; [|set_solver]. apply list_elem_of_singleton in Hin. simplify_eq. eauto.
  - destruct (relay_voice p); cbn in Hin; [|set_solver]. apply list_elem_of_singleton in Hin. simplify_eq. eauto.
Qed.

Lemma DesiredCvars_floor p f g name val : (name, val) ∈ DesiredCvars p f -> name <> "tv_delay" -> (name, val) ∈ DesiredCvars p g.
Proof.
  intros Hin Hne. destruct p as [[d|] i m t w]; cbn [DesiredCvars delay_seconds opt_cvar] in *; [|done].
  unfold DesiredCvars in *. cbn [delay_seconds opt_cvar app] in *. rewrite elem_of_cons in Hin. destruct Hin as [|Hin]; [by simplify_eq|]. by right.
Qed.

Lemma disagreeing_none cv l : disagreeing cv l = Some None -> forall name val v t, (name, val) ∈ l -> name <> "tv_delay" ->
  mget cv name = Some v -> CvarText v = Some (Some t) -> CvarInt t = CvarInt val.
Proof.
  induction l as [|[n x] l IH]; intros Hd name val v t Hin Hne Hv Ht; [set_solver|]. cbn [disagreeing] in Hd.
  apply elem_of_cons in Hin as [[= -> ->]|Hin].
  - destruct (String.eqb_spec n "tv_delay"); [done|]. rewrite Hv, Ht in Hd. cbn in Hd. case_if; [done|]. split_bools. done.
  - eapply IH; try done. case_if; [done|]. destruct (mget cv n) as [w|]; [|done]. destruct (CvarText w) as [[u|]|]; cbn in Hd; [|done..]. by case_if.
Qed.

Lemma owned_in_value cv names : forall l name m, owned_in cv names = Some l -> (name, m) ∈ l ->
  exists v t, mget cv name = Some v /\ CvarText v = Some (Some t) /\ m = to_string (CvarInt t).
Proof.
  induction names as [|n names IH]; intros l name m; cbn [owned_in]; [intros [= <-]; set_solver|].
  destruct (mget cv n) as [v|] eqn:Hv; [|by apply IH]. destruct (CvarText v) as [t|] eqn:Ht; [|done]. cbn.
  destruct (owned_in cv names) as [r|]; [|done]. cbn. intros [= <-] Hin.
  destruct t as [t|]; [|by eapply IH]. case_if; [|by eapply IH]. apply elem_of_cons in Hin as [[= -> ->]|Hin]; [by eauto|by eapply IH].
Qed.

Lemma OwnedCvarsInAssign_agrees config p l name m val : profile_ok p -> (Empty p = false -> forall cv, member_object config "cvars" = Some cv -> disagreeing cv (DesiredCvars p 0) = Some None) ->
  OwnedCvarsInAssign config = Some l -> (name, m) ∈ l -> (name, val) ∈ DesiredCvars p 0 -> name <> "tv_delay" -> CvarInt m = CvarInt val.
Proof.
  unfold OwnedCvarsInAssign. intros Hp Hd Hl Hm Hv Hne. destruct (member_object config "cvars") as [cv|]; [|injection Hl as <-; set_solver].
  destruct (owned_in_value _ _ _ _ _ Hl Hm) as (v & t & Hg & Ht & ->).
  assert (Empty p = false) as He by (apply bool_decide_eq_false; intros ->; set_solver).
  pose proof (disagreeing_none cv _ (Hd He cv eq_refl) name val v t Hv Hne Hg Ht) as E. rewrite E.
  destruct (DesiredCvars_small p 0 name val Hp Hv Hne) as (n & Hn & ->). unfold kMaxClients in Hn.
  assert (CvarInt (to_string n) = n) as En by (apply CvarInt_small; unfold kMaxDelaySeconds; lia). by rewrite !En.
Qed.

(** A match whose config passes the check never meets a conflict between its broadcast profile and the cvars that
    its own config sets, and the profile's delay is the one that is used: the match's minimum does not raise it. *)
Theorem assign_no_conflict config p floor l :
  ValidateAssignConfig config = Some None -> ProfileFromAssign config = inr p -> DelayFloor config = Some floor -> OwnedCvarsInAssign config = Some l ->
  ConflictWithMatchCvars p floor l = EmptyString /\ (forall d, delay_seconds p = Some d -> effective_delay p floor = d).
Proof.
  intros Hv Hp Hf Hl. pose proof (ProfileFromAssign_ok config p Hp) as Hok. unfold ValidateAssignConfig in Hv. rewrite Hp, Hf in Hv. cbn in Hv. split.
  - unfold ConflictWithMatchCvars. destruct (list_find _ _) as [[i [name val]]|] eqn:Ef; [|done]. exfalso.
    apply list_find_Some in Ef as (Hi & Hbad & _). apply list_elem_of_lookup_2 in Hi. cbn in Hbad. apply andb_prop in Hbad as [Hne Hbad].
    apply negb_true_iff, String.eqb_neq in Hne. apply existsb_exists in Hbad as ([n m] & Hm & Hx). apply list_elem_of_In in Hm. cbn in Hx.
    apply andb_prop in Hx as [->%String.eqb_eq Hx]. apply negb_true_iff, Z.eqb_neq in Hx. apply Hx.
    eapply OwnedCvarsInAssign_agrees; try done; [|by eapply DesiredCvars_floor]. intros He cv Hc. rewrite He, Hc in Hv. by case_if.
  - intros d Hd. unfold effective_delay. rewrite Hd in *. assert (Empty p = false) as He by (apply bool_decide_eq_false; intros ->; done).
    rewrite He in Hv. destruct Hok as [Hr _]. rewrite Hd in Hr. cbn in Hr. destruct (Z.ltb_spec d floor); [done|]. lia.
Qed.

Definition some_config : mval :=
  MObject [("rules", MObject [("ruleset", MString "valve"); ("broadcast", MObject [("delay_seconds", MNumber (of_int 120)); ("max_clients", MNumber (of_int 10))])]);
           ("cvars", MObject [("tv_maxclients", MString "10.0"); ("tv_delay", MNumber (of_int 30))])].
Lemma assign_no_conflict_witness : ValidateAssignConfig some_config = Some None /\
  ConflictWithMatchCvars {| delay_seconds := Some 120; allow_insecure_observers := None; max_clients := Some 10; relay_text_chat := None; relay_voice := None |} 105 [("tv_delay", "30"); ("tv_maxclients", "10")] = EmptyString.
Proof. split; [vm_compute; reflexivity|]. apply (assign_no_conflict some_config); vm_compute; reflexivity. Defined.

(** The check is needed: without it the two settings can disagree. *)
Example conflict_found :
  let config := MObject [("rules", MObject [("broadcast", MObject [("max_clients", MNumber (of_int 10))])]); ("cvars", MObject [("tv_maxclients", MString "5")])] in
  ValidateAssignConfig config = Some (Some "rules.broadcast and cvars.tv_maxclients disagree (10 vs 5)") /\
  OwnedCvarsInAssign config = Some [("tv_maxclients", "5")].
Proof. vm_compute. done. Qed.
