(* ===== verification/TvRules.v ===== *)
(** * The GOTV plugin's rules

    [plugins/tv/tv_rules.{h,cpp}]: which console commands bring the GOTV cvars from what the plugin set before
    to what it wants now, the match whose profile is in force, the plugin's files, and the texts it reads from
    and shows about the engine.  [std::map] and [std::set] are [gmap] and [gset] and are visited in the order of
    their keys.  [None] around a result is an undefined conversion of a number. *)

From S2P Require Import Prelude CStr Double Json MiniJson Broadcast.
Import Bc.

Module Tv.

(** ** Texts *)

Definition quote_char (c : ascii) : string :=
  if Ascii.eqb c dquote || Ascii.eqb c backslash then String backslash (str1 c)
  else if code c <? 32 then u_escape (code c) else str1 c.
Fixpoint quote_body (s : string) : string := match s with EmptyString => EmptyString | String c r => quote_char c +s+ quote_body r end.
Definition Quote (s : string) : string := String dquote (quote_body s +s+ str1 dquote).

Definition ParseObj (json : string) : option mval := match mini_Parse json with MiniOk (MObject o) => Some (MObject o) | _ => None end.

Definition NumericValue (v : string) : bool :=
  negb (sempty v || (24 <? slen v)) && sforall (fun c => isdigit c || Ascii.eqb c "-" || Ascii.eqb c ".") v.
Definition Trim (s : string) : string := strip isspace s.

Definition int_sep (c : ascii) : bool := Ascii.eqb c " " || Ascii.eqb c ":" || Ascii.eqb c "=" || Ascii.eqb c tab.
Definition starts_digit (s : string) : bool := match s with String c _ => isdigit c | EmptyString => false end.
Definition IntAfter (low word : string) : option Z :=
  n ← find word low;
  let rest := drop_while int_sep (sdrop (n + String.length word) low) in
  if starts_digit rest then Some (c_atoi rest) else None.

Definition json_map (m : list (string * string)) : string := "{" +s+ comma_list ((fun kv => Quote kv.1 +s+ ":" +s+ Quote kv.2) <$> m) +s+ "}".

(** ** Applying *)

Record Applier := { baseline : gmap string string; baselineUnknown : gset string; applied : gmap string string }.
Definition NoApplier : Applier := {| baseline := ∅; baselineUnknown := ∅; applied := ∅ |}.
Record Plan := { commands : list string; needBaseline : list string; notes : list string }.

Definition entry_le (a b : string * string) : Prop := str_le a.1 b.1.
#[export] Instance entry_le_dec : RelDecision entry_le.
Proof. intros a b. unfold entry_le. apply _. Defined.
(** The entries of a [std::map] in its order. *)
Definition entries (m : gmap string string) : list (string * string) := merge_sort entry_le (map_to_list m).

Definition command (name value : string) : string := name +s+ " " +s+ value.

(** What is wanted: the commands, the cvars to read first, and the new [applied]. *)
Definition want (a : Applier) (force : bool) (acc : list string * list string * gmap string string) (kv : string * string)
  : list string * list string * gmap string string :=
  let '(cmds, need, next) := acc in
  let have := applied a !! kv.1 in
  if bool_decide (have = None) && bool_decide (baseline a !! kv.1 = None) && negb (bool_decide (kv.1 ∈ baselineUnknown a)) then (cmds, need ++ [kv.1], next)
  else ((if force || negb (bool_decide (have = Some kv.2)) then cmds ++ [command kv.1 kv.2] else cmds), need, <[kv.1 := kv.2]> next).

(** What goes back. *)
Definition give_back (a : Applier) (force : bool) (need : list string) (next : gmap string string) (acc : list string * list string) (kv : string * string)
  : list string * list string :=
  let '(cmds, notes) := acc in
  match next !! kv.1 with
  | Some _ => acc
  | None =>
      if bool_decide (kv.1 ∈ need) then acc
      else
        match baseline a !! kv.1 with
        | Some b => ((if negb (b =s kv.2) || force then cmds ++ [command kv.1 b] else cmds), notes)
        | None =>
            if kv.1 =s "tv_secure_bypass" then (cmds ++ ["tv_secure_bypass 0"], notes)
            else if kv.1 =s "sv_deltaticks_enforce" then (cmds ++ ["sv_deltaticks_enforce 2"], notes)
            else (cmds, notes ++ [kv.1 +s+ " left at " +s+ kv.2 +s+ " (its value before Ready Up changed it is not known)"])
        end
  end.

Definition PlanApply (a : Applier) (desired : list (string * string)) (force : bool) : Plan * Applier :=
  let '(cmds, need, next) := foldl (want a force) ([], [], ∅) desired in
  let '(cmds, notes) := foldl (give_back a force need next) (cmds, []) (entries (applied a)) in
  ({| commands := cmds; needBaseline := need; notes := notes |}, {| baseline := baseline a; baselineUnknown := baselineUnknown a; applied := next |}).

(** [value]: the answer of [cvar_query]. *)
Definition clean_value (v : string) : option string :=
  if NumericValue v && contains "." v
  then to_string <$> cast_int64 (match scan_double v with Some (d, _) => d | None => S754_zero false end)
  else Some v.
Definition RecordBaseline (a : Applier) (cvar : string) (value : option string) : option Applier :=
  if contains "password" cvar then Some a
  else
    clean ← clean_value (match value with Some v => Trim v | None => EmptyString end);
    if negb (NumericValue clean) then Some {| baseline := baseline a; baselineUnknown := {[cvar]} ∪ baselineUnknown a; applied := applied a |}
    else Some {| baseline := <[cvar := clean]> (baseline a); baselineUnknown := baselineUnknown a ∖ {[cvar]}; applied := applied a |}.

Definition ApplierJson (a : Applier) : string :=
  qs "{`baseline`:" +s+ json_map (entries (baseline a)) +s+ qs ",`unknown`:[" +s+ comma_list (Quote <$> merge_sort str_le (elements (baselineUnknown a))) +s+
  qs "],`applied`:" +s+ json_map (entries (applied a)) +s+ "}".

Definition stash_entry (m : gmap string string) (kv : string * mval) : gmap string string :=
  match kv.2 with MString s => if NumericValue s && negb (contains "password" kv.1) then <[kv.1 := s]> m else m | _ => m end.
Definition stash_map (o : option mval) : gmap string string := match o with Some (MObject l) => foldl stash_entry ∅ l | _ => ∅ end.
Definition stash_name (s : gset string) (v : mval) : gset string := match v with MString n => {[n]} ∪ s | _ => s end.
Definition ParseApplier (json : string) : option Applier :=
  v ← ParseObj json;
  Some {| baseline := stash_map (mget v "baseline"); applied := stash_map (mget v "applied");
          baselineUnknown := match mget v "unknown" with Some (MArray l) => foldl stash_name ∅ l | _ => ∅ end |}.

(** ** The active match *)

Record MatchProfile := {
  matchId : string; profile : Profile; override_ : Profile; delayFloor : Z; passwordSet : bool; matchCvars : list (string * string) }.
Inductive TrackEvent := TrackNone | Activated | Deactivated | Dropped.

Definition kGraceSeconds : double := of_int 5.
Definition kPendingSeconds : double := of_int 90.

Record MatchTracker := { pending : option MatchProfile; pendingSince : double; pendingTtl : double; active : option MatchProfile; mismatchSince : double }.
Definition NoTracker : MatchTracker := {| pending := None; pendingSince := of_int 0; pendingTtl := kPendingSeconds; active := None; mismatchSince := of_int (-1) |}.

Definition with_override (o : Profile) (p : MatchProfile) : MatchProfile :=
  {| matchId := matchId p; profile := profile p; override_ := o; delayFloor := delayFloor p; passwordSet := passwordSet p; matchCvars := matchCvars p |}.
Definition with_active (m : option MatchProfile) (t : MatchTracker) : MatchTracker :=
  {| pending := pending t; pendingSince := pendingSince t; pendingTtl := pendingTtl t; active := m; mismatchSince := of_int (-1) |}.
Definition no_pending (t : MatchTracker) : MatchTracker :=
  {| pending := None; pendingSince := pendingSince t; pendingTtl := pendingTtl t; active := active t; mismatchSince := mismatchSince t |}.
Definition with_mismatch (since : double) (t : MatchTracker) : MatchTracker :=
  {| pending := pending t; pendingSince := pendingSince t; pendingTtl := pendingTtl t; active := active t; mismatchSince := since |}.

Definition Assign (p : MatchProfile) (now ttl : double) (t : MatchTracker) : MatchTracker :=
  match active t with
  | Some a =>
      if matchId a =s matchId p then no_pending (with_active (Some (with_override (override_ a) p)) t)
      else {| pending := Some p; pendingSince := now; pendingTtl := ttl; active := active t; mismatchSince := mismatchSince t |}
  | None => {| pending := Some p; pendingSince := now; pendingTtl := ttl; active := active t; mismatchSince := mismatchSince t |}
  end.

Definition names_match (id : string) (m : option MatchProfile) : bool := match m with Some m => sempty id || (matchId m =s id) | None => false end.
Definition Unassign (id : string) (t : MatchTracker) : MatchTracker * bool :=
  let a := names_match id (active t) in
  let p := names_match id (pending t) in
  let t := if a then with_active None t else t in
  ((if p then no_pending t else t), a || p).

Definition Observe (loaded : string) (now : double) (t : MatchTracker) : MatchTracker * TrackEvent :=
  if match pending t with Some p => negb (sempty loaded) && (loaded =s matchId p) | None => false end
  then (no_pending (with_active (pending t) t), Activated)
  else
    let late := match pending t with Some _ => pendingTtl t <d dsub now (pendingSince t) | None => false end in
    let ev := if late then Dropped else TrackNone in
    let t := if late then no_pending t else t in
    match active t with
    | None => (t, ev)
    | Some a =>
        if loaded =s matchId a then (with_mismatch (of_int (-1)) t, ev)
        else if mismatchSince t <d of_int 0 then (with_mismatch now t, ev)
        else if kGraceSeconds <=d dsub now (mismatchSince t) then (with_active None t, Deactivated)
        else (t, ev)
    end.

(** The new profile and whether the patch touches it, or an error. *)
Definition ApplyBroadcastPatch (rulesPatch : mval) (p : Profile) : string + Profile * bool :=
  match rulesPatch with
  | MObject _ =>
      match mget rulesPatch "broadcast" with
      | None => inr (p, false)
      | Some MNull => inr (NoProfile, true)
      | Some b =>
          match ParseProfile b true with
          | inl e => inl ("rules.broadcast: " +s+ e)
          | inr (set, cleared) => inr (foldl (fun p k => Clear k p) (Overlay p set) cleared, true)
          end
      end
  | _ => inr (p, false)
  end.

Definition MatchProfileJson (m : MatchProfile) : string :=
  qs "{`version`:1,`match_id`:" +s+ Quote (matchId m) +s+ qs ",`profile`:" +s+ ProfileJson (profile m) +s+
  qs ",`override`:" +s+ ProfileJson (override_ m) +s+ qs ",`delay_floor`:" +s+ to_string (delayFloor m) +s+
  qs ",`password_set`:" +s+ (if passwordSet m then "true" else "false") +s+ qs ",`match_cvars`:" +s+ json_map (matchCvars m) +s+ "}".

Definition member_profile (v : mval) (key : string) : option Profile :=
  match mget v key with
  | None => Some NoProfile
  | Some p => match ParseProfile p false with inr (p, _) => Some p | inl _ => None end
  end.
Definition stored_cvar (mc : mval) (name : string) : option (string * string) :=
  match mget mc name with Some (MString s) => if NumericValue s then Some (name, s) else None | _ => None end.
Definition stored_floor (v : mval) : Z :=
  match mget v "delay_floor" with
  | Some (MNumber f) => if (of_int 0 <=d f) && (f <=d of_int kMaxDelaySeconds) then default 0 (dtrunc f) else 0
  | _ => 0
  end.
Definition ParseMatchProfile (json : string) : option MatchProfile :=
  v ← ParseObj json;
  match mget v "match_id" with
  | Some (MString id) =>
      if sempty id || (64 <? slen id) then None
      else
        p ← member_profile v "profile";
        o ← member_profile v "override";
        Some {| matchId := id; profile := p; override_ := o; delayFloor := stored_floor v;
                passwordSet := match mget v "password_set" with Some (MBool b) => b | _ => false end;
                matchCvars := match mget v "match_cvars" with Some (MObject o) => omap (stored_cvar (MObject o)) OwnedCvars | _ => [] end |}
  | _ => None
  end.

(** ** Settings *)

Record Settings := { server : Profile; casters : gset Z; castersSet : bool }.

Definition ParseSteamId64 (raw : string) : Z :=
  let s := Trim raw in
  if negb (slen s =? 17) || negb (starts_with "7656119" s) then 0 else if negb (sforall isdigit s) then 0 else strtoull s.

Definition list_sep (c : ascii) : bool := Ascii.eqb c "," || Ascii.eqb c " " || Ascii.eqb c ";".
Fixpoint list_tokens (cur s : string) : list string :=
  match s with
  | EmptyString => [cur]
  | String c r => if list_sep c then cur :: list_tokens EmptyString r else list_tokens (cur +s+ str1 c) r
  end.
(** The ids and the number of other entries. *)
Definition steam_token (acc : gset Z * Z) (raw : string) : gset Z * Z :=
  let tok := Trim raw in
  if sempty tok then acc else let id := ParseSteamId64 tok in if id =? 0 then (acc.1, acc.2 + 1) else ({[id]} ∪ acc.1, acc.2).
Definition ParseSteamIdList (s : string) : gset Z * Z := foldl steam_token (∅, 0) (list_tokens EmptyString s).

Definition caster (s : gset Z) (x : mval) : gset Z :=
  match x with MString t => let id := ParseSteamId64 t in if id =? 0 then s else {[id]} ∪ s | _ => s end.
Definition NoSettings : Settings := {| server := NoProfile; casters := ∅; castersSet := false |}.
(** The settings, and whether the text was good. *)
Definition ParseSettings (json : string) : Settings * bool :=
  if sempty (Trim json) then (NoSettings, true)
  else
    match ParseObj json with
    | None => (NoSettings, false)
    | Some v =>
        let '(p, ok) := match mget v "server" with
                        | None => (NoProfile, true)
                        | Some p => match ParseProfile p false with inr (p, _) => (p, true) | inl _ => (NoProfile, false) end
                        end in
        (match mget v "casters" with
         | Some (MArray l) => {| server := p; casters := foldl caster ∅ l; castersSet := true |}
         | _ => {| server := p; casters := ∅; castersSet := false |}
         end, ok)
    end.
Definition newline_s : string := str1 newline.
Definition SettingsJson (s : Settings) : string :=
  "{" +s+ newline_s +s+ qs "  `version`: 1," +s+ newline_s +s+ qs "  `server`: " +s+ ProfileJson (server s) +s+
  (if castersSet s
   then "," +s+ newline_s +s+ qs "  `casters`: [" +s+
        match merge_sort Z.le (elements (casters s)) with
        | [] => EmptyString
        | id :: ids => foldl (fun acc id => acc +s+ qs ", `" +s+ to_string id +s+ qs "`") (qs "`" +s+ to_string id +s+ qs "`") ids
        end +s+ "]"
   else EmptyString) +s+ newline_s +s+ "}" +s+ newline_s.

(** The profile and the errors. *)
Definition config_key (kv : gmap string string) (acc : Profile * list string) (k : Key) : Profile * list string :=
  match kv !! KeyName k with
  | None => acc
  | Some raw =>
      if sempty (Trim raw) then acc
      else
        let v := lower (Trim raw) in
        if (v =s "default") || (v =s "-") then acc
        else match SetFromText k v acc.1 with inr p => (p, acc.2) | inl err => (acc.1, acc.2 ++ [err]) end
  end.
Definition ProfileFromConfig (kv : gmap string string) : Profile * list string := foldl (config_key kv) (NoProfile, []) AllKeys.

(** ** The engine's view *)

Record LaunchInfo := { tvPort : Z; li_passwordSet : option bool; insecure : bool }.
Definition launch_arg (li : LaunchInfo) (a : string) (following : option string) : LaunchInfo :=
  let insec := (a =s "-insecure") || insecure li in
  match following with
  | None => {| tvPort := tvPort li; li_passwordSet := li_passwordSet li; insecure := insec |}
  | Some v =>
      {| tvPort := if (a =s "+tv_port") || (a =s "-tv_port") then c_atoi v else tvPort li;
         li_passwordSet := if a =s "+tv_password"
                           then Some (match v with
                                      | String c _ => negb (Ascii.eqb c "+") && negb (Ascii.eqb c "-") && negb (v =s qs "``")
                                      | EmptyString => false
                                      end)
                           else li_passwordSet li;
         insecure := insec |}
  end.
Fixpoint launch_args (li : LaunchInfo) (args : list string) : LaunchInfo :=
  match args with [] => li | a :: rest => launch_args (launch_arg li a (head rest)) rest end.
Definition ParseLaunchArgs (args : list string) : LaunchInfo := launch_args {| tvPort := 0; li_passwordSet := None; insecure := false |} args.

Record TvStatus := { st_clients : option Z; st_slots : option Z; st_delay : option Z; st_port : option Z; st_active : option bool }.
Definition some_or {A} (a b : option A) : option A := match a with Some _ => a | None => b end.

(** The line without its instance's tag; [None]: another instance. *)
Definition untagged (raw : string) : option string :=
  let line := Trim raw in
  let lower0 := lower line in
  if starts_with "gotv[" lower0
  then if starts_with "gotv[0]" lower0 then Some (match find ":" line with Some n => Trim (sdrop (S n) line) | None => EmptyString end) else None
  else Some line.

Definition slots_line (low : string) (st : TvStatus) : TvStatus * bool :=
  if contains "slots" low && contains "spectators" low
  then ({| st_clients := some_or (IntAfter low "spectators") (st_clients st); st_slots := some_or (IntAfter low "slots") (st_slots st);
           st_delay := st_delay st; st_port := st_port st; st_active := Some true |}, true)
  else (st, false).
Definition delay_line (low : string) (st : TvStatus) : TvStatus * bool :=
  if (contains "master" low || contains "sourcetv" low || contains "gotv" low) && contains "delay" low
  then match IntAfter low "delay" with
       | Some n => ({| st_clients := st_clients st; st_slots := st_slots st; st_delay := Some n; st_port := st_port st; st_active := Some true |}, true)
       | None => (st, false)
       end
  else (st, false).
Definition port_line (low : string) (st : TvStatus) : TvStatus * bool :=
  if starts_with "local ip" low
  then match find ":" (sdrop 8 low) with
       | Some n => let rest := sdrop (9 + n) low in
                   if starts_digit rest
                   then ({| st_clients := st_clients st; st_slots := st_slots st; st_delay := st_delay st; st_port := Some (c_atoi rest); st_active := st_active st |}, true)
                   else (st, false)
       | None => (st, false)
       end
  else (st, false).

(** The status and whether the line was output of [tv_status]. *)
Definition ParseTvStatusLine (raw : string) (st : TvStatus) : TvStatus * bool :=
  match untagged raw with
  | None => (st, false)
  | Some line =>
      let low := lower line in
      if contains "not active" low && (contains "sourcetv" low || contains "gotv" low || contains "cstv" low || starts_with "gotv[0]" (lower (Trim raw)))
      then ({| st_clients := st_clients st; st_slots := st_slots st; st_delay := st_delay st; st_port := st_port st; st_active := Some false |}, true)
      else if starts_with "total slots" low then (st, true)
      else
        let '(st, h1) := slots_line low st in
        let '(st, h2) := delay_line low st in
        let '(st, h3) := port_line low st in
        (st, h1 || h2 || h3)
  end.

Record View := {
  available : bool; port : Z; cvars : gmap string string; clients : option Z; effective : Profile; source : string; v_matchId : string; v_delayFloor : Z;
  effectiveDelay : Z; v_passwordSet : option bool; v_casters : Z; serverInsecure : bool; whitelistLoaded : bool }.

Definition ObservedInt (v : View) (name : string) : option (option Z) :=
  match cvars v !! name with
  | None => Some None
  | Some s =>
      if sempty s then Some None
      else match scan_double (c_text s) with
           | None => Some None
           | Some (d, _) => z ← dtrunc d; if (-2147483648 <=? z) && (z <=? 2147483647) then Some (Some z) else None
           end
  end.

Definition JInt_text (v : option Z) : string := match v with Some n => to_string n | None => "null" end.
Definition bool_word (b : bool) : string := if b then "true" else "false".
Definition JBool_text (v : option Z) : string := match v with Some n => bool_word (negb (n =? 0)) | None => "null" end.
Definition JBool_flag (v : option bool) : string := match v with Some b => bool_word b | None => "null" end.
Definition OnOff (v : option Z) : string := match v with Some n => if n =? 0 then "off" else "on" | None => "?" end.

Definition StateJson (v : View) : option string :=
  seen ← (if 0 <? port v then Some None else ObservedInt v "tv_port");
  let prt := if 0 <? port v then Some (port v) else match seen with Some p => if 0 <? p then Some p else None | None => None end in
  enabled ← ObservedInt v "tv_enable"; delay ← ObservedInt v "tv_delay"; maxc ← ObservedInt v "tv_maxclients";
  bypass ← ObservedInt v "tv_secure_bypass"; delta ← ObservedInt v "sv_deltaticks_enforce";
  chat ← ObservedInt v "tv_relaytextchat"; voice ← ObservedInt v "tv_relayvoice";
  Some ("{" +s+ qs "`available`:" +s+ bool_word (available v) +s+ qs ",`port`:" +s+ JInt_text prt +s+ qs ",`enabled`:" +s+ JBool_text enabled +s+
        qs ",`delay_seconds`:" +s+ JInt_text delay +s+ qs ",`max_clients`:" +s+ JInt_text maxc +s+ qs ",`clients`:" +s+ JInt_text (clients v) +s+
        qs ",`secure_bypass`:" +s+ JBool_text bypass +s+ qs ",`deltaticks_enforce`:" +s+ JBool_text delta +s+
        qs ",`relay_text_chat`:" +s+ JBool_text chat +s+ qs ",`relay_voice`:" +s+ JBool_text voice +s+
        qs ",`password_set`:" +s+ JBool_flag (v_passwordSet v) +s+ qs ",`profile`:{`source`:" +s+ Quote (source v) +s+
        (if (source v =s "match") && negb (sempty (v_matchId v)) then qs ",`match_id`:" +s+ Quote (v_matchId v) else EmptyString) +s+
        qs ",`settings`:" +s+ ProfileJson (effective v) +s+ "}" +s+ qs ",`delay_floor`:" +s+ to_string (v_delayFloor v) +s+
        qs ",`casters`:" +s+ to_string (v_casters v) +s+ qs ",`server_insecure`:" +s+ bool_word (serverInsecure v) +s+ "}").

Definition int_or_q (v : option Z) : string := match v with Some n => to_string n | None => "?" end.
Definition word_or_q (yes no : string) (v : option bool) : string := match v with Some true => yes | Some false => no | None => "?" end.
Definition nonzero (v : option Z) : option bool := (fun n => negb (n =? 0)) <$> v.

Definition StatusLines (v : View) : option (list string) :=
  seen ← (if 0 <? port v then Some None else ObservedInt v "tv_port");
  let prt := if 0 <? port v then Some (port v) else seen in
  enabled ← ObservedInt v "tv_enable"; delay ← ObservedInt v "tv_delay"; maxc ← ObservedInt v "tv_maxclients";
  bypass ← ObservedInt v "tv_secure_bypass"; delta ← ObservedInt v "sv_deltaticks_enforce";
  chat ← ObservedInt v "tv_relaytextchat"; voice ← ObservedInt v "tv_relayvoice";
  Some ((if available v then [] else ["off (tv.cfg enabled=0): Ready Up does not touch the GOTV settings"]) ++
        ["GOTV " +s+ word_or_q "on" "off" (nonzero enabled) +s+ ", port " +s+ match prt with Some p => if 0 <? p then to_string p else "?" | None => "?" end +s+
         ", delay " +s+ match delay with Some d => to_string d +s+ " s" | None => "?" end +s+
         (if 0 <=? effectiveDelay v then " (Ready Up sets " +s+ to_string (effectiveDelay v) +s+ ")" else EmptyString) +s+
         (if 0 <? v_delayFloor v then ", match minimum " +s+ to_string (v_delayFloor v) +s+ " s" else EmptyString) +s+
         ", clients " +s+ int_or_q (clients v) +s+ "/" +s+ int_or_q maxc;
         "insecure observers (HLAE / HUD tools) on GOTV: " +s+ word_or_q "allowed" "not allowed" (nonzero bypass) +s+ " (tv_secure_bypass " +s+ int_or_q bypass +s+
         ", sv_deltaticks_enforce " +s+ int_or_q delta +s+ "); the game port stays VAC-secured";
         "relay: text chat " +s+ OnOff chat +s+ ", voice " +s+ OnOff voice +s+ "; password " +s+
         match v_passwordSet v with Some true => "set" | Some false => "not set" | None => "unknown" end;
         "profile: " +s+ (if source v =s "match" then "match " +s+ v_matchId v else "server defaults") +s+ " " +s+ ProfileJson (effective v);
         "casters: " +s+ to_string (v_casters v) +s+
         (if (0 <? v_casters v) && negb (whitelistLoaded v) then " (whitelist.so is not loaded: casters are not let in outside a match's spectators)" else EmptyString)] ++
        (if serverInsecure v then ["warning: this server itself runs -insecure (not VAC-secured)"] else [])).

End Tv.
