(* ===== verification/TvRulesFacts.v ===== *)
(** * Theorems about the GOTV plugin's rules

    The plan does to the engine what it is for, whatever the plugin changed can be given back, the active match is
    one that was assigned and reported, and the plugin's files are read back. *)

From S2P Require Import Prelude CStr Double DoubleFacts Json JsonFacts FleetJson MiniJson Broadcast TvRules.

Import Bc Tv.

(** ** The engine *)

(** A console line sets the cvar of its first word. *)
Definition exec_line (e : gmap string string) (line : string) : gmap string string :=
  match find " " line with Some n => <[stake n line := sdrop (S n) line]> e | None => e end.
Definition run_lines (lines : list string) (e : gmap string string) : gmap string string := foldl exec_line e lines.

Definition no_space (s : string) : bool := sforall (fun c => negb (Ascii.eqb " " c)) s.

Lemma exec_command name value e : no_space name = true -> exec_line e (command name value) = <[name := value]> e.
Proof.
  intros Hn. unfold exec_line, command. rewrite find_after by done. cbn [String.append find starts_with Ascii.eqb Bool.eqb andb fmap option_fmap option_map].
  rewrite Nat.add_0_r, stake_app. f_equal. change (name +s+ String " " value) with (name +s+ (" " +s+ value)). rewrite <- app_assoc_s.
  apply sdrop_length_app. rewrite length_app_s. cbn. lia.
Qed.

Lemma run_lines_app a b e : run_lines (a ++ b) e = run_lines b (run_lines a e).
Proof. apply foldl_app. Qed.

(** ** A plan *)

Lemma entries_spec (m : gmap string string) n v : (n, v) ∈ entries m <-> m !! n = Some v.
Proof. unfold entries. rewrite (merge_sort_Permutation _ _). apply elem_of_map_to_list. Qed.
Lemma entries_NoDup (m : gmap string string) : NoDup (entries m).*1.
Proof. unfold entries. rewrite (merge_sort_Permutation _ _). apply NoDup_fst_map_to_list. Qed.

(** What the plugin knows of the engine: the values it set are there. *)
Definition agrees (a : Applier) (e : gmap string string) : Prop := forall n v, applied a !! n = Some v -> e !! n = Some v.

(** A cvar that must be read first. *)
Definition unread (a : Applier) (n : string) : Prop := applied a !! n = None /\ baseline a !! n = None /\ n ∉ baselineUnknown a.

#[export] Instance unread_decision a n : Decision (unread a n).
Proof. unfold unread. apply _. Defined.

(** The state of the first loop after some of the wanted cvars. *)
Record wanted (a : Applier) (e : gmap string string) (done_ : list (string * string)) (cmds : list string) (need : list string) (next : gmap string string) : Prop := {
  w_need n : n ∈ need <-> n ∈ done_.*1 /\ unread a n;
  w_next n v : next !! n = Some v <-> (n, v) ∈ done_ /\ ~ unread a n;
  w_set n v : next !! n = Some v -> run_lines cmds e !! n = Some v;
  w_rest n : next !! n = None -> run_lines cmds e !! n = e !! n }.

Lemma unread_dec a n : bool_decide (applied a !! n = None) && bool_decide (baseline a !! n = None) && negb (bool_decide (n ∈ baselineUnknown a)) = true <-> unread a n.
Proof. unfold unread. rewrite !andb_true_iff, negb_true_iff, !bool_decide_eq_true, bool_decide_eq_false. tauto. Qed.

Lemma want_step a force e l cmds need next kv : (force = false -> agrees a e) -> kv.1 ∉ l.*1 -> no_space kv.1 = true ->
  wanted a e l cmds need next -> let '(cmds', need', next') := want a force (cmds, need, next) kv in wanted a e (l ++ [kv]) cmds' need' next'.
Proof.
  destruct kv as [k v]. cbn [fst]. intros Ha Hk Hs [H1 H2 H3 H4]. unfold want. cbn [fst snd].
  assert (next !! k = None) as Hnk by (destruct (next !! k) as [w|] eqn:E; [|done]; apply H2 in E as [E _]; destruct Hk; by apply (list_elem_of_fmap_2 fst _ _ E)).
  destruct (_ && negb _) eqn:Eu; [apply unread_dec in Eu|assert (~ unread a k) as Hu by (rewrite <- unread_dec; congruence)].
  - split; try done.
    + intros n. rewrite fmap_app, !elem_of_app, H1, list_elem_of_singleton. cbn. rewrite list_elem_of_singleton. intuition subst; auto.
    + intros n w. rewrite elem_of_app, list_elem_of_singleton, H2. intuition simplify_eq. done.
  - assert (forall n w, <[k := v]> next !! n = Some w <-> (n, w) ∈ l ++ [(k, v)] /\ ~ unread a n) as Hnext.
    { intros n w. rewrite elem_of_app, list_elem_of_singleton. destruct (decide (n = k)) as [->|Hn].
      - rewrite lookup_insert_eq. split; [intros [= <-]; auto|]. intros [[Hin|[= <-]] _]; [|done]. destruct Hk. by apply (list_elem_of_fmap_2 fst _ _ Hin).
      - rewrite lookup_insert_ne, H2 by done. intuition simplify_eq. }
    assert (forall n, n ∈ need <-> n ∈ (l ++ [(k, v)]).*1 /\ unread a n) as Hneed.
    { intros n. rewrite fmap_app, elem_of_app, H1. cbn. rewrite list_elem_of_singleton. intuition subst; done. }
    destruct (force || _) eqn:Ef; (split; [done|done|..]); intros n.
    + intros w. rewrite run_lines_app. cbn [run_lines foldl]. rewrite exec_command by done. destruct (decide (n = k)) as [->|Hn].
      * by rewrite !lookup_insert_eq.
      * rewrite !lookup_insert_ne by done. apply H3.
    + rewrite run_lines_app. cbn [run_lines foldl]. rewrite exec_command by done. destruct (decide (n = k)) as [->|Hn].
      * by rewrite lookup_insert_eq.
      * rewrite !lookup_insert_ne by done. apply H4.
    + apply orb_false_elim in Ef as [-> Ef]. apply negb_false_iff, bool_decide_eq_true in Ef. intros w. destruct (decide (n = k)) as [->|Hn].
      * rewrite lookup_insert_eq. intros [= <-]. rewrite H4 by done. by apply Ha.
      * rewrite lookup_insert_ne by done. apply H3.
    + destruct (decide (n = k)) as [->|Hn]; [by rewrite lookup_insert_eq|]. rewrite lookup_insert_ne by done. apply H4.
Qed.

Lemma want_all a force e l : (force = false -> agrees a e) -> forall done_ cmds need next, NoDup (done_ ++ l).*1 -> Forall (fun kv => no_space kv.1 = true) l ->
  wanted a e done_ cmds need next -> let '(cmds', need', next') := foldl (want a force) (cmds, need, next) l in wanted a e (done_ ++ l) cmds' need' next'.
Proof.
  intros Ha. induction l as [|kv l IH]; intros done_ cmds need next Hnd Hs Hw; [by rewrite app_nil_r|]. cbn [foldl].
  apply list.Forall_cons in Hs as [Hkv Hs]. pose proof (want_step a force e done_ cmds need next kv Ha) as Hstep.
  rewrite fmap_app in Hnd. cbn in Hnd. assert (kv.1 ∉ done_.*1) as Hk.
  { intros Hin. apply NoDup_app in Hnd as (_ & Hd & _). apply (Hd _ Hin). by left. }
  specialize (Hstep Hk Hkv Hw). destruct (want a force (cmds, need, next) kv) as [[c n] x]. replace (done_ ++ kv :: l) with ((done_ ++ [kv]) ++ l) by (by rewrite <- app_assoc).
  apply IH; [|done|done]. rewrite !fmap_app. cbn. by rewrite <- app_assoc.
Qed.

(** What a cvar that is no longer wanted is set to; [None]: it is left. *)
Definition given_back (a : Applier) (n : string) : option string :=
  match baseline a !! n with
  | Some b => Some b
  | None => if n =s "tv_secure_bypass" then Some "0" else if n =s "sv_deltaticks_enforce" then Some "2" else None
  end.

Definition back (a : Applier) (e : gmap string string) (l : list (string * string)) (next : gmap string string) (n : string) : option string :=
  match next !! n with
  | Some _ => e !! n
  | None => if bool_decide (n ∈ l.*1) then match given_back a n with Some v => Some v | None => e !! n end else e !! n
  end.

Lemma back_other a e l next kv n : n <> kv.1 -> back a e (l ++ [kv]) next n = back a e l next n.
Proof.
  intros Hn. unfold back. rewrite (bool_decide_ext (n ∈ (l ++ [kv]).*1) (n ∈ l.*1)); [done|].
  rewrite fmap_app, elem_of_app. cbn. rewrite list_elem_of_singleton. intuition.
Qed.
Lemma back_this a e l next kv : back a e (l ++ [kv]) next kv.1 =
  match next !! kv.1 with Some _ => e !! kv.1 | None => match given_back a kv.1 with Some v => Some v | None => e !! kv.1 end end.
Proof.
  unfold back. destruct (next !! kv.1); [done|]. rewrite bool_decide_eq_true_2; [done|].
  rewrite fmap_app, elem_of_app. cbn. rewrite list_elem_of_singleton. auto.
Qed.
Lemma back_new a e l next n : n ∉ l.*1 -> back a e l next n = e !! n.
Proof. intros Hn. unfold back. destruct (next !! n); [done|]. by rewrite bool_decide_eq_false_2. Qed.

(** One round of the second loop sets at most the cvar it looks at. *)
Lemma give_back_run a force need next e cmds notes kv : no_space kv.1 = true -> kv.1 ∉ need ->
  run_lines (give_back a force need next (cmds, notes) kv).1 e =
  match next !! kv.1, given_back a kv.1 with
  | None, Some v => if bool_decide (baseline a !! kv.1 = Some kv.2) && negb force then run_lines cmds e else <[kv.1 := v]> (run_lines cmds e)
  | _, _ => run_lines cmds e
  end.
Proof.
  destruct kv as [k v]. cbn [fst snd]. intros Hs Hneed.
  assert (forall v, run_lines (cmds ++ [command k v]) e = <[k := v]> (run_lines cmds e)) as Hc by (intros w; rewrite run_lines_app; by apply exec_command).
  unfold give_back, given_back. cbn [fst snd]. destruct (next !! k); [done|]. rewrite bool_decide_eq_false_2 by done.
  destruct (baseline a !! k) as [b|]; cbn [fst].
  - destruct (String.eqb_spec b v) as [->|Hb].
    + rewrite bool_decide_eq_true_2 by done. destruct force; [apply Hc|done].
    + rewrite bool_decide_eq_false_2 by congruence. apply Hc.
  - rewrite bool_decide_eq_false_2 by done. cbn [andb]. destruct (String.eqb_spec k "tv_secure_bypass") as [->|_]; [apply (Hc "0")|].
    destruct (String.eqb_spec k "sv_deltaticks_enforce") as [->|_]; [apply (Hc "2")|done].
Qed.

Lemma give_back_step a force need next e l cmds notes kv : (next !! kv.1 = None -> force = false -> e !! kv.1 = Some kv.2) -> kv.1 ∉ l.*1 -> kv.1 ∉ need -> no_space kv.1 = true ->
  (forall n, run_lines cmds e !! n = back a e l next n) -> forall n, run_lines (give_back a force need next (cmds, notes) kv).1 e !! n = back a e (l ++ [kv]) next n.
Proof.
  intros He Hk Hneed Hs Hr n. rewrite give_back_run by done. destruct (decide (n = kv.1)) as [->|Hn].
  - rewrite back_this. specialize (Hr kv.1). rewrite back_new in Hr by done. unfold given_back. destruct (next !! kv.1); [done|].
    destruct (baseline a !! kv.1) as [b|] eqn:Eb.
    + case_bool_decide as E; [|cbn; by rewrite lookup_insert_eq]. destruct force; cbn; [by rewrite lookup_insert_eq|]. rewrite Hr, He; congruence.
    + rewrite bool_decide_eq_false_2 by done. cbn [andb]. repeat case_if; rewrite ?lookup_insert_eq; done.
  - rewrite back_other, <- Hr by done. destruct (next !! kv.1); [done|]. destruct (given_back a kv.1); [|done].
    destruct (_ && _); rewrite ?lookup_insert_ne by done; done.
Qed.

Lemma give_back_all a force need next e l : (forall kv, kv ∈ l -> next !! kv.1 = None -> force = false -> e !! kv.1 = Some kv.2) ->
  Forall (fun kv => (kv.1 ∉ need) /\ no_space kv.1 = true) l ->
  forall done_ cmds notes, NoDup (done_ ++ l).*1 -> (forall n, run_lines cmds e !! n = back a e done_ next n) ->
  forall n, run_lines (foldl (give_back a force need next) (cmds, notes) l).1 e !! n = back a e (done_ ++ l) next n.
Proof.
  induction l as [|kv l IH]; intros He Hl done_ cmds notes Hnd Hr; [by rewrite app_nil_r|].
  apply list.Forall_cons in Hl as [[Hkn Hks] Hl]. cbn [foldl]. rewrite fmap_app in Hnd. cbn in Hnd.
  assert (kv.1 ∉ done_.*1) as Hk by (intros Hin; apply NoDup_app in Hnd as (_ & Hd & _); apply (Hd _ Hin); by left).
  pose proof (give_back_step a force need next e done_ cmds notes kv (He kv ltac:(by left)) Hk Hkn Hks Hr) as Hstep.
  destruct (give_back _ _ _ _ _ kv) as [c x]. replace (done_ ++ kv :: l) with ((done_ ++ [kv]) ++ l) by (by rewrite <- app_assoc).
  apply IH; [intros; apply He; [by right|done..]|done| |done]. rewrite !fmap_app. cbn. by rewrite <- app_assoc.
Qed.

(** The commands of the second loop do not depend on those of the first. *)
Lemma give_back_prefix a force need next l : forall pre cmds notes,
  foldl (give_back a force need next) (pre ++ cmds, notes) l =
  (pre ++ (foldl (give_back a force need next) (cmds, notes) l).1, (foldl (give_back a force need next) (cmds, notes) l).2).
Proof.
  induction l as [|[k v] l IH]; intros pre cmds notes; [done|]. cbn [foldl].
  assert (give_back a force need next (pre ++ cmds, notes) (k, v) = let '(c, x) := give_back a force need next (cmds, notes) (k, v) in (pre ++ c, x)) as E.
  { unfold give_back. cbn [fst snd]. destruct (next !! k); [done|]. case_bool_decide; [done|]. destruct (baseline a !! k); repeat case_if; by rewrite ?app_assoc. }
  rewrite E. destruct (give_back a force need next (cmds, notes) (k, v)) as [c x]. apply IH.
Qed.

(** ** What a plan does *)

Definition plain_names (a : Applier) (desired : list (string * string)) : Prop :=
  NoDup desired.*1 /\ Forall (fun kv => no_space kv.1 = true) desired /\ (forall n v, applied a !! n = Some v -> no_space n = true).

Record plan_done (a : Applier) (desired : list (string * string)) (e : gmap string string) (p : Plan) (a' : Applier) (e' : gmap string string) : Prop := {
  pd_desired n v : (n, v) ∈ desired -> unread a n /\ n ∈ needBaseline p /\ e' !! n = e !! n /\ applied a' !! n = None
                                       \/ ~ unread a n /\ e' !! n = Some v /\ applied a' !! n = Some v;
  pd_back n v : applied a !! n = Some v -> n ∉ desired.*1 -> applied a' !! n = None /\ e' !! n = match given_back a n with Some w => Some w | None => e !! n end;
  pd_rest n : applied a !! n = None -> n ∉ desired.*1 -> applied a' !! n = None /\ e' !! n = e !! n;
  pd_kept : baseline a' = baseline a /\ baselineUnknown a' = baselineUnknown a }.

Lemma PlanApply_done a desired force e p a' : (force = false -> agrees a e) -> plain_names a desired ->
  PlanApply a desired force = (p, a') -> plan_done a desired e p a' (run_lines (commands p) e).
Proof.
  intros Ha (Hnd & Hs & Has) Hp. unfold PlanApply in Hp.
  pose proof (want_all a force e desired Ha [] [] [] ∅ Hnd Hs) as Hw. cbn [app] in Hw.
  destruct (foldl (want a force) ([], [], ∅) desired) as [[cmds need] next].
  destruct Hw as [H1 H2 H3 H4]; [split; [set_solver|intros n v; rewrite lookup_empty; set_solver|done|done]|].
  pose proof (give_back_prefix a force need next (entries (applied a)) cmds [] []) as Hpre. rewrite app_nil_r in Hpre. rewrite Hpre in Hp. clear Hpre.
  set (e1 := run_lines cmds e) in *.
  assert (forall n, run_lines (foldl (give_back a force need next) ([], []) (entries (applied a))).1 e1 !! n = back a e1 (entries (applied a)) next n) as Hb.
  { apply (give_back_all a force need next e1 (entries (applied a))) with (done_ := []); [|apply Forall_forall|apply entries_NoDup|].
    - intros [k v] Hin Hn Hf. apply entries_spec in Hin. cbn in *. rewrite H4 by done. by apply Ha.
    - intros [k v] Hin. apply entries_spec in Hin. cbn. split; [|by eapply Has]. rewrite H1. intros [_ [Hu _]]. congruence.
    - intros n. by rewrite back_new by set_solver. }
  revert Hb Hp. destruct (foldl (give_back a force need next) ([], []) (entries (applied a))) as [c2 nts]. cbn [fst snd]. intros Hb [= <- <-]. cbn [commands].
  assert (forall n, run_lines (cmds ++ c2) e !! n = back a e1 (entries (applied a)) next n) as Hrun by (intros n; rewrite run_lines_app; apply Hb).
  assert (forall n v, applied a !! n = Some v -> n ∈ (entries (applied a)).*1) as Hin by (intros n v Hn%entries_spec; by apply (list_elem_of_fmap_2 fst _ _ Hn)).
  assert (forall n, applied a !! n = None -> n ∉ (entries (applied a)).*1) as Hout by (intros n Hn ([k v] & -> & Hk%entries_spec)%list_elem_of_fmap; cbn in *; congruence).
  assert (forall n, n ∉ desired.*1 -> next !! n = None) as Hnext.
  { intros n Hn. destruct (next !! n) as [w|] eqn:E; [|done]. apply H2 in E as [E _]. destruct Hn. by apply (list_elem_of_fmap_2 fst _ _ E). }
  split; cbn [applied needBaseline baseline baselineUnknown]; [| | |done].
  - intros n v Hd. pose proof (list_elem_of_fmap_2 fst _ _ Hd) as Hd1. cbn in Hd1. rewrite Hrun. destruct (next !! n) as [w|] eqn:En.
    + apply H2 in En as E. destruct E as [Hw Hu]. right. unfold back. rewrite En, (H3 _ _ En). split; [done|].
      assert (w = v) as -> by (pose proof (elem_of_list_to_map_1 (M:=gmap string) desired n v Hnd Hd); pose proof (elem_of_list_to_map_1 (M:=gmap string) desired n w Hnd Hw); congruence). done.
    + assert (unread a n) as Hu by (destruct (decide (unread a n)) as [|Hu]; [done|]; assert (next !! n = Some v) by (by apply H2); congruence).
      left. split_and!; [done|by apply H1| |done]. rewrite back_new, H4 by (apply Hout, Hu || done). done.
  - intros n v Hn Hd. rewrite Hrun. unfold back. rewrite Hnext by done. rewrite bool_decide_eq_true_2 by eauto. by rewrite H4 by auto.
  - intros n Hn Hd. rewrite Hrun, back_new by auto. rewrite H4 by auto. auto.
Qed.

(** ** Whatever was changed can be given back *)

Definition whole_number (v : string) : bool := NumericValue v && negb (contains "." v).

(** The plugin beside an engine that nobody else changes: plans are sent, and cvars that a plan asked for are read,
    with an answer or without one. *)
Inductive gotv_step : Applier * gmap string string -> Applier * gmap string string -> Prop :=
  | step_apply a e desired force p a' : plain_names a desired -> PlanApply a desired force = (p, a') -> gotv_step (a, e) (a', run_lines (commands p) e)
  | step_answer a e n v a' : unread a n -> e !! n = Some v -> whole_number v = true -> RecordBaseline a n (Some v) = Some a' -> gotv_step (a, e) (a', e)
  | step_no_answer a e n a' : unread a n -> RecordBaseline a n None = Some a' -> gotv_step (a, e) (a', e).

Record gotv_inv (e0 : gmap string string) (a : Applier) (e : gmap string string) : Prop := {
  gi_applied n v : applied a !! n = Some v -> e !! n = Some v /\ (is_Some (baseline a !! n) \/ n ∈ baselineUnknown a) /\ no_space n = true;
  gi_baseline n b : baseline a !! n = Some b -> e0 !! n = Some b /\ n ∉ baselineUnknown a;
  gi_rest n : applied a !! n = None -> n ∉ baselineUnknown a -> e !! n = e0 !! n }.

Lemma whole_number_trim v : whole_number v = true -> clean_value (Trim v) = Some v /\ NumericValue v = true.
Proof.
  unfold whole_number. intros [Hn Hc]%andb_prop. split; [|done]. assert (Trim v = v) as ->; [|unfold clean_value; by rewrite Hn, (proj1 (negb_true_iff _) Hc)].
  unfold NumericValue in Hn. apply andb_prop in Hn as [_ Hn]. apply strip_none. revert Hn. apply sforall_impl. intros c Hd.
  unfold isdigit, isspace in *. rewrite !ascii_eqb_code in Hd. change (code "-") with 45 in Hd. change (code ".") with 46 in Hd. split_bools; lia.
Qed.

Lemma RecordBaseline_whole a n v a' : whole_number v = true -> RecordBaseline a n (Some v) = Some a' ->
  a' = a \/ a' = {| baseline := <[n := v]> (baseline a); baselineUnknown := baselineUnknown a ∖ {[n]}; applied := applied a |}.
Proof.
  intros Hv. destruct (whole_number_trim v Hv) as [Hc Hn]. unfold RecordBaseline. case_if; [intros [= <-]; auto|]. rewrite Hc. cbn. rewrite Hn. cbn. intros [= <-]. auto.
Qed.
Lemma RecordBaseline_none a n a' : RecordBaseline a n None = Some a' ->
  a' = a \/ a' = {| baseline := baseline a; baselineUnknown := {[n]} ∪ baselineUnknown a; applied := applied a |}.
Proof. unfold RecordBaseline. case_if; intros [= <-]; auto. Qed.

Lemma gotv_inv_plan e0 a e desired force p a' : gotv_inv e0 a e -> plain_names a desired -> PlanApply a desired force = (p, a') ->
  gotv_inv e0 a' (run_lines (commands p) e).
Proof.
  intros [Hi Hb Hr] Hpl Hp. pose proof Hpl as (Hnd & Hs & _). rewrite Forall_forall in Hs.
  destruct (PlanApply_done a desired force e p a') as [P1 P2 P3 [E1 E2]]; [|done|done|]. { intros _ n v Hn. by apply Hi. }
  split; rewrite ?E1, ?E2.
  - intros n v Hn. destruct (decide (n ∈ desired.*1)) as [([k w] & -> & Hd)%list_elem_of_fmap|Hd].
    + cbn [fst] in *. destruct (P1 k w Hd) as [(_ & _ & _ & ?)|(Hu & He & Ha)]; [congruence|]. replace v with w by congruence. split_and!; [done| |by apply (Hs (k, w))].
      destruct (baseline a !! k) eqn:Ek; [eauto|]. destruct (applied a !! k) as [x|] eqn:Ex.
      * apply Hi in Ex as (_ & H & _). rewrite Ek in H. done.
      * destruct (decide (k ∈ baselineUnknown a)); [auto|]. by destruct Hu.
    + destruct (applied a !! n) as [x|] eqn:Ex; [destruct (P2 n x Ex Hd)|destruct (P3 n Ex Hd)]; congruence.
  - intros n b. apply Hb.
  - intros n Hn Hu. destruct (decide (n ∈ desired.*1)) as [([k w] & -> & Hd)%list_elem_of_fmap|Hd].
    + cbn [fst] in *. destruct (P1 k w Hd) as [([Hk _] & _ & -> & _)|(_ & _ & Ha)]; [by apply Hr|congruence].
    + destruct (applied a !! n) as [x|] eqn:Ex.
      * destruct (P2 n x Ex Hd) as [_ ->]. apply Hi in Ex as (_ & [[b Hbn]|?] & _); [|done]. unfold given_back. rewrite Hbn. by apply Hb in Hbn as [-> _].
      * destruct (P3 n Ex Hd) as [_ ->]. by apply Hr.
Qed.

Lemma gotv_inv_step e0 s s' : gotv_step s s' -> gotv_inv e0 s.1 s.2 -> gotv_inv e0 s'.1 s'.2.
Proof.
  intros Hstep Hinv. destruct Hstep as [a e desired force p a' Hpl Hp|a e n v a' (Hua & Hub & Huu) He Hw Hr|a e n a' (Hua & Hub & Huu) Hr]; cbn [fst snd] in *.
  - by eapply gotv_inv_plan.
  - destruct (RecordBaseline_whole a n v a' Hw Hr) as [->| ->]; [done|]. destruct Hinv as [H1 H2 H3]. split; cbn [applied baseline baselineUnknown].
    + intros k w Hk. destruct (H1 k w Hk) as (? & ? & ?). assert (k <> n) by congruence. rewrite lookup_insert_ne by done. split_and!; [done| |done]. set_solver.
    + intros k b. destruct (decide (k = n)) as [->|Hkn].
      * rewrite lookup_insert_eq. intros [= <-]. rewrite <- H3 by done. split; [done|set_solver].
      * rewrite lookup_insert_ne by done. intros [? ?]%H2. split; [done|set_solver].
    + intros k Hk Hu. apply H3; [done|]. destruct (decide (k = n)) as [->|]; [done|set_solver].
  - destruct (RecordBaseline_none a n a' Hr) as [->| ->]; [done|]. destruct Hinv as [H1 H2 H3]. split; cbn [applied baseline baselineUnknown].
    + intros k w Hk. destruct (H1 k w Hk) as (? & ? & ?). split_and!; [done|set_solver|done].
    + intros k b Hk. destruct (H2 k b Hk). split; [done|]. assert (k <> n) by congruence. set_solver.
    + intros k Hk Hu. apply H3; [done|set_solver].
Qed.

Lemma gotv_reachable e0 a e : rtc gotv_step (NoApplier, e0) (a, e) -> gotv_inv e0 a e.
Proof.
  intros Hr. assert (forall s, rtc gotv_step (NoApplier, e0) s -> gotv_inv e0 s.1 s.2) as H; [|by apply (H (a, e))].
  clear. apply rtc_ind_r; [|intros s s' _ Hstep IH; by eapply gotv_inv_step].
  split; cbn; [intros n v Hn|intros n b Hn|done]; by rewrite lookup_empty in Hn.
Qed.

(** From any history of plans and of cvars read (or not), a plan that wants nothing leaves the plugin with no cvar set,
    gives every cvar whose value could be read before the plugin changed it that value, and puts insecure observers to
    their safe setting even when the value before is not known. *)
Theorem gotv_restored e0 a e force p a' : rtc gotv_step (NoApplier, e0) (a, e) -> PlanApply a [] force = (p, a') ->
  applied a' = ∅ /\ (forall n, n ∉ baselineUnknown a -> run_lines (commands p) e !! n = e0 !! n) /\
  (forall v, applied a !! "tv_secure_bypass" = Some v -> "tv_secure_bypass" ∈ baselineUnknown a -> run_lines (commands p) e !! "tv_secure_bypass" = Some "0").
Proof.
  intros Hr%gotv_reachable Hp. assert (plain_names a []) as Hpl by (split_and!; [constructor|done|intros n v Hn; by apply (gi_applied _ _ _ Hr) in Hn as (_ & _ & ?)]).
  destruct (PlanApply_done a [] force e p a') as [_ P2 P3 _]; [intros _ n v Hn; by apply (gi_applied _ _ _ Hr)|done|done|].
  assert (applied a' = ∅) as Hempty.
  { apply map_eq. intros n. rewrite lookup_empty. destruct (applied a !! n) as [v|] eqn:E; [apply (P2 n v E)|apply (P3 n E)]; set_solver. }
  split_and!; [done| |].
  - intros n Hu. destruct (gotv_inv_plan e0 a e [] force p a' Hr Hpl Hp) as [_ _ H3]. apply H3; [by rewrite Hempty, lookup_empty|].
    assert (baselineUnknown a' = baselineUnknown a) as ->; [|done]. unfold PlanApply in Hp. cbn [foldl] in Hp.
    destruct (foldl (give_back a force [] ∅) ([], []) (entries (applied a))). by injection Hp as _ <-.
  - intros v Hv Hu. destruct (P2 _ v Hv) as [_ ->]; [set_solver|]. unfold given_back. destruct (baseline a !! _) as [b|] eqn:Eb; [|done].
    by apply (gi_baseline _ _ _ Hr) in Eb as [_ ?].
Qed.

(** A match with insecure observers on a server whose [tv_secure_bypass] was 0 and whose [sv_deltaticks_enforce] does not answer. *)
Definition gotv_engine : gmap string string := <["tv_delay" := "10"]> (<["tv_secure_bypass" := "0"]> (<["sv_deltaticks_enforce" := "x"]> ∅)).
Definition gotv_desired : list (string * string) := [("tv_delay", "105"); ("tv_secure_bypass", "1"); ("sv_deltaticks_enforce", "0")].
Definition gotv_read : Applier :=
  {| baseline := <["tv_secure_bypass" := "0"]> (<["tv_delay" := "10"]> ∅); baselineUnknown := {["sv_deltaticks_enforce"]}; applied := ∅ |}.
Definition gotv_set : Applier := (PlanApply gotv_read gotv_desired false).2.
Definition gotv_changed : gmap string string := run_lines (commands (PlanApply gotv_read gotv_desired false).1) gotv_engine.

Example gotv_sample :
  needBaseline (PlanApply NoApplier gotv_desired false).1 = ["tv_delay"; "tv_secure_bypass"; "sv_deltaticks_enforce"] /\
  commands (PlanApply gotv_read gotv_desired false).1 = ["tv_delay 105"; "tv_secure_bypass 1"; "sv_deltaticks_enforce 0"] /\
  commands (PlanApply gotv_set [] false).1 = ["sv_deltaticks_enforce 2"; "tv_delay 10"; "tv_secure_bypass 0"].
Proof. vm_compute. done. Qed.

Lemma gotv_history : rtc gotv_step (NoApplier, gotv_engine) (gotv_set, gotv_changed).
Proof.
  eapply rtc_l; [apply (step_answer _ _ "tv_delay" "10"); [split_and!; [done..|apply (bool_decide_eq_true_1 _); vm_compute; reflexivity]|done|done|vm_compute; reflexivity]|].
  eapply rtc_l; [apply (step_answer _ _ "tv_secure_bypass" "0"); [split_and!; [done..|apply (bool_decide_eq_true_1 _); vm_compute; reflexivity]|done|done|vm_compute; reflexivity]|].
  eapply rtc_l; [apply (step_no_answer _ _ "sv_deltaticks_enforce"); [split_and!; [done..|apply (bool_decide_eq_true_1 _); vm_compute; reflexivity]|vm_compute; reflexivity]|].
  apply rtc_once. apply (step_apply gotv_read gotv_engine gotv_desired false); [|done].
  split_and!; [apply (bool_decide_eq_true_1 _); vm_compute; reflexivity|by repeat constructor|done].
Qed.
Lemma gotv_restored_witness : run_lines (commands (PlanApply gotv_set [] false).1) gotv_changed !! "tv_delay" = Some "10".
Proof.
  destruct (gotv_restored gotv_engine gotv_set gotv_changed false _ _ gotv_history eq_refl) as (_ & H & _). rewrite H; [reflexivity|].
  apply (bool_decide_eq_true_1 _). vm_compute. reflexivity.
Defined.

(** * Theorems about the GOTV plugin's active match and its files *)

Import Bc Tv.

(** ** The active match *)

Inductive track_op := OpAssign (p : MatchProfile) (now ttl : double) | OpUnassign (id : string) | OpObserve (loaded : string) (now : double).
Definition track (t : MatchTracker) (op : track_op) : MatchTracker :=
  match op with OpAssign p now ttl => Assign p now ttl t | OpUnassign id => (Unassign id t).1 | OpObserve loaded now => (Observe loaded now t).1 end.
Definition run_track (ops : list track_op) : MatchTracker := foldl track NoTracker ops.

(** The operations that replace or end the match [id]. *)
Definition ends (id : string) (op : track_op) : Prop :=
  match op with OpAssign p _ _ => matchId p = id | OpUnassign x => x = EmptyString \/ x = id | OpObserve _ _ => False end.

(** [m] is what the last assignment of its match said (an override aside), and no unassignment came after. *)
Definition tracked (ops : list track_op) (m : MatchProfile) : Prop :=
  exists l1 p now ttl l2, ops = l1 ++ OpAssign p now ttl :: l2 /\ with_override (override_ m) p = m /\ Forall (fun op => ~ ends (matchId m) op) l2.

Lemma tracked_snoc ops m op : ~ ends (matchId m) op -> tracked ops m -> tracked (ops ++ [op]) m.
Proof.
  intros He (l1 & p & now & ttl & l2 & -> & Hm & Hl). exists l1, p, now, ttl, (l2 ++ [op]). rewrite <- app_assoc. split_and!; [done..|].
  apply Forall_app. auto.
Qed.
Lemma tracked_new ops p now ttl o : tracked (ops ++ [OpAssign p now ttl]) (with_override o p).
Proof. exists ops, p, now, ttl, []. split_and!; [done..|constructor]. Qed.
Lemma with_override_own p : with_override (override_ p) p = p.
Proof. by destruct p. Qed.

Record track_inv (ops : list track_op) (t : MatchTracker) : Prop := {
  ti_pending m : pending t = Some m -> tracked ops m /\ (forall a, active t = Some a -> matchId a <> matchId m);
  ti_active m : active t = Some m -> tracked ops m /\ exists now, OpObserve (matchId m) now ∈ ops }.

(** What [Assign] and [Observe] leave in the two slots. *)
Lemma Assign_slots p now ttl t :
  (exists a, active t = Some a /\ matchId a = matchId p /\ active (Assign p now ttl t) = Some (with_override (override_ a) p) /\ pending (Assign p now ttl t) = None) \/
  ((forall a, active t = Some a -> matchId a <> matchId p) /\ active (Assign p now ttl t) = active t /\ pending (Assign p now ttl t) = Some p).
Proof.
  unfold Assign. destruct (active t) as [a|] eqn:Ea; [|right; cbn; by rewrite ?Ea].
  destruct (String.eqb_spec (matchId a) (matchId p)) as [E|E]; [left; eauto|right]. cbn. rewrite ?Ea. split_and!; [by intros ? [= <-]|done..].
Qed.
Lemma Unassign_slots id t : let t' := (Unassign id t).1 in
  active t' = (if names_match id (active t) then None else active t) /\ pending t' = (if names_match id (pending t) then None else pending t).
Proof. unfold Unassign. destruct (names_match id (active t)), (names_match id (pending t)); done. Qed.
Lemma Observe_slots loaded now t : let t' := (Observe loaded now t).1 in
  (exists p, pending t = Some p /\ matchId p = loaded /\ active t' = Some p /\ pending t' = None) \/
  ((active t' = active t \/ active t' = None) /\ (pending t' = pending t \/ pending t' = None)).
Proof.
  unfold Observe. destruct (pending t) as [p|] eqn:Ep.
  - destruct (negb (sempty loaded) && (loaded =s matchId p)) eqn:E.
    + apply andb_prop in E as [_ ->%String.eqb_eq]. left. exists p. done.
    + right. destruct (pendingTtl t <d _); cbn; destruct (active t) eqn:Ea; repeat case_if; cbn; rewrite ?Ep, ?Ea; auto.
  - right. cbn. destruct (active t) eqn:Ea; repeat case_if; cbn; rewrite ?Ep, ?Ea; auto.
Qed.

Lemma not_named id m : names_match id (Some m) = false -> ~ (id = EmptyString \/ id = matchId m).
Proof. cbn. intros [H1 H2]%orb_false_elim [->| ->]; [done|]. by apply String.eqb_neq in H2. Qed.

Lemma track_inv_step ops t op : track_inv ops t -> track_inv (ops ++ [op]) (track t op).
Proof.
  intros [Hp Ha]. destruct op as [p now ttl|id|loaded now]; cbn [track].
  - destruct (Assign_slots p now ttl t) as [(a & Eact & Hid & E1 & E2)|(Hne & E1 & E2)]; (split; intros m); rewrite ?E1, ?E2; try done.
    + intros [= <-]. split; [apply tracked_new|]. destruct (Ha a Eact) as [_ [n Hn]]. exists n. cbn. rewrite <- Hid. apply elem_of_app. auto.
    + intros [= <-]. split; [pose proof (tracked_new ops p now ttl (override_ p)) as H; by rewrite with_override_own in H|done].
    + intros Hm. destruct (Ha m Hm) as [Ht [n Hn]]. split; [apply tracked_snoc; [|done]; cbn; intros E; by apply (Hne m)|]. exists n. apply elem_of_app. auto.
  - destruct (Unassign_slots id t) as [E1 E2]. split; intros m; rewrite ?E1, ?E2.
    + destruct (names_match id (pending t)) eqn:En; [done|]. intros Hm. rewrite Hm in En. destruct (Hp m Hm) as [Ht Hne].
      split; [apply tracked_snoc; [by apply not_named|done]|]. intros a. case_if; [done|apply Hne].
    + destruct (names_match id (active t)) eqn:En; [done|]. intros Hm. rewrite Hm in En. destruct (Ha m Hm) as [Ht [n Hn]].
      split; [apply tracked_snoc; [by apply not_named|done]|]. exists n. apply elem_of_app. auto.
  - destruct (Observe_slots loaded now t) as [(p & Ep & Hid & E1 & E2)|[E1 E2]].
    + split; intros m; rewrite ?E1, ?E2; [done|]. intros [= <-]. split; [apply tracked_snoc; [tauto|by apply Hp]|]. exists now. rewrite Hid. apply elem_of_app. right. by left.
    + split; intros m.
      * destruct E2 as [->| ->]; [|done]. intros Hm. destruct (Hp m Hm) as [Ht Hne]. split; [by apply tracked_snoc; [tauto|]|].
        intros a. destruct E1 as [->| ->]; [apply Hne|done].
      * destruct E1 as [->| ->]; [|done]. intros Hm. destruct (Ha m Hm) as [Ht [n Hn]]. split; [by apply tracked_snoc; [tauto|]|]. exists n. apply elem_of_app. auto.
Qed.

Lemma run_track_inv ops : track_inv ops (run_track ops).
Proof.
  induction ops as [|op ops IH] using rev_ind; [by split|]. unfold run_track. rewrite foldl_app. by apply track_inv_step.
Qed.

(** The active match was reported by the match plugin, its profile is what the last assignment of that match said, and
    nobody has unassigned it since. *)
Theorem tracker_sound ops m : active (run_track ops) = Some m -> tracked ops m /\ exists now, OpObserve (matchId m) now ∈ ops.
Proof. apply run_track_inv. Qed.

Definition match_a : MatchProfile :=
  {| matchId := "m-1"; profile := some_profile; override_ := NoProfile; delayFloor := 105; passwordSet := true; matchCvars := [("tv_delay", "30")] |}.
Lemma tracker_sound_witness : tracked [OpAssign match_a (of_int 1) (of_int 90); OpObserve "m-1" (of_int 2); OpUnassign "m-2"] match_a.
Proof. apply (tracker_sound [OpAssign match_a (of_int 1) (of_int 90); OpObserve "m-1" (of_int 2); OpUnassign "m-2"] match_a). vm_compute. reflexivity. Defined.

(** ** A reload of the match plugin *)

Definition observe_all (obs : list (string * double)) (t : MatchTracker) : MatchTracker := foldl (fun t o => (Observe o.1 o.2 t).1) t obs.

Lemma observe_mismatch m since obs : forall t, (since <d of_int 0) = false -> active t = Some m -> pending t = None -> mismatchSince t = since ->
  Forall (fun o => o.1 <> matchId m) obs ->
  active (observe_all obs t) = if existsb (fun o => kGraceSeconds <=d dsub o.2 since) obs then None else Some m.
Proof.
  assert (forall obs t, active t = None -> pending t = None -> active (observe_all obs t) = None) as Hnone.
  { clear. intros obs. induction obs as [|o obs IH]; intros t Ha Hp; [done|]. cbn [observe_all foldl]. apply IH; unfold Observe; rewrite Hp, Ha; cbn; by rewrite ?Ha, ?Hp. }
  induction obs as [|[l now] obs IH]; intros t Hs Ha Hp Hm Hobs; [done|]. apply list.Forall_cons in Hobs as [Hl Hobs]. cbn [fst] in Hl.
  cbn [observe_all foldl fst snd existsb]. assert ((Observe l now t).1 = if kGraceSeconds <=d dsub now since then with_active None t else t) as ->.
  { unfold Observe. rewrite Hp, Ha, Hm. cbn -[kGraceSeconds of_int]. apply String.eqb_neq in Hl. rewrite Hl, Hs. by case_if. }
  destruct (kGraceSeconds <=d dsub now since); cbn [orb]; [by apply Hnone|by apply IH].
Qed.

(** When the match plugin stops reporting the active match, the match stays active through every report less than 5
    seconds after the first that did not name it, and ends at the first report 5 seconds or more after it. *)
Theorem tracker_grace t m l0 t0 obs : active t = Some m -> pending t = None -> (mismatchSince t <d of_int 0) = true -> (t0 <d of_int 0) = false ->
  l0 <> matchId m -> Forall (fun o => o.1 <> matchId m) obs ->
  active (observe_all ((l0, t0) :: obs) t) = if existsb (fun o => kGraceSeconds <=d dsub o.2 t0) obs then None else Some m.
Proof.
  intros Ha Hp Hm Ht Hl Hobs. cbn [observe_all foldl fst snd]. assert ((Observe l0 t0 t).1 = with_mismatch t0 t) as ->; [|by apply observe_mismatch].
  unfold Observe. rewrite Hp, Ha. cbn -[of_int]. apply String.eqb_neq in Hl. by rewrite Hl, Hm.
Qed.
Lemma tracker_grace_witness :
  active (observe_all [(EmptyString, of_int 10); (EmptyString, of_int 14); (EmptyString, of_int 15)] (run_track [OpAssign match_a (of_int 1) (of_int 90); OpObserve "m-1" (of_int 2)])) = None.
Proof. apply (tracker_grace _ match_a); vm_compute; try reflexivity; [discriminate|]. repeat constructor; discriminate. Defined.

(** ** The files *)

Definition printable (s : string) : bool := sforall (fun c => (32 <=? code c) && negb (code c =? 127)) s.
Lemma quote_char_printable c : (32 <=? code c) && negb (code c =? 127) = true -> quote_char c = escape_char c.
Proof. destruct c as [[] [] [] [] [] [] [] []]; try discriminate; reflexivity. Qed.
Lemma Quote_printable s : printable s = true -> Quote s = JsonEscape s.
Proof.
  intros Hs. unfold Quote, JsonEscape. do 2 f_equal. induction s as [|c s IH]; [done|]. cbn in Hs. apply andb_prop in Hs as [Hc Hs].
  cbn [quote_body escape_body]. by rewrite quote_char_printable, IH.
Qed.

Definition printable_map (l : list (string * string)) : Prop := Forall (fun kv => printable kv.1 = true /\ printable kv.2 = true) l.
Definition strings_json (l : list (string * string)) : list (string * Json) := (fun kv => (kv.1, JString kv.2)) <$> l.
Lemma json_map_Dump l : printable_map l -> json_map l = Dump (JObject (strings_json l)).
Proof.
  intros Hl. unfold json_map. rewrite <- comma_list_members. do 3 f_equal. unfold strings_json. rewrite <- list_fmap_compose. apply list_fmap_ext.
  intros i kv Hi%list_elem_of_lookup_2. unfold printable_map in Hl. rewrite Forall_forall in Hl. destruct (Hl kv Hi) as [H1 H2].
  unfold compose, member_text. cbn [fst snd Dump]. by rewrite !Quote_printable.
Qed.

Lemma strings_json_ok (f : Json -> bool) l : (forall s, f (JString s) = true) -> all_members f (strings_json l) = true.
Proof. intros Hf. rewrite all_members_forall. apply Forall_forall. intros kv ([k v] & -> & _)%list_elem_of_fmap. apply Hf. Qed.
Lemma strings_json_keys l : keys (strings_json l) = l.*1.
Proof. induction l as [|kv l IH]; [done|]. cbn. by rewrite <- IH. Qed.
Lemma strings_json_mini l : all_vals mini (strings_json l) = (fun kv => (kv.1, MString kv.2)) <$> l.
Proof. induction l as [|kv l IH]; [done|]. cbn. by rewrite <- IH. Qed.

Lemma obj_find_strings (l : list (string * string)) n : obj_find n ((fun kv => (kv.1, MString kv.2)) <$> l) = MString <$> (list_to_map l : gmap string string) !! n.
Proof.
  induction l as [|[k v] l IH]; [done|]. cbn. destruct (String.eqb_spec k n) as [->|Hn]; [by rewrite lookup_insert_eq|]. by rewrite lookup_insert_ne.
Qed.

Lemma omap_sublist (g : string -> option string) (names : list string) : forall l, sublist l.*1 names -> NoDup names ->
  (forall n s, (n, s) ∈ l -> g n = Some s) -> (forall n, n ∈ names -> n ∉ l.*1 -> g n = None) -> omap (fun n => (fun s => (n, s)) <$> g n) names = l.
Proof.
  induction names as [|n names IH]; intros l Hl Hnd Hin Hout.
  - apply sublist_nil_r in Hl. by destruct l.
  - apply NoDup_cons in Hnd as [Hn Hnd]. cbn. apply sublist_cons_r in Hl as [Hl|(k & Hk & Hl)].
    + rewrite Hout; [|by left|intros Hx; apply Hn; by eapply elem_of_sublist]. cbn. apply IH; [done..|]. intros m Hm. apply Hout. by right.
    + destruct l as [|[n' s] l]; [done|]. cbn in Hk. injection Hk as -> <-. rewrite (Hin n s) by (by left). cbn. f_equal.
      apply IH; [done..| |].
      * intros m t Hm. apply Hin. by right.
      * intros m Hm Hl'. apply Hout; [by right|]. cbn. intros [->|?]%elem_of_cons; done.
Qed.

(** *** A match's profile *)

Record match_ok (m : MatchProfile) : Prop := {
  mo_id : matchId m <> EmptyString /\ slen (matchId m) <= 64 /\ printable (matchId m) = true;
  mo_profile : profile_ok (profile m) /\ profile_ok (override_ m);
  mo_floor : 0 <= delayFloor m <= kMaxDelaySeconds;
  mo_cvars : sublist (matchCvars m).*1 OwnedCvars /\ Forall (fun kv => NumericValue kv.2 = true) (matchCvars m) }.

Definition match_json (m : MatchProfile) : Json :=
  JObject [("version", JInt 1); ("match_id", JString (matchId m)); ("profile", profile_json (profile m)); ("override", profile_json (override_ m));
           ("delay_floor", JInt (delayFloor m)); ("password_set", JBool (passwordSet m)); ("match_cvars", JObject (strings_json (matchCvars m)))].

Lemma numeric_printable v : NumericValue v = true -> printable v = true.
Proof.
  unfold NumericValue. intros [_ Hn]%andb_prop. revert Hn. apply sforall_impl. intros c Hd. unfold isdigit in Hd. rewrite !ascii_eqb_code in Hd.
  change (code "-") with 45 in Hd. change (code ".") with 46 in Hd. split_bools; lia.
Qed.

Lemma owned_printable l : sublist l.*1 OwnedCvars -> Forall (fun kv => NumericValue kv.2 = true) l -> printable_map l.
Proof.
  intros Hs Hn. unfold printable_map. rewrite Forall_forall in *. intros kv Hkv. split; [|apply numeric_printable; by apply Hn].
  assert (kv.1 ∈ OwnedCvars) as Ho by (eapply elem_of_sublist; [|done]; by apply list_elem_of_fmap_2).
  assert (Forall (fun n => printable n = true) OwnedCvars) as Hall by (by repeat constructor). rewrite Forall_forall in Hall. by apply Hall.
Qed.

Lemma MatchProfileJson_Dump m : match_ok m -> MatchProfileJson m = Dump (match_json m).
Proof.
  intros [(_ & _ & Hid) _ _ [Hs Hn]]. unfold MatchProfileJson, match_json. rewrite Quote_printable, !ProfileJson_Dump, json_map_Dump by (by try apply owned_printable).
  generalize (profile_json (profile m)) (profile_json (override_ m)) (JObject (strings_json (matchCvars m))). intros p o c.
  cbn [Dump]. unfold dump_members. cbn [fst snd String.append]. rewrite ?app_assoc_s. destruct (passwordSet m); reflexivity.
Qed.

Lemma OwnedCvars_NoDup : NoDup OwnedCvars.
Proof. apply (bool_decide_eq_true_1 _). vm_compute. reflexivity. Qed.

Lemma match_json_plain m : match_ok m -> plain (match_json m) = true /\ small (match_json m) = true.
Proof.
  intros [_ [Hp Ho] Hf [Hs Hn]]. destruct (profile_json_plain _ Hp) as [Hp1 Hp2], (profile_json_plain _ Ho) as [Ho1 Ho2].
  unfold match_json. revert Hp1 Hp2 Ho1 Ho2. generalize (profile_json (profile m)) (profile_json (override_ m)). intros p o Hp1 Hp2 Ho1 Ho2.
  assert (plain (JObject (strings_json (matchCvars m))) = true) as Hc1.
  { cbn [plain]. apply andb_true_intro. split; [|by apply strings_json_ok]. apply bool_decide_eq_true. rewrite strings_json_keys.
    eapply sublist_NoDup; [apply OwnedCvars_NoDup|done]. }
  assert (small (JObject (strings_json (matchCvars m))) = true) as Hc2 by (by apply strings_json_ok).
  revert Hc1 Hc2. generalize (JObject (strings_json (matchCvars m))). intros c Hc1 Hc2. unfold kMaxDelaySeconds in Hf. split; cbn [plain small].
  - apply andb_true_intro. split; [apply (bool_decide_eq_true (NoDup _)); apply (bool_decide_eq_true_1 _); vm_compute; reflexivity|].
    cbn. rewrite Hp1, Ho1, Hc1. rewrite !bool_decide_eq_true_2 by (unfold int64_ok; lia). done.
  - cbn. rewrite Hp2, Ho2, Hc2. rewrite !bool_decide_eq_true_2 by (unfold int53_ok; lia). done.
Qed.

Lemma stored_floor_ok n : 0 <= n <= kMaxDelaySeconds -> (of_int 0 <=d of_int n) && (of_int n <=d of_int kMaxDelaySeconds) = true.
Proof.
  intros Hn. assert (forallb (fun i => (of_int 0 <=d of_int (Z.of_nat i)) && (of_int (Z.of_nat i) <=d of_int kMaxDelaySeconds)) (seq 0 961) = true) as E by (vm_compute; reflexivity).
  rewrite forallb_forall in E. specialize (E (Z.to_nat n)). rewrite Z2Nat.id in E by lia. apply E, in_seq. unfold kMaxDelaySeconds in Hn. lia.
Qed.

Lemma stored_cvars l : sublist l.*1 OwnedCvars -> Forall (fun kv => NumericValue kv.2 = true) l ->
  omap (stored_cvar (MObject ((fun kv => (kv.1, MString kv.2)) <$> l))) OwnedCvars = l.
Proof.
  intros Hs Hn. rewrite Forall_forall in Hn. assert (NoDup l.*1) as Hnd by (eapply sublist_NoDup; [apply OwnedCvars_NoDup|done]).
  rewrite <- (omap_sublist (fun n => (list_to_map l : gmap string string) !! n) OwnedCvars l) at 2;
    [|done|apply OwnedCvars_NoDup|intros; by apply elem_of_list_to_map_1|intros; by apply not_elem_of_list_to_map_1].
  apply list_omap_ext, Forall_Forall2_diag, Forall_forall. intros n _.
  unfold stored_cvar. cbn [mget]. rewrite obj_find_strings. destruct ((list_to_map l : gmap string string) !! n) as [s|] eqn:E; [|done]. cbn.
  apply elem_of_list_to_map_2 in E. specialize (Hn _ E); cbn in Hn; by rewrite Hn.
Qed.

(** The saved profile of a match is read back: after a restart the server has the same profile, override, delay minimum,
    password flag and match cvars. *)
Theorem match_profile_roundtrip m : match_ok m -> ParseMatchProfile (MatchProfileJson m) = Some m.
Proof.
  intros Hok. destruct (match_json_plain m Hok) as [H1 H2]. unfold ParseMatchProfile, ParseObj. rewrite MatchProfileJson_Dump, mini_Parse_Dump by done.
  destruct Hok as [(Hid & Hlen & _) [Hp Ho] Hf [Hs Hn]]. unfold match_json.
  pose proof (ParseProfile_json (profile m) false Hp) as Ep. pose proof (ParseProfile_json (override_ m) false Ho) as Eo.
  pose proof (stored_cvars (matchCvars m) Hs Hn) as Ec. rewrite <- strings_json_mini in Ec.
  pose proof (stored_floor_ok _ Hf) as Ef. pose proof (dtrunc_of_int (delayFloor m) ltac:(unfold kMaxDelaySeconds in Hf; lia)) as Et.
  cbn [mini all_vals fst snd]. revert Ep Eo Ec Ef Et. generalize (mini (profile_json (profile m))) (mini (profile_json (override_ m))) (all_vals mini (strings_json (matchCvars m))) (of_int (delayFloor m)).
  intros p o c f Ep Eo Ec Ef Et. cbn [mbind option_bind].
  set (v := MObject _). assert (mget v "profile" = Some p /\ mget v "override" = Some o /\ mget v "match_id" = Some (MString (matchId m)) /\
    mget v "delay_floor" = Some (MNumber f) /\ mget v "password_set" = Some (MBool (passwordSet m)) /\ mget v "match_cvars" = Some (MObject c)) as (E1 & E2 & E3 & E4 & E5 & E6) by done.
  unfold member_profile, stored_floor. rewrite E1, E2, E3, E4, E5, E6, Ep, Eo, Ef, Et, Ec. cbn [mbind option_bind default from_option].
  destruct (sempty (matchId m)) eqn:Es; [by destruct (matchId m)|]. rewrite (proj2 (Z.ltb_ge _ _) Hlen). cbn. by destruct m.
Qed.

Lemma match_profile_roundtrip_witness : ParseMatchProfile (MatchProfileJson match_a) = Some match_a.
Proof.
  apply (match_profile_roundtrip match_a). split; cbn.
  - split_and!; [done|vm_compute; discriminate|done].
  - repeat split; vm_compute; discriminate.
  - vm_compute. split; discriminate.
  - split; [|by repeat constructor]. vm_compute. apply sublist_skip, sublist_nil_l.
Defined.

(** *** What the plugin set, across a reload *)

Lemma comma_items_more l acc : foldl (fun acc s => acc +s+ "," +s+ s) acc (Dump <$> l) +s+ "]" = acc +s+ dump_items Dump false l.
Proof.
  revert acc. induction l as [|v l IH]; intros acc; [done|]. cbn [fmap list_fmap foldl dump_items]. rewrite IH. by rewrite !app_assoc_s.
Qed.
Lemma comma_list_items l : "[" +s+ comma_list (Dump <$> l) +s+ "]" = Dump (JArray l).
Proof.
  destruct l as [|v l]; [done|]. cbn [fmap list_fmap comma_list Dump dump_items]. rewrite app_cons_s. cbn [String.append]. f_equal. apply comma_items_more.
Qed.

Definition stash_ok (m : gmap string string) : Prop :=
  map_Forall (fun n v => printable n = true /\ contains "password" n = false /\ NumericValue v = true) m.
Definition applier_ok (a : Applier) : Prop :=
  stash_ok (baseline a) /\ stash_ok (applied a) /\ set_Forall (fun n => printable n = true) (baselineUnknown a).

Definition unknown_names (a : Applier) : list string := merge_sort str_le (elements (baselineUnknown a)).
Definition applier_json (a : Applier) : Json :=
  JObject [("baseline", JObject (strings_json (entries (baseline a)))); ("unknown", JArray (JString <$> unknown_names a));
           ("applied", JObject (strings_json (entries (applied a))))].

Lemma stash_printable m : stash_ok m -> printable_map (entries m).
Proof.
  intros Hm. apply Forall_forall. intros [n v] Hn%entries_spec. destruct (Hm n v Hn) as (? & _ & ?). split; [done|by apply numeric_printable].
Qed.
Lemma stash_foldl l n : forall acc, Forall (fun kv => contains "password" kv.1 = false /\ NumericValue kv.2 = true) l -> NoDup l.*1 ->
  foldl stash_entry acc ((fun kv => (kv.1, MString kv.2)) <$> l) !! n = match (list_to_map l : gmap string string) !! n with Some v => Some v | None => acc !! n end.
Proof.
  induction l as [|[k v] l IH]; intros acc Hl Hnd; [done|].
  apply list.Forall_cons in Hl as [[Hp Hn] Hl]. cbn [fst snd fmap list_fmap] in Hp, Hn, Hnd. apply NoDup_cons in Hnd as [Hkl Hnd].
  cbn [fmap list_fmap foldl list_to_map foldr fst snd]. replace (stash_entry acc (k, MString v)) with (<[k := v]> acc) by (unfold stash_entry; cbn [fst snd]; by rewrite Hp, Hn).
  rewrite IH by done. destruct (decide (n = k)) as [->|Hnk].
  - rewrite (not_elem_of_list_to_map_1 (M:=gmap string) l k Hkl), !lookup_insert_eq. done.
  - rewrite !lookup_insert_ne by done. done.
Qed.

Lemma stash_map_json m : stash_ok m -> stash_map (Some (MObject (all_vals mini (strings_json (entries m))))) = m.
Proof.
  intros Hm. rewrite strings_json_mini. cbn [stash_map]. apply map_eq. intros n. rewrite stash_foldl; [|apply Forall_forall|apply entries_NoDup].
  - rewrite lookup_empty. destruct (m !! n) as [v|] eqn:E.
    + by rewrite (elem_of_list_to_map_1 (M:=gmap string) _ n v (entries_NoDup m) (proj2 (entries_spec m n v) E)).
    + rewrite not_elem_of_list_to_map_1; [done|]. intros ([k v] & -> & Hk%entries_spec)%list_elem_of_fmap. cbn in E. congruence.
  - intros [k v] Hk%entries_spec. destruct (Hm k v Hk) as (_ & ? & ?). done.
Qed.

Lemma stash_names l acc : foldl stash_name acc (MString <$> l) = list_to_set l ∪ acc.
Proof. revert acc. induction l as [|n l IH]; intros acc; cbn; [set_solver|]. rewrite IH. set_solver. Qed.
Lemma all_elems_strings l : all_elems mini (JString <$> l) = MString <$> l.
Proof. induction l as [|s l IH]; [done|]. cbn. by rewrite <- IH. Qed.
Lemma unknown_names_set a : list_to_set (unknown_names a) = baselineUnknown a.
Proof. unfold unknown_names. apply set_eq. intros n. rewrite elem_of_list_to_set, (merge_sort_Permutation _ _). apply elem_of_elements. Qed.

Lemma ApplierJson_Dump a : applier_ok a -> ApplierJson a = Dump (applier_json a).
Proof.
  intros (Hb & Ha & Hu). unfold ApplierJson, applier_json. rewrite !json_map_Dump by (by apply stash_printable).
  assert (Quote <$> unknown_names a = Dump <$> (JString <$> unknown_names a)) as E.
  { rewrite <- list_fmap_compose. apply list_fmap_ext. intros i n Hi%list_elem_of_lookup_2. unfold compose. cbn [Dump]. apply Quote_printable, Hu.
    rewrite <- unknown_names_set. by apply elem_of_list_to_set. }
  fold (unknown_names a). rewrite E. pose proof (comma_list_items (JString <$> unknown_names a)) as Ei. revert Ei.
  generalize (JObject (strings_json (entries (baseline a)))) (JObject (strings_json (entries (applied a)))) (comma_list (Dump <$> (JString <$> unknown_names a))).
  generalize (JArray (JString <$> unknown_names a)). intros u b p t Ei. cbn [Dump]. unfold dump_members. rewrite <- Ei. cbn [fst snd String.append]. rewrite ?app_assoc_s. reflexivity.
Qed.

Lemma all_items_strings (f : Json -> bool) l : (forall s, f (JString s) = true) -> all_items f (JString <$> l) = true.
Proof. intros Hf. rewrite all_items_forall. apply Forall_forall. intros v (s & -> & _)%list_elem_of_fmap. apply Hf. Qed.

Lemma applier_json_plain a : plain (applier_json a) = true /\ small (applier_json a) = true.
Proof.
  assert (forall m, plain (JObject (strings_json (entries m))) = true /\ small (JObject (strings_json (entries m))) = true) as Ho.
  { intros m. split; [|by apply strings_json_ok]. cbn [plain]. apply andb_true_intro. split; [|by apply strings_json_ok].
    apply bool_decide_eq_true. rewrite strings_json_keys. apply entries_NoDup. }
  destruct (Ho (baseline a)) as [B1 B2], (Ho (applied a)) as [A1 A2].
  assert (plain (JArray (JString <$> unknown_names a)) = true) as U1 by (by apply all_items_strings).
  assert (small (JArray (JString <$> unknown_names a)) = true) as U2 by (by apply all_items_strings).
  unfold applier_json. revert B1 B2 A1 A2 U1 U2. generalize (JObject (strings_json (entries (baseline a)))) (JObject (strings_json (entries (applied a)))) (JArray (JString <$> unknown_names a)).
  intros b p u B1 B2 A1 A2 U1 U2. split; cbn; rewrite ?B1, ?B2, ?A1, ?A2, ?U1, ?U2; [|done]. rewrite andb_true_r.
  apply (bool_decide_eq_true (NoDup _)), (bool_decide_eq_true_1 _). vm_compute. reflexivity.
Qed.

(** What the plugin set and read survives its reload: the stash is read back. *)
Theorem applier_roundtrip a : applier_ok a -> ParseApplier (ApplierJson a) = Some a.
Proof.
  intros Ha. destruct (applier_json_plain a) as [H1 H2]. unfold ParseApplier, ParseObj. rewrite ApplierJson_Dump, mini_Parse_Dump by done.
  destruct Ha as (Hb & Hp & _). unfold applier_json. pose proof (stash_map_json _ Hb) as Eb. pose proof (stash_map_json _ Hp) as Ep.
  pose proof (stash_names (unknown_names a) ∅) as Eu. rewrite right_id_L, unknown_names_set in Eu by apply _. rewrite <- all_elems_strings in Eu.
  cbn [mini all_vals fst snd mbind option_bind]. revert Eb Ep Eu.
  generalize (all_vals mini (strings_json (entries (baseline a)))) (all_vals mini (strings_json (entries (applied a)))) (all_elems mini (JString <$> unknown_names a)).
  intros b p u Eb Ep Eu. set (v := MObject _).
  assert (mget v "baseline" = Some (MObject b) /\ mget v "unknown" = Some (MArray u) /\ mget v "applied" = Some (MObject p)) as (E1 & E2 & E3) by done.
  rewrite E1, E2, E3, Eb, Ep, Eu. by destruct a.
Qed.
Lemma applier_roundtrip_witness : ParseApplier (ApplierJson gotv_set) = Some gotv_set.
Proof.
  apply (applier_roundtrip gotv_set). split_and!; [apply (bool_decide_eq_true_1 _); vm_compute; reflexivity..].
Defined.

(** ** A patch of a running match *)

(** The value that a member of a patch gives a key. *)
Definition patch_value (k : Key) (v : mval) : option Json :=
  if IsIntKey k then JInt <$> IntIn v (MaxOf k) else match v with MBool b => Some (JBool b) | _ => None end.

Lemma key_value_SetInt k j n p : IsIntKey k = true -> key_value (SetInt k n p) j = if decide (j = k) then Some (JInt n) else key_value p j.
Proof. by destruct k, j. Qed.
Lemma key_value_SetBool k j b p : IsIntKey k = false -> key_value (SetBool k b p) j = if decide (j = k) then Some (JBool b) else key_value p j.
Proof. by destruct k, j. Qed.
Lemma key_value_Clear k j p : key_value (Clear k p) j = if decide (j = k) then None else key_value p j.
Proof. by destruct k, j. Qed.
Lemma key_value_Clears l j p : key_value (foldl (fun p k => Clear k p) p l) j = if decide (j ∈ l) then None else key_value p j.
Proof.
  revert p. induction l as [|k l IH]; intros p; [done|]. cbn [foldl]. rewrite IH, key_value_Clear. destruct (decide (j ∈ l)), (decide (j ∈ k :: l)) as [H|H]; try done.
  - destruct H. by right.
  - apply elem_of_cons in H as [->|H]; [by rewrite decide_True|done].
  - rewrite decide_False; [done|]. intros ->. apply H. by left.
Qed.
Lemma key_value_Overlay base over j : key_value (Overlay base over) j = match key_value over j with Some v => Some v | None => key_value base j end.
Proof. destruct over as [[] [] [] [] []], j; done. Qed.
Lemma KeyName_inj j k : KeyName j = KeyName k -> j = k.
Proof. by destruct j, k. Qed.

(** One member of the object. *)
Lemma read_profile_cons o name names p nulls p' nulls' : read_profile o true (name :: names) p nulls = inr (p', nulls') ->
  exists k v q ns, name = KeyName k /\ obj_find name o = Some v /\ read_profile o true names q ns = inr (p', nulls') /\
    (v = MNull /\ q = p /\ ns = nulls ++ [k] \/
     v <> MNull /\ is_Some (patch_value k v) /\ ns = nulls /\ forall j, key_value q j = if decide (j = k) then patch_value k v else key_value p j).
Proof.
  cbn [read_profile negb]. destruct (obj_find name o) as [v|]; [|done]. destruct (ParseKeyName name) as [k|]; [|done].
  destruct (String.eqb_spec name (KeyName k)) as [E|]; [|done]. cbn [negb]. intros Hr. exists k, v.
  assert (v = MNull /\ read_profile o true names p (nulls ++ [k]) = inr (p', nulls') \/
    v <> MNull /\ IsIntKey k = true /\ (exists n, IntIn v (MaxOf k) = Some n /\ read_profile o true names (SetInt k n p) nulls = inr (p', nulls')) \/
    IsIntKey k = false /\ exists b, v = MBool b /\ read_profile o true names (SetBool k b p) nulls = inr (p', nulls')) as [[-> H]|[(Hv & Hk & n & Hn & H)|(Hk & b & -> & H)]].
  { destruct (IsIntKey k) eqn:Hk.
    - destruct v; [by left|..]; right; left; (destruct (IntIn _ _) as [n|] eqn:En; [|done]); (split_and!; [done|done|by exists n]).
    - destruct v; [by left| |done..]. right. right. eauto. }
  - exists p, (nulls ++ [k]). split_and!; auto.
  - exists (SetInt k n p), nulls. split_and!; try done. right. unfold patch_value. rewrite Hk, Hn. split_and!; [done..|]. intros j. by apply key_value_SetInt.
  - exists (SetBool k b p), nulls. split_and!; try done. right. unfold patch_value. rewrite Hk. split_and!; [done..|]. intros j. by apply key_value_SetBool.
Qed.

(** A key after the profile read so far is laid over [base] and the null keys are cleared. *)
Definition laid_over (p : Profile) (nulls : list Key) (k : Key) (base : option Json) : option Json :=
  if decide (k ∈ nulls) then None else match key_value p k with Some v => Some v | None => base end.
(** The same from the patch alone. *)
Definition patched (o : list (string * mval)) (k : Key) (base : option Json) : option Json :=
  match obj_find (KeyName k) o with None => base | Some MNull => None | Some v => patch_value k v end.

Lemma read_profile_laid o k base names : forall p nulls p' nulls', read_profile o true names p nulls = inr (p', nulls') -> NoDup names ->
  (KeyName k ∈ names -> (k ∉ nulls) /\ key_value p k = None) ->
  laid_over p' nulls' k base = if decide (KeyName k ∈ names) then patched o k base else laid_over p nulls k base.
Proof.
  induction names as [|name names IH]; intros p nulls p' nulls' Hr Hnd Hk; [by injection Hr as <- <-|].
  apply NoDup_cons in Hnd as [Hn Hnd]. destruct (read_profile_cons _ _ _ _ _ _ _ Hr) as (k0 & v & q & ns & -> & Ho & Hr' & Hv).
  destruct (decide (k = k0)) as [->|Hne].
  - rewrite (IH q ns p' nulls' Hr' Hnd) by done. rewrite decide_False, decide_True by (done || by left). unfold laid_over, patched. rewrite Ho.
    destruct (Hk ltac:(by left)) as [Hkn Hkp]. destruct Hv as [(-> & -> & ->)|(Hv & [w Hw] & -> & Hq)].
    + rewrite decide_True; [done|]. apply elem_of_app. right. by left.
    + rewrite decide_False, Hq, decide_True, Hw by done. by destruct v.
  - assert (key_value q k = key_value p k /\ (k ∈ ns <-> k ∈ nulls)) as [Eq Ens].
    { destruct Hv as [(-> & -> & ->)|(Hv & _ & -> & Hq)]; [|by rewrite Hq, decide_False]. split; [done|]. rewrite elem_of_app, list_elem_of_singleton. intuition. }
    assert (KeyName k ∈ KeyName k0 :: names <-> KeyName k ∈ names) as Em by (rewrite elem_of_cons; split; [intros [E%KeyName_inj|]; done|auto]).
    rewrite (IH q ns p' nulls' Hr' Hnd) by (intros Hin; rewrite Ens, Eq; apply Hk; by apply Em). unfold laid_over. rewrite Eq.
    destruct (decide (KeyName k ∈ names)), (decide (KeyName k ∈ KeyName k0 :: names)); try tauto.
    destruct (decide (k ∈ ns)), (decide (k ∈ nulls)); tauto.
Qed.

Lemma obj_find_key n (o : list (string * mval)) : is_Some (obj_find n o) <-> n ∈ o.*1.
Proof.
  induction o as [|[k v] o IH]; cbn; [split; [by intros [? ?]|set_solver]|]. rewrite elem_of_cons. destruct (String.eqb_spec k n) as [->|Hn].
  - split; eauto.
  - rewrite IH. intuition congruence.
Qed.

(** A patch of a match's rules changes its profile key by key, as RFC 7386 says: a key that the patch does not have
    stays, a null key is cleared, and any other takes the value of the patch; a patch with a bad member changes nothing. *)
Theorem patch_keys r o p p' touched k : obj_find "broadcast" r = Some (MObject o) -> NoDup o.*1 -> ApplyBroadcastPatch (MObject r) p = inr (p', touched) ->
  touched = true /\ key_value p' k = patched o k (key_value p k).
Proof.
  intros Hb Hnd Hp. unfold ApplyBroadcastPatch in Hp. cbn [mget] in Hp. rewrite Hb in Hp. cbn [ParseProfile] in Hp.
  destruct (read_profile o true (sorted_names o) NoProfile []) as [|[set cleared]] eqn:Er; [done|]. injection Hp as <- <-. split; [done|].
  rewrite key_value_Clears, key_value_Overlay. change (laid_over set cleared k (key_value p k) = patched o k (key_value p k)).
  assert (Permutation (sorted_names o) o.*1) as Hs by apply merge_sort_Permutation.
  rewrite (read_profile_laid _ k _ _ _ _ _ _ Er); [|by rewrite Hs|intros _; split; [set_solver|by destruct k]].
  destruct (decide (KeyName k ∈ sorted_names o)) as [|Hn]; [done|]. unfold laid_over, patched. rewrite decide_False by set_solver.
  destruct (obj_find (KeyName k) o) as [v|] eqn:E; [|by destruct k]. destruct Hn. rewrite Hs. by apply obj_find_key.
Qed.

Definition patch_broadcast : list (string * mval) := [("delay_seconds", MNumber (of_int 30)); ("max_clients", MNull)].
Lemma patch_keys_witness : exists p', ApplyBroadcastPatch (MObject [("broadcast", MObject patch_broadcast)]) some_profile = inr (p', true) /\
  key_value p' Delay = Some (JInt 30) /\ key_value p' MaxClients = None /\ key_value p' Insecure = Some (JBool true).
Proof.
  eexists. split; [vm_compute; reflexivity|].
  assert (NoDup patch_broadcast.*1) as Hnd by (apply (bool_decide_eq_true_1 _); vm_compute; reflexivity).
  split_and!; (etransitivity; [apply (patch_keys [("broadcast", MObject patch_broadcast)] patch_broadcast some_profile _ true); [done|done|vm_compute; reflexivity]|vm_compute; reflexivity]).
Defined.
