(* ===== verification/Path.v ===== *)
(** * Paths

    [core/src/readyup/path.cpp]: the path forms the shim compares, and which loaded library is Valve's server
    library by its name. *)

From S2P Require Import Prelude CStr.

Definition not_slash (c : ascii) : bool := negb (Ascii.eqb c "/").

(** One segment: [.] is dropped, [..] takes back the segment before it. *)
Definition push_segment (abs : bool) (parts : list string) (seg : string) : list string :=
  if sempty seg || (seg =s ".") then parts
  else if seg =s ".." then
    match last parts with
    | Some p => if negb (p =s "..") then removelast parts else if abs then parts else parts ++ [".."]
    | None => if abs then parts else parts ++ [".."]
    end
  else parts ++ [seg].

(** The segments between slashes. *)
Fixpoint segments (fuel : nat) (s : string) : list string :=
  match fuel with
  | O => []
  | S fuel =>
      let s := drop_while (fun c => negb (not_slash c)) s in
      if sempty s then [] else let '(seg, r) := span not_slash s in seg :: segments fuel r
  end.

Definition join (parts : list string) : string :=
  match parts with [] => EmptyString | p :: ps => foldl (fun acc x => acc +s+ "/" +s+ x) p ps end.

Definition CanonicalizePath (s : string) : string :=
  let abs := starts_with "/" s in
  let parts := foldl (push_segment abs) [] (segments (S (String.length s)) s) in
  let out := (if abs then "/" else EmptyString) +s+ join parts in
  if sempty out then (if abs then "/" else ".") else out.

Definition kTail : string := "/bin/linuxsteamrt64/libserver.so".
Definition ends_with (t s : string) : bool := (String.length t <=? String.length s)%nat && (sdrop (String.length s - String.length t) s =s t).

Definition LooksLikeValveServerModule (path : string) : bool :=
  if sempty path then false
  else
    let s := CanonicalizePath path in
    if negb (ends_with kTail s) then false
    else if contains "/readyup/bin/linuxsteamrt64/" s then false
    else negb (contains "/addons/" s).

(** The position of the last slash. *)
Fixpoint last_slash (s : string) : option nat :=
  match s with
  | EmptyString => None
  | String c r => match last_slash r with Some n => Some (S n) | None => if Ascii.eqb c "/" then Some O else None end
  end.

(** Three levels up from [<csgo>/readyup/bin/linuxsteamrt64]. *)
Fixpoint levels_up (n : nat) (d : string) : string :=
  match n with
  | O => d
  | S n => match last_slash d with Some (S k) => levels_up n (stake (S k) d) | _ => EmptyString end
  end.
Definition CsgoDirFromModuleDir (moduleDir : string) : string :=
  if sempty moduleDir then EmptyString else levels_up 3 (CanonicalizePath moduleDir).

(** [GetThisModuleDir] of the path the loader reports. *)
Definition module_dir (path : string) : string := match last_slash path with Some n => stake n path | None => EmptyString end.

(** ** Theorems *)

Definition seg_ok (p : string) : Prop := p <> EmptyString /\ sforall not_slash p = true /\ p <> ".".
Definition plain_seg (p : string) : Prop := seg_ok p /\ p <> "..".

(** The segments of a canonical path: levels up first, only in a relative path. *)
Definition canonical (abs : bool) (parts : list string) : Prop :=
  exists k rest, parts = repeat ".." k ++ rest /\ Forall plain_seg rest /\ (abs = true -> k = O).

Lemma last_repeat k : last (repeat ".." (S k)) = Some "..".
Proof. induction k as [|k IH]; [done|]. cbn in *. exact IH. Qed.

Lemma push_canonical abs parts seg : sforall not_slash seg = true -> canonical abs parts -> canonical abs (push_segment abs parts seg).
Proof.
  intros Hs (k & rest & -> & Hr & Hk). unfold push_segment. destruct (sempty seg) eqn:E1; cbn [orb]; [by exists k, rest|].
  destruct (seg =s ".") eqn:E2; [by exists k, rest|]. apply String.eqb_neq in E2. destruct (seg =s "..") eqn:E3.
  - destruct rest as [|r rest _] using rev_ind.
    + rewrite app_nil_r. destruct abs; [rewrite Hk by done; by exists O, []|]. assert (canonical false (repeat ".." k ++ [".."])) as Hc.
      { exists (S k), []. rewrite app_nil_r, <- repeat_cons. done. }
      destruct k as [|k]; [exact Hc|]. by rewrite last_repeat.
    + rewrite app_assoc, last_snoc. apply Forall_app in Hr as [Hr Hp]. apply Forall_cons in Hp as [[_ Hp] _].
      apply String.eqb_neq in Hp. rewrite Hp. cbn [negb]. rewrite removelast_last. by exists k, rest.
  - apply String.eqb_neq in E3. exists k, (rest ++ [seg]). split_and!; [by rewrite app_assoc| |done]. apply Forall_app. split; [done|].
    apply Forall_singleton. split; [|done]. split_and!; [by destruct seg|done|done].
Qed.

Lemma span_all f s : sforall f s = true -> span f s = (s, EmptyString).
Proof. induction s as [|c s IH]; cbn; [done|]. destruct (f c); [|done]. intros H. by rewrite IH. Qed.

Lemma span_forall f s : sforall f (span f s).1 = true.
Proof. induction s as [|c s IH]; cbn; [done|]. destruct (f c) eqn:E; [|done]. destruct (span f s). cbn in *. by rewrite E. Qed.

Lemma segments_ok fuel : forall s, Forall (fun p => sforall not_slash p = true) (segments fuel s).
Proof.
  induction fuel as [|fuel IH]; intros s; cbn [segments]; [done|]. cbv zeta. case_if; [done|].
  pose proof (span_forall not_slash (drop_while (fun c => negb (not_slash c)) s)) as H. destruct (span _ _) as [seg r]. by constructor.
Qed.

Lemma fold_canonical abs l : forall parts, Forall (fun p => sforall not_slash p = true) l -> canonical abs parts -> canonical abs (foldl (push_segment abs) parts l).
Proof. induction l as [|p l IH]; intros parts; cbn; [done|]. intros [Hp Hl]%Forall_cons H. apply IH; [done|by apply push_canonical]. Qed.

(** The canonical path reads back as its segments. *)
Fixpoint tail_join (l : list string) : string := match l with [] => EmptyString | p :: l => "/" +s+ p +s+ tail_join l end.

Lemma join_tail p l : join (p :: l) = p +s+ tail_join l.
Proof.
  cbn. revert p. induction l as [|q l IH]; intros p; cbn; [by rewrite app_nil_s|]. rewrite IH. by rewrite !app_assoc_s.
Qed.

Lemma segment_chars c p : seg_ok (String c p) -> not_slash c = true.
Proof. intros (_ & H & _). cbn in H. by destruct (not_slash c). Qed.

Lemma segments_tail l : forall fuel, Forall seg_ok l -> (String.length (tail_join l) < fuel)%nat -> segments fuel (tail_join l) = l.
Proof.
  induction l as [|p l IH]; intros [|fuel] Hl Hf; try (cbn in Hf; lia); [done|]. apply Forall_cons in Hl as [Hp Hl].
  cbn [tail_join] in *. cbn [segments]. destruct p as [|c p]; [by destruct Hp|]. pose proof (segment_chars _ _ Hp) as Hc. destruct Hp as (_ & Hp & _).
  cbn [String.append drop_while]. change (negb (not_slash "/")) with true. cbn iota. rewrite Hc. cbn [negb sempty].
  change (String c (p +s+ tail_join l)) with (String c p +s+ tail_join l). rewrite span_app; [|done|by destruct l].
  f_equal. apply IH; [done|]. cbn in Hf. rewrite length_app_s in Hf. lia.
Qed.

Lemma segments_join l fuel (abs : bool) : Forall seg_ok l -> (String.length (join l) + (if abs then 2 else 1) <= fuel)%nat ->
  segments fuel ((if abs then "/" else EmptyString) +s+ join l) = l.
Proof.
  intros Hl Hf. destruct l as [|p l].
  { destruct fuel as [|fuel]; [destruct abs; lia|]. by destruct abs. }
  rewrite join_tail in *. destruct abs.
  - apply (segments_tail (p :: l)); [done|]. change (tail_join (p :: l)) with (String "/" (p +s+ tail_join l)). cbn [String.length]. lia.
  - apply Forall_cons in Hl as [Hp Hl]. cbn [String.append]. destruct fuel as [|fuel]; [lia|]. rewrite length_app_s in Hf.
    destruct p as [|c p]; [by destruct Hp|]. pose proof (segment_chars _ _ Hp) as Hc. destruct Hp as (_ & Hp & _).
    cbn [segments String.append drop_while]. rewrite Hc. cbn [negb sempty]. change (String c (p +s+ tail_join l)) with (String c p +s+ tail_join l).
    rewrite span_app; [|done|by destruct l]. f_equal. apply segments_tail; [done|]. cbn in Hf. lia.
Qed.

Lemma fold_plain abs rest : forall pre, Forall plain_seg rest -> foldl (push_segment abs) pre rest = pre ++ rest.
Proof.
  induction rest as [|p rest IH]; intros pre; cbn; [by rewrite app_nil_r|]. intros [[(H1 & _ & H2) H3] Hr]%Forall_cons. rewrite IH by done. unfold push_segment.
  apply String.eqb_neq in H2, H3. destruct p; [done|]. cbn [sempty orb]. rewrite H2, H3. by rewrite <- app_assoc.
Qed.

Lemma fold_ups k : forall j, foldl (push_segment false) (repeat ".." j) (repeat ".." k) = repeat ".." (j + k).
Proof.
  induction k as [|k IH]; intros j; [cbn; by rewrite Nat.add_0_r|]. cbn [repeat foldl]. replace (push_segment false (repeat ".." j) "..") with (repeat ".." (S j)).
  - rewrite IH. f_equal. lia.
  - unfold push_segment. cbn [sempty orb String.eqb]. assert (repeat ".." (S j) = repeat ".." j ++ [".."]) as E by apply repeat_cons.
    destruct j as [|j]; [done|]. by rewrite last_repeat, E.
Qed.

Lemma canonical_fixed abs parts : canonical abs parts -> foldl (push_segment abs) [] parts = parts.
Proof.
  intros (k & rest & -> & Hr & Hk). rewrite foldl_app. destruct abs; [rewrite Hk by done; cbn; by rewrite fold_plain|].
  change (@nil string) with (repeat ".." 0). rewrite fold_ups. by rewrite fold_plain.
Qed.

Lemma canonical_seg_ok abs parts : canonical abs parts -> Forall seg_ok parts.
Proof.
  intros (k & rest & -> & Hr & _). apply Forall_app. split; [|eapply Forall_impl; [exact Hr|by intros x [? _]]].
  apply Forall_forall. intros x Hx. apply list_elem_of_In, repeat_spec in Hx as ->. by split_and!.
Qed.

(** Canonical form: a second pass changes nothing, so two spellings of one path compare equal. *)
Theorem canonical_once (s : string) : CanonicalizePath (CanonicalizePath s) = CanonicalizePath s.
Proof.
  unfold CanonicalizePath at 2 3. cbv zeta. set (abs := starts_with "/" s).
  assert (canonical abs (foldl (push_segment abs) [] (segments (S (String.length s)) s))) as Hc.
  { apply fold_canonical; [apply segments_ok|]. by exists O, []. }
  revert Hc. generalize (foldl (push_segment abs) [] (segments (S (String.length s)) s)). intros parts Hc.
  destruct parts as [|p parts]; [by destruct abs|]. pose proof (canonical_seg_ok _ _ Hc) as Hp.
  set (out := (if abs then "/" else EmptyString) +s+ join (p :: parts)).
  assert (sempty out = false /\ starts_with "/" out = abs) as [E1 E2].
  { unfold out. rewrite join_tail. apply Forall_cons in Hp as [Hp _]. destruct abs; [done|]. destruct p as [|c p]; [by destruct Hp|].
    split; [done|]. apply segment_chars in Hp. cbn [String.append starts_with]. destruct (Ascii.eqb_spec "/" c) as [<-|]; done. }
  rewrite E1. unfold CanonicalizePath. cbv zeta. rewrite E2.
  assert (segments (S (String.length out)) out = p :: parts) as ->.
  { apply segments_join; [done|]. unfold out. rewrite length_app_s. destruct abs; cbn [String.length]; lia. }
  rewrite canonical_fixed by done. fold out. by rewrite E1.
Qed.
