(* ===== verification/EngineSurface.v ===== *)
(** * The engine surface

    [core/src/readyup/engine_surface_core.{h,cpp}]: finds functions and vtables in a loaded module by byte
    patterns and RTTI names, and verifies what it found.  An image is a list of memory regions; a pointer
    into one is the list of bytes from there, so a read past a region has no value.  Addresses are 64-bit
    and wrap ([wrap64]); the scan loops [p < hi] run over [range p hi], which is what they do as long as
    [hi + 7] does not wrap.  The reports ([detail]) and the error texts are left out. *)

From S2P Require Import Prelude CStr Double SlotRegistry MiniJson Path.

Module Es.

Record Region := { addr : Z; data : list Z; exec : bool }.
Definition size (r : Region) : Z := zlen (data r).
Definition Image := list Region.

(** ** Reading *)

(** The bytes from [a] to the end of its region, when [n] of them are there. *)
Fixpoint Bytes (img : Image) (a n : Z) : option (list Z) :=
  match img with
  | [] => None
  | r :: img =>
      if (addr r <=? a) && (a - addr r <=? size r) && (n <=? size r - (a - addr r))
      then Some (drop (Z.to_nat (a - addr r)) (data r)) else Bytes img a n
  end.

Definition Contains (img : Image) (a : Z) : bool := match Bytes img a 1 with Some _ => true | None => false end.

Fixpoint until_nul (lim : nat) (l : list Z) : option (list Z) :=
  match lim, l with
  | S lim, b :: l => if b =? 0 then Some [] else (fun s => b :: s) <$> until_nul lim l
  | _, _ => None
  end.
Fixpoint CString (img : Image) (a maxLen : Z) : option (list Z) :=
  match img with
  | [] => None
  | r :: img =>
      if (a <? addr r) || (size r <=? a - addr r) then CString img a maxLen
      else
        let avail := size r - (a - addr r) in
        until_nul (Z.to_nat (if avail <? maxLen then avail else maxLen)) (drop (Z.to_nat (a - addr r)) (data r))
  end.

(** [memcpy] into an [int32_t] and a [uintptr_t]. *)
Definition byte_at (l : list Z) (i : nat) : Z := default 0 (l !! i).
Definition le32 (l : list Z) (i : nat) : Z :=
  to_int32 (byte_at l i + 256 * byte_at l (i + 1) + 65536 * byte_at l (i + 2) + 16777216 * byte_at l (i + 3)).
Definition le64 (l : list Z) : Z := foldr (fun b acc => b + 256 * acc) 0 (take 8 l).

Definition bytes_of (s : string) : list Z := code <$> String.list_ascii_of_string s.

(** ** Patterns *)

Definition HexVal (c : ascii) : Z :=
  if isdigit c then code c - 48
  else if (97 <=? code c) && (code c <=? 102) then 10 + (code c - 97)
  else if (65 <=? code c) && (code c <=? 70) then 10 + (code c - 65)
  else -1.

(** [None]: malformed. *)
Fixpoint pattern_loop (s : string) : option (list Z) :=
  match s with
  | EmptyString => Some []
  | String c r =>
      if Ascii.eqb c " " || Ascii.eqb c tab then pattern_loop r
      else if Ascii.eqb c "?" then
        cons (-1) <$> match r with String c2 r2 => if Ascii.eqb c2 "?" then pattern_loop r2 else pattern_loop r | EmptyString => Some [] end
      else
        match r with
        | String c2 r2 =>
            if (0 <=? HexVal c) && (0 <=? HexVal c2) then cons (Z.lor (Z.shiftl (HexVal c) 4) (HexVal c2)) <$> pattern_loop r2 else None
        | EmptyString => None
        end
  end.
Definition ParsePattern (pattern : string) : list Z := default [] (pattern_loop pattern).

(** The bytes here match; a negative entry matches any byte. *)
Fixpoint match_here (pat bs : list Z) : bool :=
  match pat, bs with
  | [], _ => true
  | w :: pat, b :: bs => ((w <? 0) || (b =? w mod 256)) && match_here pat bs
  | _ :: _, [] => false
  end.

(** The places of a region with [n] bytes left: address and bytes from there. *)
Fixpoint windows (n : nat) (a : Z) (bs : list Z) : list (Z * list Z) :=
  if (length bs <? n)%nat then []
  else (a, bs) :: match bs with [] => [] | _ :: r => windows n (a + 1) r end.
Definition region_windows (n : nat) (r : Region) : list (Z * list Z) := windows n (addr r) (data r).

(** [ScanAll]: the matches so far, and whether there are enough. *)
Fixpoint scan_places (pat : list Z) (mx : Z) (l : list (Z * list Z)) (out : list Z) : list Z * bool :=
  match l with
  | [] => (out, false)
  | (a, bs) :: l =>
      if match_here pat bs
      then let out := out ++ [a] in if mx <=? zlen out then (out, true) else scan_places pat mx l out
      else scan_places pat mx l out
  end.
Fixpoint scan_regions (pat : list Z) (mx : Z) (img : Image) (out : list Z) : list Z :=
  match img with
  | [] => out
  | r :: img =>
      if negb (exec r) || (size r <? zlen pat) then scan_regions pat mx img out
      else
        let '(out, enough) := scan_places pat mx (region_windows (length pat) r) out in
        if enough : bool then out else scan_regions pat mx img out
  end.
Definition ScanAll (img : Image) (pat : list Z) (maxMatches : Z) : list Z :=
  match pat with
  | [] => []
  | w :: _ => if w <? 0 then [] else scan_regions pat maxMatches img []
  end.

(** ** Instructions *)

(** [48|4C op /r] with mod 00 and rm 101: the RIP-relative operand. *)
Definition rip_form (op : Z) (b : list Z) : bool :=
  ((byte_at b 0 =? 72) || (byte_at b 0 =? 76)) && (byte_at b 1 =? op) && (Z.land (byte_at b 2) 199 =? 5).
Definition rip_target (op : Z) (img : Image) (a : Z) : option Z :=
  b ← Bytes img a 7; if rip_form op b then Some (wrap64 (a + 7 + le32 b 3)) else None.
Definition LeaRipTarget : Image -> Z -> option Z := rip_target 141.
Definition MovLoadRipTarget : Image -> Z -> option Z := rip_target 139.

Definition is_bytes (want bs : list Z) : bool := bool_decide (take (length want) bs = want) && (byte_at bs (length want) =? 0).
Definition IsString (img : Image) (a : Z) (want : string) : bool :=
  match Bytes img a (slen want + 1) with Some b => is_bytes (bytes_of want) b | None => false end.

(** [for (p = lo; p < hi; ++p)]. *)
Definition range (lo hi : Z) : list Z := (fun k => lo + Z.of_nat k) <$> seq 0 (Z.to_nat (hi - lo)).

Definition LeaOfStringInRange (img : Image) (lo hi : Z) (s : string) : bool :=
  existsb (fun p => match LeaRipTarget img p with Some t => IsString img t s | None => false end) (range lo hi).

Definition LeaSitesOf (img : Image) (target : Z) : list Z :=
  img ≫= fun r => if negb (exec r) then []
    else omap (fun w => if rip_form 141 w.2 && (wrap64 (w.1 + 7 + le32 w.2 3) =? target) then Some w.1 else None) (region_windows 7 r).

Definition BranchSitesTo (img : Image) (lo hi : Z) (callsOnly : bool) : list Z :=
  img ≫= fun r => if negb (exec r) then []
    else omap (fun w =>
      let op := byte_at w.2 0 in
      if negb (op =? 232) && (callsOnly || negb (op =? 233)) then None
      else let dst := wrap64 (w.1 + 5 + le32 w.2 1) in if (lo <=? dst) && (dst <=? hi) then Some w.1 else None) (region_windows 5 r).

(** ** Anchors *)

Record Anchor := { a_type : string; a_str : string; a_window : Z; via_thunk : bool; callee_window : Z; a_disp : Z }.

Definition thunk_entries (img : Image) (fn : Z) : list (Z * Z) :=
  omap (fun j => match Bytes img j 1 with Some b => if byte_at b 0 =? 233 then Some (wrap64 (j - 8), j) else None | None => None end)
    (BranchSitesTo img fn fn false).

Definition caller_string (img : Image) (fn : Z) (a : Anchor) : bool :=
  let entries := (fn, fn) :: if via_thunk a then thunk_entries img fn else [] in
  existsb (fun e => existsb (fun c => LeaOfStringInRange img (wrap64 (c - a_window a)) c (a_str a)) (BranchSitesTo img e.1 e.2 true)) entries.

Definition callee_string (img : Image) (fn : Z) (a : Anchor) : bool :=
  existsb (fun p =>
    match Bytes img p 5 with
    | Some b =>
        if negb (byte_at b 0 =? 232) then false
        else
          let callee := wrap64 (p + 5 + le32 b 1) in
          Contains img callee && LeaOfStringInRange img callee (wrap64 (callee + callee_window a)) (a_str a)
    | None => false
    end) (range fn (wrap64 (fn + a_window a) - 4)).

(** The first global that is loaded in the first 32 bytes. *)
Definition first_global (img : Image) (fn : Z) : option Z :=
  foldl (fun g p => match g with Some _ => g | None => MovLoadRipTarget img p end) None (range fn (wrap64 (fn + 32))).
Definition global_string (img : Image) (fn : Z) (a : Anchor) : bool :=
  match first_global img fn with
  | None => false
  | Some g => existsb (fun c => LeaOfStringInRange img (wrap64 (c - a_window a)) (wrap64 (c + a_window a)) (a_str a)) (LeaSitesOf img g)
  end.

Definition mov_disp (img : Image) (fn : Z) (a : Anchor) : bool :=
  existsb (fun p =>
    match Bytes img p 7 with
    | Some b =>
        if negb (byte_at b 0 =? 139) || negb (Z.shiftr (byte_at b 1) 6 =? 2) then false
        else le32 b (if Z.land (byte_at b 1) 7 =? 4 then 3 else 2) =? a_disp a
    | None => false
    end) (range fn (wrap64 (fn + a_window a) - 6)).

Definition CheckAnchor (img : Image) (fn : Z) (a : Anchor) : bool :=
  if a_type a =s "string_ref" then LeaOfStringInRange img fn (wrap64 (fn + a_window a)) (a_str a)
  else if a_type a =s "caller_string" then caller_string img fn a
  else if a_type a =s "callee_string" then callee_string img fn a
  else if a_type a =s "global_string" then global_string img fn a
  else if a_type a =s "mov_disp" then mov_disp img fn a
  else false.

(** ** Functions *)

Record FunctionSpec := {
  f_name : string; pattern : string; required : bool; f_anchors : list Anchor; description : string; hook : string; library : string }.

Record Resolution := { s_addr : Z; matches : Z; anchors_ok : bool; s_ok : bool }.

Definition Resolve (img : Image) (spec : FunctionSpec) : Resolution :=
  match ParsePattern (pattern spec) with
  | [] => {| s_addr := 0; matches := 0; anchors_ok := false; s_ok := false |}
  | pat =>
      let hits := ScanAll img pat 3 in
      match hits with
      | [h] =>
          match f_anchors spec with
          | [] => {| s_addr := h; matches := 1; anchors_ok := false; s_ok := false |}
          | l => let ok := forallb (CheckAnchor img h) l in {| s_addr := h; matches := 1; anchors_ok := ok; s_ok := ok |}
          end
      | _ => {| s_addr := 0; matches := zlen hits; anchors_ok := false; s_ok := false |}
      end
  end.

(** ** Vtables *)

Definition ReadPtr (img : Image) (a : Z) : option Z := le64 <$> Bytes img a 8.
Definition IsCode (img : Image) (a : Z) : bool := existsb (fun r => exec r && (addr r <=? a) && (a - addr r <? size r)) img.

(** Aligned slots outside code that hold one of [targets]. *)
Definition DataSlotsPointingTo (img : Image) (targets : list Z) : list Z :=
  img ≫= fun r => if exec r then []
    else omap (fun w => if (w.1 mod 8 =? 0) && bool_decide (le64 w.2 ∈ targets) then Some w.1 else None) (region_windows 8 r).

Definition name_sites (img : Image) (name : string) : list Z :=
  img ≫= fun r => if exec r then []
    else omap (fun w => if is_bytes (bytes_of name) w.2 then Some w.1 else None) (region_windows (String.length name + 1) r).

(** The slots that point to a typeinfo object, right before slot 0 of a primary vtable. *)
Definition primary (img : Image) (slot : Z) : bool :=
  match ReadPtr img (wrap64 (slot - 8)) with
  | Some top => (top =? 0) && match ReadPtr img (wrap64 (slot + 8)) with Some slot0 => IsCode img slot0 | None => false end
  | None => false
  end.

Definition typeinfos_of (img : Image) (name : string) : list Z := (fun s => wrap64 (s - 8)) <$> DataSlotsPointingTo img (name_sites img name).
Definition primaries_of (img : Image) (name : string) : list Z :=
  (fun s => wrap64 (s + 8)) <$> filter (fun s => primary img s = true) (DataSlotsPointingTo img (typeinfos_of img name)).

Definition FindVtableByRtti (img : Image) (typeinfoName : string) : option Z :=
  if sempty typeinfoName then None
  else match primaries_of img typeinfoName with [v] => Some v | _ => None end.

Record VtableSpec := {
  v_name : string; v_index : Z; cls : string; v_function : string; v_anchors : list Anchor; v_module : string; note : string }.
Record VtableCheck := { c_ok : bool; vtable : Z; target : Z }.

Definition CheckVtableSlot (img : Image) (spec : VtableSpec) (vt expectedFn : Z) : VtableCheck :=
  if v_index spec <? 0 then {| c_ok := false; vtable := vt; target := 0 |}
  else
    match ReadPtr img (wrap64 (vt + v_index spec * 8)) with
    | None => {| c_ok := false; vtable := vt; target := 0 |}
    | Some t =>
        if negb (IsCode img t) then {| c_ok := false; vtable := vt; target := t |}
        else
          let ok1 := sempty (v_function spec) || (negb (expectedFn =? 0) && (expectedFn =? t)) in
          let ok2 := negb (sempty (v_function spec) && match v_anchors spec with [] => true | _ => false end) in
          {| c_ok := ok1 && ok2 && forallb (CheckAnchor img t) (v_anchors spec); vtable := vt; target := t |}
    end.

(** ** The surface *)

Record LayoutSpec := { l_name : string; verified_by : string; fields : list (string * Z) }.
Record RttiSpec := { r_cls : string; typeinfo_name : string; r_module : string }.
Record EngineSurface := {
  game_version : string; functions : list FunctionSpec; vtables : list VtableSpec; rtti : list RttiSpec; layouts : list LayoutSpec }.

Fixpoint first_named {A} (key : A -> string) (name : string) (l : list A) : option A :=
  match l with [] => None | x :: l => if key x =s name then Some x else first_named key name l end.

Definition Find (name : string) (es : EngineSurface) : option FunctionSpec := first_named f_name name (functions es).
Definition FindVtable (name : string) (es : EngineSurface) : option VtableSpec := first_named v_name name (vtables es).
Definition FindLayout (name : string) (es : EngineSurface) : option LayoutSpec := first_named l_name name (layouts es).
Definition FindRtti (c : string) (es : EngineSurface) : option RttiSpec := first_named r_cls c (rtti es).
Definition VtableIndex (name : string) (es : EngineSurface) : option Z :=
  v ← FindVtable name es; if v_index v <? 0 then None else Some (v_index v).
Definition RttiName (c : string) (es : EngineSurface) : option string := typeinfo_name <$> FindRtti c es.
Definition Field (f : string) (l : LayoutSpec) : option Z := snd <$> first_named fst f (fields l).

Definition VerifyVtable (img : Image) (es : EngineSurface) (spec : VtableSpec) (expectedFn : Z) : VtableCheck :=
  match FindRtti (cls spec) es with
  | None => {| c_ok := false; vtable := 0; target := 0 |}
  | Some rt =>
      match FindVtableByRtti img (typeinfo_name rt) with
      | None => {| c_ok := false; vtable := 0; target := 0 |}
      | Some vt => CheckVtableSlot img spec vt expectedFn
      end
  end.

(** A fragment adds entries, or nothing when one of its names is taken. *)
Definition taken {A B} (key : A -> string) (look : string -> EngineSurface -> option B) (base : EngineSurface) (l : list A) : bool :=
  existsb (fun x => match look (key x) base with Some _ => true | None => false end) l.
Definition MergeEngineSurface (base frag : EngineSurface) : option EngineSurface :=
  if taken f_name Find base (functions frag) || taken v_name FindVtable base (vtables frag) ||
     taken r_cls FindRtti base (rtti frag) || taken l_name FindLayout base (layouts frag)
  then None
  else Some {| game_version := game_version base; functions := functions base ++ functions frag; vtables := vtables base ++ vtables frag;
               rtti := rtti base ++ rtti frag; layouts := layouts base ++ layouts frag |}.

(** ** Reading a surface file *)

Definition opt_string (v : mval) (key : string) (def : string) : string := default def (mAsString (mget v key)).
Definition opt_flag (v : mval) (key : string) (def : bool) : bool := match mget v key with Some (MBool b) => b | _ => def end.

(** [None] is an undefined conversion of a number. *)
Definition opt_number (conv : Z -> Z) (v : mval) (key : string) (def : Z) : option Z :=
  n ← mAsInt (mget v key); Some (match n with Some z => conv z | None => def end).

Definition ParseAnchor (av : mval) : option Anchor :=
  w ← opt_number wrap64 av "window" 0;
  cw ← opt_number wrap64 av "callee_window" 256;
  d ← opt_number (fun z => z) av "disp" 0;
  Some {| a_type := opt_string av "type" EmptyString; a_str := opt_string av "string" EmptyString; a_window := w;
          via_thunk := opt_flag av "via_thunk" false; callee_window := cw; a_disp := d |}.
Definition ParseAnchors (o : mval) : option (list Anchor) :=
  match mget o "anchors" with Some (MArray l) => mapM ParseAnchor l | _ => Some [] end.

(** The members of an object; the inner [None] is a refused file. *)
Definition read_members {A} (f : string -> mval -> option (option A)) (v : option mval) : option (option (list A)) :=
  match v with
  | Some (MObject o) => l ← mapM (M:=option) (fun kv => f kv.1 kv.2) o; Some (mapM (M:=option) (fun x => x) l)
  | _ => Some (Some [])
  end.

Definition read_function (name : string) (o : mval) : option (option FunctionSpec) :=
  match mAsString (mget o "linux") with
  | None => Some None
  | Some lin =>
      l ← ParseAnchors o;
      let lib := opt_string o "library" "server" in
      Some (Some {| f_name := name; pattern := lin; required := opt_flag o "required" false; f_anchors := l;
                    description := opt_string o "description" EmptyString; hook := opt_string o "hook" EmptyString;
                    library := if sempty lib then "server" else lib |})
  end.

Definition read_vtable (name : string) (o : mval) : option (option VtableSpec) :=
  i ← mAsInt (mget o "linux");
  match i with
  | None => Some None
  | Some i =>
      l ← ParseAnchors o;
      Some (Some {| v_name := name; v_index := to_int32 i; cls := opt_string o "class" EmptyString;
                    v_function := opt_string o "function" EmptyString; v_anchors := l; v_module := opt_string o "module" "server";
                    note := opt_string o "note" EmptyString |})
  end.

Definition read_rtti (c : string) (o : mval) : option (option (option RttiSpec)) :=
  let n := opt_string o "typeinfo_name" EmptyString in
  Some (Some (if sempty n then None else Some {| r_cls := c; typeinfo_name := n; r_module := opt_string o "module" "server" |})).

(** [std::sort] by the name; the names of an object's members differ. *)
Definition name_le {A} (key : A -> string) (x y : A) : Prop := String.leb (key x) (key y) = true.
#[export] Instance name_le_dec {A} (key : A -> string) : RelDecision (name_le key).
Proof. intros x y. unfold name_le. apply _. Defined.
Definition SortByName {A} (key : A -> string) (l : list A) : list A := merge_sort (name_le key) l.

Definition read_field (kv : string * mval) : option (option (string * Z)) :=
  match mAsInt (Some kv.2) with
  | None => None
  | Some off => Some (match off with Some z => Some (kv.1, to_int32 z) | None => None end)
  end.
Definition read_layout (name : string) (o : mval) : option (option LayoutSpec) :=
  fs ← match mget o "fields" with Some (MObject m) => mapM (M:=option) read_field m | _ => Some [] end;
  Some (Some {| l_name := name; verified_by := opt_string o "verified_by" EmptyString; fields := SortByName fst (omap (fun x => x) fs) |}).

(** The outer [None] is an undefined conversion, the inner one a refused file. *)
Definition ParseEngineSurface (json : string) : option (option EngineSurface) :=
  match mini_Parse json with
  | MiniOk (MObject _ as root) =>
      let gv := match mget root "_meta" with Some meta => opt_string meta "game_version" EmptyString | None => EmptyString end in
      if negb (mIsObject (mget root "functions")) then Some None
      else
        fs ← read_members read_function (mget root "functions");
        match fs with
        | None => Some None
        | Some fs =>
            vs ← read_members read_vtable (mget root "vtable_indices");
            match vs with
            | None => Some None
            | Some vs =>
                rs ← read_members read_rtti (mget root "rtti");
                ls ← read_members read_layout (mget root "layouts");
                Some (Some {| game_version := gv; functions := SortByName f_name fs; vtables := SortByName v_name vs;
                              rtti := SortByName r_cls (omap (fun x => x) (default [] rs)); layouts := SortByName l_name (default [] ls) |})
            end
        end
  | _ => Some None
  end.

End Es.

(** * The signature scanner

    [core/src/readyup/signature_scan.{h,cpp}]: the scanner the hooks use on the running server library.  The
    loader's list of modules, in its order, is an argument; the load address of the library that the shim
    opened itself ([RealServerHandle]) is [realBase]. *)

Module Sig.

Definition IsHex (c : ascii) : bool := isdigit c || ((97 <=? code c) && (code c <=? 102)) || ((65 <=? code c) && (code c <=? 70)).
Definition HexVal (c : ascii) : Z :=
  if isdigit c then code c - 48
  else if (97 <=? code c) && (code c <=? 102) then 10 + (code c - 97)
  else if (65 <=? code c) && (code c <=? 70) then 10 + (code c - 65)
  else 0.

(** Tokens that are not understood are skipped. *)
Fixpoint ParsePattern (s : string) : list Z :=
  match s with
  | EmptyString => []
  | String c r =>
      if isspace c then ParsePattern r
      else if Ascii.eqb c "?" then
        -1 :: match r with String c2 r2 => if Ascii.eqb c2 "?" then ParsePattern r2 else ParsePattern r | EmptyString => [] end
      else
        match r with
        | String c2 r2 => if IsHex c && IsHex c2 then Z.lor (Z.shiftl (HexVal c) 4) (HexVal c2) :: ParsePattern r2 else ParsePattern r
        | EmptyString => []
        end
  end.

(** The offset of the first match in the bytes. *)
Fixpoint scan_loop (pat bs : list Z) (i : Z) : option Z :=
  if (length bs <? length pat)%nat then None
  else if Es.match_here pat bs then Some i
  else match bs with [] => None | _ :: r => scan_loop pat r (i + 1) end.
Definition ScanRegion (bs pat : list Z) : option Z :=
  match bs, pat with
  | [], _ | _, [] => None
  | _, _ => scan_loop pat bs 0
  end.

Record SigResult := { r_addr : option Z; r_matches : Z; pat_len : Z }.

(** After a match the scan goes on behind it: [skip] places are passed over. *)
Fixpoint count_loop (pat : list Z) (mx : Z) (bs : list Z) (i : Z) (skip : nat) (r : SigResult) : SigResult :=
  if (length bs <? length pat)%nat then r
  else
    match bs with
    | [] => r
    | _ :: bs' =>
        match skip with
        | S k => count_loop pat mx bs' (i + 1) k r
        | O =>
            if Es.match_here pat bs
            then
              let r := {| r_addr := if r_matches r =? 0 then Some i else r_addr r; r_matches := r_matches r + 1; pat_len := pat_len r |} in
              if mx <=? r_matches r then r else count_loop pat mx bs' (i + 1) (length pat - 1) r
            else count_loop pat mx bs' (i + 1) 0 r
        end
    end.
Definition ScanRegionCount (bs pat : list Z) (maxMatches : Z) : SigResult :=
  let r := {| r_addr := None; r_matches := 0; pat_len := zlen pat |} in
  match bs, pat with
  | [], _ | _, [] => r
  | _, _ => count_loop pat (if maxMatches <=? 0 then 1 else maxMatches) bs 0 0 r
  end.

(** A loaded module: its load address, its name, its [PT_LOAD] segments. *)
Record LoadedModule := { m_base : Z; m_name : option string; m_segs : Es.Image }.

Definition IsRealValveServerModule (realBase : option Z) (m : LoadedModule) : bool :=
  match realBase with
  | Some b => m_base m =? b
  | None => match m_name m with Some n => LooksLikeValveServerModule n | None => false end
  end.

(** The executable segments the scans visit, in order. *)
Definition real_segments (realBase : option Z) (ms : list LoadedModule) : list Es.Region :=
  ms ≫= fun m => if IsRealValveServerModule realBase m then filter (fun r => Es.exec r = true) (m_segs m) else [].

Fixpoint find_in (pat : list Z) (rs : list Es.Region) : option Z :=
  match rs with
  | [] => None
  | r :: rs => match ScanRegion (Es.data r) pat with Some i => Some (Es.addr r + i) | None => find_in pat rs end
  end.
Definition FindInRealServerText (realBase : option Z) (ms : list LoadedModule) (pattern : string) : option Z :=
  match ParsePattern pattern with
  | [] => None
  | pat => find_in pat (real_segments realBase ms)
  end.

Fixpoint count_in (pat : list Z) (mx : Z) (rs : list Es.Region) (res : SigResult) : SigResult :=
  match rs with
  | [] => res
  | r :: rs =>
      if mx <=? r_matches res then res
      else
        let c := ScanRegionCount (Es.data r) pat (mx - r_matches res) in
        count_in pat mx rs
          {| r_addr := if (0 <? r_matches c) && (r_matches res =? 0) then (fun i => Es.addr r + i) <$> r_addr c else r_addr res;
             r_matches := r_matches res + r_matches c; pat_len := pat_len res |}
  end.
Definition FindInRealServerTextCount (realBase : option Z) (ms : list LoadedModule) (pattern : string) (maxMatches : Z) : SigResult :=
  let pat := ParsePattern pattern in
  let out := {| r_addr := None; r_matches := 0; pat_len := zlen pat |} in
  match pat with
  | [] => out
  | _ => count_in pat maxMatches (real_segments realBase ms) out
  end.

(** [SnapshotRealServerImage] and [SnapshotModuleImage]: the segments of the first module that fits. *)
Definition SnapshotRealServerImage (realBase : option Z) (ms : list LoadedModule) : Es.Image :=
  match list_find (fun m => IsRealValveServerModule realBase m = true) ms with Some (_, m) => m_segs m | None => [] end.
Definition SnapshotModuleImage (realBase : option Z) (ms : list LoadedModule) (module : string) : Es.Image :=
  if module =s "server" then SnapshotRealServerImage realBase ms
  else
    match list_find (fun m => ends_with ("/lib" +s+ module +s+ ".so") (default EmptyString (m_name m)) = true) ms with
    | Some (_, m) => m_segs m
    | None => []
    end.

End Sig.
