(* ===== verification/EngineSurfaceFacts.v ===== *)
(** * Theorems about the engine surface

    What a resolved function or vtable can be relied on for, against reference definitions that look at
    every place of the image, and the agreement of the two signature scanners. *)

From S2P Require Import Prelude CStr Double SlotRegistry MiniJson EngineSurface Path.
Import Es.

(** ** Places of a region *)

Lemma windows_spec n : forall bs a a' bs', (a', bs') ∈ windows n a bs <->
  exists k : nat, a' = a + Z.of_nat k /\ bs' = drop k bs /\ (k + n <= length bs)%nat.
Proof.
  induction bs as [|b bs IH]; intros a a' bs'; cbn [windows length].
  - destruct n as [|n]; cbn.
    + rewrite list_elem_of_singleton. split; [intros [= -> ->]; exists 0%nat; split_and!; [lia|done|lia]|].
      intros (k & -> & -> & Hk). replace k with 0%nat by lia. f_equal. lia.
    + split; [by intros ?%elem_of_nil|intros (k & _ & _ & Hk); lia].
  - destruct (Nat.ltb_spec (S (length bs)) n) as [Hlt|Hge]; [split; [by intros ?%elem_of_nil|intros (k & _ & _ & Hk); lia]|].
    rewrite elem_of_cons, IH. split.
    + intros [[= -> ->]|(k & -> & -> & Hk)]; [exists 0%nat; split_and!; [lia|done|lia]|]. exists (S k). split_and!; [lia|done|lia].
    + intros ([|k] & -> & -> & Hk); [left; f_equal; lia|]. right. exists k. split_and!; [lia|done|lia].
Qed.

Lemma windows_none n a bs : (length bs < n)%nat -> windows n a bs = [].
Proof. intros H. assert ((length bs <? n)%nat = true) as E by (by apply Nat.ltb_lt). destruct bs; cbn in *; by rewrite E. Qed.

(** ** Scanning is complete *)

Definition sites_in (pat : list Z) (l : list (Z * list Z)) : list Z := omap (fun w => if match_here pat w.2 then Some w.1 else None) l.
Definition region_sites (pat : list Z) (r : Region) : list Z := if exec r then sites_in pat (region_windows (length pat) r) else [].
(** Every place of the image's code where a pattern matches. *)
Definition all_sites (img : Image) (pat : list Z) : list Z := img ≫= region_sites pat.

Lemma sites_cons pat w l : sites_in pat (w :: l) = if match_here pat w.2 then w.1 :: sites_in pat l else sites_in pat l.
Proof. unfold sites_in. cbn. by destruct (match_here pat w.2). Qed.

Lemma scan_places_spec pat mx l : forall out, zlen out < mx ->
  scan_places pat mx l out = (take (Z.to_nat mx) (out ++ sites_in pat l), mx <=? zlen (out ++ sites_in pat l)).
Proof.
  induction l as [|[a bs] l IH]; intros out Ho; cbn [scan_places]; rewrite ?sites_cons.
  - unfold sites_in. cbn. rewrite app_nil_r. rewrite take_ge by (unfold zlen in Ho; lia). f_equal. symmetry. apply Z.leb_gt. lia.
  - cbn [fst snd]. destruct (match_here pat bs); [|by apply IH].
    replace (out ++ a :: sites_in pat l) with ((out ++ [a]) ++ sites_in pat l) by by rewrite <- app_assoc.
    destruct (Z.leb_spec mx (zlen (out ++ [a]))) as [Hle|Hgt]; [|apply IH; lia].
    assert (length (out ++ [a]) = Z.to_nat mx) as El by (rewrite zlen_app in Hle; unfold zlen in *; rewrite length_app; cbn in *; lia).
    rewrite <- El, take_app_length. f_equal. symmetry. apply Z.leb_le. rewrite zlen_app. pose proof (zlen_nonneg (sites_in pat l)). lia.
Qed.

Lemma scan_regions_spec pat mx img : forall out, zlen out < mx ->
  scan_regions pat mx img out = take (Z.to_nat mx) (out ++ all_sites img pat).
Proof.
  induction img as [|r img IH]; intros out Ho; cbn [scan_regions all_sites mbind list_bind].
  - rewrite app_nil_r, take_ge; [done|]. unfold zlen in Ho. lia.
  - fold (all_sites img pat). unfold region_sites. destruct (exec r); cbn [negb orb]; [|by apply IH].
    destruct (Z.ltb_spec (size r) (zlen pat)) as [Hlt|Hge].
    { unfold region_windows. rewrite windows_none by (unfold size, zlen in Hlt; lia). by apply IH. }
    rewrite scan_places_spec by done. set (s := sites_in pat _). destruct (Z.leb_spec mx (zlen (out ++ s))) as [Hle|Hgt].
    + by rewrite (app_assoc out s), (take_app_le (out ++ s)) by (unfold zlen in Hle; lia).
    + rewrite take_ge by (unfold zlen in Hgt; lia). rewrite (app_assoc out s). by apply IH.
Qed.

(** The scan returns the first [mx] of all the places. *)
Lemma ScanAll_reference img w pat mx : 0 <= w -> 0 < mx -> ScanAll img (w :: pat) mx = take (Z.to_nat mx) (all_sites img (w :: pat)).
Proof.
  intros Hw Hm. unfold ScanAll. replace (w <? 0) with false by (symmetry; apply Z.ltb_ge; lia).
  by rewrite scan_regions_spec by (rewrite zlen_nil; lia).
Qed.

(** A place where a pattern matches, byte by byte. *)
Definition byte_fits (w b : Z) : Prop := w < 0 \/ b = w mod 256.
Definition match_site (img : Image) (pat : list Z) (a : Z) : Prop :=
  exists r (k : nat), r ∈ img /\ exec r = true /\ a = addr r + Z.of_nat k /\ (k + length pat <= length (data r))%nat /\
    forall j w, pat !! j = Some w -> exists b, data r !! (k + j)%nat = Some b /\ byte_fits w b.

Lemma match_here_spec pat : forall bs, match_here pat bs = true <->
  forall j w, pat !! j = Some w -> exists b, bs !! j = Some b /\ byte_fits w b.
Proof.
  unfold byte_fits. induction pat as [|w pat IH]; intros [|b bs]; cbn [match_here].
  - split; [by intros _ j w|done].
  - split; [by intros _ j w|done].
  - split; [done|]. intros H. by destruct (H 0%nat w eq_refl) as (b & Hb & _).
  - rewrite andb_true_iff, orb_true_iff, Z.ltb_lt, Z.eqb_eq, IH. split.
    + intros [H1 H2] [|j] w' Hj; cbn in *; [injection Hj as <-; by eexists|by apply H2].
    + intros H. split; [|by intros j w' Hj; apply (H (S j))]. by destruct (H 0%nat w eq_refl) as (b' & [= <-] & Hb).
Qed.

Lemma elem_of_all_sites img pat a : a ∈ all_sites img pat <-> match_site img pat a.
Proof.
  unfold all_sites, match_site. rewrite list_elem_of_bind. split.
  - intros (r & Ha & Hr). unfold region_sites in Ha. destruct (exec r) eqn:E; [|by apply elem_of_nil in Ha].
    unfold sites_in in Ha. apply list_elem_of_omap in Ha as ([a' bs] & Hw & Hm). cbn in Hm. destruct (match_here pat bs) eqn:Em; [|done].
    injection Hm as ->. apply windows_spec in Hw as (k & -> & -> & Hk). exists r, k. split_and!; try done.
    intros j w Hj. destruct (proj1 (match_here_spec _ _) Em _ _ Hj) as (b & Hb & Hf). exists b. by rewrite lookup_drop in Hb.
  - intros (r & k & Hr & He & -> & Hk & Hm). exists r. split; [|done]. unfold region_sites. rewrite He. apply list_elem_of_omap.
    exists (addr r + Z.of_nat k, drop k (data r)). split; [apply windows_spec; by eexists|]. cbn.
    replace (match_here pat (drop k (data r))) with true; [done|]. symmetry. apply (proj2 (match_here_spec _ _)). intros j w Hj. rewrite lookup_drop. by apply Hm.
Qed.

(** ** Functions *)

Lemma in_code img r (k : nat) : r ∈ img -> exec r = true -> (k < length (data r))%nat -> IsCode img (addr r + Z.of_nat k) = true.
Proof.
  intros Hr He Hk. unfold IsCode. apply existsb_exists. exists r. split; [by apply list_elem_of_In|]. rewrite He. cbn.
  apply andb_true_iff. split; [apply Z.leb_le; lia|apply Z.ltb_lt]. unfold size, zlen. lia.
Qed.

(** Claim C12.  A function that resolves is the only place of the image's code where its pattern matches, it has at
    least one anchor and every anchor holds there. *)
Theorem resolve_sound (img : Image) (spec : FunctionSpec) :
  s_ok (Resolve img spec) = true ->
  let h := s_addr (Resolve img spec) in
  (forall a, match_site img (ParsePattern (pattern spec)) a <-> a = h) /\ IsCode img h = true /\ f_anchors spec <> [] /\
  forall a, a ∈ f_anchors spec -> CheckAnchor img h a = true.
Proof.
  unfold Resolve. destruct (ParsePattern (pattern spec)) as [|w pat] eqn:Ep; [done|]. destruct (Z.ltb_spec w 0) as [Hw|Hw].
  { unfold ScanAll. by rewrite (proj2 (Z.ltb_lt w 0) Hw). }
  rewrite (ScanAll_reference _ _ _ _ Hw) by lia. destruct (take _ _) as [|h [|]] eqn:Et; [done| |done].
  assert (all_sites img (w :: pat) = [h]) as Hs.
  { destruct (all_sites img (w :: pat)) as [|x [|y [|z l]]]; cbn in Et; try done; by injection Et as <-. }
  destruct (f_anchors spec) as [|a l] eqn:Ea; [done|]. cbn [s_ok s_addr]. intros Hok.
  assert (forall a, match_site img (w :: pat) a <-> a = h) as Hm by (intros x; by rewrite <- elem_of_all_sites, Hs, list_elem_of_singleton).
  split_and!; [done| |done|].
  - destruct (proj2 (Hm h) eq_refl) as (r & k & Hr & He & -> & Hk & _). cbn in Hk. apply in_code; [done|done|lia].
  - rewrite forallb_forall in Hok. intros x Hx. apply Hok. by apply list_elem_of_In.
Qed.

(** ** Anchors *)

(** The image has the text [s], terminated, at [a]; an instruction at [p] takes its address. *)
Definition text_at (img : Image) (a : Z) (s : string) : Prop := exists b, Bytes img a (slen s + 1) = Some b /\ take (String.length s) b = bytes_of s /\ byte_at b (String.length s) = 0.
Definition refers_to (img : Image) (p : Z) (s : string) : Prop := exists t, LeaRipTarget img p = Some t /\ text_at img t s.

Lemma bytes_of_length s : length (bytes_of s) = String.length s.
Proof. unfold bytes_of. rewrite length_fmap. induction s as [|c s IH]; cbn; [done|by rewrite IH]. Qed.

Lemma IsString_spec img a s : IsString img a s = true <-> text_at img a s.
Proof.
  unfold IsString, text_at, is_bytes. destruct (Bytes img a (slen s + 1)) as [b|]; [|by split; [|intros (b & ? & _)]].
  rewrite bytes_of_length, andb_true_iff, bool_decide_eq_true, Z.eqb_eq. split; [intros [H1 H2]; by exists b|by intros (b' & [= <-] & H)].
Qed.

Lemma elem_of_range lo hi p : p ∈ range lo hi <-> lo <= p < hi.
Proof.
  unfold range. rewrite list_elem_of_fmap. setoid_rewrite elem_of_seq. split; [intros (k & -> & Hk); lia|]. intros H. exists (Z.to_nat (p - lo)). lia.
Qed.

Lemma LeaOfStringInRange_spec img lo hi s : LeaOfStringInRange img lo hi s = true <-> exists p, lo <= p < hi /\ refers_to img p s.
Proof.
  unfold LeaOfStringInRange, refers_to. rewrite existsb_exists. split.
  - intros (p & Hp%list_elem_of_In & H). exists p. split; [by apply elem_of_range|]. destruct (LeaRipTarget img p) as [t|]; [|done].
    exists t. split; [done|by apply IsString_spec].
  - intros (p & Hp & t & Ht & Hs). exists p. split; [by apply list_elem_of_In, elem_of_range|]. rewrite Ht. by apply IsString_spec.
Qed.

(** What a [string_ref] anchor and a [caller_string] anchor without thunks say of the code. *)
Lemma string_ref_holds img fn a : a_type a = "string_ref" ->
  CheckAnchor img fn a = true <-> exists p, fn <= p < wrap64 (fn + a_window a) /\ refers_to img p (a_str a).
Proof. intros E. unfold CheckAnchor. rewrite E. apply LeaOfStringInRange_spec. Qed.

(** An anchor of an unknown type never holds. *)
Lemma unknown_anchor img fn a : a_type a ∉ ["string_ref"; "caller_string"; "callee_string"; "global_string"; "mov_disp"] -> CheckAnchor img fn a = false.
Proof.
  intros H. unfold CheckAnchor. repeat (case_if; [match goal with E : (_ =s _) = true |- _ => apply String.eqb_eq in E; rewrite E in H; set_solver end|]). done.
Qed.

(** ** Vtables *)

(** An aligned slot outside code holds [x]; the name [s], terminated, is at [a] outside code. *)
Definition slot_holds (img : Image) (a x : Z) : Prop :=
  exists r (k : nat), r ∈ img /\ exec r = false /\ a = addr r + Z.of_nat k /\ (k + 8 <= length (data r))%nat /\ a mod 8 = 0 /\ le64 (drop k (data r)) = x.
Definition name_at (img : Image) (a : Z) (s : string) : Prop :=
  exists r (k : nat), r ∈ img /\ exec r = false /\ a = addr r + Z.of_nat k /\ (k + String.length s + 1 <= length (data r))%nat /\
    take (String.length s) (drop k (data r)) = bytes_of s /\ byte_at (drop k (data r)) (String.length s) = 0.

(** [v] is a primary vtable of the class with RTTI name [s]: a typeinfo object points to the name, and the
    slot before [v] points to the typeinfo, after an offset of 0 and before a code pointer. *)
Definition rtti_vtable (img : Image) (s : string) (v : Z) : Prop :=
  exists n slot1 slot2, name_at img n s /\ slot_holds img slot1 n /\ slot_holds img slot2 (wrap64 (slot1 - 8)) /\
    ReadPtr img (wrap64 (slot2 - 8)) = Some 0 /\ (exists f, ReadPtr img (wrap64 (slot2 + 8)) = Some f /\ IsCode img f = true) /\ v = wrap64 (slot2 + 8).

Lemma elem_of_data_slots img targets a : a ∈ DataSlotsPointingTo img targets <-> exists x, x ∈ targets /\ slot_holds img a x.
Proof.
  unfold DataSlotsPointingTo, slot_holds. rewrite list_elem_of_bind. split.
  - intros (r & Ha & Hr). destruct (exec r) eqn:E; [by apply elem_of_nil in Ha|]. apply list_elem_of_omap in Ha as ([a' bs] & Hw & Hm).
    cbn in Hm. destruct ((a' mod 8 =? 0) && _) eqn:Ec; [|done]. injection Hm as ->. apply andb_true_iff in Ec as [E1%Z.eqb_eq E2%bool_decide_eq_true].
    apply windows_spec in Hw as (k & -> & -> & Hk). eexists. split; [exact E2|]. by exists r, k.
  - intros (x & Hx & r & k & Hr & He & -> & Hk & Ha & Hv). exists r. split; [|done]. rewrite He. apply list_elem_of_omap.
    exists (addr r + Z.of_nat k, drop k (data r)). split; [apply windows_spec; by eexists|]. cbn [fst snd]. rewrite Hv, bool_decide_eq_true_2 by done.
    by rewrite (proj2 (Z.eqb_eq _ _) Ha).
Qed.

Lemma elem_of_name_sites img s a : a ∈ name_sites img s <-> name_at img a s.
Proof.
  unfold name_sites, name_at. rewrite list_elem_of_bind. split.
  - intros (r & Ha & Hr). destruct (exec r) eqn:E; [by apply elem_of_nil in Ha|]. apply list_elem_of_omap in Ha as ([a' bs] & Hw & Hm).
    cbn in Hm. destruct (is_bytes _ bs) eqn:Ec; [|done]. injection Hm as ->. unfold is_bytes in Ec. rewrite bytes_of_length in Ec.
    apply andb_true_iff in Ec as [E1%bool_decide_eq_true E2%Z.eqb_eq]. apply windows_spec in Hw as (k & -> & -> & Hk).
    exists r, k. split_and!; try done. lia.
  - intros (r & k & Hr & He & -> & Hk & H1 & H2). exists r. split; [|done]. rewrite He. apply list_elem_of_omap.
    exists (addr r + Z.of_nat k, drop k (data r)). split; [apply windows_spec; exists k; split_and!; [done|done|lia]|]. cbn.
    unfold is_bytes. by rewrite bytes_of_length, bool_decide_eq_true_2, H2 by done.
Qed.

Lemma primary_spec img slot : primary img slot = true <->
  ReadPtr img (wrap64 (slot - 8)) = Some 0 /\ exists f, ReadPtr img (wrap64 (slot + 8)) = Some f /\ IsCode img f = true.
Proof.
  unfold primary. destruct (ReadPtr img (wrap64 (slot - 8))) as [top|]; [|by split; [|intros [? _]]]. rewrite andb_true_iff, Z.eqb_eq. split.
  - intros [-> H]. split; [done|]. destruct (ReadPtr img (wrap64 (slot + 8))) as [f|]; [|done]. by exists f.
  - intros [[= ->] (f & -> & Hf)]. done.
Qed.

Lemma elem_of_primaries img s v : v ∈ primaries_of img s <-> rtti_vtable img s v.
Proof.
  unfold primaries_of, typeinfos_of, rtti_vtable. rewrite list_elem_of_fmap. split.
  - intros (slot2 & -> & [Hp Hs]%list_elem_of_filter). apply elem_of_data_slots in Hs as (ti & Ht & H2).
    apply list_elem_of_fmap in Ht as (slot1 & -> & (n & Hn & H1)%elem_of_data_slots). apply elem_of_name_sites in Hn. apply primary_spec in Hp as [Hp1 Hp2].
    by exists n, slot1, slot2.
  - intros (n & slot1 & slot2 & Hn & H1 & H2 & Hp1 & Hp2 & ->). exists slot2. split; [done|]. apply list_elem_of_filter. split; [by apply primary_spec|].
    apply elem_of_data_slots. eexists. split; [|exact H2]. apply list_elem_of_fmap. exists slot1. split; [done|]. apply elem_of_data_slots.
    exists n. split; [by apply elem_of_name_sites|done].
Qed.

Lemma FindVtableByRtti_unique img s v : FindVtableByRtti img s = Some v -> forall v', rtti_vtable img s v' <-> v' = v.
Proof.
  unfold FindVtableByRtti. case_if; [done|]. destruct (primaries_of img s) as [|x [|]] eqn:E; [done| |done]. intros [= ->] v'.
  by rewrite <- elem_of_primaries, E, list_elem_of_singleton.
Qed.

(** Claim C13.  A vtable slot that verifies: its vtable is the class's only primary vtable, the slot's target is code,
    it is the function the entry names, an entry that names none has an anchor, and every anchor holds. *)
Theorem vtable_sound (img : Image) (es : EngineSurface) (spec : VtableSpec) (expectedFn : Z) :
  let c := VerifyVtable img es spec expectedFn in
  c_ok c = true ->
  exists rt, FindRtti (cls spec) es = Some rt /\ (forall v, rtti_vtable img (typeinfo_name rt) v <-> v = vtable c) /\
    0 <= v_index spec /\ ReadPtr img (wrap64 (vtable c + v_index spec * 8)) = Some (target c) /\ IsCode img (target c) = true /\
    (if sempty (v_function spec) then v_anchors spec <> [] else expectedFn = target c /\ expectedFn <> 0) /\
    forall a, a ∈ v_anchors spec -> CheckAnchor img (target c) a = true.
Proof.
  cbv zeta. unfold VerifyVtable. destruct (FindRtti (cls spec) es) as [rt|]; [|done]. destruct (FindVtableByRtti img (typeinfo_name rt)) as [vt|] eqn:Ev; [|done].
  unfold CheckVtableSlot. destruct (Z.ltb_spec (v_index spec) 0) as [|Hi]; [done|]. destruct (ReadPtr img (wrap64 (vt + v_index spec * 8))) as [t|] eqn:Er; [|done].
  destruct (IsCode img t) eqn:Ec; [|done]. cbn [negb c_ok vtable target]. intros [[H1 H2]%andb_true_iff H3]%andb_true_iff. exists rt.
  split_and!; [done|by apply FindVtableByRtti_unique|done|done|done| |].
  - destruct (sempty (v_function spec)); cbn in *; [by destruct (v_anchors spec)|]. split_bools. by split.
  - rewrite forallb_forall in H3. intros a Ha. apply H3. by apply list_elem_of_In.
Qed.

(** ** Fragments *)

Lemma first_named_app {A} (key : A -> string) name l l' :
  first_named key name (l ++ l') = match first_named key name l with Some x => Some x | None => first_named key name l' end.
Proof. induction l as [|x l IH]; cbn; [done|]. by case_if. Qed.

Lemma first_named_key {A} (key : A -> string) name l x : first_named key name l = Some x -> x ∈ l /\ key x = name.
Proof.
  induction l as [|y l IH]; cbn; [done|]. destruct (key y =s name) eqn:E; [intros [= ->]; split; [by left|by apply String.eqb_eq]|].
  intros [H1 H2]%IH. split; [by right|done].
Qed.

Lemma not_taken {A B} (key : A -> string) (look : string -> EngineSurface -> option B) base l name x :
  taken key look base l = false -> first_named key name l = Some x -> look name base = None.
Proof.
  intros Ht [Hx <-]%first_named_key. unfold taken in Ht. destruct (look (key x) base) eqn:E; [|done].
  assert (existsb (fun x => match look (key x) base with Some _ => true | None => false end) l = true) as Hc; [|by rewrite Hc in Ht].
  apply existsb_exists. exists x. split; [by apply list_elem_of_In|by rewrite E].
Qed.

(** A fragment can only add: everything the base names keeps its meaning and its verdict, on every image,
    and what the fragment names was free. *)
Theorem fragment_only_adds (base frag m : EngineSurface) :
  MergeEngineSurface base frag = Some m ->
  (forall name, Find name m = match Find name base with Some f => Some f | None => Find name frag end) /\
  (forall name f, Find name base = Some f -> Find name frag = None) /\
  (forall name, VtableIndex name m = match FindVtable name base with Some _ => VtableIndex name base | None => VtableIndex name frag end) /\
  (forall c, RttiName c m = match RttiName c base with Some n => Some n | None => RttiName c frag end) /\
  (forall name, FindLayout name m = match FindLayout name base with Some l => Some l | None => FindLayout name frag end) /\
  (forall img spec fn rt, FindRtti (cls spec) base = Some rt -> VerifyVtable img m spec fn = VerifyVtable img base spec fn).
Proof.
  unfold MergeEngineSurface. destruct (taken f_name Find base (functions frag)) eqn:E1; [done|]. cbn [orb]. case_if; [done|]. intros [= <-].
  assert (forall c, FindRtti c {| game_version := game_version base; functions := functions base ++ functions frag; vtables := vtables base ++ vtables frag;
    rtti := rtti base ++ rtti frag; layouts := layouts base ++ layouts frag |} = match FindRtti c base with Some x => Some x | None => FindRtti c frag end) as Hr
    by (intros c; apply first_named_app).
  split_and!.
  - intros name. apply first_named_app.
  - intros name f Hf. destruct (Find name frag) eqn:E; [|done]. by rewrite (not_taken _ _ _ _ _ _ E1 E) in Hf.
  - intros name. unfold VtableIndex, FindVtable at 1. cbn [vtables]. rewrite first_named_app. fold (FindVtable name base). by destruct (FindVtable name base).
  - intros c. unfold RttiName. rewrite Hr. by destruct (FindRtti c base).
  - intros name. apply first_named_app.
  - intros img spec fn rt Hrt. unfold VerifyVtable. by rewrite Hr, Hrt.
Qed.

(** ** The two scanners *)

Lemma hex_agree c : (0 <=? HexVal c) = Sig.IsHex c /\ (Sig.IsHex c = true -> Sig.HexVal c = HexVal c) /\
  (Sig.IsHex c = true -> isspace c = false /\ Ascii.eqb c "?" = false).
Proof. destruct c as [[] [] [] [] [] [] [] []]; vm_compute; repeat split; congruence. Qed.

(** A pattern the resolver accepts reads the same for the hooks' scanner. *)
Lemma patterns_agree : forall n s l, (String.length s <= n)%nat -> pattern_loop s = Some l -> Sig.ParsePattern s = l.
Proof.
  induction n as [|n IH]; intros [|c s] l Hn; cbn in Hn; try lia; try (by intros [= <-]).
  cbn [pattern_loop Sig.ParsePattern]. destruct (Ascii.eqb c " " || Ascii.eqb c tab) eqn:Esp.
  - replace (isspace c) with true; [apply IH; lia|]. symmetry. apply orb_true_iff in Esp as [->%Ascii.eqb_eq| ->%Ascii.eqb_eq]; done.
  - destruct (Ascii.eqb c "?") eqn:Eq.
    + apply Ascii.eqb_eq in Eq as ->. replace (isspace "?") with false by done. intros (l2 & E & ->)%fmap_Some. f_equal.
      destruct s as [|c2 s]; [by injection E as <-|]. cbn in Hn. case_if; apply IH; cbn; try done; lia.
    + destruct s as [|c2 s]; [done|]. cbn in Hn. destruct (hex_agree c) as (H1 & H2 & H3), (hex_agree c2) as (H4 & H5 & H6). rewrite H1, H4.
      destruct (Sig.IsHex c) eqn:E1, (Sig.IsHex c2) eqn:E2; cbn [andb]; try done. intros (l2 & E & ->)%fmap_Some.
      rewrite (proj1 (H3 eq_refl)), H2, H5 by done. f_equal. apply IH; [lia|done].
Qed.

Lemma scan_loop_windows pat bs : forall a i, pat <> [] ->
  (fun k => a - i + k) <$> Sig.scan_loop pat bs i = head (sites_in pat (windows (length pat) a bs)).
Proof.
  induction bs as [|b bs IH]; intros a i Hp; cbn [Sig.scan_loop windows].
  - destruct pat; [done|]. done.
  - destruct (Nat.ltb_spec (length (b :: bs)) (length pat)); [done|]. rewrite sites_cons. cbn [fst snd].
    destruct (match_here pat (b :: bs)); [cbn; f_equal; lia|]. rewrite <- (IH (a + 1) (i + 1) Hp). destruct (Sig.scan_loop pat bs (i + 1)); cbn; [f_equal; lia|done].
Qed.

Lemma ScanRegion_windows pat r : pat <> [] ->
  (fun i => addr r + i) <$> Sig.ScanRegion (data r) pat = head (sites_in pat (region_windows (length pat) r)).
Proof.
  intros Hp. unfold region_windows. rewrite <- (scan_loop_windows pat (data r) (addr r) 0 Hp). rewrite Z.sub_0_r.
  unfold Sig.ScanRegion. destruct pat; [done|]. by destruct (data r).
Qed.

Lemma find_in_sites pat rs : pat <> [] -> Forall (fun r => exec r = true) rs -> Sig.find_in pat rs = head (all_sites rs pat).
Proof.
  intros Hp. induction 1 as [|r rs He _ IH]; [done|]. cbn [Sig.find_in all_sites mbind list_bind]. fold (all_sites rs pat). unfold region_sites. rewrite He.
  rewrite IH. pose proof (ScanRegion_windows pat r Hp) as Hr. destruct (Sig.ScanRegion (data r) pat); cbn in Hr; destruct (sites_in pat _); cbn in *; congruence.
Qed.

Lemma code_sites (img : list Region) pat : all_sites (filter (fun r : Region => exec r = true) img) pat = all_sites img pat.
Proof.
  induction img as [|r img IH]; [done|]. rewrite filter_cons. cbn [all_sites mbind list_bind] in *. fold (all_sites img pat).
  case_decide as E; [cbn; by fold (all_sites (filter (fun r => exec r = true) img) pat); rewrite IH|]. rewrite IH. unfold region_sites. by destruct (exec r).
Qed.

(** The hooks' scanner and the resolver agree: with one server library loaded, the address the first finds
    for a pattern the second accepts is the first of its matches in the library's image. *)
Theorem scanners_agree (realBase : option Z) (m : Sig.LoadedModule) (before after : list Sig.LoadedModule) (p : string) (w : Z) (pat : list Z) (mx : Z) :
  ParsePattern p = w :: pat -> 0 <= w -> 0 < mx ->
  Sig.IsRealValveServerModule realBase m = true ->
  Forall (fun x => Sig.IsRealValveServerModule realBase x = false) (before ++ after) ->
  let ms := before ++ m :: after in
  Sig.FindInRealServerText realBase ms p = head (ScanAll (Sig.SnapshotRealServerImage realBase ms) (ParsePattern p) mx).
Proof.
  intros Ep Hw Hm Hreal [Hb Ha]%Forall_app ms. assert (Sig.ParsePattern p = w :: pat) as Es.
  { unfold ParsePattern in Ep. destruct (pattern_loop p) as [l|] eqn:E; cbn in Ep; [|done]. by rewrite (patterns_agree _ _ _ (Nat.le_refl _) E). }
  assert (forall l, Forall (fun x => Sig.IsRealValveServerModule realBase x = false) l -> Sig.real_segments realBase l = []) as Hnone.
  { unfold Sig.real_segments. induction 1 as [|x l Hx _ IH]; cbn; [done|]. by rewrite Hx, IH. }
  assert (Sig.real_segments realBase ms = filter (fun r : Region => exec r = true) (Sig.m_segs m : list Region)) as Eseg.
  { unfold ms. unfold Sig.real_segments in *. rewrite bind_app. cbn [mbind list_bind]. rewrite Hreal, (Hnone before) by done. cbn.
    by rewrite (Hnone after), app_nil_r. }
  rewrite Ep, (ScanAll_reference _ _ _ _ Hw Hm). unfold Sig.FindInRealServerText. rewrite Es, Eseg, find_in_sites, code_sites; [|done|apply Forall_forall; by intros r [? _]%list_elem_of_filter].
  assert (Sig.SnapshotRealServerImage realBase ms = Sig.m_segs m) as ->.
  { unfold Sig.SnapshotRealServerImage, ms. rewrite list_find_app_r.
    - cbn. by rewrite decide_True.
    - apply list_find_None. eapply Forall_impl; [exact Hb|]. cbn. congruence. }
  destruct (all_sites _ _) as [|x l]; [by rewrite take_nil|]. destruct (Z.to_nat mx) eqn:E; [lia|done].
Qed.

(** *** Counting *)

Definition site_at (pat bs : list Z) (k : nat) : Prop := match_here pat (drop k bs) = true.

Lemma match_here_length pat : forall bs, match_here pat bs = true -> (length pat <= length bs)%nat.
Proof. induction pat as [|w pat IH]; intros [|b bs]; cbn; try lia; try done. intros [_ H%IH]%andb_true_iff. lia. Qed.

Lemma site_length pat bs k : site_at pat bs k -> (length pat <= length bs)%nat.
Proof. intros H%match_here_length. rewrite length_drop in H. lia. Qed.

Section counting.
Context (pat : list Z) (mx : Z) (Hpat : pat <> []).
#[local] Abbreviation count := (Sig.count_loop pat mx).

(** Later matches leave the address alone; when there are none, the places passed over are the only ones. *)
Lemma count_more bs : forall i skip r, Sig.r_matches r < mx ->
  Sig.r_matches r <= Sig.r_matches (count bs i skip r) <= mx /\
  (1 <= Sig.r_matches r -> Sig.r_addr (count bs i skip r) = Sig.r_addr r) /\
  (Sig.r_matches (count bs i skip r) = Sig.r_matches r -> forall k, site_at pat bs k -> (k < skip)%nat).
Proof.
  induction bs as [|b bs IH]; intros i skip r Hr; cbn [Sig.count_loop].
  - destruct pat; [done|]. cbn. split_and!; [lia|lia|done|]. intros _ k Hk%site_length. cbn in Hk. lia.
  - destruct (Nat.ltb_spec (length (b :: bs)) (length pat)) as [Hlt|_].
    { split_and!; [lia|lia|done|]. intros _ k Hk%site_length. lia. }
    destruct skip as [|skip].
    + destruct (match_here pat (b :: bs)) eqn:Em.
      * cbn [Sig.r_matches]. set (r1 := Sig.Build_SigResult _ _ _). assert (1 <= Sig.r_matches r -> Sig.r_addr r1 = Sig.r_addr r) as Ha.
        { intros H1. cbn. by rewrite (proj2 (Z.eqb_neq _ _)) by lia. }
        destruct (Z.leb_spec mx (Sig.r_matches r + 1)); [cbn; split_and!; [lia|lia|done|lia]|].
        destruct (IH (i + 1) (length pat - 1)%nat r1) as (H1 & H2 & _); [cbn; lia|]. cbn in H1.
        split_and!; [lia|lia| |lia]. intros H4. rewrite H2; [auto|cbn; lia].
      * destruct (IH (i + 1) 0%nat r Hr) as (H1 & H2 & H3). split_and!; [lia|lia|done|]. intros E [|k] Hk; [by unfold site_at in Hk; rewrite drop_0, Em in Hk|].
        specialize (H3 E k Hk). lia.
    + destruct (IH (i + 1) skip r Hr) as (H1 & H2 & H3). split_and!; [lia|lia|done|]. intros E [|k] Hk; [lia|]. specialize (H3 E k Hk). lia.
Qed.

Lemma count_first bs : forall i r, Sig.r_matches r = 0 -> 1 < mx ->
  let c := count bs i 0 r in
  match Sig.scan_loop pat bs i with
  | Some j => 1 <= Sig.r_matches c /\ Sig.r_addr c = Some j /\
      (Sig.r_matches c = 1 -> forall k, site_at pat bs k -> j <= i + Z.of_nat k < j + zlen pat)
  | None => c = r /\ forall k, ~ site_at pat bs k
  end.
Proof.
  induction bs as [|b bs IH]; intros i r Hr Hm; cbn [Sig.count_loop Sig.scan_loop].
  - destruct pat; [done|]. cbn. split; [done|]. intros k Hk%site_length. cbn in Hk. lia.
  - destruct (Nat.ltb_spec (length (b :: bs)) (length pat)) as [Hlt|_].
    { split; [done|]. intros k Hk%site_length. lia. }
    destruct (match_here pat (b :: bs)) eqn:Em.
    + cbn [Sig.r_matches]. rewrite Hr. set (r1 := Sig.Build_SigResult _ _ _). rewrite (proj2 (Z.leb_gt mx (0 + 1))) by lia.
      destruct (count_more bs (i + 1) (length pat - 1) r1) as (H1 & H2 & H3); [cbn; lia|]. cbn in H1.
      split_and!; [lia|rewrite H2 by (cbn; lia); done|]. intros E [|k] Hk.
      * unfold zlen. destruct pat; [done|]. cbn. lia.
      * specialize (H3 ltac:(cbn; lia) k Hk). unfold zlen. lia.
    + specialize (IH (i + 1) r Hr Hm). cbn zeta in IH. destruct (Sig.scan_loop pat bs (i + 1)) as [j|].
      * destruct IH as (H1 & H2 & H3). split_and!; [done|done|]. intros E [|k] Hk; [by unfold site_at in Hk; rewrite drop_0, Em in Hk|].
        specialize (H3 E k Hk). lia.
      * destruct IH as [H1 H2]. split; [done|]. intros [|k] Hk; [by unfold site_at in Hk; rewrite drop_0, Em in Hk|]. by apply (H2 k).
Qed.

(** The scan of one segment. *)
Lemma region_count (r : Region) : 1 < mx ->
  let c := Sig.ScanRegionCount (data r) pat mx in
  match Sig.ScanRegion (data r) pat with
  | Some j => 1 <= Sig.r_matches c <= mx /\ Sig.r_addr c = Some j /\ (Sig.r_matches c = 1 -> forall k, site_at pat (data r) k -> j <= Z.of_nat k < j + zlen pat)
  | None => Sig.r_matches c = 0 /\ forall k, ~ site_at pat (data r) k
  end.
Proof.
  intros Hm. unfold Sig.ScanRegionCount, Sig.ScanRegion. destruct (data r) as [|b bs] eqn:E.
  { split; [done|]. intros k Hk%site_length. destruct pat; [done|]. cbn in Hk. lia. }
  rewrite <- E. assert (forall A (x y : A), match pat with [] => x | _ :: _ => y end = y) as Hnil by (intros A x y; generalize Hpat; by destruct pat).
  rewrite !Hnil. rewrite (proj2 (Z.leb_gt mx 0)) by lia.
  pose proof (count_more (data r) 0 0 {| Sig.r_addr := None; Sig.r_matches := 0; Sig.pat_len := zlen pat |} ltac:(cbn; lia)) as (Hmax & _).
  pose proof (count_first (data r) 0 {| Sig.r_addr := None; Sig.r_matches := 0; Sig.pat_len := zlen pat |} eq_refl Hm) as H. cbn zeta in H.
  destruct (Sig.scan_loop pat (data r) 0) as [j|].
  - destruct H as (H1 & H2 & H3). split_and!; [lia|lia|done|]. intros E1 k Hk. specialize (H3 E1 k Hk). lia.
  - destruct H as [-> H2]. done.
Qed.

Lemma region_more (r : Region) : 0 < mx ->
  let c := Sig.ScanRegionCount (data r) pat mx in
  0 <= Sig.r_matches c <= mx /\ (Sig.r_matches c = 0 -> forall k, ~ site_at pat (data r) k).
Proof.
  intros Hm. unfold Sig.ScanRegionCount. destruct (data r) as [|b bs] eqn:E.
  { cbn. split; [lia|]. intros _ k Hk%site_length. destruct pat; [done|]. cbn in Hk. lia. }
  rewrite <- E. assert (forall A (x y : A), match pat with [] => x | _ :: _ => y end = y) as Hnil by (intros A x y; generalize Hpat; by destruct pat).
  rewrite !Hnil. rewrite (proj2 (Z.leb_gt mx 0)) by lia.
  destruct (count_more (data r) 0 0 {| Sig.r_addr := None; Sig.r_matches := 0; Sig.pat_len := zlen pat |} ltac:(cbn; lia)) as (H1 & _ & H3). cbn in H1.
  split; [lia|]. intros E0 k Hk. specialize (H3 E0 k Hk). lia.
Qed.

End counting.

(** The segments after the first match. *)
Lemma count_in_more pat mx rs : pat <> [] -> forall res, 1 <= Sig.r_matches res <= mx ->
  let c := Sig.count_in pat mx rs res in
  Sig.r_matches res <= Sig.r_matches c <= mx /\ Sig.r_addr c = Sig.r_addr res /\
  (Sig.r_matches c = Sig.r_matches res -> Sig.r_matches res < mx -> forall r k, r ∈ rs -> ~ site_at pat (data r) k).
Proof.
  intros Hp. induction rs as [|r rs IH]; intros res Hres; cbn [Sig.count_in]; [split_and!; [lia|lia|done|by intros _ _ r k ?%elem_of_nil]|].
  destruct (Z.leb_spec mx (Sig.r_matches res)); [split_and!; [lia|lia|done|lia]|].
  destruct (region_more pat (mx - Sig.r_matches res) Hp r) as [H1 H2]; [lia|]. set (c0 := Sig.ScanRegionCount _ _ _) in *. cbn zeta in IH.
  match goal with |- context [Sig.count_in pat mx rs ?x] => destruct (IH x) as (G1 & G2 & G3); [cbn; lia|] end. cbn [Sig.r_matches Sig.r_addr] in *.
  assert ((0 <? Sig.r_matches c0) && (Sig.r_matches res =? 0) = false) as Ec by (rewrite (proj2 (Z.eqb_neq (Sig.r_matches res) 0)) by lia; apply andb_false_r).
  rewrite Ec in *. split_and!; [lia|lia|done|]. intros E Hlt r' k [->|Hr]%elem_of_cons; [apply H2; lia|]. apply G3; [lia|lia|done].
Qed.

Lemma scan_loop_site pat bs : forall i j, Sig.scan_loop pat bs i = Some j -> site_at pat bs (Z.to_nat (j - i)) /\ i <= j.
Proof.
  induction bs as [|b bs IH]; intros i j; cbn [Sig.scan_loop]; case_if; try done.
  - destruct (match_here pat []) eqn:E; [|done]. intros [= ->]. rewrite Z.sub_diag. by split.
  - destruct (match_here pat (b :: bs)) eqn:E; [intros [= ->]; rewrite Z.sub_diag; by split|]. intros [H1 H2]%IH. split; [|lia].
    unfold site_at in *. replace (Z.to_nat (j - i)) with (S (Z.to_nat (j - (i + 1)))) by lia. done.
Qed.
Lemma ScanRegion_site pat bs j : Sig.ScanRegion bs pat = Some j -> site_at pat bs (Z.to_nat (j - 0)).
Proof. unfold Sig.ScanRegion. destruct bs, pat; try done. apply scan_loop_site. Qed.

(** The count against the first match: none is found exactly when there is none; the address is the first
    match's; and a count of one means that no other match starts outside the bytes of the first. *)
Theorem sig_count (realBase : option Z) (ms : list Sig.LoadedModule) (p : string) (mx : Z) :
  Sig.ParsePattern p <> [] -> 1 < mx ->
  let c := Sig.FindInRealServerTextCount realBase ms p mx in
  let pat := Sig.ParsePattern p in
  Sig.r_addr c = Sig.FindInRealServerText realBase ms p /\ 0 <= Sig.r_matches c <= mx /\
  (Sig.r_matches c = 0 <-> forall r k, r ∈ Sig.real_segments realBase ms -> ~ site_at pat (data r) k) /\
  (Sig.r_matches c = 1 -> forall r k, r ∈ Sig.real_segments realBase ms -> site_at pat (data r) k ->
    exists h, Sig.r_addr c = Some h /\ h <= addr r + Z.of_nat k < h + zlen pat).
Proof.
  intros Hp Hm. unfold Sig.FindInRealServerTextCount, Sig.FindInRealServerText. generalize (Sig.real_segments realBase ms). cbv zeta.
  destruct (Sig.ParsePattern p) as [|w l]; [done|]. generalize dependent (w :: l). clear -Hm. intros pat Hp rs.
  induction rs as [|r rs IH]; cbn [Sig.count_in Sig.find_in Sig.r_matches Sig.r_addr].
  { split_and!; [done|lia|lia|split; [by intros _ r k ?%elem_of_nil|done]|lia]. }
  rewrite (proj2 (Z.leb_gt mx 0)), Z.sub_0_r by lia. pose proof (region_count pat mx Hp r Hm) as Hr. cbn zeta in Hr.
  destruct (Sig.ScanRegion (data r) pat) as [j|] eqn:Hf.
  - destruct Hr as (H1 & H2 & H3). set (c0 := Sig.ScanRegionCount _ _ _) in *. rewrite (proj2 (Z.ltb_lt 0 (Sig.r_matches c0))) by lia. cbn [andb Z.eqb].
    rewrite H2. cbn [fmap option_fmap option_map]. match goal with |- context [Sig.count_in pat mx rs ?x] => destruct (count_in_more pat mx rs Hp x) as (G1 & G2 & G3); [cbn; lia|] end.
    cbn [Sig.r_matches Sig.r_addr] in *. rewrite G2. split_and!; [done|lia|lia| |].
    + split; [lia|]. intros Hno. by destruct (Hno r _ ltac:(by left) (ScanRegion_site _ _ _ Hf)).
    + intros E r' k [->|Hr]%elem_of_cons Hk; [|by destruct (G3 ltac:(lia) ltac:(lia) r' k)].
      exists (addr r + j). split; [done|]. specialize (H3 ltac:(lia) k Hk). lia.
  - destruct Hr as [H1 H2]. rewrite H1. cbn [Z.ltb Z.compare andb Sig.pat_len]. change (0 + 0) with 0. destruct IH as (G1 & G2 & G3 & G4). split_and!; [done|lia|lia| |].
    + rewrite G3. split; [intros H r' k [->|Hr]%elem_of_cons; [apply H2|by apply H]|]. intros H r' k Hr. apply H. by right.
    + intros E r' k [->|Hr]%elem_of_cons Hk; [by destruct (H2 k)|]. by apply (G4 E r').
Qed.

(** ** A small module *)

Definition ptr (x : Z) : list Z := [x mod 256; x / 256 mod 256; 0; 0; 0; 0; 0; 0].
(** A function that takes the address of the text [hi]; data with that text, an RTTI name, its typeinfo and
    its vtable. *)
Definition sample_image : Image :=
  [{| addr := 4096; data := [85; 72; 141; 5; 248; 15; 0; 0; 195; 144; 85; 144; 144; 144; 144; 144]; exec := true |};
   {| addr := 8192; data := [104; 105; 0; 0; 0; 0; 0; 0] ++ [49; 65; 0; 0; 0; 0; 0; 0] ++ ptr 0 ++ ptr 8200 ++ ptr 0 ++ ptr 8208 ++ ptr 4096; exec := false |}].
Definition sample_anchor : Anchor :=
  {| a_type := "string_ref"; a_str := "hi"; a_window := 16; via_thunk := false; callee_window := 256; a_disp := 0 |}.
Definition sample_fn : FunctionSpec :=
  {| f_name := "F"; pattern := "55 48 8D ?"; required := true; f_anchors := [sample_anchor]; description := EmptyString; hook := EmptyString; library := "server" |}.
Definition sample_slot : VtableSpec :=
  {| v_name := "A::F"; v_index := 0; cls := "A"; v_function := "F"; v_anchors := [sample_anchor]; v_module := "server"; note := EmptyString |}.
Definition sample_surface : EngineSurface :=
  {| game_version := "1"; functions := [sample_fn]; vtables := [sample_slot]; rtti := [{| r_cls := "A"; typeinfo_name := "1A"; r_module := "server" |}]; layouts := [] |}.

Lemma resolve_sound_witness :
  let h := s_addr (Resolve sample_image sample_fn) in
  (forall a, match_site sample_image (ParsePattern (pattern sample_fn)) a <-> a = h) /\ IsCode sample_image h = true /\ f_anchors sample_fn <> [] /\
  forall a, a ∈ f_anchors sample_fn -> CheckAnchor sample_image h a = true.
Proof. apply (resolve_sound sample_image sample_fn). vm_compute. reflexivity. Defined.

Lemma vtable_sound_witness :
  let c := VerifyVtable sample_image sample_surface sample_slot 4096 in
  exists rt, FindRtti (cls sample_slot) sample_surface = Some rt /\ (forall v, rtti_vtable sample_image (typeinfo_name rt) v <-> v = vtable c) /\
    0 <= v_index sample_slot /\ ReadPtr sample_image (wrap64 (vtable c + v_index sample_slot * 8)) = Some (target c) /\ IsCode sample_image (target c) = true /\
    (if sempty (v_function sample_slot) then v_anchors sample_slot <> [] else 4096 = target c /\ 4096 <> 0) /\
    forall a, a ∈ v_anchors sample_slot -> CheckAnchor sample_image (target c) a = true.
Proof. apply (vtable_sound sample_image sample_surface sample_slot 4096). vm_compute. reflexivity. Defined.

Definition sample_fragment : EngineSurface :=
  {| game_version := "2"; functions := []; vtables := []; rtti := [{| r_cls := "B"; typeinfo_name := "1B"; r_module := "server" |}]; layouts := [] |}.
Definition sample_merged : EngineSurface := default sample_surface (MergeEngineSurface sample_surface sample_fragment).

Lemma fragment_only_adds_witness :
  RttiName "B" sample_merged = Some "1B" /\
  ((forall name, Find name sample_merged = match Find name sample_surface with Some f => Some f | None => Find name sample_fragment end) /\
  (forall name f, Find name sample_surface = Some f -> Find name sample_fragment = None) /\
  (forall name, VtableIndex name sample_merged = match FindVtable name sample_surface with Some _ => VtableIndex name sample_surface | None => VtableIndex name sample_fragment end) /\
  (forall c, RttiName c sample_merged = match RttiName c sample_surface with Some n => Some n | None => RttiName c sample_fragment end) /\
  (forall name, FindLayout name sample_merged = match FindLayout name sample_surface with Some l => Some l | None => FindLayout name sample_fragment end) /\
  (forall img spec fn rt, FindRtti (cls spec) sample_surface = Some rt -> VerifyVtable img sample_merged spec fn = VerifyVtable img sample_surface spec fn)).
Proof. split; [reflexivity|]. apply (fragment_only_adds sample_surface sample_fragment). reflexivity. Defined.

Definition sample_module : Sig.LoadedModule := {| Sig.m_base := 7; Sig.m_name := Some "/x/libserver.so"; Sig.m_segs := sample_image |}.
Definition other_module : Sig.LoadedModule := {| Sig.m_base := 9; Sig.m_name := None; Sig.m_segs := sample_image |}.

Lemma scanners_agree_witness :
  Sig.FindInRealServerText (Some 7) ([other_module] ++ sample_module :: []) "55 ??" =
  head (ScanAll (Sig.SnapshotRealServerImage (Some 7) ([other_module] ++ sample_module :: [])) (ParsePattern "55 ??") 3).
Proof.
  apply (scanners_agree (Some 7) sample_module [other_module] [] "55 ??" 85 [-1] 3); [reflexivity|lia|lia|reflexivity|].
  by repeat constructor.
Defined.

Lemma sig_count_witness :
  let c := Sig.FindInRealServerTextCount (Some 7) [sample_module] "55 48" 3 in
  let pat := Sig.ParsePattern "55 48" in
  Sig.r_addr c = Sig.FindInRealServerText (Some 7) [sample_module] "55 48" /\ 0 <= Sig.r_matches c <= 3 /\
  (Sig.r_matches c = 0 <-> forall r k, r ∈ Sig.real_segments (Some 7) [sample_module] -> ~ site_at pat (data r) k) /\
  (Sig.r_matches c = 1 -> forall r k, r ∈ Sig.real_segments (Some 7) [sample_module] -> site_at pat (data r) k ->
    exists h, Sig.r_addr c = Some h /\ h <= addr r + Z.of_nat k < h + zlen pat).
Proof. apply (sig_count (Some 7) [sample_module] "55 48" 3); [discriminate|lia]. Defined.

(** Overlapping matches: the hooks' scanner counts one where the resolver finds two. *)
Example overlap_counts_once :
  let img := [{| addr := 0; data := [1; 1; 1; 2]; exec := true |}] in
  Sig.r_matches (Sig.FindInRealServerTextCount (Some 7) [{| Sig.m_base := 7; Sig.m_name := None; Sig.m_segs := img |}] "01 01" 3) = 1 /\
  ScanAll img (ParsePattern "01 01") 3 = [0; 1].
Proof. vm_compute. done. Qed.

(** A pattern with a stray token: the resolver refuses it, the hooks' scanner skips the token. *)
Example stray_token : ParsePattern "55 x 48" = [] /\ Sig.ParsePattern "55 x 48" = [85; 72].
Proof. vm_compute. done. Qed.

Example surface_sample :
  match ParseEngineSurface (qs "{`_meta`:{`game_version`:`1.4`},`functions`:{`B`:{`linux`:`55`},`A`:{`linux`:`48 ?`,`anchors`:[{`type`:`string_ref`,`window`:64}]}},`vtable_indices`:{`X`:{`linux`:21}}}") with
  | Some (Some es) => game_version es = "1.4" /\ map f_name (functions es) = ["A"; "B"] /\ map v_index (vtables es) = [21] /\ layouts es = []
  | _ => False
  end.
Proof. vm_compute. done. Qed.
