(* ===== verification/PluginNeeds.v ===== *)
(** * Plugin needs

    [core/src/readyup/plugin_needs.{h,cpp}]: what a plugin's needs.json asks of the engine, and whether the
    core loads the plugin on the running build.  The probes are arguments; a probe that is not set is [None].
    Reading the file is the caller's. *)

From S2P Require Import Prelude CStr Double MiniJson.

Module Needs.

Record PluginNeeds := { plugin : string; surface : list string; schema : list string; schemaOptional : list string; events : list string }.

(** ** The manifest *)

Fixpoint read_entries (key : string) (l : list mval) : string + list string :=
  match l with
  | [] => inr []
  | MString s :: l =>
      if sempty s then inl (qs "`" +s+ key +s+ qs "` has a non-string entry")
      else match read_entries key l with inl e => inl e | inr r => inr (s :: r) end
  | _ :: _ => inl (qs "`" +s+ key +s+ qs "` has a non-string entry")
  end.
Definition StringList (root : mval) (key : string) : string + list string :=
  match mget root key with
  | None | Some MNull => inr []
  | Some (MArray l) => read_entries key l
  | Some _ => inl (qs "`" +s+ key +s+ qs "` is not an array")
  end.

Definition ParseNeeds (json : string) : string + PluginNeeds :=
  match mini_Parse json with
  | MiniOk root =>
      if negb (mIsObject (Some root)) then inl "not a JSON object"
      else
        match StringList root "surface" with
        | inl e => inl e
        | inr su =>
            match StringList root "schema" with
            | inl e => inl e
            | inr sc =>
                match StringList root "schema_optional" with
                | inl e => inl e
                | inr so =>
                    match StringList root "events" with
                    | inl e => inl e
                    | inr ev => inr {| plugin := default EmptyString (mAsString (mget root "plugin")); surface := su; schema := sc; schemaOptional := so; events := ev |}
                    end
                end
            end
        end
  | MiniError msg => inl ("invalid JSON: " +s+ msg)
  | MiniFuel => inl "invalid JSON: "
  end.

(** ** The decision *)

Record NeedsProbe := {
  p_surface : option (string -> Z); p_schema : option (string -> string -> Z); p_event : option (string -> Z); cs2Build : string }.
Record NeedCheck := { kind : string; entry : string; c_state : Z; detail : string }.
Record NeedsVerdict := { load : bool; reason : string; checks : list NeedCheck; warnings : list string }.

(** The pieces between separators, without blanks. *)
Fixpoint split_on (sep : ascii) (cur : string) (s : string) : list string :=
  match s with
  | EmptyString => [cur]
  | String c s => if Ascii.eqb c sep then cur :: split_on sep EmptyString s
                  else split_on sep (if Ascii.eqb c " " then cur else cur +s+ str1 c) s
  end.
Definition Split (s : string) (sep : ascii) : list string := split_on sep EmptyString s.

Definition lower_hex (d : Z) : ascii := if d <? 10 then chr (48 + d) else chr (87 + d).
Fixpoint hex_digits (fuel : nat) (n : Z) (acc : string) : string :=
  match fuel with
  | O => acc
  | S fuel => let acc := String (lower_hex (n mod 16)) acc in if n <? 16 then acc else hex_digits fuel (n / 16) acc
  end.
(** [%x] of a number that is not negative. *)
Definition Hex (v : Z) : string := "0x" +s+ hex_digits (S (Z.to_nat (Z.log2 v))) v EmptyString.

(** [None]: malformed; otherwise the class and the field. *)
Definition class_field (alt : string) : option (string * string) :=
  match find "." alt with
  | None | Some O => None
  | Some dot => if (String.length alt <=? dot + 1)%nat then None else Some (stake dot alt, sdrop (dot + 1) alt)
  end.
Definition probe_schema (p : NeedsProbe) (cf : string * string) : Z := match p_schema p with Some f => f cf.1 cf.2 | None => -2 end.

(** The alternatives, the first that resolves wins. *)
Fixpoint check_alts (kd en : string) (p : NeedsProbe) (alts : list string) (det : string) (pending : bool) : NeedCheck :=
  match alts with
  | [] => if pending then {| kind := kd; entry := en; c_state := -1; detail := "schema system not ready" |}
          else {| kind := kd; entry := en; c_state := 0; detail := det |}
  | alt :: alts =>
      match class_field alt with
      | None => check_alts kd en p alts "malformed entry" pending
      | Some cf =>
          let off := probe_schema p cf in
          if 0 <=? off
          then {| kind := kd; entry := en; c_state := 1; detail := Hex off +s+ (if alt =s en then EmptyString else " (" +s+ alt +s+ ")") |}
          else check_alts kd en p alts det (pending || (off =? -2))
      end
  end.
Definition CheckSchema (kd en : string) (p : NeedsProbe) : NeedCheck := check_alts kd en p (Split en "|") "not found" false.

Definition probe_one (f : option (string -> Z)) (s : string) : Z := match f with Some f => f s | None => -1 end.
Definition check_surface (p : NeedsProbe) (s : string) : NeedCheck :=
  let st := probe_one (p_surface p) s in
  {| kind := "surface"; entry := s; c_state := st;
     detail := if st =? 1 then "resolved" else if st =? 0 then "unresolved on this build" else "not checked yet" |}.
Definition check_event (p : NeedsProbe) (e : string) : NeedCheck :=
  let st := probe_one (p_event p) e in
  {| kind := "event"; entry := e; c_state := st;
     detail := if st =? 1 then "known" else if st =? 0 then "unknown to this CS2 build" else "event manager not ready" |}.

Definition absent (l : list NeedCheck) : list string := entry <$> filter (fun c => c_state c = 0) l.

Definition missing_text (missing : list string) : string :=
  let head := match take 3 missing with [] => EmptyString | x :: l => foldl (fun acc s => acc +s+ ", " +s+ s) x l end in
  if (3 <? length missing)%nat then head +s+ " (+" +s+ to_string (zlen missing - 3) +s+ " more)" else head.

Definition EvaluateNeeds (needs : PluginNeeds) (p : NeedsProbe) : NeedsVerdict :=
  let c1 := check_surface p <$> surface needs in
  let c2 := (fun s => CheckSchema "schema" s p) <$> schema needs in
  let c3 := (fun s => CheckSchema "schema_optional" s p) <$> schemaOptional needs in
  let c4 := check_event p <$> events needs in
  let missing := absent c1 ++ absent c2 in
  let warn := ((fun s => "optional schema field " +s+ s +s+ " not found") <$> absent c3) ++
              ((fun e => "game event " +s+ e +s+ " unknown to this CS2 build") <$> absent c4) in
  match missing with
  | [] => {| load := true; reason := EmptyString; checks := c1 ++ c2 ++ c3 ++ c4; warnings := warn |}
  | _ => {| load := false;
            reason := "missing " +s+ missing_text missing +s+ " after CS2 build " +s+ (if sempty (cs2Build p) then "?" else cs2Build p);
            checks := c1 ++ c2 ++ c3 ++ c4; warnings := warn |}
  end.

Definition NeedsDisabledLine (plugin reason : string) : string := "plugin[" +s+ plugin +s+ "] disabled: " +s+ reason.

(** ** Theorems *)

(** An alternative of a schema entry that the engine answered for, with nothing there. *)
Definition alt_missing (p : NeedsProbe) (alt : string) : Prop :=
  match class_field alt with Some cf => probe_schema p cf < 0 /\ probe_schema p cf <> -2 | None => True end.

Lemma check_alts_state kd en p alts : forall det pending,
  c_state (check_alts kd en p alts det pending) = 0 <-> pending = false /\ Forall (alt_missing p) alts.
Proof.
  induction alts as [|alt alts IH]; intros det pending; cbn [check_alts].
  - destruct pending; cbn; (split; [try lia; by intros _; split|intros [? _]; done]).
  - rewrite Forall_cons. unfold alt_missing at 1. destruct (class_field alt) as [cf|]; [|rewrite IH; tauto].
    cbv zeta. destruct (Z.leb_spec 0 (probe_schema p cf)); [cbn; split; [lia|intros (_ & [? _] & _); lia]|].
    rewrite IH, orb_false_iff, Z.eqb_neq. split; [intros [[-> ?] ?]|intros (-> & [? ?] & ?)]; by split_and!.
Qed.

Lemma check_alts_entry kd en p alts : forall det pending, entry (check_alts kd en p alts det pending) = en.
Proof. induction alts as [|alt alts IH]; intros det pending; cbn [check_alts]; [by destruct pending|]. destruct (class_field alt); [|apply IH]. cbv zeta. by case_if. Qed.

Lemma elem_of_absent (f : string -> NeedCheck) l x : (forall s, entry (f s) = s) -> x ∈ absent (f <$> l) <-> x ∈ l /\ c_state (f x) = 0.
Proof.
  intros Hf. unfold absent. rewrite list_elem_of_fmap. setoid_rewrite list_elem_of_filter. setoid_rewrite list_elem_of_fmap. split.
  - intros (c & -> & H0 & s & -> & Hs). by rewrite Hf.
  - intros [Hx H0]. exists (f x). by split_and!; [by rewrite Hf|done|exists x].
Qed.

(** A plugin is refused exactly when the engine has answered that something it requires is not there: an
    engine-surface entry, or every alternative of a schema field.  What cannot be told yet never blocks it,
    and optional fields and events never do; every entry is reported, in the order of the manifest. *)
Theorem needs_verdict (needs : PluginNeeds) (p : NeedsProbe) :
  let v := EvaluateNeeds needs p in
  (load v = false <->
    (exists s, s ∈ surface needs /\ probe_one (p_surface p) s = 0) \/
    (exists e, e ∈ schema needs /\ forall alt, alt ∈ Split e "|" -> alt_missing p alt)) /\
  (load v = true <-> reason v = EmptyString) /\
  entry <$> checks v = surface needs ++ schema needs ++ schemaOptional needs ++ events needs.
Proof.
  cbv zeta. assert (forall k s, entry (CheckSchema k s p) = s) as Hs by (intros k s; apply check_alts_entry).
  unfold EvaluateNeeds. set (missing := absent _ ++ absent _).
  assert (missing <> [] <-> (exists s, s ∈ surface needs /\ probe_one (p_surface p) s = 0) \/
    (exists e, e ∈ schema needs /\ forall alt, alt ∈ Split e "|" -> alt_missing p alt)) as Hm.
  { assert (missing <> [] <-> exists x, x ∈ missing) as ->.
    { destruct missing as [|x l]; split; try done; [by intros (x & ?%elem_of_nil)|]. intros _. exists x. by left. }
    unfold missing. setoid_rewrite elem_of_app. setoid_rewrite elem_of_absent; [|by auto|done]. unfold CheckSchema. setoid_rewrite check_alts_state.
    setoid_rewrite Forall_forall. cbn [check_surface c_state]. split.
    - intros (x & [H|(H1 & _ & H2)]); [left; by exists x|right; by exists x].
    - intros [(x & H)|(x & H1 & H2)]; exists x; [by left|by right]. }
  assert (forall A B C D : list NeedCheck, entry <$> A ++ B ++ C ++ D = (entry <$> A) ++ (entry <$> B) ++ (entry <$> C) ++ (entry <$> D)) as Ha
    by (intros; by rewrite !fmap_app).
  assert (forall (f : string -> NeedCheck) l, (forall s, entry (f s) = s) -> entry <$> (f <$> l : list NeedCheck) = l) as Hid.
  { intros f l Hf. rewrite <- list_fmap_compose. rewrite <- (list_fmap_id l) at 2. apply list_fmap_ext. intros i x _. apply Hf. }
  rewrite <- Hm. destruct missing as [|x l] eqn:E; cbn [load reason checks].
  - split_and!; [by split|by split|]. rewrite Ha, !Hid; auto.
  - split_and!; [by split|split; [done|]|rewrite Ha, !Hid; auto]. intros Hr. by destruct (missing_text (x :: l)).
Qed.

Definition sample_needs : string := qs "{`plugin`:`hud`,`surface`:[`Hook`],`schema`:[`A.m_x|B.m_x`],`events`:[`round_end`]}".
Definition sample_probe : NeedsProbe :=
  {| p_surface := Some (fun _ => 1); p_schema := Some (fun c f => if c =s "B" then 75 else -1); p_event := None; cs2Build := "14085" |}.
Example needs_sample :
  match ParseNeeds sample_needs with
  | inr n => let v := EvaluateNeeds n sample_probe in load v = true /\ map detail (checks v) = ["resolved"; "0x4b (B.m_x)"; "event manager not ready"] /\ warnings v = []
  | inl _ => False
  end.
Proof. vm_compute. done. Qed.
Example needs_refused :
  match ParseNeeds sample_needs with
  | inr n => reason (EvaluateNeeds n {| p_surface := Some (fun _ => 0); p_schema := Some (fun _ _ => -1); p_event := None; cs2Build := EmptyString |}) =
      "missing Hook, A.m_x|B.m_x after CS2 build ?"
  | inl _ => False
  end.
Proof. vm_compute. done. Qed.

End Needs.
