(* ===== verification/AdminCall.v ===== *)
(** * Calling an admin

    [plugins/match/readyup/admin_call_logic.{h,cpp}]: the cooldown of [.admin], the clean-up of a player's
    text, the call id, the timestamp and the payload of the event.  Theorem: the clean-up is a normal
    form. *)

From S2P Require Import Prelude CStr Double Json.

(** ** Cooldown *)

(** [last_]: when each player called last. *)
Abbreviation AdminCallCooldown := (gmap Z double).

(** [static_cast<int>(std::ceil(left))]: [None] where the conversion is undefined. *)
Definition ceil_int (d : double) : option Z :=
  z ← dceil d; if (-2147483648 <=? z) && (z <=? 2147483647) then Some z else None.

Record CallAnswer := { may_call : bool; secondsLeft : option Z }.

(** The prune of the table when it has grown. *)
Definition forget_old (now : double) (cooldownSeconds : Z) (last_ : AdminCallCooldown) : AdminCallCooldown :=
  if 256 <? Z.of_nat (size last_) then filter (fun kv => (of_int cooldownSeconds <d dsub now kv.2) = false) last_ else last_.

Definition TryCall (steamid64 : Z) (now : double) (cooldownSeconds : Z) (last_ : AdminCallCooldown) : AdminCallCooldown * CallAnswer :=
  let go := {| may_call := true; secondsLeft := Some 0 |} in
  if cooldownSeconds <=? 0 then (<[steamid64 := now]> last_, go)
  else
    let left t := dsub (dadd t (of_int cooldownSeconds)) now in
    match last_ !! steamid64 with
    | Some t =>
        if of_int 0 <d left t then (last_, {| may_call := false; secondsLeft := Z.max 1 <$> ceil_int (left t) |})
        else (forget_old now cooldownSeconds (<[steamid64 := now]> last_), go)
    | None => (forget_old now cooldownSeconds (<[steamid64 := now]> last_), go)
    end.

(** ** The message *)

Definition is_blank (c : ascii) : bool := Ascii.eqb c tab || Ascii.eqb c newline || Ascii.eqb c creturn || Ascii.eqb c " "%char.
Definition is_space (c : ascii) : bool := Ascii.eqb c " "%char.
Definition is_text (c : ascii) : bool := (32 <=? code c) && negb (code c =? 127).
(** A continuation byte of a UTF-8 sequence. *)
Definition is_cont (c : ascii) : bool := Z.land (code c) 0xC0 =? 0x80.

(** The first loop: [can_space] is [!s.empty() && s.back() != ' '] for the output so far. *)
Fixpoint squeeze (can_space : bool) (raw : string) : string :=
  match raw with
  | EmptyString => EmptyString
  | String c r =>
      if is_blank c then (if can_space then String " "%char (squeeze false r) else squeeze false r)
      else if is_text c then String c (squeeze true r)
      else squeeze can_space r
  end.

(** The second loop: the first [max] characters, whole. *)
Fixpoint first_chars (max : nat) (s : string) : string :=
  match s with
  | EmptyString => EmptyString
  | String c r =>
      if is_cont c then String c (first_chars max r)
      else match max with O => EmptyString | S max => String c (first_chars max r) end
  end.

Definition CleanAdminCallMessage (raw : string) (maxChars : nat) : string :=
  let s := drop_while_end is_space (squeeze false raw) in
  let k := first_chars maxChars s in
  if (String.length k <? String.length s)%nat then drop_while_end is_space k else k.

(** ** Call id *)

Definition kHex (v : Z) : ascii := default nul (String.get (Z.to_nat v) "0123456789abcdef").
Definition hex2 (b : Z) : string := String (kHex (Z.shiftr b 4)) (str1 (kHex (Z.land b 0x0F))).

Fixpoint call_id_from (i : Z) (b : list Z) : string :=
  match b with
  | [] => EmptyString
  | x :: b => (if (i =? 4) || (i =? 6) || (i =? 8) || (i =? 10) then "-" else EmptyString) +s+ hex2 x +s+ call_id_from (i + 1) b
  end.

(** [bytes] are the 16 random bytes. *)
Definition CallIdFromBytes (bytes : list Z) : string :=
  let b := alter (fun x => Z.lor (Z.land x 0x0F) 0x40) 6%nat bytes in
  let b := alter (fun x => Z.lor (Z.land x 0x3F) 0x80) 8%nat b in
  call_id_from 0 b.

(** ** Timestamp *)

(** [gmtime_r] on seconds since 1970 (not negative here): year, month and day of the Gregorian calendar,
    by 400-year cycles that start on the first of March. *)
Definition civil (days : Z) : Z * Z * Z :=
  let z := days + 719468 in
  let era := z / 146097 in
  let doe := z mod 146097 in
  let yoe := (doe - doe / 1460 + doe / 36524 - doe / 146096) / 365 in
  let doy := doe - (365 * yoe + yoe / 4 - yoe / 100) in
  let mp := (5 * doy + 2) / 153 in
  let m := if mp <? 10 then mp + 3 else mp - 9 in
  (yoe + era * 400 + (if m <=? 2 then 1 else 0), m, doy - (153 * mp + 2) / 5 + 1).

Definition IsoUtcFromUnixMs (unixMs : Z) : string :=
  let ms := if unixMs <? 0 then 0 else unixMs in
  let secs := ms / 1000 in
  let '(y, m, d) := civil (secs / 86400) in
  let t := secs mod 86400 in
  pad0 4 y +s+ "-" +s+ pad0 2 m +s+ "-" +s+ pad0 2 d +s+ "T" +s+ pad0 2 (t / 3600) +s+ ":" +s+ pad0 2 (t / 60 mod 60) +s+ ":" +s+
  pad0 2 (t mod 60) +s+ "." +s+ pad0 3 (ms mod 1000) +s+ "Z".

(** ** Payloads *)

Record AdminCallPlayer := { ac_steamid64 : Z; ac_name : string; ac_team : string; ac_side : string }.
Record AdminCallEvent := {
  matchid : Z; map_number : Z; server_id : string; call_id : string; player : AdminCallPlayer; message : string; called_at : string }.

Definition str_or_null (s : string) : Json := if sempty s then JNull else JString s.

Definition AdminCallData (e : AdminCallEvent) : list (string * Json) :=
  let p := player e in
  [("call_id", JString (call_id e));
   ("player", JObject [("steamid64", JString (to_string (ac_steamid64 p))); ("name", JString (ac_name p));
                       ("team", str_or_null (ac_team p)); ("side", str_or_null (ac_side p))]);
   ("message", JString (message e)); ("called_at", JString (called_at e))].

(** None of the copied keys is already there, so each [j[k] = v] appends. *)
Definition AdminCalledWebhookJson (e : AdminCallEvent) : string :=
  Dump (JObject ([("event", JString "admin_called"); ("matchid", JInt (matchid e)); ("map_number", JInt (map_number e))] ++
    (if sempty (server_id e) then [] else [("server_id", JString (server_id e))]) ++ AdminCallData e)).

Definition AdminCallTeamLabel (teamName side : string) (spectator : bool) : string :=
  if spectator then "spectator"
  else
    let s := if side =s "ct" then "CT" else if side =s "t" then "T" else EmptyString in
    if sempty teamName then s else if sempty s then teamName else teamName +s+ ", " +s+ s.

Example iso_epoch : IsoUtcFromUnixMs 0 = "1970-01-01T00:00:00.000Z" /\ IsoUtcFromUnixMs 951782400000 = "2000-02-29T00:00:00.000Z" /\
  IsoUtcFromUnixMs 1790339696789 = "2026-09-25T12:34:56.789Z".
Proof. vm_compute. done. Qed.
Example clean_sample : CleanAdminCallMessage (str1 tab +s+ " a  b" +s+ str1 "001"%char +s+ "c  de ") 6 = "a bc d".
Proof. vm_compute. reflexivity. Qed.

(** ** The clean-up is a normal form *)

(** What a cleaned text looks like: [can_space] is whether a blank may come first, the last character is
    not one. *)
Fixpoint neat (can_space : bool) (s : string) : bool :=
  match s with
  | EmptyString => true
  | String c r =>
      if is_space c then can_space && negb (sempty r) && neat false r
      else is_text c && negb (is_blank c) && neat true r
  end.

Fixpoint char_count (s : string) : nat :=
  match s with EmptyString => O | String c r => if is_cont c then char_count r else S (char_count r) end.

(** The same with a blank allowed at the end. *)
Fixpoint neatish (can_space : bool) (s : string) : bool :=
  match s with
  | EmptyString => true
  | String c r => if is_space c then can_space && neatish false r else is_text c && negb (is_blank c) && neatish true r
  end.

Lemma is_space_blank c : is_space c = true -> is_blank c = true.
Proof. unfold is_space, is_blank. intros ->. by rewrite orb_true_r. Qed.

Lemma squeeze_neatish b raw : neatish b (squeeze b raw) = true.
Proof.
  revert b. induction raw as [|c r IH]; intros b; [done|]. cbn [squeeze]. destruct (is_blank c) eqn:Eb.
  - destruct b; [|by apply IH]. cbn. apply IH.
  - destruct (is_text c) eqn:Et; [|by apply IH]. cbn. rewrite Et, Eb. destruct (is_space c) eqn:Es; [by apply is_space_blank in Es; congruence|].
    apply IH.
Qed.

Lemma trim_neat b s : neatish b s = true -> neat b (drop_while_end is_space s) = true.
Proof.
  revert b. induction s as [|c r IH]; intros b H; [done|]. cbn in *. destruct (is_space c) eqn:Es.
  - apply andb_prop in H as [-> H]. specialize (IH _ H). destruct (drop_while_end is_space r) eqn:E; [done|]. cbn. rewrite Es. cbn. exact IH.
  - apply andb_prop in H as [Hc H]. specialize (IH _ H). destruct (drop_while_end is_space r) eqn:E; cbn; rewrite Es, Hc; done.
Qed.

Lemma neat_neatish b s : neat b s = true -> neatish b s = true.
Proof.
  revert b. induction s as [|c r IH]; intros b H; [done|]. cbn in *. case_if; apply andb_prop in H as [H1 H2].
  - apply andb_prop in H1 as [-> _]. cbn. by apply IH.
  - rewrite H1. cbn. by apply IH.
Qed.

Lemma first_chars_neatish n b s : neatish b s = true -> neatish b (first_chars n s) = true.
Proof.
  revert n b. induction s as [|c r IH]; intros n b H; [done|]. cbn [first_chars]. cbn [neatish] in H.
  assert (forall m, (if is_space c then b && neatish false (first_chars m r) else is_text c && negb (is_blank c) && neatish true (first_chars m r)) = true) as Hc.
  { intros m. destruct (is_space c); apply andb_prop in H as [-> H]; cbn; by apply IH. }
  destruct (is_cont c); [exact (Hc n)|]. destruct n as [|n]; [done|]. exact (Hc n).
Qed.

Lemma first_chars_count n s : (char_count (first_chars n s) <= n)%nat.
Proof.
  revert n. induction s as [|c r IH]; intros n; [cbn; lia|]. cbn [first_chars]. destruct (is_cont c) eqn:E; cbn; rewrite ?E; [apply IH|].
  destruct n as [|n]; cbn; rewrite ?E; [lia|]. specialize (IH n). lia.
Qed.

Lemma first_chars_all n s : (char_count s <= n)%nat -> first_chars n s = s.
Proof.
  revert n. induction s as [|c r IH]; intros n; [done|]. cbn. destruct (is_cont c); intros H; [by rewrite IH|].
  destruct n as [|n]; [lia|]. rewrite IH; [done|lia].
Qed.

Lemma first_chars_len n s : (String.length (first_chars n s) <= String.length s)%nat.
Proof.
  revert n. induction s as [|c r IH]; intros n; [done|]. cbn. destruct (is_cont c); cbn; [specialize (IH n); lia|].
  destruct n; cbn; [lia|]. specialize (IH n). lia.
Qed.

Lemma first_chars_same n s : String.length (first_chars n s) = String.length s -> first_chars n s = s.
Proof.
  revert n. induction s as [|c r IH]; intros n; [done|]. cbn. destruct (is_cont c); cbn; [intros H; f_equal; apply IH; lia|].
  destruct n; cbn; [lia|]. intros H. f_equal. apply IH. lia.
Qed.

Lemma trim_count s : (char_count (drop_while_end is_space s) <= char_count s)%nat.
Proof.
  induction s as [|c r IH]; [done|]. cbn. destruct (drop_while_end is_space r) eqn:E.
  - destruct (is_space c); cbn; destruct (is_cont c); cbn; lia.
  - cbn in *. destruct (is_cont c); lia.
Qed.

Lemma squeeze_neat b s : neat b s = true -> squeeze b s = s.
Proof.
  revert b. induction s as [|c r IH]; intros b H; [done|]. cbn in *. destruct (is_space c) eqn:Es.
  - rewrite (is_space_blank c Es). apply andb_prop in H as [[Hb _]%andb_prop H]. rewrite Hb, IH by done.
    unfold is_space in Es. apply Ascii.eqb_eq in Es. by subst.
  - apply andb_prop in H as [[Ht Hb]%andb_prop H]. apply negb_true_iff in Hb. by rewrite Hb, Ht, IH.
Qed.

Lemma trim_neat_id b s : neat b s = true -> drop_while_end is_space s = s.
Proof.
  revert b. induction s as [|c r IH]; intros b H; [done|]. cbn in *. destruct (is_space c) eqn:Es.
  - apply andb_prop in H as [[_ Hr]%andb_prop H]. rewrite (IH _ H). by destruct r.
  - apply andb_prop in H as [_ H]. rewrite (IH _ H). by destruct r.
Qed.

(** Cleaning a player's text gives a normal form: whatever bytes come in, the result has no control
    character, no blank at either end and no two in a row, at most [maxChars] characters, and cleaning it again
    changes nothing. *)
Theorem clean_normal_form (raw : string) (maxChars : nat) :
  let s := CleanAdminCallMessage raw maxChars in
  neat false s = true /\ (char_count s <= maxChars)%nat /\ CleanAdminCallMessage s maxChars = s.
Proof.
  assert (forall s, neat false s = true -> (char_count s <= maxChars)%nat -> CleanAdminCallMessage s maxChars = s) as Hid.
  { intros s Hn Hc. unfold CleanAdminCallMessage. rewrite (squeeze_neat _ _ Hn), (trim_neat_id _ _ Hn), first_chars_all by done.
    by rewrite Nat.ltb_irrefl. }
  enough (let s := CleanAdminCallMessage raw maxChars in neat false s = true /\ (char_count s <= maxChars)%nat) as [H1 H2]
    by (split_and!; auto).
  unfold CleanAdminCallMessage. set (t := drop_while_end is_space (squeeze false raw)).
  assert (neat false t = true) as Ht by (apply trim_neat, squeeze_neatish).
  pose proof (first_chars_len maxChars t) as Hl. destruct (Nat.ltb_spec (String.length (first_chars maxChars t)) (String.length t)).
  - split; [by apply trim_neat, first_chars_neatish, neat_neatish|]. etransitivity; [apply trim_count|apply first_chars_count].
  - split; [|apply first_chars_count]. by rewrite first_chars_same by lia.
Qed.

(** ** The cooldown *)

(** A call that is allowed starts the player's cooldown: asking again at once is refused, whoever else
    called, as long as the clock and the cooldown are such that it has not run out. *)
Lemma TryCall_repeat sid now cd (m : gmap Z double) : 0 < cd -> (size m < 256)%nat -> may_call (TryCall sid now cd m).2 = true ->
  (of_int 0 <d dsub (dadd now (of_int cd)) now) = true ->
  may_call (TryCall sid now cd (TryCall sid now cd m).1).2 = false.
Proof.
  intros Hc Hs Ha Hl. assert ((TryCall sid now cd m).1 = <[sid := now]> m) as ->.
  { revert Ha. unfold TryCall, forget_old. replace (cd <=? 0) with false by (symmetry; apply Z.leb_gt; lia).
    assert (size (<[sid:=now]> m) <= 256)%nat as Hs2. { rewrite map_size_insert. destruct (m !! sid); cbn; lia. }
    destruct (m !! sid) as [t|]; [destruct (of_int 0 <d dsub (dadd t (of_int cd)) now); [done|]|]; intros _; cbn [fst];
      by replace (256 <? Z.of_nat (size (<[sid:=now]> m))) with false by (symmetry; apply Z.ltb_ge; lia). }
  unfold TryCall. replace (cd <=? 0) with false by (symmetry; apply Z.leb_gt; lia). by rewrite lookup_insert_eq, Hl.
Qed.
