(* ===== verification/ChatForward.v ===== *)
(** * Player chat to the platform

    [plugins/match/readyup/chat_forward.{h,cpp}]: who sent a logged chat line, the rate limit per player
    and the event's data.  Theorem: a line is attributed to the player who wrote it or to nobody,
    whatever is in their name and their message. *)

From S2P Require Import Prelude CStr Double Json SlotRegistry HeaderFacts AdminCall.

Definition kMessageMaxChars : nat := 300.

Record ChatLine := { cl_steamid64 : Z; cl_name : string; side : string; team_only : bool; cl_message : string }.
Record KnownHuman := { kh_userid : Z; kh_steamid64 : Z }.

(** ** The header *)

Record Candidate := { uidLt : nat; msgStart : nat; c_userid : Z; c_steamid64 : Z; c_team : string; teamOnly : bool }.

Definition at_is (c : ascii) (s : string) (i : nat) : bool := match String.get i s with Some d => Ascii.eqb d c | None => false end.

(** [s.rfind(c, pos)]. *)
Fixpoint rfind (c : ascii) (s : string) (pos : nat) : option nat :=
  if at_is c s pos then Some pos else match pos with O => None | S pos => rfind c s pos end.

Definition substr (s : string) (pos n : nat) : string := stake n (sdrop pos s).

(** [line[lt - 1]] is [>]: the previous group is closed right before this one opens. *)
Definition closed_before (line : string) (q lt : nat) : bool := (q <? lt)%nat && at_is ">" line (lt - 1).

(** The block whose last [>] is at [gt]: where the name ends, the userid, the SteamID64 and the team.  A
    group opens after [q >= 0] and follows a [>] that is not at [q], so [lt - 2] does not wrap. *)
Definition BlockEndingAt (line : string) (q gt : nat) : option (nat * Z * Z * string) :=
  teamLt ← rfind "<" line gt;
  if negb (closed_before line q teamLt) then None
  else
    idLt ← rfind "<" line (teamLt - 2);
    if negb (closed_before line q idLt) then None
    else
      uidLt ← rfind "<" line (idLt - 2);
      if negb (q <? uidLt)%nat then None
      else
        let team := substr line (teamLt + 1) (gt - teamLt - 1) in
        let id := substr line (idLt + 1) (teamLt - 1 - idLt - 1) in
        let uid := substr line (uidLt + 1) (idLt - 1 - uidLt - 1) in
        if contains ">" team || contains ">" id then None
        else if sempty uid || (9 <? slen uid) || negb (sforall isdigit uid) then None
        else if (id =s "BOT") || (id =s "Console") then None
        else
          let sid := ParseSteamId64Loose id in
          if sid =? 0 then None else Some (uidLt, digits_val uid 0, sid, team).

Definition Connected (userid sid : Z) (humans : list KnownHuman) : bool :=
  existsb (fun h => (kh_steamid64 h =? sid) && ((kh_userid h <? 0) || (kh_userid h =? userid))) humans.

(** ** The line *)

Definition kSay : string := qs "` say `".
Definition kSayTeam : string := qs "` say_team `".

(** Every position from [i] on at which [kw] occurs: the loop of [find(kw, at + 1)] calls. *)
Fixpoint occurrences (kw s : string) (i : nat) : list nat :=
  match s with
  | EmptyString => []
  | String _ r => (if starts_with kw s then [i] else []) ++ occurrences kw r (S i)
  end.

(** What one occurrence of a keyword contributes. *)
Definition candidate (line : string) (humans : list KnownHuman) (q msgEnd : nat) (kw : string) (isTeam : bool) (at_ : nat) : option Candidate :=
  if (at_ =? 0)%nat || negb (at_is ">" line (at_ - 1)) then None
  else
    '(lt, uid, sid, tm) ← BlockEndingAt line q (at_ - 1);
    let start := (at_ + String.length kw)%nat in
    if (msgEnd <? start)%nat then None
    else if Connected uid sid humans
    then Some {| uidLt := lt; msgStart := start; c_userid := uid; c_steamid64 := sid; c_team := tm; teamOnly := isTeam |}
    else None.

Definition hits (line : string) (humans : list KnownHuman) (q msgEnd : nat) : list Candidate :=
  omap (candidate line humans q msgEnd kSay false) (occurrences kSay (sdrop (q + 1) line) (q + 1)) ++
  omap (candidate line humans q msgEnd kSayTeam true) (occurrences kSayTeam (sdrop (q + 1) line) (q + 1)).

Definition side_of (team : string) : string := if team =s "CT" then "ct" else if team =s "TERRORIST" then "t" else "spec".

Definition ParseChatLogLine (line : string) (humans : list KnownHuman) : option ChatLine :=
  q ← find (str1 dquote) line;
  msgEnd ← rfind dquote line (String.length line);
  match hits line humans q msgEnd with
  | [h] =>
      Some {| cl_steamid64 := c_steamid64 h; cl_name := substr line (q + 1) (uidLt h - (q + 1)); side := side_of (c_team h);
              team_only := teamOnly h; cl_message := substr line (msgStart h) (msgEnd - msgStart h) |}
  | _ => None
  end.

(** ** Commands and the rate limit *)

Definition IsCommand (message : string) : bool :=
  match drop_while is_space message with
  | String c (String _ _) => Ascii.eqb c "."%char || Ascii.eqb c "!"%char
  | _ => false
  end.

Record RateLimiter := { max_ : Z; window_ : double; seen_ : gmap Z (list double) }.
Definition NewRateLimiter (maxLines : Z) (windowSeconds : double) : RateLimiter := {| max_ := maxLines; window_ := windowSeconds; seen_ := ∅ |}.

Definition old (window now t : double) : bool := window <=d dsub now t.

Fixpoint pop_old (window now : double) (q : list double) : list double :=
  match q with [] => [] | t :: r => if old window now t then pop_old window now r else q end.

Definition prune (window now : double) (m : gmap Z (list double)) : gmap Z (list double) :=
  filter (fun kv => match last kv.2 with None => false | Some t => negb (old window now t) end = true) m.

Definition Allow (steamid64 : Z) (now : double) (l : RateLimiter) : RateLimiter * bool :=
  let q := pop_old (window_ l) now (default [] (seen_ l !! steamid64)) in
  if max_ l <=? zlen q
  then ({| max_ := max_ l; window_ := window_ l; seen_ := <[steamid64 := q]> (seen_ l) |}, false)
  else
    let m := <[steamid64 := q ++ [now]]> (seen_ l) in
    ({| max_ := max_ l; window_ := window_ l; seen_ := if 256 <? Z.of_nat (size m) then prune (window_ l) now m else m |}, true).

Definition RateLimiter_Clear (l : RateLimiter) : RateLimiter := {| max_ := max_ l; window_ := window_ l; seen_ := ∅ |}.

(** ** The event *)

Definition EventData (c : ChatLine) (team : string) (atUnixMs : Z) : Json :=
  JObject [("player", JObject [("steamid64", JString (to_string (cl_steamid64 c))); ("name", JString (CleanAdminCallMessage (cl_name c) 64));
                               ("team", if (team =s "team1") || (team =s "team2") then JString team else JNull); ("side", JString (side c))]);
           ("message", JString (CleanAdminCallMessage (cl_message c) kMessageMaxChars)); ("team_only", JBool (team_only c)); ("at", JInt atUnixMs)].

Definition sample_humans : list KnownHuman := [{| kh_userid := 2; kh_steamid64 := kSteamBase + 123 |}; {| kh_userid := 9; kh_steamid64 := kSteamBase + 99 |}].
Example chat_sample :
  ParseChatLogLine (qs "L 10/17/2026 - 12:00:00: `Name<2><[U:1:123]><CT>` say `gg`") sample_humans =
    Some {| cl_steamid64 := kSteamBase + 123; cl_name := "Name"; side := "ct"; team_only := false; cl_message := "gg" |} /\
  ParseChatLogLine (qs "L 10/17/2026 - 12:00:00: `Name<2><[U:1:123]><CT>` say `x<9><[U:1:99]><T>` say `gg`") sample_humans = None.
Proof. vm_compute. done. Qed.

(** ** Positions in a text *)

Lemma get_app_r a s n : String.get (String.length a + n) (a +s+ s) = String.get n s.
Proof. induction a as [|c a IH]; [done|]. exact IH. Qed.

Lemma get_app_l b r n : (n < String.length b)%nat -> String.get n (b +s+ r) = String.get n b.
Proof. revert n. induction b as [|c b IH]; intros n H; [cbn in H; lia|]. destruct n; [done|]. cbn in *. apply IH. lia. Qed.

Lemma sforall_get f b n c : sforall f b = true -> String.get n b = Some c -> f c = true.
Proof.
  revert n. induction b as [|d b IH]; intros n H; [done|]. cbn in H. apply andb_prop in H as [H1 H2].
  destruct n; cbn; [by intros [= <-]|by apply IH].
Qed.

Lemma get_lt b n : (n < String.length b)%nat -> exists c, String.get n b = Some c.
Proof. revert n. induction b as [|d b IH]; intros n H; [cbn in H; lia|]. destruct n; [by exists d|]. apply IH. cbn in H. lia. Qed.

Lemma at_is_here a c r : at_is c (a +s+ String c r) (String.length a) = true.
Proof. unfold at_is. rewrite <- (Nat.add_0_r (String.length a)), get_app_r. cbn. apply Ascii.eqb_refl. Qed.

Lemma rfind_app c a b r pos : sforall (not_char c) b = true -> pos = (String.length a + String.length b)%nat ->
  rfind c (a +s+ String c (b +s+ r)) pos = Some (String.length a).
Proof.
  intros Hb ->. enough (forall n, (n <= String.length b)%nat -> rfind c (a +s+ String c (b +s+ r)) (String.length a + n) = Some (String.length a)) as H
    by (by apply H).
  induction n as [|n IH]; intros Hn.
  - rewrite Nat.add_0_r. pose proof (at_is_here a c (b +s+ r)) as E. destruct (String.length a); cbn; by rewrite E.
  - rewrite Nat.add_succ_r. cbn [rfind]. unfold at_is. rewrite <- Nat.add_succ_r, get_app_r. cbn [String.get].
    rewrite get_app_l by lia. destruct (get_lt b n ltac:(lia)) as [d Hd]. rewrite Hd.
    apply (sforall_get _ _ _ _ Hb) in Hd. unfold not_char in Hd. apply negb_true_iff in Hd. rewrite Hd. apply IH. lia.
Qed.

Lemma substr_app a b r : substr (a +s+ b +s+ r) (String.length a) (String.length b) = b.
Proof. unfold substr. by rewrite sdrop_app, stake_app. Qed.

Lemma occurrences_app kw r : sempty kw = false -> forall a i, (i + String.length a)%nat ∈ occurrences kw (a +s+ kw +s+ r) i.
Proof.
  intros Hk. induction a as [|c a IH]; intros i.
  - rewrite Nat.add_0_r. destruct kw as [|c kw]; [done|]. cbn [String.append occurrences].
    change (String c (kw +s+ r)) with (String c kw +s+ r). rewrite starts_with_refl. cbn. left.
  - cbn [String.append occurrences String.length]. apply elem_of_app. right. rewrite Nat.add_succ_r. apply (IH (S i)).
Qed.

Lemma find_char c a r : sforall (not_char c) a = true -> find (str1 c) (a +s+ String c r) = Some (String.length a).
Proof.
  induction a as [|d a IH]; cbn [sforall String.append String.length]; intros H.
  - rewrite find_skip. cbn. by rewrite Ascii.eqb_refl.
  - apply andb_prop in H as [H1 H2]. unfold not_char in H1. apply negb_true_iff in H1. rewrite find_skip. cbn.
    rewrite Ascii.eqb_sym, H1, IH by done. done.
Qed.

Lemma contains_char c a : sforall (not_char c) a = true -> contains (str1 c) a = false.
Proof.
  unfold contains. induction a as [|d a IH]; [done|]. cbn [sforall]. intros [H1 H2]%andb_prop. rewrite find_skip. cbn.
  unfold not_char in H1. apply negb_true_iff in H1. rewrite Ascii.eqb_sym, H1. cbn. specialize (IH H2). by destruct (find _ a).
Qed.

(** ** The block the server wrote *)

Definition no_angle (s : string) : bool := sforall (not_char "<") s && sforall (not_char ">") s.

(** [<a><b><c>]. *)
Definition block (a b c : string) : string :=
  String "<" (a +s+ String ">" (String "<" (b +s+ String ">" (String "<" (c +s+ ">"))))).

(** Two ways of writing a text; the length of a text written out. *)
Ltac str_assoc := repeat (rewrite ?app_assoc_s, ?app_cons_s); reflexivity.
Ltac str_len := repeat (rewrite ?length_app_s; cbn [String.length str1]); lia.

Lemma rfind_at line c a b r pos n : line = a +s+ String c (b +s+ r) -> sforall (not_char c) b = true ->
  pos = (String.length a + String.length b)%nat -> n = String.length a -> rfind c line pos = Some n.
Proof. intros -> Hb Hp ->. by apply rfind_app. Qed.

Lemma closed_at line q lt a r : line = a +s+ String ">" r -> lt = S (String.length a) -> (q < lt)%nat -> closed_before line q lt = true.
Proof.
  intros -> -> Hq. unfold closed_before. apply andb_true_intro. split; [by apply Nat.ltb_lt|]. cbn [Nat.sub]. rewrite Nat.sub_0_r. apply at_is_here.
Qed.

Lemma substr_at line a b r pos n : line = a +s+ b +s+ r -> pos = String.length a -> n = String.length b -> substr line pos n = b.
Proof. intros -> -> ->. apply substr_app. Qed.

Lemma BlockEndingAt_block A uid id team R q gt :
  (q < String.length A)%nat -> no_angle uid = true -> no_angle id = true -> no_angle team = true ->
  sempty uid = false -> slen uid <= 9 -> sforall isdigit uid = true ->
  (id =s "BOT") = false -> (id =s "Console") = false -> ParseSteamId64Loose id <> 0 ->
  S gt = (String.length A + String.length (block uid id team))%nat ->
  BlockEndingAt (A +s+ block uid id team +s+ R) q gt = Some (String.length A, digits_val uid 0, ParseSteamId64Loose id, team).
Proof.
  intros Hq [Hu1 Hu2]%andb_prop [Hi1 Hi2]%andb_prop [Ht1 Ht2]%andb_prop He Hl Hd Hb Hc Hz Hgt.
  set (line := A +s+ block uid id team +s+ R). set (A2 := A +s+ String "<" (uid +s+ ">")).
  set (A3 := A2 +s+ String "<" (id +s+ ">")).
  assert (String.length A2 = String.length A + String.length uid + 2)%nat as L2 by (unfold A2; str_len).
  assert (String.length A3 = String.length A2 + String.length id + 2)%nat as L3 by (unfold A3; str_len).
  assert (gt = String.length A3 + String.length team + 1)%nat as L4.
  { enough (String.length (block uid id team) = String.length uid + String.length id + String.length team + 6)%nat by lia. unfold block. str_len. }
  unfold BlockEndingAt.
  rewrite (rfind_at line "<" A3 (team +s+ ">") R gt (String.length A3));
    [|unfold line, A3, A2, block; str_assoc|by rewrite sforall_app, Ht1|subst gt; str_len|done]. cbn [mbind option_bind].
  rewrite (closed_at line q (String.length A3) (A2 +s+ String "<" id) (String "<" (team +s+ String ">" R)));
    [|unfold line, A3, A2, block; str_assoc|unfold A3; str_len|lia]. cbn [negb].
  rewrite (rfind_at line "<" A2 id (String ">" (String "<" (team +s+ String ">" R))) _ (String.length A2));
    [|unfold line, A2, block; str_assoc|done|lia|done]. cbn [mbind option_bind].
  rewrite (closed_at line q (String.length A2) (A +s+ String "<" uid) (String "<" (id +s+ String ">" (String "<" (team +s+ String ">" R)))));
    [|unfold line, A2, block; str_assoc|unfold A2; str_len|lia]. cbn [negb].
  rewrite (rfind_at line "<" A uid (String ">" (String "<" (id +s+ String ">" (String "<" (team +s+ String ">" R))))) _ (String.length A));
    [|unfold line, block; str_assoc|done|lia|done]. cbn [mbind option_bind].
  replace (q <? String.length A)%nat with true by (symmetry; by apply Nat.ltb_lt). cbn [negb].
  rewrite (substr_at line (A3 +s+ "<") team (">" +s+ R) (String.length A3 + 1) (gt - String.length A3 - 1)); [|unfold line, A3, A2, block; str_assoc|str_len|lia].
  rewrite (substr_at line (A2 +s+ "<") id (String ">" (String "<" (team +s+ String ">" R))) (String.length A2 + 1) (String.length A3 - 1 - String.length A2 - 1)); [|unfold line, A2, block; str_assoc|str_len|lia].
  rewrite (substr_at line (A +s+ "<") uid (String ">" (String "<" (id +s+ String ">" (String "<" (team +s+ String ">" R)))))
    (String.length A + 1) (String.length A2 - 1 - String.length A - 1));
    [|unfold line, block; str_assoc|str_len|lia].
  change ">" with (str1 ">"). rewrite !contains_char by done. rewrite He, Hd, Hb, Hc.
  replace (9 <? slen uid) with false by (symmetry; apply Z.ltb_ge; lia). cbn [orb negb].
  by replace (ParseSteamId64Loose id =? 0) with false by (symmetry; by apply Z.eqb_neq).
Qed.

(** ** The line the server wrote *)

(** [pre"name<userid><[U:1:account]><team>" say "message"]. *)
Definition chat_line (pre nm : string) (uid account : Z) (tm : string) (isTeam : bool) (msg : string) : string :=
  pre +s+ String dquote (nm +s+ block (to_string uid) (steam3 account) tm +s+ (if isTeam then kSayTeam else kSay) +s+ msg +s+ str1 dquote).

Lemma to_string_nine n : 0 <= n < 1000000000 -> slen (to_string n) <= 9.
Proof.
  intros Hn. unfold to_string. replace (n <? 0) with false by (symmetry; apply Z.ltb_ge; lia).
  unfold slen, dec_nonneg. pose proof (dec_aux_length 9 (S (Z.to_nat (Z.log2 n))) n EmptyString ltac:(lia) ltac:(cbn; lia)) as H.
  cbn [String.length] in H. lia.
Qed.

Lemma kSteamBase_nz account : 0 <= account -> kSteamBase + account <> 0.
Proof. unfold kSteamBase. lia. Qed.

Lemma no_angle_digits n : 0 <= n -> no_angle (to_string n) = true.
Proof. intros H. unfold no_angle. by rewrite !to_string_not_char by done. Qed.

Lemma no_angle_steam3 a : 0 <= a -> no_angle (steam3 a) = true.
Proof. intros H. unfold no_angle. by rewrite !steam3_not_char by done. Qed.

Section honest_line.
Context (pre nm : string) (uid account : Z) (tm : string) (isTeam : bool) (msg : string) (humans : list KnownHuman).
Hypothesis (Hpre : sforall (not_char dquote) pre = true) (Hu : 0 <= uid < 1000000000) (Ha : 0 <= account < 4294967296)
    (Ht : no_angle tm = true) (Hc : Connected uid (kSteamBase + account) humans = true).

Let kw := if isTeam then kSayTeam else kSay.
Let line := chat_line pre nm uid account tm isTeam msg.
Let head := pre +s+ String dquote nm.
Let blk := block (to_string uid) (steam3 account) tm.
Let start := (String.length head + String.length blk + String.length kw)%nat.
Let stop := (start + String.length msg)%nat.

(** The candidate that stands for the server's own block. *)
Definition true_block : Candidate :=
    {| uidLt := String.length head; msgStart := start; c_userid := uid; c_steamid64 := kSteamBase + account; c_team := tm; teamOnly := isTeam |}.

Lemma true_candidate : candidate line humans (String.length pre) stop kw isTeam (String.length head + String.length blk) = Some true_block.
Proof.
  assert (String.length head = String.length pre + 1 + String.length nm)%nat as Lh by (unfold head; str_len).
  destruct (to_string_digits uid ltac:(lia)) as (Hd & He & Hv).
  unfold candidate. assert (exists n, String.length blk = S n) as [n Hn] by (unfold blk, block; cbn; eauto).
  assert (at_is ">" line (String.length head + String.length blk - 1) = true) as Hat.
  { assert (line = (head +s+ (String "<" (to_string uid +s+ String ">" (String "<" (steam3 account +s+ String ">" (String "<" tm)))))) +s+ String ">" (kw +s+ msg +s+ str1 dquote)) as ->.
    { unfold line, chat_line, head, kw, block. str_assoc. }
    match goal with |- at_is _ (?a +s+ _) ?n = _ => replace n with (String.length a) end; [apply at_is_here|].
    unfold blk, block. str_len. }
  replace (String.length head + String.length blk =? 0)%nat with false by (symmetry; apply Nat.eqb_neq; lia). rewrite Hat. cbn [orb negb].
  assert (line = head +s+ blk +s+ (kw +s+ msg +s+ str1 dquote)) as -> by (unfold line, chat_line, head, kw, blk; str_assoc).
  unfold blk. rewrite (BlockEndingAt_block head (to_string uid) (steam3 account) tm); try done.
  - cbn [mbind option_bind]. replace (stop <? _)%nat with false by (symmetry; apply Nat.ltb_ge; unfold stop, start, blk; lia).
    rewrite Hv, steam3_parse, Hc by done. reflexivity.
  - lia.
  - apply no_angle_digits. lia.
  - apply no_angle_steam3. lia.
  - by apply to_string_nine.
  - rewrite steam3_parse by done. apply kSteamBase_nz. lia.
  - fold blk. lia.
Qed.

Lemma kw_cases : kw = kSay /\ isTeam = false \/ kw = kSayTeam /\ isTeam = true.
Proof using. unfold kw. clear. destruct isTeam; auto. Qed.

Lemma true_block_hit : true_block ∈ hits line humans (String.length pre) stop.
Proof.
  assert (String.length head = String.length pre + 1 + String.length nm)%nat as Lh by (unfold head; str_len).
  assert (sdrop (String.length pre + 1) line = (nm +s+ blk) +s+ kw +s+ (msg +s+ str1 dquote)) as Ed.
  { assert (line = (pre +s+ str1 dquote) +s+ ((nm +s+ blk) +s+ kw +s+ (msg +s+ str1 dquote))) as -> by (unfold line, chat_line, blk, kw; str_assoc).
    apply sdrop_length_app. str_len. }
  assert ((String.length head + String.length blk)%nat ∈ occurrences kw (sdrop (String.length pre + 1) line) (String.length pre + 1)) as Ho.
  { rewrite Ed. replace (String.length head + String.length blk)%nat with (String.length pre + 1 + String.length (nm +s+ blk))%nat by (rewrite length_app_s; lia).
    apply occurrences_app. by destruct kw_cases as [[-> _]|[-> _]]. }
  pose proof true_candidate as Hcand. unfold hits. apply elem_of_app. destruct kw_cases as [[Ek Et]|[Ek Et]]; [left|right];
    apply list_elem_of_omap; exists (String.length head + String.length blk)%nat; rewrite Ek, Et in Hcand; rewrite Ek in Ho; done.
Qed.

Lemma honest_line_read :
  ParseChatLogLine line humans =
    Some {| cl_steamid64 := kSteamBase + account; cl_name := nm; side := side_of tm; team_only := isTeam; cl_message := msg |} \/
  ParseChatLogLine line humans = None /\ exists q e, (2 <= length (hits line humans q e))%nat.
Proof.
  assert (find (str1 dquote) line = Some (String.length pre)) as Hq by by apply find_char.
  assert (line = (head +s+ blk +s+ kw +s+ msg) +s+ String dquote (EmptyString +s+ EmptyString)) as El by (unfold line, chat_line, head, blk, kw; str_assoc).
  assert (rfind dquote line (String.length line) = Some stop) as Hr.
  { assert (String.length line = S stop) as -> by (rewrite El; unfold stop, start; str_len). cbn [rfind].
    assert (at_is dquote line (S stop) = false) as ->.
    { unfold at_is. rewrite El. replace (S stop) with (String.length (head +s+ blk +s+ kw +s+ msg) + 1)%nat by (unfold stop, start; str_len).
      by rewrite get_app_r. }
    by apply (rfind_at _ _ (head +s+ blk +s+ kw +s+ msg) EmptyString EmptyString); [|done|unfold stop, start; str_len|unfold stop, start; str_len]. }
  pose proof true_block_hit as Hh. unfold ParseChatLogLine. rewrite Hq, Hr. cbn [mbind option_bind].
  destruct (hits line humans (String.length pre) stop) as [|h [|h2 hs]] eqn:Eh.
  - by apply elem_of_nil in Hh.
  - left. apply list_elem_of_singleton in Hh as <-. do 2 f_equal.
    + apply (substr_at _ (pre +s+ str1 dquote) _ (blk +s+ kw +s+ msg +s+ str1 dquote));
        [unfold line, chat_line, blk, kw; str_assoc|str_len|cbn; unfold head; str_len].
    + apply (substr_at _ (head +s+ blk +s+ kw) _ (str1 dquote));
        [unfold line, chat_line, head, blk, kw; str_assoc|unfold true_block, msgStart, start; str_len|unfold true_block, msgStart, stop; lia].
  - right. split; [done|]. exists (String.length pre), stop. rewrite Eh. cbn. lia.
Qed.
End honest_line.

(** Claim C24.  Nobody can speak for someone else.  Take any line the server logs for a connected player: any
    name and any message, angle brackets, quotes and forged headers included.  The parser returns that player's
    SteamID, name, side, scope and whole message, or nothing; and nothing only when at least two blocks in the
    line name connected players, that is when the text tries to pass for another one. *)
Theorem chat_sender_true (pre nm : string) (uid account : Z) (tm : string) (isTeam : bool) (msg : string) (humans : list KnownHuman) :
  sforall (not_char dquote) pre = true -> 0 <= uid < 1000000000 -> 0 <= account < 4294967296 -> no_angle tm = true ->
  Connected uid (kSteamBase + account) humans = true ->
  let line := chat_line pre nm uid account tm isTeam msg in
  ParseChatLogLine line humans =
    Some {| cl_steamid64 := kSteamBase + account; cl_name := nm; side := side_of tm; team_only := isTeam; cl_message := msg |} \/
  ParseChatLogLine line humans = None /\ exists q e, (2 <= length (hits line humans q e))%nat.
Proof. apply honest_line_read. Qed.

Definition forger_name : string := qs "m<2><[U:1:123]><CT>` say `x".

Lemma chat_sender_true_witness :
  let line := chat_line "L 10/17/2026 - 12:00:00: " forger_name 9 99 "CT" false "gg" in
  ParseChatLogLine line sample_humans =
    Some {| cl_steamid64 := kSteamBase + 99; cl_name := forger_name; side := side_of "CT"; team_only := false; cl_message := "gg" |} \/
  ParseChatLogLine line sample_humans = None /\ exists q e, (2 <= length (hits line sample_humans q e))%nat.
Proof. apply (chat_sender_true "L 10/17/2026 - 12:00:00: "); [reflexivity|lia|lia|reflexivity|reflexivity]. Defined.

(** Compare with the log listener, which takes the same line for one of account 123 ([name_chooses_identity]). *)
Example forger_dropped : ParseChatLogLine (chat_line "L 10/17/2026 - 12:00:00: " forger_name 9 99 "CT" false "gg") sample_humans = None.
Proof. vm_compute. reflexivity. Qed.

(** ** The rate limit *)

Lemma pop_old_suffix w now q : exists p, q = p ++ pop_old w now q /\ Forall (fun t => old w now t = true) p.
Proof.
  induction q as [|t q (p & E & Hp)]; [by exists []|]. cbn. destruct (old w now t) eqn:Eo; [|by exists []].
  exists (t :: p). split; [by rewrite E at 1|]. by constructor.
Qed.

(** No player ever has more than [max_] lines in their window. *)
Definition within_limit (l : RateLimiter) : Prop := forall k q, seen_ l !! k = Some q -> zlen q <= Z.max 0 (max_ l).

Lemma Allow_within sid now l : within_limit l -> within_limit (Allow sid now l).1.
Proof.
  intros H. assert (zlen (pop_old (window_ l) now (default [] (seen_ l !! sid))) <= Z.max 0 (max_ l)) as Hq.
  { destruct (pop_old_suffix (window_ l) now (default [] (seen_ l !! sid))) as (p & E & _).
    assert (zlen (default [] (seen_ l !! sid)) <= Z.max 0 (max_ l)) as Hl.
    { destruct (seen_ l !! sid) as [q|] eqn:El; [exact (H _ _ El)|]. cbn. rewrite zlen_nil. lia. }
    rewrite E, zlen_app in Hl. pose proof (zlen_nonneg p). lia. }
  unfold Allow. case_if; split_bools; intros k q; cbn.
  - intros [[<- <-]|[_ Hk]]%lookup_insert_Some; [done|]. by apply (H k).
  - assert (forall k q, <[sid:=pop_old (window_ l) now (default [] (seen_ l !! sid)) ++ [now]]> (seen_ l) !! k = Some q -> zlen q <= Z.max 0 (max_ l)) as Hm.
    { intros k' q' [[<- <-]|[_ Hk]]%lookup_insert_Some; [|by apply (H k')]. rewrite zlen_app. unfold zlen at 2. cbn. lia. }
    case_if; [|apply Hm]. unfold prune. intros [Hk _]%map_lookup_filter_Some. by apply (Hm k).
Qed.
