(* ===== verification/MatchConfig.v ===== *)
(** * The match config parser

    [plugins/match/readyup/match_config_parser.cpp]: a match config text becomes the match context the plugin
    runs on, [WebhookMatchContext] of webhook.h.  The text is read twice, by minijson and, for the ruleset
    and its overrides, by the status JSON parser.  The context's fields are computed in the order of the
    code; [None] stands for a conversion of a number that C++ leaves undefined. *)

From S2P Require Import Prelude CStr Double Json MatchRules Ruleset SlotRegistry MiniJson.

Inductive WebhookTeam := TeamUnknown | Team1 | Team2.
#[export] Instance WebhookTeam_eq_dec : EqDecision WebhookTeam.
Proof. solve_decision. Defined.

(** ** The context *)

(** What a [team1] / [team2] object says of the team itself. *)
Record TeamInfo := { t_name : string; t_id : string; t_flag : string; t_captain : Z }.
Definition NoTeam : TeamInfo := {| t_name := EmptyString; t_id := EmptyString; t_flag := EmptyString; t_captain := 0 |}.

(** Who belongs to which team. *)
Record Roster := {
  coach_team : gmap Z WebhookTeam; substitutes : gset Z; roster_team : gmap Z WebhookTeam; roster_names : gmap Z string }.
Definition NoRoster : Roster := {| coach_team := ∅; substitutes := ∅; roster_team := ∅; roster_names := ∅ |}.

Record WebhookMatchContext := {
  c_matchid : Z; c_slug : string; c_num_maps : Z; c_team1 : TeamInfo; c_team2 : TeamInfo; c_knifeDecisionSeconds : Z;
  c_maxRounds : Z; c_overtime_enabled : bool; c_overtimeSegments : Z; c_maxOvertimes : Z; c_damageTiebreakEnabled : bool;
  c_suddenDeathOnDamageTie : bool; c_map_sides : list string; c_clinch_series : bool; c_maplist : list string;
  c_spectators : gset Z; c_admins : gset Z; c_cvars : gmap string string; c_roster : Roster; c_rules : MatchRules;
  c_ruleset : string; c_overrides_json : string; c_coaches : gset Z; c_coaches_per_team : Z; c_players_per_team : Z;
  c_playout : Z; c_whitelist : Z; c_autoready : Z; c_ruleset_notes : list string; c_roster_names_rule : Z; c_wingman : bool;
  c_demo_record : Z; c_demo_upload : Z; c_bot_fill : bool; c_full_team_deadline_ms : Z; c_walkover_short : WebhookTeam;
  c_walkover_expires_ms : Z; c_walkover_choosers : gset Z; c_simulation : bool; c_simulation_timescale : double }.

(** ** Scalars *)

(** [int] from an [int64_t]. *)
Definition parse_int (lo : Z) (v : option mval) : option (option Z) :=
  i ← mAsInt v;
  Some (match i with
        | Some n => if (lo <=? n) && (n <? 10000) then Some n else None
        | None =>
            s ← mAsString v;
            if sempty s then None else n ← stoi s; if (lo <=? n) && (n <? 10000) then Some n else None
        end).
Definition parsePositiveInt : option mval -> option (option Z) := parse_int 1.
Definition parseNonNegativeInt : option mval -> option (option Z) := parse_int 0.

Definition parseBool (v : option mval) : option bool :=
  match v with
  | Some (MBool b) => Some b
  | Some (MNumber d) => Some (negb (d =d of_int 0))
  | Some (MString s) =>
      if (s =s "1") || (s =s "true") || (s =s "TRUE") || (s =s "yes") || (s =s "YES") then Some true
      else if (s =s "0") || (s =s "false") || (s =s "FALSE") || (s =s "no") || (s =s "NO") then Some false
      else None
  | _ => None
  end.

(** [1e-9] and the renderings of a number. *)
Definition nano : double := dratio 1 1000000000.
Definition is_zero (c : ascii) : bool := Ascii.eqb c "0".
Definition trim_number (s : string) : string :=
  let s := drop_while_end is_zero s in
  (* one trailing point *)
  match String.length s with
  | O => s
  | S n => if match String.get n s with Some c => Ascii.eqb c "." | None => false end then stake n s else s
  end.
Definition fmtNum (x : double) : option string :=
  z ← dround x;
  if SFabs (dsub x (of_int z)) <d nano
  then (if (-9223372036854775808 <=? z) && (z <=? 9223372036854775807) then Some (to_string z) else None)
  else let s := trim_number (fmt_f 6 x) in Some (if sempty s then "0" else s).

Definition read_cvar (m : option (gmap string string)) (kv : string * mval) : option (gmap string string) :=
  m ← m;
  if sempty kv.1 then Some m
  else match kv.2 with
       | MString s => Some (if sempty s then m else <[kv.1 := s]> m)
       | MNumber d => t ← fmtNum d; Some (<[kv.1 := t]> m)
       | MBool b => Some (<[kv.1 := if b then "1" else "0"]> m)
       | _ => Some m
       end.
Definition read_cvars (v : option mval) : option (gmap string string) :=
  match v with Some (MObject o) => foldl read_cvar (Some ∅) o | _ => Some ∅ end.

Definition kMinTimescale : double := dratio 1 10.
Definition kMaxTimescale : double := of_int 4.
Definition ClampTimescale (ts : double) : double :=
  if negb (isfinite ts) || (ts <=d of_int 0) then of_int 1
  else if ts <d kMinTimescale then kMinTimescale else if kMaxTimescale <d ts then kMaxTimescale else ts.

Definition read_timescale (v : option mval) : double :=
  match v with
  | Some (MNumber d) => ClampTimescale d
  | Some (MString s) => match stod s with Some d => ClampTimescale d | None => of_int 1 end
  | _ => of_int 1
  end.

(** The non-empty strings of an array. *)
Definition strings_of (v : option mval) : list string :=
  match v with
  | Some (MArray a) => omap (fun x => match x with MString s => if sempty s then None else Some s | _ => None end) a
  | _ => []
  end.

Definition set_of (l : list Z) : gset Z := list_to_set (List.filter (fun x => negb (x =? 0)) l).

Definition read_choosers (v : option mval) : gset Z :=
  match v with Some (MArray a) => list_to_set (omap (fun x => match x with MString s => stoull s | _ => None end) a) | _ => ∅ end.

Definition read_spectators (v : option mval) : gset Z :=
  match v with
  | Some sp => match mget sp "players" with Some (MObject o) => set_of ((fun kv => ParseSteamId64Loose kv.1) <$> o) | _ => ∅ end
  | None => ∅
  end.

(** [static_cast<uint64_t>(v.num)]. *)
Definition cast_uint64 (d : double) : option Z := z ← dtrunc d; if (0 <=? z) && (z <=? 18446744073709551615) then Some z else None.
Definition admin_id (v : mval) : option Z :=
  match v with MString s => Some (ParseSteamId64Loose s) | MNumber d => cast_uint64 d | _ => Some 0 end.
Definition read_admins (v : option mval) : option (gset Z) :=
  match v with Some (MArray a) => set_of <$> mapM admin_id a | _ => Some ∅ end.

Definition read_coaches (v : option mval) : gset Z :=
  match v with Some (MArray a) => set_of ((fun x => match x with MString s => ParseSteamId64Loose s | _ => 0 end) <$> a) | _ => ∅ end.

(** ** Rules *)

Definition rule_int_or (cfg : mval) (key : string) : option Z := default (-1) <$> parseNonNegativeInt (mget cfg key).
Definition rule_bool_or (cfg : mval) (key : string) : Z := match parseBool (mget cfg key) with Some b => if b then 1 else 0 | None => -1 end.

Definition read_gg_threshold (v : option mval) : Z :=
  let pct := match v with
             | Some (MNumber d) => GgThresholdPctFromText (fmt_f 6 d)
             | Some (MString s) => GgThresholdPctFromText s
             | _ => -1
             end in
  if 0 <? pct then pct else -1.

Definition read_rules (cfg : mval) : option MatchRules :=
  tech ← rule_int_or cfg "max_tech_pauses_per_team";
  tech_s ← rule_int_or cfg "tech_pause_max_seconds";
  disc ← rule_int_or cfg "disconnect_pause_max_seconds";
  minp ← rule_int_or cfg "min_players_to_ready";
  mins ← rule_int_or cfg "min_spectators_to_ready";
  forf ← rule_int_or cfg "forfeit_after_seconds";
  ggd ← rule_int_or cfg "gg_min_score_diff";
  stopv ← rule_int_or cfg "stop_vote_seconds";
  Some {| tech_pauses_per_team := tech; tech_pause_max_seconds := tech_s; disconnect_pause_max_seconds := disc;
          both_teams_unpause := rule_bool_or cfg "both_teams_unpause_required"; allow_force_ready := rule_bool_or cfg "allow_force_ready";
          team_ready := rule_bool_or cfg "team_ready"; min_players_to_ready := minp; min_spectators_to_ready := mins;
          forfeit_after_seconds := forf; gg_enabled := rule_bool_or cfg "gg_enabled"; gg_threshold_pct := read_gg_threshold (mget cfg "gg_threshold");
          gg_min_score_diff := ggd; stop_command_available := rule_bool_or cfg "stop_command_available";
          stop_command_no_damage := rule_bool_or cfg "stop_command_no_damage"; stop_vote_seconds := stopv;
          pause_after_restore := rule_bool_or cfg "pause_after_restore" |}.

(** ** Teams *)

Definition with_name (sid : Z) (v : option string) (r : Roster) : Roster :=
  match v with
  | Some n => if sempty n then r else {| coach_team := coach_team r; substitutes := substitutes r; roster_team := roster_team r; roster_names := <[sid := n]> (roster_names r) |}
  | None => r
  end.

Definition add_coach (tag : WebhookTeam) (r : Roster) (sid : Z) (name : option string) : Roster :=
  if sid =? 0 then r
  else with_name sid name {| coach_team := <[sid := tag]> (coach_team r); substitutes := substitutes r; roster_team := roster_team r; roster_names := roster_names r |}.

Definition add_player (tag : WebhookTeam) (r : Roster) (sid : Z) (name : option string) : Roster :=
  if sid =? 0 then r
  else with_name sid name {| coach_team := coach_team r; substitutes := substitutes r; roster_team := <[sid := tag]> (roster_team r); roster_names := roster_names r |}.

Definition add_sub (tag : WebhookTeam) (r : Roster) (sid : Z) (name : option string) : Roster :=
  if sid =? 0 then r
  else with_name sid name {| coach_team := coach_team r; substitutes := {[sid]} ∪ substitutes r; roster_team := <[sid := tag]> (roster_team r); roster_names := roster_names r |}.

(** [{steamid64: name}] or [[steamid64]]. *)
Definition people (v : option mval) : list (Z * option string) :=
  match v with
  | Some (MObject o) => (fun kv => (ParseSteamId64Loose kv.1, mAsString (Some kv.2))) <$> o
  | Some (MArray a) => omap (fun x => match x with MString s => Some (ParseSteamId64Loose s, None) | _ => None end) a
  | _ => []
  end.
Definition add_all (f : Roster -> Z -> option string -> Roster) (l : list (Z * option string)) (r : Roster) : Roster :=
  foldl (fun r x => f r x.1 x.2) r l.

Definition read_captain (team : mval) : option Z :=
  match mAsString (mget team "captain_steamid64") with
  | Some s => Some (ParseSteamId64Loose s)
  | None => i ← mAsInt (mget team "captain_steamid64"); Some (match i with Some n => n mod 18446744073709551616 | None => 0 end)
  end.

Definition read_id (team : mval) : option string :=
  match mAsString (mget team "id") with
  | Some s => Some s
  | None => i ← mAsInt (mget team "id"); Some (match i with Some n => to_string n | None => EmptyString end)
  end.

Definition readTeam (cfg : mval) (key : string) (tag : WebhookTeam) (r : Roster) : option (TeamInfo * Roster) :=
  match mget cfg key with
  | Some (MObject o) =>
      let team := MObject o in
      i ← read_id team;
      cap ← read_captain team;
      let r := add_all (add_coach tag) (people (mget team "coaches")) r in
      let r := add_all (add_sub tag) (people (mget team "substitutes")) r in
      let r := match mget team "players" with Some (MObject p) => add_all (add_player tag) (people (Some (MObject p))) r | _ => r end in
      Some ({| t_name := default EmptyString (mAsString (mget team "name")); t_id := i;
               t_flag := default EmptyString (mAsString (mget team "flag")); t_captain := cap |}, r)
  | _ => Some (NoTeam, r)
  end.

(** The starters of each team, when substitutes are listed. *)
Definition starters (r : Roster) (second : bool) : Z :=
  Z.of_nat (size (filter (fun kv : Z * WebhookTeam => (kv.1 ∉ substitutes r) /\ bool_decide (kv.2 = Team2) = second) (roster_team r))).

Definition team_size (r : Roster) (configured : Z) : Z :=
  if bool_decide (substitutes r = ∅) || negb (configured =? 0) then configured
  else Z.min 32 (Z.max (starters r false) (starters r true)).

(** A player on a roster is a player, not a coach; the others are coaches. *)
Definition settle_coaches (r : Roster) : Roster :=
  {| coach_team := filter (fun kv : Z * WebhookTeam => kv.1 ∉ dom (roster_team r)) (coach_team r);
     substitutes := substitutes r; roster_team := roster_team r; roster_names := roster_names r |}.

(** ** The ruleset *)

(** The fields [ApplyRulesetToContext] may change. *)
Record RulesetChange := {
  r_ruleset : string; r_overrides_json : string; r_notes : list string; r_maxOvertimes : Z; r_damageTiebreak : bool;
  r_overtime_enabled : bool; r_overtimeSegments : Z; r_spectators : gset Z }.

(** The ruleset that is played under a name: the server's when there is none ([CtxRuleset] of [esports.cpp]). *)
Definition named_ruleset (server : Ruleset_) (nm : string) : Ruleset_ := if sempty nm then server else default server (ParseRuleset nm).
Definition CtxRuleset (server : Ruleset_) (c : option WebhookMatchContext) : Ruleset_ :=
  match c with Some c => named_ruleset server (c_ruleset c) | None => server end.

Definition wingman_note : string := "wingman: ruleset default for this match (readyup.cfg sets valve, which is 5v5)".
Definition overtime_note : string := "maxOvertimes / damageTiebreak ignored (ruleset valve: overtime is the engine's, mp_overtime_limit)".
Definition coach_note (n : Z) : string := to_string n +s+ " coach(es) not admitted (online match: lan false, coaches_online false)".

Definition ApplyRulesetToContext (server : Ruleset_) (json : string) (slug : string) (wingman : bool) (rules : MatchRules)
    (cv : gmap string string) (sides : list string) (coaches : gset Z) (c : RulesetChange) : option (RulesetChange + string) :=
  match Parse json with
  | Parsed root =>
      if negb (IsObject root) then Some (inl c)
      else
        let cfg := match Find root "config" with Some x => if IsObject x then x else root | None => root end in
        let asked := Find cfg "ruleset" in
        let parsed := match asked with
                      | Some (JString s) => ParseRuleset s
                      | Some _ => None
                      | None => Some server
                      end in
        match parsed with
        | None => Some (inr ("ruleset must be " +s+ quote "default" +s+ " or " +s+ quote "valve"))
        | Some rs0 =>
            let name0 := match asked with Some _ => RulesetName rs0 | None => r_ruleset c end in
            let clash := wingman && bool_decide (rs0 = RValve) in
            if clash && match asked with Some _ => true | None => false end
            then Some (inr ("wingman needs ruleset " +s+ quote "default" +s+ " (the valve ruleset is 5v5)"))
            else
              let rs := if clash then RDefault else rs0 in
              let name := if clash then RulesetName rs else name0 in
              let notes := if clash then r_notes c ++ [wingman_note] else r_notes c in
              match match Find cfg "overrides" with Some o => ParseOverrides o | None => inl ∅ end with
              | inr err => Some (inr err)
              | inl ov =>
                  let ov_text := match Find cfg "overrides" with Some _ => OverridesToText ov | None => r_overrides_json c end in
                  e ← ResolveEffective {| in_ruleset := rs; overrides := ov; in_match := rules; in_cfg := UnsetRules; cvars := cv |};
                  match (if slug =s "scrim" then None else CheckMapSides e sides) with
                  | Some err => Some (inr err)
                  | None =>
                      let valve := bool_decide (rs = RValve) in
                      let ignore := valve && ((0 <=? r_maxOvertimes c) || r_damageTiebreak c) in
                      let notes := if ignore then notes ++ [overtime_note] else notes in
                      let has k := match ov !! k with Some _ => true | None => false end in
                      let admitted := CoachesAdmitted e in
                      let empty := bool_decide (coaches = ∅) in
                      Some (inl {|
                        r_ruleset := name; r_overrides_json := ov_text;
                        r_notes := if empty || admitted then notes else notes ++ [coach_note (Z.of_nat (size coaches))];
                        r_maxOvertimes := if ignore then -1 else r_maxOvertimes c;
                        r_damageTiebreak := if ignore then false else r_damageTiebreak c;
                        r_overtime_enabled := if valve || has "overtime.enabled" then rule_bool (values e) "overtime.enabled" true else r_overtime_enabled c;
                        r_overtimeSegments := if valve || has "overtime.maxrounds"
                                              then Z.max 1 (to_int32 (Z.quot (rule_int (values e) "overtime.maxrounds" 6) 2)) else r_overtimeSegments c;
                        r_spectators := if empty then r_spectators c else if admitted then r_spectators c ∪ coaches else r_spectators c ∖ coaches |})
                  end
              end
        end
  | _ => Some (inl c)
  end.

(** ** The whole config *)

Definition kMaxRounds : Z := 16.
Definition kOvertimeHalf : Z := 2.
Definition kPlayersPerTeam : Z := 2.

Definition positive_or (dflt : Z) (i : option Z) : Z := match i with Some n => if 0 <? n then n else dflt | None => dflt end.

(** [maxRounds] after the cvars: the server plays [mp_maxrounds]. *)
Definition final_maxRounds (configured : Z) (cv : gmap string string) : Z :=
  let n := if configured <=? 0 then 24 else configured in
  match cv !! "mp_maxrounds" with
  | Some t => match stoi t with Some k => if (0 <? k) && (k <? 10000) then k else n | None => n end
  | None => n
  end.

(** The object that holds the match, and the slug of a wrapper. *)
Definition unwrap (root : mval) : mval * string :=
  match mget root "config" with
  | Some (MObject o) => (MObject o, default EmptyString (mAsString (mget root "slug")))
  | _ => (root, EmptyString)
  end.

Definition read_matchid (root cfg : mval) : option Z :=
  m ← mAsInt (mget cfg "matchid");
  let mid := match m with Some n => n mod 18446744073709551616 | None => 0 end in
  if negb (mid =? 0) then Some mid
  else i ← mAsInt (mget root "id"); Some (match i with Some n => n mod 18446744073709551616 | None => 0 end).

Definition build_context (server : Ruleset_) (json : string) (root : mval) (matchid : Z) : option (WebhookMatchContext + string) :=
  let '(cfg, slug) := unwrap root in
  let g := mget cfg in
  nm ← mAsInt (g "num_maps");
  cv ← read_cvars (g "cvars");
  mr ← parsePositiveInt (g "maxRounds");
  seg ← parsePositiveInt (g "overtimeSegments");
  deadline ← mAsInt (g "full_team_deadline_ms");
  expires ← mAsInt (g "walkover_expires_ms");
  mo ← parseNonNegativeInt (g "maxOvertimes");
  knife ← parsePositiveInt (g "knifeDecisionSeconds");
  rules ← read_rules cfg;
  ppt ← parseNonNegativeInt (g "players_per_team");
  admins ← read_admins (g "admins");
  '(team1, r) ← readTeam cfg "team1" Team1 NoRoster;
  '(team2, r) ← readTeam cfg "team2" Team2 r;
  cpt ← mAsInt (g "coaches_per_team");
  let wing := default false (parseBool (g "wingman")) in
  let fill := default false (parseBool (g "bot_fill")) in
  let flag3 k := rule_bool_or cfg k in
  let segments := match seg with Some n => Z.max 1 (Z.min 60 n) | None => if wing then kOvertimeHalf else 3 end in
  let rounds := match mr with Some n => n | None => if wing then kMaxRounds else 24 end in
  let players0 := match ppt with Some n => Z.min n 32 | None => 0 end in
  let players1 := if wing && (players0 =? 0) then kPlayersPerTeam else players0 in
  let r' := settle_coaches r in
  let coaches := read_coaches (g "coaches") ∪ dom (coach_team r') in
  let sides := strings_of (g "map_sides") in
  let spectators := read_spectators (g "spectators") in
  change ← ApplyRulesetToContext server json slug wing rules cv sides coaches
    {| r_ruleset := EmptyString; r_overrides_json := EmptyString; r_notes := []; r_maxOvertimes := default (-1) mo;
       r_damageTiebreak := default false (parseBool (g "damageTiebreak"));
       r_overtime_enabled := match mAsString (g "overtimeMode") with Some s => s =s "enabled" | None => false end;
       r_overtimeSegments := segments; r_spectators := spectators |};
  Some (match change with
  | inr err => inr err
  | inl c => inl {|
      c_matchid := matchid; c_slug := slug; c_num_maps := match nm with Some n => to_int32 n | None => 0 end;
      c_team1 := team1; c_team2 := team2;
      c_knifeDecisionSeconds := match knife with Some n => Z.max 5 (Z.min 300 n) | None => 60 end;
      c_maxRounds := final_maxRounds rounds cv; c_overtime_enabled := r_overtime_enabled c; c_overtimeSegments := r_overtimeSegments c;
      c_maxOvertimes := r_maxOvertimes c; c_damageTiebreakEnabled := r_damageTiebreak c;
      c_suddenDeathOnDamageTie := default true (parseBool (g "damageTiebreakSuddenDeath")); c_map_sides := sides;
      c_clinch_series := match g "clinch_series" with Some (MBool b) => b | _ => true end; c_maplist := strings_of (g "maplist");
      c_spectators := r_spectators c; c_admins := admins; c_cvars := cv; c_roster := r'; c_rules := rules;
      c_ruleset := r_ruleset c; c_overrides_json := r_overrides_json c; c_coaches := coaches;
      c_coaches_per_team := match cpt with Some n => to_int32 n | None => 2 end;
      c_players_per_team := team_size r players1; c_playout := flag3 "playout"; c_whitelist := flag3 "whitelist"; c_autoready := flag3 "autoready";
      c_ruleset_notes := r_notes c; c_roster_names_rule := flag3 "roster_names"; c_wingman := wing;
      c_demo_record := flag3 "demo_record"; c_demo_upload := flag3 "demo_upload"; c_bot_fill := fill;
      c_full_team_deadline_ms := positive_or 0 deadline;
      c_walkover_short := match mAsString (g "walkover_short") with
                          | Some s => if s =s "team1" then Team1 else if s =s "team2" then Team2 else TeamUnknown
                          | None => TeamUnknown
                          end;
      c_walkover_expires_ms := positive_or 0 expires; c_walkover_choosers := read_choosers (g "walkover_choosers");
      c_simulation := if fill then false else default false (parseBool (g "simulation"));
      c_simulation_timescale := if fill then of_int 1 else read_timescale (g "simulation_timescale") |}
  end).

(** The context or the error text (without the offset of a syntax error). *)
Definition ParseWebhookMatchContextFromJson (server : Ruleset_) (json : string) : option (WebhookMatchContext + string) :=
  match mini_Parse json with
  | MiniOk root =>
      mid ← read_matchid root (unwrap root).1;
      if mid =? 0 then Some (inr "missing matchid") else build_context server json root mid
  | MiniError msg => Some (inr msg)
  | MiniFuel => Some (inr EmptyString) (* not reached: the reader is total *)
  end.

Definition sample_config : string := qs "{`slug`:`final`,`config`:{`matchid`:42,`num_maps`:3,`maplist`:[`de_nuke`,`de_mirage`],
 `map_sides`:[`team1_ct`,`knife`],`cvars`:{`mp_maxrounds`:8,`x`:0.5,`y`:true},`wingman`:`yes`,
 `team1`:{`name`:`A`,`id`:7,`players`:{`76561197960265729`:`ann`,`STEAM_0:0:1`:`bob`},`coaches`:[`76561197960265730`,`76561197960265731`]},
 `team2`:{`name`:`B`,`players`:{`[U:1:9]`:`eve`},`substitutes`:{`[U:1:10]`:`sub`}},`admins`:[`76561197960265777`],`gg_threshold`:0.7}}".

Example config_sample :
  match ParseWebhookMatchContextFromJson RDefault sample_config with
  | Some (inl c) =>
      (c_matchid c, c_slug c, c_maxRounds c, c_overtimeSegments c, c_players_per_team c, t_id (c_team1 c), gg_threshold_pct (c_rules c)) =
        (42, "final", 8, 2, 2, "7", 70) /\
      c_cvars c !! "x" = Some "0.5" /\ roster_names (c_roster c) !! (kSteamBase + 2) = Some "bob" /\
      c_coaches c = {[kSteamBase + 3]} /\ c_spectators c = {[kSteamBase + 3]} /\ c_wingman c = true
  | _ => False
  end.
Proof. vm_compute. split_and!; reflexivity. Qed.
