(* ===== verification/MatchConfigFacts.v ===== *)
(** * Theorems about the match config parser

    What an accepted config guarantees the match, and that a wrapped config means what the bare one does. *)

From S2P Require Import Prelude CStr Double DoubleFacts Json JsonFacts FleetJson MergePatch MatchRules Ruleset SlotRegistry MiniJson MatchConfig.

(** ** The rosters *)

(** Every SteamID is one, every player has a team, every substitute is a player. *)
Record roster_ok (r : Roster) : Prop := {
  ro_coach : forall k t, coach_team r !! k = Some t -> k <> 0 /\ t <> TeamUnknown;
  ro_team : forall k t, roster_team r !! k = Some t -> k <> 0 /\ t <> TeamUnknown;
  ro_subs : substitutes r ⊆ dom (roster_team r);
  ro_names : forall k n, roster_names r !! k = Some n -> n <> EmptyString /\ (k ∈ dom (roster_team r) \/ k ∈ dom (coach_team r)) }.

Lemma NoRoster_ok : roster_ok NoRoster.
Proof. split; cbn; try done; intros; by rewrite lookup_empty in *. Qed.

Lemma with_name_ok sid v r : roster_ok r -> sid ∈ dom (roster_team r) \/ sid ∈ dom (coach_team r) -> roster_ok (with_name sid v r).
Proof.
  intros Hr Hs. unfold with_name. destruct v as [n|]; [|done]. destruct n as [|c n]; [done|]. destruct Hr. split; cbn; try done.
  intros k n'. rewrite lookup_insert_Some. intros [[<- <-]|[_ H]]; [done|eauto].
Qed.

Section adding.
  Context (tag : WebhookTeam) (Htag : tag <> TeamUnknown).

  (** One more entry: the two team tables keep their shape. *)
Lemma insert_team_ok (m : gmap Z WebhookTeam) sid :
  sid <> 0 -> (forall k t, m !! k = Some t -> k <> 0 /\ t <> TeamUnknown) ->
  forall k t, <[sid := tag]> m !! k = Some t -> k <> 0 /\ t <> TeamUnknown.
Proof. intros Hs Hm k t. rewrite lookup_insert_Some. intros [[<- <-]|[_ H]]; [done|eauto]. Qed.

Lemma add_coach_ok r sid v : roster_ok r -> roster_ok (add_coach tag r sid v).
Proof.
  intros [H1 H2 H3 H4]. unfold add_coach. case_if; [by split|]. split_bools. apply with_name_ok; [|cbn; set_solver].
  split; cbn; [by apply insert_team_ok|done|done|]. intros k n Hn. destruct (H4 _ _ Hn). set_solver.
Qed.

Lemma add_player_ok r sid v : roster_ok r -> roster_ok (add_player tag r sid v).
Proof.
  intros [H1 H2 H3 H4]. unfold add_player. case_if; [by split|]. split_bools. apply with_name_ok; [|cbn; set_solver].
  split; cbn; [done|by apply insert_team_ok|set_solver|]. intros k n Hn. destruct (H4 _ _ Hn). set_solver.
Qed.

Lemma add_sub_ok r sid v : roster_ok r -> roster_ok (add_sub tag r sid v).
Proof.
  intros [H1 H2 H3 H4]. unfold add_sub. case_if; [by split|]. split_bools. apply with_name_ok; [|cbn; set_solver].
  split; cbn; [done|by apply insert_team_ok|set_solver|]. intros k n Hn. destruct (H4 _ _ Hn). set_solver.
Qed.

Lemma add_all_ok f l r : (forall r sid v, roster_ok r -> roster_ok (f r sid v)) -> roster_ok r -> roster_ok (add_all f l r).
Proof. intros Hf. unfold add_all. revert r. induction l as [|x l IH]; intros r Hr; [done|]. cbn. by apply IH, Hf. Qed.

Lemma readTeam_ok cfg key r t r' : roster_ok r -> readTeam cfg key tag r = Some (t, r') -> roster_ok r'.
Proof.
  intros Hr. unfold readTeam. destruct (mget cfg key) as [v|]; [|by intros [= _ <-]]. destruct v; try by intros [= _ <-].
  destruct (read_id _); [|done]. cbn. destruct (read_captain _); [|done]. cbn. intros [= _ <-].
  assert (roster_ok (add_all (add_sub tag) (people (obj_find "substitutes" obj)) (add_all (add_coach tag) (people (obj_find "coaches" obj)) r)))
    by (apply add_all_ok; [apply add_sub_ok|]; apply add_all_ok; [apply add_coach_ok|done]).
  destruct (obj_find "players" obj) as [v|]; [|done]. destruct v; try done. apply add_all_ok; [apply add_player_ok|done].
Qed.
End adding.

Lemma settle_coaches_ok r : roster_ok r ->
  roster_ok (settle_coaches r) /\ dom (coach_team (settle_coaches r)) ## dom (roster_team (settle_coaches r)).
Proof.
  intros [H1 H2 H3 H4]. split.
  - split; cbn; [|done|done|].
    + intros k t [H _]%map_lookup_filter_Some. eauto.
    + intros k n Hn. destruct (H4 _ _ Hn) as [Hne Hin]. split; [done|]. destruct (decide (k ∈ dom (roster_team r))) as [|Hni]; [by left|right].
      destruct Hin as [|[t Ht]%elem_of_dom]; [done|]. apply elem_of_dom. exists t. by apply map_lookup_filter_Some.
  - cbn. intros k Hk1 Hk2. apply elem_of_dom in Hk1 as [t [_ Ht]%map_lookup_filter_Some]. by cbn in Ht.
Qed.

(** ** Scalars *)

Lemma parse_int_range lo v n : parse_int lo v = Some (Some n) -> lo <= n < 10000.
Proof.
  unfold parse_int. destruct (mAsInt v) as [[i|]|]; cbn; [| |done].
  - intros [= H]. case_match; [|done]. split_bools. simplify_eq. lia.
  - intros [= H]. destruct (mAsString v) as [s|]; [|done]. cbn in H. destruct (sempty s); [done|]. destruct (stoi s); [|done]. cbn in H.
    case_match; [|done]. split_bools. simplify_eq. lia.
Qed.

Definition rule_ok (n : Z) : Prop := -1 <= n < 10000.
Definition flag_ok (n : Z) : Prop := -1 <= n <= 1.

Lemma rule_int_or_ok cfg k n : rule_int_or cfg k = Some n -> rule_ok n.
Proof.
  unfold rule_int_or, rule_ok. destruct (parseNonNegativeInt (mget cfg k)) as [[i|]|] eqn:E; cbn; try done; intros [= <-]; [|lia].
  apply parse_int_range in E. lia.
Qed.

Lemma rule_bool_or_ok cfg k : flag_ok (rule_bool_or cfg k).
Proof. unfold rule_bool_or, flag_ok. destruct (parseBool _) as [[]|]; lia. Qed.

Record rules_ok (m : MatchRules) : Prop := {
  ru_tech : rule_ok (tech_pauses_per_team m); ru_tech_s : rule_ok (tech_pause_max_seconds m); ru_disc : rule_ok (disconnect_pause_max_seconds m);
  ru_unpause : flag_ok (both_teams_unpause m); ru_force : flag_ok (allow_force_ready m); ru_team : flag_ok (team_ready m);
  ru_minp : rule_ok (min_players_to_ready m); ru_mins : rule_ok (min_spectators_to_ready m); ru_forfeit : rule_ok (forfeit_after_seconds m);
  ru_gg : flag_ok (gg_enabled m); ru_ggpct : gg_threshold_pct m = -1 \/ 1 <= gg_threshold_pct m; ru_ggdiff : rule_ok (gg_min_score_diff m);
  ru_stop : flag_ok (stop_command_available m); ru_stopd : flag_ok (stop_command_no_damage m); ru_stopv : rule_ok (stop_vote_seconds m);
  ru_restore : flag_ok (pause_after_restore m) }.

Lemma read_rules_ok cfg m : read_rules cfg = Some m -> rules_ok m.
Proof.
  unfold read_rules. intros H.
  repeat match type of H with (rule_int_or ?c ?k ≫= _) = _ => destruct (rule_int_or c k) eqn:?; [cbn in H|done] end.
  injection H as <-. split; cbn; eauto using rule_int_or_ok, rule_bool_or_ok.
  unfold read_gg_threshold. case_if; split_bools; lia.
Qed.

(** The value of a timescale that was clamped or never set. *)
Definition timescale_ok (d : double) : Prop :=
  d = of_int 1 \/ d = kMinTimescale \/ d = kMaxTimescale \/ (isfinite d = true /\ (of_int 0 <d d) = true /\ (d <d kMinTimescale) = false /\ (kMaxTimescale <d d) = false).

Lemma dleb_false_ltb d : isfinite d = true -> (d <=d of_int 0) = false -> (of_int 0 <d d) = true.
Proof. destruct d as [s|s| |s m e]; try done. by destruct s. Qed.

Lemma ClampTimescale_ok d : timescale_ok (ClampTimescale d).
Proof.
  unfold ClampTimescale, timescale_ok. destruct (negb (isfinite d) || (d <=d of_int 0)) eqn:E; [auto|]. apply orb_false_elim in E as [E1 E2].
  apply negb_false_iff in E1. destruct (d <d kMinTimescale) eqn:E3; [auto|]. destruct (kMaxTimescale <d d) eqn:E4; [auto|].
  do 3 right. split_and!; try done. by apply dleb_false_ltb.
Qed.

Lemma read_timescale_ok v : timescale_ok (read_timescale v).
Proof.
  unfold read_timescale. destruct v as [v|]; [|by left]. destruct v; try (by left); [apply ClampTimescale_ok|].
  destruct (stod str); [apply ClampTimescale_ok|by left].
Qed.

Lemma final_maxRounds_ok n cv : n < 10000 -> 0 < final_maxRounds n cv < 10000.
Proof.
  intros Hn. unfold final_maxRounds. assert (0 < (if n <=? 0 then 24 else n) < 10000) as H by (case_if; split_bools; lia).
  destruct (cv !! "mp_maxrounds") as [t|]; [|done]. destruct (stoi t) as [k|]; [|done]. destruct ((0 <? k) && (k <? 10000)) eqn:E; [|done]. split_bools. lia.
Qed.

Lemma team_size_ok r n : 0 <= n <= 32 -> 0 <= team_size r n <= 32.
Proof. intros Hn. unfold team_size. case_if; [done|]. unfold starters. lia. Qed.

(** ** The ruleset *)

(** What the ruleset step guarantees of what it returns. *)
Record change_ok (wingman : bool) (coaches : gset Z) (c c' : RulesetChange) : Prop := {
  ch_segments : 1 <= r_overtimeSegments c -> 1 <= r_overtimeSegments c';
  ch_ot : r_maxOvertimes c' = r_maxOvertimes c \/ r_maxOvertimes c' = -1;
  ch_name : r_ruleset c' = r_ruleset c \/ r_ruleset c' = "default" \/ r_ruleset c' = "valve";
  ch_wingman : wingman = true -> r_ruleset c <> "valve" -> r_ruleset c' <> "valve";
  ch_valve : r_ruleset c <> "valve" -> r_ruleset c' = "valve" -> r_maxOvertimes c' < 0 /\ r_damageTiebreak c' = false;
  ch_spec : r_spectators c' ⊆ r_spectators c ∪ coaches /\ r_spectators c ⊆ r_spectators c' ∪ coaches }.

Lemma RulesetName_cases r : RulesetName r = "default" \/ RulesetName r = "valve".
Proof. destruct r; auto. Qed.

Lemma ApplyRuleset_ok server json slug wing rules cv sides coaches c c' :
  ApplyRulesetToContext server json slug wing rules cv sides coaches c = Some (inl c') -> change_ok wing coaches c c'.
Proof.
  assert (change_ok wing coaches c c) as Hrefl by (split; auto; try tauto; set_solver).
  unfold ApplyRulesetToContext. destruct (Parse json) as [root| |]; [|by intros [= <-]..]. case_if; [by intros [= <-]|].
  set (cfg := match Find root "config" with Some _ => _ | None => _ end). clearbody cfg.
  set (parsed := match Find cfg "ruleset" with Some _ => _ | None => _ end). destruct parsed as [rs0|]; [|done]. clear - Hrefl.
  destruct (_ && match Find cfg "ruleset" with Some _ => true | None => false end) eqn:Eclash; [done|].
  destruct (match Find cfg "overrides" with Some _ => _ | None => _ end) as [ov|]; [|done].
  set (rs := if wing && bool_decide (rs0 = RValve) then RDefault else rs0).
  destruct (ResolveEffective _) as [e|]; [|done]. cbn [mbind option_bind]. destruct (if slug =s "scrim" then _ else _); [done|].
  intros [= <-]. split; cbn.
  - intros H. case_if; lia.
  - case_if; auto.
  - destruct (wing && bool_decide (rs0 = RValve)); [auto|]. destruct (Find cfg "ruleset"); [|auto]. right. apply RulesetName_cases.
  - intros ->. cbn in *. case_bool_decide as Hv; cbn in *; [done|]. destruct (Find cfg "ruleset"); [|done]. intros _. by destruct rs0.
  - intros Hc Hv. unfold rs. destruct (wing && bool_decide (rs0 = RValve)) eqn:Ew; [done|]. destruct (Find cfg "ruleset"); [|done].
    destruct rs0; [done|]. rewrite bool_decide_eq_true_2 by done. cbn. destruct ((0 <=? r_maxOvertimes c) || r_damageTiebreak c) eqn:E; [split; [lia|done]|].
    apply orb_false_elim in E as [E1 E2]. split_bools. split; [lia|done].
  - destruct (bool_decide (coaches = ∅)); [set_solver|]. destruct (CoachesAdmitted e); [set_solver|]. split; [set_solver|].
    intros x Hx. destruct (decide (x ∈ coaches)); set_solver.
Qed.

(** The ruleset the config names, for the second reader of the text: none when that reader does not take the text. *)
Definition config_of (root : Json) : Json := match Find root "config" with Some x => if IsObject x then x else root | None => root end.
Definition asked_ruleset (json : string) : option (option Json) :=
  match Parse json with Parsed root => if IsObject root then Some (Find (config_of root) "ruleset") else None | _ => None end.

(** What is played in the end: the ruleset that is named, never the 5v5 one for a wingman match; the server's when none is named, but
    for a wingman match the default one. *)
Definition plays (server : Ruleset_) (json nm : string) (wingman : bool) : Prop :=
  match asked_ruleset json with
  | None => nm = EmptyString
  | Some (Some j) => exists s, j = JString s /\ ParseRuleset s = Some (named_ruleset server nm) /\ (wingman = true -> named_ruleset server nm = RDefault)
  | Some None => named_ruleset server nm = if wingman then RDefault else server
  end.

Lemma named_RulesetName server r : named_ruleset server (RulesetName r) = r.
Proof. by destruct r. Qed.

Lemma ApplyRuleset_plays server json slug wing rules cv sides coaches c c' : r_ruleset c = EmptyString ->
  ApplyRulesetToContext server json slug wing rules cv sides coaches c = Some (inl c') ->
  plays server json (r_ruleset c') wing /\
  (asked_ruleset json <> None -> named_ruleset server (r_ruleset c') = RValve -> r_maxOvertimes c' < 0 /\ r_damageTiebreak c' = false).
Proof.
  intros H0. unfold ApplyRulesetToContext, plays, asked_ruleset. destruct (Parse json) as [root| |]; [|by intros [= <-]..]. destruct (IsObject root); [cbn [negb]|by intros [= <-]].
  fold (config_of root). set (cfg := config_of root). destruct (match Find cfg "ruleset" with Some _ => _ | None => _ end) as [rs0|] eqn:Ep; [|done].
  destruct (_ && match Find cfg "ruleset" with Some _ => true | None => false end) eqn:Eclash; [done|].
  destruct (match Find cfg "overrides" with Some _ => _ | None => _ end) as [ov|]; [|done].
  set (rs := if wing && bool_decide (rs0 = RValve) then RDefault else rs0). set (nm := if wing && _ then RulesetName rs else _).
  assert (named_ruleset server nm = rs) as Hnm.
  { unfold nm, rs. destruct (wing && _); [apply named_RulesetName|]. destruct (Find cfg "ruleset") as [j|]; [apply named_RulesetName|]. rewrite H0. by injection Ep. }
  destruct (ResolveEffective _) as [e|]; [|done]. cbn [mbind option_bind]. destruct (if slug =s "scrim" then _ else _); [done|].
  intros [= <-]. cbn [r_ruleset r_maxOvertimes r_damageTiebreak]. fold nm. rewrite Hnm. split.
  - destruct (Find cfg "ruleset") as [j|].
    + destruct j as [| | | |t| |]; try done. exists t. rewrite andb_true_r in Eclash. unfold rs. rewrite Eclash. split_and!; [done..|]. intros ->. by destruct rs0.
    + injection Ep as <-. unfold rs. destruct wing; [|done]. by destruct server.
  - intros _ ->. rewrite bool_decide_eq_true_2 by done. cbn. destruct ((0 <=? r_maxOvertimes c) || r_damageTiebreak c) eqn:E; [by split|].
    apply orb_false_elim in E as [E1 E2]. split_bools. by split; [lia|].
Qed.

(** ** The accepted configs *)

Record context_ok (c : WebhookMatchContext) : Prop := {
  co_id : c_matchid c <> 0;
  co_knife : 5 <= c_knifeDecisionSeconds c <= 300;
  co_rounds : 0 < c_maxRounds c < 10000;
  co_segments : 1 <= c_overtimeSegments c;
  co_overtimes : -1 <= c_maxOvertimes c < 10000;
  co_size : 0 <= c_players_per_team c <= 32;
  co_rules : rules_ok (c_rules c);
  co_timescale : timescale_ok (c_simulation_timescale c);
  co_fill : c_bot_fill c = true -> c_simulation c = false /\ c_simulation_timescale c = of_int 1;
  co_roster : roster_ok (c_roster c);
  co_apart : dom (coach_team (c_roster c)) ## dom (roster_team (c_roster c));
  co_coaches : dom (coach_team (c_roster c)) ⊆ c_coaches c;
  co_zero : (0 ∉ c_spectators c) /\ (0 ∉ c_admins c) /\ (0 ∉ c_coaches c);
  co_ruleset : c_ruleset c = EmptyString \/ c_ruleset c = "default" \/ c_ruleset c = "valve";
  co_wingman : c_wingman c = true -> c_ruleset c <> "valve" /\ (c_players_per_team c = 0 -> False);
  co_valve : c_ruleset c = "valve" -> c_maxOvertimes c = -1 /\ c_damageTiebreakEnabled c = false }.

(** The ruleset of a match, the server's own for want of one in the config among them. *)
Record ruleset_ok (server : Ruleset_) (json : string) (c : WebhookMatchContext) : Prop := {
  rs_plays : plays server json (c_ruleset c) (c_wingman c);
  rs_valve : asked_ruleset json <> None -> CtxRuleset server (Some c) = RValve -> c_maxOvertimes c = -1 /\ c_damageTiebreakEnabled c = false }.

Lemma set_of_zero l : 0 ∉ set_of l.
Proof. unfold set_of. rewrite elem_of_list_to_set, list_elem_of_In, filter_In. intros [_ H]. done. Qed.

Lemma read_zero v : (0 ∉ read_spectators v) /\ (0 ∉ read_coaches v).
Proof.
  split.
  - unfold read_spectators. destruct v as [v|]; [|set_solver]. destruct (mget v "players") as [p|]; [|set_solver]. destruct p; try set_solver. apply set_of_zero.
  - unfold read_coaches. destruct v as [v|]; [|set_solver]. destruct v; try set_solver. apply set_of_zero.
Qed.

Lemma read_admins_zero v s : read_admins v = Some s -> 0 ∉ s.
Proof.
  unfold read_admins. destruct v as [v|]; [|intros [= <-]; set_solver]. destruct v; try (intros [= <-]; set_solver).
  destruct (mapM admin_id arr); [|done]. cbn. intros [= <-]. apply set_of_zero.
Qed.

(** A wingman match has a team size: 2 unless the config sets one. *)
Lemma team_size_pos r n : 0 < n -> team_size r n = n.
Proof. intros Hn. unfold team_size. replace (n =? 0) with false by (symmetry; apply Z.eqb_neq; lia). by rewrite orb_true_r. Qed.

Tactic Notation "step_bind" hyp(H) ident(x) := let E := fresh "E" x in apply bind_Some in H as (x & E & H).

Lemma build_context_ok server json root mid c :
  mid <> 0 -> build_context server json root mid = Some (inl c) -> context_ok c /\ ruleset_ok server json c.
Proof.
  intros Hmid H. unfold build_context in H. destruct (unwrap root) as [cfg slug].
  step_bind H nm. step_bind H cv. step_bind H mr. step_bind H seg. step_bind H dl. step_bind H wx. step_bind H mo. step_bind H kn.
  step_bind H rules. step_bind H ppt. step_bind H adm. step_bind H t1. destruct t1 as [team1 r1]. step_bind H t2. destruct t2 as [team2 r2].
  step_bind H cpt. step_bind H ch. destruct ch as [ch|]; [|done]. injection H as <-.
  assert (roster_ok r1) as Hr1 by (eapply (readTeam_ok Team1); [done|apply NoRoster_ok|exact Et1]).
  assert (roster_ok r2) as Hr2 by (eapply (readTeam_ok Team2); [done|exact Hr1|exact Et2]).
  destruct (settle_coaches_ok r2 Hr2) as [Hs1 Hs2].
  assert (forall x v, parsePositiveInt v = Some (Some x) -> 1 <= x < 10000) as Hpos by (intros x v; apply parse_int_range).
  assert (forall x v, parseNonNegativeInt v = Some (Some x) -> 0 <= x < 10000) as Hnn by (intros x v; apply parse_int_range).
  pose proof Ech as Epl. apply ApplyRuleset_plays in Epl as [P1 P2]; [|done].
  apply ApplyRuleset_ok in Ech as [A1 A2 A3 A4 A5 [A6 A7]]; cbn in A1, A2, A3, A4, A5, A6, A7.
  assert (-1 <= r_maxOvertimes ch) as Hmo.
  { destruct A2 as [-> | ->]; [|lia]. destruct mo as [n|]; cbn; [apply Hnn in Emo|]; lia. }
  split; [|split; cbn; [done|]; intros Ha Hv; destruct (P2 Ha Hv); split; [lia|done]].
  destruct (read_zero (mget cfg "spectators")) as [Z1 _], (read_zero (mget cfg "coaches")) as [_ Z2].
  assert (0 ∉ read_coaches (mget cfg "coaches") ∪ dom (coach_team (settle_coaches r2))) as Hz.
  { intros [?|[t Ht]%elem_of_dom]%elem_of_union; [done|]. apply (ro_coach _ Hs1) in Ht. tauto. }
  assert (0 <= match ppt with Some n => Z.min n 32 | None => 0 end <= 32) as Hp0.
  { destruct ppt as [n|]; [apply Hnn in Eppt|]; lia. }
  split; cbn; try done.
  - destruct kn as [n|]; lia.
  - apply final_maxRounds_ok. destruct mr as [n|]; [apply Hpos in Emr; lia|]. case_if; unfold kMaxRounds; lia.
  - apply A1. destruct seg as [n|]; [lia|]. case_if; unfold kOvertimeHalf; lia.
  - destruct A2 as [-> | ->]; [|lia]. destruct mo as [n|]; cbn; [apply Hnn in Emo|]; lia.
  - apply team_size_ok. case_if; unfold kPlayersPerTeam; lia.
  - by eapply read_rules_ok.
  - case_if; [by left|]. apply read_timescale_ok.
  - by intros ->.
  - set_solver.
  - split_and!; [|by eapply read_admins_zero|done]. intros Hin. apply A6 in Hin. apply elem_of_union in Hin as [?|?]; contradiction.
  - intros Hw. rewrite Hw in *. split; [by apply A4|]. cbn. destruct (_ =? 0) eqn:E0; split_bools; rewrite team_size_pos; unfold kPlayersPerTeam; lia.
  - intros Hv. destruct (A5 ltac:(done) Hv) as [B1 B2]. split; [|done]. destruct A2 as [A2|A2]; [|done]. rewrite A2 in B1 |- *.
    destruct mo as [n|]; cbn in *; [apply Hnn in Emo; lia|done].
Qed.

(** Claim C27.  What a loaded match can rely on, whatever the config text: a match id; a knife timer of 5 to 300
    seconds, 1 to 9999 rounds, overtime halves of at least one round, a team size of at most 32; rule values that
    are unset or in range; a bot speed within limits and real time with bot fill; rosters in which every entry has
    a SteamID and a team, substitutes are players and no player is also a coach.  The ruleset that is played is the one the config names, which is a known one and
    not the 5v5 one for a wingman match; without a name it is the server's, but for a wingman match the default one even on a server that plays the 5v5 one; and under
    the 5v5 one Ready Up's own overtime cap and tiebreak are off.  All of that about the ruleset holds when the second reader of the text takes it too; a text
    that only the first takes loads with no ruleset and plays the server's, a wingman match too ([asked_ruleset], [ruleset_skipped]). *)
Theorem config_context_ok (server : Ruleset_) (json : string) (c : WebhookMatchContext) :
  ParseWebhookMatchContextFromJson server json = Some (inl c) -> context_ok c /\ ruleset_ok server json c.
Proof.
  unfold ParseWebhookMatchContextFromJson. destruct (mini_Parse json) as [root|msg|]; [|done..].
  destruct (read_matchid root _) as [mid|]; [|done]. cbn. destruct (Z.eqb_spec mid 0); [done|]. by apply build_context_ok.
Qed.

(** A wingman match on a server that plays the 5v5 rules. *)
Lemma config_context_ok_witness :
  match ParseWebhookMatchContextFromJson RValve sample_config with
  | Some (inl c) => context_ok c /\ ruleset_ok RValve sample_config c /\ c_wingman c = true /\ CtxRuleset RValve (Some c) = RDefault
  | _ => False
  end.
Proof.
  pose proof (config_context_ok RValve sample_config) as H.
  assert (match ParseWebhookMatchContextFromJson RValve sample_config with
    | Some (inl c) => c_wingman c && bool_decide (CtxRuleset RValve (Some c) = RDefault) | _ => false end = true) as Hw by (vm_compute; reflexivity).
  destruct (ParseWebhookMatchContextFromJson RValve sample_config) as [[c|]|]; [|discriminate Hw..].
  destruct (H c eq_refl) as [H1 H2]. apply andb_prop in Hw as [Hw Hd]. split; [exact H1|]. split; [exact H2|]. split; [exact Hw|]. exact (bool_decide_eq_true_1 _ Hd).
Defined.

(** ** Wrapped and bare configs *)

Lemma obj_find_mini k o : obj_find k (all_vals mini o) = mini <$> find_member k o.
Proof. induction o as [|[k' v] o IH]; [done|]. cbn. by case_if. Qed.

Lemma mget_mini o k : mget (mini (JObject o)) k = mini <$> Find (JObject o) k.
Proof. apply obj_find_mini. Qed.

(** What a platform sends around a config. *)
Definition wrapper (slug : string) (cfg : Json) : Json := JObject [("slug", JString slug); ("config", cfg)].

Definition set_slug (slug : string) (c : WebhookMatchContext) : WebhookMatchContext := {|
  c_matchid := c_matchid c; c_slug := slug; c_num_maps := c_num_maps c; c_team1 := c_team1 c; c_team2 := c_team2 c;
  c_knifeDecisionSeconds := c_knifeDecisionSeconds c; c_maxRounds := c_maxRounds c; c_overtime_enabled := c_overtime_enabled c;
  c_overtimeSegments := c_overtimeSegments c; c_maxOvertimes := c_maxOvertimes c; c_damageTiebreakEnabled := c_damageTiebreakEnabled c;
  c_suddenDeathOnDamageTie := c_suddenDeathOnDamageTie c; c_map_sides := c_map_sides c; c_clinch_series := c_clinch_series c;
  c_maplist := c_maplist c; c_spectators := c_spectators c; c_admins := c_admins c; c_cvars := c_cvars c; c_roster := c_roster c;
  c_rules := c_rules c; c_ruleset := c_ruleset c; c_overrides_json := c_overrides_json c; c_coaches := c_coaches c;
  c_coaches_per_team := c_coaches_per_team c; c_players_per_team := c_players_per_team c; c_playout := c_playout c;
  c_whitelist := c_whitelist c; c_autoready := c_autoready c; c_ruleset_notes := c_ruleset_notes c;
  c_roster_names_rule := c_roster_names_rule c; c_wingman := c_wingman c; c_demo_record := c_demo_record c; c_demo_upload := c_demo_upload c;
  c_bot_fill := c_bot_fill c; c_full_team_deadline_ms := c_full_team_deadline_ms c; c_walkover_short := c_walkover_short c;
  c_walkover_expires_ms := c_walkover_expires_ms c; c_walkover_choosers := c_walkover_choosers c; c_simulation := c_simulation c;
  c_simulation_timescale := c_simulation_timescale c |}.

Definition on_ok {A B E} (f : A -> B) (r : A + E) : B + E := match r with inl a => inl (f a) | inr e => inr e end.

(** The ruleset step sees the same config behind both texts. *)
Lemma ApplyRuleset_wrapped server slug slug' o wing rules cv sides coaches c json json' :
  Parse json = Parsed (JObject o) -> Parse json' = Parsed (wrapper slug' (JObject o)) -> find_member "config" o = None ->
  (slug =s "scrim") = false -> (slug' =s "scrim") = false ->
  ApplyRulesetToContext server json' slug' wing rules cv sides coaches c = ApplyRulesetToContext server json slug wing rules cv sides coaches c.
Proof.
  intros E1 E2 Hn Hs Hs'. unfold ApplyRulesetToContext. rewrite E1, E2, Hs, Hs'. cbn [IsObject negb wrapper].
  change (Find (JObject o) "config") with (find_member "config" o). rewrite Hn.
  change (Find (JObject [("slug", JString slug'); ("config", JObject o)]) "config") with (Some (JObject o)). reflexivity.
Qed.

Lemma build_context_wrapped server slug o mid json json' :
  Parse json = Parsed (JObject o) -> Parse json' = Parsed (wrapper slug (JObject o)) -> find_member "config" o = None ->
  (slug =s "scrim") = false ->
  build_context server json' (mini (wrapper slug (JObject o))) mid = on_ok (set_slug slug) <$> build_context server json (mini (JObject o)) mid.
Proof.
  intros E1 E2 Hn Hs. unfold build_context.
  assert (unwrap (mini (wrapper slug (JObject o))) = (mini (JObject o), slug)) as -> by done.
  assert (unwrap (mini (JObject o)) = (mini (JObject o), EmptyString)) as -> by (unfold unwrap; rewrite mget_mini; change (Find (JObject o) "config") with (find_member "config" o); by rewrite Hn).
  set (cfg := mini (JObject o)). clearbody cfg.
  assert (forall A B C D (x : option A) (f : A -> option (B + D)) (g : A -> option (C + D)) (h : C + D -> B + D),
    (forall a, f a = h <$> g a) -> x ≫= f = h <$> (x ≫= g)) as Hbind by (intros A B C D [] f g h H; [apply H|done]).
  do 11 (apply Hbind; intros ?). apply Hbind. intros [team1 r1]. apply Hbind. intros [team2 r2]. apply Hbind. intros ?.
  rewrite (ApplyRuleset_wrapped server EmptyString slug o _ _ _ _ _ _ json json' E1 E2 Hn eq_refl Hs).
  apply Hbind. by intros [].
Qed.

(** A config means the same bare and in the platform's wrapper: for every config object the writer can
    print (no doubles, distinct keys, integers below 2^53, at most 63 levels) with a match id and no member called
    [config], parsing [{slug, config}] gives what parsing the bare object gives, error or context, with the slug
    filled in.  Both of the parser's JSON readers agree on such texts. *)
Theorem config_wrapper (server : Ruleset_) (slug : string) (o : list (string * Json)) (m : Z) :
  plain (JObject o) = true -> small (JObject o) = true -> (depth (JObject o) <= 63)%nat ->
  Find (JObject o) "matchid" = Some (JInt m) -> 0 < m -> Find (JObject o) "config" = None -> slug <> "scrim" ->
  ParseWebhookMatchContextFromJson server (Dump (wrapper slug (JObject o))) =
    on_ok (set_slug slug) <$> ParseWebhookMatchContextFromJson server (Dump (JObject o)).
Proof.
  intros Hp Hsm Hd Hm Hpos Hn Hs. set (w := wrapper slug (JObject o)).
  assert (plain w = true) as Hpw by (apply plain_object; split; [apply (bool_decide_unpack _); vm_compute; exact I|repeat constructor; done]).
  assert (small w = true) as Hsw by (cbn [small w wrapper all_members snd]; cbn [small] in Hsm; by rewrite Hsm).
  unfold ParseWebhookMatchContextFromJson. rewrite (mini_Parse_Dump w Hpw Hsw), (mini_Parse_Dump _ Hp Hsm).
  assert ((unwrap (mini w)).1 = mini (JObject o)) as -> by done.
  assert ((unwrap (mini (JObject o))).1 = mini (JObject o)) as -> by (unfold unwrap; rewrite mget_mini, Hn; done).
  assert (0 < m < 2 ^ 53) as Hm53.
  { split; [done|]. change (Find (JObject o) "matchid") with (find_member "matchid" o) in Hm. cbn in Hsm. rewrite all_members_forall in Hsm.
    pose proof (find_member_Forall (fun v => small v = true) _ _ _ Hsm Hm) as Hb. cbn in Hb. apply bool_decide_eq_true in Hb. apply Hb. }
  assert (forall root, read_matchid root (mini (JObject o)) = Some m) as Hmid.
  { intros root. unfold read_matchid. rewrite mget_mini, Hm. cbn [fmap option_fmap option_map mini mAsInt]. unfold cast_int64. rewrite dtrunc_of_int by lia.
    cbn [mbind option_bind]. replace (_ && _) with true by (symmetry; apply andb_true_intro; split; apply Z.leb_le; lia).
    cbn [fmap option_fmap option_map mbind option_bind]. rewrite Z.mod_small by lia. by replace (m =? 0) with false by (symmetry; apply Z.eqb_neq; lia). }
  rewrite !Hmid. cbn [mbind option_bind]. replace (m =? 0) with false by (symmetry; apply Z.eqb_neq; lia).
  apply build_context_wrapped; [apply Parse_Dump; [done|lia]|apply Parse_Dump; [done|]|done|by apply String.eqb_neq].
  cbn [depth wrapper max_members snd] in *. lia.
Qed.

Definition sample_object : list (string * Json) :=
  [("matchid", JInt 42); ("maplist", JArray [JString "de_nuke"]); ("ruleset", JString "valve");
   ("team1", JObject [("name", JString "A"); ("players", JObject [("76561197960265729", JString "ann")])])].

Lemma config_wrapper_witness :
  ParseWebhookMatchContextFromJson RDefault (Dump (wrapper "final" (JObject sample_object))) =
    on_ok (set_slug "final") <$> ParseWebhookMatchContextFromJson RDefault (Dump (JObject sample_object)).
Proof. apply (config_wrapper RDefault "final" sample_object 42); [reflexivity|reflexivity|cbn; lia|reflexivity|lia|reflexivity|done]. Defined.

(** ** Where the two readers differ *)

(** A tab inside a name, or a number such as [1e], is fine for the first reader and a syntax error for the
    second, which is then skipped: the config loads although its ruleset is not one, and a wingman match loads on a server whose
    ruleset is the 5v5 one. *)
Definition loads (server : Ruleset_) (json : string) : option string :=
  match ParseWebhookMatchContextFromJson server json with Some (inl c) => Some (c_ruleset c) | _ => None end.

Example ruleset_skipped :
  loads RDefault (qs "{`matchid`:1,`ruleset`:`nope`,`team1`:{`name`:`A" +s+ str1 tab +s+ qs "B`}}") = Some EmptyString /\
  loads RDefault (qs "{`matchid`:1,`ruleset`:`nope`}") = None /\ loads RDefault (qs "{`matchid`:1e,`ruleset`:`nope`}") = Some EmptyString /\
  loads RValve (qs "{`matchid`:1,`wingman`:true}") = Some "default" /\ loads RValve (qs "{`matchid`:1e,`wingman`:true}") = Some EmptyString.
Proof. vm_compute. done. Qed.

(** A SteamID64 written as a number is rounded to what a double holds: another account. *)
Example admin_rounded :
  match ParseWebhookMatchContextFromJson RDefault (qs "{`matchid`:1,`admins`:[76561197960265729]}") with
  | Some (inl c) => Some (elements (c_admins c)) | _ => None end = Some [76561197960265728].
Proof. vm_compute. reflexivity. Qed.
