(* ===== verification/Scenario.v ===== *)
(** * Practice scenarios: parsing, replay times, the timeline

    [src/plugins/practice/scenario.h] and [.cpp], the engine-free part of the practice plugin's recorded rounds: the
    reader and checks of a scenario file, positions between samples, the start of a replay, the choice of players, and
    the timeline.  A [float] is IEEE binary32 ([f32]); the JSON reader is [MiniJson], whose error offset is not part of
    the model. *)

From S2P Require Import Prelude CStr Double Json FleetJson MiniJson Numerics.

Module Scn.

(** ** Errors

    A function that fails returns its message on the left. *)
Definition bind {A B} (m : string + A) (k : A -> string + B) : string + B := match m with inl e => inl e | inr a => k a end.
Notation "'let*' p ':=' m 'in' k" := (bind m (fun p => k)) (at level 10, p pattern, k at level 200).
Definition require (b : bool) (e : string) : string + unit := if b then inr tt else inl e.

(** ** Angles *)

(** [std::fmod(x, 360.f)], exact. *)
Definition fmod360 (x : double) : double :=
  match x with
  | S754_finite s _ _ =>
      match exact x with
      | Some (n, k) => binary_normalize 24 128 (Z.rem n (360 * 2 ^ k)) (- k) s
      | None => x
      end
  | S754_infinity _ => S754_nan
  | _ => x
  end.

(** ** Data *)

Definition kMaxPlayers : Z := 10.

Record V3 := { vx : double; vy : double; vz : double }.
Record Pose := { pos : V3; yaw : double; pitch : double }.
Definition v0 : V3 := {| vx := of_int 0; vy := of_int 0; vz := of_int 0 |}.

Record State := {
  st_t : Z;
  hp : Z;
  armor : Z;
  helmet : bool;
  defuser : bool;
  money : Z;
  items : list string;
}.

(** One sample of [track]: x y z yaw pitch. *)
Definition Sample : Type := double * double * double * double * double.

Record Player := {
  name : string;
  steamid : string;
  team : Z;
  aliveUntil : Z;
  track : list Sample;
  states : list State;
}.

Inductive GrenadeType := kSmoke | kFlash | kHe | kMolotov | kIncendiary | kDecoy.
#[export] Instance GrenadeType_eq_dec : EqDecision GrenadeType.
Proof. solve_decision. Defined.

Record Grenade := { g_t : Z; g_player : Z; g_type : GrenadeType; g_pos : V3; g_vel : V3; g_land : V3; landT : Z }.
Record Death := { d_t : Z; d_player : Z; killer : Z; d_weapon : string }.
Record BombEvent := { b_t : Z; event : string; b_player : Z; hasPos : bool; b_pos : V3 }.
Record Source := { src_event : string; src_match : string; teamT : string; teamCT : string; url : string; demo : string; note : string }.
Definition no_source : Source :=
  {| src_event := EmptyString; src_match := EmptyString; teamT := EmptyString; teamCT := EmptyString; url := EmptyString; demo := EmptyString; note := EmptyString |}.

Record Scenario := {
  id : string;
  title : string;
  map_name : string;
  tickrate : Z;
  sampleTicks : Z;
  round : Z;
  freezeEndTick : Z;
  length_ : Z;
  defaultStart : Z;
  winner : string;
  reason : string;
  source : Source;
  players : list Player;
  grenades : list Grenade;
  deaths : list Death;
  bomb : list BombEvent;
}.

(** ** Reading members *)

Definition Str (o : mval) (k : string) : string := match mget o k with Some (MString s) => s | _ => EmptyString end.
Definition Num (o : mval) (k : string) : option double :=
  match mget o k with Some (MNumber d) => if isfinite d then Some d else None | _ => None end.
Definition dabs (d : double) : double := SFabs d.
(** [static_cast<int>] of a number below 2e9. *)
Definition Int (o : mval) (k : string) (dflt : Z) : Z :=
  match Num o k with
  | Some d => if dabs d <d of_int 2000000000 then default dflt (dtrunc d) else dflt
  | None => dflt
  end.
Definition Bool (o : mval) (k : string) : bool :=
  match mget o k with Some (MBool b) => b | Some (MNumber d) => negb (d =d of_int 0) | _ => false end.
Definition Arr (o : mval) (k : string) : option (list mval) := match mget o k with Some (MArray l) => Some l | _ => None end.

(** A finite number below 65536, as a float. *)
Definition coord (v : mval) : option double :=
  match v with MNumber d => if isfinite d && (dabs d <d of_int 65536) then Some (f32 d) else None | _ => None end.
Definition Vec (o : mval) (k : string) : option V3 :=
  match Arr o k with
  | Some [a; b; c] => x ← coord a; y ← coord b; z ← coord c; Some {| vx := x; vy := y; vz := z |}
  | _ => None
  end.

Definition ParseType (s : string) : option GrenadeType :=
  if s =s "smoke" then Some kSmoke else if s =s "flash" then Some kFlash else if s =s "hegrenade" then Some kHe
  else if s =s "molotov" then Some kMolotov else if s =s "incgrenade" then Some kIncendiary
  else if s =s "decoy" then Some kDecoy else None.

(** [IsValidId]. *)
Definition id_char (c : ascii) : bool := islower c || isdigit c || Ascii.eqb c "_"%char || Ascii.eqb c "-"%char.
Definition IsValidId (i : string) : bool := negb (sempty i) && (slen i <=? 64) && sforall id_char i.

(** ** The reader *)

Definition is_obj (v : mval) : bool := match v with MObject _ => true | _ => false end.

Definition parse_source (r : mval) : Source :=
  match mget r "source" with
  | Some s =>
      if is_obj s then
        let t := match mget s "teams" with Some t => if is_obj t then t else MNull | None => MNull end in
        {| src_event := Str s "event"; src_match := Str s "match"; teamT := Str t "T"; teamCT := Str t "CT"; url := Str s "url"; demo := Str s "demo"; note := Str s "note" |}
      else no_source
  | None => no_source
  end.

(** The track, in groups of five numbers. *)
Fixpoint parse_track (at_ : string) (l : list mval) : string + list Sample :=
  match l with
  | x :: y :: z :: w :: p :: r =>
      match coord x, coord y, coord z, coord w, coord p with
      | Some x, Some y, Some z, Some w, Some p => let* rest := parse_track at_ r in inr ((x, y, z, w, p) :: rest)
      | _, _, _, _, _ => inl (at_ +s+ "track value out of range")
      end
  | _ => inr []
  end.

Definition item_ok (v : mval) : option string :=
  match v with MString s => if starts_with "weapon_" s && (slen s <? 48) then Some s else None | _ => None end.

Definition parse_state (at_ : string) (last : option Z) (sv : mval) : string + State :=
  let* _ := require (is_obj sv) (at_ +s+ "state entry not an object") in
  let t := Int sv "t" (-1) in
  let* _ := require (negb ((t <? 0) || match last with Some u => t <? u | None => false end)) (at_ +s+ "state t must ascend") in
  inr {| st_t := t; hp := clamp (Int sv "hp" 100) 1 100; armor := clamp (Int sv "armor" 0) 0 100; helmet := Bool sv "helmet";
         defuser := Bool sv "defuser"; money := clamp (Int sv "money" 0) 0 1000000;
         items := omap item_ok (default [] (Arr sv "items")) |}.

Fixpoint parse_states (at_ : string) (last : option Z) (l : list mval) : string + list State :=
  match l with
  | [] => inr []
  | sv :: r => let* s := parse_state at_ last sv in let* rest := parse_states at_ (Some (st_t s)) r in inr (s :: rest)
  end.

Definition parse_player (i : nat) (pv : mval) : string + Player :=
  let at_ := "player " +s+ to_string (Z.of_nat i + 1) +s+ ": " in
  let* _ := require (is_obj pv) (at_ +s+ "not an object") in
  let tm := if Str pv "team" =s "T" then 2 else if Str pv "team" =s "CT" then 3 else 0 in
  let* _ := require (negb (tm =? 0)) (at_ +s+ "team must be T or CT") in
  let tr := default [] (Arr pv "track") in
  let* _ := require ((5 <=? zlen tr) && (zlen tr mod 5 =? 0)) (at_ +s+ "track must be groups of 5 numbers") in
  let* samples := parse_track at_ tr in
  let st := default [] (Arr pv "state") in
  let* _ := require (negb (bool_decide (st = []))) (at_ +s+ "state missing") in
  let* ss := parse_states at_ None st in
  let* _ := require (match ss with s :: _ => st_t s =? 0 | [] => false end) (at_ +s+ "state must start at t=0") in
  inr {| name := Str pv "name"; steamid := Str pv "steamid"; team := tm; aliveUntil := Int pv "alive_until" (-1); track := samples; states := ss |}.

Fixpoint parse_players (i : nat) (l : list mval) : string + list Player :=
  match l with [] => inr [] | pv :: r => let* p := parse_player i pv in let* rest := parse_players (S i) r in inr (p :: rest) end.

Definition parse_grenade (np : Z) (gv : mval) : string + Grenade :=
  let t := Int gv "t" (-1) in
  let p := Int gv "player" (-1) in
  match ParseType (Str gv "type") with
  | None => inl (qs "grenade type `" +s+ Str gv "type" +s+ qs "`")
  | Some ty =>
      let* _ := require (negb ((p <? 0) || (np <=? p))) "grenade player index out of range" in
      match Vec gv "pos", Vec gv "vel", Vec gv "land" with
      | Some a, Some b, Some c =>
          let* _ := require (0 <=? t) "grenade t < 0" in
          inr {| g_t := t; g_player := p; g_type := ty; g_pos := a; g_vel := b; g_land := c; landT := Int gv "land_t" t |}
      | _, _, _ => inl "grenade pos / vel / land need 3 numbers"
      end
  end.

Definition parse_death (np : Z) (dv : mval) : string + Death :=
  let t := Int dv "t" (-1) in
  let p := Int dv "player" (-1) in
  let k := Int dv "killer" (-1) in
  let* _ := require (negb ((p <? 0) || (np <=? p) || (t <? 0))) "death player index / t out of range" in
  inr {| d_t := t; d_player := p; killer := if np <=? k then -1 else k; d_weapon := Str dv "weapon" |}.

(** A bomb event without a time or a name is skipped. *)
Definition parse_bomb (np : Z) (bv : mval) : option BombEvent :=
  let t := Int bv "t" (-1) in
  let p := Int bv "player" (-1) in
  if (t <? 0) || sempty (Str bv "event") then None
  else Some {| b_t := t; event := Str bv "event"; b_player := if np <=? p then -1 else p;
               hasPos := match Vec bv "pos" with Some _ => true | None => false end; b_pos := default v0 (Vec bv "pos") |}.

(** The list of results, or the first error. *)
Fixpoint all_ok {A B} (f : A -> string + B) (l : list A) : string + list B :=
  match l with [] => inr [] | x :: r => let* y := f x in let* ys := all_ok f r in inr (y :: ys) end.

Definition by_t {A} (t : A -> Z) (a b : A) : bool := t a <? t b.

(** [Parse] of a document. *)
Definition parse_root (r : mval) : string + Scenario :=
  let* _ := require (is_obj r) "not a JSON object" in
  let* _ := require (Str r "format" =s "readyup.scenario") (qs "format is not `readyup.scenario`") in
  let* _ := require (Int r "version" (-1) =? 1) ("version " +s+ to_string (Int r "version" (-1)) +s+ " (this build reads 1)") in
  let* _ := require (IsValidId (Str r "id")) "id must be 1-64 chars of [a-z0-9_-]" in
  let* _ := require (negb (sempty (Str r "map"))) "map missing" in
  let rate := Int r "tickrate" 0 in
  let* _ := require (negb ((rate <? 16) || (256 <? rate))) "tickrate must be 16..256" in
  let every := Int r "sample_ticks" 0 in
  let* _ := require (negb ((every <? 1) || (64 <? every))) "sample_ticks must be 1..64" in
  let len := Int r "length" 0 in
  let* _ := require (0 <? len) "length must be > 0" in
  let pl := default [] (Arr r "players") in
  let* _ := require (negb (bool_decide (pl = [])) && (zlen pl <=? kMaxPlayers)) "players: 1..10 entries" in
  let* ps := parse_players 0 pl in
  let np := zlen ps in
  let* gs := all_ok (parse_grenade np) (default [] (Arr r "grenades")) in
  let* ds := all_ok (parse_death np) (default [] (Arr r "deaths")) in
  let bs := omap (parse_bomb np) (default [] (Arr r "bomb")) in
  inr {| id := Str r "id"; title := Str r "title"; map_name := Str r "map"; tickrate := rate; sampleTicks := every;
         round := Int r "round" 0; freezeEndTick := Int r "freeze_end_tick" 0; length_ := len;
         defaultStart := clamp (Int r "default_start" 0) 0 (len - 1); winner := Str r "winner"; reason := Str r "reason";
         source := parse_source r; players := ps; grenades := stable_sort (by_t g_t) gs;
         deaths := stable_sort (by_t d_t) ds; bomb := stable_sort (by_t b_t) bs |}.

Definition Parse (json : string) : string + Scenario :=
  match mini_Parse json with
  | MiniOk r => parse_root r
  | MiniError m => inl ("not JSON (" +s+ m +s+ ")")
  | MiniFuel => inl EmptyString
  end.

(** ** Positions *)

Definition AliveAt (p : Player) (t : Z) : bool := (aliveUntil p <? 0) || (t <? aliveUntil p).

Definition f180 : double := f32_int 180.
Definition LerpAngle (a b w : double) : double :=
  let d := fmod360 (fsub b a) in
  let d := if f180 <d d then fsub d (f32_int 360) else d in
  let d := if d <d f32_int (-180) then fadd d (f32_int 360) else d in
  fadd a (fmul d w).
Definition lerp (a b w : double) : double := fadd a (fmul (fsub b a) w).

Definition PoseAt (p : Player) (t : double) (every : Z) : option Pose :=
  let n := zlen (track p) in
  if (n =? 0) || (t <d of_int 0) || (every <=? 0) then None
  else if negb (AliveAt p (default 0 (dtrunc t))) then None
  else
    let f := ddiv t (of_int every) in
    if of_int (n - 1) <d f then None
    else
      let k := Z.min (default 0 (dtrunc f)) (n - 1) in
      let k2 := Z.min (k + 1) (n - 1) in
      let w := f32 (dsub f (of_int k)) in
      match track p !! Z.to_nat k, track p !! Z.to_nat k2 with
      | Some (ax, ay, az, aw, ap), Some (bx, by_, bz, bw, bp) =>
          Some {| pos := {| vx := lerp ax bx w; vy := lerp ay by_ w; vz := lerp az bz w |}; yaw := LerpAngle aw bw w; pitch := lerp ap bp w |}
      | _, _ => None
      end.

(** The last state whose successor has not begun. *)
Fixpoint StateAt (ss : list State) (t : Z) : option State :=
  match ss with
  | s :: ((s2 :: _) as r) => if st_t s2 <=? t then StateAt r t else Some s
  | [s] => Some s
  | [] => None
  end.

(** ** Names and times *)

Definition GrenadeName (t : GrenadeType) : string :=
  match t with kSmoke => "smoke" | kFlash => "flash" | kHe => "HE" | kMolotov => "molotov" | kIncendiary => "incendiary" | kDecoy => "decoy" end.
Definition GrenadeDefIndex (t : GrenadeType) : Z :=
  match t with kFlash => 43 | kHe => 44 | kSmoke => 45 | kMolotov => 46 | kDecoy => 47 | kIncendiary => 48 end.

(** The 16-byte buffer of [Clock]. *)
Definition Clock (ticks rate : Z) : string :=
  let s := if 0 <? rate then Z.max 0 ticks / rate else 0 in
  stake 15 (to_string (s / 60) +s+ ":" +s+ pad0 2 (s mod 60)).

Definition digits (x : string) : bool := negb (sempty x) && sforall isdigit x.
Definition first_is (c : ascii) (s : string) : bool := match s with String d _ => Ascii.eqb d c | EmptyString => false end.
Fixpoint last_is (c : ascii) (s : string) : bool :=
  match s with EmptyString => false | String d EmptyString => Ascii.eqb d c | String _ r => last_is c r end.
Definition but_last (s : string) : string := stake (String.length s - 1) s.
Definition to_nat_text (d : string) : Z := match scan_int d with Some (v, _) => v | None => 0 end.

Definition bad_time (text : string) : string := qs "bad time `" +s+ text +s+ qs "` (1:05)".

(** [strtod] to the end of the text. *)
Definition whole_double (s : string) : option double :=
  match scan_double s with Some (v, EmptyString) => Some v | Some _ => None | None => if sempty s then Some (of_int 0) else None end.

(** The seconds of ["25"], ["25s"] or ["1:05"]. *)
Definition start_seconds (text s : string) : string + double :=
  let s := if last_is "s" s then but_last s else s in
  match find ":" s with
  | Some colon =>
      let m := stake colon s in
      let rest := sdrop (S colon) s in
      if negb (digits m) || (4 <? slen m) || sempty rest then inl (bad_time text)
      else
        match whole_double rest with
        | Some sec =>
            if (sec <d of_int 0) || (of_int 60 <=d sec) then inl (bad_time text)
            else inr (dadd (of_int (to_nat_text m * 60)) sec)
        | None => inl (bad_time text)
        end
  | None =>
      if sempty s then inl "empty start"
      else
        match whole_double s with
        | Some secs =>
            if negb (isfinite secs) || (secs <d of_int 0)
            then inl (qs "bad start `" +s+ text +s+ qs "` (seconds like 25 / 1:05, or a demo tick like t12345)")
            else inr secs
        | None => inl (qs "bad start `" +s+ text +s+ qs "` (seconds like 25 / 1:05, or a demo tick like t12345)")
        end
  end.

(** [ParseStart]: the tick after freeze end.  [lround] of a number without a [long] value gives its error value, a
    negative number. *)
Definition start_tick (text : string) (sc : Scenario) : string + Z :=
  let s := lower text in
  if (1 <? slen s) && (first_is "t" s || last_is "t" s) then
    let d := if first_is "t" s then sdrop 1 s else but_last s in
    if negb (digits d) || (9 <? slen d) then inl (qs "bad tick `" +s+ text +s+ qs "` (t12345)")
    else inr (to_nat_text d - freezeEndTick sc)
  else
    let* secs := start_seconds text s in
    inr (match dround (dmul secs (of_int (tickrate sc))) with
         | Some z => if bool_decide (int64_ok z) then z else -9223372036854775808
         | None => -9223372036854775808
         end).

Definition ParseStart (text : string) (sc : Scenario) : string + Z :=
  let* t := start_tick text sc in
  let* _ := require (negb ((t <? 0) || (length_ sc <=? t)))
    ("start " +s+ text +s+ " is outside the recording (0:00-" +s+ Clock (length_ sc) (tickrate sc) +s+ ")") in
  inr t.

(** ** Players *)

Definition team_mark (p : Player) : string := if team p =? 2 then " (T)" else " (CT)".
Fixpoint list_players (i : Z) (ps : list Player) : string :=
  match ps with
  | [] => EmptyString
  | p :: r => (if i =? 0 then EmptyString else ", ") +s+ to_string (i + 1) +s+ " " +s+ name p +s+ team_mark p +s+ list_players (i + 1) r
  end.
Definition PlayerList (sc : Scenario) : string := list_players 0 (players sc).

(** The names with commas between them; nothing before the first that is not empty. *)
Definition joined (l : list string) : string := foldl (fun acc x => acc +s+ (if sempty acc then EmptyString else ", ") +s+ x) EmptyString l.

(** The players whose lower-cased name satisfies a test, with their positions. *)
Definition hits (test : string -> bool) (sc : Scenario) : list (nat * Player) :=
  filter (fun ip => test (lower (name ip.2)) = true) (imap pair (players sc)).

Definition name_pass (q query : string) (sc : Scenario) (test : string -> bool) (next : string + Z) : string + Z :=
  match hits test sc with
  | [] => next
  | [(i, _)] => inr (Z.of_nat i)
  | hs => inl (qs "`" +s+ query +s+ qs "` matches " +s+ joined (map (fun ip => name ip.2) hs))
  end.

(** [FindPlayer]; [-1] is an error. *)
Definition FindPlayer (sc : Scenario) (query : string) : string + Z :=
  let q := lower query in
  let n := zlen (players sc) in
  if digits q && (slen q <=? 2) then
    let i := c_atoi q in
    if (1 <=? i) && (i <=? n) then inr (i - 1) else inl ("player number 1-" +s+ to_string n)
  else
    match list_find (fun p => steamid p <> EmptyString /\ steamid p = query) (players sc) with
    | Some (i, _) => inr (Z.of_nat i)
    | None =>
        name_pass q query sc (fun nm => nm =s q)
          (name_pass q query sc (fun nm => starts_with q nm)
            (name_pass q query sc (fun nm => contains q nm)
              (inl (qs "no player `" +s+ query +s+ qs "` (" +s+ PlayerList sc +s+ ")"))))
    end.

Definition DefaultPlayer (sc : Scenario) (tm startT : Z) : Z :=
  match list_find (fun p => team p = tm /\ AliveAt p startT = true) (players sc) with
  | Some (i, _) => Z.of_nat i
  | None => match list_find (fun p => AliveAt p startT = true) (players sc) with Some (i, _) => Z.of_nat i | None => -1 end
  end.

(** The bots of the T side and of the other side. *)
Definition bot_here (human startT : Z) (ip : nat * Player) : bool := negb (Z.of_nat ip.1 =? human) && AliveAt ip.2 startT.
Definition BotCounts (sc : Scenario) (human startT : Z) : Z * Z :=
  let here := filter (fun ip => bot_here human startT ip = true) (imap pair (players sc)) in
  (zlen (filter (fun ip => team ip.2 = 2) here), zlen (filter (fun ip => team ip.2 <> 2) here)).

(** ** The timeline *)

Inductive Due := kGrenade (index : nat) | kDeath (index : nat) | kBomb (index : nat).

(** The entries of one list that fall in the interval, with their times. *)
Definition due_of {A} (t : A -> Z) (mk : nat -> Due) (prevT nowT : Z) (l : list A) : list (Z * Due) :=
  filter (fun e => prevT < e.1 <= nowT) (imap (fun i x => (t x, mk i)) l).

Definition due_entries (sc : Scenario) (prevT nowT : Z) : list (Z * Due) :=
  due_of g_t kGrenade prevT nowT (grenades sc) ++ due_of d_t kDeath prevT nowT (deaths sc) ++ due_of b_t kBomb prevT nowT (bomb sc).

Definition DueBetween (sc : Scenario) (prevT nowT : Z) : list Due := snd <$> stable_sort (by_t fst) (due_entries sc prevT nowT).

(** ** Texts *)

Definition or_mark (s : string) : string := if sempty s then "?" else s.

Definition Summary (sc : Scenario) : string :=
  map_name sc +s+ " r" +s+ to_string (round sc) +s+
  (if negb (sempty (teamT (source sc))) || negb (sempty (teamCT (source sc)))
   then " - " +s+ or_mark (teamT (source sc)) +s+ " (T) vs " +s+ or_mark (teamCT (source sc)) +s+ " (CT)" else EmptyString) +s+
  " - " +s+ Clock (length_ sc) (tickrate sc) +s+ (if sempty (winner sc) then EmptyString else ", " +s+ winner sc +s+ " won").

Fixpoint dashed (l : list string) : string :=
  match l with [] => EmptyString | [x] => x | x :: r => x +s+ " - " +s+ dashed r end.
Definition Attribution (sc : Scenario) : string :=
  let s := dashed (filter (fun x => x <> EmptyString) [src_match (source sc); src_event (source sc); url (source sc)]) in
  if sempty s then "no source given" else s.

(** ** A parsed scenario is well formed *)

Definition ascending {A} (t : A -> Z) (l : list A) : Prop := StronglySorted (fun a b => t a <= t b) l.

Record state_ok (s : State) : Prop := {
  s_time : 0 <= st_t s;
  s_hp : 1 <= hp s <= 100;
  s_armor : 0 <= armor s <= 100;
  s_money : 0 <= money s <= 1000000;
  s_items : Forall (fun i => starts_with "weapon_" i = true) (items s);
}.

Record player_ok (p : Player) : Prop := {
  p_team : team p = 2 \/ team p = 3;
  p_track : track p <> [];
  p_states : Forall state_ok (states p) /\ ascending st_t (states p);
  p_start : exists s r, states p = s :: r /\ st_t s = 0;
}.

Record scenario_ok (sc : Scenario) : Prop := {
  ok_id : IsValidId (id sc) = true;
  ok_rate : 16 <= tickrate sc <= 256;
  ok_sample : 1 <= sampleTicks sc <= 64;
  ok_start : 0 <= defaultStart sc < length_ sc;
  ok_players : 1 <= zlen (players sc) <= kMaxPlayers /\ Forall player_ok (players sc);
  ok_grenades : Forall (fun g => 0 <= g_t g /\ 0 <= g_player g < zlen (players sc)) (grenades sc) /\ ascending g_t (grenades sc);
  ok_deaths : Forall (fun d => 0 <= d_t d /\ 0 <= d_player d < zlen (players sc) /\ killer d < zlen (players sc)) (deaths sc) /\ ascending d_t (deaths sc);
  ok_bomb : Forall (fun b => 0 <= b_t b /\ b_player b < zlen (players sc)) (bomb sc) /\ ascending b_t (bomb sc);
}.

Lemma bind_inr {A B} (m : string + A) (k : A -> string + B) b : bind m k = inr b -> exists a, m = inr a /\ k a = inr b.
Proof. destruct m as [e|a]; [done|]. by exists a. Qed.
Lemma require_inr b e u : require b e = inr u -> b = true.
Proof. by destruct b. Qed.

(** Takes a chain of binds apart. *)
Ltac unbind :=
  repeat match goal with
  | H : bind _ _ = inr _ |- _ => apply bind_inr in H as (? & ? & ?)
  | H : require _ _ = inr _ |- _ => apply require_inr in H
  | H : inr _ = inr _ |- _ => injection H as <-
  end.

Lemma all_ok_Forall {A B} (f : A -> string + B) (P : B -> Prop) l ys :
  (forall x y, f x = inr y -> P y) -> all_ok f l = inr ys -> Forall P ys.
Proof.
  intros Hf. revert ys. induction l as [|x l IH]; intros ys H; cbn in H; [injection H as <-; constructor|].
  unbind. constructor; eauto.
Qed.

Lemma omap_Forall' {A B} (f : A -> option B) (P : B -> Prop) l : (forall x y, f x = Some y -> P y) -> Forall P (omap f l).
Proof. intros Hf. induction l as [|x l IH]; cbn; [constructor|]. destruct (f x) eqn:E; [constructor; eauto|done]. Qed.

Lemma sort_ascending {A} (t : A -> Z) l : ascending t (stable_sort (by_t t) l).
Proof.
  assert (StronglySorted (in_order (by_t t)) (stable_sort (by_t t) l)) as H.
  { apply (stable_sort_sorted _ (fun _ => True)); [| |by apply Forall_true]; unfold by_t; intros; split_bools; apply Z.ltb_ge; lia. }
  unfold ascending. induction H as [|x l' H IH Hx]; constructor; [done|]. eapply Forall_impl; [exact Hx|].
  unfold in_order, by_t. intros y Hy. split_bools. lia.
Qed.

Lemma sort_Forall {A} (t : A -> Z) (P : A -> Prop) l : Forall P l -> Forall P (stable_sort (by_t t) l).
Proof. by rewrite stable_sort_perm. Qed.

Lemma parse_state_ok at_ last sv s : parse_state at_ last sv = inr s ->
  state_ok s /\ match last with Some u => u <= st_t s | None => True end.
Proof.
  unfold parse_state. intros H. unbind. match goal with H : negb _ = true |- _ => apply negb_true_iff, orb_false_elim in H as [Ht Hl] end.
  split_bools. split; [|cbn; destruct last; [split_bools; lia|done]].
  split; cbn; [done|apply clamp_bounds; lia..|]. apply omap_Forall'. intros v i. unfold item_ok.
  destruct v; try done. destruct (starts_with "weapon_" str) eqn:E; cbn; [|done]. destruct (slen str <? 48); by intros [= <-].
Qed.

Lemma parse_states_ok at_ last l ss : parse_states at_ last l = inr ss ->
  Forall state_ok ss /\ ascending st_t ss /\ Forall (fun s => match last with Some u => u <= st_t s | None => True end) ss.
Proof.
  revert last ss. induction l as [|sv l IH]; intros last ss H; cbn in H; [injection H as <-; repeat constructor|].
  unbind. match goal with H : parse_state _ _ _ = inr ?x, H' : parse_states _ _ _ = inr ?y |- _ =>
    apply parse_state_ok in H as [Hs Hl]; destruct (IH _ _ H') as (I1 & I2 & I3); cbn [st_t] in I3 end.
  split; [by constructor|]. split; [by constructor|]. constructor; [done|]. eapply Forall_impl; [exact I3|].
  intros s Hx. destruct last; [cbn in *; lia|done].
Qed.

Lemma parse_player_ok i v p : parse_player i v = inr p -> player_ok p.
Proof.
  unfold parse_player. intros H. unbind.
  match goal with H : parse_states _ _ _ = inr _ |- _ => apply parse_states_ok in H as (S1 & S2 & _) end.
  split; cbn.
  - destruct (Str v "team" =s "T"); [by left|]. destruct (Str v "team" =s "CT"); [by right|done].
  - destruct (default [] (Arr v "track")) as [|m1 [|m2 [|m3 [|m4 [|m5 r]]]]] eqn:E; try done.
    cbn in *. destruct (coord m1), (coord m2), (coord m3), (coord m4), (coord m5); try done. by unbind.
  - done.
  - match goal with H : match ?ss with _ => _ end = true |- _ => destruct ss as [|s r]; [done|]; exists s, r; split; [done|]; by apply Z.eqb_eq end.
Qed.

Lemma parse_players_ok l : forall i ps, parse_players i l = inr ps -> Forall player_ok ps /\ zlen ps = zlen l.
Proof.
  induction l as [|v l IH]; intros i ps H; cbn in H; [injection H as <-; by split; [constructor|]|].
  unbind. match goal with H : parse_player _ _ = inr _, H' : parse_players _ _ = inr _ |- _ =>
    apply parse_player_ok in H; destruct (IH _ _ H') as [I1 I2] end. rewrite !zlen_cons, I2. by split; [constructor|].
Qed.

Lemma parse_grenade_ok np v g : parse_grenade np v = inr g -> 0 <= g_t g /\ 0 <= g_player g < np.
Proof.
  unfold parse_grenade. destruct (ParseType _); [|done]. intros H. unbind. destruct (Vec v "pos"), (Vec v "vel"), (Vec v "land"); try done.
  unbind. cbn. match goal with H : negb _ = true |- _ => apply negb_true_iff, orb_false_elim in H as [H1 H2] end. split_bools. lia.
Qed.

Lemma parse_death_ok np v d : 0 < np -> parse_death np v = inr d -> 0 <= d_t d /\ 0 <= d_player d < np /\ killer d < np.
Proof.
  unfold parse_death. intros Hn H. unbind. match goal with H : negb _ = true |- _ => apply negb_true_iff in H; apply orb_false_elim in H as [H1 H3]; apply orb_false_elim in H1 as [H1 H2] end.
  split_bools. cbn. case_if; split_bools; lia.
Qed.

Lemma parse_bomb_ok np v b : 0 < np -> parse_bomb np v = Some b -> 0 <= b_t b /\ b_player b < np.
Proof.
  unfold parse_bomb. intros Hn. destruct (_ || _) eqn:E; [done|]. apply orb_false_elim in E as [E _]. split_bools.
  intros [= <-]. cbn. case_if; split_bools; lia.
Qed.

(** A scenario the parser accepts is well formed: its id, tick rates and default start are within their limits; it has one to [kMaxPlayers] players, each on a side, with a track and with states in the order of time from tick 0; its grenades, deaths and bomb events belong to its players, at times from 0 on and in order. *)
Theorem parse_valid json sc : Parse json = inr sc -> scenario_ok sc.
Proof.
  unfold Parse. destruct (mini_Parse json) as [r|m|]; try done. unfold parse_root. intros H. unbind.
  match goal with H : parse_players _ _ = inr ?ps |- _ => destruct (parse_players_ok _ _ _ H) as [P1 P2] end.
  repeat match goal with H : negb (_ || _) = true |- _ => apply negb_true_iff, orb_false_elim in H as [? ?] | H : (_ && _) = true |- _ => apply andb_prop in H as [? ?] end.
  split_bools.
  match goal with H : parse_players _ ?pl = inr ?ps |- _ => assert (1 <= zlen ps) as Hn by (rewrite P2; destruct pl as [|? l]; [done|]; rewrite zlen_cons; pose proof (zlen_nonneg l); lia) end.
  split; cbn; try done; try lia.
  - pose proof (clamp_bounds (Int r "default_start" 0) 0 (Int r "length" 0 - 1) ltac:(lia)). lia.
  - split; [|done]. rewrite P2 in *. lia.
  - split; [|apply sort_ascending]. apply sort_Forall. eapply all_ok_Forall; [|done]. intros v g. apply parse_grenade_ok.
  - split; [|apply sort_ascending]. apply sort_Forall. eapply all_ok_Forall; [|done]. intros v d. apply parse_death_ok. lia.
  - split; [|apply sort_ascending]. apply sort_Forall. apply omap_Forall'. intros v b. apply parse_bomb_ok. lia.
Qed.
(** ** Every entry of the timeline is played once

    Whatever ticks the replay stops at, the entries between two ticks are those up to any tick in between, then those
    after it. *)

Lemma insert_low {A} (t : A -> Z) m x a b : t x <= m -> Forall (fun y => m < t y) b ->
  insert_stable (by_t t) x (a ++ b) = insert_stable (by_t t) x a ++ b.
Proof.
  intros Hx Hb. induction a as [|y a IH]; cbn [app insert_stable].
  - destruct Hb as [|y b Hy Hb]; [done|]. cbn [insert_stable]. unfold by_t. destruct (Z.ltb_spec (t y) (t x)); [lia|done].
  - destruct (by_t t y x); [|done]. cbn [app]. by rewrite IH.
Qed.

Lemma insert_high {A} (t : A -> Z) m x a b : m < t x -> Forall (fun y => t y <= m) a ->
  insert_stable (by_t t) x (a ++ b) = a ++ insert_stable (by_t t) x b.
Proof.
  intros Hx Ha. induction Ha as [|y a Hy Ha IH]; cbn [app insert_stable]; [done|]. unfold by_t at 1.
  destruct (Z.ltb_spec (t y) (t x)); [|lia]. by rewrite IH.
Qed.

Lemma sort_split {A} (t : A -> Z) m l :
  stable_sort (by_t t) l = stable_sort (by_t t) (filter (fun x => t x <= m) l) ++ stable_sort (by_t t) (filter (fun x => m < t x) l).
Proof.
  induction l as [|x l IH]; [done|]. rewrite !filter_cons. change (stable_sort (by_t t) (x :: l)) with (insert_stable (by_t t) x (stable_sort (by_t t) l)).
  rewrite IH. destruct (decide (t x <= m)).
  - rewrite decide_False by lia. apply (insert_low t m); [done|]. apply sort_Forall. apply Forall_forall. intros y. by intros [? _]%list_elem_of_filter.
  - rewrite decide_True by lia. apply (insert_high t m); [lia|]. apply sort_Forall. apply Forall_forall. intros y. by intros [? _]%list_elem_of_filter.
Qed.

Lemma due_low {A} (t : A -> Z) mk p m n l : m <= n -> filter (fun e => e.1 <= m) (due_of t mk p n l) = due_of t mk p m l.
Proof. intros H. unfold due_of. rewrite list_filter_filter. apply list_filter_iff. intros e. lia. Qed.
Lemma due_high {A} (t : A -> Z) mk p m n l : p <= m -> filter (fun e => m < e.1) (due_of t mk p n l) = due_of t mk m n l.
Proof. intros H. unfold due_of. rewrite list_filter_filter. apply list_filter_iff. intros e. lia. Qed.

(** Cutting the time between two frames anywhere neither loses, repeats nor reorders an event of a scenario: what is due up to the later time is what is due up to the cut followed by what is due after it. *)
Theorem timeline_split sc prevT midT nowT : prevT <= midT <= nowT ->
  DueBetween sc prevT nowT = DueBetween sc prevT midT ++ DueBetween sc midT nowT.
Proof.
  intros H. unfold DueBetween. rewrite (sort_split fst midT (due_entries sc prevT nowT)), fmap_app. unfold due_entries.
  rewrite !filter_app, !due_low, !due_high by lia. done.
Qed.

(** ** The start of a replay *)

Lemma starts_digit s c r : s = String c r -> sforall isdigit s = true -> isdigit c = true.
Proof. intros ->. cbn. by intros [? _]%andb_prop. Qed.

Lemma lower_digits s : sforall isdigit s = true -> lower s = s.
Proof.
  unfold lower. induction s as [|c s IH]; [done|]. cbn. intros [Hc Hs]%andb_prop. rewrite IH by done. f_equal.
  unfold tolower, isupper, isdigit in *. destruct (Z.leb_spec 65 (code c)); [|done]. split_bools. lia.
Qed.

Lemma slen_pos s : sempty s = false -> 1 <= slen s.
Proof. destruct s; [done|]. unfold slen. cbn. lia. Qed.

(** The number of digits of a number below a billion. *)
Lemma tick_digits n : 0 <= n < 10 ^ 9 -> slen (to_string n) <= 9.
Proof.
  intros Hn. unfold to_string. destruct (Z.ltb_spec n 0); [lia|]. unfold dec_nonneg, slen.
  pose proof (dec_aux_length 9 (S (Z.to_nat (Z.log2 n))) n EmptyString ltac:(lia) Hn). cbn [String.length] in *. lia.
Qed.

(** A start given as a tick of the recorded demo ([t] and the number) is the offset of that tick behind the end of the freeze time. *)
Theorem start_roundtrip sc k : 0 <= k < length_ sc -> 0 <= freezeEndTick sc + k < 10 ^ 9 ->
  ParseStart ("t" +s+ to_string (freezeEndTick sc + k)) sc = inr k.
Proof.
  intros Hk Hn. set (n := freezeEndTick sc + k) in *. destruct (to_string_digits n ltac:(lia)) as (Hd & He & _).
  pose proof (tick_digits n Hn) as Hl. pose proof (slen_pos _ He) as Hp. unfold ParseStart, start_tick.
  assert (lower ("t" +s+ to_string n) = String "t" (to_string n)) as ->.
  { change (lower ("t" +s+ to_string n)) with (String (tolower "t") (lower (to_string n))). by rewrite lower_digits. }
  assert (slen (String "t" (to_string n)) = slen (to_string n) + 1) as -> by (unfold slen; cbn [String.length]; lia).
  destruct (Z.ltb_spec 1 (slen (to_string n) + 1)); [|lia]. cbn [first_is andb orb sdrop]. change (Ascii.eqb "t" "t") with true. cbn [orb].
  unfold digits. rewrite He, Hd. cbn [negb andb orb]. destruct (Z.ltb_spec 9 (slen (to_string n))); [lia|].
  assert (to_nat_text (to_string n) = n) as -> by (unfold to_nat_text; by rewrite <- (app_nil_s (to_string n)), scan_int_to_string).
  cbn [bind]. replace (n - freezeEndTick sc) with k by lia.
  destruct (Z.ltb_spec k 0); [lia|]. destruct (Z.leb_spec (length_ sc) k); [lia|]. done.
Qed.

Lemma start_in_range text sc t : ParseStart text sc = inr t -> 0 <= t < length_ sc.
Proof.
  unfold ParseStart. intros H. unbind. match goal with H : negb _ = true |- _ => apply negb_true_iff, orb_false_elim in H as [? ?] end.
  split_bools. lia.
Qed.

(** ** The player a query names *)

Lemma hits_lookup test sc i p : (i, p) ∈ hits test sc -> players sc !! i = Some p /\ test (lower (name p)) = true.
Proof.
  unfold hits. intros [Ht Hin]%list_elem_of_filter. apply elem_of_lookup_imap in Hin as (j & q & Hj & Hq). cbn in *. by simplify_eq.
Qed.

Lemma name_pass_sound q query sc test next i :
  name_pass q query sc test next = inr i ->
  (exists p, players sc !! Z.to_nat i = Some p /\ 0 <= i /\ test (lower (name p)) = true) \/ next = inr i.
Proof.
  unfold name_pass. destruct (hits test sc) as [|[j p] [|? ?]] eqn:E; [by right| |done]. intros [= <-]. left. exists p.
  rewrite Nat2Z.id. destruct (hits_lookup test sc j p) as [H1 H2]; [rewrite E; by left|]. split_and!; [done|lia|done].
Qed.

(** A player of the scenario that a query stands for: by number, by SteamID, or by a part of the name. *)
Definition named (sc : Scenario) (query : string) (i : Z) : Prop :=
  exists p, players sc !! Z.to_nat i = Some p /\ 0 <= i /\
    ((digits (lower query) = true /\ c_atoi (lower query) = i + 1) \/ steamid p = query \/ contains (lower query) (lower (name p)) = true).

Lemma contains_refl q : contains q q = true.
Proof. unfold contains. destruct q as [|c q]; [done|]. cbn [find]. pose proof (starts_with_refl (String c q) EmptyString) as H. rewrite app_nil_s in H. by rewrite H. Qed.
Lemma contains_prefix q s : starts_with q s = true -> contains q s = true.
Proof. unfold contains. destruct s as [|c s]; cbn [find]; by intros ->. Qed.

(** A query that selects a player of a scenario selects one of its players that the query stands for: by number, by SteamID, or by a part of the name. *)
Theorem FindPlayer_sound sc query i : FindPlayer sc query = inr i -> named sc query i.
Proof.
  unfold FindPlayer, named. destruct (digits (lower query) && (slen (lower query) <=? 2)) eqn:Ed.
  { apply andb_prop in Ed as [Ed _]. destruct ((1 <=? c_atoi (lower query)) && _) eqn:Er; [|done]. intros [= <-]. split_bools.
    assert (Z.to_nat (c_atoi (lower query) - 1) < length (players sc))%nat as Hl by (unfold zlen in *; lia).
    apply lookup_lt_is_Some in Hl as [p Hp]. exists p. split_and!; [done|lia|]. left. split; [done|lia]. }
  destruct (list_find _ _) as [[j p]|] eqn:El.
  { intros [= <-]. apply list_find_Some in El as (Hj & [_ Hs] & _). exists p. rewrite Nat2Z.id. split_and!; [done|lia|]. right; by left. }
  intros H. apply name_pass_sound in H as [(p & H1 & H2 & H3)|H].
  { exists p. split_and!; [done..|]. right; right. apply String.eqb_eq in H3 as ->. apply contains_refl. }
  apply name_pass_sound in H as [(p & H1 & H2 & H3)|H].
  { exists p. split_and!; [done..|]. right; right. by apply contains_prefix. }
  apply name_pass_sound in H as [(p & H1 & H2 & H3)|H]; [|done]. exists p. split_and!; [done..|]. right; by right.
Qed.

(** ** A scenario *)

Definition sample_json : string := qs "{`format`:`readyup.scenario`,`version`:1,`id`:`r6`,`map`:`de_nuke`,`tickrate`:64,`sample_ticks`:4,`length`:640,`freeze_end_tick`:1000,`players`:[{`name`:`apEX`,`team`:`T`,`track`:[0,0,0,350,0,8,0,0,10,0],`state`:[{`t`:0}]},{`name`:`donk`,`steamid`:`76561198386265483`,`team`:`CT`,`alive_until`:5,`track`:[1,1,1,1,1],`state`:[{`t`:0,`hp`:300},{`t`:9,`items`:[`weapon_ak47`,`x`]}]}],`grenades`:[{`t`:9,`player`:1,`type`:`flash`,`pos`:[1,2,3],`vel`:[0,0,0],`land`:[1,1,1]},{`t`:4,`player`:0,`type`:`smoke`,`pos`:[1,2,3],`vel`:[0,0,0],`land`:[1,1,1]}],`deaths`:[{`t`:4,`player`:1,`killer`:0}],`bomb`:[{`t`:8,`event`:`planted`,`player`:7}]}".

Definition sample : Scenario := Eval vm_compute in match Parse sample_json with inr sc => sc | inl _ =>
  {| id := EmptyString; title := EmptyString; map_name := EmptyString; tickrate := 0; sampleTicks := 0; round := 0; freezeEndTick := 0; length_ := 0;
     defaultStart := 0; winner := EmptyString; reason := EmptyString; source := no_source; players := []; grenades := []; deaths := []; bomb := [] |} end.

Lemma parse_valid_witness : Parse sample_json = inr sample /\ scenario_ok sample.
Proof. split; [vm_compute; reflexivity|]. apply (parse_valid sample_json). vm_compute. reflexivity. Defined.

Lemma timeline_split_witness :
  DueBetween sample 0 9 = [kGrenade 0; kDeath 0; kBomb 0; kGrenade 1] /\ DueBetween sample 0 9 = DueBetween sample 0 4 ++ DueBetween sample 4 9.
Proof. split; [vm_compute; reflexivity|]. apply (timeline_split sample 0 4 9). lia. Defined.

Lemma start_roundtrip_witness : ParseStart ("t" +s+ to_string (freezeEndTick sample + 42)) sample = inr 42 /\ ParseStart "0:02" sample = inr 128.
Proof. split; [apply (start_roundtrip sample 42); vm_compute; split; (discriminate || reflexivity)|vm_compute; reflexivity]. Defined.

Lemma FindPlayer_sound_witness : FindPlayer sample "DON" = inr 1 /\ named sample "DON" 1.
Proof. split; [vm_compute; reflexivity|]. apply (FindPlayer_sound sample "DON" 1). vm_compute. reflexivity. Defined.

(** Half way between the samples: the yaw takes the short way round, from 350 to 10 degrees. *)
Example pose_short_way : (fun p => (pos p, yaw p)) <$> (head (players sample) ≫= fun p => PoseAt p (of_int 2) (sampleTicks sample)) =
  Some ({| vx := f32_int 4; vy := f32_int 0; vz := f32_int 0 |}, f32_int 360).
Proof. vm_compute. reflexivity. Qed.
End Scn.
