(* ===== verification/Midas.v ===== *)
(** * Midas: who is golden, and why

    [src/plugins/midas/midas_rules.h] and [.cpp], the rules of the midas plugin without the engine: the configuration
    values, who is Midas, the best player of a map, the file of given Midas players, the lookup of a player by name,
    and the cards.  A [std::set<uint64_t>] is a [gset Z]; iterating over it is in increasing order. *)

From S2P Require Import Prelude CStr Double MiniJson Numerics.

Module Mi.

(** ** Configuration values *)

Record Rgba := { r : Z; g : Z; b : Z; a : Z }.
Definition kGold : Rgba := {| r := 255; g := 200; b := 40; a := 255 |}.
Definition kWhite : Rgba := {| r := 255; g := 255; b := 255; a := 255 |}.

Definition Trim : string -> string := strip isspace.

(** The text cut at the characters of a class ([flush] at each of them and at the end). *)
Fixpoint cut_where (f : ascii -> bool) (cur s : string) : list string :=
  match s with
  | EmptyString => [cur]
  | String c r => if f c then cur :: cut_where f EmptyString r else cut_where f (cur +s+ str1 c) r
  end.

Definition id_sep (c : ascii) : bool := Ascii.eqb c ","%char || Ascii.eqb c ";"%char || isspace c.
Definition steam_text (t : string) : bool := (slen t =? 17) && starts_with "7656119" t && sforall isdigit t.

(** [ParseSteamIds]: the ids, and the number of parts that are none. *)
Definition id_part (acc : gset Z * Z) (t : string) : gset Z * Z :=
  if sempty t then acc else if steam_text t then ({[ strtoull t ]} ∪ acc.1, acc.2) else (acc.1, acc.2 + 1).
Definition ParseSteamIds (text : string) : gset Z * Z := foldl id_part (∅, 0) (cut_where id_sep EmptyString text).

Definition color_part (p : string) : option Z :=
  let p := Trim p in
  if sempty p || (3 <? slen p) || negb (sforall isdigit p) then None
  else let n := c_atoi p in if 255 <? n then None else Some n.

Definition is_comma (c : ascii) : bool := Ascii.eqb c ","%char.

(** [ParseColor]: every part up to a comma, the text ending with one. *)
Definition ParseColor (text : string) : option Rgba :=
  match mapM color_part (cut_where is_comma EmptyString (Trim text)) with
  | Some [x; y; z] => Some {| r := x; g := y; b := z; a := 255 |}
  | Some [x; y; z; w] => Some {| r := x; g := y; b := z; a := w |}
  | _ => None
  end.

Definition one_of (t : string) (l : list string) : bool := existsb (fun x => t =s x) l.
Definition ParseBool (text : string) (dflt : bool) : bool :=
  let t := lower (Trim text) in
  if one_of t ["1"; "true"; "yes"; "on"] then true
  else if one_of t ["0"; "false"; "no"; "off"] then false else dflt.

Definition Active (enabled : bool) (ruleset : string) : bool := enabled && negb (lower (Trim ruleset) =s "valve").

Definition ShouldTint (active : bool) (midas : gset Z) (owner : Z) : bool :=
  active && negb (owner =? 0) && bool_decide (owner ∈ midas).

Definition ParseInt (text : string) (dflt lo hi : Z) : Z :=
  let t := Trim text in
  if sempty t || (10 <? slen t) then dflt
  else match scan_int t with
       | Some (v, EmptyString) => if (v <? lo) || (hi <? v) then dflt else v
       | _ => dflt
       end.

(** [ParseFloat]; the bounds and the default are floats. *)
Definition ParseFloat (text : string) (dflt lo hi : double) : double :=
  let t := Trim text in
  if sempty t || strtod_range t then dflt
  else match scan_double t with
       | Some (v, EmptyString) => if negb (isfinite v) || (v <d lo) || (hi <d v) then dflt else f32 v
       | _ => dflt
       end.

(** ** Finish and StatTrak *)

Inductive Finish := kAuto | kTint.
#[export] Instance Finish_eq_dec : EqDecision Finish.
Proof. solve_decision. Defined.
Definition ParseFinish (text : string) : option Finish :=
  let t := lower (Trim text) in
  if (t =s "auto") || (t =s "paint") then Some kAuto else if t =s "tint" then Some kTint else None.

Definition kNoPaint : list string :=
  ["weapon_c4"; "weapon_hegrenade"; "weapon_flashbang"; "weapon_smokegrenade"; "weapon_molotov"; "weapon_incgrenade"; "weapon_decoy";
   "weapon_tagrenade"; "weapon_healthshot"; "weapon_breachcharge"; "weapon_shield"; "weapon_snowball"].
Definition Paintable (classname : string) : bool :=
  let c := lower classname in starts_with "weapon_" c && negb (one_of c kNoPaint).
Definition StatTrakable (classname : string) : bool := Paintable classname && negb (lower classname =s "weapon_taser").

Definition side (t : Z) : bool := (t =? 2) || (t =? 3).
Definition CountsAsKill (attackerSlot victimSlot attackerTeam victimTeam : Z) : bool :=
  if (attackerSlot <? 0) || (64 <=? attackerSlot) || (attackerSlot =? victimSlot) then false
  else negb (side attackerTeam && side victimTeam) || negb (attackerTeam =? victimTeam).

Definition StatTrakKills (statsLive statsHavePlayer : bool) (statsKills ownKills : Z) : Z :=
  let k := if statsLive && statsHavePlayer then statsKills else ownKills in if k <? 0 then 0 else k.

(** The float with the given 31 bits: sign 0, an 8-bit exponent, a 23-bit fraction. *)
Definition float_of_bits (u : Z) : double :=
  let e := u / 2 ^ 23 in
  let m := u mod 2 ^ 23 in
  if e =? 0 then match m with Zpos p => binary_normalize 24 128 (Zpos p) (-149) false | _ => S754_zero false end
  else if e =? 255 then (if m =? 0 then S754_infinity false else S754_nan)
  else binary_normalize 24 128 (2 ^ 23 + m) (e - 150) false.
Definition KillEaterBits (kills : Z) : double := float_of_bits (if kills <? 0 then 0 else kills).

(** ** The best player *)

Inductive BestStat := kAdr | kKills.
Inductive BestWhen := kRound | kHalf.
Definition ParseBestStat (text : string) : option BestStat :=
  let t := lower (Trim text) in if t =s "adr" then Some kAdr else if t =s "kills" then Some kKills else None.
Definition ParseBestWhen (text : string) : option BestWhen :=
  let t := lower (Trim text) in if t =s "round" then Some kRound else if t =s "half" then Some kHalf else None.

Record PlayerTotals := { steamid64 : Z; kills : Z; deaths : Z; damage : Z; rounds : Z }.

Definition Adr (p : PlayerTotals) : double := if 0 <? rounds p then ddiv (of_int (damage p)) (of_int (rounds p)) else of_int 0.

Definition BestPlayerAllowed (enabled inMatches live scrim : bool) (ruleset : string) : bool :=
  enabled && live && Active true ruleset && (scrim || inMatches).

Definition PickNow (when : BestWhen) (roundsPlayed minRounds half lastPickHalf : Z) : bool :=
  match when with
  | kHalf => (2 <=? half) && negb (half =? lastPickHalf)
  | kRound => Z.max 1 minRounds <=? roundsPlayed
  end.

(** The comparison of ADR, then of kills, or the other way round, and the ties. *)
Definition tie (current : Z) (x y : PlayerTotals) : bool :=
  if negb (deaths x =? deaths y) then deaths x <? deaths y
  else if negb (Bool.eqb (steamid64 x =? current) (steamid64 y =? current)) then steamid64 x =? current
  else steamid64 x <? steamid64 y.
Definition better (stat : BestStat) (current : Z) (x y : PlayerTotals) : bool :=
  match stat with
  | kAdr =>
      if negb (Adr x =d Adr y) then Adr y <d Adr x
      else if negb (kills x =? kills y) then kills y <? kills x else tie current x y
  | kKills =>
      if negb (kills x =? kills y) then kills y <? kills x
      else if negb (Adr x =d Adr y) then Adr y <d Adr x else tie current x y
  end.

Definition eligible (p : PlayerTotals) : bool := negb ((steamid64 p =? 0) || (rounds p <=? 0)).
Definition pick_step (stat : BestStat) (current : Z) (best : option PlayerTotals) (p : PlayerTotals) : option PlayerTotals :=
  if negb (eligible p) then best
  else match best with None => Some p | Some q => if better stat current p q then Some p else best end.
Definition scored (stat : BestStat) (p : PlayerTotals) : bool := match stat with kAdr => 0 <? damage p | kKills => 0 <? kills p end.
Definition PickBest (players : list PlayerTotals) (stat : BestStat) (current : Z) : Z :=
  match foldl (pick_step stat current) None players with
  | None => 0
  | Some p => if scored stat p then steamid64 p else 0
  end.

(** ** Who is Midas *)

Definition PaintOverrideSet (active : bool) (finish : Finish) (midas : gset Z) (best : Z) : gset Z :=
  if negb active || bool_decide (finish <> kAuto) then ∅
  else (if best =? 0 then ∅ else {[ best ]}) ∪ (midas ∖ {[ 0 ]}).

Definition kWhyConfig : Z := 1.
Definition kWhyGiven : Z := 2.
Definition kWhyBest : Z := 4.

Definition MidasReasons (active : bool) (config given : gset Z) (best sid : Z) : Z :=
  if negb active || (sid =? 0) then 0
  else
    let why := 0 in
    let why := if bool_decide (sid ∈ config) then Z.lor why kWhyConfig else why in
    let why := if bool_decide (sid ∈ given) then Z.lor why kWhyGiven else why in
    if best =? sid then Z.lor why kWhyBest else why.

Definition EffectiveMidas (active : bool) (config given : gset Z) (best : Z) : gset Z :=
  if negb active then ∅
  else (((if best =? 0 then ∅ else {[ best ]}) ∪ (config ∪ given)) ∖ {[ 0 ]}).

Definition add_reason (why bit : Z) (text out : string) : string :=
  if Z.land why bit =? 0 then out else (if sempty out then out else out +s+ ", ") +s+ text.
Definition DescribeReasons (why : Z) : string :=
  add_reason why kWhyBest "best player" (add_reason why kWhyGiven "given by an admin" (add_reason why kWhyConfig "midas_steamids" EmptyString)).

(** [ToggleGiven]: the new set, and whether the player was added. *)
Definition ToggleGiven (given : gset Z) (sid : Z) : gset Z * bool :=
  if bool_decide (sid ∈ given) then (given ∖ {[ sid ]}, false) else ({[ sid ]} ∪ given, true).

Definition is_nl (c : ascii) : bool := Ascii.eqb c newline.
Definition given_line (out : gset Z) (line : string) : gset Z :=
  match Trim line with
  | EmptyString => out
  | String c _ as l => if Ascii.eqb c "#"%char then out else (ParseSteamIds l).1 ∪ out
  end.
Definition ParseGivenFile (text : string) : gset Z := foldl given_line ∅ (cut_where is_nl EmptyString text).

(** The ids in increasing order, as a [std::set] visits them. *)
Definition in_order_ids (s : gset Z) : list Z := merge_sort Z.le (elements s).
Definition given_head : string := "# Midas given by admins (.ru midas give <player>): one SteamID64 per line" +s+ str1 newline.
Definition FormatGivenFile (given : gset Z) : string :=
  given_head +s+ foldr (fun sid acc => to_string sid +s+ str1 newline +s+ acc) EmptyString (in_order_ids given).

(** ** The player a name stands for *)

(** One row of the table of [EditDistance]: [row] holds the distances of the previous row from [diag] on. *)
Fixpoint next_row (x : ascii) (b : string) (left diag : nat) (row : list nat) : list nat :=
  match b, row with
  | String y b, up :: row =>
      let d := Nat.min (Nat.min (up + 1) (left + 1)) (diag + (if Ascii.eqb x y then 0 else 1)) in
      d :: next_row x b d up row
  | _, _ => []
  end.
(** The rows of the table, one per character of [a]; [row_zero] is the first column. *)
Fixpoint rows (a b : string) (i : nat) (row : list nat) : list nat :=
  match a with
  | EmptyString => row
  | String x a => rows a b (S i) (S i :: next_row x b (S i) (default O (head row)) (tail row))
  end.
Definition EditDistance (a b : string) : nat := default O (last (rows a b 0 (List.seq 0 (S (String.length b))))).

Definition WordStart (nm : string) (p : nat) : bool :=
  match p with O => true | S k => match String.get k nm with Some c => negb (isalnum c) | None => true end end.

(** The offsets at which a text occurs in a name. *)
Fixpoint occurs (q : string) (nm : string) (p : nat) : list nat :=
  (if starts_with q nm then [p] else []) ++ match nm with EmptyString => [] | String _ r => occurs q r (S p) end.

Record PlayerMatch := { index : Z; ambiguous : list nat }.
Definition no_match : PlayerMatch := {| index := -1; ambiguous := [] |}.

Definition pick (idx : list nat) : PlayerMatch :=
  match idx with [i] => {| index := Z.of_nat i; ambiguous := [] |} | _ => {| index := -1; ambiguous := take 5 idx |} end.

Definition size_at (names : list string) (i : nat) : nat := String.length (default EmptyString (names !! i)).
(** The shortest name wins if no other is that short. *)
Definition shortest (names : list string) (idx : list nat) : list nat :=
  match stable_sort (fun x y => (size_at names x <? size_at names y)%nat) idx with
  | (i :: j :: _) as s => if (size_at names i <? size_at names j)%nat then [i] else s
  | s => s
  end.

Definition indices (test : string -> bool) (names : list string) : list nat :=
  fst <$> filter (fun e => test e.2 = true) (imap pair names).

Definition has_word (q nm : string) : bool := existsb (WordStart nm) (occurs q nm 0).

(** The names at the smallest distance, and the distance. *)
Definition closest_step (q : string) (acc : option nat * list nat) (e : nat * string) : option nat * list nat :=
  let d := EditDistance q e.2 in
  match acc.1 with
  | None => (Some d, [e.1])
  | Some best => if (d <? best)%nat then (Some d, [e.1]) else if (d =? best)%nat then (Some best, acc.2 ++ [e.1]) else acc
  end.

Definition ResolvePlayerName (rawQuery : string) (rawNames : list string) : PlayerMatch :=
  let q := lower (Trim rawQuery) in
  if sempty q || bool_decide (rawNames = []) then no_match
  else
    let names := map (fun n => lower (Trim n)) rawNames in
    let exact := indices (fun n => Trim n =s Trim rawQuery) rawNames in
    if negb (bool_decide (exact = [])) then pick exact
    else
      let same := indices (fun n => n =s q) names in
      if negb (bool_decide (same = [])) then pick same
      else
        let prefix := indices (fun n => starts_with q n) names in
        if negb (bool_decide (prefix = [])) then pick (shortest names prefix)
        else
          let words := if (2 <=? String.length q)%nat then indices (fun n => has_word q n) names else [] in
          let any := if (2 <=? String.length q)%nat then indices (fun n => contains q n) names else [] in
          if negb (bool_decide (words = [])) then pick (shortest names words)
          else if negb (bool_decide (any = [])) then pick (shortest names any)
          else
            match foldl (closest_step q) (None, []) (imap pair names) with
            | (Some best, idx) => if (best <=? Nat.max 1 (String.length q / 3))%nat then pick idx else no_match
            | (None, _) => no_match
            end.

(** ** Equipment and cards *)

Definition EquipmentItemFor (entityClass : string) (incendiary : bool) : Z * string :=
  let c := lower entityClass in
  if c =s "hegrenade_projectile" then (44, "weapon_hegrenade")
  else if c =s "flashbang_projectile" then (43, "weapon_flashbang")
  else if c =s "smokegrenade_projectile" then (45, "weapon_smokegrenade")
  else if c =s "decoy_projectile" then (47, "weapon_decoy")
  else if c =s "molotov_projectile" then (if incendiary then (48, "weapon_incgrenade") else (46, "weapon_molotov"))
  else if c =s "planted_c4" then (49, "weapon_c4") else (0, EmptyString).

Record CardTexts := { title : string; best_text : string; given_text : string; config_text : string; lost : string; passed : string }.

Definition card_char (c : ascii) : bool :=
  negb (Ascii.eqb c "<"%char || Ascii.eqb c ">"%char || (code c <? 32) || (code c =? 127)).
Definition continuation (c : ascii) : bool := Z.land (code c) 0xC0 =? 0x80.
(** [while (cut > 0 && out[cut] is a continuation byte) --cut]. *)
Fixpoint utf8_cut (out : string) (cut : nat) : nat :=
  match cut with
  | O => O
  | S k => match String.get cut out with Some c => if continuation c then utf8_cut out k else cut | None => cut end
  end.
Definition CardName (nm : string) : string :=
  let out := sfilter card_char nm in
  if 32 <? slen out then stake (utf8_cut out 32) out else out.

(** [FillCard]: one left-to-right pass; every step consumes a character. *)
Fixpoint fill (fuel : nat) (text stat value nm : string) : string :=
  match fuel with
  | O => EmptyString
  | S f =>
      match text with
      | EmptyString => EmptyString
      | String c rest =>
          if starts_with "{stat}" text then stat +s+ fill f (sdrop 6 text) stat value nm
          else if starts_with "{value}" text then value +s+ fill f (sdrop 7 text) stat value nm
          else if starts_with "{name}" text then nm +s+ fill f (sdrop 6 text) stat value nm
          else String c (fill f rest stat value nm)
      end
  end.
Definition FillCard (text stat value nm : string) : string := fill (String.length text) text stat value nm.

Definition Card (hd headColor line : string) : string :=
  "<font class='fontSize-l' color='" +s+ headColor +s+ "'><b>" +s+ hd +s+ "</b></font>" +s+
  (if sempty line then EmptyString else "<br><font class='fontSize-m' color='#FFFFFF'>" +s+ line +s+ "</font>").
Definition GainCardHtml (t : CardTexts) (why : Z) (stat value : string) : string :=
  let line := if negb (Z.land why kWhyBest =? 0) then best_text t
              else if negb (Z.land why kWhyGiven =? 0) then given_text t else config_text t in
  Card (title t) "#FFD700" (FillCard line stat value EmptyString).
Definition LostCardHtml (t : CardTexts) (passedTo : string) : string :=
  let nm := CardName passedTo in
  Card (FillCard (lost t) EmptyString EmptyString nm) "#C9B458"
    (if sempty nm then EmptyString else FillCard (passed t) EmptyString EmptyString nm).

(** ** The edit distance is the smallest number of edits *)

Definition snoc (s : string) (x : ascii) : string := s +s+ str1 x.
Definition cost (x y : ascii) : nat := if Ascii.eqb x y then 0 else 1.

(** [n] edits turn one text into the other, reading both from left to right: the next character of both is kept or
    replaced, one of the first is removed, or one of the second is added. *)
Inductive script : string -> string -> nat -> Prop :=
| script_nil : script EmptyString EmptyString 0
| script_step x y s t n : script s t n -> script (snoc s x) (snoc t y) (n + cost x y)
| script_remove x s t n : script s t n -> script (snoc s x) t (n + 1)
| script_add y s t n : script s t n -> script s (snoc t y) (n + 1).

(** The smallest number of edits. *)
Definition dist (s t : string) (n : nat) : Prop := script s t n /\ forall m, script s t m -> (n <= m)%nat.

Lemma snoc_inj s t x y : snoc s x = snoc t y -> s = t /\ x = y.
Proof.
  unfold snoc. revert t. induction s as [|c s IH]; intros [|d t] H; cbn in H; try (by injection H); injection H as H1 H2.
  - by destruct t.
  - by destruct s.
  - destruct (IH _ H2) as [-> ->]. by subst.
Qed.
Lemma snoc_length s x : String.length (snoc s x) = S (String.length s).
Proof. unfold snoc. rewrite length_app_s. cbn. lia. Qed.
Lemma snoc_nil s x : snoc s x <> EmptyString.
Proof. by destruct s. Qed.

(** A script costs at least the difference of the lengths. *)
Lemma script_lengths s t n : script s t n -> (String.length s <= String.length t + n)%nat /\ (String.length t <= String.length s + n)%nat.
Proof. induction 1; rewrite ?snoc_length; lia. Qed.

Lemma script_all_r t : script EmptyString t (String.length t).
Proof.
  assert (forall u, script EmptyString u (String.length u) -> script EmptyString (u +s+ t) (String.length u + String.length t)) as H.
  { induction t as [|c t IH]; intros u Hu; [rewrite app_nil_s, Nat.add_0_r; done|].
    replace (u +s+ String c t) with (snoc u c +s+ t) by (unfold snoc; by rewrite app_assoc_s).
    replace (String.length u + String.length (String c t))%nat with (String.length (snoc u c) + String.length t)%nat by (rewrite snoc_length; cbn; lia).
    apply IH. rewrite snoc_length. replace (S (String.length u)) with (String.length u + 1)%nat by lia. by constructor. }
  apply (H EmptyString). constructor.
Qed.

Lemma script_all_l s : script s EmptyString (String.length s).
Proof.
  assert (forall u, script u EmptyString (String.length u) -> script (u +s+ s) EmptyString (String.length u + String.length s)) as H.
  { induction s as [|c s IH]; intros u Hu; [rewrite app_nil_s, Nat.add_0_r; done|].
    replace (u +s+ String c s) with (snoc u c +s+ s) by (unfold snoc; by rewrite app_assoc_s).
    replace (String.length u + String.length (String c s))%nat with (String.length (snoc u c) + String.length s)%nat by (rewrite snoc_length; cbn; lia).
    apply IH. rewrite snoc_length. replace (S (String.length u)) with (String.length u + 1)%nat by lia. by constructor. }
  apply (H EmptyString). constructor.
Qed.

Lemma dist_nil_r s x n : dist s EmptyString n -> dist (snoc s x) EmptyString (n + 1).
Proof.
  intros [H1 H2]. split; [by constructor|]. intros m H. apply script_lengths in H. rewrite snoc_length in H.
  specialize (H2 _ (script_all_l s)). cbn in *. lia.
Qed.
Lemma dist_nil_l t : dist EmptyString t (String.length t).
Proof. split; [apply script_all_r|]. intros m H. apply script_lengths in H. cbn in H. lia. Qed.

Lemma dist_snoc s t x y up left diag :
  dist s (snoc t y) up -> dist (snoc s x) t left -> dist s t diag ->
  dist (snoc s x) (snoc t y) (Nat.min (Nat.min (up + 1) (left + 1)) (diag + cost x y)).
Proof.
  intros [U1 U2] [L1 L2] [D1 D2]. split.
  - destruct (Nat.min_dec (Nat.min (up + 1) (left + 1)) (diag + cost x y)) as [-> | ->]; [|by constructor].
    destruct (Nat.min_dec (up + 1) (left + 1)) as [-> | ->]; by constructor.
  - intros m H. inversion H as [Es Et|x' y' s' t' n H' Es Et|x' s' t' n H' Es Et|y' s' t' n H' Es Et]; subst.
    + by destruct s.
    + apply snoc_inj in Es as [-> ->], Et as [-> ->]. specialize (D2 _ H'). lia.
    + apply snoc_inj in Es as [-> ->]. specialize (U2 _ H'). lia.
    + apply snoc_inj in Et as [-> ->]. specialize (L2 _ H'). lia.
Qed.

(** A row of the table: the distances from [s] to [t], then to [t] with the characters of [b] added one by one. *)
Fixpoint row_ok (s t b : string) (row : list nat) {struct row} : Prop :=
  match row with
  | [] => False
  | n :: row => dist s t n /\ match b with EmptyString => row = [] | String y b => row_ok s (snoc t y) b row end
  end.

Lemma next_row_ok s x b : forall t left diag row,
  row_ok s t b (diag :: row) -> dist (snoc s x) t left -> row_ok (snoc s x) t b (left :: next_row x b left diag row).
Proof.
  induction b as [|y b IH]; intros t left diag row [Hd Hr] Hl; cbn [next_row row_ok]; [by destruct row|].
  destruct row as [|up row]; [done|]. pose proof Hr as [Hu _]. split; [done|]. apply (IH (snoc t y) _ up row); [done|].
  by apply dist_snoc.
Qed.

Lemma rows_ok a b : forall s i row, row_ok s EmptyString b row -> dist s EmptyString i -> row_ok (s +s+ a) EmptyString b (rows a b i row).
Proof.
  induction a as [|x a IH]; intros s i row Hr Hi; cbn [rows]; [by rewrite app_nil_s|].
  replace (s +s+ String x a) with (snoc s x +s+ a) by (unfold snoc; by rewrite app_assoc_s).
  assert (dist (snoc s x) EmptyString (S i)) as Hx by (replace (S i) with (i + 1)%nat by lia; by apply dist_nil_r).
  apply IH; [|done]. destruct row as [|d row]; [done|]. by apply next_row_ok with (row := row).
Qed.

Lemma row_zero_ok b : forall t, row_ok EmptyString t b (List.seq (String.length t) (S (String.length b))).
Proof.
  induction b as [|y b IH]; intros t; cbn [row_ok List.seq String.length]; split; try apply dist_nil_l; [done|].
  rewrite <- snoc_length with (x := y). apply IH.
Qed.

Lemma row_last s b : forall t row, row_ok s t b row -> dist s (t +s+ b) (default O (last row)).
Proof.
  induction b as [|y b IH]; intros t row H; (destruct row as [|n row]; [done|]); destruct H as [Hn H].
  - subst row. by rewrite app_nil_s.
  - destruct row as [|m row]; [by destruct b|]. replace (t +s+ String y b) with (snoc t y +s+ b) by (unfold snoc; by rewrite app_assoc_s).
    change (last (n :: m :: row)) with (last (m :: row)). by apply IH.
Qed.

(** The edit distance computed row by row is the length of the shortest script of insertions, deletions and replacements between the two texts. *)
Theorem edit_distance_minimal s t : dist s t (EditDistance s t).
Proof.
  unfold EditDistance. apply (row_last s t EmptyString). apply (rows_ok s t EmptyString); [apply (row_zero_ok t EmptyString)|].
  split; [constructor|lia].
Qed.

(** ** The best player *)

(** The two comparisons in lexicographic order. *)
Definition zb (b : bool) : Z := if b then 1 else 0.
Definition adr_ok (p : PlayerTotals) : Prop := dnan (Adr p) = false.

Definition tie_lt (current : Z) (x y : PlayerTotals) : Prop :=
  deaths x < deaths y \/ (deaths x = deaths y /\
    (zb (steamid64 y =? current) < zb (steamid64 x =? current) \/
     (zb (steamid64 y =? current) = zb (steamid64 x =? current) /\ steamid64 x < steamid64 y))).

Lemma tie_spec current x y : tie current x y = true <-> tie_lt current x y.
Proof.
  unfold tie, tie_lt, zb. destruct (Z.eqb_spec (deaths x) (deaths y)); cbn [negb]; [|rewrite Z.ltb_lt; lia].
  destruct (Z.eqb_spec (steamid64 x) current), (Z.eqb_spec (steamid64 y) current); cbn; rewrite ?Z.ltb_lt; split; lia || done.
Qed.

Definition ranks (stat : BestStat) (current : Z) (x y : PlayerTotals) : Prop :=
  let adr := lex_lt (dkey (Adr y)) (dkey (Adr x)) in
  let same := same_key (dkey (Adr y)) (dkey (Adr x)) in
  match stat with
  | kAdr => adr \/ (same /\ (kills y < kills x \/ (kills y = kills x /\ tie_lt current x y)))
  | kKills => kills y < kills x \/ (kills y = kills x /\ (adr \/ (same /\ tie_lt current x y)))
  end.

Lemma better_spec stat current x y : adr_ok x -> adr_ok y -> better stat current x y = true <-> ranks stat current x y.
Proof.
  intros Hx Hy. unfold better, ranks. pose proof (dltb_key _ _ Hy Hx) as HL. pose proof (deqb_key _ _ Hx Hy) as HE. rewrite same_key_eq in HE.
  assert (same_key (dkey (Adr x)) (dkey (Adr y)) <-> same_key (dkey (Adr y)) (dkey (Adr x))) as HS by (unfold same_key; lia). rewrite HS in HE.
  assert (~ (lex_lt (dkey (Adr y)) (dkey (Adr x)) /\ same_key (dkey (Adr y)) (dkey (Adr x)))) as HX by (unfold lex_lt, same_key; lia).
  pose proof (tie_spec current x y) as HT. destruct stat.
  - destruct (Adr x =d Adr y); cbn [negb].
    + pose proof (proj1 HE eq_refl). destruct (Z.eqb_spec (kills x) (kills y)); cbn [negb]; [|rewrite Z.ltb_lt]; rewrite ?HT; intuition lia.
    + rewrite HL. assert (~ same_key (dkey (Adr y)) (dkey (Adr x))) by (intros F; apply HE in F; discriminate). tauto.
  - destruct (Z.eqb_spec (kills x) (kills y)); cbn [negb]; [|rewrite Z.ltb_lt; intuition lia]. destruct (Adr x =d Adr y); cbn [negb].
    + pose proof (proj1 HE eq_refl). rewrite HT. intuition lia.
    + rewrite HL. assert (~ same_key (dkey (Adr y)) (dkey (Adr x))) by (intros F; apply HE in F; discriminate). intuition lia.
Qed.

Lemma better_irrefl stat current x : adr_ok x -> better stat current x x = false.
Proof.
  intros Hx. apply not_true_iff_false. rewrite better_spec by done. unfold ranks, tie_lt, lex_lt, same_key, zb. destruct stat; lia.
Qed.
(** A player beaten by nobody is beaten by nobody a better one beats. *)
Lemma better_asym stat current x y : adr_ok x -> adr_ok y -> better stat current x y = true -> better stat current y x = false.
Proof.
  intros Hx Hy. rewrite better_spec by done. intros H. apply not_true_iff_false. rewrite better_spec by done. revert H.
  unfold ranks, tie_lt, lex_lt, same_key, zb. destruct stat; repeat case_if; lia.
Qed.
Lemma better_trans stat current x y z : adr_ok x -> adr_ok y -> adr_ok z ->
  better stat current y x = false -> better stat current z y = false -> better stat current z x = false.
Proof.
  intros Hx Hy Hz. rewrite <- !not_true_iff_false, !better_spec by done.
  unfold ranks, tie_lt, lex_lt, same_key. generalize (zb (steamid64 x =? current)) (zb (steamid64 y =? current)) (zb (steamid64 z =? current)).
  intros. destruct stat; lia.
Qed.

(** The best of the players read so far: eligible, and none of them is better. *)
Definition best_of (stat : BestStat) (current : Z) (seen : list PlayerTotals) (best : option PlayerTotals) : Prop :=
  match best with
  | None => forall q, q ∈ seen -> eligible q = false
  | Some p => p ∈ seen /\ eligible p = true /\ forall q, q ∈ seen -> eligible q = true -> better stat current q p = false
  end.

Lemma pick_step_best stat current seen best p :
  Forall adr_ok (seen ++ [p]) -> best_of stat current seen best -> best_of stat current (seen ++ [p]) (pick_step stat current best p).
Proof.
  intros Hn Hb. apply Forall_app in Hn as [Hs Hp]. rewrite Forall_singleton in Hp. rewrite Forall_forall in Hs.
  assert (forall q, q ∈ seen ++ [p] <-> q ∈ seen \/ q = p) as Hin by (intros q; rewrite elem_of_app, list_elem_of_singleton; done).
  unfold pick_step. destruct (eligible p) eqn:Ep; cbn [negb].
  - destruct best as [q|]; cbn [best_of] in *.
    + destruct Hb as (Hq & Eq & Hbest). destruct (better stat current p q) eqn:Eb; cbn [best_of].
      * split; [apply Hin; by right|]. split; [done|]. intros z Hz Ez. apply Hin in Hz as [Hz | ->]; [|by apply better_irrefl].
        apply (better_trans stat current p q z); auto. by apply better_asym; auto.
      * split; [apply Hin; by left|]. split; [done|]. intros z Hz Ez. apply Hin in Hz as [Hz | ->]; auto.
    + split; [apply Hin; by right|]. split; [done|]. intros z Hz Ez. apply Hin in Hz as [Hz | ->]; [by rewrite Hb in Ez|by apply better_irrefl].
  - destruct best as [q|]; cbn [best_of] in *.
    + destruct Hb as (Hq & Eq & Hbest). split; [apply Hin; by left|]. split; [done|]. intros z Hz Ez. apply Hin in Hz as [Hz | ->]; [by apply Hbest|congruence].
    + intros z Hz. apply Hin in Hz as [Hz | ->]; auto.
Qed.

(** The player picked as the best of a map is a counted player nobody ranks above, and nobody is picked when no player counts or the best of them scored nothing. *)
Theorem pick_best players stat current : Forall adr_ok players ->
  let best := foldl (pick_step stat current) None players in
  best_of stat current players best /\
  PickBest players stat current = match best with Some p => if scored stat p then steamid64 p else 0 | None => 0 end.
Proof.
  intros Hn. cbn zeta. split; [|done].
  assert (forall rest seen best, Forall adr_ok (seen ++ rest) -> best_of stat current seen best ->
    best_of stat current (seen ++ rest) (foldl (pick_step stat current) best rest)) as H.
  { induction rest as [|p rest IH]; intros seen best Hf Hb; cbn [foldl]; [by rewrite app_nil_r|].
    change (p :: rest) with ([p] ++ rest) in *. rewrite app_assoc in *. apply IH; [done|]. apply pick_step_best; [|done].
    by apply Forall_app in Hf as [Hf _]. }
  apply (H players [] None); [done|]. intros q Hq. by apply not_elem_of_nil in Hq.
Qed.

(** ** Who is Midas, and why *)

(** A player is Midas exactly when there is a reason to tell them: the configuration, an admin's gift, or the best player's place. *)
Theorem why_iff_midas active config given best sid :
  sid ∈ EffectiveMidas active config given best <-> MidasReasons active config given best sid <> 0.
Proof.
  unfold EffectiveMidas, MidasReasons. destruct active; cbn [negb orb]; [|set_solver].
  destruct (Z.eqb_spec sid 0) as [->|Hs]; [set_solver|]. rewrite elem_of_difference, !elem_of_union, elem_of_singleton.
  assert (sid ∈ (if best =? 0 then ∅ else {[ best ]} : gset Z) <-> best = sid) as ->.
  { destruct (Z.eqb_spec best 0) as [->|]; [|rewrite elem_of_singleton; naive_solver]. split; [by intros ?%elem_of_empty|lia]. }
  destruct (bool_decide_reflect (sid ∈ config)), (bool_decide_reflect (sid ∈ given)), (Z.eqb_spec best sid); cbn; naive_solver.
Qed.

(** ** The file of given Midas players *)

(** The ids the reader of the file accepts. *)
Definition readable (sid : Z) : Prop := 0 <= sid /\ steam_text (to_string sid) = true.

Lemma cut_where_part f cur a c rest : sforall (fun d => negb (f d)) a = true -> f c = true ->
  cut_where f cur (a +s+ String c rest) = (cur +s+ a) :: cut_where f EmptyString rest.
Proof.
  intros Ha Hc. revert cur. induction a as [|d a IH]; intros cur; cbn [String.append cut_where]; [by rewrite Hc, app_nil_s|].
  cbn in Ha. apply andb_prop in Ha as [Hd Ha]. apply negb_true_iff in Hd. rewrite Hd, IH by done. unfold str1. by rewrite app_assoc_s.
Qed.
Lemma cut_where_end f cur a : sforall (fun d => negb (f d)) a = true -> cut_where f cur a = [cur +s+ a].
Proof.
  revert cur. induction a as [|d a IH]; intros cur Ha; cbn [cut_where]; [by rewrite app_nil_s|].
  cbn in Ha. apply andb_prop in Ha as [Hd Ha]. apply negb_true_iff in Hd. rewrite Hd, IH by done. by rewrite app_assoc_s.
Qed.

Lemma digits_avoid (f : ascii -> bool) s : (forall c, isdigit c = true -> f c = false) -> sforall isdigit s = true -> sforall (fun d => negb (f d)) s = true.
Proof. intros Hf. apply sforall_impl. intros c Hc. by rewrite Hf. Qed.

Lemma digit_plain c : isdigit c = true -> id_sep c = false /\ isspace c = false /\ is_nl c = false /\ Ascii.eqb c "#"%char = false.
Proof.
  unfold id_sep, isspace, is_nl, isdigit. rewrite !ascii_eqb_code. code_consts. intros H. split_bools.
  repeat split; repeat apply orb_false_intro; try apply andb_false_iff; lia.
Qed.

Lemma given_id_line s sid : readable sid -> given_line s (to_string sid) = {[ sid ]} ∪ s.
Proof.
  intros [H0 Hs]. destruct (to_string_digits sid H0) as (Hd & He & _). unfold given_line.
  assert (Trim (to_string sid) = to_string sid) as ->.
  { apply strip_none, (digits_avoid isspace); [|done]. intros c Hc. apply (digit_plain c Hc). }
  destruct (to_string sid) as [|c t] eqn:E; [done|]. assert (Ascii.eqb c "#"%char = false) as ->.
  { apply digit_plain. cbn in Hd. by apply andb_prop in Hd as [? _]. }
  unfold ParseSteamIds. rewrite cut_where_end by (apply (digits_avoid id_sep); [intros d Hx; apply (digit_plain d Hx)|done]).
  cbn [foldl]. change (EmptyString +s+ String c t) with (String c t). unfold id_part. rewrite <- E in *. rewrite He, Hs. cbn [fst].
  assert (strtoull (to_string sid) = sid) as ->.
  { apply strtoull_to_string. unfold steam_text in Hs. split_bools. unfold uint64_ok. split; [done|].
    destruct (Z.le_gt_cases sid 18446744073709551615) as [?|Hbig]; [done|]. exfalso.
    assert (slen (to_string sid) = 17) as Hl by done.
    pose proof (to_string_digits sid H0) as (_ & _ & Hv). clear -Hl Hv Hbig Hd.
    assert (forall t v, sforall isdigit t = true -> 0 <= v -> digits_val t v < (v + 1) * 10 ^ slen t) as Hb.
    { clear. induction t as [|c t IH]; intros v Ht Hv; cbn [digits_val]; [unfold slen; cbn; lia|].
      cbn in Ht. apply andb_prop in Ht as [Hc Ht]. unfold isdigit in Hc. split_bools.
      specialize (IH (10 * v + digit_val c) Ht ltac:(unfold digit_val; lia)).
      assert (slen (String c t) = slen t + 1) as -> by (unfold slen; cbn [String.length]; lia).
      rewrite Z.pow_add_r by (unfold slen; lia). unfold digit_val in *. pose proof (Z.pow_pos_nonneg 10 (slen t) ltac:(lia) ltac:(unfold slen; lia)). nia. }
    specialize (Hb (to_string sid) 0 Hd ltac:(lia)). rewrite Hl, Hv in Hb. lia. }
  set_solver.
Qed.

Lemma ids_lines ids acc s : Forall readable ids ->
  foldl given_line s (cut_where is_nl EmptyString (foldr (fun sid acc => to_string sid +s+ str1 newline +s+ acc) EmptyString ids)) = acc ->
  acc = list_to_set ids ∪ s.
Proof.
  intros Hids <-. revert s. induction Hids as [|sid ids Hs Hids IH]; intros s; cbn [foldr].
  - cbn. set_solver.
  - change (str1 newline +s+ ?x) with (String newline x). rewrite cut_where_part; [|apply (digits_avoid is_nl); [intros d Hx; apply (digit_plain d Hx)|apply to_string_digits, Hs]|done].
    cbn [foldl]. change (EmptyString +s+ to_string sid) with (to_string sid). rewrite given_id_line, IH by done. set_solver.
Qed.

(** The file of given players is read back as the set that was written, for the ids the reader recognises. *)
Theorem given_roundtrip given : set_Forall readable given -> ParseGivenFile (FormatGivenFile given) = given.
Proof.
  intros Hg. unfold ParseGivenFile, FormatGivenFile. set (ids := in_order_ids given).
  assert (ids ≡ₚ elements given) as Hp by apply merge_sort_Permutation.
  assert (Forall readable ids) as Hids by (rewrite Hp; apply Forall_forall; intros x Hx%elem_of_elements; by apply Hg).
  unfold given_head. rewrite app_assoc_s. change (str1 newline +s+ ?x) with (String newline x).
  rewrite cut_where_part by reflexivity. cbn [foldl].
  assert (forall s, given_line s (EmptyString +s+ "# Midas given by admins (.ru midas give <player>): one SteamID64 per line") = s) as -> by reflexivity.
  rewrite (ids_lines ids _ ∅ Hids eq_refl). rewrite union_empty_r_L. apply set_eq. intros x. rewrite elem_of_list_to_set, Hp. apply elem_of_elements.
Qed.

(** ** Cards *)

Lemma sfilter_sforall f s : sforall f (sfilter f s) = true.
Proof. induction s as [|c s IH]; cbn; [done|]. destruct (f c) eqn:E; [cbn; by rewrite E|done]. Qed.
Lemma stake_sforall f n s : sforall f s = true -> sforall f (stake n s) = true.
Proof. revert s. induction n as [|n IH]; intros [|c s] H; cbn in *; try done. apply andb_prop in H as [-> H]. by apply IH. Qed.
Lemma stake_slen n s : slen (stake n s) <= Z.of_nat n.
Proof. unfold slen. revert s. induction n as [|n IH]; intros [|c s]; cbn; try lia. specialize (IH s). lia. Qed.
Lemma byte_cut_le out n : (utf8_cut out n <= n)%nat.
Proof. induction n as [|n IH]; cbn [utf8_cut]; [lia|]. destruct (String.get (S n) out) as [c|]; [destruct (continuation c); lia|lia]. Qed.

(** A name put on a card is at most 32 bytes of characters that mean nothing to the HTML of the card. *)
Theorem CardName_safe nm : sforall card_char (CardName nm) = true /\ slen (CardName nm) <= 32.
Proof.
  unfold CardName. destruct (Z.ltb_spec 32 (slen (sfilter card_char nm))); [|split; [apply sfilter_sforall|done]].
  split; [apply stake_sforall, sfilter_sforall|]. pose proof (stake_slen (utf8_cut (sfilter card_char nm) 32) (sfilter card_char nm)).
  pose proof (byte_cut_le (sfilter card_char nm) 32). lia.
Qed.

(** ** A lookup names a player of the list *)

Lemma indices_lookup test names i : i ∈ indices test names -> exists n, names !! i = Some n /\ test n = true.
Proof.
  unfold indices. intros (e & -> & He)%list_elem_of_fmap. apply list_elem_of_filter in He as [Ht He].
  apply elem_of_lookup_imap in He as (j & n & -> & Hn). by exists n.
Qed.

Lemma shortest_sub names idx i : i ∈ shortest names idx -> i ∈ idx.
Proof.
  unfold shortest. set (s := stable_sort _ idx). assert (s ≡ₚ idx) as Hp by apply stable_sort_perm. rewrite <- Hp. clearbody s.
  destruct s as [|x [|y s]]; [done|done|]. destruct (_ <? _)%nat; [|done]. intros ->%list_elem_of_singleton. left.
Qed.

Lemma closest_sub q (es : list (nat * string)) (acc : option nat * list nat) : (forall i, i ∈ acc.2 -> i ∈ fst <$> es) -> forall l, (forall e, e ∈ l -> e ∈ es) ->
  forall i, i ∈ (foldl (closest_step q) acc l).2 -> i ∈ fst <$> es.
Proof.
  intros Ha l. revert acc Ha. induction l as [|e l IH]; intros acc Ha Hl; cbn [foldl]; [done|]. apply IH; [|intros x Hx; apply Hl; by right].
  assert (e.1 ∈ fst <$> es) as He by (apply list_elem_of_fmap; exists e; split; [done|]; apply Hl; left).
  unfold closest_step. destruct acc as [[best|] idx]; cbn [fst snd] in *; [|by intros i ->%list_elem_of_singleton].
  destruct (_ <? _)%nat; [by intros i ->%list_elem_of_singleton|]. destruct (_ =? _)%nat; [|done].
  intros i [Hi | ->%list_elem_of_singleton]%elem_of_app; auto.
Qed.

(** The outcome of a lookup: one player of the list, or at most five candidates. *)
Definition match_ok (n : nat) (m : PlayerMatch) : Prop :=
  (exists i, index m = Z.of_nat i /\ (i < n)%nat /\ ambiguous m = []) \/
  (index m = -1 /\ (length (ambiguous m) <= 5)%nat /\ Forall (fun i => (i < n)%nat) (ambiguous m)).

Lemma pick_ok n idx : (forall i, i ∈ idx -> (i < n)%nat) -> match_ok n (pick idx).
Proof.
  intros Hi. unfold pick, match_ok. destruct idx as [|i [|j idx]].
  - right. repeat split; cbn; [lia|constructor].
  - left. exists i. repeat split. apply Hi. left.
  - right. split; [done|]. set (l := i :: j :: idx) in *. cbn [index ambiguous]. split; [rewrite length_take; lia|].
    apply Forall_forall. intros x Hx. apply Hi. by apply elem_of_take in Hx as (k & Hk & _); apply list_elem_of_lookup_2 in Hk.
Qed.

Lemma indices_lt test names n i : length names = n -> i ∈ indices test names -> (i < n)%nat.
Proof. intros <- Hi. apply indices_lookup in Hi as (x & Hx & _). by apply lookup_lt_Some in Hx. Qed.

(** One step of the lookup. *)
Ltac next_case := match goal with |- match_ok _ (if ?b then _ else _) => destruct b end.

(** Looking up a player by name yields one player of the list, or none and then at most five candidates, all of the list. *)
Theorem name_lookup_sound q names : match_ok (length names) (ResolvePlayerName q names).
Proof.
  unfold ResolvePlayerName. destruct (sempty _ || _); [right; repeat split; cbn; [lia|constructor]|].
  set (low := map (fun n => lower (Trim n)) names). assert (length low = length names) as Hl by apply length_map.
  cbv zeta. fold low.
  assert (forall (b : bool) test i, i ∈ (if b then indices test low else []) -> (i < length names)%nat) as Hsome.
  { intros b test i Hi. destruct b; [exact (indices_lt test low _ i Hl Hi)|by apply not_elem_of_nil in Hi]. }
  next_case; [apply pick_ok; intros i Hi; exact (indices_lt _ names _ i eq_refl Hi)|].
  next_case; [apply pick_ok; intros i Hi; exact (indices_lt _ low _ i Hl Hi)|].
  next_case; [apply pick_ok; intros i Hi%shortest_sub; exact (indices_lt _ low _ i Hl Hi)|].
  do 2 (next_case; [apply pick_ok; intros i Hi%shortest_sub; exact (Hsome _ _ i Hi)|]).
  destruct (foldl _ _ _) as [[best|] idx] eqn:E; [|right; repeat split; cbn; [lia|constructor]].
  case_if; [|right; repeat split; cbn; [lia|constructor]]. apply pick_ok. intros i Hi.
  assert (i ∈ fst <$> imap pair low) as Hin.
  { apply (closest_sub (lower (Trim q)) (imap pair low) (None, [])) with (l := imap pair low); [|done|by rewrite E]. intros j Hj. by apply not_elem_of_nil in Hj. }
  apply list_elem_of_fmap in Hin as (e & -> & He). apply elem_of_lookup_imap in He as (j & n & -> & Hn). cbn. rewrite <- Hl. by apply lookup_lt_Some in Hn.
Qed.

(** ** Examples *)

Definition sample_totals : list PlayerTotals :=
  [{| steamid64 := 11; kills := 20; deaths := 10; damage := 1500; rounds := 20 |};
   {| steamid64 := 12; kills := 21; deaths := 10; damage := 1500; rounds := 20 |};
   {| steamid64 := 13; kills := 30; deaths := 1; damage := 700; rounds := 10 |}].

Lemma pick_best_witness :
  PickBest sample_totals kAdr 0 = 12 /\ PickBest sample_totals kKills 0 = 13 /\
  best_of kAdr 0 sample_totals (foldl (pick_step kAdr 0) None sample_totals) /\
  PickBest sample_totals kAdr 0 = match foldl (pick_step kAdr 0) None sample_totals with Some p => if scored kAdr p then steamid64 p else 0 | None => 0 end.
Proof.
  split; [vm_compute; reflexivity|]. split; [vm_compute; reflexivity|]. apply (pick_best sample_totals kAdr 0). repeat constructor; vm_compute; reflexivity.
Defined.

Lemma given_roundtrip_witness : ParseGivenFile (FormatGivenFile {[ 76561198386265483 ]}) = {[ 76561198386265483 ]}.
Proof. apply (given_roundtrip {[ 76561198386265483 ]}). intros x ->%elem_of_singleton. split; [lia|vm_compute; reflexivity]. Defined.

(** An account id of 2039734272 or more makes a SteamID64 that does not start with 7656119: it is written to the file
    of given players and not read back, and [midas_steamids] counts it as bad. *)
Lemma late_account_lost :
  bool_decide (ParseGivenFile (FormatGivenFile {[ 76561197960265728 + 2039734272 ]}) = ∅) = true /\
  (ParseSteamIds (to_string (76561197960265728 + 2039734272))).2 = 1.
Proof. split; vm_compute; reflexivity. Qed.

Example resolve_typo : ResolvePlayerName "slimple" ["s1mple"; "donk"; "ZywOo"] = {| index := 0; ambiguous := [] |}.
Proof. vm_compute. reflexivity. Qed.
Example color_gold : ParseColor " 255, 200,40" = Some kGold /\ ParseColor "1,2" = None /\ ParseColor "1,2,256" = None.
Proof. vm_compute. done. Qed.

End Mi.
