(* ===== verification/MapNames.v ===== *)
(** * Map entries and loaded map names

    [plugins/match/readyup/map_names.{h,cpp}]: what a map list entry may be (an installed map, a workshop id, or
    both), the console command that loads it, and which entry a loaded map is.  A workshop id without a name is
    bound to the name that the next map load reports; the bindings are the record [Names]. *)

From S2P Require Import Prelude CStr MatchRulesFacts.

Module Mn.

Record MapRef := { workshop_id : string; name : string }.
Record Names := { g_bound : gmap string string; g_pending : string }.
Definition ResetBindings : Names := {| g_bound := ∅; g_pending := EmptyString |}.

Definition slash : ascii := "/".
Definition IsDigits (s : string) : bool := negb (sempty s) && (slen s <=? 20) && sforall isdigit s.

(** [s.front()], [s.back()] compared with a byte. *)
Definition front_is (c : ascii) (s : string) : bool := match s with String d _ => Ascii.eqb d c | EmptyString => false end.
Fixpoint back_is (c : ascii) (s : string) : bool :=
  match s with EmptyString => false | String d EmptyString => Ascii.eqb d c | String _ s => back_is c s end.

Definition name_char (c : ascii) : bool :=
  isalnum c || Ascii.eqb c "_" || Ascii.eqb c "/" || Ascii.eqb c "." || Ascii.eqb c "-".
Definition SafeName (s : string) : bool :=
  negb (sempty s) && (slen s <=? 128) && sforall name_char s && negb (contains ".." s) && negb (front_is slash s) && negb (back_is slash s).

(** [s.substr(0, i)] and [s.substr(i + 1)] at the first [/]; no second part without one. *)
Definition cut_slash (s : string) : string * option string :=
  match find "/" s with Some i => (stake i s, Some (sdrop (S i) s)) | None => (s, None) end.

Definition ParseEntry (entry : string) : option MapRef :=
  if starts_with "ws:" entry then
    let id := sdrop 3 entry in if IsDigits id then Some {| workshop_id := id; name := EmptyString |} else None
  else if starts_with "workshop/" entry then
    let '(id, rest) := cut_slash (sdrop 9 entry) in
    if negb (IsDigits id) then None
    else
      match rest with
      | None => Some {| workshop_id := id; name := EmptyString |}
      | Some n => if SafeName n then Some {| workshop_id := id; name := n |} else None
      end
  else if negb (sempty entry) && sforall isdigit entry then
    if IsDigits entry then Some {| workshop_id := entry; name := EmptyString |} else None
  else if SafeName entry then Some {| workshop_id := EmptyString; name := entry |} else None.

Definition ValidEntry (entry : string) : bool := match ParseEntry entry with Some _ => true | None => false end.

Definition MakeEntry (n id : string) : string :=
  let r := if sempty n then None else ParseEntry n in
  if sempty id then match r with Some _ => n | None => EmptyString end
  else if negb (IsDigits id) then EmptyString
  else
    match r with
    | Some r => if sempty (name r) then "workshop/" +s+ id else "workshop/" +s+ id +s+ "/" +s+ name r
    | None => "workshop/" +s+ id
    end.

Definition LoadCommand (entry : string) : string :=
  match ParseEntry entry with
  | None => EmptyString
  | Some r => if sempty (workshop_id r) then "changelevel " +s+ name r else "host_workshop_map " +s+ workshop_id r
  end.

(** [s.substr(last + 1)] after the last [/] or [\ ]; [s] without one. *)
Definition is_sep (c : ascii) : bool := Ascii.eqb c slash || Ascii.eqb c backslash.
Fixpoint base_part (s : string) : string :=
  match s with
  | EmptyString => EmptyString
  | String c r => if sforall (fun d => negb (is_sep d)) s then s else base_part r
  end.
(** The extension dropped from [s] when more than the extension is there; the case does not matter. *)
Definition drop_ext (ext s : string) : string :=
  let k := (String.length s - String.length ext)%nat in
  if (slen ext <? slen s) && (lower (sdrop k s) =s ext) then stake k s else s.
Definition LoadedBaseName (loaded : string) : string :=
  let s := if starts_with "workshop/" loaded then default EmptyString (cut_slash (sdrop 9 loaded)).2 else loaded in
  drop_ext ".bsp" (drop_ext ".vpk" (base_part s)).

Definition WorkshopIdOfLoaded (loaded : string) : string :=
  if negb (starts_with "workshop/" loaded) then EmptyString
  else let id := (cut_slash (sdrop 9 loaded)).1 in if IsDigits id then id else EmptyString.

Definition BoundName (id : string) (b : Names) : string := default EmptyString (g_bound b !! id).

Definition EntryMatchesLoaded (entry loaded : string) (b : Names) : bool :=
  if sempty loaded then false
  else
    match ParseEntry entry with
    | None => false
    | Some r =>
        let base := lower (LoadedBaseName loaded) in
        if sempty (workshop_id r) then lower (LoadedBaseName (name r)) =s base
        else
          let lid := WorkshopIdOfLoaded loaded in
          if negb (sempty lid) then lid =s workshop_id r
          else
            let n := if sempty (name r) then BoundName (workshop_id r) b else name r in
            negb (sempty n) && (lower (LoadedBaseName n) =s base)
    end.

Definition DisplayName (entry : string) (b : Names) : string :=
  match ParseEntry entry with
  | None => entry
  | Some r =>
      if negb (sempty (name r)) then LoadedBaseName (name r)
      else let bound := BoundName (workshop_id r) b in if sempty bound then "workshop/" +s+ workshop_id r else bound
  end.

Definition NoteWorkshopLoad (id : string) (b : Names) : Names :=
  if IsDigits id then {| g_bound := g_bound b; g_pending := id |} else b.

(** The keys in the order of [std::map]. *)
Definition keys (m : gmap string string) : list string := merge_sort str_le (elements (dom m)).
Definition erase_first (m : gmap string string) : gmap string string := match keys m with k :: _ => delete k m | [] => m end.

Definition NoteMapLoaded (loaded : string) (b : Names) : Names :=
  let base := LoadedBaseName loaded in
  if sempty base then b
  else
    let lid := WorkshopIdOfLoaded loaded in
    let m := if sempty lid then g_bound b else <[lid := base]> (g_bound b) in
    let m :=
      if sempty (g_pending b) then m
      else if sempty lid || (lid =s g_pending b) then <[g_pending b := base]> m else m in
    {| g_bound := if 256 <? Z.of_nat (size m) then erase_first m else m; g_pending := EmptyString |}.

Definition ReloadEntry (loaded : string) (b : Names) : string :=
  let base := LoadedBaseName loaded in
  let lid := WorkshopIdOfLoaded loaded in
  let id :=
    if sempty lid && negb (sempty base)
    then foldl (fun acc k => if BoundName k b =s base then k else acc) lid (keys (g_bound b))
    else lid in
  let entry := if sempty id then base else MakeEntry base id in
  if ValidEntry entry then entry else EmptyString.

End Mn.

(** * Map entries and loaded map names: theorems *)

Module MnFacts.
Import Mn.

Lemma digits_no_slash s : sforall isdigit s = true -> sforall (fun c => negb (Ascii.eqb c slash)) s = true.
Proof. apply sforall_impl. intros c Hc. destruct (Ascii.eqb_spec c slash) as [->|]; [done|done]. Qed.

Lemma find_slash a b : sforall (fun c => negb (Ascii.eqb c slash)) a = true -> find "/" (a +s+ String slash b) = Some (String.length a).
Proof.
  induction a as [|c a IH]; [done|]. intros [Hc Ha]%andb_prop. cbn [String.append find starts_with].
  rewrite Ascii.eqb_sym. apply negb_true_iff in Hc. unfold slash in Hc. rewrite Hc. cbn [andb String.length]. by rewrite IH.
Qed.
Lemma find_no_slash a : sforall (fun c => negb (Ascii.eqb c slash)) a = true -> find "/" a = None.
Proof.
  induction a as [|c a IH]; [done|]. intros [Hc Ha]%andb_prop. cbn [find starts_with]. rewrite Ascii.eqb_sym. apply negb_true_iff in Hc.
  unfold slash in Hc. rewrite Hc. cbn [andb]. by rewrite IH.
Qed.

Lemma IsDigits_digits s : IsDigits s = true -> sforall isdigit s = true /\ sempty s = false.
Proof. unfold IsDigits. intros H. split_bools. by destruct (sempty s). Qed.

(** ** What an entry says *)

Lemma parse_id id : IsDigits id = true -> ParseEntry id = Some {| workshop_id := id; name := EmptyString |}.
Proof.
  intros Hi. pose proof (IsDigits_digits _ Hi) as [Hd He]. unfold ParseEntry. rewrite He, Hd, Hi. cbn [negb andb].
  destruct id as [|c id]; [done|]. cbn [sforall] in Hd. apply andb_prop in Hd as [Hc _].
  assert (Ascii.eqb "w" c = false) as Hw by (destruct (Ascii.eqb_spec "w" c) as [<-|]; done). cbn [starts_with]. by rewrite Hw.
Qed.
Lemma parse_ws id : IsDigits id = true -> ParseEntry ("ws:" +s+ id) = Some {| workshop_id := id; name := EmptyString |}.
Proof. intros Hi. unfold ParseEntry. rewrite starts_with_refl. change (sdrop 3 ("ws:" +s+ id)) with id. by rewrite Hi. Qed.
Lemma parse_workshop id : IsDigits id = true -> ParseEntry ("workshop/" +s+ id) = Some {| workshop_id := id; name := EmptyString |}.
Proof.
  intros Hi. unfold ParseEntry. change (starts_with "ws:" ("workshop/" +s+ id)) with false. rewrite starts_with_refl.
  change (sdrop 9 ("workshop/" +s+ id)) with id. unfold cut_slash. rewrite find_no_slash by (by apply digits_no_slash, IsDigits_digits). by rewrite Hi.
Qed.
Lemma parse_workshop_name id n : IsDigits id = true -> SafeName n = true -> ParseEntry ("workshop/" +s+ id +s+ "/" +s+ n) = Some {| workshop_id := id; name := n |}.
Proof.
  intros Hi Hn. unfold ParseEntry. change (starts_with "ws:" _) with false. rewrite starts_with_refl.
  change (sdrop 9 ("workshop/" +s+ id +s+ "/" +s+ n)) with (id +s+ String slash n). unfold cut_slash.
  rewrite find_slash by (by apply digits_no_slash, IsDigits_digits). rewrite stake_app. 
  replace (sdrop (S (String.length id)) (id +s+ String slash n)) with n; [by rewrite Hi, Hn|].
  clear. induction id as [|c id IH]; [done|exact IH].
Qed.

Lemma parse_shape entry r : ParseEntry entry = Some r ->
  (IsDigits (workshop_id r) = true /\ (name r = EmptyString \/ SafeName (name r) = true)) \/ (workshop_id r = EmptyString /\ SafeName (name r) = true).
Proof.
  unfold ParseEntry. case_match; [case_match; intros [= <-]; auto|]. case_match.
  - destruct (cut_slash _) as [id [n|]]; destruct (IsDigits id) eqn:Hi; cbn; try done; [case_match|]; intros [= <-]; auto.
  - case_match; [case_match; intros [= <-]; auto|]. case_match; intros [= <-]. auto.
Qed.

Lemma digit_name c : isdigit c = true -> name_char c = true.
Proof. unfold name_char, isalnum. by intros ->. Qed.
Lemma SafeName_chars n : SafeName n = true -> sforall name_char n = true /\ sempty n = false.
Proof. unfold SafeName. intros H. split_bools. by destruct (sempty n). Qed.

(** A map entry can load one map and nothing else: for a valid entry, and only for one, the command is [changelevel] or
    [host_workshop_map] with one argument of letters, digits and [_ / . -]. *)
Theorem load_command_safe (entry : string) :
  (ValidEntry entry = false -> LoadCommand entry = EmptyString) /\
  (ValidEntry entry = true -> exists verb arg, verb ∈ ["changelevel"; "host_workshop_map"] /\ LoadCommand entry = verb +s+ " " +s+ arg /\
     sempty arg = false /\ sforall name_char arg = true).
Proof.
  unfold ValidEntry, LoadCommand. destruct (ParseEntry entry) as [r|] eqn:Hp; (split; [done|]); [|done]. intros _.
  destruct (parse_shape _ _ Hp) as [[Hi _]|[Hi Hn]].
  - destruct (IsDigits_digits _ Hi) as [Hd He]. rewrite He. exists "host_workshop_map", (workshop_id r). split_and!; [set_solver|done|done|].
    by apply (sforall_impl _ _ _ digit_name).
  - rewrite Hi. destruct (SafeName_chars _ Hn) as [Hc He]. exists "changelevel", (name r). split_and!; [set_solver|done..].
Qed.

(** The entry made of a name and a workshop id reads back as both. *)
Theorem make_entry_parsed (n id : string) : IsDigits id = true ->
  ParseEntry (MakeEntry n id) = Some {| workshop_id := id; name := if sempty n then EmptyString else default EmptyString (name <$> ParseEntry n) |}.
Proof.
  intros Hi. destruct (IsDigits_digits _ Hi) as [_ He]. unfold MakeEntry. rewrite He, Hi. cbn [negb].
  destruct (sempty n); [by apply parse_workshop|]. destruct (ParseEntry n) as [r|] eqn:Hp; [|by apply parse_workshop]. cbn.
  destruct (sempty (name r)) eqn:En; [destruct (name r); [by apply parse_workshop|done]|]. apply parse_workshop_name; [done|].
  destruct (parse_shape _ _ Hp) as [[_ [E|E]]|[_ E]]; [by rewrite E in En|done..].
Qed.

(** ** A loaded workshop map *)

Definition no_dot (s : string) : bool := sforall (fun c => negb (Ascii.eqb c ".")) s.
Definition no_sep (s : string) : bool := sforall (fun d => negb (is_sep d)) s.

Lemma sforall_sdrop f n s : sforall f s = true -> sforall f (sdrop n s) = true.
Proof. revert s. induction n as [|n IH]; intros [|c s]; cbn; try done. intros [_ Hs]%andb_prop. by apply IH. Qed.
Lemma lower_no_dot s : no_dot s = true -> no_dot (lower s) = true.
Proof.
  unfold no_dot, lower. induction s as [|c s IH]; [done|]. intros [Hc Hs]%andb_prop. cbn. rewrite IH by done. rewrite andb_true_r.
  unfold tolower. destruct (isupper c) eqn:Hu; [|done]. unfold isupper in Hu. apply negb_true_iff, Ascii.eqb_neq. intros E.
  apply (f_equal code) in E. split_bools. rewrite code_chr in E by lia. change (code ".") with 46 in E. lia.
Qed.
Lemma drop_ext_id ext s : no_dot ext = false -> no_dot s = true -> drop_ext ext s = s.
Proof.
  intros He Hs. unfold drop_ext. case_match; [|done]. split_bools. exfalso.
  pose proof (lower_no_dot _ (sforall_sdrop _ (String.length s - String.length ext) _ Hs)) as Hl. unfold no_dot in *. congruence.
Qed.
Lemma drop_ext_sep ext s : no_sep s = true -> no_sep (drop_ext ext s) = true.
Proof. unfold drop_ext. case_match; [apply sforall_stake|done]. Qed.
Lemma base_part_sep s : no_sep (base_part s) = true.
Proof. induction s as [|c s IH]; [done|]. cbn [base_part]. destruct (sforall _ (String c s)) eqn:E; [exact E|exact IH]. Qed.
Lemma base_part_id s : no_sep s = true -> base_part s = s.
Proof. destruct s as [|c s]; [done|]. cbn [base_part]. unfold no_sep. by intros ->. Qed.
Lemma no_sep_workshop s : no_sep s = true -> starts_with "workshop/" s = false.
Proof. intros H. destruct (starts_with "workshop/" s) eqn:E; [|done]. apply starts_with_app in E as [r ->]. done. Qed.
Lemma base_again l : no_dot (LoadedBaseName l) = true -> LoadedBaseName (LoadedBaseName l) = LoadedBaseName l.
Proof.
  intros Hd. assert (no_sep (LoadedBaseName l) = true) as Hs by (apply drop_ext_sep, drop_ext_sep, base_part_sep).
  revert Hd Hs. generalize (LoadedBaseName l) as b. intros b Hd Hs. unfold LoadedBaseName. rewrite no_sep_workshop, base_part_id by done. by rewrite (drop_ext_id ".vpk"), (drop_ext_id ".bsp").
Qed.

Lemma size_insert_le (m : gmap string string) k v : (size (<[k := v]> m) <= S (size m))%nat.
Proof. destruct (m !! k) as [x|] eqn:E; [rewrite map_size_insert_Some by eauto; lia|by rewrite map_size_insert_None]. Qed.

(** A workshop entry without a name is known from its map load on: when the map that [host_workshop_map] asked for has
    loaded, every way to write the entry matches it and is shown by its name, unless 256 workshop maps were seen before. *)
Theorem workshop_recognised (b : Names) (id loaded : string) :
  IsDigits id = true -> sempty (LoadedBaseName loaded) = false -> no_dot (LoadedBaseName loaded) = true ->
  WorkshopIdOfLoaded loaded = EmptyString \/ WorkshopIdOfLoaded loaded = id -> (size (g_bound b) < 256)%nat ->
  let b' := NoteMapLoaded loaded (NoteWorkshopLoad id b) in
  g_pending b' = EmptyString /\ (size (g_bound b') <= 256)%nat /\
  forall entry, entry ∈ [id; "ws:" +s+ id; "workshop/" +s+ id] -> EntryMatchesLoaded entry loaded b' = true /\ DisplayName entry b' = LoadedBaseName loaded.
Proof.
  intros Hi Hb Hd Hid Hsz b'. destruct (IsDigits_digits _ Hi) as [_ He].
  assert (exists m, b' = {| g_bound := <[id := LoadedBaseName loaded]> m; g_pending := EmptyString |} /\ (size (<[id := LoadedBaseName loaded]> m) <= 256)%nat) as (m & -> & Hm).
  { unfold b', NoteWorkshopLoad. rewrite Hi. unfold NoteMapLoaded. rewrite Hb. cbn [g_bound g_pending]. rewrite He.
    pose proof (size_insert_le (g_bound b) id (LoadedBaseName loaded)) as Hs.
    destruct Hid as [-> | ->]; [|rewrite He, String.eqb_refl]; cbn [sempty orb].
    - exists (g_bound b). rewrite (proj2 (Z.ltb_ge 256 _)) by lia. split; [done|lia].
    - exists (<[id := LoadedBaseName loaded]> (g_bound b)). rewrite insert_insert_eq. rewrite (proj2 (Z.ltb_ge 256 _)) by lia. split; [done|lia]. }
  split; [done|]. split; [done|]. intros entry Hent.
  assert (ParseEntry entry = Some {| workshop_id := id; name := EmptyString |}) as Hp.
  { repeat (apply elem_of_cons in Hent as [->|Hent]; [first [by apply parse_id | by apply parse_ws | by apply parse_workshop]|]). by apply elem_of_nil in Hent. }
  unfold EntryMatchesLoaded, DisplayName. rewrite Hp. cbn [workshop_id name sempty negb]. unfold BoundName. cbn [g_bound]. rewrite lookup_insert_eq. cbn -[LoadedBaseName lower WorkshopIdOfLoaded String.eqb].
  rewrite Hb. split; [|done]. destruct (sempty loaded) eqn:El; [destruct loaded; [by vm_compute in Hb|done]|]. rewrite He.
  destruct Hid as [-> | ->]; [|by rewrite He, String.eqb_refl]. by rewrite base_again, String.eqb_refl.
Qed.

Lemma workshop_recognised_witness :
  let b' := NoteMapLoaded "aim_map" (NoteWorkshopLoad "3084291314" ResetBindings) in
  EntryMatchesLoaded "ws:3084291314" "aim_map" b' = true /\ DisplayName "3084291314" b' = "aim_map".
Proof.
  intros b'. destruct (workshop_recognised ResetBindings "3084291314" "aim_map") as (_ & _ & H); [vm_compute; reflexivity..|left; vm_compute; reflexivity|vm_compute; lia|].
  split; [apply (H "ws:3084291314")|apply (H "3084291314")]; set_solver.
Defined.

End MnFacts.
