(* ===== verification/KnifeTracker.v ===== *)
(** * The knife round's players

    [plugins/match/readyup/knife_tracker.cpp]: who of a side is still alive in the knife round and with how much
    health, read from the kill, attack and suicide lines of the server log.  Positions in a line are the remaining suffix. *)

From S2P Require Import Prelude CStr.

Module Kt.

Record Member := { team : Z; dead : bool; health : Z }.
Definition NewMember : Member := {| team := 0; dead := false; health := 100 |}.
Record Tracker := { g_active : bool; g_members : gmap Z Member }.

(** ** A player header, from the right *)

(** The text before the last [<] and the text behind it. *)
Fixpoint last_lt (s : string) : option (string * string) :=
  match s with
  | EmptyString => None
  | String c r =>
      match last_lt r with
      | Some (a, b) => Some (String c a, b)
      | None => if Ascii.eqb c "<" then Some (EmptyString, r) else None
      end
  end.
Fixpoint ends_gt (s : string) : bool :=
  match s with EmptyString => false | String c EmptyString => Ascii.eqb c ">" | String _ s => ends_gt s end.
(** At most [n] trailing groups [<..>], the last one first. *)
Fixpoint trailing (n : nat) (s : string) : list string :=
  match n with
  | O => []
  | S n =>
      if ends_gt s
      then match last_lt (stake (String.length s - 1) s) with Some (before, group) => group :: trailing n before | None => [] end
      else []
  end.

(** The userid and the side (0: none of the two). *)
Definition ParseHeader (header : string) : option (Z * Z) :=
  match trailing 3 header with
  | [t; _; uid] =>
      if sempty uid || negb (sforall isdigit uid) then None
      else Some (c_atoi uid, if t =s "CT" then 3 else if t =s "TERRORIST" then 2 else 0)
  | _ => None
  end.

(** The quoted text and what follows it. *)
Definition NextQuoted (s : string) : option (string * string) :=
  a ← find (str1 dquote) s;
  let s := sdrop (S a) s in
  b ← find (str1 dquote) s;
  Some (stake b s, sdrop (S b) s).

(** ** The tracker *)

Definition KnifeTrackerReset (active : bool) : Tracker := {| g_active := active; g_members := ∅ |}.

Definition member_of (uid : Z) (t : Tracker) : Member := default NewMember (g_members t !! uid).
Definition put (uid : Z) (m : Member) (t : Tracker) : Tracker := {| g_active := g_active t; g_members := <[uid := m]> (g_members t) |}.
Definition side_of (old new : Z) : Z := if new =? 0 then old else new.
Definition killed_member (side : Z) (m : Member) : Member := {| team := side_of (team m) side; dead := true; health := 0 |}.

Definition kKilled : string := qs " killed `".
Definition kAttacked : string := qs " attacked `".
Definition kHealth : string := qs "(health `".

Definition KnifeTrackerObserveLine (line : string) (t : Tracker) : Tracker :=
  if negb (g_active t) then t
  else
    let killed := find kKilled line in
    let attacked := match killed with Some _ => None | None => find kAttacked line end in
    match killed, attacked with
    | None, None =>
        if negb (contains " committed suicide" line) then t
        else
          match NextQuoted line with
          | None => t
          | Some (first, _) =>
              match ParseHeader first with None => t | Some (uid, side) => put uid (killed_member side (member_of uid t)) t end
          end
    | _, _ =>
        match NextQuoted line with
        | None => t
        | Some _ =>
            let from := match killed, attacked with Some i, _ => S i | None, Some i => S i | None, None => O end in
            match NextQuoted (sdrop from line) with
            | None => t
            | Some (victim, rest) =>
                match ParseHeader victim with
                | None => t
                | Some (uid, side) =>
                    let m := member_of uid t in
                    match killed with
                    | Some _ => put uid (killed_member side m) t
                    | None =>
                        let m := {| team := side_of (team m) side; dead := dead m; health := health m |} in
                        match find kHealth rest with
                        | None => put uid m t
                        | Some h =>
                            let hp := Z.max 0 (Z.min 100 (c_atoi (sdrop (h + 9) rest))) in
                            put uid {| team := team m; dead := dead m || (hp =? 0); health := hp |} t
                        end
                    end
                end
            end
        end
    end.

Definition KnifeTrackerSave (t : Tracker) : list (Z * Member) := map_to_list (g_members t).
Definition KnifeTrackerRestore (active : bool) (l : list (Z * Member)) : Tracker :=
  {| g_active := active; g_members := foldl (fun m kv => <[kv.1 := kv.2]> m) ∅ l |}.

Record KnifeSideStats := { members : Z; alive : Z; hp : Z }.
Definition count_one (t : Tracker) (s : KnifeSideStats) (uid : Z) : KnifeSideStats :=
  match g_members t !! uid with
  | None => {| members := members s + 1; alive := alive s + 1; hp := hp s + 100 |}
  | Some m =>
      if dead m then {| members := members s + 1; alive := alive s; hp := hp s |}
      else {| members := members s + 1; alive := alive s + 1; hp := hp s + health m |}
  end.
(** [players]: the team and the userid of the humans and the bots. *)
Definition KnifeTrackerStats (t : Tracker) (players : list (Z * Z)) (csTeam : Z) : KnifeSideStats :=
  foldl (count_one t) {| members := 0; alive := 0; hp := 0 |}
    (snd <$> List.filter (fun p : Z * Z => (p.1 =? csTeam) && (0 <=? p.2)) players).

End Kt.
