(* ===== verification/CvarSnapshot.v ===== *)
(** * The cvars a match changes

    [plugins/match/readyup/cvar_snapshot.{h,cpp}] (the snapshot: [Snapshot]) and [cvar_snapshot_glue.cpp] (the plugin's
    one snapshot: [Glue]).  The engine answers a query later, by a call of [OnValue]; an answer carries the
    generation of the snapshot it was asked for.  The text kept in state.json is [g_persisted]. *)

From S2P Require Import Prelude CStr Json JsonFacts.

Module Cs.

(** ** The snapshot *)

Record Snapshot := { values_ : gmap string string; asked_ : gset string }.
Definition Empty_ : Snapshot := {| values_ := ∅; asked_ := ∅ |}.
Definition Empty (s : Snapshot) : bool := bool_decide (values_ s = ∅) && bool_decide (asked_ s = ∅).

Definition quotable_char (c : ascii) : bool :=
  negb (Ascii.eqb c dquote || Ascii.eqb c ";" || (code c <? 32) || (code c =? 127)).
Definition QuotableValue (v : string) : bool := sforall quotable_char v.

(** Whether the value or the question is there. *)
Definition known (n : string) (s : Snapshot) : bool := bool_decide (is_Some (values_ s !! n)) || bool_decide (n ∈ asked_ s).

Fixpoint TakeKeysToQuery (keys : list string) (s : Snapshot) : list string * Snapshot :=
  match keys with
  | [] => ([], s)
  | k :: keys =>
      let n := lower k in
      if sempty n || known n s then TakeKeysToQuery keys s
      else let '(out, s) := TakeKeysToQuery keys {| values_ := values_ s; asked_ := {[ n ]} ∪ asked_ s |} in (n :: out, s)
  end.

Definition Record_ (name : string) (value : option string) (s : Snapshot) : Snapshot :=
  match value with
  | None => s
  | Some v =>
      let n := lower name in
      if sempty n then s
      else {| values_ := match values_ s !! n with Some _ => values_ s | None => <[n := v]> (values_ s) end; asked_ := {[ n ]} ∪ asked_ s |}
  end.

Definition Unask (name : string) (s : Snapshot) : Snapshot :=
  match values_ s !! lower name with Some _ => s | None => {| values_ := values_ s; asked_ := asked_ s ∖ {[ lower name ]} |} end.

(** The entries in the order of [std::map]. *)
Definition entry_le (a b : string * string) : Prop := str_le a.1 b.1.
#[export] Instance entry_le_dec : RelDecision entry_le.
Proof. intros a b. unfold entry_le. apply _. Defined.
Definition entries (m : gmap string string) : list (string * string) := merge_sort entry_le (map_to_list m).

Definition restore_line (kv : string * string) : string := kv.1 +s+ qs " `" +s+ kv.2 +s+ str1 dquote.
(** The commands and the skipped names. *)
Definition RestoreCommands (s : Snapshot) : list string * list string :=
  (restore_line <$> List.filter (fun kv : string * string => QuotableValue kv.2) (entries (values_ s)),
   fst <$> List.filter (fun kv : string * string => negb (QuotableValue kv.2)) (entries (values_ s))).

Definition json_of (withAsked : bool) (s : Snapshot) : Json :=
  JObject (("values", JObject ((fun kv : string * string => (kv.1, JString kv.2)) <$> entries (values_ s)))
           :: (if withAsked then [("asked", JArray (JString <$> merge_sort str_le (elements (asked_ s))))] else [])).
Definition ToJson (withAsked : bool) (s : Snapshot) : string := Dump (json_of withAsked s).

Definition read_value (m : gmap string string) (kv : string * Json) : gmap string string :=
  match kv.2 with JString v => <[lower kv.1 := v]> m | _ => m end.
Definition read_asked (a : gset string) (j : Json) : gset string :=
  match j with JString n => if sempty n then a else {[ lower n ]} ∪ a | _ => a end.
Definition of_json (withAsked : bool) (j : Json) : Snapshot :=
  let values := match Find j "values" with Some (JObject o) => foldl read_value ∅ o | _ => ∅ end in
  let asked := dom values in
  {| values_ := values;
     asked_ := if withAsked then match Find j "asked" with Some a => foldl read_asked asked (Items a) | None => asked end else asked |}.
(** [None]: the text is no object, the snapshot stays. *)
Definition FromJson (withAsked : bool) (text : string) : option Snapshot :=
  match Parse text with Parsed (JObject o) => Some (of_json withAsked (JObject o)) | _ => None end.

(** ** The plugin's snapshot *)

Record Glue := { g_snap : Snapshot; g_gen : Z; g_persisted : string }.
Definition Boot : Glue := {| g_snap := Empty_; g_gen := 1; g_persisted := EmptyString |}.

Definition QueryableName (n : string) : bool :=
  negb (sempty n) && (slen n <=? 63) && negb (contains "password" n) && sforall (fun c => isalnum c || Ascii.eqb c "_" || Ascii.eqb c ".") n.

Definition Persisted (s : Snapshot) : string := if bool_decide (values_ s = ∅) then EmptyString else ToJson false s.

(** The names to ask the engine for, with the generation of the question.  [query]: the core has [cvar_query]. *)
Definition CaptureMatchCvars (query : bool) (cvars : gmap string string) (g : Glue) : list (string * Z) * Glue :=
  if bool_decide (cvars = ∅) || negb query then ([], g)
  else
    let '(names, s) := TakeKeysToQuery (List.filter QueryableName (fst <$> map_to_list cvars)) (g_snap g) in
    ((fun n => (n, g_gen g)) <$> names, {| g_snap := s; g_gen := g_gen g; g_persisted := g_persisted g |}).

(** A question that could not be queued. *)
Definition not_queued (name : string) (gen : Z) (g : Glue) : Glue :=
  if gen =? g_gen g then {| g_snap := Unask name (g_snap g); g_gen := g_gen g; g_persisted := g_persisted g |} else g.

(** An answer ([None]: unknown to the engine). *)
Definition OnValue (gen : Z) (name : string) (value : option string) (g : Glue) : Glue :=
  if negb (gen =? g_gen g) then g
  else
    match value with
    | None => g
    | Some v => let s := Record_ name (Some v) (g_snap g) in {| g_snap := s; g_gen := g_gen g; g_persisted := Persisted s |}
    end.

Definition TakeRestoreCommands (g : Glue) : list string * Glue :=
  ((RestoreCommands (g_snap g)).1, {| g_snap := Empty_; g_gen := g_gen g + 1; g_persisted := Persisted Empty_ |}).
Definition Discard (g : Glue) : Glue :=
  if Empty (g_snap g) then g else {| g_snap := Empty_; g_gen := g_gen g + 1; g_persisted := Persisted Empty_ |}.

Definition ReloadJson (g : Glue) : string := ToJson true (g_snap g).
Definition RestoreReloadJson (text : string) (g : Glue) : Glue :=
  match FromJson true text with Some s => {| g_snap := s; g_gen := g_gen g + 1; g_persisted := g_persisted g |} | None => g end.
(** [text]: what state.json holds. *)
Definition RestorePersisted (text : option string) (g : Glue) : Glue :=
  match text ≫= FromJson false with Some s => {| g_snap := s; g_gen := g_gen g + 1; g_persisted := g_persisted g |} | None => g end.

End Cs.

(** * The cvars a match changes: theorems *)

Module CsFacts.
Import Cs.

(** ** Histories *)

Inductive GOp :=
  | GCapture (query : bool) (cvars : gmap string string) | GNotQueued (name : string) (gen : Z)
  | GAnswer (gen : Z) (name : string) (value : option string) | GTake | GDiscard.
Definition gstep (g : Glue) (o : GOp) : Glue :=
  match o with
  | GCapture query cvars => (CaptureMatchCvars query cvars g).2
  | GNotQueued name gen => not_queued name gen g
  | GAnswer gen name value => OnValue gen name value g
  | GTake => (TakeRestoreCommands g).2
  | GDiscard => Discard g
  end.
Definition grun (ops : list GOp) : Glue := foldl gstep Boot ops.

(** No answer comes before its question's generation. *)
Fixpoint in_time (g : Glue) (ops : list GOp) : Prop :=
  match ops with
  | [] => True
  | o :: ops => match o with GAnswer gen _ _ => gen <= g_gen g | _ => True end /\ in_time (gstep g o) ops
  end.

(** The value of the first answer for a name in a generation. *)
Fixpoint first_answer (gen : Z) (n : string) (ops : list GOp) : option string :=
  match ops with
  | [] => None
  | GAnswer k name (Some v) :: ops => if (k =? gen) && (lower name =s n) && negb (sempty n) then Some v else first_answer gen n ops
  | _ :: ops => first_answer gen n ops
  end.

Lemma first_answer_app gen n a b : first_answer gen n (a ++ b) = match first_answer gen n a with Some v => Some v | None => first_answer gen n b end.
Proof. induction a as [|[| |k name [v|]| |] a IH]; cbn [app first_answer]; try exact IH; try done. by destruct (_ && _). Qed.
Lemma grun_app a o : grun (a ++ [o]) = gstep (grun a) o.
Proof. unfold grun. by rewrite foldl_app. Qed.
Lemma in_time_app g a o : in_time g (a ++ [o]) -> in_time g a /\ match o with GAnswer gen _ _ => gen <= g_gen (foldl gstep g a) | _ => True end.
Proof. revert g. induction a as [|x a IH]; intros g; cbn; [tauto|]. intros [Hx Ha]. destruct (IH _ Ha). auto. Qed.

Lemma take_values keys s : values_ (TakeKeysToQuery keys s).2 = values_ s.
Proof.
  revert s. induction keys as [|k keys IH]; intros s; [done|]. cbn. case_match; [apply IH|].
  specialize (IH {| values_ := values_ s; asked_ := {[lower k]} ∪ asked_ s |}). by destruct (TakeKeysToQuery keys _).
Qed.
Lemma capture_values query cvars g : values_ (g_snap (CaptureMatchCvars query cvars g).2) = values_ (g_snap g) /\ g_gen (CaptureMatchCvars query cvars g).2 = g_gen g.
Proof.
  unfold CaptureMatchCvars. case_match; [done|]. pose proof (take_values (List.filter QueryableName (fst <$> map_to_list cvars)) (g_snap g)).
  by destruct (TakeKeysToQuery _ _).
Qed.
Lemma unask_values n s : values_ (Unask n s) = values_ s.
Proof. unfold Unask. by case_match. Qed.
Lemma empty_values s : Empty s = true -> values_ s = ∅.
Proof. unfold Empty. intros [H _]%andb_prop. by apply bool_decide_eq_true_1 in H. Qed.

Lemma record_lookup name v s n :
  values_ (Record_ name (Some v) s) !! n = match values_ s !! n with Some x => Some x | None => if (lower name =s n) && negb (sempty n) then Some v else None end.
Proof.
  unfold Record_. destruct (sempty (lower name)) eqn:E.
  - destruct (values_ s !! n); [done|]. destruct (String.eqb_spec (lower name) n) as [<-|]; [by rewrite E|done].
  - cbn. destruct (String.eqb_spec (lower name) n) as [<-|Hne]; cbn [andb].
    + rewrite E. destruct (values_ s !! lower name) eqn:Ev; [done|]. apply lookup_insert_eq.
    + destruct (values_ s !! lower name); [by destruct (values_ s !! n)|]. rewrite lookup_insert_ne by done. by destruct (values_ s !! n).
Qed.

(** The generation only grows, so an answer of an older one is none of the current. *)
Definition seen (g : Glue) (ops : list GOp) : Prop := forall gen n, g_gen g < gen -> first_answer gen n ops = None.

Lemma glue_values ops : in_time Boot ops ->
  seen (grun ops) ops /\ forall n, values_ (g_snap (grun ops)) !! n = first_answer (g_gen (grun ops)) n ops.
Proof.
  induction ops as [|o ops IH] using rev_ind; intros Ht; [done|]. apply in_time_app in Ht as [Ht Ho]. destruct (IH Ht) as [Hs Hv]. clear IH.
  fold (grun ops) in Ho. rewrite grun_app. set (g := grun ops) in *.
  assert (forall g', g_gen g' = g_gen g -> values_ (g_snap g') = values_ (g_snap g) -> (forall gen n, first_answer gen n [o] = None) ->
            seen g' (ops ++ [o]) /\ forall n, values_ (g_snap g') !! n = first_answer (g_gen g') n (ops ++ [o])) as Hsame.
  { intros g' Hg Hval Hno. split; [intros gen n Hgen|intros n]; rewrite first_answer_app, Hno; [rewrite Hs by lia; done|]. rewrite Hval, Hg, Hv. by destruct (first_answer _ _ ops). }
  assert (forall g', g_gen g' = g_gen g + 1 -> values_ (g_snap g') = ∅ -> (forall gen n, first_answer gen n [o] = None) ->
            seen g' (ops ++ [o]) /\ forall n, values_ (g_snap g') !! n = first_answer (g_gen g') n (ops ++ [o])) as Hnew.
  { intros g' Hg Hval Hno. split; [intros gen n Hgen|intros n]; rewrite first_answer_app, Hno; [rewrite Hs by lia; done|]. by rewrite Hval, Hg, Hs, lookup_empty by lia. }
  destruct o as [query cvars|name gen|gen name value| |]; cbn [gstep].
  - destruct (capture_values query cvars g). by apply Hsame.
  - apply Hsame; try done; cbn; unfold not_queued; case_match; cbn; auto using unask_values.
  - unfold OnValue. destruct (Z.eqb_spec gen (g_gen g)) as [->|Hne]; cbn [negb].
    + destruct value as [v|]; [|by apply Hsame]. cbn [g_snap g_gen]. split.
      * intros gen n Hgen. cbn [g_gen] in Hgen. rewrite first_answer_app, Hs by lia. cbn. by rewrite (proj2 (Z.eqb_neq (g_gen g) gen)) by lia.
      * intros n. rewrite record_lookup, Hv, first_answer_app. cbn [first_answer]. by rewrite Z.eqb_refl.
    + split; [intros k n Hk|intros n]; rewrite first_answer_app.
      * rewrite Hs by lia. cbn. destruct value; [|done]. by rewrite (proj2 (Z.eqb_neq gen k)) by lia.
      * rewrite Hv. destruct (first_answer _ n ops); [done|]. cbn. destruct value; [|done]. by rewrite (proj2 (Z.eqb_neq gen (g_gen g))) by lia.
  - by apply Hnew.
  - unfold Discard. destruct (Empty (g_snap g)) eqn:E; [|by apply Hnew]. by apply Hsame.
Qed.

#[export] Instance str_le_total : Total str_le.
Proof. intros a b. unfold str_le. destruct (String.leb_total a b); auto. Qed.
#[export] Instance entry_le_total : Total entry_le.
Proof. intros a b. apply str_le_total. Qed.

(** Claim C30.  What a series end puts back is what was there before the match: after any history of captures, answers and earlier
    series ends, the restore commands are one line per cvar whose first answer since the last restore is a value that can be
    quoted, with that value, in the order of the names; answers to older questions count for nothing, and after the
    restore nothing is left to restore. *)
Theorem cvars_restored (ops : list GOp) : in_time Boot ops ->
  let g := grun ops in
  exists m : gmap string string,
    (forall n, m !! n = first_answer (g_gen g) n ops) /\
    (TakeRestoreCommands g).1 = restore_line <$> List.filter (fun kv : string * string => QuotableValue kv.2) (entries m) /\
    entries m ≡ₚ map_to_list m /\ Sorted entry_le (entries m) /\
    g_gen (TakeRestoreCommands g).2 = g_gen g + 1 /\ (TakeRestoreCommands (TakeRestoreCommands g).2).1 = [].
Proof.
  intros Ht g. destruct (glue_values ops Ht) as [_ Hv]. exists (values_ (g_snap g)). split_and!; [exact Hv|done|apply merge_sort_Permutation| |done|done].
  apply Sorted_merge_sort, _.
Qed.

(** A cvar read twice, with a match of its own in between. *)
Definition sample_ops : list GOp :=
  [GCapture true {[ "MP_MaxRounds" := "24" ]}; GAnswer 1 "mp_maxrounds" (Some "30"); GAnswer 1 "mp_maxrounds" (Some "24"); GTake;
   GCapture true {[ "mp_maxrounds" := "16" ]}; GAnswer 1 "mp_maxrounds" (Some "24"); GAnswer 2 "mp_maxrounds" (Some "30")].
Lemma cvars_restored_witness : in_time Boot sample_ops /\ (TakeRestoreCommands (grun sample_ops)).1 = [qs "mp_maxrounds `30`"].
Proof.
  assert (in_time Boot sample_ops) as Ht by (vm_compute; split_and!; first [exact I|discriminate]). split; [exact Ht|].
  destruct (cvars_restored sample_ops Ht) as (m & _ & _). vm_compute. reflexivity.
Defined.

(** Passwords are kept out of the questions by a comparison that sees case, before the names are put in lower case: this
    one is read, and so printed to the console. *)
Example password_asked :
  QueryableName "tv_password" = false /\ (CaptureMatchCvars true {[ "TV_Password" := "secret" ]} Boot).1 = [("tv_password", 1)].
Proof. vm_compute. auto. Qed.

End CsFacts.
