(* ===== verification/Modes.v ===== *)
(** * The match modes: state, environment, and the operations that change the mode

    [plugins/match/readyup/modes.{h,cpp}], with the small files it uses ([match_state.h], [team_lock.h],
    [wingman.cpp], the command lists of [weapon_cleanup.h]).  The plugin is in one mode at a time; console
    commands, chat commands, engine events and a periodic tick change it.  What the code reads elsewhere (the
    clock, the players, settings, other components' answers) is the record [Env]; what it does elsewhere is a
    list of [Eff]s in call order.  [lastUi] is left out: it is cleared in places and never filled.  Console and
    debug lines are not modelled.  Times are nanoseconds of the steady clock, 0 for none. *)

From S2P Require Import Prelude CStr Double MatchRules MatchEnd MatchConfig MapNames.

Module Mo.

Inductive ReadyUpMode := Idle | Practice | MatchWarmup | MatchKnife | MatchLive | Postgame | ScrimWarmup | External.
#[export] Instance ReadyUpMode_eq_dec : EqDecision ReadyUpMode.
Proof. solve_decision. Defined.
Inductive KnifePhase := KnifeNone | KnifeStarting | KnifeRunning | KnifePicking.
#[export] Instance KnifePhase_eq_dec : EqDecision KnifePhase.
Proof. solve_decision. Defined.

Definition is_mode (a b : ReadyUpMode) : bool := bool_decide (a = b).

(** ** State *)

Record Warmup := {
  warmupEnabled : bool; warmupHtml : string; warmupHtmlCustom : bool; warmupRespawn : bool; warmupIgnoreWin : bool; warmupRoundTimeMinutes : Z;
  warmupStartMoney : Z; warmupMaxMoney : Z; warmupBuyAnywhere : bool; warmupInfiniteAmmo : bool }.
#[export] Instance Warmup_eta : Eta Warmup := fun r =>
  {| warmupEnabled := warmupEnabled r; warmupHtml := warmupHtml r; warmupHtmlCustom := warmupHtmlCustom r; warmupRespawn := warmupRespawn r;
     warmupIgnoreWin := warmupIgnoreWin r; warmupRoundTimeMinutes := warmupRoundTimeMinutes r; warmupStartMoney := warmupStartMoney r;
     warmupMaxMoney := warmupMaxMoney r; warmupBuyAnywhere := warmupBuyAnywhere r; warmupInfiniteAmmo := warmupInfiniteAmmo r |}.

Record Knife := {
  knifeMapNumber : Z; knifeRulesApplied : bool; knifeStartedSent : bool; knifeEndedSent : bool; knifeWinner : WebhookTeam; knifeAwaitingPick : bool;
  knifePickDeadline : Z; knifePhase : KnifePhase; knifeTriggeredAt : Z; knifeWinnerCs : Z; knifeReasonShort : string; knifeReminderSent : bool;
  knifeLogdetailSet : bool }.
#[export] Instance Knife_eta : Eta Knife := fun r =>
  {| knifeMapNumber := knifeMapNumber r; knifeRulesApplied := knifeRulesApplied r; knifeStartedSent := knifeStartedSent r; knifeEndedSent := knifeEndedSent r;
     knifeWinner := knifeWinner r; knifeAwaitingPick := knifeAwaitingPick r; knifePickDeadline := knifePickDeadline r; knifePhase := knifePhase r;
     knifeTriggeredAt := knifeTriggeredAt r; knifeWinnerCs := knifeWinnerCs r; knifeReasonShort := knifeReasonShort r;
     knifeReminderSent := knifeReminderSent r; knifeLogdetailSet := knifeLogdetailSet r |}.

(** What was sent for the current map, and the maps won. *)
Record Series := {
  lifecycleMapNumber : Z; warmupEndedSent : bool; goingLiveSent : bool; mapResultEmittedForMapNumber : Z; seriesWinsTeam1 : Z; seriesWinsTeam2 : Z }.
#[export] Instance Series_eta : Eta Series := fun r =>
  {| lifecycleMapNumber := lifecycleMapNumber r; warmupEndedSent := warmupEndedSent r; goingLiveSent := goingLiveSent r;
     mapResultEmittedForMapNumber := mapResultEmittedForMapNumber r; seriesWinsTeam1 := seriesWinsTeam1 r; seriesWinsTeam2 := seriesWinsTeam2 r |}.

Record State := {
  mode : ReadyUpMode; externalName : string; externalTouchedGameMode : bool; wingmanGameMode : bool; cfgExecEnabled : bool; idleCfgExecuted : bool;
  idleIgnoreWinSent : Z; ready : gmap Z bool; lastKick : gmap Z Z; lastForceJoin : gmap Z Z; matchLoadedChatSent : bool; lastNotReadyChat : Z;
  lastSeenMap : string; warmupRulesApplied : bool; startTriggered : bool; lastGateCmd : Z; recoveryGate : bool; practiceRulesApplied : bool;
  practiceResetPending : bool; lastNativeWarmupEnd : Z; demoRecording : bool; demoMapNumber : Z; demoName : string;
  warmup : Warmup; knife : Knife; series : Series }.
#[export] Instance State_eta : Eta State := fun r =>
  {| mode := mode r; externalName := externalName r; externalTouchedGameMode := externalTouchedGameMode r; wingmanGameMode := wingmanGameMode r;
     cfgExecEnabled := cfgExecEnabled r; idleCfgExecuted := idleCfgExecuted r; idleIgnoreWinSent := idleIgnoreWinSent r; ready := ready r;
     lastKick := lastKick r; lastForceJoin := lastForceJoin r; matchLoadedChatSent := matchLoadedChatSent r; lastNotReadyChat := lastNotReadyChat r;
     lastSeenMap := lastSeenMap r; warmupRulesApplied := warmupRulesApplied r; startTriggered := startTriggered r; lastGateCmd := lastGateCmd r;
     recoveryGate := recoveryGate r; practiceRulesApplied := practiceRulesApplied r; practiceResetPending := practiceResetPending r;
     lastNativeWarmupEnd := lastNativeWarmupEnd r; demoRecording := demoRecording r; demoMapNumber := demoMapNumber r; demoName := demoName r;
     warmup := warmup r; knife := knife r; series := series r |}.

Definition br : string := "<br>".
Definition html_head : string := "<b><font color='yellow'>Ready Up</font></b>" +s+ br.
Definition html_foot : string := "Type <b>.r</b> to ready up.".
Definition kDefaultHtml : string := html_head +s+ "You are not ready yet." +s+ br +s+ html_foot.
Definition kRecoveredHtml : string := html_head +s+ "Recovered match." +s+ br +s+ "Waiting for all players to connect + ready." +s+ br +s+ html_foot.

Definition BootWarmup : Warmup :=
  {| warmupEnabled := true; warmupHtml := kDefaultHtml; warmupHtmlCustom := false; warmupRespawn := true; warmupIgnoreWin := true;
     warmupRoundTimeMinutes := 60; warmupStartMoney := 16000; warmupMaxMoney := 16000; warmupBuyAnywhere := true; warmupInfiniteAmmo := true |}.
Definition BootKnife : Knife :=
  {| knifeMapNumber := 0; knifeRulesApplied := false; knifeStartedSent := false; knifeEndedSent := false; knifeWinner := TeamUnknown;
     knifeAwaitingPick := false; knifePickDeadline := 0; knifePhase := KnifeNone; knifeTriggeredAt := 0; knifeWinnerCs := 0;
     knifeReasonShort := EmptyString; knifeReminderSent := false; knifeLogdetailSet := false |}.
Definition BootSeries : Series :=
  {| lifecycleMapNumber := 0; warmupEndedSent := false; goingLiveSent := false; mapResultEmittedForMapNumber := 0; seriesWinsTeam1 := 0; seriesWinsTeam2 := 0 |}.
Definition BootState : State :=
  {| mode := Idle; externalName := EmptyString; externalTouchedGameMode := false; wingmanGameMode := false; cfgExecEnabled := false; idleCfgExecuted := false;
     idleIgnoreWinSent := -1; ready := ∅; lastKick := ∅; lastForceJoin := ∅; matchLoadedChatSent := false; lastNotReadyChat := 0;
     lastSeenMap := EmptyString; warmupRulesApplied := false; startTriggered := false; lastGateCmd := 0; recoveryGate := false;
     practiceRulesApplied := false; practiceResetPending := false; lastNativeWarmupEnd := 0; demoRecording := false; demoMapNumber := 0;
     demoName := EmptyString; warmup := BootWarmup; knife := BootKnife; series := BootSeries |}.

(** ** Environment and effects *)

(** [MatchStateSnapshot]: what the log and the events say of the running map. *)
Record MatchStateSnapshot := { map_number : Z; round_number : Z; team1_score : Z; team2_score : Z; current_map : string }.
#[export] Instance MatchStateSnapshot_eta : Eta MatchStateSnapshot := fun r =>
  {| map_number := map_number r; round_number := round_number r; team1_score := team1_score r; team2_score := team2_score r; current_map := current_map r |}.
Definition MatchStateSetMap (n : Z) (name : string) (s : MatchStateSnapshot) : MatchStateSnapshot :=
  (if 1 <=? n then s <| map_number := n |> else s) <| current_map := name |>.
Definition MatchStateSetRound (n : Z) (s : MatchStateSnapshot) : MatchStateSnapshot := if 0 <=? n then s <| round_number := n |> else s.
Definition MatchStateSetScore (a b : Z) (s : MatchStateSnapshot) : MatchStateSnapshot := s <| team1_score := a |> <| team2_score := b |>.

(** A player of the registry: a human, or a bot (id 0). *)
Record Person := { p_sid : Z; p_slot : Z; p_team : Z; p_name : string }.
Record KnifeSide := { alive : Z; hp : Z }.

Record Env := {
  now : Z;
  (** Whether the command buffer takes a line. *)
  takes : string -> bool;
  ms : MatchStateSnapshot; humans : list Person; bots : list Person; slots : list Person;
  engineTeam : Z -> option Z; swapCount : Z; simConnected : list Z; isAdmin : Z -> bool; isCoach : Z -> bool; isGuest : Z -> bool;
  knifeFeature : bool; simulating : bool; devBots : bool; hudReplacesChat : bool; hudScreens : bool; readyHudShowing : bool; signalsOn : bool;
  goLiveAllowed : bool -> bool; resumeWaiting : bool; minPlayersToReady : Z; minSpectatorsToReady : Z; playoutOn : bool; whitelistOn : bool;
  resetCvars : bool; restoreCommands : list string; ruleCommands : list string; liveCfgRequired : bool; liveCfgCommand : string;
  paused : bool; statsLive : bool; statsTeam1Ct : bool; damage : Z * Z; knifeStats : Z -> KnifeSide; coin : bool; knifePickSeconds : Z;
  recorderBusy : bool; recorderStarts : bool; scrimAuto : bool; disabled : bool; dryRun : bool;
  boundNames : Mn.Names }.

Definition Args := list (string * string).
Record RecordingInfo := {
  ri_matchid : Z; ri_slug : string; ri_mapNumber : Z; ri_mapName : string; ri_team1 : string; ri_team2 : string; ri_record : Z; ri_upload : Z }.
Record MapEndInput := {
  in_mapNumber : Z; in_mapName : string; in_winner : string; in_team1Score : Z; in_team2Score : Z; in_team1SeriesScore : Z; in_team2SeriesScore : Z;
  in_seriesOver : bool; in_nextMap : string; in_seriesWinner : string; in_decidedByDamage : bool; in_team1Damage : Z; in_team2Damage : Z }.

Inductive Eff :=
  | Cmd (line : string) | AfterCfg (lines : list string) | ChatAll (key : string) (args : Args) | ImportantAll (key : string) (args : Args)
  | SidesNotice (timedOut stayed wantsCt : bool) (team side : string)
  | Heartbeat (status : string) | SidePicked (map : Z) (name side by_ team : string) | Signal (name : string) (fields : Args) (map : Z)
  | WarmupEnded (map : Z) | GoingLive (map : Z) | KnifeStarted (map : Z) | KnifeEnded (map : Z) (team : string)
  | MapResultOf (map : Z) (name : string) (s1 s2 : Z) (winner : string) (w1 w2 : Z) | WebhookEvent (json : string)
  | PersistLiveFlag (live : bool) | ClearActiveMatch | NoteProgress | RefreshAdmins | CancelMapEnd | MapComplete (i : MapEndInput)
  | StatsBegin (team1Ct : bool) | StatsClear | PauseOff | PauseResetUsage | EnableBackups (matchid map : Z) | GoLiveCard (restartPending : bool)
  | RecorderStart (i : RecordingInfo) | RecorderStop | TrackerReset (active : bool) | CaptureCvars (names : gmap string string)
  | TakeRestore | DiscardSnapshot | MoveLater (slot sid team : Z) (name : string) | RestartLater (delay : double) | RulesLater | BeginMatchCheck (at_ : double)
  | GameOverLater (ct t : Z) | SuppressRoundEnd (on : bool)
  | SeriesStart | SeriesEnd (w1 w2 : Z) (winner : string) (restoreIn : Z) | StateLog (fields reason : string).

(** The modes' state with what else the file keeps (bot fill's empty-server clock, the tries of the team lock), the
    loaded match, and the effects so far. *)
Record World := { st : State; emptySince : option Z; moves : gmap Z (Z * Z * Z); ctx : option WebhookMatchContext; out : list Eff }.
#[export] Instance World_eta : Eta World := fun r => {| st := st r; emptySince := emptySince r; moves := moves r; ctx := ctx r; out := out r |}.
Definition BootWorld : World := {| st := BootState; emptySince := None; moves := ∅; ctx := None; out := [] |}.

Definition M (A : Type) : Type := World -> A * World.
#[export] Instance M_ret : MRet M := fun A a w => (a, w).
#[export] Instance M_bind : MBind M := fun A B k m w => let '(a, w') := m w in k a w'.
Definition gets {A} (f : World -> A) : M A := fun w => (f w, w).
Definition change (f : World -> World) : M unit := fun w => (tt, f w).
Definition upd (f : State -> State) : M unit := change (fun w => w <| st := f (st w) |>).
Definition emit (e : Eff) : M unit := change (fun w => w <| out := out w ++ [e] |>).
Definition emits (l : list Eff) : M unit := change (fun w => w <| out := out w ++ l |>).
Definition when (b : bool) (m : M unit) : M unit := if b then m else mret tt.

Section Ops.
Context (E : Env).

(** [EnqueueServerCommand]. *)
Definition enqueue (line : string) : M bool := if takes E line then emit (Cmd line) ;; mret true else mret false.
Definition send (line : string) : M unit := enqueue line ;; mret tt.
(** Whether any of the lines was taken. *)
Fixpoint enqueue_all (lines : list string) : M bool :=
  match lines with [] => mret false | l :: rest => a ← enqueue l; b ← enqueue_all rest; mret (a || b) end.
(** [EnqueueAfterCfg]. *)
Definition EnqueueAfterCfg (lines : list string) : M unit := match lines with [] => mret tt | _ => emit (AfterCfg lines) end.

Definition map_or_1 (n : Z) : Z := if n <=? 0 then 1 else n.
Definition mapNumberNow : Z := map_or_1 (map_number (ms E)).

(** ** The knife state, the demo *)

Definition ResetKnife (mapNumber : Z) : M unit :=
  set_ ← gets (fun w => knifeLogdetailSet (knife (st w)));
  upd (fun s => s <| knife := BootKnife <| knifeMapNumber := mapNumber |> <| knifeLogdetailSet := set_ |> |>) ;;
  emit (TrackerReset false) ;;
  when set_ (send "mp_logdetail 0" ;; upd (fun s => s <| knife := knife s <| knifeLogdetailSet := false |> |>)).

Definition StopDemo : M unit :=
  emit RecorderStop ;; upd (fun s => s <| demoRecording := false |> <| demoMapNumber := 0 |> <| demoName := EmptyString |>).

(** The lines of a map's lifecycle are sent again, the series starts at 0-0. *)
Definition lifecycle_reset (s : State) : State :=
  s <| series := series s <| lifecycleMapNumber := 0 |> <| warmupEndedSent := false |> <| goingLiveSent := false |> |>.
Definition series_reset (s : State) : State :=
  let s := lifecycle_reset s in
  s <| series := series s <| mapResultEmittedForMapNumber := 0 |> <| seriesWinsTeam1 := 0 |> <| seriesWinsTeam2 := 0 |> |>.

(** ** Operations that set the mode *)

Definition ModesOnMapStart : M unit := upd (fun s => s <| lastSeenMap := EmptyString |>).

Definition SetModeIdle : M unit :=
  StopDemo ;;
  upd (fun s => if is_mode (mode s) Practice then s <| practiceResetPending := true |> else s) ;;
  upd (fun s => series_reset (s <| mode := Idle |> <| externalName := EmptyString |> <| idleCfgExecuted := false |> <| warmupRulesApplied := false |> <| startTriggered := false |>)) ;;
  ResetKnife 0.

Definition SetModeExternal (name : string) : M bool :=
  m ← gets (fun w => mode (st w));
  if negb (is_mode m Idle || is_mode m ScrimWarmup || is_mode m External) then mret false
  else
    StopDemo ;;
    upd (fun s => series_reset (s <| mode := External |> <| externalName := name |> <| externalTouchedGameMode := true |> <| idleCfgExecuted := false |>
                                  <| ready := ∅ |> <| warmupRulesApplied := false |> <| startTriggered := false |>)) ;;
    ResetKnife 0 ;;
    mret true.

Definition SetModePractice : M unit :=
  StopDemo ;;
  upd (fun s => series_reset (s <| mode := Practice |> <| externalName := EmptyString |> <| idleCfgExecuted := false |> <| warmupRulesApplied := false |>
                                <| startTriggered := false |> <| practiceRulesApplied := false |> <| practiceResetPending := false |>)) ;;
  ResetKnife 0.

Definition SetModeScrimWarmup : M bool :=
  m ← gets (fun w => mode (st w));
  if negb (is_mode m Idle) then mret false
  else
    upd (fun s => s <| mode := ScrimWarmup |> <| idleCfgExecuted := false |> <| warmupRulesApplied := false |> <| startTriggered := false |> <| lastNotReadyChat := 0 |>) ;;
    mret true.

Definition SetModeMatchWarmupForRecovery : M unit :=
  upd (fun s => s <| mode := MatchWarmup |> <| idleCfgExecuted := false |> <| warmupRulesApplied := false |> <| startTriggered := false |>).

(** [WebhookSetMatchContext] came before. *)
Definition OnMatchLoaded : M unit :=
  emits [CancelMapEnd; StatsClear; PauseOff; PauseResetUsage] ;;
  touched ← gets (fun w => externalTouchedGameMode (st w));
  when touched (send "game_type 0" ;; send "game_mode 1" ;; upd (fun s => s <| externalTouchedGameMode := false |>)) ;;
  c ← gets ctx;
  when (match c with Some c => c_wingman c | None => false end) (upd (fun s => s <| wingmanGameMode := true |>)) ;;
  upd (fun s => series_reset (s <| mode := MatchWarmup |> <| externalName := EmptyString |> <| idleCfgExecuted := false |> <| ready := ∅ |>
                                <| warmupRulesApplied := false |> <| startTriggered := false |>)) ;;
  change (fun w => w <| emptySince := None |>) ;;
  ResetKnife 0 ;;
  emit (PersistLiveFlag false) ;;
  upd (fun s => s <| recoveryGate := false |> <| lastForceJoin := ∅ |> <| matchLoadedChatSent := false |> <| lastNotReadyChat := 0 |>) ;;
  emit RefreshAdmins.

Definition RestartMatch : M bool :=
  c ← gets ctx;
  match c with
  | None => mret false
  | Some _ =>
      StopDemo ;;
      emits [CancelMapEnd; StatsClear] ;;
      upd (fun s => series_reset (s <| mode := MatchWarmup |> <| idleCfgExecuted := false |> <| ready := ∅ |> <| warmupRulesApplied := false |> <| startTriggered := false |>)) ;;
      ResetKnife 0 ;;
      emit (PersistLiveFlag false) ;;
      upd (fun s => s <| recoveryGate := false |>) ;;
      emit (Heartbeat "warmup") ;;
      send "mp_restartgame 1" ;;
      mret true
  end.

Definition kNoTeamNames : list string := [qs "mp_teamname_1 ``"; qs "mp_teamname_2 ``"; qs "mp_teamflag_1 ``"; qs "mp_teamflag_2 ``"].
Definition kNeutralRules : list string :=
  ["mp_respawn_on_death_ct 0"; "mp_respawn_on_death_t 0"; "mp_ignore_round_win_conditions 0"; "mp_buy_anywhere 0"; "mp_respawn_immunitytime 0";
   "mp_buy_during_immunity 0"; "mp_buytime 20"; "sv_infinite_ammo 0"; "sv_cheats 0"].

Definition ResetServerRulesAndRestart : M bool :=
  if resetCvars E
  then emit TakeRestore ;; enqueue_all (kNeutralRules ++ kNoTeamNames ++ restoreCommands E ++ ["mp_restartgame 1"])
  else emit DiscardSnapshot ;; enqueue_all (kNeutralRules ++ kNoTeamNames ++ ["mp_restartgame 1"]).

Definition EndMatchResetServer : M bool :=
  StopDemo ;;
  emits [CancelMapEnd; StatsClear; PauseOff; PauseResetUsage] ;;
  ok ← ResetServerRulesAndRestart;
  upd (fun s => series_reset (s <| mode := Idle |> <| externalName := EmptyString |> <| idleCfgExecuted := false |> <| ready := ∅ |> <| warmupRulesApplied := false |>
                                <| startTriggered := false |> <| practiceRulesApplied := false |> <| practiceResetPending := false |>)) ;;
  ResetKnife 0 ;;
  emits [Heartbeat "idle"; ClearActiveMatch] ;;
  upd (fun s => s <| recoveryGate := false |>) ;;
  mret ok.

(** A series is over. *)
Definition ResetToIdleAfterSeries : M unit :=
  (if resetCvars E then ResetServerRulesAndRestart ;; mret tt
   else emit DiscardSnapshot ;; enqueue_all (kNoTeamNames ++ ["mp_restartgame 1"]) ;; mret tt) ;;
  upd (fun s => series_reset (s <| mode := Idle |> <| idleCfgExecuted := false |> <| ready := ∅ |> <| warmupRulesApplied := false |> <| startTriggered := false |>
                                <| practiceRulesApplied := false |> <| practiceResetPending := false |> <| demoRecording := false |>)) ;;
  ResetKnife 0 ;;
  upd (fun s => s <| recoveryGate := false |>) ;;
  emit (Heartbeat "idle").

Definition ModesFinishSeriesResetToIdle : M unit :=
  change (fun w => w <| ctx := None |>) ;; emits [ClearActiveMatch; StatsClear] ;; ResetToIdleAfterSeries.

Definition ModesBeginNextMapWarmup : M unit :=
  m ← gets (fun w => mode (st w));
  when (is_mode m Postgame)
    (emit PauseResetUsage ;;
     upd (fun s => lifecycle_reset (s <| mode := MatchWarmup |> <| idleCfgExecuted := false |> <| ready := ∅ |> <| warmupRulesApplied := false |> <| startTriggered := false |>)) ;;
     emit (Heartbeat "warmup")).

Definition ModesSetSeriesWins (team1 team2 : Z) : M unit :=
  upd (fun s => s <| series := series s <| seriesWinsTeam1 := Z.max 0 team1 |> <| seriesWinsTeam2 := Z.max 0 team2 |> |>).

Definition set_html (h : string) (s : State) : State := s <| warmup := warmup s <| warmupHtml := h |> |>.
Definition SetRecoveryGate (enabled : bool) : M unit :=
  upd (fun s => s <| recoveryGate := enabled |>) ;;
  if enabled then upd (fun s => set_html kRecoveredHtml s <| warmupRulesApplied := true |> <| startTriggered := true |>)
  else upd (fun s => if contains "Recovered match" (warmupHtml (warmup s)) then set_html kDefaultHtml s else s).

(** ** Ready states and warmup settings *)

Definition is_ready (r : gmap Z bool) (sid : Z) : bool := default false (r !! sid).
(** The new state of the player (false without one). *)
Definition ToggleReady (sid : Z) : M bool :=
  if sid =? 0 then mret false
  else cur ← gets (fun w => is_ready (ready (st w)) sid); upd (fun s => s <| ready := <[sid := negb cur]> (ready s) |>) ;; mret (negb cur).
Definition SetReady (sid : Z) (r : bool) : M bool :=
  if sid =? 0 then mret false
  else prev ← gets (fun w => is_ready (ready (st w)) sid); upd (fun s => s <| ready := <[sid := r]> (ready s) |>) ;; mret prev.
Definition ClearReady (sid : Z) : M unit := when (negb (sid =? 0)) (upd (fun s => s <| ready := delete sid (ready s) |>)).
Definition ClearReadyStates : M unit := upd (fun s => s <| ready := ∅ |>).

Definition upd_warmup (f : Warmup -> Warmup) : M unit := upd (fun s => s <| warmup := f (warmup s) |>).
(** A changed setting: the rules are applied again. *)
Definition rewarm (f : Warmup -> Warmup) : M unit := upd (fun s => s <| warmup := f (warmup s) |> <| warmupRulesApplied := false |>).

Definition SetWarmupEnabled (b : bool) : M unit := upd_warmup (fun w => w <| warmupEnabled := b |>).
Definition SetWarmupHtmlMessage (html : string) : M unit :=
  if sempty html then upd_warmup (fun w => w <| warmupHtml := kDefaultHtml |> <| warmupHtmlCustom := false |>)
  else upd_warmup (fun w => w <| warmupHtml := html |> <| warmupHtmlCustom := true |>).
Definition SetCfgExecEnabled (b : bool) : M unit :=
  upd (fun s => let s := s <| cfgExecEnabled := b |> in if b && is_mode (mode s) Idle then s <| idleCfgExecuted := false |> else s).
Definition SetWarmupRespawnEnabled (b : bool) : M unit := rewarm (fun w => w <| warmupRespawn := b |>).
Definition SetWarmupIgnoreWinConditions (b : bool) : M unit := rewarm (fun w => w <| warmupIgnoreWin := b |>).
Definition SetWarmupRoundTimeMinutes (n : Z) : M unit := rewarm (fun w => w <| warmupRoundTimeMinutes := Z.max 1 (Z.min 120 n) |>).
Definition SetWarmupStartMoney (n : Z) : M unit :=
  rewarm (fun w => let n := Z.max 0 (Z.min 60000 n) in w <| warmupStartMoney := n |> <| warmupMaxMoney := Z.max (warmupMaxMoney w) n |>).
Definition SetWarmupMaxMoney (n : Z) : M unit :=
  rewarm (fun w => let n := Z.max 0 (Z.min 60000 n) in w <| warmupMaxMoney := n |> <| warmupStartMoney := Z.min (warmupStartMoney w) n |>).
Definition SetWarmupBuyAnywhereEnabled (b : bool) : M unit := rewarm (fun w => w <| warmupBuyAnywhere := b |>).
Definition SetWarmupInfiniteAmmoEnabled (b : bool) : M unit := rewarm (fun w => w <| warmupInfiniteAmmo := b |>).

End Ops.

End Mo.
