(* ===== verification/ModesLive.v ===== *)
(** * The match modes: warmup rules, going live and the knife round

    [plugins/match/readyup/modes.cpp]: the rules of the warmups, the check that everyone is ready, the ways a map
    goes live, and the knife round with its side choice.  An unordered container is visited in the order of
    [map_to_list]; the reason why a match does not go live is for the log and not modelled. *)

From S2P Require Import Prelude CStr Double MatchRules MatchEnd MatchConfig MapNames Modes.

Module Live.
Import Mo.

(** ** The map's sides *)

Definition map_side (c : WebhookMatchContext) (n : Z) : option string := if n <=? 0 then None else c_map_sides c !! Z.to_nat (n - 1).
Definition map_name (c : WebhookMatchContext) (n : Z) : option string := if n <=? 0 then None else c_maplist c !! Z.to_nat (n - 1).
(** Whether team 1 starts map [n] on CT. *)
Definition team1_starts_ct (c : WebhookMatchContext) (n : Z) : bool := match map_side c n with Some s => negb (s =s "team2_ct") | None => true end.

Definition scrim (c : WebhookMatchContext) : bool := c_slug c =s "scrim".
Definition CsSideName (cs : Z) : string := if cs =? 3 then "CT" else if cs =? 2 then "T" else "?".

(** [WebhookUpdateMapSide]. *)
Definition update_side (n : Z) (side : string) (c : WebhookMatchContext) : WebhookMatchContext :=
  {| c_matchid := c_matchid c; c_slug := c_slug c; c_num_maps := c_num_maps c; c_team1 := c_team1 c; c_team2 := c_team2 c;
     c_knifeDecisionSeconds := c_knifeDecisionSeconds c; c_maxRounds := c_maxRounds c; c_overtime_enabled := c_overtime_enabled c;
     c_overtimeSegments := c_overtimeSegments c; c_maxOvertimes := c_maxOvertimes c; c_damageTiebreakEnabled := c_damageTiebreakEnabled c;
     c_suddenDeathOnDamageTie := c_suddenDeathOnDamageTie c; c_map_sides := <[Z.to_nat (n - 1) := side]> (c_map_sides c);
     c_clinch_series := c_clinch_series c; c_maplist := c_maplist c; c_spectators := c_spectators c; c_admins := c_admins c; c_cvars := c_cvars c;
     c_roster := c_roster c; c_rules := c_rules c; c_ruleset := c_ruleset c; c_overrides_json := c_overrides_json c; c_coaches := c_coaches c;
     c_coaches_per_team := c_coaches_per_team c; c_players_per_team := c_players_per_team c; c_playout := c_playout c; c_whitelist := c_whitelist c;
     c_autoready := c_autoready c; c_ruleset_notes := c_ruleset_notes c; c_roster_names_rule := c_roster_names_rule c; c_wingman := c_wingman c;
     c_demo_record := c_demo_record c; c_demo_upload := c_demo_upload c; c_bot_fill := c_bot_fill c; c_full_team_deadline_ms := c_full_team_deadline_ms c;
     c_walkover_short := c_walkover_short c; c_walkover_expires_ms := c_walkover_expires_ms c; c_walkover_choosers := c_walkover_choosers c;
     c_simulation := c_simulation c; c_simulation_timescale := c_simulation_timescale c |}.
Definition WebhookUpdateMapSide (n : Z) (side : string) (c : WebhookMatchContext) : WebhookMatchContext :=
  if n <=? 0 then c
  else if negb ((side =s "team1_ct") || (side =s "team2_ct")) then c
  else if zlen (c_map_sides c) <=? n - 1 then c else update_side n side c.

(** ** Counting the roster *)

Definition roster (c : WebhookMatchContext) : list (Z * WebhookTeam) := map_to_list (roster_team (c_roster c)).
Definition is_team2 (t : WebhookTeam) : bool := bool_decide (t = Team2).
Definition count_team (second : bool) (f : Z -> bool) (c : WebhookMatchContext) : Z :=
  zlen (List.filter (fun kv => negb (kv.1 =? 0) && eqb (is_team2 kv.2) second && f kv.1) (roster c)).

Section Ops.
Context (E : Env).

Definition Team1IsCtNow (c : WebhookMatchContext) : bool :=
  let ct := team1_starts_ct c (Z.max 1 (map_number (ms E))) in if swapCount E mod 2 =? 0 then ct else negb ct.

Definition connected (sid : Z) : bool :=
  existsb (fun s => negb (p_sid s =? 0) && (p_sid s =? sid)) (slots E) || existsb (fun x => x =? sid) (simConnected E).

(** ** Everyone is ready *)

Definition kBotFillRosterGraceSeconds : double := of_int 300.
Definition seconds_since (t : Z) : double := ddiv (of_int (now E - t)) (of_int 1000000000).

(** Nobody of the roster plays on the other team's side. *)
Definition on_side (c : WebhookMatchContext) (h : Person) : bool :=
  match roster_team (c_roster c) !! p_sid h with
  | None => true
  | Some t =>
      if negb ((p_team h =? 2) || (p_team h =? 3)) then true
      else p_team h =? (if eqb (bool_decide (t = Team1)) (Team1IsCtNow c) then 3 else 2)
  end.
Definition spectators_ready (c : WebhookMatchContext) (r : gmap Z bool) : Z := zlen (List.filter (is_ready r) (elements (c_spectators c))).
Definition spectators_ok (c : WebhookMatchContext) (r : gmap Z bool) : bool :=
  (minSpectatorsToReady E <=? 0) || SpectatorsReadyToGoLive (minSpectatorsToReady E) (spectators_ready c r).

Definition players_on (team : Z) : Z := zlen (List.filter (fun p => p_team p =? team) (humans E ++ bots E)).
Definition team_ready (c : WebhookMatchContext) (r : gmap Z bool) (second : bool) : bool :=
  let present := count_team second connected c in
  let rdy := count_team second (fun sid => connected sid && is_ready r sid) c in
  if c_bot_fill c then BotFillTeamReady present rdy
  else TeamReadyToGoLive (count_team second (fun _ => true) c) present rdy (minPlayersToReady E) (c_players_per_team c).

Definition GoLiveCheck (c : WebhookMatchContext) : M bool :=
  r ← gets (fun w => ready (st w));
  if negb (forallb (on_side c) (humans E)) then mret false
  else if negb (spectators_ok c r) then mret false
  else if bool_decide (roster_team (c_roster c) = ∅) then mret true
  else
    let total := (count_team false (fun _ => true) c, count_team true (fun _ => true) c) in
    let present := (count_team false connected c, count_team true connected c) in
    if resumeWaiting E && negb (let head := ResumeCount total present (c_players_per_team c) in ResumeMayGoLive (needed head) (back head)) then mret false
    else
      let nobody := c_bot_fill c && (present.1 + present.2 =? 0) in
      change (fun w => w <| emptySince := if nobody then match emptySince w with Some t => Some t | None => Some (now E) end else None |>) ;;
      since ← gets emptySince;
      let waited := match since with Some t => seconds_since t | None => of_int 0 end in
      if nobody && (if 0 <? total.1 + total.2 then waited <d kBotFillRosterGraceSeconds else negb (BotFillEmptyMayGoLive waited)) then mret false
      else if c_bot_fill c && ((players_on 3 =? 0) || (players_on 2 =? 0)) then mret false
      else mret (team_ready c r false && team_ready c r true).
Definition AllRosterReadyAndConnected : WebhookMatchContext -> M bool := GoLiveCheck.

(** ** Warmup rules *)

Definition kWarmupNoDropCmds : list string :=
  ["mp_death_drop_gun 0"; "mp_death_drop_grenade 0"; "mp_death_drop_defuser 0"; "mp_death_drop_taser 0"; "weapon_auto_cleanup_time 1";
   "weapon_max_before_cleanup 10"; "mp_give_player_c4 0"].
Definition kLiveDropCmds : list string :=
  ["mp_death_drop_gun 1"; "mp_death_drop_grenade 2"; "mp_death_drop_defuser 1"; "mp_death_drop_taser 1"; "weapon_auto_cleanup_time 0";
   "weapon_max_before_cleanup 0"; "mp_give_player_c4 1"].
Definition kNativeOff : list string := ["mp_warmup_pausetimer 0"; "mp_warmuptime 0"; "mp_team_intro_time 0"; "mp_warmup_end"].

Definition flag_at (f : string) : string := if 3 <? slen f then EmptyString else f.
Definition quoted_cmd (name value : string) : string := name +s+ " " +s+ qs "`" +s+ value +s+ qs "`".
(** [AppendTeamNameCmds], for the loaded match. *)
Definition team_name_cmds (c : option WebhookMatchContext) : list string :=
  let names :=
    match c with
    | Some c =>
        if scrim c then (EmptyString, EmptyString, EmptyString, EmptyString)
        else
          let n := Z.max 1 (map_number (ms E)) in
          let ct := if team1_starts_ct c n then c_team1 c else c_team2 c in
          let t := if team1_starts_ct c n then c_team2 c else c_team1 c in
          (SanitizeTeamName (t_name ct), SanitizeTeamName (t_name t), flag_at (SanitizeTeamName (t_flag ct)), flag_at (SanitizeTeamName (t_flag t)))
    | None => (EmptyString, EmptyString, EmptyString, EmptyString)
    end in
  let '(n1, n2, f1, f2) := names in
  [quoted_cmd "mp_teamname_1" n1; quoted_cmd "mp_teamname_2" n2; quoted_cmd "mp_teamflag_1" f1; quoted_cmd "mp_teamflag_2" f2].

Definition on_off (name : string) (b : bool) : string := name +s+ (if b then " 1" else " 0").
Definition int_cmd (name : string) (n : Z) : string := name +s+ " " +s+ to_string n.
Definition warmup_cmds (w : Warmup) (c : option WebhookMatchContext) : list string :=
  let rt := Z.max 1 (Z.min 120 (warmupRoundTimeMinutes w)) in
  let startMoney := Z.max 0 (Z.min 60000 (warmupStartMoney w)) in
  let maxMoney := Z.max startMoney (Z.min 60000 (warmupMaxMoney w)) in
  kNativeOff ++
  [on_off "mp_respawn_on_death_ct" (warmupRespawn w); on_off "mp_respawn_on_death_t" (warmupRespawn w);
   on_off "mp_ignore_round_win_conditions" (warmupIgnoreWin w); "mp_freezetime 0"; "mp_buytime 28800"; int_cmd "mp_roundtime" rt;
   int_cmd "mp_roundtime_defuse" rt; int_cmd "mp_roundtime_hostage" rt; int_cmd "mp_startmoney" startMoney; int_cmd "mp_maxmoney" maxMoney;
   on_off "mp_buy_anywhere" (warmupBuyAnywhere w); "mp_respawn_immunitytime 20"; "mp_buy_during_immunity 0"] ++
  kWarmupNoDropCmds ++ team_name_cmds c ++ ["sv_cheats 1"; (if warmupInfiniteAmmo w then "sv_infinite_ammo 2" else "sv_infinite_ammo 0"); "sv_cheats 0"].

Definition rules_applied_if (any : bool) : M unit := when any (upd (fun s => s <| warmupRulesApplied := true |>)).

Definition ApplyWarmupRules : M unit :=
  s ← gets st; c ← gets ctx;
  if cfgExecEnabled s
  then
    any ← enqueue_all E ("exec ReadyUp/warmup.cfg" :: kNativeOff);
    EnqueueAfterCfg kWarmupNoDropCmds ;; EnqueueAfterCfg ["mp_friendlyfire 0"] ;; EnqueueAfterCfg (team_name_cmds c) ;;
    rules_applied_if any
  else any ← enqueue_all E (warmup_cmds (warmup s) c); rules_applied_if any.

Definition kScrimWarmupCmds : list string :=
  ["mp_autoteambalance 0"; "mp_limitteams 0"; "mp_team_intro_time 0"; "mp_ignore_round_win_conditions 1"; "mp_freezetime 0"; "mp_roundtime 60";
   "mp_roundtime_defuse 60"; "mp_roundtime_hostage 60"; "mp_respawn_on_death_ct 1"; "mp_respawn_on_death_t 1"; "mp_buy_anywhere 1";
   "mp_respawn_immunitytime 20"; "mp_buy_during_immunity 0"; "mp_buytime 28800"; "mp_startmoney 16000"; "mp_maxmoney 16000";
   "mp_warmup_pausetimer 0"; "mp_warmuptime 0"; "mp_warmup_end"; "mp_restartgame 1"].
Definition ApplyScrimWarmupRules : M unit :=
  s ← gets st;
  any ← enqueue_all E ((if cfgExecEnabled s then ["exec ReadyUp/warmup.cfg"] else []) ++ kScrimWarmupCmds);
  any2 ← (if cfgExecEnabled s then EnqueueAfterCfg kWarmupNoDropCmds ;; mret false else enqueue_all E kWarmupNoDropCmds);
  rules_applied_if (any || any2).

(** ** Match cvars *)

Definition IsSafeConvarKey (s : string) : bool := negb (sempty s) && sforall (fun c => isalnum c || Ascii.eqb c "_") s.
Definition unsafe_char (c : ascii) : bool :=
  Ascii.eqb c ";" || Ascii.eqb c newline || Ascii.eqb c creturn || Ascii.eqb c dquote || Ascii.eqb c backslash || isspace c.
Definition value_char (c : ascii) : bool :=
  isalnum c || Ascii.eqb c "_" || Ascii.eqb c "." || Ascii.eqb c "-" || Ascii.eqb c "/" || Ascii.eqb c ":".
Definition IsSafeConvarValue (s : string) : bool := negb (sempty s) && sforall (fun c => negb (unsafe_char c) && value_char c) s.

Definition cvar_cmds (cv : gmap string string) : list string :=
  (fun kv => kv.1 +s+ " " +s+ kv.2) <$> List.filter (fun kv : string * string => IsSafeConvarKey kv.1 && IsSafeConvarValue kv.2) (map_to_list cv).
(** [c]: the context of the caller; the team names are those of the stored one. *)
Definition match_cvar_cmds (c : WebhookMatchContext) (stored : option WebhookMatchContext) : list string :=
  team_name_cmds stored ++
  (match c_cvars c !! "mp_match_can_clinch" with Some _ => [] | None => [if playoutOn E then "mp_match_can_clinch 0" else "mp_match_can_clinch 1"] end) ++
  cvar_cmds (c_cvars c) ++ ruleCommands E.
Definition ApplyMatchCvars (c : WebhookMatchContext) : M unit :=
  stored ← gets ctx; emit (CaptureCvars (c_cvars c)) ;; EnqueueAfterCfg (match_cvar_cmds c stored).
Definition ApplyMatchCvarsNow : M unit := c ← gets ctx; match c with Some c => ApplyMatchCvars c | None => mret tt end.
Definition ApplyTeamNamesNow : M unit := c ← gets ctx; enqueue_all E (team_name_cmds c) ;; mret tt.

(** ** Going live *)

Definition StartDemoForMap (mapNumber : Z) (mapName : string) : M unit :=
  c ← gets ctx; s ← gets st;
  match c with
  | None => mret tt
  | Some c =>
      let n := map_or_1 mapNumber in
      if demoRecording s && (demoMapNumber s =? n) && recorderBusy E then mret tt
      else
        let name := if sempty mapName then match map_name c n with Some e => Mn.DisplayName e (boundNames E) | None => EmptyString end else mapName in
        emit (RecorderStart {| ri_matchid := c_matchid c; ri_slug := c_slug c; ri_mapNumber := n; ri_mapName := name; ri_team1 := t_name (c_team1 c);
                               ri_team2 := t_name (c_team2 c); ri_record := c_demo_record c; ri_upload := c_demo_upload c |}) ;;
        when (recorderStarts E) (upd (fun s => s <| demoRecording := true |> <| demoMapNumber := n |> <| demoName := name |>))
  end.

Definition BeginMapStats (c : WebhookMatchContext) (mapNumber : Z) : M unit := emit (StatsBegin (team1_starts_ct c mapNumber)).

Definition kLiveRules : list string :=
  ["mp_warmup_end"; "mp_respawn_on_death_ct 0"; "mp_respawn_on_death_t 0"; "mp_ignore_round_win_conditions 0"; "mp_buy_anywhere 0";
   "mp_respawn_immunitytime 0"; "mp_buy_during_immunity 0"; "mp_buytime 20"; "sv_infinite_ammo 0"; "sv_cheats 0"; "mp_roundtime 1.92";
   "mp_roundtime_defuse 1.92"; "mp_roundtime_hostage 1.92"; "mp_freezetime 18"; "mp_startmoney 800"; "mp_maxmoney 16000"; "mp_autoteambalance 0";
   "mp_limitteams 0"].
Definition ApplyLiveRulesAndRestart (c : WebhookMatchContext) : M unit :=
  ApplyMatchCvars c ;;
  s ← gets st;
  a ← (if cfgExecEnabled s || liveCfgRequired E then enqueue E (liveCfgCommand E) else enqueue_all E (kLiveRules ++ kLiveDropCmds));
  emit (EnableBackups (c_matchid c) (Z.max 1 (map_number (ms E)))) ;;
  b ← enqueue E "mp_restartgame 1";
  when (a || b) (upd (fun s => s <| startTriggered := true |>)).

(** The events of a map that goes live, once per map. *)
Definition lifecycle_events (mapNumber : Z) : M unit :=
  upd (fun s => if lifecycleMapNumber (series s) =? mapNumber then s
                else s <| series := series s <| lifecycleMapNumber := mapNumber |> <| warmupEndedSent := false |> <| goingLiveSent := false |> |>) ;;
  s ← gets st;
  when (negb (warmupEndedSent (series s))) (emit (WarmupEnded mapNumber) ;; upd (fun s => s <| series := series s <| warmupEndedSent := true |> |>)) ;;
  when (negb (goingLiveSent (series s)))
    (emit (GoingLive mapNumber) ;; upd (fun s => s <| series := series s <| goingLiveSent := true |> |>) ;;
     c ← gets ctx; match c with Some c => BeginMapStats c mapNumber | None => mret tt end).

Definition go_live_lines (c : WebhookMatchContext) : list Eff :=
  let n := Z.max 1 (map_number (ms E)) in
  (fun l => ChatAll (msg_key l) (msg_args l)) <$>
  GoLiveRulesLines n (Z.max 1 (c_num_maps c)) (default EmptyString (map_name c n)) (c_maxRounds c) (c_overtime_enabled c) (c_overtimeSegments c)
    (c_maxOvertimes c) (c_damageTiebreakEnabled c).

Definition ms800 : Z := 800000000.
Definition recent (since span : Z) : bool := negb (since =? 0) && (now E - since <? span).

Definition OnMatchRoundStarted : M unit :=
  s ← gets st;
  if negb (is_mode (mode s) MatchWarmup) then mret tt
  else if warmupEnabled (warmup s) && negb (startTriggered s) then send E "mp_friendlyfire 0"
  else if startTriggered s && recent (lastGateCmd s) 900000000 then mret tt
  else
    upd (fun s => s <| mode := MatchLive |> <| warmupRulesApplied := false |> <| startTriggered := false |>) ;;
    emits [PersistLiveFlag true; NoteProgress; Heartbeat "live"; ChatAll "match.live" []] ;;
    c ← gets ctx;
    match c with Some c => emits (go_live_lines c) | None => mret tt end ;;
    emit (GoLiveCard false) ;;
    lifecycle_events (mapNumberNow E) ;;
    StartDemoForMap (mapNumberNow E) (current_map (ms E)).

Definition ForceStartMatch (force : bool) : M bool :=
  c ← gets ctx;
  match c with
  | None => mret false
  | Some c =>
      if negb (goLiveAllowed E force) then mret false
      else
        ApplyLiveRulesAndRestart c ;;
        upd (fun s => s <| mode := MatchLive |> <| warmupRulesApplied := false |> <| startTriggered := false |>) ;;
        emits [PersistLiveFlag true; NoteProgress; Heartbeat "live"] ;;
        lifecycle_events (mapNumberNow E) ;;
        emit (GoLiveCard true) ;;
        StartDemoForMap (mapNumberNow E) (current_map (ms E)) ;;
        ResetKnife E 0 ;;
        mret true
  end.

Definition ScrimGoLive (restartSeconds : Z) : M bool :=
  c ← gets ctx; s ← gets st;
  match c with
  | None => mret false
  | Some c =>
      if negb (is_mode (mode s) MatchWarmup) then mret false
      else
        upd (fun s => s <| warmupRulesApplied := true |> <| matchLoadedChatSent := true |>) ;;
        ApplyMatchCvars c ;;
        a ← enqueue_all E [liveCfgCommand E; "mp_warmup_pausetimer 0"; "mp_warmup_end"];
        emit (EnableBackups (c_matchid c) (Z.max 1 (map_number (ms E)))) ;;
        b ← enqueue E ("mp_restartgame " +s+ to_string (Z.max 1 (Z.min 10 restartSeconds)));
        when (a || b) (upd (fun s => s <| startTriggered := true |> <| lastGateCmd := now E |>)) ;;
        mret (a || b)
  end.

(** ** The knife round *)

Definition IsKnifeForMap (c : WebhookMatchContext) (n : Z) : bool := match map_side c n with Some s => (s =s "knife") && knifeFeature E | None => false end.
Definition AnyHumanOnCtOrT : bool := existsb (fun h => (p_team h =? 2) || (p_team h =? 3)) (humans E).

Definition kKnifeCmds : list string :=
  ["mp_warmup_pausetimer 0"; "mp_ignore_round_win_conditions 0"; "mp_respawn_on_death_ct 0"; "mp_respawn_on_death_t 0"; "mp_buy_anywhere 0";
   "mp_respawn_immunitytime 0"; "mp_buy_during_immunity 0"; "mp_buytime 0"; "mp_startmoney 0"; "mp_maxmoney 0"; "mp_give_player_c4 0";
   qs "mp_ct_default_primary ``"; qs "mp_t_default_primary ``"; qs "mp_ct_default_secondary ``"; qs "mp_t_default_secondary ``";
   qs "mp_ct_default_grenades ``"; qs "mp_t_default_grenades ``"; "mp_ct_default_melee weapon_knife"; "mp_t_default_melee weapon_knife";
   "mp_team_intro_time 0"; "mp_logdetail 3"; "mp_warmup_end"; "mp_restartgame 1"].
Definition upd_knife (f : Knife -> Knife) : M unit := upd (fun s => s <| knife := f (knife s) |>).
Definition ApplyKnifeRules : M unit :=
  a ← enqueue E "exec ReadyUp/knife.cfg";
  when ((devBots E || simulating E) && negb AnyHumanOnCtOrT) (EnqueueAfterCfg ["mp_roundtime 0.5"; "mp_roundtime_defuse 0.5"; "mp_roundtime_hostage 0.5"]) ;;
  b ← enqueue_all E kKnifeCmds;
  when (a || b) (upd_knife (fun k => k <| knifeRulesApplied := true |> <| knifeLogdetailSet := true |>)).

Definition StartKnife : M bool :=
  s ← gets st;
  if negb (is_mode (mode s) MatchWarmup) then mret false
  else if negb (knifeFeature E) then mret false
  else
    ResetKnife E (mapNumberNow E) ;;
    upd (fun s => s <| mode := MatchKnife |> <| startTriggered := false |> <| lastGateCmd := now E |>) ;;
    ApplyKnifeRules ;;
    applied ← gets (fun w => knifeRulesApplied (knife (st w)));
    if negb applied then upd (fun s => s <| mode := MatchWarmup |>) ;; mret false
    else
      upd_knife (fun k => k <| knifePhase := KnifeStarting |> <| knifeTriggeredAt := now E |>) ;;
      emit (Heartbeat "warmup") ;;
      when (negb (hudReplacesChat E)) (emit (ChatAll "knife.after_restart" [])) ;;
      mret true.
Definition StartKnifeRound : M bool := c ← gets ctx; match c with Some _ => StartKnife | None => mret false end.

Definition MaybeEnterKnifeMode : M unit :=
  s ← gets st; c ← gets ctx;
  if negb (is_mode (mode s) MatchWarmup) then mret tt
  else if negb (warmupEnabled (warmup s)) || recoveryGate s || startTriggered s then mret tt
  else if negb (warmupRulesApplied s) then mret tt
  else
    match c with
    | None => mret tt
    | Some c =>
        if negb (IsKnifeForMap c (mapNumberNow E)) then mret tt
        else if recent (lastGateCmd s) ms800 then mret tt
        else
          go ← AllRosterReadyAndConnected c;
          if negb go then mret tt
          else if negb (goLiveAllowed E false) then upd (fun s => s <| lastGateCmd := now E |>)
          else StartKnife ;; mret tt
    end.

Definition KnifeWinnerName (k : Knife) (c : WebhookMatchContext) : string :=
  if scrim c then CsSideName (knifeWinnerCs k)
  else let n := if is_team2 (knifeWinner k) then t_name (c_team2 c) else t_name (c_team1 c) in if sempty n then CsSideName (knifeWinnerCs k) else n.

(** The side the winner wants to start on; [None]: not a choice. *)
Definition wanted_side (choice : string) (winnerIsTeam1 : bool) : option bool :=
  let c := lower choice in
  if c =s "ct" then Some true else if c =s "t" then Some false
  else if c =s "stay" then Some winnerIsTeam1 else if c =s "switch" then Some (negb winnerIsTeam1) else None.

Definition ApplyKnifeSideChoice (c : WebhookMatchContext) (mapNumber : Z) (choice : string) (picker : Z) (pickerName : string) : M bool :=
  k ← gets (fun w => knife (st w));
  if bool_decide (knifeWinner k = TeamUnknown) then mret false
  else if negb (knifeAwaitingPick k) then mret false
  else
    let winnerIsTeam1 := bool_decide (knifeWinner k = Team1) in
    match wanted_side choice winnerIsTeam1 with
    | None => mret false
    | Some wantsCt =>
        let team1StartsCt := if wantsCt then winnerIsTeam1 else negb winnerIsTeam1 in
        change (fun w => w <| ctx := WebhookUpdateMapSide mapNumber (if team1StartsCt then "team1_ct" else "team2_ct") <$> ctx w |>) ;;
        when (negb team1StartsCt) (send E "mp_swapteams") ;;
        let team := if winnerIsTeam1 then "team1" else "team2" in
        let side := if wantsCt then "ct" else "t" in
        let by_ := if negb (sempty pickerName) then pickerName else if picker =? 0 then "server" else to_string picker in
        emit (SidePicked mapNumber (current_map (ms E)) side by_ team) ;;
        when (signalsOn E)
          (emit (Signal "side_picked" [("team", team); ("side", side);
                                       ("picked_by", if negb (picker =? 0) then to_string picker else if pickerName =s "timeout" then "timeout" else "console")] mapNumber)) ;;
        let winnerName := KnifeWinnerName k c in
        ResetKnife E mapNumber ;;
        upd (fun s => s <| mode := MatchWarmup |> <| warmupRulesApplied := true |> <| matchLoadedChatSent := true |>) ;;
        a ← enqueue E (liveCfgCommand E);
        ApplyMatchCvars c ;;
        b ← enqueue_all E ["mp_warmup_pausetimer 0"; "mp_warmup_end"];
        emit (EnableBackups (c_matchid c) (Z.max 1 mapNumber)) ;;
        d ← enqueue E "mp_restartgame 1";
        upd (fun s => s <| startTriggered := a || b || d |> <| lastGateCmd := now E |>) ;;
        let timedOut := pickerName =s "timeout" in
        let sideName := if wantsCt then "CT" else "T" in
        emit (ChatAll ((if timedOut then "knife.picked_timeout" else "knife.picked") +s+ (if team1StartsCt then "_stay" else "_swap"))
                [("team", winnerName); ("side", sideName)]) ;;
        when (hudScreens E) (emit (SidesNotice timedOut team1StartsCt wantsCt winnerName sideName)) ;;
        mret true
    end.

Definition KnifeApplySideChoice (choice : string) (picker : Z) (pickerName : string) : M bool :=
  c ← gets ctx; s ← gets st;
  match c with
  | None => mret false
  | Some c =>
      if negb (is_mode (mode s) MatchKnife) then mret false
      else ApplyKnifeSideChoice c (if 0 <? knifeMapNumber (knife s) then knifeMapNumber (knife s) else 1) choice picker pickerName
  end.

Definition kSecond : Z := 1000000000.
Definition MaybeAutoPickKnifeSide : M unit :=
  s ← gets st; c ← gets ctx;
  let k := knife s in
  if negb (is_mode (mode s) MatchKnife) || negb (knifeAwaitingPick k) || bool_decide (knifeWinner k = TeamUnknown) || (knifePickDeadline k =? 0) then mret tt
  else
    match c with
    | None => mret tt
    | Some c =>
        if now E <? knifePickDeadline k
        then
          let left := (knifePickDeadline k - now E) ÷ kSecond in
          when (negb (knifeReminderSent k) && (left <=? 15) && (5 <=? left))
            (upd_knife (fun k => k <| knifeReminderSent := true |>) ;;
             when (negb (hudReplacesChat E)) (emit (ChatAll "knife.pick_reminder" [("team", KnifeWinnerName k c); ("seconds", to_string (left + 1))])))
        else ApplyKnifeSideChoice c (mapNumberNow E) "stay" 0 "timeout" ;; mret tt
    end.

Definition KnifeOnRoundStart (mapNumber : Z) : M unit :=
  c ← gets ctx; s ← gets st;
  match c with
  | None => mret tt
  | Some _ =>
      if negb (is_mode (mode s) MatchKnife) || negb (bool_decide (knifePhase (knife s) = KnifeStarting)) then mret tt
      else if now E - knifeTriggeredAt (knife s) <? ms800 then mret tt
      else
        let n := map_or_1 mapNumber in
        upd_knife (fun k => k <| knifeMapNumber := n |> <| knifePhase := KnifeRunning |>) ;;
        emit (TrackerReset true) ;;
        when (negb (knifeStartedSent (knife s))) (emit (KnifeStarted n) ;; upd_knife (fun k => k <| knifeStartedSent := true |>)) ;;
        when (negb (hudReplacesChat E)) (emit (ChatAll "knife.started" []))
  end.

Definition stats_args : Args :=
  [("ct_alive", to_string (alive (knifeStats E 3))); ("ct_hp", to_string (hp (knifeStats E 3)));
   ("t_alive", to_string (alive (knifeStats E 2))); ("t_hp", to_string (hp (knifeStats E 2)))].
(** The winning side, the reason and the announcement. *)
Definition knife_winner (csWinner : Z) (elimination : bool) : Z * string * string * Args :=
  if elimination && ((csWinner =? 2) || (csWinner =? 3)) then (csWinner, "elimination", "knife.won_elimination", [("side", CsSideName csWinner)])
  else
    let ct := knifeStats E 3 in
    let t := knifeStats E 2 in
    if negb (alive ct =? alive t) then ((if alive t <? alive ct then 3 else 2), "more alive", "knife.won_more_alive", stats_args)
    else if negb (hp ct =? hp t) then ((if hp t <? hp ct then 3 else 2), "more HP", "knife.won_more_hp", stats_args)
    else ((if coin E then 3 else 2), "coin flip", "knife.won_coin_flip", stats_args).

Definition KnifeOnRoundEnd (mapNumber csWinner : Z) (elimination : bool) : M unit :=
  c ← gets ctx; s ← gets st;
  match c with
  | None => mret tt
  | Some c =>
      if negb (is_mode (mode s) MatchKnife) || negb (bool_decide (knifePhase (knife s) = KnifeRunning)) then mret tt
      else
        let n := map_or_1 mapNumber in
        let '(winnerCs, reason, key, args) := knife_winner csWinner elimination in
        let team := if winnerCs =? 3 then Team1 else Team2 in
        upd_knife (fun k => k <| knifeReasonShort := reason |> <| knifeWinnerCs := winnerCs |> <| knifeWinner := team |> <| knifeEndedSent := true |>
                              <| knifePhase := KnifePicking |> <| knifeAwaitingPick := true |> <| knifeReminderSent := false |>) ;;
        emits [TrackerReset false; KnifeEnded n (if is_team2 team then "team2" else "team1")] ;;
        send E "mp_ignore_round_win_conditions 1" ;; send E "mp_respawn_on_death_ct 1" ;; send E "mp_respawn_on_death_t 1" ;;
        when (knifeLogdetailSet (knife s)) (send E "mp_logdetail 0" ;; upd_knife (fun k => k <| knifeLogdetailSet := false |>)) ;;
        let botsOnly := negb (existsb (fun h => p_team h =? winnerCs) (humans E)) in
        let sec := if botsOnly then 3 else Z.max 5 (Z.min 300 (if scrim c then knifePickSeconds E else c_knifeDecisionSeconds c)) in
        upd_knife (fun k => k <| knifePickDeadline := now E + sec * kSecond |>) ;;
        k ← gets (fun w => knife (st w));
        let name := KnifeWinnerName k c in
        when (negb (hudReplacesChat E)) (emit (ChatAll key (args ++ [("team", name)]))) ;;
        if botsOnly then emit (ChatAll "knife.bots_only" [])
        else when (negb (hudReplacesChat E)) (emit (ChatAll "knife.pick_prompt" [("team", name); ("seconds", to_string sec)]))
  end.

Definition GetKnifePhase (s : State) : KnifePhase := if is_mode (mode s) MatchKnife then knifePhase (knife s) else KnifeNone.
Definition KnifePhaseString (s : State) : option string :=
  match GetKnifePhase s with KnifeNone => None | KnifeStarting => Some "starting" | KnifeRunning => Some "running" | KnifePicking => Some "pick" end.
Definition KnifeIsAwaitingPick (s : State) : bool := is_mode (mode s) MatchKnife && knifeAwaitingPick (knife s).
Definition KnifeWinnerTeamString (s : State) : string :=
  match knifeWinner (knife s) with Team1 => "team1" | Team2 => "team2" | TeamUnknown => "unknown" end.

Record KnifeHudInfo := { hud_phase : KnifePhase; hud_winnerCs : Z; hud_winnerName : string; hud_reasonShort : string; hud_secondsLeft : Z }.
Definition KnifeHudSnapshot (w : World) : KnifeHudInfo :=
  let k := knife (st w) in
  if negb (is_mode (mode (st w)) MatchKnife)
  then {| hud_phase := KnifeNone; hud_winnerCs := 0; hud_winnerName := EmptyString; hud_reasonShort := EmptyString; hud_secondsLeft := 0 |}
  else
    let picking := bool_decide (knifePhase k = KnifePicking) in
    {| hud_phase := knifePhase k; hud_winnerCs := knifeWinnerCs k; hud_reasonShort := knifeReasonShort k;
       hud_winnerName := match ctx w with Some c => if picking then KnifeWinnerName k c else EmptyString | None => EmptyString end;
       hud_secondsLeft := if picking && negb (knifePickDeadline k =? 0) then Z.max 0 (((knifePickDeadline k - now E) ÷ 1000000 + 999) ÷ 1000) else 0 |}.

End Ops.

End Live.
