(* ===== verification/ModesEnd.v ===== *)
(** * The match modes: the end of a map

    [plugins/match/readyup/modes.cpp]: who has won a map, what happens when it is decided, forfeits, and the
    safety net behind the engine's own game over. *)

From S2P Require Import Prelude CStr Double MatchRules MatchEnd MatchConfig Modes ModesLive.

Module MapEnd.
Import Mo Live.

Section Ops.
Context (E : Env).

(** ** The winner *)

Inductive Verdict := Playing | Winner (team1 : bool) | Draw.
Definition lead (s1 s2 : Z) : Verdict := Winner (s2 <? s1).

(** Tied at the end: the damage decides, and when it is tied too, sudden death or a draw. *)
Definition damage_verdict (c : WebhookMatchContext) : Verdict :=
  let '(d1, d2) := damage E in
  if c_damageTiebreakEnabled c && (d2 <? d1) then Winner true
  else if c_damageTiebreakEnabled c && (d1 <? d2) then Winner false
  else if c_damageTiebreakEnabled c && c_suddenDeathOnDamageTie c then Playing
  else Draw.

Definition DetermineMapWinnerIfComplete (c : WebhookMatchContext) (score1 score2 : Z) : Verdict :=
  let s1 := Z.max 0 score1 in
  let s2 := Z.max 0 score2 in
  let maxRounds := Z.max 1 (c_maxRounds c) in
  let target := maxRounds ÷ 2 + 1 in
  let sum := s1 + s2 in
  let late (after_regulation : Verdict) : Verdict :=
    if sum <=? maxRounds
    then if (target <=? s1) && negb (s1 =? s2) then Winner true
         else if (target <=? s2) && negb (s1 =? s2) then Winner false
         else if sum <? maxRounds then Playing else after_regulation
    else after_regulation in
  if playoutOn E && PlayoutRoundsLeft maxRounds (c_overtime_enabled c) (c_overtimeSegments c) (c_maxOvertimes c) s1 s2 then Playing
  else
    late (
      if negb (c_overtime_enabled c) then if negb (s1 =? s2) then lead s1 s2 else damage_verdict c
      else
        let seg := Z.max 1 (c_overtimeSegments c) in
        let past := Z.max 0 (sum - maxRounds) in
        let block := 2 * seg in
        if (0 <=? c_maxOvertimes c) && (c_maxOvertimes c * block <=? past) then if negb (s1 =? s2) then lead s1 s2 else damage_verdict c
        else if negb (s1 =? s2) then
          let index := if 0 <? past then (past - 1) ÷ block else 0 in
          let win := maxRounds ÷ 2 + index * seg + seg + 1 in
          if win <=? s1 then Winner true else if win <=? s2 then Winner false else Playing
        else Playing).

Definition verdict_text (v : Verdict) : option string := match v with Playing => None | Winner true => Some "team1" | Winner false => Some "team2" | Draw => Some "none" end.

(** ** A map is decided *)

Definition team_args (c : WebhookMatchContext) (s1 s2 : Z) (winner : string) : Args :=
  [("score1", to_string s1); ("score2", to_string s2); ("winner", if winner =s "team1" then t_name (c_team1 c) else t_name (c_team2 c));
   ("team1", t_name (c_team1 c)); ("damage1", to_string (damage E).1); ("damage2", to_string (damage E).2); ("team2", t_name (c_team2 c))].

Definition won_series (winner : string) (r : Series) : Series :=
  if winner =s "team1" then r <| seriesWinsTeam1 := seriesWinsTeam1 r + 1 |>
  else if winner =s "team2" then r <| seriesWinsTeam2 := seriesWinsTeam2 r + 1 |> else r.

(** Whether the series ends with the map, and the next map. *)
Definition series_plan (c : WebhookMatchContext) (n : Z) (w1 w2 : Z) (forfeit : bool) : bool * string :=
  let total := if 0 <? c_num_maps c then c_num_maps c else zlen (c_maplist c) in
  let remaining := RemainingMaps total (zlen (c_maplist c)) n in
  let over := forfeit || IsSeriesOver total remaining w1 w2 (c_clinch_series c) in
  if over then (true, EmptyString)
  else let next := default EmptyString (if n <? 0 then None else c_maplist c !! Z.to_nat n) in (sempty next, next).

Definition FinishMap (c : WebhookMatchContext) (n : Z) (name : string) (score1 score2 : Z) (winner : string) (forfeit : bool) : M unit :=
  upd (fun s => s <| series := won_series winner (series s) |>) ;;
  s ← gets st;
  let w1 := seriesWinsTeam1 (series s) in
  let w2 := seriesWinsTeam2 (series s) in
  let s1 := Z.max 0 score1 in
  let s2 := Z.max 0 score2 in
  emit (MapResultOf n name s1 s2 winner w1 w2) ;;
  upd (fun s => s <| series := series s <| mapResultEmittedForMapNumber := n |> |>) ;;
  let '(over, next) := series_plan c n w1 w2 forfeit in
  upd (fun s => s <| mode := Postgame |> <| startTriggered := false |> <| warmupRulesApplied := false |> <| demoRecording := false |>) ;;
  emit (Heartbeat "postgame") ;;
  let won := (winner =s "team1") || (winner =s "team2") in
  let byDamage := negb forfeit && won && (s1 =? s2) in
  when byDamage (emit (ImportantAll "match.damage_decides" (team_args c s1 s2 winner))) ;;
  emit (MapComplete {| in_mapNumber := n; in_mapName := name; in_winner := winner; in_team1Score := s1; in_team2Score := s2; in_team1SeriesScore := w1;
                       in_team2SeriesScore := w2; in_seriesOver := over; in_nextMap := next; in_seriesWinner := if forfeit then winner else EmptyString;
                       in_decidedByDamage := byDamage; in_team1Damage := if byDamage then (damage E).1 else 0;
                       in_team2Damage := if byDamage then (damage E).2 else 0 |}) ;;
  emit NoteProgress.

Definition name_or_list (c : WebhookMatchContext) (n : Z) (name : string) : string := if sempty name then default EmptyString (map_name c n) else name.

Definition OnMatchRoundEnded (mapNumber score1 score2 : Z) (mapName : string) : M unit :=
  c ← gets ctx; s ← gets st;
  match c with
  | None => mret tt
  | Some c =>
      let n := map_or_1 mapNumber in
      if mapResultEmittedForMapNumber (series s) =? n then mret tt
      else
        match verdict_text (DetermineMapWinnerIfComplete c score1 score2) with
        | None => mret tt
        | Some winner => FinishMap c n (name_or_list c n mapName) score1 score2 winner false
        end
  end.

(** What [ModesOnEngineGameOver] runs two seconds later. *)
Definition ModesOnEngineGameOver (ctScore tScore : Z) : M unit := emit (GameOverLater ctScore tScore).
Definition engine_game_over (ctScore tScore : Z) : M unit :=
  c ← gets ctx; s ← gets st;
  match c with
  | None => mret tt
  | Some c =>
      if negb (is_mode (mode s) MatchLive) then mret tt
      else
        let n := mapNumberNow E in
        if mapResultEmittedForMapNumber (series s) =? n then mret tt
        else
          let t1 := Z.max 0 (if statsTeam1Ct E then ctScore else tScore) in
          let t2 := Z.max 0 (if statsTeam1Ct E then tScore else ctScore) in
          let winner := if t2 <? t1 then "team1" else if t1 <? t2 then "team2" else "none" in
          FinishMap c n (name_or_list c n (current_map (ms E))) t1 t2 winner false
  end.

Definition forfeit_event (c : WebhookMatchContext) (n : Z) (team reason : string) : string :=
  qs "{`event`:`match_forfeit`,`matchid`:" +s+ to_string (c_matchid c) +s+ qs ",`map_number`:" +s+ to_string n +s+ qs ",`team`:`" +s+ team +s+
  qs "`,`reason`:`" +s+ reason +s+ qs "`}".
Definition ForfeitCurrentMap (loser : WebhookTeam) (reason : string) : M bool :=
  c ← gets ctx; s ← gets st;
  match c with
  | None => mret false
  | Some c =>
      if bool_decide (loser = TeamUnknown) then mret false
      else if negb (is_mode (mode s) MatchLive) then mret false
      else
        let n := mapNumberNow E in
        if mapResultEmittedForMapNumber (series s) =? n then mret false
        else
          let loserStr := if is_team2 loser then "team2" else "team1" in
          let winner := if is_team2 loser then "team1" else "team2" in
          when (paused E) (send E "mp_unpause_match" ;; emit PauseOff) ;;
          emit (WebhookEvent (forfeit_event c n loserStr reason)) ;;
          when (signalsOn E) (emit (Signal "forfeit" [("team", loserStr); ("reason", reason)] (-1))) ;;
          FinishMap c n (name_or_list c n (current_map (ms E))) (team1_score (ms E)) (team2_score (ms E)) winner true ;;
          mret true
  end.

End Ops.

End MapEnd.
