(* ===== verification/ModesTick.v ===== *)
(** * The match modes: the tick

    [plugins/match/readyup/modes.cpp]: what runs several times a second (the baseline of a new map, the gates to
    going live, the team lock, the whitelist, the warmup reminder, practice), and the handlers of CS2's own
    warmup.  [team_lock.h] is here too. *)

From S2P Require Import Prelude CStr Double MatchRules MatchEnd MatchConfig Modes ModesLive ModesEnd.

Module Ticks.
Import Mo Live.

(** ** The team lock *)

Definition TeamMoveNeeded (cached : Z) (engine : option Z) (target : Z) : bool := negb (default cached engine =? target).

(** [MoveRetryCap] with 3 tries: the target, the cached team and the tries of a player. *)
Definition Allow (sid target cached : Z) (m : gmap Z (Z * Z * Z)) : bool * gmap Z (Z * Z * Z) :=
  let '(t, c, n) := default (-1, -1, 0) (m !! sid) in
  let n := if negb (t =? target) || negb (c =? cached) then 0 else n in
  if 3 <=? n then (false, <[sid := (target, cached, n)]> m) else (true, <[sid := (target, cached, n + 1)]> m).
Definition Forget (sid : Z) : gmap Z (Z * Z * Z) -> gmap Z (Z * Z * Z) := delete sid.

Section Ops.
Context (E : Env).

Definition team1_ct_for (live : bool) (c : WebhookMatchContext) : bool := if live then Team1IsCtNow E c else team1_starts_ct c (mapNumberNow E).

(** The side a player belongs on; [None]: left alone. *)
Definition join_target (live : bool) (c : WebhookMatchContext) (sid : Z) : option Z :=
  if bool_decide (sid ∈ c_spectators c) then Some 1
  else
    match roster_team (c_roster c) !! sid with
    | None => Some 1
    | Some TeamUnknown => None
    | Some t => Some (if eqb (bool_decide (t = Team1)) (team1_ct_for live c) then 3 else 2)
    end.

Definition ms900 : Z := 900000000.
Definition force_one (live : bool) (c : WebhookMatchContext) (h : Person) : M unit :=
  if (p_sid h =? 0) || (p_slot h <? 0) then mret tt
  else
    match join_target live c (p_sid h) with
    | None => mret tt
    | Some join =>
        if p_team h =? join then change (fun w => w <| moves := Forget (p_sid h) (moves w) |>)
        else
          s ← gets st;
          if match lastForceJoin s !! p_sid h with Some t => now E - t <? ms900 | None => false end then mret tt
          else
            upd (fun s => s <| lastForceJoin := <[p_sid h := now E]> (lastForceJoin s) |>) ;;
            if negb (TeamMoveNeeded (p_team h) (engineTeam E (p_slot h)) join) then change (fun w => w <| moves := Forget (p_sid h) (moves w) |>)
            else
              m ← gets moves;
              let '(ok, m) := Allow (p_sid h) join (p_team h) m in
              change (fun w => w <| moves := m |>) ;;
              when ok (emit (MoveLater (p_slot h) (p_sid h) join (p_name h)))
    end.
Fixpoint force_all (live : bool) (c : WebhookMatchContext) (l : list Person) : M unit :=
  match l with [] => mret tt | h :: l => force_one live c h ;; force_all live c l end.

Definition MaybeForceRosterTeams : M unit :=
  s ← gets st; c ← gets ctx;
  let live := is_mode (mode s) MatchLive in
  if negb (is_mode (mode s) MatchWarmup || is_mode (mode s) MatchKnife || live) then mret tt
  else
    match c with
    | None => mret tt
    | Some c =>
        if bool_decide (roster_team (c_roster c) = ∅) && bool_decide (c_spectators c = ∅) then mret tt
        else if scrim c then mret tt else force_all live c (humans E)
    end.

(** Whether a queued move is still right when it runs: the team to join, if any. *)
Definition run_move (slot sid join : Z) : bool :=
  match List.find (fun h => p_slot h =? slot) (humans E) with
  | Some h => (p_sid h =? sid) && TeamMoveNeeded (p_team h) (engineTeam E slot) join
  | None => false
  end.

Definition TeamLockRefusesJoin (w : World) (sid team : Z) : bool :=
  let m := mode (st w) in
  if sid =? 0 then false
  else if negb (is_mode m MatchWarmup || is_mode m MatchKnife || is_mode m MatchLive) then false
  else
    match ctx w with
    | None => false
    | Some c =>
        if scrim c then false
        else if bool_decide (sid ∈ c_spectators c) then negb (team =? 1)
        else
          match roster_team (c_roster c) !! sid with
          | None => isGuest E sid && negb (team =? 1)
          | Some t =>
              let ct := if is_mode m MatchLive then Team1IsCtNow E c else team1_starts_ct c (Z.max 1 (map_number (ms E))) in
              negb (team =? (if eqb (bool_decide (t = Team1)) ct then 3 else 2))
          end
    end.

(** ** The whitelist *)

Definition allowed (c : WebhookMatchContext) (sid : Z) : bool :=
  bool_decide (is_Some (roster_team (c_roster c) !! sid)) || bool_decide (sid ∈ c_spectators c) || isAdmin E sid || isCoach E sid || isGuest E sid.
Definition kick_one (c : WebhookMatchContext) (p : Person) : M unit :=
  s ← gets st;
  if allowed c (p_sid p) then mret tt
  else if match lastKick s !! p_sid p with Some t => now E - t <? 3 * kSecond | None => false end then mret tt
  else
    ok ← enqueue E ("kickid " +s+ to_string (p_slot p) +s+ qs " `Not whitelisted for this match`");
    when ok (upd (fun s => s <| lastKick := <[p_sid p := now E]> (lastKick s) |>)).
Fixpoint kick_all (c : WebhookMatchContext) (seen : list Z) (l : list Person) : M unit :=
  match l with
  | [] => mret tt
  | p :: l =>
      if (p_sid p =? 0) || (p_slot p <? 0) || existsb (fun x => x =? p_sid p) seen then kick_all c seen l
      else kick_one c p ;; kick_all c (p_sid p :: seen) l
  end.
Definition EnforceWhitelist : M unit :=
  c ← gets ctx;
  match c with
  | None => mret tt
  | Some c => if scrim c then mret tt else if negb (whitelistOn E) then mret tt else kick_all c [] (slots E)
  end.

(** ** The warmup reminder *)

Definition in_slots (sid : Z) : bool := existsb (fun s => negb (p_sid s =? 0) && (p_sid s =? sid)) (slots E).
Definition tally_of (c : WebhookMatchContext) (r : gmap Z bool) (second : bool) : ReadyTally :=
  if c_bot_fill c then BotFillReadyTally (count_team second in_slots c) (count_team second (fun sid => in_slots sid && is_ready r sid) c)
  else TeamReadyTally (count_team second (fun _ => true) c) (count_team second (is_ready r) c) (c_players_per_team c).
Definition slot_name (sid : Z) : string :=
  match List.find (fun s => (p_sid s =? sid) && negb (sempty (p_name s))) (slots E) with Some s => p_name s | None => to_string sid end.
Definition waiting_names (c : WebhookMatchContext) (r : gmap Z bool) : list string :=
  (fun kv : Z * WebhookTeam => slot_name kv.1) <$>
  take 6 (List.filter (fun kv : Z * WebhookTeam => negb (kv.1 =? 0) && negb (bool_decide (kv.1 ∈ substitutes (c_roster c))) && negb (is_ready r kv.1)) (roster c)).
Definition name_list (l : list string) : string := match l with [] => EmptyString | x :: l => foldl (fun acc s => acc +s+ ", " +s+ s) x l end.

Definition MaybeShowWarmupUi : M unit :=
  s ← gets st; c ← gets ctx;
  if negb (warmupEnabled (warmup s)) || negb (is_mode (mode s) MatchWarmup) then mret tt
  else
    match c with
    | None => mret tt
    | Some c =>
        when (negb (matchLoadedChatSent s)) (emit (ChatAll "match.loaded" []) ;; upd (fun s => s <| matchLoadedChatSent := true |>)) ;;
        let t1 := tally_of c (ready s) false in
        let t2 := tally_of c (ready s) true in
        let total := tally_total t1 + tally_total t2 in
        let rdy := tally_ready t1 + tally_ready t2 in
        if negb (readyHudShowing E) && ((lastNotReadyChat s =? 0) || (12 * kSecond <=? now E - lastNotReadyChat s))
        then
          let names := name_list (waiting_names c (ready s)) in
          when (negb (sempty names) && (0 <? total) && (rdy <? total))
            (emit (ChatAll "match.waiting_for" [("ready", to_string rdy); ("total", to_string total); ("names", names)]) ;;
             upd (fun s => s <| lastNotReadyChat := now E |>))
        else mret tt
    end.

(** ** The gates *)

Definition MaybeGateMatch : M unit :=
  s ← gets st; c ← gets ctx;
  if negb (is_mode (mode s) MatchWarmup) || negb (warmupEnabled (warmup s)) then mret tt
  else if recent E (lastGateCmd s) ms800 then mret tt
  else if recoveryGate s then
    match c with
    | None => mret tt
    | Some c =>
        go ← AllRosterReadyAndConnected E c;
        if negb go then mret tt
        else
          send E "mp_unpause_match" ;;
          when (paused E) (emit PauseOff) ;;
          emit (Heartbeat "live") ;;
          upd (fun s => s <| mode := MatchLive |> <| recoveryGate := false |>) ;;
          when (negb (statsLive E)) (BeginMapStats c (mapNumberNow E)) ;;
          emit NoteProgress ;;
          StartDemoForMap E (mapNumberNow E) (current_map (ms E)) ;;
          upd (fun s => s <| lastGateCmd := now E |>)
    end
  else if negb (warmupRulesApplied s) then ApplyWarmupRules E ;; upd (fun s => s <| lastGateCmd := now E |>)
  else
    match c with
    | None => emit (Heartbeat "idle")
    | Some c =>
        if startTriggered s then mret tt
        else if IsKnifeForMap E c (mapNumberNow E) then mret tt
        else
          go ← AllRosterReadyAndConnected E c;
          if negb go then mret tt
          else
            upd (fun s => s <| lastGateCmd := now E |>) ;;
            if negb (goLiveAllowed E false) then mret tt else ApplyLiveRulesAndRestart E c
    end.

(** ** Practice *)

Definition kPracticeCmds : list string :=
  ["sv_cheats 1"; "mp_respawn_on_death_ct 1"; "mp_respawn_on_death_t 1"; "mp_ignore_round_win_conditions 1"; "mp_freezetime 0"; "mp_buy_anywhere 1";
   "mp_buytime 9999"; "sv_infinite_ammo 2"; "mp_roundtime 60"; "mp_roundtime_defuse 60"; "mp_roundtime_hostage 60"].
Definition ApplyPracticeRules : M unit :=
  s ← gets st;
  any ← enqueue_all E (if cfgExecEnabled s then ["exec ReadyUp/prac.cfg"] else kPracticeCmds);
  when any (upd (fun s => s <| practiceRulesApplied := true |> <| practiceResetPending := true |>)).
Definition ResetPracticeRules : M unit :=
  s ← gets st;
  if negb (practiceResetPending s) then mret tt
  else any ← enqueue_all E kNeutralRules; when any (upd (fun s => s <| practiceResetPending := false |>)).

(** ** The tick *)

(** A map that was not seen before: every baseline is applied again. *)
Definition new_map : M unit :=
  s ← gets st;
  if sempty (current_map (ms E)) || (current_map (ms E) =s lastSeenMap s) then mret tt
  else
    upd (fun s => s <| lastSeenMap := current_map (ms E) |> <| idleCfgExecuted := false |> <| idleIgnoreWinSent := -1 |> <| warmupRulesApplied := false |>
                    <| practiceRulesApplied := false |> <| practiceResetPending := false |>) ;;
    ResetKnife E (mapNumberNow E) ;;
    when (negb (is_mode (mode s) External)) (send E "mp_warmup_pausetimer 0" ;; send E "mp_warmuptime 0") ;;
    when (is_mode (mode s) MatchKnife) (upd (fun s => s <| mode := MatchWarmup |> <| startTriggered := false |>)).

Definition GameModeCommands (wingman : bool) : list string := ["game_type 0"; if wingman then "game_mode 2" else "game_mode 1"].

Definition idle_tick : M unit :=
  s ← gets st; c ← gets ctx;
  if negb (is_mode (mode s) Idle) then upd (fun s => s <| idleIgnoreWinSent := -1 |>)
  else
    when (wingmanGameMode s && match c with None => true | Some _ => false end)
      (enqueue_all E (GameModeCommands false) ;; upd (fun s => s <| wingmanGameMode := false |>)) ;;
    when (cfgExecEnabled s && negb (idleCfgExecuted s))
      (ok ← enqueue E "exec ReadyUp/idle.cfg"; when ok (upd (fun s => s <| idleCfgExecuted := true |> <| idleIgnoreWinSent := -1 |>))) ;;
    let want := if scrimAuto E then 1 else 0 in
    sent ← gets (fun w => idleIgnoreWinSent (st w));
    if sent =? want then mret tt
    else ok ← enqueue E (if scrimAuto E then "mp_ignore_round_win_conditions 1" else "mp_ignore_round_win_conditions 0");
         when ok (upd (fun s => s <| idleIgnoreWinSent := want |>)).

Definition scrim_tick : M unit :=
  s ← gets st;
  when (is_mode (mode s) ScrimWarmup && negb (warmupRulesApplied s) && negb (recent E (lastGateCmd s) ms800))
    (ApplyScrimWarmupRules E ;; upd (fun s => s <| lastGateCmd := now E |>)).

Definition practice_tick : M unit :=
  s ← gets st;
  if is_mode (mode s) Practice then when (negb (practiceRulesApplied s)) ApplyPracticeRules else ResetPracticeRules.

Definition Tick : M unit :=
  if disabled E then emit (SuppressRoundEnd false)
  else
    new_map ;; idle_tick ;; scrim_tick ;; practice_tick ;;
    MaybeEnterKnifeMode E ;; MaybeAutoPickKnifeSide E ;; MaybeForceRosterTeams ;; MaybeGateMatch ;; MaybeShowWarmupUi ;; EnforceWhitelist ;;
    s ← gets st;
    let suppress := negb (cfgExecEnabled s) && (is_mode (mode s) Practice || is_mode (mode s) MatchWarmup) in
    emit (SuppressRoundEnd (if suppress && is_mode (mode s) Practice && dryRun E then false else suppress)).

(** ** CS2's own warmup *)

Definition OnNativeWarmupStarted : M unit :=
  s ← gets st;
  let m := mode s in
  if disabled E then mret tt
  else if negb (is_mode m Idle || is_mode m ScrimWarmup || is_mode m MatchWarmup || is_mode m MatchKnife || is_mode m MatchLive || is_mode m Practice) then mret tt
  else if recent E (lastNativeWarmupEnd s) (2 * kSecond) then mret tt
  else
    any ← enqueue_all E kNativeOff;
    when any (upd (fun s => s <| lastNativeWarmupEnd := now E |>)) ;;
    when (is_mode m MatchWarmup || is_mode m ScrimWarmup) (emit RulesLater).
(** What [RulesLater] runs a second later. *)
Definition rules_later : M unit :=
  s ← gets st; when (is_mode (mode s) MatchWarmup || is_mode (mode s) ScrimWarmup) (upd (fun s => s <| warmupRulesApplied := false |>)).

(** A player joined a side in warmup: the round is restarted so that they spawn.  [pending] and [last] are the
    function's statics. *)
Definition ModesOnHumanJoinedTeam (team : Z) (pending : bool) (last : Z) : M bool :=
  s ← gets st;
  if negb ((team =? 2) || (team =? 3)) || negb (is_mode (mode s) MatchWarmup) || pending then mret pending
  else
    let since := seconds_since E last in
    let rest := dsub (of_int 4) since in
    emit (RestartLater (if dratio 3 2 <d rest then rest else dratio 3 2)) ;;
    mret true.
Definition restart_later : M unit := s ← gets st; when (is_mode (mode s) MatchWarmup) (send E "mp_restartgame 1").

(** Practice without a round after BeginMatch; [lastRound], [lastRestart] and [at_] are seconds.  The new [lastRestart]. *)
Definition begin_match_check (nowSeconds lastRound lastRestart at_ : double) : M double :=
  s ← gets st;
  if dsub at_ (of_int 1) <=d lastRound then mret lastRestart
  else if dsub nowSeconds lastRestart <d of_int 10 then mret lastRestart
  else if negb (is_mode (mode s) Practice) then mret lastRestart
  else ok ← enqueue E "mp_restartgame 1"; mret (if ok : bool then nowSeconds else lastRestart).

End Ops.

End Ticks.
