(* ===== verification/ModesJson.v ===== *)
(** * The match modes: the state across a plugin reload

    [ModesSnapshotJson] and [ModesRestoreJson] of [plugins/match/readyup/modes.cpp], and the two [switch]es that
    name a mode.  Not saved: the times of the last kick and the last team move, the value of
    [idleIgnoreWinSent].  A number that is no value of its enum, and a double that is no [long long], are where the code
    leaves what the model can say: [None]. *)

From S2P Require Import Prelude CStr Double Json MatchConfig Modes.

Module ModeJson.
Import Mo.

Definition ModeToString (m : ReadyUpMode) : string :=
  match m with
  | Idle => "idle" | Practice => "practice" | MatchWarmup => "match_warmup" | MatchKnife => "match_knife" | MatchLive => "match_live"
  | Postgame => "postgame" | ScrimWarmup => "scrim_warmup" | External => "external"
  end.

(** ** The enums as [int]s *)

Definition mode_int (m : ReadyUpMode) : Z :=
  match m with Idle => 0 | Practice => 1 | MatchWarmup => 2 | MatchKnife => 3 | MatchLive => 4 | Postgame => 5 | ScrimWarmup => 6 | External => 7 end.
Definition mode_of (n : Z) : option ReadyUpMode :=
  if n <? 0 then None else [Idle; Practice; MatchWarmup; MatchKnife; MatchLive; Postgame; ScrimWarmup; External] !! Z.to_nat n.
Definition phase_int (p : KnifePhase) : Z := match p with KnifeNone => 0 | KnifeStarting => 1 | KnifeRunning => 2 | KnifePicking => 3 end.
Definition phase_of (n : Z) : option KnifePhase := if n <? 0 then None else [KnifeNone; KnifeStarting; KnifeRunning; KnifePicking] !! Z.to_nat n.
Definition team_int (t : WebhookTeam) : Z := match t with TeamUnknown => 0 | Team1 => 1 | Team2 => 2 end.
Definition team_of (n : Z) : option WebhookTeam := if n <? 0 then None else [TeamUnknown; Team1; Team2] !! Z.to_nat n.

(** ** Saving *)

Definition ready_ids (r : gmap Z bool) : list Z := fst <$> List.filter snd (map_to_list r).
Definition knife_json (k : Knife) : Json :=
  JObject
    [("map_number", JInt (knifeMapNumber k)); ("rules_applied", JBool (knifeRulesApplied k)); ("started_sent", JBool (knifeStartedSent k));
     ("ended_sent", JBool (knifeEndedSent k)); ("winner", JInt (team_int (knifeWinner k))); ("awaiting_pick", JBool (knifeAwaitingPick k));
     ("pick_deadline", JInt (knifePickDeadline k)); ("phase", JInt (phase_int (knifePhase k))); ("triggered_at", JInt (knifeTriggeredAt k));
     ("winner_cs", JInt (knifeWinnerCs k)); ("reason_short", JString (knifeReasonShort k)); ("reminder_sent", JBool (knifeReminderSent k));
     ("logdetail_set", JBool (knifeLogdetailSet k))].
Definition ModesSnapshotJson (s : State) : Json :=
  let w := warmup s in
  let r := series s in
  JObject
    [("mode", JInt (mode_int (mode s))); ("external_name", JString (externalName s)); ("external_touched_game_mode", JBool (externalTouchedGameMode s));
     ("wingman_game_mode", JBool (wingmanGameMode s)); ("warmup_enabled", JBool (warmupEnabled w)); ("warmup_html", JString (warmupHtml w));
     ("warmup_html_custom", JBool (warmupHtmlCustom w)); ("cfg_exec_enabled", JBool (cfgExecEnabled s)); ("idle_cfg_executed", JBool (idleCfgExecuted s));
     ("warmup_respawn", JBool (warmupRespawn w)); ("warmup_ignore_win", JBool (warmupIgnoreWin w));
     ("warmup_round_time_minutes", JInt (warmupRoundTimeMinutes w)); ("warmup_start_money", JInt (warmupStartMoney w));
     ("warmup_max_money", JInt (warmupMaxMoney w)); ("warmup_buy_anywhere", JBool (warmupBuyAnywhere w));
     ("warmup_infinite_ammo", JBool (warmupInfiniteAmmo w)); ("ready", JArray ((fun n => JString (to_string n)) <$> ready_ids (ready s)));
     ("match_loaded_chat_sent", JBool (matchLoadedChatSent s)); ("last_not_ready_chat", JInt (lastNotReadyChat s));
     ("last_seen_map", JString (lastSeenMap s)); ("warmup_rules_applied", JBool (warmupRulesApplied s)); ("start_triggered", JBool (startTriggered s));
     ("last_gate_cmd", JInt (lastGateCmd s)); ("recovery_gate", JBool (recoveryGate s)); ("lifecycle_map_number", JInt (lifecycleMapNumber r));
     ("warmup_ended_sent", JBool (warmupEndedSent r)); ("going_live_sent", JBool (goingLiveSent r)); ("practice_rules_applied", JBool (practiceRulesApplied s));
     ("practice_reset_pending", JBool (practiceResetPending s)); ("demo_recording", JBool (demoRecording s)); ("demo_map_number", JInt (demoMapNumber s));
     ("demo_name", JString (demoName s)); ("map_result_emitted_for", JInt (mapResultEmittedForMapNumber r)); ("series_wins_team1", JInt (seriesWinsTeam1 r));
     ("series_wins_team2", JInt (seriesWinsTeam2 r)); ("knife", knife_json (knife s)); ("last_native_warmup_end", JInt (lastNativeWarmupEnd s))].

(** ** Restoring *)

Section Get.
Context (o : option Json).
(** A member that is missing leaves the value alone. *)
Definition member (key : string) : option Json := o ≫= fun j => Find j key.
Definition get_b (key : string) (v : bool) : bool := match member key with Some x => AsBool x | None => v end.
Definition get_s (key : string) (v : string) : string := match member key with Some x => AsString x | None => v end.
Definition get_t (key : string) (v : Z) : option Z := match member key with Some x => AsInt x | None => Some v end.
Definition get_i (key : string) (v : Z) : option Z := match member key with Some x => to_int32 <$> AsInt x | None => Some v end.
End Get.

Definition ready_of (j : Json) : gmap Z bool :=
  match Find j "ready" with
  | Some r => foldl (fun m v => let sid := strtoull (AsString v) in if sid =? 0 then m else <[sid := true]> m) ∅ (Items r)
  | None => ∅
  end.

Definition restore_knife (o : option Json) (k : Knife) : option Knife :=
  n ← get_i o "map_number" (knifeMapNumber k);
  winner ← get_i o "winner" (team_int (knifeWinner k)) ≫= team_of;
  deadline ← get_t o "pick_deadline" (knifePickDeadline k);
  phase ← get_i o "phase" (phase_int (knifePhase k)) ≫= phase_of;
  triggered ← get_t o "triggered_at" (knifeTriggeredAt k);
  winnerCs ← get_i o "winner_cs" (knifeWinnerCs k);
  Some {| knifeMapNumber := n; knifeRulesApplied := get_b o "rules_applied" (knifeRulesApplied k);
          knifeStartedSent := get_b o "started_sent" (knifeStartedSent k); knifeEndedSent := get_b o "ended_sent" (knifeEndedSent k);
          knifeWinner := winner; knifeAwaitingPick := get_b o "awaiting_pick" (knifeAwaitingPick k); knifePickDeadline := deadline; knifePhase := phase;
          knifeTriggeredAt := triggered; knifeWinnerCs := winnerCs; knifeReasonShort := get_s o "reason_short" (knifeReasonShort k);
          knifeReminderSent := get_b o "reminder_sent" (knifeReminderSent k); knifeLogdetailSet := get_b o "logdetail_set" (knifeLogdetailSet k) |}.

Definition restore_warmup (o : option Json) (w : Warmup) : option Warmup :=
  time ← get_i o "warmup_round_time_minutes" (warmupRoundTimeMinutes w);
  start ← get_i o "warmup_start_money" (warmupStartMoney w);
  most ← get_i o "warmup_max_money" (warmupMaxMoney w);
  Some {| warmupEnabled := get_b o "warmup_enabled" (warmupEnabled w); warmupHtml := get_s o "warmup_html" (warmupHtml w);
          warmupHtmlCustom := get_b o "warmup_html_custom" (warmupHtmlCustom w); warmupRespawn := get_b o "warmup_respawn" (warmupRespawn w);
          warmupIgnoreWin := get_b o "warmup_ignore_win" (warmupIgnoreWin w); warmupRoundTimeMinutes := time; warmupStartMoney := start;
          warmupMaxMoney := most; warmupBuyAnywhere := get_b o "warmup_buy_anywhere" (warmupBuyAnywhere w);
          warmupInfiniteAmmo := get_b o "warmup_infinite_ammo" (warmupInfiniteAmmo w) |}.

Definition restore_series (o : option Json) (r : Series) : option Series :=
  n ← get_i o "lifecycle_map_number" (lifecycleMapNumber r);
  emitted ← get_i o "map_result_emitted_for" (mapResultEmittedForMapNumber r);
  w1 ← get_i o "series_wins_team1" (seriesWinsTeam1 r);
  w2 ← get_i o "series_wins_team2" (seriesWinsTeam2 r);
  Some {| lifecycleMapNumber := n; warmupEndedSent := get_b o "warmup_ended_sent" (warmupEndedSent r);
          goingLiveSent := get_b o "going_live_sent" (goingLiveSent r); mapResultEmittedForMapNumber := emitted; seriesWinsTeam1 := w1; seriesWinsTeam2 := w2 |}.

Definition ModesRestoreJson (j : Json) (s : State) : option State :=
  let o := Some j in
  m ← get_i o "mode" (mode_int (mode s)) ≫= mode_of;
  w ← restore_warmup o (warmup s);
  chat ← get_t o "last_not_ready_chat" (lastNotReadyChat s);
  gate ← get_t o "last_gate_cmd" (lastGateCmd s);
  r ← restore_series o (series s);
  demo ← get_i o "demo_map_number" (demoMapNumber s);
  k ← restore_knife (Find j "knife") (knife s);
  native ← get_t o "last_native_warmup_end" (lastNativeWarmupEnd s);
  Some {| mode := m; externalName := get_s o "external_name" (externalName s);
          externalTouchedGameMode := get_b o "external_touched_game_mode" (externalTouchedGameMode s);
          wingmanGameMode := get_b o "wingman_game_mode" (wingmanGameMode s); cfgExecEnabled := get_b o "cfg_exec_enabled" (cfgExecEnabled s);
          idleCfgExecuted := get_b o "idle_cfg_executed" (idleCfgExecuted s); idleIgnoreWinSent := idleIgnoreWinSent s; ready := ready_of j;
          lastKick := lastKick s; lastForceJoin := lastForceJoin s; matchLoadedChatSent := get_b o "match_loaded_chat_sent" (matchLoadedChatSent s);
          lastNotReadyChat := chat; lastSeenMap := get_s o "last_seen_map" (lastSeenMap s);
          warmupRulesApplied := get_b o "warmup_rules_applied" (warmupRulesApplied s); startTriggered := get_b o "start_triggered" (startTriggered s);
          lastGateCmd := gate; recoveryGate := get_b o "recovery_gate" (recoveryGate s);
          practiceRulesApplied := get_b o "practice_rules_applied" (practiceRulesApplied s);
          practiceResetPending := get_b o "practice_reset_pending" (practiceResetPending s); lastNativeWarmupEnd := native;
          demoRecording := get_b o "demo_recording" (demoRecording s); demoMapNumber := demo; demoName := get_s o "demo_name" (demoName s);
          warmup := w; knife := k; series := r |}.

End ModeJson.
