(* ===== verification/ModesRun.v ===== *)
(** * The match modes as a transition system

    Every way into [modes.cpp] is an [Op]; [run_op] runs one against an environment, [run] a history.  [wp] is the weakest
    precondition of a computation of the modes' monad, with the rules the proofs about operations use, and [keeps] a relation
    between the worlds before and after. *)

From S2P Require Import Prelude CStr Double Json MatchRules MatchEnd MatchConfig MapNames Modes ModesLive ModesEnd ModesTick ModesJson.

Module Run.
Import Mo Live MapEnd Ticks ModeJson.

(** ** Operations *)

Inductive Op :=
  | OpMapStart | OpIdle | OpPractice | OpExternal (name : string) | OpScrimWarmup | OpRecoveryWarmup | OpContext (c : option WebhookMatchContext)
  | OpMatchLoaded | OpRestart | OpEndMatch | OpFinishSeries | OpNextMap | OpSeriesWins (a b : Z) | OpRecoveryGate (on : bool)
  | OpToggleReady (sid : Z) | OpSetReady (sid : Z) (r : bool) | OpClearReady (sid : Z) | OpClearReadyStates
  | OpWarmupEnabled (on : bool) | OpWarmupHtml (html : string) | OpCfgExec (on : bool) | OpWarmupRespawn (on : bool) | OpWarmupIgnoreWin (on : bool)
  | OpWarmupMinutes (n : Z) | OpStartMoney (n : Z) | OpMaxMoney (n : Z) | OpBuyAnywhere (on : bool) | OpInfiniteAmmo (on : bool)
  | OpRoundStarted | OpForceStart (force : bool) | OpScrimGoLive (seconds : Z) | OpKnifeRound | OpKnifeRoundStart (n : Z)
  | OpKnifeRoundEnd (n cs : Z) (elimination : bool) | OpKnifePick (choice : string) (picker : Z) (name : string)
  | OpRoundEnded (n s1 s2 : Z) (name : string) | OpGameOver (ct t : Z) | OpForfeit (loser : WebhookTeam) (reason : string)
  | OpTick | OpNativeWarmup | OpRulesLater | OpCvars | OpTeamNames | OpRestore (j : Json).

(** A result nobody uses. *)
Definition ignore {A} (m : M A) : M unit := m ;; mret tt.

Definition run_op (E : Env) (op : Op) : M unit :=
  match op with
  | OpMapStart => ModesOnMapStart
  | OpIdle => SetModeIdle E
  | OpPractice => SetModePractice E
  | OpExternal name => ignore (SetModeExternal E name)
  | OpScrimWarmup => ignore SetModeScrimWarmup
  | OpRecoveryWarmup => SetModeMatchWarmupForRecovery
  | OpContext c => change (fun w => w <| ctx := c |>)
  | OpMatchLoaded => OnMatchLoaded E
  | OpRestart => ignore (RestartMatch E)
  | OpEndMatch => ignore (EndMatchResetServer E)
  | OpFinishSeries => ModesFinishSeriesResetToIdle E
  | OpNextMap => ModesBeginNextMapWarmup
  | OpSeriesWins a b => ModesSetSeriesWins a b
  | OpRecoveryGate on => SetRecoveryGate on
  | OpToggleReady sid => ignore (ToggleReady sid)
  | OpSetReady sid r => ignore (SetReady sid r)
  | OpClearReady sid => ClearReady sid
  | OpClearReadyStates => ClearReadyStates
  | OpWarmupEnabled on => SetWarmupEnabled on
  | OpWarmupHtml html => SetWarmupHtmlMessage html
  | OpCfgExec on => SetCfgExecEnabled on
  | OpWarmupRespawn on => SetWarmupRespawnEnabled on
  | OpWarmupIgnoreWin on => SetWarmupIgnoreWinConditions on
  | OpWarmupMinutes n => SetWarmupRoundTimeMinutes n
  | OpStartMoney n => SetWarmupStartMoney n
  | OpMaxMoney n => SetWarmupMaxMoney n
  | OpBuyAnywhere on => SetWarmupBuyAnywhereEnabled on
  | OpInfiniteAmmo on => SetWarmupInfiniteAmmoEnabled on
  | OpRoundStarted => OnMatchRoundStarted E
  | OpForceStart force => ignore (ForceStartMatch E force)
  | OpScrimGoLive seconds => ignore (ScrimGoLive E seconds)
  | OpKnifeRound => ignore (StartKnifeRound E)
  | OpKnifeRoundStart n => KnifeOnRoundStart E n
  | OpKnifeRoundEnd n cs elimination => KnifeOnRoundEnd E n cs elimination
  | OpKnifePick choice picker name => ignore (KnifeApplySideChoice E choice picker name)
  | OpRoundEnded n s1 s2 name => OnMatchRoundEnded E n s1 s2 name
  | OpGameOver ct t => engine_game_over E ct t
  | OpForfeit loser reason => ignore (ForfeitCurrentMap E loser reason)
  | OpTick => Tick E
  | OpNativeWarmup => OnNativeWarmupStarted E
  | OpRulesLater => rules_later
  | OpCvars => ApplyMatchCvarsNow E
  | OpTeamNames => ApplyTeamNamesNow E
  | OpRestore j => change (fun w => match ModesRestoreJson j (st w) with Some s => w <| st := s |> | None => w end)
  end.

Definition step (w : World) (x : Env * Op) : World := (run_op x.1 x.2 w).2.
Definition run (hist : list (Env * Op)) (w : World) : World := foldl step w hist.

(** ** A small match

    Two players, two maps, the second one with a knife round; the clock is [t] and the command buffer takes everything. *)

Definition sample_players : list Person :=
  [{| p_sid := 11; p_slot := 0; p_team := 3; p_name := "ann" |}; {| p_sid := 22; p_slot := 1; p_team := 2; p_name := "bob" |}].
Definition sample_env_with (rules : list string) (t : Z) : Env := {|
  now := t; takes := fun _ => true;
  ms := {| map_number := 1; round_number := 0; team1_score := 0; team2_score := 0; current_map := "de_nuke" |};
  humans := sample_players; bots := []; slots := sample_players; engineTeam := fun _ => None; swapCount := 0; simConnected := [];
  isAdmin := fun _ => false; isCoach := fun _ => false; isGuest := fun _ => false; knifeFeature := true; simulating := false; devBots := false;
  hudReplacesChat := false; hudScreens := false; readyHudShowing := false; signalsOn := false; goLiveAllowed := fun _ => true; resumeWaiting := false;
  minPlayersToReady := 0; minSpectatorsToReady := 0; playoutOn := false; whitelistOn := true; resetCvars := true; restoreCommands := [];
  ruleCommands := rules; liveCfgRequired := false; liveCfgCommand := "exec ReadyUp/live.cfg"; paused := false; statsLive := false; statsTeam1Ct := true;
  damage := (100, 200); knifeStats := fun _ => {| alive := 1; hp := 100 |}; coin := true; knifePickSeconds := 30; recorderBusy := false;
  recorderStarts := true; scrimAuto := false; disabled := false; dryRun := false; boundNames := Mn.ResetBindings |}.
Definition sample_env : Z -> Env := sample_env_with [].
Definition sample_team (name : string) : TeamInfo := {| t_name := name; t_id := EmptyString; t_flag := EmptyString; t_captain := 0 |}.
Definition sample_ctx : WebhookMatchContext := {|
  c_matchid := 42; c_slug := "final"; c_num_maps := 2; c_team1 := sample_team "Anns"; c_team2 := sample_team "Bobs"; c_knifeDecisionSeconds := 60;
  c_maxRounds := 24; c_overtime_enabled := true; c_overtimeSegments := 3; c_maxOvertimes := 1; c_damageTiebreakEnabled := true;
  c_suddenDeathOnDamageTie := true; c_map_sides := ["team1_ct"; "knife"]; c_clinch_series := true; c_maplist := ["de_nuke"; "de_mirage"];
  c_spectators := ∅; c_admins := ∅; c_cvars := {[ "mp_maxrounds" := "24" ]};
  c_roster := {| coach_team := ∅; substitutes := ∅; roster_team := {[ 11 := Team1; 22 := Team2 ]}; roster_names := ∅ |}; c_rules := UnsetRules;
  c_ruleset := EmptyString; c_overrides_json := EmptyString; c_coaches := ∅; c_coaches_per_team := 2; c_players_per_team := 1; c_playout := -1;
  c_whitelist := -1; c_autoready := -1; c_ruleset_notes := []; c_roster_names_rule := -1; c_wingman := false; c_demo_record := -1; c_demo_upload := -1;
  c_bot_fill := false; c_full_team_deadline_ms := 0; c_walkover_short := TeamUnknown; c_walkover_expires_ms := 0; c_walkover_choosers := ∅;
  c_simulation := false; c_simulation_timescale := of_int 1 |}.
(** Loaded, both ready, two ticks, the round after the restart. *)
Definition sample_history : list (Env * Op) :=
  (fun x : Z * Op => (sample_env (x.1 * 1000000000), x.2)) <$>
  [(1, OpContext (Some sample_ctx)); (1, OpMatchLoaded); (2, OpSetReady 11 true); (2, OpSetReady 22 true); (3, OpTick); (5, OpTick); (7, OpRoundStarted)].

Example sample_live :
  mode (st (run sample_history BootWorld)) = MatchLive /\ is_mode (mode (st (run (take 6 sample_history) BootWorld))) MatchWarmup = true /\
  mode (st (run (take 2 sample_history ++ drop 4 sample_history) BootWorld)) = MatchWarmup.
Proof. vm_compute. auto. Qed.

(** ** Weakest preconditions *)

Definition wp {A} (m : M A) (Q : A -> World -> Prop) (w : World) : Prop := Q (m w).1 (m w).2.

Lemma bind_gets {A B} (f : World -> A) (k : A -> M B) w : (gets f ≫= k) w = k (f w) w.
Proof. done. Qed.
Lemma bind_change {B} f (k : unit -> M B) w : (change f ≫= k) w = k tt (f w).
Proof. done. Qed.
Lemma bind_upd {B} f (k : unit -> M B) w : (upd f ≫= k) w = k tt (w <| st := f (st w) |>).
Proof. done. Qed.
Lemma bind_emit {B} e (k : unit -> M B) w : (emit e ≫= k) w = k tt (w <| out := out w ++ [e] |>).
Proof. done. Qed.
Lemma wp_bind {A B} (m : M A) (k : A -> M B) Q w : wp m (fun a => wp (k a) Q) w -> wp (m ≫= k) Q w.
Proof. unfold wp, mbind, M_bind. by destruct (m w). Qed.
Lemma ignore_run {A} (m : M A) w : (ignore m w).2 = (m w).2.
Proof. unfold ignore, mbind, M_bind. by destruct (m w). Qed.
Lemma any_bind {A B} (m : M A) (k : A -> M B) Q w : (forall a w', wp (k a) Q w') -> wp (m ≫= k) Q w.
Proof. intros H. apply wp_bind, H. Qed.
Lemma wp_ret {A} (a : A) (Q : A -> World -> Prop) w : Q a w -> wp (mret a) Q w.
Proof. done. Qed.
Lemma wp_gets {A} (f : World -> A) (Q : A -> World -> Prop) w : Q (f w) w -> wp (gets f) Q w.
Proof. done. Qed.
Lemma wp_change f Q w : Q tt (f w) -> wp (change f) Q w.
Proof. done. Qed.
Lemma wp_mono {A} (m : M A) (Q Q' : A -> World -> Prop) w : (forall a w', Q a w' -> Q' a w') -> wp m Q w -> wp m Q' w.
Proof. unfold wp. auto. Qed.
Lemma wp_when b m Q w : (b = true -> wp m Q w) -> (b = false -> Q tt w) -> wp (when b m) Q w.
Proof. destruct b; [intros H _; by apply H|intros _ H; by apply H]. Qed.

(** ** Relations between the worlds before and after *)

Definition keeps (R : World -> World -> Prop) {A} (m : M A) : Prop := forall w, R w (m w).2.

Section Keeps.
Context (R : World -> World -> Prop) `{!PreOrder R}.
Lemma keeps_bind {A B} (m : M A) (k : A -> M B) : keeps R m -> (forall a, keeps R (k a)) -> keeps R (m ≫= k).
Proof. intros Hm Hk w. unfold mbind, M_bind. specialize (Hm w). destruct (m w) as [a w']. etrans; [exact Hm|apply Hk]. Qed.
Lemma keeps_ret {A} (a : A) : keeps R (mret a).
Proof. intros w. reflexivity. Qed.
Lemma keeps_gets {A} (f : World -> A) : keeps R (gets f).
Proof. intros w. reflexivity. Qed.
Lemma keeps_when b m : keeps R m -> keeps R (when b m).
Proof. intros H. destruct b; [exact H|apply keeps_ret]. Qed.
Lemma keeps_change f : (forall w, R w (f w)) -> keeps R (change f).
Proof. auto. Qed.
Lemma keeps_wp {A} (m : M A) w0 w : keeps R m -> R w0 w -> wp m (fun _ w' => R w0 w') w.
Proof. intros Hm H. unfold wp. by rewrite H. Qed.
(** An operation reasoned about at one world. *)
Lemma keeps_at {A} (m : M A) : (forall w, wp m (fun _ w' => R w w') w) -> keeps R m.
Proof. auto. Qed.
End Keeps.

(** ** Operations that leave the world in some state *)

Definition leaves (P : World -> Prop) {A} (m : M A) : Prop := forall w, P (m w).2.

Section Leaves.
Context (P : World -> Prop).
(** What brings it about comes later, or now and stays. *)
Lemma leaves_later {A B} (m : M A) (k : A -> M B) : (forall a, leaves P (k a)) -> leaves P (m ≫= k).
Proof. intros H w. unfold mbind, M_bind. destruct (m w). apply H. Qed.
Lemma leaves_now {A B} (m : M A) (k : A -> M B) (R : World -> World -> Prop) :
  (forall w w', P w -> R w w' -> P w') -> leaves P m -> (forall a, keeps R (k a)) -> leaves P (m ≫= k).
Proof. intros HR Hm Hk w. unfold mbind, M_bind. specialize (Hm w). destruct (m w) as [a w']. apply (HR w'); [exact Hm|apply Hk]. Qed.
Lemma leaves_change f : (forall w, P (f w)) -> leaves P (change f).
Proof. auto. Qed.
End Leaves.

(** ** Operations that only speak *)

(** No map result. *)
Definition quiet (e : Eff) : bool := match e with MapResultOf _ _ _ _ _ _ _ => false | _ => true end.
Definition Quiet (w w' : World) : Prop := exists l, w' = w <| out := out w ++ l |> /\ forallb quiet l = true.

Lemma out_id w : w <| out := out w |> = w.
Proof. by destruct w. Qed.
#[export] Instance Quiet_pre : PreOrder Quiet.
Proof.
  split.
  - intros w. exists []. by rewrite app_nil_r, out_id.
  - intros w w' w'' (l & -> & Hl) (l' & -> & Hl'). exists (l ++ l'). cbn. rewrite <- app_assoc, forallb_app. by rewrite Hl.
Qed.

Lemma wp_quiet {A} (m : M A) (Q : A -> World -> Prop) w :
  keeps Quiet m -> (forall a l, forallb quiet l = true -> Q a (w <| out := out w ++ l |>)) -> wp m Q w.
Proof. intros Hm HQ. unfold wp. destruct (Hm w) as (l & -> & Hl). auto. Qed.

(** Splits a computation along its structure. *)
Ltac keeps_step :=
  first [ apply keeps_ret; apply _ | apply keeps_gets; apply _ | apply keeps_when; [apply _|]
        | match goal with |- keeps _ (_ ≫= _) => apply keeps_bind; [apply _| |intros ?] end
        | match goal with |- keeps _ (if ?b then _ else _) => destruct b end
        | match goal with |- keeps _ (match ?x with _ => _ end) => destruct x end ].
Create HintDb speak discriminated.
Ltac speak := repeat first [ solve [auto with speak] | keeps_step ].

Lemma emit_quiet e : quiet e = true -> keeps Quiet (emit e).
Proof. intros He w. exists [e]. cbn. by rewrite He. Qed.
Lemma emits_quiet l : forallb quiet l = true -> keeps Quiet (emits l).
Proof. intros Hl w. by exists l. Qed.
#[export] Hint Resolve emit_quiet emits_quiet : speak.

Section Speak.
Context (E : Env).
Lemma enqueue_quiet line : keeps Quiet (enqueue E line).
Proof. unfold enqueue. speak. Qed.
Hint Resolve enqueue_quiet : speak.
Lemma enqueue_all_quiet lines : keeps Quiet (enqueue_all E lines).
Proof. induction lines as [|l lines IH]; cbn [enqueue_all]; speak. Qed.
Lemma send_quiet line : keeps Quiet (send E line).
Proof. unfold send. speak. Qed.
Hint Resolve enqueue_all_quiet send_quiet : speak.
Lemma EnqueueAfterCfg_quiet lines : keeps Quiet (EnqueueAfterCfg lines).
Proof. unfold EnqueueAfterCfg. speak. Qed.
Hint Resolve EnqueueAfterCfg_quiet : speak.
Lemma ApplyMatchCvars_quiet c : keeps Quiet (ApplyMatchCvars E c).
Proof. unfold ApplyMatchCvars. speak. Qed.
Lemma BeginMapStats_quiet c n : keeps Quiet (BeginMapStats c n).
Proof. unfold BeginMapStats. speak. Qed.
Lemma ApplyTeamNamesNow_quiet : keeps Quiet (ApplyTeamNamesNow E).
Proof. unfold ApplyTeamNamesNow. speak. Qed.
Lemma reset_rules_quiet : keeps Quiet (ResetServerRulesAndRestart E).
Proof. unfold ResetServerRulesAndRestart. speak. Qed.
Hint Resolve ApplyMatchCvars_quiet BeginMapStats_quiet ApplyTeamNamesNow_quiet reset_rules_quiet : speak.
Lemma ApplyMatchCvarsNow_quiet : keeps Quiet (ApplyMatchCvarsNow E).
Proof. unfold ApplyMatchCvarsNow. speak. Qed.
End Speak.
#[export] Hint Resolve enqueue_quiet enqueue_all_quiet send_quiet EnqueueAfterCfg_quiet ApplyMatchCvars_quiet BeginMapStats_quiet
  ApplyTeamNamesNow_quiet reset_rules_quiet ApplyMatchCvarsNow_quiet : speak.

End Run.
