(* ===== verification/ModesGoLive.v ===== *)
(** * The match modes: no map goes live without permission

    A map is [playing] when it is live or its knife round is on, and [going] also when the restart into it was sent.
    Whatever the history, a map that plays has been going since an operation that permitted its start, or since the
    one round start that slips through behind the gate of crash recovery; what ends, loads, restarts or drops a match
    leaves nothing going. *)

From S2P Require Import Prelude CStr Double Json MatchRules MatchEnd MatchConfig MapNames Modes ModesLive ModesEnd ModesTick ModesJson ModesRun.

Module GoLive.
Import Mo Live MapEnd Ticks ModeJson Run.

Definition is_playing (s : State) : bool := is_mode (mode s) MatchLive || is_mode (mode s) MatchKnife.
Definition is_going (s : State) : bool := is_playing s || startTriggered s.
Definition playing (w : World) : bool := is_playing (st w).
Definition going (w : World) : bool := is_going (st w).
Lemma playing_going w : playing w = true -> going w = true.
Proof. unfold playing, going, is_going. by intros ->. Qed.

(** ** The check of [GoLiveCheck] as a function of what it reads *)

Definition nobody_here (E : Env) (c : WebhookMatchContext) : bool := c_bot_fill c && (count_team false (connected E) c + count_team true (connected E) c =? 0).
Definition next_empty (E : Env) (c : WebhookMatchContext) (es : option Z) : option Z :=
  if nobody_here E c then match es with Some t => Some t | None => Some (now E) end else None.
Definition resume_holds (E : Env) (c : WebhookMatchContext) : bool :=
  let head := ResumeCount (count_team false (fun _ => true) c, count_team true (fun _ => true) c)
                (count_team false (connected E) c, count_team true (connected E) c) (c_players_per_team c) in
  resumeWaiting E && negb (ResumeMayGoLive (needed head) (back head)).
(** The conditions before the empty-server clock. *)
Definition early (E : Env) (c : WebhookMatchContext) (r : gmap Z bool) : option bool :=
  if negb (forallb (on_side E c) (humans E)) then Some false
  else if negb (spectators_ok E c r) then Some false
  else if bool_decide (roster_team (c_roster c) = ∅) then Some true
  else if resume_holds E c then Some false else None.
Definition late (E : Env) (c : WebhookMatchContext) (r : gmap Z bool) (es : option Z) : bool :=
  let waited := match es with Some t => seconds_since E t | None => of_int 0 end in
  if nobody_here E c && (if 0 <? count_team false (fun _ => true) c + count_team true (fun _ => true) c then waited <d kBotFillRosterGraceSeconds
                         else negb (BotFillEmptyMayGoLive waited)) then false
  else if c_bot_fill c && ((players_on E 3 =? 0) || (players_on E 2 =? 0)) then false
  else team_ready E c r false && team_ready E c r true.
Definition goes (E : Env) (c : WebhookMatchContext) (r : gmap Z bool) (es : option Z) : bool :=
  match early E c r with Some b => b | None => late E c r (next_empty E c es) end.
Definition after_check (E : Env) (c : WebhookMatchContext) (w : World) : World :=
  match early E c (ready (st w)) with Some _ => w | None => w <| emptySince := next_empty E c (emptySince w) |> end.

Lemma GoLiveCheck_goes E c w : GoLiveCheck E c w = (goes E c (ready (st w)) (emptySince w), after_check E c w).
Proof.
  unfold GoLiveCheck, goes, after_check, early, resume_holds. rewrite bind_gets.
  destruct (negb (forallb _ _)); [done|]. destruct (negb (spectators_ok _ _ _)); [done|]. case_bool_decide; [done|].
  cbn [fst snd]. destruct (resumeWaiting E && _); [done|]. rewrite bind_change, bind_gets. unfold late. fold (nobody_here E c). fold (next_empty E c (emptySince w)).
  change (emptySince (set emptySince ?f ?x)) with (f (emptySince x)). cbn beta.
  destruct (nobody_here E c && _); [done|]. by destruct (c_bot_fill c && _).
Qed.

Lemma goes_next E c r es : goes E c r (next_empty E c es) = goes E c r es.
Proof. unfold goes. destruct (early E c r); [done|]. f_equal. unfold next_empty. destruct (nobody_here E c); [|done]. by destruct es. Qed.

(** Everyone the match waits for is ready, and the ruleset allows it: what a tick needs to start the match. *)
Definition all_ready (E : Env) (w : World) : bool :=
  match ctx w with
  | Some c => goes E c (ready (st w)) (emptySince w) && (goLiveAllowed E false || recoveryGate (st w))
  | None => false
  end.

(** What the document of a reload says: that the map was live, in its knife round, or about to be. *)
Definition doc_started (j : Json) : bool :=
  match get_i (Some j) "mode" 0 ≫= mode_of with Some m => is_mode m MatchLive || is_mode m MatchKnife | None => false end
  || get_b (Some j) "start_triggered" false.

(** The permissions to start a map. *)
Definition permits (E : Env) (w : World) (op : Op) : bool :=
  match op with
  | OpTick => all_ready E w
  | OpForceStart force => goLiveAllowed E force
  | OpScrimGoLive _ => is_mode (mode (st w)) MatchWarmup
  | OpKnifeRound => is_mode (mode (st w)) MatchWarmup && knifeFeature E
  | OpRoundStarted => is_mode (mode (st w)) MatchWarmup && negb (warmupEnabled (warmup (st w)))
  | OpRestore j => doc_started j
  | _ => false
  end.

(** ** The relations *)

(** Nothing starts. *)
Definition Stays (w w' : World) : Prop := (going w' = true -> going w = true) /\ (playing w' = true -> playing w = true).
#[export] Instance Stays_pre : PreOrder Stays.
Proof. split; unfold Stays; [by intros w|intros w w' w'' [] []; auto]. Qed.

(** The ready states stay. *)
Definition SameReady (w w' : World) : Prop := ready (st w') = ready (st w).
#[export] Instance SameReady_pre : PreOrder SameReady.
Proof. split; unfold SameReady; [by intros w|intros w w' w''; congruence]. Qed.

(** What a part of a tick may do: start only with permission, and leave what the permission reads, unless it is given. *)
Definition allowed_now (E : Env) (w : World) : Prop := playing w = true \/ all_ready E w = true.
Definition same_check (E : Env) (w w' : World) : Prop :=
  ctx w' = ctx w /\ recoveryGate (st w') = recoveryGate (st w) /\
  (forall c, ctx w = Some c -> goes E c (ready (st w)) (emptySince w') = goes E c (ready (st w)) (emptySince w)).
Definition Part (E : Env) (w w' : World) : Prop :=
  SameReady w w' /\ (going w' = true -> going w = true \/ all_ready E w = true) /\ (playing w' = true -> allowed_now E w) /\ (same_check E w w' \/ allowed_now E w).

Lemma all_ready_same E w w' : SameReady w w' -> same_check E w w' -> all_ready E w' = all_ready E w.
Proof.
  unfold SameReady, same_check, all_ready. intros Hr (-> & -> & Hg). destruct (ctx w) as [c|]; [|done]. by rewrite Hr, Hg.
Qed.

#[export] Instance Part_pre E : PreOrder (Part E).
Proof.
  split.
  - intros w. split; [done|]. split; [by left|]. split; [by left|]. left. by split.
  - intros w w' w'' (Hr & Hg & Hp & Hs) (Hr' & Hg' & Hp' & Hs').
    assert (all_ready E w' = true -> allowed_now E w) as Hw.
    { intros H. destruct Hs as [Hs|Hs]; [|done]. right. by rewrite <- (all_ready_same _ _ _ Hr Hs). }
    assert (allowed_now E w' -> allowed_now E w) as Ha by (intros [H|H]; auto).
    split; [etrans; eauto|]. split; [|split; [auto|]].
    + intros H%Hg'. destruct H as [H|H]; [auto|]. destruct (Hw H) as [Hpl|]; [left; by apply playing_going|by right].
    + destruct Hs as [Hs|Hs]; [|by right]. destruct Hs' as [Hs'|Hs']; [|right; auto].
      left. destruct Hs as (Hc & Hrg & Hgo), Hs' as (Hc' & Hrg' & Hgo'). unfold same_check. split_and!; [congruence..|].
      intros c Ec. unfold SameReady in Hr. rewrite <- Hgo by done. rewrite <- Hr. apply Hgo'. congruence.
Qed.

(** With permission, anything that keeps the ready states. *)
Lemma allowed_part E w w' : allowed_now E w -> SameReady w w' -> Part E w w'.
Proof. intros Ha Hr. split; [done|]. split; [|by split; [|right]]. intros _. destruct Ha; [left; by apply playing_going|by right]. Qed.
Lemma same_part E w w' : SameReady w w' -> Stays w w' -> ctx w' = ctx w -> recoveryGate (st w') = recoveryGate (st w) -> emptySince w' = emptySince w -> Part E w w'.
Proof. intros Hr [Hs Hp] Hc Hg He. split; [done|]. split; [by left; auto|]. split; [by left; auto|]. left. unfold same_check. split_and!; [done..|]. by rewrite He. Qed.

Lemma keeps_impl {A} (R R' : World -> World -> Prop) (m : M A) : (forall w w', R w w' -> R' w w') -> keeps R m -> keeps R' m.
Proof. intros H Hm w. apply H, Hm. Qed.
Lemma Quiet_stays w w' : Quiet w w' -> Stays w w'.
Proof. intros (l & -> & _). by split. Qed.
Lemma Quiet_ready w w' : Quiet w w' -> SameReady w w'.
Proof. intros (l & -> & _). reflexivity. Qed.
Lemma Quiet_part E w w' : Quiet w w' -> Part E w w'.
Proof. intros (l & -> & _). apply same_part; [reflexivity|by split|reflexivity..]. Qed.

(** Nothing of all this changes, and nothing starts. *)
Definition Calm (w w' : World) : Prop :=
  Stays w w' /\ SameReady w w' /\ ctx w' = ctx w /\ recoveryGate (st w') = recoveryGate (st w) /\ emptySince w' = emptySince w.
#[export] Instance Calm_pre : PreOrder Calm.
Proof.
  split; [by intros w|]. intros w w' w'' (Hs & Hr & Hc & Hg & He) (Hs' & Hr' & Hc' & Hg' & He').
  split; [by etrans|]. split; [by etrans|]. split_and!; congruence.
Qed.
Lemma Calm_part E w w' : Calm w w' -> Part E w w'.
Proof. intros (Hs & Hr & Hc & Hg & He). by apply same_part. Qed.
Lemma Quiet_calm w w' : Quiet w w' -> Calm w w'.
Proof. intros (l & -> & _). split; [by split|]. by split. Qed.

Lemma calm_upd f : (forall s, (is_going (f s) = true -> is_going s = true) /\ (is_playing (f s) = true -> is_playing s = true) /\ ready (f s) = ready s /\
  recoveryGate (f s) = recoveryGate s) -> keeps Calm (upd f).
Proof. intros H. apply keeps_change. intros w. destruct (H (st w)) as (? & ? & ? & ?). split; [by split|]. by split. Qed.
Lemma calm_quiet {A} (m : M A) : keeps Quiet m -> keeps Calm m.
Proof. apply keeps_impl, Quiet_calm. Qed.

Create HintDb calm discriminated.
Ltac calm_upd_tac := apply calm_upd; intros ?s; repeat case_match; cbn; split_and!; first [reflexivity | intros Hgo; exact Hgo | done].
Ltac calm := repeat first [ solve [auto with calm] | solve [apply calm_quiet; auto with speak] | calm_upd_tac | keeps_step ].

Section CalmOps.
Context (E : Env).
Lemma ResetKnife_calm n : keeps Calm (ResetKnife E n).
Proof. unfold ResetKnife. calm. Qed.
Hint Resolve ResetKnife_calm : calm.
Lemma StopDemo_calm : keeps Calm StopDemo.
Proof. unfold StopDemo. calm. Qed.
Lemma StartDemo_calm n name : keeps Calm (StartDemoForMap E n name).
Proof. unfold StartDemoForMap. calm. Qed.
Lemma lifecycle_calm n : keeps Calm (lifecycle_events n).
Proof. unfold lifecycle_events. calm. Qed.
Lemma upd_knife_calm f : keeps Calm (upd_knife f).
Proof. unfold upd_knife. calm. Qed.
Hint Resolve StopDemo_calm StartDemo_calm lifecycle_calm upd_knife_calm : calm.
Lemma ApplyKnifeRules_calm : keeps Calm (ApplyKnifeRules E).
Proof. unfold ApplyKnifeRules. calm. Qed.
Lemma rules_applied_calm any : keeps Calm (rules_applied_if any).
Proof. unfold rules_applied_if. calm. Qed.
Hint Resolve ApplyKnifeRules_calm rules_applied_calm : calm.
Lemma ApplyWarmupRules_calm : keeps Calm (ApplyWarmupRules E).
Proof. unfold ApplyWarmupRules. calm. Qed.
Lemma ApplyScrimWarmupRules_calm : keeps Calm (ApplyScrimWarmupRules E).
Proof. unfold ApplyScrimWarmupRules. calm. Qed.
Hint Resolve ApplyWarmupRules_calm ApplyScrimWarmupRules_calm : calm.
Lemma new_map_calm : keeps Calm (new_map E).
Proof. unfold new_map. calm. Qed.
Lemma idle_tick_calm : keeps Calm (idle_tick E).
Proof. unfold idle_tick. calm. Qed.
Lemma scrim_tick_calm : keeps Calm (scrim_tick E).
Proof. unfold scrim_tick. calm. Qed.
Lemma practice_tick_calm : keeps Calm (practice_tick E).
Proof. unfold practice_tick, ApplyPracticeRules, ResetPracticeRules. calm. Qed.
End CalmOps.
#[export] Hint Resolve ResetKnife_calm StopDemo_calm StartDemo_calm lifecycle_calm upd_knife_calm ApplyKnifeRules_calm rules_applied_calm ApplyWarmupRules_calm
  ApplyScrimWarmupRules_calm new_map_calm idle_tick_calm scrim_tick_calm practice_tick_calm : calm.

Lemma moves_calm f : keeps Calm (change (fun w => w <| moves := f w |>)).
Proof. apply keeps_change. intros w. split; [by split|]. by split. Qed.
#[export] Hint Resolve moves_calm : calm.

Section TickOps.
Context (E : Env).
Lemma force_all_calm live c l : keeps Calm (force_all E live c l).
Proof. induction l as [|h l IH]; cbn [force_all]; [apply keeps_ret, _|]. apply keeps_bind; [apply _| |done]. unfold force_one. calm. Qed.
Hint Resolve force_all_calm : calm.
Lemma force_calm : keeps Calm (MaybeForceRosterTeams E).
Proof. unfold MaybeForceRosterTeams. calm. Qed.
Lemma ui_calm : keeps Calm (MaybeShowWarmupUi E).
Proof. unfold MaybeShowWarmupUi. calm. Qed.
Lemma kick_all_calm c seen l : keeps Calm (kick_all E c seen l).
Proof.
  revert seen. induction l as [|p l IH]; intros seen; cbn [kick_all]; [apply keeps_ret, _|]. case_match; [done|].
  apply keeps_bind; [apply _| |done]. unfold kick_one. calm.
Qed.
Hint Resolve kick_all_calm : calm.
Lemma whitelist_calm : keeps Calm (EnforceWhitelist E).
Proof. unfold EnforceWhitelist. calm. Qed.
Hint Resolve force_calm ui_calm whitelist_calm : calm.

(** ** Operations with permission *)

Lemma ready_upd f : (forall s, ready (f s) = ready s) -> keeps SameReady (upd f).
Proof. intros H. apply keeps_change. intros w. apply H. Qed.
Lemma calm_ready {A} (m : M A) : keeps Calm m -> keeps SameReady m.
Proof. apply keeps_impl. by intros w w' (_ & Hr & _). Qed.
Lemma quiet_ready {A} (m : M A) : keeps Quiet m -> keeps SameReady m.
Proof. apply keeps_impl, Quiet_ready. Qed.
Ltac readies :=
  repeat first [ solve [apply calm_ready; auto with calm] | solve [apply quiet_ready; auto with speak]
               | apply ready_upd; intros ?s; repeat case_match; reflexivity | apply keeps_change; intros ?w; reflexivity | keeps_step ].

Lemma StartKnife_ready : keeps SameReady (StartKnife E).
Proof. unfold StartKnife. readies. Qed.
Lemma side_choice_ready c n choice picker name : keeps SameReady (ApplyKnifeSideChoice E c n choice picker name).
Proof. unfold ApplyKnifeSideChoice. readies. Qed.
Lemma live_rules_ready c : keeps SameReady (ApplyLiveRulesAndRestart E c).
Proof. unfold ApplyLiveRulesAndRestart. readies. Qed.

Lemma check_part c w : ctx w = Some c -> Part E w (after_check E c w).
Proof.
  intros Hc. unfold after_check. destruct (early E c (ready (st w))) eqn:Ee; [reflexivity|]. split; [done|]. split; [by left|]. split; [by left|]. left.
  split; [done|]. split; [done|]. intros c' Hc'. assert (c' = c) as -> by congruence. apply goes_next.
Qed.

Lemma wp_check c Q w : (forall b, b = goes E c (ready (st w)) (emptySince w) -> Q b (after_check E c w)) -> wp (AllRosterReadyAndConnected E c) Q w.
Proof. intros H. unfold wp, AllRosterReadyAndConnected. rewrite GoLiveCheck_goes. by apply H. Qed.

Lemma ready_part {A} (m : M A) w w' : allowed_now E w -> Part E w w' -> keeps SameReady m -> wp m (fun _ w'' => Part E w w'') w'.
Proof. intros Ha (Hr & _) Hm. apply allowed_part; [done|]. etrans; [exact Hr|apply Hm]. Qed.
Lemma calm_wp {A} (m : M A) w w' : Part E w w' -> keeps Calm m -> wp m (fun _ w'' => Part E w w'') w'.
Proof. intros Hp Hm. unfold wp. etrans; [exact Hp|]. apply Calm_part, Hm. Qed.
Lemma ready_permits c w : ctx w = Some c -> goes E c (ready (st w)) (emptySince w) = true -> goLiveAllowed E false = true \/ recoveryGate (st w) = true -> allowed_now E w.
Proof. intros Hc Hg Ha. right. unfold all_ready. rewrite Hc, Hg. destruct Ha as [-> | ->]; [done|by rewrite orb_true_r]. Qed.

Lemma enter_knife_part : keeps (Part E) (MaybeEnterKnifeMode E).
Proof.
  apply keeps_at. intros w. unfold MaybeEnterKnifeMode. apply wp_bind, wp_gets, wp_bind, wp_gets.
  do 3 (case_match; [by apply wp_ret|]). destruct (ctx w) as [c|] eqn:Hc; [|by apply wp_ret]. do 2 (case_match; [by apply wp_ret|]).
  apply wp_bind, wp_check. intros b ->. pose proof (check_part c w Hc) as Hp. destruct (goes E c (ready (st w)) (emptySince w)) eqn:Hg; [|by apply wp_ret].
  cbn [negb]. destruct (goLiveAllowed E false) eqn:Ha; cbn [negb]; [|apply calm_wp; [done|]; calm].
  apply wp_bind. eapply wp_mono; [|apply (ready_part _ w); [by eapply ready_permits; eauto|exact Hp|apply StartKnife_ready]]. by intros ? ? ?.
Qed.

Lemma auto_pick_part : keeps (Part E) (MaybeAutoPickKnifeSide E).
Proof.
  apply keeps_at. intros w. unfold MaybeAutoPickKnifeSide. apply wp_bind, wp_gets, wp_bind, wp_gets. cbv zeta.
  destruct (is_mode (mode (st w)) MatchKnife) eqn:Hm; cbn [negb orb]; [|by apply wp_ret].
  assert (allowed_now E w) as Ha by (left; unfold playing, is_playing; by rewrite Hm, orb_true_r).
  case_match; [by apply wp_ret|]. case_match; [|by apply wp_ret]. apply ready_part; [done..|]. case_match.
  - apply calm_ready. calm.
  - apply keeps_bind; [apply _|apply side_choice_ready|intros ?; apply keeps_ret, _].
Qed.

Lemma gate_part : keeps (Part E) (MaybeGateMatch E).
Proof.
  apply keeps_at. intros w. unfold MaybeGateMatch. apply wp_bind, wp_gets, wp_bind, wp_gets.
  do 2 (case_match; [by apply wp_ret|]). destruct (recoveryGate (st w)) eqn:Hr.
  { destruct (ctx w) as [c|] eqn:Hc; [|by apply wp_ret]. apply wp_bind, wp_check. intros b ->. pose proof (check_part c w Hc) as Hp.
    destruct (goes E c (ready (st w)) (emptySince w)) eqn:Hg; [|by apply wp_ret]. cbn [negb]. apply ready_part; [by eapply ready_permits; eauto|done|]. readies. }
  destruct (negb (warmupRulesApplied (st w))) eqn:Hw; [apply calm_wp; [done|]; calm|].
  destruct (ctx w) as [c|] eqn:Hc; [|apply calm_wp; [done|]; calm]. do 2 (case_match; [by apply wp_ret|]).
  apply wp_bind, wp_check. intros b ->. pose proof (check_part c w Hc) as Hp.
  destruct (goes E c (ready (st w)) (emptySince w)) eqn:Hg; [|by apply wp_ret]. cbn [negb].
  destruct (goLiveAllowed E false) eqn:Ha; cbn [negb]; [|apply calm_wp; [done|]; calm].
  apply ready_part; [by eapply ready_permits; eauto|done|]. apply keeps_bind; [apply _| |intros ?; apply live_rules_ready]. readies.
Qed.

Lemma calm_part {A} (m : M A) : keeps Calm m -> keeps (Part E) m.
Proof. apply keeps_impl, Calm_part. Qed.

Lemma Tick_part : keeps (Part E) (Tick E).
Proof.
  unfold Tick. destruct (disabled E); [apply calm_part; calm|].
  repeat first [ apply keeps_bind; [apply _|solve [apply enter_knife_part | apply auto_pick_part | apply gate_part | apply calm_part; auto with calm]|intros ?] ].
  apply calm_part. calm.
Qed.
End TickOps.
#[export] Hint Resolve force_calm ui_calm whitelist_calm : calm.

(** ** Every operation *)

Lemma calm_stays {A} (m : M A) : keeps Calm m -> keeps Stays m.
Proof. apply keeps_impl. by intros w w' (Hs & _). Qed.
Lemma quiet_stays {A} (m : M A) : keeps Quiet m -> keeps Stays m.
Proof. apply keeps_impl, Quiet_stays. Qed.
Lemma stays_upd f : (forall s, (is_going (f s) = true -> is_going s = true) /\ (is_playing (f s) = true -> is_playing s = true)) -> keeps Stays (upd f).
Proof. intros H. apply keeps_change. intros w. exact (H (st w)). Qed.
Lemma stays_change f : (forall w, st (f w) = st w) -> keeps Stays (change f).
Proof. intros H. apply keeps_change. intros w. unfold Stays, going, playing. by rewrite H. Qed.
Ltac stays :=
  repeat first [ solve [apply calm_stays; auto with calm] | solve [apply quiet_stays; auto with speak]
               | apply stays_upd; intros ?s; repeat case_match; split; first [done | intros Hgo; exact Hgo]
               | apply stays_change; intros ?w; reflexivity | keeps_step ].

Lemma series_reset_going s : is_going (series_reset s) = is_going s.
Proof. done. Qed.

Section Ops.
Context (E : Env).
Lemma FinishMap_stays c n name s1 s2 winner forfeit : keeps Stays (FinishMap E c n name s1 s2 winner forfeit).
Proof. unfold FinishMap. stays. Qed.

(** Operations that start nothing. *)
Definition starts (op : Op) : bool :=
  match op with
  | OpTick | OpForceStart _ | OpScrimGoLive _ | OpKnifeRound | OpRoundStarted | OpKnifePick _ _ _ | OpRecoveryGate true | OpRestore _ => true
  | _ => false
  end.
Lemma op_stays op : starts op = false -> keeps Stays (run_op E op).
Proof.
  destruct op; cbn [starts run_op]; intros H; try discriminate; unfold ignore.
  all: try (destruct on; [discriminate|]).
  all: unfold ModesOnMapStart, SetModeIdle, SetModePractice, SetModeExternal, SetModeScrimWarmup, SetModeMatchWarmupForRecovery, OnMatchLoaded, RestartMatch,
    EndMatchResetServer, ModesFinishSeriesResetToIdle, ResetToIdleAfterSeries, ModesBeginNextMapWarmup, ModesSetSeriesWins, SetRecoveryGate, ToggleReady, SetReady,
    ClearReady, ClearReadyStates, SetWarmupEnabled, SetWarmupHtmlMessage, SetCfgExecEnabled, SetWarmupRespawnEnabled, SetWarmupIgnoreWinConditions,
    SetWarmupRoundTimeMinutes, SetWarmupStartMoney, SetWarmupMaxMoney, SetWarmupBuyAnywhereEnabled, SetWarmupInfiniteAmmoEnabled, upd_warmup, rewarm,
    KnifeOnRoundStart, KnifeOnRoundEnd, OnMatchRoundEnded, engine_game_over, ForfeitCurrentMap, OnNativeWarmupStarted, rules_later, upd_knife.
  all: stays; apply FinishMap_stays.
Qed.

(** ** Operations that may start something *)

Lemma playing_mode w m : mode (st w) = m -> playing w = is_mode m MatchLive || is_mode m MatchKnife.
Proof. unfold playing, is_playing. by intros ->. Qed.

Lemma round_started_going w : going (OnMatchRoundStarted E w).2 = true -> going w = true \/ permits E w OpRoundStarted = true.
Proof.
  unfold OnMatchRoundStarted. rewrite bind_gets. cbn [permits]. destruct (is_mode (mode (st w)) MatchWarmup); cbn [negb]; [|auto].
  destruct (warmupEnabled (warmup (st w))); cbn [andb negb]; [|auto].
  destruct (startTriggered (st w)) eqn:Ht; cbn [negb]; intros H.
  - left. unfold going, is_going. by rewrite Ht, orb_true_r.
  - left. revert H. apply (quiet_stays (send E "mp_friendlyfire 0")). auto with speak.
Qed.
(** A round start makes the map live when the restart was sent, or when the warmup is off. *)
Lemma round_started_playing w : playing (OnMatchRoundStarted E w).2 = true ->
  playing w = true \/ permits E w OpRoundStarted = true \/ (mode (st w) = MatchWarmup /\ startTriggered (st w) = true).
Proof.
  unfold OnMatchRoundStarted. rewrite bind_gets. cbn [permits]. destruct (is_mode (mode (st w)) MatchWarmup) eqn:Hm; cbn [negb]; [|auto].
  destruct (warmupEnabled (warmup (st w))); cbn [andb negb]; [|auto].
  destruct (startTriggered (st w)) eqn:Ht; cbn [negb]; intros H.
  - right. right. split; [|done]. by destruct (mode (st w)).
  - left. revert H. apply (quiet_stays (send E "mp_friendlyfire 0")). auto with speak.
Qed.

Lemma restore_started j s s' : ModesRestoreJson j s = Some s' ->
  (is_going s' = true -> is_going s = true \/ doc_started j = true) /\ (is_playing s' = true -> is_playing s = true \/ doc_started j = true).
Proof.
  unfold ModesRestoreJson. cbv zeta. intros H. apply bind_Some in H as (m & Hm & H).
  assert (is_mode m MatchLive || is_mode m MatchKnife = true -> is_playing s = true \/ doc_started j = true) as Hplay.
  { intros Hp. unfold get_i, doc_started, get_i in *. destruct (member (Some j) "mode") as [x|].
    - right. cbn in Hm |- *. rewrite Hm. by rewrite Hp.
    - left. cbn in Hm. assert (mode s = m) as <- by (destruct (mode s); by injection Hm as <-). exact Hp. }
  repeat match type of H with (_ ≫= _) = Some _ => apply bind_Some in H as (? & _ & H) end. injection H as <-. unfold is_going, is_playing in *. cbn [mode startTriggered] in *.
  split; [|done]. intros [Hp|Ht]%orb_prop.
  - destruct (Hplay Hp) as [->|]; [by left|by right].
  - unfold get_b, doc_started, get_b in *. destruct (member (Some j) "start_triggered"); [right; by rewrite Ht, orb_true_r|left; by rewrite Ht, orb_true_r].
Qed.

(** What lets an operation start something: nothing that was going, a permission, or the gate of crash recovery. *)
Definition gate_on (op : Op) : bool := match op with OpRecoveryGate on => on | _ => false end.
Lemma op_going op w : going (run_op E op w).2 = true -> going w = true \/ permits E w op = true \/ gate_on op = true.
Proof.
  destruct (starts op) eqn:Hs; [|intros H; left; revert H; by apply op_stays].
  destruct op; try discriminate; cbn [run_op gate_on]; unfold ignore.
  - destruct on; [by auto|discriminate].
  - intros H%round_started_going. naive_solver.
  - intros H. cbn [permits]. destruct (goLiveAllowed E force) eqn:Ha; [by auto|]. left. revert H.
    unfold ForceStartMatch, mbind, M_bind. cbn. rewrite Ha. by destruct (ctx w).
  - intros H. cbn [permits]. destruct (is_mode (mode (st w)) MatchWarmup) eqn:Hm; [by auto|]. left. revert H.
    unfold ScrimGoLive, mbind, M_bind. cbn. rewrite Hm. by destruct (ctx w).
  - intros H. cbn [permits]. destruct (is_mode (mode (st w)) MatchWarmup && knifeFeature E) eqn:Hm; [by auto|]. left. revert H.
    unfold StartKnifeRound, StartKnife, mbind, M_bind. cbn. destruct (ctx w); [|done]. destruct (is_mode _ _); cbn in *; [by rewrite Hm|done].
  - intros H. left. destruct (is_mode (mode (st w)) MatchKnife) eqn:Hm; [unfold going, is_going, is_playing; by rewrite Hm, orb_true_r|]. revert H.
    unfold KnifeApplySideChoice, mbind, M_bind. cbn. rewrite Hm. by destruct (ctx w).
  - intros H%(Tick_part E w). naive_solver.
  - unfold change. cbn [snd permits]. destruct (ModesRestoreJson j (st w)) as [s|] eqn:Er; [|by auto]. intros H%(restore_started _ _ _ Er). naive_solver.
Qed.
Lemma op_playing op w : playing (run_op E op w).2 = true ->
  playing w = true \/ permits E w op = true \/ (op = OpRoundStarted /\ mode (st w) = MatchWarmup /\ startTriggered (st w) = true).
Proof.
  destruct (starts op) eqn:Hs; [|intros H; left; revert H; by apply op_stays].
  destruct op; try discriminate; cbn [run_op]; unfold ignore.
  - destruct on; [|discriminate]. intros H. left. exact H.
  - intros H%round_started_playing. naive_solver.
  - intros H. cbn [permits]. destruct (goLiveAllowed E force) eqn:Ha; [by auto|]. left. revert H.
    unfold ForceStartMatch, mbind, M_bind. cbn. rewrite Ha. by destruct (ctx w).
  - intros H. cbn [permits]. destruct (is_mode (mode (st w)) MatchWarmup) eqn:Hm; [by auto|]. left. revert H.
    unfold ScrimGoLive, mbind, M_bind. cbn. rewrite Hm. by destruct (ctx w).
  - intros H. cbn [permits]. destruct (is_mode (mode (st w)) MatchWarmup && knifeFeature E) eqn:Hm; [by auto|]. left. revert H.
    unfold StartKnifeRound, StartKnife, mbind, M_bind. cbn. destruct (ctx w); [|done]. destruct (is_mode _ _); cbn in *; [by rewrite Hm|done].
  - intros H. left. destruct (is_mode (mode (st w)) MatchKnife) eqn:Hm; [unfold playing, is_playing; by rewrite Hm, orb_true_r|]. revert H.
    unfold KnifeApplySideChoice, mbind, M_bind. cbn. rewrite Hm. by destruct (ctx w).
  - intros H. destruct (Tick_part E w) as (_ & _ & Hp & _). destruct (Hp H); auto.
  - unfold change. cbn [snd permits]. destruct (ModesRestoreJson j (st w)) as [s|] eqn:Er; [|by auto]. intros H%(restore_started _ _ _ Er). naive_solver.
Qed.

(** ** Operations after which nothing is going *)

(** The operation sends a map result. *)
Definition sends_result (w : World) (op : Op) : bool := negb (forallb quiet (drop (length (out w)) (out (run_op E op w).2))).
(** The map or the match ends, a match is loaded or restarted, or the server turns to something else. *)
Definition revokes (w : World) (op : Op) : bool :=
  let m := mode (st w) in
  match op with
  | OpIdle | OpPractice | OpMatchLoaded | OpEndMatch | OpFinishSeries | OpRecoveryWarmup => true
  | OpRestart => match ctx w with Some _ => true | None => false end
  | OpExternal _ => is_mode m Idle || is_mode m ScrimWarmup || is_mode m External
  | OpScrimWarmup => is_mode m Idle
  | OpNextMap => is_mode m Postgame
  | OpRoundEnded _ _ _ _ | OpGameOver _ _ | OpForfeit _ _ => sends_result w op
  | _ => false
  end.

Definition Over (w : World) : Prop := going w = false.
Lemma over_stays w w' : Over w -> Stays w w' -> Over w'.
Proof. unfold Over. intros Hw [H _]. destruct (going w'); [|done]. by rewrite <- Hw, H. Qed.
Lemma over_upd f : (forall s, is_going (f s) = false) -> leaves Over (upd f).
Proof. intros H. apply leaves_change. intros w. apply H. Qed.
Ltac over := repeat first [ apply over_upd; intros ?s; reflexivity
  | apply (leaves_now Over _ _ Stays over_stays); [apply over_upd; intros ?s; reflexivity|intros ?; stays]
  | apply leaves_later; intros ? ].

Lemma FinishMap_over c n name s1 s2 winner forfeit : leaves Over (FinishMap E c n name s1 s2 winner forfeit).
Proof. unfold FinishMap. do 4 (apply leaves_later; intros ?). cbv zeta. destruct (series_plan _ _ _ _ _). over. Qed.
Lemma quiet_silent w op : (run_op E op w).2 = w -> sends_result w op = false.
Proof. unfold sends_result. intros ->. by rewrite drop_all. Qed.

Lemma map_end_over op w : (match op with OpRoundEnded _ _ _ _ | OpGameOver _ _ | OpForfeit _ _ => true | _ => false end) = true -> sends_result w op = true -> Over (run_op E op w).2.
Proof.
  intros Hop Hs. assert ((run_op E op w).2 = w \/ Over (run_op E op w).2) as [H|]; [|by rewrite (quiet_silent w op H) in Hs|done]. clear Hs.
  destruct op; try discriminate; cbn [run_op]; rewrite ?ignore_run.
  - unfold OnMatchRoundEnded. rewrite !bind_gets. destruct (ctx w) as [c|]; [|by left]. cbv zeta. destruct (_ =? _); [by left|].
    destruct (verdict_text _); [|by left]. right. apply FinishMap_over.
  - unfold engine_game_over. rewrite !bind_gets. destruct (ctx w) as [c|]; [|by left]. destruct (negb _); [by left|]. cbv zeta. destruct (_ =? _); [by left|].
    right. apply FinishMap_over.
  - unfold ForfeitCurrentMap. rewrite !bind_gets. destruct (ctx w) as [c|]; [|by left]. do 2 (case_match; [by left|]). cbv zeta. destruct (_ =? _); [by left|]. right.
    match goal with |- Over (?m w).2 => assert (leaves Over m) as Hm; [|apply Hm] end.
    do 3 (apply leaves_later; intros ?). apply (leaves_now Over _ _ Stays over_stays); [apply FinishMap_over|intros ?; stays].
Qed.

Lemma revokes_over op w : revokes w op = true -> Over (run_op E op w).2.
Proof.
  destruct op; cbn [revokes]; try discriminate; intros H; try (by apply map_end_over); cbn [run_op]; rewrite ?ignore_run.
  1-3: unfold SetModeIdle, SetModePractice, SetModeExternal.
  3: unfold SetModeExternal; rewrite bind_gets, H; cbn [negb].
  4: unfold SetModeScrimWarmup; rewrite bind_gets, H; cbn [negb].
  5: unfold SetModeMatchWarmupForRecovery.
  7: unfold RestartMatch; rewrite bind_gets; destruct (ctx w); [|done].
  10: unfold ModesBeginNextMapWarmup; rewrite bind_gets, H; reflexivity.
  all: match goal with |- Over (?m ?v).2 => assert (leaves Over m) as Hm; [clear H|apply Hm] end.
  all: unfold OnMatchLoaded, EndMatchResetServer, ModesFinishSeriesResetToIdle, ResetToIdleAfterSeries.
  all: over.
Qed.
End Ops.

(** ** Every history *)

Abbreviation History := (list (Env * Op)).
(** [P] held of an operation of the history, and the map has been going ever since. *)
Definition since (P : History -> Env -> Op -> Prop) (hist : History) : Prop :=
  exists before E op after, hist = before ++ (E, op) :: after /\ P before E op /\
    forall k, (k <= length after)%nat -> going (run (before ++ (E, op) :: take k after) BootWorld) = true.
Definition permitted (before : History) (E : Env) (op : Op) : Prop := permits E (run before BootWorld) op = true.
Definition gated (before : History) (E : Env) (op : Op) : Prop := op = OpRecoveryGate true.
(** A round starts in the match warmup while all that has started the map is the gate of crash recovery. *)
Definition slipped (before : History) (E : Env) (op : Op) : Prop :=
  op = OpRoundStarted /\ mode (st (run before BootWorld)) = MatchWarmup /\ since gated before.

Lemma run_app h x w : run (h ++ [x]) w = step (run h w) x.
Proof. unfold run. by rewrite foldl_app. Qed.
Lemma since_longer P hist x : since P hist -> going (run (hist ++ [x]) BootWorld) = true -> since P (hist ++ [x]).
Proof.
  intros (before & E & op & after & -> & HP & Hk) Hg. exists before, E, op, (after ++ [x]). split; [by rewrite <- app_assoc|]. split; [done|].
  intros k Hk'. rewrite length_app in Hk'. cbn in Hk'. destruct (decide (k <= length after)%nat) as [Hle|Hle]; [rewrite take_app_le by done; by apply Hk|].
  rewrite take_ge by (rewrite length_app; cbn; lia). by rewrite <- app_assoc in Hg.
Qed.
Lemma since_now P hist E op : P hist E op -> going (run (hist ++ [(E, op)]) BootWorld) = true -> since P (hist ++ [(E, op)]).
Proof. intros HP Hg. exists hist, E, op, []. split; [done|]. split; [done|]. intros k _. by rewrite take_nil. Qed.

Lemma going_since hist : going (run hist BootWorld) = true ->
  (playing (run hist BootWorld) = true -> since permitted hist \/ since slipped hist) /\ (since permitted hist \/ since slipped hist \/ since gated hist).
Proof.
  induction hist as [|[E op] hist IH] using rev_ind; [done|]. intros Hg. pose proof Hg as Hg'. rewrite run_app in Hg'. split.
  - intros Hp. rewrite run_app in Hp. destruct (op_playing E op (run hist BootWorld) Hp) as [H|[H|(-> & Hm & Ht)]].
    + destruct (IH (playing_going _ H)) as [IH1 _]. destruct (IH1 H); [left|right]; by apply since_longer.
    + left. by apply since_now.
    + assert (going (run hist BootWorld) = true) as Hw by (unfold going, is_going; by rewrite Ht, orb_true_r).
      destruct (IH Hw) as [_ [H|[H|H]]]; [left; by apply since_longer|right; by apply since_longer|right; by apply since_now].
  - destruct (op_going E op (run hist BootWorld) Hg') as [H|[H|H]].
    + destruct (IH H) as [_ [?|[?|?]]]; [left|right; left|right; right]; by apply since_longer.
    + left. by apply since_now.
    + right. right. apply since_now; [|done]. destruct op; cbn in H; try done. by subst.
Qed.

(** Claim C5.  In every reachable state, if a map is live or its knife round is on, then an earlier operation permitted its start
    ([permits]: a tick with everyone ready and the ruleset content, or everyone back behind the gate of crash recovery; an admin's start or knife round; the scrim flow;
    a round start while the warmup is switched off; a reload whose document says so), and the map has been going, as a start that was sent, a knife round or a
    live map, without a break since.  There is one exception, [slipped]: behind the gate of crash recovery a round start makes the map live with nobody ready, which the
    code means to prevent.  And an operation that ends the map (a map result is sent) or the match, loads or restarts a match, begins the next map, or turns the server to idle,
    practice, an external mode or a warmup ([revokes]) leaves nothing going, so that what comes then needs a new permission. *)
Theorem go_live_permitted (hist : History) (E : Env) (op : Op) :
  let w := run hist BootWorld in
  (playing w = true -> since permitted hist \/ since slipped hist) /\
  (revokes E w op = true -> going (step w (E, op)) = false).
Proof. intros w. split; [|apply revokes_over]. intros Hp. by apply going_since, Hp; apply playing_going. Qed.

Lemma go_live_permitted_witness :
  (playing (run sample_history BootWorld) = true /\ (since permitted sample_history \/ since slipped sample_history)) /\
  revokes (sample_env 9) (run sample_history BootWorld) (OpRoundEnded 1 13 5 "de_nuke") = true /\
  going (step (run sample_history BootWorld) (sample_env 9, OpRoundEnded 1 13 5 "de_nuke")) = false.
Proof.
  split; [|split; [vm_compute; reflexivity|apply (go_live_permitted sample_history); vm_compute; reflexivity]].
  split; [vm_compute; reflexivity|]. apply (go_live_permitted sample_history (sample_env 9) OpTick). vm_compute. reflexivity.
Defined.

(** [SetRecoveryGate] sets [startTriggered] so that the match does not go live by itself, and that is what lets the
    next round start make it live: with nobody ready, and with the gate still on. *)
Definition recovered_history : list (Env * Op) :=
  (fun x : Z * Op => (sample_env (x.1 * 1000000000), x.2)) <$>
  [(1, OpContext (Some sample_ctx)); (1, OpRecoveryWarmup); (1, OpRecoveryGate true); (3, OpTick); (5, OpRoundStarted)].
Example recovery_gate_skipped :
  let w := run recovered_history BootWorld in
  mode (st w) = MatchLive /\ recoveryGate (st w) = true /\ ready (st w) = ∅ /\ all_ready (sample_env 5000000000) (run (take 4 recovered_history) BootWorld) = false.
Proof. vm_compute. auto. Qed.

End GoLive.
