(* ===== verification/ModesSeries.v ===== *)
(** * The match modes: the series score

    At any time the series score is the tally of the map results that were sent since an operation last set it, from
    the score that operation set: each map is decided once, and every result carries the score it leads to. *)

From S2P Require Import Prelude CStr Double Json MatchRules MatchEnd MatchConfig MapNames Modes ModesLive ModesEnd ModesTick ModesJson ModesRun.

Module SeriesFacts.
Import Mo Live MapEnd Ticks ModeJson Run.

(** The map results among effects: the map, the winner, the series score. *)
Definition result_of (e : Eff) : option (Z * string * Z * Z) :=
  match e with MapResultOf n _ _ _ winner w1 w2 => Some (n, winner, w1, w2) | _ => None end.
Definition results (l : list Eff) : list (Z * string * Z * Z) := omap result_of l.

Definition won (winner team : string) : Z := if winner =s team then 1 else 0.
(** From the last map decided [n0] and the score [a]-[b], the results lead to [n1] and [a']-[b']. *)
Fixpoint tally (n0 a b : Z) (l : list (Z * string * Z * Z)) (n1 a' b' : Z) : Prop :=
  match l with
  | [] => n1 = n0 /\ a' = a /\ b' = b
  | (n, winner, w1, w2) :: l =>
      n <> n0 /\ 0 < n /\ winner ∈ ["team1"; "team2"; "none"] /\ w1 = a + won winner "team1" /\ w2 = b + won winner "team2" /\ tally n w1 w2 l n1 a' b'
  end.

Lemma results_tally_app n0 a b l n1 a1 b1 l' n2 a2 b2 : tally n0 a b l n1 a1 b1 -> tally n1 a1 b1 l' n2 a2 b2 -> tally n0 a b (l ++ l') n2 a2 b2.
Proof.
  revert n0 a b. induction l as [|[[[n winner] w1] w2] l IH]; intros n0 a b; cbn.
  - by intros (-> & -> & ->).
  - intros (? & ? & ? & ? & ? & H) H'. split_and!; [done..|]. by apply IH.
Qed.

Definition score (w : World) : Z * Z * Z := let r := series (st w) in (mapResultEmittedForMapNumber r, seriesWinsTeam1 r, seriesWinsTeam2 r).
(** What happens between two worlds is what the results of the new effects say. *)
Definition Counted (w w' : World) : Prop :=
  exists l, out w' = out w ++ l /\
    let '(n0, a, b) := score w in let '(n1, a', b') := score w' in tally n0 a b (results l) n1 a' b'.
#[export] Instance Counted_pre : PreOrder Counted.
Proof.
  split.
  - intros w. exists []. rewrite app_nil_r. by destruct (score w) as [[? ?] ?].
  - intros w w' w'' (l & Hl & H) (l' & Hl' & H'). exists (l ++ l'). rewrite Hl', Hl, <- app_assoc. split; [done|].
    destruct (score w) as [[n0 a] b], (score w') as [[n1 a1] b1], (score w'') as [[n2 a2] b2]. unfold results in *. rewrite omap_app. by eapply results_tally_app.
Qed.

(** ** Operations without a result *)

Lemma quiet_results l : forallb quiet l = true -> results l = [].
Proof. unfold results. induction l as [|e l IH]; [done|]. intros [He Hl]%andb_prop. cbn. rewrite IH by done. by destruct e. Qed.
Lemma quiet_counted {A} (m : M A) : keeps Quiet m -> keeps Counted m.
Proof. intros H w. destruct (H w) as (l & -> & Hl). exists l. rewrite (quiet_results _ Hl). cbn. by split. Qed.
Lemma counted_change f : (forall w, score (f w) = score w /\ out (f w) = out w) -> keeps Counted (change f).
Proof. intros H w. destruct (H w) as [Hs Ho]. exists []. cbn -[score]. rewrite Hs, Ho, app_nil_r. split; [done|]. by destruct (score w) as [[? ?] ?]. Qed.

Create HintDb counted discriminated.
Ltac counted :=
  repeat first [ solve [auto with counted] | solve [apply quiet_counted; auto with speak]
               | apply counted_change; intros ?w; first [split; reflexivity | split; cbn; repeat case_match; reflexivity] | keeps_step ].

Section Ops.
Context (E : Env).
Lemma ResetKnife_counted n : keeps Counted (ResetKnife E n).
Proof. unfold ResetKnife, upd. counted. Qed.
Lemma upd_knife_counted f : keeps Counted (upd_knife f).
Proof. unfold upd_knife, upd. counted. Qed.
Lemma StartDemo_counted n name : keeps Counted (StartDemoForMap E n name).
Proof. unfold StartDemoForMap, upd. counted. Qed.
Lemma lifecycle_counted n : keeps Counted (lifecycle_events n).
Proof. unfold lifecycle_events, upd. counted. Qed.
Hint Resolve ResetKnife_counted upd_knife_counted StartDemo_counted lifecycle_counted : counted.
Lemma StartKnife_counted : keeps Counted (StartKnife E).
Proof. unfold StartKnife, ApplyKnifeRules, upd. counted. Qed.
Lemma live_rules_counted c : keeps Counted (ApplyLiveRulesAndRestart E c).
Proof. unfold ApplyLiveRulesAndRestart, upd. counted. Qed.
Lemma side_choice_counted c n choice picker name : keeps Counted (ApplyKnifeSideChoice E c n choice picker name).
Proof. unfold ApplyKnifeSideChoice, upd. counted. Qed.
Lemma check_counted c : keeps Counted (AllRosterReadyAndConnected E c).
Proof. unfold AllRosterReadyAndConnected, GoLiveCheck, upd. counted. Qed.
Hint Resolve StartKnife_counted live_rules_counted side_choice_counted check_counted : counted.
Lemma warmup_counted : keeps Counted (ApplyWarmupRules E).
Proof. unfold ApplyWarmupRules, rules_applied_if, upd. counted. Qed.
Lemma scrim_counted : keeps Counted (ApplyScrimWarmupRules E).
Proof. unfold ApplyScrimWarmupRules, rules_applied_if, upd. counted. Qed.
Hint Resolve warmup_counted scrim_counted : counted.

(** ** The tick *)

Lemma new_map_counted : keeps Counted (new_map E).
Proof. unfold new_map, upd. counted. Qed.
Lemma small_ticks_counted : keeps Counted (idle_tick E) /\ keeps Counted (scrim_tick E) /\ keeps Counted (practice_tick E).
Proof. split_and!; [unfold idle_tick, upd|unfold scrim_tick, upd|unfold practice_tick, ApplyPracticeRules, ResetPracticeRules, upd]; counted. Qed.
Lemma force_all_counted live c l : keeps Counted (force_all E live c l).
Proof. induction l as [|h l IH]; cbn [force_all]; [apply keeps_ret, _|]. apply keeps_bind; [apply _| |done]. unfold force_one, upd. counted. Qed.
Lemma kick_all_counted c seen l : keeps Counted (kick_all E c seen l).
Proof.
  revert seen. induction l as [|p l IH]; intros seen; cbn [kick_all]; [apply keeps_ret, _|]. case_match; [done|].
  apply keeps_bind; [apply _| |done]. unfold kick_one, upd. counted.
Qed.
Hint Resolve force_all_counted kick_all_counted new_map_counted : counted.
Lemma knife_ticks_counted : keeps Counted (MaybeEnterKnifeMode E) /\ keeps Counted (MaybeAutoPickKnifeSide E).
Proof. split; [unfold MaybeEnterKnifeMode, upd|unfold MaybeAutoPickKnifeSide]; counted. Qed.
Lemma force_counted : keeps Counted (MaybeForceRosterTeams E).
Proof. unfold MaybeForceRosterTeams. counted. Qed.
Lemma gate_counted : keeps Counted (MaybeGateMatch E).
Proof. unfold MaybeGateMatch, upd. counted. Qed.
Lemma ui_counted : keeps Counted (MaybeShowWarmupUi E) /\ keeps Counted (EnforceWhitelist E).
Proof. split; [unfold MaybeShowWarmupUi, upd|unfold EnforceWhitelist]; counted. Qed.
Lemma Tick_counted : keeps Counted (Tick E).
Proof.
  destruct small_ticks_counted as (? & ? & ?), knife_ticks_counted, ui_counted. pose proof force_counted. pose proof gate_counted.
  unfold Tick. destruct (disabled E); counted.
Qed.

(** ** The end of a map *)

Lemma FinishMap_counted c n name s1 s2 winner forfeit w : 0 < n -> n <> mapResultEmittedForMapNumber (series (st w)) ->
  winner ∈ ["team1"; "team2"; "none"] -> Counted w (FinishMap E c n name s1 s2 winner forfeit w).2.
Proof.
  intros Hn Hne Hw. unfold FinishMap. rewrite bind_upd, bind_gets, bind_emit, bind_upd. cbv zeta.
  destruct (series_plan c n _ _ forfeit) as [over next].
  match goal with |- Counted _ (?m ?w').2 => assert (Counted w w') as H; [|etrans; [exact H|]] end.
  - eexists [_]. split; [reflexivity|]. cbn. split_and!; [done..| | |done| |].
    all: unfold won_series, won; repeat case_match; cbn; try done; try lia.
    all: repeat match goal with H : (_ =s _) = true |- _ => apply String.eqb_eq in H end; congruence.
  - match goal with |- Counted _ (?m ?w').2 => enough (keeps Counted m) as K by apply K end.
    unfold upd. counted.
Qed.

Lemma map_or_1_pos n : 0 < map_or_1 n.
Proof. unfold map_or_1. case_match; lia. Qed.

Lemma counted_refl w : Counted w w.
Proof. reflexivity. Qed.
Hint Resolve counted_refl map_or_1_pos : core.

Lemma round_ended_counted n s1 s2 name : keeps Counted (OnMatchRoundEnded E n s1 s2 name).
Proof.
  intros w. unfold OnMatchRoundEnded. rewrite !bind_gets. destruct (ctx w) as [c|]; [|done]. cbv zeta.
  destruct (Z.eqb_spec (mapResultEmittedForMapNumber (series (st w))) (map_or_1 n)) as [|Hne]; [done|].
  destruct (DetermineMapWinnerIfComplete E c s1 s2) as [|[]|]; cbn [verdict_text]; [done|..]; apply FinishMap_counted; auto; set_solver.
Qed.

Lemma game_over_counted ct t : keeps Counted (engine_game_over E ct t).
Proof.
  intros w. unfold engine_game_over. rewrite !bind_gets. destruct (ctx w) as [c|]; [|done]. case_match; [done|]. cbv zeta. unfold mapNumberNow.
  destruct (Z.eqb_spec (mapResultEmittedForMapNumber (series (st w))) (map_or_1 (map_number (ms E)))) as [|Hne]; [done|].
  apply FinishMap_counted; auto. repeat case_match; set_solver.
Qed.

Lemma forfeit_counted loser reason : keeps Counted (ForfeitCurrentMap E loser reason).
Proof.
  intros w. unfold ForfeitCurrentMap. rewrite !bind_gets. destruct (ctx w) as [c|]; [|done]. do 2 (case_match; [done|]). cbv zeta. unfold mapNumberNow.
  destruct (Z.eqb_spec (mapResultEmittedForMapNumber (series (st w))) (map_or_1 (map_number (ms E)))) as [|Hne]; [done|].
  match goal with |- Counted _ ((?m ≫= ?k) w).2 => change (wp (m ≫= k) (fun _ w' => Counted w w') w) end.
  do 3 (apply wp_bind, wp_quiet; [auto with speak; speak|intros ? ? ?]). apply wp_bind. unfold wp at 1. apply wp_ret.
  match goal with |- Counted _ (FinishMap _ _ _ _ _ _ _ _ ?w').2 => assert (Counted w w') as Hq; [|etrans; [exact Hq|]] end.
  { eexists. split; [cbn; rewrite <- !app_assoc; reflexivity|]. rewrite quiet_results; [by cbn|]. rewrite !forallb_app. by rewrite H1, H2, H3. }
  apply FinishMap_counted; auto. case_match; set_solver.
Qed.
End Ops.
#[export] Hint Resolve ResetKnife_counted upd_knife_counted StartDemo_counted lifecycle_counted StartKnife_counted live_rules_counted side_choice_counted : counted.

(** ** Every operation *)

Lemma chat_quiet (l : list Msg) : forallb quiet ((fun x => ChatAll (msg_key x) (msg_args x)) <$> l) = true.
Proof. induction l as [|x l IH]; [reflexivity|exact IH]. Qed.
Lemma go_live_lines_quiet E c : forallb quiet (go_live_lines E c) = true.
Proof. unfold go_live_lines. cbv zeta. apply chat_quiet. Qed.
#[export] Hint Resolve go_live_lines_quiet : speak.

(** The score an operation sets, as (the map decided last, the maps of team 1, of team 2): 0-0 with no map decided when a match is loaded
    or restarted, when it ends, and when the server turns to something else; the maps won that crash recovery found; what a reload brings back. *)
Definition sets_score (w : World) (op : Op) : option (Z * Z * Z) :=
  let m := mode (st w) in
  match op with
  | OpIdle | OpPractice | OpMatchLoaded | OpEndMatch | OpFinishSeries => Some (0, 0, 0)
  | OpExternal _ => if is_mode m Idle || is_mode m ScrimWarmup || is_mode m External then Some (0, 0, 0) else None
  | OpRestart => match ctx w with Some _ => Some (0, 0, 0) | None => None end
  | OpSeriesWins a b => Some (mapResultEmittedForMapNumber (series (st w)), Z.max 0 a, Z.max 0 b)
  | OpRestore j =>
      match ModesRestoreJson j (st w) with
      | Some _ => (fun r => (mapResultEmittedForMapNumber r, seriesWinsTeam1 r, seriesWinsTeam2 r)) <$> restore_series (Some j) (series (st w))
      | None => None
      end
  | _ => None
  end.
Definition resets (op : Op) : bool :=
  match op with
  | OpIdle | OpPractice | OpExternal _ | OpMatchLoaded | OpRestart | OpEndMatch | OpFinishSeries | OpSeriesWins _ _ | OpRestore _ => true
  | _ => false
  end.

Lemma op_counted E op : resets op = false -> keeps Counted (run_op E op).
Proof.
  pose proof (Tick_counted E). destruct op; cbn [resets run_op]; intros Hr; try discriminate; unfold ignore; auto.
  all: try (apply keeps_bind; [apply _|first [apply forfeit_counted|idtac]|intros; apply keeps_ret, _]).
  all: try first [apply round_ended_counted | apply game_over_counted].
  all: unfold ModesOnMapStart, SetModeScrimWarmup, SetModeMatchWarmupForRecovery, ModesBeginNextMapWarmup, SetRecoveryGate, ToggleReady, SetReady,
    ClearReady, ClearReadyStates, SetWarmupEnabled, SetWarmupHtmlMessage, SetCfgExecEnabled, SetWarmupRespawnEnabled, SetWarmupIgnoreWinConditions,
    SetWarmupRoundTimeMinutes, SetWarmupStartMoney, SetWarmupMaxMoney, SetWarmupBuyAnywhereEnabled, SetWarmupInfiniteAmmoEnabled, upd_warmup, rewarm,
    OnMatchRoundStarted, ForceStartMatch, ScrimGoLive, StartKnifeRound, KnifeOnRoundStart, KnifeOnRoundEnd, KnifeApplySideChoice,
    OnNativeWarmupStarted, rules_later, upd; counted.
Qed.

(** ** Operations that set the score *)

Definition SameScore (w w' : World) : Prop := score w' = score w.
#[export] Instance SameScore_pre : PreOrder SameScore.
Proof. split; unfold SameScore; [by intros w|intros w w' w''; congruence]. Qed.
Lemma same_score_change f : (forall w, score (f w) = score w) -> keeps SameScore (change f).
Proof. intros H. apply keeps_change. intros w. apply H. Qed.
Lemma quiet_score {A} (m : M A) : keeps Quiet m -> keeps SameScore m.
Proof. intros H w. by destruct (H w) as (l & -> & _). Qed.
Lemma ResetKnife_score E n : keeps SameScore (ResetKnife E n).
Proof.
  unfold ResetKnife, upd. repeat first [ solve [apply quiet_score; auto with speak] | apply same_score_change; intros ?w; reflexivity | keeps_step ].
Qed.
Ltac same_score :=
  repeat first [ match goal with |- keeps _ (ResetKnife _ _) => apply ResetKnife_score end | solve [apply quiet_score; auto with speak] | apply same_score_change; intros ?w; cbn; repeat case_match; reflexivity | keeps_step ].

Definition Zero (w : World) : Prop := score w = (0, 0, 0).
Lemma zero_same w w' : Zero w -> SameScore w w' -> Zero w'.
Proof. unfold Zero, SameScore. congruence. Qed.
Ltac zero := repeat first [ apply leaves_change; intros ?w; reflexivity
  | apply (leaves_now Zero _ _ SameScore zero_same); [apply leaves_change; intros ?w; reflexivity|intros ?; same_score]
  | apply leaves_later; intros ? ].

(** No map result is sent. *)
Definition Silent (w w' : World) : Prop := exists l, out w' = out w ++ l /\ results l = [].
#[export] Instance Silent_pre : PreOrder Silent.
Proof.
  split.
  - intros w. exists []. by rewrite app_nil_r.
  - intros w w' w'' (l & Hl & H) (l' & Hl' & H'). exists (l ++ l'). rewrite Hl', Hl, <- app_assoc. split; [done|].
    unfold results in *. by rewrite omap_app, H, H'.
Qed.
Lemma quiet_silence {A} (m : M A) : keeps Quiet m -> keeps Silent m.
Proof. intros H w. destruct (H w) as (l & -> & Hl). exists l. by rewrite (quiet_results _ Hl). Qed.
Lemma silent_same w w' : out w' = out w -> Silent w w'.
Proof. intros H. exists []. by rewrite H, app_nil_r. Qed.
Lemma silent_change f : (forall w, out (f w) = out w) -> keeps Silent (change f).
Proof. intros H w. apply silent_same, H. Qed.
Ltac silent :=
  repeat first [ solve [apply quiet_silence; auto with speak] | apply silent_change; intros ?w; cbn; repeat case_match; reflexivity | keeps_step ].

Lemma ResetKnife_silent E n : keeps Silent (ResetKnife E n).
Proof. unfold ResetKnife, upd. silent. Qed.
Lemma StopDemo_silent : keeps Silent StopDemo.
Proof. unfold StopDemo, upd. silent. Qed.
Ltac silent_op :=
  repeat first [ match goal with |- keeps _ (ResetKnife _ _) => apply ResetKnife_silent end | match goal with |- keeps _ StopDemo => apply StopDemo_silent end
               | solve [apply quiet_silence; auto with speak] | apply silent_change; intros ?w; reflexivity | keeps_step ].
Lemma zero_silent {A} (m : M A) w : leaves Zero m -> keeps Silent m -> Zero (m w).2 /\ Silent w (m w).2.
Proof. auto. Qed.

Lemma restored_score j s s' : ModesRestoreJson j s = Some s' -> restore_series (Some j) (series s) = Some (series s').
Proof.
  unfold ModesRestoreJson. cbv zeta. intros H.
  repeat match type of H with (_ ≫= _) = Some _ => apply bind_Some in H as (? & ? & H) end. by injection H as <-.
Qed.

Lemma op_sets E op w s : sets_score w op = Some s -> score (run_op E op w).2 = s /\ Silent w (run_op E op w).2.
Proof.
  destruct op; cbn [sets_score run_op]; try discriminate; rewrite ?ignore_run.
  8: intros [= <-]; by split; [|apply silent_same].
  8: { unfold change. cbn [snd]. destruct (ModesRestoreJson j (st w)) as [s'|] eqn:Er; [|done]. rewrite (restored_score _ _ _ Er). intros [= <-].
       by split; [|apply silent_same]. }
  3: unfold SetModeExternal; rewrite bind_gets; destruct (is_mode _ _ || _ || _); [cbn [negb]|done].
  5: unfold RestartMatch; rewrite bind_gets; destruct (ctx w); [|done].
  all: intros [= <-]; apply zero_silent.
  all: unfold SetModeIdle, SetModePractice, OnMatchLoaded, EndMatchResetServer, ModesFinishSeriesResetToIdle, ResetToIdleAfterSeries, upd.
  all: match goal with |- leaves _ _ => zero | _ => silent_op end.
Qed.
Lemma not_sets E op w : sets_score w op = None -> Counted w (run_op E op w).2.
Proof.
  destruct (resets op) eqn:Hr; [|by intros _; apply op_counted]. destruct op; try discriminate; cbn [sets_score run_op]; rewrite ?ignore_run.
  - unfold SetModeExternal. rewrite bind_gets. by destruct (is_mode _ _ || _ || _).
  - unfold RestartMatch. rewrite bind_gets. by destruct (ctx w).
  - unfold change. cbn [snd]. destruct (ModesRestoreJson j (st w)) as [s'|] eqn:Er; [|done]. by rewrite (restored_score _ _ _ Er).
Qed.

(** ** The tally of a history *)

Abbreviation Result := (Z * string * Z * Z)%type.
(** The map results an operation sends. *)
Definition sent_by (w w' : World) : list Result := results (drop (length (out w)) (out w')).
(** The score that was set last, at the start 0-0, and the results sent since. *)
Fixpoint ledger (w : World) (set_ : Z * Z * Z) (sent : list Result) (hist : list (Env * Op)) : (Z * Z * Z) * list Result :=
  match hist with
  | [] => (set_, sent)
  | (E, op) :: hist =>
      let w' := step w (E, op) in
      match sets_score w op with
      | Some s => ledger w' s [] hist
      | None => ledger w' set_ (sent ++ sent_by w w') hist
      end
  end.

Lemma sent_out w w' l : out w' = out w ++ l -> sent_by w w' = results l.
Proof. unfold sent_by. intros ->. by rewrite drop_app_length. Qed.

Lemma ledger_tally hist : forall w n0 a0 b0 sent l0, results (out w) = l0 ++ sent ->
  (let '(n, a, b) := score w in tally n0 a0 b0 sent n a b) ->
  let '((n1, a1, b1), l) := ledger w (n0, a0, b0) sent hist in
  (let '(n, a, b) := score (run hist w) in tally n1 a1 b1 l n a b) /\ exists l1, results (out (run hist w)) = l1 ++ l.
Proof.
  induction hist as [|[E op] hist IH]; intros w n0 a0 b0 sent l0 Hl Ht; cbn [ledger].
  - split; [exact Ht|]. exists l0. exact Hl.
  - cbv zeta. change (run ((E, op) :: hist) w) with (run hist (step w (E, op))). destruct (sets_score w op) as [[[n a] b]|] eqn:Es.
    + destruct (op_sets E op w _ Es) as [Hs (l & Ho & Hq)]. apply (IH _ n a b [] (results (out w))).
      * change (out (step w (E, op))) with (out (run_op E op w).2). rewrite Ho. unfold results in *. by rewrite omap_app, Hq.
      * change (score (step w (E, op))) with (score (run_op E op w).2). by rewrite Hs.
    + destruct (not_sets E op w Es) as (l & Ho & Hc). change ((run_op E op w).2) with (step w (E, op)) in *. rewrite (sent_out _ _ _ Ho).
      apply (IH _ n0 a0 b0 (sent ++ results l) l0); [rewrite Ho; unfold results in *; rewrite omap_app, Hl; by rewrite app_assoc|].
      destruct (score w) as [[n1 a1] b1], (score (step w (E, op))) as [[n2 a2] b2]. by eapply results_tally_app.
Qed.

(** Claim C6.  Whatever the server does, the series score is at any time the tally of the map results sent since an operation last set it ([sets_score]: 0-0 with no map decided at
    the start, when a match is loaded, restarted or ended and when the server turns to idle, practice or an external mode; the maps won that crash recovery hands in; what a reload brings back), from the
    score that operation set: each result adds one to its winner (a drawn map to nobody) and carries the score it leads to, no map is decided twice in a row, and
    the results tallied are the last ones sent. *)
Theorem series_tally (hist : list (Env * Op)) :
  let w := run hist BootWorld in
  let '((n0, a0, b0), l) := ledger BootWorld (0, 0, 0) [] hist in
  tally n0 a0 b0 l (mapResultEmittedForMapNumber (series (st w))) (seriesWinsTeam1 (series (st w))) (seriesWinsTeam2 (series (st w))) /\
  exists before, results (out w) = before ++ l.
Proof. intros w. apply (ledger_tally hist BootWorld 0 0 0 [] []); [reflexivity|]. by cbn. Qed.

(** Two maps, the first one reported twice. *)
Definition sample_series : list (Env * Op) :=
  drop 2 sample_history ++
  ((fun x : Z * Op => (sample_env (x.1 * 1000000000), x.2)) <$>
   [(50, OpRoundEnded 1 13 5 "de_nuke"); (51, OpRoundEnded 1 13 5 "de_nuke"); (60, OpNextMap); (90, OpRoundEnded 2 4 13 "de_mirage")]).
Definition loaded_series : list (Env * Op) := [(sample_env 1, OpContext (Some sample_ctx)); (sample_env 1, OpMatchLoaded)] ++ sample_series.
Example series_counted :
  ledger BootWorld (0, 0, 0) [] loaded_series = ((0, 0, 0), [(1, "team1", 1, 0); (2, "team2", 1, 1)]) /\
  score (run loaded_series BootWorld) = (2, 1, 1).
Proof. split; vm_compute; reflexivity. Qed.
(** Restarted after the first map, or with the maps handed in by crash recovery: the tally starts over from there. *)
Example series_set :
  ledger BootWorld (0, 0, 0) [] (loaded_series ++ [(sample_env 2, OpRestart)]) = ((0, 0, 0), []) /\
  ledger BootWorld (0, 0, 0) [] (take 2 loaded_series ++ [(sample_env 2, OpSeriesWins 1 0)] ++ drop 2 loaded_series) = ((0, 1, 0), [(1, "team1", 2, 0); (2, "team2", 2, 1)]) /\
  ledger BootWorld (0, 0, 0) [] (take 2 loaded_series ++ [(sample_env 2, OpExternal "retakes")] ++ drop 2 loaded_series) = ledger BootWorld (0, 0, 0) [] loaded_series.
Proof. split_and!; vm_compute; reflexivity. Qed.

End SeriesFacts.
