(* ===== verification/ModesFacts.v ===== *)
(** * The match modes: who has won a map, match cvars, the team lock

    Theorems about the pure parts of [ModesLive.v], [ModesEnd.v] and [ModesTick.v]. *)

From S2P Require Import Prelude CStr Double Json MatchRules MatchRulesFacts MatchEnd Ruleset RulesetFacts MatchConfig MapNames Modes ModesLive ModesEnd ModesTick ModesJson ModesRun.

Module ModeFacts.
Import Mo Live MapEnd Ticks Run.

(** ** The winner of a map *)

(** The rounds of the period a score belongs to: regulation, then the overtime blocks. *)
Definition period_end (mr seg sum : Z) : Z := if sum <=? mr then mr else mr + 2 * seg * ((sum - mr - 1) / (2 * seg) + 1).

(** Regulation and every overtime the match may have are played. *)
Definition all_played (c : WebhookMatchContext) (sum : Z) : bool :=
  let mr := Z.max 1 (c_maxRounds c) in
  (mr <=? sum) &&
  (negb (c_overtime_enabled c) || ((0 <=? c_maxOvertimes c) && (c_maxOvertimes c * (2 * Z.max 1 (c_overtimeSegments c)) <=? sum - mr))).

(** The rules of a map in one sentence: it is won as soon as the team behind cannot draw level within the period, and when
    nothing is left to play by the score, then by the damage. *)
Definition reference_verdict (E : Env) (c : WebhookMatchContext) (s1 s2 : Z) : Verdict :=
  let mr := Z.max 1 (c_maxRounds c) in
  let left := period_end mr (Z.max 1 (c_overtimeSegments c)) (s1 + s2) - (s1 + s2) in
  if playoutOn E && PlayoutRoundsLeft mr (c_overtime_enabled c) (c_overtimeSegments c) (c_maxOvertimes c) s1 s2 then Playing
  else if all_played c (s1 + s2) then
    if s2 <? s1 then Winner true else if s1 <? s2 then Winner false else damage_verdict E c
  else if s2 + left <? s1 then Winner true
  else if s1 + left <? s2 then Winner false
  else Playing.

Lemma half_bounds a : 0 <= a -> 2 * (a ÷ 2) <= a <= 2 * (a ÷ 2) + 1.
Proof. intros. rewrite Z.quot_div_nonneg by lia. pose proof (Z.div_mod a 2 ltac:(lia)). pose proof (Z.mod_pos_bound a 2 ltac:(lia)). lia. Qed.

Lemma block_bounds past b : 0 < past -> 0 < b -> let q := (past - 1) ÷ b in b * q < past <= b * (q + 1) /\ q = (past - 1) / b.
Proof.
  intros. subst q. rewrite Z.quot_div_nonneg by lia. pose proof (Z.div_mod (past - 1) b ltac:(lia)). pose proof (Z.mod_pos_bound (past - 1) b ltac:(lia)). split; [|done]. rewrite Z.mul_add_distr_l. lia.
Qed.

Ltac split_leb :=
  repeat match goal with
  | |- context [?a <=? ?b] => destruct (Z.leb_spec a b); cbn [andb orb negb]
  | |- context [?a <? ?b] => destruct (Z.ltb_spec a b); cbn [andb orb negb]
  | |- context [?a =? ?b] => destruct (Z.eqb_spec a b); cbn [andb orb negb]
  end.
Ltac solve_verdict := first [done | exfalso; lia | f_equal; lia].

(** Claim C7.  When a map is over and who has won it: the code's case analysis of regulation and overtime - clinches, the tie at the
    end of regulation, the damage tiebreak, rounds that are played out - gives, for every score and every match format,
    what the one rule of [reference_verdict] gives. *)
Theorem map_verdict (E : Env) (c : WebhookMatchContext) (s1 s2 : Z) :
  0 <= s1 -> 0 <= s2 -> DetermineMapWinnerIfComplete E c s1 s2 = reference_verdict E c s1 s2.
Proof.
  intros H1 H2. unfold DetermineMapWinnerIfComplete, reference_verdict, all_played, period_end. cbv zeta. rewrite (Z.max_r 0 s1), (Z.max_r 0 s2) by lia.
  set (mr := Z.max 1 (c_maxRounds c)). set (seg := Z.max 1 (c_overtimeSegments c)).
  assert (1 <= mr) by (unfold mr; lia). assert (1 <= seg) by (unfold seg; lia). clearbody mr seg.
  destruct (playoutOn E && _); [done|]. pose proof (half_bounds mr ltac:(lia)) as Hh. set (h := mr ÷ 2) in *. clearbody h.
  unfold lead. generalize (damage_verdict E c) as dv. intros dv.
  destruct (Z.leb_spec (s1 + s2) mr) as [Hs|Hs].
  - destruct (c_overtime_enabled c); cbn [negb andb orb]; rewrite ?(Z.max_l 0) by lia; [|split_leb; solve_verdict].
    destruct (Z.leb_spec 0 (c_maxOvertimes c)) as [Hm|Hm]; cbn [andb orb]; split_leb; solve_verdict.
  - destruct (c_overtime_enabled c); cbn [negb andb orb]; [|split_leb; solve_verdict].
    replace (Z.max 0 (s1 + s2 - mr)) with (s1 + s2 - mr) by lia.
    destruct (block_bounds (s1 + s2 - mr) (2 * seg) ltac:(lia) ltac:(lia)) as [Hq <-].
    set (q := (s1 + s2 - mr - 1) ÷ (2 * seg)) in *. clearbody q. rewrite (proj2 (Z.ltb_lt 0 _)) by lia.
    destruct (Z.leb_spec 0 (c_maxOvertimes c)) as [Hm|Hm]; cbn [andb orb]; split_leb; solve_verdict.
Qed.
Lemma map_verdict_witness :
  0 <= 12 /\ 0 <= 15 /\ DetermineMapWinnerIfComplete (sample_env 0) sample_ctx 12 15 = Playing /\
  DetermineMapWinnerIfComplete (sample_env 0) sample_ctx 12 16 = Winner false /\ DetermineMapWinnerIfComplete (sample_env 0) sample_ctx 13 12 = Playing.
Proof.
  split_and!; [lia|lia| | |]; rewrite map_verdict by lia; vm_compute; reflexivity.
Defined.
(** ** The commands of a match *)

(** A byte that does not end or split a console command. *)
Definition line_char (c : ascii) : bool := negb ((code c <? 32) || (code c =? 127) || Ascii.eqb c ";").

Lemma chars_line (f : ascii -> bool) :
  forallb (fun n => negb (f (ascii_of_nat n)) || line_char (ascii_of_nat n)) (seq 0 256) = true -> forall c, f c = true -> line_char c = true.
Proof.
  intros H c Hc. pose proof (proj1 (forallb_forall _ _) H (nat_of_ascii c)) as Hi. cbv beta in Hi. rewrite ascii_nat_embedding, Hc in Hi.
  apply Hi, in_seq. pose proof (nat_ascii_bounded c). lia.
Qed.
Lemma not_dropped_line c : negb (name_dropped c) = true -> line_char c = true.
Proof. apply (chars_line (fun c => negb (name_dropped c))). vm_compute. reflexivity. Qed.
Lemma command_line c : command_char c = true -> line_char c = true.
Proof. apply chars_line. vm_compute. reflexivity. Qed.
Lemma key_line c : isalnum c || Ascii.eqb c "_" = true -> line_char c = true.
Proof. apply (chars_line (fun c => isalnum c || Ascii.eqb c "_")). vm_compute. reflexivity. Qed.
Lemma value_line c : negb (unsafe_char c) && value_char c = true -> line_char c = true.
Proof. apply (chars_line (fun c => negb (unsafe_char c) && value_char c)). vm_compute. reflexivity. Qed.

Lemma quoted_line key name : sforall line_char key = true -> sforall (fun c => negb (name_dropped c)) name = true -> sforall line_char (quoted_cmd key name) = true.
Proof. intros Hk Hn. unfold quoted_cmd. rewrite !sforall_app, Hk, (sforall_impl _ line_char _ not_dropped_line Hn). done. Qed.
Lemma flag_clean s : sforall (fun c => negb (name_dropped c)) (flag_at (SanitizeTeamName s)) = true.
Proof. unfold flag_at. case_match; [done|]. apply SanitizeTeamName_safe. Qed.

Lemma team_name_line E c line : line ∈ team_name_cmds E c -> sforall line_char line = true.
Proof.
  unfold team_name_cmds. intros Hl.
  destruct (match c with Some _ => _ | None => _ end) as [[[n1 n2] f1] f2] eqn:En.
  assert (sforall (fun c => negb (name_dropped c)) n1 = true /\ sforall (fun c => negb (name_dropped c)) n2 = true /\
          sforall (fun c => negb (name_dropped c)) f1 = true /\ sforall (fun c => negb (name_dropped c)) f2 = true) as (? & ? & ? & ?).
  { destruct c as [c|]; [destruct (scrim c)|]; simplify_eq; split_and!; try done; first [apply SanitizeTeamName_safe | apply flag_clean]. }
  repeat (apply elem_of_cons in Hl as [->|Hl]; [by apply quoted_line|]). by apply elem_of_nil in Hl.
Qed.

(** Claim C28.  Every command that goes out with a match's cvars is one console command, whatever the match config says: team names,
    flags, cvar names and values and ruleset overrides hold no semicolon, line break or control byte.  A cvar of the config with a
    name and a value of the allowed characters is among them. *)
Theorem match_commands_safe (E : Env) (c : WebhookMatchContext) (stored : option WebhookMatchContext) (i : RulesInput) (e : EffectiveRuleSet) (obj : Json) :
  ParseOverrides obj = inl (overrides i) -> ResolveEffective i = Some e -> ruleCommands E = RuleCommands e ->
  (forall line, line ∈ match_cvar_cmds E c stored -> sforall line_char line = true) /\
  (forall k v, c_cvars c !! k = Some v -> IsSafeConvarKey k = true -> IsSafeConvarValue v = true -> (k +s+ " " +s+ v) ∈ match_cvar_cmds E c stored).
Proof.
  intros Ho He Hr. unfold match_cvar_cmds, cvar_cmds. split.
  - intros line Hl. apply elem_of_app in Hl as [Hl|Hl]; [by eapply team_name_line|]. apply elem_of_app in Hl as [Hl|Hl].
    { destruct (c_cvars c !! "mp_match_can_clinch"); [by apply elem_of_nil in Hl|]. apply list_elem_of_singleton in Hl as ->. by destruct (playoutOn E). }
    apply elem_of_app in Hl as [Hl|Hl].
    + apply list_elem_of_fmap in Hl as ([k v] & -> & Hkv). apply list_elem_of_In, filter_In in Hkv as [_ Hs]. cbn in *.
      unfold IsSafeConvarKey, IsSafeConvarValue in Hs. split_bools.
      rewrite !sforall_app, (sforall_impl _ line_char _ key_line) by done. cbn. by apply (sforall_impl _ line_char _ value_line).
    + rewrite Hr in Hl. apply (sforall_impl _ line_char _ command_line). by eapply rule_commands_safe.
  - intros k v Hk Hsk Hsv. apply elem_of_app. right. apply elem_of_app. right. apply elem_of_app. left.
    apply list_elem_of_fmap. exists (k, v). split; [done|]. apply list_elem_of_In, filter_In. cbn. rewrite Hsk, Hsv. split; [|done].
    by apply list_elem_of_In, elem_of_map_to_list.
Qed.

Lemma match_commands_safe_witness : sforall line_char "mp_overtime_maxrounds 10" = true /\ "mp_maxrounds 24" ∈ match_cvar_cmds (sample_env_with (RuleCommands sample_effective) 0) sample_ctx None.
Proof.
  destruct (match_commands_safe (sample_env_with (RuleCommands sample_effective) 0) sample_ctx None sample_input sample_effective
              (match Parse sample_overrides with Parsed j => j | _ => JNull end)) as [H1 H2]; [vm_compute; reflexivity..|].
  split; [apply H1|apply (H2 "mp_maxrounds" "24"); vm_compute; reflexivity]. apply (bool_decide_unpack _). vm_compute. exact I.
Defined.

(** ** The team lock *)

Definition lock_mode (m : ReadyUpMode) : bool := is_mode m MatchWarmup || is_mode m MatchKnife || is_mode m MatchLive.

Lemma map_or_1_max n : map_or_1 n = Z.max 1 n.
Proof. unfold map_or_1. case_match; lia. Qed.

Lemma join_target_kept E w c sid team : ctx w = Some c ->
  join_target E (is_mode (mode (st w)) MatchLive) c sid = Some team -> TeamLockRefusesJoin E w sid team = false.
Proof.
  unfold TeamLockRefusesJoin, join_target, team1_ct_for, mapNumberNow. intros ->. rewrite map_or_1_max. intros Hj.
  destruct (sid =? 0); [done|]. destruct (negb (_ || _ || _)); [done|]. destruct (scrim c); [done|]. revert Hj.
  case_bool_decide; [by intros [= <-]|]. destruct (roster_team (c_roster c) !! sid) as [[]|]; intros [= <-].
  1,2: by rewrite Z.eqb_refl.
  by rewrite andb_false_r.
Qed.

(** A move the lock makes is one it would not refuse, of a player who is there and on another team. *)
Definition move_ok (E : Env) (w : World) (e : Eff) : Prop :=
  match e with
  | MoveLater slot sid team name =>
      TeamLockRefusesJoin E w sid team = false /\
      exists h, h ∈ humans E /\ p_slot h = slot /\ p_sid h = sid /\ p_team h <> team /\ default (p_team h) (engineTeam E slot) <> team
  | _ => True
  end.
Definition Locked (E : Env) (w w' : World) : Prop :=
  ctx w' = ctx w /\ mode (st w') = mode (st w) /\ exists l, out w' = out w ++ l /\ Forall (move_ok E w) l.

Lemma move_ok_same E w w' e : ctx w' = ctx w -> mode (st w') = mode (st w) -> move_ok E w' e -> move_ok E w e.
Proof. intros Hc Hm. destruct e; cbn; auto. unfold TeamLockRefusesJoin. by rewrite Hc, Hm. Qed.
#[export] Instance Locked_pre E : PreOrder (Locked E).
Proof.
  split.
  - intros w. split_and!; [done..|]. exists []. by rewrite app_nil_r.
  - intros w w' w'' (Hc & Hm & l & Ho & Hl) (Hc' & Hm' & l' & Ho' & Hl'). split_and!; [congruence..|]. exists (l ++ l').
    rewrite Ho', Ho, app_assoc. split; [done|]. apply Forall_app. split; [done|]. eapply Forall_impl; [exact Hl'|]. intros e. by apply move_ok_same.
Qed.
Lemma locked_change E f : (forall w, ctx (f w) = ctx w /\ mode (st (f w)) = mode (st w) /\ out (f w) = out w) -> keeps (Locked E) (change f).
Proof. intros H w. destruct (H w) as (? & ? & Ho). split_and!; [done..|]. exists []. cbn. by rewrite app_nil_r. Qed.

Section Lock.
Context (E : Env) (c : WebhookMatchContext) (live : bool).

Lemma force_one_locked h w : h ∈ humans E -> ctx w = Some c -> live = is_mode (mode (st w)) MatchLive -> Locked E w (force_one E live c h w).2.
Proof.
  intros Hh Hc Hl. unfold force_one. destruct ((p_sid h =? 0) || _); [reflexivity|]. destruct (join_target E live c (p_sid h)) as [join|] eqn:Hj; [|reflexivity].
  destruct (Z.eqb_spec (p_team h) join) as [|Ht]; [apply locked_change; by intros|]. rewrite bind_gets. case_match; [reflexivity|].
  rewrite bind_upd. etrans; [apply (locked_change E (fun w => w <| st := st w <| lastForceJoin := <[p_sid h := now E]> (lastForceJoin (st w)) |> |>)); by intros|].
  cbn [change snd]. set (w1 := w <| st := _ |>). destruct (TeamMoveNeeded (p_team h) (engineTeam E (p_slot h)) join) eqn:Hn; cbn [negb]; [|apply locked_change; by intros].
  rewrite bind_gets. destruct (Allow (p_sid h) join (p_team h) (moves w1)) as [ok m]. rewrite bind_change.
  etrans; [apply (locked_change E (fun w => w <| moves := m |>)); by intros|]. cbn [change snd]. destruct ok; [|reflexivity].
  split_and!; [done..|]. eexists [_]. split; [reflexivity|]. apply Forall_singleton. cbn [move_ok]. split.
  - apply (join_target_kept E _ c); [exact Hc|]. cbn. by rewrite <- Hl.
  - exists h. unfold TeamMoveNeeded in Hn. split_and!; [done..|]. by destruct (Z.eqb_spec (default (p_team h) (engineTeam E (p_slot h))) join).
Qed.

Lemma force_all_locked l w : (forall h, h ∈ l -> h ∈ humans E) -> ctx w = Some c -> live = is_mode (mode (st w)) MatchLive -> Locked E w (force_all E live c l w).2.
Proof.
  revert w. induction l as [|h l IH]; intros w Hl Hc Hm; [reflexivity|]. cbn [force_all]. unfold mbind, M_bind.
  pose proof (force_one_locked h w ltac:(apply Hl; set_solver) Hc Hm) as H1. destruct (force_one E live c h w) as [a w1]. cbn in H1.
  etrans; [exact H1|]. destruct H1 as (Hc1 & Hm1 & _). apply IH; [set_solver|congruence|congruence].
Qed.
End Lock.

(** Claim C29.  The team lock never fights itself: whatever team the tick moves a player to, the same lock lets them join; only players who
    are on the server and on another team are moved; and a player of a team or a configured spectator may join nothing else. *)
Theorem team_lock_agrees (E : Env) (w : World) (c : WebhookMatchContext) :
  ctx w = Some c -> scrim c = false -> lock_mode (mode (st w)) = true ->
  (exists l, out (MaybeForceRosterTeams E w).2 = out w ++ l /\ Forall (move_ok E w) l) /\
  (forall sid, sid <> 0 -> sid ∈ c_spectators c \/ (exists t, roster_team (c_roster c) !! sid = Some t /\ t <> TeamUnknown) ->
     exists target, join_target E (is_mode (mode (st w)) MatchLive) c sid = Some target /\
       forall team, TeamLockRefusesJoin E w sid team = false <-> team = target).
Proof.
  intros Hc Hs Hm. unfold lock_mode in Hm. split.
  - unfold MaybeForceRosterTeams. rewrite !bind_gets, Hm, Hc. cbn [negb]. rewrite Hs.
    case_match; [exists []; by rewrite app_nil_r|]. by apply (force_all_locked E c _ (humans E) w).
  - intros sid Hz Hin. unfold TeamLockRefusesJoin, join_target, team1_ct_for, mapNumberNow. rewrite Hc, Hs, Hm, map_or_1_max. cbn [negb].
    destruct (Z.eqb_spec sid 0) as [|_]; [done|]. case_bool_decide as Hsp.
    + exists 1. split; [done|]. intros team. rewrite negb_false_iff. apply Z.eqb_eq.
    + destruct Hin as [|(t & -> & Ht)]; [done|].
      destruct t; [done|..]; eexists; (split; [reflexivity|]); intros team; rewrite negb_false_iff; apply Z.eqb_eq.
Qed.

Lemma team_lock_agrees_witness :
  let E := sample_env 2000000000 in
  let w := run (take 2 sample_history) BootWorld in
  ctx w = Some sample_ctx /\ lock_mode (mode (st w)) = true /\ (forall team, TeamLockRefusesJoin E w 22 team = false <-> team = 2).
Proof.
  intros E w. split; [vm_compute; reflexivity|]. split; [vm_compute; reflexivity|].
  destruct (team_lock_agrees E w sample_ctx) as [_ H]; [vm_compute; reflexivity..|].
  destruct (H 22) as (target & Ht & Hr); [lia|right; exists Team2; split; [vm_compute; reflexivity|discriminate]|].
  replace target with 2 in Hr; [exact Hr|]. vm_compute in Ht. congruence.
Defined.

End ModeFacts.

(** * The match modes: the knife round decides the sides

    Theorems about [KnifeOnRoundEnd] and [KnifeApplySideChoice] of [ModesLive.v]. *)

Module KnifeFacts.
Import Mo Live Run.

Definition kSwap : Eff := Cmd "mp_swapteams".

(** Nothing swaps the teams, and the loaded match stays. *)
Definition NoSwap (w w' : World) : Prop := ctx w' = ctx w /\ exists l, out w' = out w ++ l /\ kSwap ∉ l.
#[export] Instance NoSwap_pre : PreOrder NoSwap.
Proof.
  split.
  - intros w. split; [done|]. exists []. rewrite app_nil_r. split; [done|]. apply not_elem_of_nil.
  - intros w w' w'' (Hc & l & Ho & Hl) (Hc' & l' & Ho' & Hl'). split; [congruence|]. exists (l ++ l'). rewrite Ho', Ho, app_assoc. split; [done|].
    rewrite elem_of_app. tauto.
Qed.

Create HintDb noswap discriminated.
Lemma noswap_emits l : kSwap ∉ l -> keeps NoSwap (emits l).
Proof. intros Hl w. split; [done|]. by exists l. Qed.
Lemma noswap_emit e : e <> kSwap -> keeps NoSwap (emit e).
Proof. intros He w. split; [done|]. exists [e]. split; [done|]. intros H%list_elem_of_singleton. congruence. Qed.
Lemma noswap_change f : (forall w, ctx (f w) = ctx w /\ out (f w) = out w) -> keeps NoSwap (change f).
Proof. intros H w. destruct (H w) as [Hc Ho]. split; [done|]. exists []. cbn. rewrite Ho, app_nil_r. split; [done|]. apply not_elem_of_nil. Qed.
Lemma noswap_enqueue E line : line <> "mp_swapteams" -> keeps NoSwap (enqueue E line).
Proof.
  intros Hl. unfold enqueue. destruct (takes E line); [|apply keeps_ret, _]. apply keeps_bind; [apply _| |intros ?; apply keeps_ret, _].
  apply noswap_emit. intros [= ?]. done.
Qed.
Lemma noswap_enqueue_all E lines : Forall (fun l => l <> "mp_swapteams") lines -> keeps NoSwap (enqueue_all E lines).
Proof.
  induction 1 as [|l lines Hl _ IH]; cbn [enqueue_all]; [apply keeps_ret, _|].
  apply keeps_bind; [apply _|by apply noswap_enqueue|intros ?]. apply keeps_bind; [apply _|done|intros ?; apply keeps_ret, _].
Qed.
Lemma noswap_after lines : keeps NoSwap (EnqueueAfterCfg lines).
Proof. unfold EnqueueAfterCfg. destruct lines; [apply keeps_ret, _|by apply noswap_emit]. Qed.
Ltac noswap :=
  repeat first [ solve [apply noswap_emit; discriminate] | solve [apply noswap_after] | solve [apply noswap_enqueue; first [discriminate|assumption]]
               | solve [apply noswap_enqueue_all; repeat constructor; discriminate] | apply noswap_change; intros ?w; split; reflexivity | keeps_step ].

Lemma noswap_ResetKnife E n : keeps NoSwap (ResetKnife E n).
Proof. unfold ResetKnife, send, upd. noswap. Qed.

(** The mode stays. *)
Definition SameMode (w w' : World) : Prop := mode (st w') = mode (st w).
#[export] Instance SameMode_pre : PreOrder SameMode.
Proof. split; unfold SameMode; [by intros w|intros w w' w''; congruence]. Qed.
Lemma quiet_mode {A} (m : M A) : keeps Quiet m -> keeps SameMode m.
Proof. intros H w. by destruct (H w) as (l & -> & _). Qed.
Lemma mode_change f : (forall w, mode (st (f w)) = mode (st w)) -> keeps SameMode (change f).
Proof. intros H w. apply H. Qed.
Ltac samemode := repeat first [ solve [apply quiet_mode; auto with speak] | apply mode_change; intros ?w; reflexivity | keeps_step ].

(** What follows the swap in [ApplyKnifeSideChoice]. *)
Definition restart_live (E : Env) (c : WebhookMatchContext) (mapNumber : Z) (wantsCt winnerIsTeam1 team1StartsCt : bool) (picker : Z) (pickerName : string) (k : Knife) : M bool :=
  let team := if winnerIsTeam1 then "team1" else "team2" in
  let side := if wantsCt then "ct" else "t" in
  let by_ := if negb (sempty pickerName) then pickerName else if picker =? 0 then "server" else to_string picker in
  emit (SidePicked mapNumber (current_map (ms E)) side by_ team) ;;
  when (signalsOn E)
    (emit (Signal "side_picked" [("team", team); ("side", side);
                                 ("picked_by", if negb (picker =? 0) then to_string picker else if pickerName =s "timeout" then "timeout" else "console")] mapNumber)) ;;
  let winnerName := KnifeWinnerName k c in
  ResetKnife E mapNumber ;;
  upd (fun s => s <| mode := MatchWarmup |> <| warmupRulesApplied := true |> <| matchLoadedChatSent := true |>) ;;
  a ← enqueue E (liveCfgCommand E);
  ApplyMatchCvars E c ;;
  b ← enqueue_all E ["mp_warmup_pausetimer 0"; "mp_warmup_end"];
  emit (EnableBackups (c_matchid c) (Z.max 1 mapNumber)) ;;
  d ← enqueue E "mp_restartgame 1";
  upd (fun s => s <| startTriggered := a || b || d |> <| lastGateCmd := now E |>) ;;
  let timedOut := pickerName =s "timeout" in
  let sideName := if wantsCt then "CT" else "T" in
  emit (ChatAll ((if timedOut then "knife.picked_timeout" else "knife.picked") +s+ (if team1StartsCt then "_stay" else "_swap"))
          [("team", winnerName); ("side", sideName)]) ;;
  when (hudScreens E) (emit (SidesNotice timedOut team1StartsCt wantsCt winnerName sideName)) ;;
  mret true.

Lemma restart_noswap E c n a b d picker name k : liveCfgCommand E <> "mp_swapteams" -> keeps NoSwap (restart_live E c n a b d picker name k).
Proof.
  intros Hl. unfold restart_live, ApplyMatchCvars, upd. repeat first [ solve [apply noswap_ResetKnife] | solve [noswap] | keeps_step ].
Qed.
Lemma restart_answer E c n a b d picker name k w : (restart_live E c n a b d picker name k w).1 = true.
Proof.
  change (wp (restart_live E c n a b d picker name k) (fun r _ => r = true) w). unfold restart_live. cbv zeta.
  repeat (apply any_bind; intros ? ?). by apply wp_ret.
Qed.
Lemma restart_mode E c n a b d picker name k w : mode (st (restart_live E c n a b d picker name k w).2) = MatchWarmup.
Proof.
  change (wp (restart_live E c n a b d picker name k) (fun _ w' => mode (st w') = MatchWarmup) w). unfold restart_live. cbv zeta.
  do 3 (apply any_bind; intros ? ?). unfold wp. rewrite bind_upd.
  match goal with |- mode (st (?m ?v).2) = _ => assert (keeps SameMode m) as K; [unfold upd; samemode|exact (K v)] end.
Qed.

Lemma side_choice_split E c n choice picker name w wantsCt : knifeWinner (knife (st w)) <> TeamUnknown -> knifeAwaitingPick (knife (st w)) = true ->
  let first := bool_decide (knifeWinner (knife (st w)) = Team1) in
  wanted_side choice first = Some wantsCt ->
  let team1Ct := if wantsCt then first else negb first in
  ApplyKnifeSideChoice E c n choice picker name w =
    (change (fun w => w <| ctx := WebhookUpdateMapSide n (if team1Ct then "team1_ct" else "team2_ct") <$> ctx w |>) ;;
     when (negb team1Ct) (send E "mp_swapteams") ;; restart_live E c n wantsCt first team1Ct picker name (knife (st w))) w.
Proof.
  intros Hk Ha first Hw team1Ct. unfold ApplyKnifeSideChoice. rewrite bind_gets, bool_decide_eq_false_2 by done. rewrite Ha. cbn [negb]. cbv zeta.
  fold first. by rewrite Hw.
Qed.

Lemma update_side_here n side c : 0 < n <= zlen (c_map_sides c) -> side = "team1_ct" \/ side = "team2_ct" ->
  WebhookUpdateMapSide n side c = update_side n side c /\ map_side (update_side n side c) n = Some side /\
  (forall m, m <> n -> map_side (update_side n side c) m = map_side c m).
Proof.
  intros Hn Hs. unfold WebhookUpdateMapSide, zlen in *. rewrite (proj2 (Z.leb_gt n 0)), (proj2 (Z.leb_gt _ (n - 1))) by lia. split_and!.
  - destruct Hs as [-> | ->]; reflexivity.
  - unfold map_side. rewrite (proj2 (Z.leb_gt n 0)) by lia. cbn [c_map_sides update_side]. apply list_lookup_insert_eq. lia.
  - intros m Hm. unfold map_side. case_match; [done|]. cbn [c_map_sides update_side]. apply list_lookup_insert_ne. lia.
Qed.

(** Claim C11.  The winner of a knife round starts the map on the side they choose ([ct], [t]; [stay] and [switch] relative to the
    side they played): the match's side for this map is set so, no other map's side changes, the teams are swapped exactly
    when team 1 no longer starts on CT, where the knife round had it, and the match is back in the warmup mode from which the next
    round goes live.  The choice is made once: another one is refused and changes nothing. *)
Theorem knife_choice_honoured (E : Env) (w : World) (c : WebhookMatchContext) (choice : string) (picker : Z) (name : string) (wantsCt : bool) :
  let k := knife (st w) in
  let n := knifeMapNumber k in
  let first := bool_decide (knifeWinner k = Team1) in
  ctx w = Some c -> mode (st w) = MatchKnife -> knifeAwaitingPick k = true -> knifeWinner k <> TeamUnknown ->
  0 < n <= zlen (c_map_sides c) -> wanted_side choice first = Some wantsCt ->
  takes E "mp_swapteams" = true -> liveCfgCommand E <> "mp_swapteams" ->
  let r := KnifeApplySideChoice E choice picker name w in
  let w' := r.2 in
  r.1 = true /\ mode (st w') = MatchWarmup /\
  (exists c', ctx w' = Some c' /\ team1_starts_ct c' n = eqb wantsCt first /\ forall m, m <> n -> map_side c' m = map_side c m) /\
  (exists l, out w' = out w ++ l /\ (kSwap ∈ l <-> eqb wantsCt first = false)) /\
  forall choice' picker' name', KnifeApplySideChoice E choice' picker' name' w' = (false, w').
Proof.
  intros k n first Hc Hm Ha Hw Hn Hs Ht Hl r w'. subst w' r.
  set (side := if eqb wantsCt first then "team1_ct" else "team2_ct").
  destruct (update_side_here n side c Hn) as (Hu & Hside & Hother); [unfold side; case_match; auto|].
  assert (exists w1, KnifeApplySideChoice E choice picker name w = restart_live E c n wantsCt first (eqb wantsCt first) picker name k w1 /\
            ctx w1 = Some (update_side n side c) /\ exists l, out w1 = out w ++ l /\ (kSwap ∈ l <-> eqb wantsCt first = false)) as (w1 & -> & Hc1 & l1 & Ho1 & Hl1).
  { unfold KnifeApplySideChoice. rewrite !bind_gets, Hc. unfold is_mode. rewrite bool_decide_eq_true_2 by done. cbn [negb]. fold k n.
    rewrite (proj2 (Z.ltb_lt 0 n)) by lia. rewrite (side_choice_split _ _ _ _ _ _ _ wantsCt) by done. fold k first. rewrite bind_change.
    replace (if wantsCt then first else negb first) with (eqb wantsCt first) by (by destruct wantsCt, first). fold side.
    destruct (eqb wantsCt first) eqn:He; cbn [negb when].
    - eexists. split; [reflexivity|]. cbn. rewrite Hc. cbn. rewrite Hu. split; [done|]. exists []. rewrite app_nil_r. split; [done|]. split; [set_solver|done].
    - unfold send, enqueue. rewrite Ht. eexists. split; [reflexivity|]. cbn. rewrite Hc. cbn. rewrite Hu. split; [done|]. exists [kSwap]. split; [done|]. set_solver. }
  pose proof (restart_mode E c n wantsCt first (eqb wantsCt first) picker name k w1) as Hmode.
  destruct (restart_noswap E c n wantsCt first (eqb wantsCt first) picker name k Hl w1) as (Hc2 & l2 & Ho2 & Hl2).
  split; [apply restart_answer|]. split; [done|]. split; [|split].
  - exists (update_side n side c). split; [congruence|]. split; [|done]. unfold team1_starts_ct. rewrite Hside. unfold side. by destruct (eqb wantsCt first).
  - exists (l1 ++ l2). rewrite Ho2, Ho1, app_assoc. split; [done|]. rewrite elem_of_app. tauto.
  - intros choice' picker' name'. unfold KnifeApplySideChoice. rewrite !bind_gets. rewrite Hc2, Hc1, Hmode. reflexivity.
Qed.

(** Team 2 wins the knife round on T and wants to start on CT: the second map of the small match. *)
Definition picking_world : World :=
  BootWorld <| ctx := Some sample_ctx |>
    <| st := BootState <| mode := MatchKnife |> <| knife := BootKnife <| knifeMapNumber := 2 |> <| knifeWinner := Team2 |> <| knifeAwaitingPick := true |> |> |>.
Lemma knife_choice_honoured_witness :
  let w' := (KnifeApplySideChoice (sample_env 0) "ct" 22 "bob" picking_world).2 in
  mode (st w') = MatchWarmup /\ exists c', ctx w' = Some c' /\ team1_starts_ct c' 2 = false.
Proof.
  destruct (knife_choice_honoured (sample_env 0) picking_world sample_ctx "ct" 22 "bob" true) as (_ & Hm & (c' & Hc & Hs & _) & _).
  1-3, 6-7: vm_compute; reflexivity.
  1, 3: vm_compute; discriminate.
  1: vm_compute; split; congruence.
  split; [exact Hm|]. by exists c'.
Defined.

(** ** Who wins the knife round *)

(** The winner of a knife round is one of the two sides: the one that eliminated the other; without that the one with more
    players alive, then more health, then either. *)
Lemma knife_winner_rule E cs elimination :
  let winner := (knife_winner E cs elimination).1.1.1 in
  let loser := 5 - winner in
  (winner = 2 \/ winner = 3) /\
  (elimination = true -> cs = 2 \/ cs = 3 -> winner = cs) /\
  (elimination = false \/ ~ (cs = 2 \/ cs = 3) ->
     let a := knifeStats E winner in let b := knifeStats E loser in
     alive b < alive a \/ alive b = alive a /\ hp b <= hp a).
Proof.
  unfold knife_winner. cbv zeta.
  destruct (elimination && ((cs =? 2) || (cs =? 3))) eqn:He; cbn [fst].
  - split_bools. split; [lia|]. split; [done|]. intros [?|Hn]; [congruence|]. exfalso. apply Hn. lia.
  - split; [repeat case_match; cbn; auto|]. split; [intros -> Hcs; exfalso; destruct Hcs as [-> | ->]; done|]. intros _.
    destruct (Z.eqb_spec (alive (knifeStats E 3)) (alive (knifeStats E 2))) as [Ea|Ea]; cbn [negb fst].
    + destruct (Z.eqb_spec (hp (knifeStats E 3)) (hp (knifeStats E 2))) as [Eh|Eh]; cbn [negb fst].
      * destruct (coin E); cbn [fst]; [change (5 - 3) with 2|change (5 - 2) with 3]; lia.
      * destruct (Z.ltb_spec (hp (knifeStats E 2)) (hp (knifeStats E 3))); cbn [fst]; [change (5 - 3) with 2|change (5 - 2) with 3]; lia.
    + destruct (Z.ltb_spec (alive (knifeStats E 2)) (alive (knifeStats E 3))); cbn [fst]; [change (5 - 3) with 2|change (5 - 2) with 3]; lia.
Qed.

End KnifeFacts.
