(* ===== verification/ReloadState.v ===== *)
(** * What a plugin reload keeps of the match

    [plugins/match/readyup/reload_state.cpp]: the loaded match as JSON,
    written when the plugin is unloaded and read by the next image ([ModesJson.v] has the modes' part).  An unordered
    container is written in the order of [map_to_list].  [None]: a number that is no value of its enum, or a double that is no
    [long long]. *)

From S2P Require Import Prelude CStr Double Json JsonFacts MatchRules MatchConfig Modes ModesJson ModesRun.

Module Reload.
Import Mo ModeJson.

(** ** Readers *)

Definition ToU64 (v : option Json) : Z := match v with Some v => strtoull (AsString v) | None => 0 end.
Section Get.
Context (o : option Json).
Definition key_of (k : string) : option Json := o ≫= fun j => Find j k.
Definition Int (k : string) (def : Z) : option Z := match key_of k with Some v => to_int32 <$> AsInt v | None => Some def end.
Definition Bool (k : string) (def : bool) : bool := match key_of k with Some v => AsBool v | None => def end.
Definition Str (k : string) : string := match key_of k with Some v => AsString v | None => EmptyString end.
End Get.

Definition items_of (j : Json) (k : string) : list Json := match Find j k with Some v => Items v | None => [] end.
Definition members_of (j : Json) (k : string) : list (string * Json) := match Find j k with Some v => Members v | None => [] end.

(** ** The loaded match *)

Definition U64 (n : Z) : Json := JString (to_string n).
Definition rules_json (r : MatchRules) : Json :=
  JObject
    [("tech_pauses_per_team", JInt (tech_pauses_per_team r)); ("tech_pause_max_seconds", JInt (tech_pause_max_seconds r));
     ("both_teams_unpause", JInt (both_teams_unpause r)); ("allow_force_ready", JInt (allow_force_ready r)); ("team_ready", JInt (team_ready r));
     ("min_players_to_ready", JInt (min_players_to_ready r)); ("min_spectators_to_ready", JInt (min_spectators_to_ready r));
     ("forfeit_after_seconds", JInt (forfeit_after_seconds r)); ("gg_enabled", JInt (gg_enabled r)); ("gg_threshold_pct", JInt (gg_threshold_pct r));
     ("gg_min_score_diff", JInt (gg_min_score_diff r)); ("stop_command_available", JInt (stop_command_available r));
     ("stop_command_no_damage", JInt (stop_command_no_damage r)); ("stop_vote_seconds", JInt (stop_vote_seconds r));
     ("pause_after_restore", JInt (pause_after_restore r))].
Definition teams_json (m : gmap Z WebhookTeam) : Json := JObject ((fun kv : Z * WebhookTeam => (to_string kv.1, JInt (team_int kv.2))) <$> map_to_list m).
Definition ids_json (s : gset Z) : Json := JArray (U64 <$> elements s).

Definition ContextToJson (c : WebhookMatchContext) : Json :=
  JObject
    [("matchid", U64 (c_matchid c)); ("slug", JString (c_slug c)); ("num_maps", JInt (c_num_maps c));
     ("team1_name", JString (t_name (c_team1 c))); ("team2_name", JString (t_name (c_team2 c)));
     ("team1_id", JString (t_id (c_team1 c))); ("team2_id", JString (t_id (c_team2 c)));
     ("team1_captain", U64 (t_captain (c_team1 c))); ("team2_captain", U64 (t_captain (c_team2 c)));
     ("knife_decision_seconds", JInt (c_knifeDecisionSeconds c)); ("max_rounds", JInt (c_maxRounds c));
     ("overtime_enabled", JBool (c_overtime_enabled c)); ("overtime_segments", JInt (c_overtimeSegments c));
     ("max_overtimes", JInt (c_maxOvertimes c)); ("damage_tiebreak", JBool (c_damageTiebreakEnabled c));
     ("sudden_death_on_damage_tie", JBool (c_suddenDeathOnDamageTie c)); ("clinch_series", JBool (c_clinch_series c));
     ("players_per_team", JInt (c_players_per_team c)); ("playout", JInt (c_playout c)); ("whitelist", JInt (c_whitelist c));
     ("autoready", JInt (c_autoready c)); ("roster_names_rule", JInt (c_roster_names_rule c)); ("map_sides", JArray (JString <$> c_map_sides c));
     ("maplist", JArray (JString <$> c_maplist c)); ("spectators", ids_json (c_spectators c)); ("admins", ids_json (c_admins c));
     ("cvars", JObject ((fun kv : string * string => (kv.1, JString kv.2)) <$> map_to_list (c_cvars c)));
     ("roster", teams_json (roster_team (c_roster c)));
     ("team1_flag", JString (t_flag (c_team1 c))); ("team2_flag", JString (t_flag (c_team2 c))); ("rules", rules_json (c_rules c));
     ("ruleset", JString (c_ruleset c)); ("overrides", JString (c_overrides_json c)); ("coaches", ids_json (c_coaches c));
     ("coach_team", teams_json (coach_team (c_roster c))); ("coaches_per_team", JInt (c_coaches_per_team c));
     ("substitutes", ids_json (substitutes (c_roster c)));
     ("roster_names", JObject ((fun kv : Z * string => (to_string kv.1, JString kv.2)) <$> map_to_list (roster_names (c_roster c))));
     ("wingman", JBool (c_wingman c)); ("bot_fill", JBool (c_bot_fill c)); ("simulation", JBool (c_simulation c));
     ("simulation_timescale", JDouble (c_simulation_timescale c))].

Definition read_rules (o : Json) : option MatchRules :=
  let i k := Int (Some o) k (-1) in
  a ← i "tech_pauses_per_team"; b ← i "tech_pause_max_seconds"; c ← i "both_teams_unpause"; d ← i "allow_force_ready"; e ← i "team_ready";
  f ← i "min_players_to_ready"; g ← i "min_spectators_to_ready"; h ← i "forfeit_after_seconds"; k ← i "gg_enabled"; l ← i "gg_threshold_pct";
  m ← i "gg_min_score_diff"; n ← i "stop_command_available"; p ← i "stop_command_no_damage"; q ← i "stop_vote_seconds"; r ← i "pause_after_restore";
  Some {| tech_pauses_per_team := a; tech_pause_max_seconds := b; disconnect_pause_max_seconds := -1; both_teams_unpause := c; allow_force_ready := d;
          team_ready := e; min_players_to_ready := f; min_spectators_to_ready := g; forfeit_after_seconds := h; gg_enabled := k; gg_threshold_pct := l;
          gg_min_score_diff := m; stop_command_available := n; stop_command_no_damage := p; stop_vote_seconds := q; pause_after_restore := r |}.

Definition ids_of (j : Json) (k : string) : gset Z := foldl (fun (acc : gset Z) x => {[ ToU64 (Some x) ]} ∪ acc) ∅ (items_of j k).
Definition read_team (acc : option (gmap Z WebhookTeam)) (kv : string * Json) : option (gmap Z WebhookTeam) :=
  m ← acc; n ← AsInt kv.2; t ← team_of (to_int32 n); Some (<[strtoull kv.1 := t]> m).
Definition teams_of (j : Json) (k : string) : option (gmap Z WebhookTeam) := foldl read_team (Some ∅) (members_of j k).

Definition ContextFromJson (j : Json) : option WebhookMatchContext :=
  let o := Some j in
  maps ← Int o "num_maps" 0; knife ← Int o "knife_decision_seconds" 60; rounds ← Int o "max_rounds" 24;
  seg ← Int o "overtime_segments" 3; ots ← Int o "max_overtimes" (-1); ppt ← Int o "players_per_team" 0; playout ← Int o "playout" (-1);
  wl ← Int o "whitelist" (-1); auto ← Int o "autoready" (-1); names ← Int o "roster_names_rule" (-1);
  roster ← teams_of j "roster";
  rules ← match Find j "rules" with Some r => read_rules r | None => Some UnsetRules end;
  coach ← teams_of j "coach_team"; cpt ← Int o "coaches_per_team" 2;
  Some {|
    c_matchid := ToU64 (Find j "matchid"); c_slug := Str o "slug"; c_num_maps := maps;
    c_team1 := {| t_name := Str o "team1_name"; t_id := Str o "team1_id"; t_flag := Str o "team1_flag"; t_captain := ToU64 (Find j "team1_captain") |};
    c_team2 := {| t_name := Str o "team2_name"; t_id := Str o "team2_id"; t_flag := Str o "team2_flag"; t_captain := ToU64 (Find j "team2_captain") |};
    c_knifeDecisionSeconds := knife; c_maxRounds := rounds; c_overtime_enabled := Bool o "overtime_enabled" false; c_overtimeSegments := seg;
    c_maxOvertimes := ots; c_damageTiebreakEnabled := Bool o "damage_tiebreak" false;
    c_suddenDeathOnDamageTie := Bool o "sudden_death_on_damage_tie" true; c_map_sides := AsString <$> items_of j "map_sides";
    c_clinch_series := Bool o "clinch_series" true; c_maplist := AsString <$> items_of j "maplist"; c_spectators := ids_of j "spectators";
    c_admins := ids_of j "admins"; c_cvars := foldl (fun m kv => <[kv.1 := AsString kv.2]> m) ∅ (members_of j "cvars");
    c_roster := {| coach_team := coach; substitutes := ids_of j "substitutes"; roster_team := roster;
                   roster_names := foldl (fun m kv => <[strtoull kv.1 := AsString kv.2]> m) ∅ (members_of j "roster_names") |};
    c_rules := rules; c_ruleset := Str o "ruleset"; c_overrides_json := Str o "overrides"; c_coaches := ids_of j "coaches";
    c_coaches_per_team := cpt; c_players_per_team := ppt; c_playout := playout; c_whitelist := wl; c_autoready := auto; c_ruleset_notes := [];
    c_roster_names_rule := names; c_wingman := Bool o "wingman" false; c_demo_record := -1; c_demo_upload := -1; c_bot_fill := Bool o "bot_fill" false;
    c_full_team_deadline_ms := 0; c_walkover_short := TeamUnknown; c_walkover_expires_ms := 0; c_walkover_choosers := ∅;
    c_simulation := Bool o "simulation" false;
    c_simulation_timescale := match Find j "simulation_timescale" with Some v => AsDouble v | None => of_int 1 end |}.

End Reload.

(** * What a plugin reload keeps of the match: theorems

    The modes' state and the loaded match are read back as they were written, up to what the code does not write. *)

Module ReloadFacts.
Import Mo ModeJson Run Reload.

(** ** The modes *)

Definition saved_ints (s : State) : list Z :=
  [warmupRoundTimeMinutes (warmup s); warmupStartMoney (warmup s); warmupMaxMoney (warmup s); lifecycleMapNumber (series s);
   mapResultEmittedForMapNumber (series s); seriesWinsTeam1 (series s); seriesWinsTeam2 (series s); demoMapNumber s; knifeMapNumber (knife s);
   knifeWinnerCs (knife s)].
Definition saved_times (s : State) : list Z :=
  [lastNotReadyChat s; lastGateCmd s; lastNativeWarmupEnd s; knifePickDeadline (knife s); knifeTriggeredAt (knife s)].
(** The numbers fit their C++ types, and the players are SteamIDs. *)
Definition saved_ok (s : State) : Prop :=
  Forall int32_ok (saved_ints s) /\ Forall int64_ok (saved_times s) /\ (forall sid r, ready s !! sid = Some r -> sid <> 0 /\ uint64_ok sid).

(** What the next image has: the same, but for two throttles, a cached cvar value and the players who are not ready. *)
Definition reloaded (s fresh : State) : State :=
  s <| idleIgnoreWinSent := idleIgnoreWinSent fresh |> <| lastKick := lastKick fresh |> <| lastForceJoin := lastForceJoin fresh |>
    <| ready := filter (fun kv => kv.2 = true) (ready s) |>.

Lemma mode_of_int m : mode_of (mode_int m) = Some m.
Proof. by destruct m. Qed.
Lemma phase_of_int p : phase_of (phase_int p) = Some p.
Proof. by destruct p. Qed.
Lemma team_of_int t : team_of (team_int t) = Some t.
Proof. by destruct t. Qed.
Lemma mode_int_32 m : to_int32 (mode_int m) = mode_int m.
Proof. by destruct m. Qed.
Lemma phase_int_32 p : to_int32 (phase_int p) = phase_int p.
Proof. by destruct p. Qed.
Lemma team_int_32 t : to_int32 (team_int t) = team_int t.
Proof. by destruct t. Qed.
Lemma as_bool b : AsBool (JBool b) = b.
Proof. by destruct b. Qed.

Lemma ready_back s : (forall sid r, ready s !! sid = Some r -> sid <> 0 /\ uint64_ok sid) -> ready_of (ModesSnapshotJson s) = filter (fun kv => kv.2 = true) (ready s).
Proof.
  intros Hok. unfold ready_of. change (Find (ModesSnapshotJson s) "ready") with (Some (JArray ((fun n => JString (to_string n)) <$> ready_ids (ready s)))).
  cbn [Items]. rewrite <- (foldl_insert (filter (fun kv => kv.2 = true) (ready s)) ((fun n => (n, true)) <$> ready_ids (ready s))).
  - assert (Forall (fun n => n <> 0 /\ uint64_ok n) (ready_ids (ready s))) as Hall.
    { apply Forall_forall. intros n Hn. unfold ready_ids in Hn. apply list_elem_of_fmap in Hn as ([k r] & -> & Hn).
      apply list_elem_of_In, filter_In in Hn as [Hn _]. apply (Hok k r). by apply elem_of_map_to_list, list_elem_of_In. }
    generalize (∅ : gmap Z bool) as acc. induction Hall as [|n l [Hn Hu] _ IH]; intros acc; [done|]. cbn. rewrite strtoull_to_string by done.
    rewrite (proj2 (Z.eqb_neq n 0)) by done. apply IH.
  - assert ((fun n => (n, true)) <$> ready_ids (ready s) = List.filter snd (map_to_list (ready s))) as ->.
    { unfold ready_ids. induction (map_to_list (ready s)) as [|[n []] l IH]; cbn; [done|by rewrite <- IH at 2|done]. }
    apply NoDup_Permutation.
    + apply NoDup_ListNoDup, List.NoDup_filter, NoDup_ListNoDup, NoDup_map_to_list.
    + apply NoDup_map_to_list.
    + intros [n b]. rewrite elem_of_map_to_list, map_lookup_filter_Some, list_elem_of_In, filter_In, <- list_elem_of_In, elem_of_map_to_list. done.
Qed.

Lemma get_i_here (o : list (string * Json)) key n v : find_member key o = Some (JInt n) -> int32_ok n -> get_i (Some (JObject o)) key v = Some n.
Proof. intros Hf Hn. unfold get_i, member. cbn. unfold Find. cbn [Members]. rewrite Hf. cbn. by rewrite to_int32_id. Qed.
Lemma get_t_here (o : list (string * Json)) key n v : find_member key o = Some (JInt n) -> get_t (Some (JObject o)) key v = Some n.
Proof. intros Hf. unfold get_t, member. cbn. unfold Find. cbn [Members]. by rewrite Hf. Qed.
Lemma get_b_here (o : list (string * Json)) key b v : find_member key o = Some (JBool b) -> get_b (Some (JObject o)) key v = b.
Proof. intros Hf. unfold get_b, member. cbn. unfold Find. cbn [Members]. rewrite Hf. apply as_bool. Qed.
Lemma get_s_here (o : list (string * Json)) key t v : find_member key o = Some (JString t) -> get_s (Some (JObject o)) key v = t.
Proof. intros Hf. unfold get_s, member. cbn. unfold Find. cbn [Members]. by rewrite Hf. Qed.

Ltac read_back :=
  repeat first [ erewrite get_i_here; [|reflexivity|done] | erewrite get_t_here; [|reflexivity] | erewrite get_b_here; [|reflexivity] | erewrite get_s_here; [|reflexivity] ].

Lemma knife_back k k0 : Forall int32_ok [knifeMapNumber k; knifeWinnerCs k] -> restore_knife (Some (knife_json k)) k0 = Some k.
Proof.
  intros Hk. rewrite !Forall_cons in Hk. destruct Hk as (H1 & H2 & _). unfold restore_knife, knife_json.
  assert (int32_ok (team_int (knifeWinner k))) by (destruct (knifeWinner k); cbn; unfold int32_ok; lia).
  assert (int32_ok (phase_int (knifePhase k))) by (destruct (knifePhase k); cbn; unfold int32_ok; lia).
  read_back. cbn [mbind option_bind]. rewrite team_of_int. cbn [mbind option_bind]. read_back. cbn [mbind option_bind]. rewrite phase_of_int. cbn [mbind option_bind]. read_back.
  cbn [mbind option_bind]. read_back. by destruct k.
Qed.

Lemma warmup_back s w0 : Forall int32_ok (saved_ints s) -> restore_warmup (Some (ModesSnapshotJson s)) w0 = Some (warmup s).
Proof.
  unfold saved_ints. rewrite !Forall_cons. intros (H1 & H2 & H3 & _). unfold restore_warmup, ModesSnapshotJson.
  read_back. cbn [mbind option_bind]. by destruct (warmup s).
Qed.
Lemma series_back s r0 : Forall int32_ok (saved_ints s) -> restore_series (Some (ModesSnapshotJson s)) r0 = Some (series s).
Proof.
  unfold saved_ints. rewrite !Forall_cons. intros (_ & _ & _ & H1 & H2 & H3 & H4 & _). unfold restore_series, ModesSnapshotJson.
  read_back. cbn [mbind option_bind]. by destruct (series s).
Qed.
Lemma modes_back s fresh : saved_ok s -> ModesRestoreJson (ModesSnapshotJson s) fresh = Some (reloaded s fresh).
Proof.
  intros (Hi & _ & Hr). unfold ModesRestoreJson. rewrite ready_back, warmup_back, series_back by done.
  change (Find (ModesSnapshotJson s) "knife") with (Some (knife_json (knife s))).
  rewrite knife_back by (unfold saved_ints in Hi; rewrite !Forall_cons in Hi; rewrite !Forall_cons; tauto).
  assert (int32_ok (demoMapNumber s)) by (unfold saved_ints in Hi; rewrite !Forall_cons in Hi; tauto).
  assert (int32_ok (mode_int (mode s))) by (destruct (mode s); cbn; unfold int32_ok; lia).
  unfold ModesSnapshotJson. read_back. cbn [mbind option_bind]. rewrite mode_of_int. cbn [mbind option_bind]. by destruct s.
Qed.

Lemma strings_plain (ns : list Z) : all_items plain ((fun n => JString (to_string n)) <$> ns) = true /\ max_items depth ((fun n => JString (to_string n)) <$> ns) = 0%nat.
Proof. induction ns as [|n l [IH1 IH2]]; [done|]. cbn. by rewrite IH1, IH2. Qed.
Lemma knife_plain k : Forall int64_ok [knifeMapNumber k; knifePickDeadline k; knifeTriggeredAt k; knifeWinnerCs k] -> plain (knife_json k) = true.
Proof.
  intros Hk. rewrite !Forall_cons in Hk. destruct Hk as (H1 & H2 & H3 & H4 & _). unfold knife_json. apply plain_object. split.
  - apply (bool_decide_eq_true_1 _). vm_compute. reflexivity.
  - repeat (apply List.Forall_cons; [cbn [snd plain]; first [by apply bool_decide_eq_true_2|done|destruct (knifeWinner k); reflexivity|destruct (knifePhase k); reflexivity]|]).
    apply List.Forall_nil.
Qed.
Lemma int32_int64_all l : Forall int32_ok l -> Forall int64_ok l.
Proof. intros H. eapply Forall_impl; [exact H|]. unfold int32_ok, int64_ok. lia. Qed.
Lemma modes_plain s : saved_ok s -> plain (ModesSnapshotJson s) = true /\ (depth (ModesSnapshotJson s) <= 64)%nat.
Proof.
  intros (Hi & Ht & _). apply int32_int64_all in Hi. unfold saved_ints, saved_times in *. repeat rewrite Forall_cons in Hi. repeat rewrite Forall_cons in Ht. destruct_and!. split.
  - unfold ModesSnapshotJson. apply plain_object. split; [apply (bool_decide_eq_true_1 _); vm_compute; reflexivity|].
    repeat (apply List.Forall_cons; [cbn [snd]; first [by apply bool_decide_eq_true_2|done|by apply knife_plain; auto|apply strings_plain|destruct (mode s); reflexivity]|]).
    apply List.Forall_nil.
  - cbn. rewrite (proj2 (strings_plain _)). cbn. lia.
Qed.

(** Claim C31.  The match modes survive a plugin reload: for every state whose numbers fit their C++ types, the text written when the
    plugin is unloaded parses, and the next image reads the state back from it - whatever it starts from - except the two
    throttles and the cached cvar value, which are its own, and the players who are not ready, who have no entry: for
    every player the ready flag is the same. *)
Theorem modes_reload (s fresh : State) : saved_ok s ->
  Parse (Dump (ModesSnapshotJson s)) = Parsed (ModesSnapshotJson s) /\
  ModesRestoreJson (ModesSnapshotJson s) fresh = Some (reloaded s fresh) /\
  forall sid, is_ready (ready (reloaded s fresh)) sid = is_ready (ready s) sid.
Proof.
  intros Hs. destruct (modes_plain s Hs). split_and!; [by apply Parse_Dump|by apply modes_back|].
  intros sid. unfold is_ready, reloaded. cbn. rewrite map_lookup_filter. destruct (ready s !! sid) as [[]|]; [|done|done]. cbn. by rewrite option_guard_True.
Qed.

(** The state of a match that is live. *)
Definition live_state : State := st (run sample_history BootWorld) <| ready := {[ 11 := true; 22 := false ]} |> <| lastKick := {[ 11 := 7 ]} |>.
Lemma sample_saved_ok : saved_ok live_state.
Proof.
  unfold saved_ok. split_and!.
  - unfold saved_ints. repeat (apply List.Forall_cons; [split; vm_compute; congruence|]). apply List.Forall_nil.
  - unfold saved_times. repeat (apply List.Forall_cons; [split; vm_compute; congruence|]). apply List.Forall_nil.
  - intros sid r H. assert (sid ∈ [11; 22]) as Hs.
    { assert (sid ∈ dom (ready live_state)) as Hd by by apply elem_of_dom_2 in H. change (ready live_state) with ({[ 11 := true; 22 := false ]} : gmap Z bool) in Hd. set_solver. }
    rewrite !elem_of_cons, elem_of_nil in Hs. unfold uint64_ok. lia.
Qed.
Lemma modes_reload_witness :
  saved_ok live_state /\ mode (reloaded live_state BootState) = MatchLive /\ lastKick (reloaded live_state BootState) = ∅ /\
  ModesRestoreJson (ModesSnapshotJson live_state) BootState = Some (reloaded live_state BootState).
Proof. split; [exact sample_saved_ok|]. split_and!; [vm_compute; reflexivity..|]. apply (modes_reload _ _ sample_saved_ok). Defined.

(** ** The match *)

#[export] Instance Roster_eta : Eta Roster := fun r =>
  {| coach_team := coach_team r; substitutes := substitutes r; roster_team := roster_team r; roster_names := roster_names r |}.
#[export] Instance MatchRules_eta : Eta MatchRules := fun r =>
  {| tech_pauses_per_team := tech_pauses_per_team r; tech_pause_max_seconds := tech_pause_max_seconds r; disconnect_pause_max_seconds
     := disconnect_pause_max_seconds r; both_teams_unpause := both_teams_unpause r; allow_force_ready := allow_force_ready r;
     team_ready := team_ready r; min_players_to_ready := min_players_to_ready r; min_spectators_to_ready := min_spectators_to_ready r;
     forfeit_after_seconds := forfeit_after_seconds r; gg_enabled := gg_enabled r; gg_threshold_pct := gg_threshold_pct r;
     gg_min_score_diff := gg_min_score_diff r; stop_command_available := stop_command_available r; stop_command_no_damage :=
     stop_command_no_damage r; stop_vote_seconds := stop_vote_seconds r; pause_after_restore := pause_after_restore r |}.
#[export] Instance WebhookMatchContext_eta : Eta WebhookMatchContext := fun r =>
  {| c_matchid := c_matchid r; c_slug := c_slug r; c_num_maps := c_num_maps r; c_team1 := c_team1 r; c_team2 := c_team2 r;
     c_knifeDecisionSeconds := c_knifeDecisionSeconds r; c_maxRounds := c_maxRounds r; c_overtime_enabled := c_overtime_enabled r;
     c_overtimeSegments := c_overtimeSegments r; c_maxOvertimes := c_maxOvertimes r; c_damageTiebreakEnabled := c_damageTiebreakEnabled
     r; c_suddenDeathOnDamageTie := c_suddenDeathOnDamageTie r; c_map_sides := c_map_sides r; c_clinch_series := c_clinch_series r;
     c_maplist := c_maplist r; c_spectators := c_spectators r; c_admins := c_admins r; c_cvars := c_cvars r; c_roster := c_roster r;
     c_rules := c_rules r; c_ruleset := c_ruleset r; c_overrides_json := c_overrides_json r; c_coaches := c_coaches r;
     c_coaches_per_team := c_coaches_per_team r; c_players_per_team := c_players_per_team r; c_playout := c_playout r; c_whitelist :=
     c_whitelist r; c_autoready := c_autoready r; c_ruleset_notes := c_ruleset_notes r; c_roster_names_rule := c_roster_names_rule r;
     c_wingman := c_wingman r; c_demo_record := c_demo_record r; c_demo_upload := c_demo_upload r; c_bot_fill := c_bot_fill r;
     c_full_team_deadline_ms := c_full_team_deadline_ms r; c_walkover_short := c_walkover_short r; c_walkover_expires_ms :=
     c_walkover_expires_ms r; c_walkover_choosers := c_walkover_choosers r; c_simulation := c_simulation r; c_simulation_timescale :=
     c_simulation_timescale r |}.

Lemma int_here (o : list (string * Json)) key n v : find_member key o = Some (JInt n) -> int32_ok n -> Int (Some (JObject o)) key v = Some n.
Proof. apply get_i_here. Qed.
Lemma bool_here (o : list (string * Json)) key b v : find_member key o = Some (JBool b) -> Bool (Some (JObject o)) key v = b.
Proof. apply get_b_here. Qed.
Lemma str_here (o : list (string * Json)) key t : find_member key o = Some (JString t) -> Str (Some (JObject o)) key = t.
Proof. intros Hf. unfold Str, key_of. cbn. unfold Find. cbn [Members]. by rewrite Hf. Qed.
Lemma u64_here n : uint64_ok n -> ToU64 (Some (U64 n)) = n.
Proof. apply strtoull_to_string. Qed.
Lemma strings_here (l : list string) : AsString <$> (JString <$> l) = l.
Proof. rewrite <- list_fmap_compose. by apply list_fmap_id. Qed.

Lemma ids_back (s : gset Z) : set_Forall uint64_ok s -> foldl (fun (acc : gset Z) x => {[ ToU64 (Some x) ]} ∪ acc) ∅ (U64 <$> elements s) = s.
Proof.
  intros Hs. rewrite (foldl_singleton (fun x => ToU64 (Some x))), <- list_fmap_compose, (right_id_L ∅ (∪)).
  rewrite (list_fmap_ext _ id), list_fmap_id, list_to_set_elements_L; [done|]. intros i x Hx. apply u64_here, Hs, elem_of_elements. by eapply list_elem_of_lookup_2.
Qed.

Definition ids_ok {A} (m : gmap Z A) : Prop := map_Forall (fun k _ => uint64_ok k) m.
(** A map written as an object and read member by member. *)
Lemma members_back {A} (enc : A -> Json) (step : gmap Z A -> string * Json -> gmap Z A) (m : gmap Z A) :
  ids_ok m -> (forall acc k v, uint64_ok k -> step acc (to_string k, enc v) = <[k := v]> acc) ->
  foldl step ∅ ((fun kv : Z * A => (to_string kv.1, enc kv.2)) <$> map_to_list m) = m.
Proof.
  intros Hm Hstep. rewrite <- (foldl_insert m (map_to_list m)) at 2 by done.
  assert (Forall (fun kv : Z * A => uint64_ok kv.1) (map_to_list m)) as Hall.
  { apply Forall_forall. intros [k v] Hk. apply elem_of_map_to_list in Hk. apply (Hm k v Hk). }
  generalize (∅ : gmap Z A) as acc. induction Hall as [|[k v] l Hk _ IH]; intros acc; [done|]. cbn. by rewrite Hstep, IH.
Qed.
Lemma teams_back (m : gmap Z WebhookTeam) : ids_ok m -> foldl read_team (Some ∅) (Members (teams_json m)) = Some m.
Proof.
  intros Hm. rewrite <- (members_back (fun t => JInt (team_int t)) (fun m kv => default m (read_team (Some m) kv)) m Hm) at 2.
  - cbn [Members teams_json]. generalize (∅ : gmap Z WebhookTeam) as acc. induction (map_to_list m) as [|[k t] l IH]; intros acc; [done|].
    cbn [fmap list_fmap foldl fst snd]. unfold read_team at 2 4. cbn. rewrite team_int_32, team_of_int. cbn. apply IH.
  - intros acc k t Hk. unfold read_team. cbn. rewrite team_int_32, team_of_int. cbn. by rewrite strtoull_to_string.
Qed.
Lemma names_back (m : gmap Z string) : ids_ok m ->
  foldl (fun m kv => <[strtoull kv.1 := AsString kv.2]> m) ∅ ((fun kv : Z * string => (to_string kv.1, JString kv.2)) <$> map_to_list m) = m.
Proof. intros Hm. apply (members_back JString _ m Hm). intros acc k v Hk. cbn. by rewrite strtoull_to_string. Qed.
Lemma cvars_back (m : gmap string string) :
  foldl (fun m kv => <[kv.1 := AsString kv.2]> m) ∅ ((fun kv : string * string => (kv.1, JString kv.2)) <$> map_to_list m) = m.
Proof.
  rewrite <- (foldl_insert m (map_to_list m)) at 2 by done. generalize (∅ : gmap string string) as acc.
  induction (map_to_list m) as [|[k v] l IH]; intros acc; [done|]. apply IH.
Qed.

Definition rule_ints (r : MatchRules) : list Z :=
  [tech_pauses_per_team r; tech_pause_max_seconds r; both_teams_unpause r; allow_force_ready r; team_ready r; min_players_to_ready r;
   min_spectators_to_ready r; forfeit_after_seconds r; gg_enabled r; gg_threshold_pct r; gg_min_score_diff r; stop_command_available r;
   stop_command_no_damage r; stop_vote_seconds r; pause_after_restore r].
Definition context_ints (c : WebhookMatchContext) : list Z :=
  [c_num_maps c; c_knifeDecisionSeconds c; c_maxRounds c; c_overtimeSegments c; c_maxOvertimes c; c_players_per_team c; c_playout c; c_whitelist c;
   c_autoready c; c_roster_names_rule c; c_coaches_per_team c].
(** The numbers fit their C++ types. *)
Record context_ok (c : WebhookMatchContext) : Prop := {
  ok_ints : Forall int32_ok (context_ints c); ok_rules : Forall int32_ok (rule_ints (c_rules c));
  ok_ids : Forall uint64_ok [c_matchid c; t_captain (c_team1 c); t_captain (c_team2 c)];
  ok_sets : Forall (set_Forall uint64_ok) [c_spectators c; c_admins c; c_coaches c; substitutes (c_roster c)];
  ok_teams : Forall ids_ok [roster_team (c_roster c); coach_team (c_roster c)]; ok_names : ids_ok (roster_names (c_roster c)) }.

(** What the next image does not get. *)
Definition forgotten (c : WebhookMatchContext) : WebhookMatchContext :=
  c <| c_rules := c_rules c <| disconnect_pause_max_seconds := -1 |> |> <| c_demo_record := -1 |> <| c_demo_upload := -1 |>
    <| c_full_team_deadline_ms := 0 |> <| c_walkover_short := TeamUnknown |> <| c_walkover_expires_ms := 0 |> <| c_walkover_choosers := ∅ |>
    <| c_ruleset_notes := [] |>.

Lemma rules_back r : Forall int32_ok (rule_ints r) -> read_rules (rules_json r) = Some (r <| disconnect_pause_max_seconds := -1 |>).
Proof.
  unfold rule_ints. repeat rewrite Forall_cons. intros Hr. destruct_and!. unfold read_rules, rules_json.
  repeat (erewrite int_here; [|reflexivity|done]; cbn [mbind option_bind]). by destruct r.
Qed.
Lemma member_here (o : list (string * Json)) key j : find_member key o = Some j -> Find (JObject o) key = Some j.
Proof. done. Qed.

Lemma context_back c : context_ok c -> ContextFromJson (ContextToJson c) = Some (forgotten c).
Proof.
  intros [Hi Hr Hu Hs Ht Hn]. unfold context_ints in Hi. repeat rewrite Forall_cons in Hi. repeat rewrite Forall_cons in Hu.
  repeat rewrite Forall_cons in Hs. repeat rewrite Forall_cons in Ht. destruct_and!.
  unfold ContextFromJson, ContextToJson, ids_of, teams_of, items_of, members_of.
  repeat (erewrite int_here; [|reflexivity|done]; cbn [mbind option_bind]).
  repeat (erewrite member_here; [|reflexivity]; cbn [Items Members]).
  rewrite !teams_back, rules_back by done. cbn [mbind option_bind].
  repeat first [ erewrite bool_here; [|reflexivity] | erewrite str_here; [|reflexivity] ].
  unfold ids_json. cbn [Items]. rewrite !ids_back, !u64_here, !strings_here, names_back, cvars_back by done. cbn [AsDouble].
  by destruct c as [? ? ? [] [] ? ? ? ? ? ? ? ? ? ? ? ? ? []].
Qed.

(** Claim C32.  The loaded match survives a plugin reload but for seven of its settings: for every match whose numbers fit their C++
    types, what is read from the value written is the match itself, except that the pause limit after a disconnection, the two demo
    switches, the deadline for full teams, and the walkover offer are as for a match that set none, and the notes of the ruleset are gone. *)
Theorem context_reload (c : WebhookMatchContext) : context_ok c ->
  ContextFromJson (ContextToJson c) = Some (forgotten c) /\
  (forgotten c = c <-> disconnect_pause_max_seconds (c_rules c) = -1 /\ c_demo_record c = -1 /\ c_demo_upload c = -1 /\ c_full_team_deadline_ms c = 0 /\
                       c_walkover_short c = TeamUnknown /\ c_walkover_expires_ms c = 0 /\ c_walkover_choosers c = ∅ /\ c_ruleset_notes c = []).
Proof.
  intros Hc. split; [by apply context_back|]. split.
  - intros E. repeat (split; [first [by rewrite <- E]|]). by rewrite <- E.
  - destruct c as [? ? ? ? ? ? ? ? ? ? ? ? ? ? ? ? ? ? ? rules]. destruct rules. cbn. intros (-> & -> & -> & -> & -> & -> & -> & ->). done.
Qed.

(** A match whose demos are off and that a team may win by walkover. *)
Definition demo_ctx : WebhookMatchContext := sample_ctx <| c_demo_record := 0 |> <| c_walkover_short := Team2 |> <| c_walkover_expires_ms := 5000 |>.
Lemma demo_ctx_ok : context_ok demo_ctx.
Proof.
  assert (forall (m : gmap Z WebhookTeam) k t, m = {[ 11 := Team1; 22 := Team2 ]} -> m !! k = Some t -> k = 11 \/ k = 22) as Hm.
  { intros m k t -> H. apply elem_of_dom_2 in H. set_solver. }
  split.
  - repeat (apply List.Forall_cons; [split; vm_compute; congruence|]). apply List.Forall_nil.
  - repeat (apply List.Forall_cons; [split; vm_compute; congruence|]). apply List.Forall_nil.
  - repeat (apply List.Forall_cons; [split; vm_compute; congruence|]). apply List.Forall_nil.
  - repeat (apply List.Forall_cons; [intros ? H; set_solver|]). apply List.Forall_nil.
  - repeat apply List.Forall_cons; [|by apply map_Forall_empty|apply List.Forall_nil].
    intros k t H. destruct (Hm _ k t eq_refl H) as [-> | ->]; unfold uint64_ok; lia.
  - by apply map_Forall_empty.
Qed.
Lemma context_reload_witness :
  context_ok demo_ctx /\ forgotten demo_ctx <> demo_ctx /\
  (c_demo_record <$> ContextFromJson (ContextToJson demo_ctx)) = Some (-1) /\ (c_maplist <$> ContextFromJson (ContextToJson demo_ctx)) = Some ["de_nuke"; "de_mirage"].
Proof.
  split; [exact demo_ctx_ok|]. destruct (context_reload demo_ctx demo_ctx_ok) as [E1 E2]. rewrite E1.
  split; [|split; vm_compute; reflexivity]. intros E. apply (proj1 E2) in E. destruct E as (_ & E & _). discriminate E.
Defined.

End ReloadFacts.
