(* ===== verification/ScrimFlow.v ===== *)
(** * The scrim flow

    [plugins/match/readyup/scrim_flow.cpp]: players who join an idle server warm up, and when everyone on both sides is
    ready for five seconds a match is made of them.  The flow keeps a record of its own ([Flow]) and drives the match modes
    through their operations; [G] is the monad over both.  Times are in nanoseconds, 0 is a time that was never set.  A
    roster is kept in the order of [map_to_list]. *)

From S2P Require Import Prelude CStr Double MatchRules MatchConfig SlotRegistry MapNames Modes ModesLive ModesTick ModesJson.

Module Scrim.
Import Mo Live Ticks ModeJson.

(** ** State *)

Record Flow := {
  autoEnabled : bool; lastMap : string; lastRun : Z; lastReminder : Z; noTeamSince : Z; noHumansSince : Z; countdownActive : bool; countdownDeadline : Z;
  countdownLastAnnounced : Z; lastLoggedMode : string; lastSig : string; lastStateLog : Z }.
#[export] Instance Flow_eta : Eta Flow := fun r =>
  {| autoEnabled := autoEnabled r; lastMap := lastMap r; lastRun := lastRun r; lastReminder := lastReminder r; noTeamSince := noTeamSince r;
     noHumansSince := noHumansSince r; countdownActive := countdownActive r; countdownDeadline := countdownDeadline r;
     countdownLastAnnounced := countdownLastAnnounced r; lastLoggedMode := lastLoggedMode r; lastSig := lastSig r; lastStateLog := lastStateLog r |}.
Definition BootFlow : Flow :=
  {| autoEnabled := true; lastMap := EmptyString; lastRun := 0; lastReminder := 0; noTeamSince := 0; noHumansSince := 0; countdownActive := false;
     countdownDeadline := 0; countdownLastAnnounced := -1; lastLoggedMode := EmptyString; lastSig := EmptyString; lastStateLog := 0 |}.

Record Game := { flow : Flow; modes : World }.
#[export] Instance Game_eta : Eta Game := fun r => {| flow := flow r; modes := modes r |}.
Definition BootGame : Game := {| flow := BootFlow; modes := BootWorld |}.

Definition G (A : Type) : Type := Game -> A * Game.
#[export] Instance G_ret : MRet G := fun A a g => (a, g).
#[export] Instance G_bind : MBind G := fun A B k m g => let '(a, g') := m g in k a g'.
Definition look {A} (f : Game -> A) : G A := fun g => (f g, g).
Definition fupd (f : Flow -> Flow) : G unit := fun g => (tt, g <| flow := f (flow g) |>).
(** An operation of the modes. *)
Definition lift {A} (m : M A) : G A := fun g => let '(a, w) := m (modes g) in (a, g <| modes := w |>).
Definition gwhen (b : bool) (m : G unit) : G unit := if b then m else mret tt.

(** What the flow asks beside the modes' environment; a bot is its pseudo id and its team. *)
Record ScrimEnv := {
  base : Env; botList : list (Z * Z); devBotsReady : bool; devBotsScrim : bool; scrimWhenIdle : bool; knifeDefault : bool; wallMs : Z; eventsOn : bool;
  rulesetTag : option string; effRules : MatchRules; rulesReport : list string; debugOn : bool; clientPrint : bool }.

(** ** The players *)

Record ScrimRoster := { teamNum : gmap Z Z; spectators : gset Z; devBots : gmap Z Z }.
#[export] Instance ScrimRoster_eta : Eta ScrimRoster := fun r => {| teamNum := teamNum r; spectators := spectators r; devBots := devBots r |}.
Record ScrimCounts := { humansCt : Z; humansT : Z; devBotsCt : Z; devBotsT : Z; nReady : Z; total : Z; bothSides : bool; allReady : bool }.

Definition plays (team : Z) : bool := (team =? 2) || (team =? 3).
Definition add_human (r : ScrimRoster) (h : Person) : ScrimRoster :=
  if p_sid h =? 0 then r
  else if plays (p_team h) then r <| teamNum := <[p_sid h := p_team h]> (teamNum r) |>
  else r <| spectators := {[ p_sid h ]} ∪ spectators r |>.
Definition add_bot (r : ScrimRoster) (b : Z * Z) : ScrimRoster := if plays b.2 then r <| devBots := <[b.1 := b.2]> (devBots r) |> else r.
Definition count_if {A} (f : Z * A -> bool) (m : gmap Z A) : Z := zlen (List.filter f (map_to_list m)).

Section Ops.
Context (X : ScrimEnv).
Local Abbreviation E := (base X).

Definition BuildScrimRoster : ScrimRoster :=
  let r := foldl add_human {| teamNum := ∅; spectators := ∅; devBots := ∅ |} (humans E) in
  if devBotsReady X || devBotsScrim X then foldl add_bot r (botList X) else r.

(** [BotsOnlyScrim], from its counts. *)
Definition bots_only (total bct bt : Z) : bool := (total =? 0) && (0 <? bct) && (0 <? bt) && devBotsScrim X.
Definition BotsOnlyScrim (c : ScrimCounts) : bool := bots_only (total c) (devBotsCt c) (devBotsT c).
Definition CountScrimRoster (r : ScrimRoster) (rdy : gmap Z bool) : ScrimCounts :=
  let ct := count_if (fun kv => kv.2 =? 3) (teamNum r) in
  let t := count_if (fun kv => kv.2 =? 2) (teamNum r) in
  let bct := count_if (fun kv => kv.2 =? 3) (devBots r) in
  let bt := count_if (fun kv => kv.2 =? 2) (devBots r) in
  let n := count_if (fun kv => is_ready rdy kv.1) (teamNum r) in
  let total := ct + t in
  {| humansCt := ct; humansT := t; devBotsCt := bct; devBotsT := bt; nReady := n; total := total; bothSides := (0 <? ct + bct) && (0 <? t + bt);
     allReady := ((0 <? total) && (n =? total)) || bots_only total bct bt |}.

Definition NameFor (sid : Z) : string :=
  match List.find (fun h => (p_sid h =? sid) && negb (sempty (p_name h))) (humans E) with Some h => p_name h | None => to_string sid end.
(** The names of those who are not ready, [maxNames] at most; [list], [n]: so far. *)
Fixpoint not_ready_names (rdy : gmap Z bool) (maxNames : Z) (l : list (Z * Z)) (list : string) (n : Z) : string :=
  match l with
  | [] => list
  | kv :: l =>
      if is_ready rdy kv.1 then not_ready_names rdy maxNames l list n
      else if maxNames <=? n then list +s+ ", ..."
      else not_ready_names rdy maxNames l (list +s+ (if sempty list then EmptyString else ", ") +s+ NameFor kv.1) (n + 1)
  end.
Definition NotReadyNames (r : ScrimRoster) (rdy : gmap Z bool) (maxNames : Z) : string :=
  not_ready_names rdy maxNames (map_to_list (teamNum r)) EmptyString 0.

(** ** The state line *)

Definition bit (b : bool) : string := if b then "1" else "0".
Definition IsWarmupMode (m : ReadyUpMode) : bool := is_mode m ScrimWarmup || is_mode m MatchWarmup.
Definition MatchLabel (c : option WebhookMatchContext) : string :=
  match c with None => "none" | Some c => (if sempty (c_slug c) then "match" else c_slug c) +s+ ":" +s+ to_string (c_matchid c) end.
(** The ready counts of a loaded match: ready, all. *)
Definition MatchReadyCounts (c : WebhookMatchContext) (rdy : gmap Z bool) : Z * Z :=
  let l := List.filter (fun kv : Z * WebhookTeam => negb (kv.1 =? 0)) (map_to_list (roster_team (c_roster c))) in
  (zlen (List.filter (fun kv => is_ready rdy kv.1) l), zlen l).
Definition bots_on (team : Z) : Z := zlen (List.filter (fun b : Z * Z => b.2 =? team) (botList X)).
Definition ready_counts (g : Game) : Z * Z :=
  let w := modes g in
  let c := CountScrimRoster BuildScrimRoster (ready (st w)) in
  match ctx w with Some m => MatchReadyCounts m (ready (st w)) | None => (nReady c, total c) end.
Definition map_text : string := if sempty (current_map (ms E)) then "?" else current_map (ms E).
Definition go_live_pending (s : State) : bool := is_mode (mode s) MatchWarmup && startTriggered s.

Definition BuildStateFields (g : Game) : string :=
  let f := flow g in
  let w := modes g in
  let s := st w in
  let roster := BuildScrimRoster in
  let c := CountScrimRoster roster (ready s) in
  let '(rdy, tot) := ready_counts g in
  "mode=" +s+ ModeToString (mode s) +s+ " warmup=" +s+ bit (IsWarmupMode (mode s)) +s+
  " ct=" +s+ to_string (humansCt c) +s+ "+" +s+ to_string (bots_on 3) +s+ " t=" +s+ to_string (humansT c) +s+ "+" +s+ to_string (bots_on 2) +s+
  " spec=" +s+ to_string (Z.of_nat (size (spectators roster))) +s+ " ready=" +s+ to_string rdy +s+ "/" +s+ to_string tot +s+
  " match=" +s+ MatchLabel (ctx w) +s+ " events=" +s+ bit (eventsOn X) +s+ " map=" +s+ map_text +s+ " scrim_auto=" +s+ bit (autoEnabled f) +s+
  " dev_bots_ready=" +s+ bit (devBotsReady X) +s+ " dev_bots_scrim=" +s+ bit (devBotsScrim X) +s+
  (if countdownActive f then " countdown=" +s+ to_string (Z.max 0 ((countdownDeadline f - now E) ÷ 1000000000 + 1)) else EmptyString) +s+
  (match ctx w, rulesetTag X with Some _, Some r => " ruleset=" +s+ r | _, _ => EmptyString end) +s+
  (if go_live_pending s then " golive=pending" else EmptyString) +s+
  (match KnifePhaseString s with Some k => " knife=" +s+ k | None => EmptyString end).

Definition EmitStateLog (reason : string) : G unit :=
  fields ← look BuildStateFields; m ← look (fun g => ModeToString (mode (st (modes g))));
  lift (emit (StateLog fields reason)) ;;
  fupd (fun f => f <| lastSig := fields |> <| lastLoggedMode := m |> <| lastStateLog := now E |>).
Definition ScrimNoteReadyChanged : G unit := EmitStateLog "ready".

(** The seconds of a running countdown do not count as a change. *)
Definition stripCountdown (s : string) : string :=
  match find " countdown=" s with
  | None => s
  | Some p =>
      let v := (p + 11)%nat in
      match find " " (sdrop v s) with
      | None => stake v s +s+ "*"
      | Some e => stake v s +s+ "*" +s+ sdrop (v + e) s
      end
  end.

(** ** The countdown *)

Definition CancelCountdown : G unit := fupd (fun f => f <| countdownActive := false |> <| countdownDeadline := 0 |> <| countdownLastAnnounced := -1 |>).
Definition chat (key : string) (args : Args) : G unit := lift (emit (ChatAll key args)).
Definition ReadyArgs (c : ScrimCounts) : Args := [("ready", to_string (nReady c)); ("total", to_string (total c))].

Definition SendReminder (r : ScrimRoster) (c : ScrimCounts) : G unit :=
  if hudReplacesChat E then mret tt
  else
    waiting ← look (fun g => NotReadyNames r (ready (st (modes g))) 5);
    chat (if sempty waiting then "scrim.reminder" else "scrim.reminder_waiting") (ReadyArgs c ++ [("names", waiting)]) ;;
    gwhen (negb (bothSides c)) (chat (if devBotsReady X then "scrim.need_both_sides_bots" else "scrim.need_both_sides") []).

(** ** The match of a scrim *)

Definition team_of_side (team : Z) : WebhookTeam := if team =? 3 then Team1 else Team2.
Definition scrim_roster (r : ScrimRoster) : gmap Z WebhookTeam :=
  team_of_side <$> filter (fun kv : Z * Z => IsDevBotId kv.1 = false) (teamNum r).
Definition scrim_context (r : ScrimRoster) : WebhookMatchContext := {|
  c_matchid := wallMs X; c_slug := "scrim"; c_num_maps := 1; c_team1 := {| t_name := "Team1"; t_id := EmptyString; t_flag := EmptyString; t_captain := 0 |};
  c_team2 := {| t_name := "Team2"; t_id := EmptyString; t_flag := EmptyString; t_captain := 0 |};
  c_knifeDecisionSeconds := Z.max 5 (Z.min 300 (knifePickSeconds E)); c_maxRounds := 24; c_overtime_enabled := true; c_overtimeSegments := 3;
  c_maxOvertimes := -1; c_damageTiebreakEnabled := false; c_suddenDeathOnDamageTie := true; c_map_sides := [if knifeDefault X then "knife" else "team1_ct"];
  c_clinch_series := true; c_maplist := if sempty (current_map (ms E)) then [] else [current_map (ms E)]; c_spectators := spectators r; c_admins := ∅;
  c_cvars := ∅; c_roster := {| coach_team := ∅; substitutes := ∅; roster_team := scrim_roster r; roster_names := ∅ |}; c_rules := UnsetRules;
  c_ruleset := EmptyString; c_overrides_json := EmptyString; c_coaches := ∅; c_coaches_per_team := 2; c_players_per_team := 0; c_playout := -1;
  c_whitelist := -1; c_autoready := -1; c_ruleset_notes := []; c_roster_names_rule := -1; c_wingman := false; c_demo_record := -1; c_demo_upload := -1;
  c_bot_fill := false; c_full_team_deadline_ms := 0; c_walkover_short := TeamUnknown; c_walkover_expires_ms := 0; c_walkover_choosers := ∅;
  c_simulation := false; c_simulation_timescale := of_int 1 |}.

Fixpoint restore_ready (l : list Z) : M unit :=
  match l with
  | [] => mret tt
  | sid :: l => r ← gets (fun w => is_ready (ready (st w)) sid); when (negb r) (SetReady sid true ;; mret tt) ;; restore_ready l
  end.

Definition go_live_now : M unit := ok ← ScrimGoLive E 1; emit (ChatAll (if ok : bool then "scrim.starting" else "scrim.golive_failed") []).
Definition MaybeStartScrimIfAllReady (r : ScrimRoster) : M bool :=
  c ← gets ctx; s ← gets st;
  let counts := CountScrimRoster r (ready s) in
  if match c with Some _ => true | None => false end then mret false
  else if negb (is_mode (mode s) ScrimWarmup) then mret false
  else if bool_decide (teamNum r = ∅) && (bool_decide (devBots r = ∅) || negb (devBotsScrim X)) then mret false
  else if negb (bothSides counts) then mret false
  else if negb (allReady counts) then mret false
  else
    let readyBefore := fst <$> List.filter (fun kv : Z * Z => is_ready (ready s) kv.1) (map_to_list (teamNum r)) in
    change (fun w => w <| ctx := Some (scrim_context r) |>) ;;
    OnMatchLoaded E ;;
    emits [SeriesStart; Heartbeat "warmup"] ;;
    restore_ready readyBefore ;;
    (if knifeDefault X
     then
       ok ← StartKnifeRound E;
       when (negb ok) (change (fun w => w <| ctx := WebhookUpdateMapSide 1 "team1_ct" <$> ctx w |>) ;; go_live_now)
     else go_live_now) ;;
    mret true.

Definition EndEmptyScrim : M unit :=
  emit (SeriesEnd 0 0 "none" 0) ;; change (fun w => w <| ctx := None |>) ;; ClearReadyStates ;; EndMatchResetServer E ;; mret tt.

(** ** The tick *)

Definition kTickInterval : Z := 250000000.
Definition kReminderInterval : Z := 30 * kSecond.
Definition kPeriodicStateLog : Z := 30 * kSecond.
Definition kNoTeamGrace : Z := 5 * kSecond.
Definition kEmptyScrimTimeout : Z := 60 * kSecond.
Definition kCountdownSeconds : Z := 5.

Definition quiet_chat (key : string) (args : Args) : G unit := gwhen (negb (hudReplacesChat E)) (chat key args).

(** Nobody on a side. *)
Definition no_team_step : G unit :=
  CancelCountdown ;;
  fupd (fun f => if noTeamSince f =? 0 then f <| noTeamSince := now E |> else f) ;;
  f ← look flow;
  gwhen (kNoTeamGrace <=? now E - noTeamSince f) (fupd (fun f => f <| noTeamSince := 0 |>) ;; lift (ClearReadyStates ;; SetModeIdle E)).
(** The countdown is running. *)
Definition countdown_step (r : ScrimRoster) (c : ScrimCounts) : G unit :=
  f ← look flow;
  if negb (allReady c) || negb (bothSides c)
  then CancelCountdown ;; quiet_chat "scrim.countdown_cancelled" (ReadyArgs c) ;; fupd (fun f => f <| lastReminder := now E |>)
  else
    let leftMs := (countdownDeadline f - now E) ÷ 1000000 in
    if leftMs <=? 0
    then CancelCountdown ;; ok ← lift (MaybeStartScrimIfAllReady r); gwhen (negb ok) (chat "scrim.start_failed" [])
    else
      let secs := to_int32 ((leftMs + 999) ÷ 1000) in
      gwhen ((secs <=? 3) && negb (secs =? countdownLastAnnounced f))
        (fupd (fun f => f <| countdownLastAnnounced := secs |>) ;;
         quiet_chat (if knifeDefault X then "scrim.knife_in" else "scrim.live_in") [("seconds", to_string secs)]).
Definition ScrimWarmupStep (r : ScrimRoster) (c : ScrimCounts) : G unit :=
  if (total c =? 0) && negb (BotsOnlyScrim c) then no_team_step
  else
    fupd (fun f => f <| noTeamSince := 0 |>) ;;
    f ← look flow;
    if countdownActive f then countdown_step r c
    else if allReady c && bothSides c
    then
      fupd (fun f => f <| countdownActive := true |> <| countdownDeadline := now E + kCountdownSeconds * kSecond |>
                       <| countdownLastAnnounced := kCountdownSeconds |>) ;;
      quiet_chat (if knifeDefault X then "scrim.all_ready_knife" else "scrim.all_ready_live")
        [("count", to_string (total c)); ("seconds", to_string kCountdownSeconds)]
    else
      gwhen ((lastReminder f =? 0) || (kReminderInterval <=? now E - lastReminder f))
        (fupd (fun f => f <| lastReminder := now E |>) ;; gwhen (negb (readyHudShowing E)) (SendReminder r c)).

(** A new map enables the scrims again. *)
Definition map_change : G unit :=
  fupd (fun f => if current_map (ms E) =s lastMap f then f
                 else f <| lastMap := current_map (ms E) |> <| autoEnabled := true |> <| countdownActive := false |> <| countdownDeadline := 0 |>
                        <| countdownLastAnnounced := -1 |>).
(** No match is loaded. *)
Definition idle_part (r : ScrimRoster) (c : ScrimCounts) : G unit :=
  fupd (fun f => f <| noHumansSince := 0 |>) ;;
  f ← look flow; m ← look (fun g => mode (st (modes g)));
  gwhen (is_mode m Idle && autoEnabled f && scrimWhenIdle X && ((0 <? total c) || BotsOnlyScrim c))
    (ok ← lift SetModeScrimWarmup;
     gwhen ok
       (lift (emit (Heartbeat "idle")) ;; CancelCountdown ;; fupd (fun f => f <| noTeamSince := 0 |> <| lastReminder := now E |>) ;;
        quiet_chat "scrim.warmup" (ReadyArgs c))) ;;
  m ← look (fun g => mode (st (modes g)));
  if is_mode m ScrimWarmup then ScrimWarmupStep r c else CancelCountdown.
(** A match is loaded. *)
Definition match_part (m : WebhookMatchContext) : G unit :=
  CancelCountdown ;;
  fupd (fun f => f <| noTeamSince := 0 |>) ;;
  if (c_slug m =s "scrim") && (zlen (humans E) =? 0) && negb (devBotsScrim X)
  then
    fupd (fun f => if noHumansSince f =? 0 then f <| noHumansSince := now E |> else f) ;;
    f ← look flow;
    gwhen (kEmptyScrimTimeout <=? now E - noHumansSince f) (fupd (fun f => f <| noHumansSince := 0 |>) ;; lift EndEmptyScrim)
  else fupd (fun f => f <| noHumansSince := 0 |>).
(** The state line: at every change, and now and then while players are there. *)
Definition log_part : G unit :=
  f ← look flow; m ← look (fun g => ModeToString (mode (st (modes g)))); sig ← look BuildStateFields;
  if negb (m =s lastLoggedMode f) then EmitStateLog "mode"
  else if negb (stripCountdown sig =s stripCountdown (lastSig f)) then EmitStateLog "change"
  else gwhen ((0 <? zlen (humans E)) && ((lastStateLog f =? 0) || (kPeriodicStateLog <=? now E - lastStateLog f))) (EmitStateLog "periodic").

Definition throttled (f : Flow) : bool := negb (lastRun f =? 0) && (now E - lastRun f <? kTickInterval).
Definition ScrimTick : G unit :=
  f ← look flow;
  if disabled E || throttled f then mret tt
  else
    fupd (fun f => f <| lastRun := now E |>) ;;
    map_change ;;
    w ← look modes;
    let r := BuildScrimRoster in
    let c := CountScrimRoster r (ready (st w)) in
    match ctx w with None => idle_part r c | Some m => match_part m end ;;
    log_part.

(** ** The other operations *)

Definition ScrimSetAutoEnabled (on : bool) : G unit := fupd (fun f => f <| autoEnabled := on |>) ;; gwhen (negb on) CancelCountdown.
Definition ScrimAutoEnabled (f : Flow) : bool := autoEnabled f && scrimWhenIdle X.
Definition ScrimCountdownSecondsLeft (f : Flow) : Z :=
  if negb (countdownActive f) then -1 else to_int32 (Z.max 0 (((countdownDeadline f - now E) ÷ 1000000 + 999) ÷ 1000)).
Definition ScrimRestore (on : bool) (map : string) : G unit := fupd (fun f => f <| autoEnabled := on |> <| lastMap := map |>).

(** ** The report *)

Definition TeamTag (team : Z) : string := if team =? 3 then "CT" else if team =? 2 then "T" else if team =? 1 then "spec" else "none".
Definition report_entry (w : World) (h : Person) : string :=
  (if sempty (p_name h) then to_string (p_sid h) else p_name h) +s+ " [" +s+ TeamTag (p_team h) +s+ "]" +s+
  (if plays (p_team h) || match ctx w with Some c => bool_decide (is_Some (roster_team (c_roster c) !! p_sid h)) | None => false end
   then if is_ready (ready (st w)) (p_sid h) then " READY" else " not ready" else EmptyString).
(** The entries in lines of 110 bytes or so. *)
Fixpoint wrap_entries (l : list string) (line : string) : list string :=
  match l with
  | [] => [line]
  | e :: l => if 110 <? slen line + slen e then line :: wrap_entries l ("players:" +s+ " " +s+ e +s+ ";") else wrap_entries l (line +s+ " " +s+ e +s+ ";")
  end.
Definition BuildStateReport (g : Game) : list string :=
  let w := modes g in
  let s := st w in
  let c := CountScrimRoster BuildScrimRoster (ready s) in
  let r := effRules X in
  let entries := merge_sort str_le (report_entry w <$> humans E) in
  let '(rdy, tot) := ready_counts g in
  ["state: mode=" +s+ ModeToString (mode s) +s+ " warmup=" +s+ (if IsWarmupMode (mode s) then "on" else "off") +s+ " match=" +s+ MatchLabel (ctx w) +s+
   " map=" +s+ map_text +s+ (if countdownActive (flow g) then " (countdown running)" else EmptyString) +s+
   (if go_live_pending s then " (go-live pending Round_Start)" else EmptyString) +s+
   (match KnifePhaseString s with Some k => " knife=" +s+ k | None => EmptyString end);
   "rules: tech_pauses=" +s+ to_string (tech_pauses_per_team r) +s+ " tech_max_s=" +s+ to_string (tech_pause_max_seconds r) +s+
   " unpause=" +s+ (if both_teams_unpause r =? 0 then "pauser" else "both") +s+ " force_ready=" +s+ to_string (allow_force_ready r) +s+
   " min_ready=" +s+ to_string (min_players_to_ready r) +s+ " forfeit_s=" +s+ to_string (forfeit_after_seconds r)] ++
  rulesReport X ++
  (match entries with [] => ["players: (no humans connected)"] | _ => wrap_entries entries "players:" end) ++
  ["ready " +s+ to_string rdy +s+ "/" +s+ to_string tot +s+ " | humans CT=" +s+ to_string (humansCt c) +s+ " T=" +s+ to_string (humansT c) +s+
   " | bots CT=" +s+ to_string (bots_on 3) +s+ " T=" +s+ to_string (bots_on 2) +s+ (if devBotsReady X then " (count as ready)" else EmptyString) +s+
   " | both sides: " +s+ (if bothSides c then "yes" else "no");
   "flags: dev_bots_ready=" +s+ bit (devBotsReady X) +s+ " dev_bots_scrim=" +s+ bit (devBotsScrim X) +s+ " debug=" +s+ bit (debugOn X) +s+
   " cfg_exec=" +s+ bit (cfgExecEnabled s) +s+ " scrim_auto=" +s+ bit (autoEnabled (flow g)) +s+ " | events=" +s+ bit (eventsOn X) +s+
   " clientprint=" +s+ bit (clientPrint X)].

End Ops.

End Scrim.
