(* ===== verification/ScrimFacts.v ===== *)
(** * The scrim flow: theorems

    The flow and the modes as one transition system, and what a scrim's start and end rest on. *)

From S2P Require Import Prelude CStr Double MatchRules MatchConfig SlotRegistry Modes ModesLive ModesEnd ModesTick ModesJson ModesRun ScrimFlow.

Module ScrimFacts.
Import Mo Live Ticks Run Scrim.

(** ** Histories *)

Inductive SOp := SModes (E : Env) (op : Op) | STick (X : ScrimEnv) | SNote (X : ScrimEnv) | SAuto (on : bool) | SRestore (on : bool) (map : string).
Definition sop_run (o : SOp) : G unit :=
  match o with
  | SModes E op => lift (run_op E op)
  | STick X => ScrimTick X
  | SNote X => ScrimNoteReadyChanged X
  | SAuto on => ScrimSetAutoEnabled on
  | SRestore on map => ScrimRestore on map
  end.
Definition sstep (g : Game) (o : SOp) : Game := (sop_run o g).2.
Definition srun (hist : list SOp) : Game := foldl sstep BootGame hist.
Lemma srun_app hist o : srun (hist ++ [o]) = sstep (srun hist) o.
Proof. unfold srun. by rewrite foldl_app. Qed.

(** ** Weakest preconditions *)

Definition gwp {A} (m : G A) (Q : A -> Game -> Prop) (g : Game) : Prop := Q (m g).1 (m g).2.
Lemma gwp_bind {A B} (m : G A) (k : A -> G B) Q g : gwp m (fun a => gwp (k a) Q) g -> gwp (m ≫= k) Q g.
Proof. unfold gwp, mbind, G_bind. by destruct (m g). Qed.
Lemma gwp_look {A B} (f : Game -> A) (k : A -> G B) Q g : gwp (k (f g)) Q g -> gwp (look f ≫= k) Q g.
Proof. done. Qed.
Lemma gwp_fupd {B} f (k : unit -> G B) Q g : gwp (k tt) Q (g <| flow := f (flow g) |>) -> gwp (fupd f ≫= k) Q g.
Proof. done. Qed.
Lemma gwp_mono {A} (m : G A) (Q Q' : A -> Game -> Prop) g : gwp m Q g -> (forall a g', Q a g' -> Q' a g') -> gwp m Q' g.
Proof. unfold gwp. auto. Qed.

(** What only speaks: the flow stays, the modes get effects. *)
Definition Spoken (g g' : Game) : Prop := flow g' = flow g /\ exists l, modes g' = modes g <| out := out (modes g) ++ l |>.
Definition speaks {A} (m : G A) : Prop := forall g, Spoken g (m g).2.
#[export] Instance Spoken_pre : PreOrder Spoken.
Proof.
  split.
  - intros g. split; [done|]. exists []. by rewrite app_nil_r, out_id.
  - intros g g' g'' (Hf & l & Hl) (Hf' & l' & Hl'). split; [congruence|]. exists (l ++ l'). rewrite Hl', Hl. cbn. by rewrite app_assoc.
Qed.
Lemma speaks_lift {A} (m : M A) : keeps Quiet m -> speaks (lift m).
Proof. intros H [f w]. unfold lift. cbn [modes flow]. destruct (H w) as (l & Hl & _). destruct (m w) as [a w']. cbn in *. subst w'. split; [done|]. by exists l. Qed.
Lemma speaks_bind {A B} (m : G A) (k : A -> G B) : speaks m -> (forall a, speaks (k a)) -> speaks (m ≫= k).
Proof. intros Hm Hk g. unfold mbind, G_bind. specialize (Hm g). destruct (m g) as [a g']. etrans; [exact Hm|apply Hk]. Qed.
Lemma speaks_when b m : speaks m -> speaks (gwhen b m).
Proof. intros H. destruct b; [exact H|intros g; reflexivity]. Qed.
Lemma speaks_ret {A} (a : A) : speaks (mret a).
Proof. intros g. reflexivity. Qed.
Lemma speaks_look {A} (f : Game -> A) : speaks (look f).
Proof. intros g. reflexivity. Qed.
Lemma speaks_chat key args : speaks (chat key args).
Proof. apply speaks_lift. auto with speak. Qed.
Lemma speaks_quiet_chat X key args : speaks (quiet_chat X key args).
Proof. apply speaks_when, speaks_chat. Qed.
Lemma speaks_reminder X r c : speaks (SendReminder X r c).
Proof.
  unfold SendReminder. case_match; [apply speaks_ret|]. apply speaks_bind; [apply speaks_look|]. intros waiting.
  apply speaks_bind; [apply speaks_chat|]. intros _. apply speaks_when, speaks_chat.
Qed.

(** [Spoken] leaves everything but the effects. *)
Lemma spoken_ctx g g' : Spoken g g' -> ctx (modes g') = ctx (modes g).
Proof. by intros (_ & l & ->). Qed.
Lemma spoken_st g g' : Spoken g g' -> st (modes g') = st (modes g).
Proof. by intros (_ & l & ->). Qed.

Lemma gwp_speaks {A B} (m : G A) (k : A -> G B) Q g : speaks m -> (forall a g', Spoken g g' -> gwp (k a) Q g') -> gwp (m ≫= k) Q g.
Proof. intros Hm H. apply gwp_bind. unfold gwp at 1. apply H, Hm. Qed.
Lemma gwp_spoken {A} (m : G A) (Q : A -> Game -> Prop) g : speaks m -> (forall a g', Spoken g g' -> Q a g') -> gwp m Q g.
Proof. intros Hm H. unfold gwp. apply H, Hm. Qed.

(** ** The match is one of the operations' own *)

Definition SameCtx (w w' : World) : Prop := ctx w' = ctx w.
#[export] Instance SameCtx_pre : PreOrder SameCtx.
Proof. split; unfold SameCtx; [by intros w|intros w w' w''; congruence]. Qed.
Lemma quiet_ctx {A} (m : M A) : keeps Quiet m -> keeps SameCtx m.
Proof. intros H w. by destruct (H w) as (l & -> & _). Qed.
Lemma ctx_change f : (forall w, ctx (f w) = ctx w) -> keeps SameCtx (change f).
Proof. intros H w. apply H. Qed.
Create HintDb samectx discriminated.
Ltac samectx :=
  repeat first [ solve [auto with samectx] | solve [apply quiet_ctx; auto with speak] | apply ctx_change; intros ?w; reflexivity | keeps_step ].

Section Ctx.
Context (E : Env).
Lemma ResetKnife_ctx n : keeps SameCtx (ResetKnife E n).
Proof. unfold ResetKnife, upd. samectx. Qed.
Hint Resolve ResetKnife_ctx : samectx.
Lemma SetModeIdle_ctx : keeps SameCtx (SetModeIdle E).
Proof. unfold SetModeIdle, StopDemo, upd. samectx. Qed.
Lemma OnMatchLoaded_ctx : keeps SameCtx (OnMatchLoaded E).
Proof. unfold OnMatchLoaded, upd. samectx. Qed.
Lemma SetReady_ctx sid b : keeps SameCtx (SetReady sid b).
Proof. unfold SetReady, upd. samectx. Qed.
Hint Resolve SetReady_ctx : samectx.
Lemma restore_ready_ctx l : keeps SameCtx (restore_ready l).
Proof. induction l as [|sid l IH]; cbn [restore_ready]; samectx. Qed.
Lemma ScrimGoLive_ctx n : keeps SameCtx (ScrimGoLive E n).
Proof. unfold ScrimGoLive, upd. samectx. Qed.
Lemma StartKnifeRound_ctx : keeps SameCtx (StartKnifeRound E).
Proof. unfold StartKnifeRound, StartKnife, ApplyKnifeRules, upd_knife, upd. samectx. Qed.
End Ctx.

(** ** Starting the match *)

(** Whoever is ready stays ready. *)
Definition StayReady (w w' : World) : Prop := forall sid, is_ready (ready (st w)) sid = true -> is_ready (ready (st w')) sid = true.
#[export] Instance StayReady_pre : PreOrder StayReady.
Proof. split; unfold StayReady; auto. Qed.
Lemma quiet_stay {A} (m : M A) : keeps Quiet m -> keeps StayReady m.
Proof. intros H w sid Hs. by destruct (H w) as (l & -> & _). Qed.
Lemma stay_change f : (forall w, ready (st (f w)) = ready (st w)) -> keeps StayReady (change f).
Proof. intros H w sid. cbn. by rewrite H. Qed.
Create HintDb stayready discriminated.
Ltac stayready :=
  repeat first [ solve [auto with stayready] | solve [apply quiet_stay; auto with speak] | apply stay_change; intros ?w; reflexivity | keeps_step ].

Section Start.
Context (X : ScrimEnv).
Local Abbreviation E := (base X).

Lemma ResetKnife_stay n : keeps StayReady (ResetKnife E n).
Proof. unfold ResetKnife, upd. stayready. Qed.
Hint Resolve ResetKnife_stay : stayready.
Lemma ScrimGoLive_stay n : keeps StayReady (ScrimGoLive E n).
Proof. unfold ScrimGoLive, upd. stayready. Qed.
Lemma StartKnifeRound_stay : keeps StayReady (StartKnifeRound E).
Proof. unfold StartKnifeRound, StartKnife, ApplyKnifeRules, upd_knife, upd. stayready. Qed.
Hint Resolve ScrimGoLive_stay StartKnifeRound_stay : stayready.

Lemma SetReady_spec sid w : sid <> 0 -> ready (st (SetReady sid true w).2) = <[sid := true]> (ready (st w)).
Proof. intros H. unfold SetReady. by rewrite (proj2 (Z.eqb_neq sid 0) H). Qed.
Lemma SetReady_stay sid : keeps StayReady (SetReady sid true ;; mret tt).
Proof.
  intros w n Hn. unfold mbind, M_bind. destruct (Z.eqb_spec sid 0) as [->|Hz]; [exact Hn|]. pose proof (SetReady_spec sid w Hz) as Hs.
  destruct (SetReady sid true w) as [b w']. cbn in *. rewrite Hs. unfold is_ready. destruct (decide (sid = n)) as [->|]; [by rewrite lookup_insert_eq|].
  rewrite lookup_insert_ne by done. exact Hn.
Qed.
Lemma restore_ready_stay l : keeps StayReady (restore_ready l).
Proof. induction l as [|sid l IH]; cbn [restore_ready]; [apply keeps_ret, _|].
  apply keeps_bind; [apply _|apply keeps_gets, _|intros r]. apply keeps_bind; [apply _| |intros _; exact IH]. apply keeps_when; [apply _|apply SetReady_stay].
Qed.
Lemma restore_ready_all l w sid : sid ∈ l -> sid <> 0 -> is_ready (ready (st (restore_ready l w).2)) sid = true.
Proof.
  intros Hin Hz. revert w. induction l as [|n l IH]; [by apply not_elem_of_nil in Hin|]. intros w. cbn [restore_ready]. rewrite bind_gets.
  apply elem_of_cons in Hin as [<-|Hin].
  - unfold mbind at 1, M_bind. destruct (is_ready (ready (st w)) sid) eqn:Er; cbn [negb when].
    + cbn. by apply restore_ready_stay.
    + pose proof (SetReady_spec sid w Hz) as Hs. unfold mbind, M_bind. destruct (SetReady sid true w) as [b w']. cbn in *.
      apply restore_ready_stay. rewrite Hs. unfold is_ready. by rewrite lookup_insert_eq.
  - unfold mbind at 1, M_bind. destruct (when _ _ w) as [a w']. by apply IH.
Qed.

(** The match is [scrim_context], but for its side once the knife round could not start. *)
Definition from_scrim (r : ScrimRoster) (c : WebhookMatchContext) : Prop :=
  c = scrim_context X r \/ c = WebhookUpdateMapSide 1 "team1_ct" (scrim_context X r).

Lemma go_live_now_ctx : keeps SameCtx (go_live_now X).
Proof. unfold go_live_now. samectx. apply ScrimGoLive_ctx. Qed.
Lemma go_live_now_stay : keeps StayReady (go_live_now X).
Proof. unfold go_live_now. stayready. Qed.

Definition startable (r : ScrimRoster) (w : World) : Prop :=
  ctx w = None /\ mode (st w) = ScrimWarmup /\
  bothSides (CountScrimRoster X r (ready (st w))) = true /\ allReady (CountScrimRoster X r (ready (st w))) = true.
Definition ready_players (r : ScrimRoster) (s : State) : list Z := fst <$> List.filter (fun kv : Z * Z => is_ready (ready s) kv.1) (map_to_list (teamNum r)).
(** What the start leaves: the match, and the players who were ready still are. *)
Definition started (r : ScrimRoster) (w w' : World) : Prop :=
  (exists c, ctx w' = Some c /\ from_scrim r c) /\ forall sid, sid <> 0 -> sid ∈ ready_players r (st w) -> is_ready (ready (st w')) sid = true.

Lemma start_spec r w :
  let '(b, w') := MaybeStartScrimIfAllReady X r w in if b : bool then startable r w /\ started r w w' else w' = w.
Proof.
  assert (wp (MaybeStartScrimIfAllReady X r) (fun b w' => if b : bool then startable r w /\ started r w w' else w' = w) w) as H;
    [|unfold wp in H; by destruct (MaybeStartScrimIfAllReady X r w)].
  unfold wp, MaybeStartScrimIfAllReady. rewrite !bind_gets.
  destruct (ctx w) as [c0|] eqn:Hc; [done|]. destruct (is_mode (mode (st w)) ScrimWarmup) eqn:Hm; [|done]. cbn [negb].
  destruct (bool_decide _ && _); [done|]. destruct (bothSides _) eqn:Hb; [|done]. cbn [negb]. destruct (allReady _) eqn:Ha; [|done]. cbn [negb].
  apply bool_decide_eq_true_1 in Hm. rewrite bind_change. set (w1 := w <| ctx := _ |>).
  match goal with |- (if (?m w1).1 then _ else _) => change (wp m (fun b w' => if b : bool then startable r w /\ started r w w' else w' = w) w1) end.
  apply wp_bind. eapply (wp_mono _ (fun _ w' => ctx w' = Some (scrim_context X r))); [|exact (OnMatchLoaded_ctx E w1)].
  intros _ w2 Hc2. apply wp_bind. eapply (wp_mono _ (fun _ w' => ctx w' = Some (scrim_context X r))); [|exact Hc2].
  intros _ w3 Hc3. apply wp_bind.
  eapply (wp_mono _ (fun _ w' => ctx w' = Some (scrim_context X r) /\ forall sid, sid <> 0 -> sid ∈ ready_players r (st w) -> is_ready (ready (st w')) sid = true)).
  2: { split; [rewrite <- Hc3; apply restore_ready_ctx|]. intros sid Hz Hin. by apply restore_ready_all. }
  intros _ w4 [Hc4 Hr4]. apply wp_bind.
  eapply (wp_mono _ (fun _ w' => (exists c, ctx w' = Some c /\ from_scrim r c) /\ StayReady w4 w')).
  - intros _ w5 [Hc5 Hr5]. cbn. split; [done|]. split; [done|]. intros sid Hz Hin. by apply Hr5, Hr4.
  - destruct (knifeDefault X).
    + apply wp_bind. pose proof (StartKnifeRound_ctx E w4) as Hk. pose proof (StartKnifeRound_stay w4) as Hs. unfold wp at 1.
      destruct (StartKnifeRound E w4) as [ok w5]. cbn in Hk, Hs |- *. unfold SameCtx in Hk. apply wp_when; intros _.
      * apply wp_bind, wp_change. set (w6 := w5 <| ctx := _ |>).
        assert (ctx w6 = Some (WebhookUpdateMapSide 1 "team1_ct" (scrim_context X r))) as H6 by (unfold w6; cbn; by rewrite Hk, Hc4).
        split; [eexists; split; [by rewrite (go_live_now_ctx w6), H6|by right]|]. etrans; [exact Hs|]. apply (go_live_now_stay w6).
      * split; [|exact Hs]. exists (scrim_context X r). split; [congruence|by left].
    + split; [|apply go_live_now_stay]. exists (scrim_context X r). split; [by rewrite (go_live_now_ctx w4)|by left].
Qed.
End Start.

(** ** The parts of a tick *)

Definition is_log (e : Eff) : bool := match e with StateLog _ _ => true | _ => false end.
(** Only the state line. *)
Definition Logged (g g' : Game) : Prop :=
  exists sig m t l, forallb is_log l = true /\
    g' = {| flow := flow g <| lastSig := sig |> <| lastLoggedMode := m |> <| lastStateLog := t |>; modes := modes g <| out := out (modes g) ++ l |> |}.
Lemma Logged_refl g : Logged g g.
Proof. destruct g as [f w]. exists (lastSig f), (lastLoggedMode f), (lastStateLog f), []. split; [done|]. cbn. rewrite app_nil_r, out_id. by destruct f. Qed.

Section Tick.
Context (X : ScrimEnv).
Local Abbreviation E := (base X).
Local Abbreviation r := (BuildScrimRoster X).

Lemma log_spec g : Logged g (log_part X g).2.
Proof.
  assert (forall reason, Logged g (EmitStateLog X reason g).2) as H by (intros reason; eexists _, _, _, [_]; split; [|reflexivity]; reflexivity).
  change (gwp (log_part X) (fun _ g' => Logged g g') g). unfold log_part. do 3 apply gwp_look. case_match; [apply H|]. case_match; [apply H|].
  unfold gwhen. case_match; [apply H|apply Logged_refl].
Qed.

Definition counts (g : Game) : ScrimCounts := CountScrimRoster X r (ready (st (modes g))).
(** Everyone is ready, with players on both sides. *)
Definition ready_now (g : Game) : bool := allReady (counts g) && bothSides (counts g).
(** The server is empty but for a scrim that is loaded. *)
Definition empty_scrim (g : Game) : bool :=
  match ctx (modes g) with Some c => (c_slug c =s "scrim") && (zlen (humans E) =? 0) && negb (devBotsScrim X) | None => false end.
Definition effective (g : Game) : bool := negb (disabled E || throttled X (flow g)).

Lemma match_spec m g : ctx (modes g) = Some m ->
  let g' := (match_part X m g).2 in
  countdownActive (flow g') = false /\
  (if empty_scrim g
   then let since := if noHumansSince (flow g) =? 0 then now E else noHumansSince (flow g) in
        if kEmptyScrimTimeout <=? now E - since then noHumansSince (flow g') = 0 else noHumansSince (flow g') = since /\ modes g' = modes g
   else noHumansSince (flow g') = 0 /\ modes g' = modes g).
Proof.
  intros Hm. unfold empty_scrim. rewrite Hm.
  change (gwp (match_part X m) (fun _ g' => countdownActive (flow g') = false /\
    (if (c_slug m =s "scrim") && (zlen (humans E) =? 0) && negb (devBotsScrim X)
     then let since := if noHumansSince (flow g) =? 0 then now E else noHumansSince (flow g) in
          if kEmptyScrimTimeout <=? now E - since then noHumansSince (flow g') = 0 else noHumansSince (flow g') = since /\ modes g' = modes g
     else noHumansSince (flow g') = 0 /\ modes g' = modes g)) g).
  unfold match_part. do 2 apply gwp_fupd. destruct (_ && _ && _); [|by split].
  apply gwp_fupd, gwp_look. cbn [flow]. set (g1 := _ <| flow := _ |>).
  assert (noHumansSince (flow g1) = if noHumansSince (flow g) =? 0 then now E else noHumansSince (flow g)) as H1 by (unfold g1; cbn; case_match; reflexivity).
  assert (countdownActive (flow g1) = false) as H2 by (unfold g1; cbn; case_match; reflexivity).
  assert (modes g1 = modes g) as H3 by done. clearbody g1. rewrite H1. cbv zeta. destruct (kEmptyScrimTimeout <=? _) eqn:Et.
  - unfold gwp, gwhen. unfold mbind, G_bind, fupd, lift. by destruct (EndEmptyScrim X _) as [a w'].
  - by unfold gwhen.
Qed.

(** What a tick without a match leaves: a countdown that runs was earned, a match was made by a countdown that ran out. *)
Record Earned (g g' : Game) : Prop := {
  ea_count : countdownActive (flow g') = true ->
    ready_now g = true /\
    (countdownDeadline (flow g') = now E + kCountdownSeconds * kSecond \/
     countdownActive (flow g) = true /\ countdownDeadline (flow g') = countdownDeadline (flow g));
  ea_start : is_Some (ctx (modes g')) ->
    countdownActive (flow g) = true /\ countdownDeadline (flow g) - now E < 1000000 /\ startable X r (modes g) /\ started X r (modes g) (modes g');
  ea_humans : noHumansSince (flow g') = 0 }.

Lemma earned_spoken g g1 g2 : Earned g g1 -> Spoken g1 g2 -> Earned g g2.
Proof.
  intros [H1 H2 H3] Hs. pose proof (spoken_ctx _ _ Hs) as Hc. pose proof (spoken_st _ _ Hs) as Hst. destruct Hs as [Hf _]. split.
  - by rewrite Hf.
  - rewrite Hc. intros H. destruct (H2 H) as (? & ? & ? & Hd). split_and!; [done..|]. unfold started. rewrite Hc, Hst. exact Hd.
  - by rewrite Hf.
Qed.
(** Nothing runs, nothing was made. *)
Lemma earned_idle g g' : countdownActive (flow g') = false -> ctx (modes g') = None -> noHumansSince (flow g') = 0 -> Earned g g'.
Proof. intros Ha Hc Hh. split; [rewrite Ha; discriminate|rewrite Hc; by intros [? ?]|done]. Qed.

Lemma no_team_spec g : ctx (modes g) = None -> noHumansSince (flow g) = 0 -> Earned g (no_team_step X g).2.
Proof.
  intros Hc Hh. change (gwp (no_team_step X) (fun _ g' => Earned g g') g). unfold no_team_step. do 2 apply gwp_fupd. apply gwp_look.
  set (g1 := _ <| flow := _ |>). assert (countdownActive (flow g1) = false /\ noHumansSince (flow g1) = 0 /\ ctx (modes g1) = None) as (H1 & H2 & H3).
  { unfold g1. cbn. case_match; by cbn. }
  clearbody g1. unfold gwhen. destruct (kNoTeamGrace <=? _); [|by apply earned_idle].
  apply gwp_fupd. unfold gwp, lift. assert (keeps SameCtx (ClearReadyStates ;; SetModeIdle E)) as Hk.
  { apply keeps_bind; [apply _|unfold ClearReadyStates, upd; samectx|intros _; apply SetModeIdle_ctx]. }
  specialize (Hk (modes g1)). unfold SameCtx in Hk. cbn [modes]. change (modes (g1 <| flow := _ |>)) with (modes g1).
  destruct ((ClearReadyStates ;; SetModeIdle E) (modes g1)) as [a w']. cbn in Hk |- *. by apply earned_idle; cbn; rewrite ?Hk.
Qed.

Lemma countdown_spec g : ctx (modes g) = None -> mode (st (modes g)) = ScrimWarmup -> noHumansSince (flow g) = 0 -> countdownActive (flow g) = true ->
  Earned g (countdown_step X r (counts g) g).2.
Proof.
  intros Hc Hm Hh Ha. change (gwp (countdown_step X r (counts g)) (fun _ g' => Earned g g') g). unfold countdown_step. apply gwp_look.
  destruct (allReady (counts g)) eqn:Er; cbn [negb orb].
  2: { apply gwp_fupd. apply gwp_speaks; [apply speaks_quiet_chat|]. intros _ g2 Hs. unfold gwp. cbn.
       pose proof (spoken_ctx _ _ Hs) as Hcs. destruct Hs as [Hf _]. apply earned_idle; cbn; [by rewrite Hf|by rewrite Hcs|by rewrite Hf]. }
  destruct (bothSides (counts g)) eqn:Eb; cbn [negb].
  2: { apply gwp_fupd. apply gwp_speaks; [apply speaks_quiet_chat|]. intros _ g2 Hs. unfold gwp. cbn.
       pose proof (spoken_ctx _ _ Hs) as Hcs. destruct Hs as [Hf _]. apply earned_idle; cbn; [by rewrite Hf|by rewrite Hcs|by rewrite Hf]. }
  assert (ready_now g = true) as Hr by (unfold ready_now; by rewrite Er, Eb).
  destruct (Z.leb_spec ((countdownDeadline (flow g) - now E) ÷ 1000000) 0) as [Hl|Hl].
  - apply gwp_fupd. apply gwp_bind. unfold gwp at 1, lift. cbn [modes]. change (modes (g <| flow := _ |>)) with (modes g).
    pose proof (start_spec X r (modes g)) as Hst. destruct (MaybeStartScrimIfAllReady X r (modes g)) as [ok w']. cbn [fst snd].
    apply gwp_spoken; [apply speaks_when, speaks_chat|]. intros _ g2 Hs. eapply earned_spoken; [|exact Hs]. split; cbn; [discriminate| |done].
    destruct ok.
    + destruct Hst. intros _. split_and!; [done| |done|done].
      destruct (Z.le_gt_cases 1000000 (countdownDeadline (flow g) - now E)) as [Hge|]; [|lia].
      assert (1 <= (countdownDeadline (flow g) - now E) ÷ 1000000); [|lia]. rewrite Z.quot_div_nonneg by lia. apply Z.div_le_lower_bound; lia.
    + subst w'. rewrite Hc. by intros [? ?].
  - assert (Earned g g) as Hg by (split; [auto|rewrite Hc; by intros [? ?]|done]).
    unfold gwhen. case_match; [|exact Hg]. apply gwp_fupd. apply gwp_spoken; [apply speaks_quiet_chat|]. intros _ g2 Hs.
    eapply earned_spoken; [|exact Hs]. split; cbn; [auto|rewrite Hc; by intros [? ?]|done].
Qed.

Lemma warmup_spec g : ctx (modes g) = None -> mode (st (modes g)) = ScrimWarmup -> noHumansSince (flow g) = 0 -> Earned g (ScrimWarmupStep X r (counts g) g).2.
Proof.
  intros Hc Hm Hh. unfold ScrimWarmupStep. destruct (_ && _); [by apply no_team_spec|].
  match goal with |- Earned g (?m g).2 => change (gwp m (fun _ g' => Earned g g') g) end. apply gwp_fupd, gwp_look. set (g1 := g <| flow := _ |>).
  change (counts g) with (counts g1). change (countdownActive (flow g1)) with (countdownActive (flow g)). destruct (countdownActive (flow g)) eqn:Ea.
  - destruct (countdown_spec g1 Hc Hm Hh Ea) as [H1 H2 H3]. unfold gwp. split; auto.
  - destruct (allReady (counts g1) && bothSides (counts g1)) eqn:Er.
    + apply gwp_fupd, gwp_spoken; [apply speaks_quiet_chat|]. intros _ g2 Hs. eapply earned_spoken; [|exact Hs].
      split; cbn; [by split; [|left]|rewrite Hc; by intros [? ?]|done].
    + unfold gwhen at 1. assert (Earned g g1) as Hg by (by apply earned_idle). case_match; [|exact Hg].
      apply gwp_fupd, gwp_spoken; [apply speaks_when, speaks_reminder|]. intros _ g2 Hs. eapply earned_spoken; [|exact Hs]. by apply earned_idle.
Qed.

Lemma idle_spec g : ctx (modes g) = None -> Earned g (idle_part X r (counts g) g).2.
Proof.
  intros Hc. change (gwp (idle_part X r (counts g)) (fun _ g' => Earned g g') g). unfold idle_part. apply gwp_fupd. do 2 apply gwp_look. set (g1 := g <| flow := _ |>).
  assert (forall g2, counts g2 = counts g -> ctx (modes g2) = None -> noHumansSince (flow g2) = 0 ->
            (mode (st (modes g2)) = ScrimWarmup -> Earned g2 (ScrimWarmupStep X r (counts g) g2).2 -> Earned g (ScrimWarmupStep X r (counts g) g2).2) ->
            gwp (m ← look (fun g => mode (st (modes g))); if is_mode m ScrimWarmup then ScrimWarmupStep X r (counts g) else CancelCountdown) (fun _ g' => Earned g g') g2) as Hend.
  { intros g2 H1 H2 H3 H4. apply gwp_look. destruct (is_mode _ ScrimWarmup) eqn:Em; [|by apply earned_idle].
    apply bool_decide_eq_true_1 in Em. apply H4; [done|]. rewrite <- H1. by apply warmup_spec. }
  destruct (is_mode _ Idle && _ && _ && _) eqn:Eg.
  - apply gwp_bind. unfold gwhen at 1. apply gwp_bind. unfold gwp at 1, lift, SetModeScrimWarmup. cbn [modes]. rewrite bind_gets.
    apply andb_prop in Eg as [Eg _]. apply andb_prop in Eg as [Eg _]. apply andb_prop in Eg as [Eg _]. rewrite Eg. cbn [negb]. rewrite bind_upd. cbn [mret M_ret fst snd gwhen].
    apply gwp_speaks; [apply speaks_lift; auto with speak|]. intros _ g2 Hs. do 2 apply gwp_fupd.
    apply gwp_spoken; [apply speaks_quiet_chat|]. intros _ g3 Hs3. pose proof (spoken_ctx _ _ Hs) as Hc2. pose proof (spoken_st _ _ Hs) as Hst2.
    pose proof (spoken_ctx _ _ Hs3) as Hc3. pose proof (spoken_st _ _ Hs3) as Hst3. destruct Hs as [Hf2 _], Hs3 as [Hf3 _]. cbn in Hc2, Hst2, Hf2, Hc3, Hst3, Hf3.
    apply Hend.
    + unfold counts. by rewrite Hst3, Hst2.
    + by rewrite Hc3, Hc2.
    + by rewrite Hf3; cbn; rewrite Hf2.
    + intros _ [H1 H2 H3]. assert (countdownActive (flow g3) = false) as Hoff by (by rewrite Hf3). split; [|intros Hi; destruct (H2 Hi); congruence|done].
      intros Ha. destruct (H1 Ha) as [Hr [Hd|[? _]]]; [|congruence]. split; [|by left]. unfold ready_now, counts in *. by rewrite Hst3, Hst2 in Hr.
  - change (gwp (m ← look (fun g => mode (st (modes g))); if is_mode m ScrimWarmup then ScrimWarmupStep X r (counts g) else CancelCountdown) (fun _ g' => Earned g g') g1).
    apply Hend; [done..|]. intros _ [H1 H2 H3]. split; auto.
Qed.

(** ** A tick *)

Lemma effective_counts g f : counts (g <| flow := f |>) = counts g.
Proof. done. Qed.
Lemma logged_flow g g' : Logged g g' ->
  countdownActive (flow g') = countdownActive (flow g) /\ countdownDeadline (flow g') = countdownDeadline (flow g) /\
  noHumansSince (flow g') = noHumansSince (flow g) /\ ctx (modes g') = ctx (modes g) /\ st (modes g') = st (modes g).
Proof. by intros (? & ? & ? & ? & _ & ->). Qed.

(** The flow as a tick leaves it before its parts run: a new map cancels the countdown. *)
Definition before_parts (f : Flow) : Flow :=
  let f := f <| lastRun := now E |> in
  if current_map (ms E) =s lastMap f then f
  else f <| lastMap := current_map (ms E) |> <| autoEnabled := true |> <| countdownActive := false |> <| countdownDeadline := 0 |> <| countdownLastAnnounced := -1 |>.
Lemma tick_parts g : effective g = true ->
  exists g1, Logged g1 (ScrimTick X g).2 /\
    let g0 := g <| flow := before_parts (flow g) |> in
    match ctx (modes g) with None => g1 = (idle_part X r (counts g) g0).2 | Some m => g1 = (match_part X m g0).2 end.
Proof.
  unfold effective. intros He. set (g0 := g <| flow := before_parts (flow g) |>).
  change (gwp (ScrimTick X) (fun _ g' => exists g1, Logged g1 g' /\
    match ctx (modes g) with None => g1 = (idle_part X r (counts g) g0).2 | Some m => g1 = (match_part X m g0).2 end) g).
  unfold ScrimTick. apply gwp_look. destruct (disabled E || throttled X (flow g)); [done|]. do 2 apply gwp_fupd. apply gwp_look. cbv zeta.
  change (g <| flow := _ |> <| flow := _ |>) with g0. change (modes g0) with (modes g). apply gwp_bind.
  destruct (ctx (modes g)) as [m|]; unfold gwp at 1; [set (p := match_part X m g0)|set (p := idle_part X r _ g0)]; exists p.2; (split; [apply log_spec|reflexivity]).
Qed.
Lemma tick_skipped g : effective g = false -> (ScrimTick X g).2 = g.
Proof. unfold effective, ScrimTick. intros He%negb_false_iff. unfold mbind, G_bind. cbn [look]. by rewrite He. Qed.

Record Ticked (g g' : Game) : Prop := {
  tk_count : countdownActive (flow g') = true ->
    ready_now g = true /\
    (countdownDeadline (flow g') = now E + kCountdownSeconds * kSecond \/
     countdownActive (flow g) = true /\ countdownDeadline (flow g') = countdownDeadline (flow g));
  tk_start : ctx (modes g) = None -> is_Some (ctx (modes g')) ->
    countdownActive (flow g) = true /\ countdownDeadline (flow g) - now E < 1000000 /\ startable X r (modes g) /\ started X r (modes g) (modes g');
  tk_empty : noHumansSince (flow g') <> 0 ->
    empty_scrim g = true /\ (noHumansSince (flow g') = now E \/ noHumansSince (flow g') = noHumansSince (flow g) /\ noHumansSince (flow g) <> 0);
  tk_end : is_Some (ctx (modes g)) -> ctx (modes g') = ctx (modes g) \/
    empty_scrim g = true /\ noHumansSince (flow g) <> 0 /\ kEmptyScrimTimeout <= now E - noHumansSince (flow g) }.

Lemma before_count f : countdownActive (before_parts f) = true -> countdownActive f = true /\ countdownDeadline (before_parts f) = countdownDeadline f.
Proof. unfold before_parts. cbn. case_match; cbn; [auto|discriminate]. Qed.
Lemma before_humans f : noHumansSince (before_parts f) = noHumansSince f.
Proof. unfold before_parts. cbn. by case_match. Qed.

Lemma tick_spec g : effective g = true -> Ticked g (ScrimTick X g).2.
Proof.
  intros He. destruct (tick_parts g He) as (g1 & Hl & Hg1). apply logged_flow in Hl as (L1 & L2 & L3 & L4 & L5).
  set (g0 := g <| flow := before_parts (flow g) |>) in *. cbv zeta in Hg1. destruct (ctx (modes g)) as [m|] eqn:Hc.
  - pose proof (match_spec m g0 Hc) as [H1 H2]. subst g1. change (empty_scrim g0) with (empty_scrim g) in H2.
    change (noHumansSince (flow g0)) with (noHumansSince (before_parts (flow g))) in H2. rewrite before_humans in H2.
    split; rewrite ?L1, ?L3, ?L4; [congruence|congruence| |].
    + destruct (empty_scrim g); [|by destruct H2 as [-> _]]. split; [done|]. cbv zeta in H2. destruct (Z.eqb_spec (noHumansSince (flow g)) 0) as [Ez|Ez];
        destruct (kEmptyScrimTimeout <=? _); [congruence|left; tauto|congruence|right; tauto].
    + intros _. rewrite Hc. destruct (empty_scrim g); [|left; destruct H2 as [_ ->]; exact Hc]. cbv zeta in H2.
      destruct (Z.leb_spec kEmptyScrimTimeout (now E - (if noHumansSince (flow g) =? 0 then now E else noHumansSince (flow g)))) as [Ht|Ht];
        [|left; destruct H2 as [_ ->]; exact Hc].
      right. destruct (Z.eqb_spec (noHumansSince (flow g)) 0) as [Ez|Ez]; [|done]. unfold kEmptyScrimTimeout, kSecond in Ht. lia.
  - pose proof (idle_spec g0 Hc) as [H1 H2 H3]. subst g1. change (counts g0) with (counts g) in *. split; rewrite ?L1, ?L2, ?L3, ?L4.
    + intros Ha. destruct (H1 Ha) as [Hr [Hd|[Hb Hd]]]; (split; [exact Hr|]); [by left|right]. apply before_count in Hb as [Hb1 Hb2]. split; [done|]. rewrite Hd. exact Hb2.
    + intros _ Hs. destruct (H2 Hs) as (Ha & Hd & Hst & Hsd). apply before_count in Ha as [Ha Hb].
      change (countdownDeadline (flow g0)) with (countdownDeadline (before_parts (flow g))) in Hd. rewrite Hb in Hd.
      split_and!; [done..|]. unfold started. rewrite L4, L5. exact Hsd.
    + intros Hn. by rewrite H3 in Hn.
    + rewrite Hc. by intros [? ?].
Qed.

End Tick.

(** ** What held since a tick *)

Fixpoint ticks_all (P : ScrimEnv -> Game -> bool) (g : Game) (h : list SOp) : Prop :=
  match h with
  | [] => True
  | o :: h => match o with STick X => effective X g = true -> P X g = true | _ => True end /\ ticks_all P (sstep g o) h
  end.
(** At time [t] a tick found [P], and so did every tick since. *)
Definition held_since (P : ScrimEnv -> Game -> bool) (t : Z) (hist : list SOp) : Prop :=
  exists h1 X0 h2, hist = h1 ++ STick X0 :: h2 /\ now (base X0) = t /\ effective X0 (srun h1) = true /\ P X0 (srun h1) = true /\
    ticks_all P (srun (h1 ++ [STick X0])) h2.

Lemma ticks_all_snoc P g h o :
  ticks_all P g h -> match o with STick X => effective X (foldl sstep g h) = true -> P X (foldl sstep g h) = true | _ => True end -> ticks_all P g (h ++ [o]).
Proof. revert g. induction h as [|x h IH]; intros g; cbn; [auto|]. intros [Hx Hh] Ho. split; [done|]. by apply IH. Qed.
Lemma held_more P t hist o :
  held_since P t hist -> match o with STick X => effective X (srun hist) = true -> P X (srun hist) = true | _ => True end -> held_since P t (hist ++ [o]).
Proof.
  intros (h1 & X0 & h2 & -> & Ht & He & HP & Hall) Ho. exists h1, X0, (h2 ++ [o]). split; [by rewrite <- app_assoc|]. split_and!; [done..|].
  apply ticks_all_snoc; [done|]. unfold srun in Ho |- *. rewrite !foldl_app in Ho. by rewrite foldl_app.
Qed.
Lemma held_now P X hist : effective X (srun hist) = true -> P X (srun hist) = true -> held_since P (now (base X)) (hist ++ [STick X]).
Proof. intros He HP. by exists hist, X, []. Qed.

Lemma modes_flow E op g : flow (lift (run_op E op) g).2 = flow g.
Proof. unfold lift. by destruct (run_op E op (modes g)). Qed.
Lemma note_flow X g : let f := flow (ScrimNoteReadyChanged X g).2 in
  countdownActive f = countdownActive (flow g) /\ countdownDeadline f = countdownDeadline (flow g) /\ noHumansSince f = noHumansSince (flow g).
Proof. done. Qed.

(** The countdown and the empty server's clock tell the truth about the past. *)
Record Truthful (hist : list SOp) : Prop := {
  tr_count : countdownActive (flow (srun hist)) = true -> held_since ready_now (countdownDeadline (flow (srun hist)) - kCountdownSeconds * kSecond) hist;
  tr_empty : noHumansSince (flow (srun hist)) <> 0 -> held_since empty_scrim (noHumansSince (flow (srun hist))) hist }.
Lemma truthful_same hist o : Truthful hist -> match o with STick _ => False | _ => True end ->
  let f := flow (srun (hist ++ [o])) in let f0 := flow (srun hist) in
  (countdownActive f = true -> countdownActive f0 = true /\ countdownDeadline f = countdownDeadline f0) -> noHumansSince f = noHumansSince f0 -> Truthful (hist ++ [o]).
Proof.
  intros [H1 H2] Ho f f0 Hc Hh. split; fold f.
  - intros Ha. destruct (Hc Ha) as [Ha0 ->]. apply held_more; [by apply H1|]. by destruct o.
  - rewrite Hh. intros Hn. apply held_more; [by apply H2|]. by destruct o.
Qed.
Lemma truthful hist : Truthful hist.
Proof.
  induction hist as [|o hist IH] using rev_ind; [by split|].
  destruct o as [E op|X|X|on|on map].
  - apply truthful_same; [done..| |]; rewrite srun_app; cbn [sstep sop_run]; unfold sstep, sop_run; by rewrite modes_flow.
  - destruct (effective X (srun hist)) eqn:He.
    + pose proof (tick_spec X (srun hist) He) as [T1 _ T3 _]. destruct IH as [I1 I2]. split; rewrite srun_app; unfold sstep at 1 2, sop_run.
      * intros Ha. destruct (T1 Ha) as [Hr [Hd|[Ha0 Hd]]]; rewrite Hd.
        -- replace (now (base X) + _ - _) with (now (base X)) by lia. by apply held_now.
        -- apply held_more; [by apply I1|]. done.
      * intros Hn. destruct (T3 Hn) as [Hr [Hd|[Hd Hz]]]; rewrite Hd; [by apply held_now|]. apply held_more; [by apply I2|done].
    + assert (srun (hist ++ [STick X]) = srun hist) as Es by (rewrite srun_app; unfold sstep, sop_run; by apply tick_skipped).
      destruct IH as [I1 I2]. split; rewrite Es; intros H; (apply held_more; [auto|congruence]).
  - apply truthful_same; [done..| |]; rewrite srun_app; unfold sstep, sop_run; destruct (note_flow X (srun hist)) as (H1 & H2 & H3); [by rewrite H1, H2|done].
  - apply truthful_same; [done..| |]; rewrite srun_app; unfold sstep, sop_run, ScrimSetAutoEnabled; by destruct on.
  - apply truthful_same; [done..| |]; rewrite srun_app; unfold sstep, sop_run, ScrimRestore; [auto|done].
Qed.

(** ** Who plays *)

Lemma count_all {A} (f : A -> bool) l : zlen (List.filter f l) = zlen l -> forallb f l = true.
Proof.
  unfold zlen. induction l as [|x l IH]; [done|]. cbn. pose proof (filter_length_le f l) as Hl. destruct (f x); cbn; intros H; [apply IH|]; lia.
Qed.
Lemma count_sides (l : list (Z * Z)) : forallb (fun kv => plays kv.2) l = true ->
  zlen (List.filter (fun kv => kv.2 =? 3) l) + zlen (List.filter (fun kv => kv.2 =? 2) l) = zlen l.
Proof.
  unfold zlen, plays. induction l as [|[k t] l IH]; [done|]. cbn. intros [Ht Hl]%andb_prop. specialize (IH Hl). apply orb_prop in Ht.
  destruct (Z.eqb_spec t 3), (Z.eqb_spec t 2); cbn; lia || (destruct Ht; lia).
Qed.

Section Roster.
Context (X : ScrimEnv).
Definition human_on (sid team : Z) (l : list Person) : Prop := exists h, h ∈ l /\ p_sid h = sid /\ p_team h = team /\ plays team = true /\ sid <> 0.
Lemma add_humans l acc sid team :
  teamNum (foldl add_human acc l) !! sid = Some team -> teamNum acc !! sid = Some team \/ human_on sid team l.
Proof.
  revert acc. induction l as [|h l IH]; intros acc; cbn; [by left|]. intros H. destruct (IH _ H) as [Ha|(h' & Hin & H')].
  - unfold add_human in Ha. destruct (Z.eqb_spec (p_sid h) 0); [by left|]. destruct (plays (p_team h)) eqn:Ep; [|by left]. cbn in Ha.
    destruct (decide (p_sid h = sid)) as [<-|]; [|rewrite lookup_insert_ne in Ha by done; by left].
    rewrite lookup_insert_eq in Ha. injection Ha as <-. right. exists h. split_and!; try done. by left.
  - right. exists h'. split; [by right|done].
Qed.
Lemma bots_team l acc : teamNum (foldl add_bot acc l) = teamNum acc.
Proof. revert acc. induction l as [|b l IH]; intros acc; cbn; [done|]. rewrite IH. unfold add_bot. by case_match. Qed.
Lemma roster_human sid team : teamNum (BuildScrimRoster X) !! sid = Some team -> human_on sid team (humans (base X)).
Proof.
  unfold BuildScrimRoster. intros H. assert (teamNum (foldl add_human {| teamNum := ∅; spectators := ∅; devBots := ∅ |} (humans (base X))) !! sid = Some team) as H'.
  { case_match; [by rewrite bots_team in H|done]. }
  destruct (add_humans _ _ _ _ H') as [Ha|Ha]; [|done]. cbn in Ha. by rewrite lookup_empty in Ha.
Qed.

Lemma everyone_ready rdy sid team : allReady (CountScrimRoster X (BuildScrimRoster X) rdy) = true ->
  teamNum (BuildScrimRoster X) !! sid = Some team -> is_ready rdy sid = true.
Proof.
  cbn. unfold count_if. set (l := map_to_list (teamNum (BuildScrimRoster X))). intros Ha Hs. apply elem_of_map_to_list in Hs. fold l in Hs.
  assert (forallb (fun kv => plays kv.2) l = true) as Hp.
  { apply forallb_forall. intros [k t] Hk. apply list_elem_of_In, elem_of_map_to_list in Hk. destruct (roster_human k t Hk) as (h & _ & _ & _ & Ht & _). done. }
  pose proof (count_sides l Hp) as Hc. rewrite Hc in Ha. apply orb_prop in Ha as [Ha|Ha].
  - apply andb_prop in Ha as [_ Ha%Z.eqb_eq]. apply count_all in Ha. rewrite forallb_forall in Ha. by apply (Ha (sid, team)), list_elem_of_In.
  - unfold bots_only in Ha. destruct (Z.eqb_spec (zlen l) 0) as [E|E]; [|done]. exfalso. destruct l; [by apply not_elem_of_nil in Hs|]. unfold zlen in E. cbn in E. lia.
Qed.

(** Nobody on CT or T is left out. *)
Lemma add_humans_keeps l acc sid : is_Some (teamNum acc !! sid) -> is_Some (teamNum (foldl add_human acc l) !! sid).
Proof.
  revert acc. induction l as [|h l IH]; intros acc; cbn; [done|]. intros Ha. apply IH. unfold add_human. destruct (p_sid h =? 0); [done|].
  destruct (plays (p_team h)); [|exact Ha]. cbn. destruct (decide (p_sid h = sid)) as [->|]; [rewrite lookup_insert_eq; by eexists|by rewrite lookup_insert_ne by done].
Qed.
Lemma add_humans_all l acc h : h ∈ l -> p_sid h <> 0 -> plays (p_team h) = true -> is_Some (teamNum (foldl add_human acc l) !! p_sid h).
Proof.
  revert acc. induction l as [|h' l IH]; intros acc Hin Hz Hp; [by apply not_elem_of_nil in Hin|]. cbn. apply elem_of_cons in Hin as [<-|Hin]; [|by apply IH].
  apply add_humans_keeps. unfold add_human. rewrite (proj2 (Z.eqb_neq _ _) Hz), Hp. cbn. rewrite lookup_insert_eq. by eexists.
Qed.
Lemma roster_all h : h ∈ humans (base X) -> p_sid h <> 0 -> plays (p_team h) = true -> is_Some (teamNum (BuildScrimRoster X) !! p_sid h).
Proof. intros Hin Hz Hp. unfold BuildScrimRoster. case_match; [rewrite bots_team|]; by apply add_humans_all. Qed.
Lemma add_bots l acc sid team : devBots (foldl add_bot acc l) !! sid = Some team -> devBots acc !! sid = Some team \/ (sid, team) ∈ l.
Proof.
  revert acc. induction l as [|[b t] l IH]; intros acc; cbn; [by left|]. intros H. destruct (IH _ H) as [Ha|Hin]; [|right; by right].
  unfold add_bot in Ha. cbn in Ha. destruct (plays t); [|by left]. cbn in Ha.
  destruct (decide (b = sid)) as [->|]; [rewrite lookup_insert_eq in Ha; injection Ha as ->; right; by left|rewrite lookup_insert_ne in Ha by done; by left].
Qed.
Lemma humans_no_bots l acc : devBots (foldl add_human acc l) = devBots acc.
Proof. revert acc. induction l as [|h l IH]; intros acc; cbn; [done|]. rewrite IH. unfold add_human. by repeat case_match. Qed.
Lemma roster_bot sid team : devBots (BuildScrimRoster X) !! sid = Some team -> devBotsReady X || devBotsScrim X = true /\ (sid, team) ∈ botList X.
Proof.
  unfold BuildScrimRoster. destruct (devBotsReady X || devBotsScrim X); [|rewrite humans_no_bots; cbn; by rewrite lookup_empty].
  intros [H|H]%add_bots; [|by split]. rewrite humans_no_bots in H. cbn in H. by rewrite lookup_empty in H.
Qed.

(** Everyone on CT and T is ready, and both sides have a player, a developer's bot among them where those count: what [ready_now] comes to. *)
Definition on_team (team : Z) (h : Person) : bool := negb (p_sid h =? 0) && (p_team h =? team).
Definition side_taken (team : Z) : bool :=
  existsb (on_team team) (humans (base X)) || ((devBotsReady X || devBotsScrim X) && existsb (fun b : Z * Z => b.2 =? team) (botList X)).
Definition all_players_ready (g : Game) : bool :=
  forallb (fun h => negb (on_team 3 h || on_team 2 h) || is_ready (ready (st (modes g))) (p_sid h)) (humans (base X)) && side_taken 3 && side_taken 2.

Lemma scrim_roster_lookup sid t : roster_team (c_roster (scrim_context X (BuildScrimRoster X))) !! sid = Some t <->
  exists team, teamNum (BuildScrimRoster X) !! sid = Some team /\ IsDevBotId sid = false /\ t = team_of_side team.
Proof.
  cbn. unfold scrim_roster. rewrite lookup_fmap_Some. split.
  - intros (team & <- & H). apply map_lookup_filter_Some in H as [H Hb]. by exists team.
  - intros (team & H & Hb & ->). exists team. split; [done|]. by apply map_lookup_filter_Some.
Qed.
Lemma from_scrim_roster c : from_scrim X (BuildScrimRoster X) c -> c_roster c = c_roster (scrim_context X (BuildScrimRoster X)) /\ c_slug c = "scrim".
Proof. by intros [-> | ->]. Qed.

Lemma on_team_plays team h : plays team = true -> on_team team h = true -> p_sid h <> 0 /\ plays (p_team h) = true.
Proof. unfold on_team. intros Hp [Hz%negb_true_iff%Z.eqb_neq Ht%Z.eqb_eq]%andb_prop. by rewrite Ht. Qed.
Lemma count_taken team : plays team = true ->
  0 < count_if (fun kv => kv.2 =? team) (teamNum (BuildScrimRoster X)) + count_if (fun kv => kv.2 =? team) (devBots (BuildScrimRoster X)) -> side_taken team = true.
Proof.
  intros Hp H. unfold count_if, zlen in H. unfold side_taken. apply orb_true_iff. rewrite andb_true_iff, !existsb_exists.
  destruct (List.filter _ (map_to_list (teamNum _))) as [|[sid t] l] eqn:E1; [destruct (List.filter _ (map_to_list (devBots _))) as [|[sid t] l] eqn:E2; [cbn in H; lia|right]|left].
  - assert ((sid, t) ∈ (sid, t) :: l) as Hin by (by left). rewrite <- E2 in Hin. apply list_elem_of_In, filter_In in Hin as [Hin Ht].
    apply list_elem_of_In, elem_of_map_to_list, roster_bot in Hin as [Hd Hb]. split; [done|]. exists (sid, t). by rewrite <- list_elem_of_In.
  - assert ((sid, t) ∈ (sid, t) :: l) as Hin by (by left). rewrite <- E1 in Hin. apply list_elem_of_In, filter_In in Hin as [Hin Ht%Z.eqb_eq].
    apply list_elem_of_In, elem_of_map_to_list, roster_human in Hin as (h & Hh & <- & Hth & _ & Hz). exists h. rewrite <- list_elem_of_In. split; [done|].
    unfold on_team. rewrite (proj2 (Z.eqb_neq _ _) Hz). cbn in Ht |- *. apply Z.eqb_eq. congruence.
Qed.
Lemma ready_now_all g : ready_now X g = true -> all_players_ready g = true.
Proof.
  unfold ready_now, counts, all_players_ready. intros [Ha [Hct Ht]%andb_prop]%andb_prop. rewrite !andb_true_iff. split_and!.
  - apply forallb_forall. intros h Hin%list_elem_of_In. destruct (on_team 3 h || on_team 2 h) eqn:Eo; [cbn|done].
    assert (p_sid h <> 0 /\ plays (p_team h) = true) as [Hz Hp] by (apply orb_prop in Eo as [Eo|Eo]; by apply (on_team_plays _ h) in Eo).
    destruct (roster_all h Hin Hz Hp) as [team Hteam]. exact (everyone_ready _ _ _ Ha Hteam).
  - apply Z.ltb_lt in Hct. by apply count_taken.
  - apply Z.ltb_lt in Ht. by apply count_taken.
Qed.
End Roster.

Lemma ticks_all_mono (P Q : ScrimEnv -> Game -> bool) h g : (forall X g, P X g = true -> Q X g = true) -> ticks_all P g h -> ticks_all Q g h.
Proof. intros HPQ. revert g. induction h as [|o h IH]; intros g; [done|]. intros [Ho Hh]. split; [destruct o; auto|by apply IH]. Qed.
Lemma held_mono (P Q : ScrimEnv -> Game -> bool) t hist : (forall X g, P X g = true -> Q X g = true) -> held_since P t hist -> held_since Q t hist.
Proof. intros HPQ (h1 & X0 & h2 & -> & Ht & He & HP & Hall). exists h1, X0, h2. split_and!; auto. by apply (ticks_all_mono P). Qed.

(** Claim C9.  A scrim's match is made only when it was earned: in every history of the modes and the flow, if a tick loads a match, then the
    server was in the scrim warmup, at a tick 5 s before (up to a millisecond) everyone on CT and T was ready and both sides had a player (a bot, where a developer's setting lets
    bots count), and so it was at every tick since and is now; the match's players are exactly the humans on CT and T (a developer's bot id is no human's), each on the team of
    a side they are on, all of them ready; and they are still ready after. *)
Theorem scrim_start_earned (hist : list SOp) (X : ScrimEnv) :
  let g := srun hist in let g' := srun (hist ++ [STick X]) in
  ctx (modes g) = None -> is_Some (ctx (modes g')) ->
  mode (st (modes g)) = ScrimWarmup /\ all_players_ready X g = true /\
  (exists t, held_since all_players_ready t hist /\ kCountdownSeconds * kSecond - 1000000 < now (base X) - t) /\
  exists c, ctx (modes g') = Some c /\ c_slug c = "scrim" /\
    (forall sid t, roster_team (c_roster c) !! sid = Some t ->
      IsDevBotId sid = false /\ (exists team, human_on sid team (humans (base X)) /\ t = team_of_side team) /\
      is_ready (ready (st (modes g))) sid = true /\ is_ready (ready (st (modes g'))) sid = true) /\
    forall sid team, human_on sid team (humans (base X)) -> IsDevBotId sid = false -> is_Some (roster_team (c_roster c) !! sid).
Proof.
  intros g g' Hc Hs. unfold g' in *. rewrite srun_app in *. unfold sstep, sop_run in *. fold g in Hs |- *.
  destruct (effective X g) eqn:He; [|rewrite tick_skipped, Hc in Hs by done; by destruct Hs].
  destruct (tick_spec X g He) as [_ T2 _ _]. destruct (T2 Hc Hs) as (Ha & Hd & (_ & Hm & Hb & Hr) & (c & Hctx & Hfrom) & Hkeep).
  pose proof (tr_count _ (truthful hist) Ha) as Hheld. fold g in Hheld. split; [done|].
  split; [apply ready_now_all; unfold ready_now, counts; by rewrite Hr, Hb|].
  split; [eexists; split; [exact (held_mono _ _ _ _ ready_now_all Hheld)|lia]|]. destruct (from_scrim_roster X c Hfrom) as [Hros Hslug].
  exists c. split_and!; [done..| |]; rewrite Hros.
  - intros sid t Hsid. apply scrim_roster_lookup in Hsid as (team & Hteam & Hbot & ->).
    pose proof (roster_human X sid team Hteam) as Hh. pose proof (everyone_ready X _ _ _ Hr Hteam) as Hready. split_and!; [done|by exists team|done|].
    apply Hkeep; [by destruct Hh as (_ & _ & _ & _ & _ & ?)|]. unfold ready_players. apply list_elem_of_fmap. exists (sid, team). split; [done|].
    apply list_elem_of_In, filter_In. split; [by apply list_elem_of_In, elem_of_map_to_list|done].
  - intros sid team (h & Hin & <- & <- & Hp & Hz) Hbot. destruct (roster_all X h Hin Hz Hp) as [t Ht]. exists (team_of_side t).
    apply scrim_roster_lookup. by exists t.
Qed.

(** Claim C10.  The scrim flow leaves a loaded match alone: in every history, a tick with a match loaded changes nothing but the state
    line, unless the match is a scrim and at a tick 60 s before nobody was on the server, and so it was at every tick since and is now. *)
Theorem loaded_match_kept (hist : list SOp) (X : ScrimEnv) (c : WebhookMatchContext) :
  let g := srun hist in let g' := srun (hist ++ [STick X]) in
  ctx (modes g) = Some c ->
  (exists l, forallb is_log l = true /\ modes g' = modes g <| out := out (modes g) ++ l |>) \/
  c_slug c = "scrim" /\ humans (base X) = [] /\ exists t, held_since empty_scrim t hist /\ kEmptyScrimTimeout <= now (base X) - t.
Proof.
  intros g g' Hc. unfold g'. rewrite srun_app. unfold sstep, sop_run. fold g.
  destruct (effective X g) eqn:He; [|left; exists []; rewrite tick_skipped by done; by rewrite app_nil_r, out_id].
  destruct (tick_parts X g He) as (g1 & (sig & m & t & l & Hl & Hg2) & Hg1). rewrite Hc in Hg1. cbv zeta in Hg1.
  set (g0 := g <| flow := before_parts X (flow g) |>) in *. pose proof (match_spec X c g0 Hc) as [_ Hs]. rewrite Hg2, Hg1. cbn [modes]. cbv zeta in Hs.
  change (empty_scrim X g0) with (empty_scrim X g) in Hs. change (modes g0) with (modes g) in Hs.
  destruct (empty_scrim X g) eqn:Ee; [|left; exists l; destruct Hs as [_ ->]; done]. cbv zeta in Hs.
  change (noHumansSince (flow g0)) with (noHumansSince (before_parts X (flow g))) in Hs. rewrite before_humans in Hs.
  destruct (Z.leb_spec kEmptyScrimTimeout (now (base X) - (if noHumansSince (flow g) =? 0 then now (base X) else noHumansSince (flow g)))) as [Ht|Ht];
    [|left; exists l; destruct Hs as [_ ->]; done].
  right. destruct (Z.eqb_spec (noHumansSince (flow g)) 0) as [Ez|Ez]; [unfold kEmptyScrimTimeout, kSecond in Ht; lia|].
  unfold empty_scrim in Ee. rewrite Hc in Ee. apply andb_prop in Ee as [[Hslug%String.eqb_eq Hz%Z.eqb_eq]%andb_prop _]. split; [done|]. split.
  - destruct (humans (base X)); [done|]. unfold zlen in Hz. cbn in Hz. lia.
  - exists (noHumansSince (flow g)). split; [by apply (tr_empty _ (truthful hist))|done].
Qed.

(** ** A scrim *)

Definition sample_scrim (humans_ : list Person) (t : Z) : ScrimEnv :=
  let e := sample_env (t * 1000000000) in {|
  base := {| now := now e; takes := takes e; ms := ms e; humans := humans_; bots := []; slots := humans_; engineTeam := engineTeam e; swapCount := 0;
             simConnected := []; isAdmin := isAdmin e; isCoach := isCoach e; isGuest := isGuest e; knifeFeature := false; simulating := false;
             Mo.devBots := false; hudReplacesChat := false; hudScreens := false; readyHudShowing := false; signalsOn := false; goLiveAllowed := goLiveAllowed e;
             resumeWaiting := false; minPlayersToReady := 0; minSpectatorsToReady := 0; playoutOn := false; whitelistOn := true; resetCvars := true;
             restoreCommands := []; ruleCommands := []; liveCfgRequired := false; liveCfgCommand := "exec ReadyUp/live.cfg"; paused := false;
             statsLive := false; statsTeam1Ct := true; damage := (0, 0); knifeStats := knifeStats e; coin := true; knifePickSeconds := 30;
             recorderBusy := false; recorderStarts := true; scrimAuto := true; disabled := false; dryRun := false; boundNames := boundNames e |};
  botList := []; devBotsReady := false; devBotsScrim := false; scrimWhenIdle := true; knifeDefault := true; wallMs := 1700000000000; eventsOn := true;
  rulesetTag := None; effRules := UnsetRules; rulesReport := []; debugOn := false; clientPrint := true |}.
Definition scrim_history : list SOp :=
  [STick (sample_scrim sample_players 1); SModes (sample_env 1) (OpSetReady 11 true); STick (sample_scrim sample_players 2); SModes (sample_env 2) (OpSetReady 22 true)] ++
  ((fun t => STick (sample_scrim sample_players t)) <$> [3; 4; 5; 6; 7]).
Definition empty_history : list SOp := scrim_history ++ ((fun t => STick (sample_scrim (if t =? 8 then sample_players else []) t)) <$> [8; 20; 50]).

Lemma scrim_start_earned_witness :
  let g := srun scrim_history in let g' := srun (scrim_history ++ [STick (sample_scrim sample_players 8)]) in
  ctx (modes g) = None /\ is_Some (ctx (modes g')) /\ mode (st (modes g)) = ScrimWarmup /\
  (roster_team ∘ c_roster <$> ctx (modes g')) = Some {[ 11 := Team1; 22 := Team2 ]}.
Proof.
  intros g g'. assert (ctx (modes g) = None) as H1 by (vm_compute; reflexivity). assert (is_Some (ctx (modes g'))) as H2 by (vm_compute; eexists; reflexivity).
  destruct (scrim_start_earned scrim_history (sample_scrim sample_players 8) H1 H2) as (Hm & _). split; [exact H1|]. split; [exact H2|]. split; [exact Hm|].
  apply (bool_decide_unpack _). vm_compute. exact I.
Defined.

Lemma loaded_match_kept_witness :
  let g := srun (empty_history ++ [STick (sample_scrim [] 81)]) in
  (exists c, ctx (modes (srun empty_history)) = Some c /\ c_slug c = "scrim" /\
     exists t, held_since empty_scrim t empty_history /\ kEmptyScrimTimeout <= 81000000000 - t) /\ ctx (modes g) = None /\ mode (st (modes g)) = Idle.
Proof.
  intros g. assert (ctx (modes g) = None) as Hg by (vm_compute; reflexivity). split; [|split; [exact Hg|vm_compute; reflexivity]].
  destruct (ctx (modes (srun empty_history))) as [c|] eqn:Hc; [|vm_compute in Hc; discriminate]. exists c. split; [reflexivity|].
  destruct (loaded_match_kept empty_history (sample_scrim [] 81) c Hc) as [(l & _ & Hl)|(Hs & _ & Ht)]; [|split; [exact Hs|exact Ht]].
  exfalso. assert (forall w l, ctx (w <| out := l |>) = ctx w) as Hout by reflexivity.
  apply (f_equal ctx) in Hl. rewrite Hout in Hl. rewrite Hc in Hl. unfold g in Hg. rewrite Hg in Hl. discriminate Hl.
Defined.

End ScrimFacts.
