(* ===== verification/Whitelist.v ===== *)
(** * The whitelist plugin

    [plugins/whitelist/whitelist_rules.{h,cpp}]: the saved list, who is kicked and other plugins' guests.
    [std::set] is a [gset]; the file lists it in ascending order.  Theorem: a saved list is read back. *)

From stdpp Require Import sorting.
From S2P Require Import Prelude CStr Double Json JsonFacts FleetJson MiniJson.

Module Whitelist.

Record State := { enabled : bool; steamids : gset Z }.
Definition NewState : State := {| enabled := false; steamids := ∅ |}.

Definition ParseSteamId64 (s : string) : Z :=
  if negb (slen s =? 17) || negb (starts_with "7656119" s) then 0
  else if negb (sforall isdigit s) then 0
  else strtoull s.

(** The SteamIDs of an array; 0 is none. *)
Definition read_ids (a : list mval) : gset Z :=
  list_to_set (List.filter (fun x => negb (x =? 0)) ((fun x => match x with MString s => ParseSteamId64 s | _ => 0 end) <$> a)).

(** The state and [*ok]. *)
Definition ParseState (json : string) : State * bool :=
  if sempty (drop_while is_ws json) then (NewState, true)
  else
    match mini_Parse json with
    | MiniOk (MObject o) =>
        ({| enabled := match obj_find "enabled" o with Some (MBool b) => b | _ => false end;
            steamids := match obj_find "steamids" o with Some (MArray a) => read_ids a | _ => ∅ end |}, true)
    | _ => (NewState, false)
    end.

Definition sorted_ids (s : gset Z) : list Z := merge_sort Z.le (elements s).

Fixpoint ids_text (first : bool) (l : list Z) : string :=
  match l with
  | [] => EmptyString
  | x :: l => (if first then EmptyString else ",") +s+ str1 newline +s+ qs "    `" +s+ to_string x +s+ str1 dquote +s+ ids_text false l
  end.

Definition StateJson (s : State) : string :=
  "{" +s+ str1 newline +s+ qs "  `version`: 1," +s+ str1 newline +s+ qs "  `enabled`: " +s+ (if enabled s then "true" else "false") +s+ "," +s+
  str1 newline +s+ qs "  `steamids`: [" +s+ ids_text true (sorted_ids (steamids s)) +s+
  (if bool_decide (steamids s = ∅) then EmptyString else str1 newline +s+ "  ") +s+ "]" +s+ str1 newline +s+ "}" +s+ str1 newline.

Definition MatchOwnsRoster (ruMode : string) : bool :=
  (ruMode =s "match_warmup") || (ruMode =s "match_knife") || (ruMode =s "match_live") || (ruMode =s "postgame").

Definition ShouldKick (s : State) (ruMode : string) (steamid64 : Z) (isBot isAdmin isGuest : bool) : bool :=
  if negb (enabled s) || isBot || (steamid64 =? 0) || isAdmin || isGuest then false
  else if MatchOwnsRoster ruMode then false
  else bool_decide (steamid64 ∉ steamids s).

(** ** Guests *)

Definition kMaxGuestsPerOwner : Z := 256.
Definition owner_char (c : ascii) : bool := islower c || isdigit c || Ascii.eqb c "_" || Ascii.eqb c "-".
Definition ValidGuestOwner (owner : string) : bool := negb (sempty owner) && (slen owner <=? 32) && sforall owner_char owner.

Abbreviation Guests := (gmap string (gset Z)).

(** A number that is a SteamID64. *)
Definition is_id (id : Z) : bool := negb (ParseSteamId64 (to_string id) =? 0).

Record SetResult := { accepted : bool; changed : bool }.

Definition Guests_Set (owner : string) (ids : list Z) (byOwner : Guests) : Guests * SetResult :=
  if negb (ValidGuestOwner owner) || (kMaxGuestsPerOwner <? zlen ids) then (byOwner, {| accepted := false; changed := false |})
  else
    let next : gset Z := list_to_set (List.filter is_id ids) in
    let same := match byOwner !! owner with None => bool_decide (next = ∅) | Some s => bool_decide (s = next) end in
    (if bool_decide (next = ∅) then delete owner byOwner else <[owner := next]> byOwner, {| accepted := true; changed := negb same |}).

Definition Guests_Is (steamid64 : Z) (byOwner : Guests) : bool := existsb (fun kv : string * gset Z => bool_decide (steamid64 ∈ kv.2)) (map_to_list byOwner).
Definition Guests_Count (byOwner : Guests) : Z := Z.of_nat (size (⋃ (map_to_list byOwner).*2)).

Definition sample : State := {| enabled := true; steamids := {[76561197960265730; 76561197960265729]} |}.
Example state_text : ParseState (StateJson sample) = (sample, true) /\ ParseState (StateJson NewState) = (NewState, true).
Proof. vm_compute. done. Qed.

(** ** Saving and loading *)

Lemma ParseSteamId64_id x : 0 <= x -> is_id x = true -> ParseSteamId64 (to_string x) = x.
Proof.
  intros Hx. unfold is_id, ParseSteamId64. destruct (_ || _) eqn:E1; [done|]. destruct (negb (sforall isdigit (to_string x))); [done|].
  intros _. apply strtoull_to_string. apply orb_false_elim in E1 as [E1 _]. apply negb_false_iff, Z.eqb_eq in E1.
  destruct (to_string_digits x Hx) as (Hd & _ & Hv). pose proof (digits_val_upper _ Hd 0 ltac:(lia)) as Hu. rewrite Hv, E1 in Hu.
  unfold uint64_ok. lia.
Qed.

Lemma escape_digits ds : sforall isdigit ds = true -> escape_body ds = ds.
Proof.
  induction ds as [|c ds IH]; [done|]. cbn [sforall escape_body]. intros [Hc Hd]%andb_prop. rewrite IH by done.
  assert (escape_char c = str1 c) as ->; [|done]. revert Hc. destruct c as [[] [] [] [] [] [] [] []]; vm_compute; intros; try discriminate; reflexivity.
Qed.

Lemma quoted_digits x r : 0 <= x -> str1 dquote +s+ to_string x +s+ str1 dquote +s+ r = JsonEscape (to_string x) +s+ r.
Proof.
  intros Hx. unfold JsonEscape. rewrite escape_digits by apply to_string_digits, Hx. by rewrite app_cons_s, app_assoc_s.
Qed.

(** The list of ids as the items of an array. *)
Definition ids_end (r : string) : string := str1 newline +s+ "  ]" +s+ r.

Lemma ids_text_items l : forall x acc fuel r, Forall (fun y => 0 <= y) (x :: l) -> (length l + 2 <= fuel)%nat ->
  parseItems fuel acc (str1 newline +s+ "    " +s+ JsonEscape (to_string x) +s+ ids_text false l +s+ ids_end r) =
    MOk (MArray (acc ++ ((fun y => MString (to_string y)) <$> x :: l))) r.
Proof.
  induction l as [|y l IH]; intros x acc fuel r [Hx Hl]%list.Forall_cons Hf; (destruct fuel as [|[|fuel]]; [cbn in Hf; lia|cbn in Hf; lia|]);
    remember (S fuel) as f eqn:Ef; cbn [parseItems];
    (match goal with |- context [skipWs (str1 newline +s+ "    " +s+ ?t)] => assert (skipWs (str1 newline +s+ "    " +s+ t) = t) as -> by reflexivity end);
    (assert (forall t, parseValue f (JsonEscape (to_string x) +s+ t) = MOk (MString (to_string x)) t) as ->
      by (intros t; subst f; cbn [parseValue]; rewrite skipWs_stops by done; unfold JsonEscape at 1; rewrite app_cons_s; cbn [Ascii.eqb Bool.eqb dquote nul];
          by rewrite parseString_escape)).
  - reflexivity.
  - cbn [ids_text]. rewrite app_assoc_s. cbn [String.append]. change (skipWs (String "," ?t)) with (String "," t).
    apply list.Forall_cons in Hl as [Hy Hl]. cbn in Hf. pose proof (IH y (acc ++ [MString (to_string x)]) f r) as H. cbn [Ascii.eqb Bool.eqb].
    rewrite <- app_assoc in H. etransitivity; [|apply H; [by constructor|lia]]. f_equal. unfold qs. cbn [smap Ascii.eqb Bool.eqb].
    unfold JsonEscape. rewrite escape_digits by apply to_string_digits, Hy. repeat (rewrite ?app_assoc_s, ?app_cons_s). done.
Qed.

Lemma elements_sorted s : list_to_set (sorted_ids s) = s.
Proof. unfold sorted_ids. rewrite (merge_sort_Permutation Z.le). apply list_to_set_elements_L. Qed.

Lemma read_ids_text l : Forall (fun x => 0 <= x /\ is_id x = true) l -> read_ids ((fun y => MString (to_string y)) <$> l) = list_to_set l.
Proof.
  intros Hl. unfold read_ids. induction Hl as [|x l [H1 H2] _ IH]; [done|]. cbn. rewrite (ParseSteamId64_id x H1 H2).
  destruct (Z.eqb_spec x 0) as [-> | Hne]; [by vm_compute in H2|]. cbn. by rewrite IH.
Qed.

(** The part of the file before the ids. *)
Definition file_head (b : bool) : string :=
  "{" +s+ str1 newline +s+ qs "  `version`: 1," +s+ str1 newline +s+ qs "  `enabled`: " +s+ (if b then "true" else "false") +s+ "," +s+
  str1 newline +s+ qs "  `steamids`: ".

Lemma file_parse b t arr fuel :
  (6 <= fuel)%nat -> stops is_ws t -> parseValue (fuel - 4) t = MOk (MArray arr) (str1 newline +s+ "}" +s+ str1 newline) ->
  parseValue fuel (file_head b +s+ t) =
    MOk (MObject [("version", MNumber (of_int 1)); ("enabled", MBool b); ("steamids", MArray arr)]) (str1 newline).
Proof.
  intros Hf Hws Ht. do 6 (destruct fuel as [|fuel]; [lia|]). replace (S (S (S (S (S (S fuel))))) - 4)%nat with (S (S fuel)) in Ht by lia.
  assert (skipWs t = t) as Hskip by by apply skipWs_stops.
  assert (forall r, parseNumber (String "1" (String "," r)) = MOk (of_int 1) (String "," r)) as Hnum
    by (intros r; apply (parseNumber_int 1 (String "," r)); [unfold int53_ok; lia|done]).
  remember (S (S fuel)) as f eqn:Ef.
  unfold file_head. destruct b; repeat (rewrite ?app_assoc_s, ?app_cons_s); unfold qs; cbn [smap Ascii.eqb Bool.eqb String.append str1];
    cbn -[parseNumber]; rewrite Hnum; cbn -[parseNumber]; fold (skipWs t); rewrite Hskip, Ht; reflexivity.
Qed.

Lemma ids_parse s fuel : Forall (fun x => 0 <= x) (sorted_ids s) -> (length (sorted_ids s) + 3 <= fuel)%nat ->
  parseValue fuel ("[" +s+ ids_text true (sorted_ids s) +s+ (if bool_decide (s = ∅) then EmptyString else str1 newline +s+ "  ") +s+ "]" +s+
    str1 newline +s+ "}" +s+ str1 newline) =
  MOk (MArray ((fun y => MString (to_string y)) <$> sorted_ids s)) (str1 newline +s+ "}" +s+ str1 newline).
Proof.
  intros Hl Hf. destruct fuel as [|fuel]; [lia|]. destruct (sorted_ids s) as [|x l] eqn:E.
  - rewrite bool_decide_eq_true_2; [reflexivity|]. pose proof (elements_sorted s) as Hs. rewrite E in Hs. set_solver.
  - rewrite bool_decide_eq_false_2 by (intros ->; unfold sorted_ids in E; by rewrite elements_empty in E).
    remember fuel as f eqn:Ef. cbn [parseValue]. assert (0 <= x) as Hx by by inversion Hl.
    match goal with |- context [skipWs ("[" +s+ ?t)] => change (skipWs ("[" +s+ t)) with (String "[" t); set (u := t) end.
    assert (u = str1 newline +s+ "    " +s+ JsonEscape (to_string x) +s+ ids_text false l +s+ ids_end (str1 newline +s+ "}" +s+ str1 newline)) as Eu.
    { unfold u, ids_end. cbn [ids_text String.append]. unfold qs. cbn [smap Ascii.eqb Bool.eqb]. unfold JsonEscape.
      rewrite escape_digits by apply to_string_digits, Hx. repeat (rewrite ?app_assoc_s, ?app_cons_s). done. }
    cbn [Ascii.eqb Bool.eqb nul dquote]. pose proof (ids_text_items l x [] f (str1 newline +s+ "}" +s+ str1 newline) Hl ltac:(cbn in Hf; lia)) as Hi.
    rewrite <- Eu in Hi. cbn [app] in Hi. destruct f as [|f]; [cbn in Hf; lia|]. revert Hi. cbn [parseItems]. rewrite Eu.
    match goal with |- context [skipWs (str1 newline +s+ "    " +s+ ?t)] => assert (skipWs (str1 newline +s+ "    " +s+ t) = t) as Es by reflexivity; rewrite !Es end.
    unfold JsonEscape at 1 2. rewrite app_cons_s. rewrite (skipWs_stops (String dquote _)) by done. cbn [Ascii.eqb Bool.eqb dquote]. done.
Qed.

Lemma ids_text_length l b : (length l <= String.length (ids_text b l))%nat.
Proof.
  revert b. induction l as [|x l IH]; intros b; [done|]. cbn [ids_text length]. rewrite !length_app_s. specialize (IH false). cbn [str1 String.length]. lia.
Qed.

(** Saving and loading the whitelist: for every state whose ids are SteamID64s, reading the file that was
    written gives the same switch and the same set of players, with no error. *)
Theorem whitelist_roundtrip (s : State) :
  (forall x, x ∈ steamids s -> 0 <= x /\ is_id x = true) -> ParseState (StateJson s) = (s, true).
Proof.
  intros Hs. assert (Forall (fun x => 0 <= x /\ is_id x = true) (sorted_ids (steamids s))) as Hl.
  { apply Forall_forall. intros x Hx. apply Hs. rewrite <- (elements_sorted (steamids s)). by apply elem_of_list_to_set. }
  assert (StateJson s = file_head (enabled s) +s+ "[" +s+ ids_text true (sorted_ids (steamids s)) +s+
    (if bool_decide (steamids s = ∅) then EmptyString else str1 newline +s+ "  ") +s+ "]" +s+ str1 newline +s+ "}" +s+ str1 newline) as E.
  { unfold StateJson, file_head. assert (qs "  `steamids`: [" = qs "  `steamids`: " +s+ "[") as -> by reflexivity.
    repeat (rewrite ?app_assoc_s, ?app_cons_s). done. }
  unfold ParseState. assert (sempty (drop_while is_ws (StateJson s)) = false) as -> by (rewrite E; reflexivity).
  unfold mini_Parse. rewrite E. rewrite (file_parse (enabled s) _ ((fun y => MString (to_string y)) <$> sorted_ids (steamids s))).
  - cbn [sempty skipWs]. change (sempty (skipWs (str1 newline))) with true. cbn iota. cbn [obj_find String.eqb Ascii.eqb Bool.eqb]. cbv iota.
    rewrite (read_ids_text _ Hl), elements_sorted. by destruct s.
  - rewrite length_app_s. unfold file_head. rewrite !length_app_s. cbn [String.length str1]. lia.
  - done.
  - apply ids_parse; [eapply Forall_impl; [exact Hl|cbn; tauto]|].
    pose proof (ids_text_length (sorted_ids (steamids s)) true). unfold file_head. rewrite !length_app_s. cbn [String.length str1]. lia.
Qed.

Lemma whitelist_roundtrip_witness : ParseState (StateJson sample) = (sample, true).
Proof. apply whitelist_roundtrip. intros x [Hx|Hx]%elem_of_union; apply elem_of_singleton in Hx as ->; (split; [lia|vm_compute; reflexivity]). Defined.

(** ** Guests *)

Lemma Guests_Is_spec (g : Guests) x : Guests_Is x g = true <-> exists o s, g !! o = Some s /\ x ∈ s.
Proof.
  unfold Guests_Is. rewrite existsb_exists. split.
  - intros ([o s] & Hin & Hx). apply list_elem_of_In, elem_of_map_to_list in Hin. apply bool_decide_eq_true in Hx. eauto.
  - intros (o & s & Hl & Hx). exists (o, s). split; [by apply list_elem_of_In, elem_of_map_to_list|]. by apply bool_decide_eq_true.
Qed.

(** An accepted list replaces its owner's and no other: who is a guest afterwards. *)
Lemma Guests_Set_Is (g : Guests) owner ids x : accepted (Guests_Set owner ids g).2 = true ->
  Guests_Is x (Guests_Set owner ids g).1 = true <->
    (In x ids /\ is_id x = true) \/ (exists o s, o <> owner /\ g !! o = Some s /\ x ∈ s).
Proof.
  unfold Guests_Set. destruct (_ || _); [done|]. intros _. cbn [fst]. rewrite Guests_Is_spec.
  assert (forall y : Z, y ∈ (list_to_set (List.filter is_id ids) : gset Z) <-> In y ids /\ is_id y = true) as Hf
    by (intros y; by rewrite elem_of_list_to_set, list_elem_of_In, filter_In). rewrite <- Hf. set (next := list_to_set _). clearbody next. clear Hf.
  case_bool_decide as En; split.
  - intros (o & s & [Hne Hl]%lookup_delete_Some & Hx). right. eauto 10.
  - intros [Hx|(o & s & Hne & Hl & Hx)]; [set_solver|]. exists o, s. split; [|done]. by apply lookup_delete_Some.
  - intros (o & s & [[<- <-]|[Hne Hl]]%lookup_insert_Some & Hx); [by left|]. right. eauto 10.
  - intros [Hx|(o & s & Hne & Hl & Hx)]; [exists owner, next|exists o, s]; (split; [|done]); apply lookup_insert_Some; auto.
Qed.
End Whitelist.
