(* ===== verification/MapVote.v ===== *)
(** * The map vote plugin

    [plugins/mapvote/mapvote_rules.{h,cpp}]: the map list, the ballot, the winner of a vote, [.rtv] and the
    settings.  [rng k n] is the answer to the k-th call of the random source; that it lies in [0, n) is its
    contract.  [None] is an index or a conversion that C++ leaves undefined. *)

From S2P Require Import Prelude CStr Double.

Module MapVote.

Record Settings := {
  enabled : bool; maps : list string; rtvRatio : double; rtvMinPlayers : Z; rtvDelaySeconds : Z; voteOptions : Z; voteSeconds : Z;
  mapTimeMinutes : Z; voteBeforeEndSeconds : Z; extendMinutes : Z; maxExtends : Z; recentMapsExcluded : Z }.
Definition DefaultSettings : Settings := {|
  enabled := true; maps := []; rtvRatio := dratio 6 10; rtvMinPlayers := 1; rtvDelaySeconds := 60; voteOptions := 6; voteSeconds := 20;
  mapTimeMinutes := 30; voteBeforeEndSeconds := 120; extendMinutes := 10; maxExtends := 1; recentMapsExcluded := 3 |}.

Definition DefaultPool (currentMap : string) : list string :=
  if starts_with "de_" currentMap || starts_with "cs_" currentMap
  then ["de_dust2"; "de_inferno"; "de_mirage"; "de_nuke"; "de_overpass"; "de_train"; "de_vertigo"] else [].

Definition Trim (s : string) : string := strip isspace s.

(** What follows a converted number is the end of the C string. *)
Definition at_end (rest : string) : bool := match rest with EmptyString => true | String c _ => Ascii.eqb c nul end.

Definition ParseInt (v : string) (lo hi : Z) : option Z :=
  match scan_int v with
  | Some (n, rest) => if negb (at_end rest) || (n <? lo) || (hi <? n) then None else Some n
  | None => None
  end.

(** ** Map names *)

(** An entry that is not blank and not a comment. *)
Definition is_entry (t : string) : bool := negb (sempty t || starts_with "#" t || starts_with "//" t).

Record ListAcc := { out : list string; seen : gset string; cur : string }.

Definition flush (a : ListAcc) : ListAcc :=
  let t := Trim (cur a) in
  if negb (is_entry t) || bool_decide (lower t ∈ seen a) then {| out := out a; seen := seen a; cur := EmptyString |}
  else {| out := out a ++ [t]; seen := {[lower t]} ∪ seen a; cur := EmptyString |}.

Definition list_char (a : ListAcc) (c : ascii) : ListAcc :=
  if Ascii.eqb c "," || Ascii.eqb c newline || Ascii.eqb c creturn then flush a
  else {| out := out a; seen := seen a; cur := cur a +s+ str1 c |}.

Fixpoint sfoldl {A} (f : A -> ascii -> A) (a : A) (s : string) : A :=
  match s with EmptyString => a | String c r => sfoldl f (f a c) r end.

Definition ParseMapList (text : string) : list string :=
  out (flush (sfoldl list_char {| out := []; seen := ∅; cur := EmptyString |} text)).

Definition MapDisplayName (entry : string) : string :=
  if starts_with "workshop/" entry then
    let rest := sdrop 9 entry in
    match find "/" rest with
    | Some slash => if (slash + 1 <? String.length rest)%nat then sdrop (slash + 1) rest else "workshop " +s+ rest
    | None => "workshop " +s+ rest
    end
  else entry.

(** The entry, and the candidates when there is none. *)
Definition FindMap (pool : list string) (typed : string) : string * list string :=
  let t := lower (Trim typed) in
  if sempty t then (EmptyString, [])
  else
    match List.find (fun e => (lower (MapDisplayName e) =s t) || (lower e =s t)) pool with
    | Some e => (e, [])
    | None =>
        match List.filter (fun e => contains t (lower (MapDisplayName e))) pool with
        | [e] => (e, [])
        | hits => (EmptyString, MapDisplayName <$> take 5 hits)
        end
    end.

(** ** Votes *)

Definition cast_int (z : Z) : option Z := if (-2147483648 <=? z) && (z <=? 2147483647) then Some z else None.

Definition RtvNeeded (humans : Z) (ratio : double) : option Z :=
  if humans <=? 0 then Some 1
  else
    c ← dceil (dsub (dmul ratio (of_int humans)) (dratio 1 1000000000));
    n ← cast_int c;
    Some (Z.max 1 (Z.min n humans)).

Definition isCurrent (current e : string) : bool :=
  let c := lower current in negb (sempty c) && ((lower e =s c) || (lower (MapDisplayName e) =s c)).

(** The nominations that go on the ballot. *)
Fixpoint take_nominations (current : string) (count : Z) (noms out : list string) (used : gset string) : list string * gset string :=
  match noms with
  | [] => (out, used)
  | n :: noms =>
      if count <=? zlen out then (out, used)
      else if isCurrent current n || bool_decide (lower n ∈ used) then take_nominations current count noms out used
      else take_nominations current count noms (out ++ [n]) ({[lower n]} ∪ used)
  end.

Definition recent_set (recent : list string) : gset string := list_to_set (lower <$> recent) ∪ list_to_set (lower ∘ MapDisplayName <$> recent).

(** The other maps: not current, not on the ballot, not recent; recent ones come back when the pool is small. *)
Definition fresh_maps (current : string) (pool : list string) (recent used : gset string) : list string :=
  List.filter (fun e => negb (isCurrent current e || bool_decide (lower e ∈ used) || bool_decide (lower e ∈ recent) ||
    bool_decide (lower (MapDisplayName e) ∈ recent))) pool.

Fixpoint add_missing (current : string) (used : gset string) (pool rest : list string) : list string :=
  match pool with
  | [] => rest
  | e :: pool =>
      if isCurrent current e || bool_decide (lower e ∈ used) then add_missing current used pool rest
      else add_missing current used pool (if existsb (fun x => x =s e) rest then rest else rest ++ [e])
  end.

(** [while (out.size() < count && !rest.empty())]; every round takes a map off [rest]. *)
Fixpoint draw (fuel : nat) (rng : nat -> Z -> Z) (k : nat) (count : Z) (out rest : list string) : option (list string) :=
  match fuel with
  | O => Some out
  | S fuel =>
      if (zlen out <? count) && negb (zlen rest =? 0) then
        let i := rng k (zlen rest) in
        if i <? 0 then None
        else e ← rest !! Z.to_nat i; draw fuel rng (S k) count (out ++ [e]) (delete (Z.to_nat i) rest)
      else Some out
  end.

Definition BuildBallot (pool nominations : list string) (currentMap : string) (recent : list string) (count : Z) (rng : nat -> Z -> Z) : option (list string) :=
  let '(out, used) := take_nominations currentMap count nominations [] ∅ in
  let rest := fresh_maps currentMap pool (recent_set recent) used in
  let rest := if zlen out + zlen rest <? count then add_missing currentMap used pool rest else rest in
  draw (S (length rest)) rng 0 count out rest.

(** The votes for an option. *)
Definition tally (votes : gmap Z Z) (i : Z) : Z := zlen (List.filter (fun kv : Z * Z => kv.2 =? i) (map_to_list votes)).

Definition options (n : Z) : list Z := Z.of_nat <$> seq 0 (Z.to_nat n).
Definition max_tally (votes : gmap Z Z) (n : Z) : Z := foldr Z.max 0 (tally votes <$> options n).

Definition Winner (optionCount : Z) (votes : gmap Z Z) (extendIndex : Z) (rng : nat -> Z -> Z) : option Z :=
  if optionCount <=? 0 then Some (-1)
  else
    let best := max_tally votes optionCount in
    let top := if best =? 0 then List.filter (fun i => negb (i =? extendIndex)) (options optionCount)
               else List.filter (fun i => tally votes i =? best) (options optionCount) in
    match top with
    | [] => Some extendIndex
    | _ => let i := rng O (zlen top) in if i <? 0 then None else top !! Z.to_nat i
    end.

Definition SecondsLeft (s : Settings) (mapStartedAt : double) (extends : Z) (now : double) : option Z :=
  if mapTimeMinutes s <=? 0 then Some (-1)
  else
    let total := dmul (dadd (of_int (mapTimeMinutes s)) (dmul (of_int extends) (of_int (extendMinutes s)))) (of_int 60) in
    c ← dceil (dsub total (dsub now mapStartedAt));
    n ← cast_int c;
    Some (Z.max 0 n).

Definition FormatClock (seconds : Z) : string :=
  let s := if seconds <? 0 then 0 else seconds in to_string (s / 60) +s+ ":" +s+ pad0 2 (s mod 60).

(** ** Settings *)

(** [intKey]: the new value and the warning, if any. *)
Definition intKey (get : string -> option string) (key : string) (lo hi dflt : Z) : Z * list string :=
  match get key with
  | None => (dflt, [])
  | Some v => match ParseInt (Trim v) lo hi with Some n => (n, []) | None => (dflt, ["bad value for " +s+ key +s+ ": " +s+ Trim v]) end
  end.

(** The code reads the end of the number after the trimmed copy it points into is gone; the model reads it
    as if the copy were still there. *)
Definition ratioKey (get : string -> option string) (dflt : double) : double * list string :=
  match get "rtv_ratio" with
  | None => (dflt, [])
  | Some v =>
      let '(d, rest) := default (of_int 0, Trim v) (scan_double (Trim v)) in
      if at_end rest && (of_int 0 <d d) && (d <=d of_int 1) then (d, []) else (dflt, ["bad value for rtv_ratio: " +s+ v])
  end.

Definition LoadSettings (get : string -> option string) : Settings * list string :=
  let d := DefaultSettings in
  let '(ratio, w0) := ratioKey get (rtvRatio d) in
  let '(minp, w1) := intKey get "rtv_min_players" 1 64 (rtvMinPlayers d) in
  let '(delay, w2) := intKey get "rtv_delay_seconds" 0 3600 (rtvDelaySeconds d) in
  let '(opts, w3) := intKey get "vote_options" 2 8 (voteOptions d) in
  let '(secs, w4) := intKey get "vote_seconds" 5 120 (voteSeconds d) in
  let '(mt, w5) := intKey get "map_time_minutes" 0 600 (mapTimeMinutes d) in
  let '(before, w6) := intKey get "vote_before_end_seconds" 10 600 (voteBeforeEndSeconds d) in
  let '(ext, w7) := intKey get "extend_minutes" 1 120 (extendMinutes d) in
  let '(maxe, w8) := intKey get "max_extends" 0 10 (maxExtends d) in
  let '(rec, w9) := intKey get "recent_maps_excluded" 0 20 (recentMapsExcluded d) in
  ({| enabled := match get "enabled" with Some v => negb (Trim v =s "0") | None => enabled d end;
      maps := match get "maps" with Some v => ParseMapList v | None => [] end;
      rtvRatio := ratio; rtvMinPlayers := minp; rtvDelaySeconds := delay; voteOptions := opts; voteSeconds := secs; mapTimeMinutes := mt;
      voteBeforeEndSeconds := before; extendMinutes := ext; maxExtends := maxe; recentMapsExcluded := rec |},
   w0 ++ w1 ++ w2 ++ w3 ++ w4 ++ w5 ++ w6 ++ w7 ++ w8 ++ w9).

Definition first_rng : nat -> Z -> Z := fun _ _ => 0.
Example ballot_sample :
  BuildBallot ["de_nuke"; "de_mirage"; "workshop/12/surf_a"; "de_train"] ["de_train"; "DE_TRAIN"; "surf_b"] "surf_a" ["de_nuke"] 4 first_rng =
    Some ["de_train"; "surf_b"; "de_mirage"; "de_nuke"] /\
  ParseMapList (" de_nuke, DE_NUKE" +s+ str1 newline +s+ "# no,de_train ,") = ["de_nuke"; "de_train"] /\
  MapDisplayName "workshop/3070" = "workshop 3070" /\ RtvNeeded 10 (dratio 6 10) = Some 6 /\ FormatClock 725 = "12:05".
Proof. vm_compute. done. Qed.

(** ** The map list *)

(** The entries so far: distinct up to case, no blanks, no comments; [seen] are their names. *)
Record list_ok (a : ListAcc) : Prop := {
  lk_nodup : NoDup (lower <$> out a); lk_seen : forall x, x ∈ seen a <-> x ∈ lower <$> out a; lk_entry : Forall (fun t => is_entry t = true) (out a) }.

Lemma flush_ok a : list_ok a -> list_ok (flush a).
Proof.
  intros [H1 H2 H3]. unfold flush. destruct (is_entry (Trim (cur a))) eqn:Ee; cbn; [|by split].
  case_bool_decide as Hs; [by split|]. split; cbn.
  - rewrite fmap_app. apply NoDup_app. split_and!; [done| |apply NoDup_singleton]. intros x Hx ->%list_elem_of_singleton. by apply Hs, H2.
  - intros x. rewrite fmap_app, elem_of_union, elem_of_singleton, elem_of_app, H2. cbn. rewrite list_elem_of_singleton. tauto.
  - apply Forall_app. split; [done|by constructor].
Qed.

Lemma sfoldl_ind {A} (P : A -> Prop) (f : A -> ascii -> A) s : (forall a c, P a -> P (f a c)) -> forall a, P a -> P (sfoldl f a s).
Proof. intros Hf. induction s as [|c s IH]; intros a Ha; [done|]. cbn. by apply IH, Hf. Qed.

Lemma ParseMapList_ok text : NoDup (lower <$> ParseMapList text) /\ Forall (fun t => is_entry t = true) (ParseMapList text).
Proof.
  unfold ParseMapList. enough (list_ok (flush (sfoldl list_char {| out := []; seen := ∅; cur := EmptyString |} text))) as [? _ ?] by done.
  apply flush_ok, sfoldl_ind; [|split; cbn; [constructor|set_solver|constructor]].
  intros a c Ha. unfold list_char. case_if; [by apply flush_ok|]. destruct Ha. by split.
Qed.

(** ** The ballot *)

Section ballot.
Context (pool nominations : list string) (current : string) (recent : list string) (count : Z) (rng : nat -> Z -> Z).
Hypothesis (Hpool : NoDup (lower <$> pool)) (Hrng : forall k n, 0 < n -> 0 <= rng k n < n).

Definition listed (l : list string) (used : gset string) : Prop :=
    NoDup (lower <$> l) /\ (forall x, x ∈ used <-> x ∈ lower <$> l) /\
    Forall (fun e => isCurrent current e = false /\ e ∈ nominations) l /\ zlen l <= Z.max 0 count.

Lemma take_nominations_listed noms : forall l used, (forall n, n ∈ noms -> n ∈ nominations) -> listed l used ->
  listed (take_nominations current count noms l used).1 (take_nominations current count noms l used).2.
Proof.
  clear Hpool Hrng. induction noms as [|n noms IH]; intros l used Hin Hl; [done|]. cbn. case_if; [done|].
  destruct (isCurrent current n) eqn:Ec; cbn; [apply IH; [set_solver|done]|]. case_bool_decide as Hu; [apply IH; [set_solver|done]|].
  apply IH; [set_solver|]. destruct Hl as (H1 & H2 & H3 & H4). split_bools. split_and!.
  - rewrite fmap_app. apply NoDup_app. split_and!; [done| |apply NoDup_singleton]. intros x Hx ->%list_elem_of_singleton. by apply Hu, H2.
  - intros x. rewrite fmap_app, elem_of_union, elem_of_singleton, elem_of_app, H2. cbn. rewrite list_elem_of_singleton. tauto.
  - apply Forall_app. split; [done|]. constructor; [|constructor]. split; [done|]. apply Hin. left.
  - rewrite zlen_app. unfold zlen at 2. cbn. lia.
Qed.

(** A map of the pool that may still go on the ballot. *)
Definition eligible (used : gset string) (e : string) : Prop := isCurrent current e = false /\ (lower e ∉ used) /\ e ∈ pool.

Lemma fresh_maps_ok recent' used : NoDup (lower <$> fresh_maps current pool recent' used) /\ Forall (eligible used) (fresh_maps current pool recent' used).
Proof.
  unfold fresh_maps. split.
  - clear Hrng. revert Hpool. induction pool as [|e l IH]; [done|]. cbn. intros [Hn Hd]%NoDup_cons. case_if; [|by apply IH]. cbn. apply NoDup_cons.
    split; [|by apply IH]. intros (x & Ex & Hx)%list_elem_of_fmap. apply list_elem_of_In, filter_In in Hx as [Hx _]. apply Hn, list_elem_of_fmap.
    exists x. split; [done|]. by apply list_elem_of_In.
  - apply Forall_forall. intros e He. apply list_elem_of_In, filter_In in He as [Hin Hc].
    apply negb_true_iff in Hc. repeat (apply orb_false_elim in Hc as [Hc ?]). split_and!; [done| |by apply list_elem_of_In]. by eapply bool_decide_eq_false_1.
Qed.

Lemma lower_inj x y : x ∈ pool -> y ∈ pool -> lower x = lower y -> x = y.
Proof.
  clear Hrng. intros Hx Hy E. apply list_elem_of_lookup in Hx as [i Hi], Hy as [j Hj].
  assert (i = j) as ->; [|congruence]. eapply (NoDup_lookup (lower <$> pool)); [done| |]; rewrite list_lookup_fmap; [by rewrite Hi|by rewrite Hj, E].
Qed.

Lemma add_missing_ok used l : forall rest, (forall e, e ∈ l -> e ∈ pool) -> NoDup (lower <$> rest) -> Forall (eligible used) rest ->
  let r := add_missing current used l rest in
  NoDup (lower <$> r) /\ Forall (eligible used) r /\ (forall e, e ∈ rest -> e ∈ r) /\ (forall e, e ∈ l -> eligible used e -> e ∈ r).
Proof.
  induction l as [|e l IH]; intros rest Hin Hnd Hel; [cbn; split_and!; try done; set_solver|]. cbn.
  assert (e ∈ pool) as Hep by (apply Hin; left). assert (forall x, x ∈ l -> x ∈ pool) as Hin' by (intros; apply Hin; by right).
  destruct (isCurrent current e || bool_decide (lower e ∈ used)) eqn:Ec.
  - destruct (IH rest Hin' Hnd Hel) as (A & B & C & D). split_and!; try done. intros x [-> |Hx]%elem_of_cons He; [|by apply D].
    destruct He as (H1 & H2 & _). apply orb_prop in Ec as [Ec|Ec%bool_decide_eq_true]; [congruence|done].
  - apply orb_false_elim in Ec as [Ec Hu%bool_decide_eq_false].
    assert (NoDup (lower <$> (if existsb (fun x => x =s e) rest then rest else rest ++ [e])) /\
            Forall (eligible used) (if existsb (fun x => x =s e) rest then rest else rest ++ [e])) as [Hnd' Hel'].
    { destruct (existsb (fun x => x =s e) rest) eqn:Ex; [done|]. split; [|apply Forall_app; split; [done|by constructor]].
      rewrite fmap_app. apply NoDup_app. split_and!; [done| |apply NoDup_singleton]. intros n (x & -> & Hx)%list_elem_of_fmap Hn%list_elem_of_singleton.
      assert (x = e) as ->.
      { apply lower_inj; [|done|done]. rewrite Forall_forall in Hel. by apply Hel in Hx as (_ & _ & ?). }
      apply not_true_iff_false in Ex. apply Ex, existsb_exists. exists e. split; [by apply list_elem_of_In|apply String.eqb_refl]. }
    destruct (IH _ Hin' Hnd' Hel') as (A & B & C & D). split_and!; try done.
    + intros x Hx. apply C. case_if; [done|]. apply elem_of_app. by left.
    + intros x [-> |Hx]%elem_of_cons He; [|by apply D]. apply C. destruct (existsb (fun x => x =s e) rest) eqn:Ex; [|apply elem_of_app; right; left].
      apply existsb_exists in Ex as (y & Hy & ->%String.eqb_eq). by apply list_elem_of_In.
Qed.

Lemma draw_spec fuel : forall k l rest, (length rest < fuel)%nat ->
  exists picks rest', draw fuel rng k count l rest = Some (l ++ picks) /\ picks ++ rest' ≡ₚ rest /\
    zlen (l ++ picks) <= Z.max count (zlen l) /\ (zlen (l ++ picks) < count -> rest' = []).
Proof.
  clear Hpool. induction fuel as [|fuel IH]; intros k l rest Hf; [lia|]. cbn [draw]. destruct ((zlen l <? count) && negb (zlen rest =? 0)) eqn:Ec.
  - apply andb_prop in Ec as [E1 E2]. apply negb_true_iff in E2. split_bools. pose proof (zlen_nonneg rest) as Hr.
    destruct (Hrng k (zlen rest) ltac:(lia)) as [Hi1 Hi2]. replace (rng k (zlen rest) <? 0) with false by (symmetry; apply Z.ltb_ge; lia).
    destruct (lookup_lt_is_Some_2 rest (Z.to_nat (rng k (zlen rest)))) as [e He]; [unfold zlen in *; lia|]. rewrite He. cbn [mbind option_bind].
    destruct (IH (S k) (l ++ [e]) (delete (Z.to_nat (rng k (zlen rest))) rest)) as (picks & rest' & Hd & Hp & Hl & Hend).
    { rewrite length_delete by eauto. unfold zlen in *; lia. }
    exists (e :: picks), rest'. rewrite <- app_assoc in Hd, Hl, Hend. cbn in Hd, Hl, Hend. split_and!; [done| | |done].
    + cbn. rewrite Hp. symmetry. by apply delete_Permutation.
    + rewrite (zlen_app l [e]) in Hl. replace (zlen [e]) with 1 in Hl by done. lia.
  - exists [], rest. rewrite app_nil_r. split_and!; [done|done|lia|]. intros Hlt. apply andb_false_iff in Ec as [Ec|Ec]; split_bools; [lia|].
    destruct rest; [done|]. rewrite zlen_cons in *. pose proof (zlen_nonneg rest). lia.
Qed.

Lemma ballot_spec : exists b tail, BuildBallot pool nominations current recent count rng = Some b /\
  b = (take_nominations current count nominations [] ∅).1 ++ tail /\ zlen b <= Z.max 0 count /\ NoDup (lower <$> b) /\
  Forall (fun e => isCurrent current e = false /\ (e ∈ nominations \/ e ∈ pool)) b /\
  (zlen b < count -> forall e, e ∈ pool -> isCurrent current e = false -> lower e ∈ lower <$> b).
Proof.
  unfold BuildBallot. pose proof (take_nominations_listed nominations [] ∅ ltac:(done)) as Hl.
  destruct (take_nominations current count nominations [] ∅) as [l used]. cbn [fst snd] in Hl.
  destruct Hl as (L1 & L2 & L3 & L4); [split_and!; cbn; [constructor|set_solver|constructor|unfold zlen; cbn; lia]|].
  set (rest0 := fresh_maps current pool (recent_set recent) used). destruct (fresh_maps_ok (recent_set recent) used) as [F1 F2]. fold rest0 in F1, F2.
  set (rest := if zlen l + zlen rest0 <? count then _ else _).
  assert (NoDup (lower <$> rest) /\ Forall (eligible used) rest /\
    (zlen l + zlen rest0 < count -> forall e, e ∈ pool -> eligible used e -> e ∈ rest)) as (R1 & R2 & R3).
  { destruct (add_missing_ok used pool rest0 ltac:(done) F1 F2) as (A & B & _ & D). unfold rest. destruct (Z.ltb_spec (zlen l + zlen rest0) count); [done|].
    split_and!; [done|done|lia]. }
  assert (zlen l + zlen rest0 < count \/ (rest = rest0 /\ count <= zlen l + zlen rest0)) as Hcase.
  { unfold rest. destruct (Z.ltb_spec (zlen l + zlen rest0) count); [by left|by right]. }
  destruct (draw_spec (S (length rest)) O l rest ltac:(lia)) as (picks & rest' & Hd & Hp & Hlen & Hend).
  assert (forall e, e ∈ picks -> e ∈ rest) as Hsub by (intros e He; rewrite <- Hp; apply elem_of_app; by left).
  exists (l ++ picks), picks. split_and!; [done|done|lia| | |].
  - rewrite fmap_app. apply NoDup_app. split_and!; [done| |].
    + intros x Hx (e & -> & He)%list_elem_of_fmap. rewrite Forall_forall in R2. destruct (R2 e (Hsub e He)) as (_ & Hn & _). by apply Hn, L2.
    + rewrite <- Hp in R1. rewrite fmap_app in R1. by apply NoDup_app in R1 as (? & _).
  - apply Forall_app. split; [eapply Forall_impl; [exact L3|cbn; tauto]|]. apply Forall_forall. intros e He. rewrite Forall_forall in R2.
    destruct (R2 e (Hsub e He)) as (H1 & _ & H2). auto.
  - intros Hlt e He Hcur. specialize (Hend Hlt). subst rest'. rewrite app_nil_r in Hp.
    rewrite fmap_app. apply elem_of_app. destruct (decide (lower e ∈ used)) as [Hu|Hu]; [left; by apply L2|right].
    apply list_elem_of_fmap. exists e. split; [done|]. rewrite Hp. destruct Hcase as [Hc|[-> Hc]]; [by apply R3|].
    exfalso. rewrite zlen_app in Hlt. assert (zlen picks = zlen rest0) as E by (unfold zlen; by rewrite Hp). lia.
Qed.
End ballot.

(** The ballot of a map vote: whatever the random source answers, for a pool without repeated maps (the
    map list parser makes none), building it succeeds; it has at most [count] entries and no map twice; the
    current map is not on it; every entry was nominated or is in the pool, nominations first, in order; and when it
    comes out short, every other map of the pool is on it. *)
Theorem ballot_sound (pool nominations : list string) (current : string) (recent : list string) (count : Z) (rng : nat -> Z -> Z) :
  NoDup (lower <$> pool) -> (forall k n, 0 < n -> 0 <= rng k n < n) ->
  exists b tail, BuildBallot pool nominations current recent count rng = Some b /\
    b = (take_nominations current count nominations [] ∅).1 ++ tail /\ zlen b <= Z.max 0 count /\ NoDup (lower <$> b) /\
    Forall (fun e => isCurrent current e = false /\ (e ∈ nominations \/ e ∈ pool)) b /\
    (zlen b < count -> forall e, e ∈ pool -> isCurrent current e = false -> lower e ∈ lower <$> b).
Proof. apply ballot_spec. Qed.

Lemma ballot_sound_witness :
  let pool := ParseMapList "de_nuke,de_mirage,de_train" in
  exists b tail, BuildBallot pool ["surf_b"] "de_nuke" ["de_mirage"] 4 first_rng = Some b /\
    b = (take_nominations "de_nuke" 4 ["surf_b"] [] ∅).1 ++ tail /\ zlen b <= Z.max 0 4 /\ NoDup (lower <$> b) /\
    Forall (fun e => isCurrent "de_nuke" e = false /\ (e ∈ ["surf_b"] \/ e ∈ pool)) b /\
    (zlen b < 4 -> forall e, e ∈ pool -> isCurrent "de_nuke" e = false -> lower e ∈ lower <$> b).
Proof. apply ballot_sound; [apply ParseMapList_ok|unfold first_rng; lia]. Defined.

(** ** The winner *)

Lemma foldr_max_ge (l : list Z) x : x ∈ l -> x <= foldr Z.max 0 l.
Proof. induction l as [|y l IH]; [by intros ?%elem_of_nil|]. cbn. intros [-> |H%IH]%elem_of_cons; lia. Qed.

Lemma foldr_max_in (l : list Z) : foldr Z.max 0 l <> 0 -> foldr Z.max 0 l ∈ l.
Proof.
  induction l as [|y l IH]; [done|]. cbn. intros H. destruct (Z.max_spec y (foldr Z.max 0 l)) as [[_ E]|[_ E]]; rewrite E in *; [right; auto|left].
Qed.

Lemma options_in n i : i ∈ options n <-> 0 <= i < n.
Proof.
  unfold options. rewrite list_elem_of_fmap. split.
  - intros (k & -> & Hk%elem_of_seq). lia.
  - intros Hi. exists (Z.to_nat i). split; [lia|]. apply elem_of_seq. lia.
Qed.

(** The winner of a map vote: with at least one option there is one, it is on the ballot and no option
    has more votes; without any vote it is a map, never the extension, unless the extension is the only option. *)
Theorem winner_fair (optionCount : Z) (votes : gmap Z Z) (extendIndex : Z) (rng : nat -> Z -> Z) :
  0 < optionCount -> (forall k n, 0 < n -> 0 <= rng k n < n) ->
  exists w, Winner optionCount votes extendIndex rng = Some w /\ 0 <= w < optionCount /\
    (forall i, 0 <= i < optionCount -> tally votes i <= tally votes w) /\
    ((forall i, 0 <= i < optionCount -> tally votes i = 0) -> w = extendIndex -> optionCount = 1).
Proof.
  intros Hn Hrng. unfold Winner. replace (optionCount <=? 0) with false by (symmetry; apply Z.leb_gt; lia).
  set (best := max_tally votes optionCount).
  assert (forall i, 0 <= i < optionCount -> tally votes i <= best) as Hbest.
  { intros i Hi. apply foldr_max_ge, list_elem_of_fmap. exists i. split; [done|by apply options_in]. }
  assert (forall i, 0 <= tally votes i) as Hnn by (intros; apply zlen_nonneg).
  set (top := if best =? 0 then _ else _).
  assert (forall w, w ∈ top -> 0 <= w < optionCount /\ tally votes w = best /\ (best = 0 -> w <> extendIndex)) as Htop.
  { intros w. unfold top. destruct (Z.eqb_spec best 0) as [Eb|Eb]; rewrite list_elem_of_In, filter_In, <- list_elem_of_In, options_in; intros [Hw Hc].
    - apply negb_true_iff in Hc. split_bools. split_and!; [lia|lia| |done]. specialize (Hbest w Hw). specialize (Hnn w). lia.
    - split_bools. done. }
  assert (top = [] -> best = 0 /\ extendIndex = 0 /\ optionCount = 1) as Hempty.
  { unfold top. destruct (Z.eqb_spec best 0) as [Eb|Eb].
    - intros Ht. assert (forall i, 0 <= i < optionCount -> i = extendIndex) as Hall.
      { intros i Hi. destruct (Z.eq_dec i extendIndex) as [|Hne]; [done|]. assert (i ∈ (@nil Z)) as []%elem_of_nil. rewrite <- Ht.
        apply list_elem_of_In, filter_In. split; [by apply list_elem_of_In, options_in|]. by apply negb_true_iff, Z.eqb_neq. }
      pose proof (Hall 0 ltac:(lia)). split_and!; [done|lia|]. destruct (Z.eq_dec optionCount 1) as [|]; [done|]. specialize (Hall 1). lia.
    - intros Ht. assert (best ∈ tally votes <$> options optionCount) as Hin by by apply foldr_max_in.
      apply list_elem_of_fmap in Hin as (i & Ei & Hi). assert (i ∈ (@nil Z)) as []%elem_of_nil. rewrite <- Ht.
      apply list_elem_of_In, filter_In. split; [by apply list_elem_of_In|]. apply Z.eqb_eq. done. }
  destruct top as [|x t] eqn:Et.
  - destruct (Hempty eq_refl) as (E1 & -> & E2). exists 0. split_and!; [done|lia|lia| |done]. intros i Hi. specialize (Hbest i Hi). specialize (Hnn 0). lia.
  - assert (0 < zlen (x :: t)) as Hpos by (rewrite zlen_cons; pose proof (zlen_nonneg t); lia). destruct (Hrng O _ Hpos) as [Hi1 Hi2].
    replace (rng 0%nat (zlen (x :: t)) <? 0) with false by (symmetry; apply Z.ltb_ge; lia).
    destruct (lookup_lt_is_Some_2 (x :: t) (Z.to_nat (rng 0%nat (zlen (x :: t))))) as [w Hw]; [unfold zlen in *; lia|].
    destruct (Htop w) as (H1 & H2 & H3); [by eapply list_elem_of_lookup_2|]. exists w. split_and!; [done|lia|lia| |].
    + intros i Hi. rewrite H2. by apply Hbest.
    + intros H0 ->. exfalso. apply H3; [|done]. rewrite <- H2. by apply H0.
Qed.

Lemma winner_fair_witness :
  exists w, Winner 3 {[1 := 2; 5 := 0; 9 := 2]} 2 first_rng = Some w /\ 0 <= w < 3 /\
    (forall i, 0 <= i < 3 -> tally {[1 := 2; 5 := 0; 9 := 2]} i <= tally {[1 := 2; 5 := 0; 9 := 2]} w) /\
    ((forall i, 0 <= i < 3 -> tally {[1 := 2; 5 := 0; 9 := 2]} i = 0) -> w = 2 -> 3 = 1).
Proof. apply winner_fair; [lia|unfold first_rng; lia]. Defined.

(** The votes [.rtv] needs: at least one, never more than the players. *)
Lemma RtvNeeded_bounds humans ratio n : RtvNeeded humans ratio = Some n -> 1 <= n <= Z.max 1 humans.
Proof.
  unfold RtvNeeded. case_if; split_bools; [intros [= <-]; lia|]. destruct (dceil _) as [c|]; [|done]. cbn. destruct (cast_int c); [|done]. cbn.
  intros [= <-]. lia.
Qed.

(** Every loaded setting is within its range. *)
Lemma intKey_range get key lo hi dflt : lo <= dflt <= hi -> lo <= (intKey get key lo hi dflt).1 <= hi.
Proof.
  intros Hd. unfold intKey, ParseInt. destruct (get key) as [v|]; [|done]. destruct (scan_int (Trim v)) as [[n rest]|]; [|done].
  destruct (_ || _) eqn:E; [done|]. repeat (apply orb_false_elim in E as [E ?]). split_bools. cbn. lia.
Qed.
End MapVote.
