(* ===== verification/Simulation.v ===== *)
(** * Simulated matches

    [plugins/match/readyup/simulation_rules.{h,cpp}]: which bot plays as which roster player, how many bots a
    side needs and when the next one is added.  [std::map]s are [gmap]s; their loops run in key order, which
    [sorted_entries] gives.  Theorems: the assignment of identities, the feeder's quota. *)

From stdpp Require Import sorting.
From S2P Require Import Prelude CStr Double MatchConfig.

Module Sim.

Record Identity := { id_steamid64 : Z; id_name : string; id_team : Z }.
Record Bot := { userid : Z; bot_side : Z }.

(** "2", "1.5", "0.25". *)
Definition TimescaleText (ts : double) : string := trim_number (fmt_f 2 (ClampTimescale ts)).

(** ** Bot fill *)

Record FillPlan := { ctWanted : Z; tWanted : Z; removeUserids : list Z }.

(** The loop over the bots: the counts per side and who is too many. *)
Definition fill_step (ctW tW : Z) (x : Z * Z * list Z) (b : Bot) : Z * Z * list Z :=
  let '(ct, t, rm) := x in
  let '(ct, rm) := if bot_side b =? 3 then (ct + 1, if ctW <? ct + 1 then rm ++ [userid b] else rm) else (ct, rm) in
  let '(t, rm) := if bot_side b =? 2 then (t + 1, if tW <? t + 1 then rm ++ [userid b] else rm) else (t, rm) in
  (ct, t, rm).

Definition PlanFill (playersPerTeam humansCt humansT : Z) (bots : list Bot) : FillPlan :=
  let size := Z.max 1 (Z.min 32 playersPerTeam) in
  let ctW := Z.max 0 (size - Z.max 0 humansCt) in
  let tW := Z.max 0 (size - Z.max 0 humansT) in
  let '(_, _, rm) := foldl (fill_step ctW tW) (0, 0, []) bots in
  {| ctWanted := ctW; tWanted := tW; removeUserids := rm |}.

(** One entry of [missingSince]: what becomes of it ([None] = erased) and whether its seat is held. *)
Definition held_entry (here : list Z) (now : double) (holdSeconds : Z) (k : Z) (since : double) : option double * bool :=
  if existsb (fun x => x =? k) here then (Some (of_int 0), false)
  else
    let since := if since =d of_int 0 then now else since in
    if (holdSeconds <=? 0) || (of_int holdSeconds <d dsub now since) then (None, false) else (Some since, true).

(** The entries of a map in key order. *)
Definition by_key {A} : relation (Z * A) := fun a b => a.1 <= b.1.
#[export] Instance by_key_dec {A} (a b : Z * A) : Decision (by_key a b).
Proof. unfold by_key. apply _. Defined.
Definition sorted_entries {A} (m : gmap Z A) : list (Z * A) := merge_sort by_key (map_to_list m).

Definition HeldSeats (missingSince : gmap Z double) (here : list Z) (now : double) (holdSeconds : Z) : gmap Z double * list Z :=
  (map_imap (fun k since => (held_entry here now holdSeconds k since).1) missingSince,
   omap (fun kv => if (held_entry here now holdSeconds kv.1 kv.2).2 then Some kv.1 else None) (sorted_entries missingSince)).

(** ** Identities *)

Definition by_steamid : relation Identity := fun a b => id_steamid64 a <= id_steamid64 b.
#[local] Instance by_steamid_dec a b : Decision (by_steamid a b).
Proof. unfold by_steamid. apply _. Defined.

Definition team_identities (roster : list Identity) (fillPerTeam team : Z) : list Identity :=
  let mine := merge_sort by_steamid (List.filter (fun r => (id_team r =? team) && negb (id_steamid64 r =? 0)) roster) in
  match mine with
  | [] => replicate (Z.to_nat fillPerTeam) {| id_steamid64 := 0; id_name := EmptyString; id_team := team |}
  | _ => mine
  end.

Definition PlanIdentities (roster : list Identity) (fillPerTeam : Z) : list Identity :=
  team_identities roster fillPerTeam 1 ++ team_identities roster fillPerTeam 2.

Definition SideOfTeam (team : Z) (team1IsCt : bool) : Z :=
  if team =? 1 then (if team1IsCt then 3 else 2) else if team =? 2 then (if team1IsCt then 2 else 3) else 0.

(** Who plays as whom: userid to index, and the indices taken. *)
Abbreviation Assignment := (gmap Z Z * gset Z)%type.

Definition keep_one (bots : list Bot) (ids : list Identity) (x : Assignment) (kv : Z * Z) : Assignment :=
  if negb (existsb (fun b => userid b =? kv.1) bots) || (kv.2 <? 0) || (zlen ids <=? kv.2) || bool_decide (kv.2 ∈ x.2) then x
  else (<[kv.1 := kv.2]> x.1, {[kv.2]} ∪ x.2).

(** The first free identity of the team on the bot's side. *)
Fixpoint free_identity (i : Z) (ids : list Identity) (team1IsCt : bool) (side : Z) (used : gset Z) : option Z :=
  match ids with
  | [] => None
  | x :: ids => if bool_decide (i ∈ used) || negb (SideOfTeam (id_team x) team1IsCt =? side) then free_identity (i + 1) ids team1IsCt side used else Some i
  end.

Definition give_one (ids : list Identity) (team1IsCt : bool) (x : Assignment) (b : Bot) : Assignment :=
  if (userid b <? 0) || match x.1 !! userid b with Some _ => true | None => false end || (negb (bot_side b =? 2) && negb (bot_side b =? 3)) then x
  else match free_identity 0 ids team1IsCt (bot_side b) x.2 with
       | Some i => (<[userid b := i]> x.1, {[i]} ∪ x.2)
       | None => x
       end.

Definition by_userid : relation Bot := fun a b => userid a <= userid b.
#[local] Instance by_userid_dec a b : Decision (by_userid a b).
Proof. unfold by_userid. apply _. Defined.

Definition kept (prev : gmap Z Z) (bots : list Bot) (ids : list Identity) : Assignment :=
  foldl (keep_one bots ids) (∅, ∅) (sorted_entries prev).

Definition Assign (prev : gmap Z Z) (bots : list Bot) (ids : list Identity) (team1IsCt : bool) : gmap Z Z :=
  (foldl (give_one ids team1IsCt) (kept prev bots ids) (merge_sort by_userid bots)).1.

Definition WantedPerSide (ids : list Identity) (team1IsCt : bool) : Z * Z :=
  (zlen (List.filter (fun x => SideOfTeam (id_team x) team1IsCt =? 3) ids), zlen (List.filter (fun x => SideOfTeam (id_team x) team1IsCt =? 2) ids)).

(** ** The feeder *)

Record BotFeeder := { sent_ : Z; lastAdd_ : double; unsettledSince_ : double; lastTrim_ : double }.
Definition NewFeeder : BotFeeder := {| sent_ := 0; lastAdd_ := of_int (-1000000000); unsettledSince_ := of_int (-1); lastTrim_ := of_int (-1000000000) |}.
Definition kAddInterval : double := of_int 1.
Definition kSettleSeconds : double := of_int 8.

Definition set_wait (since : double) (sent : Z) (f : BotFeeder) : BotFeeder :=
  {| sent_ := sent; lastAdd_ := lastAdd_ f; unsettledSince_ := since; lastTrim_ := lastTrim_ f |}.

(** The wait for a bot that has not appeared or has no side yet: [None] while it lasts. *)
Definition settle (now : double) (total ct t : Z) (f : BotFeeder) : BotFeeder * bool :=
  if (total <? sent_ f) || (ct + t <? total) then
    let since := if unsettledSince_ f <d of_int 0 then now else unsettledSince_ f in
    if dsub now since <d kSettleSeconds then (set_wait since (sent_ f) f, false)
    else (set_wait now total f, true)
  else (set_wait (of_int (-1)) (sent_ f) f, true).

(** The side (0 = none) and the quota. *)
Definition Next (now : double) (total ct t ctWanted tWanted maxBots : Z) (f : BotFeeder) : BotFeeder * (Z * Z) :=
  let '(f, go) := settle now total ct t f in
  if negb go then (f, (0, 0))
  else if dsub now (lastAdd_ f) <d kAddInterval then (f, (0, 0))
  else if maxBots <=? total then (f, (0, 0))
  else
    let ctShort := ctWanted - ct in
    let tShort := tWanted - t in
    let side := if (0 <? ctShort) && (tShort <=? ctShort) then 3 else if 0 <? tShort then 2 else 0 in
    if side =? 0 then (f, (0, 0))
    else
      let q := Z.max (sent_ f) total + 1 in
      ({| sent_ := q; lastAdd_ := now; unsettledSince_ := unsettledSince_ f; lastTrim_ := lastTrim_ f |}, (side, q)).

Definition Trim (now : double) (total ct t ctWanted tWanted : Z) (f : BotFeeder) : BotFeeder * option Z :=
  let wanted := ctWanted + tWanted in
  if (wanted <=? 0) || (total <=? wanted) then (f, None)
  else if (total <? sent_ f) || (ct + t <? total) then (f, None)
  else if dsub now (lastTrim_ f) <d kSettleSeconds then (f, None)
  else ({| sent_ := wanted; lastAdd_ := lastAdd_ f; unsettledSince_ := unsettledSince_ f; lastTrim_ := now |}, Some wanted).

(** [std::fmod(x, 2.0)] of a finite [x >= 0]: exact. *)
Definition fmod2 (x : double) : double := match exact x with Some (n, k) => dratio (n mod (2 * 2 ^ k)) (2 ^ k) | None => S754_nan end.
Definition ReadyDelaySeconds (index : Z) : double :=
  let i := if index <? 0 then 0 else index in dadd (dratio 3 2) (fmod2 (dmul (of_int i) (dratio 7 10))).

(** ** Commands *)

Definition SetupCommands : list string :=
  ["bot_quota 0"; "bot_kick"; "bot_quota_mode normal"; "bot_join_after_player 0"; "mp_autoteambalance 0"; "mp_limitteams 0"; "mp_autokick 0";
   "bot_stop 0"; "bot_freeze 0"; "bot_dont_shoot 0"; "bot_ignore_enemies 0"; "bot_defer_to_human_goals 0"; "bot_defer_to_human_items 0"].
Definition TeardownCommands : list string := ["bot_quota 0"; "bot_kick"; "bot_join_team any"; "bot_join_after_player 1"].
Definition without_kick (l : list string) : list string := List.filter (fun c => negb (c =s "bot_kick")) l.
Definition FillSetupCommands : list string := without_kick SetupCommands.
Definition FillTeardownCommands : list string := without_kick TeardownCommands.
Definition AddBotCommands (side quota : Z) : list string :=
  [if side =? 3 then "bot_join_team CT" else "bot_join_team T"; "bot_quota " +s+ to_string quota].
Definition WrongSides (ct t ctWanted tWanted : Z) : bool := ((ctWanted <? ct) && (t <? tWanted)) || ((tWanted <? t) && (ct <? ctWanted)).
Definition TimescaleCommands (ts : double) : list string :=
  let v := ClampTimescale ts in if v =d of_int 1 then [] else ["sv_cheats 1"; "host_timescale " +s+ TimescaleText v].
Definition RealTimeCommands : list string := ["host_timescale 1"; "sv_cheats 0"].

Example timescale_texts : TimescaleText (of_int 2) = "2" /\ TimescaleText (dratio 3 2) = "1.5" /\ TimescaleText (of_int 9) = "4".
Proof. vm_compute. done. Qed.
Example assign_sample :
  let ids := [{| id_steamid64 := 7; id_name := "a"; id_team := 1 |}; {| id_steamid64 := 8; id_name := "b"; id_team := 2 |}] in
  sorted_entries (Assign {[5 := 1]} [{| userid := 5; bot_side := 2 |}; {| userid := 3; bot_side := 3 |}; {| userid := 4; bot_side := 3 |}] ids true) = [(3, 0); (5, 1)].
Proof. vm_compute. reflexivity. Qed.

(** ** The assignment *)

Section assignment.
Context (bots : list Bot) (ids : list Identity) (team1IsCt : bool).

(** Indices are in range, used up and used once. *)
Record assign_ok (x : Assignment) : Prop := {
    as_range : forall u i, x.1 !! u = Some i -> 0 <= i < zlen ids /\ i ∈ x.2;
    as_inj : forall u v i, x.1 !! u = Some i -> x.1 !! v = Some i -> u = v;
    as_here : forall u i, x.1 !! u = Some i -> existsb (fun b => userid b =? u) bots = true }.

Lemma assign_insert x u i : assign_ok x -> 0 <= i < zlen ids -> i ∉ x.2 -> existsb (fun b => userid b =? u) bots = true -> assign_ok (<[u := i]> x.1, {[i]} ∪ x.2).
Proof.
  intros [H1 H2 H3] Hi Hn Hb. split; cbn.
  - intros v j. rewrite lookup_insert_Some. intros [[<- <-]|[_ Hv]]; [split; [done|set_solver]|]. destruct (H1 v j Hv). split; [done|set_solver].
  - intros v w j. rewrite !lookup_insert_Some. intros [[<- <-]|[_ Hv]] [[<- ?]|[_ Hw]]; subst; try done; [| |by eapply H2].
    + by destruct (H1 w _ Hw).
    + by destruct (H1 v _ Hv).
  - intros v j. rewrite lookup_insert_Some. intros [[<- _]|[_ Hv]]; [done|eauto].
Qed.

Lemma keep_one_ok x kv : assign_ok x -> assign_ok (keep_one bots ids x kv).
Proof.
  intros Hx. unfold keep_one. destruct (existsb _ bots) eqn:Eb; cbn [negb orb]; [|done]. destruct (kv.2 <? 0) eqn:E1; [done|]. destruct (zlen ids <=? kv.2) eqn:E2; [done|].
  cbn [orb]. case_bool_decide; [done|]. split_bools. by apply assign_insert.
Qed.

Lemma free_identity_Some l side used : forall i j, free_identity i l team1IsCt side used = Some j ->
  i <= j < i + zlen l /\ (j ∉ used) /\ exists x, l !! Z.to_nat (j - i) = Some x /\ SideOfTeam (id_team x) team1IsCt = side.
Proof.
  induction l as [|x l IH]; intros i j; cbn; [done|]. rewrite zlen_cons. pose proof (zlen_nonneg l). case_bool_decide as Hu; cbn [orb].
  - intros (H1 & H2 & y & Hy & Hs)%IH. split_and!; [lia|lia|done|]. exists y. replace (Z.to_nat (j - i)) with (S (Z.to_nat (j - (i + 1)))) by lia. done.
  - destruct (SideOfTeam (id_team x) team1IsCt =? side) eqn:Es; cbn.
    + intros [= <-]. split_bools. split_and!; [lia|lia|done|]. exists x. by replace (Z.to_nat (i - i)) with O by lia.
    + intros (H1 & H2 & y & Hy & Hs)%IH. split_and!; [lia|lia|done|]. exists y. replace (Z.to_nat (j - i)) with (S (Z.to_nat (j - (i + 1)))) by lia. done.
Qed.

(** What one bot gets: the entries so far stay, and a new one is on the bot's side. *)
Definition grown (x y : Assignment) : Prop :=
    forall u i, y.1 !! u = Some i -> x.1 !! u = Some i \/
      exists b id, b ∈ bots /\ userid b = u /\ ids !! Z.to_nat i = Some id /\ SideOfTeam (id_team id) team1IsCt = bot_side b.

Lemma give_one_ok x b : b ∈ bots -> assign_ok x -> let y := give_one ids team1IsCt x b in
  assign_ok y /\ grown x y /\ (forall u i, x.1 !! u = Some i -> y.1 !! u = Some i).
Proof.
  intros Hb Hx. unfold give_one. assert (assign_ok x /\ grown x x /\ (forall u i, x.1 !! u = Some i -> x.1 !! u = Some i)) as Hsame by (split_and!; [done|by left|done]).
  destruct (userid b <? 0); [done|]. destruct (x.1 !! userid b) as [|] eqn:El; [done|]. cbn [orb]. case_if; [done|].
  destruct (free_identity 0 ids team1IsCt (bot_side b) x.2) as [j|] eqn:Ef; [|done]. apply free_identity_Some in Ef as (H1 & H2 & id & Hid & Hs).
  rewrite Z.sub_0_r in Hid. split_and!.
  - apply assign_insert; [done|lia|done|]. apply existsb_exists. exists b. split; [by apply list_elem_of_In|apply Z.eqb_refl].
  - intros u i. cbn. rewrite lookup_insert_Some. intros [[<- <-]|[_ Hu]]; [right|by left]. by exists b, id.
  - intros u i Hu. cbn. apply lookup_insert_Some. right. split; [|done]. intros <-. congruence.
Qed.

Lemma give_all_ok l : forall x, (forall b, b ∈ l -> b ∈ bots) -> assign_ok x -> let y := foldl (give_one ids team1IsCt) x l in
  assign_ok y /\ grown x y /\ (forall u i, x.1 !! u = Some i -> y.1 !! u = Some i).
Proof.
  induction l as [|b l IH]; intros x Hl Hx; [cbn; split_and!; [done|by left|done]|]. cbn.
  destruct (give_one_ok x b ltac:(apply Hl; left) Hx) as (A1 & A2 & A3).
  destruct (IH (give_one ids team1IsCt x b) ltac:(intros; apply Hl; by right) A1) as (B1 & B2 & B3). split_and!; [done| |auto].
  intros u i Hu. destruct (B2 u i Hu) as [Hy|]; [|by right]. by apply A2.
Qed.

Lemma kept_ok prev : assign_ok (kept prev bots ids) /\ (forall u i, (kept prev bots ids).1 !! u = Some i -> prev !! u = Some i).
Proof.
  unfold kept. assert (forall u i, (u, i) ∈ sorted_entries prev -> prev !! u = Some i) as Hin.
  { intros u i H. unfold sorted_entries in H. rewrite (merge_sort_Permutation by_key) in H. by apply elem_of_map_to_list. }
  assert (forall l x, (forall u i, (u, i) ∈ l -> prev !! u = Some i) -> assign_ok x -> (forall u i, x.1 !! u = Some i -> prev !! u = Some i) ->
    assign_ok (foldl (keep_one bots ids) x l) /\ (forall u i, (foldl (keep_one bots ids) x l).1 !! u = Some i -> prev !! u = Some i)) as H.
  { induction l as [|[u i] l IH]; intros x Hl Hx Hp; [done|]. cbn. apply IH; [intros; apply Hl; by right|by apply keep_one_ok|].
    intros v j. unfold keep_one. cbn. case_if; [apply Hp|]. cbn. rewrite lookup_insert_Some. intros [[<- <-]|[_ ?]]; [apply Hl; left|by apply Hp]. }
  apply H; [done| |]; [split; cbn; intros *; rewrite lookup_empty; done|intros u i; cbn; by rewrite lookup_empty].
Qed.
End assignment.

(** Who a simulated bot plays as: an assignment gives every identity to at most one bot, only to bots
    that are on the server; a bot that keeps an entry keeps the identity it had, and one that gets a new identity
    gets a player of the team on its side. *)
Theorem assignment_sound (prev : gmap Z Z) (bots : list Bot) (ids : list Identity) (team1IsCt : bool) :
  let a := Assign prev bots ids team1IsCt in
  (forall u v i, a !! u = Some i -> a !! v = Some i -> u = v) /\
  (forall u i, a !! u = Some i -> 0 <= i < zlen ids /\ existsb (fun b => userid b =? u) bots = true) /\
  (forall u i, a !! u = Some i -> prev !! u = Some i \/
     exists b id, b ∈ bots /\ userid b = u /\ ids !! Z.to_nat i = Some id /\ SideOfTeam (id_team id) team1IsCt = bot_side b) /\
  (forall u i, (kept prev bots ids).1 !! u = Some i -> a !! u = Some i).
Proof.
  destruct (kept_ok bots ids prev) as [K1 K2].
  destruct (give_all_ok bots ids team1IsCt (merge_sort by_userid bots) (kept prev bots ids)) as (A1 & A2 & A3); [|done|].
  { intros b Hb. by rewrite (merge_sort_Permutation by_userid) in Hb. }
  unfold Assign. cbn zeta. split_and!; [apply A1| | |done].
  - intros u i Hu. split; [by destruct (as_range _ _ _ A1 u i Hu)|]. by eapply (as_here _ _ _ A1).
  - intros u i Hu. destruct (A2 u i Hu) as [Hk|]; [left; auto|by right].
Qed.

(** ** The feeder *)

(** When a bot is added the quota asks for exactly one more than there are, within the limit, for a side
    that is short. *)
Lemma Next_quota now total ct t ctW tW maxBots f side q :
  (Next now total ct t ctW tW maxBots f).2 = (side, q) -> side <> 0 ->
  q = total + 1 /\ q <= maxBots /\ (side = 3 /\ ct < ctW \/ side = 2 /\ t < tW).
Proof.
  unfold Next. assert (let '(g, go) := settle now total ct t f in go = true -> sent_ g <= total) as Hs.
  { unfold settle. destruct ((total <? sent_ f) || (ct + t <? total)) eqn:E; [case_if; cbn; [done|lia]|]. apply orb_false_elim in E as [E _]. split_bools. cbn. lia. }
  destruct (settle now total ct t f) as [g go]. destruct go; cbn [negb]; [|by intros [= <- <-]]. specialize (Hs eq_refl).
  case_if; [by intros [= <- <-]|]. case_if; [by intros [= <- <-]|]. split_bools.
  destruct ((0 <? ctW - ct) && (tW - t <=? ctW - ct)) eqn:E1; cbn.
  - intros [= <- <-] _. split_bools. lia.
  - destruct (0 <? tW - t) eqn:E2; cbn; [|by intros [= <- <-]]. intros [= <- <-] _. split_bools. lia.
Qed.

(** No side gets more bots than [PlanFill] wants: the bots beyond are named for removal. *)
Lemma PlanFill_total p hc ht bots : 0 <= hc <= p -> 0 <= ht <= p -> 1 <= p <= 32 ->
  ctWanted (PlanFill p hc ht bots) + hc = p /\ tWanted (PlanFill p hc ht bots) + ht = p.
Proof. intros. unfold PlanFill. destruct (foldl _ _ _) as [[? ?] ?]. cbn. lia. Qed.
End Sim.
