(* ===== verification/Movement.v ===== *)
(** * Movement: courses, times and the records

    [src/plugins/movement/movement_rules.h] and [.cpp], the rules of the surf, bunny hop and climb plugin without the
    engine: the mode of a map, the zones that start and end a run, the records per map, mode and player, and the
    JSON they are stored in.  A [std::map] is a [gmap]; iterating over it is in the order of the keys. *)

From S2P Require Import Prelude CStr Double Numerics Json JsonFacts.

Module Mv.

(** ** Modes *)

Inductive Mode := Off | Surf | Bhop | Kz.

Definition ModeName (m : Mode) : string := match m with Surf => "surf" | Bhop => "bhop" | Kz => "kz" | Off => "off" end.

(** The mode, and whether the text is one. *)
Definition ParseMode (s : string) : Mode * bool :=
  let v := lower s in
  if v =s "surf" then (Surf, true)
  else if v =s "bhop" then (Bhop, true)
  else if (v =s "kz") || (v =s "climb") then (Kz, true)
  else if (v =s "off") || (v =s "0") then (Off, true)
  else (Off, false).

(** The text behind the last [/]. *)
Fixpoint last_part (s : string) : string :=
  match s with
  | EmptyString => EmptyString
  | String c r => if contains "/" r then last_part r else if Ascii.eqb c "/"%char then r else s
  end.

Definition ModeForMap (map_ : string) : Mode :=
  let m := last_part (lower map_) in
  if starts_with "surf_" m then Surf
  else if starts_with "bhop_" m then Bhop
  else if existsb (fun p => starts_with p m) ["kz_"; "xc_"; "bkz_"; "kzpro_"; "skz_"; "vnl_"] then Kz
  else Off.

Inductive FinishChat := Records_ | Self | All.
Definition ParseFinishChat (s : string) : FinishChat * bool :=
  let v := lower s in
  if v =s "self" then (Self, true) else if v =s "all" then (All, true) else (Records_, v =s "records").
Definition FinishToAll (c : FinishChat) (serverRecord : bool) : bool :=
  match c with All => true | Records_ => serverRecord | Self => false end.

Definition shared_cvars : list string :=
  ["mp_ignore_round_win_conditions 1"; "mp_respawn_on_death_ct 1"; "mp_respawn_on_death_t 1";
   "mp_roundtime 60"; "mp_roundtime_defuse 60"; "mp_roundtime_hostage 60"; "mp_freezetime 0";
   "mp_warmup_end"; "sv_falldamage_scale 0"; "sv_staminajumpcost 0"; "sv_staminalandcost 0";
   "sv_staminamax 0"; "mp_solid_teammates 0"; "mp_friendlyfire 0"; "mp_autokick 0";
   "mp_death_drop_gun 0"; "sv_enablebunnyhopping 1"; "sv_maxvelocity 3500"; "mp_free_armor 1";
   "mp_buy_anywhere 1"; "mp_buytime 99999"; "bot_quota 0"; "bot_kick"; "mp_join_grace_time 3600"].
Definition ModeCvars (m : Mode) : list string :=
  match m with
  | Surf => shared_cvars ++ ["sv_airaccelerate 150"; "sv_accelerate 10"; "sv_friction 4"; "sv_autobunnyhopping 1"]
  | Bhop => shared_cvars ++ ["sv_airaccelerate 1000"; "sv_accelerate 10"; "sv_friction 4"; "sv_autobunnyhopping 1"]
  | Kz => shared_cvars ++ ["sv_airaccelerate 100"; "sv_accelerate 6.5"; "sv_friction 5.2"; "sv_autobunnyhopping 0"]
  | Off => []
  end.

(** ** Zones and courses *)

Inductive ZoneKind := None_ | Start | End_.

(** At most [n] digits in front: their number and the text behind them. *)
Fixpoint digits_upto (n : nat) (num : Z) (s : string) : Z * string :=
  match n, s with
  | S n, String c r => if isdigit c then digits_upto n (num * 10 + digit_val c) r else (num, s)
  | _, _ => (num, s)
  end.

(** The text whose digits [BonusPrefix] reads: behind [bonus], or behind a [b] before a digit. *)
Definition bonus_digits (s : string) : option string :=
  if starts_with "bonus" s then Some (sdrop 5 s)
  else match s with
       | String b (String d _ as r) => if Ascii.eqb b "b"%char && isdigit d then Some r else None
       | _ => None
       end.

(** The bonus number and the text behind its [_]; [None] when the name is no bonus. *)
Definition BonusPrefix (n : string) : option (Z * string) :=
  let s := if starts_with "timer_" n then sdrop 6 n else n in
  match bonus_digits s with
  | None => None
  | Some t =>
      let '(num, rest) := digits_upto 2 0 t in
      let num := if slen rest =? slen t then 1 else num in
      match rest with
      | String c r => if Ascii.eqb c "_"%char && (1 <=? num) then Some (num, r) else None
      | EmptyString => None
      end
  end.

Definition kStart : list string :=
  ["map_start"; "timer_startzone"; "start_zone"; "zone_start"; "startzone"; "s1_start"; "climb_startbutton"; "climb_startzone"; "timer_start"].
Definition kEnd : list string :=
  ["map_end"; "timer_endzone"; "end_zone"; "zone_end"; "endzone"; "climb_endbutton"; "climb_endzone"; "timer_end"].
Definition one_of (t : string) (l : list string) : bool := existsb (fun x => t =s x) l.

(** The kind and the course. *)
Definition ClassifyZone (targetname : string) : ZoneKind * Z :=
  let n := lower targetname in
  if sempty n then (None_, 0)
  else if one_of n kStart then (Start, 0)
  else if one_of n kEnd then (End_, 0)
  else
    match BonusPrefix n with
    | Some (bonus, rest) =>
        if one_of rest ["end"; "endzone"; "end_zone"; "zone_end"] then (End_, bonus)
        else if one_of rest ["start"; "startzone"; "start_zone"; "zone_start"] then (Start, bonus)
        else (None_, 0)
    | None => (None_, 0)
    end.

Definition CourseKey (mode : string) (course : Z) : string := if 0 <? course then mode +s+ ".b" +s+ to_string course else mode.
Definition CourseName (course : Z) : string := if 0 <? course then "bonus " +s+ to_string course else "map".

Definition ParseCourse (arg : string) : Z :=
  let a := lower arg in
  if sempty a || (a =s "map") || (a =s "main") then 0
  else
    let a := if starts_with "bonus" a then sdrop 5 a else if starts_with "b" a then sdrop 1 a else a in
    if sempty a || (2 <? slen a) || negb (sforall isdigit a) then -1
    else let n := c_atoi a in if 1 <=? n then n else -1.

(** ** Boxes *)

Record Vec3 := { x : double; y : double; z : double }.
Record Box := { mins : Vec3; maxs : Vec3 }.
Definition fdiv : double -> double -> double := SFdiv 24 128.

Definition Inside (b : Box) (p : Vec3) (pad : double) : bool :=
  dleb (fsub (x (mins b)) pad) (x p) && dleb (x p) (fadd (x (maxs b)) pad) &&
  dleb (fsub (y (mins b)) pad) (y p) && dleb (y p) (fadd (y (maxs b)) pad) &&
  dleb (fsub (z (mins b)) pad) (z p) && dleb (z p) (fadd (z (maxs b)) pad).
Definition Center (b : Box) : Vec3 :=
  {| x := fdiv (fadd (x (mins b)) (x (maxs b))) (f32_int 2); y := fdiv (fadd (y (mins b)) (y (maxs b))) (f32_int 2);
     z := fadd (z (mins b)) (f32_int 2) |}.

(** ** Times and records *)

Definition FormatTime (ms : Z) : string :=
  let ms := Z.max 0 ms in
  let m := ms / 60000 in let s := (ms / 1000) mod 60 in let r := ms mod 1000 in
  if 0 <? m then to_string m +s+ ":" +s+ pad0 2 s +s+ "." +s+ pad0 3 r else to_string s +s+ "." +s+ pad0 3 r +s+ " s".

Record Record_ := { name : string; ms : Z; date : Z }.
Abbreviation Times := (gmap Z Record_).
Abbreviation Records := (gmap string (gmap string Times)).

Record Finish := { personalBest : bool; serverRecord : bool; previousMs : Z; rank : Z }.

(** The entries of a [std::map] in the order of its keys. *)
Definition entry_le {A} (a b : string * A) : Prop := str_le a.1 b.1.
#[export] Instance entry_le_dec {A} : RelDecision (@entry_le A).
Proof. intros a b. unfold entry_le. apply _. Defined.
Definition entries {A} (m : gmap string A) : list (string * A) := merge_sort entry_le (map_to_list m).
Definition id_le {A} (a b : Z * A) : Prop := a.1 <= b.1.
#[export] Instance id_le_dec {A} : RelDecision (@id_le A).
Proof. intros a b. unfold id_le. apply _. Defined.
Definition id_entries {A} (m : gmap Z A) : list (Z * A) := merge_sort id_le (map_to_list m).

(** The comparison of the ranking: the time, then who set it first, then the SteamID. *)
Definition before (a b : Z * Record_) : bool :=
  if negb (ms a.2 =? ms b.2) then ms a.2 <? ms b.2
  else if negb (date a.2 =? date b.2) then date a.2 <? date b.2
  else a.1 <? b.1.

Definition times_of (r : Records) (map_ mode : string) : Times := default ∅ (default ∅ (r !! map_) !! mode).
Definition Top (r : Records) (map_ mode : string) (n : nat) : list (Z * Record_) :=
  take n (stable_sort before (id_entries (times_of r map_ mode))).

(** The last index of the player in the ranking, from 1; 0 when they are not in it. *)
Definition rank_of (sid : Z) (all : list (Z * Record_)) : Z :=
  foldl (fun acc e => if e.2.1 =? sid then Z.of_nat e.1 + 1 else acc) 0 (imap pair all).

Definition set_times (r : Records) (map_ mode : string) (t : Times) : Records := <[map_ := <[mode := t]> (default ∅ (r !! map_))]> r.

Definition AddRun (r : Records) (map_ mode : string) (sid : Z) (nm : string) (t now : Z) : Records * Finish :=
  let times := times_of r map_ mode in
  let serverBest := match Top r map_ mode 1 with e :: _ => ms e.2 | [] => 0 end in
  let old := times !! sid in
  let best := match old with Some o => t <? ms o | None => true end in
  let rec :=
    match old with
    | Some o => if t <? ms o then {| name := nm; ms := t; date := now |} else {| name := nm; ms := ms o; date := date o |}
    | None => {| name := nm; ms := t; date := now |}
    end in
  let times := <[sid := rec]> times in
  let r := set_times r map_ mode times in
  (r, {| personalBest := best; serverRecord := best && ((serverBest =? 0) || (t <? serverBest));
         previousMs := match old with Some o => ms o | None => 0 end;
         rank := rank_of sid (Top r map_ mode (size times)) |}).

(** The cut at 64 bytes, on a whole UTF-8 character. *)
Fixpoint whole_cut (s : string) (cut : nat) : nat :=
  match cut with
  | O => O
  | S k => match sdrop cut s with String c _ => if Z.land (code c) 0xC0 =? 0x80 then whole_cut s k else cut | EmptyString => cut end
  end.
Definition payload_name (nm : string) : string := if 64 <? slen nm then stake (whole_cut nm 64) nm else nm.

Definition RecordPayload (map_ mode : string) (course sid : Z) (nm : string) (t teleports finishedAt : Z) : string :=
  Dump (JObject [("map", JString map_); ("mode", JString mode); ("course", JInt course); ("steamid64", JString (to_string sid));
                 ("name", JString (payload_name nm)); ("time_ms", JInt t); ("teleports", JInt teleports); ("finished_at", JInt finishedAt)]).

(** ** The file *)

Definition record_json (p : Z * Record_) : string * Json :=
  (to_string p.1, JObject [("name", JString (name p.2)); ("ms", JInt (ms p.2)); ("date", JInt (date p.2))]).
Definition mode_json (md : string * Times) : string * Json := (md.1, JObject (record_json <$> id_entries md.2)).
Definition map_json (m : string * gmap string Times) : string * Json := (m.1, JObject (mode_json <$> entries m.2)).
Definition Serialize (r : Records) : string := Dump (JObject [("maps", JObject (map_json <$> entries r))]).

(** An id as [strtoull] reads it to the end of the C string: leading white space and a sign are accepted. *)
Definition id_text (key : string) : option Z :=
  let s := (span (fun c => negb (Ascii.eqb c nul)) key).1 in
  match scan_int s with Some (_, EmptyString) => Some (strtoull s) | _ => if sempty s then Some 0 else None end.

Definition int_of (j : option Json) : option Z := match j with Some v => AsInt v | None => Some 0 end.

(** [None]: the conversion of a double that is no [int64_t], which is undefined. *)
Definition read_record (map_ mode : string) (acc : option Records) (p : string * Json) : option Records :=
  r ← acc;
  match id_text p.1 with
  | None => Some r
  | Some id =>
      if (id =? 0) || negb (IsObject p.2) then Some r
      else
        t ← int_of (Find p.2 "ms");
        d ← int_of (Find p.2 "date");
        let rec := {| name := match Find p.2 "name" with Some n => AsString n | None => EmptyString end; ms := t; date := d |} in
        Some (if 0 <? t then set_times r map_ mode (<[id := rec]> (times_of r map_ mode)) else r)
  end.
Definition read_mode (map_ : string) (acc : option Records) (md : string * Json) : option Records :=
  if IsObject md.2 then foldl (read_record map_ md.1) acc (Members md.2) else acc.
Definition read_map (acc : option Records) (m : string * Json) : option Records :=
  if IsObject m.2 then foldl (read_mode m.1) acc (Members m.2) else acc.

(** The outer [None]: undefined; the inner one: refused. *)
Definition Deserialize (text : string) : option (option Records) :=
  match Parse text with
  | Parsed (JObject _ as root) =>
      match Find root "maps" with
      | Some (JObject maps) => Some <$> foldl read_map (Some ∅) maps
      | _ => Some None
      end
  | _ => Some None
  end.

Example movement_modes : ModeForMap "workshop/3070/surf_mesa" = Surf /\ ModeForMap "de_mirage" = Off /\ ParseMode "KZ" = (Kz, true).
Proof. vm_compute. auto. Qed.
Example movement_zones :
  map ClassifyZone ["Timer_EndZone"; "s2_start"; "B2_End"; "bonus_start"; "timer_bonus1_startzone"; "b1_stage2"; "button_1"; "b100_start"; "b0_end"] =
  [(End_, 0); (None_, 0); (End_, 2); (Start, 1); (Start, 1); (None_, 0); (None_, 0); (None_, 0); (None_, 0)].
Proof. vm_compute. reflexivity. Qed.
Example movement_courses : map ParseCourse [""; "b2"; "bonus1"; "3"; "x"; "b"; "100"] = [0; 2; 1; 3; -1; -1; -1].
Proof. vm_compute. reflexivity. Qed.
Example movement_times : FormatTime 62345 = "1:02.345" /\ FormatTime 12345 = "12.345 s".
Proof. vm_compute. auto. Qed.
Example movement_box :
  let v a b c := {| x := f32_int a; y := f32_int b; z := f32_int c |} in
  let b := {| mins := v 0 0 0; maxs := v 100 100 50 |} in
  Inside b (v 50 50 10) (f32_int 0) = true /\ Inside b (v 150 50 10) (f32_int 0) = false /\ Inside b (v 101 50 10) (f32_int 2) = true.
Proof. vm_compute. auto. Qed.

(** ** The ranking *)

Lemma before_spec a b : before a b = true <->
  ms a.2 < ms b.2 \/ ms a.2 = ms b.2 /\ (date a.2 < date b.2 \/ date a.2 = date b.2 /\ a.1 < b.1).
Proof. unfold before. destruct (Z.eqb_spec (ms a.2) (ms b.2)), (Z.eqb_spec (date a.2) (date b.2)); cbn [negb]; rewrite Z.ltb_lt; lia. Qed.

Lemma before_irrefl a : before a a = false.
Proof. apply not_true_is_false. rewrite before_spec. lia. Qed.
Lemma before_asym a b : before a b = true -> before b a = false.
Proof. rewrite <- not_true_iff_false, !before_spec. lia. Qed.
Lemma before_trans a b c : before b a = false -> before c b = false -> before c a = false.
Proof. rewrite <- !not_true_iff_false, !before_spec. lia. Qed.

Definition ranking (t : Times) : list (Z * Record_) := stable_sort before (id_entries t).

Lemma ranking_perm t : ranking t ≡ₚ map_to_list t.
Proof. unfold ranking, id_entries. by rewrite stable_sort_perm, merge_sort_Permutation. Qed.

Lemma ranking_sorted t : StronglySorted (in_order before) (ranking t).
Proof. apply (stable_sort_sorted before (fun _ => True)); eauto using before_asym, before_trans. by apply Forall_true. Qed.

Lemma ranking_elem t e : e ∈ ranking t <-> t !! e.1 = Some e.2.
Proof. rewrite ranking_perm. destruct e. apply elem_of_map_to_list. Qed.

Lemma ranking_ids t : NoDup (fst <$> ranking t).
Proof. rewrite ranking_perm. apply NoDup_fst_map_to_list. Qed.

(** The first of the ranking. *)
Lemma ranking_head t e l : ranking t = e :: l -> forall k o, t !! k = Some o -> ms e.2 <= ms o.
Proof.
  intros Hr k o Ho. pose proof (ranking_sorted t) as Hs. rewrite Hr in Hs. inversion Hs as [|? ? _ Hall]; subst.
  pose proof (proj2 (ranking_elem t (k, o)) Ho) as Hin. rewrite Hr in Hin. apply elem_of_cons in Hin as [<-|Hin]; [done|].
  rewrite Forall_forall in Hall. specialize (Hall _ Hin). unfold in_order in Hall. apply not_true_iff_false in Hall.
  rewrite before_spec in Hall. cbn in *. lia.
Qed.

(** *** The place of a player *)

Definition rank_step (sid : Z) (acc : Z) (e : nat * (Z * Record_)) : Z := if e.2.1 =? sid then Z.of_nat e.1 + 1 else acc.

Lemma rank_absent sid l : sid ∉ fst <$> l -> forall i acc, foldl (rank_step sid) acc (imap (fun j => pair (i + j)%nat) l) = acc.
Proof.
  induction l as [|e l IH]; intros Hn i acc; [done|]. cbn. unfold rank_step at 2. cbn.
  destruct (Z.eqb_spec e.1 sid); [set_solver|].
  rewrite (imap_ext _ (fun j => pair (S i + j)%nat)) by (intros; cbn; f_equal; lia). apply IH. set_solver.
Qed.

Lemma rank_of_split sid rec l1 l2 : sid ∉ fst <$> l1 -> sid ∉ fst <$> l2 -> rank_of sid (l1 ++ (sid, rec) :: l2) = zlen l1 + 1.
Proof.
  intros H1 H2. unfold rank_of. rewrite imap_app, foldl_app. cbn [imap foldl fst snd].
  change (foldl (rank_step sid) (rank_step sid (foldl (rank_step sid) 0 (imap pair l1)) ((length l1 + 0)%nat, (sid, rec)))
            (imap (fun j => pair (length l1 + S j)%nat) l2) = zlen l1 + 1).
  rewrite (imap_ext (fun j => pair (length l1 + S j)%nat) (fun j => pair (S (length l1) + j)%nat) l2) by (intros; cbn; f_equal; lia).
  rewrite rank_absent by done.
  unfold rank_step. cbn. rewrite Z.eqb_refl. unfold zlen. lia.
Qed.

Lemma filter_keep {A} (P : A -> Prop) `{forall a, Decision (P a)} (l : list A) : (forall a, a ∈ l -> P a) -> filter P l = l.
Proof. induction l as [|a l IH]; intros Hl; [done|]. rewrite filter_cons, decide_True, IH; [done|set_solver|set_solver]. Qed.
Lemma filter_drop {A} (P : A -> Prop) `{forall a, Decision (P a)} (l : list A) : (forall a, a ∈ l -> ~ P a) -> filter P l = [].
Proof. induction l as [|a l IH]; intros Hl; [done|]. rewrite filter_cons, decide_False, IH; [done|set_solver|set_solver]. Qed.

Lemma count_before l1 e l2 : StronglySorted (in_order before) (l1 ++ e :: l2) -> NoDup (fst <$> l1 ++ e :: l2) ->
  filter (fun a => before a e = true) (l1 ++ e :: l2) = l1.
Proof.
  intros Hs Hn. rewrite filter_app, filter_cons, before_irrefl, decide_False by done.
  assert (filter (fun a => before a e = true) l1 = l1) as ->.
  { apply filter_keep. intros a Ha. apply before_spec. rewrite fmap_app, NoDup_app in Hn. destruct Hn as (_ & Hd & _).
    assert (a.1 <> e.1) as Hne by (intros E; apply (Hd a.1); [apply list_elem_of_fmap; eauto|rewrite E; left]).
    assert (in_order before a e) as H by (eapply StronglySorted_app_1_elem_of; [exact Hs|done|left]). unfold in_order in H.
    apply not_true_iff_false in H. rewrite before_spec in H. lia. }
  rewrite filter_drop; [by rewrite app_nil_r|]. intros a Ha.
  apply StronglySorted_app_1_r in Hs. inversion Hs as [|? ? _ Hall]; subst. rewrite Forall_forall in Hall. specialize (Hall _ Ha).
  unfold in_order in Hall. by rewrite Hall.
Qed.

(** Who stands before a player: the place is their number and one. *)
Definition ahead (t : Times) (e : Z * Record_) : list (Z * Record_) := filter (fun a => before a e = true) (map_to_list t).

Lemma rank_counts t sid rec : t !! sid = Some rec -> rank_of sid (ranking t) = zlen (ahead t (sid, rec)) + 1.
Proof.
  intros Ht. pose proof (proj2 (ranking_elem t (sid, rec)) Ht) as (l1 & l2 & E)%list_elem_of_split.
  pose proof (ranking_ids t) as Hn. pose proof (ranking_sorted t) as Hs.
  assert (zlen (ahead t (sid, rec)) = zlen (filter (fun a => before a (sid, rec) = true) (ranking t))) as ->.
  { unfold zlen, ahead. by rewrite ranking_perm. }
  rewrite E in *. rewrite count_before by done. rewrite fmap_app, fmap_cons, NoDup_app, NoDup_cons in Hn.
  destruct Hn as (_ & Hd & Hl & _). rewrite rank_of_split; [done| |done]. intros H. apply (Hd sid H). left.
Qed.

(** ** A history of runs *)

Record Run := { r_map : string; r_mode : string; r_sid : Z; r_name : string; r_ms : Z; r_now : Z }.
Definition run_step (r : Records) (u : Run) : Records := (AddRun r (r_map u) (r_mode u) (r_sid u) (r_name u) (r_ms u) (r_now u)).1.
Definition run_all (us : list Run) : Records := foldl run_step ∅ us.

Definition sample_runs : list Run :=
  let u sid nm t now := {| r_map := "surf_a"; r_mode := "surf"; r_sid := sid; r_name := nm; r_ms := t; r_now := now |} in
  [u 1 "alice" 60000 100; u 2 "bob" 55000 200; u 1 "alice" 58000 300; u 1 "ally" 70000 400].
Example movement_records :
  Top (run_all sample_runs) "surf_a" "surf" 10 =
  [(2, {| name := "bob"; ms := 55000; date := 200 |}); (1, {| name := "ally"; ms := 58000; date := 300 |})] /\
  Deserialize (Serialize (run_all sample_runs)) = Some (Some (run_all sample_runs)).
Proof. vm_compute. auto. Qed.

(** ** The best time of every player *)

Lemma times_set r map_ mode t map' mode' :
  times_of (set_times r map_ mode t) map' mode' = if (map' =s map_) && (mode' =s mode) then t else times_of r map' mode'.
Proof.
  unfold times_of, set_times. destruct (String.eqb_spec map' map_) as [->|Hm]; cbn [andb].
  - rewrite lookup_insert_eq. cbn. destruct (String.eqb_spec mode' mode) as [->|Hd]; [by rewrite lookup_insert_eq|].
    by rewrite lookup_insert_ne by done.
  - by rewrite lookup_insert_ne by done.
Qed.

(** The record a run leaves of a player. *)
Definition improved (old : option Record_) (nm : string) (t now : Z) : Record_ :=
  match old with
  | Some o => if t <? ms o then {| name := nm; ms := t; date := now |} else {| name := nm; ms := ms o; date := date o |}
  | None => {| name := nm; ms := t; date := now |}
  end.

Lemma AddRun_times r map_ mode sid nm t now :
  (AddRun r map_ mode sid nm t now).1 = set_times r map_ mode (<[sid := improved (times_of r map_ mode !! sid) nm t now]> (times_of r map_ mode)).
Proof. done. Qed.

Definition run_of (map_ mode : string) (sid : Z) (u : Run) : Prop := r_map u = map_ /\ r_mode u = mode /\ r_sid u = sid.
#[export] Instance run_of_dec map_ mode sid u : Decision (run_of map_ mode sid u).
Proof. unfold run_of. apply _. Defined.

(** What the runs of one player on one course amount to: the time and date of the first of the fastest, under the
    name of the last. *)
Definition best_run (mine : list Run) (rec : option Record_) : Prop :=
  match rec with
  | None => mine = []
  | Some o =>
      (exists l1 u l2, mine = l1 ++ u :: l2 /\ ms o = r_ms u /\ date o = r_now u /\
        Forall (fun v => ms o < r_ms v) l1 /\ Forall (fun v => ms o <= r_ms v) l2) /\
      r_name <$> last mine = Some (name o)
  end.

Lemma best_run_step mine rec u : best_run mine rec -> best_run (mine ++ [u]) (Some (improved rec (r_name u) (r_ms u) (r_now u))).
Proof.
  intros H. split; [|by destruct rec as [o|]; unfold improved; [case_if|]; rewrite last_snoc].
  destruct rec as [o|]; cbn in H; [|subst; by exists [], u, []].
  destruct H as [(l1 & v & l2 & -> & Ht & Hd & H1 & H2) _]. unfold improved. destruct (Z.ltb_spec (r_ms u) (ms o)) as [Hlt|Hge]; cbn.
  - exists (l1 ++ v :: l2), u, []. repeat split; auto. apply Forall_app. split; [|constructor]; [..|lia|]; (eapply Forall_impl; [eassumption|]); cbn; lia.
  - exists l1, v, (l2 ++ [u]). rewrite <- app_assoc. repeat split; auto. apply Forall_app. auto.
Qed.

(** After any runs in any order a player's record on a map and mode is the time and the date of the first of their fastest runs there, under the name they had at their last run; a player without a run there has none. *)
Theorem records_keep_best us map_ mode sid :
  best_run (filter (run_of map_ mode sid) us) (times_of (run_all us) map_ mode !! sid).
Proof.
  unfold run_all. induction us as [|u us IH] using rev_ind; [done|]. rewrite foldl_app, filter_app, filter_cons, filter_nil. cbn [foldl].
  unfold run_step at 1. rewrite AddRun_times, times_set. set (r := foldl run_step ∅ us) in *.
  destruct (decide (run_of map_ mode sid u)) as [(<- & <- & <-)|Hk].
  - rewrite !String.eqb_refl. cbn [andb]. rewrite lookup_insert_eq. by apply best_run_step.
  - rewrite app_nil_r. destruct (String.eqb_spec map_ (r_map u)) as [->|]; cbn [andb]; [|done].
    destruct (String.eqb_spec mode (r_mode u)) as [->|]; [|done]. rewrite lookup_insert_ne; [done|]. intros <-. by apply Hk.
Qed.

(** *** What a finished run is told *)

Definition positive (t : Times) : Prop := map_Forall (fun _ o => 0 < ms o) t.

Lemma Top_head r map_ mode : Top r map_ mode 1 = match ranking (times_of r map_ mode) with e :: _ => [e] | [] => [] end.
Proof. unfold Top, ranking. by destruct (stable_sort before _). Qed.

Lemma Top_all r map_ mode : Top r map_ mode (size (times_of r map_ mode)) = ranking (times_of r map_ mode).
Proof.
  unfold Top. apply take_ge. change (length (ranking (times_of r map_ mode)) <= size (times_of r map_ mode))%nat. rewrite ranking_perm.
  by rewrite length_map_to_list.
Qed.

Lemma beats_best r map_ mode t : positive (times_of r map_ mode) ->
  let best := match Top r map_ mode 1 with e :: _ => ms e.2 | [] => 0 end in
  (best =? 0) || (t <? best) = true <-> map_Forall (fun _ o => t < ms o) (times_of r map_ mode).
Proof.
  intros Hp. cbn zeta. rewrite Top_head. destruct (ranking (times_of r map_ mode)) as [|e l] eqn:E.
  - split; [|done]. intros _ k o Ho. pose proof (proj2 (ranking_elem _ (k, o)) Ho) as H. rewrite E in H. by apply not_elem_of_nil in H.
  - assert (e ∈ ranking (times_of r map_ mode)) as He by (rewrite E; left). apply ranking_elem in He.
    assert (0 < ms e.2) by apply (Hp _ _ He).
    rewrite orb_true_iff, Z.eqb_eq, Z.ltb_lt. split.
    + intros [?|Hlt] k o Ho; [lia|]. pose proof (ranking_head _ _ _ E k o Ho). lia.
    + intros Hall. right. by apply (Hall _ _ He).
Qed.

(** A finished run is told the truth: the place is one more than the number of players ahead, the previous time is the player's old one, it is a personal best exactly when the player had no time or a slower one, and the server record exactly when every time there was slower, and then the place is the first. *)
Theorem finish_true r map_ mode sid nm t now : positive (times_of r map_ mode) ->
  let old := times_of r map_ mode in
  let '(r', f) := AddRun r map_ mode sid nm t now in
  (exists rec, times_of r' map_ mode !! sid = Some rec /\ rank f = zlen (ahead (times_of r' map_ mode) (sid, rec)) + 1) /\
  previousMs f = match old !! sid with Some o => ms o | None => 0 end /\
  (personalBest f = true <-> forall o, old !! sid = Some o -> t < ms o) /\
  (serverRecord f = true <-> map_Forall (fun _ o => t < ms o) old) /\
  (serverRecord f = true -> rank f = 1).
Proof.
  intros Hp. cbn zeta. set (r' := set_times r map_ mode (<[sid := improved (times_of r map_ mode !! sid) nm t now]> (times_of r map_ mode))).
  assert (times_of r' map_ mode = <[sid := improved (times_of r map_ mode !! sid) nm t now]> (times_of r map_ mode)) as Hr'.
  { unfold r'. rewrite times_set, !String.eqb_refl. done. }
  pose proof (beats_best r map_ mode t Hp) as Hb. pose proof (Top_all r' map_ mode) as Ht. rewrite Hr' in Ht.
  assert (times_of r' map_ mode !! sid = Some (improved (times_of r map_ mode !! sid) nm t now)) as Hrec by (by rewrite Hr', lookup_insert_eq).
  pose proof (rank_counts _ _ _ Hrec) as Hk. rewrite Hr' in Hk.
  unfold AddRun. fold (improved (times_of r map_ mode !! sid) nm t now). fold r'. cbn [rank previousMs personalBest serverRecord]. rewrite Ht.
  assert ((match times_of r map_ mode !! sid with Some o => t <? ms o | None => true end) = true <->
          forall o, times_of r map_ mode !! sid = Some o -> t < ms o) as Hpb.
  { destruct (times_of r map_ mode !! sid) as [o|]; [rewrite Z.ltb_lt|done]. split; [by intros ? ? [= <-]|auto]. }
  rewrite andb_true_iff, Hb, Hpb.
  split_and!; [by eexists; rewrite Hr' in *|done|done|split; [by intros []|intros H; split; [intros o; apply H|done]]|].
  intros [Hmine Hall]. rewrite Hk. unfold ahead. rewrite filter_drop; [done|]. intros [k o] Hin%elem_of_map_to_list.
  rewrite before_spec. cbn [fst snd]. destruct (decide (k = sid)) as [->|Hne].
  - rewrite lookup_insert_eq in Hin. injection Hin as <-. lia.
  - rewrite lookup_insert_ne in Hin by done. specialize (Hall _ _ Hin). cbn in Hall.
    assert (ms (improved (times_of r map_ mode !! sid) nm t now) = t) as ->; [|lia].
    unfold improved. destruct (times_of r map_ mode !! sid) as [o'|]; [|done]. specialize (Hmine _ eq_refl).
    destruct (Z.ltb_spec t (ms o')); [done|lia].
Qed.

(** ** The file of the records *)

Record record_ok (sid : Z) (o : Record_) : Prop := {
  k_id : uint64_ok sid /\ sid <> 0;
  k_ms : 0 < ms o /\ int64_ok (ms o);
  k_date : int64_ok (date o);
}.
Definition times_ok (t : Times) : Prop := t <> ∅ /\ map_Forall record_ok t.
Definition modes_ok (m : gmap string Times) : Prop := m <> ∅ /\ map_Forall (fun _ => times_ok) m.
(** Records with nothing empty in them, and with numbers the file can hold. *)
Definition storable (r : Records) : Prop := map_Forall (fun _ => modes_ok) r.

Lemma to_string_no_nul n : 0 <= n -> (span (fun c => negb (Ascii.eqb c nul)) (to_string n)).1 = to_string n.
Proof.
  intros Hn. destruct (to_string_digits n Hn) as [Hd _]. rewrite <- (app_nil_s (to_string n)) at 1. rewrite span_app; [done| |done].
  revert Hd. apply sforall_impl. intros c Hc. destruct (Ascii.eqb_spec c nul) as [->|]; [by vm_compute in Hc|done].
Qed.

Lemma id_text_string n : uint64_ok n -> id_text (to_string n) = Some n.
Proof.
  intros Hn. unfold id_text. rewrite to_string_no_nul by apply Hn. rewrite <- (app_nil_s (to_string n)) at 1.
  by rewrite scan_int_to_string, strtoull_to_string.
Qed.

(** Entries inserted one by one. *)
Definition put {K A} `{Countable K} (m : gmap K A) (kv : K * A) : gmap K A := <[kv.1 := kv.2]> m.

Lemma put_all `{Countable K} {A} (m : gmap K A) l : l ≡ₚ map_to_list m -> foldl put ∅ l = m.
Proof. apply foldl_insert. Qed.

Lemma set_times_twice r map_ mode t t' : set_times (set_times r map_ mode t) map_ mode t' = set_times r map_ mode t'.
Proof. unfold set_times. rewrite lookup_insert_eq, insert_insert_eq. cbn. by rewrite insert_insert_eq. Qed.

Lemma read_records map_ mode l : Forall (fun e => record_ok e.1 e.2) l -> l <> [] -> forall r,
  foldl (read_record map_ mode) (Some r) (record_json <$> l) = Some (set_times r map_ mode (foldl put (times_of r map_ mode) l)).
Proof.
  assert (forall r e, record_ok e.1 e.2 -> read_record map_ mode (Some r) (record_json e) = Some (set_times r map_ mode (put (times_of r map_ mode) e))) as Hone.
  { intros r [sid o] [[H1 H2] [H3 _] _]. cbn in *. rewrite id_text_string by done. destruct (Z.eqb_spec sid 0); [done|]. cbn.
    destruct (Z.ltb_spec 0 (ms o)); [|lia]. by destruct o. }
  induction l as [|e l IH]; intros Hl Hne r; [done|]. apply Forall_cons in Hl as [He Hl]. cbn [fmap list_fmap foldl]. rewrite Hone by done.
  destruct l as [|e' l]; [done|]. rewrite IH by done. f_equal. rewrite times_set, !String.eqb_refl. cbn [andb].
  apply set_times_twice.
Qed.

Lemma read_modes map_ l : Forall (fun e => times_ok e.2) l -> NoDup (fst <$> l) -> l <> [] -> forall r,
  (forall k, k ∈ fst <$> l -> times_of r map_ k = ∅) ->
  foldl (read_mode map_) (Some r) (mode_json <$> l) = Some (<[map_ := foldl put (default ∅ (r !! map_)) l]> r).
Proof.
  assert (forall r e, times_ok e.2 -> times_of r map_ e.1 = ∅ ->
    read_mode map_ (Some r) (mode_json e) = Some (<[map_ := put (default ∅ (r !! map_)) e]> r)) as Hone.
  { intros r [mode t] [Hne Ht] Hr. unfold read_mode. cbn [mode_json IsObject Members fst snd] in *.
    assert (id_entries t ≡ₚ map_to_list t) as Hp by apply merge_sort_Permutation.
    rewrite read_records.
    - rewrite Hr. by rewrite (put_all t _ Hp).
    - rewrite Hp. apply Forall_forall. intros [k o] Hk%elem_of_map_to_list. by apply Ht.
    - intros E. rewrite E in Hp. apply Permutation_nil, map_to_list_empty_iff in Hp. done. }
  induction l as [|e l IH]; intros Hl Hn Hne r Hr; [done|]. apply Forall_cons in Hl as [He Hl]. cbn in Hn. apply NoDup_cons in Hn as [Hx Hn].
  cbn [fmap list_fmap foldl]. rewrite Hone by (done || apply Hr; left). destruct l as [|e' l]; [done|]. rewrite IH; [|done..|].
  - by rewrite lookup_insert_eq, insert_insert_eq.
  - intros k Hk. unfold times_of, put. rewrite lookup_insert_eq. cbn. rewrite lookup_insert_ne by (by intros <-). apply Hr. by right.
Qed.

Lemma read_maps l : Forall (fun e => modes_ok e.2) l -> NoDup (fst <$> l) -> forall r,
  (forall k, k ∈ fst <$> l -> r !! k = None) -> foldl read_map (Some r) (map_json <$> l) = Some (foldl put r l).
Proof.
  assert (forall r e, modes_ok e.2 -> r !! e.1 = None -> read_map (Some r) (map_json e) = Some (put r e)) as Hone.
  { intros r [map_ m] [Hne Hm] Hr. unfold read_map. cbn [map_json IsObject Members fst snd] in *.
    assert (entries m ≡ₚ map_to_list m) as Hp by apply merge_sort_Permutation.
    rewrite read_modes.
    - rewrite Hr. change (default ∅ None) with (∅ : gmap string Times). by rewrite (put_all m _ Hp).
    - rewrite Hp. apply Forall_forall. intros [k o] Hk%elem_of_map_to_list. by apply (Hm k).
    - rewrite Hp. apply NoDup_fst_map_to_list.
    - intros E. rewrite E in Hp. apply Permutation_nil, map_to_list_empty_iff in Hp. done.
    - intros k _. unfold times_of. by rewrite Hr. }
  induction l as [|e l IH]; intros Hl Hn r Hr; [done|]. apply Forall_cons in Hl as [He Hl]. cbn in Hn. apply NoDup_cons in Hn as [Hx Hn].
  cbn [fmap list_fmap foldl]. rewrite Hone by (done || apply Hr; left). rewrite IH; [done..|]. intros k Hk. unfold put.
  rewrite lookup_insert_ne by (by intros <-). apply Hr. by right.
Qed.

(** *** The text is plain JSON *)

Lemma NoDup_fst_fmap {A} (f : A -> string * Json) (g : A -> string) (l : list A) :
  (forall a, (f a).1 = g a) -> NoDup (g <$> l) -> NoDup (keys (f <$> l)).
Proof. intros Hf. unfold keys. rewrite <- list_fmap_compose. by rewrite (list_fmap_ext (fst ∘ f) g l) by (intros; apply Hf). Qed.

Lemma object_shape {A} (f : A -> string * Json) (g : A -> string) (d : nat) (l : list A) :
  (forall a, (f a).1 = g a) -> NoDup (g <$> l) -> Forall (fun a => plain (f a).2 = true /\ (depth (f a).2 <= d)%nat) l ->
  plain (JObject (f <$> l)) = true /\ (depth (JObject (f <$> l)) <= S d)%nat.
Proof.
  intros Hf Hn Hl. split.
  - apply plain_object. split; [by apply (NoDup_fst_fmap f g)|]. apply Forall_fmap. by apply (Forall_impl _ _ _ Hl); intros a [].
  - cbn. apply le_n_S. clear Hn. induction Hl as [|a l [_ H] Hl IH]; cbn; [lia|]. destruct (f a). cbn in *. unfold max_members in *. lia.
Qed.

Lemma times_shape t : times_ok t -> plain (mode_json (EmptyString, t)).2 = true /\ (depth (mode_json (EmptyString, t)).2 <= 3)%nat.
Proof.
  intros [_ Ht]. cbn [mode_json fst snd]. assert (id_entries t ≡ₚ map_to_list t) as Hp by apply merge_sort_Permutation.
  apply (object_shape _ (to_string ∘ fst)); [done| |].
  - rewrite list_fmap_compose. apply NoDup_fmap_2; [intros a b; apply to_string_inj|]. rewrite Hp. apply NoDup_fst_map_to_list.
  - rewrite Hp. apply Forall_forall. intros [sid o] [_ [_ H1] H2]%elem_of_map_to_list%Ht. cbn [record_json fst snd]. split; [|cbn; lia].
    apply plain_object. split; [by apply (bool_decide_unpack _); vm_compute|]. repeat constructor; cbn; by apply bool_decide_eq_true.
Qed.

Lemma modes_shape m : modes_ok m -> plain (map_json (EmptyString, m)).2 = true /\ (depth (map_json (EmptyString, m)).2 <= 4)%nat.
Proof.
  intros [_ Hm]. cbn [map_json fst snd]. assert (entries m ≡ₚ map_to_list m) as Hp by apply merge_sort_Permutation.
  apply (object_shape _ fst); [done|rewrite Hp; apply NoDup_fst_map_to_list|].
  rewrite Hp. apply Forall_forall. intros [k t] H%elem_of_map_to_list%Hm. by apply times_shape.
Qed.

(** The records written to the file and read back are the same records, for all that has no empty map or mode, a SteamID and a positive time in every record, and numbers of 64 bits. *)
Theorem records_reload r : storable r -> Deserialize (Serialize r) = Some (Some r).
Proof.
  intros Hr. assert (entries r ≡ₚ map_to_list r) as Hp by apply merge_sort_Permutation.
  assert (NoDup (entries r).*1) as Hn by (rewrite Hp; apply NoDup_fst_map_to_list).
  assert (Forall (fun e => modes_ok e.2) (entries r)) as Hm.
  { rewrite Hp. apply Forall_forall. intros [k m] H%elem_of_map_to_list. by apply (Hr k). }
  destruct (object_shape map_json fst 4 (entries r)) as [H1 H2]; [done|done|by apply (Forall_impl _ _ _ Hm); intros [k m]; apply modes_shape|].
  unfold Deserialize, Serialize. rewrite Parse_Dump.
  - cbn [Find Members find_member]. change ("maps" =s "maps") with true. cbn iota. rewrite read_maps by done. by rewrite (put_all r _ Hp).
  - apply plain_object. split; [apply NoDup_singleton|by constructor].
  - cbn [depth max_members] in *. cbn. cbn in H2. lia.
Qed.

(** Runs keep the records storable. *)
Lemma run_storable r u : storable r -> record_ok (r_sid u) {| name := r_name u; ms := r_ms u; date := r_now u |} -> storable (run_step r u).
Proof.
  intros Hr Hu. unfold run_step. rewrite AddRun_times. unfold set_times. apply map_Forall_insert_2; [|done].
  assert (map_Forall (fun _ => times_ok) (default ∅ (r !! r_map u))) as Hm.
  { destruct (r !! r_map u) as [m|] eqn:E; [apply (Hr _ _ E)|apply map_Forall_empty]. }
  split; [apply insert_non_empty|]. apply map_Forall_insert_2; [|done].
  assert (map_Forall record_ok (times_of r (r_map u) (r_mode u))) as Ht.
  { unfold times_of. destruct (default ∅ (r !! r_map u) !! r_mode u) as [t|] eqn:E; [apply (Hm _ _ E)|apply map_Forall_empty]. }
  split; [apply insert_non_empty|]. apply map_Forall_insert_2; [|done]. unfold improved.
  destruct (times_of r (r_map u) (r_mode u) !! r_sid u) as [o|] eqn:E; [|done]. case_if; [done|]. destruct (Ht _ _ E). by split.
Qed.

(** ** Courses *)

Lemma digits_upto_bounds n : forall num s, 0 <= num -> 0 <= (digits_upto n num s).1 <= num * 10 ^ Z.of_nat n + 10 ^ Z.of_nat n - 1.
Proof.
  induction n as [|n IH]; intros num s Hn; [cbn; lia|]. rewrite Nat2Z.inj_succ, Z.pow_succ_r by lia.
  assert (0 < 10 ^ Z.of_nat n) by (apply Z.pow_pos_nonneg; lia). destruct s as [|c s]; cbn [digits_upto fst]; [nia|]. destruct (isdigit c) eqn:E; cbn [fst]; [|nia].
  unfold isdigit in E. apply andb_prop in E as [E1 E2]. assert (0 <= digit_val c <= 9) by (unfold digit_val; lia).
  specialize (IH (num * 10 + digit_val c) s ltac:(lia)). nia.
Qed.

Lemma BonusPrefix_bounds n num rest : BonusPrefix n = Some (num, rest) -> 1 <= num <= 99.
Proof.
  unfold BonusPrefix. destruct (bonus_digits _) as [t|]; [|done]. pose proof (digits_upto_bounds 2 0 t ltac:(lia)) as H.
  destruct (digits_upto 2 0 t) as [k r]. change (0 <= k <= 99) in H. destruct r as [|c r]; [done|]. destruct (Ascii.eqb c "_"%char); [|done]. cbn [andb].
  generalize (slen (String c r) =? slen t). intros b. destruct (Z.leb_spec 1 (if b then 1 else k)); [|done]. intros [= <- _]. destruct b; lia.
Qed.

Lemma two_digits c : isdigit c = true -> 0 <= digit_val c <= 9 /\ c = digit_chr (digit_val c).
Proof.
  unfold isdigit, digit_val, digit_chr. intros [H1 H2]%andb_prop. split; [lia|]. replace (48 + (code c - 48)) with (code c) by lia.
  by rewrite chr_code.
Qed.

Lemma ParseCourse_bounds s : -1 <= ParseCourse s <= 99.
Proof.
  unfold ParseCourse. destruct (_ || _); [lia|]. set (a := if starts_with "bonus" _ then _ else _). destruct (_ || _) eqn:E; [lia|].
  apply orb_false_elim in E as [E E3]. apply orb_false_elim in E as [E1 E2]. apply negb_false_iff in E3. apply Z.ltb_ge in E2.
  destruct a as [|c1 [|c2 [|c3 a]]]; [done| | |unfold slen in E2; cbn in E2; lia].
  - cbn [sforall] in E3. apply andb_prop in E3 as [H1 _]. apply two_digits in H1 as [H1 H1'].
    assert (c_atoi (str1 c1) = digit_val c1) as Ha; [|change (String c1 EmptyString) with (str1 c1); rewrite Ha; case_if; lia].
    rewrite H1'. revert H1. generalize (digit_val c1). intros a Ha.
    assert (In a [0;1;2;3;4;5;6;7;8;9]) as Ia by (cbn; lia). cbn in Ia. repeat destruct Ia as [<-|Ia]; done.
  - cbn [sforall] in E3. apply andb_prop in E3 as [H1 [H2 _]%andb_prop]. apply two_digits in H1 as [H1 H1'], H2 as [H2 H2'].
    assert (c_atoi (String c1 (String c2 EmptyString)) = digit_val c1 * 10 + digit_val c2) as ->; [|case_if; lia].
    rewrite H1', H2'. revert H1 H2. generalize (digit_val c1) (digit_val c2). intros a b Ha Hb.
    assert (In a [0;1;2;3;4;5;6;7;8;9]) as Ia by (cbn; lia). assert (In b [0;1;2;3;4;5;6;7;8;9]) as Ib by (cbn; lia).
    cbn in Ia, Ib. repeat destruct Ia as [<-|Ia]; try done; repeat destruct Ib as [<-|Ib]; done.
Qed.

(** The four ways to name a bonus course, checked one by one. *)
Definition named_course (n : nat) : bool :=
  let t := to_string (Z.of_nat n) in
  match ClassifyZone ("b" +s+ t +s+ "_start") with (Start, c) => c =? Z.of_nat n | _ => false end &&
  match ClassifyZone ("bonus" +s+ t +s+ "_end") with (End_, c) => c =? Z.of_nat n | _ => false end &&
  (ParseCourse ("b" +s+ t) =? Z.of_nat n) && (ParseCourse t =? Z.of_nat n).

Lemma named_courses n : (1 <= n <= 99)%nat -> named_course n = true.
Proof.
  intros Hn. assert (forallb named_course (List.seq 1 99) = true) as H by (vm_compute; reflexivity).
  rewrite forallb_forall in H. apply H, in_seq. lia.
Qed.

(** A zone name or a chat argument names the map run (0) or a bonus course from 1 to 99, and nothing else; a name that is no zone has no course, and [b<n>_start], [bonus<n>_end] and the argument [b<n>] name the same course. *)
Theorem courses_agree s :
  (let '(k, c) := ClassifyZone s in 0 <= c <= 99 /\ (k = None_ -> c = 0)) /\ -1 <= ParseCourse s <= 99 /\
  (forall n, (1 <= n <= 99)%nat -> let t := to_string (Z.of_nat n) in
    ClassifyZone ("b" +s+ t +s+ "_start") = (Start, Z.of_nat n) /\ ClassifyZone ("bonus" +s+ t +s+ "_end") = (End_, Z.of_nat n) /\
    ParseCourse ("b" +s+ t) = Z.of_nat n /\ ParseCourse t = Z.of_nat n).
Proof.
  split_and!.
  - unfold ClassifyZone. destruct (sempty _); [done|]. destruct (one_of _ kStart); [done|]. destruct (one_of _ kEnd); [done|].
    destruct (BonusPrefix _) as [[b r]|] eqn:E; [|done]. apply BonusPrefix_bounds in E. destruct (one_of r _); [split; [lia|done]|].
    destruct (one_of r _); [split; [lia|done]|done].
  - apply ParseCourse_bounds.
  - apply ParseCourse_bounds.
  - intros n Hn. pose proof (named_courses n Hn) as H. unfold named_course in H. cbn zeta in *. set (t := to_string (Z.of_nat n)) in *.
    split_bools. destruct (ClassifyZone ("b" +s+ t +s+ "_start")) as [[] c], (ClassifyZone ("bonus" +s+ t +s+ "_end")) as [[] c']; try done.
    split_bools. by subst.
Qed.

(** ** At concrete inputs *)

Lemma sample_times : map_to_list (times_of (run_all sample_runs) "surf_a" "surf") =
  [(2, {| name := "bob"; ms := 55000; date := 200 |}); (1, {| name := "ally"; ms := 58000; date := 300 |})].
Proof. vm_compute. reflexivity. Qed.

Lemma sample_all (P : Z -> Record_ -> Prop) :
  P 1 {| name := "ally"; ms := 58000; date := 300 |} -> P 2 {| name := "bob"; ms := 55000; date := 200 |} ->
  map_Forall P (times_of (run_all sample_runs) "surf_a" "surf").
Proof. intros H1 H2. apply map_Forall_to_list. rewrite sample_times. by repeat constructor. Qed.

Lemma finish_true_witness :
  let '(r', f) := AddRun (run_all sample_runs) "surf_a" "surf" 1 "alice" 50000 500 in
  previousMs f = 58000 /\ serverRecord f = true /\ rank f = 1.
Proof.
  pose proof (finish_true (run_all sample_runs) "surf_a" "surf" 1 "alice" 50000 500 ltac:(apply sample_all; cbn; lia)) as H.
  assert (map_Forall (fun _ o => 50000 < ms o) (times_of (run_all sample_runs) "surf_a" "surf")) as Ha by (apply sample_all; cbn; lia).
  assert (previousMs (AddRun (run_all sample_runs) "surf_a" "surf" 1 "alice" 50000 500).2 = 58000) as Hm by (vm_compute; reflexivity).
  destruct (AddRun _ _ _ _ _ _ _) as [r' f]. destruct H as (_ & _ & _ & H2 & H3).
  split; [exact Hm|]. split; [exact (proj2 H2 Ha)|exact (H3 (proj2 H2 Ha))].
Defined.

Lemma records_reload_witness : Deserialize (Serialize (run_all sample_runs)) = Some (Some (run_all sample_runs)).
Proof.
  apply records_reload. unfold run_all, sample_runs. cbn [foldl].
  repeat (apply run_storable; [|split; cbn; unfold uint64_ok, int64_ok; lia]). apply map_Forall_empty.
Defined.

End Mv.
