(* ===== verification/Essentials.v ===== *)
(** * Essentials: admins, console commands over chat, map names and default maps

    [src/plugins/essentials/essentials_rules.h] and [.cpp], the rules of the essentials plugin without the engine.  The
    admins are a list, as in the source; the default maps a [gmap].  The text of a locales key is an argument ([tr]),
    as in the source. *)

From S2P Require Import Prelude CStr Double Numerics MiniJson Whitelist Json JsonFacts MatchRulesFacts MapNames Midas.

Module Ess.

(** ** Commands over [.rcon] *)

Definition blank (c : ascii) : bool := Ascii.eqb c " "%char || Ascii.eqb c tab.
Definition line_end (c : ascii) : bool := Ascii.eqb c newline || Ascii.eqb c creturn || Ascii.eqb c nul.
(** The characters around a word: blanks and the quote. *)
Definition word_sep (c : ascii) : bool := blank c || Ascii.eqb c dquote.
Definition is_semicolon (c : ascii) : bool := Ascii.eqb c ";"%char.

Definition kRefused : list string :=
  ["quit"; "exit"; "_restart"; "restart"; "killserver"; "shutdown"; "sv_setsteamaccount"; "rcon_password"; "rcon";
   "readyup_license_key"; "alias"].

(** The first word of a part. *)
Definition first_word (part : string) : string := (span (fun c => negb (word_sep c)) (drop_while word_sep part)).1.

Definition fleet_word (word part : string) : bool :=
  (word =s "fleet") || starts_with "ru_fleet" word || ((word =s "ru") && contains "fleet" part).

(** Why a part is refused. *)
Definition part_refusal (p : string) : string :=
  let part := lower p in
  let word := first_word part in
  if sempty word then EmptyString
  else if existsb (fun r => word =s r) kRefused then "`" +s+ word +s+ "` is not allowed over .rcon"
  else if fleet_word word part then "the fleet link's own commands are not allowed over .rcon"
  else EmptyString.

Fixpoint first_refusal (parts : list string) : string :=
  match parts with
  | [] => EmptyString
  | p :: ps => let why := part_refusal p in if sempty why then first_refusal ps else why
  end.

Definition RconRefusal (command : string) : string :=
  if sforall blank command then "usage: .rcon <command>"
  else if 512 <? slen command then "the command is longer than 512 bytes"
  else if negb (sforall (fun c => negb (line_end c)) command) then "one line only"
  else first_refusal (Mi.cut_where is_semicolon EmptyString command).

(** ** Admins *)

Record Admin := { steamid64 : Z; name : string }.

Definition ParseSteamId64 (s : string) : Z :=
  if negb (slen s =? 17) || negb (starts_with "7656119" s) then 0 else if negb (sforall isdigit s) then 0 else strtoull s.

Definition IsAdmin (admins : list Admin) (sid : Z) : bool := negb (sid =? 0) && existsb (fun a => steamid64 a =? sid) admins.
(** The list, and whether the player was new to it. *)
Definition AddAdmin (admins : list Admin) (sid : Z) (nm : string) : list Admin * bool :=
  if (sid =? 0) || IsAdmin admins sid then (admins, false) else (admins ++ [{| steamid64 := sid; name := nm |}], true).
(** The list, and whether the player was in it. *)
Definition RemoveAdmin (admins : list Admin) (sid : Z) : list Admin * bool :=
  if existsb (fun a => steamid64 a =? sid) admins then (filter (fun a => steamid64 a <> sid) admins, true) else (admins, false).

Definition json_blank (c : ascii) : bool := blank c || Ascii.eqb c creturn || Ascii.eqb c newline.

(** The id of an entry: a string, or a positive integer. *)
Definition entry_id (a : Json) : Z :=
  match (if IsObject a then Find a "steamid64" else Some a) with
  | Some (JString s) => ParseSteamId64 s
  | Some (JInt i) => if 0 <? i then ParseSteamId64 (to_string i) else 0
  | _ => 0
  end.
Definition entry_name (a : Json) : string :=
  match (if IsObject a then Find a "name" else None) with Some (JString s) => s | _ => EmptyString end.
Definition read_admin (out : list Admin) (a : Json) : list Admin :=
  let sid := entry_id a in
  if negb (sid =? 0) && negb (IsAdmin out sid) then out ++ [{| steamid64 := sid; name := entry_name a |}] else out.

(** The list, and whether the text was a JSON object (or blank). *)
Definition ParseAdmins (json : string) : list Admin * bool :=
  if sforall json_blank json then ([], true)
  else
    match Parse json with
    | Parsed (JObject _ as doc) =>
        (match Find doc "admins" with Some (JArray arr) => foldl read_admin [] arr | _ => [] end, true)
    | _ => ([], false)
    end.

Definition admin_json (a : Admin) : Json := JObject [("steamid64", JString (to_string (steamid64 a))); ("name", JString (name a))].
Definition admins_doc (admins : list Admin) : Json := JObject [("version", JInt 1); ("admins", JArray (admin_json <$> admins))].
Definition AdminsJson (admins : list Admin) : string := Dump (admins_doc admins) +s+ str1 newline.

(** ** Finding a player *)

Record Player := { p_steamid64 : Z; p_name : string }.

(** The loop: an exact name ends it, a name that contains the fragment is collected. *)
Fixpoint scan_players (f : string) (players hits : list Player) : Player + list Player :=
  match players with
  | [] => inr hits
  | p :: ps =>
      let n := lower (p_name p) in
      if n =s f then inl p else scan_players f ps (if contains f n then hits ++ [p] else hits)
  end.

(** The player, or the error. *)
Definition FindPlayer (players : list Player) (fragment : string) : Player + string :=
  let f := lower fragment in
  if sempty f then inr "give a SteamID64 or part of a connected player's name"
  else
    match scan_players f players [] with
    | inl p => inl p
    | inr [p] => inl p
    | inr [] => inr ("no connected player matches " +s+ str1 dquote +s+ fragment +s+ str1 dquote)
    | inr hits => inr (to_string (zlen hits) +s+ " players match " +s+ str1 dquote +s+ fragment +s+ str1 dquote +s+ "; be more specific")
    end.

(** ** Maps *)

(** The text from the first occurrence of [p] on, behind it. *)
Definition behind (p l : string) : option nat := (fun i => (i + String.length p)%nat) <$> find p l.

Definition MapArgToEntry (arg : string) : string :=
  let l := lower arg in
  if negb (contains "steamcommunity.com/" l) then arg
  else
    match (match behind "?id=" l with Some p => Some p | None => behind "&id=" l end) with
    | None => arg
    | Some p => let id := (span isdigit (sdrop p l)).1 in if sempty id then arg else stake (String.length id) (sdrop p arg)
    end.

Definition MapCommandBlocked (ruMode : string) : bool := Mi.one_of ruMode ["match_live"; "match_knife"; "knife"].

Definition KnownDefaultMapModes : list string := ["ffa"; "tdm"; "practice"; "warmup"; "retakes"].
Definition mode_char (c : ascii) : bool := islower c || isdigit c || Ascii.eqb c "_"%char.
Definition ValidModeName (mode : string) : bool := negb (sempty mode || (32 <? slen mode)) && sforall mode_char mode.

Abbreviation DefaultMaps := (gmap string string).

(** The maps, or the error. *)
Definition SetDefaultMap (maps : DefaultMaps) (mode mapArg : string) : DefaultMaps + string :=
  let m := lower mode in
  if negb (ValidModeName m) then inr (str1 dquote +s+ stake 40 mode +s+ str1 dquote +s+ " is not a mode name (a-z, 0-9, _)")
  else if sempty mapArg || (lower mapArg =s "clear") then inl (delete m maps)
  else
    let entry := MapArgToEntry mapArg in
    if negb (Mn.ValidEntry entry) then inr (str1 dquote +s+ stake 64 mapArg +s+ str1 dquote +s+ " is not a map name, workshop id or workshop link")
    else inl (<[m := entry]> maps).

Definition read_default (out : DefaultMaps) (kv : string * Json) : DefaultMaps :=
  match kv.2 with JString v => match SetDefaultMap out kv.1 v with inl m => m | inr _ => out end | _ => out end.
Definition ParseDefaultMaps (json : string) : DefaultMaps * bool :=
  if sforall json_blank json then (∅, true)
  else
    match Parse json with
    | Parsed (JObject _ as doc) =>
        (match Find doc "maps" with Some (JObject maps) => foldl read_default ∅ maps | _ => ∅ end, true)
    | _ => (∅, false)
    end.

Definition entry_le (a b : string * string) : Prop := str_le a.1 b.1.
#[export] Instance entry_le_dec : RelDecision entry_le.
Proof. intros a b. unfold entry_le. apply _. Defined.
Definition entries (m : DefaultMaps) : list (string * string) := merge_sort entry_le (map_to_list m).
Definition default_json (kv : string * string) : string * Json := (kv.1, JString kv.2).
Definition DefaultMapsJson (maps : DefaultMaps) : string :=
  Dump (JObject [("version", JInt 1); ("maps", JObject (default_json <$> entries maps))]) +s+ str1 newline.
Definition DefaultMapFor (maps : DefaultMaps) (mode : string) : string := default EmptyString (maps !! lower mode).

(** ** The map a name means *)

(** A leading prefix of two or three characters before the first [_] taken off. *)
Definition StripPrefix (m : string) : string :=
  match find "_" m with Some (2 as u) | Some (3 as u) => sdrop (S u) m | _ => m end%nat.

Record MapMatch := { m_name : string; m_ambiguous : list string }.
Definition none_found : MapMatch := {| m_name := EmptyString; m_ambiguous := [] |}.

Definition name_at (rawMaps : list string) (i : nat) : string := default EmptyString (rawMaps !! i).
Definition pick_map (rawMaps : list string) (idx : list nat) : MapMatch :=
  match idx with
  | [i] => {| m_name := name_at rawMaps i; m_ambiguous := [] |}
  | _ => {| m_name := EmptyString; m_ambiguous := name_at rawMaps <$> take 5 idx |}
  end.

Definition prefixes : list string := ["de_"; "cs_"; "ar_"; "dz_"; "gd_"; "aim_"; "fy_"; "awp_"].
(** The first map that is the query behind one of the prefixes, in their order. *)
Definition prefixed (q : string) (maps : list string) : option nat :=
  head (flat_map (fun pre => Mi.indices (fun m => m =s (pre +s+ q)) maps) prefixes).

(** The closest names, and their distance. *)
Definition closest (qs : string) (maps : list string) : option nat * list nat :=
  foldl (Mi.closest_step qs) (None, []) (imap pair (StripPrefix <$> maps)).

Definition contained (rawMaps maps : list string) (q : string) : option MapMatch :=
  let idx := Mi.indices (fun m => contains q m) maps in
  let starts := filter (fun i => starts_with q (StripPrefix (name_at maps i)) = true) idx in
  let starts := Mi.shortest maps starts in
  if negb (bool_decide (starts = [])) then Some (pick_map rawMaps starts)
  else if negb (bool_decide (idx = [])) then Some (pick_map rawMaps idx) else None.

Definition by_distance (rawMaps maps : list string) (q : string) : MapMatch :=
  let qs := StripPrefix q in
  match closest qs maps with
  | (Some best, idx) => if (best <=? Nat.max 1 (String.length qs / 3))%nat then pick_map rawMaps idx else none_found
  | _ => none_found
  end.

Definition ResolveMapName (rawQuery : string) (rawMaps : list string) : MapMatch :=
  let q := lower rawQuery in
  if sempty q || bool_decide (rawMaps = []) then none_found
  else
    let maps := lower <$> rawMaps in
    match head (Mi.indices (fun m => m =s q) maps) with
    | Some i => pick_map rawMaps [i]
    | None =>
        match prefixed q maps with
        | Some i => pick_map rawMaps [i]
        | None =>
            let same := Mi.indices (fun m => StripPrefix m =s StripPrefix q) maps in
            if negb (bool_decide (same = [])) then pick_map rawMaps same
            else
              match (if 3 <=? slen q then contained rawMaps maps q else None) with
              | Some r => r
              | None => by_distance rawMaps maps q
              end
        end
    end.

(** ** The panels *)

Definition escape_html_char (c : ascii) : string :=
  if Ascii.eqb c "<"%char then "&lt;"
  else if Ascii.eqb c ">"%char then "&gt;"
  else if Ascii.eqb c "&"%char then "&amp;"
  else if Ascii.eqb c dquote || Ascii.eqb c "'"%char then " "
  else str1 c.
Fixpoint EscapeHtml (s : string) : string :=
  match s with EmptyString => EmptyString | String c r => escape_html_char c +s+ EscapeHtml r end.

Fixpoint Repeat (s : string) (n : nat) : string := match n with O => EmptyString | S n => s +s+ Repeat s n end.
(** [\u2588] in UTF-8. *)
Definition block : string := String "226"%char (String "150"%char (str1 "136"%char)).

Section Panels.
Context (tr : string -> list (string * string) -> string).

Definition MapChangePanelHtml (nm : string) (reload : bool) : string :=
  "<font class='fontSize-l' color='#ffffff'>" +s+ tr (if reload then "panel.reloading" else "panel.changing") [("map", EscapeHtml nm)] +s+
  "</font><br><font class='fontSize-m' color='#d4d4d8'>" +s+ tr "panel.hold_on" [] +s+ "</font>".

Definition download_frac (downloaded total : Z) : double := if 0 <? total then ddiv (of_int downloaded) (of_int total) else of_int 0.
(** [static_cast<int>(frac * segments + 1e-9)]. *)
Definition filled_blocks (frac : double) (segments : Z) : Z :=
  default 0 (dtrunc (dadd (dmul frac (of_int segments)) (dec_double false 1 1 (-9)))).
Definition megabytes (n : Z) : string := fmt_f 1 (ddiv (of_int n) (of_int 1048576)).

Definition DownloadPanelHtml (nm : string) (downloaded total segments : Z) : string :=
  let segments := Z.max 1 segments in
  let downloaded := if (0 <? total) && (total <? downloaded) then total else downloaded in
  let frac := download_frac downloaded total in
  let filled := filled_blocks frac segments in
  let stats :=
    if 0 <? total then fmt_f 1 (dmul frac (of_int 100)) +s+ "% &#183; " +s+ megabytes downloaded +s+ " / " +s+ megabytes total +s+ " MB"
    else tr "panel.waiting_steam" [] in
  "<font class='fontSize-l' color='#ffffff'>" +s+ tr "panel.downloading" [("map", EscapeHtml nm)] +s+ "</font><br>" +s+
  (if 0 <? filled then "<font color='#4ade80'>" +s+ Repeat block (Z.to_nat filled) +s+ "</font>" else EmptyString) +s+
  (if filled <? segments then "<font color='#3f3f46'>" +s+ Repeat block (Z.to_nat (segments - filled)) +s+ "</font>" else EmptyString) +s+
  "<br><font class='fontSize-m' color='#d4d4d8'>" +s+ stake 95 stats +s+ "</font>".

End Panels.

(** ** Checks *)

Example rcon_ok : map (fun c => sempty (RconRefusal c)) ["mp_roundtime 2"; "status; mp_restartgame 1"; qs "sv_password `x y`"] = [true; true; true].
Proof. vm_compute. reflexivity. Qed.
Example rcon_bad :
  existsb (fun c => sempty (RconRefusal c))
    [""; "  "; "QUIT"; " exit"; "sv_setsteamaccount ABC"; "alias q quit"; "status; quit"; qs "status;`quit`"; "fleet enroll x"; "ru_fleet_url x";
     "ru fleet status"; "mp_warmup_end;  Sv_SetSteamAccount 1"] = false.
Proof. vm_compute. reflexivity. Qed.
Definition sample_maps : list string :=
  ["de_mirage"; "de_dust2"; "de_inferno"; "de_nuke"; "cs_office"; "cs_italy"; "ar_shoots"; "de_ancient"; "de_anubis"; "de_train"].
Example resolve_samples :
  map (fun q => m_name (ResolveMapName q sample_maps)) ["de_mirage"; "mirage"; "office"; "dust"; "miarge"; "infenro"; "an"; "anc"; "it"; "zzzzzzzz"] =
  ["de_mirage"; "de_mirage"; "cs_office"; "de_dust2"; "de_mirage"; "de_inferno"; ""; "de_ancient"; ""; ""] /\
  m_name (ResolveMapName "mirag" ["de_mirage"; "de_mirage_night"]) = "de_mirage" /\
  m_name (ResolveMapName "mirage_n" ["de_mirage"; "de_mirage_night"]) = "de_mirage_night".
Proof. vm_compute. auto. Qed.
Example link_samples :
  MapArgToEntry "steamcommunity.com/sharedfiles/filedetails/?id=3793104017&searchtext=aim" = "3793104017" /\
  MapArgToEntry "https://steamcommunity.com/workshop/filedetails/?l=english&id=123456" = "123456" /\ MapArgToEntry "de_dust2" = "de_dust2".
Proof. vm_compute. auto. Qed.
Example default_samples :
  let '(m, ok) := ParseDefaultMaps (qs "{`version`: 1, `maps`: {`ffa`: `aim_map`, `TDM`: `de_dust2`, `bad mode`: `de_x`, `warmup`: `de_x;quit`, `retakes`: 5}}") in
  ok = true /\ DefaultMapFor m "FFA" = "aim_map" /\ DefaultMapFor m "tdm" = "de_dust2" /\ DefaultMapFor m "warmup" = "" /\ size m = 2%nat.
Proof. vm_compute. auto. Qed.
Example download_sample :
  DownloadPanelHtml (fun key _ => key) "m" 300 200 10 =
  "<font class='fontSize-l' color='#ffffff'>panel.downloading</font><br><font color='#4ade80'>" +s+ Repeat block 10 +s+
  "</font><br><font class='fontSize-m' color='#d4d4d8'>100.0% &#183; 0.0 / 0.0 MB</font>".
Proof. vm_compute. reflexivity. Qed.
Example admins_sample :
  ParseAdmins (qs "{`version`: 1, `admins`: [{`steamid64`: `76561198000000001`, `name`: `alice`}, `76561198000000002`, {`steamid64`: `76561198000000001`}, {`steamid64`: `nope`}, {`steamid64`: 76561198000000009}]}") =
  ([{| steamid64 := 76561198000000001; name := "alice" |}; {| steamid64 := 76561198000000002; name := "" |}; {| steamid64 := 76561198000000009; name := "" |}], true).
Proof. vm_compute. reflexivity. Qed.

(** ** What may run over [.rcon] *)

(** A command of the line: the text between two semicolons, or the ends. *)
Definition command_of (line p : string) : Prop :=
  exists a b, line = (a +s+ p +s+ b) /\ sforall (fun c => negb (is_semicolon c)) p = true /\
    (a = EmptyString \/ exists a', a = (a' +s+ ";")) /\ (b = EmptyString \/ exists b', b = String ";" b').

Lemma cut_where_suffix f a c rest x cur : f c = true -> x ∈ Mi.cut_where f EmptyString rest -> x ∈ Mi.cut_where f cur (a +s+ String c rest).
Proof.
  intros Hc Hx. revert cur. induction a as [|d a IH]; intros cur; cbn [String.append Mi.cut_where]; [rewrite Hc; by right|].
  destruct (f d); [right|]; apply IH.
Qed.

Lemma command_cut line p : command_of line p -> p ∈ Mi.cut_where is_semicolon EmptyString line.
Proof.
  intros (a & b & -> & Hp & Ha & Hb).
  assert (p ∈ Mi.cut_where is_semicolon EmptyString (p +s+ b)) as H.
  { destruct Hb as [->|[b' ->]]; [rewrite app_nil_s, Mi.cut_where_end by done; by left|]. rewrite Mi.cut_where_part by done. by left. }
  destruct Ha as [->|[a' ->]]; [done|]. rewrite app_assoc_s. by apply cut_where_suffix.
Qed.

Lemma first_refusal_none ps : first_refusal ps = EmptyString -> Forall (fun p => part_refusal p = EmptyString) ps.
Proof. induction ps as [|p ps IH]; cbn; [constructor|]. destruct (part_refusal p) eqn:E; cbn; [|done]. intros. constructor; auto. Qed.

Lemma drop_while_app f a b : sforall f a = true -> drop_while f (a +s+ b) = drop_while f b.
Proof. induction a as [|c a IH]; cbn; [done|]. destruct (f c); [|done]. apply IH. Qed.

Lemma first_word_app s w r : sforall word_sep s = true -> sforall (fun c => negb (word_sep c)) w = true -> sempty w = false ->
  stops (fun c => negb (word_sep c)) r -> first_word (s +s+ w +s+ r) = w.
Proof.
  intros Hs Hw He Hr. unfold first_word. rewrite drop_while_app by done. rewrite drop_while_id; [by rewrite span_app|].
  destruct w as [|c w]; [done|]. cbn in *. destruct (word_sep c); [done|]. done.
Qed.

(** A line that [.rcon] lets through is one line of at most 512 bytes in which no command, whatever its case and the blanks and quotes before it, starts with a refused word, with [fleet] or [ru_fleet], or with [ru] when it mentions the fleet. *)
Theorem rcon_safe line : RconRefusal line = EmptyString ->
  slen line <= 512 /\ sforall (fun c => negb (line_end c)) line = true /\
  forall p s w r, command_of line p -> lower p = (s +s+ w +s+ r) -> sforall word_sep s = true ->
    sforall (fun c => negb (word_sep c)) w = true -> sempty w = false -> stops (fun c => negb (word_sep c)) r ->
    (w ∉ kRefused) /\ w <> "fleet" /\ starts_with "ru_fleet" w = false /\ (w = "ru" -> contains "fleet" (lower p) = false).
Proof.
  unfold RconRefusal. destruct (sforall blank line); [done|]. destruct (Z.ltb_spec 512 (slen line)); [done|].
  destruct (sforall (fun c => negb (line_end c)) line); [cbn [negb]|done]. intros Hf. split_and!; [done|done|].
  intros p s w r Hp Hl Hs Hw He Hr. apply first_refusal_none in Hf. rewrite Forall_forall in Hf. specialize (Hf _ (command_cut _ _ Hp)).
  unfold part_refusal in Hf. rewrite Hl, (first_word_app s w r) in Hf by done. rewrite He, <- Hl in Hf.
  destruct (existsb _ kRefused) eqn:E1; [done|]. destruct (fleet_word w (lower p)) eqn:E2; [done|].
  unfold fleet_word in E2. apply orb_false_elim in E2 as [E2 E3]. apply orb_false_elim in E2 as [E2 E4].
  split_and!; [|by apply String.eqb_neq|done|intros ->; by rewrite String.eqb_refl in E3].
  intros Hin. apply not_true_iff_false in E1. apply E1, existsb_exists. exists w. rewrite String.eqb_refl. split; [by apply list_elem_of_In|done].
Qed.

(** ** The list of admins *)

(** A SteamID64 the file can hold. *)
Definition is_steamid (sid : Z) : Prop := 0 <= sid /\ Whitelist.is_id sid = true.
Definition admins_ok (l : list Admin) : Prop := NoDup (steamid64 <$> l) /\ Forall (fun a => is_steamid (steamid64 a)) l.

Lemma ParseSteamId64_text sid : is_steamid sid -> ParseSteamId64 (to_string sid) = sid.
Proof. intros [H1 H2]. by apply Whitelist.ParseSteamId64_id. Qed.
Lemma is_steamid_pos sid : is_steamid sid -> sid <> 0.
Proof. intros [_ H2] ->. by vm_compute in H2. Qed.

Lemma IsAdmin_spec l sid : IsAdmin l sid = true <-> sid <> 0 /\ sid ∈ steamid64 <$> l.
Proof.
  unfold IsAdmin. rewrite andb_true_iff, negb_true_iff, Z.eqb_neq, existsb_exists, list_elem_of_fmap.
  split; intros [H1 (a & Ha)]; (split; [done|]); exists a; rewrite list_elem_of_In, Z.eqb_eq in *; naive_solver.
Qed.

Lemma add_new_ok l sid nm : admins_ok l -> is_steamid sid -> IsAdmin l sid = false -> admins_ok (l ++ [{| steamid64 := sid; name := nm |}]).
Proof.
  intros [H1 H2] Hs Hn. apply not_true_iff_false in Hn. rewrite IsAdmin_spec in Hn. split; [|apply Forall_app; auto].
  rewrite fmap_app. cbn. apply NoDup_app. split_and!; [done| |apply NoDup_singleton].
  intros x Hx ->%list_elem_of_singleton. apply Hn. split; [by apply is_steamid_pos|done].
Qed.

(** The same list in the text the plugin writes, behind a last newline. *)
Lemma Parse_line j : plain j = true -> (depth j <= 64)%nat -> Parse (Dump j +s+ str1 newline) = Parsed j.
Proof. intros Hp Hd. unfold Parse. by rewrite (Value_Dump j 64 (str1 newline) Hp Hd eq_refl). Qed.

Lemma read_admins l : admins_ok l -> forall out, admins_ok (out ++ l) -> foldl read_admin out (admin_json <$> l) = out ++ l.
Proof.
  induction l as [|a l IH]; intros Hl out Ho; cbn; [by rewrite app_nil_r|]. destruct Hl as [Hn Hf]. cbn in Hn. apply NoDup_cons in Hn as [_ Hn]. apply Forall_cons in Hf as [Ha Hf].
  assert (read_admin out (admin_json a) = out ++ [a]) as ->.
  { unfold read_admin. change (entry_id (admin_json a)) with (ParseSteamId64 (to_string (steamid64 a))). rewrite ParseSteamId64_text by done.
    pose proof (is_steamid_pos _ Ha). destruct (Z.eqb_spec (steamid64 a) 0); [done|]. cbn [negb andb].
    destruct (IsAdmin out (steamid64 a)) eqn:E; [|by destruct a]. apply IsAdmin_spec in E as [_ E]. destruct Ho as [Ho _].
    rewrite fmap_app, NoDup_app in Ho. destruct Ho as (_ & Ho & _). destruct (Ho _ E). left. }
  replace (out ++ a :: l) with ((out ++ [a]) ++ l) in * by (by rewrite <- app_assoc). by apply IH.
Qed.

(** What a session does to the list. *)
Inductive AdminOp := OpAdd (sid : Z) (nm : string) | OpRemove (sid : Z).
Definition admin_step (l : list Admin) (o : AdminOp) : list Admin :=
  match o with OpAdd sid nm => (AddAdmin l sid nm).1 | OpRemove sid => (RemoveAdmin l sid).1 end.
Definition op_ok (o : AdminOp) : Prop := match o with OpAdd sid _ => is_steamid sid | OpRemove _ => True end.

Lemma admin_step_ok l o : admins_ok l -> op_ok o -> admins_ok (admin_step l o).
Proof.
  intros Hl Ho. destruct o as [sid nm|sid]; cbn in *.
  - unfold AddAdmin. destruct (sid =? 0); [done|]. cbn [orb]. destruct (IsAdmin l sid) eqn:E; [done|]. by apply add_new_ok.
  - unfold RemoveAdmin. destruct (existsb _ l); [|done]. destruct Hl as [H1 H2]. split; cbn.
    + eapply sublist_NoDup; [exact H1|apply fmap_sublist, sublist_filter].
    + rewrite Forall_forall in *. intros a [_ Ha]%list_elem_of_filter. auto.
Qed.

Definition touches (sid : Z) (o : AdminOp) : Prop := match o with OpAdd s _ => s = sid | OpRemove s => s = sid end.
#[export] Instance touches_dec sid o : Decision (touches sid o).
Proof. destruct o; cbn; apply _. Defined.

Lemma admin_step_is l o sid : is_steamid sid ->
  IsAdmin (admin_step l o) sid = if decide (touches sid o) then match o with OpAdd _ _ => true | OpRemove _ => false end else IsAdmin l sid.
Proof.
  intros Hs. pose proof (is_steamid_pos _ Hs) as Hne. apply eq_true_iff_eq. rewrite IsAdmin_spec.
  destruct o as [s nm|s]; cbn [admin_step touches]; destruct (decide (s = sid)) as [->|Hd]; rewrite ?IsAdmin_spec.
  - split; [done|]. intros _. split; [done|]. unfold AddAdmin. destruct (Z.eqb_spec sid 0); [done|]. cbn [orb].
    destruct (IsAdmin l sid) eqn:E; [by apply IsAdmin_spec in E as [_ E]|]. cbn [fst]. rewrite fmap_app. set_solver.
  - unfold AddAdmin. destruct (_ || _); cbn [fst]; [done|]. rewrite fmap_app. set_solver.
  - split; [|done]. intros [_ H]. exfalso. revert H. unfold RemoveAdmin. destruct (existsb _ l) eqn:E; cbn [fst].
    + intros (a & -> & [Ha _]%list_elem_of_filter)%list_elem_of_fmap. done.
    + intros (a & -> & Ha)%list_elem_of_fmap. apply not_true_iff_false in E. apply E, existsb_exists. exists a.
      by rewrite <- list_elem_of_In, Z.eqb_refl.
  - unfold RemoveAdmin. destruct (existsb _ l) eqn:E; cbn [fst]; [|done]. apply and_iff_compat_l. rewrite !list_elem_of_fmap.
    split; intros (a & -> & Ha); exists a; (split; [done|]); [by apply list_elem_of_filter in Ha as [_ Ha]|]. apply list_elem_of_filter. auto.
Qed.

(** After any additions and removals the list of admins holds every admin once, a player is an admin exactly when the last operation on them was an addition, and the file written from the list is read back as the list. *)
Theorem admins_kept os : Forall op_ok os ->
  let l := foldl admin_step [] os in
  NoDup (steamid64 <$> l) /\ ParseAdmins (AdminsJson l) = (l, true) /\
  forall sid, is_steamid sid ->
    IsAdmin l sid = match last (filter (touches sid) os) with Some (OpAdd _ _) => true | _ => false end.
Proof.
  intros Hos. cbn zeta. assert (admins_ok (foldl admin_step [] os)) as Hl.
  { induction os as [|o os IH] using rev_ind; [by repeat constructor|]. apply Forall_app in Hos as [Hos Ho]. rewrite foldl_app.
    apply admin_step_ok; [by apply IH|by apply Forall_cons in Ho as [? _]]. }
  split_and!; [apply Hl| |].
  - set (l := foldl admin_step [] os) in *. unfold ParseAdmins, AdminsJson. rewrite Parse_line.
    + cbn [Find Members find_member admins_doc]. change ("admins" =s "admins") with true. change ("version" =s "admins") with false. cbn iota.
      by rewrite (read_admins l Hl []) by done.
    + apply plain_object. split; [by apply (bool_decide_unpack _); vm_compute|]. repeat constructor. cbn. apply all_items_forall, Forall_fmap, Forall_forall.
      intros a _. apply plain_object. split; [by apply (bool_decide_unpack _); vm_compute|by repeat constructor].
    + cbn. assert (max_items depth (admin_json <$> l) <= 1)%nat; [|lia]. clear. induction l as [|a l IH]; cbn in *; lia.
  - intros sid Hs. clear Hl. induction os as [|o os IH] using rev_ind; [apply andb_false_r|]. apply Forall_app in Hos as [Hos _].
    rewrite foldl_app, filter_app, filter_cons, filter_nil. cbn [foldl]. rewrite admin_step_is by done.
    destruct (decide (touches sid o)); [by rewrite last_snoc; destruct o|]. rewrite app_nil_r. by apply IH.
Qed.

(** ** The default maps *)

Definition default_ok (k v : string) : Prop :=
  ValidModeName k = true /\ lower k = k /\ sempty v = false /\ lower v <> "clear" /\ MapArgToEntry v = v /\ Mn.ValidEntry v = true.

Lemma lower_idem s : lower (lower s) = lower s.
Proof.
  unfold lower. induction s as [|c s IH]; [done|]. cbn. rewrite IH. f_equal. unfold tolower. destruct (isupper c) eqn:E; [|by rewrite E].
  assert (isupper (chr (code c + 32)) = false) as ->; [|done]. unfold isupper in *. apply andb_prop in E as [E1 E2]. rewrite code_chr by lia. lia.
Qed.

Lemma span_prefix f s : sforall f (span f s).1 = true.
Proof. pose proof (span_spec f s) as H. destruct (span f s). apply H. Qed.

Lemma find_occurs p s i : find p s = Some i -> exists a b, s = (a +s+ p +s+ b).
Proof.
  revert i. induction s as [|c s IH]; intros i E.
  - cbn in E. destruct (starts_with p EmptyString) eqn:Es; [|done]. destruct (starts_with_app _ _ Es) as [r ->]. by exists EmptyString, r.
  - rewrite find_skip in E. destruct (starts_with p (String c s)) eqn:Es.
    + destruct (starts_with_app _ _ Es) as [r ->]. by exists EmptyString, r.
    + destruct (find p s) as [j|] eqn:Ej; [|done]. destruct (IH j eq_refl) as (a & b & ->). by exists (String c a), b.
Qed.

(** A text is absent where its characters are. *)
Lemma find_lacks f p s : sforall f p = false -> sforall f s = true -> find p s = None.
Proof.
  intros Hp Hs. destruct (find p s) as [i|] eqn:E; [|done]. apply find_occurs in E as (a & b & ->). rewrite !sforall_app, Hp in Hs.
  by rewrite andb_false_r in Hs.
Qed.

Definition entry_char (c : ascii) : bool := Mn.name_char c || Ascii.eqb c ":"%char.

Lemma name_entry c : Mn.name_char c = true -> entry_char c = true.
Proof. unfold entry_char. by intros ->. Qed.

Lemma cut_slash_spec s : let '(a, o) := Mn.cut_slash s in s = match o with Some r => a +s+ String "/" r | None => a end.
Proof.
  unfold Mn.cut_slash. destruct (find "/" s) as [i|] eqn:E; [|done]. revert i E. induction s as [|c s IH]; intros i E; [done|].
  rewrite find_skip in E. destruct (starts_with "/" (String c s)) eqn:Es.
  - injection E as <-. destruct (starts_with_app _ _ Es) as [r Er]. injection Er as -> ->. done.
  - destruct (find "/" s) as [k|]; [|done]. injection E as <-. change (String c s = String c (stake k s +s+ String "/" (sdrop (S k) s))). f_equal. exact (IH k eq_refl).
Qed.

Lemma valid_chars v : Mn.ValidEntry v = true -> sforall entry_char v = true /\ sempty v = false.
Proof.
  unfold Mn.ValidEntry, Mn.ParseEntry.
  assert (forall id, Mn.IsDigits id = true -> sforall entry_char id = true) as Hid.
  { intros id [Hd _]%MnFacts.IsDigits_digits. revert Hd. apply sforall_impl. intros c Hc. by apply name_entry, MnFacts.digit_name. }
  assert (forall n, Mn.SafeName n = true -> sforall entry_char n = true) as Hsafe.
  { intros n [Hn _]%MnFacts.SafeName_chars. revert Hn. apply sforall_impl, name_entry. }
  destruct (starts_with "ws:" v) eqn:E1.
  - destruct (starts_with_app _ _ E1) as [r ->]. change (sdrop 3 ("ws:" +s+ r)) with r. destruct (Mn.IsDigits r) eqn:E; [|done].
    intros _. rewrite sforall_app, (Hid r E). by split.
  - destruct (starts_with "workshop/" v) eqn:E2.
    + destruct (starts_with_app _ _ E2) as [r ->]. change (sdrop 9 ("workshop/" +s+ r)) with r. pose proof (cut_slash_spec r) as Hr.
      destruct (Mn.cut_slash r) as [id o]. destruct (Mn.IsDigits id) eqn:E; [cbn [negb]|done]. rewrite sforall_app. subst r.
      destruct o as [n|]; [|intros _; rewrite (Hid id E); by split]. destruct (Mn.SafeName n) eqn:En; [|done]. intros _.
      rewrite sforall_app, (Hid id E). cbn [sforall]. rewrite (Hsafe n En). by split.
    + destruct (negb (sempty v) && sforall isdigit v) eqn:E3.
      * destruct (Mn.IsDigits v) eqn:E; [|done]. intros _. split; [by apply Hid|]. by destruct (sempty v).
      * destruct (Mn.SafeName v) eqn:E; [|done]. intros _. split; [by apply Hsafe|]. by apply MnFacts.SafeName_chars in E as [_ ?].
Qed.

Lemma lower_chars v : sforall entry_char v = true -> sforall entry_char (lower v) = true.
Proof.
  unfold lower. induction v as [|c v IH]; [done|]. cbn. intros [Hc Hv]%andb_prop. rewrite IH, andb_true_r by done.
  unfold tolower. destruct (isupper c) eqn:E; [|done]. unfold isupper in E. apply andb_prop in E as [E1 E2].
  unfold entry_char, Mn.name_char, isalnum, islower. rewrite code_chr by lia.
  destruct (Z.leb_spec 97 (code c + 32)); [|lia]. destruct (Z.leb_spec (code c + 32) 122); [|lia]. cbn. by rewrite orb_true_r.
Qed.

(** A valid entry is not a link. *)
Lemma valid_entry_stays v : Mn.ValidEntry v = true -> MapArgToEntry v = v.
Proof.
  intros [Hc _]%valid_chars. apply lower_chars in Hc. unfold MapArgToEntry, behind. destruct (negb _); [done|].
  by rewrite !(find_lacks entry_char) by done.
Qed.

Lemma digits_not_clear v : sforall isdigit v = true -> lower v <> "clear".
Proof. intros Hv E. destruct v as [|c v]; [done|]. cbn in *. injection E as E _. apply andb_prop in Hv as [Hc _].
  unfold tolower, isupper, isdigit in *. split_bools. destruct (Z.leb_spec 65 (code c)); [lia|]. cbn in E. subst c. by vm_compute in H0.
Qed.

(** What a link stands for: its digits. *)
Lemma MapArgToEntry_cases arg : MapArgToEntry arg = arg \/ sforall isdigit (MapArgToEntry arg) = true.
Proof.
  unfold MapArgToEntry. destruct (negb _); [by left|]. destruct (match behind _ _ with Some p => _ | None => _ end) as [n|]; [|by left].
  destruct (sempty (span isdigit (sdrop n (lower arg))).1); [by left|]. right.
  assert (forall s, sforall isdigit (stake (String.length (span isdigit (lower s)).1) s) = true) as H.
  { clear. induction s as [|c s IH]; [done|]. cbn. destruct (isdigit (tolower c)) eqn:E; [|done].
    unfold lower in IH. destruct (span isdigit (smap tolower s)) as [a b]. cbn in *. rewrite IH, andb_true_r.
    unfold tolower in E. destruct (isupper c) eqn:Eu; [|done]. exfalso. unfold isupper, isdigit in *. split_bools. rewrite code_chr in * by lia. lia. }
  assert (forall k s, sdrop k (lower s) = lower (sdrop k s)) as ->; [|apply H].
  clear. unfold lower. induction k as [|k IH]; intros s; [done|]. destruct s; [done|]. apply IH.
Qed.

Definition defaults_ok (m : DefaultMaps) : Prop := map_Forall default_ok m.
Definition set_step (m : DefaultMaps) (s : string * string) : DefaultMaps := match SetDefaultMap m s.1 s.2 with inl m => m | inr _ => m end.

Lemma set_step_ok m s : defaults_ok m -> defaults_ok (set_step m s).
Proof.
  intros Hm. unfold set_step, SetDefaultMap. destruct (ValidModeName (lower s.1)) eqn:Ek; [cbn [negb]|done].
  destruct (sempty s.2) eqn:Ee; cbn [orb]; [by apply map_Forall_delete|].
  destruct (String.eqb_spec (lower s.2) "clear") as [|Hc]; [by apply map_Forall_delete|].
  destruct (Mn.ValidEntry (MapArgToEntry s.2)) eqn:Ev; cbn [negb]; [|done]. apply map_Forall_insert_2; [|done].
  split_and!; [done|apply lower_idem|by apply valid_chars| |by apply valid_entry_stays|done].
  destruct (MapArgToEntry_cases s.2) as [->|H]; [done|by apply digits_not_clear].
Qed.

Lemma read_default_ok m kv : default_ok kv.1 kv.2 -> read_default m (default_json kv) = <[kv.1 := kv.2]> m.
Proof.
  intros (H1 & H2 & H3 & H4 & H5 & H6). unfold read_default, SetDefaultMap. cbn [default_json fst snd]. rewrite H2, H1, H3, H5, H6.
  destruct (String.eqb_spec (lower kv.2) "clear"); done.
Qed.

(** Whatever default maps an admin sets and clears, with modes and maps of any text, the file written from them is read back as the same default maps. *)
Theorem default_maps_reload sets : let m := foldl set_step ∅ sets in ParseDefaultMaps (DefaultMapsJson m) = (m, true).
Proof.
  cbn zeta. set (m := foldl set_step ∅ sets).
  assert (defaults_ok m) as Hm.
  { unfold m. induction sets as [|s ss IH] using rev_ind; [apply map_Forall_empty|]. rewrite foldl_app. by apply set_step_ok. }
  assert (entries m ≡ₚ map_to_list m) as Hp by apply merge_sort_Permutation.
  assert (Forall (fun kv => default_ok kv.1 kv.2) (entries m)) as Hf.
  { rewrite Hp. apply Forall_forall. intros [k v] H%elem_of_map_to_list. by apply (Hm k v). }
  unfold ParseDefaultMaps, DefaultMapsJson. rewrite Parse_line.
  - cbn [Find Members find_member]. change ("maps" =s "maps") with true. change ("version" =s "maps") with false. cbn iota.
    assert (forall out, foldl read_default out (default_json <$> entries m) = foldl (fun m kv => <[kv.1 := kv.2]> m) out (entries m)) as Hr.
    { clear Hp. induction Hf as [|kv l Hk Hf IH]; intros out; [done|]. cbn [fmap list_fmap foldl]. rewrite read_default_ok by done. apply IH. }
    rewrite Hr. rewrite (foldl_insert m _ Hp). done.
  - apply plain_object. split; [by apply (bool_decide_unpack _); vm_compute|]. repeat constructor. apply plain_object. split.
    + unfold keys. rewrite <- list_fmap_compose. change (NoDup (fst <$> entries m)). rewrite Hp. apply NoDup_fst_map_to_list.
    + apply Forall_fmap, Forall_forall. done.
  - cbn. assert (max_members depth (default_json <$> entries m) <= 0)%nat; [|lia]. clear. induction (entries m) as [|a l IH]; cbn in *; lia.
Qed.

(** ** The player and the map a text means *)

Definition exact_name (f : string) (p : Player) : bool := lower (p_name p) =s f.
Definition has_fragment (f : string) (p : Player) : bool := contains f (lower (p_name p)).

Lemma scan_players_spec f ps : forall hits,
  match scan_players f ps hits with
  | inl p => p ∈ ps /\ exact_name f p = true
  | inr l => Forall (fun p => exact_name f p = false) ps /\ l = hits ++ List.filter (has_fragment f) ps
  end.
Proof.
  induction ps as [|p ps IH]; intros hits; cbn [scan_players List.filter]; [split; [constructor|by rewrite app_nil_r]|].
  destruct (lower (p_name p) =s f) eqn:E; [split; [left|done]|].
  specialize (IH (if contains f (lower (p_name p)) then hits ++ [p] else hits)).
  destruct (scan_players f ps _) as [q|l]; [destruct IH; split; [by right|done]|]. destruct IH as [H1 ->]. split; [by constructor|].
  unfold has_fragment at 2. destruct (contains f (lower (p_name p))); [by rewrite <- app_assoc|done].
Qed.

(** A fragment of a name selects a connected player whose whole name it is (in any case), else the only player whose name contains it; without one of these it is refused with an error. *)
Theorem FindPlayer_exact ps fragment : let f := lower fragment in
  match FindPlayer ps fragment with
  | inl p => (p ∈ ps /\ exact_name f p = true) \/ (Forall (fun q => exact_name f q = false) ps /\ List.filter (has_fragment f) ps = [p])
  | inr err => err <> EmptyString /\
      (f = EmptyString \/ (Forall (fun q => exact_name f q = false) ps /\ length (List.filter (has_fragment f) ps) <> 1%nat))
  end.
Proof.
  cbn zeta. unfold FindPlayer. destruct (lower fragment) as [|c f0] eqn:Ef; [by split; [|left]|]. set (f := String c f0). cbn [sempty].
  pose proof (scan_players_spec f ps []) as H. destruct (scan_players f ps []) as [p|[|p [|q l]]]; [by left|..]; destruct H as [H1 H2]; cbn in H2.
  - split; [done|right]. by rewrite <- H2.
  - by right.
  - split; [|right; by rewrite <- H2]. unfold to_string. destruct (zlen _ <? 0); [done|]. by destruct (dec_nonneg _).
Qed.

(** What a lookup may answer: one of the maps, or nothing and at most five of them. *)
Definition answer_ok (rawMaps : list string) (m : MapMatch) : Prop :=
  m_ambiguous m = [] /\ (m_name m = EmptyString \/ m_name m ∈ rawMaps) \/
  m_name m = EmptyString /\ (length (m_ambiguous m) <= 5)%nat /\ Forall (fun n => n ∈ rawMaps) (m_ambiguous m).

Lemma name_at_in l i : (i < length l)%nat -> name_at l i ∈ l.
Proof. intros [x Hx]%lookup_lt_is_Some_2. unfold name_at. rewrite Hx. by eapply list_elem_of_lookup_2. Qed.

Lemma pick_map_ok rawMaps idx : (forall i, i ∈ idx -> (i < length rawMaps)%nat) -> answer_ok rawMaps (pick_map rawMaps idx).
Proof.
  intros Hi. unfold pick_map. destruct idx as [|i [|j idx]]; [by left; split; [|left]|left; split; [done|right; apply name_at_in, Hi; left]|].
  right. split; [done|]. cbn [m_ambiguous]. rewrite length_fmap, length_take. split; [lia|]. apply Forall_fmap, Forall_forall.
  intros k Hk. apply name_at_in, Hi. by apply elem_of_take in Hk as (n & Hn & _); apply list_elem_of_lookup_2 in Hn.
Qed.

Lemma none_found_ok rawMaps : answer_ok rawMaps none_found.
Proof. left. split; [|left]; done. Qed.

Section Resolve.
Context (rawMaps : list string).
Definition low_maps : list string := lower <$> rawMaps.

Lemma indices_raw test i : i ∈ Mi.indices test low_maps -> (i < length rawMaps)%nat.
Proof. apply Mi.indices_lt. apply length_fmap. Qed.

Lemma contained_ok q m : contained rawMaps low_maps q = Some m -> answer_ok rawMaps m.
Proof.
  unfold contained. destruct (negb _).
  - intros [= <-]. apply pick_map_ok. intros i Hi%Mi.shortest_sub. apply list_elem_of_filter in Hi as [_ Hi]. by apply indices_raw in Hi.
  - destruct (negb _); [|done]. intros [= <-]. apply pick_map_ok. intros i. apply indices_raw.
Qed.

Lemma by_distance_ok q : answer_ok rawMaps (by_distance rawMaps low_maps q).
Proof.
  unfold by_distance. destruct (closest _ _) as [[best|] idx] eqn:E; [|apply none_found_ok]. case_if; [|apply none_found_ok].
  apply pick_map_ok. intros i Hi. set (es := imap pair (StripPrefix <$> low_maps)) in *.
  assert (i ∈ fst <$> es) as Hin.
  { apply (Mi.closest_sub (StripPrefix q) es (None, [])) with (l := es); [|done|by unfold closest in E; fold es in E; rewrite E].
    intros k Hk. by apply not_elem_of_nil in Hk. }
  apply list_elem_of_fmap in Hin as (e & -> & He). apply elem_of_lookup_imap in He as (j & n & -> & Hn). cbn.
  apply lookup_lt_Some in Hn. unfold low_maps in Hn. by rewrite !length_fmap in Hn.
Qed.

Lemma prefixed_ok q i : prefixed q low_maps = Some i -> (i < length rawMaps)%nat.
Proof.
  unfold prefixed. intros H. apply head_Some_elem_of, list_elem_of_In, in_flat_map in H as (pre & _ & Hi).
  apply list_elem_of_In in Hi. by apply indices_raw in Hi.
Qed.

Lemma exact_index q i : head (Mi.indices (fun m => m =s lower q) low_maps) = Some i ->
  (i < length rawMaps)%nat /\ lower (name_at rawMaps i) = lower q.
Proof.
  intros H%head_Some_elem_of. split; [by apply indices_raw in H|]. apply Mi.indices_lookup in H as (n & Hn & Ht%String.eqb_eq).
  unfold low_maps in Hn. rewrite list_lookup_fmap in Hn. apply fmap_Some in Hn as (x & Hx & ->). unfold name_at. by rewrite Hx.
Qed.

Lemma exact_found q : lower q ∈ low_maps -> exists i, head (Mi.indices (fun m => m =s lower q) low_maps) = Some i.
Proof.
  intros [i Hi]%list_elem_of_lookup_1. assert (i ∈ Mi.indices (fun m => m =s lower q) low_maps) as Hin.
  { unfold Mi.indices. apply list_elem_of_fmap. exists (i, lower q). split; [done|]. apply list_elem_of_filter. split; [apply String.eqb_refl|].
    apply elem_of_lookup_imap. by exists i, (lower q). }
  destruct (Mi.indices _ _) as [|k l]; [by apply not_elem_of_nil in Hin|by exists k].
Qed.

(** A map name that is resolved is one of the server's maps, and so are the at most five candidates offered instead; a name that is a map's, in any case, resolves to a map of that name. *)
Theorem map_resolved q : let m := ResolveMapName q rawMaps in
  answer_ok rawMaps m /\ (lower q ∈ low_maps -> q <> EmptyString -> m_name m ∈ rawMaps /\ lower (m_name m) = lower q).
Proof.
  cbn zeta. unfold ResolveMapName. change (lower <$> rawMaps) with low_maps.
  destruct (sempty (lower q) || bool_decide (rawMaps = [])) eqn:E0.
  { split; [apply none_found_ok|]. intros Hin Hq. exfalso. apply orb_prop in E0 as [E0|E0]; [by destruct q|].
    apply bool_decide_eq_true in E0. unfold low_maps in Hin. rewrite E0 in Hin. by apply not_elem_of_nil in Hin. }
  destruct (head (Mi.indices _ low_maps)) as [i|] eqn:E1.
  { apply exact_index in E1 as [Hi He]. split; [apply pick_map_ok; by intros k ->%list_elem_of_singleton|].
    intros _ _. split; [by apply name_at_in|done]. }
  split; [|intros Hin _; destruct (exact_found q Hin) as [i Hi]; congruence].
  destruct (prefixed (lower q) low_maps) as [i|] eqn:E2.
  { apply prefixed_ok in E2. apply pick_map_ok. by intros k ->%list_elem_of_singleton. }
  destruct (negb _); [apply pick_map_ok; intros i; apply indices_raw|].
  destruct (if 3 <=? slen (lower q) then _ else _) as [m|] eqn:E3; [|apply by_distance_ok].
  destruct (3 <=? slen (lower q)); [by apply contained_ok in E3|done].
Qed.

End Resolve.

(** ** At concrete inputs *)

Lemma rcon_safe_witness : slen "status; mp_restartgame 1" <= 512 /\ (("mp_restartgame" ∉ kRefused) /\ "mp_restartgame" <> "fleet").
Proof.
  pose proof (rcon_safe "status; mp_restartgame 1" ltac:(vm_compute; reflexivity)) as (H1 & _ & H2). split; [exact H1|].
  destruct (H2 " mp_restartgame 1" " " "mp_restartgame" " 1") as (H3 & H4 & _); try reflexivity; [|split; [exact H3|exact H4]].
  exists "status;", EmptyString. split; [reflexivity|]. split; [reflexivity|]. split; [right; by exists "status"|by left].
Defined.

Lemma admins_kept_witness :
  let os := [OpAdd 76561198000000001 "alice"; OpAdd 76561198000000002 "bob"; OpRemove 76561198000000001] in
  ParseAdmins (AdminsJson (foldl admin_step [] os)) = ([{| steamid64 := 76561198000000002; name := "bob" |}], true) /\
  IsAdmin (foldl admin_step [] os) 76561198000000001 = false.
Proof.
  cbn zeta. match goal with |- context [foldl admin_step [] ?os] => pose proof (admins_kept os) as H end.
  destruct H as (_ & H1 & H2); [repeat constructor; vm_compute; done|]. split; [rewrite H1; reflexivity|].
  rewrite (H2 76561198000000001 ltac:(split; [lia|vm_compute; reflexivity])). reflexivity.
Defined.

End Ess.
