(* ===== verification/FleetState.v ===== *)
(** * The platform's match on this server

    [src/plugins/match/readyup/fleet_state.h] and [.cpp]: the state stream and its revisions, the fence against old
    assignments, the check and the translation of a [match.assign] config, [match.update] operations, a failover's
    resume plan, the settings of [server.config], and the codecs and validators of the link.  [None] is a conversion
    of a number that C++ leaves undefined, or a signed overflow; an error is [inl]. *)

From S2P Require Import Prelude CStr Double Json MergePatch MatchRules Ruleset MiniJson Broadcast MapNames Midas.

Module Fs.

(** ** Results *)

Definition Res (E A : Type) : Type := option (E + A).
Definition ok {E A} (a : A) : Res E A := Some (inr a).
Definition reject {E A} (e : E) : Res E A := Some (inl e).
Definition rbind {E A B} (m : Res E A) (k : A -> Res E B) : Res E B :=
  match m with Some (inr a) => k a | Some (inl e) => Some (inl e) | None => None end.
#[local] Notation "x <~ m ;; k" := (rbind m (fun x => k)) (at level 100, m at next level, right associativity).
#[local] Notation "m ;;; k" := (rbind m (fun _ => k)) (at level 100, right associativity).
Definition need {E} (b : bool) (e : E) : Res E unit := if b then ok tt else reject e.
(** A value whose conversion may be undefined. *)
Definition given {E A} (m : option A) : Res E A := inr <$> m.
Fixpoint each {E A} (f : A -> Res E unit) (l : list A) : Res E unit :=
  match l with [] => ok tt | x :: l => f x ;;; each f l end.

(** ** Reading JSON *)

Definition Obj (o : Json) (k : string) : option Json := match Find o k with Some (JObject _ as v) => Some v | _ => None end.
Definition Arr (o : Json) (k : string) : option (list Json) := match Find o k with Some (JArray a) => Some a | _ => None end.
Definition Str (o : Json) (k def : string) : string := match Find o k with Some (JString s) => s | _ => def end.
Definition IsInt (v : option Json) : bool := match v with Some (JInt _) => true | _ => false end.
Definition Int (o : Json) (k : string) (def : Z) : option Z :=
  match Find o k with Some (JInt _ as v) | Some (JDouble _ as v) => AsInt v | _ => Some def end.
Definition Bool (o : Json) (k : string) (def : bool) : bool := match Find o k with Some (JBool b) => b | _ => def end.
(** The integer of a member that was checked to be one. *)
Definition the_int (v : option Json) : Z := match v with Some (JInt i) => i | _ => 0 end.
Definition has (o : Json) (k : string) : bool := match Find o k with Some _ => true | None => false end.
Definition or_empty (o : option Json) : Json := default (JObject []) o.

Definition IsDigits (s : string) (maxLen : Z) : bool := negb (sempty s || (maxLen <? slen s)) && sforall isdigit s.
Definition ValidSteam (v : Json) : bool := match v with JString s => IsDigits s 20 | _ => false end.

(** ** The state stream *)

(** Null members left out, at every depth; the loop writes [out[k] = v]. *)
Definition strip_members (f : Json -> Json) : list (string * Json) -> list (string * Json) -> list (string * Json) :=
  fix go (l acc : list (string * Json)) : list (string * Json) :=
    match l with
    | [] => acc
    | (k, v) :: l => go l (if IsNull v then acc else set_member k (f v) acc)
    end.
Fixpoint StripNulls (v : Json) : Json :=
  match v with
  | JObject o => JObject (strip_members StripNulls o [])
  | JArray a => JArray (map StripNulls a)
  | _ => v
  end.

Record LiveStream := { state_ : Json; rev_ : Z }.
Definition NewStream : LiveStream := {| state_ := JNull; rev_ := 0 |}.
Definition live (j : Json) (rev : Z) : Json := SetKey j "live_rev" (JInt rev).

Definition Reset (st : Json) (rev : Z) : LiveStream :=
  {| state_ := if IsNull st then JNull else live (StripNulls st) rev; rev_ := rev |}.

(** The stream, and the patch and its revision when there is something to send. *)
Definition Advance (s : LiveStream) (next : Json) (force : bool) : LiveStream * option (Json * Z) :=
  let n := StripNulls next in
  let same_rev := if IsObject n then live n (rev_ s) else n in
  let changed := match MergeDiff (state_ s) same_rev with Some _ => true | None => false end in
  if negb changed && negb force then (s, None)
  else
    let rev := rev_ s + 1 in
    let n := if IsObject n then live n rev else n in
    let p := match MergeDiff (state_ s) n with Some p => p | None => JObject [] end in
    let p := if IsObject p then p else n in
    ({| state_ := n; rev_ := rev |}, Some (p, rev)).

Definition BumpRevOnly (s : LiveStream) : LiveStream * option (Json * Z) :=
  if IsObject (state_ s)
  then let rev := rev_ s + 1 in
       ({| state_ := live (state_ s) rev; rev_ := rev |}, Some (JObject [("live_rev", JInt rev)], rev))
  else (s, None).
Definition HasState (s : LiveStream) : bool := negb (IsNull (state_ s)).

(** ** The fence *)

Record Assignment := { active : bool; match_id : string; epoch : Z; config_rev : Z }.
Definition NoAssignment : Assignment := {| active := false; match_id := EmptyString; epoch := 0; config_rev := 0 |}.

Inductive Verdict := Ok | Duplicate | StaleEpoch | Busy | NotAssigned.
#[export] Instance Verdict_eq_dec : EqDecision Verdict.
Proof. solve_decision. Defined.
Definition VerdictCode (v : Verdict) : string :=
  match v with Ok => "ok" | Duplicate => "duplicate" | StaleEpoch => "stale_epoch" | Busy => "busy" | NotAssigned => "not_assigned" end.

Record Fence := { retired_ : gmap string Z; order_ : list string }.
Definition NewFence : Fence := {| retired_ := ∅; order_ := [] |}.
Definition Retired (f : Fence) (matchId : string) : Z := default 0 (retired_ f !! matchId).

Definition CheckAssign (f : Fence) (cur : Assignment) (matchId : string) (ep : Z) (localMatchActive : bool) : Verdict :=
  if (ep <? 1) || sempty matchId then StaleEpoch
  else if ep <? Retired f matchId then StaleEpoch
  else if active cur then
    if match_id cur =s matchId then
      if ep =? epoch cur then Duplicate else if ep <? epoch cur then StaleEpoch else Ok
    else Busy
  else if ep =? Retired f matchId then StaleEpoch
  else if localMatchActive then Busy else Ok.

Definition CheckScoped (f : Fence) (cur : Assignment) (matchId : string) (ep : Z) : Verdict :=
  if negb (active cur) || negb (match_id cur =s matchId) then
    if negb (sempty matchId) && (0 <? ep) && (ep <=? Retired f matchId) then StaleEpoch else NotAssigned
  else if ep <? epoch cur then StaleEpoch
  else if epoch cur <? ep then NotAssigned
  else Ok.

(** The oldest matches forgotten until 64 are left. *)
Fixpoint forget (r : gmap string Z) (o : list string) : Fence :=
  match o with
  | id :: o' => if (64 <? length o)%nat then forget (delete id r) o' else {| retired_ := r; order_ := o |}
  | [] => {| retired_ := r; order_ := [] |}
  end.
Definition Retire (f : Fence) (matchId : string) (ep : Z) : Fence :=
  if sempty matchId then f
  else
    match retired_ f !! matchId with
    | Some e => {| retired_ := <[matchId := Z.max e ep]> (retired_ f); order_ := order_ f |}
    | None => forget (<[matchId := ep]> (retired_ f)) (order_ f ++ [matchId])
    end.

Definition fence_entry (f : Fence) (id : string) : Json := JObject [("match_id", JString id); ("epoch", JInt (Retired f id))].
Definition FenceToJson (f : Fence) : Json := JArray (fence_entry f <$> order_ f).
Definition read_entry (f : option Fence) (e : Json) : option Fence :=
  f ← f;
  match Find e "match_id", Find e "epoch" with
  | Some id, Some ep => n ← AsInt ep; Some (Retire f (AsString id) n)
  | _, _ => Some f
  end.
Definition FenceFromJson (j : Json) : option Fence := foldl read_entry (Some NewFence) (Items j).

Definition ConfigCas (baseConfigRev currentConfigRev : Z) : bool := baseConfigRev =? currentConfigRev.

(** ** Validators *)

Definition password_char (c : ascii) : bool :=
  (32 <? code c) && (code c <? 127) &&
  negb (Ascii.eqb c dquote || Ascii.eqb c ";"%char || Ascii.eqb c backslash || Ascii.eqb c "'"%char).
Definition ValidPassword (password : string) : bool := (slen password <=? 64) && sforall password_char password.

Definition SafeMapName : string -> bool := Mn.ValidEntry.
Definition SafeWorkshopId (id : string) : bool := IsDigits id 20.

(** The text behind the last occurrence of [p]. *)
Fixpoint behind_last (p s : string) : option string :=
  match s with
  | EmptyString => None
  | String c r =>
      match behind_last p r with
      | Some t => Some t
      | None => if starts_with p s then Some (sdrop (String.length p) s) else None
      end
  end.
Fixpoint round_digits (n : Z) (s : string) : Z :=
  match s with
  | String c r => if isdigit c && (n <? 100000) then round_digits (n * 10 + digit_val c) r else n
  | EmptyString => n
  end.
Definition BackupRoundFromName (fileName : string) : Z :=
  match behind_last "round" fileName with
  | Some (String c _ as t) => if isdigit c then round_digits 0 t else -1
  | _ => -1
  end.

Definition file_char (c : ascii) : bool :=
  isalnum c || Ascii.eqb c "_"%char || Ascii.eqb c "-"%char || Ascii.eqb c "."%char.
Definition SafeBackupFileName (nm : string) : bool :=
  negb ((slen nm <? 5) || (128 <? slen nm)) && (sdrop (String.length nm - 4) nm =s ".txt") && negb (starts_with "." nm) && sforall file_char nm.

(** [ValidateExec]: every part between semicolons. *)
Definition is_semicolon (c : ascii) : bool := Ascii.eqb c ";"%char.
Definition skip_char (c : ascii) : bool := Ascii.eqb c " "%char || Ascii.eqb c tab || Ascii.eqb c dquote.
Definition line_end (c : ascii) : bool := Ascii.eqb c newline || Ascii.eqb c creturn || Ascii.eqb c nul.
Definition startsWord (w l : string) : bool :=
  starts_with w l && match sdrop (String.length w) l with EmptyString => true | String c _ => skip_char c end.
Definition link_command (part : string) : bool :=
  let l := drop_while skip_char (lower part) in
  startsWord "fleet" l || (startsWord "ru" l && contains "fleet" l) || starts_with "ru_fleet" l.
(** The error, or nothing. *)
Definition ValidateExec (command : string) : option string :=
  if sempty command then Some "empty command"
  else if 512 <? slen command then Some "longer than 512 bytes"
  else if negb (sforall (fun c => negb (line_end c)) command) then Some "more than one line"
  else if existsb link_command (Mi.cut_where is_semicolon EmptyString command) then Some "the fleet link's own commands are not allowed over exec"
  else None.

(** ** Codecs *)

Definition word (x : Z) : Z := x mod 4294967296.
Definition Rotr (x n : Z) : Z := Z.lor (Z.shiftr x n) (word (Z.shiftl x (32 - n))).
Definition lnot32 (x : Z) : Z := Z.lxor x 4294967295.

Definition kK : list Z :=
  [0x428a2f98; 0x71374491; 0xb5c0fbcf; 0xe9b5dba5; 0x3956c25b; 0x59f111f1; 0x923f82a4; 0xab1c5ed5;
   0xd807aa98; 0x12835b01; 0x243185be; 0x550c7dc3; 0x72be5d74; 0x80deb1fe; 0x9bdc06a7; 0xc19bf174;
   0xe49b69c1; 0xefbe4786; 0x0fc19dc6; 0x240ca1cc; 0x2de92c6f; 0x4a7484aa; 0x5cb0a9dc; 0x76f988da;
   0x983e5152; 0xa831c66d; 0xb00327c8; 0xbf597fc7; 0xc6e00bf3; 0xd5a79147; 0x06ca6351; 0x14292967;
   0x27b70a85; 0x2e1b2138; 0x4d2c6dfc; 0x53380d13; 0x650a7354; 0x766a0abb; 0x81c2c92e; 0x92722c85;
   0xa2bfe8a1; 0xa81a664b; 0xc24b8b70; 0xc76c51a3; 0xd192e819; 0xd6990624; 0xf40e3585; 0x106aa070;
   0x19a4c116; 0x1e376c08; 0x2748774c; 0x34b0bcb5; 0x391c0cb3; 0x4ed8aa4a; 0x5b9cca4f; 0x682e6ff3;
   0x748f82ee; 0x78a5636f; 0x84c87814; 0x8cc70208; 0x90befffa; 0xa4506ceb; 0xbef9a3f7; 0xc67178f2].
Definition h0 : list Z := [0x6a09e667; 0xbb67ae85; 0x3c6ef372; 0xa54ff53a; 0x510e527f; 0x9b05688c; 0x1f83d9ab; 0x5be0cd19].

Fixpoint bytes (s : string) : list Z := match s with EmptyString => [] | String c r => code c :: bytes r end.
(** The message with its 1 bit, the zeros up to 56 bytes of the last block, and the length in bits. *)
Definition padded (data : string) : list Z :=
  let n := slen data in
  let bits := (n * 8) mod 2 ^ 64 in
  bytes data ++ [128] ++ repeat 0 (Z.to_nat ((55 - n) mod 64)) ++ map (fun i => Z.land (Z.shiftr bits (i * 8)) 255) [7; 6; 5; 4; 3; 2; 1; 0].
(** The 16 words of a block. *)
Fixpoint words (l : list Z) : list Z :=
  match l with
  | a :: b :: c :: d :: l => Z.lor (Z.lor (Z.shiftl a 24) (Z.shiftl b 16)) (Z.lor (Z.shiftl c 8) d) :: words l
  | _ => []
  end.
(** [n] words more, the last ones first. *)
Definition wat (w : list Z) (i : nat) : Z := nth i w 0.
Fixpoint extend (n : nat) (w : list Z) : list Z :=
  match n with
  | O => w
  | S n =>
      let x := wat w 14 in let s0 := Z.lxor (Z.lxor (Rotr x 7) (Rotr x 18)) (Z.shiftr x 3) in
      let y := wat w 1 in let s1 := Z.lxor (Z.lxor (Rotr y 17) (Rotr y 19)) (Z.shiftr y 10) in
      extend n (word (wat w 15 + s0 + wat w 6 + s1) :: w)
  end.
Definition sha_round (h : list Z) (kw : Z * Z) : list Z :=
  match h with
  | [a; b; c; d; e; f; g; hh] =>
      let S1 := Z.lxor (Z.lxor (Rotr e 6) (Rotr e 11)) (Rotr e 25) in
      let ch := Z.lxor (Z.land e f) (Z.land (lnot32 e) g) in
      let t1 := word (hh + S1 + ch + kw.1 + kw.2) in
      let S0 := Z.lxor (Z.lxor (Rotr a 2) (Rotr a 13)) (Rotr a 22) in
      let maj := Z.lxor (Z.lxor (Z.land a b) (Z.land a c)) (Z.land b c) in
      let t2 := word (S0 + maj) in
      [word (t1 + t2); a; b; c; word (d + t1); e; f; g]
  | _ => h
  end.
Definition add_words (h k : list Z) : list Z := zip_with (fun x y => word (x + y)) h k.
Definition sha_block (h : list Z) (block : list Z) : list Z :=
  add_words h (foldl sha_round h (zip kK (rev (extend 48 (rev (words block)))))).
Fixpoint sha_blocks (fuel : nat) (h : list Z) (msg : list Z) : list Z :=
  match fuel with
  | O => h
  | S fuel => match msg with [] => h | _ => sha_blocks fuel (sha_block h (take 64 msg)) (drop 64 msg) end
  end.
Definition hex_word (v : Z) : string :=
  foldr (fun i acc => String (hex_digit (Z.land (Z.shiftr v i) 15)) acc) EmptyString [28; 24; 20; 16; 12; 8; 4; 0].
(** A block per step: as many steps as bytes are enough. *)
Definition Sha256Hex (data : string) : string :=
  let msg := padded data in foldr (fun v acc => hex_word v +s+ acc) EmptyString (sha_blocks (length msg) h0 msg).

Definition kB64 : string := "ABCDEFGHIJKLMNOPQRSTUVWXYZabcdefghijklmnopqrstuvwxyz0123456789+/".
Definition b64_char (v : Z) : ascii := default nul (String.get (Z.to_nat v) kB64).
Definition equals_sign : ascii := "="%char.
Fixpoint Base64Encode (s : string) : string :=
  match s with
  | String a (String b (String c r)) =>
      let v := Z.lor (Z.lor (Z.shiftl (code a) 16) (Z.shiftl (code b) 8)) (code c) in
      String (b64_char (Z.land (Z.shiftr v 18) 63)) (String (b64_char (Z.land (Z.shiftr v 12) 63))
        (String (b64_char (Z.land (Z.shiftr v 6) 63)) (String (b64_char (Z.land v 63)) (Base64Encode r))))
  | String a (String b EmptyString) =>
      let v := Z.lor (Z.shiftl (code a) 16) (Z.shiftl (code b) 8) in
      String (b64_char (Z.land (Z.shiftr v 18) 63)) (String (b64_char (Z.land (Z.shiftr v 12) 63))
        (String (b64_char (Z.land (Z.shiftr v 6) 63)) (str1 equals_sign)))
  | String a EmptyString =>
      let v := Z.shiftl (code a) 16 in
      String (b64_char (Z.land (Z.shiftr v 18) 63)) (String (b64_char (Z.land (Z.shiftr v 12) 63))
        (String equals_sign (str1 equals_sign)))
  | EmptyString => EmptyString
  end.

(** [strchr(kB64, c)]. *)
Fixpoint index_of (c : ascii) (s : string) (i : Z) : option Z :=
  match s with EmptyString => None | String d r => if Ascii.eqb c d then Some i else index_of c r (i + 1) end.
Fixpoint decode_loop (s : string) (val bits pad : Z) (out : string) : option string :=
  match s with
  | EmptyString => if pad <=? 2 then Some out else None
  | String c r =>
      if Ascii.eqb c newline || Ascii.eqb c creturn then decode_loop r val bits pad out
      else if Ascii.eqb c equals_sign then decode_loop r val bits (pad + 1) out
      else if negb (pad =? 0) then None
      else
        match index_of c kB64 0 with
        | None => None
        | Some i =>
            let val := Z.lor (Z.shiftl val 6) i in
            let bits := bits + 6 in
            if 0 <=? bits
            then decode_loop r (Z.land val 65535) (bits - 8) pad (out +s+ str1 (chr (Z.land (Z.shiftr val bits) 255)))
            else decode_loop r (Z.land val 65535) bits pad out
        end
  end.
Definition Base64Decode (text : string) : option string := decode_loop text 0 (-8) 0 EmptyString.

(** ** The check of an assignment *)

Definition quoted (s : string) : string := str1 dquote +s+ s +s+ str1 dquote.
Definition is_role (r : string) : bool := Mi.one_of r ["player"; "sub"; "coach"].

Definition valid_player (p : Json) : Res string unit :=
  need match Find p "steamid64" with Some sid => ValidSteam sid | None => false end "player without a valid steamid64" ;;;
  need (is_role (Str p "role" "player")) ("bad role " +s+ Str p "role" "player").
Definition prefix_error {A} (which : string) (r : Res string A) : Res string A :=
  match r with Some (inl e) => Some (inl (which +s+ ": " +s+ e)) | r => r end.
Definition ValidTeam (t : option Json) (which : string) : Res string unit :=
  prefix_error which
    match t with
    | None => reject "missing"
    | Some t =>
        let nm := Str t "name" EmptyString in
        need (negb (sempty nm || (64 <? slen nm))) "name must be 1..64 bytes" ;;;
        match Arr t "players" with
        | None => reject "players must be an array"
        | Some players =>
            need (zlen players <=? 32) "more than 32 players" ;;;
            each valid_player players ;;;
            need match Find t "captain" with Some cap => ValidSteam cap | None => true end "bad captain"
        end
    end.

Section Server.
(** [ServerRuleset()]: the ruleset the server is set to. *)
Context (server : Ruleset_).

Definition sides_of (cfg : Json) : list string := (fun m => Str m "sides" "knife") <$> default [] (Arr cfg "maps").

Definition ValidateRuleset (cfg : Json) : Res string unit :=
  let rules := Obj cfg "rules" in
  rs <~ match (r ← rules; Find r "ruleset") with
        | None => ok server
        | Some (JString s) =>
            match ParseRuleset s with Some rs => ok rs | None => reject ("rules.ruleset must be " +s+ quoted "default" +s+ " or " +s+ quoted "valve") end
        | Some _ => reject ("rules.ruleset must be " +s+ quoted "default" +s+ " or " +s+ quoted "valve")
        end ;;
  ov <~ match (r ← rules; Find r "overrides") with
        | None => ok ∅
        | Some o => match ParseOverrides o with inl m => ok m | inr e => reject ("rules.overrides: " +s+ e) end
        end ;;
  e <~ given (ResolveEffective {| in_ruleset := rs; overrides := ov; in_match := UnsetRules; in_cfg := UnsetRules; cvars := ∅ |}) ;;
  match CheckMapSides e (sides_of cfg) with Some why => reject why | None => ok tt end.

Definition id_char (c : ascii) : bool :=
  isalnum c || Ascii.eqb c "_"%char || Ascii.eqb c "-"%char || Ascii.eqb c "."%char || Ascii.eqb c ":"%char.
Definition is_sides (s : string) : bool := Mi.one_of s ["team1_ct"; "team2_ct"; "knife"].

Definition valid_map (m : Json) : Res string unit :=
  let nm := Str m "name" EmptyString in
  let ws := Str m "workshop_id" EmptyString in
  need (SafeMapName nm) ("bad map name " +s+ quoted nm) ;;;
  need (sempty ws || SafeWorkshopId ws) "bad workshop_id" ;;;
  let sides := Str m "sides" "knife" in need (is_sides sides) ("bad sides " +s+ quoted sides).
Definition valid_list (cfg : Json) (k : string) : Res string unit :=
  match Find cfg k with
  | None => ok tt
  | Some (JArray a) => each (fun s => need (ValidSteam s) (k +s+ ": bad steamid64")) a
  | Some _ => reject (k +s+ " must be an array")
  end.
Definition object_or_absent (cfg : Json) (k : string) : Res string unit :=
  need match Find cfg k with Some (JObject _) | None => true | Some _ => false end (k +s+ " must be an object").
Definition valid_fill (rules : Json) : Res string unit :=
  match Find rules "bot_fill" with
  | None => ok tt
  | Some fill =>
      let n := Find fill "players_per_team" in
      need (IsObject fill && IsInt n && (1 <=? the_int n) && (the_int n <=? 32)) "bot_fill.players_per_team must be an integer 1..32"
  end.

Definition ValidateAssign (payload : Json) : Res string unit :=
  let mid := Str payload "match_id" EmptyString in
  need (negb (sempty mid || (64 <? slen mid))) "match_id must be 1..64 bytes" ;;;
  need (sforall id_char mid) "match_id has a bad character" ;;;
  need (IsInt (Find payload "epoch") && (1 <=? the_int (Find payload "epoch"))) "epoch must be an integer >= 1" ;;;
  match Obj payload "config" with
  | None => reject "config must be an object"
  | Some cfg =>
      numMaps <~ given (Int cfg "num_maps" 0) ;;
      need ((1 <=? numMaps) && (numMaps <=? 9)) "num_maps must be 1..9" ;;;
      let maps := Arr cfg "maps" in
      need match maps with Some ((_ :: _) as l) => zlen l <=? 9 | _ => false end "maps must list 1..9 maps" ;;;
      need (numMaps <=? zlen (default [] maps)) "fewer maps than num_maps" ;;;
      each valid_map (default [] maps) ;;;
      ValidTeam (Obj cfg "team1") "team1" ;;;
      ValidTeam (Obj cfg "team2") "team2" ;;;
      each (valid_list cfg) ["spectators"; "admins"] ;;;
      match Find cfg "password" with
      | Some (JString pw) => need (ValidPassword pw) "password has characters that cannot go into sv_password"
      | _ => reject "password must be a string"
      end ;;;
      object_or_absent cfg "rules" ;;;
      object_or_absent cfg "cvars" ;;;
      match Obj cfg "rules" with Some rules => valid_fill rules | None => ok tt end ;;;
      ValidateRuleset cfg ;;;
      why <~ given (Bc.ValidateAssignConfigText (Dump cfg)) ;;
      match why with Some why => reject why | None => ok tt end
  end.

(** ** The config the match plugin loads *)

(** FNV-1a in 64 bits. *)
Fixpoint fnv (h : Z) (s : string) : Z :=
  match s with EmptyString => h | String c r => fnv ((Z.lxor h (code c) * 1099511628211) mod 2 ^ 64) r end.
Definition hashed_id (matchId : string) : Z :=
  let h := Z.land (fnv 1469598103934665603 matchId) (2 ^ 52 - 1) in if h =? 0 then 1 else h.
Definition NumericMatchId (matchId : string) : Z :=
  if IsDigits matchId 15 && negb (strtoull matchId =? 0) then strtoull matchId else hashed_id matchId.

Definition sets (l : list (string * Json)) (j : Json) : Json := foldl (fun j kv => SetKey j kv.1 kv.2) j l.
Definition when (b : bool) (l : list (string * Json)) : list (string * Json) := if b then l else [].

(** What the team lambda writes besides the team: the coaches as spectators and as a list, the largest number of
    starting players, and whether there are substitutes. *)
Record Staff := { specPlayers : Json; coaches : list Json; starters : Z; subs : bool }.
Record Lists := { l_players : Json; l_coaches : Json; l_subs : Json; l_starters : Z }.

Definition team_player (x : Staff * Lists) (p : Json) : Staff * Lists :=
  let '(s, l) := x in
  let sid := Str p "steamid64" EmptyString in
  let nm := JString (Str p "name" EmptyString) in
  let role := Str p "role" "player" in
  let coach := role =s "coach" in let sub := role =s "sub" in
  ({| specPlayers := if coach then SetKey (specPlayers s) sid nm else specPlayers s;
      coaches := if coach then coaches s ++ [JString sid] else coaches s;
      starters := starters s; subs := subs s || sub |},
   {| l_players := if coach then l_players l else SetKey (l_players l) sid nm;
      l_coaches := if coach then SetKey (l_coaches l) sid nm else l_coaches l;
      l_subs := if sub then SetKey (l_subs l) sid nm else l_subs l;
      l_starters := if sub || coach then l_starters l else l_starters l + 1 |}).

Definition text_member (src : Json) (k to : string) : list (string * Json) :=
  when (negb (sempty (Str src k EmptyString))) [(to, JString (Str src k EmptyString))].
Definition nonempty (k : string) (j : Json) : list (string * Json) := when (negb (bool_decide (Members j = []))) [(k, j)].

Definition team_config (config : Json) (s : Staff) (key : string) : Staff * Json :=
  match Obj config key with
  | None => (s, JObject [])
  | Some src =>
      let no := {| l_players := JObject []; l_coaches := JObject []; l_subs := JObject []; l_starters := 0 |} in
      let '(s, l) := foldl team_player (s, no) (default [] (Arr src "players")) in
      ({| specPlayers := specPlayers s; coaches := coaches s; starters := Z.max (starters s) (l_starters l); subs := subs s |},
       sets ([("name", JString (Str src "name" EmptyString))] ++ text_member src "tag" "tag" ++ text_member src "flag" "flag" ++
             [("players", l_players l)] ++ nonempty "coaches" (l_coaches l) ++ nonempty "substitutes" (l_subs l) ++
             text_member src "captain" "captain_steamid64") (JObject []))
  end.

Definition add_spectator (players s : Json) : Json :=
  if has players (AsString s) then players else SetKey players (AsString s) (JString EmptyString).

(** An integer setting copied when the group has it. *)
Definition int_member (g : option Json) (k to : string) (def : Z) : option (list (string * Json)) :=
  match g with
  | Some g => if has g k then n ← Int g k def; Some [(to, JInt n)] else Some []
  | None => Some []
  end.
Definition bool_member (g : option Json) (k to : string) (def : bool) : list (string * Json) :=
  match g with Some g => when (has g k) [(to, JBool (Bool g k def))] | None => [] end.
(** A member copied only if it is a Boolean; a number as a double. *)
Definition flag_member (g : option Json) (k to : string) : list (string * Json) :=
  match (g ← g; Find g k) with Some (JBool b) => [(to, JBool b)] | _ => [] end.
Definition double_member (g : option Json) (k to : string) : list (string * Json) :=
  match (g ← g; Find g k) with Some (JInt i) => [(to, JDouble (of_int i))] | Some (JDouble d) => [(to, JDouble d)] | _ => [] end.

Definition strings_only (l : list Json) : list Json := List.filter (fun j => match j with JString _ => true | _ => false end) l.

Definition walkover_members (ft : option Json) : option (list (string * Json)) :=
  match ft with
  | None => Some []
  | Some ft =>
      deadline ← Int ft "deadline_ms" 0;
      w ← match Obj ft "walkover" with
          | None => Some []
          | Some w =>
              expires ← Int w "expires_ms" 0;
              Some [("walkover_short", JString (Str w "short" EmptyString)); ("walkover_expires_ms", JInt expires);
                    ("walkover_choosers", JArray (strings_only (default [] (Arr w "choosers"))))]
          end;
      Some (("full_team_deadline_ms", JInt deadline) :: w)
  end.

(** The metadata fields of the rules, in the order they are written; [rounds] and [otHalf] are needed again. *)
Definition rules_members (r : Json) (rounds otHalf : Z) (otOn : bool) : option (list (string * Json)) :=
  let ot := Obj r "overtime" in
  more ← match ot with Some o => Int o "max_overtimes" (-1) | None => Some (-1) end;
  side ← match Obj r "knife" with Some k => n ← Int k "side_pick_seconds" 60; Some [("knifeDecisionSeconds", JInt n)] | None => Some [] end;
  walk ← walkover_members (Obj r "full_team");
  fill ← match Obj r "bot_fill" with
         | Some f => n ← Int f "players_per_team" 5; Some [("bot_fill", JBool true); ("players_per_team", JInt n); ("simulation", JBool false)]
         | None => Some []
         end;
  let pause := Obj r "pause" in
  tech ← int_member pause "technical_per_team" "max_tech_pauses_per_team" 0;
  secs ← int_member pause "technical_seconds" "tech_pause_max_seconds" 0;
  let ready := Obj r "ready" in
  least ← int_member ready "min_per_team" "min_players_to_ready" 0;
  let ff := Obj r "forfeit" in
  absent ← int_member ff "team_absent_seconds" "forfeit_after_seconds" 240;
  let gg := f ← ff; Obj f "gg_vote" in
  diff ← int_member gg "min_score_diff" "gg_min_score_diff" 8;
  Some ([("maxRounds", JInt rounds); ("overtimeMode", JString (if otOn then "enabled" else "disabled")); ("overtimeSegments", JInt otHalf)] ++
        when (0 <=? more) [("maxOvertimes", JInt more)] ++
        match Obj r "tiebreak" with
        | Some tb => [("damageTiebreak", JBool (Bool tb "damage" false)); ("damageTiebreakSuddenDeath", JBool (Bool tb "sudden_death_on_tie" true))]
        | None => []
        end ++ side ++ [("clinch_series", JBool (Bool r "clinch_series" true))] ++ when (Bool r "wingman" false) [("wingman", JBool true)] ++
        flag_member (Obj r "demo") "record" "demo_record" ++ flag_member (Obj r "demo") "upload" "demo_upload" ++
        match Obj r "simulation" with
        | Some sm => ("simulation", JBool true) :: double_member (Some sm) "timescale" "simulation_timescale"
        | None => []
        end ++ walk ++ fill ++
        match Find r "ruleset" with Some rs => [("ruleset", rs)] | None => [] end ++
        match Find r "overrides" with Some ov => [("overrides", ov)] | None => [] end ++ tech ++ secs ++
        match pause with
        | Some p => when (negb (sempty (Str p "unpause" EmptyString))) [("both_teams_unpause_required", JBool (negb (Str p "unpause" EmptyString =s "caller_team")))]
        | None => []
        end ++ bool_member pause "pause_after_restore" "pause_after_restore" true ++
        bool_member ready "allow_force_ready" "allow_force_ready" true ++ bool_member ready "team_ready" "team_ready" false ++ least ++
        bool_member ready "autoready" "autoready" false ++
        bool_member (Some r) "playout" "playout" false ++ bool_member (Some r) "whitelist" "whitelist" true ++
        bool_member (Some r) "roster_names" "roster_names" true ++ absent ++
        bool_member gg "enabled" "gg_enabled" false ++ double_member gg "threshold" "gg_threshold" ++ diff).

(** *** The cvars *)

Definition engine_cvar (k : string) : bool := existsb (fun p => starts_with p k) ["mp_"; "sv_"; "tv_"; "bot_"].
Definition cvar_name_char (c : ascii) : bool := islower c || isdigit c || Ascii.eqb c "_"%char.
Definition cvar_value_char (c : ascii) : bool := negb ((code c <? 32) || Ascii.eqb c ";"%char || Ascii.eqb c dquote).
Definition cvar_allowed (k v : string) : bool :=
  engine_cvar k && (negb (sempty k) && (slen k <=? 64) && sforall cvar_name_char k) && ((slen v <=? 128) && sforall cvar_value_char v) &&
  negb (Mi.one_of k ["sv_password"; "rcon_password"; "sv_cheats"]).
Definition cvar_text (v : Json) : string :=
  match v with
  | JString s => s | JInt i => to_string i | JDouble _ => Dump v | JBool b => if b then "1" else "0" | _ => EmptyString
  end.
Definition add_cvar (x : Json * list string) (kv : string * Json) : Json * list string :=
  let v := cvar_text kv.2 in
  if cvar_allowed kv.1 v then (SetKey x.1 kv.1 (JString v), x.2) else (x.1, x.2 ++ [kv.1]).

Definition own_cvars (r : Json) (rounds otHalf : Z) (otOn : bool) : option (list (string * Json)) :=
  let pause := Obj r "pause" in
  count ← match pause with Some p => if has p "tactical_per_team" then n ← Int p "tactical_per_team" 3; Some [("mp_team_timeout_max", JString (to_string n))] else Some [] | None => Some [] end;
  secs ← match pause with Some p => if has p "tactical_seconds" then n ← Int p "tactical_seconds" 30; Some [("mp_team_timeout_time", JString (to_string n))] else Some [] | None => Some [] end;
  if bool_decide (int64_ok (otHalf * 2))
  then Some ([("mp_maxrounds", JString (to_string rounds)); ("mp_overtime_enable", JString (if otOn then "1" else "0"));
              ("mp_overtime_maxrounds", JString (to_string (otHalf * 2)))] ++ count ++ secs)
  else None.

Definition assign_cvars (config r : Json) (rounds otHalf : Z) (otOn : bool) : option (Json * list string) :=
  own ← own_cvars r rounds otHalf otOn;
  Some (foldl add_cvar (sets own (JObject []), []) (Members (or_empty (Obj config "cvars")))).

(** The document and the names of the cvars left out. *)
Definition AssignToMatConfig (matchId : string) (config : Json) : option (Json * list string) :=
  num ← Int config "num_maps" 1;
  let maps := default [] (Arr config "maps") in
  let s := {| specPlayers := JObject []; coaches := []; starters := 0; subs := false |} in
  let '(s, team1) := team_config config s "team1" in
  let '(s, team2) := team_config config s "team2" in
  let specs := foldl add_spectator (specPlayers s) (default [] (Arr config "spectators")) in
  let r := or_empty (Obj config "rules") in
  rounds ← Int r "max_rounds" 24;
  let ot := Obj r "overtime" in
  let otOn := match ot with Some o => Bool o "enabled" true | None => true end in
  otHalf ← match ot with Some o => Int o "rounds_per_half" 3 | None => Some 3 end;
  rules ← rules_members r rounds otHalf otOn;
  cv ← assign_cvars config r rounds otHalf otOn;
  let cfg := sets (
    [("matchid", JInt (NumericMatchId matchId)); ("num_maps", JInt num);
     ("maplist", JArray ((fun m => JString (Mn.MakeEntry (Str m "name" EmptyString) (Str m "workshop_id" EmptyString))) <$> maps));
     ("map_sides", JArray (JString <$> sides_of config)); ("team1", team1); ("team2", team2)] ++
    when (subs s && (0 <? starters s)) [("players_per_team", JInt (starters s))] ++
    [("spectators", JObject [("players", specs)]); ("coaches", JArray (coaches s));
     ("admins", JArray ((fun a => JString (AsString a)) <$> default [] (Arr config "admins")))] ++
    rules ++ [("cvars", cv.1)]) (JObject []) in
  Some (JObject [("slug", JString matchId); ("config", cfg)], cv.2).

(** ** Settings from [server.config] *)

Record ServerConfigPlan := { settings : list (string * string); console : list (string * string); skipped : list string }.
Definition NoPlan : ServerConfigPlan := {| settings := []; console := []; skipped := [] |}.

Definition scalar_text (v : Json) : option string :=
  match v with JBool b => Some (if b then "1" else "0") | JInt i => Some (to_string i) | JString s => Some s | _ => None end.
(** The setting or console setting [nm] from the member [k] of [o], which is called [field]. *)
Definition add_setting (toConsole : bool) (o : Json) (k nm field : string) (p : ServerConfigPlan) : ServerConfigPlan :=
  match Find o k with
  | None | Some JNull => p
  | Some v =>
      match scalar_text v with
      | None => {| settings := settings p; console := console p; skipped := skipped p ++ [field] |}
      | Some t =>
          if toConsole then {| settings := settings p; console := console p ++ [(nm, t)]; skipped := skipped p |}
          else {| settings := settings p ++ [(nm, t)]; console := console p; skipped := skipped p |}
      end
  end.
Definition PlanServerConfig (st : Json) : ServerConfigPlan :=
  if negb (IsObject st) then NoPlan
  else
    let p := foldl (fun p e => add_setting false st e.1 e.2 e.1 p) NoPlan
      [("hostname_format", "hostname_format"); ("scrim_knife", "knife_enabled_default"); ("scrim_when_idle", "scrim_when_idle");
       ("chat_prefix", "chat_prefix"); ("admin_chat_prefix", "admin_chat_prefix")] in
    let group toConsole g nm l p :=
      match Obj st g with Some o => foldl (fun p k => add_setting toConsole o k.1 (nm +s+ k.2) (g +s+ "." +s+ k.1) p) p l | None => p end in
    let p := group false "series_end_kick_delay" "series_end_kick_delay_"
               [("no_demo", "no_demo"); ("demo_no_upload", "demo_no_upload"); ("demo_upload", "demo_upload")] p in
    let p := group true "warmup" "ru_warmup_" [("message_html", "message_html"); ("respawn", "respawn"); ("money", "startmoney")] p in
    group true "demo" "ru_demo_" [("path", "path"); ("name_format", "name_format")] p.

(** ** Updates of a config *)

Definition without (sid : string) (players : list Json) : list Json :=
  List.filter (fun p => negb match Find p "steamid64" with Some s => AsString s =s sid | None => false end) players.
Definition remove_from_team (sid : string) (x : Json * bool) (team : string) : Json * bool :=
  let '(c, found) := x in
  match Obj c team with
  | None => x
  | Some t =>
      match Arr t "players" with
      | None => x
      | Some players =>
          let kept := without sid players in
          (SetKey c team (SetKey t "players" (JArray kept)), found || negb (zlen kept =? zlen players))
      end
  end.
Definition RemoveEverywhere (config : Json) (sid : string) : Json * bool :=
  let '(c, found) := foldl (remove_from_team sid) (config, false) ["team1"; "team2"] in
  match Arr c "spectators" with
  | None => (c, found)
  | Some specs =>
      let kept := List.filter (fun s => negb (AsString s =s sid)) specs in
      (SetKey c "spectators" (JArray kept), found || negb (zlen kept =? zlen specs))
  end.

Definition steam_of (op : Json) (what : string) : Res string string :=
  match Find op "steamid64" with
  | Some (JString s as v) => if ValidSteam v then ok s else reject (what +s+ ": bad steamid64")
  | _ => reject (what +s+ ": bad steamid64")
  end.

Definition op_add_player (c op : Json) : Res string Json :=
  sid <~ steam_of op "add_player" ;;
  let team := Str op "team" EmptyString in
  let role := Str op "role" "player" in
  need (is_role role) "add_player: bad role" ;;;
  let c := (RemoveEverywhere c sid).1 in
  if team =s "spectator" then
    ok (SetKey c "spectators" (Push (default (JArray []) (Find c "spectators")) (JString sid)))
  else if Mi.one_of team ["team1"; "team2"] then
    let t := default JNull (Find c team) in
    let p := JObject [("steamid64", JString sid); ("name", JString (Str op "name" EmptyString)); ("role", JString role)] in
    ok (SetKey c team (SetKey t "players" (Push (default (JArray []) (Find t "players")) p)))
  else reject "add_player: team must be team1, team2 or spectator".
Definition op_remove_player (c op : Json) : Res string Json :=
  sid <~ steam_of op "remove_player" ;;
  let '(c, found) := RemoveEverywhere c sid in
  if found then ok c else reject ("remove_player: " +s+ sid +s+ " is not in the match").
Definition op_rename_team (c op : Json) : Res string Json :=
  let team := Str op "team" EmptyString in
  let nm := Str op "name" EmptyString in
  need (Mi.one_of team ["team1"; "team2"]) "rename_team: team must be team1 or team2" ;;;
  need (negb (sempty nm || (64 <? slen nm))) "rename_team: name must be 1..64 bytes" ;;;
  ok (SetKey c team (SetKey (default JNull (Find c team)) "name" (JString nm))).
Definition op_set_password (c op : Json) : Res string Json :=
  match Find op "password" with
  | Some (JString p) => if ValidPassword p then ok (SetKey c "password" (JString p)) else reject "set_password: bad password"
  | _ => reject "set_password: bad password"
  end.
Definition with_language (sid language : string) (p : Json) : Json :=
  if Str p "steamid64" EmptyString =s sid then SetKey p "language" (JString language) else p.
Definition team_language (sid language : string) (c : Json) (team : string) : Json :=
  match (t ← Obj c team; ps ← Arr t "players"; Some (t, ps)) with
  | Some (t, ps) => SetKey c team (SetKey t "players" (JArray (with_language sid language <$> ps)))
  | None => c
  end.
Definition op_set_language (c op : Json) : Res string Json :=
  sid <~ steam_of op "set_language" ;;
  let language := Str op "language" EmptyString in
  need (negb (sempty language || (16 <? slen language))) "set_language: bad language" ;;;
  ok (foldl (team_language sid language) c ["team1"; "team2"]).
Definition op_set_rules (c op : Json) : Res string Json :=
  match Obj op "rules" with
  | None => reject "set_rules: rules must be an object"
  | Some r =>
      let c := SetKey c "rules" (MergePatchApply (or_empty (Find c "rules")) r) in
      ValidateRuleset c ;;; ok c
  end.

(** One operation: the config, and whether the password was set. *)
Definition update_op (x : Json * bool) (op : Json) : Res string (Json * bool) :=
  let '(c, pw) := x in
  let kind := Str op "op" EmptyString in
  if kind =s "add_player" then c <~ op_add_player c op ;; ok (c, pw)
  else if kind =s "remove_player" then c <~ op_remove_player c op ;; ok (c, pw)
  else if kind =s "rename_team" then c <~ op_rename_team c op ;; ok (c, pw)
  else if kind =s "set_password" then c <~ op_set_password c op ;; ok (c, true)
  else if kind =s "set_language" then c <~ op_set_language c op ;; ok (c, pw)
  else if kind =s "set_rules" then c <~ op_set_rules c op ;; ok (c, pw)
  else reject ("unknown op " +s+ quoted kind).
Fixpoint update_ops (x : Json * bool) (ops : list Json) : Res string (Json * bool) :=
  match ops with [] => ok x | op :: ops => x <~ update_op x op ;; update_ops x ops end.

(** The new config and whether the password changed; an error leaves the config as it was. *)
Definition ApplyUpdateOps (config ops : Json) : Res string (Json * bool) :=
  if negb (IsObject config) then reject "no config"
  else match ops with JArray ((_ :: _) as l) => update_ops (config, false) l | _ => reject "ops must be a non-empty array" end.

Definition player_of (sid : string) (ps : list Json) : option Json := List.find (fun p => Str p "steamid64" EmptyString =s sid) ps.
Definition TeamOf (config : Json) (steamid64 : Z) : string :=
  let sid := to_string steamid64 in
  let on team := t ← Obj config team; ps ← Arr t "players"; p ← player_of sid ps;
                 Some (if Str p "role" "player" =s "coach" then "spectator" else team) in
  match on "team1" with
  | Some t => t
  | None =>
      match on "team2" with
      | Some t => t
      | None => if existsb (fun e => AsString e =s sid) (default [] (Arr config "spectators")) then "spectator" else EmptyString
      end
  end.
Definition InAssignedMatch (config : Json) (steamid64 : Z) : bool :=
  negb (steamid64 =? 0) &&
  (negb (sempty (TeamOf config steamid64)) ||
   existsb (fun s => AsString s =s to_string steamid64) (default [] (Arr config "admins"))).

End Server.

(** ** Resuming a match after a failover *)

Record ResumeMapResult := { rm_number : Z; rm_team1 : Z; rm_team2 : Z; rm_winner : string }.
Record ResumePlan := {
  present : bool; from_epoch : Z; map_number : Z; round : Z; inline_backup : bool; file : string; raw : string; sha256 : string;
  series_team1 : Z; series_team2 : Z; maps_done : list ResumeMapResult; sides : string; score_team1 : Z; score_team2 : Z;
  team1_side : string; map_stats : Json; pause_after_restore : bool }.
Definition NoResume : ResumePlan := {|
  present := false; from_epoch := 0; map_number := 1; round := 0; inline_backup := false; file := EmptyString; raw := EmptyString;
  sha256 := EmptyString; series_team1 := 0; series_team2 := 0; maps_done := []; sides := EmptyString; score_team1 := -1; score_team2 := -1;
  team1_side := EmptyString; map_stats := JNull; pause_after_restore := true |}.

Definition hex_char (c : ascii) : bool := isdigit c || ((97 <=? code c) && (code c <=? 102)).
Definition IsSha256Hex (s : string) : bool := (slen s =? 64) && sforall hex_char s.

(** Two integers from 0 on, as [int]s. *)
Definition ScorePair (o : option Json) : option (Z * Z) :=
  match o with
  | Some (JObject _ as o) =>
      match Find o "team1", Find o "team2" with
      | Some (JInt a), Some (JInt b) => if (a <? 0) || (b <? 0) then None else Some (to_int32 a, to_int32 b)
      | _, _ => None
      end
  | _ => None
  end.
Definition member_of (o : option Json) (k : string) : option Json := match o with Some (JObject _ as j) => Find j k | _ => None end.
Definition PathObj (o : option Json) (keys : list string) : option Json :=
  match foldl member_of o keys with Some (JObject _ as j) => Some j | _ => None end.

Definition Rej (A : Type) : Type := Res (string * string) A.
Definition refuse {A} (c why : string) : Rej A := reject (c, "resume: " +s+ why).
Definition demand (b : bool) (c why : string) : Rej unit := if b then ok tt else refuse c why.
Definition invalid (b : bool) (why : string) : Rej unit := demand b "invalid_config" why.

(** What the backup says: inline or not, the file, its content, the digest, the round and the score. *)
Record BackupPart := { b_inline : bool; b_file : string; b_raw : string; b_sha : string; b_round : Z; b_score : option (Z * Z) }.

Definition inline_part (b : Json) (mapNumber rnd : Z) : Rej BackupPart :=
  parts <~ given (Int b "parts" 1) ;;
  demand (parts <=? 1) "unsupported" "multi-part inline backups are not accepted; send the whole file as one part" ;;;
  let f := Str b "file" EmptyString in
  invalid (SafeBackupFileName f) "backup.file is not a plain *.txt name" ;;;
  match (if Str b "encoding" "base64" =s "base64" then Base64Decode (Str b "data" EmptyString) else None) with
  | None | Some EmptyString => refuse "invalid_config" "backup.data is not base64"
  | Some content =>
      let sha := Sha256Hex content in
      demand (sha =s Str b "sha256" EmptyString) "checksum" "backup sha256 mismatch" ;;;
      size <~ given (Int b "size" (slen content)) ;;
      demand (size =? slen content) "checksum" "backup size mismatch" ;;;
      m <~ given (Int b "map_number" mapNumber) ;;
      invalid (m =? mapNumber) "backup.map_number is not map_number" ;;;
      br <~ given (Int b "round" 0) ;;
      invalid (1 <=? br) "backup.round must be >= 1" ;;;
      invalid ((rnd <? 0) || (rnd =? br)) "round is not backup.round" ;;;
      ok {| b_inline := true; b_file := f; b_raw := content; b_sha := sha; b_round := br; b_score := ScorePair (Find b "score") |}
  end.
Definition ref_part (r : Json) (rnd : Z) : Rej BackupPart :=
  let f := Str r "file" EmptyString in
  invalid (sempty f || SafeBackupFileName f) "backup_ref.file is not a plain *.txt name" ;;;
  let sha := Str r "sha256" EmptyString in
  invalid (sempty sha || IsSha256Hex sha) "backup_ref.sha256 is not a sha256" ;;;
  invalid (1 <=? rnd) "backup_ref needs round >= 1" ;;;
  ok {| b_inline := false; b_file := f; b_raw := EmptyString; b_sha := sha; b_round := rnd; b_score := None |}.

Definition is_winner (w : string) : bool := Mi.one_of w ["team1"; "team2"; "none"].
(** The results of the maps before the resumed one. *)
Fixpoint done_maps (fromState : bool) (mapNumber : Z) (l : list (string * Json)) : Rej (list ResumeMapResult) :=
  match l with
  | [] => ok []
  | (k, v) :: l =>
      let n := c_atoi k in
      if (n <? 1) || (mapNumber <=? n) || negb (IsObject v) || (fromState && negb (Str v "status" EmptyString =s "done")) then done_maps fromState mapNumber l
      else
        let '(t1, t2) := default (0, 0) (ScorePair (Find v "score")) in
        let w := Str v "winner" (if t2 <? t1 then "team1" else if t1 <? t2 then "team2" else "none") in
        invalid (is_winner w) ("bad winner for map " +s+ k) ;;;
        rest <~ done_maps fromState mapNumber l ;;
        ok ({| rm_number := n; rm_team1 := t1; rm_team2 := t2; rm_winner := w |} :: rest)
  end.

Definition object_if_there (o : Json) (k why : string) : Rej unit :=
  invalid (negb (has o k) || match Obj o k with Some _ => true | None => false end) why.

(** [epoch] is the assignment's. *)
Definition ParseResume (resume config : Json) (ep : Z) : Rej ResumePlan :=
  invalid (IsObject resume) "must be an object" ;;;
  let fe := Find resume "from_epoch" in
  invalid match fe with Some _ => IsInt fe && (1 <=? the_int fe) | None => true end "from_epoch must be an integer >= 1" ;;;
  invalid match fe with Some _ => negb ((0 <? ep) && (ep <=? the_int fe)) | None => true end "from_epoch must be lower than epoch" ;;;
  let maps := Arr config "maps" in
  num <~ given (Int config "num_maps" 1) ;;
  let mapCount := Z.min num (zlen (default [] maps)) in
  let mn := Find resume "map_number" in
  invalid (IsInt mn && (1 <=? the_int mn) && (the_int mn <=? mapCount)) "map_number must be 1..num_maps" ;;;
  let mapNumber := to_int32 (the_int mn) in
  let st := Obj resume "state" in
  object_if_there resume "state" "state must be a MatchState object" ;;;
  object_if_there resume "backup" "backup must be an InlineBackup object" ;;;
  object_if_there resume "backup_ref" "backup_ref must be an object" ;;;
  let backup := Obj resume "backup" in let ref := Obj resume "backup_ref" in
  invalid match backup, ref with Some _, Some _ => false | _, _ => true end "backup and backup_ref exclude each other" ;;;
  let rn := Find resume "round" in
  invalid match rn with Some _ => IsInt rn && (0 <=? the_int rn) && (the_int rn <=? 999) | None => true end "round must be 0..999" ;;;
  let rnd := match rn with Some _ => the_int rn | None => -1 end in
  part <~ match backup, ref with
          | Some b, _ => inline_part b mapNumber rnd
          | None, Some r => ref_part r rnd
          | None, None => ok {| b_inline := false; b_file := EmptyString; b_raw := EmptyString; b_sha := EmptyString; b_round := rnd; b_score := None |}
          end ;;
  let round_ := to_int32 (Z.max 0 (b_round part)) in
  let sscore := match Find resume "series_score" with Some s => Some s | None => PathObj st ["series"; "score"] end in
  invalid match sscore with Some _ => match ScorePair sscore with Some _ => true | None => false end | None => true end
    "series_score must be {team1, team2} (integers >= 0)" ;;;
  let '(s1, s2) := default (0, 0) (ScorePair sscore) in
  let given_maps := Obj resume "maps" in
  let fromState := match given_maps with Some _ => false | None => true end in
  let maps_ := match given_maps with Some m => Some m | None => PathObj st ["series"; "maps"] end in
  finished <~ done_maps fromState mapNumber (Members (or_empty maps_)) ;;
  let sd := Str resume "sides" EmptyString in
  let sd := if sempty sd then match PathObj st ["series"; "maps"; to_string mapNumber] with Some m => Str m "sides" EmptyString | None => EmptyString end else sd in
  let sd := if sd =s "knife" then EmptyString else sd in
  invalid (sempty sd || Mi.one_of sd ["team1_ct"; "team2_ct"]) "sides must be team1_ct or team2_ct" ;;;
  let cfgSides := match default [] maps !! Z.to_nat (mapNumber - 1) with Some m => Str m "sides" "knife" | None => "knife" end in
  invalid (negb ((1 <=? round_) && sempty sd && (cfgSides =s "knife")))
    ("the resumed map's sides are still " +s+ quoted "knife" +s+ ": send the sides the knife round decided") ;;;
  let sc := Find resume "score" in
  invalid match sc with Some _ => match ScorePair sc with Some _ => true | None => false end | None => true end "score must be {team1, team2}" ;;;
  let state_score :=
    match PathObj st ["teams"; "team1"], PathObj st ["teams"; "team2"] with
    | Some a, Some b => if IsInt (Find a "score") && IsInt (Find b "score") then Some (to_int32 (the_int (Find a "score")), to_int32 (the_int (Find b "score"))) else None
    | _, _ => None
    end in
  let '(p1, p2) := default (-1, -1) (b_score part) in
  let '(p1, p2) := match ScorePair sc with
                   | Some s => s
                   | None => if p1 <? 0 then default (p1, p2) state_score else (p1, p2)
                   end in
  let side := match PathObj st ["teams"; "team1"] with Some t => let s := Str t "side" EmptyString in if Mi.one_of s ["ct"; "t"] then s else EmptyString | None => EmptyString end in
  object_if_there resume "map_stats" "map_stats must be a MapStats object" ;;;
  ok {| present := true; from_epoch := match fe with Some _ => the_int fe | None => 0 end; map_number := mapNumber; round := round_;
        inline_backup := b_inline part; file := b_file part; raw := b_raw part; sha256 := b_sha part; series_team1 := s1; series_team2 := s2;
        maps_done := finished; sides := sd; score_team1 := p1; score_team2 := p2; team1_side := side;
        map_stats := default JNull (Obj resume "map_stats");
        pause_after_restore := match PathObj (Some config) ["rules"; "pause"] with Some pz => Bool pz "pause_after_restore" true | None => true end |}.

Definition map_result_json (m : ResumeMapResult) : Json :=
  JObject [("map_number", JInt (rm_number m)); ("team1", JInt (rm_team1 m)); ("team2", JInt (rm_team2 m)); ("winner", JString (rm_winner m))].
Definition ResumeToJson (p : ResumePlan) : Json :=
  JObject [("present", JBool (present p)); ("from_epoch", JInt (from_epoch p)); ("map_number", JInt (map_number p)); ("round", JInt (round p));
           ("inline_backup", JBool (inline_backup p)); ("file", JString (file p)); ("sha256", JString (sha256 p));
           ("series_team1", JInt (series_team1 p)); ("series_team2", JInt (series_team2 p)); ("maps_done", JArray (map_result_json <$> maps_done p));
           ("sides", JString (sides p)); ("score_team1", JInt (score_team1 p)); ("score_team2", JInt (score_team2 p));
           ("team1_side", JString (team1_side p)); ("map_stats", map_stats p); ("pause_after_restore", JBool (pause_after_restore p))].

Definition int_field (o : Json) (k : string) (def : Z) : option Z := to_int32 <$> Int o k def.
Definition read_result (m : Json) : option ResumeMapResult :=
  n ← int_field m "map_number" 0; t1 ← int_field m "team1" 0; t2 ← int_field m "team2" 0;
  Some {| rm_number := n; rm_team1 := t1; rm_team2 := t2; rm_winner := Str m "winner" "none" |}.
Definition ResumeFromJson (j : Json) : option ResumePlan :=
  if negb (IsObject j) then Some NoResume
  else
    fe ← Int j "from_epoch" 0; mn ← int_field j "map_number" 1; rd ← int_field j "round" 0;
    s1 ← int_field j "series_team1" 0; s2 ← int_field j "series_team2" 0;
    dn ← mapM read_result (default [] (Arr j "maps_done"));
    p1 ← int_field j "score_team1" (-1); p2 ← int_field j "score_team2" (-1);
    Some {| present := Bool j "present" false; from_epoch := fe; map_number := mn; round := rd; inline_backup := Bool j "inline_backup" false;
            file := Str j "file" EmptyString; raw := EmptyString; sha256 := Str j "sha256" EmptyString; series_team1 := s1; series_team2 := s2;
            maps_done := dn; sides := Str j "sides" EmptyString; score_team1 := p1; score_team2 := p2; team1_side := Str j "team1_side" EmptyString;
            map_stats := default JNull (Obj j "map_stats"); pause_after_restore := Bool j "pause_after_restore" true |}.

Example sha_abc : Sha256Hex "abc" = "ba7816bf8f01cfea414140de5dae2223b00361a396177a9cb410ff61f20015ad".
Proof. vm_compute. reflexivity. Qed.
Example sha_empty : Sha256Hex "" = "e3b0c44298fc1c149afbf4c8996fb92427ae41e4649b934ca495991b7852b855".
Proof. vm_compute. reflexivity. Qed.
Example sha_two_blocks : Sha256Hex "abcdbcdecdefdefgefghfghighijhijkijkljklmklmnlmnomnopnopq" = "248d6a61d20638b8e5c026930c3e6039a33ce45964ff2167f6ecedd419db06c1".
Proof. vm_compute. reflexivity. Qed.
Example base64_samples : Base64Encode "Man" = "TWFu" /\ Base64Encode "Ma" = "TWE=" /\ Base64Encode "M" = "TQ==" /\ Base64Decode "TWE=" = Some "Ma".
Proof. vm_compute. auto. Qed.
Example backup_rounds : map BackupRoundFromName ["backup_round07.txt"; "round"; "x"; "round_round12_1.txt"] = [7; -1; -1; 12].
Proof. vm_compute. reflexivity. Qed.
Example exec_samples :
  map ValidateExec ["mp_pause_match"; " RU  fleet status"; "status; FLEET x"; "ru_fleet_url x"; "say fleet"] =
  [None; Some "the fleet link's own commands are not allowed over exec"; Some "the fleet link's own commands are not allowed over exec";
   Some "the fleet link's own commands are not allowed over exec"; None].
Proof. vm_compute. reflexivity. Qed.

End Fs.
