(* ===== verification/FleetStateFacts.v ===== *)
(** * The fleet link's pure parts: what they guarantee

    The state stream replays, the fence never lets an old assignment back in, its memory and a resume plan survive a
    reload, Base64 reads back, update operations move players as they say, and nothing but engine cvars reaches the
    match config. *)

From S2P Require Import Prelude CStr Double Json JsonFacts MergePatch MatchRules Ruleset MapNames Midas Essentials FleetState.

Module FsFacts.
Import Fs.

(** ** The state stream *)

Lemma strip_spec f l acc : strip_members f l acc = update_all (fun _ v => if IsNull v then None else Some (f v)) l acc.
Proof. revert acc. induction l as [|[k v] l IH]; intros acc; cbn; [done|]. rewrite IH. by destruct (IsNull v). Qed.

Lemma StripNulls_null v : IsNull (StripNulls v) = IsNull v.
Proof. by destruct v. Qed.
Lemma StripNulls_object v : IsObject (StripNulls v) = IsObject v.
Proof. by destruct v. Qed.

Lemma StripNulls_obj o : StripNulls (JObject o) = JObject (update_all (fun _ v => if IsNull v then None else Some (StripNulls v)) o []).
Proof. rewrite <- strip_spec. done. Qed.
Lemma StripNulls_arr a : StripNulls (JArray a) = JArray (StripNulls <$> a).
Proof. done. Qed.

Lemma StripNulls_uniq v : uniq (StripNulls v) = true.
Proof.
  induction v as [|b|i|x|s|o IH|a IH] using json_nested_ind; try done.
  - rewrite StripNulls_obj. apply uniq_object. split; [apply NoDup_update_all, NoDup_nil_2|].
    apply (update_all_Forall (fun w => uniq w = true)); [constructor|]. intros k v w Hin E. destruct (IsNull v); [done|]. injection E as <-.
    rewrite Forall_forall in IH. by apply (IH _ Hin).
  - cbn. apply all_items_forall, Forall_forall. intros y (x & -> & Hx)%list_elem_of_fmap. rewrite Forall_forall in IH. by apply IH.
Qed.

Lemma StripNulls_nan v : nan_free v = true -> nan_free (StripNulls v) = true.
Proof.
  induction v as [|b|i|x|s|o IH|a IH] using json_nested_ind; try done; intros Hn.
  - rewrite StripNulls_obj. cbn in Hn |- *. apply all_members_forall in Hn. apply all_members_forall.
    apply (update_all_Forall (fun w => nan_free w = true)); [constructor|].
    intros k v w Hin E. destruct (IsNull v); [done|]. injection E as <-. rewrite Forall_forall in IH, Hn. apply (IH _ Hin), (Hn _ Hin).
  - rewrite StripNulls_arr. cbn in Hn |- *. apply all_items_forall in Hn. apply all_items_forall, Forall_forall. intros y (x & -> & Hx)%list_elem_of_fmap.
    rewrite Forall_forall in IH, Hn. by apply IH, Hn.
Qed.

Lemma StripNulls_null_free v : null_free (StripNulls v) = true.
Proof.
  induction v as [|b|i|x|s|o IH|a IH] using json_nested_ind; try done. rewrite StripNulls_obj. apply null_free_members.
  apply (update_all_Forall (fun w => IsNull w = false /\ null_free w = true)); [constructor|]. intros k v w Hin E.
  destruct (IsNull v) eqn:Ev; [done|]. injection E as <-. rewrite StripNulls_null. split; [done|]. rewrite Forall_forall in IH. by apply (IH _ Hin).
Qed.

Lemma StripNulls_sendable v : nan_free v = true -> sendable (StripNulls v) = true.
Proof. intros H. unfold sendable. by rewrite StripNulls_uniq, StripNulls_nan, StripNulls_null_free. Qed.

(** [j["live_rev"] = rev] keeps an object sendable. *)
Lemma set_member_Forall (P : Json -> Prop) k w o : P w -> Forall (fun kv => P kv.2) o -> Forall (fun kv => P kv.2) (set_member k w o).
Proof. intros Hw. induction 1 as [|[k2 v2] o Hv Ho IH]; cbn; [by repeat constructor|]. case_if; by constructor. Qed.

Lemma live_sendable j rev : sendable j = true -> sendable (live j rev) = true.
Proof.
  intros Hj. unfold live, SetKey. apply sendable_object. assert (NoDup (keys (Members j)) /\ Forall (fun kv => member_ok kv.2) (Members j)) as [H1 H2].
  { destruct j; try (by split; [apply NoDup_nil_2|constructor]). by apply sendable_object. }
  split; [by apply NoDup_set_member|]. by apply (set_member_Forall member_ok).
Qed.

Lemma sendable_parts j : sendable j = true -> uniq j = true /\ nan_free j = true.
Proof. unfold sendable. intros H. by split_bools. Qed.

(** A patch computed from a sendable state can itself be sent. *)
Lemma MergeDiff_sends from to p : uniq to = true -> nan_free to = true -> MergeDiff from to = Some p -> uniq p = true /\ nan_free p = true.
Proof.
  intros Hu Hn. apply (MergeDiff_closed (fun j => uniq j = true /\ nan_free j = true)); [done| | |done].
  - intros o H1 H2. split; [apply uniq_object; split; [done|]; by apply (Forall_impl _ _ _ H2); intros ? []|].
    cbn. apply all_members_forall. by apply (Forall_impl _ _ _ H2); intros ? [].
  - intros o [[H1 H2]%uniq_object H3]. cbn in H3. apply all_members_forall in H3. split; [done|]. rewrite Forall_forall in *. auto.
Qed.

Lemma patch_object m n p : MergeDiff (JObject m) (JObject n) = Some p -> IsObject p = true.
Proof. rewrite MergeDiff_object. case_if; [done|]. destruct (diff_members m n); [done|]. by intros [= <-]. Qed.

(** Two objects with equal members under every key. *)
Lemma equal_objects a b : uniq (JObject a) = true -> uniq (JObject b) = true -> nan_free (JObject b) = true ->
  (forall k, find_member k a = find_member k b) -> json_eqb (JObject a) (JObject b) = true.
Proof.
  intros Ha Hb Hn H. apply uniq_object in Ha as [Ha _]. pose proof Hb as [Hb' _]%uniq_object. apply json_eqb_object; [done..|].
  intros k. rewrite H. destruct (find_member k b) as [v|] eqn:E; [|done]. apply json_eqb_refl; [exact (find_uniq _ _ _ Hb E)|].
  cbn in Hn. apply all_members_forall in Hn. exact (find_member_Forall (fun v => nan_free v = true) _ _ _ Hn E).
Qed.

Lemma apply_object t pm : MergePatchApply t (JObject pm) = JObject (Members (MergePatchApply t (JObject pm))).
Proof. done. Qed.

(** The patch of a bump, and the empty patch. *)
Lemma apply_rev m rev : sendable (JObject m) = true ->
  json_eqb (MergePatchApply (JObject m) (JObject [("live_rev", JInt rev)])) (live (JObject m) rev) = true.
Proof.
  intros Hs. pose proof (live_sendable _ rev Hs) as Hl. destruct (sendable_parts _ Hs) as [Hu Hn], (sendable_parts _ Hl) as [Hu' Hn'].
  rewrite apply_object. apply equal_objects; [|done..|].
  - rewrite <- apply_object. by apply uniq_MergePatchApply.
  - intros k. pose proof Hu as [Hk _]%uniq_object. rewrite MergePatchApply_find by (done || apply NoDup_singleton). cbn [Members find_member].
    rewrite find_set_member. destruct (String.eqb_spec "live_rev" k) as [<-|]; [|by destruct (find_member k m)].
    by destruct (find_member "live_rev" m).
Qed.

Lemma apply_empty m : sendable (JObject m) = true -> json_eqb (MergePatchApply (JObject m) (JObject [])) (JObject m) = true.
Proof.
  intros Hs. destruct (sendable_parts _ Hs) as [Hu Hn]. rewrite apply_object. apply equal_objects; [|done..|].
  - rewrite <- apply_object. by apply uniq_MergePatchApply.
  - intros k. pose proof Hu as [Hk _]%uniq_object. rewrite MergePatchApply_find by (done || apply NoDup_nil_2). cbn. by destruct (find_member k m).
Qed.

(** What the link asks of the stream: the state now, with an event or without, or an event that is not about it. *)
Inductive StreamOp := OpState (next : Json) (event : bool) | OpBump.
Definition stream_op (s : LiveStream) (o : StreamOp) : LiveStream * option (Json * Z) :=
  match o with OpState next e => Advance s next e | OpBump => BumpRevOnly s end.
Definition op_sound (o : StreamOp) : Prop := match o with OpState next _ => IsObject next = true /\ nan_free next = true | OpBump => True end.

(** The stream after the operations, and the messages in order. *)
Fixpoint stream_run (s : LiveStream) (os : list StreamOp) : LiveStream * list (Json * Z) :=
  match os with
  | [] => (s, [])
  | o :: os => let '(s1, m) := stream_op s o in let '(s2, ms) := stream_run s1 os in (s2, match m with Some x => x :: ms | None => ms end)
  end.

(** The platform: a patch is applied when its revision is the next one. *)
Definition receive (x : option (Json * Z)) (m : Json * Z) : option (Json * Z) :=
  '(st, rev) ← x; if m.2 =? rev + 1 then Some (MergePatchApply st m.1, m.2) else None.

Record in_step (st : Json) (s : LiveStream) : Prop := {
  i_obj : IsObject (state_ s) = true;
  i_send : sendable (state_ s) = true;
  i_uniq : uniq st = true;
  i_same : json_eqb st (state_ s) = true;
}.

(** A patch that leads from the server's old state to its new one does the same to the platform's copy. *)
Lemma patch_follows st s n p : in_step st s -> sendable n = true -> uniq p = true -> nan_free p = true ->
  json_eqb (MergePatchApply (state_ s) p) n = true -> uniq (MergePatchApply st p) = true /\ json_eqb (MergePatchApply st p) n = true.
Proof.
  intros [H1 H2 H3 H4] Hn Hp Hnp He. destruct (sendable_parts _ H2), (sendable_parts _ Hn).
  split; [by apply uniq_MergePatchApply|]. apply (json_eqb_trans _ (MergePatchApply (state_ s) p)); try done;
    [by apply uniq_MergePatchApply..|]. by apply MergePatchApply_proper.
Qed.

Lemma stream_op_follows st s o : in_step st s -> op_sound o ->
  let '(s', m) := stream_op s o in
  match m with
  | Some (p, rev) => rev = rev_ s + 1 /\ rev_ s' = rev /\ in_step (MergePatchApply st p) s'
  | None => s' = s
  end.
Proof.
  intros Hin Ho. destruct Hin as [H1 H2 H3 H4] eqn:Ein. clear Ein. destruct o as [next e|]; cbn [stream_op].
  - destruct Ho as [Hob Hnan]. unfold Advance. rewrite StripNulls_object, Hob. pose proof (StripNulls_sendable next Hnan) as Hs.
    destruct (negb _ && negb e); [done|]. set (n := live (StripNulls next) (rev_ s + 1)).
    pose proof (live_sendable _ (rev_ s + 1) Hs) as Hn. fold n in Hn.
    assert (match MergeDiff (state_ s) n with Some p => IsObject p = true /\ json_eqb (MergePatchApply (state_ s) p) n = true
            | None => json_eqb (MergePatchApply (state_ s) (JObject [])) n = true end) as Hd.
    { pose proof (patch_ok_all n (state_ s) (proj1 (sendable_parts _ H2)) Hn) as Hp. unfold patch_ok in Hp.
      destruct (state_ s) as [| | | | |m|] eqn:Es; try done.
      destruct (MergeDiff (JObject m) n) as [p|] eqn:Ed; [split; [exact (patch_object _ _ _ Ed)|done]|].
      destruct (sendable_parts _ H2), (sendable_parts _ Hn).
      apply (json_eqb_trans _ (JObject m)); try done; [by apply uniq_MergePatchApply|]. by apply apply_empty. }
    assert (in_step st s) as Hin' by done.
    destruct (MergeDiff (state_ s) n) as [p|] eqn:Ed.
    + destruct Hd as [-> Hd]. destruct (sendable_parts _ Hn) as [Un Nn]. destruct (MergeDiff_sends _ _ _ Un Nn Ed) as [Up Np].
      destruct (patch_follows st s n p Hin' Hn Up Np Hd). repeat split; done.
    + destruct (patch_follows st s n (JObject []) Hin' Hn ltac:(done) ltac:(done) Hd). repeat split; done.
  - unfold BumpRevOnly. rewrite H1. destruct (state_ s) as [| | | | |m|] eqn:Es; try done.
    assert (in_step st s) as Hin' by (split; rewrite ?Es; done). pose proof (live_sendable _ (rev_ s + 1) H2) as Hl.
    destruct (patch_follows st s (live (JObject m) (rev_ s + 1)) (JObject [("live_rev", JInt (rev_ s + 1))]) Hin' Hl) as [P1 P2];
      [done|done|rewrite Es; by apply apply_rev|]. repeat split; done.
Qed.

Lemma run_follows os : Forall op_sound os -> forall st s, in_step st s ->
  let '(s', ms) := stream_run s os in
  exists st', foldl receive (Some (st, rev_ s)) ms = Some (st', rev_ s') /\ json_eqb st' (state_ s') = true.
Proof.
  induction 1 as [|o os Hsound Hos IH]; intros st s Hin; cbn [stream_run].
  - exists st. split; [done|]. by destruct Hin.
  - pose proof (stream_op_follows st s o Hin Hsound) as Hstep. destruct (stream_op s o) as [s1 m].
    destruct m as [[p rev]|]; [destruct Hstep as (-> & E & Hin')|subst s1].
    + specialize (IH _ _ Hin'). destruct (stream_run s1 os) as [s2 ms]. cbn [foldl].
      assert (receive (Some (st, rev_ s)) (p, rev_ s + 1) = Some (MergePatchApply st p, rev_ s + 1)) as -> by (cbn; by rewrite Z.eqb_refl).
      by rewrite <- E.
    + specialize (IH _ _ Hin). by destruct (stream_run s os).
Qed.

Lemma reset_in_step st0 rev0 : IsObject st0 = true -> nan_free st0 = true -> in_step (state_ (Reset st0 rev0)) (Reset st0 rev0).
Proof.
  intros Ho Hn. assert (sendable (state_ (Reset st0 rev0)) = true) as Hs.
  { unfold Reset. cbn. destruct st0; try done. cbn [IsNull]. by apply live_sendable, StripNulls_sendable. }
  split; [by destruct st0|done|by apply sendable_parts|by apply sendable_refl].
Qed.

(** The platform that starts from the state of an assignment and applies each message whose revision follows the last one misses none and ends with the server's current state: the revisions of state patches and events are consecutive, and each carries the patch from the state before it. *)
Theorem live_stream_replays st0 rev0 os : IsObject st0 = true -> nan_free st0 = true -> Forall op_sound os ->
  let s0 := Reset st0 rev0 in let '(s, ms) := stream_run s0 os in
  exists st, foldl receive (Some (state_ s0, rev0)) ms = Some (st, rev_ s) /\ json_eqb st (state_ s) = true.
Proof.
  intros Ho Hn Hos. by apply (run_follows os Hos (state_ (Reset st0 rev0)) (Reset st0 rev0)), reset_in_step.
Qed.

(** ** The fence *)

Record fence_ok (f : Fence) : Prop := {
  f_keys : forall m, m ∈ order_ f <-> is_Some (retired_ f !! m);
  f_nodup : NoDup (order_ f);
  f_size : (length (order_ f) <= 64)%nat;
  f_named : EmptyString ∉ order_ f;
}.

Lemma fence_new : fence_ok NewFence.
Proof. split; cbn; [|constructor|lia|set_solver]. intros m. split; [set_solver|]. intros [x Hx]. by rewrite lookup_empty in Hx. Qed.

(** At most one match is forgotten for a new one. *)
Lemma forget_once r o m : (length o <= 64)%nat ->
  forget r (o ++ [m]) = match o with
                        | a :: o' => if (length o =? 64)%nat then {| retired_ := delete a r; order_ := o' ++ [m] |} else {| retired_ := r; order_ := o ++ [m] |}
                        | [] => {| retired_ := r; order_ := [m] |}
                        end.
Proof.
  intros Hl. destruct o as [|a o']; [done|]. cbn [app forget]. cbn [length] in Hl |- *. rewrite length_app. cbn [length].
  destruct (Nat.eqb_spec (S (length o')) 64) as [E|E].
  - destruct (Nat.ltb_spec 64 (S (length o' + 1))); [|lia]. destruct (o' ++ [m]) as [|b l] eqn:El; [by destruct o'|].
    cbn [forget]. assert (length (b :: l) = length o' + 1)%nat as E2 by (rewrite <- El, length_app; done).
    destruct (Nat.ltb_spec 64 (length (b :: l))); [lia|done].
  - destruct (Nat.ltb_spec 64 (S (length o' + 1))); [lia|done].
Qed.

Lemma retire_ok f m e : fence_ok f -> fence_ok (Retire f m e).
Proof.
  intros [H1 H2 H3 H4]. unfold Retire. destruct (sempty m) eqn:Em; [done|]. assert (m <> EmptyString) as Hm by (by intros ->).
  destruct (retired_ f !! m) as [e0|] eqn:E.
  - split; cbn; [|done..]. intros k. rewrite H1. destruct (decide (k = m)) as [->|]; [rewrite lookup_insert_eq, E; by split; eauto|].
    by rewrite lookup_insert_ne by done.
  - assert (m ∉ order_ f) as Hn by (rewrite H1, E; by intros []). rewrite forget_once by done.
    assert (forall k, k ∈ order_ f ++ [m] <-> is_Some (<[m := e]> (retired_ f) !! k)) as Hk.
    { intros k. rewrite elem_of_app, H1, list_elem_of_singleton. destruct (decide (k = m)) as [->|]; [rewrite lookup_insert_eq; split; eauto|].
      rewrite lookup_insert_ne by done. naive_solver. }
    assert (NoDup (order_ f ++ [m])) as Hnd.
    { apply NoDup_app. split_and!; [done| |apply NoDup_singleton]. intros x Hx ->%list_elem_of_singleton. done. }
    assert (EmptyString ∉ order_ f ++ [m]) as He by set_solver.
    destruct (order_ f) as [|a o]; [split; cbn in *; [done|done|lia|done]|].
    destruct (Nat.eqb_spec (length (a :: o)) 64) as [El|El].
    + cbn in Hnd, He, Hk. apply NoDup_cons in Hnd as [Ha Hnd]. split; cbn; [|done|rewrite ?length_app; cbn in *; lia|set_solver].
      intros k. destruct (decide (k = a)) as [->|Hka].
      * rewrite lookup_delete_eq. split; [done|]. by intros [? ?].
      * rewrite lookup_delete_ne by done. rewrite <- Hk. set_solver.
    + split; [done|done|cbn in *; rewrite ?length_app; cbn; lia|done].
Qed.

Lemma retired_same f m e : fence_ok f -> retired_ f !! m <> None -> retired_ (Retire f m e) !! m = Some (Z.max (Retired f m) e).
Proof.
  intros [H1 H2 H3 H4] Hm. unfold Retire, Retired. destruct (retired_ f !! m) as [e0|] eqn:E; [|done].
  assert (m <> EmptyString) by (intros ->; apply H4, H1; eauto). destruct m; [done|]. cbn [sempty retired_]. rewrite lookup_insert_eq. done.
Qed.

Lemma retire_new f m e : fence_ok f -> m <> EmptyString -> retired_ f !! m = None ->
  retired_ (Retire f m e) !! m = Some e /\ exists l, order_ (Retire f m e) = l ++ [m].
Proof.
  intros [H1 H2 H3 H4] Hm E. unfold Retire. rewrite E. destruct m as [|c m]; [done|]. cbn [sempty]. rewrite forget_once by done.
  assert (String c m ∉ order_ f) as Hn by (rewrite H1, E; by intros []).
  destruct (order_ f) as [|a o]; [cbn; rewrite lookup_insert_eq; split; [done|by exists []]|].
  destruct (_ =? _)%nat; cbn; [rewrite lookup_delete_ne by set_solver|]; rewrite lookup_insert_eq; (split; [done|]); [by exists o|by exists (a :: o)].
Qed.

(** A match is remembered with an epoch of at least [e], and the newer ones are among [seen]. *)
Definition remembers (seen : gset string) (m : string) (e : Z) (f : Fence) : Prop :=
  exists l1 l2 e', order_ f = l1 ++ m :: l2 /\ list_to_set l2 ⊆ seen /\ retired_ f !! m = Some e' /\ e <= e'.

(** The other matches that are retired. *)
Definition others (m : string) (ms : list (string * Z)) : gset string := list_to_set (fst <$> ms) ∖ {[m]}.

Lemma newer_bound (seen : gset string) m l1 l2 : NoDup (l1 ++ m :: l2) -> list_to_set l2 ⊆ seen -> (size seen <= 63)%nat -> (length l2 <= 63)%nat.
Proof.
  intros (_ & _ & [_ Hn]%NoDup_cons)%NoDup_app Hs Hl. rewrite <- (size_list_to_set (C := gset string) l2) by done.
  pose proof (subseteq_size _ _ Hs). lia.
Qed.

(** A retirement keeps a match that has at most 63 newer ones, and raises its epoch when it is the match's own. *)
Lemma retire_remembers seen m e f k ek : fence_ok f -> remembers seen m e f -> (k <> m -> k ∈ seen) -> (size seen <= 63)%nat ->
  remembers seen m e (Retire f k ek) /\ (k = m -> remembers seen m ek (Retire f k ek)).
Proof.
  unfold remembers. intros Hf (l1 & l2 & e' & Ho & Hl & Hr & He) Hk Hn. pose proof Hf as [H1 H2 H3 H4]. destruct (decide (k = m)) as [->|Hkm].
  - assert (order_ (Retire f m ek) = order_ f) as Ho' by (unfold Retire; rewrite Hr; by destruct (sempty m)).
    pose proof (retired_same f m ek Hf) as Hs. rewrite Hr in Hs. unfold Retired in Hs. rewrite Hr in Hs. specialize (Hs ltac:(done)). cbn in Hs.
    split; [|intros _]; exists l1, l2, (Z.max e' ek); rewrite Ho', Hs; split_and!; (done || lia).
  - split; [|done]. destruct (retired_ f !! k) as [ek0|] eqn:Ek.
    + exists l1, l2, e'. unfold Retire. rewrite Ek. destruct (sempty k); cbn; rewrite ?lookup_insert_ne by done; split_and!; (done || lia).
    + unfold Retire. rewrite Ek. destruct (sempty k); [exists l1, l2, e'; split_and!; (done || lia)|]. rewrite forget_once by done.
      assert (list_to_set (l2 ++ [k]) ⊆ seen) as Hl' by (specialize (Hk Hkm); set_solver).
      assert (k ∉ order_ f) as Hko by (rewrite H1, Ek; by intros []). rewrite Ho in *.
      assert (NoDup (l1 ++ m :: l2 ++ [k])) as Hnd.
      { rewrite app_comm_cons, app_assoc. apply NoDup_app. split_and!; [done|set_solver|apply NoDup_singleton]. }
      pose proof (newer_bound _ _ _ _ Hnd Hl' Hn) as Hlen. rewrite length_app in Hlen. cbn [length] in Hlen. destruct l1 as [|a l1]; cbn [app length] in *.
      * destruct (Nat.eqb_spec (S (length l2)) 64); [lia|]. exists [], (l2 ++ [k]), e'. cbn. rewrite lookup_insert_ne by done. split_and!; (done || lia).
      * assert (a <> m) by (apply NoDup_cons in H2; set_solver). destruct (_ =? _)%nat; cbn.
        -- exists l1, (l2 ++ [k]), e'. rewrite lookup_delete_ne, lookup_insert_ne by done. rewrite <- app_assoc. split_and!; (done || lia).
        -- exists (a :: l1), (l2 ++ [k]), e'. rewrite lookup_insert_ne by done. cbn. rewrite <- app_assoc. split_and!; (done || lia).
Qed.

Definition retire_all (f : Fence) (ms : list (string * Z)) : Fence := foldl (fun f m => Retire f m.1 m.2) f ms.

Lemma retire_all_ok ms : forall f, fence_ok f -> fence_ok (retire_all f ms).
Proof. induction ms as [|x ms IH]; intros f Hf; cbn; [done|]. by apply IH, retire_ok. Qed.
Lemma retire_all_app f a b : retire_all f (a ++ b) = retire_all (retire_all f a) b.
Proof. apply foldl_app. Qed.
Lemma retire_all_remembers seen m ms : forall e f, fence_ok f -> remembers seen m e f -> others m ms ⊆ seen -> (size seen <= 63)%nat ->
  remembers seen m e (retire_all f ms) /\ forall e', (m, e') ∈ ms -> remembers seen m e' (retire_all f ms).
Proof.
  unfold others. induction ms as [|[k ek] ms IH]; intros e f Hf Hr Hs Hn; cbn in *; [split; [done|set_solver]|].
  destruct (retire_remembers seen m e f k ek Hf Hr) as [H1 H2]; [set_solver|done|].
  destruct (IH e (Retire f k ek) (retire_ok _ _ _ Hf) H1) as [H3 H4]; [set_solver|done|]. split; [done|].
  intros e' [[= <- ->]|Hin]%elem_of_cons; [|by apply H4]. refine (proj1 (IH ek (Retire f m ek) (retire_ok _ _ _ Hf) (H2 eq_refl) _ Hn)). set_solver.
Qed.

(** Claim C22.  The fence takes a match in when the match is retired and the fence does not hold it; from that retirement on, as long as at most 63 different other matches have been retired since, no message of an epoch of the match that has been retired since, or of an earlier one, takes effect: an assignment with that epoch is refused as stale while the server is idle, one with a lower epoch always, and an update or an unassign of it is stale too, unless the match is assigned again.  A match that is retired again while the fence holds it keeps its place, so the other matches are counted from the first of its retirements, not from the last. *)
Theorem fence_refuses h1 m e0 h2 e cur e' localMatchActive : m <> EmptyString -> retired_ (retire_all NewFence h1) !! m = None ->
  (size (others m h2) <= 63)%nat -> (m, e) ∈ (m, e0) :: h2 -> e' <= e ->
  let f := retire_all NewFence (h1 ++ (m, e0) :: h2) in
  (e' < e \/ active cur = false -> CheckAssign f cur m e' localMatchActive = StaleEpoch) /\
  (active cur = false \/ match_id cur <> m -> 0 < e' -> CheckScoped f cur m e' = StaleEpoch).
Proof.
  intros Hm Hnew Hms Hin He f. pose proof (retire_all_ok h1 _ fence_new) as Hok. destruct (retire_new _ m e0 Hok Hm Hnew) as [Hr [l Hl]].
  assert (remembers (others m h2) m e0 (Retire (retire_all NewFence h1) m e0)) as Hrem by (exists l, [], e0; split_and!; (done || set_solver)).
  destruct (retire_all_remembers _ m h2 e0 _ (retire_ok _ m e0 Hok) Hrem) as [H1 H2]; [done..|].
  assert (remembers (others m h2) m e f) as (l1 & l2 & ef & _ & _ & Hf & Hle).
  { unfold f. rewrite retire_all_app. apply elem_of_cons in Hin as [[= ->]|Hin]; [exact H1|exact (H2 _ Hin)]. }
  assert (Retired f m = ef) as Hret by (unfold Retired; by rewrite Hf). split.
  - intros Hc. unfold CheckAssign. case_if; [done|]. rewrite Hret. destruct (Z.ltb_spec e' ef); [done|]. assert (e' = ef) as -> by lia.
    destruct Hc as [?| ->]; [lia|]. by rewrite Z.eqb_refl.
  - intros Hc H0. unfold CheckScoped. rewrite Hret. destruct m as [|c m]; [done|]. replace (negb (active cur) || negb (match_id cur =s String c m)) with true.
    + replace (0 <? e') with true by (symmetry; apply Z.ltb_lt; lia). by replace (e' <=? ef) with true by (symmetry; apply Z.leb_le; lia).
    + symmetry. apply orb_true_iff. destruct Hc as [->|Hc]; [by left|right]. destruct (String.eqb_spec (match_id cur) (String c m)); done.
Qed.

(** ** What may run over [exec] *)

(** A word at the start of a text, whole: the text ends there, or a blank or a quote follows. *)
Definition first_is (w l : string) : Prop := l = w \/ exists c r, l = (w +s+ String c r) /\ skip_char c = true.
(** A command of the fleet link: behind blanks and quotes, in any case, [fleet], or [ru] with [fleet] somewhere after it, or anything that begins with [ru_fleet]. *)
Definition link_text (p : string) : Prop :=
  exists w l, lower p = (w +s+ l) /\ sforall skip_char w = true /\
    (first_is "fleet" l \/ (first_is "ru" l /\ exists x y, l = (x +s+ "fleet" +s+ y)) \/ exists y, l = ("ru_fleet" +s+ y)).

(** A text for the console that keeps to itself: one line of 1 to 512 bytes, in which no command, between the semicolons, is one of the link's. *)
Record exec_text (command : string) : Prop := {
  x_some : command <> EmptyString;
  x_short : slen command <= 512;
  x_line : forall a c b, command = (a +s+ String c b) -> c <> newline /\ c <> creturn /\ c <> nul;
  x_parts : forall p, Ess.command_of command p -> ~ link_text p;
}.

Lemma startsWord_first w l : first_is w l -> startsWord w l = true.
Proof.
  unfold startsWord. intros [->|(c & r & -> & Hc)].
  - pose proof (starts_with_refl w EmptyString) as Hs. rewrite app_nil_s in Hs. rewrite Hs. cbn.
    pose proof (sdrop_app w EmptyString) as Hd. rewrite app_nil_s in Hd. by rewrite Hd.
  - by rewrite starts_with_refl, sdrop_app.
Qed.
Lemma contains_within p x y : contains p (x +s+ p +s+ y) = true.
Proof.
  unfold contains. induction x as [|c x IH].
  - cbn [String.append]. pose proof (starts_with_refl p y) as H. destruct (p +s+ y); unfold find; by rewrite H.
  - rewrite app_cons_s, find_skip. destruct (starts_with _ _); [done|]. by destruct (find p _).
Qed.
Lemma link_text_found p : link_text p -> link_command p = true.
Proof.
  intros (w & l & Hl & Hw & H). unfold link_command. rewrite Hl, Ess.drop_while_app by done. rewrite drop_while_id.
  - destruct H as [H|[[H (x & y & ->)]|(y & ->)]]; rewrite !orb_true_iff.
    + left. left. by apply startsWord_first.
    + left. right. by rewrite (startsWord_first _ _ H), contains_within.
    + right. apply starts_with_refl.
  - by destruct H as [[->|(? & ? & -> & _)]|[[[->|(? & ? & -> & _)] _]|(y & ->)]].
Qed.
Lemma ValidateExec_sound command : ValidateExec command = None -> exec_text command.
Proof.
  unfold ValidateExec. destruct (sempty command) eqn:E1; [done|]. destruct (Z.ltb_spec 512 (slen command)); [done|].
  destruct (sforall _ command) eqn:E2; [cbn [negb]|done]. destruct (existsb _ _) eqn:E3; [done|]. intros _. split.
  - by intros ->.
  - lia.
  - intros a c b ->. rewrite sforall_app in E2. cbn [sforall] in E2. apply andb_prop in E2 as [_ E2]. apply andb_prop in E2 as [E2 _].
    split_and!; by intros ->.
  - intros p Hp Hlink%link_text_found. apply not_true_iff_false in E3. apply E3, existsb_exists. exists p. split; [|done].
    by apply list_elem_of_In, Ess.command_cut.
Qed.

(** ** A reload of the plugin *)

Lemma FenceToJson_items f : Items (FenceToJson f) = fence_entry f <$> order_ f.
Proof. done. Qed.

(** Reading back the entries of a fence in order: what was read plus the rest is the fence. *)
Lemma read_entries f o2 : forall o1 g, order_ f = o1 ++ o2 -> fence_ok f -> (forall k, retired_ g !! k = if decide (k ∈ o1) then retired_ f !! k else None) -> order_ g = o1 ->
  foldl read_entry (Some g) (fence_entry f <$> o2) = Some f.
Proof.
  induction o2 as [|m o2 IH]; intros o1 g Ho Hf Hg Hog; cbn [fmap list_fmap foldl].
  - rewrite app_nil_r in Ho. f_equal. destruct f as [rf fo], g as [rg og]. cbn in *. subst. f_equal. apply map_eq. intros k. rewrite Hg. case_decide as Hd; [done|].
    destruct Hf as [H1 _ _ _]. cbn in H1. rewrite H1 in Hd. destruct (rf !! k); [exfalso; eauto|done].
  - pose proof Hf as [H1 H2 H3 H4]. assert (m ∈ order_ f) as Hm by (rewrite Ho; set_solver).
    assert (exists e, retired_ f !! m = Some e) as [e He] by (by apply H1 in Hm). assert (m <> EmptyString) as Hne by (intros ->; done).
    assert (m ∉ o1) as Hno by (rewrite Ho in H2; apply NoDup_app in H2 as (_ & H2 & _); intros Hin; apply (H2 _ Hin); set_solver).
    assert (retired_ g !! m = None) as Hgm by (rewrite Hg; by rewrite decide_False).
    assert (Retired f m = e) as Hret by (unfold Retired; by rewrite He).
    assert (read_entry (Some g) (fence_entry f m) = Some (Retire g m (Retired f m))) as -> by done. rewrite Hret.
    assert (length (o1 ++ [m]) <= 64)%nat as Hlen by (rewrite Ho, length_app in H3; rewrite length_app; cbn in *; lia).
    assert (Retire g m e = {| retired_ := <[m:=e]> (retired_ g); order_ := o1 ++ [m] |}) as Hstep.
    { unfold Retire. destruct m as [|c m']; [done|]. cbn [sempty]. rewrite Hgm, Hog. destruct o1 as [|a o1]; [done|]. cbn [app forget].
      destruct (Nat.ltb_spec 64 (length (a :: o1 ++ [String c m']))); [cbn in *; lia|done]. }
    rewrite Hstep. apply (IH (o1 ++ [m])); [by rewrite <- app_assoc|done| |done]. intros k. cbn [retired_].
    destruct (decide (k = m)) as [->|Hk]; [rewrite lookup_insert_eq, decide_True by set_solver; done|].
    rewrite lookup_insert_ne, Hg by done. destruct (decide (k ∈ o1)); [by rewrite decide_True by set_solver|by rewrite decide_False by set_solver].
Qed.

(** The fence written for a plugin reload is read back as it was: the same matches, in the same order, with the same epochs. *)
Theorem fence_reload ms : let f := retire_all NewFence ms in FenceFromJson (FenceToJson f) = Some f.
Proof.
  intros f. unfold FenceFromJson. rewrite FenceToJson_items. apply (read_entries f (order_ f) [] NewFence); [done|apply retire_all_ok, fence_new| |done].
  intros k. cbn. rewrite lookup_empty. by rewrite decide_False by set_solver.
Qed.

(** ** Base64 *)

Lemma index_of_get s : forall (i : nat) c k, String.get i s = Some c -> (forall j, (j < i)%nat -> String.get j s <> Some c) -> index_of c s k = Some (k + Z.of_nat i).
Proof.
  induction s as [|d s IH]; intros i c k Hi Hj; [by destruct i|]. cbn. destruct i as [|i].
  - injection Hi as ->. rewrite Ascii.eqb_refl. f_equal. lia.
  - destruct (Ascii.eqb_spec c d) as [->|]; [exfalso; by apply (Hj O); [lia|]|]. cbn in Hi. rewrite (IH i); [f_equal; lia|done|].
    intros j Hlt. apply (Hj (S j)). lia.
Qed.

(** Every one of the 64 characters is found where it is, and is neither a line end nor the padding. *)
Definition b64_fine (v : Z) : bool :=
  match index_of (b64_char v) kB64 0 with Some i => i =? v | None => false end &&
  negb (Ascii.eqb (b64_char v) newline || Ascii.eqb (b64_char v) creturn) && negb (Ascii.eqb (b64_char v) equals_sign).
Lemma b64_all : forallb b64_fine (Z.of_nat <$> seq 0 64) = true.
Proof. vm_compute. reflexivity. Qed.
Lemma b64_one v : 0 <= v < 64 -> b64_fine v = true.
Proof.
  intros Hv. pose proof b64_all as H. rewrite forallb_forall in H. apply H. apply in_map_iff. exists (Z.to_nat v). split; [lia|]. apply in_seq. lia.
Qed.

Lemma lor_low x y n : 0 <= n -> 0 <= y < 2 ^ n -> Z.lor (Z.shiftl x n) y = x * 2 ^ n + y.
Proof.
  intros Hn Hy. pose proof (Z.add_lor_land (Z.shiftl x n) y) as H. assert (Z.land (Z.shiftl x n) y = 0) as E; [|rewrite E, Z.shiftl_mul_pow2 in * by lia; lia].
  apply Z.bits_inj'. intros k Hk. rewrite Z.bits_0, Z.land_spec. destruct (Z.ltb_spec k n); [by rewrite Z.shiftl_spec_low by lia|].
  destruct (Z.eq_dec y 0) as [->|]; [by rewrite Z.bits_0, andb_false_r|]. rewrite (Z.bits_above_log2 y); [by rewrite andb_false_r|lia|].
  apply Z.lt_le_trans with n; [apply Z.log2_lt_pow2; lia|done].
Qed.
Lemma lor_six v i : 0 <= i < 64 -> Z.lor (Z.shiftl v 6) i = v * 64 + i.
Proof. apply (lor_low v i 6). done. Qed.

(** One character of the alphabet is read. *)
Lemma decode_one i r val bits out : 0 <= i < 64 ->
  decode_loop (String (b64_char i) r) val bits 0 out =
  let v := val * 64 + i in
  if 0 <=? bits + 6 then decode_loop r (v mod 65536) (bits + 6 - 8) 0 (out +s+ str1 (chr ((v / 2 ^ (bits + 6)) mod 256)))
  else decode_loop r (v mod 65536) (bits + 6) 0 out.
Proof.
  intros Hi. pose proof (b64_one i Hi) as Hf. unfold b64_fine in Hf. split_bools. cbn [decode_loop].
  destruct (index_of (b64_char i) kB64 0) as [j|] eqn:E; [|done]. apply Z.eqb_eq in H. subst j.
  rewrite H1, H2, H0, lor_six by done. change (0 =? 0) with true. cbn [negb orb].
  change 65535 with (Z.ones 16). change 255 with (Z.ones 8). rewrite !Z.land_ones by lia. cbn zeta.
  destruct (Z.leb_spec 0 (bits + 6)); [by rewrite Z.shiftr_div_pow2 by lia|done].
Qed.

Lemma octets a b c : 0 <= a < 256 -> 0 <= b < 256 -> 0 <= c < 256 -> Z.lor (Z.lor (Z.shiftl a 16) (Z.shiftl b 8)) c = a * 65536 + b * 256 + c.
Proof.
  intros Ha Hb Hc. rewrite <- Z.lor_assoc, (lor_low b c 8), (lor_low a _ 16) by lia. lia.
Qed.

(** [s] decodes to [t] behind whole groups, whatever bits are left over. *)
Definition decodes (s t : string) : Prop := forall val out, 0 <= val < 65536 -> decode_loop s val (-8) 0 out = Some (out +s+ t).

Lemma sextets v : 0 <= v < 2 ^ 24 ->
  Z.land (Z.shiftr v 18) 63 = v / 262144 /\ Z.land (Z.shiftr v 12) 63 = (v / 4096) mod 64 /\ Z.land (Z.shiftr v 6) 63 = (v / 64) mod 64 /\ Z.land v 63 = v mod 64.
Proof.
  intros Hv. change 63 with (Z.ones 6). rewrite !Z.land_ones, !Z.shiftr_div_pow2 by lia. change (2 ^ 6) with 64. change (2 ^ 12) with 4096. change (2 ^ 18) with 262144.
  split_and!; [|done..]. apply Z.mod_small. split; [apply Z.div_pos; lia|]. apply Z.div_lt_upper_bound; lia.
Qed.

(** Sixteen bits of a sum keep its lowest six. *)
Lemma keep_six x i : 0 <= i < 64 -> exists q, (x * 64 + i) mod 65536 = q * 64 + i /\ 0 <= q.
Proof. intros Hi. exists (x mod 1024). pose proof (Z.mod_pos_bound x 1024). split; [|lia]. Z.to_euclidean_division_equations. lia. Qed.

Lemma byte1 q a w : 0 <= w < 65536 -> 0 <= a < 256 -> 0 <= q ->
  (((q * 64 + (a * 65536 + w) / 262144) * 64 + ((a * 65536 + w) / 4096) mod 64) / 2 ^ 4) mod 256 = a.
Proof. intros Hw Ha Hq. change (2 ^ 4) with 16. Z.to_euclidean_division_equations. lia. Qed.
Lemma byte2 q a b c : 0 <= b < 256 -> 0 <= c < 256 -> 0 <= a < 256 -> 0 <= q ->
  (((q * 64 + ((a * 65536 + b * 256 + c) / 4096) mod 64) * 64 + ((a * 65536 + b * 256 + c) / 64) mod 64) / 2 ^ 2) mod 256 = b.
Proof. intros Hb Hc Ha Hq. change (2 ^ 2) with 4. Z.to_euclidean_division_equations. lia. Qed.
Lemma byte3 q w c : 0 <= c < 256 -> 0 <= w -> 0 <= q ->
  (((q * 64 + ((w * 256 + c) / 64) mod 64) * 64 + (w * 256 + c) mod 64) / 2 ^ 0) mod 256 = c.
Proof. intros Hc Hw Hq. change (2 ^ 0) with 1. Z.to_euclidean_division_equations. lia. Qed.

(** The four characters of a group, one after the other. *)
Lemma decode_1st i r v out : 0 <= i < 64 -> decode_loop (String (b64_char i) r) v (-8) 0 out = decode_loop r ((v * 64 + i) mod 65536) (-2) 0 out.
Proof. intros Hi. by rewrite decode_one. Qed.
Lemma decode_2nd i r v out : 0 <= i < 64 ->
  decode_loop (String (b64_char i) r) v (-2) 0 out = decode_loop r ((v * 64 + i) mod 65536) (-4) 0 (out +s+ str1 (chr (((v * 64 + i) / 2 ^ 4) mod 256))).
Proof. intros Hi. by rewrite decode_one. Qed.
Lemma decode_3rd i r v out : 0 <= i < 64 ->
  decode_loop (String (b64_char i) r) v (-4) 0 out = decode_loop r ((v * 64 + i) mod 65536) (-6) 0 (out +s+ str1 (chr (((v * 64 + i) / 2 ^ 2) mod 256))).
Proof. intros Hi. by rewrite decode_one. Qed.
Lemma decode_4th i r v out : 0 <= i < 64 ->
  decode_loop (String (b64_char i) r) v (-6) 0 out = decode_loop r ((v * 64 + i) mod 65536) (-8) 0 (out +s+ str1 (chr (((v * 64 + i) / 2 ^ 0) mod 256))).
Proof. intros Hi. by rewrite decode_one. Qed.
Lemma decode_pad1 v out : decode_loop (str1 equals_sign) v (-6) 0 out = Some out.
Proof. done. Qed.
Lemma decode_pad2 v out : decode_loop (String equals_sign (str1 equals_sign)) v (-4) 0 out = Some out.
Proof. done. Qed.

Lemma decode_two a w r val out : 0 <= w < 65536 -> 0 <= a < 256 -> let v := a * 65536 + w in
  exists x, decode_loop (String (b64_char (v / 262144)) (String (b64_char ((v / 4096) mod 64)) r)) val (-8) 0 out =
            decode_loop r ((x * 64 + (v / 4096) mod 64) mod 65536) (-4) 0 (out +s+ str1 (chr a)).
Proof.
  intros Hw Ha v. assert (0 <= v / 262144 < 64) as H1 by (subst v; Z.to_euclidean_division_equations; lia).
  pose proof (Z.mod_pos_bound (v / 4096) 64 eq_refl) as H2. rewrite decode_1st, decode_2nd by done.
  destruct (keep_six val _ H1) as (q & -> & Hq). exists (q * 64 + v / 262144). unfold v at 3 4. by rewrite byte1.
Qed.

Lemma decode_three a b c r val out : 0 <= c < 256 -> 0 <= b < 256 -> 0 <= a < 256 -> let v := a * 65536 + b * 256 + c in
  exists x, decode_loop (String (b64_char (v / 262144)) (String (b64_char ((v / 4096) mod 64)) (String (b64_char ((v / 64) mod 64)) r))) val (-8) 0 out =
            decode_loop r ((x * 64 + (v / 64) mod 64) mod 65536) (-6) 0 ((out +s+ str1 (chr a)) +s+ str1 (chr b)).
Proof.
  intros Hc Hb Ha v. replace v with (a * 65536 + (b * 256 + c)) by (subst v; lia).
  destruct (decode_two a (b * 256 + c) (String (b64_char ((v / 64) mod 64)) r) val out) as (x & Hx); [lia|done|].
  replace (a * 65536 + (b * 256 + c)) with v in * by (subst v; lia). rewrite Hx.
  pose proof (Z.mod_pos_bound (v / 4096) 64 eq_refl) as H2. pose proof (Z.mod_pos_bound (v / 64) 64 eq_refl) as H3. rewrite decode_3rd by done.
  destruct (keep_six x _ H2) as (q & -> & Hq). exists (q * 64 + (v / 4096) mod 64). unfold v at 3 4. by rewrite byte2.
Qed.

Lemma decode_four a b c r val out : 0 <= c < 256 -> 0 <= b < 256 -> 0 <= a < 256 -> let v := a * 65536 + b * 256 + c in
  exists x, decode_loop (String (b64_char (v / 262144)) (String (b64_char ((v / 4096) mod 64)) (String (b64_char ((v / 64) mod 64)) (String (b64_char (v mod 64)) r)))) val (-8) 0 out =
            decode_loop r x (-8) 0 (((out +s+ str1 (chr a)) +s+ str1 (chr b)) +s+ str1 (chr c)).
Proof.
  intros Hc Hb Ha v. destruct (decode_three a b c (String (b64_char (v mod 64)) r) val out Hc Hb Ha) as (x & Hx). fold v in Hx. rewrite Hx.
  pose proof (Z.mod_pos_bound (v / 64) 64 eq_refl) as H3. pose proof (Z.mod_pos_bound v 64 eq_refl) as H4. rewrite decode_4th by done.
  destruct (keep_six x _ H3) as (q & -> & Hq). eexists. f_equal. f_equal. f_equal. f_equal. subst v.
  replace (a * 65536 + b * 256 + c) with ((a * 256 + b) * 256 + c) by lia. apply byte3; lia.
Qed.

Lemma encode3 a b c r : exists v, v = code a * 65536 + code b * 256 + code c /\ Base64Encode (String a (String b (String c r))) =
  String (b64_char (v / 262144)) (String (b64_char ((v / 4096) mod 64)) (String (b64_char ((v / 64) mod 64)) (String (b64_char (v mod 64)) (Base64Encode r)))).
Proof.
  eexists. split; [done|]. pose proof (code_bounds a). pose proof (code_bounds b). pose proof (code_bounds c). cbn [Base64Encode]. rewrite octets by done.
  destruct (sextets (code a * 65536 + code b * 256 + code c)) as (-> & -> & -> & ->); [lia|done].
Qed.
Lemma encode2 a b : exists v, v = code a * 65536 + code b * 256 + 0 /\ Base64Encode (String a (String b EmptyString)) =
  String (b64_char (v / 262144)) (String (b64_char ((v / 4096) mod 64)) (String (b64_char ((v / 64) mod 64)) (str1 equals_sign))).
Proof.
  eexists. split; [done|]. pose proof (code_bounds a). pose proof (code_bounds b). cbn [Base64Encode].
  pose proof (octets (code a) (code b) 0) as Ho. rewrite Z.lor_0_r in Ho. rewrite Ho by lia.
  destruct (sextets (code a * 65536 + code b * 256 + 0)) as (-> & -> & -> & _); [lia|done].
Qed.
Lemma encode1 a : exists v, v = code a * 65536 + 0 /\ Base64Encode (String a EmptyString) =
  String (b64_char (v / 262144)) (String (b64_char ((v / 4096) mod 64)) (String equals_sign (str1 equals_sign))).
Proof.
  eexists. split; [done|]. pose proof (code_bounds a). cbn [Base64Encode]. rewrite Z.shiftl_mul_pow2 by lia. change (2 ^ 16) with 65536. rewrite Z.add_0_r.
  destruct (sextets (code a * 65536)) as (-> & -> & _ & _); [lia|done].
Qed.

Lemma decode_encode n : forall s val out, (String.length s <= n)%nat -> decode_loop (Base64Encode s) val (-8) 0 out = Some (out +s+ s).
Proof.
  induction n as [|n IH]; intros s val out Hn.
  - destruct s; [|cbn in Hn; lia]. cbn. by rewrite app_nil_s.
  - destruct s as [|a [|b [|c r]]].
    + cbn. by rewrite app_nil_s.
    + destruct (encode1 a) as (v & -> & ->). destruct (decode_two (code a) 0 (String equals_sign (str1 equals_sign)) val out) as (x & ->); [lia|apply code_bounds|].
      rewrite decode_pad2, chr_code. done.
    + destruct (encode2 a b) as (v & -> & ->). destruct (decode_three (code a) (code b) 0 (str1 equals_sign) val out) as (x & ->); [lia|apply code_bounds..|].
      rewrite decode_pad1, !chr_code, app_assoc_s. done.
    + destruct (encode3 a b c r) as (v & -> & ->). destruct (decode_four (code a) (code b) (code c) (Base64Encode r) val out) as (x & ->); [apply code_bounds..|].
      rewrite IH by (cbn in Hn; lia). rewrite !chr_code, !app_assoc_s. done.
Qed.

Theorem base64_roundtrip s : Base64Decode (Base64Encode s) = Some s.
Proof. unfold Base64Decode. by rewrite (decode_encode (String.length s)). Qed.

(** ** Updates of the roster *)

Lemma Find_SetKey j k v k' : Find (SetKey j k v) k' = if k =s k' then Some v else Find j k'.
Proof. unfold Find, SetKey. cbn [Members]. apply find_set_member. Qed.
Lemma Str_SetKey j k v k' d : k <> k' -> Str (SetKey j k v) k' d = Str j k' d.
Proof. intros H. unfold Str. rewrite Find_SetKey. by destruct (String.eqb_spec k k'). Qed.
Lemma Obj_SetKey j k v k' : Obj (SetKey j k v) k' = if k =s k' then match v with JObject _ => Some v | _ => None end else Obj j k'.
Proof. unfold Obj. rewrite Find_SetKey. by destruct (k =s k'). Qed.
Lemma Arr_SetKey j k v k' : Arr (SetKey j k v) k' = if k =s k' then match v with JArray a => Some a | _ => None end else Arr j k'.
Proof. unfold Arr. rewrite Find_SetKey. by destruct (k =s k'). Qed.

(** The role of a player in a team's list, and whether they are listed as a spectator. *)
Definition roster_role (c : Json) (team sid : string) : option string :=
  t ← Obj c team; ps ← Arr t "players"; p ← player_of sid ps; Some (Str p "role" "player").
Definition is_spectator (c : Json) (sid : string) : bool := existsb (fun e => AsString e =s sid) (default [] (Arr c "spectators")).
Definition place (r1 r2 : option string) (spec : bool) : string :=
  match r1, r2 with
  | Some r, _ => if r =s "coach" then "spectator" else "team1"
  | None, Some r => if r =s "coach" then "spectator" else "team2"
  | None, None => if spec then "spectator" else EmptyString
  end.
Lemma TeamOf_place c s : TeamOf c s = place (roster_role c "team1" (to_string s)) (roster_role c "team2" (to_string s)) (is_spectator c (to_string s)).
Proof.
  unfold TeamOf, roster_role, is_spectator. destruct (Obj c "team1") as [t1|]; cbn; [destruct (Arr t1 "players") as [p1|]; cbn; [destruct (player_of _ p1); cbn; [done|]|]|];
    (destruct (Obj c "team2") as [t2|]; cbn; [destruct (Arr t2 "players") as [p2|]; cbn; [by destruct (player_of _ p2)|done]|done]).
Qed.

Lemma role_other c k v team sid : k <> team -> roster_role (SetKey c k v) team sid = roster_role c team sid.
Proof. intros H. unfold roster_role. rewrite Obj_SetKey. by destruct (String.eqb_spec k team). Qed.
Lemma spec_other c k v sid : k <> "spectators" -> is_spectator (SetKey c k v) sid = is_spectator c sid.
Proof. intros H. unfold is_spectator. rewrite Arr_SetKey. by destruct (String.eqb_spec k "spectators"). Qed.
Lemma role_here c team t ps k : roster_role (SetKey c team (SetKey t "players" (JArray ps))) team k = (fun p => Str p "role" "player") <$> player_of k ps.
Proof.
  unfold roster_role. rewrite Obj_SetKey, String.eqb_refl. pose proof (Arr_SetKey t "players" (JArray ps) "players") as Ha. cbn in Ha |- *. rewrite Ha. cbn.
  by destruct (player_of _ _).
Qed.

(** A player taken out of a list: they are not found, everyone else is as before. *)
Lemma player_without sid k ps : sempty k = false -> player_of k (without sid ps) = if k =s sid then None else player_of k ps.
Proof.
  intros Hk. unfold player_of, without. induction ps as [|p ps IH]; cbn; [by destruct (k =s sid)|].
  assert (match Find p "steamid64" with Some s => AsString s =s k | None => false end = (Str p "steamid64" EmptyString =s k)) as E.
  { unfold Str. destruct k; [done|]. by destruct (Find p "steamid64") as [[]|]. }
  destruct (String.eqb_spec k sid) as [->|Hne].
  - rewrite E. destruct (Str p "steamid64" EmptyString =s sid) eqn:Ep; cbn; [done|]. by rewrite Ep.
  - destruct (match Find p "steamid64" with Some s => AsString s =s sid | None => false end) eqn:Es; cbn.
    + rewrite IH. replace (Str p "steamid64" EmptyString =s k) with false; [done|]. rewrite <- E. destruct (Find p "steamid64") as [v|]; [|done].
      apply String.eqb_eq in Es. rewrite Es. symmetry. apply String.eqb_neq. congruence.
    + by destruct (Str p "steamid64" EmptyString =s k).
Qed.

Lemma remove_from_team_role sid x team k team' : sempty k = false ->
  roster_role (remove_from_team sid x team).1 team' k =
  if (team =s team') && (k =s sid) then None else roster_role x.1 team' k.
Proof.
  intros Hk. destruct x as [c found]. unfold remove_from_team. destruct (Obj c team) as [t|] eqn:Et.
  - destruct (Arr t "players") as [ps|] eqn:Ep.
    + cbn [fst]. destruct (String.eqb_spec team team') as [->|H]; [|by apply role_other].
      rewrite role_here, player_without by done. unfold roster_role. rewrite Et. cbn. rewrite Ep. cbn.
      destruct (k =s sid); [done|]. by destruct (player_of k ps).
    + cbn [fst]. destruct (String.eqb_spec team team') as [->|H]; [|done]. unfold roster_role. rewrite Et. cbn. rewrite Ep. by destruct (k =s sid).
  - cbn [fst]. destruct (String.eqb_spec team team') as [->|H]; [|done]. unfold roster_role. rewrite Et. by destruct (k =s sid).
Qed.
Lemma remove_from_team_spec sid x team k : team <> "spectators" -> is_spectator (remove_from_team sid x team).1 k = is_spectator x.1 k.
Proof. intros H. destruct x as [c f]. unfold remove_from_team. destruct (Obj c team); [|done]. destruct (Arr _ _); [|done]. by apply spec_other. Qed.

Lemma remove_place c sid k : sempty k = false ->
  let c' := (RemoveEverywhere c sid).1 in
  (forall team, Mi.one_of team ["team1"; "team2"] = true -> roster_role c' team k = if k =s sid then None else roster_role c team k) /\
  is_spectator c' k = negb (k =s sid) && is_spectator c k.
Proof.
  intros Hk. unfold RemoveEverywhere. cbn [foldl]. set (x := remove_from_team sid _ "team2"). destruct x as [c1 f1] eqn:Ex.
  assert (c1 = x.1) as -> by (by rewrite Ex). assert (forall team, Mi.one_of team ["team1"; "team2"] = true -> roster_role x.1 team k = if k =s sid then None else roster_role c team k) as Hr.
  { intros team Ht. subst x. rewrite !remove_from_team_role by done. cbn [fst]. unfold Mi.one_of in Ht. cbn in Ht.
    destruct (String.eqb_spec "team2" team) as [<-|]; [by destruct (k =s sid)|]. destruct (String.eqb_spec "team1" team) as [<-|]; [by destruct (k =s sid)|].
    destruct (String.eqb_spec team "team1"); [congruence|]. destruct (String.eqb_spec team "team2"); [congruence|]. done. }
  assert (is_spectator x.1 k = is_spectator c k) as Hs by (subst x; by rewrite !remove_from_team_spec). clearbody x. clear Ex.
  destruct (Arr x.1 "spectators") as [specs|] eqn:Ea; cbn [fst].
  - split; [intros team Ht; rewrite role_other by (intros <-; done); by apply Hr|]. unfold is_spectator at 1. rewrite Arr_SetKey. cbn.
    rewrite <- Hs. unfold is_spectator. rewrite Ea. cbn. clear. induction specs as [|e l IH]; cbn; [by rewrite andb_false_r|].
    destruct (AsString e =s sid) eqn:E; cbn; rewrite IH.
    + apply String.eqb_eq in E. rewrite E. destruct (String.eqb_spec k sid) as [->|Hn]; [done|]. by rewrite (proj2 (String.eqb_neq sid k)).
    + destruct (AsString e =s k) eqn:Ek; cbn; [|done]. apply String.eqb_eq in Ek. rewrite <- Ek, E. done.
  - split; [done|]. rewrite Hs. unfold is_spectator in *. rewrite Ea in Hs. rewrite <- Hs. cbn. by rewrite andb_false_r.
Qed.

Lemma player_of_app k a b : player_of k (a ++ b) = match player_of k a with Some p => Some p | None => player_of k b end.
Proof. unfold player_of. induction a as [|x a IH]; cbn; [done|]. by destruct (_ =s k). Qed.

(** One player more at the end of a team's list. *)
Lemma role_push c team p k : let t := default JNull (Find c team) in
  roster_role (SetKey c team (SetKey t "players" (Push (default (JArray []) (Find t "players")) p))) team k =
  match roster_role c team k with Some r => Some r | None => (fun p => Str p "role" "player") <$> player_of k [p] end.
Proof.
  intros t. unfold Push. rewrite role_here, player_of_app. unfold roster_role, Obj. destruct (Find c team) as [v|] eqn:Ev; subst t; unfold default, id; [|done].
  destruct v as [| | | | |o|]; try done. cbn [mbind option_bind]. unfold Arr. destruct (Find (JObject o) "players") as [[]|]; try done.
  cbn [Items mbind option_bind]. by destruct (player_of k arr).
Qed.
Lemma spec_push c sid k : is_spectator (SetKey c "spectators" (Push (default (JArray []) (Find c "spectators")) (JString sid))) k = is_spectator c k || (sid =s k).
Proof.
  unfold is_spectator at 1, Push. rewrite Arr_SetKey. cbn [String.eqb default]. cbn. rewrite existsb_app. cbn. rewrite orb_false_r. f_equal.
  unfold is_spectator, Arr. by destruct (Find c "spectators") as [[]|].
Qed.

(** Where an operation leaves the player with id [k] who was at [was]. *)
Definition moved (op : Json) (k was : string) : string :=
  let kind := Str op "op" EmptyString in
  if Str op "steamid64" EmptyString =s k then
    if kind =s "add_player" then
      if (Str op "team" EmptyString =s "spectator") || (Str op "role" "player" =s "coach") then "spectator" else Str op "team" EmptyString
    else if kind =s "remove_player" then EmptyString else was
  else was.

Lemma rbind_ok {E A B} (m : Res E A) (k : A -> Res E B) y : rbind m k = Some (inr y) -> exists a, m = Some (inr a) /\ k a = Some (inr y).
Proof. destruct m as [[e|a]|]; cbn; try done. eauto. Qed.
Lemma need_ok {E} b (e : E) u : need b e = Some (inr u) -> b = true.
Proof. by destruct b. Qed.
Lemma steam_of_ok op what sid : steam_of op what = Some (inr sid) -> Str op "steamid64" EmptyString = sid /\ sempty sid = false.
Proof.
  unfold steam_of, Str. destruct (Find op "steamid64") as [[]|]; try done. cbn [ValidSteam]. unfold IsDigits. destruct (sempty s) eqn:E; cbn; [done|].
  destruct (_ && _); [|done]. intros [= <-]. done.
Qed.
Lemma to_string_named k : sempty (to_string k) = false.
Proof. by destruct (to_string_no_nl k). Qed.

Lemma add_player_moves c op c' s : op_add_player c op = Some (inr c') -> Str op "op" EmptyString = "add_player" -> TeamOf c' s = moved op (to_string s) (TeamOf c s).
Proof.
  intros H Hk. unfold op_add_player in H. apply rbind_ok in H as (sid & [Hs Hne]%steam_of_ok & H). apply rbind_ok in H as ([] & Hr%need_ok & H).
  pose proof (remove_place c sid (to_string s) (to_string_named s)) as [Rr Rs]. set (c1 := (RemoveEverywhere c sid).1) in *.
  unfold moved. rewrite Hk, Hs. change ("add_player" =s "add_player") with true. cbv match. rewrite !TeamOf_place.
  pose proof (to_string_named s) as Hnamed. set (k := to_string s) in *. clearbody k. set (team := Str op "team" EmptyString) in *. set (role := Str op "role" "player") in *.
  destruct (String.eqb_spec team "spectator") as [Et|Et].
  - injection H as <-. rewrite !role_other, spec_push by done. rewrite !Rr, Rs by done.
    destruct (String.eqb_spec k sid) as [Ek|Hn]; [by rewrite Ek, String.eqb_refl|].
    rewrite (proj2 (String.eqb_neq sid k)) by done. cbn. by rewrite orb_false_r.
  - cbn [orb].
    destruct (Mi.one_of team ["team1"; "team2"]) eqn:Ho; [|done]. injection H as <-.
    set (p := JObject _). assert (player_of k [p] = if sid =s k then Some p else None) as Hp by (cbn; by destruct (sid =s k)).
    assert (Str p "role" "player" = role) as Hrole by done. rewrite spec_other by (unfold Mi.one_of in Ho; cbn in Ho; intros E; rewrite E in Ho; done).
    assert (forall x, x <> team -> roster_role (SetKey c1 team (SetKey (default JNull (Find c1 team)) "players" (Push (default (JArray []) (Find (default JNull (Find c1 team)) "players")) p))) x k = roster_role c1 x k)
      as Hx by (intros x Hxt; by apply role_other). pose proof (role_push c1 team p k) as Hpush. cbv zeta in Hpush. rewrite Hp in Hpush.
    unfold Mi.one_of in Ho. cbn in Ho. destruct (String.eqb_spec team "team1") as [E|E]; [|destruct (String.eqb_spec team "team2") as [E'|E']; [|done]].
    + rewrite E in *. rewrite Hpush, Hx, !Rr, Rs by done. destruct (String.eqb_spec k sid) as [Ek|Hn].
      * rewrite Ek, String.eqb_refl. cbn. by destruct (role =s "coach").
      * rewrite (proj2 (String.eqb_neq sid k)) by done. cbn. by destruct (roster_role c "team1" k).
    + rewrite E' in *. rewrite Hpush, Hx, !Rr, Rs by done. destruct (String.eqb_spec k sid) as [Ek|Hn].
      * rewrite Ek, String.eqb_refl. cbn. by destruct (role =s "coach").
      * rewrite (proj2 (String.eqb_neq sid k)) by done. cbn. destruct (roster_role c "team1" k); [done|]. by destruct (roster_role c "team2" k).
Qed.

Lemma remove_player_moves c op c' s : op_remove_player c op = Some (inr c') -> Str op "op" EmptyString = "remove_player" -> TeamOf c' s = moved op (to_string s) (TeamOf c s).
Proof.
  intros H Hk. unfold op_remove_player in H. apply rbind_ok in H as (sid & [Hs Hne]%steam_of_ok & H).
  pose proof (remove_place c sid (to_string s) (to_string_named s)) as [Rr Rs]. destruct (RemoveEverywhere c sid) as [c1 found]. cbn [fst] in *.
  destruct found; [|done]. injection H as <-. unfold moved. rewrite Hk, Hs, !TeamOf_place, !Rr, Rs by done.
  destruct (String.eqb_spec (to_string s) sid) as [E|E]; [by rewrite E, String.eqb_refl|]. rewrite (proj2 (String.eqb_neq sid (to_string s))) by done. done.
Qed.

(** The other operations write members that say nothing about who is where. *)
Lemma role_member c team k v sid x : k <> "players" ->
  roster_role (SetKey c team (SetKey (default JNull (Find c team)) k v)) x sid = roster_role c x sid.
Proof.
  intros Hk. unfold roster_role. rewrite Obj_SetKey. destruct (String.eqb_spec team x) as [<-|]; [|done]. cbn [mbind option_bind SetKey].
  fold (SetKey (default JNull (Find c team)) k v). rewrite Arr_SetKey. destruct (String.eqb_spec k "players"); [done|]. unfold Obj.
  destruct (Find c team) as [v0|] eqn:E; cbn; [|done]. by destruct v0.
Qed.

Lemma with_language_player sid l k ps : player_of k (with_language sid l <$> ps) = with_language sid l <$> player_of k ps.
Proof.
  assert (forall p d m, m <> "language" -> Str (with_language sid l p) m d = Str p m d) as H.
  { intros p d m Hm. unfold with_language. destruct (_ =s sid); [|done]. by apply Str_SetKey. }
  unfold player_of. induction ps as [|p ps IH]; cbn; [done|]. rewrite H by done. by destruct (_ =s k).
Qed.
Lemma role_language sid l c team x k : roster_role (team_language sid l c team) x k = roster_role c x k.
Proof.
  unfold team_language. destruct (Obj c team) as [t|] eqn:Et; [|done]. cbn [mbind option_bind]. destruct (Arr t "players") as [ps|] eqn:Ep; [|done]. cbn [mbind option_bind].
  destruct (String.eqb_spec team x) as [<-|Hn]; [|by apply role_other]. rewrite role_here, with_language_player. unfold roster_role. rewrite Et. cbn. rewrite Ep. cbn.
  destruct (player_of k ps) as [p|]; cbn; [|done]. f_equal. unfold with_language. destruct (_ =s sid); [|done]. by apply Str_SetKey.
Qed.
Lemma spec_language sid l c team k : team <> "spectators" -> is_spectator (team_language sid l c team) k = is_spectator c k.
Proof. intros H. unfold team_language. destruct (_ ≫= _) as [[t ps]|]; [|done]. by apply spec_other. Qed.

(** The members that decide where a player is. *)
Definition same_rosters (c c' : Json) : Prop :=
  forall k, roster_role c' "team1" k = roster_role c "team1" k /\ roster_role c' "team2" k = roster_role c "team2" k /\ is_spectator c' k = is_spectator c k.
Lemma same_TeamOf c c' s : same_rosters c c' -> TeamOf c' s = TeamOf c s.
Proof. intros H. rewrite !TeamOf_place. by destruct (H (to_string s)) as (-> & -> & ->). Qed.
Lemma same_other c k v : Mi.one_of k ["team1"; "team2"; "spectators"] = false -> same_rosters c (SetKey c k v).
Proof.
  unfold Mi.one_of. cbn. intros H x. destruct (String.eqb_spec k "team1"), (String.eqb_spec k "team2"), (String.eqb_spec k "spectators"); try done.
  by rewrite !role_other, spec_other.
Qed.

Lemma quiet_op server x op y : update_op server x op = Some (inr y) -> Mi.one_of (Str op "op" EmptyString) ["add_player"; "remove_player"] = false -> same_rosters x.1 y.1.
Proof.
  destruct x as [c pw]. unfold update_op, Mi.one_of. cbn [existsb]. destruct (_ =s "add_player"); [done|]. destruct (_ =s "remove_player"); [done|]. intros H _.
  destruct (_ =s "rename_team"); [|destruct (_ =s "set_password"); [|destruct (_ =s "set_language"); [|destruct (_ =s "set_rules"); [|done]]]];
    apply rbind_ok in H as (c' & H & [= <-]); cbn [fst].
  - unfold op_rename_team in H. apply rbind_ok in H as ([] & Ht%need_ok & H). apply rbind_ok in H as ([] & _ & [= <-]). intros k. rewrite !role_member by done.
    rewrite spec_other; [done|]. intros E. by rewrite E in Ht.
  - unfold op_set_password in H. destruct (Find op "password") as [[]|]; try done. destruct (ValidPassword _); [|done]. injection H as <-. by apply same_other.
  - unfold op_set_language in H. apply rbind_ok in H as (sid & _ & H). apply rbind_ok in H as ([] & _ & [= <-]). intros k. cbn [foldl].
    by rewrite !role_language, !spec_language.
  - unfold op_set_rules in H. destruct (Obj op "rules") as [r|]; [|done]. apply rbind_ok in H as ([] & _ & [= <-]). by apply same_other.
Qed.

Lemma update_moves server c pw op y s : update_op server (c, pw) op = Some (inr y) -> TeamOf y.1 s = moved op (to_string s) (TeamOf c s).
Proof.
  intros H. destruct (Mi.one_of (Str op "op" EmptyString) ["add_player"; "remove_player"]) eqn:Ho.
  - unfold update_op in H. unfold Mi.one_of in Ho. cbn [existsb] in Ho. destruct (String.eqb_spec (Str op "op" EmptyString) "add_player") as [E|E].
    + apply rbind_ok in H as (c' & H & [= <-]). by apply add_player_moves.
    + destruct (String.eqb_spec (Str op "op" EmptyString) "remove_player") as [E'|E']; [|done]. apply rbind_ok in H as (c' & H & [= <-]). by apply remove_player_moves.
  - rewrite (same_TeamOf c y.1) by (by apply (quiet_op server (c, pw) op)). unfold moved. unfold Mi.one_of in Ho. cbn [existsb] in Ho.
    destruct (_ =s "add_player"); [done|]. destruct (_ =s "remove_player"); [done|]. by destruct (_ =s to_string s).
Qed.

Lemma update_all_moves server ops s : forall x y, update_ops server x ops = Some (inr y) -> TeamOf y.1 s = foldl (fun was op => moved op (to_string s) was) (TeamOf x.1 s) ops.
Proof.
  induction ops as [|op ops IH]; intros [c pw] y H; cbn [update_ops] in H; [by injection H as <-|]. apply rbind_ok in H as (x & Hop & H). cbn [foldl fst].
  rewrite (IH _ _ H). by rewrite (update_moves server c pw op x s Hop).
Qed.

(** Claim C21.  After a [match.update] that is applied, every player is where its operations put them, in order: an added player on the team they were added to, or with the spectators when they were added there or as a coach, wherever they were before; a removed player nowhere; and everyone no operation names where they were. *)
Theorem roster_update server config ops config' pw s : ApplyUpdateOps server config ops = Some (inr (config', pw)) ->
  TeamOf config' s = foldl (fun was op => moved op (to_string s) was) (TeamOf config s) (Items ops).
Proof.
  unfold ApplyUpdateOps. destruct (IsObject config); [|done]. cbn [negb]. destruct ops as [| | | | | |[|op l]]; try done. intros H.
  apply (update_all_moves server (op :: l) s (config, false) (config', pw)). exact H.
Qed.

(** ** The cvars of the match config *)

(** A text that cannot end a console command or its quotes, for a setting the platform may set. *)
Definition engine_setting (kv : string * Json) : Prop :=
  exists v, kv.2 = JString v /\ sforall cvar_value_char v = true /\ engine_cvar kv.1 = true /\ Mi.one_of kv.1 ["sv_password"; "rcon_password"; "sv_cheats"] = false.

Lemma to_string_value n : sforall cvar_value_char (to_string n) = true.
Proof.
  assert (forall k, 0 <= k -> sforall cvar_value_char (to_string k) = true) as Hp.
  { intros k Hk. destruct (to_string_digits k Hk) as [Hd _]. revert Hd. apply sforall_impl. intros c. unfold isdigit, cvar_value_char. rewrite !ascii_eqb_code. code_consts. lia. }
  destruct (Z.ltb_spec n 0); [|by apply Hp]. specialize (Hp (- n) ltac:(lia)). unfold to_string in *.
  destruct (Z.ltb_spec n 0), (Z.ltb_spec (- n) 0); try lia. cbn [sforall]. by rewrite Hp.
Qed.

Lemma set_settings_safe k v o : engine_setting (k, v) -> Forall engine_setting o -> Forall engine_setting (set_member k v o).
Proof.
  intros Hv. induction 1 as [|[k2 v2] o H Ho IH]; cbn; [by repeat constructor|]. destruct (String.eqb_spec k2 k) as [->|]; by constructor.
Qed.
Lemma sets_safe l : forall j, Forall engine_setting l -> Forall engine_setting (Members j) -> Forall engine_setting (Members (sets l j)).
Proof. induction l as [|[k v] l IH]; intros j Hl Hj; [done|]. apply Forall_cons in Hl as [Hv Hl]. cbn. apply IH; [done|]. by apply set_settings_safe. Qed.

Lemma own_setting k n : engine_cvar k = true -> Mi.one_of k ["sv_password"; "rcon_password"; "sv_cheats"] = false -> engine_setting (k, JString (to_string n)).
Proof. intros H1 H2. exists (to_string n). split_and!; [done|apply to_string_value|done..]. Qed.
Lemma own_cvars_safe r rounds otHalf otOn l : own_cvars r rounds otHalf otOn = Some l -> Forall engine_setting l.
Proof.
  unfold own_cvars. intros H. apply bind_Some in H as (cnt & Hc & H). apply bind_Some in H as (secs & Hs & H). case_bool_decide; [|done]. injection H as <-.
  assert (Forall engine_setting cnt) as Hcnt.
  { destruct (Obj r "pause") as [p|]; [|by injection Hc as <-]. destruct (has p _); [|by injection Hc as <-]. apply bind_Some in Hc as (n & _ & [= <-]). repeat constructor. by apply own_setting. }
  assert (Forall engine_setting secs) as Hsecs.
  { destruct (Obj r "pause") as [p|]; [|by injection Hs as <-]. destruct (has p "tactical_seconds"); [|by injection Hs as <-]. apply bind_Some in Hs as (n & _ & [= <-]). repeat constructor. by apply own_setting. }
  repeat (constructor; [first [by apply own_setting | by exists (if otOn then "1" else "0"); destruct otOn]|]). by apply Forall_app.
Qed.

Lemma allowed_setting k v : cvar_allowed k v = true -> engine_setting (k, JString v).
Proof. unfold cvar_allowed. intros H. split_bools. exists v. split_and!; try done. Qed.

(** What is refused of the config's own list, in order. *)
Definition refused (l : list (string * Json)) : list string := fst <$> List.filter (fun kv => negb (cvar_allowed kv.1 (cvar_text kv.2))) l.
Lemma add_cvars l : forall c d, Forall engine_setting (Members c) ->
  Forall engine_setting (Members (foldl add_cvar (c, d) l).1) /\ (foldl add_cvar (c, d) l).2 = d ++ refused l.
Proof.
  induction l as [|[k v] l IH]; intros c d Hc; cbn [foldl]; [by rewrite app_nil_r|]. unfold add_cvar at 2 4. cbn [fst snd]. unfold refused. cbn [List.filter fst snd].
  destruct (cvar_allowed k (cvar_text v)) eqn:E; cbn [negb].
  - apply IH. cbn. apply set_settings_safe; [by apply allowed_setting|done].
  - destruct (IH c (d ++ [k]) Hc) as [H1 H2]. split; [done|]. rewrite H2. unfold refused. by rewrite <- app_assoc.
Qed.

Lemma Find_sets_last l k v j : Find (sets (l ++ [(k, v)]) j) k = Some v.
Proof. unfold sets. rewrite foldl_app. cbn [foldl fst snd]. by rewrite Find_SetKey, String.eqb_refl. Qed.

(** Claim C23.  The match config made of an assignment carries engine cvars only: every one of its cvars is named [mp_*], [sv_*], [tv_*] or [bot_*], is not the server's password, the console password or [sv_cheats], and has a text that can neither end the console command nor its quotes; the cvars of the assignment that are not allowed are exactly those reported as dropped. *)
Theorem assigned_cvars_safe mid config doc dropped : AssignToMatConfig mid config = Some (doc, dropped) ->
  exists cfg cv, Find doc "config" = Some cfg /\ Find cfg "cvars" = Some cv /\ Forall engine_setting (Members cv) /\
  dropped = refused (Members (or_empty (Obj config "cvars"))).
Proof.
  unfold AssignToMatConfig. intros H. apply bind_Some in H as (num & _ & H). destruct (team_config config _ "team1") as [s1 t1]. destruct (team_config config s1 "team2") as [s2 t2].
  apply bind_Some in H as (rounds & _ & H). apply bind_Some in H as (otHalf & _ & H). apply bind_Some in H as (rules & _ & H). apply bind_Some in H as ([cv d] & Hcv & H).
  apply (inj Some) in H. apply pair_equal_spec in H as [<- <-]. cbn [fst snd]. unfold assign_cvars in Hcv. apply bind_Some in Hcv as (own & Hown & Hcv). injection Hcv as Hcv.
  destruct (add_cvars (Members (or_empty (Obj config "cvars"))) (sets own (JObject [])) []) as [Hs Hd]; [apply sets_safe; [by eapply own_cvars_safe|by constructor]|].
  rewrite Hcv in Hs, Hd. cbn [fst snd app] in Hs, Hd. eexists _, cv. split_and!; [done| |done|done]. rewrite !app_assoc. apply Find_sets_last.
Qed.

(** ** A stream that is saved *)

(** An object that is left as it is. *)
Definition stripped_members (o : list (string * Json)) : Prop := NoDup (keys o) /\ Forall (fun kv => IsNull kv.2 = false /\ StripNulls kv.2 = kv.2) o.

Lemma strip_fixed l : forall acc, Forall (fun kv => IsNull kv.2 = false /\ StripNulls kv.2 = kv.2) l -> NoDup (keys (acc ++ l)) -> strip_members StripNulls l acc = acc ++ l.
Proof.
  induction l as [|[k v] l IH]; intros acc Hl Hn; cbn [strip_members]; [by rewrite app_nil_r|]. apply Forall_cons in Hl as [[Hv Hs] Hl]. cbn in Hv, Hs. rewrite Hv, Hs.
  assert (k ∉ keys acc) as Hk.
  { unfold keys in *. rewrite fmap_app in Hn. apply NoDup_app in Hn as (_ & Hn & _). intros Hin. apply (Hn _ Hin). cbn. set_solver. }
  rewrite set_member_fresh by done. rewrite (IH (acc ++ [(k, v)])); [by rewrite <- app_assoc|done|by rewrite <- app_assoc].
Qed.
Lemma stripped_object o : stripped_members o -> StripNulls (JObject o) = JObject o.
Proof. intros [Hk Hf]. cbn [StripNulls]. f_equal. by apply (strip_fixed o []). Qed.
Lemma StripNulls_twice v : StripNulls (StripNulls v) = StripNulls v.
Proof.
  induction v as [|b|i|x|s|o IH|a IH] using json_nested_ind; try done.
  - rewrite StripNulls_obj. apply stripped_object. split; [apply NoDup_update_all, NoDup_nil_2|].
    apply (update_all_Forall (fun w => IsNull w = false /\ StripNulls w = w)); [constructor|]. intros k v w Hin E. destruct (IsNull v) eqn:Ev; [done|]. injection E as <-.
    rewrite StripNulls_null. split; [done|]. rewrite Forall_forall in IH. by apply (IH _ Hin).
  - rewrite !StripNulls_arr. f_equal. rewrite <- list_fmap_compose. apply list_fmap_ext. intros i x Hx. rewrite Forall_forall in IH. by apply IH, (list_elem_of_lookup_2 _ i).
Qed.
Lemma StripNulls_members o : stripped_members (Members (StripNulls (JObject o))).
Proof.
  rewrite StripNulls_obj. cbn [Members]. split; [apply NoDup_update_all, NoDup_nil_2|].
  apply (update_all_Forall (fun w => IsNull w = false /\ StripNulls w = w)); [constructor|]. intros k v w Hin E. destruct (IsNull v) eqn:Ev; [done|]. injection E as <-.
  rewrite StripNulls_null. split; [done|]. apply StripNulls_twice.
Qed.

Lemma set_member_twice k v v' o : set_member k v (set_member k v' o) = set_member k v o.
Proof. induction o as [|[k2 v2] o IH]; cbn; [by rewrite String.eqb_refl|]. destruct (String.eqb_spec k2 k) as [->|H]; cbn; [by rewrite String.eqb_refl|]. destruct (String.eqb_spec k2 k); [done|]. by rewrite IH. Qed.
Lemma live_twice j r r' : live (live j r) r' = live j r'.
Proof. unfold live, SetKey. cbn [Members]. by rewrite set_member_twice. Qed.
Lemma live_stripped o r : stripped_members o -> stripped_members (Members (live (JObject o) r)).
Proof. intros [H1 H2]. cbn. split; [by apply NoDup_set_member|]. by apply (set_member_Forall (fun v => IsNull v = false /\ StripNulls v = v)). Qed.

(** What [Reset] makes of the saved state is the stream itself. *)
Definition savable (s : LiveStream) : Prop := exists o, stripped_members o /\ state_ s = live (JObject o) (rev_ s).
Lemma savable_reset s : savable s -> Reset (state_ s) (rev_ s) = s.
Proof.
  intros (o & Ho & Hs). unfold Reset. rewrite Hs. change (IsNull (live (JObject o) (rev_ s))) with false. cbv match. destruct s as [st r]. cbn [state_ rev_] in *. subst st. f_equal.
  pose proof (live_stripped o r Ho) as Hl. rewrite (stripped_object _ Hl : StripNulls (live (JObject o) r) = live (JObject o) r). apply live_twice.
Qed.
Lemma savable_new st r : IsObject st = true -> savable (Reset st r).
Proof.
  destruct st as [| | | | |o|]; try done. intros _. exists (Members (StripNulls (JObject o))). split; [apply StripNulls_members|done].
Qed.
Lemma savable_op s o : savable s -> op_sound o -> savable (stream_op s o).1.
Proof.
  intros Hs Ho. destruct o as [next e|]; cbn [stream_op].
  - destruct Ho as [Hob _]. destruct next as [| | | | |o|]; try done. unfold Advance. rewrite StripNulls_object. cbn [IsObject]. destruct (_ && _); cbn [fst]; [done|].
    exists (Members (StripNulls (JObject o))). split; [apply StripNulls_members|done].
  - destruct Hs as (o & Ho' & Es). unfold BumpRevOnly. rewrite Es. cbn [IsObject live SetKey fst]. exists o. split; [done|]. cbn [state_ rev_]. apply (live_twice (JObject o)).
Qed.
Lemma savable_run os : forall s, savable s -> Forall op_sound os -> savable (stream_run s os).1.
Proof.
  induction os as [|o os IH]; intros s Hs Ho; cbn [stream_run]; [done|]. apply Forall_cons in Ho as [Ho Hos]. pose proof (savable_op s o Hs Ho) as H.
  destruct (stream_op s o) as [s1 m]. specialize (IH s1 H Hos). by destruct (stream_run s1 os).
Qed.

(** ** A resume plan that is saved *)

Record plan_saved (p : ResumePlan) : Prop := {
  ps_ints : Forall int32_ok [map_number p; round p; series_team1 p; series_team2 p; score_team1 p; score_team2 p];
  ps_done : Forall (fun r => Forall int32_ok [rm_number r; rm_team1 r; rm_team2 r]) (maps_done p);
  ps_stats : match map_stats p with JNull | JObject _ => True | _ => False end;
  ps_raw : raw p = EmptyString;
}.
Lemma results_read l : Forall (fun r => Forall int32_ok [rm_number r; rm_team1 r; rm_team2 r]) l -> mapM read_result (map_result_json <$> l) = Some l.
Proof.
  induction 1 as [|r l Hr Hl IH]; [done|]. cbn [fmap list_fmap mapM]. apply Forall_cons in Hr as [H1 Hr]. apply Forall_cons in Hr as [H2 Hr]. apply Forall_cons in Hr as [H3 _].
  assert (read_result (map_result_json r) = Some r) as E; [|rewrite E; cbn; by rewrite IH].
  assert (read_result (map_result_json r) = Some {| rm_number := to_int32 (rm_number r); rm_team1 := to_int32 (rm_team1 r); rm_team2 := to_int32 (rm_team2 r); rm_winner := rm_winner r |}) as -> by done.
  rewrite !to_int32_id by done. by destruct r.
Qed.
Lemma resume_saved p : plan_saved p -> ResumeFromJson (ResumeToJson p) = Some p.
Proof.
  intros [H1 H2 H3 H4]. repeat (apply Forall_cons in H1 as [? H1]). unfold ResumeFromJson. change (negb (IsObject (ResumeToJson p))) with false. cbv match.
  set (j := ResumeToJson p). assert (forall k n, Find j k = Some (JInt n) -> forall d, Int j k d = Some n) as Hi by (intros k n E d; unfold Int; by rewrite E).
  assert (forall k n d, Find j k = Some (JInt n) -> int32_ok n -> int_field j k d = Some n) as Hi32 by (intros k n d E Hn; unfold int_field; rewrite (Hi _ _ E); cbn; by rewrite to_int32_id).
  rewrite (Hi "from_epoch" (from_epoch p)) by done. rewrite (Hi32 "map_number" (map_number p)), (Hi32 "round" (round p)), (Hi32 "series_team1" (series_team1 p)),
    (Hi32 "series_team2" (series_team2 p)), (Hi32 "score_team1" (score_team1 p)), (Hi32 "score_team2" (score_team2 p)) by done.
  change (Arr j "maps_done") with (Some (map_result_json <$> maps_done p)). unfold default, id. cbn [mbind option_bind]. rewrite (results_read _ H2). cbn [mbind option_bind]. f_equal.
  assert (match Obj j "map_stats" with Some x => x | None => JNull end = map_stats p) as E.
  { unfold Obj. change (Find j "map_stats") with (Some (map_stats p)). by destruct (map_stats p). }
  unfold from_option. rewrite E. destruct p. cbn in *. by subst.
Qed.

(** ** At a concrete assignment *)

Definition read_json (s : string) : Json := match Parse (qs s) with Parsed v => v | _ => JNull end.
Definition sample_assign : Json := read_json
  "{`num_maps`:1,`maps`:[{`name`:`de_nuke`,`sides`:`knife`}],
    `team1`:{`name`:`A`,`players`:[{`steamid64`:`76561197960265729`,`name`:`ann`},{`steamid64`:`76561197960265730`,`name`:`cy`,`role`:`coach`}]},
    `team2`:{`name`:`B`,`players`:[{`steamid64`:`76561197960265731`,`name`:`bob`}]},
    `spectators`:[`76561197960265732`],`password`:`pw`,`rules`:{`max_rounds`:16,`pause`:{`tactical_per_team`:2}},
    `cvars`:{`mp_freezetime`:10,`sv_password`:`x`,`mp_x`:`1;quit`,`ru_x`:1}}".
Definition sample_ops : Json := read_json
  "[{`op`:`add_player`,`steamid64`:`76561197960265731`,`team`:`team1`,`role`:`coach`},{`op`:`remove_player`,`steamid64`:`76561197960265729`},
    {`op`:`add_player`,`steamid64`:`76561197960265732`,`team`:`team2`}]".
Definition of_update (r : Res string (Json * bool)) : Json := match r with Some (inr (c, _)) => c | _ => JNull end.
Definition updated_sample : Json := of_update (ApplyUpdateOps RDefault sample_assign sample_ops).

(** A coach from the other team, a player who leaves, a spectator who plays. *)
Lemma roster_update_witness : (fun i => TeamOf updated_sample (76561197960265728 + i)) <$> [1; 2; 3; 4; 5] = [EmptyString; "spectator"; "spectator"; "team2"; EmptyString].
Proof.
  assert (ApplyUpdateOps RDefault sample_assign sample_ops = Some (inr (updated_sample, false))) as E by (vm_compute; reflexivity).
  pose proof (fun i => roster_update RDefault sample_assign sample_ops updated_sample false (76561197960265728 + i) E) as H. cbn [fmap list_fmap]. rewrite !H.
  vm_compute. reflexivity.
Defined.

Definition sample_doc : Json * list string := default (JNull, []) (AssignToMatConfig "m-1" sample_assign).
Lemma assigned_cvars_safe_witness : sample_doc.2 = ["sv_password"; "mp_x"; "ru_x"].
Proof.
  assert (AssignToMatConfig "m-1" sample_assign = Some (sample_doc.1, sample_doc.2)) as E by (vm_compute; reflexivity).
  destruct (assigned_cvars_safe "m-1" sample_assign sample_doc.1 sample_doc.2 E) as (cfg & cv & _ & _ & _ & H). rewrite H. vm_compute. reflexivity.
Defined.

(** An assignment retired at epoch 2 and again at epoch 3 stays ended at 3, also with other matches in between. *)
Lemma fence_refuses_witness : CheckAssign (retire_all NewFence ([("k", 5)] ++ ("m", 2) :: [("n", 1); ("m", 3); ("n", 2)])) NoAssignment "m" 3 false = StaleEpoch.
Proof.
  refine (proj1 (fence_refuses [("k", 5)] "m" 2 [("n", 1); ("m", 3); ("n", 2)] 3 NoAssignment 3 false _ _ _ _ _) _);
    [done|reflexivity|by apply Nat.leb_le; vm_compute|by right; right; left|lia|by right].
Defined.

(** But a match that comes back is not made younger: of 64 matches the oldest, retired again, is the next to be
    forgotten, and its old assignment would be accepted. *)
Definition many_matches : list (string * Z) := (fun n => (String "m"%char (to_string (Z.of_nat n)), 1)) <$> seq 0 64.
Example retired_again_forgotten :
  let f := retire_all NewFence (many_matches ++ [("m0", 9); ("new", 1)]) in
  Retired f "m0" = 0 /\ Retired f "m1" = 1 /\ CheckAssign f NoAssignment "m0" 1 false = Ok.
Proof. vm_compute. auto. Qed.

(** Two changes, an event between them, and one without a change. *)
Definition sample_states : list StreamOp :=
  [OpState (read_json "{`phase`:`live`,`x`:null,`score`:1}") false; OpBump; OpState (read_json "{`phase`:`live`,`score`:2}") true; OpState (read_json "{`phase`:`live`,`score`:2}") false].
Definition sample_first : Json := read_json "{`phase`:`warmup`,`pause`:{`by`:null}}".
Lemma live_stream_replays_witness :
  rev_ (stream_run (Reset sample_first 7) sample_states).1 = 10 /\
  exists st, foldl receive (Some (state_ (Reset sample_first 7), 7)) (stream_run (Reset sample_first 7) sample_states).2 = Some (st, 10) /\
             json_eqb st (state_ (stream_run (Reset sample_first 7) sample_states).1) = true.
Proof.
  assert (rev_ (stream_run (Reset sample_first 7) sample_states).1 = 10) as Hr by (vm_compute; reflexivity). split; [exact Hr|].
  assert (Forall op_sound sample_states) as Hs by (repeat constructor).
  pose proof (live_stream_replays sample_first 7 sample_states eq_refl eq_refl Hs) as H. cbv zeta in H. destruct (stream_run (Reset sample_first 7) sample_states) as [s ms]. cbn [fst snd] in *.
  by rewrite Hr in H.
Defined.

End FsFacts.
