(* ===== verification/FleetBridge.v ===== *)
(** * The match side of the fleet link

    [src/plugins/match/readyup/fleet_bridge.cpp]: the assignment the platform gave this server, its messages
    ([match.assign], [match.update], [match.unassign], [cmd], drain), the state and the events sent back, the restore
    of a round, a failover's resume, the tick, and what a plugin reload keeps.  What the code reads from other
    components in a step is the record [Env]; what it does to them is a list of [Eff]s.  [Print] lines, chat texts'
    arguments, HUD cards, the registration of the handlers and the local store's fleet mode are left out.  The monad's [None] is a number conversion C++ leaves undefined. *)

From S2P Require Import Prelude CStr Double Json MergePatch MatchRules PauseState Ruleset SlotRegistry AdminCall ChatForward MatchConfig MapNames Midas Modes ReloadState FleetState.

Module Fb.
Import Fs.
#[local] Existing Instance ReloadFacts.WebhookMatchContext_eta.

(** ** The state *)

Record Result := { status : string; r_code : string; message : string; r_rev : Z; output : option string }.
Definition OkResult : Result := {| status := "ok"; r_code := EmptyString; message := EmptyString; r_rev := -1; output := None |}.
Definition Rejected (c m : string) : Result := {| status := "rejected"; r_code := c; message := m; r_rev := -1; output := None |}.
Definition Failed (c m : string) : Result := {| status := "failed"; r_code := c; message := m; r_rev := -1; output := None |}.

Record PendingKick := { k_at : double; k_message : string }.
Record ExecCapture := { x_ref : string; x_audit : string; x_epoch : Z; x_until : double; x_output : string }.
(** A restore that waits for a round boundary. *)
Record Restore := {
  needRoundEnd : bool; d_map : Z; d_round : Z; d_score1 : Z; d_score2 : Z; d_file : string; d_sha : string; d_by : string; d_reason : string; d_extra : Json }.
#[export] Instance Restore_eta : Eta Restore := fun r =>
  {| needRoundEnd := needRoundEnd r; d_map := d_map r; d_round := d_round r; d_score1 := d_score1 r; d_score2 := d_score2 r; d_file := d_file r;
     d_sha := d_sha r; d_by := d_by r; d_reason := d_reason r; d_extra := d_extra r |}.
#[export] Instance Assignment_eta : Eta Assignment := fun r =>
  {| active := active r; match_id := match_id r; epoch := epoch r; config_rev := config_rev r |}.
#[export] Instance ResumePlan_eta : Eta ResumePlan := fun r =>
  {| present := present r; from_epoch := from_epoch r; map_number := map_number r; round := round r; inline_backup := inline_backup r; file := file r;
     raw := raw r; sha256 := sha256 r; series_team1 := series_team1 r; series_team2 := series_team2 r; maps_done := maps_done r; sides := sides r;
     score_team1 := score_team1 r; score_team2 := score_team2 r; team1_side := team1_side r; map_stats := map_stats r;
     pause_after_restore := pause_after_restore r |}.

(** The variables of a failover resume, and of the match's phase. *)
Record ResumeVars := { resumePlan : ResumePlan; resumeActive : bool; resumeRestoreAt : double; resumeRestored : bool; resumeUnpauseAt : double; resumeSnapshotPending : bool }.
#[export] Instance ResumeVars_eta : Eta ResumeVars := fun r =>
  {| resumePlan := resumePlan r; resumeActive := resumeActive r; resumeRestoreAt := resumeRestoreAt r; resumeRestored := resumeRestored r;
     resumeUnpauseAt := resumeUnpauseAt r; resumeSnapshotPending := resumeSnapshotPending r |}.
Record PhaseVars := {
  handOverPending : bool; handOverAt : double; loading : bool; loadStarted : double; loadFromMap : string; mapStarts : Z; loadMapStarts : Z;
  restoring : bool; seriesOver : bool; serverReset : bool; latestBackupRound : Z; lastLive : Json; phaseReason : string; unpauseBy : string; backupScanAt : double }.
#[export] Instance PhaseVars_eta : Eta PhaseVars := fun r =>
  {| handOverPending := handOverPending r; handOverAt := handOverAt r; loading := loading r; loadStarted := loadStarted r; loadFromMap := loadFromMap r;
     mapStarts := mapStarts r; loadMapStarts := loadMapStarts r; restoring := restoring r; seriesOver := seriesOver r; serverReset := serverReset r;
     latestBackupRound := latestBackupRound r; lastLive := lastLive r; phaseReason := phaseReason r; unpauseBy := unpauseBy r; backupScanAt := backupScanAt r |}.
Record Clocks := { lastIdlePublish : double; lastPoll : double; lastPeriodic : double; g_now : double }.
#[export] Instance Clocks_eta : Eta Clocks := fun r =>
  {| lastIdlePublish := lastIdlePublish r; lastPoll := lastPoll r; lastPeriodic := lastPeriodic r; g_now := g_now r |}.

(** What the file asks of the other components, in call order. *)
Inductive Eff :=
  | Sent (type : string) (payload : Json) (ep : Z) (ref : string) | Snapshot (reason : string) (withStats : bool) | Published (st : Json) (avail : string)
  | Cmd (line : string) | ChatAll (key : string) | SignalsOn (on : bool) | ScrimAuto (on : bool) | ResetServer | Persisted (json : string) | ForgetMatch
  | RecoveryCancel | LoadMatch (c : WebhookMatchContext) (json : string) (map : Z) | SeedSeries (matchid s1 s2 : Z) (done : list ResumeMapResult)
  | PausedBy (type by' : string) | Unpaused | AdminUnpausing | ReadyOn (steamid64 : Z) | ReadyChanged | LoadMap (entry : string) | Rewind (round s1 s2 : Z) (map : Z)
  | Signalled (type : string) (data : Json) (round map : Z) | AfterRestore (map round : Z) (f reason : string) | IgnoreRoundEnds
  | SeriesEndHook (winner : string) | ForceStart (force : bool) | RestartMap | SwapTeams | Setting (name value by' : string) | ConsoleSetting (name value : string)
  | WroteBackup (name content : string) | SeedStats (p : ResumePlan) | FollowMap (n : Z) | ScanBackups (prefix : string)
  | FleetAdmins (rev : Z) (admins : list (Z * string)) | AdminsRev.

(** The platform's assignment with the state sent for it, the loaded match, the waiting work and the effects so far. *)
Record Link := {
  g_asg : Assignment; g_config : Json; g_fence : Fence; g_stream : LiveStream; g_phase : PhaseVars; g_resume : ResumeVars; g_kicks : list PendingKick;
  g_execs : list ExecCapture; g_deferred : option Restore; g_draining : bool; g_lastPublishedAvail : string; g_clocks : Clocks;
  g_sentBackups : gset string; g_fleetInstance : Z; loaded : option WebhookMatchContext; g_chatLimit : RateLimiter; out : list Eff }.
#[export] Instance Link_eta : Eta Link := fun r =>
  {| g_asg := g_asg r; g_config := g_config r; g_fence := g_fence r; g_stream := g_stream r; g_phase := g_phase r; g_resume := g_resume r; g_kicks := g_kicks r;
     g_execs := g_execs r; g_deferred := g_deferred r; g_draining := g_draining r; g_lastPublishedAvail := g_lastPublishedAvail r; g_clocks := g_clocks r;
     g_sentBackups := g_sentBackups r; g_fleetInstance := g_fleetInstance r; loaded := loaded r; g_chatLimit := g_chatLimit r; out := out r |}.

Definition minus1 : double := of_int (-1).
Definition BootResume : ResumeVars := {|
  resumePlan := NoResume; resumeActive := false; resumeRestoreAt := minus1; resumeRestored := false; resumeUnpauseAt := minus1; resumeSnapshotPending := false |}.
Definition BootPhase : PhaseVars := {|
  handOverPending := false; handOverAt := of_int 0; loading := false; loadStarted := of_int 0; loadFromMap := EmptyString; mapStarts := 0; loadMapStarts := 0;
  restoring := false; seriesOver := false; serverReset := false; latestBackupRound := -1; lastLive := JNull; phaseReason := EmptyString; unpauseBy := EmptyString;
  backupScanAt := minus1 |}.
Definition long_ago : double := of_int (-1000000000).
Definition BootLink : Link := {|
  g_asg := NoAssignment; g_config := JNull; g_fence := NewFence; g_stream := NewStream; g_phase := BootPhase; g_resume := BootResume; g_kicks := [];
  g_execs := []; g_deferred := None; g_draining := false; g_lastPublishedAvail := EmptyString;
  g_clocks := {| lastIdlePublish := long_ago; lastPoll := long_ago; lastPeriodic := long_ago; g_now := of_int 0 |};
  g_sentBackups := ∅; g_fleetInstance := 0; loaded := None; g_chatLimit := NewRateLimiter 5 (of_int 5); out := [] |}.

(** What the other components answer in one step.  [modeAfterReset] is the mode after [EndMatchResetServer]. *)
Record Env := {
  unixMs : Z; hasFleet : bool; linked : bool; serverId : string; currentMap : string; humans : list (Z * Z); mode : Mo.ReadyUpMode; modeAfterReset : Mo.ReadyUpMode;
  goLive : bool; awaitingPick : bool; pause_ : PauseSnapshot; pauseUsed : PauseState.WebhookTeam -> string -> Z; live_ : Json; statsScore : option (Z * Z); takes : string -> bool;
  licensed : bool; server : Ruleset_; saved : option string; matchEndPending : bool; noDemoDelay : Z; roundOver : bool; inFreeze : bool; curMapNumber : Z; isDevBot : Z -> bool;
  localFile : string -> option string; findLocal : string -> Z -> option string; writeBackup : string -> string -> option string; autoUnpause : bool;
  forceStarts : bool -> bool; liveCfgRequired : bool; gotvDown : bool; swapRefused : option string;
  settingError : string -> string -> option string; setError : string -> string -> option string; settingLines : list string; consoleTakes : string -> string -> bool;
  backupKey : string -> string; fleetInstance : Z; adminsNewer : Z -> bool; connectAddress : Z -> option string }.

Definition M (A : Type) : Type := Link -> option (A * Link).
#[export] Instance M_ret : MRet M := fun A a w => Some (a, w).
#[export] Instance M_bind : MBind M := fun A B k m w => match m w with Some (a, w') => k a w' | None => None end.
Definition gets {A} (f : Link -> A) : M A := fun w => Some (f w, w).
Definition change (f : Link -> Link) : M unit := fun w => Some (tt, f w).
Definition lift {A} (o : option A) : M A := fun w => match o with Some a => Some (a, w) | None => None end.
Definition emit (e : Eff) : M unit := change (fun w => w <| out := out w ++ [e] |>).
Definition emits (l : list Eff) : M unit := change (fun w => w <| out := out w ++ l |>).
Definition when (b : bool) (m : M unit) : M unit := if b then m else mret tt.
Definition phase_ (f : PhaseVars -> PhaseVars) : M unit := change (fun w => w <| g_phase := f (g_phase w) |>).
Definition resume_ (f : ResumeVars -> ResumeVars) : M unit := change (fun w => w <| g_resume := f (g_resume w) |>).
Definition reason (s : string) : M unit := phase_ (fun p => p <| phaseReason := s |>).

(** ** JSON *)

Definition step_in (cur : option Json) (k : string) : option Json :=
  match cur with Some (JObject _ as j) => Find j k | _ => None end.
Definition Path (o : Json) (ks : list string) : option Json := foldl step_in (Some o) ks.
Definition Copy (v : option Json) : Json := default JNull v.
(** [f(j[k])] on the reference. *)
Definition at_key (k : string) (f : Json -> Json) (j : Json) : Json := SetKey j k (f (Copy (Find j k))).
Fixpoint at_path (ks : list string) (f : Json -> Json) (j : Json) : Json :=
  match ks with [] => f j | k :: ks => at_key k (at_path ks f) j end.
Definition put (ks : list string) (v j : Json) : Json := at_path ks (fun _ => v) j.
(** The named members of [src] that it has, copied into [dst]. *)
Definition copy_members (ks : list string) (src dst : Json) : Json :=
  foldl (fun d k => match Find src k with Some v => SetKey d k v | None => d end) dst ks.

Definition CtxIsOurs (a : Assignment) (c : option WebhookMatchContext) : bool :=
  match c with Some c => active a && (c_matchid c =? NumericMatchId (match_id a)) | None => false end.
Definition LocalMatchActive (a : Assignment) (c : option WebhookMatchContext) : bool :=
  match c with Some c' => negb (c_slug c' =s "scrim") && negb (CtxIsOurs a c) | None => false end.
Definition LocalMatchIs (matchId : string) (c : option WebhookMatchContext) : bool :=
  match c with Some c => negb (c_slug c =s "scrim") && (c_matchid c =? NumericMatchId matchId) | None => false end.

Section Ops.
Context (E : Env).

(** ** Sending *)

Definition Send (type : string) (payload : Json) (ep : Z) (ref : string) : M unit := when (linked E) (emit (Sent type payload ep ref)).
Definition SendSnapshot (why : string) (withStats : bool) : M bool :=
  a ← gets g_asg; when (linked E) (emit (Snapshot why (withStats && active a))) ;; mret (linked E).

Definition reply_json (r : Result) (auditId : string) : Json :=
  sets ([("status", JString (status r))] ++
        Fs.when (negb (sempty (r_code r))) [("error", JObject [("code", JString (r_code r)); ("message", JString (if sempty (message r) then r_code r else message r))])] ++
        Fs.when (0 <=? r_rev r) [("rev", JInt (r_rev r))] ++
        match output r with Some o => [("output", JString o)] | None => [] end ++
        Fs.when (negb (sempty auditId)) [("audit_id", JString auditId)]) (JObject []).
Definition Reply (ref : string) (ep : Z) (r : Result) (auditId : string) : M unit :=
  Send "cmd.result" (reply_json r auditId) (if 0 <? ep then ep else 0) ref.

Definition enqueue (line : string) : M bool := if takes E line then emit (Cmd line) ;; mret true else mret false.
Definition command (line : string) : M unit := _ ← enqueue line; mret tt.

Definition quote_char (c : ascii) : ascii :=
  if Ascii.eqb c dquote || Ascii.eqb c ";"%char || Ascii.eqb c newline || Ascii.eqb c creturn then " "%char else c.
Definition kick_line (userid : Z) (msg : string) : string := "kickid " +s+ to_string userid +s+ " " +s+ quoted (smap quote_char msg).
Fixpoint KickHumans (msg : string) (keep : Z -> bool) (l : list (Z * Z)) : M unit :=
  match l with
  | [] => mret tt
  | (userid, sid) :: l =>
      when (negb ((userid <? 0) || (sid =? 0) || keep sid)) (command (kick_line userid msg)) ;; KickHumans msg keep l
  end.
Definition KickEveryone (msg : string) : M unit := KickHumans msg (fun _ => false) (humans E).
Definition SetPassword (pw : string) : M unit := command ("sv_password " +s+ quoted pw).

(** ** The state sent to the platform *)

Definition zero_score : Json := JObject [("team1", JInt 0); ("team2", JInt 0)].
Definition map_state (m : Json) : Json :=
  sets ([("name", JString (Str m "name" EmptyString))] ++
        (if negb (sempty (Str m "workshop_id" EmptyString)) then [("workshop_id", JString (Str m "workshop_id" EmptyString))]
         else match Mn.ParseEntry (Str m "name" EmptyString) with
              | Some ref => Fs.when (negb (sempty (Mn.workshop_id ref))) [("workshop_id", JString (Mn.workshop_id ref))]
              | None => []
              end) ++
        [("sides", JString (Str m "sides" "knife")); ("status", JString "pending"); ("score", zero_score)]) (JObject []).
Fixpoint map_states (n : Z) (l : list Json) (maps : Json) : Json :=
  match l with [] => maps | m :: l => map_states (n + 1) l (SetKey maps (to_string n) (map_state m)) end.
(** A result the platform sent with a resume. *)
Definition resumed_map (maps : Json) (r : ResumeMapResult) : Json :=
  let k := to_string (rm_number r) in
  if has maps k
  then at_key k (fun m => put ["winner"] (JString (rm_winner r)) (put ["score"; "team2"] (JInt (rm_team2 r))
                            (put ["score"; "team1"] (JInt (rm_team1 r)) (put ["status"] (JString "done") m)))) maps
  else maps.
Definition series_state (cfg : Json) (rv : ResumeVars) : option Json :=
  n ← Int cfg "num_maps" 1;
  let maps := map_states 1 (Items (Copy (Find cfg "maps"))) (JObject []) in
  let p := resumePlan rv in
  let '(cur, s1, s2, maps) := if resumeActive rv then (map_number p, series_team1 p, series_team2 p, foldl resumed_map maps (maps_done p)) else (1, 0, 0, maps) in
  Some (JObject [("num_maps", JInt n); ("current_map", JInt cur); ("score", JObject [("team1", JInt s1); ("team2", JInt s2)]); ("maps", maps)]).

Definition player_state (p : Json) : Json :=
  JObject [("name", JString (Str p "name" EmptyString)); ("role", JString (Str p "role" "player")); ("connected", JBool false); ("ready", JBool false)].
Definition players_state (ps : list Json) : Json := foldl (fun o p => SetKey o (Str p "steamid64" EmptyString) (player_state p)) (JObject []) ps.
Definition team_players_ (cfg : Json) (key : string) : list Json := Items (Copy (t ← Find cfg key; Find t "players")).
Definition starters_of (cfg : Json) (key : string) : Z :=
  zlen (List.filter (fun p => Str p "role" "player" =s "player") (team_players_ cfg key)).
Definition team_state (cfg : Json) (key : string) : Json :=
  let src := Find cfg key in
  let text k d := match src with Some t => Str t k EmptyString | None => d end in
  let id := text "id" EmptyString in
  sets ([("id", JString (if sempty id then key else id)); ("name", JString (text "name" key))] ++
        Fs.when (negb (sempty (text "tag" EmptyString))) [("tag", JString (text "tag" EmptyString))] ++
        [("score", JInt 0); ("score_ct", JInt 0); ("score_t", JInt 0); ("players", players_state (team_players_ cfg key))]) (JObject []).
Definition spectators_state (cfg : Json) : Json :=
  foldl (fun o s => SetKey o (AsString s) (JObject [("name", JString EmptyString); ("connected", JBool false)])) (JObject []) (Items (Copy (Find cfg "spectators"))).

Definition used_state (t : PauseState.WebhookTeam) : Json :=
  JObject [("tactical", JInt (pauseUsed E t "tactical")); ("technical", JInt (pauseUsed E t "technical"))].
(** [ConfigState]. *)
Definition ConfigState (a : Assignment) (cfg : Json) (rv : ResumeVars) (latest : Z) : option Json :=
  series ← series_state cfg rv;
  minPer ← Int (Copy (Path cfg ["rules"; "ready"])) "min_per_team" 0;
  let most := Z.max (Z.max 0 (starters_of cfg "team1")) (starters_of cfg "team2") in
  Some (sets ([("match_id", JString (match_id a)); ("epoch", JInt (epoch a))] ++
              Fs.when (negb (sempty (serverId E))) [("server_id", JString (serverId E))] ++
              [("config_rev", JInt (config_rev a)); ("live_rev", JInt 0); ("phase", JString "loading"); ("series", series);
               ("teams", JObject [("team1", team_state cfg "team1"); ("team2", team_state cfg "team2")]); ("spectators", spectators_state cfg);
               ("ready", JObject [("required_per_team", JInt (if 0 <? minPer then minPer else most))]); ("knife", JObject [("status", JString "none")]);
               ("pause", JObject [("active", JBool false); ("unpause", JObject [("team1", JBool false); ("team2", JBool false)]);
                                  ("used", JObject [("team1", used_state PauseState.Team1); ("team2", used_state PauseState.Team2)])]);
               ("round", JObject [("number", JInt 0)]); ("backups", JObject (Fs.when (0 <=? latest) [("latest_round", JInt latest)]));
               ("rules", match Find cfg "rules" with Some (JObject _ as r) => r | _ => JObject [] end)]) (JObject [])).

(** *** The match flow's view laid over it *)

Definition over_path (src : list string) (live s : Json) : Json := match Path live src with Some v => put src v s | None => s end.
Definition over_map (maps : Json) (kv : string * Json) : Json :=
  if has maps kv.1 then at_key kv.1 (copy_members ["status"; "score"; "winner"; "demo"] kv.2) maps else maps.
Definition over_maps (live s : Json) : Json :=
  match Path live ["series"; "maps"] with
  | Some lm => at_path ["series"; "maps"] (fun maps => foldl over_map maps (Members lm)) s
  | None => s
  end.
Definition over_player (lp : option Json) (players : Json) (k : string) : Json :=
  match (l ← lp; Find l k) with
  | Some p =>
      at_key k (fun dst => let dst := copy_members ["connected"; "ready"; "ping"; "connected_at"] p dst in
                           if sempty (Str dst "name" EmptyString) && negb (sempty (Str p "name" EmptyString))
                           then SetKey dst "name" (JString (Str p "name" EmptyString)) else dst) players
  | None => players
  end.
Definition over_team (live s : Json) (team : string) : Json :=
  match Path live ["teams"; team] with
  | Some lt => at_path ["teams"; team] (fun t =>
                 at_key "players" (fun players => foldl (over_player (Find lt "players")) players (fst <$> Members players))
                   (copy_members ["side"; "score"; "score_ct"; "score_t"] lt t)) s
  | None => s
  end.
Definition over_spectator (specs : Json) (kv : string * Json) : Json :=
  if has specs kv.1
  then at_key kv.1 (fun dst => let dst := copy_members ["connected"] kv.2 dst in
                               if negb (sempty (Str kv.2 "name" EmptyString)) then SetKey dst "name" (JString (Str kv.2 "name" EmptyString)) else dst) specs
  else specs.
Definition over_group (k : string) (ks : list string) (live s : Json) : Json :=
  match Find live k with Some r => foldl (fun s m => match Find r m with Some v => put [k; m] v s | None => s end) s ks | None => s end.
(** [Overlay]. *)
Definition Overlay (s live : Json) : Json :=
  let s := over_path ["series"; "score"] live (over_path ["series"; "current_map"] live s) in
  let s := over_maps live s in
  let s := foldl (over_team live) s ["team1"; "team2"] in
  let s := match Find live "spectators" with Some ls => at_key "spectators" (fun specs => foldl over_spectator specs (Members ls)) s | None => s end in
  let s := over_group "ready" ["ready"; "total"] live s in
  let s := copy_members ["knife"] live s in
  let s := over_group "pause" ["active"; "started_at"; "unpause"] live s in
  copy_members ["round"; "game"; "ruleset"; "effective_rules"] live s.

(** [BuildState]: the state, and the match flow's view to keep. *)
Definition with_scores (live : Json) : option Json :=
  match statsScore E with
  | Some (s1, s2) =>
      n ← Int (Copy (Find live "series")) "current_map" 1;
      let live := put ["teams"; "team2"; "score"] (JInt s2) (put ["teams"; "team1"; "score"] (JInt s1) live) in
      Some (at_path ["series"; "maps"; to_string (to_int32 n)]
              (fun m => if Str m "status" EmptyString =s "done" then m else put ["score"; "team2"] (JInt s2) (put ["score"; "team1"] (JInt s1) m)) live)
  | None => Some live
  end.
Definition unloaded (live : Json) : Json :=
  put ["knife"] (JObject [("status", JString "none")])
    (put ["pause"; "unpause"; "team2"] (JBool false) (put ["pause"; "unpause"; "team1"] (JBool false) (put ["pause"; "active"] (JBool false) live))).
Definition pause_type (t : string) : string :=
  if sempty t then "admin" else if (t =s "restore") || (t =s "engine") then "technical" else t.
Definition BuildState : M Json :=
  w ← gets id;
  st ← lift (ConfigState (g_asg w) (g_config w) (g_resume w) (latestBackupRound (g_phase w)));
  let ours := CtxIsOurs (g_asg w) (loaded w) in
  '(st, flow) ← (if ours then
      if IsNull (live_ E) then mret (st, EmptyString)
      else
        let live := if (Str (live_ E) "phase" EmptyString =s "warmup") && goLive E then SetKey (live_ E) "phase" (JString "live") else live_ E in
        live ← lift (with_scores live);
        phase_ (fun p => p <| lastLive := live |>) ;; mret (Overlay st live, Str live "phase" EmptyString)
    else mret (if IsNull (lastLive (g_phase w)) then st else Overlay st (unloaded (lastLive (g_phase w))), EmptyString));
  let ps := pause_ E in
  let st := if PauseState.paused ps && ours
            then let st := put ["pause"; "type"] (JString (pause_type (type_ ps))) st in
                 if sempty (by_ ps) then st else put ["pause"; "by"] (JString (by_ ps)) st
            else st in
  let p := g_phase w in
  let phase := if restoring p then "restoring"
               else if handOverPending p || loading p then "loading"
               else if sempty flow || (flow =s "idle") || (flow =s "practice") then (if seriesOver p then "series_end" else "loading") else flow in
  mret (SetKey st "phase" (JString phase)).

Definition Availability (w : Link) : string :=
  if g_draining w then "draining"
  else if negb (active (g_asg w)) then (if LocalMatchActive (g_asg w) (loaded w) then "busy" else "available")
  else if serverReset (g_phase w) then "available" else "busy".
Definition availability_json (w : Link) (avail : string) : Json :=
  JObject [("availability", JString avail);
           ("reason", JString (if avail =s "draining" then "drain" else if active (g_asg w) then (if serverReset (g_phase w) then "series_end" else "assigned") else "idle"))].
Definition PublishState (st : Json) : M unit :=
  if negb (hasFleet E) then mret tt
  else
    w ← gets id;
    let avail := Availability w in
    emit (Published st avail) ;;
    when (negb (avail =s g_lastPublishedAvail w) && negb (sempty (g_lastPublishedAvail w)) && linked E)
      (Send "server.availability" (availability_json w avail) 0 EmptyString) ;;
    change (fun w => w <| g_lastPublishedAvail := avail |>).

(** *** Events *)

Record Ev := { ev_type : string; ev_data : Json; ev_round : Z; ev_map : Z }.
Definition event (type : string) (data : Json) : Ev := {| ev_type := type; ev_data := data; ev_round := -1; ev_map := -1 |}.

Definition readyCount (st : Json) (team : string) : Z :=
  zlen (List.filter (fun kv => Bool kv.2 "ready" false) (Members (Copy (Path st ["teams"; team; "players"])))).
(** One player whose readiness changed. *)
Definition ready_event (prev cur : Json) (required : Z) (team : string) (pp : Json) (kv : string * Json) : list Ev :=
  match Find pp kv.1 with
  | None => []
  | Some was =>
      let r1 := Bool kv.2 "ready" false in
      if Bool.eqb (Fs.Bool was "ready" false) r1 then []
      else [event (if r1 then "player_ready" else "player_unready")
              (JObject [("steamid64", JString kv.1); ("team", JString team); ("ready_team1", JInt (readyCount cur "team1"));
                        ("ready_team2", JInt (readyCount cur "team2")); ("required", JInt required)])]
  end.
Definition ready_events (prev cur : Json) (required : Z) (team : string) : list Ev :=
  match Path cur ["teams"; team; "players"], Path prev ["teams"; team; "players"] with
  | Some cp, Some pp => flat_map (ready_event prev cur required team pp) (Members cp)
  | _, _ => []
  end.
Definition team_member (t : PauseState.WebhookTeam) : list (string * Json) :=
  match t with PauseState.Team1 => [("team", JString "team1")] | PauseState.Team2 => [("team", JString "team2")] | Unknown => [] end.
Definition pause_events (unpauser : string) (pp cp : Json) : option (list Ev) :=
  let a0 := Bool pp "active" false in let a1 := Bool cp "active" false in
  if negb a0 && a1 then
    Some [event "pause" (JObject ([("action", JString "paused"); ("type", JString (Str cp "type" "admin")); ("by", JString (Str cp "by" "unknown"))] ++
                                  team_member (PauseState.team (pause_ E))))]
  else if a0 && negb a1 then
    started ← Int pp "started_at" 0;
    Some [event "pause" (JObject ([("action", JString "unpaused"); ("type", JString (Str pp "type" "admin"));
                                   ("by", JString (if sempty unpauser then "players" else unpauser))] ++
                                  Fs.when (0 <? started) [("duration_s", JInt (Z.max 0 (Z.quot (unixMs E - started) 1000)))]))]
  else if a1 then
    Some (flat_map (fun team => if negb (Bool (Copy (Find pp "unpause")) team false) && Bool (Copy (Find cp "unpause")) team false
                                then [event "pause" (JObject [("action", JString "unpause_requested"); ("type", JString (Str cp "type" "admin"));
                                                              ("by", JString team); ("team", JString team)])]
                                else []) ["team1"; "team2"])
  else Some [].
(** [Derive]: the events of a change of state, in order. *)
Definition Derive (prev cur : Json) : M (list Ev) :=
  if IsNull prev then mret []
  else
    p ← gets g_phase;
    let p0 := Str prev "phase" EmptyString in let p1 := Str cur "phase" EmptyString in
    let moved := if p0 =s p1 then []
                 else [event "phase" (JObject [("from", JString p0); ("to", JString p1);
                                               ("reason", JString (if sempty (phaseReason p) then "flow" else phaseReason p))])] in
    phase_ (fun p => p <| phaseReason := EmptyString |>) ;;
    let readies_with required := flat_map (ready_events prev cur required) ["team1"; "team2"] in
    readies ← match readies_with 0 with
              | [] => mret []
              | _ => required ← lift (Int (Copy (Find cur "ready")) "required_per_team" 0); mret (readies_with required)
              end;
    match Find prev "pause", Find cur "pause" with
    | Some pp, Some cp =>
        pauses ← lift (pause_events (unpauseBy p) pp cp);
        when (xorb (Bool pp "active" false) (Bool cp "active" false)) (phase_ (fun p => p <| unpauseBy := EmptyString |>)) ;;
        mret (moved ++ readies ++ pauses)
    | _, _ => mret (moved ++ readies)
    end.

Definition RevOnlyEvent (type : string) : bool := type =s "chat".
Definition event_json (matchId : string) (curMap curRound : Z) (e : Ev) (patch : Json) (rev : Z) : Json :=
  let round := if 0 <=? ev_round e then ev_round e else curRound in
  JObject ([("match_id", JString matchId); ("map_number", JInt (if 0 <? ev_map e then ev_map e else Z.max 1 curMap))] ++
           Fs.when (0 <? round) [("round", JInt round)] ++ [("rev", JInt rev); ("patch", patch); ("data", ev_data e)]).
Definition send_event (curMap curRound : Z) (e : Ev) (patch : Json) (rev : Z) : M unit :=
  a ← gets g_asg; Send ("event." +s+ ev_type e) (event_json (match_id a) curMap curRound e patch rev) (epoch a) EmptyString.

(** The events that are not about the state first; the others, in order, are left. *)
Fixpoint emit_rev_only (curMap curRound : Z) (evs kept : list Ev) : M (list Ev) :=
  match evs with
  | [] => mret kept
  | e :: evs =>
      if negb (RevOnlyEvent (ev_type e)) then emit_rev_only curMap curRound evs (kept ++ [e])
      else
        s ← gets g_stream;
        match BumpRevOnly s with
        | (s', Some (patch, rev)) =>
            change (fun w => w <| g_stream := s' |>) ;; send_event curMap curRound e patch rev ;; emit_rev_only curMap curRound evs kept
        | (_, None) => mret (kept ++ e :: evs)
        end
  end.
(** A forced [Advance] always gives a patch. *)
Fixpoint emit_events (curMap curRound : Z) (st : Json) (evs : list Ev) : M unit :=
  match evs with
  | [] => mret tt
  | e :: evs =>
      s ← gets g_stream;
      let '(s', m) := Advance s st true in
      let '(patch, rev) := default (JNull, 0) m in
      change (fun w => w <| g_stream := s' |>) ;; send_event curMap curRound e patch rev ;; emit_events curMap curRound st evs
  end.
Definition send_patch (st : Json) : M unit :=
  s ← gets g_stream; a ← gets g_asg;
  match Advance s st false with
  | (s', Some (patch, rev)) =>
      change (fun w => w <| g_stream := s' |>) ;;
      Send "state.patch" (JObject [("match_id", JString (match_id a)); ("rev", JInt rev); ("patch", patch)]) (epoch a) EmptyString
  | (_, None) => mret tt
  end.
Definition EmitAll (st : Json) (evs : list Ev) : M unit :=
  match evs with
  | [] => send_patch st
  | _ =>
      curMap ← lift (Int (Copy (Find st "series")) "current_map" 1);
      curRound ← lift (Int (Copy (Find st "round")) "number" 0);
      s ← gets g_stream;
      rest ← (if HasState s then emit_rev_only curMap curRound evs [] else mret evs);
      match rest with [] => send_patch st | _ => emit_events curMap curRound st rest end
  end.

(** ** Round backups *)

Definition BackupPrefixFor (matchId : string) (mapNumber : Z) : string :=
  "readyup_backup_" +s+ to_string (NumericMatchId matchId) +s+ "_map" +s+ to_string (Z.max 1 mapNumber) +s+ "_".
Definition kBackupPartRaw : Z := 393216.
Definition kBackupMaxRaw : Z := 4194304.
Definition part_text (data : string) (i : Z) : string := stake (Z.to_nat kBackupPartRaw) (sdrop (Z.to_nat (i * kBackupPartRaw)) data).
(** Part [i] of a file that is sent: its round is one above the one in its name. *)
Definition backup_part (nm data : string) (rnd mapNumber s1 s2 parts i : Z) : Json :=
  JObject ([("map_number", JInt mapNumber); ("round", JInt rnd); ("file", JString nm); ("size", JInt (slen data)); ("sha256", JString (Sha256Hex data));
            ("score", JObject [("team1", JInt s1); ("team2", JInt s2)]); ("encoding", JString "base64"); ("data", JString (Base64Encode (part_text data i)))] ++
           Fs.when (1 <? parts) [("part", JInt (i + 1)); ("parts", JInt parts)]).
Definition backup_parts (nm data : string) (mapNumber s1 s2 : Z) : list Json :=
  if sempty data || (kBackupMaxRaw <? slen data) then []
  else
    let parts := (slen data + kBackupPartRaw - 1) / kBackupPartRaw in
    map (fun i => backup_part nm data (BackupRoundFromName nm + 1) mapNumber s1 s2 parts (Z.of_nat i)) (seq 0 (Z.to_nat parts)).

Definition ScheduleBackupScan (delay : double) : M unit :=
  now ← gets (fun w => g_now (g_clocks w));
  phase_ (fun p => if (backupScanAt p <d of_int 0) || (dadd now delay <d backupScanAt p) then p <| backupScanAt := dadd now delay |> else p).

(** The error of a write, or nothing. *)
Definition WriteBackupFile (nm content : string) : M Result :=
  match writeBackup E nm content with Some err => mret (Failed "io" err) | None => emit (WroteBackup nm content) ;; change (fun w => w <| g_sentBackups := {[backupKey E nm]} ∪ g_sentBackups w |>) ;; mret OkResult end.

Definition two_digits (n : Z) : string := if n <? 10 then "0" +s+ to_string n else to_string n.
Definition resume_file (matchId : string) (p : ResumePlan) : string :=
  "readyup_resume_" +s+ to_string (NumericMatchId matchId) +s+ "_map" +s+ to_string (map_number p) +s+ "_round" +s+ two_digits (Z.max 0 (round p - 1)) +s+ ".txt".
(** The content and the digest of a resume's backup. *)
Definition resume_content (matchId : string) (p : ResumePlan) : Result + (string * string) :=
  if inline_backup p then inr (raw p, sha256 p)
  else
    let nm := if sempty (file p) then findLocal E (BackupPrefixFor matchId (map_number p)) (round p) else Some (file p) in
    match (n ← nm; c ← localFile E n; Some (n, c)) with
    | None => inl (Rejected "no_backup" ("no local backup for map " +s+ to_string (map_number p) +s+ " round " +s+ to_string (round p) +s+ "; send it inline"))
    | Some (n, c) =>
        if sempty c then inl (Rejected "no_backup" ("the local backup " +s+ n +s+ " is empty"))
        else if negb (sempty (sha256 p)) && negb (Sha256Hex c =s sha256 p) then inl (Rejected "checksum" "backup_ref sha256 mismatch")
        else inr (c, Sha256Hex c)
    end.
Definition PrepareResumeBackup (matchId : string) (p : ResumePlan) : M (Result * ResumePlan) :=
  match resume_content matchId p with
  | inl r => mret (r, p)
  | inr (content, sha) =>
      let p := p <| sha256 := sha |> <| raw := EmptyString |> in
      let dest := resume_file matchId p in
      r ← WriteBackupFile dest content;
      mret (if status r =s "ok" then (r, p <| file := dest |>) else (r, p))
  end.

(** ** Restoring a round *)

Definition restored_json (d : Restore) : Json :=
  let base := JObject [("map_number", JInt (d_map d)); ("round", JInt (d_round d)); ("backup_sha256", JString (d_sha d)); ("file", JString (d_file d))] in
  if IsObject (d_extra d) then foldl (fun j kv => SetKey j kv.1 kv.2) base (Members (d_extra d)) else base.
(** [DoRestoreNow]: whether the match unpauses by itself. *)
Definition DoRestoreNow (d : Restore) : M bool :=
  phase_ (fun p => p <| restoring := true |>) ;;
  emit IgnoreRoundEnds ;;
  command ("mp_backup_restore_load_file " +s+ d_file d) ;;
  command "mp_pause_match" ;;
  when (negb (PauseState.paused (pause_ E))) (emit (PausedBy "restore" (d_by d))) ;;
  emits [Rewind (d_round d) (d_score1 d) (d_score2 d) (d_map d);
         Signalled "rounds_voided" (JObject [("from_round", JInt (d_round d)); ("reason", JString (d_reason d))]) (d_round d) (d_map d);
         Signalled "match_restored" (restored_json d) (d_round d) (d_map d); AfterRestore (d_map d) (d_round d) (d_file d) (d_reason d)] ;;
  mret (autoUnpause E).
(** The newest restore waits; an admin's one first for the end of the round. *)
Definition DoRestore (d : Restore) : M bool :=
  if negb (d_reason d =s "resume") && negb (roundOver E) && negb (inFreeze E)
  then change (fun w => w <| g_deferred := Some (d <| needRoundEnd := true |>) |>) ;; emit (ChatAll "admin.restore_next_round") ;; mret false
  else if roundOver E
  then change (fun w => w <| g_deferred := Some (d <| needRoundEnd := false |>) |>) ;; emit (ChatAll "admin.restore_round_start") ;; mret false
  else DoRestoreNow d.
Definition RunDeferredRestore : M unit :=
  w ← gets id;
  match g_deferred w with
  | None => mret tt
  | Some d =>
      if needRoundEnd d
      then when (roundOver E) (change (fun w => w <| g_deferred := Some (d <| needRoundEnd := false |>) |>))
      else if roundOver E then mret tt
      else
        change (fun w => w <| g_deferred := None |>) ;;
        if (d_reason d =s "recovery") && (resumeActive (g_resume w) || active (g_asg w)) then mret tt
        else _ ← DoRestoreNow d; mret tt
  end.
Definition restore_of (mapNumber rnd : Z) (f sha by' why : string) (extra : Json) (s1 s2 : Z) : Restore :=
  {| needRoundEnd := false; d_map := mapNumber; d_round := rnd; d_score1 := s1; d_score2 := s2; d_file := f; d_sha := sha; d_by := by'; d_reason := why; d_extra := extra |}.

(** ** Loading *)

Definition BeginLoad : M unit :=
  phase_ (fun p => p <| handOverPending := false |>) ;;
  w ← gets id;
  doc ← lift (AssignToMatConfig (match_id (g_asg w)) (g_config w));
  let json := Dump doc.1 in
  r ← lift (ParseWebhookMatchContextFromJson (server E) json);
  match r with
  | inr _ => mret tt
  | inl ctx =>
      SetPassword (Str (g_config w) "password" EmptyString) ;;
      phase_ (fun p => p <| loadFromMap := currentMap E |> <| loadMapStarts := mapStarts p |>) ;;
      emit (ScrimAuto false) ;;
      let rp := resumePlan (g_resume w) in
      if negb (licensed E) then mret tt
      else
        emit (LoadMatch ctx json (if resumeActive (g_resume w) then map_number rp else 1)) ;;
        change (fun w => w <| loaded := Some ctx |>) ;;
        when (resumeActive (g_resume w)) (emit (SeedSeries (c_matchid ctx) (series_team1 rp) (series_team2 rp) (maps_done rp))) ;;
        phase_ (fun p => p <| loading := true |> <| loadStarted := g_now (g_clocks w) |> <| phaseReason := "assign" |>)
  end.
Definition CheckLoaded : M unit :=
  w ← gets id;
  let p := g_phase w in
  let changed := (negb (sempty (currentMap E)) && negb (currentMap E =s loadFromMap p)) || negb (mapStarts p =? loadMapStarts p) in
  let waited := dsub (g_now (g_clocks w)) (loadStarted p) in
  when (loading p && (changed || (of_int 120 <d waited)) && (of_int 1 <d waited)) (phase_ (fun p => p <| loading := false |>)).

Definition ClearAssignment : M unit :=
  change (fun w => w <| g_fence := Retire (g_fence w) (match_id (g_asg w)) (epoch (g_asg w)) |> <| g_asg := NoAssignment |> <| g_config := JNull |>
                     <| g_stream := Reset JNull 0 |> <| g_execs := [] |> <| g_resume := BootResume |> <| g_sentBackups := ∅ |>) ;;
  phase_ (fun p => p <| handOverPending := false |> <| loading := false |> <| restoring := false |> <| seriesOver := false |> <| serverReset := false |>
                     <| latestBackupRound := -1 |> <| lastLive := JNull |> <| backupScanAt := minus1 |>) ;;
  emits [SignalsOn false; ScrimAuto true].

Definition UnloadMatch : M unit := change (fun w => w <| loaded := None |>).
Definition DropLoaded : M unit := UnloadMatch ;; emit ResetServer.

(** ** Messages *)

Record Msg := { m_type : string; m_id : string; m_epoch : Z; m_payload : string }.
Definition ParsePayload (m : Msg) : Json := match Parse (m_payload m) with Parsed (JObject _ as p) => p | _ => JObject [] end.
Definition MsgEpoch (m : Msg) (p : Json) : option Z := if 0 <? m_epoch m then Some (m_epoch m) else Int p "epoch" 0.

(** The map a resume continues on gets the sides its knife round decided. *)
Fixpoint fix_sides (n : Z) (mapNumber : Z) (sd : string) (l : list Json) : list Json :=
  match l with
  | [] => []
  | m :: l => (if n =? mapNumber then SetKey m "sides" (JString sd) else m) :: fix_sides (n + 1) mapNumber sd l
  end.
Definition resumed_config (config : Json) (p : ResumePlan) : Json :=
  if present p && negb (sempty (sides p)) then at_key "maps" (fun maps => JArray (fix_sides 1 (map_number p) (sides p) (Items maps))) config else config.

Definition KeepOnHandOver (cfg : Json) (sid : Z) : bool := InAssignedMatch cfg sid.
Definition kHandOverMessage : string := "This server was assigned a tournament match. Thanks for playing!".

(** The state is sent from revision 0. *)
Definition StartStream : M unit :=
  st ← BuildState;
  change (fun w => w <| g_stream := Reset st 0 |>) ;;
  PublishState (state_ (Reset st 0)) ;;
  _ ← SendSnapshot "assign" false; mret tt.

(** The match of an accepted assignment starts: a scrim ends, and others have 5 s to leave. *)
Definition StartAssigned (mid : string) (rp : ResumePlan) : M unit :=
  phase_ (fun p => p <| seriesOver := false |> <| serverReset := false |> <| latestBackupRound := -1 |> <| lastLive := JNull |> <| restoring := present rp && (1 <=? round rp) |>) ;;
  change (fun w => w <| g_resume := BootResume <| resumePlan := rp |> <| resumeActive := present rp |> |>) ;;
  c ← gets loaded;
  let reload := present rp && LocalMatchIs mid c in
  when reload DropLoaded ;;
  c ← gets loaded;
  cfg ← gets g_config;
  let md := if reload then modeAfterReset E else mode E in
  let scrim := Mo.is_mode md Mo.ScrimWarmup || Mo.is_mode md Mo.Practice || Mo.is_mode md Mo.External ||
               match c with Some c => c_slug c =s "scrim" | None => false end in
  let outsiders := existsb (fun h => negb (h.2 =? 0) && negb (KeepOnHandOver cfg h.2)) (humans E) in
  emit (ScrimAuto false) ;;
  if scrim || outsiders then
    emit (ChatAll "admin.hand_over") ;;
    when scrim DropLoaded ;;
    now ← gets (fun w => g_now (g_clocks w));
    phase_ (fun p => p <| handOverPending := true |> <| handOverAt := dadd now (of_int 5) |>)
  else BeginLoad.

(** The verdict on an assignment.  A finished match that was not unassigned yet does not block the next one, nor does
    this server's own copy of a match the platform resumes. *)
Definition assign_verdict (w : Link) (mid : string) (ep : Z) (resumes : bool) : Verdict :=
  let cur := if active (g_asg w) && serverReset (g_phase w) && negb (match_id (g_asg w) =s mid) then g_asg w <| active := false |> else g_asg w in
  CheckAssign (g_fence w) cur mid ep (LocalMatchActive (g_asg w) (loaded w) && negb (resumes && LocalMatchIs mid (loaded w))).
Definition refuse_assign (w : Link) (v : Verdict) (ep : Z) : Result :=
  Rejected (VerdictCode v)
    (if decide (v = Busy) then "this server has another match (" +s+ (if active (g_asg w) then match_id (g_asg w) else "local") +s+ ")"
     else "epoch " +s+ to_string ep +s+ " is older than this server's").

(** An accepted assignment takes effect. *)
Definition AdoptAssign (ref mid : string) (ep : Z) (p : Json) (rp : ResumePlan) : M unit :=
  w ← gets id;
  let same := active (g_asg w) && (match_id (g_asg w) =s mid) in
  when (active (g_asg w) && negb same) ClearAssignment ;;
  rev ← lift (Int p "config_rev" 1);
  change (fun w => w <| g_asg := {| active := true; match_id := mid; epoch := ep; config_rev := Z.max 1 rev |} |>
                     <| g_config := resumed_config (or_empty (Find p "config")) rp |> <| g_fence := Retire (g_fence w) mid ep |>) ;;
  emit (SignalsOn true) ;;
  Reply ref ep OkResult EmptyString ;;
  w ← gets id;
  (if same && CtxIsOurs (g_asg w) (loaded w) && negb (present rp) then SetPassword (Str (g_config w) "password" EmptyString) else StartAssigned mid rp) ;;
  StartStream.

Definition OnAssign (m : Msg) : M unit :=
  let p := ParsePayload m in
  ep ← lift (MsgEpoch m p);
  let answer r := Reply (m_id m) ep r EmptyString in
  valid ← lift (ValidateAssign (server E) p);
  match valid with
  | inl err => answer (Rejected "invalid_config" err)
  | inr _ =>
      let mid := Str p "match_id" EmptyString in
      rs ← lift match Find p "resume" with Some rs => ParseResume rs (or_empty (Find p "config")) ep | None => ok NoResume end;
      match rs with
      | inl (c, why) => answer (Rejected c why)
      | inr rp =>
          w ← gets id;
          match assign_verdict w mid ep (present rp) with
          | Duplicate => answer OkResult
          | Ok =>
              if g_draining w then answer (Rejected "busy" "this server is draining: it takes no new match")
              else
                '(r, rp) ← (if present rp && (1 <=? round rp) then PrepareResumeBackup mid rp else mret (OkResult, rp));
                if negb (status r =s "ok") then answer r else AdoptAssign (m_id m) mid ep p rp
          | v => answer (refuse_assign w v ep)
          end
      end
  end.

(** The loaded match follows the new config; maps and sides that were decided stay. *)
Definition FollowConfig : M unit :=
  w ← gets id;
  doc ← lift (AssignToMatConfig (match_id (g_asg w)) (g_config w));
  let json := Dump doc.1 in
  fresh ← lift (ParseWebhookMatchContextFromJson (server E) json);
  match fresh, loaded w with
  | inl fresh, Some cur =>
      when (CtxIsOurs (g_asg w) (loaded w))
        (change (fun w => w <| loaded := Some (fresh <| c_maplist := c_maplist cur |> <| c_map_sides := c_map_sides cur |> <| c_num_maps := c_num_maps cur |>) |>) ;;
         emit (Persisted json))
  | _, _ => mret tt
  end.
Definition with_rev (r : Result) (rev : Z) : Result := {| status := status r; r_code := r_code r; message := message r; r_rev := rev; output := output r |}.

Definition OnUpdate (m : Msg) : M unit :=
  let p := ParsePayload m in
  ep ← lift (MsgEpoch m p);
  let answer r := Reply (m_id m) ep r EmptyString in
  w ← gets id;
  match CheckScoped (g_fence w) (g_asg w) (Str p "match_id" EmptyString) ep with
  | Ok =>
      base ← lift (Int p "base_config_rev" (-1));
      next ← lift (Int p "config_rev" (-1));
      let rev := config_rev (g_asg w) in
      if negb (ConfigCas base rev) then
        answer (with_rev (Rejected "conflict" ("base_config_rev " +s+ to_string base +s+ " != server config_rev " +s+ to_string rev)) rev) ;;
        _ ← SendSnapshot "request" false; mret tt
      else if next <=? base then answer (Rejected "invalid_update" "config_rev must be greater than base_config_rev")
      else
        res ← lift match Find p "ops" with Some ops => ApplyUpdateOps (server E) (g_config w) ops | None => reject "no ops" end;
        match res with
        | inl err => answer (Rejected "invalid_update" (if sempty err then "no ops" else err))
        | inr (cfg, pwChanged) =>
            change (fun w => w <| g_config := cfg |> <| g_asg := g_asg w <| config_rev := next |> |>) ;;
            FollowConfig ;;
            when pwChanged (SetPassword (Str cfg "password" EmptyString)) ;;
            answer (with_rev OkResult next)
        end
  | v => answer (Rejected (VerdictCode v) "match.update for a match / epoch this server does not run")
  end.

(** Whether there was a copy to drop. *)
Definition DropRecoveredCopy (mid : string) (ep : Z) : M bool :=
  w ← gets id;
  let running := LocalMatchIs mid (loaded w) in
  kept ← (if running then DropLoaded ;; mret false
          else match saved E with
               | Some json =>
                   c ← lift (ParseWebhookMatchContextFromJson (server E) json);
                   match c with
                   | inl c => if c_matchid c =? NumericMatchId mid then emit ForgetMatch ;; mret true else mret false
                   | inr _ => mret false
                   end
               | None => mret false
               end);
  if negb running && negb kept then mret false
  else emit RecoveryCancel ;; change (fun w => w <| g_fence := Retire (g_fence w) mid ep |>) ;; SetPassword EmptyString ;; mret true.

(** The assignment ends: its match is unloaded, unless the end card is up. *)
Definition EndAssigned (kickMsg : string) : M unit :=
  w ← gets id;
  let ours := CtxIsOurs (g_asg w) (loaded w) in
  let endCardUp := ours && Mo.is_mode (mode E) Mo.Postgame && matchEndPending E && sempty kickMsg in
  when (ours && negb endCardUp) DropLoaded ;;
  SetPassword EmptyString ;;
  if endCardUp then mret tt
  else if negb (sempty kickMsg) then KickEveryone kickMsg
  else when (negb (bool_decide (humans E = [])))
         (change (fun w => w <| g_kicks := g_kicks w ++ [{| k_at := dadd (g_now (g_clocks w)) (of_int (Z.max 1 (noDemoDelay E)));
                                                            k_message := "Match ended. Thanks for playing!" |}] |>)).

Definition OnUnassign (m : Msg) : M unit :=
  let p := ParsePayload m in
  ep ← lift (MsgEpoch m p);
  let mid := Str p "match_id" EmptyString in
  let answer r := Reply (m_id m) ep r EmptyString in
  let told := PublishState JNull ;; _ ← SendSnapshot "request" false; mret tt in
  w ← gets id;
  if negb (active (g_asg w)) && (0 <? ep) && (ep =? Retired (g_fence w) mid) then answer OkResult
  else
    match CheckScoped (g_fence w) (g_asg w) mid ep with
    | Ok => EndAssigned (Str p "kick_message" EmptyString) ;; answer OkResult ;; ClearAssignment ;; told
    | v =>
        dropped ← (if negb (active (g_asg w)) && bool_decide (v = NotAssigned) && (0 <? ep) then DropRecoveredCopy mid ep else mret false);
        if (dropped : bool) then answer OkResult ;; told
        else answer (Rejected (VerdictCode v) "match.unassign for a match / epoch this server does not run")
    end.

(** ** Commands *)

Definition IsLiveMode : bool := Mo.is_mode (mode E) Mo.MatchLive.
Definition IsWarmupMode : bool := Mo.is_mode (mode E) Mo.MatchWarmup && negb (goLive E) && negb (awaitingPick E).

Definition CmdPause (args : Json) (by' : string) : M Result :=
  if negb IsLiveMode then mret (Rejected "bad_phase" "pause needs a live match")
  else if PauseState.paused (pause_ E) then mret (Rejected "already_paused" "the match is already paused")
  else
    let t := Str args "type" "admin" in
    if negb (Mi.one_of t ["admin"; "technical"]) then mret (Rejected "bad_args" "type must be admin or technical")
    else
      q ← enqueue "mp_pause_match";
      if negb q then mret (Failed "engine" "mp_pause_match unavailable")
      else emit (PausedBy t by') ;; reason "cmd:pause" ;; emit (ChatAll (if t =s "technical" then "admin.paused_technical" else "admin.paused")) ;; mret OkResult.

Definition CmdUnpause (by' : string) : M Result :=
  if negb (PauseState.paused (pause_ E)) then mret (Rejected "not_paused" "the match is not paused")
  else
    emit AdminUnpausing ;;
    q ← enqueue "mp_unpause_match";
    if negb q then mret (Failed "engine" "mp_unpause_match unavailable")
    else emit Unpaused ;; phase_ (fun p => p <| unpauseBy := by' |> <| phaseReason := "cmd:unpause" |>) ;; emit (ChatAll "admin.unpaused") ;; mret OkResult.

(** The connected roster players a [force_ready] means. *)
Definition forced (c : WebhookMatchContext) (team : string) (one : Z) : list Z :=
  List.filter (fun sid => ((one =? 0) || (sid =? one)) &&
                          match roster_team (c_roster c) !! sid with
                          | Some t => sempty team || ((if decide (t = Team1) then "team1" else "team2") =s team)
                          | None => false
                          end) (snd <$> humans E).
Definition CmdForceReady (args : Json) : M Result :=
  if negb IsWarmupMode then mret (Rejected "bad_phase" "force_ready works in warmup only")
  else
    c ← gets loaded;
    match c with
    | None => mret (Rejected "bad_phase" "no match loaded")
    | Some c =>
        let team := Str args "team" EmptyString in
        if negb (sempty team) && negb (Mi.one_of team ["team1"; "team2"]) then mret (Rejected "bad_args" "team must be team1 or team2")
        else
          let one := Str args "steamid64" EmptyString in
          let oneId := if sempty one then 0 else strtoull one in
          if negb (sempty one) && (oneId =? 0) then mret (Rejected "bad_args" "steamid64 must be a SteamID64")
          else
            let l := forced c team oneId in
            emits (ReadyOn <$> l) ;;
            if negb (oneId =? 0) && bool_decide (l = []) then mret (Rejected "not_connected" ("no connected roster player " +s+ one))
            else emits [ReadyChanged; ChatAll (if oneId =? 0 then "admin.readied_all" else "admin.readied_one")] ;; mret OkResult
    end.

(** The file of a [restore_round] and its digest: sent along, or this server's own. *)
Definition restore_file (args : Json) (mapNumber rnd : Z) : M (Result + (string * string)) :=
  match Find args "backup" with
  | Some (JObject _ as b) =>
      parts ← lift (Int b "parts" 1);
      let f := Str b "file" EmptyString in
      if 1 <? parts then mret (inl (Rejected "unsupported" "multi-part inline backups are not accepted yet"))
      else if negb (SafeBackupFileName f) then mret (inl (Rejected "bad_args" "backup.file is not a plain *.txt name"))
      else
        match (if Str b "encoding" "base64" =s "base64" then Base64Decode (Str b "data" EmptyString) else None) with
        | None => mret (inl (Rejected "bad_args" "backup.data is not base64"))
        | Some content =>
            let sha := Sha256Hex content in
            if negb (sha =s Str b "sha256" EmptyString) then mret (inl (Rejected "checksum" "backup sha256 mismatch"))
            else
              size ← lift (Int b "size" (slen content));
              if negb (size =? slen content) then mret (inl (Rejected "checksum" "backup size mismatch"))
              else r ← WriteBackupFile f content; mret (if status r =s "ok" then inr (f, sha) else inl r)
        end
  | _ =>
      a ← gets g_asg;
      match findLocal E (BackupPrefixFor (match_id a) mapNumber) rnd with
      | None => mret (inl (Rejected "no_backup" ("no local backup for map " +s+ to_string mapNumber +s+ " round " +s+ to_string rnd +s+ "; send it inline")))
      | Some f => mret (inr (f, Sha256Hex (default EmptyString (localFile E f))))
      end
  end.
Definition CmdRestore (args : Json) (by' : string) : M Result :=
  w ← gets id;
  if negb (CtxIsOurs (g_asg w) (loaded w)) then mret (Rejected "bad_phase" "no match loaded")
  else if resumeActive (g_resume w) then mret (Rejected "bad_phase" "the failover resume has not restored its backup yet")
  else if negb (Mo.is_mode (mode E) Mo.MatchLive || Mo.is_mode (mode E) Mo.MatchWarmup) then mret (Rejected "bad_phase" "restore needs warmup or a live map")
  else
    n ← lift (Int args "map_number" (curMapNumber E));
    r ← lift (Int args "round" 0);
    let mapNumber := to_int32 n in let rnd := to_int32 r in
    if negb (mapNumber =? curMapNumber E)
    then mret (Rejected "bad_phase" ("the backup is for map " +s+ to_string mapNumber +s+ ", the server is on map " +s+ to_string (curMapNumber E)))
    else if rnd <? 1 then mret (Rejected "bad_args" "round must be >= 1")
    else
      f ← restore_file args mapNumber rnd;
      match f with
      | inl r => mret r
      | inr (f, sha) =>
          au ← DoRestore (restore_of mapNumber rnd f sha by' "restore" (JObject []) (-1) (-1));
          reason "cmd:restore_round" ;; emit (ChatAll (if (au : bool) then "admin.restored_live" else "admin.restored_wait")) ;; mret OkResult
      end.
Definition RunResumeRestore : M unit :=
  w ← gets id;
  let p := resumePlan (g_resume w) in
  emit (SeedStats p) ;;
  _ ← DoRestore (restore_of (map_number p) (round p) (file p) (sha256 p) "platform:resume" "resume"
                   (JObject ([("resume", JBool true)] ++ Fs.when (0 <? from_epoch p) [("from_epoch", JInt (from_epoch p))])) (score_team1 p) (score_team2 p));
  reason "resume" ;; resume_ (fun r => r <| resumeUnpauseAt := dadd (g_now (g_clocks w)) (of_int 3) |>) ;; emit (ChatAll "admin.moved_live").

Definition CmdEnd (args : Json) : M Result :=
  w ← gets id;
  if negb (CtxIsOurs (g_asg w) (loaded w)) then mret (Rejected "bad_phase" "no match loaded")
  else
    let winner := Str args "winner" "none" in
    if negb (is_winner winner) then mret (Rejected "bad_args" "winner must be team1 or team2")
    else
      let score := Copy (Path (state_ (g_stream w)) ["series"; "score"]) in
      s1 ← lift (Int score "team1" 0); s2 ← lift (Int score "team2" 0);
      emits [Signalled "series_end" (JObject [("type", JString "series_end"); ("winner", JString winner); ("reason", JString (Str args "reason" "admin"));
               ("forced", JBool true); ("team1_series_score", JInt s1); ("team2_series_score", JInt s2); ("seconds_until_reset", JInt 0)]) (-1) (-1);
             SeriesEndHook winner] ;;
      DropLoaded ;; phase_ (fun p => p <| seriesOver := true |> <| phaseReason := "cmd:end_match" |>) ;; emit (ChatAll "admin.ended") ;; mret OkResult.

Definition LoadMapEntry (entry : string) : M bool :=
  if sempty (Mn.LoadCommand entry) then mret false else emit (LoadMap entry) ;; enqueue (Mn.LoadCommand entry).
Definition CmdChangeMap (args : Json) : M Result :=
  if negb IsWarmupMode then mret (Rejected "bad_phase" "change_map works before the map goes live only")
  else
    w ← gets id;
    if negb (CtxIsOurs (g_asg w) (loaded w)) then mret (Rejected "bad_phase" "no match loaded")
    else
      n ← lift (Int args "map_number" 0);
      let load entry := q ← LoadMapEntry entry;
                        if (q : bool) then reason "cmd:change_map" ;; mret OkResult else mret (Rejected "bad_args" "bad map") in
      if 0 <? n then
        match Items (Copy (Find (g_config w) "maps")) !! Z.to_nat (n - 1) with
        | Some m => load (Mn.MakeEntry (Str m "name" EmptyString) (Str m "workshop_id" EmptyString))
        | None => mret (Rejected "bad_args" "no such map_number")
        end
      else
        let nm := Str args "name" EmptyString in let ws := Str args "workshop_id" EmptyString in
        if (negb (sempty nm) && negb (SafeMapName nm)) || (negb (sempty ws) && negb (SafeWorkshopId ws)) then mret (Rejected "bad_args" "bad map")
        else
          let entry := Mn.MakeEntry nm ws in
          if sempty entry then mret (Rejected "bad_args" "name or workshop_id needed")
          else
            let idx := Z.to_nat (Z.max 1 (curMapNumber E) - 1) in
            change (fun w => match loaded w with Some c => w <| loaded := Some (c <| c_maplist := <[idx := entry]> (c_maplist c) |>) |> | None => w end) ;;
            load entry.
Definition CmdSwapTeams : M Result :=
  w ← gets id;
  if negb IsWarmupMode then mret (Rejected "bad_phase" "swap_teams works in warmup only")
  else if negb (CtxIsOurs (g_asg w) (loaded w)) then mret (Rejected "bad_phase" "no match loaded")
  else match swapRefused E with Some why => mret (Rejected "bad_phase" why) | None => emit SwapTeams ;; mret OkResult end.
Definition CmdKick (args : Json) : M Result :=
  let sid := Str args "steamid64" EmptyString in
  match List.find (fun h => (to_string h.2 =s sid) && negb (h.1 <? 0)) (humans E) with
  | Some h => command (kick_line h.1 (Str args "message" "Kicked by a tournament admin")) ;; mret OkResult
  | None => mret (Rejected "not_connected" ("no connected player " +s+ sid))
  end.

(** All settings are checked before the first is set. *)
Fixpoint checked_settings (l : list (string * Json)) : Result + list (string * string) :=
  match l with
  | [] => inr []
  | (k, v) :: l =>
      match scalar_text v with
      | None => inl (Rejected "bad_args" (k +s+ ": a boolean, number or string"))
      | Some t =>
          match settingError E k t with
          | Some err => inl (Rejected "bad_args" err)
          | None => match checked_settings l with inl r => inl r | inr todo => inr ((k, t) :: todo) end
          end
      end
  end.
Fixpoint set_settings (by' : string) (l : list (string * string)) : M (option string) :=
  match l with
  | [] => mret None
  | (k, t) :: l => match setError E k t with Some err => mret (Some err) | None => emit (Setting k t by') ;; set_settings by' l end
  end.
Definition CmdSettingsSet (args : Json) (by' : string) : M Result :=
  match Find args "settings" with
  | Some (JObject _) | None =>
      match checked_settings (Members (Copy (Find args "settings"))) with
      | inl r => mret r
      | inr todo =>
          err ← set_settings by' todo;
          match err with
          | Some err => mret (Failed "engine" err)
          | None => mret {| status := "ok"; r_code := EmptyString; message := EmptyString; r_rev := -1;
                            output := Some (foldr (fun l acc => l +s+ str1 newline +s+ acc) EmptyString (settingLines E)) |}
          end
      end
  | Some _ => mret (Rejected "bad_args" "settings must be an object")
  end.

Definition CmdStart (args : Json) : M Result :=
  let force := Bool args "force" false in
  r ← (if IsLiveMode then
         q ← enqueue "mp_warmup_pausetimer 0";
         q ← (if (q : bool) then enqueue "mp_warmup_end" else mret false);
         mret (if (q : bool) then OkResult else Failed "engine" "could not queue mp_warmup_end")
       else if negb IsWarmupMode then mret (Rejected "bad_phase" "start works in warmup only")
       else
         emit (ForceStart force) ;;
         mret (if forceStarts E force then OkResult
               else if negb force && liveCfgRequired E && gotvDown E
               then Rejected "gotv_off" ("GOTV is off on this map (valve ruleset): reload the map, or start with {" +s+ quoted "force" +s+ ": true}")
               else Failed "engine" "force start failed"));
  when (status r =s "ok") (reason "cmd:start") ;; mret r.
Definition CmdRestartMap : M Result :=
  w ← gets id;
  if negb (CtxIsOurs (g_asg w) (loaded w)) then mret (Rejected "bad_phase" "no match loaded")
  else
    emits [RestartMap; Signalled "rounds_voided" (JObject [("from_round", JInt 1); ("reason", JString "restart_map")]) 1 (-1)] ;;
    reason "cmd:restart_map" ;; mret OkResult.

Definition kMatchCmds : list string :=
  ["pause"; "unpause"; "force_ready"; "start"; "restore_round"; "restart_round"; "restart_map"; "end_match"; "end"; "change_map"; "swap_teams"].
Definition kExecOutputMax : Z := 8192.

(** [exec]: only a root admin's, and only what [ValidateExec] allows; its reply comes later ([None]). *)
Definition CmdExec (args issued : Json) (ref auditId : string) (ep : Z) : M (option Result) :=
  let cmd := Str args "command" EmptyString in
  if negb (Bool issued "root" false) then mret (Some (Rejected "forbidden" "exec is for root admins only (D10)"))
  else
    match ValidateExec cmd with
    | Some err => mret (Some (Rejected "invalid_command" err))
    | None =>
        q ← enqueue cmd;
        if negb q then mret (Some (Failed "engine" "the command could not be queued"))
        else change (fun w => w <| g_execs := g_execs w ++ [{| x_ref := ref; x_audit := auditId; x_epoch := ep;
                                                               x_until := dadd (g_now (g_clocks w)) (dratio 1 2); x_output := EmptyString |}] |>) ;; mret None
    end.
Definition run_cmd (nm : string) (args issued : Json) (by' ref auditId : string) (ep : Z) : M (option Result) :=
  let done (m : M Result) := r ← m; mret (Some r) in
  if nm =s "pause" then done (CmdPause args by')
  else if nm =s "unpause" then done (CmdUnpause by')
  else if nm =s "force_ready" then done (CmdForceReady args)
  else if nm =s "start" then done (CmdStart args)
  else if Mi.one_of nm ["restore_round"; "restart_round"] then done (CmdRestore args by')
  else if nm =s "restart_map" then done CmdRestartMap
  else if Mi.one_of nm ["end_match"; "end"] then done (CmdEnd args)
  else if nm =s "change_map" then done (CmdChangeMap args)
  else if nm =s "swap_teams" then done CmdSwapTeams
  else if nm =s "kick" then done (CmdKick args)
  else if nm =s "settings.set" then done (CmdSettingsSet args by')
  else if nm =s "snapshot_now" then done (q ← SendSnapshot "request" true; mret (if (q : bool) then OkResult else Failed "offline" "not connected"))
  else if nm =s "exec" then CmdExec args issued ref auditId ep
  else mret (Some (Rejected "unknown_command" ("unknown cmd " +s+ quoted nm))).

Definition obj_of (p : Json) (k : string) : Json := match Find p k with Some (JObject _ as a) => a | _ => JObject [] end.
(** A command about a match must name the match and the epoch that run. *)
Definition cmd_refusal (w : Link) (nm mid : string) (ep : Z) : option Result :=
  if Mi.one_of nm kMatchCmds || negb (sempty mid) then
    if sempty mid then Some (Rejected "bad_request" (nm +s+ " needs match_id and epoch"))
    else
      match CheckScoped (g_fence w) (g_asg w) mid ep with
      | Ok => None
      | v => Some (Rejected (VerdictCode v) "cmd for a match / epoch this server does not run")
      end
  else None.
Definition OnCmd (m : Msg) : M unit :=
  let p := ParsePayload m in
  ep ← lift (MsgEpoch m p);
  let nm := Str p "name" EmptyString in
  let issued := obj_of p "issued_by" in
  let auditId := Str p "audit_id" EmptyString in
  expires ← lift (Int p "expires_at" 0);
  if (0 <? expires) && (expires <? unixMs E)
  then Reply (m_id m) ep {| status := "expired"; r_code := EmptyString; message := EmptyString; r_rev := -1; output := None |} auditId
  else
    w ← gets id;
    match cmd_refusal w nm (Str p "match_id" EmptyString) ep with
    | Some r => Reply (m_id m) ep r auditId
    | None =>
        r ← run_cmd nm (obj_of p "args") issued ("platform:" +s+ Str issued "user_id" "?") (m_id m) auditId ep;
        match r with Some r => Reply (m_id m) ep r auditId | None => mret tt end
    end.

(** ** Other messages *)

Definition apply_setting (by' : string) (kv : string * string) : M unit :=
  match setError E kv.1 kv.2 with Some _ => mret tt | None => emit (Setting kv.1 kv.2 by') end.
Definition apply_console (kv : string * string) : M unit := when (consoleTakes E kv.1 kv.2) (emit (ConsoleSetting kv.1 kv.2)).
Fixpoint for_each {A} (f : A -> M unit) (l : list A) : M unit := match l with [] => mret tt | x :: l => f x ;; for_each f l end.
Definition OnServerConfig (m : Msg) : M unit :=
  let p := ParsePayload m in
  match Find p "settings" with
  | Some (JObject _ as st) =>
      rev ← lift (Int p "rev" 0);
      let plan := PlanServerConfig st in
      for_each (apply_setting ("platform:server.config rev " +s+ to_string rev)) (settings plan) ;; for_each apply_console (console plan)
  | _ => mret tt
  end.

Definition OnDrain (drain : bool) : M unit :=
  w ← gets id;
  if Bool.eqb (g_draining w) drain then mret tt
  else
    change (fun w => w <| g_draining := drain |>) ;;
    PublishState (if active (g_asg w) && HasState (g_stream w) then state_ (g_stream w) else JNull).

Definition OnOfflineTimeout : M unit :=
  w ← gets id;
  if negb (active (g_asg w)) || negb (CtxIsOurs (g_asg w) (loaded w)) || negb IsLiveMode || PauseState.paused (pause_ E) then mret tt
  else
    q ← enqueue "mp_pause_match";
    when q (emit (PausedBy "offline" "platform-link") ;; reason "offline" ;; emit (ChatAll "admin.offline_paused")).

Definition OnConnection (m : Msg) : M unit :=
  a ← gets g_asg;
  when ((Str (ParsePayload m) "state" EmptyString =s "online") && active a) (_ ← SendSnapshot "hello" true; mret tt).

Definition admin_of (a : Json) : list (Z * string) :=
  if negb (IsObject a) then []
  else
    let id := match Find a "steamid64" with Some (JString s) => strtoull s | Some (JInt i) => if 0 <? i then i else 0 | _ => 0 end in
    if id =? 0 then [] else [(id, Str a "name" EmptyString)].
Definition OnAdminsSet (m : Msg) : M unit :=
  let p := ParsePayload m in
  rev ← lift (Int p "rev" (-1));
  match Find p "admins" with
  | Some (JArray l) => when ((0 <=? rev) && adminsNewer E rev) (emits [FleetAdmins rev (flat_map admin_of l); AdminsRev])
  | _ => mret tt
  end.

Definition OnMessage (m : Msg) : M unit :=
  let t := m_type m in
  if t =s "match.assign" then OnAssign m
  else if t =s "match.update" then OnUpdate m
  else if t =s "match.unassign" then OnUnassign m
  else if t =s "cmd" then OnCmd m
  else if t =s "local.offline_timeout" then OnOfflineTimeout
  else if t =s "local.connection" then OnConnection m
  else if t =s "admins.set" then OnAdminsSet m
  else if t =s "server.config" then OnServerConfig m
  else if t =s "server.drain" then OnDrain true
  else if t =s "server.undrain" then OnDrain false
  else mret tt.

(** A new image of the fleet plugin knows nothing of this one. *)
Definition EnsureHandlers : M unit :=
  if negb (hasFleet E) then change (fun w => w <| g_fleetInstance := 0 |>)
  else
    w ← gets id;
    if fleetInstance E =? g_fleetInstance w then mret tt
    else
      change (fun w => w <| g_fleetInstance := fleetInstance E |>) ;;
      emit AdminsRev ;;
      change (fun w => w <| g_lastPublishedAvail := EmptyString |>) ;;
      when (active (g_asg w)) (PublishState (state_ (g_stream w)) ;; _ ← SendSnapshot "hello" true; mret tt).

(** ** Log lines *)

Definition ends_with_newline (s : string) : bool := match String.get (String.length s - 1) s with Some c => Ascii.eqb c newline | None => false end.
Definition captured (line : string) (x : ExecCapture) : ExecCapture :=
  if kExecOutputMax <=? slen (x_output x) then x
  else
    let o := x_output x +s+ line in
    let o := if ends_with_newline o then o else o +s+ str1 newline in
    {| x_ref := x_ref x; x_audit := x_audit x; x_epoch := x_epoch x; x_until := x_until x; x_output := stake (Z.to_nat kExecOutputMax) o |}.
(** A chat line of a player goes to the platform, five in five seconds. *)
Definition ForwardChat (signalsOn : bool) (line : string) : M unit :=
  w ← gets id;
  if negb (active (g_asg w)) || negb signalsOn || (negb (contains kSay line) && negb (contains kSayTeam line)) then mret tt
  else
    match ParseChatLogLine line ((fun h => {| kh_userid := h.1; kh_steamid64 := h.2 |}) <$> humans E) with
    | None => mret tt
    | Some c =>
        if isDevBot E (cl_steamid64 c) || IsCommand (cl_message c) then mret tt
        else
          let d := EventData c (TeamOf (g_config w) (cl_steamid64 c)) (unixMs E) in
          if sempty (AsString (Copy (Find d "message"))) then mret tt
          else
            let '(l, allowed) := Allow (cl_steamid64 c) (g_now (g_clocks w)) (g_chatLimit w) in
            change (fun w => w <| g_chatLimit := l |>) ;; when allowed (emit (Signalled "chat" d (-1) (-1)))
    end.
Definition OnLogLine (signalsOn : bool) (line : string) : M unit :=
  ForwardChat signalsOn line ;; change (fun w => w <| g_execs := captured line <$> g_execs w |>).

(** ** The tick *)

Record Signal := { s_type : string; s_data : Json; s_round : Z; s_map : Z }.

Definition exec_result (x : ExecCapture) : Result :=
  {| status := "ok"; r_code := EmptyString; message := EmptyString; r_rev := -1; output := Some (x_output x) |}.
Definition answer_execs (now : double) : M unit :=
  xs ← gets g_execs;
  for_each (fun x => Reply (x_ref x) (x_epoch x) (exec_result x) (x_audit x)) (List.filter (fun x => negb (now <d x_until x)) xs) ;;
  change (fun w => w <| g_execs := List.filter (fun x => now <d x_until x) xs |>).
Definition run_kicks (now : double) : M unit :=
  ks ← gets g_kicks;
  for_each (fun k => KickEveryone (k_message k)) (List.filter (fun k => negb (now <d k_at k)) ks) ;;
  change (fun w => w <| g_kicks := List.filter (fun k => now <d k_at k) ks |>).
Definition TickIdle (now : double) : M unit :=
  w ← gets id;
  when (hasFleet E && (of_int 1 <=d dsub now (lastIdlePublish (g_clocks w))))
    (change (fun w => w <| g_clocks := g_clocks w <| lastIdlePublish := now |> |>) ;;
     when (negb (g_lastPublishedAvail w =s Availability w)) (PublishState JNull)) ;;
  run_kicks now.

Definition TickResume (now : double) : M unit :=
  w ← gets id;
  let r := g_resume w in let p := resumePlan r in
  when (resumeActive r && negb (loading (g_phase w)) && negb (handOverPending (g_phase w)))
    (when (negb (curMapNumber E =? map_number p) && CtxIsOurs (g_asg w) (loaded w)) (emit (FollowMap (map_number p))) ;;
     if round p <? 1 then when (negb (Mo.is_mode (mode E) Mo.MatchWarmup)) (resume_ (fun r => r <| resumeActive := false |>))
     else if negb (resumeRestored r) && IsLiveMode && (resumeRestoreAt r <d of_int 0) then resume_ (fun r => r <| resumeRestoreAt := dadd now (of_int 1) |>)
     else when ((of_int 0 <=d resumeRestoreAt r) && (resumeRestoreAt r <=d now))
            (resume_ (fun r => r <| resumeRestoreAt := minus1 |> <| resumeRestored := true |>) ;; RunResumeRestore)) ;;
  r ← gets g_resume;
  when ((of_int 0 <=d resumeUnpauseAt r) && (resumeUnpauseAt r <=d now))
    (resume_ (fun r => r <| resumeUnpauseAt := minus1 |>) ;;
     if PauseState.paused (pause_ E)
     then q ← enqueue "mp_unpause_match"; when q (emit Unpaused ;; phase_ (fun p => p <| unpauseBy := "resume" |> <| phaseReason := "resume" |>))
     else mret tt).

Definition KnifeReason (short : string) : string :=
  if short =s "more alive" then "alive" else if short =s "more HP" then "hp" else if short =s "coin flip" then "coin" else "elimination".
(** One signal: what it changes here and the event it becomes. *)
Definition take_signal (knifeReason : string) (s : Signal) : M (list Ev) :=
  if s_type s =s "server_reset" then phase_ (fun p => p <| serverReset := true |>) ;; mret []
  else
    w ← gets id;
    if resumeActive (g_resume w) && restoring (g_phase w) && Mi.one_of (s_type s) ["round_start"; "round_end"; "backup"; "halftime"] then mret []
    else
      d ← (if s_type s =s "backup" then phase_ (fun p => p <| latestBackupRound := Z.max (latestBackupRound p) (s_round s) |>) ;; mret (s_data s)
           else if s_type s =s "series_end" then phase_ (fun p => p <| seriesOver := true |>) ;; mret (s_data s)
           else if s_type s =s "round_start" then
             ScheduleBackupScan (dratio 3 2) ;;
             mret match statsScore E with
                  | Some (s1, s2) => put ["score"; "team2"] (JInt s2) (put ["score"; "team1"] (JInt s1) (s_data s))
                  | None => s_data s
                  end
           else if s_type s =s "match_restored" then
             phase_ (fun p => p <| restoring := false |>) ;;
             when (resumeActive (g_resume w)) (resume_ (fun r => r <| resumeActive := false |> <| resumeSnapshotPending := true |>)) ;; mret (s_data s)
           else if s_type s =s "knife_result" then mret (put ["reason"] (JString (KnifeReason knifeReason)) (s_data s))
           else mret (s_data s));
      mret [{| ev_type := s_type s; ev_data := d; ev_round := s_round s; ev_map := s_map s |}].
Fixpoint take_signals (knifeReason : string) (l : list Signal) : M (list Ev) :=
  match l with [] => mret [] | s :: l => a ← take_signal knifeReason s; b ← take_signals knifeReason l; mret (a ++ b) end.

(** The signals become events, the state's changes too, and all of them go to the platform. *)
Definition report (now : double) (knifeReason : string) (sigs : list Signal) : M unit :=
  evs ← take_signals knifeReason sigs;
  st ← BuildState;
  prev ← gets g_stream;
  more ← Derive (state_ prev) st;
  EmitAll st (evs ++ more) ;;
  s ← gets g_stream;
  PublishState (state_ s) ;;
  w ← gets id;
  when (resumeSnapshotPending (g_resume w)) (resume_ (fun r => r <| resumeSnapshotPending := false |>) ;; _ ← SendSnapshot "restored" true; mret tt) ;;
  let phase := Str st "phase" EmptyString in
  when (negb (Mi.one_of phase ["series_end"; "loading"]) && (of_int 60 <=d dsub now (lastPeriodic (g_clocks w))))
    (change (fun w => w <| g_clocks := g_clocks w <| lastPeriodic := now |> |>) ;; _ ← SendSnapshot "periodic" true; mret tt).

Definition TickActive (now : double) (knifeReason : string) (sigs : list Signal) : M unit :=
  w ← gets id;
  when (handOverPending (g_phase w) && (handOverAt (g_phase w) <=d now)) (KickHumans kHandOverMessage (KeepOnHandOver (g_config w)) (humans E) ;; BeginLoad) ;;
  CheckLoaded ;;
  p ← gets g_phase;
  when ((of_int 0 <=d backupScanAt p) && (backupScanAt p <=d now))
    (phase_ (fun p => p <| backupScanAt := minus1 |>) ;;
     emit (ScanBackups (BackupPrefixFor (match_id (g_asg w)) (if curMapNumber E <=? 0 then 1 else curMapNumber E)))) ;;
  TickResume now ;;
  c ← gets g_clocks;
  if bool_decide (length sigs = 0)%nat && (dsub now (lastPoll c) <d dratio 1 4) then mret tt
  else change (fun w => w <| g_clocks := g_clocks w <| lastPoll := now |> |>) ;; report now knifeReason sigs.

(** [sigs] is what [signals::Take] returns; without an assignment it is dropped. *)
Definition Tick (now : double) (knifeReason : string) (sigs : list Signal) : M unit :=
  change (fun w => w <| g_clocks := g_clocks w <| g_now := now |> |>) ;;
  EnsureHandlers ;; RunDeferredRestore ;; answer_execs now ;;
  a ← gets g_asg;
  if active a then TickActive now knifeReason sigs else TickIdle now.

Definition OnMapStart : M unit := phase_ (fun p => p <| mapStarts := (mapStarts p + 1) mod 4294967296 |>).
Definition ResumeWaiting (w : Link) : bool := resumeActive (g_resume w) && negb (resumeRestored (g_resume w)) && (1 <=? round (resumePlan (g_resume w))).
Definition UpdateSafe (w : Link) : bool := negb (active (g_asg w)) || serverReset (g_phase w).

(** Players who come, go or change sides. *)
Inductive PlayerEvent := Connect | Disconnect (why : Z) | Team (engineTeam : Z).
Definition TeamOfSid (cfg : Json) (sid : Z) : string := let t := TeamOf cfg sid in if sempty t then "none" else t.
Definition side_name (t : Z) : string := if t =? 3 then "ct" else if t =? 2 then "t" else if t =? 1 then "spectator" else "none".
Definition OnCoreEvent (e : PlayerEvent) (sid : Z) (nm : string) : M unit :=
  w ← gets id;
  if negb (active (g_asg w)) || (sid =? 0) || isDevBot E sid then mret tt
  else
    let who := [("steamid64", JString (to_string sid))] in
    let team := [("team", JString (TeamOfSid (g_config w) sid))] in
    emit match e with
         | Connect => Signalled "player_connect" (JObject (who ++ [("name", JString nm)] ++ team ++
                        match connectAddress E sid with Some a => [("address", JString a)] | None => [] end)) (-1) (-1)
         | Disconnect why => Signalled "player_disconnect" (JObject (who ++ [("name", JString nm)] ++ team ++ [("reason", JString (to_string why))])) (-1) (-1)
         | Team t => Signalled "player_team" (JObject (who ++ team ++ [("side", JString (side_name t))])) (-1) (-1)
         end.

(** Crash recovery and the vote restore from a local backup: the error, or whether the match unpauses by itself. *)
Definition RestoreRoundFromLocalBackup (rnd : Z) (by' why : string) : M (string + bool) :=
  w ← gets id;
  match loaded w with
  | None => mret (inl "no match loaded")
  | Some c =>
      if rnd <? 1 then mret (inl "round must be >= 1")
      else if (why =s "recovery") && (resumeActive (g_resume w) || active (g_asg w)) then mret (inl "the platform resumes this match")
      else
        let mapNumber := Z.max 1 (curMapNumber E) in
        let prefix := "readyup_backup_" +s+ to_string (c_matchid c mod 2 ^ 64) +s+ "_map" +s+ to_string mapNumber +s+ "_" in
        match findLocal E prefix rnd with
        | None => mret (inl ("no backup " +s+ prefix +s+ "round" +s+ (if rnd - 1 <? 10 then "0" else EmptyString) +s+ to_string (rnd - 1) +s+ ".txt"))
        | Some f =>
            au ← DoRestore (restore_of mapNumber rnd f (Sha256Hex (default EmptyString (localFile E f))) by' why (JObject []) (-1) (-1));
            (if active (g_asg w) then reason ("vote:" +s+ why) else phase_ (fun p => p <| restoring := false |>)) ;;
            mret (inr au)
        end
  end.

End Ops.

(** ** A reload of the plugin *)

Definition sorted_keys (s : gset string) : list string := merge_sort str_le (elements s).
Definition SnapshotJson (w : Link) : Json :=
  let a := g_asg w in let p := g_phase w in let r := g_resume w in
  JObject ([("active", JBool (active a)); ("match_id", JString (match_id a)); ("epoch", JInt (epoch a)); ("config_rev", JInt (config_rev a));
            ("config", g_config w); ("fence", FenceToJson (g_fence w)); ("live_rev", JInt (rev_ (g_stream w))); ("state", state_ (g_stream w));
            ("loading", JBool (loading p || handOverPending p)); ("series_over", JBool (seriesOver p)); ("server_reset", JBool (serverReset p));
            ("latest_backup_round", JInt (latestBackupRound p)); ("last_live", lastLive p);
            ("sent_backups", JArray (JString <$> sorted_keys (g_sentBackups w))); ("resume_active", JBool (resumeActive r));
            ("resume_restored", JBool (resumeRestored r)); ("restoring", JBool (restoring p))] ++
           Fs.when (resumeActive r) [("resume", ResumeToJson (resumePlan r))]).

(** Into the variables of the new image, which are as at boot. *)
Definition RestoreJson (j : Json) (w : Link) : option Link :=
  f ← match Find j "fence" with Some f => FenceFromJson f | None => Some (g_fence w) end;
  let w := w <| g_fence := f |> in
  if negb (Bool j "active" false) then Some w
  else
    ep ← Int j "epoch" 1; cr ← Int j "config_rev" 1; lr ← Int j "live_rev" 0; lb ← Int j "latest_backup_round" (-1);
    rp ← match Find j "resume" with Some r => ResumeFromJson r | None => Some (resumePlan (g_resume w)) end;
    Some (w <| g_asg := {| active := true; match_id := Str j "match_id" EmptyString; epoch := ep; config_rev := cr |} |>
            <| g_config := default (JObject []) (Find j "config") |> <| g_stream := Reset (Copy (Find j "state")) lr |>
            <| g_phase := g_phase w <| loading := Bool j "loading" false |> <| loadStarted := of_int 0 |> <| seriesOver := Bool j "series_over" false |>
                            <| serverReset := Bool j "server_reset" false |> <| latestBackupRound := to_int32 lb |> <| lastLive := Copy (Find j "last_live") |>
                            <| restoring := Bool j "restoring" false |> |>
            <| g_sentBackups := match Find j "sent_backups" with Some s => list_to_set (AsString <$> Items s) ∪ g_sentBackups w | None => g_sentBackups w end |>
            <| g_resume := g_resume w <| resumeActive := Bool j "resume_active" false |> <| resumeRestored := Bool j "resume_restored" false |> <| resumePlan := rp |> |>
            <| g_fleetInstance := 0 |> <| out := out w ++ [SignalsOn true; ScrimAuto false] |>).

End Fb.
