(* ===== verification/FleetBridgeFacts.v ===== *)
(** * The match side of the fleet link: what it guarantees

    The assignment changes only by messages that are newer than what the server has, and a message delivered twice has
    no second effect; commands about a match are refused unless they name the match and the epoch that run; the events
    of a state replay; a backup this server sends can be resumed from; a plugin reload keeps the assignment. *)

From S2P Require Import Prelude CStr Double Json JsonFacts MergePatch MatchRules PauseState Ruleset SlotRegistry AdminCall ChatForward MatchConfig MapNames Midas Modes FleetState FleetStateFacts FleetBridge.

Module FbFacts.
Import Fs FsFacts Fb.

(** ** What an operation leaves alone *)

(** The assignment, its config and the fence. *)
Definition core (w : Link) : Assignment * Json * Fence := (g_asg w, g_config w, g_fence w).
Lemma core_parts w a c f : core w = (a, c, f) -> g_asg w = a /\ g_config w = c /\ g_fence w = f.
Proof. by intros [= -> -> ->]. Qed.
Definition keeps {A} (m : M A) : Prop := forall w a w', m w = Some (a, w') -> core w' = core w.

Lemma still_ret {A} (a : A) : keeps (mret a).
Proof. by intros w b w' [= <- <-]. Qed.
Lemma bind_inv {A B} (m : M A) (k : A -> M B) w b w' : (a ← m; k a) w = Some (b, w') -> exists a w1, m w = Some (a, w1) /\ k a w1 = Some (b, w').
Proof. unfold mbind, M_bind. destruct (m w) as [[a w1]|]; [eauto|done]. Qed.
Lemma still_bind {A B} (m : M A) (k : A -> M B) : keeps m -> (forall a, keeps (k a)) -> keeps (a ← m; k a).
Proof. intros Hm Hk w b w' H. apply bind_inv in H as (a & w1 & H1 & H2). rewrite (Hk _ _ _ _ H2). by apply (Hm _ _ _ H1). Qed.
Lemma still_gets {A} (f : Link -> A) : keeps (gets f).
Proof. by intros w a w' [= <- <-]. Qed.
Lemma still_lift {A} (o : option A) : keeps (lift o).
Proof. intros w a w'. destruct o; cbn; [by intros [= <- <-]|done]. Qed.
Lemma still_change f : (forall w, core (f w) = core w) -> keeps (change f).
Proof. intros Hf w a w' [= <- <-]. apply Hf. Qed.
Lemma still_when b m : keeps m -> keeps (when b m).
Proof. destruct b; [done|intros _; apply still_ret]. Qed.
Lemma still_for_each {A} (f : A -> M unit) l : (forall x, keeps (f x)) -> keeps (for_each f l).
Proof. intros Hf. induction l as [|x l IH]; cbn [for_each]; [apply still_ret|]. apply still_bind; [apply Hf|done]. Qed.

Ltac keep_step :=
  first [ apply still_ret | apply still_gets | apply still_lift | apply still_when | apply still_for_each; intros | apply still_bind; [|intros]
        | let v := fresh in apply still_change; intros v; first [done | by destruct (loaded v)]
        | match goal with |- keeps (match ?x with _ => _ end) => destruct x | |- keeps (let _ := _ in _) => cbv zeta end ].
Create HintDb keeps.
Ltac keep := repeat first [ solve [eauto 2 with keeps nocore] | keep_step ].

Section Keeps.
Context (E : Env).

Lemma still_emit e : keeps (emit e).
Proof. unfold emit. keep. Qed.
Lemma still_emits l : keeps (emits l).
Proof. unfold emits. keep. Qed.
Lemma still_phase f : keeps (phase_ f).
Proof. unfold phase_. keep. Qed.
Lemma still_resume f : keeps (resume_ f).
Proof. unfold resume_. keep. Qed.
#[local] Hint Resolve still_emit still_emits still_phase still_resume : keeps.
Lemma still_reason s : keeps (reason s).
Proof. unfold reason. keep. Qed.
Lemma still_Send t p e r : keeps (Send E t p e r).
Proof. unfold Send. keep. Qed.
Lemma still_SendSnapshot why s : keeps (SendSnapshot E why s).
Proof. unfold SendSnapshot. keep. Qed.
#[local] Hint Resolve still_reason still_Send still_SendSnapshot : keeps.
Lemma still_Reply r e x a : keeps (Reply E r e x a).
Proof. unfold Reply. keep. Qed.
Lemma still_enqueue l : keeps (enqueue E l).
Proof. unfold enqueue. keep. Qed.
#[local] Hint Resolve still_Reply still_enqueue : keeps.
Lemma still_command l : keeps (command E l).
Proof. unfold command. keep. Qed.
#[local] Hint Resolve still_command : keeps.
Lemma still_KickHumans msg kp l : keeps (KickHumans E msg kp l).
Proof. induction l as [|[u s] l IH]; cbn [KickHumans]; keep. Qed.
Lemma still_SetPassword pw : keeps (SetPassword E pw).
Proof. unfold SetPassword. keep. Qed.
#[local] Hint Resolve still_KickHumans still_SetPassword : keeps.
Lemma still_KickEveryone msg : keeps (KickEveryone E msg).
Proof. unfold KickEveryone. keep. Qed.
Lemma still_BuildState : keeps (BuildState E).
Proof. unfold BuildState. keep. Qed.
Lemma still_PublishState st : keeps (PublishState E st).
Proof. unfold PublishState. keep. Qed.
#[local] Hint Resolve still_KickEveryone still_BuildState still_PublishState : keeps.
Lemma still_Derive p c : keeps (Derive E p c).
Proof. unfold Derive. keep. Qed.
Lemma still_send_event a b e p r : keeps (send_event E a b e p r).
Proof. unfold send_event. keep. Qed.
Lemma still_send_patch st : keeps (send_patch E st).
Proof. unfold send_patch. keep. Qed.
#[local] Hint Resolve still_Derive still_send_event still_send_patch : keeps.
Lemma still_rev_only a b evs : forall l, keeps (emit_rev_only E a b evs l).
Proof. induction evs as [|e evs IH]; intros l; cbn [emit_rev_only]; keep. Qed.
Lemma still_emit_events a b st evs : keeps (emit_events E a b st evs).
Proof. induction evs as [|e evs IH]; cbn [emit_events]; keep. Qed.
#[local] Hint Resolve still_rev_only still_emit_events : keeps.
Lemma still_EmitAll st evs : keeps (EmitAll E st evs).
Proof. unfold EmitAll. keep. Qed.
#[local] Hint Resolve still_EmitAll : keeps.
Lemma still_ScheduleBackupScan d : keeps (ScheduleBackupScan d).
Proof. unfold ScheduleBackupScan. keep. Qed.
#[local] Hint Resolve still_ScheduleBackupScan : keeps.
Lemma still_WriteBackupFile nm c : keeps (WriteBackupFile E nm c).
Proof. unfold WriteBackupFile. keep. Qed.
#[local] Hint Resolve still_WriteBackupFile : keeps.
Lemma still_PrepareResumeBackup mid p : keeps (PrepareResumeBackup E mid p).
Proof. unfold PrepareResumeBackup. keep. Qed.
#[local] Hint Resolve still_PrepareResumeBackup : keeps.
Lemma still_DoRestoreNow d : keeps (DoRestoreNow E d).
Proof. unfold DoRestoreNow. keep. Qed.
#[local] Hint Resolve still_DoRestoreNow : keeps.
Lemma still_DoRestore d : keeps (DoRestore E d).
Proof. unfold DoRestore. keep. Qed.
#[local] Hint Resolve still_DoRestore : keeps.
Lemma still_RunDeferredRestore : keeps (RunDeferredRestore E).
Proof. unfold RunDeferredRestore. keep. Qed.
#[local] Hint Resolve still_RunDeferredRestore : keeps.
Lemma still_BeginLoad : keeps (BeginLoad E).
Proof. unfold BeginLoad. keep. Qed.
#[local] Hint Resolve still_BeginLoad : keeps.
Lemma still_CheckLoaded : keeps (CheckLoaded E).
Proof. unfold CheckLoaded. keep. Qed.
#[local] Hint Resolve still_CheckLoaded : keeps.
Lemma still_DropLoaded : keeps (DropLoaded ).
Proof. unfold DropLoaded. keep. Qed.
#[local] Hint Resolve still_DropLoaded : keeps.
Lemma still_StartStream : keeps (StartStream E).
Proof. unfold StartStream. keep. Qed.
#[local] Hint Resolve still_StartStream : keeps.
Lemma still_StartAssigned mid rp : keeps (StartAssigned E mid rp).
Proof. unfold StartAssigned. keep. Qed.
#[local] Hint Resolve still_StartAssigned : keeps.
Lemma still_FollowConfig : keeps (FollowConfig E).
Proof. unfold FollowConfig. keep. Qed.
#[local] Hint Resolve still_FollowConfig : keeps.
Lemma still_EndAssigned msg : keeps (EndAssigned E msg).
Proof. unfold EndAssigned. keep. Qed.
#[local] Hint Resolve still_EndAssigned : keeps.
Lemma still_CmdPause a b : keeps (CmdPause E a b).
Proof. unfold CmdPause. keep. Qed.
#[local] Hint Resolve still_CmdPause : keeps.
Lemma still_CmdUnpause b : keeps (CmdUnpause E b).
Proof. unfold CmdUnpause. keep. Qed.
#[local] Hint Resolve still_CmdUnpause : keeps.
Lemma still_CmdForceReady a : keeps (CmdForceReady E a).
Proof. unfold CmdForceReady. keep. Qed.
#[local] Hint Resolve still_CmdForceReady : keeps.
Lemma still_restore_file a n r : keeps (restore_file E a n r).
Proof. unfold restore_file. keep. Qed.
#[local] Hint Resolve still_restore_file : keeps.
Lemma still_CmdRestore a b : keeps (CmdRestore E a b).
Proof. unfold CmdRestore. keep. Qed.
#[local] Hint Resolve still_CmdRestore : keeps.
Lemma still_RunResumeRestore : keeps (RunResumeRestore E).
Proof. unfold RunResumeRestore. keep. Qed.
#[local] Hint Resolve still_RunResumeRestore : keeps.
Lemma still_CmdEnd a : keeps (CmdEnd a).
Proof. unfold CmdEnd. keep. Qed.
#[local] Hint Resolve still_CmdEnd : keeps.
Lemma still_LoadMapEntry e : keeps (LoadMapEntry E e).
Proof. unfold LoadMapEntry. keep. Qed.
#[local] Hint Resolve still_LoadMapEntry : keeps.
Lemma still_CmdChangeMap a : keeps (CmdChangeMap E a).
Proof. unfold CmdChangeMap. keep. Qed.
#[local] Hint Resolve still_CmdChangeMap : keeps.
Lemma still_CmdSwapTeams : keeps (CmdSwapTeams E).
Proof. unfold CmdSwapTeams. keep. Qed.
#[local] Hint Resolve still_CmdSwapTeams : keeps.
Lemma still_CmdKick a : keeps (CmdKick E a).
Proof. unfold CmdKick. keep. Qed.
#[local] Hint Resolve still_CmdKick : keeps.
Lemma still_set_settings b l : keeps (set_settings E b l).
Proof. induction l as [|x l IH]; cbn [set_settings]; keep. Qed.
#[local] Hint Resolve still_set_settings : keeps.
Lemma still_CmdSettingsSet a b : keeps (CmdSettingsSet E a b).
Proof. unfold CmdSettingsSet. keep. Qed.
#[local] Hint Resolve still_CmdSettingsSet : keeps.
Lemma still_CmdStart a : keeps (CmdStart E a).
Proof. unfold CmdStart. keep. Qed.
#[local] Hint Resolve still_CmdStart : keeps.
Lemma still_CmdRestartMap : keeps (CmdRestartMap ).
Proof. unfold CmdRestartMap. keep. Qed.
#[local] Hint Resolve still_CmdRestartMap : keeps.
Lemma still_CmdExec a i r x e : keeps (CmdExec E a i r x e).
Proof. unfold CmdExec. keep. Qed.
#[local] Hint Resolve still_CmdExec : keeps.
Lemma still_run_cmd n a i b r x e : keeps (run_cmd E n a i b r x e).
Proof. unfold run_cmd. keep. Qed.
#[local] Hint Resolve still_run_cmd : keeps.
Lemma still_OnCmd m : keeps (OnCmd E m).
Proof. unfold OnCmd. keep. Qed.
#[local] Hint Resolve still_OnCmd : keeps.
Lemma still_apply_setting b kv : keeps (apply_setting E b kv).
Proof. unfold apply_setting. keep. Qed.
#[local] Hint Resolve still_apply_setting : keeps.
Lemma still_apply_console kv : keeps (apply_console E kv).
Proof. unfold apply_console. keep. Qed.
#[local] Hint Resolve still_apply_console : keeps.
Lemma still_OnServerConfig m : keeps (OnServerConfig E m).
Proof. unfold OnServerConfig. keep. Qed.
#[local] Hint Resolve still_OnServerConfig : keeps.
Lemma still_OnDrain d : keeps (OnDrain E d).
Proof. unfold OnDrain. keep. Qed.
#[local] Hint Resolve still_OnDrain : keeps.
Lemma still_OnOfflineTimeout : keeps (OnOfflineTimeout E).
Proof. unfold OnOfflineTimeout. keep. Qed.
#[local] Hint Resolve still_OnOfflineTimeout : keeps.
Lemma still_OnConnection m : keeps (OnConnection E m).
Proof. unfold OnConnection. keep. Qed.
#[local] Hint Resolve still_OnConnection : keeps.
Lemma still_OnAdminsSet m : keeps (OnAdminsSet E m).
Proof. unfold OnAdminsSet. keep. Qed.
#[local] Hint Resolve still_OnAdminsSet : keeps.
Lemma still_EnsureHandlers : keeps (EnsureHandlers E).
Proof. unfold EnsureHandlers. keep. Qed.
#[local] Hint Resolve still_EnsureHandlers : keeps.
Lemma still_ForwardChat b l : keeps (ForwardChat E b l).
Proof. unfold ForwardChat. keep. Qed.
#[local] Hint Resolve still_ForwardChat : keeps.
Lemma still_OnLogLine b l : keeps (OnLogLine E b l).
Proof. unfold OnLogLine. keep. Qed.
#[local] Hint Resolve still_OnLogLine : keeps.
Lemma still_answer_execs n : keeps (answer_execs E n).
Proof. unfold answer_execs. keep. Qed.
#[local] Hint Resolve still_answer_execs : keeps.
Lemma still_run_kicks n : keeps (run_kicks E n).
Proof. unfold run_kicks. keep. Qed.
#[local] Hint Resolve still_run_kicks : keeps.
Lemma still_TickIdle n : keeps (TickIdle E n).
Proof. unfold TickIdle. keep. Qed.
#[local] Hint Resolve still_TickIdle : keeps.
Lemma still_TickResume n : keeps (TickResume E n).
Proof. unfold TickResume. keep. Qed.
#[local] Hint Resolve still_TickResume : keeps.
Lemma still_take_signal k s : keeps (take_signal E k s).
Proof. unfold take_signal. keep. Qed.
#[local] Hint Resolve still_take_signal : keeps.
Lemma still_take_signals k l : keeps (take_signals E k l).
Proof. induction l as [|x l IH]; cbn [take_signals]; keep. Qed.
#[local] Hint Resolve still_take_signals : keeps.
Lemma still_report n k l : keeps (report E n k l).
Proof. unfold report. keep. Qed.
#[local] Hint Resolve still_report : keeps.
Lemma still_TickActive n k l : keeps (TickActive E n k l).
Proof. unfold TickActive. keep. Qed.
#[local] Hint Resolve still_TickActive : keeps.
Lemma still_Tick n k l : keeps (Tick E n k l).
Proof. unfold Tick. keep. Qed.
#[local] Hint Resolve still_Tick : keeps.
Lemma still_OnMapStart : keeps (OnMapStart ).
Proof. unfold OnMapStart. keep. Qed.
#[local] Hint Resolve still_OnMapStart : keeps.
Lemma still_OnCoreEvent e s n : keeps (OnCoreEvent E e s n).
Proof. unfold OnCoreEvent. keep. Qed.
#[local] Hint Resolve still_OnCoreEvent : keeps.
Lemma still_RestoreRoundFromLocalBackup r b w : keeps (RestoreRoundFromLocalBackup E r b w).
Proof. unfold RestoreRoundFromLocalBackup. keep. Qed.
#[local] Hint Resolve still_RestoreRoundFromLocalBackup : keeps.

End Keeps.

(** ** Answers that change nothing *)

Definition told (e : Eff) : Prop := match e with Sent _ _ _ _ | Snapshot _ _ => True | _ => False end.
(** The state with more effects. *)
Definition and_told (w w' : Link) : Prop := exists l, w' = w <| out := out w ++ l |> /\ Forall told l.
Definition tells {A} (m : M A) : Prop := forall w a w', m w = Some (a, w') -> and_told w w'.

Lemma told_refl w : and_told w w.
Proof. exists []. rewrite app_nil_r. by destruct w. Qed.
Lemma told_trans w1 w2 w3 : and_told w1 w2 -> and_told w2 w3 -> and_told w1 w3.
Proof. intros (l1 & -> & H1) (l2 & -> & H2). exists (l1 ++ l2). cbn. rewrite app_assoc. split; [done|]. by apply Forall_app. Qed.
Lemma told_core w w' : and_told w w' -> core w' = core w.
Proof. by intros (l & -> & _). Qed.
Lemma tells_ret {A} (a : A) : tells (mret a).
Proof. intros w b w' [= <- <-]. apply told_refl. Qed.
Lemma tells_bind {A B} (m : M A) (k : A -> M B) : tells m -> (forall a, tells (k a)) -> tells (a ← m; k a).
Proof. intros Hm Hk w b w' H. apply bind_inv in H as (a & w1 & H1 & H2). apply (told_trans w w1 w'); [exact (Hm _ _ _ H1)|exact (Hk _ _ _ _ H2)]. Qed.
Lemma tells_gets {A} (f : Link -> A) : tells (gets f).
Proof. intros w a w' [= <- <-]. apply told_refl. Qed.
Lemma tells_when b m : tells m -> tells (when b m).
Proof. destruct b; [done|intros _; apply tells_ret]. Qed.
Lemma tells_emit e : told e -> tells (emit e).
Proof. intros He w a w' [= <- <-]. exists [e]. split; [done|by repeat constructor]. Qed.
Lemma tells_Send E t p e r : tells (Send E t p e r).
Proof. apply tells_when. by apply tells_emit. Qed.
Lemma tells_Reply E r e x a : tells (Reply E r e x a).
Proof. apply tells_Send. Qed.
Lemma tells_SendSnapshot E why s : tells (SendSnapshot E why s).
Proof. unfold SendSnapshot. apply tells_bind; [apply tells_gets|intros a]. apply tells_bind; [apply tells_when; by apply tells_emit|intros _; apply tells_ret]. Qed.

(** ** An assignment *)

Definition fence_after (w : Link) (mid : string) (ep : Z) : Fence :=
  Retire (if active (g_asg w) && negb (match_id (g_asg w) =s mid) then Retire (g_fence w) (match_id (g_asg w)) (epoch (g_asg w)) else g_fence w) mid ep.

Definition cleared (w : Link) : Link :=
  w <| g_fence := Retire (g_fence w) (match_id (g_asg w)) (epoch (g_asg w)) |> <| g_asg := NoAssignment |> <| g_config := JNull |>
    <| g_stream := Reset JNull 0 |> <| g_execs := [] |> <| g_resume := BootResume |> <| g_sentBackups := ∅ |>
    <| g_phase := g_phase w <| handOverPending := false |> <| loading := false |> <| restoring := false |> <| seriesOver := false |> <| serverReset := false |>
                            <| latestBackupRound := -1 |> <| lastLive := JNull |> <| backupScanAt := minus1 |> |>
    <| out := out w ++ [SignalsOn false; ScrimAuto true] |>.
Lemma ClearAssignment_run w a w' : ClearAssignment w = Some (a, w') -> w' = cleared w.
Proof. intros H. assert (ClearAssignment w = Some (tt, cleared w)) as E by (destruct w; lazy -[Retire]; reflexivity). rewrite E in H. by injection H. Qed.

Lemma fence_after_core w1 w mid ep : core w1 = core w -> fence_after w1 mid ep = fence_after w mid ep.
Proof. intros H. injection H as Ha _ Hf. unfold fence_after. by rewrite Ha, Hf. Qed.

Lemma AdoptAssign_core E ref mid ep p rp w a w' : AdoptAssign E ref mid ep p rp w = Some (a, w') -> exists rev,
  core w' = ({| active := true; match_id := mid; epoch := ep; config_rev := Z.max 1 rev |}, resumed_config (or_empty (Find p "config")) rp, fence_after w mid ep).
Proof.
  unfold AdoptAssign. intros H. apply bind_inv in H as (w0 & w1 & [= <- <-] & H). cbv zeta in H. apply bind_inv in H as ([] & w1 & Hclear & H).
  assert (g_fence w1 = if active (g_asg w) && negb (match_id (g_asg w) =s mid) then Retire (g_fence w) (match_id (g_asg w)) (epoch (g_asg w)) else g_fence w) as Hf.
  { assert (forall x y, x && negb (x && y) = x && negb y) as Hb by (by intros [] []). rewrite Hb in Hclear.
    destruct (active (g_asg w) && _); [|injection Hclear as <-; reflexivity]. apply ClearAssignment_run in Hclear as ->. reflexivity. }
  apply bind_inv in H as (rev & w2 & Hrev & H). assert (w2 = w1) as -> by (destruct (Int p "config_rev" 1); [by injection Hrev|done]).
  exists rev. apply bind_inv in H as ([] & w2 & [= <-] & H).
  assert (forall k : M unit, keeps k -> k (w1 <| g_asg := {| active := true; match_id := mid; epoch := ep; config_rev := Z.max 1 rev |} |>
             <| g_config := resumed_config (or_empty (Find p "config")) rp |> <| g_fence := Retire (g_fence w1) mid ep |>) = Some (a, w') -> core w' =
    ({| active := true; match_id := mid; epoch := ep; config_rev := Z.max 1 rev |}, resumed_config (or_empty (Find p "config")) rp, fence_after w mid ep)) as Hk.
  { intros k Hk Hkw. rewrite (Hk _ _ _ Hkw). unfold fence_after. by rewrite <- Hf. }
  eapply Hk; [|exact H]. apply still_bind; [apply still_emit|intros _]. apply still_bind; [apply still_Reply|intros _]. apply still_bind; [apply still_gets|intros v].
  apply still_bind; [destruct (_ && negb (present rp)); [apply still_SetPassword|apply still_StartAssigned]|intros _; apply still_StartStream].
Qed.

(** A backup that cannot be prepared leaves nothing behind. *)
Lemma PrepareResumeBackup_fails E mid p w r p' w1 : PrepareResumeBackup E mid p w = Some ((r, p'), w1) -> status r <> "ok" -> w1 = w.
Proof.
  unfold PrepareResumeBackup. destruct (resume_content E mid p) as [r0|[content sha]]; [by intros [= _ _ <-]|]. intros H Hr. apply bind_inv in H as (r1 & w2 & Hw & H).
  unfold WriteBackupFile in Hw. destruct (writeBackup E _ content) as [err|].
  - injection Hw as <- <-. by injection H as _ _ <-.
  - cbn in Hw. injection Hw as <- <-. cbn in H. by injection H as <- _ _.
Qed.

Lemma PrepareResumeBackup_present E mid p w r p' w1 : PrepareResumeBackup E mid p w = Some ((r, p'), w1) -> present p' = present p.
Proof.
  unfold PrepareResumeBackup. destruct (resume_content E mid p) as [r0|[content sha]]; [by intros [= _ <- _]|]. intros H. apply bind_inv in H as (r1 & w2 & _ & H).
  destruct (status r1 =s "ok"); by injection H as _ <- _.
Qed.

(** What a [match.assign] does: it is answered, or an assignment it may make is made. *)
Lemma OnAssign_outcome E m w w' : OnAssign E m w = Some (tt, w') ->
  and_told w w' \/
  exists ep rp rev w1, MsgEpoch m (ParsePayload m) = Some ep /\ g_draining w = false /\ core w1 = core w /\
    let mid := Str (ParsePayload m) "match_id" EmptyString in
    assign_verdict w mid ep (present rp) = Ok /\
    core w' = ({| active := true; match_id := mid; epoch := ep; config_rev := Z.max 1 rev |}, resumed_config (or_empty (Find (ParsePayload m) "config")) rp, fence_after w mid ep).
Proof.
  unfold OnAssign. intros H. apply bind_inv in H as (ep & w1 & Hep & H). destruct (MsgEpoch m _) as [ep'|] eqn:Eep; [|done]. injection Hep as -> <-. cbv zeta in H.
  apply bind_inv in H as (valid & w1 & Hv & H). destruct (ValidateAssign _ _) as [valid'|]; [|done]. injection Hv as -> <-.
  destruct valid as [err|[]]; [left; by apply tells_Reply in H|]. apply bind_inv in H as (rs & w1 & Hrs & H).
  match goal with _ : lift ?o w = _ |- _ => destruct o as [rs'|]; [|done] end. injection Hrs as -> <-.
  destruct rs as [[c why]|rp]; [left; by apply tells_Reply in H|]. apply bind_inv in H as (w0 & w1 & [= <- <-] & H).
  destruct (assign_verdict w _ ep (present rp)) eqn:Ev; try (left; by apply tells_Reply in H).
  destruct (g_draining w) eqn:Ed; [left; by apply tells_Reply in H|]. apply bind_inv in H as ([r rp'] & w1 & Hp & H).
  assert (core w1 = core w) as Hc by (destruct (_ && _) in Hp; [by apply still_PrepareResumeBackup in Hp|by injection Hp as _ _ <-]).
  destruct (String.eqb_spec (status r) "ok") as [Es|Es]; cbn [negb] in H.
  - right. apply AdoptAssign_core in H as (rev & H). rewrite (fence_after_core w1 w) in H by exact Hc. exists ep, rp', rev, w1.
    assert (present rp' = present rp) as -> by (destruct (_ && _) in Hp; [by eapply PrepareResumeBackup_present|by injection Hp as _ <- _]).
    split; [reflexivity|]. split; [reflexivity|]. split; [exact Hc|]. split; [exact Ev|exact H].
  - left. apply tells_Reply in H. replace w with w1; [exact H|]. destruct (_ && _) in Hp; [by eapply PrepareResumeBackup_fails|by injection Hp as _ _ <-].
Qed.

Lemma core_set_fence f w : core (set g_fence f w) = (g_asg w, g_config w, f (g_fence w)).
Proof. by destruct w. Qed.
Lemma core_cleared w : core (cleared w) = (NoAssignment, JNull, Retire (g_fence w) (match_id (g_asg w)) (epoch (g_asg w))).
Proof. by destruct w. Qed.

(** ** Updates and the end *)

Lemma OnUpdate_outcome E m w w' : OnUpdate E m w = Some (tt, w') ->
  and_told w w' \/
  exists ep base next cfg, MsgEpoch m (ParsePayload m) = Some ep /\
    CheckScoped (g_fence w) (g_asg w) (Str (ParsePayload m) "match_id" EmptyString) ep = Ok /\
    Int (ParsePayload m) "base_config_rev" (-1) = Some base /\ base = config_rev (g_asg w) /\ base < next /\
    core w' = (g_asg w <| config_rev := next |>, cfg, g_fence w).
Proof.
  unfold OnUpdate. intros H. apply bind_inv in H as (ep & w1 & Hep & H). destruct (MsgEpoch m _) as [ep'|] eqn:Eep; [|done]. injection Hep as -> <-. cbv zeta in H.
  apply bind_inv in H as (w0 & w1 & Hw & H). injection Hw as <- <-.
  destruct (CheckScoped _ _ _ ep) eqn:Ev; try (left; by apply tells_Reply in H).
  apply bind_inv in H as (base & w1 & Hb & H). destruct (Int _ "base_config_rev" _) as [b|] eqn:Eb; [|done]. injection Hb as -> <-.
  apply bind_inv in H as (next & w1 & Hn & H). destruct (Int _ "config_rev" _) as [n|] eqn:En; [|done]. injection Hn as -> <-.
  unfold ConfigCas in H. destruct (Z.eqb_spec base (config_rev (g_asg w))) as [Hbase|Hbase]; cbn [negb] in H.
  - destruct (Z.leb_spec next base); [left; by apply tells_Reply in H|]. apply bind_inv in H as (res & w1 & Hr & H).
    match goal with _ : lift ?o w = _ |- _ => destruct o as [res'|]; [|done] end. injection Hr as -> <-. destruct res as [err|[cfg pw]]; [left; by apply tells_Reply in H|].
    right. exists ep, base, next, cfg. apply bind_inv in H as ([] & w1 & Hc & H). injection Hc as <-.
    split; [reflexivity|]. split; [exact Ev|]. split; [reflexivity|]. split; [exact Hbase|]. split; [done|].
    apply (still_bind (FollowConfig E)) in H; [exact H|apply still_FollowConfig|]. intros _. apply still_bind; [apply still_when, still_SetPassword|intros _; apply still_Reply].
  - left. revert H. apply (tells_bind (Reply E _ _ _ _)); [apply tells_Reply|intros _]. apply tells_bind; [apply tells_SendSnapshot|intros _; apply tells_ret].
Qed.

Lemma still_told_idle E : keeps (PublishState E JNull ;; _ ← SendSnapshot E "request" false; mret tt).
Proof. apply still_bind; [apply still_PublishState|intros _]. apply still_bind; [apply still_SendSnapshot|intros _; apply still_ret]. Qed.

(** The end of a match that is not assigned. *)
Lemma unassign_other E m w w' ep v : let mid := Str (ParsePayload m) "match_id" EmptyString in
  (dropped ← (if negb (active (g_asg w)) && bool_decide (v = NotAssigned) && (0 <? ep) then DropRecoveredCopy E mid ep else mret false);
   if (dropped : bool) then Reply E (m_id m) ep OkResult EmptyString ;; (PublishState E JNull ;; _ ← SendSnapshot E "request" false; mret tt)
   else Reply E (m_id m) ep (Rejected (VerdictCode v) "match.unassign for a match / epoch this server does not run") EmptyString) w = Some (tt, w') ->
  core w' = core w \/ active (g_asg w) = false /\ v = NotAssigned /\ 0 < ep /\ core w' = (g_asg w, g_config w, Retire (g_fence w) mid ep).
Proof.
  intros mid Hd. pose proof (still_told_idle E) as Htold. apply bind_inv in Hd as (dropped & w1 & Hd & Hr).
  assert (core w' = core w1) as -> by (destruct dropped; [apply still_bind in Hr; [done|apply still_Reply|done]|by apply still_Reply in Hr]).
  destruct (negb _ && _ && _) eqn:Ec; [|injection Hd as _ <-; by left]. apply andb_true_iff in Ec as [Ec H0]. apply andb_true_iff in Ec as [Ha Hv]. apply Z.ltb_lt in H0.
  apply bool_decide_eq_true in Hv. unfold DropRecoveredCopy in Hd. apply bind_inv in Hd as (v0 & w2 & Hw & Hd). injection Hw as <- <-. cbv zeta in Hd.
  apply bind_inv in Hd as (kept & w2 & Hk & Hd). assert (core w2 = core w) as Hc.
  { destruct (LocalMatchIs _ _); [apply still_bind in Hk; [done|apply still_DropLoaded|intros; apply still_ret]|]. destruct (saved E); [|by injection Hk as _ <-].
    apply bind_inv in Hk as (c & w3 & Hl & Hk). apply still_lift in Hl. rewrite <- Hl. destruct c as [c|]; [|by injection Hk as _ <-].
    destruct (_ =? _); [apply still_bind in Hk; [done|apply still_emit|intros; apply still_ret]|by injection Hk as _ <-]. }
  destruct (_ && negb kept); [injection Hd as _ <-; by left|]. right. split; [by destruct (active (g_asg w))|]. split; [done|]. split; [done|].
  apply bind_inv in Hd as ([] & w3 & He & Hd). apply still_emit in He. apply bind_inv in Hd as ([] & w4 & Hf & Hd). injection Hf as <-.
  apply still_bind in Hd; [|apply still_SetPassword|intros; apply still_ret]. rewrite Hd, core_set_fence. rewrite Hc in He. injection He as -> -> ->. reflexivity.
Qed.

(** Whether a message ends what this server has of a match: the assignment, or a copy it recovered after a crash. *)
Lemma OnUnassign_outcome E m w w' : OnUnassign E m w = Some (tt, w') ->
  core w' = core w \/
  exists ep, MsgEpoch m (ParsePayload m) = Some ep /\ let mid := Str (ParsePayload m) "match_id" EmptyString in
    CheckScoped (g_fence w) (g_asg w) mid ep = Ok /\ core w' = (NoAssignment, JNull, Retire (g_fence w) (match_id (g_asg w)) (epoch (g_asg w))) \/
    active (g_asg w) = false /\ CheckScoped (g_fence w) (g_asg w) mid ep = NotAssigned /\ 0 < ep /\ core w' = (g_asg w, g_config w, Retire (g_fence w) mid ep).
Proof.
  unfold OnUnassign. intros H. apply bind_inv in H as (ep & w1 & Hep & H). destruct (MsgEpoch m _) as [ep'|] eqn:Eep; [|done]. injection Hep as -> <-. cbv zeta in H.
  apply bind_inv in H as (w0 & w1 & Hw & H). injection Hw as <- <-. destruct (_ && _ && _); [left; by apply still_Reply in H|].
  pose proof (fun v => unassign_other E m w w' ep v) as Hother. pose proof (still_told_idle E) as Htold.
  destruct (CheckScoped _ _ _ ep) eqn:Ev.
  2-5: specialize (Hother _ H) as [Hs|Hs]; [by left|right; exists ep; split; [done|]; right; destruct Hs as (? & ? & ? & ?); done].
  right. exists ep. split; [done|]. left. split; [done|]. clear Hother. apply bind_inv in H as ([] & w1 & He & H). apply still_EndAssigned in He.
  apply bind_inv in H as ([] & w2 & Hr & H). apply still_Reply in Hr. rewrite He in Hr. apply bind_inv in H as ([] & w3 & Hc & H). apply Htold in H. rewrite H.
  apply ClearAssignment_run in Hc as ->. rewrite core_cleared. injection Hr as -> _ ->. reflexivity.
Qed.

(** ** The assignment over any history *)

(** The assignment is one the fence remembers, with its epoch. *)
Record asg_ok (a : Assignment) (f : Fence) : Prop := {
  l_fence : fence_ok f;
  l_idle : active a = false -> a = NoAssignment;
  l_named : active a = true -> match_id a <> EmptyString /\ 1 <= epoch a /\ 1 <= config_rev a /\ retired_ f !! match_id a = Some (epoch a);
}.
Definition link_ok (w : Link) : Prop := asg_ok (g_asg w) (g_fence w).
Lemma link_ok_core w w' : core w' = core w -> link_ok w -> link_ok w'.
Proof. intros (Ha & _ & Hf)%core_parts H. unfold link_ok. by rewrite Ha, Hf. Qed.
Lemma link_ok_parts w a c f : core w = (a, c, f) -> asg_ok a f -> link_ok w.
Proof. intros (Ha & _ & Hf)%core_parts H. unfold link_ok. by rewrite Ha, Hf. Qed.

Lemma CheckScoped_ok f a mid ep : CheckScoped f a mid ep = Ok -> active a = true /\ match_id a = mid /\ epoch a = ep.
Proof.
  unfold CheckScoped. destruct (active a); cbn [negb orb]; [|by destruct (_ && _)]. destruct (String.eqb_spec (match_id a) mid); cbn [negb]; [|by destruct (_ && _)].
  destruct (Z.ltb_spec ep (epoch a)); [done|]. destruct (Z.ltb_spec (epoch a) ep); [done|]. intros _. split_and!; [done|done|lia].
Qed.
Lemma asg_update a f next : asg_ok a f -> active a = true -> config_rev a < next -> asg_ok (a <| config_rev := next |>) f.
Proof.
  intros [H1 H2 H3] Ha Hn. destruct a as [act mid e cr]. cbn in *. subst act. destruct (H3 eq_refl) as (? & ? & ? & ?).
  split; cbn; [done|done|]. intros _. split_and!; (done || lia).
Qed.
Lemma asg_end f m e : fence_ok f -> asg_ok NoAssignment (Retire f m e).
Proof. intros H. split; [by apply retire_ok|done|done]. Qed.
Lemma asg_idle a f m e : asg_ok a f -> active a = false -> asg_ok a (Retire f m e).
Proof. intros [H1 H2 H3] Ha. split; [by apply retire_ok|done|]. by rewrite Ha. Qed.
Lemma asg_new f mid ep rev : mid <> EmptyString -> 1 <= ep -> fence_ok f -> retired_ f !! mid = Some ep ->
  asg_ok {| active := true; match_id := mid; epoch := ep; config_rev := Z.max 1 rev |} f.
Proof. intros Hm He Hf Hr. split; cbn; [done|done|]. intros _. split_and!; [done|done|lia|done]. Qed.

Lemma CheckAssign_ok f cur mid ep local : CheckAssign f cur mid ep local = Ok ->
  mid <> EmptyString /\ 1 <= ep /\ Retired f mid <= ep /\ (active cur = true -> match_id cur = mid /\ epoch cur < ep) /\ (active cur = false -> Retired f mid < ep).
Proof.
  unfold CheckAssign. destruct (Z.ltb_spec ep 1) as [|H1]; [done|]. destruct mid as [|c mid]; [done|]. cbn [orb sempty]. destruct (Z.ltb_spec ep (Retired f (String c mid))); [done|].
  destruct (active cur).
  - destruct (String.eqb_spec (match_id cur) (String c mid)); [|done]. destruct (Z.eqb_spec ep (epoch cur)); [done|]. destruct (Z.ltb_spec ep (epoch cur)); [done|].
    intros _. split_and!; [done|done|done|intros _; split; [done|lia]|done].
  - destruct (Z.eqb_spec ep (Retired f (String c mid))); [done|]. intros _. split_and!; [done|done|done|done|intros _; lia].
Qed.

(** Retiring a match again leaves the others as they are. *)
Lemma retired_again f m e k : retired_ f !! m <> None -> k <> m -> retired_ (Retire f m e) !! k = retired_ f !! k.
Proof. intros Hm Hk. unfold Retire. destruct (sempty m); [done|]. destruct (retired_ f !! m); [cbn; by rewrite lookup_insert_ne by done|done]. Qed.
Lemma Retire_to f m e : fence_ok f -> m <> EmptyString -> Retired f m <= e -> retired_ (Retire f m e) !! m = Some e.
Proof.
  intros Hf Hm He. destruct (retired_ f !! m) as [e0|] eqn:E; [|by apply retire_new].
  rewrite retired_same by (done || by rewrite E). f_equal. lia.
Qed.

(** An assignment that is made is above everything the server knows of the match. *)
Lemma verdict_ok w mid ep resumes : link_ok w -> assign_verdict w mid ep resumes = Ok ->
  mid <> EmptyString /\ 1 <= ep /\ Retired (g_fence w) mid < ep /\ fence_ok (fence_after w mid ep) /\ retired_ (fence_after w mid ep) !! mid = Some ep.
Proof.
  intros [H1 H2 H3] Hv. unfold assign_verdict in Hv. apply CheckAssign_ok in Hv as (Hm & He & Hr & Hact & Hidle).
  assert (Retired (g_fence w) mid < ep) as Hlt.
  { destruct (active (g_asg w)) eqn:Ea; [|apply Hidle; by destruct (_ && _)]. destruct (serverReset (g_phase w) && negb (match_id (g_asg w) =s mid)) eqn:Eo; cbn [andb] in Hact, Hidle; rewrite Eo in Hact, Hidle.
    - apply Hidle. reflexivity.
    - destruct (Hact Ea) as [Em Hlt]. destruct (H3 eq_refl) as (_ & _ & _ & Hret). unfold Retired. by rewrite <- Em, Hret. }
  unfold fence_after. destruct (active (g_asg w)) eqn:Ea; cbn [andb].
  - destruct (String.eqb_spec (match_id (g_asg w)) mid) as [Em|Em]; cbn [negb].
    + split_and!; [done..|by apply retire_ok|apply Retire_to; [done..|lia]].
    + destruct (H3 eq_refl) as (Hne & _ & _ & Hret). pose proof (retire_ok (g_fence w) (match_id (g_asg w)) (epoch (g_asg w)) H1) as Hok.
      split_and!; [done..|by apply retire_ok|apply Retire_to; [done..|]]. unfold Retired in *. rewrite retired_again; [lia|by rewrite Hret|done].
  - split_and!; [done..|by apply retire_ok|apply Retire_to; [done..|lia]].
Qed.

Lemma OnAssign_ok E m w w' : link_ok w -> OnAssign E m w = Some (tt, w') -> link_ok w'.
Proof.
  intros Hw H. apply OnAssign_outcome in H as [H|(ep & rp & rev & w1 & _ & _ & _ & Hv & Hc)]; [by apply (link_ok_core w), Hw; apply told_core|].
  destruct (verdict_ok _ _ _ _ Hw Hv) as (Hm & He & _ & Hok & Hret). apply (link_ok_parts _ _ _ _ Hc). by apply asg_new.
Qed.
Lemma OnUpdate_ok E m w w' : link_ok w -> OnUpdate E m w = Some (tt, w') -> link_ok w'.
Proof.
  intros Hw H. apply OnUpdate_outcome in H as [H|(ep & base & next & cfg & _ & (Ha & _)%CheckScoped_ok & _ & -> & Hlt & Hc)]; [by apply (link_ok_core w), Hw; apply told_core|].
  apply (link_ok_parts _ _ _ _ Hc). by apply asg_update.
Qed.
Lemma OnUnassign_ok E m w w' : link_ok w -> OnUnassign E m w = Some (tt, w') -> link_ok w'.
Proof.
  intros Hw H. apply OnUnassign_outcome in H as [H|(ep & _ & [[Hs Hc]|(Ha & _ & _ & Hc)])]; [by apply (link_ok_core w)|apply (link_ok_parts _ _ _ _ Hc)..].
  - apply asg_end. by destruct Hw.
  - by apply asg_idle.
Qed.

(** What a reload of the plugin saves is the assignment and the fence among it. *)
Lemma fence_saved f : fence_ok f -> FenceFromJson (FenceToJson f) = Some f.
Proof.
  intros Hf. unfold FenceFromJson. rewrite FenceToJson_items. apply (read_entries f (order_ f) [] NewFence); [done|done| |done].
  intros k. cbn. rewrite lookup_empty. by rewrite decide_False by set_solver.
Qed.
Lemma reload_ok w w' : link_ok w -> RestoreJson (SnapshotJson w) BootLink = Some w' -> link_ok w'.
Proof.
  intros [Hf Hi Hn]. set (j := SnapshotJson w). unfold RestoreJson. change (Find j "fence") with (Some (FenceToJson (g_fence w))). cbv match.
  rewrite (fence_saved _ Hf). cbn [mbind option_bind]. change (Bool j "active" false) with (active (g_asg w)).
  change (Int j "epoch" 1) with (Some (epoch (g_asg w))). change (Int j "config_rev" 1) with (Some (config_rev (g_asg w))).
  change (Str j "match_id" EmptyString) with (match_id (g_asg w)). destruct (active (g_asg w)) eqn:Ha; cbn [negb mbind option_bind]; intros H.
  - repeat match type of H with (_ ≫= _) = Some _ => apply bind_Some in H as (? & _ & H) end. injection H as <-. by split; cbn; [|done|intros _; apply Hn].
  - injection H as <-. by split; cbn; [|done|done].
Qed.

(** The ways into the file, the match being loaded or unloaded by the rest of the plugin, and a reload of the plugin, which gives a new image what the old one saved. *)
Inductive Op :=
  | Message (E : Env) (m : Msg) | Ticks (E : Env) (now : double) (knifeReason : string) (sigs : list Signal) | LogLine (E : Env) (signalsOn : bool) (line : string)
  | MapStarted | Player (E : Env) (e : PlayerEvent) (sid : Z) (nm : string) | Recover (E : Env) (rnd : Z) (by' why : string) | Loads (c : option WebhookMatchContext) | Reload.
Definition run_op (o : Op) (w : Link) : option Link :=
  match o with
  | Message E m => snd <$> OnMessage E m w
  | Ticks E now k sigs => snd <$> Tick E now k sigs w
  | LogLine E on line => snd <$> OnLogLine E on line w
  | MapStarted => snd <$> OnMapStart w
  | Player E e sid nm => snd <$> OnCoreEvent E e sid nm w
  | Recover E rnd by' why => snd <$> RestoreRoundFromLocalBackup E rnd by' why w
  | Loads c => Some (w <| loaded := c |>)
  | Reload => RestoreJson (SnapshotJson w) BootLink
  end.
Definition run_ops (os : list Op) (w : Link) : option Link := foldl (fun w o => w ← w; run_op o w) (Some w) os.
Definition reachable (w : Link) : Prop := exists os, run_ops os BootLink = Some w.

Lemma core_loaded f w : core (set loaded f w) = core w.
Proof. by destruct w. Qed.

(** Only three messages change the assignment. *)
Lemma message_core E m w w' : OnMessage E m w = Some (tt, w') -> core w' = core w \/
  (m_type m = "match.assign" /\ OnAssign E m w = Some (tt, w')) \/ (m_type m = "match.update" /\ OnUpdate E m w = Some (tt, w')) \/
  (m_type m = "match.unassign" /\ OnUnassign E m w = Some (tt, w')).
Proof.
  unfold OnMessage. intros H.
  destruct (String.eqb_spec (m_type m) "match.assign"); [auto|]. destruct (String.eqb_spec (m_type m) "match.update"); [auto|].
  destruct (String.eqb_spec (m_type m) "match.unassign"); [auto 6|]. left.
  destruct (_ =s "cmd"); [by apply still_OnCmd in H|]. destruct (_ =s "local.offline_timeout"); [by apply still_OnOfflineTimeout in H|].
  destruct (_ =s "local.connection"); [by apply still_OnConnection in H|]. destruct (_ =s "admins.set"); [by apply still_OnAdminsSet in H|].
  destruct (_ =s "server.config"); [by apply still_OnServerConfig in H|]. destruct (_ =s "server.drain"); [by apply still_OnDrain in H|].
  destruct (_ =s "server.undrain"); [by apply still_OnDrain in H|by apply still_ret in H].
Qed.

Lemma run_op_ok o w w' : link_ok w -> run_op o w = Some w' -> link_ok w'.
Proof.
  intros Hw. assert (forall A (m : M A), keeps m -> snd <$> m w = Some w' -> link_ok w') as Hk.
  { intros A m Hm H. destruct (m w) as [[a w1]|] eqn:E; [|done]. injection H as <-. apply (link_ok_core w); [by apply (Hm _ _ _ E)|done]. }
  destruct o as [E m|E now k sigs|E on line| |E e sid nm|E rnd by' why|c|]; cbn [run_op].
  - intros H. destruct (OnMessage E m w) as [[[] w1]|] eqn:Em; [|done]. injection H as <-.
    apply message_core in Em as [Hc|[[_ H]|[[_ H]|[_ H]]]]; [by apply (link_ok_core w)|by eapply OnAssign_ok|by eapply OnUpdate_ok|by eapply OnUnassign_ok].
  - apply Hk, still_Tick.
  - apply Hk, still_OnLogLine.
  - apply Hk, still_OnMapStart.
  - apply Hk, still_OnCoreEvent.
  - apply Hk, still_RestoreRoundFromLocalBackup.
  - intros [= <-]. apply (link_ok_core w); [apply core_loaded|done].
  - by apply reload_ok.
Qed.

Lemma boot_ok : link_ok BootLink.
Proof. split; [apply fence_new|reflexivity|done]. Qed.
Lemma run_ops_ok os : forall w w', link_ok w -> run_ops os w = Some w' -> link_ok w'.
Proof.
  induction os as [|o os IH]; intros w w' Hw H; [by injection H as <-|]. unfold run_ops in H. cbn [foldl] in H. cbn [mbind option_bind] in H.
  destruct (run_op o w) as [w1|] eqn:E; [by apply (IH w1); [eapply run_op_ok|]|]. exfalso. clear -H. induction os as [|o' os IH]; [done|]. by apply IH.
Qed.
Lemma reachable_ok w : reachable w -> link_ok w.
Proof. intros [os H]. by apply (run_ops_ok os BootLink), H; apply boot_ok. Qed.

(** ** Delivered twice *)

Lemma CheckScoped_refused f a mid ep : CheckScoped f a mid ep = NotAssigned -> active a = false -> mid <> EmptyString -> 0 < ep -> Retired f mid < ep.
Proof.
  unfold CheckScoped. intros H Ha Hm H0. rewrite Ha in H. cbn [negb orb] in H. destruct mid as [|c mid]; [done|]. cbn [sempty negb andb] in H.
  destruct (Z.ltb_spec 0 ep); [|lia]. cbn [andb] in H. destruct (Z.leb_spec ep (Retired f (String c mid))); [done|done].
Qed.

Section Again.
Context (E' : Env) (m : Msg) (w2 w3 : Link).

(** The same assignment while it runs. *)
Lemma assign_again ep : MsgEpoch m (ParsePayload m) = Some ep -> asg_ok (g_asg w2) (g_fence w2) -> active (g_asg w2) = true ->
  match_id (g_asg w2) = Str (ParsePayload m) "match_id" EmptyString -> epoch (g_asg w2) = ep -> OnAssign E' m w2 = Some (tt, w3) -> and_told w2 w3.
Proof.
  intros He Hok Ha Hm Hep H. apply OnAssign_outcome in H as [H|(ep' & rp & rev & w1 & Hep' & _ & _ & Hv & _)]; [done|exfalso].
  assert (ep' = ep) as -> by congruence. destruct (verdict_ok w2 _ _ _ Hok Hv) as (_ & _ & Hlt & _). destruct Hok as [_ _ H3]. destruct (H3 Ha) as (_ & _ & _ & Hr).
  unfold Retired in Hlt. rewrite <- Hm, Hr in Hlt. cbn in Hlt. lia.
Qed.
(** The same update: the config has moved on. *)
Lemma update_again base : Int (ParsePayload m) "base_config_rev" (-1) = Some base -> base < config_rev (g_asg w2) -> OnUpdate E' m w2 = Some (tt, w3) -> and_told w2 w3.
Proof.
  intros Hb Hlt H. apply OnUpdate_outcome in H as [H|(ep & base' & next & cfg & _ & _ & Hb' & Hc & _)]; [done|]. assert (base' = base) as -> by congruence. lia.
Qed.
(** The same end. *)
Lemma unassign_again ep : MsgEpoch m (ParsePayload m) = Some ep -> active (g_asg w2) = false -> 0 < ep ->
  retired_ (g_fence w2) !! Str (ParsePayload m) "match_id" EmptyString = Some ep -> OnUnassign E' m w2 = Some (tt, w3) -> and_told w2 w3.
Proof.
  intros He Ha H0 Hr H. unfold OnUnassign in H. rewrite He in H. apply bind_inv in H as (ep0 & w1 & Hl & H). injection Hl as <- <-. cbv zeta in H.
  apply bind_inv in H as (w0 & w1 & Hw & H). injection Hw as <- <-.
  replace (negb (active (g_asg w2)) && (0 <? ep) && (ep =? Retired (g_fence w2) (Str (ParsePayload m) "match_id" EmptyString))) with true in H; [by apply tells_Reply in H|].
  unfold Retired. rewrite Ha, Hr. cbn. symmetry. apply andb_true_iff. split; [by apply Z.ltb_lt|apply Z.eqb_refl].
Qed.
End Again.

(** Claim C4.  The platform may send a message again: in every state the server can reach, by messages, ticks, log lines, new maps, players coming and going, recoveries and reloads of the plugin, an assignment, an update or an unassign that took effect changes nothing more when it arrives a second time, whatever the server did in between that left the assignment and the config as they were; it is only answered. *)
Theorem redelivery_harmless w E m w1 E' w2 w3 : reachable w -> OnMessage E m w = Some (tt, w1) -> core w1 <> core w -> core w2 = core w1 ->
  OnMessage E' m w2 = Some (tt, w3) -> exists l, w3 = w2 <| out := out w2 ++ l |> /\ Forall told l.
Proof.
  intros Hw%reachable_ok H1 Hne Hc H2. change (and_told w2 w3).
  assert (forall t, m_type m = t -> OnMessage E' m w2 = Some (tt, w3) -> t = "match.assign" /\ OnAssign E' m w2 = Some (tt, w3) \/ t = "match.update" /\ OnUpdate E' m w2 = Some (tt, w3) \/
    t = "match.unassign" /\ OnUnassign E' m w2 = Some (tt, w3) \/ Mi.one_of t ["match.assign"; "match.update"; "match.unassign"] = false) as Hsecond.
  { intros t Ht H. unfold OnMessage in H. rewrite Ht in H. unfold Mi.one_of. cbn [existsb]. destruct (String.eqb_spec t "match.assign"); [auto|].
    destruct (String.eqb_spec t "match.update"); [auto|]. destruct (String.eqb_spec t "match.unassign"); [auto|auto]. }
  specialize (Hsecond _ eq_refl H2). apply message_core in H1 as [H1|[[Ht H1]|[[Ht H1]|[Ht H1]]]]; [done| | |]; rewrite Ht in Hsecond;
    destruct Hsecond as [[? H]|[[? H]|[[? H]|?]]]; try done.
  - apply OnAssign_outcome in H1 as [H1|(ep & rp & rev & w' & He & _ & _ & Hv & Hw1)]; [by apply told_core in H1|]. rewrite Hw1 in Hc.
    destruct (verdict_ok _ _ _ _ Hw Hv) as (Hm & Hep & _ & Hok & Hr). pose proof (core_parts _ _ _ _ Hc) as (Ha & _ & Hf).
    apply (assign_again E' m w2 w3 ep); [done|rewrite Ha, Hf; by apply asg_new|by rewrite Ha..|done].
  - apply OnUpdate_outcome in H1 as [H1|(ep & base & next & cfg & _ & _ & Hb & _ & Hlt & Hw1)]; [by apply told_core in H1|]. rewrite Hw1 in Hc.
    pose proof (core_parts _ _ _ _ Hc) as (Ha & _ & _). apply (update_again E' m w2 w3 base); [done|rewrite Ha; by destruct (g_asg w)|done].
  - apply OnUnassign_outcome in H1 as [H1|(ep & He & [[Hs Hw1]|(Ha & Hs & Hpos & Hw1)])]; [done| |]; rewrite Hw1 in Hc; pose proof (core_parts _ _ _ _ Hc) as (Ha2 & _ & Hf2).
    + apply CheckScoped_ok in Hs as (Ha & Hmid & Hep). destruct Hw as [Hf _ Hn]. destruct (Hn Ha) as (Hne' & H1ep & _ & Hr).
      apply (unassign_again E' m w2 w3 ep); [done|by rewrite Ha2|lia| |done]. rewrite Hf2, <- Hmid. rewrite <- Hep. apply Retire_to; [done|done|]. unfold Retired. by rewrite Hr.
    + destruct (String.eqb_spec (Str (ParsePayload m) "match_id" EmptyString) EmptyString) as [Em|Em].
      * exfalso. apply Hne. rewrite Hw1, Em. done.
      * apply (unassign_again E' m w2 w3 ep); [done|by rewrite Ha2|done| |done]. rewrite Hf2. destruct Hw as [Hf _ _]. apply Retire_to; [done|done|].
        pose proof (CheckScoped_refused _ _ _ _ Hs Ha Em Hpos). lia.
Qed.

(** ** Commands *)

(** A command that may act: not expired; about the match that runs, when it is about a match; a console command only from a root admin. *)
Record may_act (E : Env) (m : Msg) (w : Link) : Prop := {
  ma_fresh : exists n, Int (ParsePayload m) "expires_at" 0 = Some n /\ ~ (0 < n < unixMs E);
  ma_match : Mi.one_of (Str (ParsePayload m) "name" EmptyString) kMatchCmds = true \/ Str (ParsePayload m) "match_id" EmptyString <> EmptyString ->
             active (g_asg w) = true /\ match_id (g_asg w) = Str (ParsePayload m) "match_id" EmptyString /\ MsgEpoch m (ParsePayload m) = Some (epoch (g_asg w));
  ma_exec : Str (ParsePayload m) "name" EmptyString = "exec" ->
            Bool (obj_of (ParsePayload m) "issued_by") "root" false = true /\ exec_text (Str (obj_of (ParsePayload m) "args") "command" EmptyString);
}.

Lemma refusal_none w nm mid ep : cmd_refusal w nm mid ep = None -> Mi.one_of nm kMatchCmds = true \/ mid <> EmptyString ->
  active (g_asg w) = true /\ match_id (g_asg w) = mid /\ epoch (g_asg w) = ep.
Proof.
  unfold cmd_refusal. intros H Hc. replace (Mi.one_of nm kMatchCmds || negb (sempty mid)) with true in H.
  - destruct (sempty mid); [done|]. destruct (CheckScoped _ _ mid ep) eqn:Ev; try done. by apply CheckScoped_ok in Ev.
  - symmetry. apply orb_true_iff. destruct Hc as [Hc|Hc]; [by left|right]. by destruct mid.
Qed.

Lemma run_exec E args issued by' ref aud ep : run_cmd E "exec" args issued by' ref aud ep = CmdExec E args issued ref aud ep.
Proof. reflexivity. Qed.

(** A console command that is refused is only answered. *)
Lemma exec_refused E args issued ref aud ep w r w' : CmdExec E args issued ref aud ep w = Some (r, w') ->
  Bool issued "root" false = false \/ ValidateExec (Str args "command" EmptyString) <> None -> w' = w /\ r <> None.
Proof.
  unfold CmdExec. cbv zeta. intros H Hr. destruct (Bool issued "root" false); cbn [negb] in H; [|by injection H as <- <-].
  destruct Hr as [|Hr]; [done|]. destruct (ValidateExec _); [by injection H as <- <-|done].
Qed.

(** Claim C15.  A command of the platform is only answered, and changes nothing, unless it may act: it has not expired; if it is a match command, or names a match, it names the match that is assigned here and its epoch; and if it runs a console command, a root admin sent it and its text is one line of 1 to 512 bytes, without a line break or a NUL, in which no part between semicolons is, behind blanks and quotes and in any case, a command of the fleet link: [fleet], [ru] with [fleet] in what follows, or a word that begins with [ru_fleet]. *)
Theorem commands_fenced E m w w' : OnCmd E m w = Some (tt, w') -> (exists l, w' = w <| out := out w ++ l |> /\ Forall told l) \/ may_act E m w.
Proof.
  unfold OnCmd. intros H. change (and_told w w' \/ may_act E m w). apply bind_inv in H as (ep & w1 & Hep & H). destruct (MsgEpoch m _) as [ep'|] eqn:Eep; [|done]. injection Hep as -> <-. cbv zeta in H.
  apply bind_inv in H as (n & w1 & Hn & H). destruct (Int _ "expires_at" 0) as [n'|] eqn:En; [|done]. injection Hn as -> <-.
  destruct (_ && _) eqn:Ex; [left; by apply tells_Reply in H|]. apply bind_inv in H as (w0 & w1 & Hw & H). injection Hw as <- <-.
  destruct (cmd_refusal w _ _ ep) as [r|] eqn:Er; [left; by apply tells_Reply in H|]. apply bind_inv in H as (r & w1 & Hr & H).
  assert (forall k : Prop, (Str (ParsePayload m) "name" EmptyString = "exec" -> Bool (obj_of (ParsePayload m) "issued_by") "root" false = false \/
      ValidateExec (Str (obj_of (ParsePayload m) "args") "command" EmptyString) <> None -> k) -> (may_act E m w -> k) -> k) as Hcase.
  { intros k Hbad Hgood. assert (may_act E m w \/ Str (ParsePayload m) "name" EmptyString = "exec" /\ (Bool (obj_of (ParsePayload m) "issued_by") "root" false = false \/
        ValidateExec (Str (obj_of (ParsePayload m) "args") "command" EmptyString) <> None)) as [?|[? ?]]; [|auto|auto].
    destruct (String.eqb_spec (Str (ParsePayload m) "name" EmptyString) "exec") as [Ee|Ee].
    - destruct (Bool (obj_of _ _) "root" false) eqn:Eb; [|by auto]. destruct (ValidateExec _) eqn:Evx; [by right; split; [|right]|]. apply ValidateExec_sound in Evx.
      left. split; [exists n; split; [done|lia]|intros Hc; by destruct (refusal_none _ _ _ _ Er Hc) as (? & ? & <-)|done].
    - left. split; [exists n; split; [done|lia]|intros Hc; by destruct (refusal_none _ _ _ _ Er Hc) as (? & ? & <-)|done]. }
  apply Hcase; [|by right]. intros Ee Hbad. left. rewrite Ee, run_exec in Hr. apply exec_refused in Hr as [-> Hr]; [|done].
  destruct r as [r|]; [by apply tells_Reply in H|done].
Qed.

(** ** The events and patches *)

(** The patch and the revision of a message to the platform. *)
Definition state_message (e : Eff) : option (Json * Z) :=
  match e with
  | Sent _ p _ _ => match Find p "patch", Find p "rev" with Some x, Some (JInt r) => Some (x, r) | _, _ => None end
  | _ => None
  end.

Section Stream.
Context (E : Env) (Hlinked : linked E = true).

(** The operations on the stream behind an operation here. *)
Definition streamed (w w' : Link) : Prop := exists os l ms,
  Forall op_sound os /\ stream_run (g_stream w) os = (g_stream w', ms) /\ out w' = out w ++ l /\ omap state_message l = ms.
Definition streams {A} (m : M A) : Prop := forall w a w', m w = Some (a, w') -> streamed w w'.

Lemma stream_run_app s a b : stream_run s (a ++ b) = let '(s1, m1) := stream_run s a in let '(s2, m2) := stream_run s1 b in (s2, m1 ++ m2).
Proof.
  revert s. induction a as [|o a IH]; intros s; cbn [app stream_run]; [by destruct (stream_run s b)|]. destruct (stream_op s o) as [s1 m]. rewrite IH.
  destruct (stream_run s1 a) as [s2 m1]. destruct (stream_run s2 b) as [s3 m2]. by destruct m.
Qed.
Lemma streamed_refl w : streamed w w.
Proof. exists [], [], []. rewrite app_nil_r. split_and!; [constructor|done..]. Qed.
Lemma streamed_trans w1 w2 w3 : streamed w1 w2 -> streamed w2 w3 -> streamed w1 w3.
Proof.
  intros (o1 & l1 & ms1 & Ho1 & Hs1 & Hl1 & Hm1) (o2 & l2 & ms2 & Ho2 & Hs2 & Hl2 & Hm2). exists (o1 ++ o2), (l1 ++ l2), (ms1 ++ ms2).
  rewrite stream_run_app, Hs1, Hs2, Hl2, Hl1, omap_app, Hm1, Hm2, app_assoc. split_and!; [by apply Forall_app|done..].
Qed.
Lemma streams_bind {A B} (m : M A) (k : A -> M B) : streams m -> (forall a, streams (k a)) -> streams (a ← m; k a).
Proof. intros H1 H2 w b w' H. apply bind_inv in H as (a & w1 & Ha & Hb). apply (streamed_trans w w1 w'); [exact (H1 _ _ _ Ha)|exact (H2 _ _ _ _ Hb)]. Qed.
Lemma streams_ret {A} (a : A) : streams (mret a).
Proof. intros w b w' [= _ <-]. apply streamed_refl. Qed.
Lemma streams_lift {A} (o : option A) : streams (lift o).
Proof. intros w b w'. destruct o; cbn; [intros [= _ <-]; apply streamed_refl|done]. Qed.

Lemma event_message a b mid e patch rev ep ref : state_message (Sent ("event." +s+ ev_type e) (event_json mid a b e patch rev) ep ref) = Some (patch, rev).
Proof. unfold state_message, event_json, Fs.when. cbv zeta. by destruct (0 <? (if 0 <=? ev_round e then ev_round e else b)). Qed.

(** One message with the stream's step. *)
Lemma sent_step s' patch rev type p ep ref w w' : state_message (Sent type p ep ref) = Some (patch, rev) ->
  (change (fun w => w <| g_stream := s' |>) ;; Send E type p ep ref) w = Some (tt, w') ->
  g_stream w' = s' /\ exists l, out w' = out w ++ l /\ omap state_message l = [(patch, rev)].
Proof.
  intros Hm H. apply bind_inv in H as ([] & w1 & Hc & H). injection Hc as <-. unfold Send, when in H. rewrite Hlinked in H. injection H as <-. destruct w. cbn. split; [done|].
  exists [Sent type p ep ref]. split; [done|]. cbn. cbn in Hm. by rewrite Hm.
Qed.

Lemma send_event_run a b e patch rev w w' : send_event E a b e patch rev w = Some (tt, w') ->
  Send E ("event." +s+ ev_type e) (event_json (match_id (g_asg w)) a b e patch rev) (epoch (g_asg w)) EmptyString w = Some (tt, w').
Proof. intros H. apply bind_inv in H as (x & w1 & Hx & H). by injection Hx as <- <-. Qed.
Lemma event_step a b e s' patch rev w w' : (change (fun w => w <| g_stream := s' |>) ;; send_event E a b e patch rev) w = Some (tt, w') ->
  g_stream w' = s' /\ exists l, out w' = out w ++ l /\ omap state_message l = [(patch, rev)].
Proof.
  intros H. apply bind_inv in H as ([] & w1 & Hc & H). apply send_event_run in H.
  apply (sent_step s' patch rev ("event." +s+ ev_type e) (event_json (match_id (g_asg w1)) a b e patch rev) (epoch (g_asg w1)) EmptyString w w'); [apply event_message|].
  unfold mbind, M_bind. by rewrite Hc.
Qed.

Lemma streamed_one o w w1 patch rev : stream_op (g_stream w) o = (g_stream w1, Some (patch, rev)) -> op_sound o ->
  (exists l, out w1 = out w ++ l /\ omap state_message l = [(patch, rev)]) -> streamed w w1.
Proof. intros Ho Hs (l & Hl & Hm). exists [o], l, [(patch, rev)]. cbn [stream_run]. rewrite Ho. split_and!; [by repeat constructor|done..]. Qed.

Lemma rev_only_streams a b evs : forall l, streams (emit_rev_only E a b evs l).
Proof.
  induction evs as [|e evs IH]; intros l; cbn [emit_rev_only]; [apply streams_ret|]. destruct (negb _); [apply IH|]. intros w r w' H.
  apply bind_inv in H as (s & w1 & Hs & H). injection Hs as <- <-. destruct (BumpRevOnly (g_stream w)) as [s' [[patch rev]|]] eqn:Eb; [|by apply streams_ret in H].
  apply bind_inv in H as ([] & w1 & Hc & H). apply bind_inv in H as ([] & w2 & Hse & H).
  assert ((change (fun w => w <| g_stream := s' |>) ;; send_event E a b e patch rev) w = Some (tt, w2)) as Hst by (unfold mbind, M_bind; by rewrite Hc).
  apply event_step in Hst as [Hg Hl]. apply (streamed_trans w w2 w'); [|by apply IH in H]. apply (streamed_one OpBump w w2 patch rev); [by rewrite Hg|done|done].
Qed.
Lemma emit_events_streams a b st evs : IsObject st = true -> nan_free st = true -> streams (emit_events E a b st evs).
Proof.
  intros Ho Hn. induction evs as [|e evs IH]; cbn [emit_events]; [apply streams_ret|]. intros w r w' H.
  apply bind_inv in H as (s & w1 & Hs & H). injection Hs as <- <-. destruct (Advance (g_stream w) st true) as [s' m] eqn:Ea.
  assert (exists patch rev, m = Some (patch, rev)) as (patch & rev & ->) by (unfold Advance in Ea; rewrite andb_false_r in Ea; injection Ea as _ <-; eauto).
  cbn [default from_option id] in H. apply bind_inv in H as ([] & w1 & Hc & H). apply bind_inv in H as ([] & w2 & Hse & H).
  assert ((change (fun w => w <| g_stream := s' |>) ;; send_event E a b e patch rev) w = Some (tt, w2)) as Hst by (unfold mbind, M_bind; by rewrite Hc).
  apply event_step in Hst as [Hg Hl]. apply (streamed_trans w w2 w'); [|by apply IH in H].
  apply (streamed_one (OpState st true) w w2 patch rev); [cbn [stream_op]; by rewrite Hg|done|done].
Qed.
Lemma send_patch_streams st : IsObject st = true -> nan_free st = true -> streams (send_patch E st).
Proof.
  intros Ho Hn w [] w' H. unfold send_patch in H. apply bind_inv in H as (s & w1 & Hs & H). injection Hs as <- <-. apply bind_inv in H as (x & w1 & Hx & H). injection Hx as <- <-.
  destruct (Advance (g_stream w) st false) as [s' [[patch rev]|]] eqn:Ea; [|by apply streams_ret in H].
  apply (sent_step s' patch rev) in H as [Hg Hl]; [|done]. apply (streamed_one (OpState st false) w w' patch rev); [cbn [stream_op]; by rewrite Hg|done|done].
Qed.
Lemma EmitAll_streams st evs : IsObject st = true -> nan_free st = true -> streams (EmitAll E st evs).
Proof.
  intros Ho Hn. unfold EmitAll. destruct evs as [|e evs]; [by apply send_patch_streams|]. apply streams_bind; [apply streams_lift|intros a]. apply streams_bind; [apply streams_lift|intros b].
  intros w r w' H. apply bind_inv in H as (s & w1 & Hs & H). injection Hs as <- <-. apply bind_inv in H as (rest & w1 & Hr & H).
  apply (streamed_trans w w1 w').
  - destruct (HasState _); [by apply rev_only_streams in Hr|by apply streams_ret in Hr].
  - destruct rest; [by apply send_patch_streams in H|by apply emit_events_streams in H].
Qed.

(** The states and events of a run, one after the other. *)
Definition emit_run (l : list (Json * list Ev)) : M unit := for_each (fun x => EmitAll E x.1 x.2) l.
Lemma emit_run_streams l : Forall (fun x => IsObject x.1 = true /\ nan_free x.1 = true) l -> streams (emit_run l).
Proof.
  induction 1 as [|[st evs] l [Ho Hn] Hl IH]; cbn; [apply streams_ret|]. apply streams_bind; [by apply EmitAll_streams|done].
Qed.

(** Claim C8.  While the link is up, the platform that starts from the state of an assignment and applies the patch of every event and state message in order ends with the server's state: no revision is missing or repeated, whatever events the states come with and in whatever order, chat lines included. *)
Theorem events_replay st0 rev0 l w w' : IsObject st0 = true -> nan_free st0 = true -> g_stream w = Reset st0 rev0 ->
  Forall (fun x => IsObject x.1 = true /\ nan_free x.1 = true) l -> emit_run l w = Some (tt, w') ->
  exists sent st, out w' = out w ++ sent /\ foldl receive (Some (state_ (g_stream w), rev0)) (omap state_message sent) = Some (st, rev_ (g_stream w')) /\
                  json_eqb st (state_ (g_stream w')) = true.
Proof.
  intros Ho Hn Hw Hl H. apply (emit_run_streams l Hl) in H as (os & sent & ms & Hos & Hrun & Hout & Hms).
  pose proof (run_follows os Hos (state_ (Reset st0 rev0)) (Reset st0 rev0) (reset_in_step st0 rev0 Ho Hn)) as Hf. rewrite <- Hw, Hrun in Hf.
  destruct Hf as (st & Hrec & Heq). exists sent, st. split; [exact Hout|]. split; [|exact Heq]. rewrite Hms. by rewrite Hw in Hrec |- *.
Qed.

End Stream.

(** ** A reload of the plugin *)

Lemma sent_reload (s : gset string) : list_to_set (AsString <$> (JString <$> sorted_keys s)) = s.
Proof.
  rewrite <- list_fmap_compose. rewrite (list_fmap_ext _ id) by done. rewrite list_fmap_id. unfold sorted_keys. apply set_eq. intros x.
  rewrite elem_of_list_to_set, (merge_sort_Permutation str_le (elements s)). by rewrite elem_of_elements.
Qed.

(** What is kept of a running assignment. *)
Record reload_keeps (w w' : Link) : Prop := {
  rk_core : core w' = core w;
  rk_stream : g_stream w' = g_stream w;
  rk_sent : g_sentBackups w' = g_sentBackups w;
  rk_loading : loading (g_phase w') = loading (g_phase w) || handOverPending (g_phase w);
  rk_flags : restoring (g_phase w') = restoring (g_phase w) /\ seriesOver (g_phase w') = seriesOver (g_phase w) /\ serverReset (g_phase w') = serverReset (g_phase w);
  rk_round : latestBackupRound (g_phase w') = latestBackupRound (g_phase w);
  rk_live : lastLive (g_phase w') = lastLive (g_phase w);
  rk_resume : resumeActive (g_resume w') = resumeActive (g_resume w) /\ resumeRestored (g_resume w') = resumeRestored (g_resume w) /\
              (resumeActive (g_resume w) = true -> resumePlan (g_resume w') = resumePlan (g_resume w));
}.

Lemma resume_member w : Find (SnapshotJson w) "resume" = if resumeActive (g_resume w) then Some (ResumeToJson (resumePlan (g_resume w))) else None.
Proof. unfold SnapshotJson, Fs.when. by destruct (resumeActive (g_resume w)). Qed.

(** Claim C16.  A reload of the match plugin keeps the platform's assignment: the new image, given what the old one saved, has the same match, epoch, config, fence against old messages, state and revision, forwarded backups, flags of the series and, while one is under way, the failover's resume plan. *)
Theorem link_reload w : asg_ok (g_asg w) (g_fence w) -> active (g_asg w) = true -> savable (g_stream w) -> int32_ok (latestBackupRound (g_phase w)) ->
  plan_saved (resumePlan (g_resume w)) -> exists w', RestoreJson (SnapshotJson w) BootLink = Some w' /\ reload_keeps w w'.
Proof.
  intros [Hf _ _] Ha Hs Hb Hp. set (j := SnapshotJson w). unfold RestoreJson.
  change (Find j "fence") with (Some (FenceToJson (g_fence w))). cbv match. rewrite (fence_saved _ Hf). cbn [mbind option_bind].
  change (Bool j "active" false) with (active (g_asg w)). rewrite Ha. cbn [negb].
  change (Int j "epoch" 1) with (Some (epoch (g_asg w))). change (Int j "config_rev" 1) with (Some (config_rev (g_asg w))).
  change (Int j "live_rev" 0) with (Some (rev_ (g_stream w))). change (Int j "latest_backup_round" (-1)) with (Some (latestBackupRound (g_phase w))). cbn [mbind option_bind].
  rewrite (resume_member w : Find j "resume" = _). set (rp := resumePlan (g_resume w)).
  assert (exists rp', match (if resumeActive (g_resume w) then Some (ResumeToJson rp) else None) with Some r => ResumeFromJson r | None => Some (resumePlan (g_resume (set g_fence (fun _ => g_fence w) BootLink))) end = Some rp' /\
    (resumeActive (g_resume w) = true -> rp' = rp)) as (rp' & -> & Hrp).
  { destruct (resumeActive (g_resume w)); [exists rp; rewrite (resume_saved rp Hp); split; [reflexivity|done]|eexists; split; [reflexivity|done]]. }
  cbn [mbind option_bind]. eexists. split; [reflexivity|].
  change (Find j "config") with (Some (g_config w)). change (Str j "match_id" EmptyString) with (match_id (g_asg w)).
  change (Copy (Find j "state")) with (state_ (g_stream w)). rewrite (savable_reset _ Hs).
  change (Bool j "loading" false) with (loading (g_phase w) || handOverPending (g_phase w)). change (Bool j "series_over" false) with (seriesOver (g_phase w)).
  change (Bool j "server_reset" false) with (serverReset (g_phase w)). change (Copy (Find j "last_live")) with (lastLive (g_phase w)).
  change (Bool j "restoring" false) with (restoring (g_phase w)). change (Find j "sent_backups") with (Some (JArray (JString <$> sorted_keys (g_sentBackups w)))).
  change (Bool j "resume_active" false) with (resumeActive (g_resume w)). change (Bool j "resume_restored" false) with (resumeRestored (g_resume w)).
  cbn [Items]. rewrite sent_reload, (to_int32_id _ Hb). clear -Ha Hrp. subst rp. destruct w as [a c f s p r k x d g v cl sb fi ld ch o], a as [act mid ep cr]. cbn in *. subst act.
  split; cbn; try done. by rewrite union_empty_r_L.
Qed.

(** What is not kept: the hand-over, which the new image takes for a load that began, so the match is never loaded. *)
Lemma handover_forgotten w w' : RestoreJson (SnapshotJson w) BootLink = Some w' -> handOverPending (g_phase w') = false.
Proof.
  unfold RestoreJson. intros H. apply bind_Some in H as (f & _ & H). destruct (negb _); [by injection H as <-|].
  apply bind_Some in H as (ep & _ & H). apply bind_Some in H as (cr & _ & H). apply bind_Some in H as (lr & _ & H). apply bind_Some in H as (lb & _ & H).
  apply bind_Some in H as (rp & _ & H). injection H as <-. reflexivity.
Qed.

(** ** Backups *)

Lemma stake_whole n : forall s, (String.length s <= n)%nat -> stake n s = s.
Proof. induction n as [|n IH]; intros s H; destruct s as [|c s]; cbn in *; try done; [lia|]. rewrite IH; [done|lia]. Qed.
Lemma one_part_text data : slen data <= kBackupPartRaw -> part_text data 0 = data.
Proof. intros H. unfold part_text. change (Z.to_nat (0 * kBackupPartRaw)) with 0%nat. replace (sdrop 0 data) with data by (by destruct data). apply stake_whole. unfold slen in H. lia. Qed.
Lemma one_part nm data mapNumber s1 s2 : sempty data = false -> slen data <= kBackupPartRaw ->
  backup_parts nm data mapNumber s1 s2 = [backup_part nm data (BackupRoundFromName nm + 1) mapNumber s1 s2 1 0].
Proof.
  intros He Hl. unfold backup_parts. rewrite He. assert (0 < slen data) as Hpos by (destruct data; [done|unfold slen; cbn; lia]).
  assert ((kBackupMaxRaw <? slen data) = false) as -> by (apply Z.ltb_ge; unfold kBackupMaxRaw, kBackupPartRaw in *; lia). cbn [orb].
  assert ((slen data + kBackupPartRaw - 1) / kBackupPartRaw = 1) as -> by (unfold kBackupPartRaw in *; symmetry; apply (Z.div_unique _ _ _ (slen data - 1)); lia). reflexivity.
Qed.

(** The backup of [data] with another content in it. *)
Definition travelling (nm data content : string) (rnd mapNumber s1 s2 : Z) : Json :=
  JObject [("map_number", JInt mapNumber); ("round", JInt rnd); ("file", JString nm); ("size", JInt (slen data)); ("sha256", JString (Sha256Hex data));
           ("score", JObject [("team1", JInt s1); ("team2", JInt s2)]); ("encoding", JString "base64"); ("data", JString (Base64Encode content))].
Lemma inline_read nm data content rnd mapNumber s1 s2 : SafeBackupFileName nm = true -> 1 <= rnd ->
  inline_part (travelling nm data content rnd mapNumber s1 s2) mapNumber (-1) =
  if sempty content then refuse "invalid_config" "backup.data is not base64"
  else if negb (Sha256Hex content =s Sha256Hex data) then refuse "checksum" "backup sha256 mismatch"
  else if negb (slen data =? slen content) then refuse "checksum" "backup size mismatch"
  else Some (inr {| b_inline := true; b_file := nm; b_raw := content; b_sha := Sha256Hex content; b_round := rnd; b_score := ScorePair (Some (JObject [("team1", JInt s1); ("team2", JInt s2)])) |}).
Proof.
  intros Hn Hr. set (b := travelling nm data content rnd mapNumber s1 s2). unfold inline_part.
  change (Int b "parts" 1) with (Some 1). change (Str b "file" EmptyString) with nm. change (Str b "encoding" "base64") with "base64". change (Str b "data" EmptyString) with (Base64Encode content).
  change (Str b "sha256" EmptyString) with (Sha256Hex data). assert (forall d, Int b "size" d = Some (slen data)) as Hsize by done. change (Int b "map_number" mapNumber) with (Some mapNumber).
  change (Int b "round" 0) with (Some rnd). change (Find b "score") with (Some (JObject [("team1", JInt s1); ("team2", JInt s2)])). clearbody b.
  change ("base64" =s "base64") with true. rewrite base64_roundtrip, Hn. unfold given, invalid, demand, ok. cbn [fmap option_fmap option_map rbind]. change (1 <=? 1) with true. cbn [rbind].
  destruct content as [|c content]; [done|]. cbn [sempty]. destruct (_ =s _); [|done]. cbn [rbind negb]. rewrite Hsize. cbn [fmap option_fmap option_map rbind].
  destruct (slen data =? _); [|done]. cbn [rbind negb]. rewrite Z.eqb_refl. cbn [rbind]. destruct (Z.leb_spec 1 rnd); [|lia]. done.
Qed.

(** Claim C20.  A round backup this server forwards in one part is what a failover's resume reads: the platform can give the event's backup back as it is, and the resume accepts it as the content the file had, under its name, for the round it starts and with its score; a content that differs in any way from the digest is refused. *)
Theorem backup_travels nm data mapNumber s1 s2 : SafeBackupFileName nm = true -> 0 <= BackupRoundFromName nm -> sempty data = false -> slen data <= kBackupPartRaw ->
  0 <= s1 <= 999 -> 0 <= s2 <= 999 ->
  exists b, backup_parts nm data mapNumber s1 s2 = [b] /\
    inline_part b mapNumber (-1) = Some (inr {| b_inline := true; b_file := nm; b_raw := data; b_sha := Sha256Hex data; b_round := BackupRoundFromName nm + 1; b_score := Some (s1, s2) |}) /\
    forall data2 r, inline_part (SetKey b "data" (JString (Base64Encode data2))) mapNumber (-1) = Some (inr r) -> b_raw r = data2 /\ Sha256Hex data2 = Sha256Hex data /\ slen data2 = slen data.
Proof.
  intros Hn Hr He Hl H1 H2. rewrite one_part by done. exists (travelling nm data data (BackupRoundFromName nm + 1) mapNumber s1 s2). split; [|split].
  - unfold backup_part, travelling. by rewrite one_part_text.
  - rewrite inline_read by (done || lia). rewrite He, String.eqb_refl, Z.eqb_refl. cbn [negb]. unfold ScorePair. cbn. 
    destruct (Z.ltb_spec s1 0), (Z.ltb_spec s2 0); try lia. cbn. by rewrite !to_int32_id by (unfold int32_ok; lia).
  - intros data2 r Hread. change (SetKey (travelling nm data data (BackupRoundFromName nm + 1) mapNumber s1 s2) "data" (JString (Base64Encode data2)))
      with (travelling nm data data2 (BackupRoundFromName nm + 1) mapNumber s1 s2) in Hread. rewrite inline_read in Hread by (done || lia).
    destruct (sempty data2); [done|]. destruct (String.eqb_spec (Sha256Hex data2) (Sha256Hex data)) as [E|]; [|done]. cbn [negb] in Hread.
    destruct (Z.eqb_spec (slen data) (slen data2)) as [E2|]; [|done]. cbn [negb] in Hread. injection Hread as <-. done.
Qed.

(** ** At a concrete server *)

Definition sample_env : Env := {|
  unixMs := 1700000000000; hasFleet := true; linked := true; serverId := "s1"; currentMap := "de_dust2"; humans := [(2, 76561197960265729)]; mode := Mo.Idle; modeAfterReset := Mo.Idle;
  goLive := false; awaitingPick := false; pause_ := {| PauseState.paused := false; PauseState.team1_ready_to_unpause := false; PauseState.team2_ready_to_unpause := false; PauseState.type_ := EmptyString; PauseState.by_ := EmptyString; PauseState.team := Unknown |};
  pauseUsed := fun _ _ => 0; live_ := JNull; statsScore := None; takes := fun _ => true; licensed := true; server := RDefault; saved := None; matchEndPending := false; noDemoDelay := 5;
  roundOver := false; inFreeze := false; curMapNumber := 1; isDevBot := fun _ => false; localFile := fun _ => None; findLocal := fun _ _ => None; writeBackup := fun _ _ => None; autoUnpause := false;
  forceStarts := fun _ => true; liveCfgRequired := false; gotvDown := false; swapRefused := None; settingError := fun _ _ => None; setError := fun _ _ => None; settingLines := [];
  consoleTakes := fun _ _ => true; backupKey := fun n => n; fleetInstance := 1; adminsNewer := fun _ => true; connectAddress := fun _ => None |}.
Definition msg (t : string) (p : Json) : Msg := {| m_type := t; m_id := "r1"; m_epoch := 0; m_payload := Dump p |}.
Definition assign_msg : Msg := msg "match.assign" (JObject [("match_id", JString "m-1"); ("epoch", JInt 3); ("config_rev", JInt 4); ("config", sample_assign)]).

Definition unassign_msg : Msg := msg "match.unassign" (JObject [("match_id", JString "m-1"); ("epoch", JInt 3)]).

Definition then_run {A} (m : M A) (w : option Link) : option Link := w ← w; snd <$> m w.
Definition assigned_sample : option Link := then_run (OnMessage sample_env assign_msg) (Some BootLink).
Example assign_works : (fun w => (g_asg w, handOverPending (g_phase w), loading (g_phase w), length (out w))) <$> assigned_sample =
  Some ({| active := true; match_id := "m-1"; epoch := 3; config_rev := 4 |}, false, true, 8%nat).
Proof. vm_compute. reflexivity. Qed.

(** And after a reload of the plugin. *)
Definition reloaded_sample : option Link := assigned_sample ≫= run_op Reload.
Example reload_keeps_assignment : (fun w => (g_asg w, retired_ (g_fence w) !! "m-1")) <$> reloaded_sample =
  Some ({| active := true; match_id := "m-1"; epoch := 3; config_rev := 4 |}, Some 3).
Proof. vm_compute. reflexivity. Qed.
Definition again_works : bool :=
  match reloaded_sample with
  | Some w0 => match OnMessage sample_env unassign_msg w0 with
      | Some (_, w1) => negb (active (g_asg w1)) && active (g_asg w0) && match OnMessage sample_env unassign_msg w1 with Some _ => true | None => false end
      | None => false
      end
  | None => false
  end.
Lemma redelivery_harmless_witness :
  match reloaded_sample with
  | Some w0 => match OnMessage sample_env unassign_msg w0 with
      | Some (_, w1) => match OnMessage sample_env unassign_msg w1 with Some (_, w3) => exists l, w3 = w1 <| out := out w1 ++ l |> /\ Forall told l | None => False end
      | None => False
      end
  | None => False
  end.
Proof.
  assert (again_works = true) as Hc by (vm_compute; reflexivity). unfold again_works in Hc. destruct reloaded_sample as [w0|] eqn:E0; [|done].
  destruct (OnMessage sample_env unassign_msg w0) as [[[] w1]|] eqn:E1; [|done]. apply andb_prop in Hc as [[Hn Ha]%andb_prop Hc].
  destruct (OnMessage sample_env unassign_msg w1) as [[[] w3]|] eqn:E3; [|done].
  apply (redelivery_harmless w0 sample_env unassign_msg w1 sample_env w1 w3); [|exact E1| |reflexivity|exact E3].
  - exists [Message sample_env assign_msg; Reload]. exact E0.
  - intros H. apply core_parts in H as (H & _ & _). rewrite H, Ha in Hn. discriminate.
Defined.

(** A console command of an admin who is not root. *)
Definition exec_msg : Msg := msg "cmd" (JObject [("name", JString "exec"); ("args", JObject [("command", JString "status")]); ("issued_by", JObject [("root", JBool false)])]).
Lemma commands_fenced_witness : match OnCmd sample_env exec_msg BootLink with Some (_, w') => exists l, w' = BootLink <| out := out BootLink ++ l |> /\ Forall told l | None => False end.
Proof.
  assert (match OnCmd sample_env exec_msg BootLink with Some _ => true | None => false end = true) as Hc by (vm_compute; reflexivity).
  destruct (OnCmd sample_env exec_msg BootLink) as [[[] w']|] eqn:E; [|done]. destruct (commands_fenced sample_env exec_msg BootLink w' E) as [H|[_ _ H]]; [exact H|].
  exfalso. assert (Str (ParsePayload exec_msg) "name" EmptyString = "exec") as Hn by (vm_compute; reflexivity). destruct (H Hn) as [Hr _]. vm_compute in Hr. discriminate.
Defined.

(** A chat line and a round with the first change, then a change without an event. *)
Definition sample_run : list (Json * list Ev) :=
  [(read_json "{`phase`:`live`,`score`:1}", [event "chat" (JObject []); event "round_start" (JObject [])]); (read_json "{`phase`:`live`,`score`:2}", [])].
Definition streaming : Link := BootLink <| g_stream := Reset sample_first 7 |>.
Lemma events_replay_witness : match emit_run sample_env sample_run streaming with
  | Some (_, w') => rev_ (g_stream w') = 10 /\ exists sent st, out w' = out streaming ++ sent /\
      foldl receive (Some (state_ (g_stream streaming), 7)) (omap state_message sent) = Some (st, 10) /\ json_eqb st (state_ (g_stream w')) = true
  | None => False
  end.
Proof.
  assert (match emit_run sample_env sample_run streaming with Some (_, w') => rev_ (g_stream w') =? 10 | None => false end = true) as Hc by (vm_compute; reflexivity).
  assert (Forall (fun x => IsObject x.1 = true /\ nan_free x.1 = true) sample_run) as Hs by (repeat constructor).
  destruct (emit_run sample_env sample_run streaming) as [[[] w']|] eqn:E; [|done]. apply Z.eqb_eq in Hc. split; [exact Hc|].
  destruct (events_replay sample_env eq_refl sample_first 7 sample_run streaming w' eq_refl eq_refl eq_refl Hs E) as (sent & st & H1 & H2 & H3).
  exists sent, st. split; [exact H1|]. rewrite Hc in H2. split; [exact H2|exact H3].
Defined.

Definition running : Link :=
  BootLink <| g_asg := {| active := true; match_id := "m-1"; epoch := 3; config_rev := 4 |} |> <| g_config := sample_assign |> <| g_fence := Retire NewFence "m-1" 3 |>
           <| g_stream := Reset sample_first 7 |> <| g_sentBackups := {["a|1|2"]} |>.
Lemma link_reload_witness : exists w', RestoreJson (SnapshotJson running) BootLink = Some w' /\ reload_keeps running w'.
Proof.
  apply (link_reload running); [|reflexivity|by apply savable_new|done|].
  - apply (asg_new (Retire NewFence "m-1" 3) "m-1" 3 4); [done|lia|apply retire_ok, fence_new|by vm_compute].
  - split; [repeat constructor; done|constructor|done|done].
Defined.

Lemma backup_travels_witness : exists b, backup_parts "readyup_backup_7_map1_round03.txt" "save" 1 2 1 = [b] /\
  inline_part b 1 (-1) = Some (inr {| b_inline := true; b_file := "readyup_backup_7_map1_round03.txt"; b_raw := "save"; b_sha := Sha256Hex "save"; b_round := 4; b_score := Some (2, 1) |}).
Proof.
  destruct (backup_travels "readyup_backup_7_map1_round03.txt" "save" 1 2 1) as (b & H1 & H2 & _); [reflexivity|by vm_compute|reflexivity|by vm_compute|lia|lia|].
  exists b. split; [exact H1|exact H2].
Defined.

(** A restore an admin asked for that waits for its round is kept when the match is ended and another is assigned: the
    old match's backup is loaded into the new one. *)
Definition old_restore : Restore := restore_of 1 5 "readyup_backup_1_map1_round04.txt" EmptyString "a" "restore" (JObject []) (-1) (-1).
Definition next_msg : Msg := msg "match.assign" (JObject [("match_id", JString "m-2"); ("epoch", JInt 1); ("config", sample_assign)]).
Definition live_env (over : bool) : Env := {|
  unixMs := 1700000000000; hasFleet := true; linked := true; serverId := "s1"; currentMap := "de_nuke"; humans := []; mode := Mo.MatchLive; modeAfterReset := Mo.Idle;
  goLive := false; awaitingPick := false; pause_ := pause_ sample_env; pauseUsed := fun _ _ => 0; live_ := JNull; statsScore := None; takes := fun _ => true; licensed := true; server := RDefault;
  saved := None; matchEndPending := false; noDemoDelay := 5; roundOver := over; inFreeze := false; curMapNumber := 1; isDevBot := fun _ => false; localFile := fun _ => None;
  findLocal := fun _ _ => None; writeBackup := fun _ _ => None; autoUnpause := false; forceStarts := fun _ => true; liveCfgRequired := false; gotvDown := false; swapRefused := None;
  settingError := fun _ _ => None; setError := fun _ _ => None; settingLines := []; consoleTakes := fun _ _ => true; backupKey := fun n => n; fleetInstance := 1; adminsNewer := fun _ => true;
  connectAddress := fun _ => None |}.
Definition outlived : option Link :=
  let w := then_run (DoRestore (live_env false) old_restore) assigned_sample in
  let w := then_run (OnMessage (live_env false) unassign_msg) w in
  let w := then_run (OnMessage sample_env next_msg) w in
  let w := then_run (RunDeferredRestore (live_env true)) w in
  then_run (RunDeferredRestore (live_env false)) w.
Example restore_outlives_match :
  (fun w => (match_id (g_asg w), existsb (fun e => match e with Cmd l => l =s "mp_backup_restore_load_file readyup_backup_1_map1_round04.txt" | _ => false end) (out w))) <$> outlived = Some ("m-2", true).
Proof. vm_compute. reflexivity. Qed.

End FbFacts.
